(* ===== verification/_CoqProject ===== *)
-Q . S2P
Prelude.v
IntMath.v
MemoryMap.v
Memory.v
Sh4State.v
Board.v
Sh4Core.v
Sh4Excp.v
Sh4Inst.v
Sh4InstMem.v
Sh4Arith.v
Sh4Decode.v
Sched.v
Sh4Exec.v
Tmu.v
Mmio.v
Frame.v
Sh4Irl.v
Holly.v
Events.v
Spg.v
SpgEvents.v
Twiddle.v
GfxObj.v
TexCache.v
TexRead.v
TexCoherent.v
TexSteps.v
Textures.v
RamBus.v
Ocache.v
Yuv.v
YuvPicture.v
Dmac.v
YuvDma.v
Mount.v
GdromResponse.v
Gdrom.v
GdromRead.v
GdromPio.v
Maple.v
MapleDma.v
Flash.v
WaveMem.v
Arm7.v
Arm7Board.v
Arm7Flags.v
Arm7Pipe.v
Arm7Excp.v
JitIL.v
Sh4Jit.v
Sh4JitSim.v
JitDeterm.v
Sh4JitRules.v
Sh4JitCorrect.v
Sh4JitFallback.v
Sh4JitRun.v
Sh4JitBlock.v
Sh4JitBoard.v
Avl.v
AvlFind.v
CodeCache.v
Sh4JitLoop.v
Fifo.v
ConfigFile.v
ConfigParse.v
Ring.v
