(* ===== verification/Prelude.v ===== *)
(** * Verification of the core of WashingtonDC

    WashingtonDC (src/) emulates the Sega Dreamcast.  This library models the machine's core
    as the C code of src/src/libwashdc/ implements it, and proves the properties that make it
    correct.  Paths below are relative to that directory.

    ** The program

    The emulator interprets (or compiles) the code of the console's SH-4 CPU.  The CPU reads
    and writes through a memory map that dispatches to RAM and devices.  Time is a 64-bit
    stamp; a scheduler keeps a queue of events sorted by stamp, and the main loop alternates
    between running the CPU up to the next event and running that event's handler.  Devices
    raise interrupt lines; the interrupt controller picks the line of the highest priority
    above the CPU's mask and enters its handler between two instructions, but never between a
    delayed branch and the instruction in its slot.  A second CPU, an ARM7 with its own memory
    and clock, runs the sound.  The graphics chip draws with textures in its own memory; the
    emulator keeps decoded copies of them on the host and must notice every change.

    ** The files

    - [Prelude]: outcomes of C code, the state and error monad, machine integers with their
      wrap-around, their lemmas, hints and tactics.
    - [IntMath] (intmath.h): addition and subtraction with flags, the saturating shift.
    - [MemoryMap] (MemoryMap.c, MemoryMap.h): regions and the access templates.
    - [Memory] (memory.c, memory.h): the RAM.
    - [Sh4State] (hw/sh4/sh4.h, sh4_reg_flags.h, sh4_reg_idx.h): [struct Sh4], the build's
      options as the class [BuildConfig], and the class [Machine] of what lies behind the CPU.
    - [Board] (dreamcast.c, [construct_sh4_mem_map]): the RAM's windows; a board with only
      RAM, on which the concrete instances of the theorems run.
    - [Sh4Core] (hw/sh4/sh4.c, sh4_ocache.c): status registers, register banks, the
      debugger's register interface, the store queues' PREF.
    - [Sh4Excp] (hw/sh4/sh4_excp.c, sh4_excp.h, sh4_read_inst.h): exceptions and interrupts.
    - [Sh4Inst], [Sh4InstMem] (hw/sh4/sh4_inst.c): one definition per integer instruction
      handler, with the handler's name; [Sh4Arith]: their arithmetic properties.
    - [Sh4Decode] (hw/sh4/sh4_inst.c): the opcode table and the decoder.
    - [Sched] (dc_sched.c, dc_sched.h): the event queue with its pointers, the timeslice.
    - [Sh4Exec] (hw/sh4/sh4_read_inst.h, sh4.h, dreamcast.c): fetch, decode, execute, cycle
      counting and [run_to_next_sh4_event].
    - [Tmu] (hw/sh4/sh4_tmu.c): the timer unit and its events.
    - [Mmio] (mmio.h): tables of register handlers.  [Frame]: what an operation leaves alone.
      [Sh4Irl]: raising a level on the CPU's interrupt pins, as a client sees it.
    - [Holly] (hw/sys/holly_intc.c, holly_intc.h): the interrupt controller of the system block.
    - [Events]: a device with events on the clock.  [Spg] (hw/pvr2/spg.c, spg.h): the raster beam
      and the blank interrupts; [SpgEvents]: its events.
    - [Twiddle] (hw/pvr2/pvr2_tex_cache.c): the pixel order of textures and the decoders.
      [GfxObj] (gfx/gfx_obj.c, gfx_tex_cache.c, rend_common.c, hw/pvr2/pvr2_gfx_obj.c,
      gfx/opengl/opengl_renderer.c): the renderer's objects and textures.  [TexCache]
      (hw/pvr2/pvr2_tex_cache.c, pvr2_tex_mem.c, and what they use of pvr2_reg.c, pvr2_ta.c and
      framebuffer.c): texture memory and the texture cache.  [TexRead]: what the decoder computes;
      [TexCoherent], [TexSteps]: the invariant of the cache; [Textures]: its theorems.
    - [Flash] (hw/flash_mem.c): the flash memory and its commands.
    - [RamBus]: the RAM behind the memory map, as a device with direct memory access sees it.
      [Ocache] (hw/sh4/sh4_ocache.c, sh4_mem.c, sh4_icache.c): the store queues, the operand cache
      as RAM, and the P4 area, whose registers are a parameter.
      [Yuv] (hw/pvr2/pvr2_yuv.c, pvr2_reg.c): the converter for film frames; [YuvPicture]: the
      picture it makes.  [Dmac] (hw/sh4/sh4_dmac.c, dreamcast.c): the DMA controller; [YuvDma]: a
      film frame from RAM to texture memory.  [Maple] (hw/maple/): the
      controllers' bus; [MapleDma]: a poll of the bus, end to end.
    - [Mount] (mount.c, cdrom.c): the disc.  [GdromResponse], [Gdrom] (hw/gdrom/gdrom_response.c,
      gdrom.c): the GD-ROM drive, its commands, transfers and registers; [GdromRead], [GdromPio]:
      sectors read with the DMA and at the data register.
    - [WaveMem] (hw/aica/aica_wave_mem.c): the sound memory.  [Arm7] (hw/arm7/arm7.c, arm7.h,
      dreamcast.c): the sound CPU, its instructions, decoder, prefetch buffer, exceptions and
      loop; [Arm7Board] (dreamcast.c): its bus; [Arm7Flags], [Arm7Pipe], [Arm7Excp]: its
      properties.
    - [JitIL] (jit/jit_il.c, jit_il.h, code_block.c, jit_intp/code_block_intp.c): the JIT's
      intermediate language, its blocks and their interpreter.
    - [Sh4Jit] (hw/sh4/sh4_jit.c, sh4_jit.h, jit/jit_mem.c): the translation of SH-4 code,
      with registers kept in slots.  [Sh4JitSim], [Sh4JitRules]: the relation between a
      running block and the interpreter's CPU, and its rules; [Sh4JitCorrect],
      [Sh4JitFallback]: the translators against the interpreter's handlers; [Sh4JitRun],
      [Sh4JitBlock]: whole blocks, with branches and delay slots; [Sh4JitBoard]: the board as
      a machine for the JIT.
    - [JitDeterm] (jit/jit_determ.c): the pass that finds the bits known at compile time.
    - [Avl], [AvlFind] (avl.h): the AVL tree with its pointers, and its properties.
    - [CodeCache] (jit/code_cache.c): compiled blocks by address.
    - [Sh4JitLoop] (dreamcast.c): [run_to_next_sh4_event_jit].
    - [Fifo] (include/washdc/fifo.h), [Ring] (include/washdc/ring.h): the two queues.
    - [ConfigFile] (config_file.c): the configuration file; [ConfigParse]: what it means.

    Components meet at interfaces: the instruction handlers are proved against any [Machine]
    (the memory map, the deferred refresh event, the debugger, the floating-point handlers);
    the event loop against any [Clock] with [ClockLaws], which the scheduler's clock satisfies;
    the sound CPU against any [Arm7Machine] whose devices leave its registers alone
    ([Arm7MapLaws]), which its board does if the AICA's registers do;
    the timer unit against any [TmuWorld] that holds it and the clock, and the sync pulse
    generator against any [SpgWorld], [EventWorld] and [HollyWorld];
    the DMA controller, the Maple bus and the GD-ROM drive against any bus that has the RAM in its windows
    ([RamLaws]), as every bus built by the code that maps the RAM has;
    the drive against any [GdromWorld] with [GdromLaws], and the disc in it is a table of functions;
    the texture cache against any [Host] (what the graphics library makes of a picture);
    the timeslice against any dispatch function and any event handlers that meet
    [dispatch_spec] and [handler_spec]; the JIT against any [JitMachine], whose handlers do not
    look at the registers that a block keeps in slots, as the board's do not.

    ** State and effects

    A C function that mutates a structure is a function in the monad [M] from the structure to
    an outcome: a value and the new contents, or the error code with which [RAISE_ERROR] ends
    the process.  Integers are [Z] with every truncation and sign change written out.  The
    AVL tree and the scheduler's and the FIFO's linked lists are modelled at the level of pointers (structures
    in a finite map from addresses, [pprev] and [plast] as pointers to cells); the ring is a
    step relation with one step for each atomic access of each thread.

    ** What the theorems show

    - Scheduling: insertion, cancellation and removal keep a sorted, consistent doubly linked
      queue and the right target stamp ([sched_event_inserts], [cancel_event_removes],
      [pop_event_earliest]); a timeslice dispatches every event exactly at its stamp and
      ends exactly on time ([timeslice_exact]); the CPU loop reaches the next event in a
      bounded number of iterations ([run_terminates]); dual issue is counted by the rule the
      code documents ([cycle_count_pairs]).
    - Exceptions: entry saves and RTE restores ([exception_entry], [rte_restores]);
      arbitration takes the highest priority ([next_irq_highest]); the recursion between
      refresh, check and entry is at most two deep ([refresh_intc_fuel]); delay slots are
      atomic ([delay_slot_atomic]); two errors in how illegal instructions are raised
      ([illegal_inst_entry], [slot_illegal_leaves_handler]).
    - Timers: the count that is computed from the elapsed time is that of a ticking timer
      ([tmu_sync_ticks]); accesses and time keep the event of every running channel in the queue at the stamp
      of its underflow, as long as its accumulator does not overflow ([tmu_events_exact]), and underflows come at the exact period ([tmu_period]);
      the time before a start is counted ([tmu_start_counts_idle]), and a long wait is lost
      ([tmu_underflow_lost]).
    - Interrupts of the devices: one that is unmasked enters its handler
      ([holly_int_delivered]); the registers keep their widths ([holly_regs_typed]); an interrupt
      that is unmasked later is lost ([holly_unmask_lost]), and a lower level overwrites a higher
      one ([holly_low_overwrites_high]).
    - Video timing: the beam is where one that moves pixel by pixel would be
      ([spg_sync_ticks]); while the generator runs, the blank events are queued for the moments at which it
      reaches their lines ([spg_events_exact]), so that, without other devices' events and writes of registers, vertical
      blanks go on for ever at the exact period ([spg_vblank_forever]); the horizontal blank contradicts itself in mode 1
      ([spg_hblank_mode1_fails]).
    - Textures: the index of a pixel is that of the recursive quartering of the square
      ([tex_twiddle_layout]), and decoding a twiddled picture restores it ([detwiddle_roundtrip]);
      after every sequence of the steps [tex_step] no operation fails ([tex_ops_run]) and the host
      shows what texture memory holds ([tex_cache_coherent]).  The steps leave out, and the theorems
      about them show what goes wrong there: a change of the palette's
      depth ([palette_depth_overflow]), compressed textures with mipmaps ([vq_mipmap_stale]) or of
      unequal sides ([vq_rect_never_found]), and writes in the same cycle as the upload
      ([same_stamp_write_missed]).
    - Transfers: what a device writes to memory is what another reads, also after a copy
      ([dmac_roundtrip]); eight words stored to a store queue and sent arrive in RAM, through the map
      as the machine builds it ([store_queue_burst]); a texture sent with channel 2 arrives in texture memory, with the cache
      consistent and the completion event queued ([ch2_texture_upload], [ch2_dma_completes]); a film
      frame sent to the YUV converter becomes the picture it stands for, pixel by pixel
      ([ch2_yuv_picture], [yuv_frame_converted]), except at the end of texture memory
      ([yuv_end_of_memory_fails]); a list of commands on the Maple
      bus is answered, command by command, at the addresses it names ([maple_dma_answers],
      [maple_dma_completes]), with the replies that the headers describe except in two places
      ([maple_reply_conforms]).
    - The disc: sectors read with the DMA are in memory when the drive's interrupt comes
      ([gdrom_dma_read]); read at the data register, they come to the program word by word and in order,
      however its reads, the drive's events and the rest of the machine are interleaved, and the transfer
      cannot get stuck: while the drive is busy its event is in the queue ([gdrom_pio_read]).
    - Configuration: the character-by-character parser computes the map of the lines of two words
      ([cfg_file_refines]), numbers of up to nine digits are read back as they were written ([cfg_int_roundtrip]; with ten,
      the arithmetic overflows, which C leaves undefined: [cfg_ten_digits_undefined]), and
      the default file has the settings the program asks for ([default_file_settings]).
    - Flash: the sequences of bytes that programs write are the operations of an erasable memory
      ([flash_commands_refine]), and without an erase command bits only go from one to zero
      ([flash_bits_only_clear]).
    - The sound CPU: the prefetch buffer refines a program counter ([arm7_step_pipeline]); the
      condition codes are the comparisons ([arm7_cmp_conditions]); a fast interrupt that is taken is
      transparent to the program it interrupts ([arm7_fiq_transparent]), but one that is masked
      when it arrives is dropped ([arm7_masked_fiq_lost]), and a software interrupt returns one
      instruction too far ([arm7_swi_link]).
    - Registers: banked registers keep their contents under every write of SR and FPSCR
      ([set_sr_keeps_banks], [set_fpscr_keeps_banks]) and the debugger's interface
      round-trips ([set_get_regs]).
    - Instructions: the division sequence divides ([divu_quotient]); multi-word addition,
      subtraction and negation, overflow detection and MAC.L against exact arithmetic
      ([addc_subc_64], [addv_subv_overflow], [negc_exact], [macl_accumulates]); the
      saturating MAC.W loses the accumulator's sign ([macw_saturation_sign]).
    - Decoding: the table is unambiguous and its run-time checks never fire
      ([decode_order_irrelevant], [decoded_checks_pass]).
    - The JIT: a compiled block does what the interpreter does with its instructions, and has
      their cycle count ([jit_block_correct]), because every translator does
      ([jit_translates]).  Outside these theorems are the floating-point instructions (a parameter), SLEEP and TRAPA
      (they look at PC), blocks of more than 819 instructions, and [MOV.L Rn,@-Rn], which is
      translated wrongly ([jit_predecrement_same]).  On the programs that are left, the JIT's event loop, with its cache, does what the interpreter does up to the next event
      ([jit_event_loop_refines]).  The cache is a map from addresses to entries
      ([code_cache_find_refines]), and invalidated entries are freed once, later
      ([invalidate_then_collect]).  The determinism pass is an abstract interpreter that is right
      about every instruction ([jit_determ_sound]) but the right shifts ([jit_determ_shift_wrong]).
    - The AVL tree: [avl_find] is look-up with insertion in a map, and keeps an ordered and
      balanced tree with right pointers ([avl_find_refines]); a search takes a logarithmic
      number of steps ([avl_search_cost]).
    - Memory: dispatch, mirrors and reads after writes ([dispatch_first_match],
      [dispatch_order_irrelevant], [ram_mirrors], [ram_read_after_write], [block_roundtrip]).
    - Queues: FIFO order of the ring under every interleaving and freedom from data races
      ([ring_fifo], [ring_race_free], [ring_sequential]); the FIFO list ([fifo_queue],
      [fifo_erase_inner]) and its error when the tail is erased
      ([fifo_erase_last_loses_push]).
    - Flags: [flags_exact], [sat_shift_saturates]; the overflow flag is wrong when a carry comes in
      ([overflow_with_carry_wrong]).

    ** Bounds

    [sh4_refresh_intc] takes a depth, and two is enough ([refresh_intc_fuel]).
    [run_to_next_sh4_event] takes a bound on the iterations, and two per cycle of the clock
    up to the target are enough ([run_terminates]).  The list loops of the scheduler and the
    FIFO are bounded by the number of structures, which the consistency of the lists makes
    enough: the theorems about them state success.  The compiler of blocks takes a bound on
    the instructions of a block; the length of the block is enough ([jit_block_correct]).  The
    loops of the AVL tree take a bound of 66: a balanced tree of 32-bit keys is not higher
    ([avl_find_refines] states success).  The JIT's loop takes one turn per block.  The Maple bus's
    loop takes a bound on the frames; the length of the list is enough ([maple_dma_answers]).  The
    drive's DMA loop takes the number of queued buffers and one, as every turn takes a buffer from the
    queue.

    ** Not modelled

    Floating-point arithmetic is the host's: the floating-point handlers are a parameter of
    [Machine].  The other devices (serial port, the PowerVR2's tile
    accelerator and frame buffers, the AICA's registers and channels), the dispatch table of the
    CPU's on-chip registers, the JIT's native back end, the debugger, the graphics output and the front ends are not modelled.  The
    theorems about textures assume that no rendered picture waits to be copied into the 64-bit
    area ([quiet]), because that copy is not modelled.
    The logging calls and the error attributes have no effect on the state and are left out,
    as are the debugger's watchpoints. *)
From Stdlib Require Export ZArith Lia List Bool.
From stdpp Require Export base list numbers.
#[global] Open Scope Z_scope.

(** ** Outcomes of C code

    [RAISE_ERROR] (src/libwashdc/include/washdc/error.h) never returns: it reports the
    error and ends the process.  A call of a C function therefore either returns a value
    or ends in one of the error codes of washdc/error.h.  [C_UNDEFINED] stands for
    behaviour the C standard leaves undefined and on which no compiler agrees: a shift by
    a negative amount or by at least the width of the operand, or a call through a null
    function pointer.  [C_ABORT] is a call of [abort], or a failed [assert].  [OUT_OF_FUEL] is not an outcome of the code: it says that the
    recursion bound of a definition was reached, which the theorems exclude. *)
Inductive error_type : Type :=
| ERROR_UNIMPLEMENTED
| ERROR_INTEGRITY
| ERROR_OVERFLOW
| ERROR_MEM_OUT_OF_BOUNDS
| ERROR_UNKNOWN_EXCP_CODE
| ERROR_FAILED_ALLOC
| ERROR_INVALID_PARAM
| ERROR_FILE_IO
| C_UNDEFINED
| C_ABORT
| OUT_OF_FUEL.

#[export] Instance error_type_eq_dec : EqDecision error_type.
Proof. solve_decision. Defined.

Inductive res (A : Type) : Type :=
| Ok (a : A)
| Err (e : error_type).
Arguments Ok {A} a.
Arguments Err {A} e.

(** ** A state and error monad

    Code that mutates a structure of type [St] through a pointer is a function from the
    structure to an outcome that holds its new contents. *)
Definition M (St A : Type) : Type := St -> res (A * St).

Definition ret {St A} (a : A) : M St A := fun s => Ok (a, s).
Definition bind {St A B} (m : M St A) (k : A -> M St B) : M St B :=
  fun s => match m s with
           | Ok (a, s') => k a s'
           | Err e => Err e
           end.
Definition raise {St A} (e : error_type) : M St A := fun _ => Err e.
Definition gets {St A} (f : St -> A) : M St A := fun s => Ok (f s, s).
Definition modify {St} (f : St -> St) : M St unit := fun s => Ok (tt, f s).
Definition when {St} (b : bool) (m : M St unit) : M St unit := if b then m else ret tt.

Declare Scope washdc_scope.
Delimit Scope washdc_scope with washdc.
Notation "x <- m ;; k" := (bind m (fun x => k))
  (at level 100, m at next level, k at level 200, right associativity) : washdc_scope.
Notation "m ;; k" := (bind m (fun _ => k))
  (at level 100, k at level 200, right associativity) : washdc_scope.
#[global] Open Scope washdc_scope.

(** The Hoare triple of the monad, for a given error postcondition. *)
Definition hoare {St A} (P : St -> Prop) (m : M St A) (Q : A -> St -> Prop) : Prop :=
  forall s, P s -> match m s with Ok (a, s') => Q a s' | Err _ => True end.

Section monad_lemmas.
Context {St : Type}.

Lemma bind_ok {A B} (m : M St A) (k : A -> M St B) s a s' :
  m s = Ok (a, s') -> bind m k s = k a s'.
Proof. unfold bind. by intros ->. Qed.

Lemma bind_inv {A B} (m : M St A) (k : A -> M St B) s b s2 :
  bind m k s = Ok (b, s2) -> exists a s1, m s = Ok (a, s1) /\ k a s1 = Ok (b, s2).
Proof. unfold bind. destruct (m s) as [[a s1]|]; [eauto|done]. Qed.

Lemma hoare_ret {A} (P : St -> Prop) (Q : A -> St -> Prop) a :
  (forall s, P s -> Q a s) -> hoare P (ret a) Q.
Proof. unfold hoare, ret. auto. Qed.

Lemma hoare_bind {A B} (P : St -> Prop) (R : A -> St -> Prop) Q
    (m : M St A) (k : A -> M St B) :
  hoare P m R -> (forall a, hoare (R a) (k a) Q) -> hoare P (bind m k) Q.
Proof.
  unfold hoare, bind. intros Hm Hk s Hs. specialize (Hm s Hs).
  destruct (m s) as [[a s']|]; [|done]. by apply Hk.
Qed.

Lemma hoare_raise {A} (P : St -> Prop) (Q : A -> St -> Prop) e : hoare P (raise e) Q.
Proof. by unfold hoare, raise. Qed.

Lemma hoare_gets {A} (P : St -> Prop) (Q : A -> St -> Prop) f :
  (forall s, P s -> Q (f s) s) -> hoare P (gets f) Q.
Proof. unfold hoare, gets. auto. Qed.

Lemma hoare_modify (P : St -> Prop) (Q : unit -> St -> Prop) f :
  (forall s, P s -> Q tt (f s)) -> hoare P (modify f) Q.
Proof. unfold hoare, modify. auto. Qed.

Lemma hoare_weaken {A} (P P' : St -> Prop) (Q Q' : A -> St -> Prop) m :
  hoare P m Q -> (forall s, P' s -> P s) -> (forall a s, Q a s -> Q' a s) -> hoare P' m Q'.
Proof.
  unfold hoare. intros H HP HQ s Hs. specialize (H s (HP s Hs)).
  destruct (m s) as [[a s']|]; auto.
Qed.

(** the recursion bound is not reached *)
Definition in_fuel {A} (m : M St A) (s : St) : Prop := m s <> Err OUT_OF_FUEL.

Lemma in_fuel_bind {A B} (m : M St A) (k : A -> M St B) s :
  in_fuel m s -> (forall a s', m s = Ok (a, s') -> in_fuel (k a) s') -> in_fuel (bind m k) s.
Proof.
  unfold in_fuel, bind. intros Hm Hk. destruct (m s) as [[a s']|]; [by apply Hk|congruence].
Qed.
End monad_lemmas.

(** ** Machine integers

    An unsigned C integer of width [w] is a [Z] in [[0, 2^w)]; a signed one is a [Z] in
    [[-2^(w-1), 2^(w-1))].  Conversions are written out; signed arithmetic wraps (two's
    complement, as the gcc and clang builds of the emulator behave), and a right shift of
    a negative value is arithmetic. *)
Definition wrap (w x : Z) : Z := x mod 2 ^ w.
Definition swrap (w x : Z) : Z := (x + 2 ^ (w - 1)) mod 2 ^ w - 2 ^ (w - 1).

Abbreviation u8 := (wrap 8).
Abbreviation u16 := (wrap 16).
Abbreviation u32 := (wrap 32).
Abbreviation u64 := (wrap 64).
Abbreviation s8 := (swrap 8).
Abbreviation s16 := (swrap 16).
Abbreviation s32 := (swrap 32).
Abbreviation s64 := (swrap 64).

(** [~x] of a [uint32_t] *)
Definition not32 (x : Z) : Z := Z.lxor x 0xffffffff.
(** the value of a C comparison or of [!x] *)
Definition b2z (b : bool) : Z := if b then 1 else 0.
(** the truth value of a C integer *)
Definition truth (x : Z) : bool := negb (x =? 0).

Definition in_range (w x : Z) : Prop := 0 <= x < 2 ^ w.

(** ** Lemmas on machine integers *)
Lemma pow2_pos w : 0 <= w -> 0 < 2 ^ w.
Proof. intros. by apply Z.pow_pos_nonneg. Qed.

Lemma wrap_range w x : 0 <= w -> in_range w (wrap w x).
Proof. intros. apply Z.mod_pos_bound. by apply pow2_pos. Qed.

Lemma wrap_small w x : in_range w x -> wrap w x = x.
Proof. intros. by apply Z.mod_small. Qed.

Lemma wrap_wrap w x : wrap w (wrap w x) = wrap w x.
Proof. unfold wrap. by rewrite Zmod_mod. Qed.

Lemma wrap_testbit w x n :
  0 <= w -> 0 <= n -> Z.testbit (wrap w x) n = (n <? w) && Z.testbit x n.
Proof.
  intros. unfold wrap. destruct (Z.ltb_spec n w).
  - by rewrite Z.mod_pow2_bits_low by lia.
  - by rewrite Z.mod_pow2_bits_high by lia.
Qed.

Lemma in_range_testbit_high w x n :
  in_range w x -> 0 <= w <= n -> Z.testbit x n = false.
Proof.
  intros Hx Hn. rewrite <- (wrap_small w x Hx). rewrite wrap_testbit by lia.
  by replace (n <? w) with false by lia.
Qed.

(** A non-negative number whose bits from [w] on are clear is in range. *)
Lemma in_range_bits w x :
  0 <= w -> (forall n, w <= n -> Z.testbit x n = false) -> in_range w x.
Proof.
  intros Hw Hb. assert (Hx : x = wrap w x).
  { apply Z.bits_inj'. intros n Hn. rewrite wrap_testbit by lia.
    destruct (Z.ltb_spec n w); simpl; auto. }
  rewrite Hx. by apply wrap_range.
Qed.

Lemma land_range_l w x y : 0 <= w -> in_range w x -> in_range w (Z.land x y).
Proof.
  intros Hw Hx. apply in_range_bits; [done|]. intros n Hn.
  rewrite Z.land_spec, (in_range_testbit_high w x n) by (auto; lia). done.
Qed.

Lemma land_range_r w x y : 0 <= w -> in_range w y -> in_range w (Z.land x y).
Proof. intros. rewrite Z.land_comm. by apply land_range_l. Qed.

Lemma lor_range w x y : 0 <= w -> in_range w x -> in_range w y -> in_range w (Z.lor x y).
Proof.
  intros Hw Hx Hy. apply in_range_bits; [done|]. intros n Hn.
  rewrite Z.lor_spec, (in_range_testbit_high w x n), (in_range_testbit_high w y n)
    by (auto; lia). done.
Qed.

Lemma lxor_range w x y : 0 <= w -> in_range w x -> in_range w y -> in_range w (Z.lxor x y).
Proof.
  intros Hw Hx Hy. apply in_range_bits; [done|]. intros n Hn.
  rewrite Z.lxor_spec, (in_range_testbit_high w x n), (in_range_testbit_high w y n)
    by (auto; lia). done.
Qed.

Lemma lor_shiftl_add a b k : 0 <= k -> in_range k a -> Z.lor a (Z.shiftl b k) = a + b * 2 ^ k.
Proof.
  intros Hk Ha. rewrite <- Z.shiftl_mul_pow2 by done.
  assert (E : Z.land a (Z.shiftl b k) = 0).
  { apply Z.bits_inj'. intros n Hn. rewrite Z.land_spec, Z.shiftl_spec, Z.bits_0 by done. destruct (Z.ltb_spec n k).
    - by rewrite (Z.testbit_neg_r b), andb_false_r by lia.
    - by rewrite (in_range_testbit_high k a) by (done || lia). }
  by rewrite <- Z.lxor_lor, Z.add_nocarry_lxor.
Qed.

(** a field of [n] bits *)
Lemma land_field x n k : 0 <= n -> 0 <= k -> Z.land x (Z.shiftl (Z.ones n) k) = ((x / 2 ^ k) mod 2 ^ n) * 2 ^ k.
Proof.
  intros Hn Hk. rewrite <- Z.shiftl_mul_pow2, <- Z.land_ones, <- Z.shiftr_div_pow2 by done. apply Z.bits_inj'. intros i Hi.
  rewrite Z.land_spec, !Z.shiftl_spec by done. destruct (Z.ltb_spec i k).
  - rewrite !(Z.testbit_neg_r _ (i - k)) by lia. apply andb_false_r.
  - rewrite Z.land_spec, Z.shiftr_spec by lia. do 2 f_equal. lia.
Qed.

Lemma shiftr_range w x k : 0 <= w -> 0 <= k -> in_range w x -> in_range w (Z.shiftr x k).
Proof.
  intros Hw Hk [Hx1 Hx2]. rewrite Z.shiftr_div_pow2 by done.
  assert (0 < 2 ^ k) by by apply pow2_pos. split.
  - apply Z.div_pos; lia.
  - apply Z.le_lt_trans with x; [|done]. apply Z.div_le_upper_bound; nia.
Qed.

Lemma in_range_weaken w w' x : w <= w' -> in_range w x -> in_range w' x.
Proof.
  intros Hw [H1 H2]. split; [done|].
  apply Z.lt_le_trans with (2 ^ w); [done|]. by apply Z.pow_le_mono_r.
Qed.

Lemma b2z_range w b : 1 <= w -> in_range w (b2z b).
Proof.
  intros. apply (in_range_weaken 1); [done|]. unfold in_range. destruct b; simpl; lia.
Qed.

Lemma not32_range x : in_range 32 x -> in_range 32 (not32 x).
Proof. intros. apply lxor_range; [lia|done|]. unfold in_range. lia. Qed.

Lemma not32_spec x n :
  in_range 32 x -> 0 <= n -> Z.testbit (not32 x) n = (n <? 32) && negb (Z.testbit x n).
Proof.
  intros Hx Hn. unfold not32. rewrite Z.lxor_spec. change 0xffffffff with (Z.ones 32).
  destruct (Z.ltb_spec n 32).
  - rewrite Z.ones_spec_low by lia. by rewrite xorb_true_r.
  - rewrite Z.ones_spec_high by lia. by rewrite (in_range_testbit_high 32) by (auto; lia).
Qed.

Lemma swrap_range w x : 1 <= w -> - 2 ^ (w - 1) <= swrap w x < 2 ^ (w - 1).
Proof.
  intros Hw. unfold swrap.
  assert (2 ^ w = 2 * 2 ^ (w - 1)) as E.
  { rewrite <- Z.pow_succ_r by lia. f_equal. lia. }
  pose proof (Z.mod_pos_bound (x + 2 ^ (w - 1)) (2 ^ w)).
  assert (0 < 2 ^ w) by (apply pow2_pos; lia). lia.
Qed.

Lemma swrap_small w x : 1 <= w -> - 2 ^ (w - 1) <= x < 2 ^ (w - 1) -> swrap w x = x.
Proof.
  intros Hw Hx. unfold swrap.
  assert (2 ^ w = 2 * 2 ^ (w - 1)) as E.
  { rewrite <- Z.pow_succ_r by lia. f_equal. lia. }
  rewrite Z.mod_small by lia. lia.
Qed.

Lemma wrap_swrap w x : 1 <= w -> wrap w (swrap w x) = wrap w x.
Proof.
  intros Hw. unfold wrap, swrap. rewrite Zminus_mod_idemp_l. f_equal. lia.
Qed.

(** Reading an unsigned value as signed. *)
Lemma swrap_unsigned w x :
  1 <= w -> in_range w x -> swrap w x = if x <? 2 ^ (w - 1) then x else x - 2 ^ w.
Proof.
  intros Hw [H0 H1]. unfold swrap.
  assert (2 ^ w = 2 * 2 ^ (w - 1)) as E.
  { rewrite <- Z.pow_succ_r by lia. f_equal. lia. }
  destruct (Z.ltb_spec x (2 ^ (w - 1))).
  - rewrite Z.mod_small by lia. lia.
  - replace (x + 2 ^ (w - 1)) with ((x - 2 ^ (w - 1)) + 1 * 2 ^ w) by lia.
    rewrite Z_mod_plus_full, Z.mod_small by lia. lia.
Qed.

Lemma swrap_neg w x : 1 <= w -> in_range w x -> (swrap w x <? 0) = (2 ^ (w - 1) <=? x).
Proof.
  intros Hw Hx. rewrite swrap_unsigned by done. destruct Hx.
  destruct (Z.ltb_spec x (2 ^ (w - 1))); lia.
Qed.

Lemma wrap_add_l w x y : wrap w (wrap w x + y) = wrap w (x + y).
Proof. unfold wrap. by rewrite Zplus_mod_idemp_l. Qed.
Lemma wrap_add_r w x y : wrap w (x + wrap w y) = wrap w (x + y).
Proof. unfold wrap. by rewrite Zplus_mod_idemp_r. Qed.
Lemma wrap_sub_l w x y : wrap w (wrap w x - y) = wrap w (x - y).
Proof. unfold wrap. by rewrite Zminus_mod_idemp_l. Qed.
Lemma wrap_sub_r w x y : wrap w (x - wrap w y) = wrap w (x - y).
Proof. unfold wrap. by rewrite Zminus_mod_idemp_r. Qed.
Lemma wrap_mul_l w x y : wrap w (wrap w x * y) = wrap w (x * y).
Proof. unfold wrap. by rewrite Zmult_mod_idemp_l. Qed.
Lemma wrap_mul_r w x y : wrap w (x * wrap w y) = wrap w (x * y).
Proof. unfold wrap. by rewrite Zmult_mod_idemp_r. Qed.

Lemma land_ones_wrap w x : 0 <= w -> Z.land x (Z.ones w) = wrap w x.
Proof. intros. by rewrite Z.land_ones. Qed.

Lemma b2z_truth b : truth (b2z b) = b.
Proof. by destruct b. Qed.

Lemma wrap_wrap_le w w' x : 0 <= w <= w' -> wrap w (wrap w' x) = wrap w x.
Proof.
  intros. apply Z.bits_inj'. intros n Hn. rewrite !wrap_testbit by lia.
  destruct (Z.ltb_spec n w), (Z.ltb_spec n w'); simpl; auto; lia.
Qed.

(** *** The hint databases

    [int_range] decides the range of expressions built from the operations above;
    [int_wrap] removes redundant truncations. *)
Create HintDb int_range.
#[export] Hint Resolve wrap_range land_range_l land_range_r lor_range lxor_range
  shiftr_range b2z_range not32_range : int_range.
#[export] Hint Extern 2 (in_range _ (Zpos _)) => (unfold in_range; lia) : int_range.
#[export] Hint Extern 2 (in_range _ 0) => (unfold in_range; lia) : int_range.
#[export] Hint Extern 2 (0 <= _) => lia : int_range.
#[export] Hint Extern 2 (1 <= _) => lia : int_range.
Create Rewrite HintDb int_wrap.
Create Rewrite HintDb int_bits.
#[export] Hint Rewrite wrap_wrap wrap_add_l wrap_add_r wrap_sub_l wrap_sub_r : int_wrap.

Ltac solve_range := solve [auto with int_range | unfold in_range in *; lia].
Ltac norm_wrap := autorewrite with int_wrap.

(** Bit-level equality of two expressions: compare bit [n] of both sides. *)
#[export] Hint Rewrite Z.land_spec Z.lor_spec Z.lxor_spec : int_bits.
Ltac bitwise :=
  apply Z.bits_inj'; let n := fresh "n" in let Hn := fresh "Hn" in intros n Hn;
  autorewrite with int_bits; rewrite ?wrap_testbit by lia; rewrite ?Z.shiftr_spec by lia;
  rewrite ?Z.shiftl_spec by lia.

(** the head constant of an application *)
Ltac head_of t := lazymatch t with ?f _ => head_of f | _ => t end.

(** ** Single-bit masks *)
Lemma land_bit x n : 0 <= n -> Z.land x (2 ^ n) = if Z.testbit x n then 2 ^ n else 0.
Proof.
  intros Hn. apply Z.bits_inj'. intros i Hi. rewrite Z.land_spec, Z.pow2_bits_eqb by lia.
  destruct (Z.eqb_spec n i) as [<-|].
  - rewrite andb_true_r. destruct (Z.testbit x n) eqn:E.
    + by rewrite Z.pow2_bits_true.
    + by rewrite Z.bits_0.
  - rewrite andb_false_r. destruct (Z.testbit x n).
    + by rewrite Z.pow2_bits_false.
    + by rewrite Z.bits_0.
Qed.

Lemma truth_land_bit x n : 0 <= n -> truth (Z.land x (2 ^ n)) = Z.testbit x n.
Proof.
  intros Hn. rewrite land_bit by done. pose proof (pow2_pos n Hn). unfold truth.
  destruct (Z.testbit x n); [|done]. by destruct (Z.eqb_spec (2 ^ n) 0); [lia|].
Qed.

Lemma land_bit_eqb x y n :
  0 <= n -> (Z.land x (2 ^ n) =? Z.land y (2 ^ n)) = eqb (Z.testbit x n) (Z.testbit y n).
Proof.
  intros Hn. rewrite !land_bit by done. pose proof (pow2_pos n Hn).
  destruct (Z.testbit x n), (Z.testbit y n); cbn [eqb];
    destruct (Z.eqb_spec (2 ^ n) 0), (Z.eqb_spec 0 (2 ^ n)); try lia; try done;
    apply Z.eqb_refl.
Qed.
