(* ===== verification/IntMath.v ===== *)
(** src/libwashdc/intmath.h: addition and subtraction with flags, and the saturating
    shift of the AICA mixer.

    The C functions return the result and write the carry and the overflow through
    pointers that may be null; the definitions return the three of them.  The theorems
    state each flag against exact integer arithmetic. *)
From S2P Require Import Prelude.

Module intmath.

(** all bits up to but not including [bit_no], and the bits from [first] to [last] *)
Definition SET_TO_BIT (bit_no : Z) : Z := u32 (Z.shiftl 1 bit_no - 1).
Definition BIT_RANGE (first last : Z) : Z := Z.land (SET_TO_BIT (last + 1)) (not32 (SET_TO_BIT first)).

Definition INT_MAX : Z := 2147483647.
Definition INT_MIN : Z := -2147483648.

(** [add_flags]: result, carry and overflow. *)
Definition add_flags (lhs rhs : Z) (carry_in : bool) : Z * bool * bool :=
  let c_in := if carry_in then 1 else 0 in
  let res64 := u64 (u64 (lhs + rhs) + c_in) in
  let carry_out := truth (Z.land res64 (Z.shiftl 1 32)) in
  let lhs_signed := s32 lhs in
  let rhs_signed := s32 rhs in
  let overflow_bit :=
    ((rhs_signed >? 0) && (lhs_signed >? INT_MAX - rhs_signed)) ||
    ((rhs_signed <? 0) && (lhs_signed <? INT_MIN - rhs_signed)) in
  let overflow_bit :=
    if negb overflow_bit && truth c_in then
      let res_signed := s32 (rhs_signed + lhs_signed) in
      ((res_signed >? 0) && (1 >? INT_MAX - res_signed)) ||
      ((res_signed <? 0) && (1 <? INT_MIN - res_signed))
    else overflow_bit in
  (u32 res64, carry_out, overflow_bit).

(** [sub_flags] computes [rhs - lhs]; its arguments and its result are [int32_t]. *)
Definition sub_flags (lhs rhs : Z) (carry_in : bool) : Z * bool * bool :=
  let c_in := if carry_in then 1 else 0 in
  let lhs64 := u32 lhs in
  let rhs64 := u32 rhs in
  let res64 := u64 (u64 (rhs64 - lhs64) - c_in) in
  let carry_out := truth (Z.land res64 (Z.shiftl 1 32)) in
  let res64_signed := s64 (rhs - lhs) in
  let overflow_bit := (res64_signed >? INT_MAX) || (res64_signed <? INT_MIN) in
  let overflow_bit :=
    if negb overflow_bit && truth c_in then
      let res64_signed := s64 (res64_signed + 1) in
      (res64_signed >? INT_MAX) || (res64_signed <? INT_MIN)
    else overflow_bit in
  (s32 res64, carry_out, overflow_bit).

(** [sat_shift]: the shift [in >> (31 - n_bits)] is undefined for [n_bits] above 31. *)
Definition sat_shift (inp n_bits : Z) : Z :=
  let outbits := Z.shiftr inp (31 - n_bits) in
  if (outbits =? 0) || (outbits =? -1) then s32 (Z.shiftl inp n_bits)
  else if inp <? 0 then INT_MIN else INT_MAX.

Definition fits_int32 (x : Z) : bool := (INT_MIN <=? x) && (x <=? INT_MAX).

(** ** Helper lemmas *)

(** Bit 32 of a 64-bit sum of two 32-bit numbers is its carry. *)
Lemma bit32_carry x : 0 <= x < 2 ^ 33 -> truth (Z.land x (Z.shiftl 1 32)) = (2 ^ 32 <=? x).
Proof.
  intros Hx. rewrite Z.shiftl_1_l.
  assert (Hb : Z.testbit x 32 = (2 ^ 32 <=? x)).
  { destruct (Z.leb_spec (2 ^ 32) x).
    - apply Z.testbit_true; [lia|]. replace (x / 2 ^ 32) with 1; [done|].
      apply Z.div_unique with (x - 2 ^ 32); lia.
    - apply Z.testbit_false; [lia|]. by rewrite Z.div_small by lia. }
  rewrite <- Hb. unfold truth.
  destruct (Z.testbit x 32) eqn:E; destruct (Z.eqb_spec (Z.land x (2 ^ 32)) 0) as [H0|H0];
    simpl; auto.
  - assert (Z.testbit (Z.land x (2 ^ 32)) 32 = true) as H1.
    { rewrite Z.land_spec, E, Z.pow2_bits_true; [done|lia]. }
    rewrite H0, Z.bits_0 in H1. done.
  - exfalso. apply H0. apply Z.bits_inj'. intros n Hn. rewrite Z.land_spec, Z.bits_0.
    destruct (Z.eq_dec n 32) as [->|]; [by rewrite E|].
    rewrite Z.pow2_bits_false by lia. apply andb_false_r.
Qed.

(** The borrow of a 64-bit difference of two 32-bit numbers is bit 32 as well. *)
Lemma bit32_borrow x :
  - 2 ^ 32 <= x < 2 ^ 32 -> truth (Z.land (u64 x) (Z.shiftl 1 32)) = (x <? 0).
Proof.
  intros Hx. replace (Z.land (u64 x) (Z.shiftl 1 32)) with
    (Z.land (x mod 2 ^ 33) (Z.shiftl 1 32)).
  - rewrite bit32_carry by (apply Z.mod_pos_bound; lia).
    destruct (Z.ltb_spec x 0).
    + rewrite <- (Z_mod_plus_full x 1 (2 ^ 33)), Z.mod_small by lia. lia.
    + rewrite Z.mod_small by lia. lia.
  - rewrite Z.shiftl_1_l. apply Z.bits_inj'. intros n Hn. rewrite !Z.land_spec.
    destruct (Z.eq_dec n 32) as [->|].
    + unfold wrap. by rewrite !Z.mod_pow2_bits_low by lia.
    + by rewrite Z.pow2_bits_false, !andb_false_r by lia.
Qed.

(** ** [add_flags] *)

(** The result and the carry are the exact sum of the operands and the carry in. *)
Lemma add_flags_sum lhs rhs c :
  in_range 32 lhs -> in_range 32 rhs ->
  let '(r, co, _) := add_flags lhs rhs c in
  in_range 32 r /\ r + 2 ^ 32 * b2z co = lhs + rhs + b2z c.
Proof.
  intros [] []. unfold add_flags. set (cz := if c then 1 else 0).
  assert (0 <= cz <= 1) by (destruct c; lia).
  assert (b2z c = cz) as -> by by destruct c.
  rewrite wrap_add_l, (wrap_small 64) by (unfold in_range in *; lia). rewrite bit32_carry by lia.
  split; [apply wrap_range; lia|]. unfold wrap, b2z.
  destruct (Z.leb_spec (2 ^ 32) (lhs + rhs + cz)).
  - rewrite <- (Z_mod_plus_full _ (-1)), Z.mod_small by lia. lia.
  - rewrite Z.mod_small by lia. lia.
Qed.

(** Without a carry in, which is how every caller asks for it, the overflow flag says that
    the signed sum does not fit in an [int32_t]. *)
Lemma add_flags_overflow lhs rhs :
  in_range 32 lhs -> in_range 32 rhs ->
  snd (add_flags lhs rhs false) = negb (fits_int32 (s32 lhs + s32 rhs)).
Proof.
  intros Hl Hr. unfold add_flags, fits_int32, INT_MAX, INT_MIN. simpl snd.
  pose proof (swrap_range 32 lhs ltac:(lia)). pose proof (swrap_range 32 rhs ltac:(lia)).
  change (2 ^ (32 - 1)) with 2147483648 in *. rewrite andb_false_r. lia.
Qed.

(** ** [sub_flags] *)

(** The result and the borrow are the exact difference of the unsigned operands. *)
Lemma sub_flags_diff lhs rhs c :
  in_range 32 lhs -> in_range 32 rhs ->
  let '(r, co, _) := sub_flags (s32 lhs) (s32 rhs) c in
  u32 r - 2 ^ 32 * b2z co = rhs - lhs - b2z c.
Proof.
  intros [] []. unfold sub_flags. rewrite !wrap_swrap by lia.
  rewrite (wrap_small 32 lhs), (wrap_small 32 rhs) by (unfold in_range; lia).
  set (cz := if c then 1 else 0).
  assert (0 <= cz <= 1) by (destruct c; lia).
  assert (b2z c = cz) as -> by by destruct c.
  rewrite wrap_sub_l, bit32_borrow by lia.
  rewrite wrap_wrap_le by lia. unfold wrap, b2z.
  destruct (Z.ltb_spec (rhs - lhs - cz) 0).
  - rewrite <- (Z_mod_plus_full _ 1), Z.mod_small by lia. lia.
  - rewrite Z.mod_small by lia. lia.
Qed.

(** Without a carry in, the overflow flag says that the signed difference does not fit. *)
Lemma sub_flags_overflow lhs rhs :
  - 2 ^ 31 <= lhs < 2 ^ 31 -> - 2 ^ 31 <= rhs < 2 ^ 31 ->
  snd (sub_flags lhs rhs false) = negb (fits_int32 (rhs - lhs)).
Proof.
  intros Hl Hr. unfold sub_flags, fits_int32, INT_MAX, INT_MIN. simpl snd.
  rewrite andb_false_r. rewrite (swrap_small 64) by (simpl Z.pow in *; lia). lia.
Qed.

(** the flags of addition and subtraction against exact arithmetic: for any carry in, the
    result and the carry out (or the borrow) are the two parts of the exact sum (difference) of
    the operands as unsigned numbers; without a carry in, the overflow flag says exactly that the
    sum (difference) as signed numbers leaves the range of an [int32_t]. *)
Theorem flags_exact (lhs rhs : Z) (c : bool) :
  in_range 32 lhs -> in_range 32 rhs ->
  (let '(r, carry, _) := add_flags lhs rhs c in
   in_range 32 r /\ r + 2 ^ 32 * b2z carry = lhs + rhs + b2z c) /\
  (let '(r, borrow, _) := sub_flags (s32 lhs) (s32 rhs) c in
   u32 r - 2 ^ 32 * b2z borrow = rhs - lhs - b2z c) /\
  snd (add_flags lhs rhs false) = negb (fits_int32 (s32 lhs + s32 rhs)) /\
  snd (sub_flags (s32 lhs) (s32 rhs) false) = negb (fits_int32 (s32 rhs - s32 lhs)).
Proof.
  intros Hl Hr. split; [by apply add_flags_sum|]. split; [by apply sub_flags_diff|].
  split; [by apply add_flags_overflow|].
  apply sub_flags_overflow; by apply (swrap_range 32).
Qed.

(** with a carry in the overflow flags are wrong: [add_flags] reports an overflow of the
    operands even where the carry brings the total back in range, and [sub_flags] adds the
    borrow where it should subtract it and misses an overflow. *)
Theorem overflow_with_carry_wrong :
  (snd (add_flags (u32 INT_MIN) (u32 (-1)) true) = true /\
   fits_int32 (INT_MIN + -1 + 1) = true) /\
  (snd (sub_flags 0 INT_MIN true) = false /\ fits_int32 (INT_MIN - 0 - 1) = false).
Proof. vm_compute. auto. Qed.

(** ** [sat_shift] *)
(** for a shift of 0 to 31 bits, the shift of the AICA mixer is the multiplication by the
    power of two clamped to the range of an [int32_t]. *)
Theorem sat_shift_saturates (inp n : Z) :
  INT_MIN <= inp <= INT_MAX -> 0 <= n <= 31 ->
  sat_shift inp n = Z.max INT_MIN (Z.min INT_MAX (inp * 2 ^ n)).
Proof.
  unfold INT_MIN, INT_MAX. intros Hi Hn. unfold sat_shift, INT_MIN, INT_MAX.
  rewrite Z.shiftr_div_pow2, Z.shiftl_mul_pow2 by lia.
  assert (E : 2 ^ (31 - n) * 2 ^ n = 2147483648).
  { rewrite <- Z.pow_add_r by lia. by replace (31 - n + n) with 31 by lia. }
  assert (0 < 2 ^ n) by (apply pow2_pos; lia).
  assert (0 < 2 ^ (31 - n)) by (apply pow2_pos; lia).
  set (P := 2 ^ n) in *. set (Q := 2 ^ (31 - n)) in *.
  pose proof (Z.div_mod inp Q ltac:(lia)). pose proof (Z.mod_pos_bound inp Q ltac:(lia)).
  set (d := inp / Q) in *. set (m := inp mod Q) in *.
  destruct (Z.eqb_spec d 0) as [Hd|Hd]; [|destruct (Z.eqb_spec d (-1)) as [Hd1|Hd1]]; simpl orb;
    cbv iota.
  - rewrite swrap_small by (simpl Z.pow; nia). nia.
  - rewrite swrap_small by (simpl Z.pow; nia). nia.
  - destruct (Z.ltb_spec inp 0); nia.
Qed.

Lemma flags_exact_witness :
  snd (add_flags 0x7fffffff 1 false) = true /\
  (let '(r, borrow, _) := sub_flags (s32 1) (s32 0) true in u32 r - 2 ^ 32 * b2z borrow = -2).
Proof.
  pose proof (flags_exact 0x7fffffff 1 false ltac:(unfold in_range; lia)
    ltac:(unfold in_range; lia)) as (_ & _ & H & _).
  pose proof (flags_exact 1 0 true ltac:(unfold in_range; lia)
    ltac:(unfold in_range; lia)) as (_ & H' & _).
  exact (conj H H').
Defined.

Lemma sat_shift_saturates_witness : sat_shift (-100000000) 5 = INT_MIN.
Proof.
  rewrite (sat_shift_saturates (-100000000) 5); [reflexivity|unfold INT_MIN, INT_MAX; lia|lia].
Defined.

End intmath.
