(* ===== verification/MemoryMap.v ===== *)
(** The memory map (src/libwashdc/MemoryMap.c, include/washdc/MemoryMap.h).

    [memory_map] dispatches an access to the first region whose masked range holds it.
    The regions' handlers are C function pointers with a context pointer; here they are
    functions over the type [St] of the whole machine, the context being part of it.  The
    four access templates are instantiated by the C code at five types; the index [acc]
    stands for the template's type argument.

    [dispatch_order_irrelevant]: where regions do not overlap the order in which the board
    added them does not matter; [dispatch_first_match]: which handler an access reaches. *)
From stdpp Require Import gmap.
From S2P Require Import Prelude.

Module memory_map.

(** the template's [type_postfix] *)
Inductive acc : Type := A8 | A16 | A32 | Afloat | Adouble.

#[export] Instance acc_eq_dec : EqDecision acc.
Proof. solve_decision. Defined.

Definition sizeof (a : acc) : Z :=
  match a with A8 => 1 | A16 => 2 | A32 => 4 | Afloat => 4 | Adouble => 8 end.

Inductive memory_map_region_id : Type := MEMORY_MAP_REGION_UNKNOWN | MEMORY_MAP_REGION_RAM.

#[export] Instance memory_map_region_id_eq_dec : EqDecision memory_map_region_id.
Proof. solve_decision. Defined.

Section memory_map.
Context {St : Type}.

(** [struct memory_interface]: a null function pointer is [None].  A float or a double
    is its bit pattern.  The [try_] handlers return [None] for a nonzero status. *)
Record memory_interface : Type := {
  read_fn : acc -> option (Z -> M St Z);
  write_fn : acc -> option (Z -> Z -> M St unit);
  try_read_fn : acc -> option (Z -> M St (option Z));
  try_write_fn : acc -> option (Z -> Z -> M St bool)
}.

Record memory_map_region : Type := {
  first_addr : Z;
  last_addr : Z;
  range_mask : Z;
  mask : Z;
  id : memory_map_region_id;
  intf : memory_interface
}.

Definition MAX_MEM_MAP_REGIONS : Z := 64.

Record memory_map : Type := {
  regions : list memory_map_region;
  unmap : option memory_interface
}.

Definition memory_map_init : memory_map := {| regions := []; unmap := None |}.

(** [memory_map_add]: the region goes after the ones already present. *)
Definition memory_map_add (addr_first addr_last rmask msk : Z) (rid : memory_map_region_id)
    (i : memory_interface) : M memory_map unit :=
  fun map =>
    if Z.of_nat (length (regions map)) >=? MAX_MEM_MAP_REGIONS then Err ERROR_OVERFLOW
    else Ok (tt, {| regions := regions map ++
                      [{| first_addr := addr_first; last_addr := addr_last;
                          range_mask := rmask; mask := msk; id := rid; intf := i |}];
                    unmap := unmap map |}).

(** the test of the region loop *)
Definition region_match (first last : Z) (r : memory_map_region) : bool :=
  (Z.land first (range_mask r) >=? first_addr r) &&
  (Z.land last (range_mask r) <=? last_addr r).

(** the loop over [map->regions]: the first match *)
Fixpoint find_region (first last : Z) (rs : list memory_map_region)
    : option memory_map_region :=
  match rs with
  | [] => None
  | r :: rs' => if region_match first last r then Some r else find_region first last rs'
  end.

Definition memory_map_get_region (map : memory_map) (first n_bytes : Z)
    : option memory_map_region :=
  let last := u32 (first + (n_bytes - 1)) in
  find_region first last (regions map).

(** a call through a function pointer *)
Definition call_ptr {A} (f : option (M St A)) : M St A :=
  match f with Some m => m | None => raise C_UNDEFINED end.

(** [MEMORY_MAP_READ_TMPL] *)
Definition memory_map_read (a : acc) (map : memory_map) (addr : Z) : M St Z :=
  let first := addr in
  let last := u32 (sizeof a - 1 + first) in
  match find_region first last (regions map) with
  | Some r => call_ptr ((fun f => f (Z.land addr (mask r))) <$> read_fn (intf r) a)
  | None =>
      match unmap map with
      | Some u =>
          match read_fn u a with
          | Some f => f addr
          | None => raise ERROR_UNIMPLEMENTED
          end
      | None => raise ERROR_UNIMPLEMENTED
      end
  end.

(** [MEMORY_MAP_TRY_READ_TMPL]: [None] is the nonzero return. *)
Definition memory_map_try_read (a : acc) (map : memory_map) (addr : Z) : M St (option Z) :=
  let first := addr in
  let last := u32 (sizeof a - 1 + first) in
  match find_region first last (regions map) with
  | Some r =>
      match try_read_fn (intf r) a with
      | Some f => f (Z.land addr (mask r))
      | None =>
          val <- call_ptr ((fun f => f (Z.land addr (mask r))) <$> read_fn (intf r) a) ;;
          ret (Some val)
      end
  | None => ret None
  end.

(** [MEM_MAP_WRITE_TMPL]; the unmapped case tests the read pointer and calls the write
    pointer. *)
Definition memory_map_write (a : acc) (map : memory_map) (addr val : Z) : M St unit :=
  let first := addr in
  let last := u32 (sizeof a - 1 + first) in
  match find_region first last (regions map) with
  | Some r => call_ptr ((fun f => f (Z.land addr (mask r)) val) <$> write_fn (intf r) a)
  | None =>
      match unmap map with
      | Some u =>
          match read_fn u a with
          | Some _ => call_ptr ((fun f => f addr val) <$> write_fn u a)
          | None => raise ERROR_UNIMPLEMENTED
          end
      | None => raise ERROR_UNIMPLEMENTED
      end
  end.

(** [MEM_MAP_TRY_WRITE_TMPL]: [true] is the zero return. *)
Definition memory_map_try_write (a : acc) (map : memory_map) (addr val : Z) : M St bool :=
  let first := addr in
  let last := u32 (sizeof a - 1 + first) in
  match find_region first last (regions map) with
  | Some r =>
      match try_write_fn (intf r) a with
      | Some f => f (Z.land addr (mask r)) val
      | None =>
          call_ptr ((fun f => f (Z.land addr (mask r)) val) <$> write_fn (intf r) a) ;;
          ret true
      end
  | None => ret false
  end.

(** ** Lemmas *)
Lemma find_region_app first last rs1 rs2 :
  find_region first last (rs1 ++ rs2) =
  match find_region first last rs1 with
  | Some r => Some r
  | None => find_region first last rs2
  end.
Proof. induction rs1 as [|r rs1 IH]; simpl; [done|]. by destruct (region_match _ _ _). Qed.

Lemma find_region_Some first last rs r :
  find_region first last rs = Some r -> r ∈ rs /\ region_match first last r = true.
Proof.
  induction rs as [|r' rs IH]; simpl; [done|].
  destruct (region_match first last r') eqn:E; intros.
  - simplify_eq. split; [set_solver|done].
  - destruct IH; [done|]. split; [set_solver|done].
Qed.

Lemma find_region_None first last rs :
  find_region first last rs = None <-> forall r, r ∈ rs -> region_match first last r = false.
Proof.
  induction rs as [|r' rs IH]; simpl.
  - split; [|done]. intros _ r Hr. set_solver.
  - destruct (region_match first last r') eqn:E; split; intros H.
    + done.
    + rewrite H in E; [done|set_solver].
    + intros r Hr. apply elem_of_cons in Hr as [->|Hr]; [done|]. by apply IH.
    + apply IH. intros r Hr. apply H. set_solver.
Qed.

(** No two regions of the list claim the access [first..last]. *)
Definition unambiguous (first last : Z) (rs : list memory_map_region) : Prop :=
  forall i j ri rj, rs !! i = Some ri -> rs !! j = Some rj ->
    region_match first last ri = true -> region_match first last rj = true -> i = j.

(** Where the regions do not overlap, the order in which they were added is immaterial. *)
Lemma find_region_unique first last rs i r :
  unambiguous first last rs -> rs !! i = Some r -> region_match first last r = true ->
  find_region first last rs = Some r.
Proof.
  intros Hu Hi Hm. destruct (find_region first last rs) as [r'|] eqn:E.
  - apply find_region_Some in E as [Hin Hm']. apply list_elem_of_lookup in Hin as [j Hj].
    assert (i = j) as -> by by eapply Hu. congruence.
  - rewrite find_region_None in E. rewrite E in Hm; [done|].
    apply list_elem_of_lookup. eauto.
Qed.

Lemma find_region_permut first last rs rs' :
  unambiguous first last rs' -> rs ≡ₚ rs' ->
  find_region first last rs = find_region first last rs'.
Proof.
  intros Hu Hp. destruct (find_region first last rs) as [r|] eqn:E.
  - apply find_region_Some in E as [Hin Hm]. rewrite Hp in Hin.
    apply list_elem_of_lookup in Hin as [i Hi]. symmetry. by eapply find_region_unique.
  - symmetry. apply find_region_None. intros r Hr. rewrite find_region_None in E.
    apply E. by rewrite Hp.
Qed.

(** the region an access goes to does not depend on the order in which the regions were
    added, as long as no two of them claim it: reads and writes through two maps with the same
    regions in different orders are the same, in every state and on every error path. *)
Theorem dispatch_order_irrelevant (a : acc) (m1 m2 : memory_map) (addr val : Z) (s : St) :
  regions m1 ≡ₚ regions m2 -> unmap m1 = unmap m2 ->
  unambiguous addr (u32 (sizeof a - 1 + addr)) (regions m2) ->
  memory_map_read a m1 addr s = memory_map_read a m2 addr s /\
  memory_map_write a m1 addr val s = memory_map_write a m2 addr val s /\
  memory_map_try_read a m1 addr s = memory_map_try_read a m2 addr s /\
  memory_map_try_write a m1 addr val s = memory_map_try_write a m2 addr val s.
Proof.
  intros Hp Hu Ha.
  unfold memory_map_read, memory_map_write, memory_map_try_read, memory_map_try_write.
  by rewrite (find_region_permut _ _ _ _ Ha Hp), Hu.
Qed.

(** an access reaches the handler of the first region whose window holds all its bytes,
    at the address masked by the region, and no other handler; if there is none it goes to
    the handler for unmapped addresses with the address as it is, and without one it is an
    error for the plain accessors and a failure for the [try_] ones. *)
Theorem dispatch_first_match (a : acc) (m : memory_map) (before after : list memory_map_region)
    (r : memory_map_region) (addr : Z) (s : St) :
  let last := u32 (sizeof a - 1 + addr) in
  (regions m = before ++ r :: after ->
   (forall r', r' ∈ before -> region_match addr last r' = false) ->
   region_match addr last r = true ->
   memory_map_read a m addr s =
     match read_fn (intf r) a with
     | Some f => f (Z.land addr (mask r)) s
     | None => Err C_UNDEFINED
     end) /\
  ((forall r', r' ∈ regions m -> region_match addr last r' = false) ->
   memory_map_try_read a m addr s = Ok (None, s) /\
   memory_map_read a m addr s =
     match unmap m ≫= (fun u => read_fn u a) with
     | Some f => f addr s
     | None => Err ERROR_UNIMPLEMENTED
     end).
Proof.
  intros last. split.
  - intros Hr Hb Hm. unfold memory_map_read. rewrite Hr, find_region_app. fold last.
    rewrite (proj2 (find_region_None _ _ before) Hb). cbn [find_region]. rewrite Hm.
    by destruct (read_fn (intf r) a).
  - intros Hn. unfold memory_map_try_read, memory_map_read. fold last.
    rewrite (proj2 (find_region_None _ _ (regions m)) Hn). split; [done|].
    destruct (unmap m) as [u|]; [|done]. cbn. by destruct (read_fn u a).
Qed.
End memory_map.

Arguments memory_interface St : clear implicits.
Arguments memory_map_region St : clear implicits.
Arguments memory_map St : clear implicits.

(** *** Witnesses: two devices side by side *)
Definition const_intf (v : Z) : memory_interface unit :=
  {| read_fn := fun _ => Some (fun addr => ret (v + addr)); write_fn := fun _ => None;
     try_read_fn := fun _ => None; try_write_fn := fun _ => None |}.
Definition test_region (first last v : Z) : memory_map_region unit :=
  {| first_addr := first; last_addr := last; range_mask := 0x1fffffff; mask := 0xff;
     id := MEMORY_MAP_REGION_UNKNOWN; intf := const_intf v |}.
Definition test_map (rs : list (memory_map_region unit)) : memory_map unit :=
  {| regions := rs; unmap := None |}.
Definition dev_a : memory_map_region unit := test_region 0x1000 0x10ff 0x10000.
Definition dev_b : memory_map_region unit := test_region 0x1100 0x11ff 0x20000.

Lemma dispatch_order_irrelevant_witness :
  memory_map_read A32 (test_map [dev_a; dev_b]) 0xa0001108 tt =
  memory_map_read A32 (test_map [dev_b; dev_a]) 0xa0001108 tt.
Proof.
  apply (dispatch_order_irrelevant A32 (test_map [dev_a; dev_b]) (test_map [dev_b; dev_a])
           0xa0001108 0 tt).
  - apply Permutation_swap.
  - reflexivity.
  - intros [|[|i]] [|[|j]] ri rj Hi Hj Hm Hm'; cbn in Hi, Hj; simplify_eq; try reflexivity;
      try done; vm_compute in Hm, Hm'; congruence.
Defined.

Lemma dispatch_first_match_witness :
  memory_map_read A32 (test_map [dev_a; dev_b]) 0xa0001108 tt = Ok (0x20008, tt) /\
  memory_map_read A32 (test_map [dev_a; dev_b]) 0x2000 tt = Err ERROR_UNIMPLEMENTED.
Proof.
  split.
  - apply (proj1 (dispatch_first_match A32 (test_map [dev_a; dev_b]) [dev_a] [] dev_b
             0xa0001108 tt)); [reflexivity| |reflexivity].
    intros r' Hr. apply list_elem_of_singleton in Hr as ->. reflexivity.
  - apply (proj2 (dispatch_first_match A32 (test_map [dev_a; dev_b]) [] [] dev_a 0x2000 tt)).
    intros r' Hr. apply elem_of_cons in Hr as [->|Hr]; [reflexivity|].
    apply list_elem_of_singleton in Hr as ->. reflexivity.
Defined.

End memory_map.
