(* ===== verification/Memory.v ===== *)
(** The main RAM (src/libwashdc/memory.c, memory.h): an array of [MEMORY_SIZE] bytes, which
    the access handlers view as an array of 16, 32 or 64-bit little-endian elements.

    The byte array is a finite map from addresses; a byte the map does not hold is zero, as
    [memory_clear] leaves it.  An access beyond the array is undefined in C.  The
    properties: reads return what was last written, at every width and across widths;
    misaligned addresses fall on the aligned element; the block accessors reject exactly
    the ranges that leave the array. *)
From stdpp Require Import gmap.
From S2P Require Import Prelude MemoryMap.
Import memory_map.

Module memory.

Definition MEMORY_SIZE_SHIFT : Z := 24.
Definition MEMORY_SIZE : Z := Z.shiftl 1 MEMORY_SIZE_SHIFT.

(** [struct Memory] *)
Abbreviation Memory := (gmap Z Z).

Definition memory_init : Memory := ∅.
Definition memory_clear (mem : Memory) : Memory := ∅.

Definition byte (m : Memory) (a : Z) : Z := default 0 (m !! a).

(** [n] bytes in little-endian order, as a value *)
Fixpoint load (n : nat) (a : Z) (m : Memory) : Z :=
  match n with
  | O => 0
  | S n' => Z.lor (byte m a) (Z.shiftl (load n' (a + 1) m) 8)
  end.

Fixpoint store (n : nat) (a v : Z) (m : Memory) : Memory :=
  match n with
  | O => m
  | S n' => store n' (a + 1) (Z.shiftr v 8) (<[a := u8 v]> m)
  end.

(** the element of [2^k] bytes at index [addr >> k] *)
Definition elem_addr (k addr : Z) : Z := Z.shiftl (Z.shiftr addr k) k.

Definition in_array (k addr : Z) : bool :=
  (0 <=? addr) && (elem_addr k addr + 2 ^ k <=? MEMORY_SIZE).

Definition read_elem (k addr : Z) (m : Memory) : res Z :=
  if in_array k addr then Ok (load (Z.to_nat (2 ^ k)) (elem_addr k addr) m)
  else Err C_UNDEFINED.

Definition write_elem (k addr v : Z) (m : Memory) : res Memory :=
  if in_array k addr then Ok (store (Z.to_nat (2 ^ k)) (elem_addr k addr) v m)
  else Err C_UNDEFINED.

Definition memory_read_8 (addr : Z) (m : Memory) : res Z := read_elem 0 addr m.
Definition memory_read_16 (addr : Z) (m : Memory) : res Z := read_elem 1 addr m.
Definition memory_read_32 (addr : Z) (m : Memory) : res Z := read_elem 2 addr m.
Definition memory_read_float (addr : Z) (m : Memory) : res Z := read_elem 2 addr m.
Definition memory_read_double (addr : Z) (m : Memory) : res Z := read_elem 3 addr m.
Definition memory_write_8 (addr v : Z) (m : Memory) : res Memory := write_elem 0 addr v m.
Definition memory_write_16 (addr v : Z) (m : Memory) : res Memory := write_elem 1 addr v m.
Definition memory_write_32 (addr v : Z) (m : Memory) : res Memory := write_elem 2 addr v m.
Definition memory_write_float (addr v : Z) (m : Memory) : res Memory := write_elem 2 addr v m.
Definition memory_write_double (addr v : Z) (m : Memory) : res Memory := write_elem 3 addr v m.

(** the block accessors; [None] is [MEM_ACCESS_FAILURE] *)
Definition block_out_of_bounds (addr len : Z) : bool :=
  let end_addr := u64 (addr + u64 (len - 1)) in
  truth (Z.land end_addr (u64 (Z.lnot (MEMORY_SIZE - 1)))).

Fixpoint load_bytes (n : nat) (a : Z) (m : Memory) : list Z :=
  match n with
  | O => []
  | S n' => byte m a :: load_bytes n' (a + 1) m
  end.

Fixpoint store_bytes (a : Z) (bs : list Z) (m : Memory) : Memory :=
  match bs with
  | [] => m
  | b :: bs' => store_bytes (a + 1) bs' (<[a := b]> m)
  end.

Definition memory_read (m : Memory) (addr len : Z) : option (list Z) :=
  if block_out_of_bounds addr len then None
  else Some (load_bytes (Z.to_nat len) addr m).

Definition memory_write (m : Memory) (buf : list Z) (addr : Z) : option Memory :=
  if block_out_of_bounds addr (Z.of_nat (length buf)) then None
  else Some (store_bytes addr buf m).

(** [ram_intf], for a machine that keeps its RAM where [get] and [put] say; the
    [try_] handlers are null *)
Section ram_intf.
Context {St : Type} (get : St -> Memory) (put : Memory -> St -> St).

Definition lift_read (f : Z -> Memory -> res Z) (addr : Z) : M St Z :=
  fun s => match f addr (get s) with Ok v => Ok (v, s) | Err e => Err e end.
Definition lift_write (f : Z -> Z -> Memory -> res Memory) (addr v : Z) : M St unit :=
  fun s => match f addr v (get s) with Ok m => Ok (tt, put m s) | Err e => Err e end.

Definition ram_intf : memory_interface St :=
  {| read_fn := fun a => Some (lift_read match a with
       | A8 => memory_read_8 | A16 => memory_read_16 | A32 => memory_read_32
       | Afloat => memory_read_float | Adouble => memory_read_double end);
     write_fn := fun a => Some (lift_write match a with
       | A8 => memory_write_8 | A16 => memory_write_16 | A32 => memory_write_32
       | Afloat => memory_write_float | Adouble => memory_write_double end);
     try_read_fn := fun _ => None; try_write_fn := fun _ => None |}.
End ram_intf.

(** ** Lemmas on the byte array *)
Lemma byte_insert m a b v : byte (<[a := v]> m) b = if a =? b then v else byte m b.
Proof.
  unfold byte. destruct (Z.eqb_spec a b) as [->|].
  - by rewrite lookup_insert_eq.
  - by rewrite lookup_insert_ne.
Qed.

Lemma byte_store_outside n a v m b :
  (b < a \/ a + Z.of_nat n <= b) -> byte (store n a v m) b = byte m b.
Proof.
  revert a v m. induction n as [|n IH]; intros a v m Hb; cbn [store]; [done|].
  rewrite IH by lia. rewrite byte_insert. by destruct (Z.eqb_spec a b); [lia|].
Qed.

Lemma load_ext n a m1 m2 :
  (forall b, a <= b < a + Z.of_nat n -> byte m1 b = byte m2 b) -> load n a m1 = load n a m2.
Proof.
  revert a. induction n as [|n IH]; intros a Hb; cbn [load]; [done|].
  rewrite (Hb a) by lia. rewrite (IH (a + 1)); [done|]. intros b ?. apply Hb. lia.
Qed.

Lemma load_store_other n k a b v m :
  (b + Z.of_nat k <= a \/ a + Z.of_nat n <= b) -> load k b (store n a v m) = load k b m.
Proof. intros Hd. apply load_ext. intros c Hc. apply byte_store_outside. lia. Qed.

Lemma byte_store_inside n a v m b :
  a <= b < a + Z.of_nat n -> byte (store n a v m) b = u8 (Z.shiftr v (8 * (b - a))).
Proof.
  revert a v m. induction n as [|n IH]; intros a v m Hb; cbn [store]; [lia|].
  destruct (Z.eq_dec a b) as [->|].
  - rewrite byte_store_outside by lia. rewrite byte_insert, Z.eqb_refl, Z.sub_diag.
    by rewrite Z.shiftr_0_r.
  - rewrite IH by lia. rewrite Z.shiftr_shiftr by lia. do 2 f_equal. lia.
Qed.

(** A load inside the bytes of a store returns a slice of the stored value. *)
Lemma load_store_inside n k a b v m :
  a <= b -> b + Z.of_nat k <= a + Z.of_nat n ->
  load k b (store n a v m) = wrap (8 * Z.of_nat k) (Z.shiftr v (8 * (b - a))).
Proof.
  revert b. induction k as [|k IH]; intros b Ha Hb; cbn [load].
  { unfold wrap. by rewrite Z.mod_1_r. }
  rewrite byte_store_inside, IH by lia.
  apply Z.bits_inj'. intros i Hi. rewrite Z.lor_spec, Z.shiftl_spec by lia.
  rewrite (wrap_testbit 8), (wrap_testbit (8 * Z.of_nat (S k))) by lia.
  rewrite !Z.shiftr_spec by lia. destruct (Z.ltb_spec i 8).
  - rewrite (Z.testbit_neg_r _ (i - 8)) by lia.
    destruct (Z.ltb_spec i (8 * Z.of_nat (S k))); [|lia]. by rewrite orb_false_r.
  - cbn [andb orb]. rewrite wrap_testbit, Z.shiftr_spec by lia.
    replace (i - 8 + 8 * (b + 1 - a)) with (i + 8 * (b - a)) by lia.
    by destruct (Z.ltb_spec (i - 8) (8 * Z.of_nat k)),
                (Z.ltb_spec i (8 * Z.of_nat (S k))); try lia.
Qed.

Lemma read_elem_store k addr v m m' j b :
  0 <= k -> 0 <= j -> write_elem k addr v m = Ok m' -> in_array j b = true ->
  elem_addr k addr <= elem_addr j b ->
  elem_addr j b + 2 ^ j <= elem_addr k addr + 2 ^ k ->
  read_elem j b m' =
    Ok (wrap (8 * 2 ^ j) (Z.shiftr v (8 * (elem_addr j b - elem_addr k addr)))).
Proof.
  intros Hk Hj Hw Hb Hlo Hhi. unfold write_elem in Hw. destruct (in_array k addr); [|done].
  injection Hw as <-. unfold read_elem. rewrite Hb.
  pose proof (pow2_pos k Hk). pose proof (pow2_pos j Hj).
  rewrite load_store_inside by (rewrite ?Z2Nat.id by lia; lia). by rewrite Z2Nat.id by lia.
Qed.

Lemma read_elem_store_other k addr v m m' j b :
  0 <= k -> 0 <= j -> write_elem k addr v m = Ok m' ->
  elem_addr j b + 2 ^ j <= elem_addr k addr \/ elem_addr k addr + 2 ^ k <= elem_addr j b ->
  read_elem j b m' = read_elem j b m.
Proof.
  intros Hk Hj Hw Hd. unfold write_elem in Hw. destruct (in_array k addr); [|done].
  injection Hw as <-. unfold read_elem. destruct (in_array j b); [|done].
  pose proof (pow2_pos k Hk). pose proof (pow2_pos j Hj).
  rewrite load_store_other; [done|]. rewrite !Z2Nat.id by lia. lia.
Qed.

Lemma block_bounds_spec addr len :
  0 <= addr -> 0 < len -> addr + len < 2 ^ 64 ->
  block_out_of_bounds addr len = negb (addr + len <=? MEMORY_SIZE).
Proof.
  intros Ha Hl Hs. unfold block_out_of_bounds.
  rewrite (wrap_small 64 (len - 1)), (wrap_small 64) by (unfold in_range; lia).
  set (e := addr + (len - 1)). unfold truth. f_equal.
  change (u64 (Z.lnot (MEMORY_SIZE - 1))) with (Z.lxor (Z.ones 64) (Z.ones 24)).
  assert (He : Z.land e (Z.lxor (Z.ones 64) (Z.ones 24)) = Z.shiftl (Z.shiftr e 24) 24).
  { apply Z.bits_inj'. intros i Hi.
    rewrite Z.land_spec, Z.lxor_spec, !Z.testbit_ones_nonneg by lia.
    rewrite Z.shiftl_spec by lia. destruct (Z.ltb_spec i 24).
    - rewrite (Z.testbit_neg_r _ (i - 24)) by lia.
      destruct (Z.ltb_spec i 64); [|lia]. by rewrite andb_false_r.
    - rewrite Z.shiftr_spec by lia. replace (i - 24 + 24) with i by lia.
      destruct (Z.ltb_spec i 64); [by rewrite andb_true_r|].
      rewrite (in_range_testbit_high 64) by (unfold in_range, e; lia). done. }
  rewrite He, Z.shiftl_mul_pow2, Z.shiftr_div_pow2 by lia.
  change MEMORY_SIZE with (2 ^ 24). unfold e.
  destruct (Z.leb_spec (addr + len) (2 ^ 24)).
  - rewrite Z.div_small by lia. done.
  - apply Z.eqb_neq. assert (1 <= (addr + (len - 1)) / 2 ^ 24)
      by (apply Z.div_le_lower_bound; lia). lia.
Qed.

Lemma load_store_bytes a bs m :
  load_bytes (length bs) a (store_bytes a bs m) = bs.
Proof.
  assert (Hout : forall bs a m b, b < a -> byte (store_bytes a bs m) b = byte m b).
  { clear. induction bs as [|x bs IH]; intros a m b Hb; cbn [store_bytes]; [done|].
    rewrite IH by lia. rewrite byte_insert. by destruct (Z.eqb_spec a b); [lia|]. }
  revert a m. induction bs as [|x bs IH]; intros a m; cbn [load_bytes store_bytes length];
    [done|]. rewrite IH, Hout by lia. by rewrite byte_insert, Z.eqb_refl.
Qed.

(** ** Properties *)

(** after a store of any width, a load of any width that lies inside the stored element
    returns the little-endian slice of the stored value (the whole value at the same
    address and width), and a load that does not overlap it returns what it returned
    before. *)
Theorem ram_read_after_write (k addr v : Z) (m m' : Memory) :
  0 <= k <= 3 -> write_elem k addr v m = Ok m' ->
  forall j b, 0 <= j <= 3 -> in_array j b = true ->
    (elem_addr k addr <= elem_addr j b ->
     elem_addr j b + 2 ^ j <= elem_addr k addr + 2 ^ k ->
     read_elem j b m' =
       Ok (wrap (8 * 2 ^ j) (Z.shiftr v (8 * (elem_addr j b - elem_addr k addr))))) /\
    (elem_addr j b + 2 ^ j <= elem_addr k addr \/ elem_addr k addr + 2 ^ k <= elem_addr j b ->
     read_elem j b m' = read_elem j b m).
Proof.
  intros Hk Hw j b Hj Hb. split; intros.
  - eapply read_elem_store; eauto; lia.
  - eapply read_elem_store_other; eauto; lia.
Qed.

(** a block write that fits in the RAM succeeds and a block read of the same range gives
    the bytes back; one that leaves the RAM is rejected, and so is the read. *)
Theorem block_roundtrip (m : Memory) (buf : list Z) (addr : Z) :
  0 <= addr -> buf <> [] -> addr + Z.of_nat (length buf) < 2 ^ 64 ->
  (addr + Z.of_nat (length buf) <= MEMORY_SIZE ->
   exists m', memory_write m buf addr = Some m' /\
     memory_read m' addr (Z.of_nat (length buf)) = Some buf) /\
  (MEMORY_SIZE < addr + Z.of_nat (length buf) ->
   memory_write m buf addr = None /\
   memory_read m addr (Z.of_nat (length buf)) = None).
Proof.
  intros Ha Hne Hs. assert (0 < Z.of_nat (length buf)) by (destruct buf; [done|cbn; lia]).
  unfold memory_write, memory_read. rewrite block_bounds_spec by lia.
  split; intros Hb; destruct (Z.leb_spec (addr + Z.of_nat (length buf)) MEMORY_SIZE);
    try lia; cbn [negb]; [|done].
  eexists; split; [done|]. by rewrite Nat2Z.id, load_store_bytes.
Qed.

Lemma ram_read_after_write_witness :
  read_elem 0 0x103 (store 4 0x100 0x8badf00d ∅) = Ok 0x8b /\
  read_elem 1 0x104 (store 4 0x100 0x8badf00d ∅) = read_elem 1 0x104 ∅.
Proof.
  split.
  - exact (proj1 (ram_read_after_write 2 0x102 0x8badf00d ∅ _ ltac:(lia) eq_refl
                    0 0x103 ltac:(lia) eq_refl) ltac:(vm_compute; congruence)
                    ltac:(vm_compute; congruence)).
  - exact (proj2 (ram_read_after_write 2 0x102 0x8badf00d ∅ _ ltac:(lia) eq_refl
                    1 0x104 ltac:(lia) eq_refl) ltac:(right; vm_compute; congruence)).
Defined.

Lemma block_roundtrip_witness :
  memory_write ∅ [1; 2; 3] 0xffffff = None /\
  exists m', memory_write ∅ [1; 2; 3] 0xfffffd = Some m' /\
    memory_read m' 0xfffffd 3 = Some [1; 2; 3].
Proof.
  split.
  - exact (proj1 (proj2 (block_roundtrip ∅ [1; 2; 3] 0xffffff ltac:(lia) ltac:(done)
             ltac:(cbn; lia)) ltac:(vm_compute; reflexivity))).
  - exact (proj1 (block_roundtrip ∅ [1; 2; 3] 0xfffffd ltac:(lia) ltac:(done)
             ltac:(cbn; lia)) ltac:(vm_compute; congruence)).
Defined.
End memory.
