(* ===== verification/Sh4State.v ===== *)
(** The state of the SH-4 (src/libwashdc/hw/sh4/sh4.h), its register indices
    (include/washdc/hw/sh4/sh4_reg_idx.h) and flags (hw/sh4/sh4_reg_flags.h), and the
    primitive accesses of the instruction handlers.

    The machine behind the CPU -- RAM, devices, the event queue, the debugger -- is a
    type [W] with the operations of the class [Machine]: the memory map that the handlers
    read and write, and the few calls the CPU makes outside of it. *)
From S2P Require Import Prelude MemoryMap.
Import memory_map.

Module sh4_reg.
(** [enum sh4_reg_idx] *)
Definition SH4_REG_R0 : Z := 0.
Definition SH4_REG_R1 : Z := 1.
Definition SH4_REG_R2 : Z := 2.
Definition SH4_REG_R3 : Z := 3.
Definition SH4_REG_R4 : Z := 4.
Definition SH4_REG_R5 : Z := 5.
Definition SH4_REG_R6 : Z := 6.
Definition SH4_REG_R7 : Z := 7.
Definition SH4_REG_R8 : Z := 8.
Definition SH4_REG_R9 : Z := 9.
Definition SH4_REG_R10 : Z := 10.
Definition SH4_REG_R11 : Z := 11.
Definition SH4_REG_R12 : Z := 12.
Definition SH4_REG_R13 : Z := 13.
Definition SH4_REG_R14 : Z := 14.
Definition SH4_REG_R15 : Z := 15.
Definition SH4_REG_R0_BANK : Z := 16.
Definition SH4_REG_R1_BANK : Z := 17.
Definition SH4_REG_R2_BANK : Z := 18.
Definition SH4_REG_R3_BANK : Z := 19.
Definition SH4_REG_R4_BANK : Z := 20.
Definition SH4_REG_R5_BANK : Z := 21.
Definition SH4_REG_R6_BANK : Z := 22.
Definition SH4_REG_R7_BANK : Z := 23.
Definition SH4_REG_FR0 : Z := 24.
Definition SH4_REG_DR0 : Z := 24.
Definition SH4_REG_FR1 : Z := 25.
Definition SH4_REG_FR2 : Z := 26.
Definition SH4_REG_FR3 : Z := 27.
Definition SH4_REG_FR4 : Z := 28.
Definition SH4_REG_FR5 : Z := 29.
Definition SH4_REG_FR6 : Z := 30.
Definition SH4_REG_FR7 : Z := 31.
Definition SH4_REG_FR8 : Z := 32.
Definition SH4_REG_FR9 : Z := 33.
Definition SH4_REG_FR10 : Z := 34.
Definition SH4_REG_FR11 : Z := 35.
Definition SH4_REG_FR12 : Z := 36.
Definition SH4_REG_FR13 : Z := 37.
Definition SH4_REG_FR14 : Z := 38.
Definition SH4_REG_FR15 : Z := 39.
Definition SH4_REG_XF0 : Z := 40.
Definition SH4_REG_XD0 : Z := 40.
Definition SH4_REG_XF1 : Z := 41.
Definition SH4_REG_XF2 : Z := 42.
Definition SH4_REG_XF3 : Z := 43.
Definition SH4_REG_XF4 : Z := 44.
Definition SH4_REG_XF5 : Z := 45.
Definition SH4_REG_XF6 : Z := 46.
Definition SH4_REG_XF7 : Z := 47.
Definition SH4_REG_XF8 : Z := 48.
Definition SH4_REG_XF9 : Z := 49.
Definition SH4_REG_XF10 : Z := 50.
Definition SH4_REG_XF11 : Z := 51.
Definition SH4_REG_XF12 : Z := 52.
Definition SH4_REG_XF13 : Z := 53.
Definition SH4_REG_XF14 : Z := 54.
Definition SH4_REG_XF15 : Z := 55.
Definition SH4_REG_FPSCR : Z := 56.
Definition SH4_REG_FPUL : Z := 57.
Definition SH4_REG_SR : Z := 58.
Definition SH4_REG_SSR : Z := 59.
Definition SH4_REG_SPC : Z := 60.
Definition SH4_REG_GBR : Z := 61.
Definition SH4_REG_VBR : Z := 62.
Definition SH4_REG_SGR : Z := 63.
Definition SH4_REG_DBR : Z := 64.
Definition SH4_REG_MACH : Z := 65.
Definition SH4_REG_MACL : Z := 66.
Definition SH4_REG_PR : Z := 67.
Definition SH4_REG_PC : Z := 68.
Definition SH4_REG_PTEH : Z := 69.
Definition SH4_REG_PTEL : Z := 70.
Definition SH4_REG_PTEA : Z := 71.
Definition SH4_REG_TTB : Z := 72.
Definition SH4_REG_TEA : Z := 73.
Definition SH4_REG_MMUCR : Z := 74.
Definition SH4_REG_CCR : Z := 75.
Definition SH4_REG_QACR0 : Z := 76.
Definition SH4_REG_QACR1 : Z := 77.
Definition SH4_REG_TRA : Z := 78.
Definition SH4_REG_EXPEVT : Z := 79.
Definition SH4_REG_INTEVT : Z := 80.
Definition SH4_REG_TOCR : Z := 81.
Definition SH4_REG_TSTR : Z := 82.
Definition SH4_REG_TCOR0 : Z := 83.
Definition SH4_REG_TCNT0 : Z := 84.
Definition SH4_REG_TCR0 : Z := 85.
Definition SH4_REG_TCOR1 : Z := 86.
Definition SH4_REG_TCNT1 : Z := 87.
Definition SH4_REG_TCR1 : Z := 88.
Definition SH4_REG_TCOR2 : Z := 89.
Definition SH4_REG_TCNT2 : Z := 90.
Definition SH4_REG_TCR2 : Z := 91.
Definition SH4_REG_TCPR2 : Z := 92.
Definition SH4_REG_SAR1 : Z := 93.
Definition SH4_REG_DAR1 : Z := 94.
Definition SH4_REG_DMATCR1 : Z := 95.
Definition SH4_REG_CHCR1 : Z := 96.
Definition SH4_REG_SAR2 : Z := 97.
Definition SH4_REG_DAR2 : Z := 98.
Definition SH4_REG_DMATCR2 : Z := 99.
Definition SH4_REG_CHCR2 : Z := 100.
Definition SH4_REG_SAR3 : Z := 101.
Definition SH4_REG_DAR3 : Z := 102.
Definition SH4_REG_DMATCR3 : Z := 103.
Definition SH4_REG_CHCR3 : Z := 104.
Definition SH4_REG_DMAOR : Z := 105.
Definition SH4_REG_ICR : Z := 106.
Definition SH4_REG_IPRA : Z := 107.
Definition SH4_REG_IPRB : Z := 108.
Definition SH4_REG_IPRC : Z := 109.
Definition SH4_REG_IPRD : Z := 110.
Definition SH4_REG_PCTRA : Z := 111.
Definition SH4_REG_PDTRA : Z := 112.
Definition SH4_REG_PCTRB : Z := 113.
Definition SH4_REG_PDTRB : Z := 114.
Definition SH4_REG_SCSMR2 : Z := 115.
Definition SH4_REG_SCBRR2 : Z := 116.
Definition SH4_REG_SCSCR2 : Z := 117.
Definition SH4_REG_SCFSR2 : Z := 118.
Definition SH4_REG_SCFCR2 : Z := 119.
Definition SH4_REG_SCSPTR2 : Z := 120.
Definition SH4_REG_SCLSR2 : Z := 121.
Definition SH4_REG_STBCR : Z := 122.
Definition SH4_REG_UNKNOWN_ff100008 : Z := 123.
Definition SH4_REGISTER_COUNT : Z := 124.

(** Bits of SR *)
Definition SH4_SR_FLAG_T_SHIFT : Z := 0.
Definition SH4_SR_FLAG_T_MASK : Z := 0x1.
Definition SH4_SR_FLAG_S_MASK : Z := 0x2.
Definition SH4_SR_IMASK_SHIFT : Z := 4.
Definition SH4_SR_IMASK_MASK : Z := 0xf0.
Definition SH4_SR_Q_SHIFT : Z := 8.
Definition SH4_SR_Q_MASK : Z := 0x100.
Definition SH4_SR_M_SHIFT : Z := 9.
Definition SH4_SR_M_MASK : Z := 0x200.
Definition SH4_SR_FD_MASK : Z := 0x8000.
Definition SH4_SR_BL_MASK : Z := 0x10000000.
Definition SH4_SR_RB_MASK : Z := 0x20000000.
Definition SH4_SR_MD_MASK : Z := 0x40000000.

(** Bits of FPSCR and of memory-mapped registers *)
Definition SH4_FPSCR_RM_MASK : Z := 0x3.
Definition SH4_FPSCR_PR_MASK : Z := 0x80000.
Definition SH4_FPSCR_SZ_MASK : Z := 0x100000.
Definition SH4_FPSCR_FR_MASK : Z := 0x200000.
Definition SH4_FPSCR_CAUSE_MASK : Z := 0x3f000.
Definition SH4_EXPEVT_CODE_SHIFT : Z := 0.
Definition SH4_EXPEVT_CODE_MASK : Z := 0xfff.
Definition SH4_INTEVT_CODE_SHIFT : Z := 0.
Definition SH4_INTEVT_CODE_MASK : Z := 0xfff.
Definition SH4_ICR_IRLM_MASK : Z := 0x80.
Definition SH4_QACR_SHIFT : Z := 2.
Definition SH4_QACR_MASK : Z := 0x1c.
Definition SH4_STBCR_STBY_MASK : Z := 0x80.
End sh4_reg.
Export sh4_reg.

(** ** The build's options

    The preprocessor symbols the modelled code tests: run-time checks, privileged-mode
    checks of the control-register instructions and the debugger. *)
Class BuildConfig : Type := {
  INVARIANTS : bool;
  ENABLE_SH4_MMU : bool;
  ENABLE_DEBUGGER : bool;
  DBG_EXIT_ON_UNDEFINED_OPCODE : bool
}.

(** ** struct Sh4 *)
Inductive Sh4ExecState : Type :=
| SH4_EXEC_STATE_NORM | SH4_EXEC_STATE_SLEEP | SH4_EXEC_STATE_STANDBY.

#[export] Instance Sh4ExecState_eq_dec : EqDecision Sh4ExecState.
Proof. solve_decision. Defined.

(** [enum sh4_inst_group] *)
Inductive sh4_inst_group : Type :=
| SH4_GROUP_MT | SH4_GROUP_EX | SH4_GROUP_BR | SH4_GROUP_LS | SH4_GROUP_FE | SH4_GROUP_CO
| SH4_GROUP_NONE.

#[export] Instance sh4_inst_group_eq_dec : EqDecision sh4_inst_group.
Proof. solve_decision. Defined.

(** the host rounding modes that [fesetround] selects *)
Inductive fe_round : Type := FE_TONEAREST | FE_TOWARDZERO.

(** [struct sh4_irq_meta] *)
Record sh4_irq_meta : Type := {
  is_irl : bool;
  code : Z;
  line : Z
}.

(** [struct sh4_intc], with the file-static flag of sh4_excp.c that says whether the
    deferred refresh is already scheduled *)
Record sh4_intc : Type := {
  irq_lines : list Z;
  is_irq_pending : bool;
  pending_irq : sh4_irq_meta;
  refresh_intc_event_scheduled : bool
}.

Record Sh4 {W : Type} : Type := {
  reg : list Z;
  delayed_branch : bool;
  delayed_branch_addr : Z;
  exec_state : Sh4ExecState;
  last_inst_type : sh4_inst_group;
  aborted_operation : bool;
  sq : list Z;
  intc : sh4_intc;
  fround : fe_round;
  world : W
}.
Arguments Sh4 W : clear implicits.

Section setters.
Context {W : Type}.
Definition with_reg (v : list Z) (s : Sh4 W) : Sh4 W :=
  {| reg := v; delayed_branch := delayed_branch s;
     delayed_branch_addr := delayed_branch_addr s; exec_state := exec_state s;
     last_inst_type := last_inst_type s; aborted_operation := aborted_operation s;
     sq := sq s; intc := intc s; fround := fround s; world := world s |}.
Definition with_delayed_branch (v : bool) (s : Sh4 W) : Sh4 W :=
  {| reg := reg s; delayed_branch := v;
     delayed_branch_addr := delayed_branch_addr s; exec_state := exec_state s;
     last_inst_type := last_inst_type s; aborted_operation := aborted_operation s;
     sq := sq s; intc := intc s; fround := fround s; world := world s |}.
Definition with_delayed_branch_addr (v : Z) (s : Sh4 W) : Sh4 W :=
  {| reg := reg s; delayed_branch := delayed_branch s;
     delayed_branch_addr := v; exec_state := exec_state s;
     last_inst_type := last_inst_type s; aborted_operation := aborted_operation s;
     sq := sq s; intc := intc s; fround := fround s; world := world s |}.
Definition with_exec_state (v : Sh4ExecState) (s : Sh4 W) : Sh4 W :=
  {| reg := reg s; delayed_branch := delayed_branch s;
     delayed_branch_addr := delayed_branch_addr s; exec_state := v;
     last_inst_type := last_inst_type s; aborted_operation := aborted_operation s;
     sq := sq s; intc := intc s; fround := fround s; world := world s |}.
Definition with_last_inst_type (v : sh4_inst_group) (s : Sh4 W) : Sh4 W :=
  {| reg := reg s; delayed_branch := delayed_branch s;
     delayed_branch_addr := delayed_branch_addr s; exec_state := exec_state s;
     last_inst_type := v; aborted_operation := aborted_operation s;
     sq := sq s; intc := intc s; fround := fround s; world := world s |}.
Definition with_aborted_operation (v : bool) (s : Sh4 W) : Sh4 W :=
  {| reg := reg s; delayed_branch := delayed_branch s;
     delayed_branch_addr := delayed_branch_addr s; exec_state := exec_state s;
     last_inst_type := last_inst_type s; aborted_operation := v;
     sq := sq s; intc := intc s; fround := fround s; world := world s |}.
Definition with_sq (v : list Z) (s : Sh4 W) : Sh4 W :=
  {| reg := reg s; delayed_branch := delayed_branch s;
     delayed_branch_addr := delayed_branch_addr s; exec_state := exec_state s;
     last_inst_type := last_inst_type s; aborted_operation := aborted_operation s;
     sq := v; intc := intc s; fround := fround s; world := world s |}.
Definition with_intc (v : sh4_intc) (s : Sh4 W) : Sh4 W :=
  {| reg := reg s; delayed_branch := delayed_branch s;
     delayed_branch_addr := delayed_branch_addr s; exec_state := exec_state s;
     last_inst_type := last_inst_type s; aborted_operation := aborted_operation s;
     sq := sq s; intc := v; fround := fround s; world := world s |}.
Definition with_fround (v : fe_round) (s : Sh4 W) : Sh4 W :=
  {| reg := reg s; delayed_branch := delayed_branch s;
     delayed_branch_addr := delayed_branch_addr s; exec_state := exec_state s;
     last_inst_type := last_inst_type s; aborted_operation := aborted_operation s;
     sq := sq s; intc := intc s; fround := v; world := world s |}.
Definition with_world (v : W) (s : Sh4 W) : Sh4 W :=
  {| reg := reg s; delayed_branch := delayed_branch s;
     delayed_branch_addr := delayed_branch_addr s; exec_state := exec_state s;
     last_inst_type := last_inst_type s; aborted_operation := aborted_operation s;
     sq := sq s; intc := intc s; fround := fround s; world := v |}.

(** [sh4->reg[i]]; the array has [SH4_REGISTER_COUNT] entries and no index the code
    forms lies beyond it.  A store converts to [reg32_t]. *)
Definition getr (i : Z) (s : Sh4 W) : Z := nth (Z.to_nat i) (reg s) 0.
Definition setr (i v : Z) (s : Sh4 W) : Sh4 W :=
  with_reg (<[Z.to_nat i := u32 v]> (reg s)) s.
End setters.

(** ** The handlers' view of the rest of the machine

    [fpu_fn] names the floating-point handlers of sh4_inst.c, whose bodies are not
    modelled; see [Sh4Decode]. *)
Inductive fpu_fn : Type :=
| fpu_fldi0 | fpu_fldi1 | fpu_fmov_gen | fpu_fmovs_ind_gen | fpu_fmov_binind_r0_gen_fpu
| fpu_fmov_indgeninc_fpu | fpu_fmov_fpu_indgen | fpu_fmov_fpu_inddecgen
| fpu_fmov_fpu_binind_r0_gen | fpu_fabs_fpu | fpu_fadd_fpu | fpu_fcmpeq_fpu
| fpu_fcmpgt_fpu | fpu_fdiv_fpu | fpu_float_fpu | fpu_fmac_fpu | fpu_fmul_fpu
| fpu_fneg_fpu | fpu_fsqrt_fpu | fpu_fsub_fpu | fpu_ftrc_fpu | fpu_fcnvds_fpu
| fpu_fcnvsd_fpu | fpu_fsca_fpu | fpu_fsrra_fpu | fpu_fipr_fv_fv | fpu_fitrv_mxtrx_fv.

#[export] Instance fpu_fn_eq_dec : EqDecision fpu_fn.
Proof. solve_decision. Defined.

Class Machine (W : Type) : Type := {
  (** [sh4->mem.map] *)
  mem_map : memory_map (Sh4 W);
  (** [sched_event] of the deferred interrupt-controller refresh on [sh4->clk] *)
  sched_refresh_intc : W -> res W;
  (** [dc_debugger_enabled] and [debug_on_softbreak] *)
  dc_debugger_enabled : W -> bool;
  debug_on_softbreak : Z -> Z -> M (Sh4 W) unit;
  (** the floating-point handlers *)
  fpu_inst : fpu_fn -> Z -> M (Sh4 W) unit
}.

Section primitives.
Context {W : Type} `{!Machine W}.
Abbreviation sh4M := (M (Sh4 W)).

Definition reg_get (i : Z) : sh4M Z := gets (getr i).
Definition reg_set (i v : Z) : sh4M unit := modify (setr i v).
Definition set_delayed_branch (b : bool) : sh4M unit := modify (with_delayed_branch b).
Definition set_delayed_branch_addr (a : Z) : sh4M unit :=
  modify (with_delayed_branch_addr (u32 a)).

(** The return and the parameter types convert the values. *)
Definition memory_map_read_8 (addr : Z) : sh4M Z :=
  val <- memory_map_read A8 mem_map (u32 addr) ;; ret (u8 val).
Definition memory_map_read_16 (addr : Z) : sh4M Z :=
  val <- memory_map_read A16 mem_map (u32 addr) ;; ret (u16 val).
Definition memory_map_read_32 (addr : Z) : sh4M Z :=
  val <- memory_map_read A32 mem_map (u32 addr) ;; ret (u32 val).
Definition memory_map_write_8 (addr val : Z) : sh4M unit :=
  memory_map_write A8 mem_map (u32 addr) (u8 val).
Definition memory_map_write_16 (addr val : Z) : sh4M unit :=
  memory_map_write A16 mem_map (u32 addr) (u16 val).
Definition memory_map_write_32 (addr val : Z) : sh4M unit :=
  memory_map_write A32 mem_map (u32 addr) (u32 val).
End primitives.

(** ** The register file *)
Definition valid_reg (i : Z) : Prop := 0 <= i < SH4_REGISTER_COUNT.

(** the array has its declared size and holds 32-bit values *)
Record regs_ok {W} (s : Sh4 W) : Prop := {
  regs_length : length (reg s) = Z.to_nat SH4_REGISTER_COUNT;
  regs_range : Forall (in_range 32) (reg s)
}.

Section register_lemmas.
Context {W : Type}.
Implicit Types s : Sh4 W.

Lemma getr_range i s : regs_ok s -> in_range 32 (getr i s).
Proof.
  intros [_ Hr]. unfold getr.
  destruct (nth_in_or_default (Z.to_nat i) (reg s) 0) as [Hi| ->].
  - rewrite List.Forall_forall in Hr. auto.
  - unfold in_range. lia.
Qed.

Lemma setr_ok i v s : regs_ok s -> regs_ok (setr i v s).
Proof.
  intros [Hl Hr]. unfold setr. constructor; cbn.
  - by rewrite length_insert.
  - apply Forall_insert; [done|]. by apply wrap_range.
Qed.

Lemma getr_setr_eq i v s : regs_ok s -> valid_reg i -> getr i (setr i v s) = u32 v.
Proof.
  intros [Hl _] Hi. unfold getr, setr, valid_reg in *. cbn.
  rewrite <- nth_default_eq, nth_default_eq. rewrite nth_lookup, list_lookup_insert_eq; [done|].
  rewrite Hl. lia.
Qed.

Lemma getr_setr_ne i j v s : 0 <= i -> 0 <= j -> i <> j -> getr i (setr j v s) = getr i s.
Proof.
  intros Hi Hj Hne. unfold getr, setr. cbn. rewrite !nth_lookup.
  rewrite list_lookup_insert_ne; [done|]. lia.
Qed.

(** a store of the current value, and two stores to the same register *)
Lemma setr_setr i v w s : setr i w (setr i v s) = setr i w s.
Proof. unfold setr, with_reg. cbn. by rewrite list_insert_insert_eq. Qed.
Lemma setr_same r s : regs_ok s -> valid_reg r -> setr r (getr r s) s = s.
Proof.
  intros Hok Hr. unfold setr. rewrite wrap_small by by apply getr_range.
  unfold getr. rewrite nth_lookup, list_insert_id; [by destruct s|].
  destruct (reg s !! Z.to_nat r) eqn:E; [done|]. apply lookup_ge_None in E.
  destruct Hok as [Hl _]. unfold valid_reg in Hr. lia.
Qed.
End register_lemmas.
#[export] Hint Resolve getr_range setr_ok : int_range.
