(* ===== verification/Board.v ===== *)
(** The RAM on the CPU's bus: the part of [construct_sh4_mem_map]
    (src/libwashdc/dreamcast.c) that places the main memory, and a board that has nothing
    else on the bus, on which the witnesses of the other files run. *)
From stdpp Require Import gmap.
From S2P Require Import Prelude MemoryMap Memory Sh4State.
Import memory_map memory.

Record board : Type := {
  ram : Memory;
  refresh_requests : nat
}.

Definition with_ram (m : Memory) (b : board) : board :=
  {| ram := m; refresh_requests := refresh_requests b |}.

Definition ADDR_AREA3_MASK : Z := 0x00ffffff.

Definition board_ram_intf : memory_interface (Sh4 board) :=
  ram_intf (fun s => ram (world s)) (fun m s => with_world (with_ram m (world s)) s).

(** the four calls of [construct_sh4_mem_map] that map the main memory *)
Definition add_ram_regions {St} (i : memory_interface St) : M (memory_map St) unit :=
  memory_map_add 0x0c000000 0x0cffffff 0x1fffffff ADDR_AREA3_MASK MEMORY_MAP_REGION_RAM i ;;
  memory_map_add 0x0d000000 0x0dffffff 0x1fffffff ADDR_AREA3_MASK MEMORY_MAP_REGION_RAM i ;;
  memory_map_add 0x0e000000 0x0effffff 0x1fffffff ADDR_AREA3_MASK MEMORY_MAP_REGION_RAM i ;;
  memory_map_add 0x0f000000 0x0fffffff 0x1fffffff ADDR_AREA3_MASK MEMORY_MAP_REGION_RAM i.

(** the CPU's own area, which the source puts at the front because the windows of the RAM leave the
    upper three bits of the address open *)
Definition SH4_AREA_P4_FIRST : Z := 0xe0000000.
Definition SH4_AREA_P4_LAST : Z := 0xffffffff.
Definition add_cpu_regions {St} (sh4_p4_intf ram_intf : memory_interface St) : M (memory_map St) unit :=
  memory_map_add SH4_AREA_P4_FIRST SH4_AREA_P4_LAST 0xffffffff 0xffffffff MEMORY_MAP_REGION_UNKNOWN sh4_p4_intf ;;
  add_ram_regions ram_intf.

Definition board_map : memory_map (Sh4 board) :=
  match add_ram_regions board_ram_intf memory_map_init with
  | Ok (_, m) => m
  | Err _ => memory_map_init
  end.

#[export] Instance board_machine : Machine board := {|
  mem_map := board_map;
  sched_refresh_intc := fun b =>
    Ok {| ram := ram b; refresh_requests := S (refresh_requests b) |};
  dc_debugger_enabled := fun _ => false;
  debug_on_softbreak := fun _ _ => ret tt;
  fpu_inst := fun _ _ => raise ERROR_UNIMPLEMENTED
|}.

(** the default options of the build *)
#[export] Instance default_config : BuildConfig := {|
  INVARIANTS := false; ENABLE_SH4_MMU := false; ENABLE_DEBUGGER := false;
  DBG_EXIT_ON_UNDEFINED_OPCODE := false
|}.

Definition idle_intc : sh4_intc :=
  {| irq_lines := replicate 16 0; is_irq_pending := false;
     pending_irq := {| is_irl := false; code := 0; line := 0 |};
     refresh_intc_event_scheduled := false |}.

(** a CPU with the given registers (index and value) set and all others zero *)
Definition cpu_with (regs : list (Z * Z)) (m : Memory) : Sh4 board :=
  {| reg := fold_left (fun r '(i, v) => <[Z.to_nat i := v]> r) regs
              (replicate (Z.to_nat SH4_REGISTER_COUNT) 0);
     delayed_branch := false; delayed_branch_addr := 0;
     exec_state := SH4_EXEC_STATE_NORM; last_inst_type := SH4_GROUP_NONE;
     aborted_operation := false; sq := replicate 16 0; intc := idle_intc;
     fround := FE_TONEAREST; world := {| ram := m; refresh_requests := 0 |} |}.

(** a check of [regs_ok] by computation *)
Definition regs_okb (s : Sh4 board) : bool :=
  (length (reg s) =? Z.to_nat SH4_REGISTER_COUNT)%nat &&
  forallb (fun x => (0 <=? x) && (x <? 2 ^ 32)) (reg s).

Lemma regs_okb_sound s : regs_okb s = true -> regs_ok s.
Proof.
  unfold regs_okb. rewrite andb_true_iff, Nat.eqb_eq, forallb_forall. intros [Hl Hr].
  constructor; [done|]. apply List.Forall_forall. intros x Hx. specialize (Hr x Hx).
  unfold in_range. lia.
Qed.

(** ** The mirrors of the RAM *)

(** an address of area 3, in any of the seven 512 MB segments of the address space below P4 *)
Definition in_area3 (a : Z) : Prop := 0 <= a < SH4_AREA_P4_FIRST /\ 0x0c000000 <= a mod 2 ^ 29 <= 0x0fffffff.

Lemma area3_range a : in_area3 a -> in_range 32 a.
Proof. unfold in_area3, in_range, SH4_AREA_P4_FIRST. lia. Qed.

(** a bus that starts with the RAM's windows, or with the P4 area and then them; any devices may follow *)
Definition ram_on_bus {St} (i : memory_interface St) (map : memory_map St) : Prop :=
  exists m rest, regions map = regions m ++ rest /\
    (add_ram_regions i memory_map_init = Ok (tt, m) \/
     exists p, add_cpu_regions p i memory_map_init = Ok (tt, m)).

Lemma land_window x : Z.land x 0x1fffffff = x mod 2 ^ 29.
Proof. change 0x1fffffff with (Z.ones 29). by rewrite Z.land_ones. Qed.

Lemma area3_offset a : Z.land a ADDR_AREA3_MASK = a mod 2 ^ 24.
Proof. change ADDR_AREA3_MASK with (Z.ones 24). by rewrite Z.land_ones. Qed.

(** the last byte of an access that does not leave its 16 MB mirror *)
Lemma access_last a n :
  in_range 32 a -> 1 <= n -> a mod 2 ^ 24 + n <= 2 ^ 24 ->
  Z.land (u32 (n - 1 + a)) 0x1fffffff = a mod 2 ^ 29 + (n - 1).
Proof.
  intros Ha Hn Hfit. rewrite land_window. unfold wrap.
  rewrite Z.mod_mod_divide by by exists 8.
  rewrite <- Zplus_mod_idemp_r. rewrite Z.mod_small; [lia|].
  assert (E : (a mod 2 ^ 29) mod 2 ^ 24 = a mod 2 ^ 24)
    by (apply Z.mod_mod_divide; by exists 32).
  pose proof (Z.mod_pos_bound a (2 ^ 29) ltac:(lia)).
  pose proof (Z.mod_pos_bound a (2 ^ 24) ltac:(lia)).
  pose proof (Z.div_mod (a mod 2 ^ 29) (2 ^ 24) ltac:(lia)) as Hd. rewrite E in Hd. lia.
Qed.

Lemma area3_ram_region {St} (i : memory_interface St) a n map :
  add_ram_regions i memory_map_init = Ok (tt, map) ->
  in_range 32 a -> 0x0c000000 <= a mod 2 ^ 29 <= 0x0fffffff -> 1 <= n -> a mod 2 ^ 24 + n <= 2 ^ 24 ->
  exists r, find_region a (u32 (n - 1 + a)) (regions map) = Some r /\
    mask r = ADDR_AREA3_MASK /\ intf r = i.
Proof.
  intros Hmap Ha H3 Hn Hfit. vm_compute in Hmap. injection Hmap as <-. cbn [regions find_region].
  assert (E : (a mod 2 ^ 29) mod 2 ^ 24 = a mod 2 ^ 24)
    by (apply Z.mod_mod_divide; by exists 32).
  pose proof (Z.div_mod (a mod 2 ^ 29) (2 ^ 24) ltac:(lia)) as Hd. rewrite E in Hd.
  set (q := a mod 2 ^ 29 / 2 ^ 24) in *.
  pose proof (Z.mod_pos_bound a (2 ^ 24) ltac:(lia)).
  unfold region_match. cbn [range_mask first_addr last_addr].
  rewrite (access_last a n) by done. rewrite land_window.
  assert (Hq : q = 12 \/ q = 13 \/ q = 14 \/ q = 15) by lia. clearbody q.
  destruct Hq as [->|[->|[->| ->]]];
  repeat match goal with
    | |- context [?x >=? ?y] =>
        first [replace (x >=? y) with true by lia | replace (x >=? y) with false by lia]
    | |- context [?x <=? ?y] =>
        first [replace (x <=? y) with true by lia | replace (x <=? y) with false by lia]
    end; cbn [andb]; eexists; (split; [reflexivity|split; reflexivity]).
Qed.

Lemma area3_region {St} (i : memory_interface St) a n map :
  ram_on_bus i map -> in_area3 a -> 1 <= n -> a mod 2 ^ 24 + n <= 2 ^ 24 ->
  exists r, find_region a (u32 (n - 1 + a)) (regions map) = Some r /\
    mask r = ADDR_AREA3_MASK /\ intf r = i.
Proof.
  intros (m & rest & Hrs & Hm) Ha Hn Hf. rewrite Hrs, find_region_app.
  destruct (add_ram_regions i memory_map_init) as [[[] m0]|e] eqn:E0; [|by vm_compute in E0].
  destruct (area3_ram_region i a n m0 E0 (area3_range a Ha) (proj2 Ha) Hn Hf) as (r & Hr & Hmi). exists r. destruct Hm as [Hm|[p Hm]].
  { injection Hm as <-. by rewrite Hr. }
  assert (E : find_region a (u32 (n - 1 + a)) (regions m) = find_region a (u32 (n - 1 + a)) (regions m0)).
  { vm_compute in Hm. injection Hm as <-. vm_compute in E0. injection E0 as <-. cbn [regions find_region].
    unfold region_match at 1. cbn [range_mask first_addr]. destruct Ha as [[Ha0 Ha1] _].
    unfold SH4_AREA_P4_FIRST in Ha1. change 0xffffffff with (Z.ones 32).
    rewrite Z.land_ones, Z.mod_small by lia. by replace (a >=? 0xe0000000) with false by lia. }
  by rewrite E, Hr.
Qed.

(** the width of an access, as a power of two, and the RAM's handlers for it *)
Definition acc_shift (sz : acc) : Z :=
  match sz with A8 => 0 | A16 => 1 | A32 => 2 | Afloat => 2 | Adouble => 3 end.

Lemma ram_handlers sz :
  sizeof sz = 2 ^ acc_shift sz /\
  read_fn board_ram_intf sz =
    Some (lift_read (fun s : Sh4 board => ram (world s)) (read_elem (acc_shift sz))) /\
  write_fn board_ram_intf sz =
    Some (lift_write (fun s : Sh4 board => ram (world s))
            (fun m s => with_world (with_ram m (world s)) s) (write_elem (acc_shift sz))).
Proof. by destruct sz. Qed.

(** an aligned access stays in its mirror and is an element of the array *)
Lemma aligned_fits k a :
  0 <= k <= 3 -> a mod 2 ^ k = 0 ->
  a mod 2 ^ 24 + 2 ^ k <= 2 ^ 24 /\ elem_addr k (a mod 2 ^ 24) = a mod 2 ^ 24 /\
  in_array k (a mod 2 ^ 24) = true.
Proof.
  intros Hk Ha. assert (0 < 2 ^ k) by (apply pow2_pos; lia).
  assert (E : (a mod 2 ^ 24) mod 2 ^ k = 0).
  { rewrite Z.mod_mod_divide; [done|]. exists (2 ^ (24 - k)).
    rewrite <- Z.pow_add_r by lia. f_equal. lia. }
  pose proof (Z.mod_pos_bound a (2 ^ 24) ltac:(lia)) as Hb.
  pose proof (Z.div_mod (a mod 2 ^ 24) (2 ^ k) ltac:(lia)) as Hd. rewrite E in Hd.
  assert (He : elem_addr k (a mod 2 ^ 24) = a mod 2 ^ 24).
  { unfold elem_addr. rewrite Z.shiftr_div_pow2, Z.shiftl_mul_pow2 by lia. lia. }
  assert (Hf : a mod 2 ^ 24 + 2 ^ k <= 2 ^ 24).
  { assert (H24 : 2 ^ 24 = 2 ^ k * 2 ^ (24 - k)) by (rewrite <- Z.pow_add_r by lia; f_equal; lia).
    set (q := a mod 2 ^ 24 / 2 ^ k) in *.
    assert (q < 2 ^ (24 - k)) by (apply (Z.mul_lt_mono_pos_l (2 ^ k)); lia). nia. }
  split; [done|]. split; [done|]. unfold in_array. rewrite He.
  change MEMORY_SIZE with (2 ^ 24). lia.
Qed.

Lemma ram_on_bus_alone {St} (i : memory_interface St) map :
  add_ram_regions i memory_map_init = Ok (tt, map) -> ram_on_bus i map.
Proof. intros H. exists map, []. split; [by rewrite app_nil_r|by left]. Qed.

Lemma board_has_ram : ram_on_bus board_ram_intf board_map.
Proof. by apply ram_on_bus_alone. Qed.

(** the four windows of area 3 in the seven segments below P4 show the same 16 MB of RAM: an aligned
    write of any width through one of them succeeds, and a read of that width through any other
    one, at the same offset, returns the value. *)
Theorem ram_mirrors (sz : acc) (a b v : Z) (s : Sh4 board) :
  in_area3 a -> in_area3 b -> a mod 2 ^ 24 = b mod 2 ^ 24 -> a mod sizeof sz = 0 ->
  in_range (8 * sizeof sz) v ->
  exists s', memory_map_write sz board_map a v s = Ok (tt, s') /\
    memory_map_read sz board_map b s' = Ok (v, s').
Proof.
  intros Ha Hb Hab Hal Hv. destruct (ram_handlers sz) as (Hsz & Hrd & Hwr).
  assert (Hk : 0 <= acc_shift sz <= 3) by (destruct sz; cbn; lia).
  rewrite Hsz in Hal, Hv. set (k := acc_shift sz) in *.
  assert (1 <= 2 ^ k <= 8) by (destruct sz; cbn; lia).
  destruct (aligned_fits k a Hk Hal) as (Hfit & He & Hin).
  destruct (area3_region board_ram_intf a (2 ^ k) board_map board_has_ram Ha ltac:(lia) Hfit)
    as (ra & Hra & Hma & Hia).
  destruct (area3_region board_ram_intf b (2 ^ k) board_map board_has_ram Hb ltac:(lia)
    ltac:(by rewrite <- Hab)) as (rb & Hrb & Hmb & Hib).
  unfold memory_map_write, memory_map_read. rewrite Hsz, Hra, Hrb, Hia, Hib, Hma, Hmb, Hrd, Hwr.
  rewrite !area3_offset, <- Hab. cbn [fmap option_fmap option_map call_ptr].
  unfold lift_write, lift_read. destruct (write_elem k (a mod 2 ^ 24) v (ram (world s))) as [m|] eqn:Ew.
  2: { unfold write_elem in Ew. by rewrite Hin in Ew. }
  eexists. split; [done|]. cbn [world with_world ram with_ram].
  rewrite (read_elem_store k _ v _ _ k _ ltac:(lia) ltac:(lia) Ew Hin) by lia.
  rewrite Z.sub_diag, Z.shiftr_0_r. by rewrite wrap_small.
Qed.

(** a word written through the cached segment and read through the uncached one *)
Lemma ram_mirrors_witness :
  exists s', memory_map_write A32 board_map 0x8c001000 0x12345678 (cpu_with [] ∅) = Ok (tt, s') /\
    memory_map_read A32 board_map 0xad001000 s' = Ok (0x12345678, s').
Proof.
  apply (ram_mirrors A32 0x8c001000 0xad001000 0x12345678 (cpu_with [] ∅));
    unfold in_area3, in_range; vm_compute; intuition congruence.
Defined.
