(* ===== verification/Sh4Core.v ===== *)
(** The SH-4 core outside of its instruction handlers: reset, register banks and status
    register (src/libwashdc/hw/sh4/sh4.c, sh4.h), exceptions and interrupts (sh4_excp.c,
    sh4_read_inst.h) and the store queues (sh4_ocache.c).

    The properties of this file: the two general register banks keep their contents
    whatever is written to SR, and the floating-point banks whatever is written to FPSCR;
    the interrupt controller selects a line of highest priority above the mask; the
    mutually recursive interrupt entry stops. *)
From stdpp Require Import gmap.
From S2P Require Import Prelude MemoryMap Sh4State Board.
Import memory_map.

Section sh4_core.
Context {W : Type} `{!BuildConfig} `{!Machine W}.
Abbreviation sh4M := (M (Sh4 W)).

(** ** Register banks (sh4.h) *)
Definition sh4_gen_reg_idx (reg_no : Z) : Z := SH4_REG_R0 + reg_no.
Definition sh4_bank_reg_idx (idx : Z) : Z := SH4_REG_R0_BANK + idx.
Definition sh4_bank0_reg_idx (s : Sh4 W) (idx : Z) : Z :=
  if truth (Z.land (getr SH4_REG_SR s) SH4_SR_RB_MASK)
  then SH4_REG_R0_BANK + idx else SH4_REG_R0 + idx.
Definition sh4_bank1_reg_idx (s : Sh4 W) (idx : Z) : Z :=
  if truth (Z.land (getr SH4_REG_SR s) SH4_SR_RB_MASK)
  then SH4_REG_R0 + idx else SH4_REG_R0_BANK + idx.
(** the index that the pointers of [sh4_bank0_fpu_fr] and [sh4_bank1_fpu_fr] address *)
Definition sh4_bank0_fpu_fr_idx (s : Sh4 W) (reg_no : Z) : Z :=
  if truth (Z.land (getr SH4_REG_FPSCR s) SH4_FPSCR_FR_MASK)
  then SH4_REG_XF0 + reg_no else SH4_REG_FR0 + reg_no.
Definition sh4_bank1_fpu_fr_idx (s : Sh4 W) (reg_no : Z) : Z :=
  if truth (Z.land (getr SH4_REG_FPSCR s) SH4_FPSCR_FR_MASK)
  then SH4_REG_FR0 + reg_no else SH4_REG_XF0 + reg_no.

Definition gen_reg (n : Z) : sh4M Z := reg_get (sh4_gen_reg_idx n).
Definition set_gen_reg (n v : Z) : sh4M unit := reg_set (sh4_gen_reg_idx n) v.
Definition bank_reg (n : Z) : sh4M Z := reg_get (sh4_bank_reg_idx n).
Definition set_bank_reg (n v : Z) : sh4M unit := reg_set (sh4_bank_reg_idx n) v.

(** [memcpy] of [n] registers from index [src] to index [dst] through a buffer *)
Definition reg_slice (i n : nat) (s : Sh4 W) : list Z := take n (drop i (reg s)).
Definition splice (i : nat) (vs l : list Z) : list Z :=
  take i l ++ vs ++ drop (i + length vs) l.
Definition set_reg_slice (i : nat) (vs : list Z) (s : Sh4 W) : Sh4 W :=
  with_reg (splice i vs (reg s)) s.

(** [sh4_bank_switch]: the three [memcpy] calls *)
Definition sh4_bank_switch : sh4M unit :=
  modify (fun s =>
    let tmp := reg_slice (Z.to_nat SH4_REG_R0) 8 s in
    let s := set_reg_slice (Z.to_nat SH4_REG_R0)
               (reg_slice (Z.to_nat SH4_REG_R0_BANK) 8 s) s in
    set_reg_slice (Z.to_nat SH4_REG_R0_BANK) tmp s).

Definition sh4_bank_switch_maybe (old_sr new_sr : Z) : sh4M unit :=
  when (negb (Z.land old_sr SH4_SR_RB_MASK =? Z.land new_sr SH4_SR_RB_MASK))
    sh4_bank_switch.

Definition sh4_fpu_bank_switch : sh4M unit :=
  modify (fun s =>
    let tmp := reg_slice (Z.to_nat SH4_REG_FR0) 16 s in
    let s := set_reg_slice (Z.to_nat SH4_REG_FR0)
               (reg_slice (Z.to_nat SH4_REG_XF0) 16 s) s in
    set_reg_slice (Z.to_nat SH4_REG_XF0) tmp s).

Definition sh4_fpu_bank_switch_maybe (old_fpscr new_fpscr : Z) : sh4M unit :=
  when (negb (Z.land old_fpscr SH4_FPSCR_FR_MASK =? Z.land new_fpscr SH4_FPSCR_FR_MASK))
    sh4_fpu_bank_switch.

(** ** Status registers (sh4.c, sh4_excp.c) *)
Definition SH4_INTC_SR_BITS : Z := Z.lor SH4_SR_IMASK_MASK SH4_SR_BL_MASK.

Definition set_refresh_scheduled (b : bool) (i : sh4_intc) : sh4_intc :=
  {| irq_lines := irq_lines i; is_irq_pending := is_irq_pending i;
     pending_irq := pending_irq i; refresh_intc_event_scheduled := b |}.

Definition sh4_refresh_intc_deferred : sh4M unit :=
  fun s =>
    if refresh_intc_event_scheduled (intc s) then Ok (tt, s)
    else
      let s := with_intc (set_refresh_scheduled true (intc s)) s in
      match sched_refresh_intc (world s) with
      | Ok w => Ok (tt, with_world w s)
      | Err e => Err e
      end.

Definition sh4_on_sr_change (old_sr : Z) : sh4M unit :=
  new_sr <- reg_get SH4_REG_SR ;;
  sh4_bank_switch_maybe old_sr new_sr ;;
  when (negb (Z.land old_sr SH4_INTC_SR_BITS =? Z.land new_sr SH4_INTC_SR_BITS))
    sh4_refresh_intc_deferred ;;
  when (negb (truth (Z.land new_sr SH4_SR_MD_MASK))) (raise ERROR_UNIMPLEMENTED).

Definition sh4_set_fpscr (new_val : Z) : sh4M unit :=
  old <- reg_get SH4_REG_FPSCR ;;
  sh4_fpu_bank_switch_maybe old new_val ;;
  reg_set SH4_REG_FPSCR new_val ;;
  cur <- reg_get SH4_REG_FPSCR ;;
  if truth (Z.land cur SH4_FPSCR_RM_MASK)
  then modify (with_fround FE_TOWARDZERO)
  else modify (with_fround FE_TONEAREST).

Definition sh4_set_individual_reg (reg_no reg_val : Z) : sh4M unit :=
  if reg_no =? SH4_REG_FPSCR then sh4_set_fpscr reg_val
  else if reg_no =? SH4_REG_SR then
    old_sr_val <- reg_get SH4_REG_SR ;;
    reg_set SH4_REG_SR reg_val ;;
    sh4_on_sr_change old_sr_val
  else reg_set reg_no reg_val.

(** the loop of [sh4_set_regs] over the registers from [reg_no] on *)
Fixpoint sh4_set_regs_loop (n : nat) (reg_no : Z) (reg_in : list Z) : sh4M unit :=
  match n with
  | O => ret tt
  | S n' =>
      when (negb (reg_no =? SH4_REG_SR) && negb (reg_no =? SH4_REG_FPSCR))
        (sh4_set_individual_reg reg_no (nth (Z.to_nat reg_no) reg_in 0)) ;;
      sh4_set_regs_loop n' (reg_no + 1) reg_in
  end.

Definition sh4_set_regs (reg_in : list Z) : sh4M unit :=
  sh4_set_individual_reg SH4_REG_SR (nth (Z.to_nat SH4_REG_SR) reg_in 0) ;;
  sh4_set_individual_reg SH4_REG_FPSCR (nth (Z.to_nat SH4_REG_FPSCR) reg_in 0) ;;
  sh4_set_regs_loop (Z.to_nat SH4_REGISTER_COUNT) 0 reg_in.

Definition sh4_get_pc (s : Sh4 W) : Z := getr SH4_REG_PC s.
Definition sh4_get_regs (s : Sh4 W) : list Z := reg s.

(** ** Store queues (sh4_ocache.c) *)
Definition SH4_SQ_AREA_MASK : Z := 0xfc000000.
Definition SH4_SQ_AREA_VAL : Z := 0xe0000000.
Definition SH4_SQ_ADDR_MASK : Z := 0x03ffffe0.
Definition SH4_SQ_SELECT_SHIFT : Z := 5.
Definition SH4_SQ_SELECT_MASK : Z := 0x20.

(** the eight stores of [sh4_sq_pref], from word [k] on *)
Fixpoint sq_pref_words (n : nat) (k : Z) (r : memory_map_region (Sh4 W))
    (addr_actual sq_idx : Z) : sh4M unit :=
  match n with
  | O => ret tt
  | S n' =>
      val <- gets (fun s => nth (Z.to_nat (sq_idx + k)) (sq s) 0) ;;
      call_ptr ((fun f => f (Z.land (u32 (addr_actual + 4 * k)) (mask r)) val)
                  <$> write_fn (intf r) A32) ;;
      sq_pref_words n' (k + 1) r addr_actual sq_idx
  end.

Definition sh4_sq_pref (addr : Z) : sh4M unit :=
  let sq_sel := Z.shiftr (Z.land addr SH4_SQ_SELECT_MASK) SH4_SQ_SELECT_SHIFT in
  let sq_idx := Z.shiftl sq_sel 3 in
  qacr <- reg_get (SH4_REG_QACR0 + sq_sel) ;;
  let addr_actual := Z.lor (Z.land addr SH4_SQ_ADDR_MASK)
    (u32 (Z.shiftl (Z.shiftr (Z.land qacr SH4_QACR_MASK) SH4_QACR_SHIFT) 26)) in
  match memory_map_get_region mem_map addr_actual 32 with
  | Some r => sq_pref_words 8 0 r addr_actual sq_idx
  | None => raise ERROR_MEM_OUT_OF_BOUNDS
  end.
End sh4_core.

(** ** Lemmas on the bank switches *)
Lemma splice_lookup (i : nat) (vs l : list Z) (k : nat) :
  (i + length vs <= length l)%nat ->
  splice i vs l !! k =
    if decide (i <= k < i + length vs)%nat then vs !! (k - i)%nat else l !! k.
Proof.
  intros Hl. unfold splice. destruct (decide (i <= k < i + length vs)%nat).
  - rewrite lookup_app_r by (rewrite length_take; lia).
    rewrite length_take, lookup_app_l by lia. f_equal. lia.
  - destruct (decide (k < i)%nat).
    + rewrite lookup_app_l by (rewrite length_take; lia). by apply lookup_take_lt.
    + rewrite lookup_app_r by (rewrite length_take; lia).
      rewrite length_take, lookup_app_r by lia. rewrite lookup_drop. f_equal. lia.
Qed.

Lemma length_splice i vs l : (i + length vs <= length l)%nat -> length (splice i vs l) = length l.
Proof. intros. unfold splice. rewrite !length_app, length_take, length_drop. lia. Qed.

Lemma Forall_splice (P : Z -> Prop) i vs l : Forall P vs -> Forall P l -> Forall P (splice i vs l).
Proof.
  intros. unfold splice. apply Forall_app. split; [by apply Forall_take|].
  apply Forall_app. split; [done|by apply Forall_drop].
Qed.

(** the exchange of [n] registers from [a] with those from [b] *)
Definition swap_idx (a b n k : Z) : Z :=
  if (a <=? k) && (k <? a + n) then k - a + b
  else if (b <=? k) && (k <? b + n) then k - b + a
  else k.

Section bank_facts.
Context {W : Type} `{!BuildConfig} `{!Machine W}.
Implicit Types s : Sh4 W.

Definition swap_regs (a b n : nat) (s : Sh4 W) : Sh4 W :=
  set_reg_slice b (reg_slice a n s) (set_reg_slice a (reg_slice b n s) s).

Lemma length_reg_slice a n s : (a + n <= length (reg s))%nat -> length (reg_slice a n s) = n.
Proof. intros. unfold reg_slice. rewrite length_take, length_drop. lia. Qed.

Lemma swap_regs_getr a b n s k :
  (a + n <= b)%nat -> (b + n <= length (reg s))%nat -> 0 <= k ->
  getr k (swap_regs a b n s) = getr (swap_idx (Z.of_nat a) (Z.of_nat b) (Z.of_nat n) k) s.
Proof.
  intros Hab Hb Hk. unfold getr, swap_regs, set_reg_slice. cbn. rewrite !nth_lookup. f_equal.
  rewrite splice_lookup, splice_lookup, !length_reg_slice
    by (rewrite ?length_splice, ?length_reg_slice by (rewrite ?length_reg_slice; lia); lia).
  unfold swap_idx, reg_slice.
  destruct (decide (b <= Z.to_nat k < b + n)%nat), (decide (a <= Z.to_nat k < a + n)%nat),
    (Z.leb_spec (Z.of_nat a) k), (Z.ltb_spec k (Z.of_nat a + Z.of_nat n)),
    (Z.leb_spec (Z.of_nat b) k), (Z.ltb_spec k (Z.of_nat b + Z.of_nat n)); try lia;
    cbn [andb]; try done; rewrite lookup_take_lt, lookup_drop by lia; f_equal; lia.
Qed.

Lemma swap_regs_ok a b n s :
  (a + n <= b)%nat -> (b + n <= length (reg s))%nat -> regs_ok s ->
  regs_ok (swap_regs a b n s).
Proof.
  intros Hab Hb [Hl Hr]. constructor; cbn.
  - rewrite !length_splice; [done|..];
      rewrite ?length_splice, ?length_reg_slice by (rewrite ?length_reg_slice; lia); lia.
  - apply Forall_splice; [by apply Forall_take, Forall_drop|].
    apply Forall_splice; [by apply Forall_take, Forall_drop|done].
Qed.

Lemma regs_length_Z s : regs_ok s -> length (reg s) = 124%nat.
Proof. by intros [-> _]. Qed.

(** only the register file changed *)
Definition same_but_regs s s' : Prop := s' = with_reg (reg s') s.

Lemma sh4_bank_switch_eq s : sh4_bank_switch s = Ok (tt, swap_regs 0 16 8 s).
Proof. reflexivity. Qed.
Lemma sh4_fpu_bank_switch_eq s : sh4_fpu_bank_switch s = Ok (tt, swap_regs 24 40 16 s).
Proof. reflexivity. Qed.

Lemma on_sr_change_regs old s s' :
  sh4_on_sr_change old s = Ok (tt, s') ->
  reg s' = reg (if eqb (Z.testbit old 29) (Z.testbit (getr SH4_REG_SR s) 29)
                then s else swap_regs 0 16 8 s) /\
  Z.testbit (getr SH4_REG_SR s) 30 = true /\
  delayed_branch s' = delayed_branch s /\ delayed_branch_addr s' = delayed_branch_addr s.
Proof.
  intros Hs. unfold sh4_on_sr_change in Hs.
  apply bind_inv in Hs as (? & s0 & H0 & Hs). cbn in H0. injection H0 as <- <-.
  apply bind_inv in Hs as (? & s1 & H1 & Hs). apply bind_inv in Hs as (? & s2 & H2 & H3).
  unfold sh4_bank_switch_maybe in H1.
  change SH4_SR_RB_MASK with (2 ^ 29) in H1. rewrite land_bit_eqb in H1 by lia.
  change SH4_SR_MD_MASK with (2 ^ 30) in H3. rewrite truth_land_bit in H3 by lia.
  assert (E1 : s1 = if eqb (Z.testbit old 29) (Z.testbit (getr SH4_REG_SR s) 29)
                    then s else swap_regs 0 16 8 s).
  { destruct (eqb _ _); cbn [negb when] in H1; [cbv [ret] in H1; congruence|].
    rewrite sh4_bank_switch_eq in H1. congruence. }
  assert (E2 : reg s2 = reg s1 /\ delayed_branch s2 = delayed_branch s1 /\
               delayed_branch_addr s2 = delayed_branch_addr s1).
  { unfold when, ret in H2. clear H1 H3.
    destruct (negb _); [|injection H2 as _ <-; done].
    unfold sh4_refresh_intc_deferred in H2.
    destruct (refresh_intc_event_scheduled (intc s1)); [injection H2 as _ <-; done|].
    destruct (sched_refresh_intc _); [|done]. injection H2 as _ <-. done. }
  destruct (Z.testbit (getr SH4_REG_SR s) 30); [|done]. cbn in H3. injection H3 as <-.
  destruct E2 as (-> & -> & ->). rewrite E1. split; [done|]. split; [done|].
  by destruct (eqb _ _).
Qed.

(** the register that an index names once the banks are exchanged *)
Lemma swap_getr_main s k : regs_ok s -> 0 <= k ->
  getr k (swap_regs 0 16 8 s) = getr (swap_idx 0 16 8 k) s.
Proof.
  intros Hs Hk. pose proof (regs_length_Z s Hs) as Hl. rewrite swap_regs_getr by lia. done.
Qed.

Lemma swap_getr_fpu s k : regs_ok s -> 0 <= k ->
  getr k (swap_regs 24 40 16 s) = getr (swap_idx 24 40 16 k) s.
Proof.
  intros Hs Hk. pose proof (regs_length_Z s Hs) as Hl. rewrite swap_regs_getr by lia. done.
Qed.

Lemma getr_reg s s' k : reg s' = reg s -> getr k s' = getr k s.
Proof. unfold getr. by intros ->. Qed.

Lemma swap_idx_low a b n i : 0 <= i < n -> swap_idx a b n (a + i) = b + i.
Proof.
  intros. unfold swap_idx. destruct (Z.leb_spec a (a + i)), (Z.ltb_spec (a + i) (a + n));
    cbn [andb]; lia.
Qed.
Lemma swap_idx_high a b n i : a + n <= b -> 0 <= i < n -> swap_idx a b n (b + i) = a + i.
Proof.
  intros. unfold swap_idx. destruct (Z.ltb_spec (b + i) (a + n)), (Z.leb_spec b (b + i)),
    (Z.ltb_spec (b + i) (b + n)); rewrite ?andb_false_r, ?andb_true_r; cbn [andb]; lia.
Qed.
Lemma swap_idx_other a b n k :
  0 <= n -> a + n <= b -> k < a \/ a + n <= k < b \/ b + n <= k -> swap_idx a b n k = k.
Proof.
  intros. unfold swap_idx. destruct (Z.leb_spec a k), (Z.ltb_spec k (a + n)),
    (Z.leb_spec b k), (Z.ltb_spec k (b + n)); cbn [andb]; lia.
Qed.

(** Exchanging the banks exactly when the selecting bit changes keeps what each bank
    holds. *)
Lemma bank_view_kept a b n (old new : bool) s1 s' :
  (forall k, 0 <= k -> getr k s' = getr (if eqb old new then k else swap_idx a b n k) s1) ->
  0 <= a -> 0 <= n -> a + n <= b ->
  (forall i, 0 <= i < n ->
     getr (if new then b + i else a + i) s' = getr (if old then b + i else a + i) s1 /\
     getr (if new then a + i else b + i) s' = getr (if old then a + i else b + i) s1) /\
  (forall k, 0 <= k -> k < a \/ a + n <= k < b \/ b + n <= k -> getr k s' = getr k s1).
Proof.
  intros Hk Ha Hn Hb. split.
  - intros i Hi. rewrite !Hk by (destruct new; lia).
    destruct old, new; cbn [eqb]; rewrite ?swap_idx_low, ?swap_idx_high by lia; done.
  - intros k H0 Hr. rewrite Hk, swap_idx_other by lia. by destruct (eqb old new).
Qed.

Lemma set_regs_loop_ok n k reg_in s :
  regs_ok s -> 0 <= k -> k + Z.of_nat n <= SH4_REGISTER_COUNT ->
  exists s', sh4_set_regs_loop n k reg_in s = Ok (tt, s') /\ regs_ok s' /\
    forall i, 0 <= i -> getr i s' =
      if (k <=? i) && (i <? k + Z.of_nat n) && negb (i =? SH4_REG_SR) &&
         negb (i =? SH4_REG_FPSCR)
      then u32 (nth (Z.to_nat i) reg_in 0) else getr i s.
Proof.
  revert k s. induction n as [|n IH]; intros k s Hok Hk Hn; cbn [sh4_set_regs_loop].
  { exists s. split; [done|]. split; [done|]. intros i Hi.
    by destruct (Z.leb_spec k i), (Z.ltb_spec i (k + Z.of_nat 0)); try lia. }
  set (skip := negb (k =? SH4_REG_SR) && negb (k =? SH4_REG_FPSCR)).
  set (s1 := if skip then setr k (nth (Z.to_nat k) reg_in 0) s else s).
  assert (Hok1 : regs_ok s1) by (unfold s1; destruct skip; [by apply setr_ok|done]).
  rewrite (bind_ok _ _ _ tt s1).
  2:{ unfold s1, skip, when, sh4_set_individual_reg.
      by destruct (k =? SH4_REG_SR), (k =? SH4_REG_FPSCR). }
  destruct (IH (k + 1) s1 Hok1) as (s' & -> & Hok' & Hg); [lia..|].
  exists s'. split; [done|]. split; [done|]. intros i Hi. rewrite Hg by done. unfold s1.
  destruct (Z.eq_dec i k) as [->|Hne].
  - destruct (Z.leb_spec (k + 1) k), (Z.leb_spec k k), (Z.ltb_spec k (k + Z.of_nat (S n)));
      try lia. cbn [andb]. unfold skip. destruct (_ && negb _); [|done].
    apply getr_setr_eq; [done|]. unfold valid_reg. lia.
  - assert (E : getr i (if skip then setr k (nth (Z.to_nat k) reg_in 0) s else s) = getr i s)
      by (destruct skip; [by apply getr_setr_ne|done]).
    rewrite E. destruct (Z.leb_spec (k + 1) i), (Z.leb_spec k i),
      (Z.ltb_spec i (k + 1 + Z.of_nat n)), (Z.ltb_spec i (k + Z.of_nat (S n))); try lia; done.
Qed.

Lemma set_sr_spec (s s' : Sh4 W) (v : Z) :
  regs_ok s -> sh4_set_individual_reg SH4_REG_SR v s = Ok (tt, s') ->
  regs_ok s' /\ getr SH4_REG_SR s' = u32 v /\
  (forall n, 0 <= n < 8 ->
     getr (sh4_bank0_reg_idx s' n) s' = getr (sh4_bank0_reg_idx s n) s /\
     getr (sh4_bank1_reg_idx s' n) s' = getr (sh4_bank1_reg_idx s n) s) /\
  (forall k, 8 <= k < 16 \/ 24 <= k -> k <> SH4_REG_SR -> getr k s' = getr k s).
Proof.
  intros Hok Hs.
  change (sh4_on_sr_change (getr SH4_REG_SR s) (setr SH4_REG_SR v s) = Ok (tt, s')) in Hs.
  apply on_sr_change_regs in Hs as (Hr & _). set (s1 := setr SH4_REG_SR v s) in *.
  assert (Hok1 : regs_ok s1) by by apply setr_ok.
  assert (Hsr : getr SH4_REG_SR s1 = u32 v) by (apply getr_setr_eq; done).
  assert (Hk1 : forall k, 0 <= k -> k <> SH4_REG_SR -> getr k s1 = getr k s)
    by (intros; by apply getr_setr_ne).
  rewrite Hsr in Hr.
  destruct (bank_view_kept 0 16 8 (Z.testbit (getr SH4_REG_SR s) 29)
              (Z.testbit (u32 v) 29) s1 s') as [Hbank Hother]; [|lia..|].
  { intros k Hk. rewrite (getr_reg _ _ k Hr). destruct (eqb _ _); [done|].
    by apply swap_getr_main. }
  assert (Hsr' : getr SH4_REG_SR s' = u32 v)
    by (rewrite <- Hsr; apply Hother; unfold SH4_REG_SR; lia).
  split.
  { pose proof (regs_length_Z s1 Hok1).
    assert (regs_ok (if eqb (Z.testbit (getr SH4_REG_SR s) 29) (Z.testbit (u32 v) 29)
                     then s1 else swap_regs 0 16 8 s1)) as []
      by (destruct (eqb _ _); [done|apply swap_regs_ok; [lia..|done]]).
    by constructor; rewrite Hr. }
  split; [done|]. unfold sh4_bank0_reg_idx, sh4_bank1_reg_idx.
  change SH4_SR_RB_MASK with (2 ^ 29). rewrite !truth_land_bit, Hsr' by lia.
  change SH4_REG_R0 with 0. change SH4_REG_R0_BANK with 16. split.
  - intros n Hn. destruct (Hbank n Hn) as [-> ->].
    destruct (Z.testbit (getr SH4_REG_SR s) 29); split; apply Hk1; unfold SH4_REG_SR; lia.
  - intros k Hrange Hne. rewrite Hother by lia. apply Hk1; [lia|done].
Qed.

Lemma set_fpscr_spec (s : Sh4 W) (v : Z) :
  regs_ok s -> exists s', sh4_set_fpscr v s = Ok (tt, s') /\ regs_ok s' /\
    getr SH4_REG_FPSCR s' = u32 v /\
    fround s' = (if truth (Z.land (u32 v) SH4_FPSCR_RM_MASK)
                 then FE_TOWARDZERO else FE_TONEAREST) /\
    (forall n, 0 <= n < 16 ->
       getr (sh4_bank0_fpu_fr_idx s' n) s' = getr (sh4_bank0_fpu_fr_idx s n) s /\
       getr (sh4_bank1_fpu_fr_idx s' n) s' = getr (sh4_bank1_fpu_fr_idx s n) s) /\
    (forall k, 0 <= k < 24 \/ 56 <= k -> k <> SH4_REG_FPSCR -> getr k s' = getr k s).
Proof.
  intros Hok. pose proof (regs_length_Z s Hok) as Hl.
  unfold sh4_set_fpscr. erewrite bind_ok by done. unfold sh4_fpu_bank_switch_maybe.
  change SH4_FPSCR_FR_MASK with (2 ^ 21). rewrite land_bit_eqb by lia.
  set (old := Z.testbit (getr SH4_REG_FPSCR s) 21). set (new := Z.testbit v 21).
  set (s1 := if eqb old new then s else swap_regs 24 40 16 s).
  assert (Hok1 : regs_ok s1)
    by (unfold s1; destruct (eqb old new); [done|apply swap_regs_ok; [lia..|done]]).
  rewrite (bind_ok _ _ _ tt s1) by (unfold s1; by destruct (eqb old new)).
  erewrite bind_ok by done. erewrite bind_ok by done. rewrite getr_setr_eq by done.
  set (r := if truth (Z.land (u32 v) SH4_FPSCR_RM_MASK) then FE_TOWARDZERO else FE_TONEAREST).
  exists (with_fround r (setr SH4_REG_FPSCR v s1)).
  split; [unfold r; by destruct (truth _)|].
  split; [by destruct (setr_ok SH4_REG_FPSCR v s1 Hok1); constructor|].
  assert (Hnew : Z.testbit (u32 v) 21 = new) by (rewrite wrap_testbit by lia; done).
  destruct (bank_view_kept 24 40 16 old new s s1) as [Hbank Hother]; [|lia..|].
  { intros k Hk. unfold s1. destruct (eqb old new); [done|]. by apply swap_getr_fpu. }
  assert (Hf : getr SH4_REG_FPSCR (setr SH4_REG_FPSCR v s1) = u32 v) by by apply getr_setr_eq.
  split; [exact Hf|]. split; [done|].
  unfold sh4_bank0_fpu_fr_idx, sh4_bank1_fpu_fr_idx. change SH4_FPSCR_FR_MASK with (2 ^ 21).
  change (getr SH4_REG_FPSCR (with_fround _ ?x)) with (getr SH4_REG_FPSCR x).
  rewrite !truth_land_bit, Hf, Hnew by lia. fold old.
  change SH4_REG_FR0 with 24. change SH4_REG_XF0 with 40.
  assert (Hk1 : forall k, 0 <= k -> k <> SH4_REG_FPSCR ->
            getr k (with_fround r (setr SH4_REG_FPSCR v s1)) = getr k s1)
    by (intros k ? ?; exact (getr_setr_ne k SH4_REG_FPSCR v s1 ltac:(lia) ltac:(done) ltac:(done))).
  split.
  - intros n Hn. destruct (Hbank n Hn) as [<- <-].
    destruct new; split; apply Hk1; unfold SH4_REG_FPSCR; lia.
  - intros k Hr Hne. rewrite Hk1 by (done || lia). apply Hother; lia.
Qed.

Lemma regs_ext s rs :
  regs_ok s -> length rs = Z.to_nat SH4_REGISTER_COUNT ->
  (forall i, 0 <= i < SH4_REGISTER_COUNT -> getr i s = nth (Z.to_nat i) rs 0) -> reg s = rs.
Proof.
  intros [Hl _] Hlen Hi. apply (nth_ext _ _ 0 0); [by rewrite Hl, Hlen|].
  intros n Hn. specialize (Hi (Z.of_nat n)). unfold getr in Hi. rewrite Nat2Z.id in Hi.
  apply Hi. rewrite Hl in Hn. lia.
Qed.

Lemma bank_idx_ext s1 s2 n :
  getr SH4_REG_SR s1 = getr SH4_REG_SR s2 ->
  sh4_bank0_reg_idx s1 n = sh4_bank0_reg_idx s2 n /\
  sh4_bank1_reg_idx s1 n = sh4_bank1_reg_idx s2 n.
Proof. unfold sh4_bank0_reg_idx, sh4_bank1_reg_idx. by intros ->. Qed.

Lemma bank_idx_range s n :
  0 <= n < 8 -> 0 <= sh4_bank0_reg_idx s n < 24 /\ 0 <= sh4_bank1_reg_idx s n < 24.
Proof.
  unfold sh4_bank0_reg_idx, sh4_bank1_reg_idx, SH4_REG_R0, SH4_REG_R0_BANK.
  destruct (truth _); lia.
Qed.

(** The current and the other bank, when SR is the same and the banks hold the same. *)
Lemma bank_views_regs s1 s2 n :
  getr SH4_REG_SR s2 = getr SH4_REG_SR s1 ->
  getr (sh4_bank0_reg_idx s2 n) s2 = getr (sh4_bank0_reg_idx s1 n) s1 ->
  getr (sh4_bank1_reg_idx s2 n) s2 = getr (sh4_bank1_reg_idx s1 n) s1 ->
  getr (sh4_gen_reg_idx n) s2 = getr (sh4_gen_reg_idx n) s1 /\
  getr (sh4_bank_reg_idx n) s2 = getr (sh4_bank_reg_idx n) s1.
Proof.
  unfold sh4_bank0_reg_idx, sh4_bank1_reg_idx, sh4_gen_reg_idx, sh4_bank_reg_idx.
  intros ->. by destruct (truth _).
Qed.

(** ** Properties *)

(** a write to SR that succeeds stores the value and, whatever it does to the
    register-bank bit, leaves the contents of both banks of R0-R7 as software sees them
    unchanged, as well as every other register. *)
Theorem set_sr_keeps_banks (s s' : Sh4 W) (v : Z) :
  regs_ok s -> sh4_set_individual_reg SH4_REG_SR v s = Ok (tt, s') ->
  getr SH4_REG_SR s' = u32 v /\
  (forall n, 0 <= n < 8 ->
     getr (sh4_bank0_reg_idx s' n) s' = getr (sh4_bank0_reg_idx s n) s /\
     getr (sh4_bank1_reg_idx s' n) s' = getr (sh4_bank1_reg_idx s n) s) /\
  (forall k, 8 <= k < 16 \/ 24 <= k -> k <> SH4_REG_SR -> getr k s' = getr k s).
Proof. intros Hok Hs. by destruct (set_sr_spec s s' v Hok Hs) as (_ & ? & ?). Qed.

(** a write to FPSCR always succeeds, stores the value, selects the host rounding mode
    that its RM bits ask for, and leaves the contents of both floating-point banks as
    software sees them unchanged, as well as every other register. *)
Theorem set_fpscr_keeps_banks (s : Sh4 W) (v : Z) :
  regs_ok s -> exists s', sh4_set_fpscr v s = Ok (tt, s') /\
    getr SH4_REG_FPSCR s' = u32 v /\
    fround s' = (if truth (Z.land (u32 v) SH4_FPSCR_RM_MASK)
                 then FE_TOWARDZERO else FE_TONEAREST) /\
    (forall n, 0 <= n < 16 ->
       getr (sh4_bank0_fpu_fr_idx s' n) s' = getr (sh4_bank0_fpu_fr_idx s n) s /\
       getr (sh4_bank1_fpu_fr_idx s' n) s' = getr (sh4_bank1_fpu_fr_idx s n) s) /\
    (forall k, 0 <= k < 24 \/ 56 <= k -> k <> SH4_REG_FPSCR -> getr k s' = getr k s).
Proof.
  intros Hok. destruct (set_fpscr_spec s v Hok) as (s' & Hs & _ & H1 & H2 & H3). eauto.
Qed.

(** the debugger's register interface round-trips: when [sh4_set_regs] succeeds,
    [sh4_get_regs] returns exactly the registers it was given, although the writes to SR and
    FPSCR exchange register banks on the way. *)
Theorem set_get_regs (s s' : Sh4 W) (rs : list Z) :
  regs_ok s -> length rs = Z.to_nat SH4_REGISTER_COUNT -> Forall (in_range 32) rs ->
  sh4_set_regs rs s = Ok (tt, s') -> sh4_get_regs s' = rs.
Proof.
  intros Hok Hlen Hrange Hs. unfold sh4_set_regs in Hs.
  apply bind_inv in Hs as ([] & s1 & H1 & Hs). apply bind_inv in Hs as ([] & s2 & H2 & Hs).
  destruct (set_sr_spec _ _ _ Hok H1) as (Hok1 & Hsr1 & _).
  change (sh4_set_fpscr (nth (Z.to_nat SH4_REG_FPSCR) rs 0) s1 = Ok (tt, s2)) in H2.
  destruct (set_fpscr_spec s1 (nth (Z.to_nat SH4_REG_FPSCR) rs 0) Hok1)
    as (s2' & H2' & Hok2 & Hfp & _ & _ & Hoth).
  rewrite H2 in H2'. injection H2' as <-.
  destruct (set_regs_loop_ok (Z.to_nat SH4_REGISTER_COUNT) 0 rs s2 Hok2) as (s3 & H3 & Hok3 & Hg);
    [lia|done|]. rewrite Hs in H3. injection H3 as <-.
  unfold sh4_get_regs. apply regs_ext; [done|done|]. intros i Hi. rewrite Hg by lia.
  assert (Hu : u32 (nth (Z.to_nat i) rs 0) = nth (Z.to_nat i) rs 0).
  { apply wrap_small. rewrite List.Forall_forall in Hrange. apply Hrange, nth_In. lia. }
  rewrite Z2Nat.id by done.
  destruct (Z.leb_spec 0 i), (Z.ltb_spec i (0 + SH4_REGISTER_COUNT)); try lia. cbn [andb].
  destruct (Z.eqb_spec i SH4_REG_SR) as [->|]; cbn [andb negb].
  - rewrite Hoth by (unfold SH4_REG_SR, SH4_REG_FPSCR; lia). congruence.
  - destruct (Z.eqb_spec i SH4_REG_FPSCR) as [->|]; cbn [negb]; congruence.
Qed.
End bank_facts.

(** *** Witnesses: bank 0 is selected and holds 5 in R0, bank 1 holds 9 *)
Definition bank_cpu : Sh4 board :=
  cpu_with [(SH4_REG_R0, 5); (SH4_REG_R0_BANK, 9); (SH4_REG_FR0, 6); (SH4_REG_XF0, 7);
            (SH4_REG_SR, 0x40000000)] ∅.
(** the state that an operation leaves *)
Definition after {A} (m : M (Sh4 board) A) (s : Sh4 board) : Sh4 board :=
  match m s with Ok (_, s') => s' | Err _ => s end.

Lemma bank_cpu_ok : regs_ok bank_cpu.
Proof. apply regs_okb_sound. vm_compute. reflexivity. Qed.

Lemma set_sr_keeps_banks_witness :
  let s' := after (sh4_set_individual_reg SH4_REG_SR 0x60000000) bank_cpu in
  getr SH4_REG_R0 s' = 9 /\ getr (sh4_bank0_reg_idx s' 0) s' = 5.
Proof.
  split; [vm_compute; reflexivity|].
  exact (proj1 (proj1 (proj2 (set_sr_keeps_banks bank_cpu
    (after (sh4_set_individual_reg SH4_REG_SR 0x60000000) bank_cpu) 0x60000000 bank_cpu_ok
    ltac:(vm_compute; reflexivity))) 0 ltac:(lia))).
Defined.

Lemma set_fpscr_keeps_banks_witness : exists s', sh4_set_fpscr 0x200001 bank_cpu = Ok (tt, s') /\
  getr SH4_REG_FPSCR s' = 0x200001 /\ fround s' = FE_TOWARDZERO /\
  (forall n, 0 <= n < 16 ->
     getr (sh4_bank0_fpu_fr_idx s' n) s' = getr (sh4_bank0_fpu_fr_idx bank_cpu n) bank_cpu /\
     getr (sh4_bank1_fpu_fr_idx s' n) s' = getr (sh4_bank1_fpu_fr_idx bank_cpu n) bank_cpu) /\
  (forall k, 0 <= k < 24 \/ 56 <= k -> k <> SH4_REG_FPSCR -> getr k s' = getr k bank_cpu).
Proof. exact (set_fpscr_keeps_banks bank_cpu 0x200001 bank_cpu_ok). Defined.

Definition other_regs : list Z := <[Z.to_nat SH4_REG_SR := 0x60000000]> (replicate 124 3).

Lemma set_get_regs_witness :
  sh4_get_regs (after (sh4_set_regs other_regs) bank_cpu) = other_regs.
Proof.
  apply (set_get_regs bank_cpu _ other_regs bank_cpu_ok eq_refl).
  - apply (Forall_insert (in_range 32)); [apply list.Forall_replicate|];
      vm_compute; split; congruence.
  - vm_compute. reflexivity.
Defined.
