(* ===== verification/Sh4Excp.v ===== *)
(** Exceptions and interrupts of the SH-4 (src/libwashdc/hw/sh4/sh4_excp.c, sh4_excp.h and
    the interrupt functions of sh4_read_inst.h).

    [sh4_refresh_intc], [sh4_check_interrupts] and [sh4_enter_irq_from_meta] call each
    other; the definitions take the recursion depth as fuel, and [refresh_intc_fuel]
    shows that a depth of two is always enough. *)
From stdpp Require Import gmap.
From S2P Require Import Prelude MemoryMap Sh4State Board Sh4Core.

Module excp_codes.
(** [enum Sh4ExceptionCode] and the interrupt lines *)
Definition SH4_EXCP_POWER_ON_RESET : Z := 0x000.
Definition SH4_EXCP_MANUAL_RESET : Z := 0x020.
Definition SH4_EXCP_HUDI_RESET : Z := 0x000.
Definition SH4_EXCP_INST_TLB_MULT_HIT : Z := 0x140.
Definition SH4_EXCP_DATA_TLB_MULT_HIT : Z := 0x140.
Definition SH4_EXCP_USER_BREAK_BEFORE : Z := 0x1e0.
Definition SH4_EXCP_INST_ADDR_ERR : Z := 0x0e0.
Definition SH4_EXCP_INST_TLB_MISS : Z := 0x040.
Definition SH4_EXCP_INST_TLB_PROT_VIOL : Z := 0x0a0.
Definition SH4_EXCP_GEN_ILLEGAL_INST : Z := 0x180.
Definition SH4_EXCP_SLOT_ILLEGAL_INST : Z := 0x1a0.
Definition SH4_EXCP_GEN_FPU_DISABLE : Z := 0x800.
Definition SH4_EXCP_SLOT_FPU_DISABLE : Z := 0x820.
Definition SH4_EXCP_DATA_ADDR_READ : Z := 0x0e0.
Definition SH4_EXCP_DATA_ADDR_WRITE : Z := 0x100.
Definition SH4_EXCP_DATA_TLB_READ_MISS : Z := 0x040.
Definition SH4_EXCP_DATA_TLB_WRITE_MISS : Z := 0x060.
Definition SH4_EXCP_DATA_TLB_READ_PROT_VIOL : Z := 0x0a0.
Definition SH4_EXCP_DATA_TLB_WRITE_PROT_VIOL : Z := 0x0c0.
Definition SH4_EXCP_FPU : Z := 0x120.
Definition SH4_EXCP_INITIAL_PAGE_WRITE : Z := 0x080.
Definition SH4_EXCP_UNCONDITIONAL_TRAP : Z := 0x160.
Definition SH4_EXCP_USER_BREAK_AFTER : Z := 0x1e0.
Definition SH4_EXCP_NMI : Z := 0x1c0.
Definition SH4_EXCP_EXT_0 : Z := 0x200.
Definition SH4_EXCP_EXT_1 : Z := 0x220.
Definition SH4_EXCP_EXT_2 : Z := 0x240.
Definition SH4_EXCP_EXT_3 : Z := 0x260.
Definition SH4_EXCP_EXT_4 : Z := 0x280.
Definition SH4_EXCP_EXT_5 : Z := 0x2a0.
Definition SH4_EXCP_EXT_6 : Z := 0x2c0.
Definition SH4_EXCP_EXT_7 : Z := 0x2e0.
Definition SH4_EXCP_EXT_8 : Z := 0x300.
Definition SH4_EXCP_EXT_9 : Z := 0x320.
Definition SH4_EXCP_EXT_A : Z := 0x340.
Definition SH4_EXCP_EXT_B : Z := 0x360.
Definition SH4_EXCP_EXT_C : Z := 0x380.
Definition SH4_EXCP_EXT_D : Z := 0x3a0.
Definition SH4_EXCP_EXT_E : Z := 0x3c0.
Definition SH4_EXCP_IRL0 : Z := 0x240.
Definition SH4_EXCP_IRL1 : Z := 0x2a0.
Definition SH4_EXCP_IRL2 : Z := 0x300.
Definition SH4_EXCP_IRL3 : Z := 0x360.
Definition SH4_EXCP_TMU0_TUNI0 : Z := 0x400.
Definition SH4_EXCP_TMU1_TUNI1 : Z := 0x420.
Definition SH4_EXCP_TMU2_TUNI2 : Z := 0x440.
Definition SH4_EXCP_TMU2_TICPI2 : Z := 0x460.
Definition SH4_EXCP_RTC_ATI : Z := 0x480.
Definition SH4_EXCP_RTC_PRI : Z := 0x4a0.
Definition SH4_EXCP_RTC_CUI : Z := 0x4c0.
Definition SH4_EXCP_SCI_ERI : Z := 0x4e0.
Definition SH4_EXCP_SCI_RXI : Z := 0x500.
Definition SH4_EXCP_SCI_TXI : Z := 0x520.
Definition SH4_EXCP_SCI_TEI : Z := 0x540.
Definition SH4_EXCP_WDT_ITI : Z := 0x560.
Definition SH4_EXCP_REF_RCMI : Z := 0x580.
Definition SH4_EXCP_REF_ROVI : Z := 0x5a0.
Definition SH4_EXCP_HUDI_HUDI : Z := 0x600.
Definition SH4_EXCP_GPIO_GPIOI : Z := 0x620.
Definition SH4_EXCP_DMAC_DMTE0 : Z := 0x640.
Definition SH4_EXCP_DMAC_DMTE1 : Z := 0x660.
Definition SH4_EXCP_DMAC_DMTE2 : Z := 0x680.
Definition SH4_EXCP_DMAC_DMTE3 : Z := 0x6a0.
Definition SH4_EXCP_DMAC_DMAE : Z := 0x6c0.
Definition SH4_EXCP_SCIF_ERI : Z := 0x700.
Definition SH4_EXCP_SCIF_RXI : Z := 0x720.
Definition SH4_EXCP_SCIF_BRI : Z := 0x740.
Definition SH4_EXCP_SCIF_TXI : Z := 0x760.
Definition SH4_IRQ_RTC : Z := 0.
Definition SH4_IRQ_TMU2 : Z := 1.
Definition SH4_IRQ_TMU1 : Z := 2.
Definition SH4_IRQ_TMU0 : Z := 3.
Definition SH4_IRQ_RESERVED : Z := 4.
Definition SH4_IRQ_SCI1 : Z := 5.
Definition SH4_IRQ_REF : Z := 6.
Definition SH4_IRQ_WDT : Z := 7.
Definition SH4_IRQ_HUDI : Z := 8.
Definition SH4_IRQ_SCIF : Z := 9.
Definition SH4_IRQ_DMAC : Z := 10.
Definition SH4_IRQ_GPIO : Z := 11.
Definition SH4_IRQ_IRL3 : Z := 12.
Definition SH4_IRQ_IRL2 : Z := 13.
Definition SH4_IRQ_IRL1 : Z := 14.
Definition SH4_IRQ_IRL0 : Z := 15.
Definition SH4_IRQ_COUNT : Z := 16.
End excp_codes.
Export excp_codes.

(** [struct Sh4ExcpMeta] and the table, in the order of the source.  The array has
    [SH4_EXCP_COUNT] = 64 entries of which 63 are written: the last one is zero. *)
Record Sh4ExcpMeta : Type := excp_meta {
  meta_code : Z;
  prio_level : Z;
  prio_order : Z;
  offset : Z
}.

Definition SH4_EXCP_COUNT : Z := 9 + 16 + 16 + 2 + 16 + 5.

Definition sh4_excp_meta : list Sh4ExcpMeta := [
    excp_meta SH4_EXCP_POWER_ON_RESET 1 1 0 ;
    excp_meta SH4_EXCP_MANUAL_RESET 1 2 0 ;
    excp_meta SH4_EXCP_HUDI_RESET 1 1 0 ;
    excp_meta SH4_EXCP_INST_TLB_MULT_HIT 1 3 0 ;
    excp_meta SH4_EXCP_DATA_TLB_MULT_HIT 1 4 0 ;
    excp_meta SH4_EXCP_USER_BREAK_BEFORE 2 0 0x100 ;
    excp_meta SH4_EXCP_INST_ADDR_ERR 2 1 0x100 ;
    excp_meta SH4_EXCP_INST_TLB_MISS 2 2 0x400 ;
    excp_meta SH4_EXCP_INST_TLB_PROT_VIOL 2 3 0x100 ;
    excp_meta SH4_EXCP_GEN_ILLEGAL_INST 2 4 0x100 ;
    excp_meta SH4_EXCP_SLOT_ILLEGAL_INST 2 4 0x100 ;
    excp_meta SH4_EXCP_GEN_FPU_DISABLE 2 4 0x100 ;
    excp_meta SH4_EXCP_SLOT_FPU_DISABLE 2 4 0x100 ;
    excp_meta SH4_EXCP_DATA_ADDR_READ 2 5 0x100 ;
    excp_meta SH4_EXCP_DATA_ADDR_WRITE 2 5 0x100 ;
    excp_meta SH4_EXCP_DATA_TLB_READ_MISS 2 6 0x400 ;
    excp_meta SH4_EXCP_DATA_TLB_WRITE_MISS 2 6 0x400 ;
    excp_meta SH4_EXCP_DATA_TLB_READ_PROT_VIOL 2 7 0x100 ;
    excp_meta SH4_EXCP_DATA_TLB_WRITE_PROT_VIOL 2 7 0x100 ;
    excp_meta SH4_EXCP_FPU 2 8 0x100 ;
    excp_meta SH4_EXCP_INITIAL_PAGE_WRITE 2 9 0x100 ;
    excp_meta SH4_EXCP_UNCONDITIONAL_TRAP 2 4 0x100 ;
    excp_meta SH4_EXCP_USER_BREAK_AFTER 2 10 0x100 ;
    excp_meta SH4_EXCP_NMI 3 0 0x600 ;
    excp_meta SH4_EXCP_EXT_0 4 2 0x600 ;
    excp_meta SH4_EXCP_EXT_1 4 2 0x600 ;
    excp_meta SH4_EXCP_EXT_2 4 2 0x600 ;
    excp_meta SH4_EXCP_EXT_3 4 2 0x600 ;
    excp_meta SH4_EXCP_EXT_4 4 2 0x600 ;
    excp_meta SH4_EXCP_EXT_5 4 2 0x600 ;
    excp_meta SH4_EXCP_EXT_6 4 2 0x600 ;
    excp_meta SH4_EXCP_EXT_7 4 2 0x600 ;
    excp_meta SH4_EXCP_EXT_8 4 2 0x600 ;
    excp_meta SH4_EXCP_EXT_9 4 2 0x600 ;
    excp_meta SH4_EXCP_EXT_A 4 2 0x600 ;
    excp_meta SH4_EXCP_EXT_B 4 2 0x600 ;
    excp_meta SH4_EXCP_EXT_C 4 2 0x600 ;
    excp_meta SH4_EXCP_EXT_D 4 2 0x600 ;
    excp_meta SH4_EXCP_EXT_E 4 2 0x600 ;
    excp_meta SH4_EXCP_TMU0_TUNI0 4 2 0x600 ;
    excp_meta SH4_EXCP_TMU1_TUNI1 4 2 0x600 ;
    excp_meta SH4_EXCP_TMU2_TUNI2 4 2 0x600 ;
    excp_meta SH4_EXCP_TMU2_TICPI2 4 2 0x600 ;
    excp_meta SH4_EXCP_RTC_ATI 4 2 0x600 ;
    excp_meta SH4_EXCP_RTC_PRI 4 2 0x600 ;
    excp_meta SH4_EXCP_RTC_CUI 4 2 0x600 ;
    excp_meta SH4_EXCP_SCI_ERI 4 2 0x600 ;
    excp_meta SH4_EXCP_SCI_RXI 4 2 0x600 ;
    excp_meta SH4_EXCP_SCI_TXI 4 2 0x600 ;
    excp_meta SH4_EXCP_SCI_TEI 4 2 0x600 ;
    excp_meta SH4_EXCP_WDT_ITI 4 2 0x600 ;
    excp_meta SH4_EXCP_REF_RCMI 4 2 0x600 ;
    excp_meta SH4_EXCP_REF_ROVI 4 2 0x600 ;
    excp_meta SH4_EXCP_GPIO_GPIOI 4 2 0x600 ;
    excp_meta SH4_EXCP_DMAC_DMTE0 4 2 0x600 ;
    excp_meta SH4_EXCP_DMAC_DMTE1 4 2 0x600 ;
    excp_meta SH4_EXCP_DMAC_DMTE2 4 2 0x600 ;
    excp_meta SH4_EXCP_DMAC_DMTE3 4 2 0x600 ;
    excp_meta SH4_EXCP_DMAC_DMAE 4 2 0x600 ;
    excp_meta SH4_EXCP_SCIF_ERI 4 2 0x600 ;
    excp_meta SH4_EXCP_SCIF_RXI 4 2 0x600 ;
    excp_meta SH4_EXCP_SCIF_BRI 4 2 0x600 ;
    excp_meta SH4_EXCP_SCIF_TXI 4 2 0x600 ;
    excp_meta 0 0 0 0
  ].

Section sh4_excp.
Context {W : Type} `{!BuildConfig} `{!Machine W}.
Abbreviation sh4M := (M (Sh4 W)).

Definition sh4_enter_exception (vector : Z) : sh4M unit :=
  match List.find (fun m => meta_code m =? vector) sh4_excp_meta with
  | None => raise ERROR_UNKNOWN_EXCP_CODE
  | Some meta =>
      pc <- reg_get SH4_REG_PC ;;
      reg_set SH4_REG_SPC pc ;;
      sr <- reg_get SH4_REG_SR ;;
      reg_set SH4_REG_SSR sr ;;
      r15 <- reg_get SH4_REG_R15 ;;
      reg_set SH4_REG_SGR r15 ;;
      new_sr <- reg_get SH4_REG_SR ;;
      let new_sr := Z.lor new_sr
        (Z.lor (Z.lor SH4_SR_BL_MASK SH4_SR_MD_MASK) SH4_SR_RB_MASK) in
      let new_sr := Z.land new_sr (not32 SH4_SR_FD_MASK) in
      old_sr_val <- reg_get SH4_REG_SR ;;
      reg_set SH4_REG_SR new_sr ;;
      sh4_on_sr_change old_sr_val ;;
      if (vector =? SH4_EXCP_POWER_ON_RESET) || (vector =? SH4_EXCP_MANUAL_RESET) ||
         (vector =? SH4_EXCP_HUDI_RESET) || (vector =? SH4_EXCP_INST_TLB_MULT_HIT) ||
         (vector =? SH4_EXCP_INST_TLB_MULT_HIT)
      then reg_set SH4_REG_PC 0xa0000000
      else
        vbr <- reg_get SH4_REG_VBR ;;
        if (vector =? SH4_EXCP_USER_BREAK_BEFORE) || (vector =? SH4_EXCP_USER_BREAK_AFTER)
        then reg_set SH4_REG_PC (vbr + offset meta)
        else reg_set SH4_REG_PC (vbr + offset meta)
  end.

Definition sh4_set_exception (excp_code : Z) : sh4M unit :=
  reg_set SH4_REG_EXPEVT
    (Z.land (Z.shiftl excp_code SH4_EXPEVT_CODE_SHIFT) SH4_EXPEVT_CODE_MASK) ;;
  sh4_enter_exception excp_code.

(** ** Interrupt arbitration *)
Definition irq_line (s : Sh4 W) (l : Z) : Z := nth (Z.to_nat l) (irq_lines (intc s)) 0.
Definition sr_imask (s : Sh4 W) : Z :=
  Z.shiftr (Z.land (getr SH4_REG_SR s) SH4_SR_IMASK_MASK) SH4_SR_IMASK_SHIFT.

(** the priority that the IPR registers give to a line *)
Definition line_prio (s : Sh4 W) (l : Z) : Z :=
  let ipr_reg_idx := SH4_REG_IPRA + l / 4 in
  let prio_shift_amt := 4 * (l mod 4) in
  let mask := Z.shiftl 0xf prio_shift_amt in
  Z.shiftr (Z.land mask (getr ipr_reg_idx s)) prio_shift_amt.

(** one turn of the loop over the lines *)
Definition irq_loop_body (s : Sh4 W) (best : Z * Z) (l : Z) : Z * Z :=
  let '(max_prio, max_prio_line) := best in
  let prio := line_prio s l in
  if prio >? sr_imask s then
    if truth (irq_line s l) && (prio >? max_prio) then (prio, l) else best
  else best.

Definition irq_lines_upto (last : Z) : list Z :=
  map Z.of_nat (seq 0 (Z.to_nat last + 1)).

Definition irl_val (s : Sh4 W) : Z :=
  let v := 0 in
  let v := if truth (irq_line s SH4_IRQ_IRL0) then Z.lor v 1 else v in
  let v := if truth (irq_line s SH4_IRQ_IRL1) then Z.lor v 2 else v in
  let v := if truth (irq_line s SH4_IRQ_IRL2) then Z.lor v 4 else v in
  let v := if truth (irq_line s SH4_IRQ_IRL3) then Z.lor v 8 else v in
  Z.land (not32 v) 0xf.

(** the switch over [irl_val]: priority and code *)
Definition irl_prio_code (v : Z) : option (Z * Z) :=
  match v with
  | 0x0 => Some (15, SH4_EXCP_EXT_0) | 0x1 => Some (14, SH4_EXCP_EXT_1)
  | 0x2 => Some (13, SH4_EXCP_EXT_2) | 0x3 => Some (12, SH4_EXCP_EXT_3)
  | 0x4 => Some (11, SH4_EXCP_EXT_4) | 0x5 => Some (10, SH4_EXCP_EXT_5)
  | 0x6 => Some (9, SH4_EXCP_EXT_6) | 0x7 => Some (8, SH4_EXCP_EXT_7)
  | 0x8 => Some (7, SH4_EXCP_EXT_8) | 0x9 => Some (6, SH4_EXCP_EXT_9)
  | 0xa => Some (5, SH4_EXCP_EXT_A) | 0xb => Some (4, SH4_EXCP_EXT_B)
  | 0xc => Some (3, SH4_EXCP_EXT_C) | 0xd => Some (2, SH4_EXCP_EXT_D)
  | 0xe => Some (1, SH4_EXCP_EXT_E)
  | _ => None
  end.

(** [sh4_get_next_irq_line]: the priority of the line taken or -1, and [*irq_meta] *)
Definition sh4_get_next_irq_line (s : Sh4 W) (irq_meta : sh4_irq_meta)
    : res (Z * sh4_irq_meta) :=
  if truth (Z.land (getr SH4_REG_SR s) SH4_SR_BL_MASK) then Ok (-1, irq_meta)
  else
    let irlm := truth (Z.land (getr SH4_REG_ICR s) SH4_ICR_IRLM_MASK) in
    let last_line := if irlm then SH4_IRQ_COUNT - 1 else SH4_IRQ_GPIO in
    let '(max_prio, max_prio_line) :=
      fold_left (irq_loop_body s) (irq_lines_upto last_line) (-1, 0xffffffff) in
    let taken :=
      if max_prio >=? 0 then
        Ok (max_prio, {| is_irl := false; code := irq_line s max_prio_line;
                         line := max_prio_line |})
      else Ok (-1, irq_meta) in
    if negb irlm && negb (irl_val s =? 0xf) then
      match irl_prio_code (irl_val s) with
      | None => Err ERROR_INTEGRITY
      | Some (prio, c) =>
          if (prio >? max_prio) && (prio >? sr_imask s) then
            Ok (prio, {| is_irl := true; code := c; line := line irq_meta |})
          else taken
      end
    else taken.

Definition set_irq_line (l v : Z) : sh4M unit :=
  modify (fun s => with_intc
    {| irq_lines := <[Z.to_nat l := v]> (irq_lines (intc s));
       is_irq_pending := is_irq_pending (intc s); pending_irq := pending_irq (intc s);
       refresh_intc_event_scheduled := refresh_intc_event_scheduled (intc s) |} s).
Definition set_irq_pending (b : bool) : sh4M unit :=
  modify (fun s => with_intc
    {| irq_lines := irq_lines (intc s);
       is_irq_pending := b; pending_irq := pending_irq (intc s);
       refresh_intc_event_scheduled := refresh_intc_event_scheduled (intc s) |} s).

(** the first statement of [sh4_refresh_intc] *)
Definition refresh_pending : sh4M unit :=
  fun s =>
    match sh4_get_next_irq_line s (pending_irq (intc s)) with
    | Err e => Err e
    | Ok (prio, meta) =>
        Ok (tt, with_intc {| irq_lines := irq_lines (intc s); is_irq_pending := prio >=? 0;
                             pending_irq := meta;
                             refresh_intc_event_scheduled :=
                               refresh_intc_event_scheduled (intc s) |} s)
    end.

(** the line updates of [sh4_set_irl_interrupt] *)
Definition set_irl_lines (irl : Z) : sh4M unit :=
  let irl := not32 irl in
  set_irq_line SH4_IRQ_IRL0 (if truth (Z.land irl 1) then SH4_EXCP_IRL0 else 0) ;;
  set_irq_line SH4_IRQ_IRL1 (if truth (Z.land irl 2) then SH4_EXCP_IRL1 else 0) ;;
  set_irq_line SH4_IRQ_IRL2 (if truth (Z.land irl 4) then SH4_EXCP_IRL2 else 0) ;;
  set_irq_line SH4_IRQ_IRL3 (if truth (Z.land irl 8) then SH4_EXCP_IRL3 else 0).

(** [sh4_enter_irq_from_meta], with [refresh] standing for [sh4_refresh_intc] *)
Definition sh4_enter_irq_from_meta (refresh : sh4M unit) (irq_meta : sh4_irq_meta)
    : sh4M unit :=
  reg_set SH4_REG_INTEVT
    (Z.land (Z.shiftl (code irq_meta) SH4_INTEVT_CODE_SHIFT) SH4_INTEVT_CODE_MASK) ;;
  sh4_enter_exception (code irq_meta) ;;
  (if is_irl irq_meta then (set_irl_lines 0xf ;; refresh)
   else (set_irq_line (line irq_meta) 0 ;; refresh)) ;;
  modify (with_exec_state SH4_EXEC_STATE_NORM).

Definition sh4_check_interrupts_no_delay_branch_check (refresh : sh4M unit) : sh4M unit :=
  i <- gets intc ;;
  when (is_irq_pending i)
    (sh4_enter_irq_from_meta refresh (pending_irq i) ;;
     set_irq_pending false).

Definition sh4_check_interrupts (refresh : sh4M unit) : sh4M unit :=
  db <- gets delayed_branch ;;
  when (negb db) (sh4_check_interrupts_no_delay_branch_check refresh).

Fixpoint sh4_refresh_intc (fuel : nat) : sh4M unit :=
  match fuel with
  | O => raise OUT_OF_FUEL
  | S fuel' => refresh_pending ;; sh4_check_interrupts (sh4_refresh_intc fuel')
  end.

Definition sh4_set_interrupt (fuel : nat) (irq_line intp_code : Z) : sh4M unit :=
  set_irq_line irq_line intp_code ;; sh4_refresh_intc fuel.

Definition sh4_set_irl_interrupt (fuel : nat) (irl : Z) : sh4M unit :=
  set_irl_lines irl ;; sh4_refresh_intc fuel.

(** the event handler of the deferred refresh *)
Definition do_sh4_refresh_intc_deferred (fuel : nat) : sh4M unit :=
  sh4_refresh_intc fuel ;;
  modify (fun s => with_intc (set_refresh_scheduled false (intc s)) s).

(** the handlers of the memory-mapped interrupt registers *)
Definition sh4_excp_icr_reg_write_handler (val : Z) : sh4M unit :=
  reg_set SH4_REG_ICR val ;; sh4_refresh_intc_deferred.
Definition sh4_excp_ipra_reg_write_handler (val : Z) : sh4M unit :=
  reg_set SH4_REG_IPRA val ;; sh4_refresh_intc_deferred.
Definition sh4_excp_iprb_reg_write_handler (val : Z) : sh4M unit :=
  reg_set SH4_REG_IPRB val ;; sh4_refresh_intc_deferred.
Definition sh4_excp_iprc_reg_write_handler (val : Z) : sh4M unit :=
  reg_set SH4_REG_IPRC val ;; sh4_refresh_intc_deferred.
Definition sh4_excp_iprd_reg_write_handler (val : Z) : sh4M unit :=
  reg_set SH4_REG_IPRD val ;; sh4_refresh_intc_deferred.
End sh4_excp.

(** ** Interrupt arbitration *)
Section arbitration.
Context {W : Type} `{!BuildConfig} `{!Machine W}.
Implicit Types s : Sh4 W.

(** a line that is raised and whose priority is above the mask *)
Definition line_ready (s : Sh4 W) (l : Z) : Prop :=
  irq_line s l <> 0 /\ line_prio s l > sr_imask s.

(** the external request that the encoded IRL pins make, with its priority *)
Definition irl_ready (s : Sh4 W) (prio : Z) : Prop :=
  truth (Z.land (getr SH4_REG_ICR s) SH4_ICR_IRLM_MASK) = false /\
  irl_val s <> 0xf /\ prio = 15 - irl_val s /\ prio > sr_imask s.

(** the lines that the arbitration looks at *)
Definition scanned (s : Sh4 W) (l : Z) : Prop :=
  0 <= l <= (if truth (Z.land (getr SH4_REG_ICR s) SH4_ICR_IRLM_MASK)
             then SH4_IRQ_COUNT - 1 else SH4_IRQ_GPIO).

Lemma irq_fold_spec s lines best :
  fst best = -1 \/ (line_ready s (snd best) /\ fst best = line_prio s (snd best)) ->
  let r := fold_left (irq_loop_body s) lines best in
  (fst r = -1 \/ (line_ready s (snd r) /\ fst r = line_prio s (snd r) /\
                  (r = best \/ In (snd r) lines))) /\
  fst best <= fst r /\ (forall l, In l lines -> line_ready s l -> line_prio s l <= fst r).
Proof.
  revert best. induction lines as [|l lines IH]; intros [bp bl] Hb; cbn [fold_left].
  { cbn in *. split; [tauto|]. split; [lia|done]. }
  destruct (IH (irq_loop_body s (bp, bl) l)) as (IH1 & IH2 & IH3).
  { unfold irq_loop_body. cbn in Hb.
    destruct (Z.gtb_spec (line_prio s l) (sr_imask s)); [|exact Hb].
    destruct (truth (irq_line s l)) eqn:Ht; cbn [andb]; [|exact Hb].
    destruct (Z.gtb_spec (line_prio s l) bp); [|exact Hb].
    right. cbn. split; [|done]. unfold line_ready. unfold truth in Ht.
    destruct (Z.eqb_spec (irq_line s l) 0); [done|]. lia. }
  cbn zeta in *. unfold irq_loop_body in IH1 at 2, IH2 at 1. split; [|split].
  - destruct IH1 as [?|(H1 & H2 & H3)]; [by left|right]. split; [done|]. split; [done|].
    destruct H3 as [H3|H3]; [|right; by right].
    rewrite H3. unfold irq_loop_body.
    destruct (line_prio s l >? sr_imask s); [|by left].
    destruct (truth (irq_line s l) && (line_prio s l >? bp)); [|by left].
    right. by left.
  - etransitivity; [|exact IH2]. unfold irq_loop_body.
    destruct (line_prio s l >? sr_imask s); [|cbn; lia].
    destruct (truth (irq_line s l)); cbn [andb]; [|cbn; lia].
    destruct (Z.gtb_spec (line_prio s l) bp); cbn; lia.
  - intros l' [<-|Hl'] Hr; [|auto]. etransitivity; [|exact IH2].
    destruct Hr as [Hn Hp]. unfold irq_loop_body.
    destruct (Z.gtb_spec (line_prio s l) (sr_imask s)); [|lia].
    unfold truth. destruct (Z.eqb_spec (irq_line s l) 0); [done|]. cbn [negb andb].
    destruct (Z.gtb_spec (line_prio s l) bp); cbn; lia.
Qed.

Lemma irl_val_range s : 0 <= irl_val s < 16.
Proof.
  unfold irl_val.
  destruct (truth (irq_line s SH4_IRQ_IRL0)), (truth (irq_line s SH4_IRQ_IRL1)),
    (truth (irq_line s SH4_IRQ_IRL2)), (truth (irq_line s SH4_IRQ_IRL3));
    vm_compute; split; congruence.
Qed.

Lemma irl_prio_code_total v : 0 <= v < 15 -> exists c, irl_prio_code v = Some (15 - v, c).
Proof.
  intros Hv. assert (Hin : In v [0;1;2;3;4;5;6;7;8;9;10;11;12;13;14]) by (cbn; lia).
  cbn in Hin. repeat destruct Hin as [<-|Hin]; try (eexists; reflexivity). done.
Qed.

Lemma elem_irq_lines_upto n l : 0 <= n -> In l (irq_lines_upto n) <-> 0 <= l <= n.
Proof.
  intros Hn. unfold irq_lines_upto. rewrite in_map_iff. split.
  - intros (k & <- & Hk). apply in_seq in Hk. lia.
  - intros Hl. exists (Z.to_nat l). rewrite Z2Nat.id by lia. split; [done|].
    apply in_seq. lia.
Qed.

Lemma sr_imask_nonneg s : 0 <= sr_imask s.
Proof.
  unfold sr_imask. apply Z.shiftr_nonneg, Z.land_nonneg. right. vm_compute. congruence.
Qed.

(** the line that the loop chooses *)
Lemma line_choice s meta n mp ml :
  0 <= n -> fold_left (irq_loop_body s) (irq_lines_upto n) (-1, 0xffffffff) = (mp, ml) ->
  (forall l, 0 <= l <= n -> line_ready s l -> line_prio s l <= mp) /\
  exists meta',
    (if mp >=? 0 then
       Ok (mp, {| is_irl := false; code := irq_line s ml; line := ml |})
     else Ok (-1, meta)) = Ok (mp, meta') /\
    ((mp = -1 /\ meta' = meta) \/
     (is_irl meta' = false /\ 0 <= line meta' <= n /\ line_ready s (line meta') /\
      mp = line_prio s (line meta') /\ code meta' = irq_line s (line meta'))).
Proof.
  intros Hn E.
  pose proof (irq_fold_spec s (irq_lines_upto n) (-1, 0xffffffff) (or_introl eq_refl)) as Hf.
  rewrite E in Hf. cbn [fst snd] in Hf. destruct Hf as (Hf1 & _ & Hf3). split.
  { intros l Hl Hr. apply Hf3; [by apply elem_irq_lines_upto|done]. }
  destruct Hf1 as [->|(Hr & Hp & [[= -> ->]|Hi])]; [exists meta; auto..|].
  rewrite elem_irq_lines_upto in Hi by done.
  pose proof (sr_imask_nonneg s). destruct Hr as [Hr1 Hr2].
  destruct (Z.geb_spec mp 0); [|lia]. eexists. split; [done|]. right. cbn.
  split_and!; try done; lia.
Qed.

(** C38: when interrupts are not blocked, the arbitration returns a request of highest
    priority among the raised lines and the encoded external request above the mask of SR,
    with the line or the code to take it by, and it returns -1 exactly when there is no such
    request; it never fails. *)
Theorem next_irq_highest (s : Sh4 W) (meta : sh4_irq_meta) :
  truth (Z.land (getr SH4_REG_SR s) SH4_SR_BL_MASK) = false ->
  exists prio meta', sh4_get_next_irq_line s meta = Ok (prio, meta') /\
    (forall l, scanned s l -> line_ready s l -> line_prio s l <= prio) /\
    (forall p, irl_ready s p -> p <= prio) /\
    ((prio = -1 /\ meta' = meta) \/
     (is_irl meta' = false /\ scanned s (line meta') /\ line_ready s (line meta') /\
      prio = line_prio s (line meta') /\ code meta' = irq_line s (line meta')) \/
     (is_irl meta' = true /\ irl_ready s prio /\
      irl_prio_code (irl_val s) = Some (prio, code meta'))).
Proof.
  intros HBL. unfold sh4_get_next_irq_line. rewrite HBL.
  unfold scanned, irl_ready.
  set (irlm := truth (Z.land (getr SH4_REG_ICR s) SH4_ICR_IRLM_MASK)).
  set (n := if irlm then SH4_IRQ_COUNT - 1 else SH4_IRQ_GPIO).
  assert (Hn : 0 <= n) by (unfold n; destruct irlm; vm_compute; congruence).
  destruct (fold_left (irq_loop_body s) (irq_lines_upto n) _) as [mp ml] eqn:E.
  destruct (line_choice s meta n mp ml Hn E) as (Hmax & tm & -> & Htk).
  pose proof (irl_val_range s) as Hv.
  destruct irlm; cbn [negb andb].
  { exists mp, tm. split_and!; [done|done|by intros p (? & _)|]. tauto. }
  destruct (Z.eqb_spec (irl_val s) 0xf) as [Hff|Hff]; cbn [negb].
  { exists mp, tm. split_and!; [done|done|by intros p (_ & ? & _)|]. tauto. }
  destruct (irl_prio_code_total (irl_val s)) as [c Hc]; [lia|]. rewrite Hc.
  destruct (Z.gtb_spec (15 - irl_val s) mp), (Z.gtb_spec (15 - irl_val s) (sr_imask s));
    cbn [andb].
  - do 2 eexists. split; [done|]. split; [intros l Hl Hr; specialize (Hmax l Hl Hr); lia|].
    split; [intros p (_ & _ & -> & _); lia|]. right. right. cbn. split_and!; auto with lia.
  - exists mp, tm. split_and!; [done|done|intros p (_ & _ & -> & ?); lia|]. tauto.
  - exists mp, tm. split_and!; [done|done|intros p (_ & _ & -> & ?); lia|]. tauto.
  - exists mp, tm. split_and!; [done|done|intros p (_ & _ & -> & ?); lia|]. tauto.
Qed.
End arbitration.

(** ** Entering an exception *)
Section entry.
Context {W : Type} `{!BuildConfig} `{!Machine W}.
Implicit Types s : Sh4 W.

(** SR while an exception handler runs *)
Definition excp_sr (sr : Z) : Z :=
  Z.land (Z.lor sr (Z.lor (Z.lor SH4_SR_BL_MASK SH4_SR_MD_MASK) SH4_SR_RB_MASK))
    (not32 SH4_SR_FD_MASK).

Lemma excp_sr_bits sr :
  Z.testbit (excp_sr sr) 28 = true /\ Z.testbit (excp_sr sr) 29 = true /\
  Z.testbit (excp_sr sr) 30 = true.
Proof.
  unfold excp_sr. rewrite !Z.land_spec, !Z.lor_spec.
  split_and!; by rewrite orb_true_r.
Qed.

Lemma excp_sr_range sr : in_range 32 sr -> in_range 32 (excp_sr sr).
Proof.
  intros. unfold excp_sr. apply land_range_l; [lia|]. apply lor_range; [lia|done|].
  vm_compute. split; congruence.
Qed.

(** the address that the handler of [vector] starts at *)
Definition excp_target (vector : Z) (meta : Sh4ExcpMeta) (s : Sh4 W) : Z :=
  if (vector =? SH4_EXCP_POWER_ON_RESET) || (vector =? SH4_EXCP_MANUAL_RESET) ||
     (vector =? SH4_EXCP_INST_TLB_MULT_HIT)
  then 0xa0000000 else u32 (getr SH4_REG_VBR s + offset meta).

(** the registers that the entry saves *)
Definition saved (s : Sh4 W) : Sh4 W :=
  let s := setr SH4_REG_SPC (getr SH4_REG_PC s) s in
  let s := setr SH4_REG_SSR (getr SH4_REG_SR s) s in
  setr SH4_REG_SGR (getr SH4_REG_R15 s) s.

Lemma saved_ok s : regs_ok s -> regs_ok (saved s).
Proof. intros. unfold saved. auto using setr_ok. Qed.

Lemma saved_getr k s :
  regs_ok s -> 0 <= k ->
  getr k (saved s) =
    if k =? SH4_REG_SGR then getr SH4_REG_R15 s
    else if k =? SH4_REG_SSR then getr SH4_REG_SR s
    else if k =? SH4_REG_SPC then getr SH4_REG_PC s
    else getr k s.
Proof.
  intros Hok Hk. unfold saved.
  assert (Hu : forall j, u32 (getr j s) = getr j s) by (intros; by apply wrap_small, getr_range).
  destruct (Z.eqb_spec k SH4_REG_SGR) as [->|].
  { rewrite getr_setr_eq by (auto using setr_ok || done). by rewrite !getr_setr_ne, Hu. }
  rewrite getr_setr_ne by done. destruct (Z.eqb_spec k SH4_REG_SSR) as [->|].
  { rewrite getr_setr_eq by (auto using setr_ok || done). by rewrite !getr_setr_ne, Hu. }
  rewrite getr_setr_ne by done. destruct (Z.eqb_spec k SH4_REG_SPC) as [->|].
  { by rewrite getr_setr_eq, Hu. }
  by apply getr_setr_ne.
Qed.

Lemma enter_exception_steps v s s' :
  sh4_enter_exception v s = Ok (tt, s') ->
  exists meta s4, List.find (fun m => meta_code m =? v) sh4_excp_meta = Some meta /\
    sh4_set_individual_reg SH4_REG_SR (excp_sr (getr SH4_REG_SR (saved s))) (saved s) =
      Ok (tt, s4) /\
    s' = setr SH4_REG_PC (if (v =? SH4_EXCP_POWER_ON_RESET) || (v =? SH4_EXCP_MANUAL_RESET) ||
                             (v =? SH4_EXCP_INST_TLB_MULT_HIT)
                          then 0xa0000000 else getr SH4_REG_VBR s4 + offset meta) s4.
Proof.
  unfold sh4_enter_exception. destruct (List.find _ _) as [meta|]; [|done]. intros Hs.
  exists meta. cbv [reg_get reg_set gets modify bind] in Hs.
  change (setr SH4_REG_SGR _ _) with (saved s) in Hs.
  fold (excp_sr (getr SH4_REG_SR (saved s))) in Hs.
  change (sh4_on_sr_change (getr SH4_REG_SR (saved s))
    (setr SH4_REG_SR (excp_sr (getr SH4_REG_SR (saved s))) (saved s)))
    with (sh4_set_individual_reg SH4_REG_SR (excp_sr (getr SH4_REG_SR (saved s))) (saved s))
    in Hs.
  destruct (sh4_set_individual_reg _ _ _) as [[[] s4]|]; [|done].
  exists s4. split; [done|]. split; [done|].
  change SH4_EXCP_HUDI_RESET with SH4_EXCP_POWER_ON_RESET in Hs.
  destruct (v =? SH4_EXCP_POWER_ON_RESET), (v =? SH4_EXCP_MANUAL_RESET),
    (v =? SH4_EXCP_INST_TLB_MULT_HIT),
    ((v =? SH4_EXCP_USER_BREAK_BEFORE) || (v =? SH4_EXCP_USER_BREAK_AFTER));
    cbn [orb] in Hs |- *; by injection Hs as <-.
Qed.

Lemma enter_exception_spec v s s' :
  regs_ok s -> sh4_enter_exception v s = Ok (tt, s') ->
  exists meta, List.find (fun m => meta_code m =? v) sh4_excp_meta = Some meta /\
    regs_ok s' /\
    getr SH4_REG_SPC s' = getr SH4_REG_PC s /\
    getr SH4_REG_SSR s' = getr SH4_REG_SR s /\
    getr SH4_REG_SGR s' = getr SH4_REG_R15 s /\
    getr SH4_REG_SR s' = excp_sr (getr SH4_REG_SR s) /\
    getr SH4_REG_PC s' = excp_target v meta s /\
    (forall n, 0 <= n < 8 ->
       getr (sh4_bank0_reg_idx s' n) s' = getr (sh4_bank0_reg_idx s n) s /\
       getr (sh4_bank1_reg_idx s' n) s' = getr (sh4_bank1_reg_idx s n) s) /\
    (forall k, 8 <= k < 16 \/ 24 <= k ->
       ~ In k [SH4_REG_SPC; SH4_REG_SSR; SH4_REG_SGR; SH4_REG_SR; SH4_REG_PC] ->
       getr k s' = getr k s).
Proof.
  intros Hok Hs. destruct (enter_exception_steps v s s' Hs) as (meta & s4 & Hf & H4 & ->).
  exists meta. split; [done|]. pose proof (saved_ok s Hok) as Hok1.
  destruct (set_sr_spec _ _ _ Hok1 H4) as (Hok4 & Hsr & Hbank & Hoth).
  assert (Hsr0 : getr SH4_REG_SR (saved s) = getr SH4_REG_SR s) by by rewrite saved_getr.
  rewrite Hsr0, wrap_small in Hsr by by apply excp_sr_range, getr_range.
  assert (Hpc : forall k, 0 <= k -> k <> SH4_REG_PC -> forall x,
            getr k (setr SH4_REG_PC x s4) = getr k s4) by (intros; by apply getr_setr_ne).
  assert (Hk : forall k, 8 <= k < 16 \/ 24 <= k -> k <> SH4_REG_SR -> k <> SH4_REG_PC ->
            forall x, getr k (setr SH4_REG_PC x s4) = getr k (saved s))
    by (intros; rewrite Hpc by (done || lia); by apply Hoth).
  match goal with |- context [setr SH4_REG_PC ?x s4] => set (tgt := x) end.
  split; [by apply setr_ok|]. split_and!.
  - rewrite Hk, saved_getr by (done || (vm_compute; intuition congruence)). done.
  - rewrite Hk, saved_getr by (done || (vm_compute; intuition congruence)). done.
  - rewrite Hk, saved_getr by (done || (vm_compute; intuition congruence)). done.
  - by rewrite Hpc.
  - rewrite getr_setr_eq by done. unfold tgt, excp_target. destruct (_ || _); [done|].
    rewrite Hoth, saved_getr by (done || (vm_compute; intuition congruence)). done.
  - intros n Hn. destruct (Hbank n Hn) as [Hb0 Hb1].
    destruct (bank_idx_ext (setr SH4_REG_PC tgt s4) s4 n) as [-> ->];
      [by apply Hpc|].
    destruct (bank_idx_ext (saved s) s n Hsr0) as [E0 E1]. rewrite E0, E1 in *.
    destruct (bank_idx_range s4 n Hn), (bank_idx_range s n Hn).
    rewrite !Hpc, Hb0, Hb1, !saved_getr by (done || lia || (unfold SH4_REG_PC; lia)).
    split; repeat case_match; try done; unfold SH4_REG_SGR, SH4_REG_SSR, SH4_REG_SPC in *; lia.
  - intros k Hr Hin. cbn in Hin. rewrite Hk, saved_getr by (tauto || lia).
    destruct (Z.eqb_spec k SH4_REG_SGR), (Z.eqb_spec k SH4_REG_SSR),
      (Z.eqb_spec k SH4_REG_SPC); try done; subst; tauto.
Qed.

(** ** The depth of the recursion *)
Definition no_pending (i : sh4_intc) : sh4_intc :=
  {| irq_lines := irq_lines i; is_irq_pending := false; pending_irq := pending_irq i;
     refresh_intc_event_scheduled := refresh_intc_event_scheduled i |}.

Lemma refresh_blocked fuel s :
  Z.testbit (getr SH4_REG_SR s) 28 = true ->
  sh4_refresh_intc (S fuel) s = Ok (tt, with_intc (no_pending (intc s)) s).
Proof.
  intros HBL. cbn [sh4_refresh_intc].
  assert (Hn : sh4_get_next_irq_line s (pending_irq (intc s)) = Ok (-1, pending_irq (intc s))).
  { unfold sh4_get_next_irq_line. change SH4_SR_BL_MASK with (2 ^ 28).
    by rewrite truth_land_bit, HBL by lia. }
  erewrite bind_ok by (unfold refresh_pending; by rewrite Hn).
  unfold sh4_check_interrupts. erewrite bind_ok by done. cbn.
  unfold sh4_check_interrupts_no_delay_branch_check. by destruct (delayed_branch s).
Qed.

(** the interrupt is acknowledged with interrupts blocked *)
Definition acknowledge (meta : sh4_irq_meta) : M (Sh4 W) unit :=
  if is_irl meta then set_irl_lines 0xf else set_irq_line (line meta) 0.

Lemma acknowledge_ok meta s :
  exists s', acknowledge meta s = Ok (tt, s') /\ reg s' = reg s.
Proof. unfold acknowledge. destruct (is_irl meta); eexists; split; reflexivity. Qed.

Lemma enter_irq_eq fuel meta s :
  regs_ok s ->
  sh4_enter_irq_from_meta (sh4_refresh_intc (S fuel)) meta s =
  match sh4_enter_exception (code meta)
          (setr SH4_REG_INTEVT (Z.land (Z.shiftl (code meta) SH4_INTEVT_CODE_SHIFT)
                                  SH4_INTEVT_CODE_MASK) s) with
  | Ok (_, s2) =>
      match acknowledge meta s2 with
      | Ok (_, s3) =>
          Ok (tt, with_exec_state SH4_EXEC_STATE_NORM (with_intc (no_pending (intc s3)) s3))
      | Err e => Err e
      end
  | Err e => Err e
  end.
Proof.
  intros Hok. unfold sh4_enter_irq_from_meta. erewrite bind_ok by done.
  set (s1 := setr SH4_REG_INTEVT _ s). unfold bind at 1.
  destruct (sh4_enter_exception (code meta) s1) as [[[] s2]|] eqn:E; [|done].
  destruct (enter_exception_spec _ s1 s2 (setr_ok _ _ _ Hok) E)
    as (? & _ & _ & _ & _ & _ & Hsr & _).
  destruct (acknowledge_ok meta s2) as (s3 & Ha & Hr). rewrite Ha.
  assert (Hb : sh4_refresh_intc (S fuel) s3 = Ok (tt, with_intc (no_pending (intc s3)) s3)).
  { apply refresh_blocked. rewrite (getr_reg _ _ _ Hr), Hsr. apply excp_sr_bits. }
  rewrite (bind_ok _ _ _ tt (with_intc (no_pending (intc s3)) s3)); [done|].
  unfold acknowledge in Ha. destruct (is_irl meta); by erewrite bind_ok.
Qed.

Lemma enter_exception_in_fuel v s :
  (forall w, sched_refresh_intc w <> Err OUT_OF_FUEL) -> in_fuel (sh4_enter_exception v) s.
Proof.
  intros Hw. unfold sh4_enter_exception. destruct (List.find _ _); [|done].
  repeat (apply in_fuel_bind; [done|]; intros ? ? [= <- <-]).
  apply in_fuel_bind.
  - unfold sh4_on_sr_change. apply in_fuel_bind; [done|]. intros ? ? [= <- <-].
    apply in_fuel_bind; [unfold sh4_bank_switch_maybe, when; by destruct (negb _)|].
    intros ? s1 _. apply in_fuel_bind.
    + unfold when. destruct (negb _); [|done]. unfold in_fuel, sh4_refresh_intc_deferred.
      destruct (refresh_intc_event_scheduled (intc s1)); [done|].
      specialize (Hw (world s1)). cbn. destruct (sched_refresh_intc _); congruence.
    + intros ? s2 _. unfold when. by destruct (negb _).
  - intros _ s1 _. destruct (_ || _ || _ || _ || _); [done|].
    apply in_fuel_bind; [done|]. intros. by destruct (_ || _).
Qed.

(** the mutual recursion of interrupt refresh, check and entry stops: a depth of two is
    enough in every state, because the entry blocks interrupts before it refreshes again.
    More depth changes nothing, and the bound is not reached unless the scheduler fails. *)
Theorem refresh_intc_fuel (s : Sh4 W) (fuel : nat) :
  regs_ok s ->
  sh4_refresh_intc (S (S fuel)) s = sh4_refresh_intc 2 s /\
  ((forall w, sched_refresh_intc w <> Err OUT_OF_FUEL) -> in_fuel (sh4_refresh_intc 2) s).
Proof.
  intros Hok.
  assert (Hp : forall s1, refresh_pending s = Ok (tt, s1) -> regs_ok s1).
  { unfold refresh_pending. intros s1. destruct (sh4_get_next_irq_line _ _) as [[]|]; [|done].
    intros [= <-]. by destruct Hok. }
  assert (Hnf : refresh_pending s <> Err OUT_OF_FUEL).
  { unfold refresh_pending, sh4_get_next_irq_line. destruct (truth _); [done|].
    destruct (fold_left _ _ _). destruct (negb _ && negb _); [|by destruct (_ >=? 0)].
    destruct (irl_prio_code _) as [[]|]; [|done]. destruct (_ && _); [done|].
    by destruct (_ >=? 0). }
  split.
  - change (bind refresh_pending (fun _ => sh4_check_interrupts (sh4_refresh_intc (S fuel))) s =
            bind refresh_pending (fun _ => sh4_check_interrupts (sh4_refresh_intc 1)) s).
    unfold bind at 1 2. destruct (refresh_pending s) as [[[] s1]|] eqn:E; [|done].
    unfold sh4_check_interrupts. erewrite !bind_ok by done.
    destruct (delayed_branch s1); [done|]. cbn [negb when].
    unfold sh4_check_interrupts_no_delay_branch_check. erewrite !bind_ok by done.
    destruct (is_irq_pending (intc s1)); [|done]. cbn [when].
    unfold bind. by rewrite !enter_irq_eq by auto.
  - intros Hw. change (in_fuel (bind refresh_pending
      (fun _ => sh4_check_interrupts (sh4_refresh_intc 1))) s).
    apply in_fuel_bind; [done|]. intros [] s1 E. specialize (Hp s1 E).
    unfold sh4_check_interrupts. apply in_fuel_bind; [done|]. intros ? ? [= <- <-].
    unfold when. destruct (negb _); [|done].
    unfold sh4_check_interrupts_no_delay_branch_check. apply in_fuel_bind; [done|].
    intros ? ? [= <- <-]. unfold when. destruct (is_irq_pending _); [|done].
    apply in_fuel_bind; [|done]. unfold in_fuel. rewrite enter_irq_eq by done.
    pose proof (enter_exception_in_fuel (code (pending_irq (intc s1)))
      (setr SH4_REG_INTEVT (Z.land (Z.shiftl (code (pending_irq (intc s1)))
         SH4_INTEVT_CODE_SHIFT) SH4_INTEVT_CODE_MASK) s1) Hw) as Hf. unfold in_fuel in Hf.
    destruct (sh4_enter_exception _ _) as [[[] s2]|]; [|congruence].
    destruct (acknowledge_ok (pending_irq (intc s1)) s2) as (s3 & -> & _). done.
Qed.

(** C26: entering an exception saves PC, SR and R15 in SPC, SSR and SGR, blocks interrupts,
    selects privileged mode and register bank 1, jumps to the vector's offset from VBR (or to
    the reset address), keeps the contents of both register banks as software sees them, and
    changes no other register; an unknown vector is an error. *)
Theorem exception_entry (v : Z) (s : Sh4 W) :
  regs_ok s ->
  (forall s', sh4_enter_exception v s = Ok (tt, s') ->
     exists meta, List.find (fun m => meta_code m =? v) sh4_excp_meta = Some meta /\
       getr SH4_REG_SPC s' = getr SH4_REG_PC s /\
       getr SH4_REG_SSR s' = getr SH4_REG_SR s /\
       getr SH4_REG_SGR s' = getr SH4_REG_R15 s /\
       getr SH4_REG_SR s' = excp_sr (getr SH4_REG_SR s) /\
       getr SH4_REG_PC s' = excp_target v meta s /\
       (forall n, 0 <= n < 8 ->
          getr (sh4_bank0_reg_idx s' n) s' = getr (sh4_bank0_reg_idx s n) s /\
          getr (sh4_bank1_reg_idx s' n) s' = getr (sh4_bank1_reg_idx s n) s) /\
       (forall k, 8 <= k < 16 \/ 24 <= k ->
          ~ In k [SH4_REG_SPC; SH4_REG_SSR; SH4_REG_SGR; SH4_REG_SR; SH4_REG_PC] ->
          getr k s' = getr k s)) /\
  (List.find (fun m => meta_code m =? v) sh4_excp_meta = None ->
     sh4_enter_exception v s = Err ERROR_UNKNOWN_EXCP_CODE).
Proof.
  intros Hok. split.
  - intros s' Hs. destruct (enter_exception_spec v s s' Hok Hs) as (meta & ? & _ & ?). eauto.
  - intros Hf. unfold sh4_enter_exception. by rewrite Hf.
Qed.
End entry.

(** *** Witnesses: the line of timer 0 with priority 5 and the mask at 3 *)
Definition irq_cpu : Sh4 board :=
  with_intc {| irq_lines := <[Z.to_nat SH4_IRQ_TMU0 := SH4_EXCP_TMU0_TUNI0]> (replicate 16 0);
               is_irq_pending := false; pending_irq := pending_irq idle_intc;
               refresh_intc_event_scheduled := false |}
    (cpu_with [(SH4_REG_SR, 0x40000030); (SH4_REG_IPRA, 0x5000); (SH4_REG_PC, 0x8c000100);
               (SH4_REG_VBR, 0x8c000000)] ∅).

Lemma irq_cpu_ok : regs_ok irq_cpu.
Proof. apply regs_okb_sound. vm_compute. reflexivity. Qed.

Lemma next_irq_highest_witness :
  exists prio meta', sh4_get_next_irq_line irq_cpu (pending_irq idle_intc) = Ok (prio, meta') /\
    forall l, scanned irq_cpu l -> line_ready irq_cpu l -> line_prio irq_cpu l <= prio.
Proof.
  destruct (next_irq_highest irq_cpu (pending_irq idle_intc)) as (prio & meta' & H1 & H2 & _).
  - vm_compute. reflexivity.
  - exists prio, meta'. split; [exact H1|exact H2].
Defined.

Lemma refresh_intc_fuel_witness :
  sh4_refresh_intc 5 irq_cpu = sh4_refresh_intc 2 irq_cpu /\
  getr SH4_REG_PC (after (sh4_refresh_intc 2) irq_cpu) = 0x8c000600.
Proof.
  split; [|vm_compute; reflexivity].
  exact (proj1 (refresh_intc_fuel irq_cpu 3 irq_cpu_ok)).
Defined.

Lemma exception_entry_witness :
  let s' := after (sh4_enter_exception SH4_EXCP_UNCONDITIONAL_TRAP) irq_cpu in
  getr SH4_REG_SPC s' = 0x8c000100.
Proof.
  destruct (proj1 (exception_entry SH4_EXCP_UNCONDITIONAL_TRAP irq_cpu irq_cpu_ok)
    (after (sh4_enter_exception SH4_EXCP_UNCONDITIONAL_TRAP) irq_cpu)) as (meta & _ & Hspc & _).
  - vm_compute. reflexivity.
  - exact Hspc.
Defined.
