(* ===== verification/Sh4Inst.v ===== *)
(** The integer instruction handlers of the SH-4 interpreter that do not access memory
    (src/libwashdc/hw/sh4/sh4_inst.c): flags, branches, control registers, moves, ALU,
    multiplication, division steps and shifts.

    Each handler is one definition named as in the source.  [CHECK_INST] is the run-time
    check of the [INVARIANTS] build.  A comparison's result is shifted into the T bit of
    SR as in the source; SR, like every other register, is an entry of [sh4->reg]. *)
From stdpp Require Import gmap.
From S2P Require Import Prelude IntMath MemoryMap Sh4State Board Sh4Core Sh4Excp.
Import intmath.

Section sh4_inst.
Context {W : Type} `{!BuildConfig} `{!Machine W}.
Abbreviation sh4M := (M (Sh4 W)).

(** ** Operand fields *)
Definition inst_imm8 (inst : Z) : Z := Z.land inst 0xff.
Definition inst_simm8 (inst : Z) : Z := s8 (Z.land inst 0xff).
Definition inst_simm12 (inst : Z) : Z :=
  let r := s16 (Z.land inst 0xfff) in
  Z.shiftr (s16 (Z.shiftl r 4)) 4.
(** [(inst >> 8) & 0xf] and [(inst >> 4) & 0xf] *)
Definition rn (inst : Z) : Z := Z.land (Z.shiftr inst 8) 0xf.
Definition rm (inst : Z) : Z := Z.land (Z.shiftr inst 4) 0xf.

Definition CHECK_INST (inst mask val : Z) : sh4M unit :=
  when (INVARIANTS && negb (Z.land inst mask =? val)) (raise ERROR_INTEGRITY).

(** the check of the privileged instructions *)
Definition check_privileged : sh4M unit :=
  sr <- reg_get SH4_REG_SR ;;
  when (ENABLE_SH4_MMU && negb (truth (Z.land sr SH4_SR_MD_MASK)))
    (raise ERROR_UNIMPLEMENTED).

(** [sh4->reg[SH4_REG_SR] &= m] and [sh4->reg[SH4_REG_SR] |= m] *)
Definition sr_and (m : Z) : sh4M unit :=
  sr <- reg_get SH4_REG_SR ;; reg_set SH4_REG_SR (Z.land sr m).
Definition sr_or (m : Z) : sh4M unit :=
  sr <- reg_get SH4_REG_SR ;; reg_set SH4_REG_SR (Z.lor sr m).
(** [sh4->reg[SH4_REG_SR] = (sh4->reg[SH4_REG_SR] & ~T) | (flag << T_SHIFT)] *)
Definition sr_set_t (flag : Z) : sh4M unit :=
  sr <- reg_get SH4_REG_SR ;;
  reg_set SH4_REG_SR (Z.lor (Z.land sr (not32 SH4_SR_FLAG_T_MASK))
                        (Z.shiftl flag SH4_SR_FLAG_T_SHIFT)).

(** ** Instructions without operands *)
Definition sh4_inst_rts (inst : Z) : sh4M unit :=
  CHECK_INST inst 0xffff 0x000b ;;
  set_delayed_branch true ;;
  pr <- reg_get SH4_REG_PR ;;
  set_delayed_branch_addr pr.

Definition sh4_inst_clrmac (inst : Z) : sh4M unit :=
  CHECK_INST inst 0xffff 0x0028 ;;
  reg_set SH4_REG_MACH 0 ;;
  reg_set SH4_REG_MACL 0.

Definition sh4_inst_clrs (inst : Z) : sh4M unit :=
  CHECK_INST inst 0xffff 0x0048 ;;
  sr_and (not32 SH4_SR_FLAG_S_MASK).

Definition sh4_inst_clrt (inst : Z) : sh4M unit :=
  CHECK_INST inst 0xffff 0x0008 ;;
  sr_and (not32 SH4_SR_FLAG_T_MASK).

Definition sh4_inst_ldtlb (inst : Z) : sh4M unit :=
  CHECK_INST inst 0xffff 0x0038 ;;
  raise ERROR_UNIMPLEMENTED.

Definition sh4_inst_nop (inst : Z) : sh4M unit :=
  CHECK_INST inst 0xffff 0x0009.

Definition sh4_inst_rte (inst : Z) : sh4M unit :=
  CHECK_INST inst 0xffff 0x002b ;;
  set_delayed_branch true ;;
  spc <- reg_get SH4_REG_SPC ;;
  set_delayed_branch_addr spc ;;
  old_sr_val <- reg_get SH4_REG_SR ;;
  ssr <- reg_get SH4_REG_SSR ;;
  reg_set SH4_REG_SR ssr ;;
  sh4_on_sr_change old_sr_val.

Definition sh4_inst_sets (inst : Z) : sh4M unit :=
  CHECK_INST inst 0xffff 0x0058 ;;
  sr_or SH4_SR_FLAG_S_MASK.

Definition sh4_inst_sett (inst : Z) : sh4M unit :=
  CHECK_INST inst 0xffff 0x0018 ;;
  sr_or SH4_SR_FLAG_T_MASK.

Definition sh4_inst_sleep (inst : Z) : sh4M unit :=
  CHECK_INST inst 0xffff 0x001b ;;
  st <- gets exec_state ;;
  match st with
  | SH4_EXEC_STATE_NORM =>
      sr <- reg_get SH4_REG_SR ;;
      if negb (truth (Z.land sr SH4_SR_MD_MASK)) then
        sh4_set_exception SH4_EXCP_GEN_ILLEGAL_INST
      else
        stbcr <- reg_get SH4_REG_STBCR ;;
        if truth (Z.land stbcr SH4_STBCR_STBY_MASK)
        then modify (with_exec_state SH4_EXEC_STATE_STANDBY)
        else modify (with_exec_state SH4_EXEC_STATE_SLEEP)
  | _ => ret tt
  end.

Definition sh4_inst_frchg (inst : Z) : sh4M unit :=
  CHECK_INST inst 0xffff 0xfbfd ;;
  fpscr <- reg_get SH4_REG_FPSCR ;;
  reg_set SH4_REG_FPSCR (Z.lxor fpscr SH4_FPSCR_FR_MASK) ;;
  sh4_fpu_bank_switch.

Definition sh4_inst_fschg (inst : Z) : sh4M unit :=
  CHECK_INST inst 0xffff 0xf3fd ;;
  fpscr <- reg_get SH4_REG_FPSCR ;;
  reg_set SH4_REG_FPSCR (Z.lxor fpscr SH4_FPSCR_SZ_MASK).

(** ** One register operand *)
Definition sh4_inst_unary_movt_gen (inst : Z) : sh4M unit :=
  CHECK_INST inst 0xf0ff 0x0029 ;;
  let reg_no := rn inst in
  sr <- reg_get SH4_REG_SR ;;
  set_gen_reg reg_no (Z.shiftr (Z.land sr SH4_SR_FLAG_T_MASK) SH4_SR_FLAG_T_SHIFT).

Definition sh4_inst_unary_cmppz_gen (inst : Z) : sh4M unit :=
  CHECK_INST inst 0xf0ff 0x4011 ;;
  let reg_no := rn inst in
  sr_and (not32 SH4_SR_FLAG_T_MASK) ;;
  v <- gen_reg reg_no ;;
  let flag := b2z (s32 v >=? 0) in
  sr_or (Z.shiftl flag SH4_SR_FLAG_T_SHIFT).

Definition sh4_inst_unary_cmppl_gen (inst : Z) : sh4M unit :=
  CHECK_INST inst 0xf0ff 0x4015 ;;
  let reg_no := rn inst in
  sr_and (not32 SH4_SR_FLAG_T_MASK) ;;
  v <- gen_reg reg_no ;;
  let flag := b2z (s32 v >? 0) in
  sr_or (Z.shiftl flag SH4_SR_FLAG_T_SHIFT).

Definition sh4_inst_unary_dt_gen (inst : Z) : sh4M unit :=
  CHECK_INST inst 0xf0ff 0x4010 ;;
  let reg_no := rn inst in
  v <- gen_reg reg_no ;;
  set_gen_reg reg_no (v - 1) ;;
  sr_and (not32 SH4_SR_FLAG_T_MASK) ;;
  v <- gen_reg reg_no ;;
  sr_or (Z.shiftl (b2z (v =? 0)) SH4_SR_FLAG_T_SHIFT).

Definition sh4_inst_unary_rotl_gen (inst : Z) : sh4M unit :=
  CHECK_INST inst 0xf0ff 0x4004 ;;
  let reg_no := rn inst in
  val <- gen_reg reg_no ;;
  let shift_out := Z.shiftr (Z.land val 0x80000000) 31 in
  let val := Z.lor (u32 (Z.shiftl val 1)) shift_out in
  sr_set_t shift_out ;;
  set_gen_reg reg_no val.

Definition sh4_inst_unary_rotr_gen (inst : Z) : sh4M unit :=
  CHECK_INST inst 0xf0ff 0x4005 ;;
  let reg_no := rn inst in
  val <- gen_reg reg_no ;;
  let shift_out := Z.land val 1 in
  let val := Z.lor (Z.shiftr val 1) (u32 (Z.shiftl shift_out 31)) in
  sr_set_t shift_out ;;
  set_gen_reg reg_no val.

Definition sh4_inst_unary_rotcl_gen (inst : Z) : sh4M unit :=
  CHECK_INST inst 0xf0ff 0x4024 ;;
  let reg_no := rn inst in
  val <- gen_reg reg_no ;;
  let shift_out := Z.shiftr (Z.land val 0x80000000) 31 in
  sr <- reg_get SH4_REG_SR ;;
  let shift_in := Z.shiftr (Z.land sr SH4_SR_FLAG_T_MASK) SH4_SR_FLAG_T_SHIFT in
  let val := Z.lor (u32 (Z.shiftl val 1)) shift_in in
  sr_set_t shift_out ;;
  set_gen_reg reg_no val.

Definition sh4_inst_unary_rotcr_gen (inst : Z) : sh4M unit :=
  CHECK_INST inst 0xf0ff 0x4025 ;;
  let reg_no := rn inst in
  val <- gen_reg reg_no ;;
  let shift_out := Z.land val 1 in
  sr <- reg_get SH4_REG_SR ;;
  let shift_in := Z.shiftr (Z.land sr SH4_SR_FLAG_T_MASK) SH4_SR_FLAG_T_SHIFT in
  let val := Z.lor (Z.shiftr val 1) (u32 (Z.shiftl shift_in 31)) in
  sr_set_t shift_out ;;
  set_gen_reg reg_no val.

Definition sh4_inst_unary_shal_gen (inst : Z) : sh4M unit :=
  CHECK_INST inst 0xf0ff 0x4020 ;;
  let reg_no := rn inst in
  val <- gen_reg reg_no ;;
  let shift_out := Z.shiftr (Z.land val 0x80000000) 31 in
  let val := u32 (Z.shiftl val 1) in
  sr_set_t shift_out ;;
  set_gen_reg reg_no val.

Definition sh4_inst_unary_shar_gen (inst : Z) : sh4M unit :=
  CHECK_INST inst 0xf0ff 0x4021 ;;
  let reg_no := rn inst in
  v <- gen_reg reg_no ;;
  let val := s32 v in
  let shift_out := u32 (Z.land val 1) in
  let val := Z.shiftr val 1 in
  sr_set_t shift_out ;;
  set_gen_reg reg_no val.

Definition sh4_inst_unary_shll_gen (inst : Z) : sh4M unit :=
  CHECK_INST inst 0xf0ff 0x4000 ;;
  let reg_no := rn inst in
  val <- gen_reg reg_no ;;
  let shift_out := Z.shiftr (Z.land val 0x80000000) 31 in
  let val := u32 (Z.shiftl val 1) in
  sr_set_t shift_out ;;
  set_gen_reg reg_no val.

Definition sh4_inst_unary_shlr_gen (inst : Z) : sh4M unit :=
  CHECK_INST inst 0xf0ff 0x4001 ;;
  let reg_no := rn inst in
  val <- gen_reg reg_no ;;
  let shift_out := Z.land val 1 in
  let val := Z.shiftr val 1 in
  sr_set_t shift_out ;;
  set_gen_reg reg_no val.

Definition sh4_inst_unary_shll2_gen (inst : Z) : sh4M unit :=
  CHECK_INST inst 0xf0ff 0x4008 ;;
  let reg_no := rn inst in
  val <- gen_reg reg_no ;;
  set_gen_reg reg_no (u32 (Z.shiftl val 2)).

Definition sh4_inst_unary_shlr2_gen (inst : Z) : sh4M unit :=
  CHECK_INST inst 0xf0ff 0x4009 ;;
  let reg_no := rn inst in
  val <- gen_reg reg_no ;;
  set_gen_reg reg_no (Z.shiftr val 2).

Definition sh4_inst_unary_shll8_gen (inst : Z) : sh4M unit :=
  CHECK_INST inst 0xf0ff 0x4018 ;;
  let reg_no := rn inst in
  val <- gen_reg reg_no ;;
  set_gen_reg reg_no (u32 (Z.shiftl val 8)).

Definition sh4_inst_unary_shlr8_gen (inst : Z) : sh4M unit :=
  CHECK_INST inst 0xf0ff 0x4019 ;;
  let reg_no := rn inst in
  val <- gen_reg reg_no ;;
  set_gen_reg reg_no (Z.shiftr val 8).

Definition sh4_inst_unary_shll16_gen (inst : Z) : sh4M unit :=
  CHECK_INST inst 0xf0ff 0x4028 ;;
  let reg_no := rn inst in
  val <- gen_reg reg_no ;;
  set_gen_reg reg_no (u32 (Z.shiftl val 16)).

Definition sh4_inst_unary_shlr16_gen (inst : Z) : sh4M unit :=
  CHECK_INST inst 0xf0ff 0x4029 ;;
  let reg_no := rn inst in
  val <- gen_reg reg_no ;;
  set_gen_reg reg_no (Z.shiftr val 16).

(** ** Branches *)
Definition sh4_inst_unary_braf_gen (inst : Z) : sh4M unit :=
  CHECK_INST inst 0xf0ff 0x0023 ;;
  let reg_no := rn inst in
  set_delayed_branch true ;;
  pc <- reg_get SH4_REG_PC ;;
  v <- gen_reg reg_no ;;
  set_delayed_branch_addr (pc + v + 4).

Definition sh4_inst_unary_bsrf_gen (inst : Z) : sh4M unit :=
  CHECK_INST inst 0xf0ff 0x0003 ;;
  let reg_no := rn inst in
  set_delayed_branch true ;;
  pc <- reg_get SH4_REG_PC ;;
  reg_set SH4_REG_PR (pc + 4) ;;
  pc <- reg_get SH4_REG_PC ;;
  v <- gen_reg reg_no ;;
  set_delayed_branch_addr (pc + v + 4).

Definition sh4_inst_unary_bf_disp (inst : Z) : sh4M unit :=
  CHECK_INST inst 0xff00 0x8b00 ;;
  sr <- reg_get SH4_REG_SR ;;
  when (negb (truth (Z.land sr SH4_SR_FLAG_T_MASK)))
    (pc <- reg_get SH4_REG_PC ;;
     reg_set SH4_REG_PC (pc + (Z.shiftl (inst_simm8 inst) 1 + (4 - 2)))).

Definition sh4_inst_unary_bfs_disp (inst : Z) : sh4M unit :=
  CHECK_INST inst 0xff00 0x8f00 ;;
  sr <- reg_get SH4_REG_SR ;;
  when (negb (truth (Z.land sr SH4_SR_FLAG_T_MASK)))
    (pc <- reg_get SH4_REG_PC ;;
     set_delayed_branch_addr (pc + Z.shiftl (inst_simm8 inst) 1 + 4) ;;
     set_delayed_branch true).

Definition sh4_inst_unary_bt_disp (inst : Z) : sh4M unit :=
  CHECK_INST inst 0xff00 0x8900 ;;
  sr <- reg_get SH4_REG_SR ;;
  when (truth (Z.land sr SH4_SR_FLAG_T_MASK))
    (pc <- reg_get SH4_REG_PC ;;
     reg_set SH4_REG_PC (pc + (Z.shiftl (inst_simm8 inst) 1 + (4 - 2)))).

Definition sh4_inst_unary_bts_disp (inst : Z) : sh4M unit :=
  CHECK_INST inst 0xff00 0x8d00 ;;
  sr <- reg_get SH4_REG_SR ;;
  when (truth (Z.land sr SH4_SR_FLAG_T_MASK))
    (pc <- reg_get SH4_REG_PC ;;
     set_delayed_branch_addr (pc + Z.shiftl (inst_simm8 inst) 1 + 4) ;;
     set_delayed_branch true).

Definition sh4_inst_unary_bra_disp (inst : Z) : sh4M unit :=
  CHECK_INST inst 0xf000 0xa000 ;;
  set_delayed_branch true ;;
  pc <- reg_get SH4_REG_PC ;;
  set_delayed_branch_addr (pc + Z.shiftl (inst_simm12 inst) 1 + 4).

Definition sh4_inst_unary_bsr_disp (inst : Z) : sh4M unit :=
  CHECK_INST inst 0xf000 0xb000 ;;
  pc <- reg_get SH4_REG_PC ;;
  reg_set SH4_REG_PR (pc + 4) ;;
  pc <- reg_get SH4_REG_PC ;;
  set_delayed_branch_addr (pc + Z.shiftl (inst_simm12 inst) 1 + 4) ;;
  set_delayed_branch true.

Definition sh4_inst_unary_trapa_disp (inst : Z) : sh4M unit :=
  CHECK_INST inst 0xff00 0xc300 ;;
  w <- gets world ;;
  if ENABLE_DEBUGGER && dc_debugger_enabled w then
    pc <- reg_get SH4_REG_PC ;;
    debug_on_softbreak inst pc
  else raise ERROR_UNIMPLEMENTED.

Definition sh4_inst_unary_ocbi_indgen (inst : Z) : sh4M unit :=
  CHECK_INST inst 0xf0ff 0x0093.
Definition sh4_inst_unary_ocbp_indgen (inst : Z) : sh4M unit :=
  CHECK_INST inst 0xf0ff 0x00a3.
Definition sh4_inst_unary_ocbwb_indgen (inst : Z) : sh4M unit :=
  CHECK_INST inst 0xf0ff 0x00b3.

Definition sh4_inst_unary_pref_indgen (inst : Z) : sh4M unit :=
  CHECK_INST inst 0xf0ff 0x0083 ;;
  let reg_no := rn inst in
  addr <- gen_reg reg_no ;;
  when (Z.land addr SH4_SQ_AREA_MASK =? SH4_SQ_AREA_VAL) (sh4_sq_pref addr).

Definition sh4_inst_unary_jmp_indgen (inst : Z) : sh4M unit :=
  CHECK_INST inst 0xf0ff 0x402b ;;
  v <- gen_reg (rn inst) ;;
  set_delayed_branch_addr v ;;
  set_delayed_branch true.

Definition sh4_inst_unary_jsr_indgen (inst : Z) : sh4M unit :=
  CHECK_INST inst 0xf0ff 0x400b ;;
  pc <- reg_get SH4_REG_PC ;;
  reg_set SH4_REG_PR (pc + 4) ;;
  v <- gen_reg (rn inst) ;;
  set_delayed_branch_addr v ;;
  set_delayed_branch true.

(** ** Immediate operands on R0 *)
Definition sh4_inst_binary_cmpeq_imm_r0 (inst : Z) : sh4M unit :=
  CHECK_INST inst 0xff00 0x8800 ;;
  let imm8 := inst_simm8 inst in
  let imm_val := u32 imm8 in
  sr_and (not32 SH4_SR_FLAG_T_MASK) ;;
  r0 <- gen_reg 0 ;;
  sr_or (Z.shiftl (b2z (r0 =? imm_val)) SH4_SR_FLAG_T_SHIFT).

Definition sh4_inst_binary_and_imm_r0 (inst : Z) : sh4M unit :=
  CHECK_INST inst 0xff00 0xc900 ;;
  r0 <- gen_reg 0 ;; set_gen_reg 0 (Z.land r0 (inst_imm8 inst)).

Definition sh4_inst_binary_or_imm_r0 (inst : Z) : sh4M unit :=
  CHECK_INST inst 0xff00 0xcb00 ;;
  r0 <- gen_reg 0 ;; set_gen_reg 0 (Z.lor r0 (inst_imm8 inst)).

Definition sh4_inst_binary_tst_imm_r0 (inst : Z) : sh4M unit :=
  CHECK_INST inst 0xff00 0xc800 ;;
  sr_and (not32 SH4_SR_FLAG_T_MASK) ;;
  r0 <- gen_reg 0 ;;
  let flag := Z.shiftl (b2z (Z.land (inst_imm8 inst) r0 =? 0)) SH4_SR_FLAG_T_SHIFT in
  sr_or flag.

Definition sh4_inst_binary_xor_imm_r0 (inst : Z) : sh4M unit :=
  CHECK_INST inst 0xff00 0xca00 ;;
  r0 <- gen_reg 0 ;; set_gen_reg 0 (Z.lxor r0 (inst_imm8 inst)).

(** ** Control and system registers *)
Definition sh4_inst_binary_ldc_gen_sr (inst : Z) : sh4M unit :=
  CHECK_INST inst 0xf0ff 0x400e ;;
  check_privileged ;;
  old_sr <- reg_get SH4_REG_SR ;;
  v <- gen_reg (rn inst) ;;
  reg_set SH4_REG_SR v ;;
  sh4_on_sr_change old_sr.

Definition sh4_inst_binary_ldc_gen_gbr (inst : Z) : sh4M unit :=
  CHECK_INST inst 0xf0ff 0x401e ;;
  v <- gen_reg (rn inst) ;; reg_set SH4_REG_GBR v.
Definition sh4_inst_binary_ldc_gen_vbr (inst : Z) : sh4M unit :=
  CHECK_INST inst 0xf0ff 0x402e ;;
  check_privileged ;;
  v <- gen_reg (rn inst) ;; reg_set SH4_REG_VBR v.
Definition sh4_inst_binary_ldc_gen_ssr (inst : Z) : sh4M unit :=
  CHECK_INST inst 0xf0ff 0x403e ;;
  check_privileged ;;
  v <- gen_reg (rn inst) ;; reg_set SH4_REG_SSR v.
Definition sh4_inst_binary_ldc_gen_spc (inst : Z) : sh4M unit :=
  CHECK_INST inst 0xf0ff 0x404e ;;
  check_privileged ;;
  v <- gen_reg (rn inst) ;; reg_set SH4_REG_SPC v.
Definition sh4_inst_binary_ldc_gen_dbr (inst : Z) : sh4M unit :=
  CHECK_INST inst 0xf0ff 0x40fa ;;
  check_privileged ;;
  v <- gen_reg (rn inst) ;; reg_set SH4_REG_DBR v.

Definition sh4_inst_binary_stc_sr_gen (inst : Z) : sh4M unit :=
  CHECK_INST inst 0xf0ff 0x0002 ;;
  check_privileged ;;
  v <- reg_get SH4_REG_SR ;; set_gen_reg (rn inst) v.
Definition sh4_inst_binary_stc_gbr_gen (inst : Z) : sh4M unit :=
  CHECK_INST inst 0xf0ff 0x0012 ;;
  v <- reg_get SH4_REG_GBR ;; set_gen_reg (rn inst) v.
Definition sh4_inst_binary_stc_vbr_gen (inst : Z) : sh4M unit :=
  CHECK_INST inst 0xf0ff 0x0022 ;;
  check_privileged ;;
  v <- reg_get SH4_REG_VBR ;; set_gen_reg (rn inst) v.
Definition sh4_inst_binary_stc_ssr_gen (inst : Z) : sh4M unit :=
  CHECK_INST inst 0xf0ff 0x0032 ;;
  check_privileged ;;
  v <- reg_get SH4_REG_SSR ;; set_gen_reg (rn inst) v.
Definition sh4_inst_binary_stc_spc_gen (inst : Z) : sh4M unit :=
  CHECK_INST inst 0xf0ff 0x0042 ;;
  check_privileged ;;
  v <- reg_get SH4_REG_SPC ;; set_gen_reg (rn inst) v.
Definition sh4_inst_binary_stc_sgr_gen (inst : Z) : sh4M unit :=
  CHECK_INST inst 0xf0ff 0x003a ;;
  check_privileged ;;
  v <- reg_get SH4_REG_SGR ;; set_gen_reg (rn inst) v.
Definition sh4_inst_binary_stc_dbr_gen (inst : Z) : sh4M unit :=
  CHECK_INST inst 0xf0ff 0x00fa ;;
  check_privileged ;;
  v <- reg_get SH4_REG_DBR ;; set_gen_reg (rn inst) v.

Definition sh4_inst_binary_ldc_gen_bank (inst : Z) : sh4M unit :=
  CHECK_INST inst 0xf08f 0x408e ;;
  check_privileged ;;
  v <- gen_reg (rn inst) ;;
  set_bank_reg (Z.land (Z.shiftr inst 4) 0x7) v.
Definition sh4_inst_binary_stc_bank_gen (inst : Z) : sh4M unit :=
  CHECK_INST inst 0xf08f 0x0082 ;;
  check_privileged ;;
  v <- bank_reg (Z.land (Z.shiftr inst 4) 0x7) ;;
  set_gen_reg (rn inst) v.

Definition sh4_inst_binary_lds_gen_mach (inst : Z) : sh4M unit :=
  CHECK_INST inst 0xf0ff 0x400a ;;
  v <- gen_reg (rn inst) ;; reg_set SH4_REG_MACH v.
Definition sh4_inst_binary_lds_gen_macl (inst : Z) : sh4M unit :=
  CHECK_INST inst 0xf0ff 0x401a ;;
  v <- gen_reg (rn inst) ;; reg_set SH4_REG_MACL v.
Definition sh4_inst_binary_sts_mach_gen (inst : Z) : sh4M unit :=
  CHECK_INST inst 0xf0ff 0x000a ;;
  v <- reg_get SH4_REG_MACH ;; set_gen_reg (rn inst) v.
Definition sh4_inst_binary_sts_macl_gen (inst : Z) : sh4M unit :=
  CHECK_INST inst 0xf0ff 0x001a ;;
  v <- reg_get SH4_REG_MACL ;; set_gen_reg (rn inst) v.
Definition sh4_inst_binary_lds_gen_pr (inst : Z) : sh4M unit :=
  CHECK_INST inst 0xf0ff 0x402a ;;
  v <- gen_reg (rn inst) ;; reg_set SH4_REG_PR v.
Definition sh4_inst_binary_sts_pr_gen (inst : Z) : sh4M unit :=
  CHECK_INST inst 0xf0ff 0x002a ;;
  v <- reg_get SH4_REG_PR ;; set_gen_reg (rn inst) v.

(** ** Moves and arithmetic *)
Definition sh4_inst_binary_mov_imm_gen (inst : Z) : sh4M unit :=
  CHECK_INST inst 0xf000 0xe000 ;;
  set_gen_reg (rn inst) (s8 (inst_imm8 inst)).

Definition sh4_inst_binary_add_imm_gen (inst : Z) : sh4M unit :=
  CHECK_INST inst 0xf000 0x7000 ;;
  v <- gen_reg (rn inst) ;;
  set_gen_reg (rn inst) (v + s8 (inst_imm8 inst)).

Definition sh4_inst_binary_mov_gen_gen (inst : Z) : sh4M unit :=
  CHECK_INST inst 0xf00f 0x6003 ;;
  v <- gen_reg (rm inst) ;; set_gen_reg (rn inst) v.

Definition sh4_inst_binary_swapb_gen_gen (inst : Z) : sh4M unit :=
  CHECK_INST inst 0xf00f 0x6008 ;;
  val_src <- gen_reg (rm inst) ;;
  let byte0 := Z.land val_src 0x00ff in
  let byte1 := Z.shiftr (Z.land val_src 0xff00) 8 in
  let val_src := Z.land val_src (not32 0xffff) in
  let val_src := Z.lor val_src (Z.lor byte1 (u32 (Z.shiftl byte0 8))) in
  set_gen_reg (rn inst) val_src.

Definition sh4_inst_binary_swapw_gen_gen (inst : Z) : sh4M unit :=
  CHECK_INST inst 0xf00f 0x6009 ;;
  val_src <- gen_reg (rm inst) ;;
  let word0 := Z.land val_src 0xffff in
  let word1 := Z.shiftr val_src 16 in
  let val_src := Z.lor word1 (u32 (Z.shiftl word0 16)) in
  set_gen_reg (rn inst) val_src.

Definition sh4_inst_binary_xtrct_gen_gen (inst : Z) : sh4M unit :=
  CHECK_INST inst 0xf00f 0x200d ;;
  dst <- gen_reg (rn inst) ;;
  src <- gen_reg (rm inst) ;;
  set_gen_reg (rn inst)
    (Z.lor (Z.shiftr (Z.land dst 0xffff0000) 16)
           (u32 (Z.shiftl (Z.land src 0x0000ffff) 16))).

Definition sh4_inst_binary_add_gen_gen (inst : Z) : sh4M unit :=
  CHECK_INST inst 0xf00f 0x300c ;;
  src <- gen_reg (rm inst) ;; dst <- gen_reg (rn inst) ;;
  set_gen_reg (rn inst) (dst + src).

Definition sh4_inst_binary_addc_gen_gen (inst : Z) : sh4M unit :=
  CHECK_INST inst 0xf00f 0x300e ;;
  sr <- reg_get SH4_REG_SR ;;
  let carry_in := truth (Z.land sr SH4_SR_FLAG_T_MASK) in
  src <- gen_reg (rm inst) ;; dst <- gen_reg (rn inst) ;;
  let '(r, carry_out, _) := add_flags src dst carry_in in
  set_gen_reg (rn inst) r ;;
  if carry_out then sr_or SH4_SR_FLAG_T_MASK else sr_and (not32 SH4_SR_FLAG_T_MASK).

Definition sh4_inst_binary_addv_gen_gen (inst : Z) : sh4M unit :=
  CHECK_INST inst 0xf00f 0x300f ;;
  src <- gen_reg (rm inst) ;; dst <- gen_reg (rn inst) ;;
  let '(r, _, overflow) := add_flags src dst false in
  set_gen_reg (rn inst) r ;;
  if overflow then sr_or SH4_SR_FLAG_T_MASK else sr_and (not32 SH4_SR_FLAG_T_MASK).

Definition sh4_inst_binary_cmpeq_gen_gen (inst : Z) : sh4M unit :=
  CHECK_INST inst 0xf00f 0x3000 ;;
  sr_and (not32 SH4_SR_FLAG_T_MASK) ;;
  src <- gen_reg (rm inst) ;; dst <- gen_reg (rn inst) ;;
  sr_or (Z.shiftl (b2z (src =? dst)) SH4_SR_FLAG_T_SHIFT).

Definition sh4_inst_binary_cmphs_gen_gen (inst : Z) : sh4M unit :=
  CHECK_INST inst 0xf00f 0x3002 ;;
  sr_and (not32 SH4_SR_FLAG_T_MASK) ;;
  lhs <- gen_reg (rn inst) ;; rhs <- gen_reg (rm inst) ;;
  sr_or (Z.shiftl (b2z (lhs >=? rhs)) SH4_SR_FLAG_T_SHIFT).

Definition sh4_inst_binary_cmpge_gen_gen (inst : Z) : sh4M unit :=
  CHECK_INST inst 0xf00f 0x3003 ;;
  sr_and (not32 SH4_SR_FLAG_T_MASK) ;;
  lhs <- gen_reg (rn inst) ;; rhs <- gen_reg (rm inst) ;;
  sr_or (Z.shiftl (b2z (s32 lhs >=? s32 rhs)) SH4_SR_FLAG_T_SHIFT).

Definition sh4_inst_binary_cmphi_gen_gen (inst : Z) : sh4M unit :=
  CHECK_INST inst 0xf00f 0x3006 ;;
  sr_and (not32 SH4_SR_FLAG_T_MASK) ;;
  lhs <- gen_reg (rn inst) ;; rhs <- gen_reg (rm inst) ;;
  sr_or (Z.shiftl (b2z (lhs >? rhs)) SH4_SR_FLAG_T_SHIFT).

Definition sh4_inst_binary_cmpgt_gen_gen (inst : Z) : sh4M unit :=
  CHECK_INST inst 0xf00f 0x3007 ;;
  sr_and (not32 SH4_SR_FLAG_T_MASK) ;;
  lhs <- gen_reg (rn inst) ;; rhs <- gen_reg (rm inst) ;;
  sr_or (Z.shiftl (b2z (s32 lhs >? s32 rhs)) SH4_SR_FLAG_T_SHIFT).

Definition sh4_inst_binary_cmpstr_gen_gen (inst : Z) : sh4M unit :=
  CHECK_INST inst 0xf00f 0x200c ;;
  lhs <- gen_reg (rn inst) ;; rhs <- gen_reg (rm inst) ;;
  let flag := b2z ((Z.land lhs 0x000000ff =? Z.land rhs 0x000000ff) ||
                   (Z.land lhs 0x0000ff00 =? Z.land rhs 0x0000ff00) ||
                   (Z.land lhs 0x00ff0000 =? Z.land rhs 0x00ff0000) ||
                   (Z.land lhs 0xff000000 =? Z.land rhs 0xff000000)) in
  sr_and (not32 SH4_SR_FLAG_T_MASK) ;;
  sr_or (Z.shiftl flag SH4_SR_FLAG_T_SHIFT).

(** The new dividend and carry of [DIV1]: the four cases of the source. *)
Definition div1_step (q_flag m_flag carry_flag : bool) (dividend divisor : Z) : Z * bool :=
  let dividend_orig := dividend in
  if q_flag then
    if m_flag then
      let dividend := u32 (dividend - divisor) in
      let sub_carry := dividend >? dividend_orig in
      (dividend, if carry_flag then sub_carry else negb sub_carry)
    else
      let dividend := u32 (dividend + divisor) in
      let add_carry := dividend <? dividend_orig in
      (dividend, if carry_flag then negb add_carry else add_carry)
  else
    if m_flag then
      let dividend := u32 (dividend + divisor) in
      let add_carry := dividend <? dividend_orig in
      (dividend, if carry_flag then add_carry else negb add_carry)
    else
      let dividend := u32 (dividend - divisor) in
      let sub_carry := dividend >? dividend_orig in
      (dividend, if carry_flag then negb sub_carry else sub_carry).

Definition sh4_inst_binary_div1_gen_gen (inst : Z) : sh4M unit :=
  CHECK_INST inst 0xf00f 0x3004 ;;
  dividend <- gen_reg (rn inst) ;;
  divisor <- gen_reg (rm inst) ;;
  let carry_flag := Z.land dividend 0x80000000 in
  sr <- reg_get SH4_REG_SR ;;
  let t_flag := Z.shiftr (Z.land sr SH4_SR_FLAG_T_MASK) SH4_SR_FLAG_T_SHIFT in
  let q_flag := Z.shiftr (Z.land sr SH4_SR_Q_MASK) SH4_SR_Q_SHIFT in
  let m_flag := Z.shiftr (Z.land sr SH4_SR_M_MASK) SH4_SR_M_SHIFT in
  let dividend := Z.lor (u32 (Z.shiftl dividend 1)) t_flag in
  let '(dividend, carry) :=
    div1_step (truth q_flag) (truth m_flag) (truth carry_flag) dividend divisor in
  let q_flag := b2z carry in
  let t_flag := b2z (q_flag =? m_flag) in
  sr_and (not32 (Z.lor SH4_SR_Q_MASK SH4_SR_FLAG_T_MASK)) ;;
  sr_or (Z.lor (Z.shiftl t_flag SH4_SR_FLAG_T_SHIFT) (Z.shiftl q_flag SH4_SR_Q_SHIFT)) ;;
  set_gen_reg (rn inst) dividend.

Definition sh4_inst_binary_div0s_gen_gen (inst : Z) : sh4M unit :=
  CHECK_INST inst 0xf00f 0x2007 ;;
  divisor <- gen_reg (rn inst) ;;
  dividend <- gen_reg (rm inst) ;;
  let new_q := Z.shiftr (Z.land divisor 0x80000000) 31 in
  let new_m := Z.shiftr (Z.land dividend 0x80000000) 31 in
  let new_t := Z.lxor new_q new_m in
  sr <- reg_get SH4_REG_SR ;;
  reg_set SH4_REG_SR (Z.lor (Z.land sr (not32 SH4_SR_Q_MASK))
                        (Z.shiftl new_q SH4_SR_Q_SHIFT)) ;;
  sr <- reg_get SH4_REG_SR ;;
  reg_set SH4_REG_SR (Z.lor (Z.land sr (not32 SH4_SR_M_MASK))
                        (Z.shiftl new_m SH4_SR_M_SHIFT)) ;;
  sr_set_t new_t.

Definition sh4_inst_noarg_div0u (inst : Z) : sh4M unit :=
  CHECK_INST inst 0xffff 0x0019 ;;
  sr_and (not32 (Z.lor (Z.lor SH4_SR_M_MASK SH4_SR_Q_MASK) SH4_SR_FLAG_T_MASK)).

Definition sh4_inst_binary_dmulsl_gen_gen (inst : Z) : sh4M unit :=
  CHECK_INST inst 0xf00f 0x300d ;;
  v1 <- gen_reg (rn inst) ;; v2 <- gen_reg (rm inst) ;;
  let r := s64 (s32 v1 * s32 v2) in
  reg_set SH4_REG_MACH (Z.shiftr (u64 r) 32) ;;
  reg_set SH4_REG_MACL (Z.land (u64 r) 0xffffffff).

Definition sh4_inst_binary_dmulul_gen_gen (inst : Z) : sh4M unit :=
  CHECK_INST inst 0xf00f 0x3005 ;;
  v1 <- gen_reg (rn inst) ;; v2 <- gen_reg (rm inst) ;;
  let r := u64 (v1 * v2) in
  reg_set SH4_REG_MACH (Z.shiftr r 32) ;;
  reg_set SH4_REG_MACL (Z.land r 0xffffffff).

Definition sh4_inst_binary_extsb_gen_gen (inst : Z) : sh4M unit :=
  CHECK_INST inst 0xf00f 0x600e ;;
  v <- gen_reg (rm inst) ;; set_gen_reg (rn inst) (s8 (Z.land v 0xff)).
Definition sh4_inst_binary_extsw_gen_gen (inst : Z) : sh4M unit :=
  CHECK_INST inst 0xf00f 0x600f ;;
  v <- gen_reg (rm inst) ;; set_gen_reg (rn inst) (s16 (Z.land v 0xffff)).
Definition sh4_inst_binary_extub_gen_gen (inst : Z) : sh4M unit :=
  CHECK_INST inst 0xf00f 0x600c ;;
  v <- gen_reg (rm inst) ;; set_gen_reg (rn inst) (Z.land v 0xff).
Definition sh4_inst_binary_extuw_gen_gen (inst : Z) : sh4M unit :=
  CHECK_INST inst 0xf00f 0x600d ;;
  v <- gen_reg (rm inst) ;; set_gen_reg (rn inst) (Z.land v 0xffff).

Definition sh4_inst_binary_mull_gen_gen (inst : Z) : sh4M unit :=
  CHECK_INST inst 0xf00f 0x0007 ;;
  a <- gen_reg (rn inst) ;; b <- gen_reg (rm inst) ;;
  reg_set SH4_REG_MACL (a * b).
Definition sh4_inst_binary_mulsw_gen_gen (inst : Z) : sh4M unit :=
  CHECK_INST inst 0xf00f 0x200f ;;
  lhs <- gen_reg (rn inst) ;; rhs <- gen_reg (rm inst) ;;
  reg_set SH4_REG_MACL (s32 (s16 lhs * s16 rhs)).
Definition sh4_inst_binary_muluw_gen_gen (inst : Z) : sh4M unit :=
  CHECK_INST inst 0xf00f 0x200e ;;
  lhs <- gen_reg (rn inst) ;; rhs <- gen_reg (rm inst) ;;
  reg_set SH4_REG_MACL (u32 (u16 lhs * u16 rhs)).

Definition sh4_inst_binary_neg_gen_gen (inst : Z) : sh4M unit :=
  CHECK_INST inst 0xf00f 0x600b ;;
  v <- gen_reg (rm inst) ;; set_gen_reg (rn inst) (- v).

Definition sh4_inst_binary_negc_gen_gen (inst : Z) : sh4M unit :=
  CHECK_INST inst 0xf00f 0x600a ;;
  v <- gen_reg (rm inst) ;;
  let src := s32 v in
  sr <- reg_get SH4_REG_SR ;;
  let flag_t_in := Z.shiftr (Z.land sr SH4_SR_FLAG_T_MASK) SH4_SR_FLAG_T_SHIFT in
  let tmp := u32 (- src) in
  let dst := u32 (tmp - flag_t_in) in
  let flag_t_out := b2z (truth tmp || (dst >? tmp)) in
  sr_or (Z.shiftl flag_t_out SH4_SR_FLAG_T_SHIFT) ;;
  set_gen_reg (rn inst) dst.

Definition sh4_inst_binary_sub_gen_gen (inst : Z) : sh4M unit :=
  CHECK_INST inst 0xf00f 0x3008 ;;
  src <- gen_reg (rm inst) ;; dst <- gen_reg (rn inst) ;;
  set_gen_reg (rn inst) (dst - src).

Definition sh4_inst_binary_subc_gen_gen (inst : Z) : sh4M unit :=
  CHECK_INST inst 0xf00f 0x300a ;;
  sr <- reg_get SH4_REG_SR ;;
  let carry_in := truth (Z.land sr SH4_SR_FLAG_T_MASK) in
  src <- gen_reg (rm inst) ;; dst <- gen_reg (rn inst) ;;
  let '(r, carry_bit, _) := sub_flags (s32 src) (s32 dst) carry_in in
  set_gen_reg (rn inst) r ;;
  if carry_bit then sr_or SH4_SR_FLAG_T_MASK else sr_and (not32 SH4_SR_FLAG_T_MASK).

Definition sh4_inst_binary_subv_gen_gen (inst : Z) : sh4M unit :=
  CHECK_INST inst 0xf00f 0x300b ;;
  src <- gen_reg (rm inst) ;; dst <- gen_reg (rn inst) ;;
  let '(r, _, overflow_bit) := sub_flags (s32 src) (s32 dst) false in
  set_gen_reg (rn inst) r ;;
  if overflow_bit then sr_or SH4_SR_FLAG_T_MASK else sr_and (not32 SH4_SR_FLAG_T_MASK).

Definition sh4_inst_binary_and_gen_gen (inst : Z) : sh4M unit :=
  CHECK_INST inst 0xf00f 0x2009 ;;
  src <- gen_reg (rm inst) ;; dst <- gen_reg (rn inst) ;;
  set_gen_reg (rn inst) (Z.land dst src).
Definition sh4_inst_binary_not_gen_gen (inst : Z) : sh4M unit :=
  CHECK_INST inst 0xf00f 0x6007 ;;
  v <- gen_reg (rm inst) ;; set_gen_reg (rn inst) (not32 v).
Definition sh4_inst_binary_or_gen_gen (inst : Z) : sh4M unit :=
  CHECK_INST inst 0xf00f 0x200b ;;
  src <- gen_reg (rm inst) ;; dst <- gen_reg (rn inst) ;;
  set_gen_reg (rn inst) (Z.lor dst src).
Definition sh4_inst_binary_tst_gen_gen (inst : Z) : sh4M unit :=
  CHECK_INST inst 0xf00f 0x2008 ;;
  sr_and (not32 SH4_SR_FLAG_T_MASK) ;;
  src <- gen_reg (rm inst) ;; dst <- gen_reg (rn inst) ;;
  let flag := Z.shiftl (b2z (Z.land src dst =? 0)) SH4_SR_FLAG_T_SHIFT in
  sr_or flag.
Definition sh4_inst_binary_xor_gen_gen (inst : Z) : sh4M unit :=
  CHECK_INST inst 0xf00f 0x200a ;;
  src <- gen_reg (rm inst) ;; dst <- gen_reg (rn inst) ;;
  set_gen_reg (rn inst) (Z.lxor dst src).

(** Dynamic shifts: the C shift by 32 or more is undefined. *)
Definition shift_amt {A} (n : Z) (m : sh4M A) : sh4M A :=
  if (0 <=? n) && (n <? 32) then m else raise C_UNDEFINED.

Definition sh4_inst_binary_shad_gen_gen (inst : Z) : sh4M unit :=
  CHECK_INST inst 0xf00f 0x400c ;;
  srcv <- gen_reg (rm inst) ;;
  dstv <- gen_reg (rn inst) ;;
  let src := s32 srcv in
  let dst := s32 dstv in
  if src >=? 0 then
    shift_amt src (set_gen_reg (rn inst) (s32 (Z.shiftl dst src)))
  else
    shift_amt (s32 (- src)) (set_gen_reg (rn inst) (Z.shiftr dst (s32 (- src)))).

Definition sh4_inst_binary_shld_gen_gen (inst : Z) : sh4M unit :=
  CHECK_INST inst 0xf00f 0x400d ;;
  srcv <- gen_reg (rm inst) ;;
  dstv <- gen_reg (rn inst) ;;
  let src := s32 srcv in
  let dst := u32 (s32 dstv) in
  if src >=? 0 then
    shift_amt src (set_gen_reg (rn inst) (u32 (Z.shiftl dst src)))
  else
    shift_amt (s32 (- src)) (set_gen_reg (rn inst) (Z.shiftr dst (s32 (- src)))).

Definition sh4_inst_binary_mova_binind_disp_pc_r0 (inst : Z) : sh4M unit :=
  CHECK_INST inst 0xff00 0xc700 ;;
  pc <- reg_get SH4_REG_PC ;;
  set_gen_reg 0 (u32 (Z.shiftl (inst_imm8 inst) 2) + Z.land pc (not32 3) + 4).

(** ** Floating-point status and transfer registers *)
Definition sh4_inst_binary_flds_fr_fpul (inst : Z) : sh4M unit :=
  CHECK_INST inst 0xf0ff 0xf01d ;;
  v <- reg_get (SH4_REG_FR0 + rn inst) ;; reg_set SH4_REG_FPUL v.
Definition sh4_inst_binary_fsts_fpul_fr (inst : Z) : sh4M unit :=
  CHECK_INST inst 0xf0ff 0xf00d ;;
  v <- reg_get SH4_REG_FPUL ;; reg_set (SH4_REG_FR0 + rn inst) v.
End sh4_inst.

(** ** Returning from an exception *)
Section rte.
Context {W : Type} `{!BuildConfig} `{!Machine W}.

(** C32: RTE undoes the entry into an exception: after a handler that leaves the state alone,
    SR is what it was, the delayed branch goes to the interrupted instruction, and every
    general register of both banks holds what it held. *)
Theorem rte_restores (v : Z) (s s1 s2 : Sh4 W) :
  regs_ok s -> sh4_enter_exception v s = Ok (tt, s1) -> sh4_inst_rte 0x002b s1 = Ok (tt, s2) ->
  getr SH4_REG_SR s2 = getr SH4_REG_SR s /\
  delayed_branch s2 = true /\ delayed_branch_addr s2 = getr SH4_REG_PC s /\
  (forall n, 0 <= n < 16 -> getr (sh4_gen_reg_idx n) s2 = getr (sh4_gen_reg_idx n) s) /\
  (forall n, 0 <= n < 8 -> getr (sh4_bank_reg_idx n) s2 = getr (sh4_bank_reg_idx n) s).
Proof.
  intros Hok H1 H2.
  destruct (enter_exception_spec v s s1 Hok H1)
    as (meta & _ & Hok1 & Hspc & Hssr & _ & Hsr & _ & Hbank & Hoth).
  unfold sh4_inst_rte in H2.
  rewrite (bind_ok _ _ _ tt s1) in H2 by (unfold CHECK_INST; cbn; by rewrite andb_false_r).
  erewrite bind_ok in H2 by done. erewrite bind_ok in H2 by done.
  erewrite bind_ok in H2 by done.
  set (s1' := with_delayed_branch_addr _ _) in H2.
  assert (Hok1' : regs_ok s1') by by destruct Hok1.
  change (sh4_set_individual_reg SH4_REG_SR (getr SH4_REG_SSR s1') s1' = Ok (tt, s2)) in H2.
  assert (Hsr2 : getr SH4_REG_SR s2 = getr SH4_REG_SR s).
  { destruct (set_sr_spec _ _ _ Hok1' H2) as (_ & -> & _).
    change (getr SH4_REG_SSR s1') with (getr SH4_REG_SSR s1). rewrite Hssr.
    by apply wrap_small, getr_range. }
  assert (Hregs : forall n, 0 <= n < 8 ->
    getr (sh4_gen_reg_idx n) s2 = getr (sh4_gen_reg_idx n) s /\
    getr (sh4_bank_reg_idx n) s2 = getr (sh4_bank_reg_idx n) s).
  { intros n Hn. destruct (set_sr_spec _ _ _ Hok1' H2) as (_ & _ & Hb & _).
    destruct (Hb n Hn) as [B0 B1], (Hbank n Hn) as [C0 C1].
    apply bank_views_regs; [done|by rewrite B0, <- C0|by rewrite B1, <- C1]. }
  split; [done|]. split_and!.
  - by apply on_sr_change_regs in H2 as (_ & _ & -> & _).
  - apply on_sr_change_regs in H2 as (_ & _ & _ & ->). cbn.
    change (u32 (getr SH4_REG_SPC s1) = getr SH4_REG_PC s). rewrite Hspc.
    by apply wrap_small, getr_range.
  - intros n Hn. destruct (Z_lt_dec n 8); [apply Hregs; lia|].
    destruct (set_sr_spec _ _ _ Hok1' H2) as (_ & _ & _ & Ho).
    unfold sh4_gen_reg_idx, SH4_REG_R0. rewrite Ho by (unfold SH4_REG_SR; lia).
    apply Hoth; [lia|]. cbn. unfold SH4_REG_SPC, SH4_REG_SSR, SH4_REG_SGR, SH4_REG_SR,
      SH4_REG_PC. lia.
  - intros n Hn. by apply Hregs.
Qed.
End rte.

(** the processor of [irq_cpu] after a trap, and after the return from it *)
Definition trap_cpu : Sh4 board :=
  after (sh4_enter_exception SH4_EXCP_UNCONDITIONAL_TRAP) irq_cpu.
Definition back_cpu : Sh4 board := after (sh4_inst_rte 0x002b) trap_cpu.

Lemma rte_restores_witness :
  getr SH4_REG_SR back_cpu = 0x40000030 /\ delayed_branch_addr back_cpu = 0x8c000100.
Proof.
  destruct (rte_restores SH4_EXCP_UNCONDITIONAL_TRAP irq_cpu trap_cpu back_cpu irq_cpu_ok)
    as (Hsr & _ & Hpc & _).
  - vm_compute. reflexivity.
  - vm_compute. reflexivity.
  - split; [exact Hsr|exact Hpc].
Defined.
