(* ===== verification/Sh4InstMem.v ===== *)
(** The instruction handlers of the SH-4 interpreter that access memory
    (src/libwashdc/hw/sh4/sh4_inst.c): read-modify-write byte operations, control and
    system registers from and to memory, the moves of general registers, and the
    multiply-and-accumulate instructions.

    A register that the source reads through a pointer again after a memory access is read
    again here: the access may run a handler of a memory-mapped device that changes the
    CPU's registers. *)
From S2P Require Import Prelude IntMath MemoryMap Sh4State Sh4Core Sh4Excp Sh4Inst.

Section sh4_inst_mem.
Context {W : Type} `{!BuildConfig} `{!Machine W}.
Abbreviation sh4M := (M (Sh4 W)).

(** ** Byte operations at [@(R0,GBR)] *)

Definition sh4_inst_binary_andb_imm_r0_gbr (inst : Z) : sh4M unit :=
  CHECK_INST inst 0xff00 0xcd00 ;;
  r0 <- gen_reg 0 ;;
  gbr <- reg_get SH4_REG_GBR ;;
  let addr := u32 (r0 + gbr) in
  val <- memory_map_read_8 addr ;;
  let val := u8 (Z.land val (inst_imm8 inst)) in
  memory_map_write_8 addr val.

Definition sh4_inst_binary_orb_imm_r0_gbr (inst : Z) : sh4M unit :=
  CHECK_INST inst 0xff00 0xcf00 ;;
  r0 <- gen_reg 0 ;;
  gbr <- reg_get SH4_REG_GBR ;;
  let addr := u32 (r0 + gbr) in
  val <- memory_map_read_8 addr ;;
  let val := u8 (Z.lor val (inst_imm8 inst)) in
  memory_map_write_8 addr val.

Definition sh4_inst_binary_xorb_imm_r0_gbr (inst : Z) : sh4M unit :=
  CHECK_INST inst 0xff00 0xce00 ;;
  r0 <- gen_reg 0 ;;
  gbr <- reg_get SH4_REG_GBR ;;
  let addr := u32 (r0 + gbr) in
  val <- memory_map_read_8 addr ;;
  let val := u8 (Z.lxor val (inst_imm8 inst)) in
  memory_map_write_8 addr val.

Definition sh4_inst_binary_tstb_imm_r0_gbr (inst : Z) : sh4M unit :=
  CHECK_INST inst 0xff00 0xcc00 ;;
  r0 <- gen_reg 0 ;;
  gbr <- reg_get SH4_REG_GBR ;;
  val <- memory_map_read_8 (u32 (r0 + gbr)) ;;
  sr_and (not32 SH4_SR_FLAG_T_MASK) ;;
  sr_or (Z.shiftl (b2z (Z.land (inst_imm8 inst) val =? 0)) SH4_SR_FLAG_T_SHIFT).

Definition sh4_inst_unary_tasb_gen (inst : Z) : sh4M unit :=
  CHECK_INST inst 0xf0ff 0x401b ;;
  addr <- gen_reg (rn inst) ;;
  val_old <- memory_map_read_8 addr ;;
  let val_new := u8 (Z.lor val_old 0x80) in
  memory_map_write_8 addr val_new ;;
  sr_and (not32 SH4_SR_FLAG_T_MASK) ;;
  sr_or (Z.shiftl (b2z (val_old =? 0)) SH4_SR_FLAG_T_SHIFT).

(** ** Control registers from and to memory *)

Definition sh4_inst_binary_ldcl_indgeninc_sr (inst : Z) : sh4M unit :=
  CHECK_INST inst 0xf0ff 0x4007 ;;
  check_privileged ;;
  a <- gen_reg (rn inst) ;;
  val <- memory_map_read_32 a ;;
  a <- gen_reg (rn inst) ;;
  set_gen_reg (rn inst) (a + 4) ;;
  old_sr_val <- reg_get SH4_REG_SR ;;
  reg_set SH4_REG_SR val ;;
  sh4_on_sr_change old_sr_val.

Definition sh4_inst_binary_ldcl_indgeninc_gbr (inst : Z) : sh4M unit :=
  CHECK_INST inst 0xf0ff 0x4017 ;;
  a <- gen_reg (rn inst) ;;
  val <- memory_map_read_32 a ;;
  a <- gen_reg (rn inst) ;;
  set_gen_reg (rn inst) (a + 4) ;;
  reg_set SH4_REG_GBR val.

Definition sh4_inst_binary_ldcl_indgeninc_vbr (inst : Z) : sh4M unit :=
  CHECK_INST inst 0xf0ff 0x4027 ;;
  check_privileged ;;
  a <- gen_reg (rn inst) ;;
  val <- memory_map_read_32 a ;;
  a <- gen_reg (rn inst) ;;
  set_gen_reg (rn inst) (a + 4) ;;
  reg_set SH4_REG_VBR val.

Definition sh4_inst_binary_ldcl_indgenic_ssr (inst : Z) : sh4M unit :=
  CHECK_INST inst 0xf0ff 0x4037 ;;
  check_privileged ;;
  a <- gen_reg (rn inst) ;;
  val <- memory_map_read_32 a ;;
  a <- gen_reg (rn inst) ;;
  set_gen_reg (rn inst) (a + 4) ;;
  reg_set SH4_REG_SSR val.

Definition sh4_inst_binary_ldcl_indgeninc_spc (inst : Z) : sh4M unit :=
  CHECK_INST inst 0xf0ff 0x4047 ;;
  check_privileged ;;
  a <- gen_reg (rn inst) ;;
  val <- memory_map_read_32 a ;;
  a <- gen_reg (rn inst) ;;
  set_gen_reg (rn inst) (a + 4) ;;
  reg_set SH4_REG_SPC val.

Definition sh4_inst_binary_ldcl_indgeninc_dbr (inst : Z) : sh4M unit :=
  CHECK_INST inst 0xf0ff 0x40f6 ;;
  check_privileged ;;
  a <- gen_reg (rn inst) ;;
  val <- memory_map_read_32 a ;;
  a <- gen_reg (rn inst) ;;
  set_gen_reg (rn inst) (a + 4) ;;
  reg_set SH4_REG_DBR val.

Definition sh4_inst_binary_ldcl_indgeninc_bank (inst : Z) : sh4M unit :=
  CHECK_INST inst 0xf08f 0x4087 ;;
  check_privileged ;;
  a <- gen_reg (rn inst) ;;
  val <- memory_map_read_32 a ;;
  a <- gen_reg (rn inst) ;;
  set_gen_reg (rn inst) (a + 4) ;;
  set_bank_reg (Z.land (Z.shiftr inst 4) 7) val.

Definition sh4_inst_binary_stcl_sr_inddecgen (inst : Z) : sh4M unit :=
  CHECK_INST inst 0xf0ff 0x4003 ;;
  check_privileged ;;
  a <- gen_reg (rn inst) ;;
  let addr := u32 (a - 4) in
  v <- reg_get SH4_REG_SR ;;
  memory_map_write_32 addr v ;;
  set_gen_reg (rn inst) addr.

Definition sh4_inst_binary_stcl_gbr_inddecgen (inst : Z) : sh4M unit :=
  CHECK_INST inst 0xf0ff 0x4013 ;;
  a <- gen_reg (rn inst) ;;
  let addr := u32 (a - 4) in
  v <- reg_get SH4_REG_GBR ;;
  memory_map_write_32 addr v ;;
  set_gen_reg (rn inst) addr.

Definition sh4_inst_binary_stcl_vbr_inddecgen (inst : Z) : sh4M unit :=
  CHECK_INST inst 0xf0ff 0x4023 ;;
  check_privileged ;;
  a <- gen_reg (rn inst) ;;
  let addr := u32 (a - 4) in
  v <- reg_get SH4_REG_VBR ;;
  memory_map_write_32 addr v ;;
  set_gen_reg (rn inst) addr.

Definition sh4_inst_binary_stcl_ssr_inddecgen (inst : Z) : sh4M unit :=
  CHECK_INST inst 0xf0ff 0x4033 ;;
  check_privileged ;;
  a <- gen_reg (rn inst) ;;
  let addr := u32 (a - 4) in
  v <- reg_get SH4_REG_SSR ;;
  memory_map_write_32 addr v ;;
  set_gen_reg (rn inst) addr.

Definition sh4_inst_binary_stcl_spc_inddecgen (inst : Z) : sh4M unit :=
  CHECK_INST inst 0xf0ff 0x4043 ;;
  check_privileged ;;
  a <- gen_reg (rn inst) ;;
  let addr := u32 (a - 4) in
  v <- reg_get SH4_REG_SPC ;;
  memory_map_write_32 addr v ;;
  set_gen_reg (rn inst) addr.

Definition sh4_inst_binary_stcl_sgr_inddecgen (inst : Z) : sh4M unit :=
  CHECK_INST inst 0xf0ff 0x4032 ;;
  check_privileged ;;
  a <- gen_reg (rn inst) ;;
  let addr := u32 (a - 4) in
  v <- reg_get SH4_REG_SGR ;;
  memory_map_write_32 addr v ;;
  set_gen_reg (rn inst) addr.

Definition sh4_inst_binary_stcl_dbr_inddecgen (inst : Z) : sh4M unit :=
  CHECK_INST inst 0xf0ff 0x40f2 ;;
  check_privileged ;;
  a <- gen_reg (rn inst) ;;
  let addr := u32 (a - 4) in
  v <- reg_get SH4_REG_DBR ;;
  memory_map_write_32 addr v ;;
  set_gen_reg (rn inst) addr.

Definition sh4_inst_binary_stcl_bank_inddecgen (inst : Z) : sh4M unit :=
  CHECK_INST inst 0xf08f 0x4083 ;;
  check_privileged ;;
  src_val <- bank_reg (Z.land (Z.shiftr inst 4) 7) ;;
  a <- gen_reg (rn inst) ;;
  let addr := u32 (a - 4) in
  memory_map_write_32 addr src_val ;;
  set_gen_reg (rn inst) addr.

(** ** System registers from and to memory *)

Definition sh4_inst_binary_ldsl_indgeninc_mach (inst : Z) : sh4M unit :=
  CHECK_INST inst 0xf0ff 0x4006 ;;
  a <- gen_reg (rn inst) ;;
  val <- memory_map_read_32 a ;;
  reg_set SH4_REG_MACH val ;;
  a <- gen_reg (rn inst) ;;
  set_gen_reg (rn inst) (a + 4).

Definition sh4_inst_binary_ldsl_indgeninc_macl (inst : Z) : sh4M unit :=
  CHECK_INST inst 0xf0ff 0x4016 ;;
  a <- gen_reg (rn inst) ;;
  val <- memory_map_read_32 a ;;
  reg_set SH4_REG_MACL val ;;
  a <- gen_reg (rn inst) ;;
  set_gen_reg (rn inst) (a + 4).

Definition sh4_inst_binary_ldsl_indgeninc_pr (inst : Z) : sh4M unit :=
  CHECK_INST inst 0xf0ff 0x4026 ;;
  a <- gen_reg (rn inst) ;;
  val <- memory_map_read_32 a ;;
  reg_set SH4_REG_PR val ;;
  a <- gen_reg (rn inst) ;;
  set_gen_reg (rn inst) (a + 4).

Definition sh4_inst_binary_ldsl_indgeninc_fpul (inst : Z) : sh4M unit :=
  CHECK_INST inst 0xf0ff 0x4056 ;;
  a <- gen_reg (rn inst) ;;
  val <- memory_map_read_32 a ;;
  reg_set SH4_REG_FPUL val ;;
  a <- gen_reg (rn inst) ;;
  set_gen_reg (rn inst) (a + 4).

Definition sh4_inst_binary_ldsl_indgeninc_fpscr (inst : Z) : sh4M unit :=
  CHECK_INST inst 0xf0ff 0x4066 ;;
  a <- gen_reg (rn inst) ;;
  val <- memory_map_read_32 a ;;
  sh4_set_fpscr val ;;
  a <- gen_reg (rn inst) ;;
  set_gen_reg (rn inst) (a + 4).

Definition sh4_inst_binary_stsl_mach_inddecgen (inst : Z) : sh4M unit :=
  CHECK_INST inst 0xf0ff 0x4002 ;;
  a <- gen_reg (rn inst) ;;
  let addr := u32 (a - 4) in
  v <- reg_get SH4_REG_MACH ;;
  memory_map_write_32 addr v ;;
  set_gen_reg (rn inst) addr.

Definition sh4_inst_binary_stsl_macl_inddecgen (inst : Z) : sh4M unit :=
  CHECK_INST inst 0xf0ff 0x4012 ;;
  a <- gen_reg (rn inst) ;;
  let addr := u32 (a - 4) in
  v <- reg_get SH4_REG_MACL ;;
  memory_map_write_32 addr v ;;
  set_gen_reg (rn inst) addr.

Definition sh4_inst_binary_stsl_pr_inddecgen (inst : Z) : sh4M unit :=
  CHECK_INST inst 0xf0ff 0x4022 ;;
  a <- gen_reg (rn inst) ;;
  let addr := u32 (a - 4) in
  v <- reg_get SH4_REG_PR ;;
  memory_map_write_32 addr v ;;
  set_gen_reg (rn inst) addr.

Definition sh4_inst_binary_stsl_fpscr_inddecgen (inst : Z) : sh4M unit :=
  CHECK_INST inst 0xf0ff 0x4062 ;;
  a <- gen_reg (rn inst) ;;
  let addr := u32 (a - 4) in
  v <- reg_get SH4_REG_FPSCR ;;
  memory_map_write_32 addr v ;;
  set_gen_reg (rn inst) addr.

Definition sh4_inst_binary_stsl_fpul_inddecgen (inst : Z) : sh4M unit :=
  CHECK_INST inst 0xf0ff 0x4052 ;;
  a <- gen_reg (rn inst) ;;
  let addr := u32 (a - 4) in
  v <- reg_get SH4_REG_FPUL ;;
  memory_map_write_32 addr v ;;
  set_gen_reg (rn inst) addr.

Definition sh4_inst_binary_lds_gen_fpscr (inst : Z) : sh4M unit :=
  CHECK_INST inst 0xf0ff 0x406a ;;
  v <- gen_reg (rn inst) ;; sh4_set_fpscr v.

Definition sh4_inst_binary_gen_fpul (inst : Z) : sh4M unit :=
  CHECK_INST inst 0xf0ff 0x405a ;;
  v <- gen_reg (rn inst) ;; reg_set SH4_REG_FPUL v.

Definition sh4_inst_binary_sts_fpscr_gen (inst : Z) : sh4M unit :=
  CHECK_INST inst 0xf0ff 0x006a ;;
  v <- reg_get SH4_REG_FPSCR ;; set_gen_reg (rn inst) v.

Definition sh4_inst_binary_sts_fpul_gen (inst : Z) : sh4M unit :=
  CHECK_INST inst 0xf0ff 0x005a ;;
  v <- reg_get SH4_REG_FPUL ;; set_gen_reg (rn inst) v.

(** ** Moves between general registers and memory

    A byte or a word read is sign-extended by its conversion to [int8_t] or [int16_t]. *)

Definition sh4_inst_binary_movw_binind_disp_pc_gen (inst : Z) : sh4M unit :=
  CHECK_INST inst 0xf000 0x9000 ;;
  pc <- reg_get SH4_REG_PC ;;
  let addr := u32 (Z.shiftl (inst_imm8 inst) 1 + pc + 4) in
  mem_in <- memory_map_read_16 addr ;;
  set_gen_reg (rn inst) (s16 mem_in).

Definition sh4_inst_binary_movl_binind_disp_pc_gen (inst : Z) : sh4M unit :=
  CHECK_INST inst 0xf000 0xd000 ;;
  pc <- reg_get SH4_REG_PC ;;
  let addr := u32 (Z.shiftl (inst_imm8 inst) 2 + Z.land pc (not32 3) + 4) in
  mem_in <- memory_map_read_32 addr ;;
  set_gen_reg (rn inst) (s32 mem_in).

Definition sh4_inst_binary_movb_gen_indgen (inst : Z) : sh4M unit :=
  CHECK_INST inst 0xf00f 0x2000 ;;
  addr <- gen_reg (rn inst) ;;
  v <- gen_reg (rm inst) ;;
  memory_map_write_8 addr v.

Definition sh4_inst_binary_movb_indgen_gen (inst : Z) : sh4M unit :=
  CHECK_INST inst 0xf00f 0x6000 ;;
  addr <- gen_reg (rm inst) ;;
  mem_val <- memory_map_read_8 addr ;;
  set_gen_reg (rn inst) (s8 mem_val).

Definition sh4_inst_binary_movb_gen_inddecgen (inst : Z) : sh4M unit :=
  CHECK_INST inst 0xf00f 0x2004 ;;
  dst <- gen_reg (rn inst) ;;
  let dst_reg_val := u32 (dst - 1) in
  v <- gen_reg (rm inst) ;;
  memory_map_write_8 dst_reg_val (s8 v) ;;
  set_gen_reg (rn inst) dst_reg_val.

Definition sh4_inst_binary_movb_indgeninc_gen (inst : Z) : sh4M unit :=
  CHECK_INST inst 0xf00f 0x6004 ;;
  src_addr <- gen_reg (rm inst) ;;
  set_gen_reg (rm inst) (src_addr + 1) ;;
  val <- memory_map_read_8 src_addr ;;
  set_gen_reg (rn inst) (s8 val).

Definition sh4_inst_binary_movb_r0_binind_disp_gen (inst : Z) : sh4M unit :=
  CHECK_INST inst 0xff00 0x8000 ;;
  base <- gen_reg (rm inst) ;;
  let addr := u32 (Z.land inst 0xf + base) in
  v <- gen_reg 0 ;;
  memory_map_write_8 addr (s8 v).

Definition sh4_inst_binary_movb_binind_disp_gen_r0 (inst : Z) : sh4M unit :=
  CHECK_INST inst 0xff00 0x8400 ;;
  base <- gen_reg (rm inst) ;;
  let addr := u32 (Z.land inst 0xf + base) in
  val <- memory_map_read_8 addr ;;
  set_gen_reg 0 (s8 val).

Definition sh4_inst_binary_movb_gen_binind_r0_gen (inst : Z) : sh4M unit :=
  CHECK_INST inst 0xf00f 0x0004 ;;
  r0 <- gen_reg 0 ;;
  base <- gen_reg (rn inst) ;;
  let addr := u32 (r0 + base) in
  v <- gen_reg (rm inst) ;;
  memory_map_write_8 addr v.

Definition sh4_inst_binary_movb_binind_r0_gen_gen (inst : Z) : sh4M unit :=
  CHECK_INST inst 0xf00f 0x000c ;;
  r0 <- gen_reg 0 ;;
  base <- gen_reg (rm inst) ;;
  let addr := u32 (r0 + base) in
  val <- memory_map_read_8 addr ;;
  set_gen_reg (rn inst) (s8 val).

Definition sh4_inst_binary_movb_r0_binind_disp_gbr (inst : Z) : sh4M unit :=
  CHECK_INST inst 0xff00 0xc000 ;;
  gbr <- reg_get SH4_REG_GBR ;;
  let addr := u32 (inst_imm8 inst + gbr) in
  v <- gen_reg 0 ;;
  memory_map_write_8 addr (s8 v).

Definition sh4_inst_binary_movb_binind_disp_gbr_r0 (inst : Z) : sh4M unit :=
  CHECK_INST inst 0xff00 0xc400 ;;
  gbr <- reg_get SH4_REG_GBR ;;
  let addr := u32 (inst_imm8 inst + gbr) in
  val <- memory_map_read_8 addr ;;
  set_gen_reg 0 (s8 val).

Definition sh4_inst_binary_movw_gen_indgen (inst : Z) : sh4M unit :=
  CHECK_INST inst 0xf00f 0x2001 ;;
  addr <- gen_reg (rn inst) ;;
  v <- gen_reg (rm inst) ;;
  memory_map_write_16 addr v.

Definition sh4_inst_binary_movw_indgen_gen (inst : Z) : sh4M unit :=
  CHECK_INST inst 0xf00f 0x6001 ;;
  addr <- gen_reg (rm inst) ;;
  mem_val <- memory_map_read_16 addr ;;
  set_gen_reg (rn inst) (s16 mem_val).

Definition sh4_inst_binary_movw_gen_inddecgen (inst : Z) : sh4M unit :=
  CHECK_INST inst 0xf00f 0x2005 ;;
  dst <- gen_reg (rn inst) ;;
  let dst_reg_val := u32 (dst - 2) in
  v <- gen_reg (rm inst) ;;
  memory_map_write_16 dst_reg_val (s16 v) ;;
  set_gen_reg (rn inst) dst_reg_val.

Definition sh4_inst_binary_movw_indgeninc_gen (inst : Z) : sh4M unit :=
  CHECK_INST inst 0xf00f 0x6005 ;;
  src_addr <- gen_reg (rm inst) ;;
  set_gen_reg (rm inst) (src_addr + 2) ;;
  val <- memory_map_read_16 src_addr ;;
  set_gen_reg (rn inst) (s16 val).

Definition sh4_inst_binary_movw_r0_binind_disp_gen (inst : Z) : sh4M unit :=
  CHECK_INST inst 0xff00 0x8100 ;;
  base <- gen_reg (rm inst) ;;
  let addr := u32 (Z.shiftl (Z.land inst 0xf) 1 + base) in
  v <- gen_reg 0 ;;
  memory_map_write_16 addr (s16 v).

Definition sh4_inst_binary_movw_binind_disp_gen_r0 (inst : Z) : sh4M unit :=
  CHECK_INST inst 0xff00 0x8500 ;;
  base <- gen_reg (rm inst) ;;
  let addr := u32 (Z.shiftl (Z.land inst 0xf) 1 + base) in
  val <- memory_map_read_16 addr ;;
  set_gen_reg 0 (s16 val).

Definition sh4_inst_binary_movw_gen_binind_r0_gen (inst : Z) : sh4M unit :=
  CHECK_INST inst 0xf00f 0x0005 ;;
  r0 <- gen_reg 0 ;;
  base <- gen_reg (rn inst) ;;
  let addr := u32 (r0 + base) in
  v <- gen_reg (rm inst) ;;
  memory_map_write_16 addr v.

Definition sh4_inst_binary_movw_binind_r0_gen_gen (inst : Z) : sh4M unit :=
  CHECK_INST inst 0xf00f 0x000d ;;
  r0 <- gen_reg 0 ;;
  base <- gen_reg (rm inst) ;;
  let addr := u32 (r0 + base) in
  val <- memory_map_read_16 addr ;;
  set_gen_reg (rn inst) (s16 val).

Definition sh4_inst_binary_movw_r0_binind_disp_gbr (inst : Z) : sh4M unit :=
  CHECK_INST inst 0xff00 0xc100 ;;
  gbr <- reg_get SH4_REG_GBR ;;
  let addr := u32 (Z.shiftl (inst_imm8 inst) 1 + gbr) in
  v <- gen_reg 0 ;;
  memory_map_write_16 addr (s16 v).

Definition sh4_inst_binary_movw_binind_disp_gbr_r0 (inst : Z) : sh4M unit :=
  CHECK_INST inst 0xff00 0xc500 ;;
  gbr <- reg_get SH4_REG_GBR ;;
  let addr := u32 (Z.shiftl (inst_imm8 inst) 1 + gbr) in
  val <- memory_map_read_16 addr ;;
  set_gen_reg 0 (s16 val).

Definition sh4_inst_binary_movl_gen_indgen (inst : Z) : sh4M unit :=
  CHECK_INST inst 0xf00f 0x2002 ;;
  addr <- gen_reg (rn inst) ;;
  v <- gen_reg (rm inst) ;;
  memory_map_write_32 addr v.

Definition sh4_inst_binary_movl_indgen_gen (inst : Z) : sh4M unit :=
  CHECK_INST inst 0xf00f 0x6002 ;;
  addr <- gen_reg (rm inst) ;;
  mem_val <- memory_map_read_32 addr ;;
  set_gen_reg (rn inst) (s32 mem_val).

Definition sh4_inst_binary_movl_gen_inddecgen (inst : Z) : sh4M unit :=
  CHECK_INST inst 0xf00f 0x2006 ;;
  dst <- gen_reg (rn inst) ;;
  let dst_reg_val := u32 (dst - 4) in
  v <- gen_reg (rm inst) ;;
  memory_map_write_32 dst_reg_val (s32 v) ;;
  set_gen_reg (rn inst) dst_reg_val.

Definition sh4_inst_binary_movl_indgeninc_gen (inst : Z) : sh4M unit :=
  CHECK_INST inst 0xf00f 0x6006 ;;
  src_addr <- gen_reg (rm inst) ;;
  set_gen_reg (rm inst) (src_addr + 4) ;;
  val <- memory_map_read_32 src_addr ;;
  set_gen_reg (rn inst) (s32 val).

Definition sh4_inst_binary_movl_gen_binind_disp_gen (inst : Z) : sh4M unit :=
  CHECK_INST inst 0xf000 0x1000 ;;
  base <- gen_reg (rn inst) ;;
  let addr := u32 (Z.shiftl (Z.land inst 0xf) 2 + base) in
  v <- gen_reg (rm inst) ;;
  memory_map_write_32 addr (s32 v).

Definition sh4_inst_binary_movl_binind_disp_gen_gen (inst : Z) : sh4M unit :=
  CHECK_INST inst 0xf000 0x5000 ;;
  base <- gen_reg (rm inst) ;;
  let addr := u32 (Z.shiftl (Z.land inst 0xf) 2 + base) in
  val <- memory_map_read_32 addr ;;
  set_gen_reg (rn inst) (s32 val).

Definition sh4_inst_binary_movl_gen_binind_r0_gen (inst : Z) : sh4M unit :=
  CHECK_INST inst 0xf00f 0x0006 ;;
  r0 <- gen_reg 0 ;;
  base <- gen_reg (rn inst) ;;
  let addr := u32 (r0 + base) in
  v <- gen_reg (rm inst) ;;
  memory_map_write_32 addr v.

Definition sh4_inst_binary_movl_binind_r0_gen_gen (inst : Z) : sh4M unit :=
  CHECK_INST inst 0xf00f 0x000e ;;
  r0 <- gen_reg 0 ;;
  base <- gen_reg (rm inst) ;;
  let addr := u32 (r0 + base) in
  val <- memory_map_read_32 addr ;;
  set_gen_reg (rn inst) (s32 val).

Definition sh4_inst_binary_movl_r0_binind_disp_gbr (inst : Z) : sh4M unit :=
  CHECK_INST inst 0xff00 0xc200 ;;
  gbr <- reg_get SH4_REG_GBR ;;
  let addr := u32 (Z.shiftl (inst_imm8 inst) 2 + gbr) in
  v <- gen_reg 0 ;;
  memory_map_write_32 addr (s32 v).

Definition sh4_inst_binary_movl_binind_disp_gbr_r0 (inst : Z) : sh4M unit :=
  CHECK_INST inst 0xff00 0xc600 ;;
  gbr <- reg_get SH4_REG_GBR ;;
  let addr := u32 (Z.shiftl (inst_imm8 inst) 2 + gbr) in
  val <- memory_map_read_32 addr ;;
  set_gen_reg 0 (s32 val).

Definition sh4_inst_binary_movcal_r0_indgen (inst : Z) : sh4M unit :=
  CHECK_INST inst 0xf0ff 0x00c3 ;;
  src_val <- gen_reg 0 ;;
  vaddr <- gen_reg (rn inst) ;;
  memory_map_write_32 vaddr src_val.

(** ** Multiply and accumulate *)

(** the 64-bit accumulator MACH:MACL read as an [int64_t] *)
Definition mac_value (mach macl : Z) : Z := s64 (Z.lor macl (Z.shiftl mach 32)).

Definition MAX48 : Z := 0x7fffffffffff.
Definition MIN48 : Z := s64 0xffff800000000000.
Definition MAX32 : Z := 0x7fffffff.
Definition MIN32 : Z := s32 0x80000000.

(** the saturating addition of [sh4_inst_binary_macl_indgeninc_indgeninc] *)
Definition macl_saturate (mac product : Z) : Z :=
  let sum := s64 (mac + product) in
  if sum <? 0 then
    if (mac >=? 0) && (product >=? 0) then MAX48
    else if sum <? MIN48 then MIN48 else sum
  else
    if (mac <? 0) && (product <? 0) then MIN48
    else if sum >? MAX48 then MAX48 else sum.

Definition sh4_inst_binary_macl_indgeninc_indgeninc (inst : Z) : sh4M unit :=
  CHECK_INST inst 0xf00f 0x000f ;;
  dst_addr <- gen_reg (rn inst) ;;
  lhs <- memory_map_read_32 dst_addr ;;
  src_addr <- gen_reg (rm inst) ;;
  rhs <- memory_map_read_32 src_addr ;;
  let product := s64 (s32 lhs * s32 rhs) in
  sr <- reg_get SH4_REG_SR ;;
  macl <- reg_get SH4_REG_MACL ;;
  mach <- reg_get SH4_REG_MACH ;;
  let mac := mac_value mach macl in
  let sum := if negb (truth (Z.land sr SH4_SR_FLAG_S_MASK))
             then s64 (product + mac)
             else macl_saturate mac product in
  reg_set SH4_REG_MACL (Z.land (u64 sum) 0xffffffff) ;;
  reg_set SH4_REG_MACH (Z.shiftr (u64 sum) 32) ;;
  dst_addr <- gen_reg (rn inst) ;;
  set_gen_reg (rn inst) (dst_addr + 4) ;;
  src_addr <- gen_reg (rm inst) ;;
  set_gen_reg (rm inst) (src_addr + 4).

Definition sh4_inst_binary_macw_indgeninc_indgeninc (inst : Z) : sh4M unit :=
  CHECK_INST inst 0xf00f 0x400f ;;
  dst_addr <- gen_reg (rn inst) ;;
  lhs <- memory_map_read_16 dst_addr ;;
  src_addr <- gen_reg (rm inst) ;;
  rhs <- memory_map_read_16 src_addr ;;
  let result := s16 lhs * s16 rhs in
  sr <- reg_get SH4_REG_SR ;;
  (if truth (Z.land sr SH4_SR_FLAG_S_MASK) then
     macl <- reg_get SH4_REG_MACL ;;
     let result := s64 (result + macl) in
     mach <- reg_get SH4_REG_MACH ;;
     if result <? MIN32 then
       reg_set SH4_REG_MACH (Z.lor mach 1) ;; reg_set SH4_REG_MACL MIN32
     else if result >? MAX32 then
       reg_set SH4_REG_MACH (Z.lor mach 1) ;; reg_set SH4_REG_MACL MAX32
     else reg_set SH4_REG_MACL result
   else
     macl <- reg_get SH4_REG_MACL ;;
     mach <- reg_get SH4_REG_MACH ;;
     let result := s64 (result + mac_value mach macl) in
     reg_set SH4_REG_MACL (Z.land (u64 result) 0xffffffff) ;;
     reg_set SH4_REG_MACH (Z.shiftr (u64 result) 32)) ;;
  dst_addr <- gen_reg (rn inst) ;;
  set_gen_reg (rn inst) (dst_addr + 2) ;;
  src_addr <- gen_reg (rm inst) ;;
  set_gen_reg (rm inst) (src_addr + 2).

(** ** Opcodes that no handler accepts *)
Definition sh4_inst_invalid (inst : Z) : sh4M unit :=
  if DBG_EXIT_ON_UNDEFINED_OPCODE then raise ERROR_UNIMPLEMENTED
  else sh4_set_exception SH4_EXCP_GEN_ILLEGAL_INST.

End sh4_inst_mem.
