(* ===== verification/Sh4Arith.v ===== *)
(** Arithmetic on top of the SH-4 instruction handlers: what single instructions compute, and
    what the instruction sequences that compilers emit for multiword addition and for
    unsigned division compute. *)
From stdpp Require Import sets.
From S2P Require Import Prelude IntMath MemoryMap Sh4State Board Sh4Core Sh4Excp Sh4Inst.
From S2P Require Import Sh4InstMem Memory.
Import intmath.

(** ** Opcodes *)
Definition op_n (base n : Z) : Z := base + 256 * n.
Definition op_nm (base n m : Z) : Z := base + 256 * n + 16 * m.

Definition reg_no (n : Z) : Prop := 0 <= n < 16.

Lemma op_n_fields base n :
  reg_no n -> In base [0x4024; 0x4000] ->
  rn (op_n base n) = n /\ Z.land (op_n base n) 0xf0ff = base.
Proof.
  unfold reg_no. intros Hn Hb.
  assert (Hc : In n [0;1;2;3;4;5;6;7;8;9;10;11;12;13;14;15]) by (cbn; lia).
  cbn in Hb, Hc. repeat destruct Hb as [<-|Hb]; try done;
    repeat destruct Hc as [<-|Hc]; try done; vm_compute; auto.
Qed.

Definition nm_bases : list Z :=
  [0x3004; 0x300e; 0x300a; 0x300f; 0x300b; 0x600a; 0x000f; 0x400f].

Lemma op_nm_fields base n m :
  reg_no n -> reg_no m -> In base nm_bases ->
  rn (op_nm base n m) = n /\ rm (op_nm base n m) = m /\
  Z.land (op_nm base n m) 0xf00f = base.
Proof.
  intros Hn Hm Hb.
  assert (Hall : forallb (fun b => forallb (fun i => forallb (fun j =>
    (rn (op_nm b i j) =? i) && (rm (op_nm b i j) =? j) &&
    (Z.land (op_nm b i j) 0xf00f =? b))
    [0;1;2;3;4;5;6;7;8;9;10;11;12;13;14;15]) [0;1;2;3;4;5;6;7;8;9;10;11;12;13;14;15])
    nm_bases = true) by (vm_compute; reflexivity).
  rewrite forallb_forall in Hall. specialize (Hall _ Hb).
  rewrite forallb_forall in Hall. specialize (Hall n).
  rewrite forallb_forall in Hall. unfold reg_no in *.
  specialize (Hall ltac:(cbn; lia) m ltac:(cbn; lia)).
  rewrite !andb_true_iff, !Z.eqb_eq in Hall. tauto.
Qed.

Section flags.
Context {W : Type} {CFG : BuildConfig} {MCH : Machine W}.
Implicit Types s : Sh4 W.

Definition T_bit (s : Sh4 W) : bool := Z.testbit (getr SH4_REG_SR s) 0.
Definition Q_bit (s : Sh4 W) : bool := Z.testbit (getr SH4_REG_SR s) 8.
Definition M_bit (s : Sh4 W) : bool := Z.testbit (getr SH4_REG_SR s) 9.
Definition R (n : Z) (s : Sh4 W) : Z := getr (sh4_gen_reg_idx n) s.

Lemma check_inst_ok inst mask val s :
  Z.land inst mask = val -> CHECK_INST inst mask val s = Ok (tt, s).
Proof.
  intros <-. unfold CHECK_INST. by rewrite Z.eqb_refl, andb_false_r.
Qed.

Lemma R_range n s : regs_ok s -> in_range 32 (R n s).
Proof. apply getr_range. Qed.

Lemma R_set_eq n v s : regs_ok s -> reg_no n -> R n (setr (sh4_gen_reg_idx n) v s) = u32 v.
Proof.
  intros. apply getr_setr_eq; [done|]. unfold valid_reg, sh4_gen_reg_idx, SH4_REG_R0, reg_no in *.
  unfold SH4_REGISTER_COUNT. lia.
Qed.
Lemma R_set_ne n m v s : reg_no n -> reg_no m -> n <> m ->
  R n (setr (sh4_gen_reg_idx m) v s) = R n s.
Proof.
  intros. unfold reg_no in *. apply getr_setr_ne; unfold sh4_gen_reg_idx, SH4_REG_R0; lia.
Qed.
Lemma R_set_sr n v s : reg_no n -> R n (setr SH4_REG_SR v s) = R n s.
Proof.
  intros. unfold reg_no in *.
  apply getr_setr_ne; unfold sh4_gen_reg_idx, SH4_REG_R0, SH4_REG_SR; lia.
Qed.
Lemma sr_set_R n v s :
  reg_no n -> getr SH4_REG_SR (setr (sh4_gen_reg_idx n) v s) = getr SH4_REG_SR s.
Proof.
  intros. unfold reg_no in *.
  apply getr_setr_ne; unfold sh4_gen_reg_idx, SH4_REG_R0, SH4_REG_SR; lia.
Qed.
Lemma sr_set_sr v s : regs_ok s -> getr SH4_REG_SR (setr SH4_REG_SR v s) = u32 v.
Proof. intros. by apply getr_setr_eq. Qed.
End flags.

(** ** Division steps

    [DIV1] performs one step of a non-restoring division.  With the M flag clear, the
    register holds the partial remainder [r] modulo [2^32] and the Q flag its sign. *)
Ltac euclid := unfold wrap, in_range in *; change (2 ^ 32) with 4294967296 in *;
  Z.to_euclidean_division_equations; lia.

Lemma div1_remainder (r b D : Z) :
  0 < D < 2 ^ 32 -> - D <= r < D -> 0 <= b <= 1 ->
  let r' := if r <? 0 then 2 * r + b + D else 2 * r + b - D in
  div1_step (r <? 0) false (2 ^ 31 <=? u32 r) (u32 (2 * u32 r + b)) D =
    (u32 r', r' <? 0) /\ - D <= r' < D.
Proof.
  intros HD Hr Hb r'. unfold div1_step, r'. change (2 ^ 31) with 2147483648.
  destruct (Z.ltb_spec r 0).
  - assert (Hu : u32 r = r + 4294967296) by euclid.
    destruct (Z.leb_spec 2147483648 (u32 r)).
    + assert (Hd : u32 (2 * u32 r + b) = 2 * r + b + 4294967296) by euclid.
      rewrite Hd. split; [|lia].
      assert (Hs : u32 (2 * r + b + 4294967296 + D) = u32 (2 * r + b + D)) by euclid.
      rewrite Hs. f_equal. destruct (Z.ltb_spec (2 * r + b + D) 0).
      * destruct (Z.ltb_spec (u32 (2 * r + b + D)) (2 * r + b + 4294967296)); [|done].
        exfalso. euclid.
      * destruct (Z.ltb_spec (u32 (2 * r + b + D)) (2 * r + b + 4294967296)); [done|].
        exfalso. euclid.
    + assert (Hd : u32 (2 * u32 r + b) = 2 * r + b + 8589934592) by euclid.
      rewrite Hd. split; [|lia].
      assert (Hs : u32 (2 * r + b + 8589934592 + D) = u32 (2 * r + b + D)) by euclid.
      rewrite Hs. f_equal. destruct (Z.ltb_spec (2 * r + b + D) 0).
      * destruct (Z.ltb_spec (u32 (2 * r + b + D)) (2 * r + b + 8589934592)); [done|].
        exfalso. euclid.
      * exfalso. euclid.
  - assert (Hu : u32 r = r) by euclid.
    destruct (Z.leb_spec 2147483648 (u32 r)).
    + assert (Hd : u32 (2 * u32 r + b) = 2 * r + b - 4294967296) by euclid.
      rewrite Hd. split; [|lia].
      assert (Hs : u32 (2 * r + b - 4294967296 - D) = u32 (2 * r + b - D)) by euclid.
      rewrite Hs. f_equal. destruct (Z.ltb_spec (2 * r + b - D) 0); [lia|].
      destruct (Z.gtb_spec (u32 (2 * r + b - D)) (2 * r + b - 4294967296)); [done|].
      exfalso. euclid.
    + assert (Hd : u32 (2 * u32 r + b) = 2 * r + b) by euclid.
      rewrite Hd. split; [|lia]. f_equal. destruct (Z.ltb_spec (2 * r + b - D) 0).
      * destruct (Z.gtb_spec (u32 (2 * r + b - D)) (2 * r + b)); [done|]. exfalso. euclid.
      * destruct (Z.gtb_spec (u32 (2 * r + b - D)) (2 * r + b)); [|done]. exfalso. euclid.
Qed.

(** After [i] steps on the dividend [H * 2^32 + L]: the high register [hi], the low register
    [lo] and the T flag [t].  [q] holds the quotient bits found so far, all but the last of
    which are in [lo]; [a] and [c] are the bits of [L] already and not yet shifted out. *)
Definition div_inv (D H L i hi lo t : Z) (Q : bool) : Prop :=
  exists a c q r,
    L = a * 2 ^ (32 - i) + c /\ 0 <= c < 2 ^ (32 - i) /\
    lo = c * 2 ^ i + q / 2 /\ 0 <= q < 2 ^ i /\ t = q mod 2 /\
    H * 2 ^ i + a = q * D + (if r <? 0 then r + D else r) /\
    - D <= r < D /\ hi = u32 r /\ Q = (r <? 0).

Lemma div_inv_start D H L : 0 <= H < D -> D < 2 ^ 32 -> in_range 32 L ->
  div_inv D H L 0 H L 0 false.
Proof.
  intros HH HD HL. unfold in_range in HL. exists 0, L, 0, H.
  destruct (Z.ltb_spec H 0); [lia|]. rewrite wrap_small by (unfold in_range; lia).
  change (32 - 0) with 32. change (2 ^ 0) with 1. change (0 / 2) with 0.
  change (0 mod 2) with 0. split_and!; lia || done.
Qed.

Lemma div_inv_step D H L i hi lo t Q :
  0 < D < 2 ^ 32 -> 0 <= i < 32 -> div_inv D H L i hi lo t Q ->
  let b := b2z (2 ^ 31 <=? lo) in
  let '(hi', Q') := div1_step Q false (2 ^ 31 <=? hi) (u32 (2 * hi + b)) D in
  div_inv D H L (i + 1) hi' (u32 (2 * lo + t)) (b2z (negb Q')) Q'.
Proof.
  intros HD Hi (a & c & q & r & HL & Hc & -> & Hq & -> & HV & Hr & -> & ->).
  set (K := 2 ^ (32 - (i + 1))). set (P := 2 ^ i).
  assert (HK1 : 2 ^ (32 - (i + 1)) = K) by done.
  assert (HK : 2 ^ (32 - i) = 2 * K).
  { unfold K. rewrite <- Z.pow_succ_r by lia. f_equal. lia. }
  assert (HKP : K * P = 2147483648).
  { unfold K, P. rewrite <- Z.pow_add_r by lia. replace (32 - (i + 1) + i) with 31 by lia. done. }
  assert (HP1 : 2 ^ (i + 1) = 2 * P) by (unfold P; rewrite <- Z.pow_succ_r by lia; done).
  assert (0 < K /\ 0 < P) as [HK0 HP0] by (unfold K, P; split; apply Z.pow_pos_nonneg; lia).
  fold P in Hq, HV. rewrite HK in HL, Hc. clearbody K P. change (2 ^ 31) with 2147483648.
  assert (Hb : exists b d, c = b * K + d /\ 0 <= b <= 1 /\ 0 <= d < K /\
            b2z (2147483648 <=? c * P + q / 2) = b).
  { exists (if K <=? c then 1 else 0), (if K <=? c then c - K else c).
    destruct (Z.leb_spec K c).
    - split_and!; try lia. destruct (Z.leb_spec 2147483648 (c * P + q / 2)); [done|].
      exfalso. assert (0 <= q / 2) by (apply Z.div_pos; lia). nia.
    - split_and!; try lia. destruct (Z.leb_spec 2147483648 (c * P + q / 2)); [|done].
      exfalso. assert (q / 2 < P) by (apply Z.div_lt_upper_bound; lia). nia. }
  destruct Hb as (b & d & -> & Hb & Hd & ->). cbn zeta.
  destruct (div1_remainder r b D HD Hr Hb) as [Hs Hr']. change (2 ^ 31) with 2147483648 in Hs.
  rewrite Hs. set (r' := if r <? 0 then 2 * r + b + D else 2 * r + b - D) in *.
  assert (Hlo : u32 (2 * ((b * K + d) * P + q / 2) + q mod 2) = d * (2 * P) + q).
  { assert (Hqq : 2 * (q / 2) + q mod 2 = q) by (pose proof (Z.div_mod q 2); lia).
    replace (2 * ((b * K + d) * P + q / 2) + q mod 2)
      with (d * (2 * P) + q + b * 4294967296) by nia.
    unfold wrap. change (2 ^ 32) with 4294967296. rewrite Z.mod_add by lia.
    apply Z.mod_small. nia. }
  rewrite Hlo.
  exists (2 * a + b), d, (2 * q + b2z (negb (r' <? 0))), r'.
  assert (Ht : 0 <= b2z (negb (r' <? 0)) <= 1) by (destruct (r' <? 0); cbn; lia).
  rewrite HK1, HP1. split_and!; try lia.
  - f_equal. symmetry. replace (2 * q + b2z (negb (r' <? 0))) with (b2z (negb (r' <? 0)) + q * 2) by lia.
    rewrite Z.div_add by lia. rewrite Z.div_small by lia. lia.
  - symmetry. replace (2 * q + b2z (negb (r' <? 0))) with (b2z (negb (r' <? 0)) + q * 2) by lia.
    rewrite Z.mod_add by lia. apply Z.mod_small. lia.
  - unfold r' in *. destruct (Z.ltb_spec r 0); match goal with |- context [?x <? 0] =>
      destruct (Z.ltb_spec x 0) end; cbn [negb b2z]; lia.
Qed.

Lemma div_inv_end D H L hi lo t Q :
  0 <= H < D -> div_inv D H L 32 hi lo t Q -> u32 (2 * lo + t) = (H * 2 ^ 32 + L) / D.
Proof.
  intros HH (a & c & q & r & HL & Hc & -> & Hq & -> & HV & Hr & -> & ->).
  change (2 ^ (32 - 32)) with 1 in *. assert (c = 0) as -> by lia. rewrite Z.mul_0_l, Z.add_0_l.
  replace (2 * (q / 2) + q mod 2) with q by (pose proof (Z.div_mod q 2); lia).
  rewrite wrap_small by (unfold in_range; lia).
  apply Z.div_unique with (r := if r <? 0 then r + D else r); [|lia].
  left. destruct (Z.ltb_spec r 0); lia.
Qed.

Lemma lor_add_low x b : Z.land x 1 = 0 -> 0 <= b <= 1 -> Z.lor x b = x + b.
Proof.
  intros Hx Hb. assert (Hxb : Z.land x b = 0).
  { assert (b = 0 \/ b = 1) as [->| ->] by lia; [apply Z.land_0_r|done]. }
  by rewrite <- (Z.lxor_lor _ _ Hxb), <- (Z.add_nocarry_lxor _ _ Hxb).
Qed.

Lemma shift_in x b : 0 <= b <= 1 -> Z.lor (u32 (Z.shiftl x 1)) b = u32 (2 * x + b).
Proof.
  intros Hb. rewrite Z.shiftl_mul_pow2 by lia. change (2 ^ 1) with 2.
  rewrite lor_add_low; [euclid| |done].
  change 1 with (Z.ones 1). rewrite Z.land_ones by lia. change (2 ^ 1) with 2. euclid.
Qed.

Lemma top_bit x : in_range 32 x -> Z.testbit x 31 = (2 ^ 31 <=? x).
Proof.
  intros Hx. unfold in_range in Hx. rewrite Z.testbit_eqb by lia.
  change (2 ^ 31) with 2147483648 in *.
  destruct (Z.leb_spec 2147483648 x); destruct (Z.eqb_spec ((x / 2147483648) mod 2) 1); try done;
    exfalso; change (2 ^ 32) with 4294967296 in Hx; Z.to_euclidean_division_equations; lia.
Qed.

Lemma bit_field x n m : 0 <= n -> m = 2 ^ n -> Z.shiftr (Z.land x m) n = b2z (Z.testbit x n).
Proof.
  intros Hn ->. rewrite land_bit by done. destruct (Z.testbit x n); cbn [b2z].
  - rewrite Z.shiftr_div_pow2, Z.div_same by (pose proof (pow2_pos n Hn); lia). done.
  - apply Z.shiftr_0_l.
Qed.

Lemma b2z_bounds b : 0 <= b2z b <= 1.
Proof. destruct b; cbn; lia. Qed.

Lemma truth_b2z b : truth (b2z b) = b.
Proof. by destruct b. Qed.

(** SR after the bits of [mask] are replaced by those of [v] *)
Lemma sr_update_bits sr mask v k :
  in_range 32 mask -> 0 <= k < 32 -> Z.land v mask = v ->
  Z.testbit (u32 (Z.lor (Z.land sr (not32 mask)) v)) k =
    if Z.testbit mask k then Z.testbit v k else Z.testbit sr k.
Proof.
  intros Hm Hk Hv. rewrite wrap_testbit, Z.lor_spec, Z.land_spec, not32_spec by (done || lia).
  destruct (Z.ltb_spec k 32); [|lia]. cbn [andb]. rewrite <- Hv, Z.land_spec.
  destruct (Z.testbit mask k), (Z.testbit v k), (Z.testbit sr k); done.
Qed.

Section division.
Context {W : Type} {CFG : BuildConfig} {MCH : Machine W}.
Implicit Types s : Sh4 W.

Lemma rotcl_exec n s :
  regs_ok s -> reg_no n ->
  exists s', sh4_inst_unary_rotcl_gen (op_n 0x4024 n) s = Ok (tt, s') /\ regs_ok s' /\
    R n s' = u32 (2 * R n s + b2z (T_bit s)) /\ T_bit s' = (2 ^ 31 <=? R n s) /\
    Q_bit s' = Q_bit s /\ M_bit s' = M_bit s /\
    (forall m, reg_no m -> m <> n -> R m s' = R m s).
Proof.
  intros Hok Hn. destruct (op_n_fields 0x4024 n Hn) as [Hrn Hmask]; [cbn; tauto|].
  unfold sh4_inst_unary_rotcl_gen. rewrite Hrn.
  erewrite bind_ok by (by apply check_inst_ok). unfold gen_reg.
  do 2 erewrite bind_ok by done. cbv beta zeta. fold (R n s).
  change 0x80000000 with (2 ^ 31). rewrite bit_field by done. change (2 ^ 31) with 0x80000000.
  change SH4_SR_FLAG_T_SHIFT with 0. rewrite (bit_field _ 0) by done. fold (T_bit s).
  rewrite shift_in by apply b2z_bounds. rewrite top_bit by by apply R_range.
  eexists. split; [reflexivity|].
  set (s1 := setr SH4_REG_SR _ s). assert (Hok1 : regs_ok s1) by by apply setr_ok.
  assert (Hsr : forall k, 0 <= k < 32 -> Z.testbit (getr SH4_REG_SR s1) k =
            if Z.testbit 1 k then 2 ^ 31 <=? R n s else Z.testbit (getr SH4_REG_SR s) k).
  { intros k Hk. unfold s1. rewrite sr_set_sr by done. change SH4_SR_FLAG_T_MASK with 1.
    rewrite Z.shiftl_0_r, sr_update_bits by (done || by destruct (_ <=? _)).
    assert (k = 0 \/ 0 < k) as [->|Hk'] by lia; [by destruct (_ <=? _)|].
    change 1 with (2 ^ 0). by rewrite Z.pow2_bits_false by lia. }
  split; [by apply setr_ok|]. split_and!.
  - rewrite R_set_eq by done. apply wrap_wrap.
  - unfold T_bit. by rewrite sr_set_R, Hsr by done.
  - unfold Q_bit. by rewrite sr_set_R, Hsr by done.
  - unfold M_bit. by rewrite sr_set_R, Hsr by done.
  - intros m Hm Hne. rewrite R_set_ne by done. by apply R_set_sr.
Qed.

(** [sr_and (not32 mask)] followed by [sr_or v] *)
Lemma sr_and_or mask v s :
  regs_ok s -> in_range 32 mask -> Z.land v mask = v ->
  exists s', (sr_and (not32 mask) ;; sr_or v) s = Ok (tt, s') /\
    s' = setr SH4_REG_SR (Z.lor (Z.land (getr SH4_REG_SR s) (not32 mask)) v) s /\
    forall k, 0 <= k < 32 -> Z.testbit (getr SH4_REG_SR s') k =
      if Z.testbit mask k then Z.testbit v k else Z.testbit (getr SH4_REG_SR s) k.
Proof.
  intros Hok Hm Hv. eexists. split; [|split; [reflexivity|]].
  - cbv [sr_and sr_or bind reg_get reg_set gets modify].
    rewrite sr_set_sr, setr_setr, wrap_small; [done| |done].
    apply land_range_l; [lia|by apply getr_range].
  - intros k Hk. rewrite sr_set_sr by done. by apply sr_update_bits.
Qed.

Lemma div1_exec n m s :
  regs_ok s -> reg_no n -> reg_no m -> n <> m -> M_bit s = false ->
  let '(hi', Q') := div1_step (Q_bit s) false (2 ^ 31 <=? R n s)
                      (u32 (2 * R n s + b2z (T_bit s))) (R m s) in
  exists s', sh4_inst_binary_div1_gen_gen (op_nm 0x3004 n m) s = Ok (tt, s') /\ regs_ok s' /\
    R n s' = u32 hi' /\ T_bit s' = negb Q' /\ Q_bit s' = Q' /\ M_bit s' = false /\
    (forall k, reg_no k -> k <> n -> R k s' = R k s).
Proof.
  intros Hok Hn Hm Hne HM.
  destruct (op_nm_fields 0x3004 n m Hn Hm) as (Hrn & Hrm & Hmask); [cbn; tauto|].
  destruct (div1_step _ _ _ _ _) as [hi' Q'] eqn:Hd.
  unfold sh4_inst_binary_div1_gen_gen. rewrite Hrn, Hrm.
  erewrite bind_ok by (by apply check_inst_ok). unfold gen_reg.
  do 3 erewrite bind_ok by done. cbv beta zeta. fold (R n s) (R m s).
  change 0x80000000 with (2 ^ 31). rewrite truth_land_bit, top_bit by (done || by apply R_range).
  change SH4_SR_FLAG_T_SHIFT with 0. change SH4_SR_Q_SHIFT with 8. change SH4_SR_M_SHIFT with 9.
  rewrite !(bit_field (getr SH4_REG_SR s)) by done.
  fold (T_bit s) (Q_bit s) (M_bit s). rewrite HM, !truth_b2z.
  rewrite shift_in by apply b2z_bounds. rewrite Hd.
  set (v := Z.lor (Z.shiftl (b2z (b2z Q' =? b2z false)) 0) (Z.shiftl (b2z Q') 8)).
  change (Z.lor SH4_SR_Q_MASK SH4_SR_FLAG_T_MASK) with 0x101.
  assert (Hv : Z.land v 0x101 = v) by (unfold v; by destruct Q').
  destruct (sr_and_or 0x101 v s Hok) as (s1 & Hs1 & -> & Hbits); [done|done|].
  set (s1 := setr SH4_REG_SR _ s) in *. assert (Hok1 : regs_ok s1) by by apply setr_ok.
  exists (setr (sh4_gen_reg_idx n) hi' s1). split.
  { unfold bind in Hs1 |- *.
    destruct (sr_and (not32 0x101) s) as [[[] s0]|]; [|done]. by rewrite Hs1. }
  split; [by apply setr_ok|]. split_and!.
  - by apply R_set_eq.
  - unfold T_bit. rewrite sr_set_R, Hbits by done. unfold v. by destruct Q'.
  - unfold Q_bit. rewrite sr_set_R, Hbits by done. unfold v. by destruct Q'.
  - unfold M_bit. by rewrite sr_set_R, Hbits by done.
  - intros k Hk Hkn. rewrite R_set_ne by done. by apply R_set_sr.
Qed.

Lemma div0u_exec s :
  regs_ok s ->
  exists s', sh4_inst_noarg_div0u 0x0019 s = Ok (tt, s') /\ regs_ok s' /\
    T_bit s' = false /\ Q_bit s' = false /\ M_bit s' = false /\
    (forall k, reg_no k -> R k s' = R k s).
Proof.
  intros Hok. unfold sh4_inst_noarg_div0u. erewrite bind_ok by (by apply check_inst_ok).
  eexists. split; [reflexivity|]. split; [by apply setr_ok|].
  unfold T_bit, Q_bit, M_bit. rewrite sr_set_sr, !wrap_testbit, !Z.land_spec by (done || lia).
  split_and!; try (cbn; by rewrite andb_false_r). intros k Hk. by apply R_set_sr.
Qed.

(** the sequence [ROTCL Rl; DIV1 Rm,Rh], and its [n]-fold repetition *)
Definition div_pair (h l m : Z) : M (Sh4 W) unit :=
  sh4_inst_unary_rotcl_gen (op_n 0x4024 l) ;; sh4_inst_binary_div1_gen_gen (op_nm 0x3004 h m).
Fixpoint repeat_inst (n : nat) (body : M (Sh4 W) unit) : M (Sh4 W) unit :=
  match n with O => ret tt | S n' => body ;; repeat_inst n' body end.
Definition divu_program (h l m : Z) : M (Sh4 W) unit :=
  sh4_inst_noarg_div0u 0x0019 ;; repeat_inst 32 (div_pair h l m) ;;
  sh4_inst_unary_rotcl_gen (op_n 0x4024 l).

Definition div_state (h l m D H L i : Z) (s : Sh4 W) : Prop :=
  regs_ok s /\ R m s = D /\ M_bit s = false /\
  div_inv D H L i (R h s) (R l s) (b2z (T_bit s)) (Q_bit s).

Lemma div_pair_exec h l m D H L i s :
  reg_no h -> reg_no l -> reg_no m -> h <> l -> h <> m -> l <> m ->
  0 < D < 2 ^ 32 -> 0 <= i < 32 -> div_state h l m D H L i s ->
  exists s', div_pair h l m s = Ok (tt, s') /\ div_state h l m D H L (i + 1) s'.
Proof.
  intros Hh Hl Hm Hhl Hhm Hlm HD Hi (Hok & HmD & HM & Hinv).
  destruct (rotcl_exec l s Hok Hl) as (s1 & H1 & Hok1 & Rl1 & T1 & Q1 & M1 & O1).
  pose proof (div1_exec h m s1 Hok1 Hh Hm Hhm ltac:(congruence)) as Hd.
  rewrite Q1, T1, !O1, HmD in Hd by done.
  pose proof (div_inv_step D H L i _ _ _ _ HD Hi Hinv) as Hst. cbv zeta in Hst.
  destruct (div1_step _ _ _ _ _) as [hi' Q'] eqn:Es.
  destruct Hd as (s2 & H2 & Hok2 & Rh2 & T2 & Q2 & M2 & O2).
  exists s2. split; [unfold div_pair; by erewrite bind_ok by exact H1|].
  split; [done|]. split; [by rewrite O2, O1|]. split; [done|].
  rewrite Rh2, T2, Q2, O2, Rl1 by done.
  rewrite wrap_small; [done|].
  destruct Hst as (? & ? & ? & ? & _ & _ & _ & _ & _ & _ & _ & -> & _). by apply wrap_range.
Qed.

Lemma div_loop_exec h l m D H L n i s :
  reg_no h -> reg_no l -> reg_no m -> h <> l -> h <> m -> l <> m ->
  0 < D < 2 ^ 32 -> 0 <= i -> i + Z.of_nat n <= 32 -> div_state h l m D H L i s ->
  exists s', repeat_inst n (div_pair h l m) s = Ok (tt, s') /\
    div_state h l m D H L (i + Z.of_nat n) s'.
Proof.
  intros Hh Hl Hm Hhl Hhm Hlm HD. revert i s.
  induction n as [|n IH]; intros i s Hi Hn Hs; cbn [repeat_inst].
  { exists s. by rewrite Z.add_0_r. }
  destruct (div_pair_exec h l m D H L i s) as (s1 & H1 & Hs1); [done..|lia|done|].
  erewrite bind_ok by exact H1.
  destruct (IH (i + 1) s1) as (s2 & H2 & Hs2); [lia|lia|done|].
  exists s2. split; [done|]. replace (i + Z.of_nat (S n)) with (i + 1 + Z.of_nat n) by lia. done.
Qed.

(** C33: the standard unsigned division sequence of the SH-4, [DIV0U] followed by thirty-two
    pairs [ROTCL Rl; DIV1 Rm,Rh] and a last [ROTCL Rl], leaves in Rl the quotient of the
    64-bit dividend Rh:Rl by Rm, for any three distinct registers with Rh < Rm. *)
Theorem divu_quotient (h l m : Z) (s : Sh4 W) :
  regs_ok s -> reg_no h -> reg_no l -> reg_no m -> h <> l -> h <> m -> l <> m ->
  R h s < R m s ->
  exists s', divu_program h l m s = Ok (tt, s') /\
    R l s' = (R h s * 2 ^ 32 + R l s) / R m s /\ R m s' = R m s.
Proof.
  intros Hok Hh Hl Hm Hhl Hhm Hlm Hlt.
  pose proof (R_range h s Hok) as Rh. pose proof (R_range m s Hok) as Rm.
  unfold in_range in Rh, Rm.
  destruct (div0u_exec s Hok) as (s0 & H0 & Hok0 & T0 & Q0 & M0 & O0).
  destruct (div_loop_exec h l m (R m s) (R h s) (R l s) 32 0 s0) as (s1 & H1 & Hs1);
    try done; try lia.
  { split; [done|]. split; [by rewrite O0|]. split; [done|].
    rewrite T0, Q0, !O0 by done. apply div_inv_start; [lia|lia|by apply R_range]. }
  destruct Hs1 as (Hok1 & HmD & _ & Hinv).
  destruct (rotcl_exec l s1 Hok1 Hl) as (s2 & H2 & _ & Rl2 & _ & _ & _ & O2).
  exists s2. split.
  { unfold divu_program. erewrite bind_ok by exact H0. erewrite bind_ok by exact H1. done. }
  split; [|by rewrite O2 by congruence]. rewrite Rl2. eapply div_inv_end; [|exact Hinv]. lia.
Qed.
End division.

(** ** Addition and subtraction with carry and with overflow *)
Section carry.
Context {W : Type} {CFG : BuildConfig} {MCH : Machine W}.
Implicit Types s : Sh4 W.

(** the T flag set or cleared by [sr_or] and [sr_and] *)
Lemma set_t_exec (b : bool) s :
  regs_ok s ->
  exists s', (if b then sr_or SH4_SR_FLAG_T_MASK else sr_and (not32 SH4_SR_FLAG_T_MASK)) s =
      Ok (tt, s') /\ regs_ok s' /\ T_bit s' = b /\ (forall k, reg_no k -> R k s' = R k s).
Proof.
  intros Hok. destruct b; eexists; (split; [reflexivity|]); (split; [by apply setr_ok|]);
    (split; [|intros k Hk; by apply R_set_sr]); unfold T_bit; rewrite sr_set_sr by done;
    rewrite wrap_testbit, ?Z.lor_spec, ?Z.land_spec by lia; cbn.
  - by rewrite orb_true_r.
  - by rewrite andb_false_r.
Qed.

(** the common shape of the four instructions: a result and a flag from the operands *)
Lemma alu_exec n (r : Z) (b : bool) s :
  regs_ok s -> reg_no n ->
  exists s', (set_gen_reg n r ;;
              if b then sr_or SH4_SR_FLAG_T_MASK else sr_and (not32 SH4_SR_FLAG_T_MASK)) s =
      Ok (tt, s') /\ regs_ok s' /\ R n s' = u32 r /\ T_bit s' = b /\
    (forall k, reg_no k -> k <> n -> R k s' = R k s).
Proof.
  intros Hok Hn. assert (Hok1 : regs_ok (setr (sh4_gen_reg_idx n) r s)) by by apply setr_ok.
  destruct (set_t_exec b _ Hok1) as (s' & Hs & Hok' & HT & HR).
  exists s'. split; [by erewrite bind_ok|]. split; [done|].
  split; [by rewrite HR, R_set_eq by done|]. split; [done|].
  intros k Hk Hne. rewrite HR by done. by apply R_set_ne.
Qed.

Lemma truth_t s : truth (Z.land (getr SH4_REG_SR s) SH4_SR_FLAG_T_MASK) = T_bit s.
Proof. change SH4_SR_FLAG_T_MASK with (2 ^ 0). by apply truth_land_bit. Qed.

Lemma addc_exec n m s :
  regs_ok s -> reg_no n -> reg_no m ->
  exists s', sh4_inst_binary_addc_gen_gen (op_nm 0x300e n m) s = Ok (tt, s') /\ regs_ok s' /\
    R n s' + 2 ^ 32 * b2z (T_bit s') = R n s + R m s + b2z (T_bit s) /\
    (forall k, reg_no k -> k <> n -> R k s' = R k s).
Proof.
  intros Hok Hn Hm.
  destruct (op_nm_fields 0x300e n m Hn Hm) as (Hrn & Hrm & Hmask); [cbn; tauto|].
  unfold sh4_inst_binary_addc_gen_gen. rewrite Hrn, Hrm.
  erewrite bind_ok by (by apply check_inst_ok). do 3 erewrite bind_ok by done. cbv beta zeta.
  fold (R n s) (R m s). rewrite truth_t.
  pose proof (add_flags_sum (R m s) (R n s) (T_bit s) (R_range m s Hok) (R_range n s Hok)) as Hf.
  destruct (add_flags _ _ _) as [[r co] ov]. destruct Hf as [Hr Hsum].
  destruct (alu_exec n r co s Hok Hn) as (s' & Hs & Hok' & HR & HT & HO).
  exists s'. split; [exact Hs|]. split; [done|]. split; [|done].
  rewrite HR, HT, wrap_small by done. lia.
Qed.

Lemma subc_exec n m s :
  regs_ok s -> reg_no n -> reg_no m ->
  exists s', sh4_inst_binary_subc_gen_gen (op_nm 0x300a n m) s = Ok (tt, s') /\ regs_ok s' /\
    R n s' - 2 ^ 32 * b2z (T_bit s') = R n s - R m s - b2z (T_bit s) /\
    (forall k, reg_no k -> k <> n -> R k s' = R k s).
Proof.
  intros Hok Hn Hm.
  destruct (op_nm_fields 0x300a n m Hn Hm) as (Hrn & Hrm & Hmask); [cbn; tauto|].
  unfold sh4_inst_binary_subc_gen_gen. rewrite Hrn, Hrm.
  erewrite bind_ok by (by apply check_inst_ok). do 3 erewrite bind_ok by done. cbv beta zeta.
  fold (R n s) (R m s). rewrite truth_t.
  pose proof (sub_flags_diff (R m s) (R n s) (T_bit s) (R_range m s Hok) (R_range n s Hok)) as Hf.
  destruct (sub_flags _ _ _) as [[r co] ov].
  destruct (alu_exec n r co s Hok Hn) as (s' & Hs & Hok' & HR & HT & HO).
  exists s'. split; [exact Hs|]. split; [done|]. split; [|done]. rewrite HR, HT. lia.
Qed.

(** two ADDC instructions add 64-bit numbers held in register pairs, and two SUBC
    instructions subtract them, with the carry or borrow of the whole in the T flag, for
    any four distinct registers. *)
Theorem addc_subc_64 (h l h' l' : Z) (s : Sh4 W) :
  regs_ok s -> NoDup [h; l; h'; l'] -> Forall reg_no [h; l; h'; l'] ->
  let value x y s := R x s * 2 ^ 32 + R y s in
  (exists s', (sh4_inst_binary_addc_gen_gen (op_nm 0x300e l l') ;;
               sh4_inst_binary_addc_gen_gen (op_nm 0x300e h h')) s = Ok (tt, s') /\
     value h l s' + 2 ^ 64 * b2z (T_bit s') = value h l s + value h' l' s + b2z (T_bit s)) /\
  (exists s', (sh4_inst_binary_subc_gen_gen (op_nm 0x300a l l') ;;
               sh4_inst_binary_subc_gen_gen (op_nm 0x300a h h')) s = Ok (tt, s') /\
     value h l s' - 2 ^ 64 * b2z (T_bit s') = value h l s - value h' l' s - b2z (T_bit s)).
Proof.
  intros Hok Hnd Hregs value.
  rewrite !list.NoDup_cons in Hnd. rewrite !list.Forall_cons in Hregs.
  destruct Hregs as (Hh & Hl & Hh' & Hl' & _).
  assert (h <> l /\ h' <> l /\ l <> h) as (N1 & N2 & N3) by set_solver. split.
  - destruct (addc_exec l l' s Hok Hl Hl') as (s1 & H1 & Hok1 & E1 & O1).
    destruct (addc_exec h h' s1 Hok1 Hh Hh') as (s2 & H2 & Hok2 & E2 & O2).
    exists s2. split; [by erewrite bind_ok|]. unfold value.
    rewrite !O1 in E2 by done. rewrite (O2 l) by done. lia.
  - destruct (subc_exec l l' s Hok Hl Hl') as (s1 & H1 & Hok1 & E1 & O1).
    destruct (subc_exec h h' s1 Hok1 Hh Hh') as (s2 & H2 & Hok2 & E2 & O2).
    exists s2. split; [by erewrite bind_ok|]. unfold value.
    rewrite !O1 in E2 by done. rewrite (O2 l) by done. lia.
Qed.

(** ADDV and SUBV compute the sum and the difference modulo [2^32] and set the T flag
    exactly when the signed result does not fit in 32 bits. *)
Theorem addv_subv_overflow (n m : Z) (s : Sh4 W) :
  regs_ok s -> reg_no n -> reg_no m ->
  (exists s', sh4_inst_binary_addv_gen_gen (op_nm 0x300f n m) s = Ok (tt, s') /\
     R n s' = u32 (R n s + R m s) /\
     T_bit s' = negb (fits_int32 (s32 (R n s) + s32 (R m s)))) /\
  (exists s', sh4_inst_binary_subv_gen_gen (op_nm 0x300b n m) s = Ok (tt, s') /\
     R n s' = u32 (R n s - R m s) /\
     T_bit s' = negb (fits_int32 (s32 (R n s) - s32 (R m s)))).
Proof.
  intros Hok Hn Hm. pose proof (R_range n s Hok) as Rn. pose proof (R_range m s Hok) as Rm. split.
  - destruct (op_nm_fields 0x300f n m Hn Hm) as (Hrn & Hrm & Hmask); [cbn; tauto|].
    unfold sh4_inst_binary_addv_gen_gen. rewrite Hrn, Hrm.
    erewrite bind_ok by (by apply check_inst_ok). do 2 erewrite bind_ok by done.
    cbv beta zeta. fold (R n s) (R m s).
    pose proof (add_flags_sum (R m s) (R n s) false Rm Rn) as Hf.
    pose proof (add_flags_overflow (R m s) (R n s) Rm Rn) as Ho.
    destruct (add_flags _ _ _) as [[r co] ov]. cbn [snd] in Ho. destruct Hf as [Hr Hsum].
    destruct (alu_exec n r ov s Hok Hn) as (s' & Hs & Hok' & HR & HT & HO).
    exists s'. split; [exact Hs|]. split; [|by rewrite HT, Ho, Z.add_comm].
    rewrite HR. cbn in Hsum. destruct co; cbn in Hsum; euclid.
  - destruct (op_nm_fields 0x300b n m Hn Hm) as (Hrn & Hrm & Hmask); [cbn; tauto|].
    unfold sh4_inst_binary_subv_gen_gen. rewrite Hrn, Hrm.
    erewrite bind_ok by (by apply check_inst_ok). do 2 erewrite bind_ok by done.
    cbv beta zeta. fold (R n s) (R m s).
    pose proof (sub_flags_diff (R m s) (R n s) false Rm Rn) as Hf.
    pose proof (swrap_range 32 (R m s) ltac:(lia)). pose proof (swrap_range 32 (R n s) ltac:(lia)).
    pose proof (sub_flags_overflow (s32 (R m s)) (s32 (R n s)) ltac:(done) ltac:(done)) as Ho.
    destruct (sub_flags _ _ _) as [[r co] ov]. cbn [snd] in Ho.
    destruct (alu_exec n r ov s Hok Hn) as (s' & Hs & Hok' & HR & HT & HO).
    exists s'. split; [exact Hs|]. split; [|by rewrite HT, Ho].
    rewrite HR. cbn in Hf. destruct co; cbn in Hf; euclid.
Qed.

(** NEGC computes [0 - Rm - T] with the borrow in the T flag.  The handler only ever
    sets the flag, which is enough: with a borrow coming in there is always one going out. *)
Theorem negc_exact (n m : Z) (s : Sh4 W) :
  regs_ok s -> reg_no n -> reg_no m ->
  exists s', sh4_inst_binary_negc_gen_gen (op_nm 0x600a n m) s = Ok (tt, s') /\
    R n s' - 2 ^ 32 * b2z (T_bit s') = 0 - R m s - b2z (T_bit s).
Proof.
  intros Hok Hn Hm.
  destruct (op_nm_fields 0x600a n m Hn Hm) as (Hrn & Hrm & Hmask); [cbn; tauto|].
  unfold sh4_inst_binary_negc_gen_gen. rewrite Hrn, Hrm.
  erewrite bind_ok by (by apply check_inst_ok). do 2 erewrite bind_ok by done.
  cbv beta zeta. fold (R m s). change SH4_SR_FLAG_T_SHIFT with 0.
  rewrite (bit_field _ 0) by done. fold (T_bit s).
  pose proof (R_range m s Hok) as Hr.
  assert (Hneg : u32 (- s32 (R m s)) = u32 (- R m s))
    by (unfold swrap, wrap in *; change (2 ^ (32 - 1)) with 2147483648; euclid).
  rewrite Hneg. set (tmp := u32 (- R m s)). set (dst := u32 (tmp - b2z (T_bit s))).
  eexists. split; [reflexivity|].
  rewrite R_set_eq by (done || by apply setr_ok).
  unfold T_bit at 1. rewrite sr_set_R, sr_set_sr, wrap_testbit, Z.lor_spec by (done || lia).
  fold (T_bit s). change (0 <? 32) with true. rewrite Z.shiftl_0_r.
  assert (Hb : forall b, Z.testbit (b2z b) 0 = b) by (by intros []). rewrite Hb.
  assert (Ht : truth tmp = negb (R m s =? 0)).
  { unfold truth, tmp. f_equal. destruct (Z.eqb_spec (R m s) 0) as [->|]; [done|].
    apply Z.eqb_neq. euclid. }
  rewrite Ht. unfold dst, tmp. destruct (T_bit s); cbn [b2z orb andb].
  - euclid.
  - rewrite !Z.sub_0_r, !wrap_wrap, Z.gtb_ltb, Z.ltb_irrefl, orb_false_r. destruct (Z.eqb_spec (R m s) 0) as [->|]; cbn [negb b2z]; euclid.
Qed.
End carry.

(** ** Multiply and accumulate *)
Definition clamp (lo hi x : Z) : Z := Z.max lo (Z.min hi x).

(** the saturating addition of MAC.L is exact for every accumulator *)
Lemma macl_saturate_clamp mac product :
  - 2 ^ 63 <= mac < 2 ^ 63 -> - 2 ^ 62 <= product <= 2 ^ 62 ->
  macl_saturate mac product = clamp MIN48 MAX48 (mac + product).
Proof.
  intros Hm Hp. unfold macl_saturate, clamp.
  change MIN48 with (-140737488355328). change MAX48 with 140737488355327.
  set (sum := s64 (mac + product)).
  assert (Hs : sum = mac + product \/ (sum = mac + product - 2 ^ 64 /\ 2 ^ 63 <= mac + product) \/
               (sum = mac + product + 2 ^ 64 /\ mac + product < - 2 ^ 63)).
  { unfold sum, swrap. change (2 ^ (64 - 1)) with 9223372036854775808.
    change (2 ^ 64) with 18446744073709551616. change (2 ^ 63) with 9223372036854775808 in *.
    change (2 ^ 62) with 4611686018427387904 in *. Z.to_euclidean_division_equations. lia. }
  change (2 ^ 64) with 18446744073709551616 in *. change (2 ^ 63) with 9223372036854775808 in *.
  change (2 ^ 62) with 4611686018427387904 in *.
  destruct (Z.ltb_spec sum 0), (Z.geb_spec mac 0), (Z.geb_spec product 0), (Z.ltb_spec mac 0),
    (Z.ltb_spec product 0), (Z.ltb_spec sum (-140737488355328)),
    (Z.gtb_spec sum 140737488355327); cbn [andb]; lia.
Qed.

Lemma product_range a b : - 2 ^ 62 <= s32 a * s32 b <= 2 ^ 62.
Proof.
  pose proof (swrap_range 32 a ltac:(lia)). pose proof (swrap_range 32 b ltac:(lia)).
  change (2 ^ (32 - 1)) with 2147483648 in *. change (2 ^ 62) with (2147483648 * 2147483648). nia.
Qed.

(** the halves of a 64-bit value, put together again *)
Lemma mac_value_split x : mac_value (Z.shiftr (u64 x) 32) (Z.land (u64 x) 0xffffffff) = s64 x.
Proof.
  unfold mac_value. assert (E : Z.lor (Z.land (u64 x) 0xffffffff)
      (Z.shiftl (Z.shiftr (u64 x) 32) 32) = u64 x).
  { change 0xffffffff with (Z.ones 32). apply Z.bits_inj'. intros n Hn.
    rewrite Z.lor_spec, Z.land_spec, Z.testbit_ones_nonneg, Z.shiftl_spec by lia.
    destruct (Z.ltb_spec n 32).
    - rewrite (Z.testbit_neg_r _ (n - 32)) by lia. by rewrite andb_true_r, orb_false_r.
    - rewrite Z.shiftr_spec by lia. rewrite andb_false_r. cbn. f_equal. lia. }
  rewrite E. unfold swrap, wrap. by rewrite Zplus_mod_idemp_l.
Qed.

Section mac.
Context {W : Type} {CFG : BuildConfig} {MCH : Machine W}.
Implicit Types s : Sh4 W.

Definition MAC (s : Sh4 W) : Z := mac_value (getr SH4_REG_MACH s) (getr SH4_REG_MACL s).
Definition S_bit (s : Sh4 W) : bool := Z.testbit (getr SH4_REG_SR s) 1.

Lemma gen_reg_exec n s : gen_reg n s = Ok (R n s, s).
Proof. reflexivity. Qed.

(** MAC.L adds the signed product of two longwords of memory to the 64-bit accumulator
    MACH:MACL: modulo [2^64] when the S flag is clear, and clamped to the signed 48-bit range
    when it is set, for every value of the accumulator, overflow of the 64-bit addition
    included; both pointers advance by four. *)
Theorem macl_accumulates (n m lhs rhs : Z) (s : Sh4 W) :
  regs_ok s -> reg_no n -> reg_no m -> n <> m ->
  memory_map_read_32 (R n s) s = Ok (lhs, s) -> memory_map_read_32 (R m s) s = Ok (rhs, s) ->
  exists s', sh4_inst_binary_macl_indgeninc_indgeninc (op_nm 0x000f n m) s = Ok (tt, s') /\
    MAC s' = (if S_bit s then clamp MIN48 MAX48 (MAC s + s32 lhs * s32 rhs)
              else s64 (MAC s + s32 lhs * s32 rhs)) /\
    R n s' = u32 (R n s + 4) /\ R m s' = u32 (R m s + 4).
Proof.
  intros Hok Hn Hm Hne Hl Hr.
  destruct (op_nm_fields 0x000f n m Hn Hm) as (Hrn & Hrm & Hmask); [cbn; tauto|].
  unfold sh4_inst_binary_macl_indgeninc_indgeninc. rewrite Hrn, Hrm.
  erewrite bind_ok by (by apply check_inst_ok). erewrite bind_ok by apply gen_reg_exec.
  erewrite bind_ok by exact Hl. erewrite bind_ok by apply gen_reg_exec.
  erewrite bind_ok by exact Hr. do 3 erewrite bind_ok by done. cbv beta zeta. fold (MAC s).
  pose proof (product_range lhs rhs) as Hp.
  rewrite (swrap_small 64 (s32 lhs * s32 rhs))
    by (change (2 ^ (64 - 1)) with (2 * 2 ^ 62); lia).
  change SH4_SR_FLAG_S_MASK with (2 ^ 1). rewrite truth_land_bit by lia. fold (S_bit s).
  set (sum := if negb (S_bit s) then _ else _).
  do 2 erewrite bind_ok by done.
  set (s1 := setr SH4_REG_MACH _ _).
  assert (Hok1 : regs_ok s1) by by apply setr_ok, setr_ok.
  erewrite bind_ok by apply gen_reg_exec. erewrite bind_ok by done.
  erewrite bind_ok by apply gen_reg_exec.
  assert (H1n : forall k, reg_no k -> R k s1 = R k s).
  { intros k Hk. unfold reg_no in Hk. unfold R, s1. rewrite !getr_setr_ne; try done;
      unfold sh4_gen_reg_idx, SH4_REG_R0, SH4_REG_MACH, SH4_REG_MACL; lia. }
  eexists. split; [reflexivity|]. split_and!.
  - unfold MAC at 1. rewrite !getr_setr_ne; try done;
      try (unfold reg_no, sh4_gen_reg_idx, SH4_REG_R0, SH4_REG_MACH, SH4_REG_MACL in *; lia).
    unfold s1. rewrite getr_setr_eq by (done || by apply setr_ok).
    rewrite (getr_setr_ne SH4_REG_MACL) by done. rewrite getr_setr_eq by done.
    rewrite (wrap_small 32 (Z.shiftr _ _)), (wrap_small 32 (Z.land _ _)).
    2:{ change 0xffffffff with (Z.ones 32). rewrite Z.land_ones by lia. by apply wrap_range. }
    2:{ unfold in_range. rewrite Z.shiftr_div_pow2 by lia.
        pose proof (wrap_range 64 sum ltac:(lia)) as [? ?].
        split; [by apply Z.div_pos|]. by apply Z.div_lt_upper_bound. }
    rewrite mac_value_split. unfold sum. destruct (S_bit s); cbn [negb].
    + rewrite macl_saturate_clamp; [|exact (swrap_range 64 _ ltac:(lia))|done].
      apply swrap_small; [lia|]. unfold clamp. change MIN48 with (-140737488355328).
      change MAX48 with 140737488355327. change (2 ^ (64 - 1)) with 9223372036854775808. lia.
    + rewrite (swrap_small 64 (s64 _)) by (lia || exact (swrap_range 64 _ ltac:(lia))). by rewrite Z.add_comm.
  - rewrite R_set_ne, R_set_eq, H1n by done. done.
  - rewrite R_set_eq by (done || by apply setr_ok). rewrite R_set_ne, H1n by done. done.
Qed.

(** MAC.W with the S flag set takes a negative accumulator for a large positive one: it
    zero-extends MACL, so that any MACL with its sign bit set and a product that is not
    negative saturate to the positive maximum and set the overflow bit of MACH. *)
Theorem macw_saturation_sign (n m lhs rhs : Z) (s : Sh4 W) :
  regs_ok s -> reg_no n -> reg_no m -> n <> m -> S_bit s = true ->
  memory_map_read_16 (R n s) s = Ok (lhs, s) -> memory_map_read_16 (R m s) s = Ok (rhs, s) ->
  2 ^ 31 <= getr SH4_REG_MACL s -> 0 <= s16 lhs * s16 rhs ->
  exists s', sh4_inst_binary_macw_indgeninc_indgeninc (op_nm 0x400f n m) s = Ok (tt, s') /\
    getr SH4_REG_MACL s' = 0x7fffffff /\
    getr SH4_REG_MACH s' = Z.lor (getr SH4_REG_MACH s) 1.
Proof.
  intros Hok Hn Hm Hne HS Hl Hr Hmac Hprod.
  destruct (op_nm_fields 0x400f n m Hn Hm) as (Hrn & Hrm & Hmask); [cbn; tauto|].
  unfold sh4_inst_binary_macw_indgeninc_indgeninc. rewrite Hrn, Hrm.
  erewrite bind_ok by (by apply check_inst_ok). erewrite bind_ok by apply gen_reg_exec.
  erewrite bind_ok by exact Hl. erewrite bind_ok by apply gen_reg_exec.
  erewrite bind_ok by exact Hr. erewrite bind_ok by done. cbv beta zeta.
  change SH4_SR_FLAG_S_MASK with (2 ^ 1). rewrite truth_land_bit by lia. fold (S_bit s).
  rewrite HS. pose proof (getr_range SH4_REG_MACL s Hok) as Hrange.
  pose proof (swrap_range 16 lhs ltac:(lia)). pose proof (swrap_range 16 rhs ltac:(lia)).
  assert (Hsum : s64 (s16 lhs * s16 rhs + getr SH4_REG_MACL s) =
                 s16 lhs * s16 rhs + getr SH4_REG_MACL s).
  { apply swrap_small; [lia|]. unfold in_range in Hrange.
    change (2 ^ (16 - 1)) with 32768 in *. change (2 ^ (64 - 1)) with 9223372036854775808.
    change (2 ^ 32) with 4294967296 in *. nia. }
  erewrite (bind_ok (bind _ _)); [|
    do 2 (erewrite bind_ok by done); cbv beta zeta; rewrite Hsum;
    change MIN32 with (-2147483648); change MAX32 with 2147483647;
    change (2 ^ 31) with 2147483648 in Hmac;
    destruct (Z.ltb_spec (s16 lhs * s16 rhs + getr SH4_REG_MACL s) (-2147483648)); [lia|];
    destruct (Z.gtb_spec (s16 lhs * s16 rhs + getr SH4_REG_MACL s) 2147483647); [|lia];
    erewrite bind_ok by done; reflexivity].
  erewrite bind_ok by apply gen_reg_exec. erewrite bind_ok by done.
  erewrite bind_ok by apply gen_reg_exec. eexists. split; [reflexivity|].
  unfold reg_no in *.
  assert (Hx : forall k, SH4_REG_MACH <> sh4_gen_reg_idx k \/ ~ (0 <= k < 16))
    by (intros; unfold SH4_REG_MACH, sh4_gen_reg_idx, SH4_REG_R0; lia).
  split.
  - rewrite !getr_setr_ne by (unfold SH4_REG_MACL, sh4_gen_reg_idx, SH4_REG_R0; lia).
    by rewrite getr_setr_eq by (done || by apply setr_ok).
  - rewrite !getr_setr_ne
      by (unfold SH4_REG_MACL, SH4_REG_MACH, sh4_gen_reg_idx, SH4_REG_R0; lia).
    rewrite getr_setr_eq by done. apply wrap_small, lor_range; [lia|by apply getr_range|done].
Qed.
End mac.

(** ** Witnesses, on a board that has only the RAM *)
Definition seven_by_two : Sh4 board :=
  cpu_with [(SH4_REG_R0, 0); (SH4_REG_R1, 7); (SH4_REG_R2, 2); (SH4_REG_R3, 0xffffffff);
            (SH4_REG_SR, 0x40000001)] ∅.

Lemma seven_by_two_ok : regs_ok seven_by_two.
Proof. apply regs_okb_sound. vm_compute. reflexivity. Qed.

Lemma divu_quotient_witness :
  exists s', divu_program 0 1 2 seven_by_two = Ok (tt, s') /\ R 1 s' = 3 /\ R 2 s' = 2.
Proof.
  apply (divu_quotient 0 1 2 seven_by_two seven_by_two_ok); unfold reg_no; try lia.
  vm_compute. reflexivity.
Defined.

Lemma addc_subc_64_witness : exists s',
  (sh4_inst_binary_addc_gen_gen (op_nm 0x300e 1 3) ;;
   sh4_inst_binary_addc_gen_gen (op_nm 0x300e 0 2)) seven_by_two = Ok (tt, s') /\
  R 0 s' * 2 ^ 32 + R 1 s' + 2 ^ 64 * b2z (T_bit s') = 7 + (2 * 2 ^ 32 + 0xffffffff) + 1.
Proof.
  refine (proj1 (addc_subc_64 0 1 2 3 seven_by_two seven_by_two_ok _ _)).
  - apply (bool_decide_unpack _). vm_compute. exact I.
  - repeat constructor; lia.
Defined.

Lemma addv_subv_overflow_witness : exists s',
  sh4_inst_binary_addv_gen_gen (op_nm 0x300f 1 2) seven_by_two = Ok (tt, s') /\
  R 1 s' = 9 /\ T_bit s' = false.
Proof.
  exact (proj1 (addv_subv_overflow 1 2 seven_by_two seven_by_two_ok
                  ltac:(unfold reg_no; lia) ltac:(unfold reg_no; lia))).
Defined.

Lemma negc_exact_witness : exists s',
  sh4_inst_binary_negc_gen_gen (op_nm 0x600a 1 0) seven_by_two = Ok (tt, s') /\
  R 1 s' - 2 ^ 32 * b2z (T_bit s') = 0 - 0 - 1.
Proof.
  exact (negc_exact 1 0 seven_by_two seven_by_two_ok
           ltac:(unfold reg_no; lia) ltac:(unfold reg_no; lia)).
Defined.

(** R4, R5 and R6 point to the longwords 0x7fffffff, 2 and 3; the accumulator is negative *)
Definition mac_cpu : Sh4 board :=
  cpu_with [(SH4_REG_R4, 0x0c000000); (SH4_REG_R5, 0x0c000004); (SH4_REG_R6, 0x0c000008);
            (SH4_REG_SR, 0x40000002); (SH4_REG_MACH, 0xffffffff); (SH4_REG_MACL, 0xfffffff6)]
    (memory.store 4 0 0x7fffffff (memory.store 4 4 2 (memory.store 4 8 3 ∅))).

Lemma mac_cpu_ok : regs_ok mac_cpu.
Proof. apply regs_okb_sound. vm_compute. reflexivity. Qed.

Lemma macl_accumulates_witness : exists s',
  sh4_inst_binary_macl_indgeninc_indgeninc (op_nm 0x000f 4 5) mac_cpu = Ok (tt, s') /\
  MAC s' = 4294967284 /\ R 4 s' = 0x0c000004 /\ R 5 s' = 0x0c000008.
Proof.
  apply (macl_accumulates 4 5 0x7fffffff 2 mac_cpu mac_cpu_ok); unfold reg_no; try lia;
    vm_compute; reflexivity.
Defined.

Lemma macw_saturation_sign_witness : exists s',
  sh4_inst_binary_macw_indgeninc_indgeninc (op_nm 0x400f 5 6) mac_cpu = Ok (tt, s') /\
  getr SH4_REG_MACL s' = 0x7fffffff /\ getr SH4_REG_MACH s' = Z.lor 0xffffffff 1.
Proof.
  apply (macw_saturation_sign 5 6 2 3 mac_cpu mac_cpu_ok); unfold reg_no; try lia;
    vm_compute; (reflexivity || congruence).
Defined.
