(* ===== verification/Sh4Decode.v ===== *)
(** Instruction decoding of the SH-4 core (src/libwashdc/hw/sh4/sh4_inst.c, sh4_inst.h,
    sh4.h): the opcode table, the linear search that fills the lookup table, and the
    lookup itself.

    The table holds the interpreter's handlers as functions.  The translators of the
    recompiler are named, since they use the decoder themselves; [Sh4Jit] gives the names
    their meaning.  The properties: at most one entry of the table accepts an opcode, so
    the order of the table is irrelevant; the lookup table agrees with the search; the
    run-time checks of the handlers never fire on a decoded opcode. *)
From S2P Require Import Prelude MemoryMap Sh4State Board Sh4Core Sh4Excp Sh4Inst Sh4InstMem.
From Stdlib Require Import Permutation.

(** the translators that the [disas] members point to *)
Inductive sh4_jit_fn : Type :=
| fn_sh4_jit_rts | fn_sh4_jit_fallback | fn_sh4_jit_clrt | fn_sh4_jit_nop | fn_sh4_jit_rte
| fn_sh4_jit_sett | fn_sh4_jit_movt | fn_sh4_jit_cmppz_rn | fn_sh4_jit_cmppl_rn
| fn_sh4_jit_dt_rn | fn_sh4_jit_shal_rn | fn_sh4_jit_shar_rn | fn_sh4_jit_shll_rn
| fn_sh4_jit_shlr_rn | fn_sh4_jit_shll2_rn | fn_sh4_jit_shlr2_rn | fn_sh4_jit_shll8_rn
| fn_sh4_jit_shlr8_rn | fn_sh4_jit_shll16_rn | fn_sh4_jit_shlr16_rn | fn_sh4_jit_braf_rn
| fn_sh4_jit_bsrf_rn | fn_sh4_inst_binary_andb_imm_r0 | fn_sh4_jit_or_imm8_r0
| fn_sh4_jit_tst_imm8_r0 | fn_sh4_jit_xor_imm8_r0 | fn_sh4_jit_bf | fn_sh4_jit_bfs
| fn_sh4_jit_bt | fn_sh4_jit_bts | fn_sh4_jit_bra | fn_sh4_jit_bsr | fn_sh4_jit_ocbi_arn
| fn_sh4_jit_ocbp_arn | fn_sh4_jit_ocbwb_arn | fn_sh4_jit_jmp_arn | fn_sh4_jit_jsr_arn
| fn_sh4_jit_mov_imm8_rn | fn_sh4_jit_add_imm_rn | fn_sh4_jit_movw_a_disp_pc_rn
| fn_sh4_jit_movl_a_disp_pc_rn | fn_sh4_jit_mov_rm_rn | fn_sh4_jit_swapw_rm_rn
| fn_sh4_jit_add_rm_rn | fn_sh4_jit_cmpeq_rm_rn | fn_sh4_jit_cmphs_rm_rn
| fn_sh4_jit_cmpge_rm_rn | fn_sh4_jit_cmphi_rm_rn | fn_sh4_jit_cmpgt_rm_rn
| fn_sh4_jit_muluw_rm_rn | fn_sh4_jit_sub_rm_rn | fn_sh4_jit_and_rm_rn | fn_sh4_jit_not_rm_rn
| fn_sh4_jit_or_rm_rn | fn_sh4_jit_tst_rm_rn | fn_sh4_jit_xor_rm_rn | fn_sh4_jit_shad_rm_rn
| fn_sh4_jit_sts_macl_rn | fn_sh4_jit_ldsl_armp_pr | fn_sh4_jit_movl_rm_arn
| fn_sh4_jit_movl_arm_rn | fn_sh4_jit_movl_rm_amrn | fn_sh4_jit_movl_armp_rn
| fn_sh4_jit_movl_a_disp4_rm_rn | fn_sh4_jit_movl_a_disp8_gbr_r0
| fn_sh4_jit_mova_a_disp_pc_r0.

#[export] Instance sh4_jit_fn_eq_dec : EqDecision sh4_jit_fn.
Proof. solve_decision. Defined.

Section sh4_decode.
Context {W : Type} `{!BuildConfig} `{!Machine W}.
Abbreviation sh4M := (M (Sh4 W)).

Record InstOpcode : Type := MkOpcode {
  func : Z -> sh4M unit;
  disas : sh4_jit_fn;
  pc_relative : bool;
  group : sh4_inst_group;
  issue : Z;
  op_mask : Z;
  op_val : Z
}.

(** [opcode_list], up to its terminator *)
Definition opcode_list : list InstOpcode := [
  MkOpcode sh4_inst_rts fn_sh4_jit_rts true SH4_GROUP_CO 2 0xffff 0x000b;
  MkOpcode sh4_inst_clrmac fn_sh4_jit_fallback false SH4_GROUP_CO 1 0xffff 0x0028;
  MkOpcode sh4_inst_clrs fn_sh4_jit_fallback false SH4_GROUP_CO 1 0xffff 0x0048;
  MkOpcode sh4_inst_clrt fn_sh4_jit_clrt false SH4_GROUP_MT 1 0xffff 0x0008;
  MkOpcode sh4_inst_ldtlb fn_sh4_jit_fallback false SH4_GROUP_CO 1 0xffff 0x0038;
  MkOpcode sh4_inst_nop fn_sh4_jit_nop false SH4_GROUP_MT 1 0xffff 0x0009;
  MkOpcode sh4_inst_rte fn_sh4_jit_rte true SH4_GROUP_CO 5 0xffff 0x002b;
  MkOpcode sh4_inst_sets fn_sh4_jit_fallback false SH4_GROUP_CO 1 0xffff 0x0058;
  MkOpcode sh4_inst_sett fn_sh4_jit_sett false SH4_GROUP_MT 1 0xffff 0x0018;
  MkOpcode sh4_inst_sleep fn_sh4_jit_fallback false SH4_GROUP_CO 4 0xffff 0x001b;
  MkOpcode sh4_inst_frchg fn_sh4_jit_fallback false SH4_GROUP_FE 1 0xffff 0xfbfd;
  MkOpcode sh4_inst_fschg fn_sh4_jit_fallback false SH4_GROUP_FE 1 0xffff 0xf3fd;
  MkOpcode sh4_inst_unary_movt_gen fn_sh4_jit_movt false SH4_GROUP_EX 1 0xf0ff 0x0029;
  MkOpcode sh4_inst_unary_cmppz_gen fn_sh4_jit_cmppz_rn false SH4_GROUP_MT 1 0xf0ff 0x4011;
  MkOpcode sh4_inst_unary_cmppl_gen fn_sh4_jit_cmppl_rn false SH4_GROUP_MT 1 0xf0ff 0x4015;
  MkOpcode sh4_inst_unary_dt_gen fn_sh4_jit_dt_rn false SH4_GROUP_EX 1 0xf0ff 0x4010;
  MkOpcode sh4_inst_unary_rotl_gen fn_sh4_jit_fallback false SH4_GROUP_EX 1 0xf0ff 0x4004;
  MkOpcode sh4_inst_unary_rotr_gen fn_sh4_jit_fallback false SH4_GROUP_EX 1 0xf0ff 0x4005;
  MkOpcode sh4_inst_unary_rotcl_gen fn_sh4_jit_fallback false SH4_GROUP_EX 1 0xf0ff 0x4024;
  MkOpcode sh4_inst_unary_rotcr_gen fn_sh4_jit_fallback false SH4_GROUP_EX 1 0xf0ff 0x4025;
  MkOpcode sh4_inst_unary_shal_gen fn_sh4_jit_shal_rn false SH4_GROUP_EX 1 0xf0ff 0x4020;
  MkOpcode sh4_inst_unary_shar_gen fn_sh4_jit_shar_rn false SH4_GROUP_EX 1 0xf0ff 0x4021;
  MkOpcode sh4_inst_unary_shll_gen fn_sh4_jit_shll_rn false SH4_GROUP_EX 1 0xf0ff 0x4000;
  MkOpcode sh4_inst_unary_shlr_gen fn_sh4_jit_shlr_rn false SH4_GROUP_EX 1 0xf0ff 0x4001;
  MkOpcode sh4_inst_unary_shll2_gen fn_sh4_jit_shll2_rn false SH4_GROUP_EX 1 0xf0ff 0x4008;
  MkOpcode sh4_inst_unary_shlr2_gen fn_sh4_jit_shlr2_rn false SH4_GROUP_EX 1 0xf0ff 0x4009;
  MkOpcode sh4_inst_unary_shll8_gen fn_sh4_jit_shll8_rn false SH4_GROUP_EX 1 0xf0ff 0x4018;
  MkOpcode sh4_inst_unary_shlr8_gen fn_sh4_jit_shlr8_rn false SH4_GROUP_EX 1 0xf0ff 0x4019;
  MkOpcode sh4_inst_unary_shll16_gen fn_sh4_jit_shll16_rn false SH4_GROUP_EX 1 0xf0ff 0x4028;
  MkOpcode sh4_inst_unary_shlr16_gen fn_sh4_jit_shlr16_rn false SH4_GROUP_EX 1 0xf0ff 0x4029;
  MkOpcode sh4_inst_unary_braf_gen fn_sh4_jit_braf_rn true SH4_GROUP_CO 2 0xf0ff 0x0023;
  MkOpcode sh4_inst_unary_bsrf_gen fn_sh4_jit_bsrf_rn true SH4_GROUP_CO 2 0xf0ff 0x0003;
  MkOpcode sh4_inst_binary_cmpeq_imm_r0 fn_sh4_jit_fallback false SH4_GROUP_MT 1 0xff00 0x8800;
  MkOpcode sh4_inst_binary_andb_imm_r0_gbr fn_sh4_jit_fallback false
    SH4_GROUP_CO 4 0xff00 0xcd00;
  MkOpcode sh4_inst_binary_and_imm_r0 fn_sh4_inst_binary_andb_imm_r0 false
    SH4_GROUP_EX 1 0xff00 0xc900;
  MkOpcode sh4_inst_binary_orb_imm_r0_gbr fn_sh4_jit_fallback false
    SH4_GROUP_CO 4 0xff00 0xcf00;
  MkOpcode sh4_inst_binary_or_imm_r0 fn_sh4_jit_or_imm8_r0 false SH4_GROUP_EX 1 0xff00 0xcb00;
  MkOpcode sh4_inst_binary_tst_imm_r0 fn_sh4_jit_tst_imm8_r0 false SH4_GROUP_MT 1 0xff00 0xc800;
  MkOpcode sh4_inst_binary_tstb_imm_r0_gbr fn_sh4_jit_fallback false
    SH4_GROUP_CO 3 0xff00 0xcc00;
  MkOpcode sh4_inst_binary_xor_imm_r0 fn_sh4_jit_xor_imm8_r0 false SH4_GROUP_EX 1 0xff00 0xca00;
  MkOpcode sh4_inst_binary_xorb_imm_r0_gbr fn_sh4_jit_fallback false
    SH4_GROUP_CO 4 0xff00 0xce00;
  MkOpcode sh4_inst_unary_bf_disp fn_sh4_jit_bf true SH4_GROUP_BR 1 0xff00 0x8b00;
  MkOpcode sh4_inst_unary_bfs_disp fn_sh4_jit_bfs true SH4_GROUP_BR 1 0xff00 0x8f00;
  MkOpcode sh4_inst_unary_bt_disp fn_sh4_jit_bt true SH4_GROUP_BR 1 0xff00 0x8900;
  MkOpcode sh4_inst_unary_bts_disp fn_sh4_jit_bts true SH4_GROUP_BR 1 0xff00 0x8d00;
  MkOpcode sh4_inst_unary_bra_disp fn_sh4_jit_bra true SH4_GROUP_BR 1 0xf000 0xa000;
  MkOpcode sh4_inst_unary_bsr_disp fn_sh4_jit_bsr true SH4_GROUP_BR 1 0xf000 0xb000;
  MkOpcode sh4_inst_unary_trapa_disp fn_sh4_jit_fallback false SH4_GROUP_CO 7 0xff00 0xc300;
  MkOpcode sh4_inst_unary_tasb_gen fn_sh4_jit_fallback false SH4_GROUP_CO 5 0xf0ff 0x401b;
  MkOpcode sh4_inst_unary_ocbi_indgen fn_sh4_jit_ocbi_arn false SH4_GROUP_LS 1 0xf0ff 0x0093;
  MkOpcode sh4_inst_unary_ocbp_indgen fn_sh4_jit_ocbp_arn false SH4_GROUP_LS 1 0xf0ff 0x00a3;
  MkOpcode sh4_inst_unary_ocbwb_indgen fn_sh4_jit_ocbwb_arn false SH4_GROUP_LS 1 0xf0ff 0x00b3;
  MkOpcode sh4_inst_unary_pref_indgen fn_sh4_jit_fallback false SH4_GROUP_LS 1 0xf0ff 0x0083;
  MkOpcode sh4_inst_unary_jmp_indgen fn_sh4_jit_jmp_arn true SH4_GROUP_CO 2 0xf0ff 0x402b;
  MkOpcode sh4_inst_unary_jsr_indgen fn_sh4_jit_jsr_arn true SH4_GROUP_CO 2 0xf0ff 0x400b;
  MkOpcode sh4_inst_binary_ldc_gen_sr fn_sh4_jit_fallback false SH4_GROUP_CO 4 0xf0ff 0x400e;
  MkOpcode sh4_inst_binary_ldc_gen_gbr fn_sh4_jit_fallback false SH4_GROUP_CO 3 0xf0ff 0x401e;
  MkOpcode sh4_inst_binary_ldc_gen_vbr fn_sh4_jit_fallback false SH4_GROUP_CO 1 0xf0ff 0x402e;
  MkOpcode sh4_inst_binary_ldc_gen_ssr fn_sh4_jit_fallback false SH4_GROUP_CO 1 0xf0ff 0x403e;
  MkOpcode sh4_inst_binary_ldc_gen_spc fn_sh4_jit_fallback false SH4_GROUP_CO 1 0xf0ff 0x404e;
  MkOpcode sh4_inst_binary_ldc_gen_dbr fn_sh4_jit_fallback false SH4_GROUP_CO 1 0xf0ff 0x40fa;
  MkOpcode sh4_inst_binary_stc_sr_gen fn_sh4_jit_fallback false SH4_GROUP_CO 2 0xf0ff 0x0002;
  MkOpcode sh4_inst_binary_stc_gbr_gen fn_sh4_jit_fallback false SH4_GROUP_CO 2 0xf0ff 0x0012;
  MkOpcode sh4_inst_binary_stc_vbr_gen fn_sh4_jit_fallback false SH4_GROUP_CO 2 0xf0ff 0x0022;
  MkOpcode sh4_inst_binary_stc_ssr_gen fn_sh4_jit_fallback false SH4_GROUP_CO 2 0xf0ff 0x0032;
  MkOpcode sh4_inst_binary_stc_spc_gen fn_sh4_jit_fallback false SH4_GROUP_CO 2 0xf0ff 0x0042;
  MkOpcode sh4_inst_binary_stc_sgr_gen fn_sh4_jit_fallback false SH4_GROUP_CO 3 0xf0ff 0x003a;
  MkOpcode sh4_inst_binary_stc_dbr_gen fn_sh4_jit_fallback false SH4_GROUP_CO 2 0xf0ff 0x00fa;
  MkOpcode sh4_inst_binary_ldcl_indgeninc_sr fn_sh4_jit_fallback false
    SH4_GROUP_CO 4 0xf0ff 0x4007;
  MkOpcode sh4_inst_binary_ldcl_indgeninc_gbr fn_sh4_jit_fallback false
    SH4_GROUP_CO 3 0xf0ff 0x4017;
  MkOpcode sh4_inst_binary_ldcl_indgeninc_vbr fn_sh4_jit_fallback false
    SH4_GROUP_CO 1 0xf0ff 0x4027;
  MkOpcode sh4_inst_binary_ldcl_indgenic_ssr fn_sh4_jit_fallback false
    SH4_GROUP_CO 1 0xf0ff 0x4037;
  MkOpcode sh4_inst_binary_ldcl_indgeninc_spc fn_sh4_jit_fallback false
    SH4_GROUP_CO 1 0xf0ff 0x4047;
  MkOpcode sh4_inst_binary_ldcl_indgeninc_dbr fn_sh4_jit_fallback false
    SH4_GROUP_CO 1 0xf0ff 0x40f6;
  MkOpcode sh4_inst_binary_stcl_sr_inddecgen fn_sh4_jit_fallback false
    SH4_GROUP_CO 2 0xf0ff 0x4003;
  MkOpcode sh4_inst_binary_stcl_gbr_inddecgen fn_sh4_jit_fallback false
    SH4_GROUP_CO 2 0xf0ff 0x4013;
  MkOpcode sh4_inst_binary_stcl_vbr_inddecgen fn_sh4_jit_fallback false
    SH4_GROUP_CO 2 0xf0ff 0x4023;
  MkOpcode sh4_inst_binary_stcl_ssr_inddecgen fn_sh4_jit_fallback false
    SH4_GROUP_CO 2 0xf0ff 0x4033;
  MkOpcode sh4_inst_binary_stcl_spc_inddecgen fn_sh4_jit_fallback false
    SH4_GROUP_CO 2 0xf0ff 0x4043;
  MkOpcode sh4_inst_binary_stcl_sgr_inddecgen fn_sh4_jit_fallback false
    SH4_GROUP_CO 3 0xf0ff 0x4032;
  MkOpcode sh4_inst_binary_stcl_dbr_inddecgen fn_sh4_jit_fallback false
    SH4_GROUP_CO 2 0xf0ff 0x40f2;
  MkOpcode sh4_inst_binary_mov_imm_gen fn_sh4_jit_mov_imm8_rn false
    SH4_GROUP_EX 1 0xf000 0xe000;
  MkOpcode sh4_inst_binary_add_imm_gen fn_sh4_jit_add_imm_rn false SH4_GROUP_EX 1 0xf000 0x7000;
  MkOpcode sh4_inst_binary_movw_binind_disp_pc_gen fn_sh4_jit_movw_a_disp_pc_rn true
    SH4_GROUP_LS 1 0xf000 0x9000;
  MkOpcode sh4_inst_binary_movl_binind_disp_pc_gen fn_sh4_jit_movl_a_disp_pc_rn true
    SH4_GROUP_LS 1 0xf000 0xd000;
  MkOpcode sh4_inst_binary_mov_gen_gen fn_sh4_jit_mov_rm_rn false SH4_GROUP_MT 1 0xf00f 0x6003;
  MkOpcode sh4_inst_binary_swapb_gen_gen fn_sh4_jit_fallback false SH4_GROUP_EX 1 0xf00f 0x6008;
  MkOpcode sh4_inst_binary_swapw_gen_gen fn_sh4_jit_swapw_rm_rn false
    SH4_GROUP_EX 1 0xf00f 0x6009;
  MkOpcode sh4_inst_binary_xtrct_gen_gen fn_sh4_jit_fallback false SH4_GROUP_EX 1 0xf00f 0x200d;
  MkOpcode sh4_inst_binary_add_gen_gen fn_sh4_jit_add_rm_rn false SH4_GROUP_EX 1 0xf00f 0x300c;
  MkOpcode sh4_inst_binary_addc_gen_gen fn_sh4_jit_fallback false SH4_GROUP_EX 1 0xf00f 0x300e;
  MkOpcode sh4_inst_binary_addv_gen_gen fn_sh4_jit_fallback false SH4_GROUP_EX 1 0xf00f 0x300f;
  MkOpcode sh4_inst_binary_cmpeq_gen_gen fn_sh4_jit_cmpeq_rm_rn false
    SH4_GROUP_MT 1 0xf00f 0x3000;
  MkOpcode sh4_inst_binary_cmphs_gen_gen fn_sh4_jit_cmphs_rm_rn false
    SH4_GROUP_MT 1 0xf00f 0x3002;
  MkOpcode sh4_inst_binary_cmpge_gen_gen fn_sh4_jit_cmpge_rm_rn false
    SH4_GROUP_MT 1 0xf00f 0x3003;
  MkOpcode sh4_inst_binary_cmphi_gen_gen fn_sh4_jit_cmphi_rm_rn false
    SH4_GROUP_MT 1 0xf00f 0x3006;
  MkOpcode sh4_inst_binary_cmpgt_gen_gen fn_sh4_jit_cmpgt_rm_rn false
    SH4_GROUP_MT 1 0xf00f 0x3007;
  MkOpcode sh4_inst_binary_cmpstr_gen_gen fn_sh4_jit_fallback false
    SH4_GROUP_MT 1 0xf00f 0x200c;
  MkOpcode sh4_inst_binary_div1_gen_gen fn_sh4_jit_fallback false SH4_GROUP_EX 1 0xf00f 0x3004;
  MkOpcode sh4_inst_binary_div0s_gen_gen fn_sh4_jit_fallback false SH4_GROUP_EX 1 0xf00f 0x2007;
  MkOpcode sh4_inst_noarg_div0u fn_sh4_jit_fallback false SH4_GROUP_EX 1 0xffff 0x0019;
  MkOpcode sh4_inst_binary_dmulsl_gen_gen fn_sh4_jit_fallback false
    SH4_GROUP_CO 2 0xf00f 0x300d;
  MkOpcode sh4_inst_binary_dmulul_gen_gen fn_sh4_jit_fallback false
    SH4_GROUP_CO 2 0xf00f 0x3005;
  MkOpcode sh4_inst_binary_extsb_gen_gen fn_sh4_jit_fallback false SH4_GROUP_EX 1 0xf00f 0x600e;
  MkOpcode sh4_inst_binary_extsw_gen_gen fn_sh4_jit_fallback false SH4_GROUP_EX 1 0xf00f 0x600f;
  MkOpcode sh4_inst_binary_extub_gen_gen fn_sh4_jit_fallback false SH4_GROUP_EX 1 0xf00f 0x600c;
  MkOpcode sh4_inst_binary_extuw_gen_gen fn_sh4_jit_fallback false SH4_GROUP_EX 1 0xf00f 0x600d;
  MkOpcode sh4_inst_binary_mull_gen_gen fn_sh4_jit_fallback false SH4_GROUP_CO 2 0xf00f 0x0007;
  MkOpcode sh4_inst_binary_mulsw_gen_gen fn_sh4_jit_fallback false SH4_GROUP_CO 2 0xf00f 0x200f;
  MkOpcode sh4_inst_binary_muluw_gen_gen fn_sh4_jit_muluw_rm_rn false
    SH4_GROUP_CO 2 0xf00f 0x200e;
  MkOpcode sh4_inst_binary_neg_gen_gen fn_sh4_jit_fallback false SH4_GROUP_EX 1 0xf00f 0x600b;
  MkOpcode sh4_inst_binary_negc_gen_gen fn_sh4_jit_fallback false SH4_GROUP_EX 1 0xf00f 0x600a;
  MkOpcode sh4_inst_binary_sub_gen_gen fn_sh4_jit_sub_rm_rn false SH4_GROUP_EX 1 0xf00f 0x3008;
  MkOpcode sh4_inst_binary_subc_gen_gen fn_sh4_jit_fallback false SH4_GROUP_EX 1 0xf00f 0x300a;
  MkOpcode sh4_inst_binary_subv_gen_gen fn_sh4_jit_fallback false SH4_GROUP_EX 1 0xf00f 0x300b;
  MkOpcode sh4_inst_binary_and_gen_gen fn_sh4_jit_and_rm_rn false SH4_GROUP_EX 1 0xf00f 0x2009;
  MkOpcode sh4_inst_binary_not_gen_gen fn_sh4_jit_not_rm_rn false SH4_GROUP_EX 1 0xf00f 0x6007;
  MkOpcode sh4_inst_binary_or_gen_gen fn_sh4_jit_or_rm_rn false SH4_GROUP_EX 1 0xf00f 0x200b;
  MkOpcode sh4_inst_binary_tst_gen_gen fn_sh4_jit_tst_rm_rn false SH4_GROUP_MT 1 0xf00f 0x2008;
  MkOpcode sh4_inst_binary_xor_gen_gen fn_sh4_jit_xor_rm_rn false SH4_GROUP_EX 1 0xf00f 0x200a;
  MkOpcode sh4_inst_binary_shad_gen_gen fn_sh4_jit_shad_rm_rn false
    SH4_GROUP_EX 1 0xf00f 0x400c;
  MkOpcode sh4_inst_binary_shld_gen_gen fn_sh4_jit_fallback false SH4_GROUP_EX 1 0xf00f 0x400d;
  MkOpcode sh4_inst_binary_ldc_gen_bank fn_sh4_jit_fallback false SH4_GROUP_CO 1 0xf08f 0x408e;
  MkOpcode sh4_inst_binary_ldcl_indgeninc_bank fn_sh4_jit_fallback false
    SH4_GROUP_CO 1 0xf08f 0x4087;
  MkOpcode sh4_inst_binary_stc_bank_gen fn_sh4_jit_fallback false SH4_GROUP_CO 2 0xf08f 0x0082;
  MkOpcode sh4_inst_binary_stcl_bank_inddecgen fn_sh4_jit_fallback false
    SH4_GROUP_CO 2 0xf08f 0x4083;
  MkOpcode sh4_inst_binary_lds_gen_mach fn_sh4_jit_fallback false SH4_GROUP_CO 1 0xf0ff 0x400a;
  MkOpcode sh4_inst_binary_lds_gen_macl fn_sh4_jit_fallback false SH4_GROUP_CO 1 0xf0ff 0x401a;
  MkOpcode sh4_inst_binary_sts_mach_gen fn_sh4_jit_fallback false SH4_GROUP_CO 1 0xf0ff 0x000a;
  MkOpcode sh4_inst_binary_sts_macl_gen fn_sh4_jit_sts_macl_rn false
    SH4_GROUP_CO 1 0xf0ff 0x001a;
  MkOpcode sh4_inst_binary_lds_gen_pr fn_sh4_jit_fallback false SH4_GROUP_CO 2 0xf0ff 0x402a;
  MkOpcode sh4_inst_binary_sts_pr_gen fn_sh4_jit_fallback false SH4_GROUP_CO 2 0xf0ff 0x002a;
  MkOpcode sh4_inst_binary_ldsl_indgeninc_mach fn_sh4_jit_fallback false
    SH4_GROUP_CO 1 0xf0ff 0x4006;
  MkOpcode sh4_inst_binary_ldsl_indgeninc_macl fn_sh4_jit_fallback false
    SH4_GROUP_CO 1 0xf0ff 0x4016;
  MkOpcode sh4_inst_binary_stsl_mach_inddecgen fn_sh4_jit_fallback false
    SH4_GROUP_CO 1 0xf0ff 0x4002;
  MkOpcode sh4_inst_binary_stsl_macl_inddecgen fn_sh4_jit_fallback false
    SH4_GROUP_CO 1 0xf0ff 0x4012;
  MkOpcode sh4_inst_binary_ldsl_indgeninc_pr fn_sh4_jit_ldsl_armp_pr false
    SH4_GROUP_CO 2 0xf0ff 0x4026;
  MkOpcode sh4_inst_binary_stsl_pr_inddecgen fn_sh4_jit_fallback false
    SH4_GROUP_CO 2 0xf0ff 0x4022;
  MkOpcode sh4_inst_binary_movb_gen_indgen fn_sh4_jit_fallback false
    SH4_GROUP_LS 1 0xf00f 0x2000;
  MkOpcode sh4_inst_binary_movw_gen_indgen fn_sh4_jit_fallback false
    SH4_GROUP_LS 1 0xf00f 0x2001;
  MkOpcode sh4_inst_binary_movl_gen_indgen fn_sh4_jit_movl_rm_arn false
    SH4_GROUP_LS 1 0xf00f 0x2002;
  MkOpcode sh4_inst_binary_movb_indgen_gen fn_sh4_jit_fallback false
    SH4_GROUP_LS 1 0xf00f 0x6000;
  MkOpcode sh4_inst_binary_movw_indgen_gen fn_sh4_jit_fallback false
    SH4_GROUP_LS 1 0xf00f 0x6001;
  MkOpcode sh4_inst_binary_movl_indgen_gen fn_sh4_jit_movl_arm_rn false
    SH4_GROUP_LS 1 0xf00f 0x6002;
  MkOpcode sh4_inst_binary_movb_gen_inddecgen fn_sh4_jit_fallback false
    SH4_GROUP_LS 1 0xf00f 0x2004;
  MkOpcode sh4_inst_binary_movw_gen_inddecgen fn_sh4_jit_fallback false
    SH4_GROUP_LS 1 0xf00f 0x2005;
  MkOpcode sh4_inst_binary_movl_gen_inddecgen fn_sh4_jit_movl_rm_amrn false
    SH4_GROUP_LS 1 0xf00f 0x2006;
  MkOpcode sh4_inst_binary_movb_indgeninc_gen fn_sh4_jit_fallback false
    SH4_GROUP_LS 1 0xf00f 0x6004;
  MkOpcode sh4_inst_binary_movw_indgeninc_gen fn_sh4_jit_fallback false
    SH4_GROUP_LS 1 0xf00f 0x6005;
  MkOpcode sh4_inst_binary_movl_indgeninc_gen fn_sh4_jit_movl_armp_rn false
    SH4_GROUP_LS 1 0xf00f 0x6006;
  MkOpcode sh4_inst_binary_macl_indgeninc_indgeninc fn_sh4_jit_fallback false
    SH4_GROUP_CO 2 0xf00f 0x000f;
  MkOpcode sh4_inst_binary_macw_indgeninc_indgeninc fn_sh4_jit_fallback false
    SH4_GROUP_CO 2 0xf00f 0x400f;
  MkOpcode sh4_inst_binary_movb_r0_binind_disp_gen fn_sh4_jit_fallback false
    SH4_GROUP_LS 1 0xff00 0x8000;
  MkOpcode sh4_inst_binary_movw_r0_binind_disp_gen fn_sh4_jit_fallback false
    SH4_GROUP_LS 1 0xff00 0x8100;
  MkOpcode sh4_inst_binary_movl_gen_binind_disp_gen fn_sh4_jit_fallback false
    SH4_GROUP_LS 1 0xf000 0x1000;
  MkOpcode sh4_inst_binary_movb_binind_disp_gen_r0 fn_sh4_jit_fallback false
    SH4_GROUP_LS 1 0xff00 0x8400;
  MkOpcode sh4_inst_binary_movw_binind_disp_gen_r0 fn_sh4_jit_fallback false
    SH4_GROUP_LS 1 0xff00 0x8500;
  MkOpcode sh4_inst_binary_movl_binind_disp_gen_gen fn_sh4_jit_movl_a_disp4_rm_rn false
    SH4_GROUP_LS 1 0xf000 0x5000;
  MkOpcode sh4_inst_binary_movb_gen_binind_r0_gen fn_sh4_jit_fallback false
    SH4_GROUP_LS 1 0xf00f 0x0004;
  MkOpcode sh4_inst_binary_movw_gen_binind_r0_gen fn_sh4_jit_fallback false
    SH4_GROUP_LS 1 0xf00f 0x0005;
  MkOpcode sh4_inst_binary_movl_gen_binind_r0_gen fn_sh4_jit_fallback false
    SH4_GROUP_LS 1 0xf00f 0x0006;
  MkOpcode sh4_inst_binary_movb_binind_r0_gen_gen fn_sh4_jit_fallback false
    SH4_GROUP_LS 1 0xf00f 0x000c;
  MkOpcode sh4_inst_binary_movw_binind_r0_gen_gen fn_sh4_jit_fallback false
    SH4_GROUP_LS 1 0xf00f 0x000d;
  MkOpcode sh4_inst_binary_movl_binind_r0_gen_gen fn_sh4_jit_fallback false
    SH4_GROUP_LS 1 0xf00f 0x000e;
  MkOpcode sh4_inst_binary_movb_r0_binind_disp_gbr fn_sh4_jit_fallback false
    SH4_GROUP_LS 1 0xff00 0xc000;
  MkOpcode sh4_inst_binary_movw_r0_binind_disp_gbr fn_sh4_jit_fallback false
    SH4_GROUP_LS 1 0xff00 0xc100;
  MkOpcode sh4_inst_binary_movl_r0_binind_disp_gbr fn_sh4_jit_fallback false
    SH4_GROUP_LS 1 0xff00 0xc200;
  MkOpcode sh4_inst_binary_movb_binind_disp_gbr_r0 fn_sh4_jit_fallback false
    SH4_GROUP_LS 1 0xff00 0xc400;
  MkOpcode sh4_inst_binary_movw_binind_disp_gbr_r0 fn_sh4_jit_fallback false
    SH4_GROUP_LS 1 0xff00 0xc500;
  MkOpcode sh4_inst_binary_movl_binind_disp_gbr_r0 fn_sh4_jit_movl_a_disp8_gbr_r0 false
    SH4_GROUP_LS 1 0xff00 0xc600;
  MkOpcode sh4_inst_binary_mova_binind_disp_pc_r0 fn_sh4_jit_mova_a_disp_pc_r0 true
    SH4_GROUP_EX 1 0xff00 0xc700;
  MkOpcode sh4_inst_binary_movcal_r0_indgen fn_sh4_jit_fallback false
    SH4_GROUP_LS 1 0xf0ff 0x00c3;
  MkOpcode (fpu_inst fpu_fldi0) fn_sh4_jit_fallback false SH4_GROUP_LS 1 0xf0ff 0xf08d;
  MkOpcode (fpu_inst fpu_fldi1) fn_sh4_jit_fallback false SH4_GROUP_LS 1 0xf0ff 0xf09d;
  MkOpcode (fpu_inst fpu_fmov_gen) fn_sh4_jit_fallback false SH4_GROUP_LS 1 0xf00f 0xf00c;
  MkOpcode (fpu_inst fpu_fmovs_ind_gen) fn_sh4_jit_fallback false SH4_GROUP_LS 1 0xf00f 0xf008;
  MkOpcode (fpu_inst fpu_fmov_binind_r0_gen_fpu) fn_sh4_jit_fallback false
    SH4_GROUP_LS 1 0xf00f 0xf006;
  MkOpcode (fpu_inst fpu_fmov_indgeninc_fpu) fn_sh4_jit_fallback false
    SH4_GROUP_LS 1 0xf00f 0xf009;
  MkOpcode (fpu_inst fpu_fmov_fpu_indgen) fn_sh4_jit_fallback false
    SH4_GROUP_LS 1 0xf00f 0xf00a;
  MkOpcode (fpu_inst fpu_fmov_fpu_inddecgen) fn_sh4_jit_fallback false
    SH4_GROUP_LS 1 0xf00f 0xf00b;
  MkOpcode (fpu_inst fpu_fmov_fpu_binind_r0_gen) fn_sh4_jit_fallback false
    SH4_GROUP_LS 1 0xf00f 0xf007;
  MkOpcode sh4_inst_binary_flds_fr_fpul fn_sh4_jit_fallback false SH4_GROUP_LS 1 0xf0ff 0xf01d;
  MkOpcode sh4_inst_binary_fsts_fpul_fr fn_sh4_jit_fallback false SH4_GROUP_LS 1 0xf0ff 0xf00d;
  MkOpcode (fpu_inst fpu_fabs_fpu) fn_sh4_jit_fallback false SH4_GROUP_LS 1 0xf0ff 0xf05d;
  MkOpcode (fpu_inst fpu_fadd_fpu) fn_sh4_jit_fallback false SH4_GROUP_FE 1 0xf00f 0xf000;
  MkOpcode (fpu_inst fpu_fcmpeq_fpu) fn_sh4_jit_fallback false SH4_GROUP_FE 1 0xf00f 0xf004;
  MkOpcode (fpu_inst fpu_fcmpgt_fpu) fn_sh4_jit_fallback false SH4_GROUP_FE 1 0xf00f 0xf005;
  MkOpcode (fpu_inst fpu_fdiv_fpu) fn_sh4_jit_fallback false SH4_GROUP_FE 1 0xf00f 0xf003;
  MkOpcode (fpu_inst fpu_float_fpu) fn_sh4_jit_fallback false SH4_GROUP_FE 1 0xf0ff 0xf02d;
  MkOpcode (fpu_inst fpu_fmac_fpu) fn_sh4_jit_fallback false SH4_GROUP_FE 1 0xf00f 0xf00e;
  MkOpcode (fpu_inst fpu_fmul_fpu) fn_sh4_jit_fallback false SH4_GROUP_FE 1 0xf00f 0xf002;
  MkOpcode (fpu_inst fpu_fneg_fpu) fn_sh4_jit_fallback false SH4_GROUP_LS 1 0xf0ff 0xf04d;
  MkOpcode (fpu_inst fpu_fsqrt_fpu) fn_sh4_jit_fallback false SH4_GROUP_FE 1 0xf0ff 0xf06d;
  MkOpcode (fpu_inst fpu_fsub_fpu) fn_sh4_jit_fallback false SH4_GROUP_FE 1 0xf00f 0xf001;
  MkOpcode (fpu_inst fpu_ftrc_fpu) fn_sh4_jit_fallback false SH4_GROUP_FE 1 0xf0ff 0xf03d;
  MkOpcode (fpu_inst fpu_fcnvds_fpu) fn_sh4_jit_fallback false SH4_GROUP_FE 1 0xf1ff 0xf0bd;
  MkOpcode (fpu_inst fpu_fcnvsd_fpu) fn_sh4_jit_fallback false SH4_GROUP_FE 1 0xf1ff 0xf0ad;
  MkOpcode sh4_inst_binary_lds_gen_fpscr fn_sh4_jit_fallback false SH4_GROUP_CO 1 0xf0ff 0x406a;
  MkOpcode sh4_inst_binary_gen_fpul fn_sh4_jit_fallback false SH4_GROUP_LS 1 0xf0ff 0x405a;
  MkOpcode sh4_inst_binary_ldsl_indgeninc_fpscr fn_sh4_jit_fallback false
    SH4_GROUP_CO 1 0xf0ff 0x4066;
  MkOpcode sh4_inst_binary_ldsl_indgeninc_fpul fn_sh4_jit_fallback false
    SH4_GROUP_CO 1 0xf0ff 0x4056;
  MkOpcode sh4_inst_binary_sts_fpscr_gen fn_sh4_jit_fallback false SH4_GROUP_CO 1 0xf0ff 0x006a;
  MkOpcode sh4_inst_binary_sts_fpul_gen fn_sh4_jit_fallback false SH4_GROUP_LS 1 0xf0ff 0x005a;
  MkOpcode sh4_inst_binary_stsl_fpscr_inddecgen fn_sh4_jit_fallback false
    SH4_GROUP_CO 1 0xf0ff 0x4062;
  MkOpcode sh4_inst_binary_stsl_fpul_inddecgen fn_sh4_jit_fallback false
    SH4_GROUP_CO 1 0xf0ff 0x4052;
  MkOpcode (fpu_inst fpu_fipr_fv_fv) fn_sh4_jit_fallback false SH4_GROUP_FE 1 0xf0ff 0xf0ed;
  MkOpcode (fpu_inst fpu_fitrv_mxtrx_fv) fn_sh4_jit_fallback false SH4_GROUP_FE 1 0xf3ff 0xf1fd;
  MkOpcode (fpu_inst fpu_fsca_fpu) fn_sh4_jit_fallback false SH4_GROUP_FE 1 0xf1ff 0xf0fd;
  MkOpcode (fpu_inst fpu_fsrra_fpu) fn_sh4_jit_fallback false SH4_GROUP_FE 1 0xf0ff 0xf07d
].

Definition invalid_opcode : InstOpcode :=
  MkOpcode sh4_inst_invalid fn_sh4_jit_fallback false SH4_GROUP_MT 0 0 0.

Definition op_matches (inst : Z) (op : InstOpcode) : bool :=
  Z.land (op_mask op) inst =? op_val op.

(** the search loop of [sh4_decode_inst_slow] *)
Fixpoint decode_search (ops : list InstOpcode) (inst : Z) : InstOpcode :=
  match ops with
  | [] => invalid_opcode
  | op :: rest => if op_matches inst op then op else decode_search rest inst
  end.

Definition sh4_decode_inst_slow (inst : Z) : InstOpcode := decode_search opcode_list inst.

(** [sh4_inst_lut] as [sh4_init_inst_lut] fills it *)
Definition sh4_inst_lut : list InstOpcode :=
  map (fun i => sh4_decode_inst_slow (Z.of_nat i)) (seq 0 (2 ^ 16)).

Definition sh4_decode_inst (inst : Z) : InstOpcode :=
  nth (Z.to_nat (Z.land inst 0xffff)) sh4_inst_lut invalid_opcode.
End sh4_decode.
Arguments InstOpcode W : clear implicits.


(** ** At most one entry accepts an opcode *)
Section decode_facts.
Context {W : Type} `{!BuildConfig} `{!Machine W}.

(** two entries whose fixed bits differ in a position that both fix *)
Definition ops_disjoint (a b : InstOpcode W) : bool :=
  truth (Z.land (Z.lxor (op_val a) (op_val b)) (Z.land (op_mask a) (op_mask b))).

Fixpoint pairwise_disjoint (ops : list (InstOpcode W)) : bool :=
  match ops with
  | [] => true
  | op :: rest => forallb (ops_disjoint op) rest && pairwise_disjoint rest
  end.

Lemma ops_disjoint_sound a b inst :
  ops_disjoint a b = true -> op_matches inst a = true -> op_matches inst b = true -> False.
Proof.
  unfold ops_disjoint, op_matches, truth. rewrite !Z.eqb_eq, negb_true_iff, Z.eqb_neq.
  intros Hd Ha Hb. apply Hd. rewrite <- Ha, <- Hb. apply Z.bits_inj_iff'. intros n Hn.
  rewrite !Z.land_spec, Z.lxor_spec, !Z.land_spec, Z.bits_0.
  by destruct (Z.testbit inst n), (Z.testbit (op_mask a) n), (Z.testbit (op_mask b) n).
Qed.

Lemma pairwise_disjoint_exclusive ops inst a b :
  pairwise_disjoint ops = true -> In a ops -> In b ops ->
  op_matches inst a = true -> op_matches inst b = true -> a = b.
Proof.
  induction ops as [|op ops IH]; cbn; [done|].
  rewrite andb_true_iff, forallb_forall. intros [Hd Hp] [->|Ha] [->|Hb] Ma Mb; auto.
  - destruct (ops_disjoint_sound a b inst); auto.
  - destruct (ops_disjoint_sound b a inst); auto.
Qed.

Lemma opcode_list_disjoint : pairwise_disjoint opcode_list = true.
Proof. vm_compute. reflexivity. Qed.

Lemma decode_search_spec ops inst :
  (In (decode_search ops inst) ops /\ op_matches inst (decode_search ops inst) = true) \/
  (decode_search ops inst = invalid_opcode /\
   Forall (fun op => op_matches inst op = false) ops).
Proof.
  induction ops as [|op ops IH]; cbn; [by right|].
  destruct (op_matches inst op) eqn:E; [by left; auto|].
  destruct IH as [[? ?]|[-> ?]]; [left|right]; auto.
Qed.

Lemma decode_search_unique ops inst op :
  pairwise_disjoint ops = true -> In op ops -> op_matches inst op = true ->
  decode_search ops inst = op.
Proof.
  intros Hd Hin Hm. destruct (decode_search_spec ops inst) as [[Hi Hs]|[_ Hn]].
  - by eapply pairwise_disjoint_exclusive.
  - rewrite List.Forall_forall in Hn. by rewrite (Hn _ Hin) in Hm.
Qed.

(** ** The lookup table *)
Lemma opcode_masks_16 : forallb (fun op => Z.land (op_mask op) 0xffff =? op_mask op)
                          (@opcode_list W _ _) = true.
Proof. vm_compute. reflexivity. Qed.

Lemma op_matches_low inst op :
  In op opcode_list -> op_matches (Z.land inst 0xffff) op = op_matches inst op.
Proof.
  intros Hin. pose proof opcode_masks_16 as Hk. rewrite forallb_forall in Hk.
  specialize (Hk _ Hin). rewrite Z.eqb_eq in Hk. unfold op_matches.
  by rewrite (Z.land_comm inst), Z.land_assoc, Hk.
Qed.

Lemma decode_search_low ops inst :
  (forall op, In op ops -> In op opcode_list) ->
  decode_search ops (Z.land inst 0xffff) = decode_search ops inst.
Proof.
  induction ops as [|op ops IH]; cbn [decode_search]; [done|]. intros Hsub.
  rewrite op_matches_low by apply Hsub, in_eq.
  rewrite IH; [done|]. intros o Ho. apply Hsub, in_cons, Ho.
Qed.

Lemma sh4_decode_inst_slow_eq inst : sh4_decode_inst inst = sh4_decode_inst_slow inst.
Proof.
  unfold sh4_decode_inst, sh4_inst_lut.
  assert (Hr : in_range 16 (Z.land inst 0xffff)).
  { change 0xffff with (Z.ones 16). rewrite Z.land_ones by lia. by apply wrap_range. }
  unfold in_range in Hr.
  set (f := fun i => sh4_decode_inst_slow (Z.of_nat i)).
  rewrite (nth_indep _ invalid_opcode (f 0%nat)).
  2:{ rewrite length_map, length_seq. apply Nat2Z.inj_lt.
      rewrite Z2Nat.id, Nat2Z.inj_pow by lia. exact (proj2 Hr). }
  rewrite map_nth, seq_nth.
  2:{ apply Nat2Z.inj_lt. rewrite Z2Nat.id, Nat2Z.inj_pow by lia. exact (proj2 Hr). }
  unfold f. rewrite Nat.add_0_l, Z2Nat.id by lia. by apply decode_search_low.
Qed.
End decode_facts.

(** ** The checks of the handlers *)
Definition with_invariants (b : bool) (cfg : BuildConfig) : BuildConfig :=
  {| INVARIANTS := b; ENABLE_SH4_MMU := @ENABLE_SH4_MMU cfg;
     ENABLE_DEBUGGER := @ENABLE_DEBUGGER cfg;
     DBG_EXIT_ON_UNDEFINED_OPCODE := @DBG_EXIT_ON_UNDEFINED_OPCODE cfg |}.

Section check_inst.
Context {W : Type} (cfg : BuildConfig) `{!Machine W}.

Definition same_but_checks (a b : InstOpcode W) : Prop :=
  op_mask a = op_mask b /\ op_val a = op_val b /\
  forall inst, Z.land (op_mask a) inst = op_val a -> func a inst = func b inst.

Lemma opcode_list_same_but_checks :
  Forall2 same_but_checks (@opcode_list W (with_invariants true cfg) _)
                          (@opcode_list W (with_invariants false cfg) _).
Proof.
  unfold opcode_list.
  repeat apply List.Forall2_cons; try apply List.Forall2_nil;
    (split; [reflexivity|split; [reflexivity|]]; cbn [func op_mask op_val];
     intros inst Hm; rewrite Z.land_comm in Hm;
     match goal with |- ?l = _ => let h := head_of l in try unfold h end;
     unfold CHECK_INST; rewrite ?Hm; reflexivity).
Qed.

Lemma decode_search_same_but_checks l1 l2 inst :
  Forall2 same_but_checks l1 l2 ->
  func (@decode_search W (with_invariants true cfg) _ l1 inst) inst =
  func (@decode_search W (with_invariants false cfg) _ l2 inst) inst.
Proof.
  induction 1 as [|a b l1 l2 (Hm & Hv & Hf) _ IH]; [reflexivity|].
  cbn [decode_search]. unfold op_matches. rewrite <- Hm, <- Hv.
  destruct (Z.eqb_spec (Z.land (op_mask a) inst) (op_val a)); auto.
Qed.
End check_inst.

(** ** Properties *)

(** decoding does not depend on the order of the opcode table: any rearrangement of the
    table decodes every opcode to the same entry as the lookup table does. *)
Theorem decode_order_irrelevant {W} `{!BuildConfig} `{!Machine W} (ops : list (InstOpcode W))
    (inst : Z) :
  Permutation opcode_list ops -> decode_search ops inst = sh4_decode_inst inst.
Proof.
  intros Hp. rewrite sh4_decode_inst_slow_eq. unfold sh4_decode_inst_slow.
  destruct (decode_search_spec ops inst) as [[Hi Hm]|[-> Hn]].
  - symmetry. apply decode_search_unique; [apply opcode_list_disjoint| |done].
    by apply (Permutation_in _ (Permutation_sym Hp)).
  - destruct (decode_search_spec opcode_list inst) as [[Hi Hm]|[-> _]]; [|done].
    apply (Permutation_in _ Hp) in Hi. rewrite List.Forall_forall in Hn.
    by rewrite (Hn _ Hi) in Hm.
Qed.

(** the run-time checks of the handlers never fire on a decoded opcode: every opcode's
    handler behaves the same in a build with the checks as in one without. *)
Theorem decoded_checks_pass {W} (cfg : BuildConfig) `{!Machine W} (inst : Z) :
  func (@sh4_decode_inst W (with_invariants true cfg) _ inst) inst =
  func (@sh4_decode_inst W (with_invariants false cfg) _ inst) inst.
Proof.
  rewrite !sh4_decode_inst_slow_eq. apply decode_search_same_but_checks,
    opcode_list_same_but_checks.
Qed.

Lemma decode_order_irrelevant_witness :
  decode_search (rev (@opcode_list board default_config board_machine)) 0x300c =
  sh4_decode_inst 0x300c.
Proof. apply (decode_order_irrelevant (rev opcode_list) 0x300c), Permutation_rev. Defined.
