(* ===== verification/Sched.v ===== *)
(** The event scheduler of a clock (src/libwashdc/dc_sched.c, dc_sched.h).

    The pending events form a doubly linked list threaded through the event structures
    themselves: [next_event] points to the next event, [pprev_event] to the pointer that
    points to this one, which is the clock's [ev_next_priv] or the [next_event] of the
    event before.  The event structures live in the map [events], keyed by their address.
    A clock's two stamps are read and written through pointers, which normally point into
    the clock and may be redirected to a cell outside of it.

    The properties: the pointer structure implements a list sorted by time stamp
    ([queue]); [sched_event], [cancel_event] and [pop_event] implement insertion, removal
    and removal of the earliest event on it; and a timeslice runs every handler exactly at
    its event's time stamp and ends exactly [DC_TIMESLICE] later. *)
From stdpp Require Import gmap sorting.
From S2P Require Import Prelude Sh4State.
Abbreviation last := stdpp.list_basics.list.last.

Module sched.

Definition SCHED_FREQUENCY : Z := 5400000000.
Definition DC_TIMESLICE : Z := SCHED_FREQUENCY / 400.
Definition SH4_CLOCK_SCALE : Z := SCHED_FREQUENCY / (200 * 1000 * 1000).

(** a [struct SchedEvent **] *)
Inductive pptr : Type := EvNext | NextOf (e : Z).

#[export] Instance pptr_eq_dec : EqDecision pptr.
Proof. solve_decision. Defined.

(** [struct SchedEvent]; the handlers are found by the event's address *)
Record SchedEvent : Type := {
  ev_when : Z;
  next_event : option Z;
  pprev_event : option pptr
}.

(** [struct dc_clock]: a stamp pointer that was redirected is [Some] of the contents of the
    cell it points to *)
Record dc_clock : Type := {
  cycle_stamp_priv : Z;
  cycle_stamp_cell : option Z;
  target_stamp_priv : Z;
  target_stamp_cell : option Z;
  ev_next_priv : option Z;
  events : gmap Z SchedEvent
}.

Definition with_cycle (p : Z) (cell : option Z) (c : dc_clock) : dc_clock :=
  {| cycle_stamp_priv := p; cycle_stamp_cell := cell;
     target_stamp_priv := target_stamp_priv c; target_stamp_cell := target_stamp_cell c;
     ev_next_priv := ev_next_priv c; events := events c |}.
Definition with_target (p : Z) (cell : option Z) (c : dc_clock) : dc_clock :=
  {| cycle_stamp_priv := cycle_stamp_priv c; cycle_stamp_cell := cycle_stamp_cell c;
     target_stamp_priv := p; target_stamp_cell := cell;
     ev_next_priv := ev_next_priv c; events := events c |}.
Definition with_queue (h : option Z) (evs : gmap Z SchedEvent) (c : dc_clock) : dc_clock :=
  {| cycle_stamp_priv := cycle_stamp_priv c; cycle_stamp_cell := cycle_stamp_cell c;
     target_stamp_priv := target_stamp_priv c; target_stamp_cell := target_stamp_cell c;
     ev_next_priv := h; events := evs |}.

Definition dc_clock_init (evs : gmap Z SchedEvent) : dc_clock :=
  {| cycle_stamp_priv := 0; cycle_stamp_cell := None; target_stamp_priv := 0;
     target_stamp_cell := None; ev_next_priv := None; events := evs |}.

Definition clock_cycle_stamp (c : dc_clock) : Z := default (cycle_stamp_priv c) (cycle_stamp_cell c).
Definition clock_set_cycle_stamp (v : Z) (c : dc_clock) : dc_clock :=
  match cycle_stamp_cell c with
  | Some _ => with_cycle (cycle_stamp_priv c) (Some v) c
  | None => with_cycle v None c
  end.
Definition clock_target_stamp (c : dc_clock) : Z :=
  default (target_stamp_priv c) (target_stamp_cell c).
Definition set_target_stamp (v : Z) (c : dc_clock) : dc_clock :=
  match target_stamp_cell c with
  | Some _ => with_target (target_stamp_priv c) (Some v) c
  | None => with_target v None c
  end.

(** [ptr] is [true] for a cell outside of the clock and [false] for [NULL] *)
Definition clock_set_target_pointer (ptr : bool) (c : dc_clock) : dc_clock :=
  if ptr then with_target (target_stamp_priv c) (Some (clock_target_stamp c)) c
  else with_target (clock_target_stamp c) None c.
Definition clock_set_cycle_stamp_pointer (ptr : bool) (c : dc_clock) : dc_clock :=
  if ptr then with_cycle (cycle_stamp_priv c) (Some (clock_cycle_stamp c)) c
  else with_cycle (clock_cycle_stamp c) None c.

Abbreviation clkM := (M dc_clock).

(** accesses through event pointers *)
Definition get_event (e : Z) : clkM SchedEvent :=
  fun c => match events c !! e with Some ev => Ok (ev, c) | None => Err C_UNDEFINED end.
Definition put_event (e : Z) (ev : SchedEvent) : clkM unit :=
  fun c => match events c !! e with
           | Some _ => Ok (tt, with_queue (ev_next_priv c) (<[e := ev]> (events c)) c)
           | None => Err C_UNDEFINED
           end.
Definition set_next (e : Z) (n : option Z) : clkM unit :=
  ev <- get_event e ;;
  put_event e {| ev_when := ev_when ev; next_event := n; pprev_event := pprev_event ev |}.
Definition set_pprev (e : Z) (p : option pptr) : clkM unit :=
  ev <- get_event e ;;
  put_event e {| ev_when := ev_when ev; next_event := next_event ev; pprev_event := p |}.
Definition set_when (e : Z) (w : Z) : clkM unit :=
  ev <- get_event e ;;
  put_event e {| ev_when := w; next_event := next_event ev; pprev_event := pprev_event ev |}.
(** [*p = n] *)
Definition store_pptr (p : pptr) (n : option Z) : clkM unit :=
  match p with
  | EvNext => modify (fun c => with_queue n (events c) c)
  | NextOf e => set_next e n
  end.

Section operations.
Context `{!BuildConfig}.

Definition update_target_stamp : clkM unit :=
  h <- gets ev_next_priv ;;
  match h with
  | Some e => ev <- get_event e ;; modify (set_target_stamp (ev_when ev))
  | None =>
      now <- gets clock_cycle_stamp ;;
      modify (set_target_stamp (u64 (now + 16 * SH4_CLOCK_SCALE)))
  end.

Definition check_not_past (w : Z) : clkM unit :=
  cur_stamp <- gets clock_cycle_stamp ;;
  when (INVARIANTS && (w <? cur_stamp)) (raise ERROR_INTEGRITY).

(** the loop of [sched_event]; the list is never longer than the number of event
    structures *)
Fixpoint find_slot (fuel : nat) (w : Z) (pprev_ptr : pptr) (next_ptr : option Z)
    : clkM (pptr * option Z) :=
  match fuel with
  | O => raise OUT_OF_FUEL
  | S fuel' =>
      match next_ptr with
      | None => ret (pprev_ptr, None)
      | Some n =>
          ev <- get_event n ;;
          if ev_when ev <? w then find_slot fuel' w (NextOf n) (next_event ev)
          else ret (pprev_ptr, Some n)
      end
  end.

Definition sched_event (event : Z) : clkM unit :=
  ev <- get_event event ;;
  check_not_past (ev_when ev) ;;
  h <- gets ev_next_priv ;;
  fuel <- gets (fun c => S (size (events c))) ;;
  slot <- find_slot fuel (ev_when ev) EvNext h ;;
  let '(pprev_ptr, next_ptr) := slot in
  store_pptr pprev_ptr (Some event) ;;
  match next_ptr with
  | Some n => set_pprev n (Some (NextOf event))
  | None => ret tt
  end ;;
  set_next event next_ptr ;;
  set_pprev event (Some pprev_ptr) ;;
  update_target_stamp.

Definition cancel_event (event : Z) : clkM unit :=
  ev <- get_event event ;;
  check_not_past (ev_when ev) ;;
  match next_event ev with
  | Some n => set_pprev n (pprev_event ev)
  | None => ret tt
  end ;;
  match pprev_event ev with
  | Some p => store_pptr p (next_event ev)
  | None => raise C_UNDEFINED
  end ;;
  set_next event None ;;
  set_pprev event None ;;
  update_target_stamp.

Definition pop_event : clkM (option Z) :=
  ev_ret <- gets ev_next_priv ;;
  match ev_ret with
  | Some e => ev <- get_event e ;; check_not_past (ev_when ev)
  | None => ret tt
  end ;;
  match ev_ret with
  | Some e =>
      ev <- get_event e ;;
      store_pptr EvNext (next_event ev) ;;
      match next_event ev with
      | Some n => set_pprev n (Some EvNext)
      | None => ret tt
      end ;;
      set_next e None ;;
      set_pprev e None
  | None => ret tt
  end ;;
  update_target_stamp ;;
  ret ev_ret.

Definition peek_event : clkM (option Z) := gets ev_next_priv.

(** the address of [clk->timeslice_end_event] *)
Definition timeslice_end_event : Z := 0.

Section timeslice.
(** the rest of the machine, the CPU's dispatch function and the event handlers *)
Context {X : Type}.
Abbreviation mach := (M (dc_clock * X)).
Context (dispatch : mach bool) (handler : Z -> mach unit).

Definition on_clock {A} (m : clkM A) : mach A :=
  fun '(c, x) => match m c with Ok (a, c') => Ok (a, (c', x)) | Err e => Err e end.

(** the loop of [dc_clock_run_timeslice] *)
Fixpoint timeslice_loop (fuel : nat) : mach bool :=
  match fuel with
  | O => raise OUT_OF_FUEL
  | S fuel' =>
      ret_val <- dispatch ;;
      if ret_val : bool then ret true
      else
        next <- on_clock pop_event ;;
        match next with
        | None => raise C_UNDEFINED
        | Some e =>
            if e =? timeslice_end_event then ret false
            else handler e ;; timeslice_loop fuel'
        end
  end.

Definition dc_clock_run_timeslice (fuel : nat) : mach bool :=
  ts <- on_clock (gets (fun c => u64 (clock_cycle_stamp c + DC_TIMESLICE))) ;;
  on_clock (set_when timeslice_end_event ts) ;;
  on_clock (sched_event timeslice_end_event) ;;
  timeslice_loop fuel.
End timeslice.
End operations.

(** ** The queue as a list *)

(** [l] is the list that starts at the pointer [p] *)
Fixpoint linked (evs : gmap Z SchedEvent) (p : pptr) (l : list Z) : Prop :=
  match l with
  | [] => True
  | i :: l' =>
      (exists ev, evs !! i = Some ev /\ pprev_event ev = Some p /\ next_event ev = head l') /\
      linked evs (NextOf i) l'
  end.

(** the time stamp of an event *)
Definition stamp (evs : gmap Z SchedEvent) (i : Z) : Z := default 0 (ev_when <$> evs !! i).

Definition queue (c : dc_clock) (l : list Z) : Prop :=
  ev_next_priv c = head l /\ linked (events c) EvNext l /\ NoDup l /\
  StronglySorted (fun i j => stamp (events c) i <= stamp (events c) j) l.

(** insertion before the first event that is not earlier *)
Fixpoint insert_event (w : Z -> Z) (e : Z) (l : list Z) : list Z :=
  match l with
  | [] => [e]
  | i :: l' => if w i <? w e then i :: insert_event w e l' else e :: l
  end.

(** what [update_target_stamp] sets the target stamp to *)
Definition target_of (c : dc_clock) (l : list Z) : Z :=
  match l with
  | e :: _ => stamp (events c) e
  | [] => u64 (clock_cycle_stamp c + 16 * SH4_CLOCK_SCALE)
  end.

(** the pointer that points to what follows [l] *)
Definition last_ptr (p : pptr) (l : list Z) : pptr :=
  match last l with Some i => NextOf i | None => p end.

Definition same_stamps (evs evs' : gmap Z SchedEvent) : Prop :=
  forall i, ev_when <$> evs' !! i = ev_when <$> evs !! i.

(** ** Lemmas on linked lists *)
Lemma last_ptr_cons p i l : last_ptr p (i :: l) = last_ptr (NextOf i) l.
Proof. unfold last_ptr. rewrite last_cons. by destruct (last l). Qed.

Lemma linked_frame evs evs' p l :
  (forall i, i ∈ l -> evs' !! i = evs !! i) -> linked evs p l -> linked evs' p l.
Proof.
  revert p. induction l as [|i l IH]; intros p Hf; cbn; [done|].
  intros [(ev & He & ?) Hl]. split.
  - exists ev. rewrite Hf by set_solver. eauto.
  - apply IH; [|done]. intros j Hj. apply Hf. set_solver.
Qed.

Lemma linked_lookup evs p l i :
  linked evs p l -> i ∈ l -> exists ev, evs !! i = Some ev.
Proof.
  revert p. induction l as [|j l IH]; intros p; cbn; [set_solver|].
  intros [(ev & ? & _) Hl] [->|Hi]%elem_of_cons; eauto.
Qed.

Lemma linked_at evs p l1 e l2 :
  linked evs p (l1 ++ e :: l2) ->
  exists ev, evs !! e = Some ev /\ pprev_event ev = Some (last_ptr p l1) /\
    next_event ev = head l2.
Proof.
  revert p. induction l1 as [|i l1 IH]; intros p; cbn [linked app].
  - by intros [? _].
  - intros [_ Hl]. rewrite last_ptr_cons. eauto.
Qed.

(** The node after the update of the pointers around position [l1 | l2]: the last node of
    [l1] points forward to [n], the first one of [l2] points back to [p]. *)
Definition relink (l1 l2 : list Z) (n : option Z) (p : pptr) (i : Z) (ev : SchedEvent)
    : SchedEvent :=
  {| ev_when := ev_when ev;
     next_event := if bool_decide (last l1 = Some i) then n else next_event ev;
     pprev_event := if bool_decide (head l2 = Some i) then Some p else pprev_event ev |}.

(** The nodes of [l1] once its end points to [n]. *)
Lemma linked_relink_front evs evs' p l1 l2 n q r :
  linked evs p (l1 ++ l2) -> NoDup (l1 ++ l2) ->
  (forall i, i ∈ l1 -> evs' !! i = relink l1 l2 n q i <$> evs !! i) ->
  n = head r -> linked evs' (last_ptr p l1) r -> linked evs' p (l1 ++ r).
Proof.
  revert p. induction l1 as [|i l1 IH]; intros p; cbn [linked app]; [done|].
  intros [(ev & He & Hp & Hn) Hl] Hnd Hf Hr Ht.
  rewrite list.NoDup_cons in Hnd. destruct Hnd as [Hi Hnd]. split.
  - exists (relink (i :: l1) l2 n q i ev). rewrite Hf, He by set_solver.
    unfold relink; cbn [pprev_event next_event].
    rewrite (bool_decide_eq_false_2 (head l2 = Some i)).
    2:{ intros Hh. apply Hi, elem_of_app. right. destruct l2; [done|].
        injection Hh as ->. set_solver. }
    split; [done|]. split; [done|]. destruct l1 as [|j l1].
    + by rewrite bool_decide_eq_true_2.
    + rewrite bool_decide_eq_false_2; [by rewrite Hn|].
      rewrite last_cons_cons. intros Hlast. apply Hi, elem_of_app. left.
      by apply last_Some_elem_of.
  - rewrite last_ptr_cons in Ht. apply IH; auto. intros j Hj.
    rewrite Hf by set_solver. destruct (evs !! j); [|done]. cbn. f_equal.
    unfold relink. f_equal. destruct l1 as [|k l1]; [set_solver|]. by rewrite last_cons_cons.
Qed.

Lemma linked_relink_back evs evs' p q l2 :
  linked evs p l2 -> NoDup l2 ->
  (forall i, i ∈ l2 -> evs' !! i = relink [] l2 None q i <$> evs !! i) ->
  linked evs' q l2.
Proof.
  destruct l2 as [|i l2]; cbn [linked]; [done|].
  intros [(ev & He & Hp & Hn) Hl] Hnd Hf. rewrite list.NoDup_cons in Hnd. destruct Hnd as [Hi Hnd].
  split.
  - exists (relink [] (i :: l2) None q i ev). rewrite Hf, He by set_solver.
    unfold relink; cbn. rewrite (bool_decide_eq_true_2 (Some i = Some i)) by done.
    by rewrite bool_decide_eq_false_2.
  - apply (linked_frame evs); [|done]. intros j Hj. rewrite Hf by set_solver.
    destruct (evs !! j) as [[w nx pp]|]; [|done]. unfold relink; cbn.
    rewrite (bool_decide_eq_false_2 (None = Some j)) by done.
    rewrite bool_decide_eq_false_2 by (intros [= ->]; set_solver). done.
Qed.

(** ** The pointer operations *)
Definition upd_next (n : option Z) (ev : SchedEvent) : SchedEvent :=
  {| ev_when := ev_when ev; next_event := n; pprev_event := pprev_event ev |}.
Definition upd_pprev (p : option pptr) (ev : SchedEvent) : SchedEvent :=
  {| ev_when := ev_when ev; next_event := next_event ev; pprev_event := p |}.

Lemma insert_fmap (f : SchedEvent -> SchedEvent) (evs : gmap Z SchedEvent) e ev :
  evs !! e = Some ev ->
  forall j, <[e := f ev]> evs !! j =
    (fun ev => if bool_decide (e = j) then f ev else ev) <$> evs !! j.
Proof.
  intros He j. destruct (decide (e = j)) as [<-|Hne].
  - by rewrite lookup_insert_eq, He, bool_decide_eq_true_2.
  - rewrite lookup_insert_ne by done. rewrite bool_decide_eq_false_2 by done.
    by destruct (evs !! j).
Qed.

Lemma set_next_ok c e n :
  is_Some (events c !! e) ->
  exists evs', set_next e n c = Ok (tt, with_queue (ev_next_priv c) evs' c) /\
    forall j, evs' !! j =
      (fun ev => if bool_decide (e = j) then upd_next n ev else ev) <$> events c !! j.
Proof.
  intros [ev He]. unfold set_next, bind, get_event, put_event. rewrite He, He.
  eexists. split; [done|]. by apply (insert_fmap (upd_next n)).
Qed.

Lemma set_pprev_ok c e p :
  is_Some (events c !! e) ->
  exists evs', set_pprev e p c = Ok (tt, with_queue (ev_next_priv c) evs' c) /\
    forall j, evs' !! j =
      (fun ev => if bool_decide (e = j) then upd_pprev p ev else ev) <$> events c !! j.
Proof.
  intros [ev He]. unfold set_pprev, bind, get_event, put_event. rewrite He, He.
  eexists. split; [done|]. by apply (insert_fmap (upd_pprev p)).
Qed.

Lemma store_pptr_ok c p n :
  (forall e, p = NextOf e -> is_Some (events c !! e)) ->
  exists h' evs', store_pptr p n c = Ok (tt, with_queue h' evs' c) /\
    h' = (if bool_decide (p = EvNext) then n else ev_next_priv c) /\
    forall j, evs' !! j =
      (fun ev => if bool_decide (p = NextOf j) then upd_next n ev else ev) <$> events c !! j.
Proof.
  intros Hp. destruct p as [|e]; cbn [store_pptr].
  - exists n, (events c). split; [done|]. split; [done|]. intros j.
    by destruct (events c !! j).
  - destruct (set_next_ok c e n) as (evs' & Hs & Hj); [auto|].
    exists (ev_next_priv c), evs'. split; [done|]. split; [done|]. intros j. rewrite Hj.
    destruct (events c !! j); [|done]. cbn. f_equal.
    by destruct (decide (e = j)) as [<-|]; [rewrite !bool_decide_eq_true_2 by done
      |rewrite !bool_decide_eq_false_2 by congruence].
Qed.

(** an optional neighbour's back pointer *)
Lemma opt_set_pprev_ok c (o : option Z) p :
  (forall e, o = Some e -> is_Some (events c !! e)) ->
  exists evs',
    (match o with Some n => set_pprev n p | None => ret tt end) c =
      Ok (tt, with_queue (ev_next_priv c) evs' c) /\
    forall j, evs' !! j =
      (fun ev => if bool_decide (o = Some j) then upd_pprev p ev else ev) <$> events c !! j.
Proof.
  intros Ho. destruct o as [e|].
  - destruct (set_pprev_ok c e p) as (evs' & Hs & Hj); [auto|].
    exists evs'. split; [done|]. intros j. rewrite Hj. destruct (events c !! j); [|done].
    cbn. f_equal. by destruct (decide (e = j)) as [<-|];
      [rewrite !bool_decide_eq_true_2 by done|rewrite !bool_decide_eq_false_2 by congruence].
  - exists (events c). split; [by destruct c|]. intros j. by destruct (events c !! j).
Qed.

Lemma update_target_ok c l :
  ev_next_priv c = head l -> linked (events c) EvNext l ->
  update_target_stamp c = Ok (tt, set_target_stamp (target_of c l) c).
Proof.
  intros Hh Hl. unfold update_target_stamp, bind, gets. rewrite Hh.
  destruct l as [|e l]; cbn [head]; [done|]. destruct Hl as [(ev & He & _) _].
  unfold get_event. rewrite He. unfold target_of, stamp. by rewrite He.
Qed.

(** ** The list operations *)
Lemma insert_event_sorted w e l :
  StronglySorted (fun i j => w i <= w j) l ->
  StronglySorted (fun i j => w i <= w j) (insert_event w e l).
Proof.
  induction 1 as [|i l Hs IH Hf]; cbn [insert_event]; [repeat constructor|].
  destruct (Z.ltb_spec (w i) (w e)).
  - constructor; [done|]. clear IH Hs. induction Hf as [|j l Hj Hf IH]; cbn [insert_event].
    + repeat constructor. lia.
    + destruct (w j <? w e); repeat constructor; auto with lia.
  - constructor; [by constructor|]. constructor; [lia|].
    eapply List.Forall_impl; [|exact Hf]. cbn. lia.
Qed.

Lemma StronglySorted_ext (w w' : Z -> Z) l :
  (forall i, i ∈ l -> w' i = w i) ->
  StronglySorted (fun i j => w i <= w j) l -> StronglySorted (fun i j => w' i <= w' j) l.
Proof.
  intros Hw. induction 1 as [|i l Hs IH Hf]; constructor.
  - apply IH. set_solver.
  - rewrite list.Forall_forall in *. intros j Hj. rewrite !Hw by set_solver. auto.
Qed.

Lemma StronglySorted_remove {A} (R : A -> A -> Prop) l1 e l2 :
  StronglySorted R (l1 ++ e :: l2) -> StronglySorted R (l1 ++ l2).
Proof.
  induction l1 as [|i l1 IH]; cbn; inversion_clear 1; [done|]. constructor; [auto|].
  rewrite Forall_app in *. destruct H1 as [? H1]. inversion_clear H1. auto.
Qed.

Lemma same_stamps_stamp evs evs' i : same_stamps evs evs' -> stamp evs' i = stamp evs i.
Proof. intros Hs. unfold stamp. by rewrite Hs. Qed.

(** The list is not longer than the number of event structures. *)
Lemma linked_length evs p l : linked evs p l -> NoDup l -> (length l <= size evs)%nat.
Proof.
  intros Hl Hn. rewrite <- (size_list_to_set (C := gset Z)) by done.
  rewrite <- (size_dom (D := gset Z)). apply subseteq_size.
  intros i Hi. apply elem_of_list_to_set in Hi. apply elem_of_dom.
  destruct (linked_lookup evs p l i Hl Hi) as [ev ?]. eauto.
Qed.

Lemma find_slot_ok c w e p l fuel :
  linked (events c) p l -> w = stamp (events c) -> (length l < fuel)%nat ->
  exists l1 l2, l = l1 ++ l2 /\ insert_event w e l = l1 ++ e :: l2 /\
    find_slot fuel (w e) p (head l) c = Ok ((last_ptr p l1, head l2), c).
Proof.
  intros Hl ->. revert p fuel Hl. induction l as [|i l IH]; intros p fuel Hl Hfuel;
    (destruct fuel as [|fuel]; [cbn in Hfuel; lia|]); cbn [find_slot head].
  - exists [], []. auto.
  - destruct Hl as [(ev & He & Hp & Hn) Hl]. cbn [length] in Hfuel.
    unfold bind, get_event. rewrite He. cbn [insert_event].
    assert (Hw : ev_when ev = stamp (events c) i) by (unfold stamp; by rewrite He).
    rewrite Hw. destruct (stamp (events c) i <? stamp (events c) e).
    + destruct (IH (NextOf i) fuel Hl ltac:(lia)) as (l1 & l2 & -> & Hins & Hf).
      exists (i :: l1), l2. rewrite Hins, last_ptr_cons, Hn. auto.
    + exists [], (i :: l). auto.
Qed.

(** ** What the operations promise *)
Record op_post (c c' : dc_clock) (l' : list Z) : Prop := {
  post_queue : queue c' l';
  post_stamps : same_stamps (events c) (events c');
  post_cycle : clock_cycle_stamp c' = clock_cycle_stamp c;
  post_target : clock_target_stamp c' = target_of c' l'
}.

Lemma set_target_frame v c :
  ev_next_priv (set_target_stamp v c) = ev_next_priv c /\
  events (set_target_stamp v c) = events c /\
  clock_cycle_stamp (set_target_stamp v c) = clock_cycle_stamp c /\
  clock_target_stamp (set_target_stamp v c) = v.
Proof.
  unfold set_target_stamp, clock_cycle_stamp, clock_target_stamp.
  destruct (target_stamp_cell c) eqn:E; cbn; rewrite ?E; auto.
Qed.

Lemma target_of_ext c1 c2 l :
  events c1 = events c2 -> clock_cycle_stamp c1 = clock_cycle_stamp c2 ->
  target_of c1 l = target_of c2 l.
Proof. intros He Hc. unfold target_of. by rewrite He, Hc. Qed.

Lemma finish_ok c h evs' l' :
  h = head l' -> linked evs' EvNext l' -> NoDup l' ->
  same_stamps (events c) evs' ->
  StronglySorted (fun i j => stamp (events c) i <= stamp (events c) j) l' ->
  exists c', update_target_stamp (with_queue h evs' c) = Ok (tt, c') /\ op_post c c' l'.
Proof.
  intros Hh Hl Hn Hs Hso.
  rewrite (update_target_ok _ l') by done. eexists. split; [done|].
  destruct (set_target_frame (target_of (with_queue h evs' c) l') (with_queue h evs' c))
    as (H1 & H2 & H3 & H4).
  constructor.
  - unfold queue. rewrite H1, H2. cbn. split_and!; auto.
    eapply StronglySorted_ext; [|done]. intros i _. by apply same_stamps_stamp.
  - by rewrite H2.
  - by rewrite H3.
  - rewrite H4. symmetry. by apply target_of_ext.
Qed.

Lemma check_not_past_ok `{!BuildConfig} w c :
  (INVARIANTS = true -> clock_cycle_stamp c <= w) -> check_not_past w c = Ok (tt, c).
Proof.
  unfold check_not_past, bind, gets, when. intros Hw. destruct INVARIANTS; [|done].
  specialize (Hw eq_refl). by destruct (Z.ltb_spec w (clock_cycle_stamp c)); [lia|].
Qed.

Lemma decide_last_ptr l j :
  bool_decide (last_ptr EvNext l = NextOf j) = bool_decide (last l = Some j).
Proof.
  unfold last_ptr. apply bool_decide_ext. destruct (last l); [|done].
  split; congruence.
Qed.

Lemma decide_last_ptr_head (l : list Z) :
  bool_decide (last_ptr EvNext l = EvNext) = bool_decide (l = []).
Proof.
  apply bool_decide_ext. unfold last_ptr. destruct (last l) eqn:E.
  - split; [done|]. intros ->. done.
  - apply last_None in E. by split.
Qed.

(** The neighbours' pointers around position [l1 | l2], in the two orders in which the code
    writes them. *)
Lemma relink_decide l1 l2 n q j ev :
  relink l1 l2 n q j ev =
  (if bool_decide (head l2 = Some j) then upd_pprev (Some q) else Datatypes.id)
    (if bool_decide (last_ptr EvNext l1 = NextOf j) then upd_next n ev else ev).
Proof.
  rewrite decide_last_ptr. unfold relink, upd_next, upd_pprev, Datatypes.id.
  by destruct ev, (bool_decide (last l1 = Some j)), (bool_decide (head l2 = Some j)).
Qed.

Lemma head_elem_of (l : list Z) i : head l = Some i -> i ∈ l.
Proof. destruct l; [done|]. intros [= ->]. set_solver. Qed.

Lemma last_ptr_elem_of l i : last_ptr EvNext l = NextOf i -> i ∈ l.
Proof.
  unfold last_ptr. destruct (last l) eqn:E; [|done]. intros [= ->].
  by apply last_Some_elem_of.
Qed.

Lemma store_then_pprev c l1 l2 n q :
  NoDup (l1 ++ l2) -> (forall i, i ∈ l1 ++ l2 -> is_Some (events c !! i)) ->
  exists c1 h' evs',
    store_pptr (last_ptr EvNext l1) n c = Ok (tt, c1) /\
    (match head l2 with Some i => set_pprev i (Some q) | None => ret tt end) c1 =
      Ok (tt, with_queue h' evs' c) /\
    h' = (if bool_decide (l1 = []) then n else ev_next_priv c) /\
    forall j, evs' !! j = relink l1 l2 n q j <$> events c !! j.
Proof.
  intros Hnd Hin.
  destruct (store_pptr_ok c (last_ptr EvNext l1) n) as (h1 & evs1 & Hs1 & -> & H1).
  { intros i Hi. apply Hin, elem_of_app. left. by apply last_ptr_elem_of. }
  destruct (opt_set_pprev_ok (with_queue (if bool_decide (last_ptr EvNext l1 = EvNext) then n
      else ev_next_priv c) evs1 c) (head l2) (Some q)) as (evs2 & Hs2 & H2).
  { intros i Hi%head_elem_of. cbn. rewrite H1. apply fmap_is_Some, Hin. set_solver. }
  eexists _, _, evs2. split; [exact Hs1|]. split; [exact Hs2|].
  split; [by rewrite <- decide_last_ptr_head|].
  intros j. rewrite H2. cbn. rewrite H1. destruct (events c !! j) as [ev|]; [|done]. cbn.
  f_equal. rewrite relink_decide. by destruct (bool_decide (head l2 = Some j)).
Qed.

Lemma pprev_then_store c l1 l2 n q :
  NoDup (l1 ++ l2) -> (forall i, i ∈ l1 ++ l2 -> is_Some (events c !! i)) ->
  exists c1 h' evs',
    (match head l2 with Some i => set_pprev i (Some q) | None => ret tt end) c =
      Ok (tt, c1) /\
    store_pptr (last_ptr EvNext l1) n c1 = Ok (tt, with_queue h' evs' c) /\
    h' = (if bool_decide (l1 = []) then n else ev_next_priv c) /\
    forall j, evs' !! j = relink l1 l2 n q j <$> events c !! j.
Proof.
  intros Hnd Hin.
  destruct (opt_set_pprev_ok c (head l2) (Some q)) as (evs1 & Hs1 & H1).
  { intros i Hi%head_elem_of. apply Hin. set_solver. }
  destruct (store_pptr_ok (with_queue (ev_next_priv c) evs1 c) (last_ptr EvNext l1) n)
    as (h2 & evs2 & Hs2 & Hh & H2).
  { intros i Hi%last_ptr_elem_of. cbn. rewrite H1. apply fmap_is_Some, Hin. set_solver. }
  eexists _, h2, evs2. split; [exact Hs1|]. split; [exact Hs2|].
  split; [by rewrite Hh, <- decide_last_ptr_head|].
  intros j. rewrite H2. cbn. rewrite H1. destruct (events c !! j) as [ev|]; [|done]. cbn.
  f_equal. rewrite relink_decide.
  by destruct ev, (bool_decide (head l2 = Some j)), (bool_decide (last_ptr EvNext l1 = NextOf j)).
Qed.

(** the event's own pointers *)
Lemma own_pointers_ok c e n p :
  is_Some (events c !! e) ->
  exists c1 evs',
    set_next e n c = Ok (tt, c1) /\
    set_pprev e p c1 = Ok (tt, with_queue (ev_next_priv c) evs' c) /\
    forall j, evs' !! j =
      (fun ev => if bool_decide (e = j) then upd_pprev p (upd_next n ev) else ev) <$>
        events c !! j.
Proof.
  intros He. destruct (set_next_ok c e n He) as (evs1 & Hs1 & H1).
  destruct (set_pprev_ok (with_queue (ev_next_priv c) evs1 c) e p) as (evs2 & Hs2 & H2).
  { cbn. rewrite H1. by apply fmap_is_Some. }
  eexists _, evs2. split; [exact Hs1|]. split; [exact Hs2|]. intros j. rewrite H2. cbn.
  rewrite H1. destruct (events c !! j); [|done]. cbn. by destruct (bool_decide (e = j)).
Qed.

(** The heap after both, on the events other than [e] and on [e]. *)
Lemma relinked_heap (evs evs1 evs2 : gmap Z SchedEvent) l1 l2 n q e n' p' :
  (forall j, evs1 !! j = relink l1 l2 n q j <$> evs !! j) ->
  (forall j, evs2 !! j =
     (fun ev => if bool_decide (e = j) then upd_pprev p' (upd_next n' ev) else ev) <$>
       evs1 !! j) ->
  same_stamps evs evs2 /\
  (forall j, j <> e -> evs2 !! j = relink l1 l2 n q j <$> evs !! j) /\
  (forall ev, evs !! e = Some ev ->
     exists ev', evs2 !! e = Some ev' /\ next_event ev' = n' /\ pprev_event ev' = p').
Proof.
  intros H1 H2. split_and!.
  - intros j. rewrite H2, H1. destruct (evs !! j); [|done]. cbn.
    by destruct (bool_decide (e = j)).
  - intros j Hj. rewrite H2, bool_decide_eq_false_2 by done. rewrite H1.
    by destruct (evs !! j).
  - intros ev He. rewrite H2, H1, He, bool_decide_eq_true_2 by done. cbn. eauto.
Qed.

Lemma relink_back_of l1 l2 n q j ev :
  NoDup (l1 ++ l2) -> j ∈ l2 -> relink l1 l2 n q j ev = relink [] l2 None q j ev.
Proof.
  intros Hn Hj. unfold relink. f_equal. rewrite (bool_decide_eq_false_2 (last l1 = _)).
  - done.
  - intros Hl%last_Some_elem_of. apply list.NoDup_app in Hn as (_ & Hd & _). by eapply Hd.
Qed.

(** Insertion of [e] and removal of [e] on the level of linked lists. *)
Lemma linked_insert evs evs2 l1 e l2 :
  linked evs EvNext (l1 ++ l2) -> NoDup (l1 ++ l2) -> e ∉ l1 ++ l2 ->
  (forall j, j <> e -> evs2 !! j = relink l1 l2 (Some e) (NextOf e) j <$> evs !! j) ->
  (exists ev', evs2 !! e = Some ev' /\ next_event ev' = head l2 /\
     pprev_event ev' = Some (last_ptr EvNext l1)) ->
  linked evs2 EvNext (l1 ++ e :: l2).
Proof.
  intros Hl Hn He Hj (ev' & He' & Hn' & Hp').
  eapply (linked_relink_front evs _ _ _ l2); [done|done| |done|].
  - intros i Hi. apply Hj. intros ->. set_solver.
  - split; [eauto|]. clear Hp' He'.
    assert (Hl2 : exists p, linked evs p l2).
    { clear -Hl. revert Hl. generalize EvNext. induction l1 as [|i l1 IH]; cbn; [eauto|].
      intros p [_ Hl]. eauto. }
    destruct Hl2 as [p Hl2]. apply (linked_relink_back evs _ p); [done| |].
    + by apply list.NoDup_app in Hn as (_ & _ & ?).
    + intros i Hi. rewrite Hj by (intros ->; set_solver). destruct (evs !! i); [|done].
      cbn. f_equal. by apply relink_back_of.
Qed.

Lemma linked_remove evs evs2 l1 e l2 :
  linked evs EvNext (l1 ++ e :: l2) -> NoDup (l1 ++ e :: l2) ->
  (forall j, j <> e ->
     evs2 !! j = relink l1 l2 (head l2) (last_ptr EvNext l1) j <$> evs !! j) ->
  linked evs2 EvNext (l1 ++ l2).
Proof.
  intros Hl Hn Hj. pose proof Hn as Hn0.
  apply list.NoDup_app in Hn as (Hn1 & Hd & Hn2). rewrite list.NoDup_cons in Hn2.
  destruct Hn2 as [He2 Hn2].
  assert (Hne : forall i, i ∈ l1 ++ l2 -> i <> e) by set_solver.
  eapply (linked_relink_front evs _ _ _ (e :: l2) (head l2) (last_ptr EvNext l1));
    [done|done| |done|].
  - intros i Hi. rewrite Hj by set_solver. destruct (evs !! i) as [ev|]; [|done]. cbn. f_equal.
    unfold relink. f_equal. rewrite !bool_decide_eq_false_2; [done| |].
    + cbn. intros [= ->]. set_solver.
    + intros Hh%head_elem_of. set_solver.
  - assert (Hl2 : linked evs (NextOf e) l2).
    { clear -Hl. revert Hl. generalize EvNext. induction l1 as [|i l1 IH]; cbn.
      - by intros p [_ ?].
      - intros p [_ Hl]. eauto. }
    apply (linked_relink_back evs _ _ _ _ Hl2 Hn2). intros i Hi.
    rewrite Hj by set_solver. destruct (evs !! i); [|done]. cbn. f_equal.
    apply relink_back_of; [|done]. apply list.NoDup_app. split_and!; auto. set_solver.
Qed.

Section op_specs.
Context `{!BuildConfig}.

Lemma sched_event_ok c l e :
  queue c l -> e ∉ l -> is_Some (events c !! e) ->
  (INVARIANTS = true -> clock_cycle_stamp c <= stamp (events c) e) ->
  exists c', sched_event e c = Ok (tt, c') /\
    op_post c c' (insert_event (stamp (events c)) e l).
Proof.
  intros (Hh & Hl & Hn & Hso) He [ev Hev] Hpast.
  assert (Hw : ev_when ev = stamp (events c) e) by (unfold stamp; by rewrite Hev).
  pose proof (insert_event_sorted _ e _ Hso) as Hso'.
  destruct (find_slot_ok c _ e EvNext l (S (size (events c))) Hl eq_refl)
    as (l1 & l2 & -> & Hins & Hslot).
  { apply le_n_S. by eapply linked_length. }
  rewrite Hins in *.
  destruct (store_then_pprev c l1 l2 (Some e) (NextOf e) Hn)
    as (c1 & h & evs & Hs1 & Hs2 & Hh' & Hj).
  { intros i Hi. destruct (linked_lookup _ _ _ _ Hl Hi); eauto. }
  destruct (own_pointers_ok (with_queue h evs c) e (head l2) (Some (last_ptr EvNext l1)))
    as (c2 & evs2 & Hs3 & Hs4 & H2).
  { cbn. rewrite Hj, Hev. eauto. }
  destruct (relinked_heap _ _ _ _ _ _ _ _ _ _ Hj H2) as (Hst & Hother & Hown).
  unfold sched_event. erewrite bind_ok by (unfold get_event; by rewrite Hev).
  rewrite Hw. erewrite bind_ok by (by apply check_not_past_ok).
  erewrite bind_ok by done. erewrite bind_ok by done. rewrite Hh.
  erewrite bind_ok by exact Hslot. cbn beta iota.
  erewrite bind_ok by exact Hs1. erewrite bind_ok by exact Hs2.
  erewrite bind_ok by exact Hs3. erewrite bind_ok by exact Hs4.
  change (with_queue _ evs2 _) with (with_queue h evs2 c).
  apply finish_ok; [|by eapply linked_insert; eauto| |done|done].
  - rewrite Hh'. cbn. destruct l1; [done|]. cbn. by rewrite Hh.
  - apply list.NoDup_app in Hn as (? & Hd & ?). apply list.NoDup_app.
    split_and!; [done|set_solver|]. apply list.NoDup_cons. set_solver.
Qed.

Lemma remove_nodup (l1 : list Z) e l2 : NoDup (l1 ++ e :: l2) -> NoDup (l1 ++ l2).
Proof.
  rewrite !list.NoDup_app, list.NoDup_cons. intros (? & Hd & ? & ?).
  split_and!; auto. set_solver.
Qed.

Lemma cancel_event_ok c l1 e l2 :
  queue c (l1 ++ e :: l2) ->
  (INVARIANTS = true -> clock_cycle_stamp c <= stamp (events c) e) ->
  exists c', cancel_event e c = Ok (tt, c') /\ op_post c c' (l1 ++ l2).
Proof.
  intros (Hh & Hl & Hn & Hso) Hpast.
  destruct (linked_at _ _ _ _ _ Hl) as (ev & Hev & Hp & Hnx).
  assert (Hw : ev_when ev = stamp (events c) e) by (unfold stamp; by rewrite Hev).
  destruct (pprev_then_store c l1 l2 (head l2) (last_ptr EvNext l1) (remove_nodup _ _ _ Hn))
    as (c1 & h & evs & Hs1 & Hs2 & Hh' & Hj).
  { intros i Hi. destruct (linked_lookup _ _ _ i Hl); [set_solver|eauto]. }
  destruct (own_pointers_ok (with_queue h evs c) e None None) as (c2 & evs2 & Hs3 & Hs4 & H2).
  { cbn. rewrite Hj, Hev. eauto. }
  destruct (relinked_heap _ _ _ _ _ _ _ _ _ _ Hj H2) as (Hst & Hother & _).
  unfold cancel_event. erewrite bind_ok by (unfold get_event; by rewrite Hev).
  rewrite Hw, Hp, Hnx. erewrite bind_ok by (by apply check_not_past_ok).
  erewrite bind_ok by exact Hs1. erewrite bind_ok by exact Hs2.
  erewrite bind_ok by exact Hs3. erewrite bind_ok by exact Hs4.
  change (with_queue _ evs2 _) with (with_queue h evs2 c).
  apply finish_ok; [|by eapply linked_remove; eauto|by eapply remove_nodup|done
    |by eapply StronglySorted_remove].
  rewrite Hh'. destruct l1; [done|]. cbn. by rewrite Hh.
Qed.

Lemma pop_event_ok c e l :
  queue c (e :: l) ->
  (INVARIANTS = true -> clock_cycle_stamp c <= stamp (events c) e) ->
  exists c', pop_event c = Ok (Some e, c') /\ op_post c c' l.
Proof.
  intros (Hh & Hl & Hn & Hso) Hpast.
  destruct (linked_at _ _ [] _ _ Hl) as (ev & Hev & Hp & Hnx).
  assert (Hw : ev_when ev = stamp (events c) e) by (unfold stamp; by rewrite Hev).
  destruct (store_then_pprev c [] l (head l) EvNext) as (c1 & h & evs & Hs1 & Hs2 & Hh' & Hj).
  { by apply (remove_nodup [] e l). }
  { intros i Hi. destruct (linked_lookup _ _ _ i Hl); [set_solver|eauto]. }
  destruct (own_pointers_ok (with_queue h evs c) e None None) as (c2 & evs2 & Hs3 & Hs4 & H2).
  { cbn. rewrite Hj, Hev. eauto. }
  destruct (relinked_heap _ _ _ _ _ _ _ _ _ _ Hj H2) as (Hst & Hother & _).
  destruct (finish_ok c h evs2 l) as (c' & Hu & Hpost);
    [done|by eapply (linked_remove _ _ [] e l); eauto|by apply (remove_nodup [] e l)|done
    |by apply (StronglySorted_remove _ [] e l)|].
  exists c'. split; [|done].
  unfold pop_event. erewrite bind_ok by done. rewrite Hh. cbn [head].
  erewrite bind_ok.
  2:{ erewrite bind_ok by (unfold get_event; by rewrite Hev). rewrite Hw.
      by apply check_not_past_ok. }
  erewrite bind_ok.
  2:{ erewrite bind_ok by (unfold get_event; by rewrite Hev). rewrite Hnx.
      erewrite bind_ok by exact Hs1. erewrite bind_ok by exact Hs2.
      erewrite bind_ok by exact Hs3. exact Hs4. }
  erewrite bind_ok by exact Hu. done.
Qed.

Lemma pop_event_empty_ok c :
  queue c [] -> exists c', pop_event c = Ok (None, c') /\ op_post c c' [].
Proof.
  intros (Hh & Hl & Hn & Hso).
  destruct (finish_ok c None (events c) []) as (c' & Hu & Hpost); try done.
  exists c'. split; [|done]. unfold pop_event. erewrite bind_ok by done. rewrite Hh.
  cbn [head]. erewrite bind_ok by done. erewrite bind_ok by done.
  erewrite bind_ok; [done|]. rewrite <- Hu. f_equal. destruct c; cbn in *. by subst.
Qed.
End op_specs.

(** ** Timeslices *)
Section timeslice_spec.
Context `{!BuildConfig} {X : Type}.
Abbreviation mach := (M (dc_clock * X)).
Context (dispatch : mach bool) (handler : Z -> mach unit).
(** the end of the timeslice, an invariant of the rest of the machine, and a bound on the
    events still to be handled *)
Context (T : Z) (J : dc_clock -> X -> Prop) (rank : dc_clock -> X -> nat).

(** no queued event lies in the past, the target stamp is the earliest event, and the end
    of the timeslice is queued *)
Record on_time (c : dc_clock) (x : X) (l : list Z) : Prop := {
  ot_queue : queue c l;
  ot_target : clock_target_stamp c = target_of c l;
  ot_future : Forall (fun i => clock_cycle_stamp c <= stamp (events c) i) l;
  ot_end : timeslice_end_event ∈ l;
  ot_stamp : stamp (events c) timeslice_end_event = T;
  ot_inv : J c x
}.

(** The CPU runs up to the target stamp, which the events it schedules may bring forward,
    or asks to stop. *)
Definition dispatch_spec : Prop :=
  forall c x l, on_time c x l ->
    exists b c' x' l', dispatch (c, x) = Ok (b, (c', x')) /\ on_time c' x' l' /\
      (b = false -> clock_cycle_stamp c' = clock_target_stamp c') /\
      (rank c' x' <= rank c x)%nat.

(** A handler is called at its event's time, with the event taken out of the queue. *)
Definition handler_spec : Prop :=
  forall e c0 c x l, on_time c0 x (e :: l) -> pop_event c0 = Ok (Some e, c) ->
    e <> timeslice_end_event -> queue c l ->
    clock_cycle_stamp c = stamp (events c) e ->
    exists c' x' l', handler e (c, x) = Ok (tt, (c', x')) /\ on_time c' x' l' /\
      (rank c' x' < rank c0 x)%nat.

Lemma timeslice_loop_ok fuel c x l :
  dispatch_spec -> handler_spec -> on_time c x l -> (rank c x < fuel)%nat ->
  exists b c' x', timeslice_loop dispatch handler fuel (c, x) = Ok (b, (c', x')) /\
    (b = false -> clock_cycle_stamp c' = T /\
       exists l', queue c' l' /\ timeslice_end_event ∉ l' /\
         Forall (fun i => T <= stamp (events c') i) l').
Proof.
  intros Hd Hh. revert c x l. induction fuel as [|fuel IH]; intros c x l Hot Hr; [lia|].
  cbn [timeslice_loop].
  destruct (Hd c x l Hot) as (b & c1 & x1 & l1 & Hds & Hot1 & Hnow & Hr1).
  rewrite (bind_ok _ _ _ _ _ Hds). destruct b.
  { exists true, c1, x1. split; [done|]. done. }
  specialize (Hnow eq_refl). destruct Hot1 as [Hq Ht Hf He Hst HJ] eqn:E1. clear E1.
  destruct l1 as [|e l1]; [set_solver|]. cbn [target_of] in Ht.
  destruct (pop_event_ok c1 e l1 Hq) as (c2 & Hpop & Hpost); [lia|].
  rewrite (bind_ok _ _ _ (Some e) (c2, x1)) by (unfold on_clock; by rewrite Hpop).
  destruct Hpost as [Hq2 Hs2 Hc2 Ht2].
  destruct (Z.eqb_spec e timeslice_end_event) as [->|Hne].
  - exists false, c2, x1. split; [done|]. intros _. split; [lia|]. exists l1.
    split; [done|]. destruct Hq as (_ & _ & Hn & _). rewrite list.NoDup_cons in Hn.
    split; [tauto|]. apply list.Forall_cons in Hf as [_ Hf].
    eapply List.Forall_impl; [|exact Hf]. intros i Hi. cbn in Hi.
    rewrite (same_stamps_stamp _ _ i Hs2). lia.
  - destruct (Hh e c1 c2 x1 l1) as (c3 & x3 & l3 & Hhd & Hot3 & Hr3); try done.
    { rewrite (same_stamps_stamp _ _ e Hs2). lia. }
    rewrite (bind_ok _ _ _ _ _ Hhd). apply (IH c3 x3 l3); [done|lia].
Qed.
End timeslice_spec.

(** setting the time of an event that is not queued *)
Lemma set_when_ok c l e w :
  queue c l -> e ∉ l -> is_Some (events c !! e) ->
  exists c', set_when e w c = Ok (tt, c') /\ queue c' l /\
    clock_cycle_stamp c' = clock_cycle_stamp c /\ stamp (events c') e = w /\
    is_Some (events c' !! e) /\
    forall i, i <> e -> stamp (events c') i = stamp (events c) i.
Proof.
  intros (Hh & Hl & Hn & Hso) He [ev Hev].
  unfold set_when, bind, get_event, put_event. rewrite Hev, Hev. eexists. split; [done|].
  assert (Hi : forall i, i <> e -> forall ev', (<[e := ev']> (events c)) !! i = events c !! i)
    by (intros; by apply lookup_insert_ne).
  unfold queue, stamp; cbn. split_and!.
  - done.
  - eapply linked_frame; [|done]. intros i ?. apply Hi. set_solver.
  - done.
  - eapply StronglySorted_ext; [|exact Hso]. intros i ?. unfold stamp.
    rewrite Hi by set_solver. done.
  - done.
  - by rewrite lookup_insert_eq.
  - rewrite lookup_insert_eq. eauto.
  - intros i Hne. by rewrite Hi.
Qed.

Lemma insert_event_perm w e l : insert_event w e l ≡ₚ e :: l.
Proof.
  induction l as [|i l IH]; cbn; [done|]. destruct (w i <? w e); [|done].
  rewrite IH. apply Permutation_swap.
Qed.

(** ** Properties *)

(** scheduling an event that is not queued inserts it before the first queued event that
    is not earlier; the doubly linked list stays sorted and consistent, no time stamp
    changes, and the target stamp becomes that of the earliest event. *)
Theorem sched_event_inserts `{!BuildConfig} (c : dc_clock) (l : list Z) (e : Z) :
  queue c l -> e ∉ l -> is_Some (events c !! e) ->
  (INVARIANTS = true -> clock_cycle_stamp c <= stamp (events c) e) ->
  exists c', sched_event e c = Ok (tt, c') /\
    op_post c c' (insert_event (stamp (events c)) e l).
Proof. apply sched_event_ok. Qed.

(** cancelling a queued event, wherever it is in the queue, removes exactly that event and
    leaves a consistent sorted queue. *)
Theorem cancel_event_removes `{!BuildConfig} (c : dc_clock) (l1 : list Z) (e : Z) (l2 : list Z) :
  queue c (l1 ++ e :: l2) ->
  (INVARIANTS = true -> clock_cycle_stamp c <= stamp (events c) e) ->
  exists c', cancel_event e c = Ok (tt, c') /\ op_post c c' (l1 ++ l2).
Proof. apply cancel_event_ok. Qed.

(** [pop_event] takes out the first event, no other queued event has an earlier time
    stamp, and an empty queue gives the null pointer. *)
Theorem pop_event_earliest `{!BuildConfig} (c : dc_clock) (l : list Z) :
  queue c l ->
  (INVARIANTS = true -> Forall (fun i => clock_cycle_stamp c <= stamp (events c) i) l) ->
  exists c', pop_event c = Ok (head l, c') /\ op_post c c' (tail l) /\
    forall e i, head l = Some e -> i ∈ l -> stamp (events c) e <= stamp (events c) i.
Proof.
  intros Hq Hp. destruct l as [|e l]; cbn [head tail].
  - destruct (pop_event_empty_ok c Hq) as (c' & ? & ?). by exists c'.
  - destruct (pop_event_ok c e l Hq) as (c' & ? & ?).
    { intros Hi. specialize (Hp Hi). by inversion Hp. }
    exists c'. split_and!; [done|done|]. intros ? i [= <-] Hi.
    destruct Hq as (_ & _ & _ & Hso). inversion_clear Hso.
    apply elem_of_cons in Hi as [->|Hi]; [lia|].
    rewrite list.Forall_forall in *. auto.
Qed.

(** C1: a timeslice runs to its end when the CPU's dispatch function advances the clock
    exactly to the target stamp and the handlers keep their new events out of the past: every
    handler then starts when the clock shows exactly its event's time stamp, and the timeslice
    ends exactly [DC_TIMESLICE] after it began with no overdue event left in the queue. *)
Theorem timeslice_exact `{!BuildConfig} {X : Type}
    (dispatch : M (dc_clock * X) bool) (handler : Z -> M (dc_clock * X) unit)
    (J : dc_clock -> X -> Prop) (rank : dc_clock -> X -> nat)
    (c : dc_clock) (x : X) (l : list Z) (fuel : nat) :
  let T := clock_cycle_stamp c + DC_TIMESLICE in
  dispatch_spec dispatch T J rank -> handler_spec handler T J rank ->
  queue c l -> timeslice_end_event ∉ l -> is_Some (events c !! timeslice_end_event) ->
  Forall (fun i => clock_cycle_stamp c <= stamp (events c) i) l ->
  0 <= clock_cycle_stamp c -> T < 2 ^ 64 ->
  (forall c' w, queue c' (insert_event w timeslice_end_event l) ->
     J c' x /\ (rank c' x < fuel)%nat) ->
  exists b c' x', dc_clock_run_timeslice dispatch handler fuel (c, x) = Ok (b, (c', x')) /\
    (b = false -> clock_cycle_stamp c' = T /\
       exists l', queue c' l' /\ timeslice_end_event ∉ l' /\
         Forall (fun i => T <= stamp (events c') i) l').
Proof.
  intros T Hd Hh Hq Hts Hex Hf H0 HT HJ.
  assert (0 < DC_TIMESLICE) by (vm_compute; done).
  destruct (set_when_ok c l timeslice_end_event T Hq Hts Hex)
    as (c1 & Hs1 & Hq1 & Hc1 & Hw1 & Hex1 & Hst1).
  destruct (sched_event_ok c1 l timeslice_end_event Hq1 Hts Hex1) as (c2 & Hs2 & [Hq2 Hs Hc2 Ht2]).
  { intros _. rewrite Hc1, Hw1. unfold T. lia. }
  unfold dc_clock_run_timeslice.
  erewrite bind_ok by done. rewrite wrap_small by (unfold in_range, T in *; lia). fold T.
  rewrite (bind_ok _ _ _ tt (c1, x)) by (unfold on_clock; by rewrite Hs1).
  rewrite (bind_ok _ _ _ tt (c2, x)) by (unfold on_clock; by rewrite Hs2).
  destruct (HJ c2 _ Hq2) as [HJ2 Hr2].
  eapply timeslice_loop_ok; [exact Hd|exact Hh| |done]. constructor; try done.
  - rewrite insert_event_perm. constructor.
    + rewrite (same_stamps_stamp _ _ _ Hs), Hc2, Hc1, Hw1. unfold T. lia.
    + rewrite list.Forall_forall in *. intros i Hi. rewrite (same_stamps_stamp _ _ _ Hs), Hc2.
      rewrite Hc1, Hst1 by set_solver. auto.
  - rewrite insert_event_perm. set_solver.
  - by rewrite (same_stamps_stamp _ _ _ Hs).
Qed.

(** *** A clock with three events at stamps 10, 20 and 20, and the end of the timeslice *)
Definition unlinked (w : Z) : SchedEvent :=
  {| ev_when := w; next_event := None; pprev_event := None |}.
Definition demo_clock : dc_clock :=
  dc_clock_init (list_to_map [(0, unlinked 0); (1, unlinked 10); (2, unlinked 20);
                              (3, unlinked 20)]).
Definition demo_config : BuildConfig :=
  {| INVARIANTS := true; ENABLE_SH4_MMU := false; ENABLE_DEBUGGER := false;
     DBG_EXIT_ON_UNDEFINED_OPCODE := false |}.

Lemma demo_queue_empty : queue demo_clock [].
Proof. repeat split; constructor. Qed.

Lemma sched_event_inserts_witness :
  exists c', @sched_event demo_config 2 demo_clock = Ok (tt, c') /\ op_post demo_clock c' [2].
Proof.
  apply (@sched_event_inserts demo_config demo_clock [] 2 demo_queue_empty).
  - set_solver.
  - vm_compute. eauto.
  - vm_compute. congruence.
Defined.

(** the clock after scheduling events 1, 2 and 3 *)
Definition demo_clock3 : dc_clock :=
  match (@sched_event demo_config 1 ;; @sched_event demo_config 2 ;;
         @sched_event demo_config 3) demo_clock with
  | Ok (_, c) => c
  | Err _ => demo_clock
  end.

Lemma demo_queue3 : queue demo_clock3 [1; 3; 2].
Proof.
  split; [reflexivity|]. split.
  { cbn [linked]. repeat split; (eexists; split; [vm_compute; reflexivity|done]). }
  split; [by apply (bool_decide_unpack _); vm_compute|].
  repeat constructor; vm_compute; congruence.
Qed.

Lemma cancel_event_removes_witness :
  exists c', @cancel_event demo_config 3 demo_clock3 = Ok (tt, c') /\
    op_post demo_clock3 c' [1; 2].
Proof.
  apply (@cancel_event_removes demo_config demo_clock3 [1] 3 [2] demo_queue3).
  vm_compute. congruence.
Defined.

Lemma pop_event_earliest_witness :
  exists c', @pop_event demo_config demo_clock3 = Ok (Some 1, c') /\
    op_post demo_clock3 c' [3; 2] /\
    forall e i, Some 1 = Some e -> i ∈ [1; 3; 2] ->
      stamp (events demo_clock3) e <= stamp (events demo_clock3) i.
Proof.
  apply (@pop_event_earliest demo_config demo_clock3 [1; 3; 2] demo_queue3).
  intros _. repeat constructor; vm_compute; congruence.
Defined.

(** a CPU that jumps to the target stamp and handlers that only count down *)
Definition demo_dispatch : M (dc_clock * nat) bool :=
  fun '(c, x) => Ok (false, (clock_set_cycle_stamp (clock_target_stamp c) c, x)).
Definition demo_handler (e : Z) : M (dc_clock * nat) unit :=
  fun '(c, x) => Ok (tt, (c, pred x)).
Definition demo_J (c : dc_clock) (x : nat) : Prop := exists l, queue c l /\ length l = x.
Definition demo_rank (c : dc_clock) (x : nat) : nat := x.

Lemma set_cycle_frame v c :
  ev_next_priv (clock_set_cycle_stamp v c) = ev_next_priv c /\
  events (clock_set_cycle_stamp v c) = events c /\
  clock_cycle_stamp (clock_set_cycle_stamp v c) = v /\
  clock_target_stamp (clock_set_cycle_stamp v c) = clock_target_stamp c.
Proof.
  unfold clock_set_cycle_stamp, clock_cycle_stamp, clock_target_stamp.
  destruct (cycle_stamp_cell c) eqn:E; cbn; rewrite ?E; auto.
Qed.

Lemma queue_ext c c' l :
  ev_next_priv c' = ev_next_priv c -> events c' = events c -> queue c l -> queue c' l.
Proof. unfold queue. by intros -> ->. Qed.

Lemma demo_dispatch_spec T : dispatch_spec demo_dispatch T demo_J demo_rank.
Proof.
  intros c x l [Hq Ht Hf He Hst (l' & Hq' & Hl')].
  destruct (set_cycle_frame (clock_target_stamp c) c) as (H1 & H2 & H3 & H4).
  eexists _, _, x, l. split; [reflexivity|].
  set (c1 := clock_set_cycle_stamp (clock_target_stamp c) c) in *. clearbody c1.
  split; [|by rewrite H3, H4]. destruct l as [|e l]; [set_solver|]. cbn [target_of] in Ht.
  constructor.
  - by eapply queue_ext.
  - rewrite H4, Ht. cbn [target_of]. by rewrite H2.
  - destruct Hq as (_ & _ & _ & Hso). inversion_clear Hso as [|? ? ? Hle].
    rewrite list.Forall_forall in *. intros i Hi. rewrite H2, H3, Ht.
    apply elem_of_cons in Hi as [->|Hi]; [lia|auto].
  - done.
  - by rewrite H2.
  - exists l'. split; [by eapply queue_ext|done].
Qed.

Lemma linked_det evs p l1 l2 : linked evs p l1 -> linked evs p l2 -> head l1 = head l2 -> l1 = l2.
Proof.
  revert p l2. induction l1 as [|i l1 IH]; intros p [|j l2]; cbn; try done.
  intros [(ev & He & _ & Hn) Hl] [(ev' & He' & _ & Hn') Hl'] [= <-]. f_equal.
  rewrite He in He'. injection He' as <-. apply (IH (NextOf i)); [done..|congruence].
Qed.

Lemma queue_det c l1 l2 : queue c l1 -> queue c l2 -> l1 = l2.
Proof. intros (? & ? & _) (? & ? & _). eapply linked_det; [done..|congruence]. Qed.

Lemma demo_handler_spec T :
  @handler_spec demo_config nat demo_handler T demo_J demo_rank.
Proof.
  intros e c0 c x l [Hq Ht Hf He Hst (l' & Hq' & <-)] Hpop Hne Hql Hnow.
  rewrite (queue_det _ _ _ Hq' Hq).
  destruct (@pop_event_ok demo_config c0 e l Hq) as (c' & Hpop' & [Hq2 Hs Hc Ht2]).
  { intros _. by inversion Hf. }
  rewrite Hpop in Hpop'. injection Hpop' as <-.
  eexists c, (length l), l. split; [reflexivity|]. split; [|cbn; unfold demo_rank; lia].
  constructor; try done.
  - inversion_clear Hf. eapply List.Forall_impl; [|done]. cbn. intros i.
    rewrite (same_stamps_stamp _ _ i Hs). lia.
  - set_solver.
  - by rewrite (same_stamps_stamp _ _ _ Hs).
  - by exists l.
Qed.

Lemma timeslice_exact_witness :
  exists b c' x',
    @dc_clock_run_timeslice demo_config nat demo_dispatch demo_handler 5 (demo_clock3, 4%nat) =
      Ok (b, (c', x')) /\
    (b = false -> clock_cycle_stamp c' = DC_TIMESLICE /\
       exists l', queue c' l' /\ timeslice_end_event ∉ l' /\
         Forall (fun i => DC_TIMESLICE <= stamp (events c') i) l').
Proof.
  apply (@timeslice_exact demo_config nat demo_dispatch demo_handler demo_J demo_rank
           demo_clock3 4%nat [1; 3; 2] 5%nat (demo_dispatch_spec _) (demo_handler_spec _)
           demo_queue3).
  - set_solver.
  - vm_compute. eauto.
  - repeat constructor; vm_compute; congruence.
  - vm_compute. congruence.
  - vm_compute. congruence.
  - intros c' w Hq. split; [|unfold demo_rank; lia]. eexists. split; [exact Hq|].
    by rewrite insert_event_perm.
Defined.
End sched.
