(* ===== verification/Sh4Exec.v ===== *)
(** The interpreter's fetch, decode and execute loop: src/libwashdc/hw/sh4/sh4_read_inst.h,
    the cycle counting of sh4.h, and [run_to_next_sh4_event] of src/libwashdc/dreamcast.c.

    The CPU's clock belongs to the scheduler; the loop uses it through the interface
    [Clock], whose laws [ClockLaws] the scheduler's clock satisfies ([Sched]). *)
From stdpp Require Import gmap.
From S2P Require Import Prelude MemoryMap Memory Sh4State Board Sh4Core Sh4Excp Sh4Inst.
From S2P Require Import Sh4InstMem Sh4Decode Sched.

(** the operations of dc_sched.h on [sh4_clock] *)
Class Clock (W : Type) : Type := {
  clock_target_stamp : W -> Z;
  clock_cycle_stamp : W -> Z;
  clock_set_cycle_stamp : Z -> W -> W
}.

Class ClockLaws (W : Type) `{!Clock W} : Prop := {
  clock_cycle_set : forall v w, clock_cycle_stamp (clock_set_cycle_stamp v w) = v;
  clock_target_set : forall v w, clock_target_stamp (clock_set_cycle_stamp v w) = clock_target_stamp w
}.

Section sh4_exec.
Context {W : Type} `{!BuildConfig} `{!Machine W}.
Abbreviation sh4M := (M (Sh4 W)).

(** enough for [sh4_refresh_intc], see [refresh_intc_fuel] *)
Definition intc_fuel : nat := 2.

Definition sh4_do_read_inst (addr : Z) : sh4M Z :=
  memory_map_read_16 (Z.land addr 0x1fffffff).

Definition sh4_read_inst : sh4M Z :=
  pc <- reg_get SH4_REG_PC ;; sh4_do_read_inst pc.

Definition sh4_inst_increments_pc (inst : Z) : bool := negb (Z.land inst 0xff00 =? 0xc300).

(** the cycles of the instruction, and the new [*last_inst_type_p] *)
Definition sh4_count_inst_cycles (op : InstOpcode W) (last_inst_type : sh4_inst_group)
    : Z * sh4_inst_group :=
  if bool_decide (last_inst_type = SH4_GROUP_NONE) ||
     (bool_decide (group op = SH4_GROUP_CO) ||
      bool_decide (last_inst_type = SH4_GROUP_CO) ||
      (bool_decide (last_inst_type = group op) && negb (bool_decide (group op = SH4_GROUP_MT))))
  then (issue op, group op)
  else (0, SH4_GROUP_NONE).

Definition sh4_do_exec_inst (inst : Z) (op : InstOpcode W) : sh4M unit :=
  db <- gets delayed_branch ;;
  if negb (db && pc_relative op) then
    delayed_branch_tmp <- gets delayed_branch ;;
    delayed_branch_addr_tmp <- gets delayed_branch_addr ;;
    func op inst ;;
    when (sh4_inst_increments_pc inst)
      (pc <- reg_get SH4_REG_PC ;; reg_set SH4_REG_PC (pc + 2)) ;;
    let finish_delay_slot :=
      when delayed_branch_tmp
        (reg_set SH4_REG_PC delayed_branch_addr_tmp ;;
         set_delayed_branch false ;;
         sh4_check_interrupts_no_delay_branch_check (sh4_refresh_intc intc_fuel)) in
    if ENABLE_DEBUGGER then
      aborted <- gets aborted_operation ;;
      if negb aborted then finish_delay_slot
      else modify (with_aborted_operation false)
    else finish_delay_slot
  else sh4_set_exception SH4_EXCP_SLOT_ILLEGAL_INST.

Definition SH4_CLOCK_SCALE : Z := 27.

Section event_loop.
Context `{!Clock W}.

(** the body of the loop of [run_to_next_sh4_event] *)
Definition run_one_inst : sh4M unit :=
  inst <- sh4_read_inst ;;
  let op := sh4_decode_inst inst in
  last <- gets last_inst_type ;;
  let '(inst_cycles, last') := sh4_count_inst_cycles op last in
  modify (with_last_inst_type last') ;;
  now <- gets (fun s => clock_cycle_stamp (world s)) ;;
  let cycles_after := u64 (now + inst_cycles * SH4_CLOCK_SCALE) in
  sh4_do_exec_inst inst op ;;
  tgt_stamp <- gets (fun s => clock_target_stamp (world s)) ;;
  let cycles_after := if cycles_after >? tgt_stamp then tgt_stamp else cycles_after in
  modify (fun s => with_world (clock_set_cycle_stamp cycles_after (world s)) s).

Fixpoint run_to_next_sh4_event (fuel : nat) : sh4M unit :=
  match fuel with
  | O => raise OUT_OF_FUEL
  | S fuel' =>
      tgt_stamp <- gets (fun s => clock_target_stamp (world s)) ;;
      now <- gets (fun s => clock_cycle_stamp (world s)) ;;
      if tgt_stamp >? now then run_one_inst ;; run_to_next_sh4_event fuel'
      else ret tt
  end.
End event_loop.
End sh4_exec.

(** The scheduler's clock implements the interface. *)
#[export] Instance sched_clock : Clock sched.dc_clock := {|
  clock_target_stamp := sched.clock_target_stamp;
  clock_cycle_stamp := sched.clock_cycle_stamp;
  clock_set_cycle_stamp := sched.clock_set_cycle_stamp
|}.

#[export] Instance sched_clock_laws : ClockLaws sched.dc_clock.
Proof.
  split; intros v w; destruct (sched.set_cycle_frame v w) as (_ & _ & ? & ?); assumption.
Qed.

(** ** Dual issue *)
Section dual_issue.
Context {W : Type} {CFG : BuildConfig} {MCH : Machine W}.

(** the rule that the comment on [InstOpcode] states: which groups issue in parallel *)
Definition can_pair (g1 g2 : sh4_inst_group) : bool :=
  match g1, g2 with
  | SH4_GROUP_NONE, _ | _, SH4_GROUP_NONE => false
  | SH4_GROUP_CO, _ | _, SH4_GROUP_CO => false
  | SH4_GROUP_MT, _ | _, SH4_GROUP_MT => true
  | _, _ => negb (bool_decide (g1 = g2))
  end.

Lemma opcode_groups :
  forallb (fun op => (1 <=? issue op) && (issue op <=? 255) && negb (bool_decide (group op = SH4_GROUP_NONE)) &&
                     ((issue op =? 1) || bool_decide (group op = SH4_GROUP_CO)))
    (@opcode_list W CFG MCH) = true.
Proof. vm_compute. reflexivity. Qed.

Lemma opcode_group_facts (op : InstOpcode W) :
  In op opcode_list ->
  1 <= issue op <= 255 /\ group op <> SH4_GROUP_NONE /\ (1 < issue op -> group op = SH4_GROUP_CO).
Proof.
  intros Hin. pose proof opcode_groups as Hg. rewrite forallb_forall in Hg.
  specialize (Hg op Hin). rewrite !andb_true_iff, orb_true_iff, negb_true_iff in Hg.
  destruct Hg as [[[H1 H0] H2] H3]. rewrite bool_decide_eq_false in H2.
  split; [lia|]. split; [done|]. intros. destruct H3 as [?|H3]; [lia|].
  by rewrite bool_decide_eq_true in H3.
Qed.

Lemma count_cycles_eq (op : InstOpcode W) last :
  group op <> SH4_GROUP_NONE ->
  sh4_count_inst_cycles op last =
    if can_pair last (group op) then (0, SH4_GROUP_NONE) else (issue op, group op).
Proof.
  intros Hg. unfold sh4_count_inst_cycles. by destruct last, (group op).
Qed.

(** the cycle counter implements the pairing rule of the dual-issue pipeline: an
    instruction of the table is free exactly when the one before it was not and their groups
    can issue together, and costs its issue cycles otherwise; only instructions that never
    pair cost more than one cycle; and two instructions in a row always cost at least one. *)
Theorem cycle_count_pairs (op1 op2 : InstOpcode W) (last : sh4_inst_group) :
  In op1 opcode_list -> In op2 opcode_list ->
  let '(c1, last1) := sh4_count_inst_cycles op1 last in
  let '(c2, last2) := sh4_count_inst_cycles op2 last1 in
  (c1 = if can_pair last (group op1) then 0 else issue op1) /\
  (c2 = if can_pair last (group op1) then issue op2
        else if can_pair (group op1) (group op2) then 0 else issue op2) /\
  (1 < c1 -> forall g, can_pair g (group op1) = false) /\ 1 <= c1 + c2.
Proof.
  intros H1 H2. destruct (opcode_group_facts op1 H1) as (I1 & G1 & C1).
  destruct (opcode_group_facts op2 H2) as (I2 & G2 & C2).
  rewrite count_cycles_eq by done. destruct (can_pair last (group op1)) eqn:E1.
  - rewrite count_cycles_eq by done. cbn [can_pair]. split_and!; lia || done.
  - rewrite count_cycles_eq by done.
    assert (Hco : 1 < issue op1 -> forall g, can_pair g (group op1) = false)
      by (intros Hi g; rewrite (C1 Hi); by destruct g).
    destruct (can_pair (group op1) (group op2)); split_and!; lia || done.
Qed.
End dual_issue.

(** ** The event loop *)
Section event_loop_spec.
Context {W : Type} {CFG : BuildConfig} {MCH : Machine W} `{!Clock W} `{!ClockLaws W}.
Implicit Types s : Sh4 W.
(** an invariant of the program that runs, and a bound on the target stamp *)
Context (I : Sh4 W -> Prop) (T : Z).

Definition now (s : Sh4 W) : Z := clock_cycle_stamp (world s).
Definition target (s : Sh4 W) : Z := clock_target_stamp (world s).

(** the program keeps to opcodes of the table, whose handlers succeed, leave the pairing
    state alone and schedule nothing beyond [T] *)
Record well_behaved : Prop := {
  wb_step : forall s g, I s -> exists inst s',
    sh4_read_inst s = Ok (inst, s) /\ In (sh4_decode_inst inst) opcode_list /\
    sh4_do_exec_inst inst (sh4_decode_inst inst) (with_last_inst_type g s) = Ok (tt, s') /\
    last_inst_type s' = g /\
    (forall v, I (with_world (clock_set_cycle_stamp v (world s')) s')) /\ target s' <= T;
  wb_bound : T + 27 * 255 < 2 ^ 64
}.

(** iterations that may still follow *)
Definition remaining (s : Sh4 W) : Z :=
  2 * (T - now s) + (if bool_decide (last_inst_type s = SH4_GROUP_NONE) then 0 else 1).

Lemma run_one_inst_ok s :
  well_behaved -> I s -> 0 <= now s < target s -> target s <= T ->
  exists s', run_one_inst s = Ok (tt, s') /\ I s' /\ now s' <= target s' <= T /\
    (target s' <= now s' \/ (now s <= now s' /\ remaining s' < remaining s)).
Proof.
  intros [Hstep HT] HI Hnow Htgt. unfold run_one_inst.
  destruct (Hstep s (last_inst_type s) HI) as (inst & _ & Hread & Hin & _).
  erewrite bind_ok by exact Hread. erewrite bind_ok by done.
  destruct (opcode_group_facts _ Hin) as (Hi1 & Hgn & Hi2).
  rewrite count_cycles_eq by done.
  set (free := can_pair (last_inst_type s) (group (sh4_decode_inst inst))).
  set (g := if free then SH4_GROUP_NONE else group (sh4_decode_inst inst)).
  set (c := if free then 0 else issue (sh4_decode_inst inst)).
  replace (if free then (0, SH4_GROUP_NONE)
           else (issue (sh4_decode_inst inst), group (sh4_decode_inst inst)))
    with (c, g) by (unfold c, g; by destruct free).
  erewrite bind_ok by done. erewrite bind_ok by done.
  destruct (Hstep s g HI) as (inst' & s1 & Hread' & _ & Hex & Hlast & HI1 & Ht1).
  rewrite Hread in Hread'. injection Hread' as <-.
  erewrite bind_ok by exact Hex. erewrite bind_ok by done.
  set (after := if _ >? _ then _ else _).
  exists (with_world (clock_set_cycle_stamp after (world s1)) s1). split; [done|].
  split; [apply HI1|]. unfold remaining, now, target. cbn [world last_inst_type with_world].
  rewrite Hlast. rewrite !clock_cycle_set, !clock_target_set. fold (target s1).
  fold (now s). fold (target s) in Hnow.
  assert (Hc : 0 <= c <= 255) by (unfold c; destruct free; lia).
  unfold after. cbn [with_last_inst_type world]. fold (now s). fold (target s1).
  rewrite wrap_small by (unfold SH4_CLOCK_SCALE, in_range; lia).
  destruct (Z.gtb_spec (now s + c * SH4_CLOCK_SCALE) (target s1)); [lia|].
  split; [lia|]. right. unfold SH4_CLOCK_SCALE in *. split; [lia|]. unfold c, g in *.
  destruct free eqn:Efree.
  - rewrite bool_decide_true by done.
    rewrite bool_decide_false; [lia|].
    intros Hl. unfold free in Efree. by rewrite Hl in Efree.
  - rewrite (bool_decide_false (group _ = _)) by done. destruct (bool_decide _); lia.
Qed.

(** C22: the event loop terminates: for a program whose instructions are in the table and
    succeed and that schedules nothing beyond a stamp [T], the loop needs at most
    [remaining] iterations (two per cycle of the clock, since of two instructions in a row
    one costs at least a cycle), and it stops with the clock exactly at the target, that
    is at the next event. *)
Theorem run_terminates (fuel : nat) s :
  well_behaved -> I s -> 0 <= now s <= target s -> target s <= T ->
  remaining s < Z.of_nat fuel ->
  exists s', run_to_next_sh4_event fuel s = Ok (tt, s') /\ I s' /\ now s' = target s'.
Proof.
  intros Hwb. revert s. induction fuel as [|fuel IH]; intros s HI Hnow HT Hfuel.
  { unfold remaining in Hfuel. destruct (bool_decide _); lia. }
  cbn [run_to_next_sh4_event]. erewrite bind_ok by done. erewrite bind_ok by done.
  cbv beta. fold (now s) (target s). destruct (Z.gtb_spec (target s) (now s)) as [Hlt|Hge].
  2: { exists s. split_and!; [done|done|lia]. }
  destruct (run_one_inst_ok s Hwb HI ltac:(lia) HT) as (s1 & Hrun & HI1 & Hnow1 & Hdec).
  erewrite bind_ok by exact Hrun. destruct fuel as [|fuel].
  { unfold remaining in Hfuel. destruct (bool_decide _); lia. }
  destruct Hdec as [Hend|[Hle Hdec]].
  - cbn [run_to_next_sh4_event]. erewrite bind_ok by done. erewrite bind_ok by done.
    cbv beta. fold (now s1) (target s1). destruct (Z.gtb_spec (target s1) (now s1)); [lia|].
    exists s1. split_and!; [done|done|lia].
  - apply IH; [done|lia|lia|lia].
Qed.
End event_loop_spec.

(** ** Delay slots *)
Section delay_slots.
Context {W : Type} {CFG : BuildConfig} {MCH : Machine W}.
Implicit Types s : Sh4 W.

Lemma enter_exception_delayed v s s' :
  sh4_enter_exception v s = Ok (tt, s') ->
  delayed_branch s' = delayed_branch s /\ delayed_branch_addr s' = delayed_branch_addr s.
Proof.
  intros H. destruct (enter_exception_steps v s s' H) as (meta & s4 & _ & H4 & ->).
  change (sh4_on_sr_change (getr SH4_REG_SR (saved s))
            (setr SH4_REG_SR (excp_sr (getr SH4_REG_SR (saved s))) (saved s)) = Ok (tt, s4)) in H4.
  destruct (on_sr_change_regs _ _ _ H4) as (_ & _ & Hd & Ha). cbn. by rewrite Hd, Ha.
Qed.

Lemma enter_irq_delayed fuel meta s s' :
  regs_ok s -> sh4_enter_irq_from_meta (sh4_refresh_intc (S fuel)) meta s = Ok (tt, s') ->
  delayed_branch s' = delayed_branch s /\ is_irq_pending (intc s') = false /\
  exists m, List.find (fun e => meta_code e =? code meta) sh4_excp_meta = Some m /\
    getr SH4_REG_SPC s' = getr SH4_REG_PC s /\ getr SH4_REG_SSR s' = getr SH4_REG_SR s /\
    getr SH4_REG_PC s' = excp_target (code meta) m s.
Proof.
  intros Hok. rewrite enter_irq_eq by done. set (s1 := setr SH4_REG_INTEVT _ s).
  destruct (sh4_enter_exception (code meta) s1) as [[[] s2]|] eqn:E; [|done].
  destruct (enter_exception_spec _ s1 s2 (setr_ok _ _ _ Hok) E)
    as (m & Hm & _ & Hspc & Hssr & _ & _ & Hpc & _).
  destruct (enter_exception_delayed _ _ _ E) as [Hd _].
  destruct (acknowledge meta s2) as [[[] s3]|] eqn:Ea; [|done].
  assert (Hs3 : reg s3 = reg s2 /\ delayed_branch s3 = delayed_branch s2).
  { unfold acknowledge in Ea. destruct (is_irl meta); by injection Ea as <-. }
  destruct Hs3 as [Hr Hd3]. intros [= <-]. split; [cbn; by rewrite Hd3, Hd|]. split; [done|].
  exists m. split; [done|].
  assert (Hg : forall k, getr k (with_exec_state SH4_EXEC_STATE_NORM
            (with_intc (no_pending (intc s3)) s3)) = getr k s2)
    by (intros; by apply getr_reg).
  rewrite !Hg, Hspc, Hssr, Hpc. unfold s1. rewrite !getr_setr_ne by done.
  split_and!; [done..|]. unfold excp_target. by rewrite getr_setr_ne.
Qed.

(** the state after an instruction's handler has returned and the PC was advanced *)
Definition advanced (inst : Z) (s1 : Sh4 W) : Sh4 W :=
  if sh4_inst_increments_pc inst then setr SH4_REG_PC (getr SH4_REG_PC s1 + 2) s1 else s1.

Lemma exec_eq inst op s s1 :
  delayed_branch s && pc_relative op = false -> func op inst s = Ok (tt, s1) ->
  ENABLE_DEBUGGER && aborted_operation s1 = false ->
  sh4_do_exec_inst inst op s =
    if delayed_branch s then
      sh4_check_interrupts_no_delay_branch_check (sh4_refresh_intc 2)
        (with_delayed_branch false (setr SH4_REG_PC (delayed_branch_addr s) s1))
    else Ok (tt, advanced inst s1).
Proof.
  intros Hd Hf Ha. unfold sh4_do_exec_inst. erewrite bind_ok by done. cbv beta.
  rewrite Hd. cbn [negb]. do 2 (erewrite bind_ok by done). erewrite bind_ok by exact Hf.
  erewrite (bind_ok _ _ s1 tt (advanced inst s1))
    by (unfold advanced; by destruct (sh4_inst_increments_pc inst)).
  assert (Hs : setr SH4_REG_PC (delayed_branch_addr s) (advanced inst s1) =
               setr SH4_REG_PC (delayed_branch_addr s) s1)
    by (unfold advanced; destruct (sh4_inst_increments_pc inst); auto using setr_setr).
  assert (Hb : aborted_operation (advanced inst s1) = aborted_operation s1)
    by (unfold advanced; by destruct (sh4_inst_increments_pc inst)).
  rewrite <- Hs. destruct ENABLE_DEBUGGER; [|by destruct (delayed_branch s)].
  cbn in Ha. erewrite bind_ok by done. cbv beta. rewrite Hb, Ha.
  by destruct (delayed_branch s).
Qed.

(** C24: a delayed branch and the instruction in its slot are one unit: after the slot the
    CPU continues at the branch target whatever the slot did to PC, no longer in a slot, and
    an interrupt that became pending in between is taken only then, with the branch target
    as the address to return to. *)
Theorem delay_slot_atomic (inst : Z) (op : InstOpcode W) (s s1 : Sh4 W) :
  regs_ok s1 -> delayed_branch s = true -> pc_relative op = false ->
  func op inst s = Ok (tt, s1) -> ENABLE_DEBUGGER && aborted_operation s1 = false ->
  (is_irq_pending (intc s1) = false ->
     sh4_do_exec_inst inst op s =
       Ok (tt, with_delayed_branch false (setr SH4_REG_PC (delayed_branch_addr s) s1))) /\
  (is_irq_pending (intc s1) = true -> forall s',
     sh4_do_exec_inst inst op s = Ok (tt, s') ->
     delayed_branch s' = false /\ is_irq_pending (intc s') = false /\
     getr SH4_REG_SPC s' = u32 (delayed_branch_addr s) /\
     getr SH4_REG_SSR s' = getr SH4_REG_SR s1 /\
     exists m, List.find (fun e => meta_code e =? code (pending_irq (intc s1))) sh4_excp_meta =
         Some m /\
       getr SH4_REG_PC s' = excp_target (code (pending_irq (intc s1))) m s1).
Proof.
  intros Hok Hd Hp Hf Ha. rewrite (exec_eq inst op s s1) by (by rewrite ?Hd, ?Hp). rewrite Hd.
  unfold sh4_check_interrupts_no_delay_branch_check. erewrite bind_ok by done.
  cbn [intc with_delayed_branch setr with_reg]. split; intros Hi; rewrite Hi; [done|].
  cbn [when]. intros s' Hs. apply bind_inv in Hs as ([] & s2 & He & [= <-]).
  assert (Hok2 : regs_ok (with_delayed_branch false (setr SH4_REG_PC (delayed_branch_addr s) s1)))
    by (destruct (setr_ok SH4_REG_PC (delayed_branch_addr s) s1 Hok); done).
  destruct (enter_irq_delayed _ _ _ _ Hok2 He) as (Hdl & _ & m & Hm & Hspc & Hssr & Hpc).
  split; [exact Hdl|]. split; [done|].
  assert (Hg : forall k, getr k (with_delayed_branch false
            (setr SH4_REG_PC (delayed_branch_addr s) s1)) =
            getr k (setr SH4_REG_PC (delayed_branch_addr s) s1))
    by (intros; by apply getr_reg).
  rewrite Hg in Hspc, Hssr. rewrite getr_setr_eq in Hspc by done.
  rewrite getr_setr_ne in Hssr by done. split; [exact Hspc|]. split; [exact Hssr|].
  exists m. split; [done|]. etransitivity; [exact Hpc|]. unfold excp_target.
  rewrite Hg. by rewrite getr_setr_ne.
Qed.

Lemma decode_none inst :
  existsb (op_matches inst) opcode_list = false ->
  sh4_decode_inst inst = (invalid_opcode : InstOpcode W).
Proof.
  intros He. rewrite sh4_decode_inst_slow_eq. unfold sh4_decode_inst_slow.
  destruct (decode_search_spec opcode_list inst) as [[Hin Hm]|[-> _]]; [|done].
  assert (Ht : existsb (op_matches inst) opcode_list = true)
    by (apply existsb_exists; eauto).
  congruence.
Qed.

Lemma trapa_in_table :
  existsb (fun op => (op_mask op =? 0xff00) && (op_val op =? 0xc300))
    (@opcode_list W CFG MCH) = true.
Proof. vm_compute. reflexivity. Qed.

(** TRAPA is in the table, so every other opcode advances PC *)
Lemma invalid_increments inst :
  sh4_decode_inst inst = (invalid_opcode : InstOpcode W) -> sh4_inst_increments_pc inst = true.
Proof.
  rewrite sh4_decode_inst_slow_eq. intros Hd.
  destruct (decode_search_spec opcode_list inst) as [[Hin _]|[_ Hnone]].
  { change (decode_search opcode_list inst) with (@sh4_decode_inst_slow W CFG MCH inst) in Hin.
    rewrite Hd in Hin. apply opcode_group_facts in Hin as ([? _] & _). cbn in *. lia. }
  pose proof trapa_in_table as Ht. apply existsb_exists in Ht as (op & Hin & Hop).
  apply andb_true_iff in Hop as [Hm%Z.eqb_eq Hv%Z.eqb_eq].
  rewrite List.Forall_forall in Hnone. specialize (Hnone op Hin).
  unfold op_matches in Hnone. rewrite Hm, Hv, Z.land_comm in Hnone.
  unfold sh4_inst_increments_pc. by rewrite Hnone.
Qed.

Lemma set_exception_spec v s s' :
  regs_ok s -> in_range 12 v -> sh4_set_exception v s = Ok (tt, s') ->
  regs_ok s' /\ getr SH4_REG_EXPEVT s' = v /\ getr SH4_REG_SPC s' = getr SH4_REG_PC s /\
  exists m, List.find (fun e => meta_code e =? v) sh4_excp_meta = Some m /\
    getr SH4_REG_PC s' = excp_target v m s.
Proof.
  intros Hok Hv Hs. unfold sh4_set_exception in Hs. erewrite bind_ok in Hs by done.
  match type of Hs with sh4_enter_exception _ ?s1 = _ => set (s0 := s1) in Hs end.
  destruct (enter_exception_spec v s0 s' (setr_ok _ _ _ Hok) Hs)
    as (m & Hm & Hok' & Hspc & _ & _ & _ & Hpc & _ & Hk).
  split; [done|]. split; [|split; [by rewrite Hspc; unfold s0; rewrite getr_setr_ne|]].
  - rewrite Hk by (vm_compute; intuition congruence). unfold s0.
    rewrite getr_setr_eq by done. unfold SH4_EXPEVT_CODE_SHIFT, SH4_EXPEVT_CODE_MASK.
    rewrite Z.shiftl_0_r. change 0xfff with (Z.ones 12). rewrite land_ones_wrap by lia.
    rewrite (wrap_small 12) by done. apply wrap_small. by apply (in_range_weaken 12).
  - exists m. split; [done|]. rewrite Hpc. unfold excp_target, s0. by rewrite getr_setr_ne.
Qed.

(** an opcode that the table does not have raises the general illegal instruction
    exception, but the handler is entered at VBR + 0x102 and not at VBR + 0x100, where the
    exception's vector is: the increment of PC that follows every instruction is applied to
    the vector's address. *)
Theorem illegal_inst_entry (inst : Z) (s s' : Sh4 W) :
  regs_ok s -> delayed_branch s = false -> DBG_EXIT_ON_UNDEFINED_OPCODE = false ->
  ENABLE_DEBUGGER = false -> sh4_decode_inst inst = (invalid_opcode : InstOpcode W) ->
  sh4_do_exec_inst inst (sh4_decode_inst inst) s = Ok (tt, s') ->
  getr SH4_REG_EXPEVT s' = SH4_EXCP_GEN_ILLEGAL_INST /\
  getr SH4_REG_SPC s' = getr SH4_REG_PC s /\
  getr SH4_REG_PC s' = u32 (getr SH4_REG_VBR s + 0x102).
Proof.
  intros Hok Hd Hdbg Hndbg Hinv. rewrite Hinv. intros Hs.
  destruct (func invalid_opcode inst s) as [[[] s1]|] eqn:Ef.
  2: { unfold sh4_do_exec_inst in Hs. erewrite bind_ok in Hs by done. rewrite Hd in Hs.
       cbn [andb negb] in Hs. erewrite !bind_ok in Hs by done. unfold bind at 1 in Hs.
       by rewrite Ef in Hs. }
  rewrite (exec_eq inst _ s s1) in Hs by (by rewrite ?Hd, ?Hndbg). rewrite Hd in Hs.
  injection Hs as <-. unfold advanced. rewrite invalid_increments by done.
  cbn [func invalid_opcode] in Ef. unfold sh4_inst_invalid in Ef. rewrite Hdbg in Ef.
  destruct (set_exception_spec SH4_EXCP_GEN_ILLEGAL_INST _ _ Hok ltac:(vm_compute; split; congruence) Ef)
    as (Hok1 & Hev & Hspc & m & Hm & Hpc).
  rewrite !getr_setr_ne by done. split; [done|]. split; [done|].
  rewrite getr_setr_eq by done. rewrite Hpc. vm_compute in Hm. injection Hm as <-.
  cbn [excp_target]. unfold excp_target. cbn [orb]. cbn [offset].
  change (u32 (u32 (getr SH4_REG_VBR s + 0x100) + 2) = u32 (getr SH4_REG_VBR s + 0x102)).
  rewrite wrap_add_l. f_equal. lia.
Qed.

(** a PC-relative instruction in a delay slot raises the slot illegal instruction
    exception, but the CPU stays in the slot: the first instruction of the exception handler
    is executed as if it were the slot of the interrupted branch, and control leaves the
    handler for the branch target. *)
Theorem slot_illegal_leaves_handler (inst inst' : Z) (op op' : InstOpcode W) (s s1 s2 : Sh4 W) :
  regs_ok s -> delayed_branch s = true -> pc_relative op = true ->
  sh4_do_exec_inst inst op s = Ok (tt, s1) ->
  pc_relative op' = false -> func op' inst' s1 = Ok (tt, s2) -> regs_ok s2 ->
  ENABLE_DEBUGGER = false -> is_irq_pending (intc s2) = false ->
  getr SH4_REG_EXPEVT s1 = SH4_EXCP_SLOT_ILLEGAL_INST /\
  getr SH4_REG_PC s1 = u32 (getr SH4_REG_VBR s + 0x100) /\
  exists s', sh4_do_exec_inst inst' op' s1 = Ok (tt, s') /\
    getr SH4_REG_PC s' = u32 (delayed_branch_addr s).
Proof.
  intros Hok Hd Hp Hs Hp' Hf Hok2 Hdbg Hirq. unfold sh4_do_exec_inst in Hs.
  erewrite bind_ok in Hs by done. rewrite Hd, Hp in Hs. cbn [andb negb] in Hs.
  destruct (set_exception_spec SH4_EXCP_SLOT_ILLEGAL_INST _ _ Hok ltac:(vm_compute; split; congruence) Hs)
    as (Hok1 & Hev & _ & m & Hm & Hpc).
  unfold sh4_set_exception in Hs. erewrite bind_ok in Hs by done.
  destruct (enter_exception_delayed _ _ _ Hs) as [Hd1 Ha1].
  split; [done|]. split.
  - rewrite Hpc. vm_compute in Hm. by injection Hm as <-.
  - rewrite (exec_eq inst' op' s1 s2) by (by rewrite ?Hp', ?Hdbg, ?andb_false_r).
    rewrite Hd1. change (delayed_branch (setr _ _ s)) with (delayed_branch s). rewrite Hd.
    unfold sh4_check_interrupts_no_delay_branch_check. erewrite bind_ok by done.
    cbn [intc with_delayed_branch setr with_reg]. rewrite Hirq. eexists. split; [done|].
    erewrite (getr_reg (setr SH4_REG_PC (delayed_branch_addr s1) s2)) by done.
    rewrite getr_setr_eq by done. by rewrite Ha1.
Qed.
End delay_slots.

(** *** Witnesses *)

(** ADD #1, R0 and MOV R1, R2 issue together *)
Lemma cycle_count_pairs_witness :
  let op1 := sh4_decode_inst_slow 0x7001 : InstOpcode board in
  let op2 := sh4_decode_inst_slow 0x6213 : InstOpcode board in
  let '(c1, last1) := sh4_count_inst_cycles op1 SH4_GROUP_NONE in
  let '(c2, _) := sh4_count_inst_cycles op2 last1 in c1 = 1 /\ c2 = 0 /\ 1 <= c1 + c2.
Proof.
  assert (H1 : In (sh4_decode_inst_slow 0x7001 : InstOpcode board) opcode_list).
  { destruct (decode_search_spec (@opcode_list board _ _) 0x7001) as [[? _]|[E _]]; [done|].
    exfalso. apply (f_equal (@issue board)) in E. vm_compute in E. congruence. }
  assert (H2 : In (sh4_decode_inst_slow 0x6213 : InstOpcode board) opcode_list).
  { destruct (decode_search_spec (@opcode_list board _ _) 0x6213) as [[? _]|[E _]]; [done|].
    exfalso. apply (f_equal (@issue board)) in E. vm_compute in E. congruence. }
  pose proof (cycle_count_pairs _ _ SH4_GROUP_NONE H1 H2) as H. vm_compute in H |- *.
  tauto.
Defined.

(** the slot of a branch to 0x8c000200, with timer 0 raised and pending *)
Definition slot_cpu : Sh4 board :=
  with_delayed_branch true (with_delayed_branch_addr 0x8c000200
    (with_intc {| irq_lines := irq_lines (intc irq_cpu); is_irq_pending := true;
                  pending_irq := {| is_irl := false; code := SH4_EXCP_TMU0_TUNI0;
                                    line := SH4_IRQ_TMU0 |};
                  refresh_intc_event_scheduled := false |} irq_cpu)).

Definition nop_op : InstOpcode board := sh4_decode_inst_slow 0x0009.

Lemma delay_slot_atomic_witness :
  let s' := after (sh4_do_exec_inst 0x0009 nop_op) slot_cpu in
  getr SH4_REG_SPC s' = 0x8c000200 /\ delayed_branch s' = false.
Proof.
  assert (Hok : regs_ok slot_cpu) by (destruct irq_cpu_ok; split; done).
  destruct (proj2 (delay_slot_atomic 0x0009 nop_op slot_cpu slot_cpu Hok eq_refl eq_refl
    ltac:(vm_compute; reflexivity) eq_refl) eq_refl
    (after (sh4_do_exec_inst 0x0009 nop_op) slot_cpu)) as (H1 & _ & H2 & _).
  - vm_compute. reflexivity.
  - exact (conj H2 H1).
Defined.

Lemma illegal_inst_entry_witness :
  getr SH4_REG_PC (after (sh4_do_exec_inst 0 invalid_opcode) irq_cpu) = 0x8c000102.
Proof.
  assert (Hinv : sh4_decode_inst 0 = (invalid_opcode : InstOpcode board))
    by (apply decode_none; vm_compute; reflexivity).
  assert (Hrun : sh4_do_exec_inst 0 (sh4_decode_inst 0) irq_cpu =
                 Ok (tt, after (sh4_do_exec_inst 0 invalid_opcode) irq_cpu))
    by (rewrite Hinv; vm_compute; reflexivity).
  exact (proj2 (proj2 (illegal_inst_entry 0 irq_cpu _ irq_cpu_ok eq_refl eq_refl eq_refl
    Hinv Hrun))).
Defined.

(** BT in the slot, and a handler that starts with NOP *)
Definition bt_op : InstOpcode board := sh4_decode_inst_slow 0x8900.
Definition quiet_slot_cpu : Sh4 board :=
  with_delayed_branch true (with_delayed_branch_addr 0x8c000200
    (cpu_with [(SH4_REG_SR, 0x40000000); (SH4_REG_VBR, 0x8c000000)] ∅)).

Definition in_handler_cpu : Sh4 board :=
  Eval vm_compute in after (sh4_do_exec_inst 0x8900 bt_op) quiet_slot_cpu.

Lemma slot_illegal_leaves_handler_witness :
  exists s', sh4_do_exec_inst 0x0009 nop_op in_handler_cpu = Ok (tt, s') /\
    getr SH4_REG_PC s' = 0x8c000200.
Proof.
  assert (Hok : regs_ok quiet_slot_cpu) by (apply regs_okb_sound; vm_compute; reflexivity).
  assert (Hok1 : regs_ok in_handler_cpu) by (apply regs_okb_sound; vm_compute; reflexivity).
  assert (Hp : pc_relative bt_op = true /\ pc_relative nop_op = false)
    by (split; vm_compute; reflexivity).
  assert (Hrun : sh4_do_exec_inst 0x8900 bt_op quiet_slot_cpu = Ok (tt, in_handler_cpu))
    by (vm_compute; reflexivity).
  assert (Hf : func nop_op 0x0009 in_handler_cpu = Ok (tt, in_handler_cpu))
    by (vm_compute; reflexivity).
  assert (Hirq : is_irq_pending (intc in_handler_cpu) = false) by (vm_compute; reflexivity).
  destruct (slot_illegal_leaves_handler 0x8900 0x0009 bt_op nop_op quiet_slot_cpu
    in_handler_cpu in_handler_cpu Hok eq_refl (proj1 Hp) Hrun (proj2 Hp) Hf Hok1 eq_refl Hirq)
    as (_ & _ & s' & H1 & H2).
  exists s'. split; [exact H1|exact H2].
Defined.

(** a board with a clock, on which the program BRA -4 ; NOP loops forever *)
Record timed_board : Type := { tb_ram : memory.Memory; tb_clk : sched.dc_clock }.

#[export] Instance timed_machine : Machine timed_board := {|
  mem_map :=
    match add_ram_regions
            (memory.ram_intf (fun s : Sh4 timed_board => tb_ram (world s))
               (fun m s => with_world {| tb_ram := m; tb_clk := tb_clk (world s) |} s))
            memory_map.memory_map_init with
    | Ok (_, m) => m
    | Err _ => memory_map.memory_map_init
    end;
  sched_refresh_intc := fun w => Ok w;
  dc_debugger_enabled := fun _ => false;
  debug_on_softbreak := fun _ _ => ret tt;
  fpu_inst := fun _ _ => raise ERROR_UNIMPLEMENTED
|}.

#[export] Instance timed_clock : Clock timed_board := {|
  clock_target_stamp w := sched.clock_target_stamp (tb_clk w);
  clock_cycle_stamp w := sched.clock_cycle_stamp (tb_clk w);
  clock_set_cycle_stamp v w :=
    {| tb_ram := tb_ram w; tb_clk := sched.clock_set_cycle_stamp v (tb_clk w) |}
|}.

#[export] Instance timed_clock_laws : ClockLaws timed_board.
Proof.
  split; intros v w; destruct (sched.set_cycle_frame v (tb_clk w)) as (_ & _ & ? & ?); assumption.
Qed.

(** the two states of the loop: before the branch, and in its slot *)
Definition loop_state (slot : bool) (g : sh4_inst_group) (clk : sched.dc_clock) : Sh4 timed_board :=
  {| reg := reg (cpu_with [(SH4_REG_SR, 0x40000000);
                           (SH4_REG_PC, if slot then 0x8c000002 else 0x8c000000)] ∅);
     delayed_branch := slot; delayed_branch_addr := 0x8c000000;
     exec_state := SH4_EXEC_STATE_NORM; last_inst_type := g; aborted_operation := false;
     sq := replicate 16 0; intc := idle_intc; fround := FE_TONEAREST;
     world := {| tb_ram := memory.store 2 2 0x0009 (memory.store 2 0 0xaffe ∅); tb_clk := clk |} |}.

Definition loop_inst (slot : bool) : Z := if slot then 0x0009 else 0xaffe.

Lemma loop_step slot g clk :
  sh4_read_inst (loop_state slot g clk) = Ok (loop_inst slot, loop_state slot g clk) /\
  sh4_do_exec_inst (loop_inst slot) (sh4_decode_inst_slow (loop_inst slot))
    (loop_state slot g clk) = Ok (tt, loop_state (negb slot) g clk).
Proof. destruct slot; split; vm_compute; reflexivity. Qed.

Definition loop_inv (T : Z) (s : Sh4 timed_board) : Prop :=
  exists slot g clk, s = loop_state slot g clk /\ sched.clock_target_stamp clk <= T.

Lemma loop_decoded slot :
  In (sh4_decode_inst_slow (loop_inst slot)) (@opcode_list timed_board _ _).
Proof.
  destruct (decode_search_spec (@opcode_list timed_board _ _) (loop_inst slot)) as [[? _]|[E _]];
    [done|].
  exfalso. apply (f_equal (@issue timed_board)) in E. destruct slot; vm_compute in E; congruence.
Qed.

Lemma loop_well_behaved T : T + 27 * 255 < 2 ^ 64 -> well_behaved (loop_inv T) T.
Proof.
  intros HT. split; [|done]. intros s g (slot & g0 & clk & -> & Hclk).
  exists (loop_inst slot), (loop_state (negb slot) g clk).
  destruct (loop_step slot g0 clk) as [Hr _]. destruct (loop_step slot g clk) as [_ Hx].
  rewrite sh4_decode_inst_slow_eq. split_and!; [exact Hr|apply loop_decoded|exact Hx|done| |done].
  intros v. exists (negb slot), g, (sched.clock_set_cycle_stamp v clk). split; [done|].
  by destruct (sched.set_cycle_frame v clk) as (_ & _ & _ & ->).
Qed.

(** an event 1000 cycles ahead: the loop ends there, after at most 2001 instructions *)
Lemma run_terminates_witness :
  let clk := sched.set_target_stamp 1000 (sched.dc_clock_init ∅) in
  exists s', run_to_next_sh4_event 2001 (loop_state false SH4_GROUP_NONE clk) = Ok (tt, s') /\
    loop_inv 1000 s' /\ now s' = target s'.
Proof.
  apply (run_terminates (loop_inv 1000) 1000).
  - apply loop_well_behaved. lia.
  - eexists _, _, _. split; [reflexivity|]. vm_compute. congruence.
  - vm_compute. split; congruence.
  - vm_compute. congruence.
  - vm_compute. reflexivity.
Defined.
