(* ===== verification/Tmu.v ===== *)
(** The SH-4's timer unit (src/libwashdc/hw/sh4/sh4_tmu.c): three channels that count down at a
    fraction of the CPU's clock, reload from TCOR when they pass zero, and then raise an interrupt.

    A channel is not stepped: [tmu_chan_sync] computes the count from the time since the last
    call, and an event on the CPU's clock is scheduled for the moment of the underflow.

    The properties: within the range of the accumulator the computed count is that of a timer that
    ticks; in every reachable state the event of a running channel is in the queue at exactly the
    stamp of its underflow; and two cases in which this fails to count the right time. *)
From stdpp Require Import gmap sorting functions.
From S2P Require Import Prelude IntMath MemoryMap Memory Sh4State Board Sh4Core Sh4Excp.
From S2P Require Import Sh4Inst Sh4InstMem Sh4Decode Sched Sh4Exec.
Import sched.

Definition TMU_DIV_SHIFT : Z := 2.
Definition TMU_DIV : Z := Z.shiftl 1 TMU_DIV_SHIFT.

Definition SH4_TCR_ICPF_MASK : Z := Z.shiftl 1 9.
Definition SH4_TCR_UNF_MASK : Z := Z.shiftl 1 8.
Definition SH4_TCR_UNIE_MASK : Z := Z.shiftl 1 5.
Definition SH4_TCR_TPSC_MASK : Z := Z.shiftl 7 0.
Definition SH4_TSTR_CHAN0_MASK : Z := Z.shiftl 1 0.
Definition SH4_TSTR_CHAN1_MASK : Z := Z.shiftl 1 0.
Definition SH4_TSTR_CHAN2_MASK : Z := Z.shiftl 1 0.

(** [struct sh4_tmu] without its events, which are in the clock's memory *)
Record sh4_tmu : Type := {
  stamp_last_sync : Z -> Z;
  chan_accum : Z -> Z;
  chan_event_scheduled : Z -> bool;
  chan_unf : Z -> bool
}.

Definition upd_last (chan v : Z) (t : sh4_tmu) : sh4_tmu :=
  {| stamp_last_sync := <[chan := v]> (stamp_last_sync t); chan_accum := chan_accum t;
     chan_event_scheduled := chan_event_scheduled t; chan_unf := chan_unf t |}.
Definition upd_accum (chan v : Z) (t : sh4_tmu) : sh4_tmu :=
  {| stamp_last_sync := stamp_last_sync t; chan_accum := <[chan := v]> (chan_accum t);
     chan_event_scheduled := chan_event_scheduled t; chan_unf := chan_unf t |}.
Definition upd_scheduled (chan : Z) (b : bool) (t : sh4_tmu) : sh4_tmu :=
  {| stamp_last_sync := stamp_last_sync t; chan_accum := chan_accum t;
     chan_event_scheduled := <[chan := b]> (chan_event_scheduled t); chan_unf := chan_unf t |}.
Definition upd_unf (chan : Z) (b : bool) (t : sh4_tmu) : sh4_tmu :=
  {| stamp_last_sync := stamp_last_sync t; chan_accum := chan_accum t;
     chan_event_scheduled := chan_event_scheduled t; chan_unf := <[chan := b]> (chan_unf t) |}.

(** the timer unit and the clock in the rest of the machine; [tmu_chan_event] is the array of
    events, by address *)
Class TmuWorld (W : Type) : Type := {
  tmu : W -> sh4_tmu;
  set_tmu : sh4_tmu -> W -> W;
  clk : W -> dc_clock;
  set_clk : dc_clock -> W -> W;
  tmu_chan_event : Z -> Z
}.

Section sh4_tmu.
Context {W : Type} {CFG : BuildConfig} {MCH : Machine W} {TW : TmuWorld W}.
Abbreviation sh4M := (M (Sh4 W)).

(** accesses to [sh4->tmu] and to [sh4->clk] *)
Definition tmu_of (s : Sh4 W) : sh4_tmu := tmu (world s).
Definition clk_of (s : Sh4 W) : dc_clock := clk (world s).
Definition with_tmu (t : sh4_tmu) (s : Sh4 W) : Sh4 W := with_world (set_tmu t (world s)) s.
Definition with_clk (c : dc_clock) (s : Sh4 W) : Sh4 W := with_world (set_clk c (world s)) s.

Definition on_clk {A} (m : M dc_clock A) : sh4M A :=
  fun s => match m (clk_of s) with
           | Ok (a, c) => Ok (a, with_clk c s)
           | Err e => Err e
           end.
Definition set_stamp_last_sync (chan v : Z) : sh4M unit :=
  modify (fun s => with_tmu (upd_last chan v (tmu_of s)) s).
Definition set_chan_accum (chan v : Z) : sh4M unit :=
  modify (fun s => with_tmu (upd_accum chan v (tmu_of s)) s).
Definition set_chan_event_scheduled (chan : Z) (b : bool) : sh4M unit :=
  modify (fun s => with_tmu (upd_scheduled chan b (tmu_of s)) s).
Definition set_chan_unf (chan : Z) (b : bool) : sh4M unit :=
  modify (fun s => with_tmu (upd_unf chan b (tmu_of s)) s).
Definition get_chan {A} (f : sh4_tmu -> Z -> A) (chan : Z) : sh4M A := gets (fun s => f (tmu_of s) chan).

Definition sh4_get_cycles (s : Sh4 W) : Z := sched.clock_cycle_stamp (clk_of s) / sched.SH4_CLOCK_SCALE.
Definition tmu_cycle_stamp (s : Sh4 W) : Z := Z.shiftr (sh4_get_cycles s) TMU_DIV_SHIFT.

Definition chan_tcr (chan : Z) : Z :=
  if chan =? 0 then SH4_REG_TCR0 else if chan =? 1 then SH4_REG_TCR1 else SH4_REG_TCR2.
Definition chan_tcnt (chan : Z) : Z :=
  if chan =? 0 then SH4_REG_TCNT0 else if chan =? 1 then SH4_REG_TCNT1 else SH4_REG_TCNT2.
Definition chan_tcor (chan : Z) : Z :=
  if chan =? 0 then SH4_REG_TCOR0 else if chan =? 1 then SH4_REG_TCOR1 else SH4_REG_TCOR2.

Definition chan_get_tcnt (chan : Z) : sh4M Z := reg_get (chan_tcnt chan).
Definition chan_set_tcnt (chan val : Z) : sh4M unit := reg_set (chan_tcnt chan) val.

Definition chan_enabled (chan : Z) (s : Sh4 W) : bool :=
  truth (Z.land (getr SH4_REG_TSTR s) (Z.shiftl 1 chan)).
Definition chan_int_enabled (chan : Z) (s : Sh4 W) : bool :=
  truth (Z.land (getr (chan_tcr chan) s) SH4_TCR_UNIE_MASK).

Definition chan_raise_int (chan : Z) : sh4M unit :=
  if chan =? 0 then sh4_set_interrupt intc_fuel SH4_IRQ_TMU0 SH4_EXCP_TMU0_TUNI0
  else if chan =? 1 then sh4_set_interrupt intc_fuel SH4_IRQ_TMU1 SH4_EXCP_TMU1_TUNI1
  else if chan =? 2 then sh4_set_interrupt intc_fuel SH4_IRQ_TMU2 SH4_EXCP_TMU2_TUNI2
  else raise ERROR_INVALID_PARAM.

Definition chan_clock_div (chan : Z) : sh4M Z :=
  tcr <- reg_get (chan_tcr chan) ;;
  match Z.land tcr SH4_TCR_TPSC_MASK with
  | 0 => ret 4
  | 1 => ret 16
  | 2 => ret 64
  | 3 => ret 256
  | 4 => ret 1024
  | _ => raise ERROR_INVALID_PARAM
  end.

Definition chan_event_unsched (chan : Z) : sh4M unit :=
  on_clk (cancel_event (tmu_chan_event chan)) ;;
  set_chan_event_scheduled chan false.

Definition tmu_chan_sync (chan : Z) : sh4M unit :=
  stamp_cur <- gets tmu_cycle_stamp ;;
  last <- get_chan stamp_last_sync chan ;;
  let elapsed := u64 (stamp_cur - last) in
  set_stamp_last_sync chan stamp_cur ;;
  if elapsed =? 0 then ret tt
  else
    enabled <- gets (chan_enabled chan) ;;
    if negb enabled then ret tt
    else
      div <- chan_clock_div chan ;;
      accum <- get_chan chan_accum chan ;;
      set_chan_accum chan (u32 (accum + elapsed)) ;;
      accum <- get_chan chan_accum chan ;;
      when (accum >=? div)
        (let chan_cycles := accum / div in
         tcnt <- chan_get_tcnt chan ;;
         (if chan_cycles >? tcnt then
            set_chan_unf chan true ;;
            tcor <- reg_get (chan_tcor chan) ;;
            chan_set_tcnt chan tcor ;;
            tcr <- reg_get (chan_tcr chan) ;;
            reg_set (chan_tcr chan) (Z.lor tcr SH4_TCR_UNF_MASK)
          else
            chan_set_tcnt chan (u64 (tcnt - chan_cycles))) ;;
         set_chan_accum chan (accum mod div)).

Definition next_chan_event (chan : Z) : sh4M Z :=
  clk_div <- chan_clock_div chan ;;
  tcnt <- chan_get_tcnt chan ;;
  accum <- get_chan chan_accum chan ;;
  ret (u64 ((tcnt + 1) * clk_div - accum)).

Definition chan_event_sched_next (chan : Z) : sh4M unit :=
  enabled <- gets (chan_enabled chan) ;;
  if negb enabled then set_chan_event_scheduled chan false
  else
    next <- next_chan_event chan ;;
    now <- gets (fun s => sched.clock_cycle_stamp (clk_of s)) ;;
    on_clk (set_when (tmu_chan_event chan)
      (u64 ((next + now / (TMU_DIV * sched.SH4_CLOCK_SCALE)) * (TMU_DIV * sched.SH4_CLOCK_SCALE)))) ;;
    set_chan_event_scheduled chan true ;;
    on_clk (sched_event (tmu_chan_event chan)).

(** the handler of the event of [chan] *)
Definition tmu_chan_event_handler (chan : Z) : sh4M unit :=
  tmu_chan_sync chan ;;
  chan_event_sched_next chan ;;
  unf <- get_chan chan_unf chan ;;
  if unf : bool then
    set_chan_unf chan false ;;
    tcr <- reg_get (chan_tcr chan) ;;
    reg_set (chan_tcr chan) (Z.lor tcr SH4_TCR_UNF_MASK) ;;
    ie <- gets (chan_int_enabled chan) ;;
    when ie (chan_raise_int chan)
  else ret tt.

Definition sh4_tmu_init : sh4M unit :=
  modify (with_tmu {| stamp_last_sync := fun _ => 0; chan_accum := fun _ => 0;
                      chan_event_scheduled := fun _ => false; chan_unf := fun _ => false |}).

Definition sh4_tmu_tocr_read_handler : sh4M Z := ret 1.
Definition sh4_tmu_tocr_write_handler (val : Z) : sh4M unit := reg_set SH4_REG_TOCR 1.
Definition sh4_tmu_tstr_read_handler : sh4M Z := reg_get SH4_REG_TSTR.

(** the statement for one channel at the start of [sh4_tmu_tstr_write_handler]; in C, [!] binds
    tighter than [^] *)
Definition tstr_chan (chan mask tmp : Z) : sh4M unit :=
  tstr <- reg_get SH4_REG_TSTR ;;
  when (truth (Z.lxor (b2z (negb (truth (Z.land tstr mask)))) (Z.land tmp mask)))
    (tmu_chan_sync chan ;;
     set_chan_accum chan 0 ;;
     scheduled <- get_chan chan_event_scheduled chan ;;
     if truth (Z.land tmp mask) then when (negb scheduled) (chan_event_sched_next chan)
     else when scheduled (chan_event_unsched chan)).

(** a new event in place of a scheduled one *)
Definition chan_resched (chan : Z) : sh4M unit :=
  scheduled <- get_chan chan_event_scheduled chan ;;
  when scheduled (chan_event_unsched chan) ;;
  chan_event_sched_next chan.

Definition sh4_tmu_tstr_write_handler (val : Z) : sh4M unit :=
  let tmp := Z.land (u8 val) 7 in
  tstr_chan 0 SH4_TSTR_CHAN0_MASK tmp ;;
  tstr_chan 1 SH4_TSTR_CHAN1_MASK tmp ;;
  tstr_chan 2 SH4_TSTR_CHAN2_MASK tmp ;;
  reg_set SH4_REG_TSTR tmp ;;
  (tmu_chan_sync 0 ;; chan_resched 0) ;;
  (tmu_chan_sync 1 ;; chan_resched 1) ;;
  (tmu_chan_sync 2 ;; chan_resched 2).

(** the channel of a TCR register, and of a TCNT register *)
Definition tcr_chan (reg_idx : Z) : Z :=
  if reg_idx =? SH4_REG_TCR0 then 0 else if reg_idx =? SH4_REG_TCR1 then 1 else 2.
Definition tcnt_chan (reg_idx : Z) : option Z :=
  if reg_idx =? SH4_REG_TCNT0 then Some 0
  else if reg_idx =? SH4_REG_TCNT1 then Some 1
  else if reg_idx =? SH4_REG_TCNT2 then Some 2
  else None.

Definition sh4_tmu_tcr_read_handler (reg_idx : Z) : sh4M Z :=
  tmu_chan_sync (tcr_chan reg_idx) ;;
  reg_get reg_idx.

Definition sh4_tmu_tcr_write_handler (reg_idx val : Z) : sh4M unit :=
  let new_val := u16 val in
  old <- reg_get reg_idx ;;
  let old_val := u16 old in
  let chan := tcr_chan reg_idx in
  tmu_chan_sync chan ;;
  let new_val := if truth (Z.land new_val SH4_TCR_ICPF_MASK) && negb (truth (Z.land old_val SH4_TCR_ICPF_MASK))
                 then Z.ldiff new_val SH4_TCR_ICPF_MASK else new_val in
  let new_val := if truth (Z.land new_val SH4_TCR_UNF_MASK) && negb (truth (Z.land old_val SH4_TCR_UNF_MASK))
                 then Z.ldiff new_val SH4_TCR_UNF_MASK else new_val in
  when (negb (Z.land old_val SH4_TCR_TPSC_MASK =? Z.land new_val SH4_TCR_TPSC_MASK))
    (set_chan_accum chan 0) ;;
  reg_set reg_idx new_val ;;
  tmu_chan_sync chan ;;
  chan_resched chan.

Definition sh4_tmu_tcnt_read_handler (reg_idx : Z) : sh4M Z :=
  match tcnt_chan reg_idx with
  | Some chan => tmu_chan_sync chan ;; reg_get reg_idx
  | None => raise ERROR_INVALID_PARAM
  end.

Definition sh4_tmu_tcnt_write_handler (reg_idx val : Z) : sh4M unit :=
  match tcnt_chan reg_idx with
  | Some chan =>
      tmu_chan_sync chan ;;
      reg_set reg_idx val ;;
      tmu_chan_sync chan ;;
      chan_resched chan
  | None => raise ERROR_INVALID_PARAM
  end.
End sh4_tmu.

(** ** A timer that ticks *)
Record timer : Type := { count : Z; phase : Z; underflow : bool }.

(** one tick of the TMU's clock: every [div] ticks the count goes down, and below zero it is
    reloaded *)
Definition tick (div tcor : Z) (t : timer) : timer :=
  if phase t + 1 <? div then {| count := count t; phase := phase t + 1; underflow := underflow t |}
  else if count t =? 0 then {| count := tcor; phase := 0; underflow := true |}
  else {| count := count t - 1; phase := 0; underflow := underflow t |}.
Definition ticks (div tcor : Z) (n : nat) (t : timer) : timer := Nat.iter n (tick div tcor) t.

(** the number of ticks up to the next underflow *)
Definition until_underflow (div : Z) (t : timer) : Z := (count t + 1) * div - phase t.
Definition timer_ok (div : Z) (t : timer) : Prop := 0 <= count t /\ 0 <= phase t < div.

Section ticks.
Context (div tcor : Z).

Lemma div_next a : 0 < div -> 0 <= a ->
  ((a + 1) / div = a / div /\ (a + 1) mod div = a mod div + 1 /\ a mod div + 1 < div) \/
  ((a + 1) / div = a / div + 1 /\ (a + 1) mod div = 0 /\ a mod div + 1 = div).
Proof.
  intros Hd Ha. pose proof (Z.div_mod a div ltac:(lia)) as E.
  pose proof (Z.mod_pos_bound a div Hd) as Hm.
  destruct (Z.eq_dec (a mod div + 1) div) as [E1|Hne]; [right|left].
  - split; [|split; [|done]].
    + symmetry. apply (Z.div_unique_pos _ _ _ 0); lia.
    + symmetry. apply (Z.mod_unique_pos _ _ (a / div + 1)); lia.
  - split; [|split; [|lia]].
    + symmetry. apply (Z.div_unique_pos _ _ _ (a mod div + 1)); lia.
    + symmetry. apply (Z.mod_unique_pos _ _ (a / div)); lia.
Qed.

Lemma ticks_succ n t : ticks div tcor (S n) t = tick div tcor (ticks div tcor n t).
Proof. done. Qed.

Lemma ticks_before n t :
  timer_ok div t -> Z.of_nat n < until_underflow div t ->
  ticks div tcor n t = {| count := count t - (phase t + Z.of_nat n) / div;
    phase := (phase t + Z.of_nat n) mod div; underflow := underflow t |}.
Proof.
  intros [Hc Hp] Hn. unfold until_underflow in Hn. induction n as [|n IH].
  - rewrite Z.add_0_r, Z.div_small, Z.mod_small, Z.sub_0_r by lia. by destruct t.
  - rewrite ticks_succ, IH by lia. unfold tick. cbn [count phase underflow].
    rewrite Nat2Z.inj_succ, <- Z.add_1_r, Z.add_assoc.
    set (a := phase t + Z.of_nat n) in *.
    assert (Ha : a + 1 < (count t + 1) * div) by (unfold a; lia).
    pose proof (Z.div_mod a div ltac:(lia)) as E.
    destruct (div_next a ltac:(lia) ltac:(unfold a; lia)) as [(E1 & E2 & Hl)|(E1 & E2 & Hl)];
      rewrite E1, E2.
    + by replace (a mod div + 1 <? div) with true by lia.
    + replace (a mod div + 1 <? div) with false by lia.
      assert (a / div < count t) by nia.
      replace (count t - a / div =? 0) with false by lia. f_equal. lia.
Qed.

Lemma ticks_underflow n t :
  timer_ok div t -> Z.of_nat n = until_underflow div t ->
  ticks div tcor n t = {| count := tcor; phase := 0; underflow := true |}.
Proof.
  intros Hok Hn. pose proof Hok as [Hc Hp]. destruct n as [|n].
  { unfold until_underflow in Hn. nia. }
  rewrite ticks_succ, ticks_before by (done || lia). unfold tick. cbn [count phase underflow].
  unfold until_underflow in Hn. replace (phase t + Z.of_nat n) with (count t * div + (div - 1)) by lia.
  rewrite Z.div_add_l, Z.div_small, Z.add_0_r, Z.sub_diag by lia. cbn [Z.eqb].
  rewrite (Z.add_comm (count t * div)), Z.mod_add, Z.mod_small by lia. by replace (div - 1 + 1 <? div) with false by lia.
Qed.
End ticks.

Class TmuWorldLaws (W : Type) `{!TmuWorld W} : Prop := {
  tmu_set : forall t w, tmu (set_tmu t w) = t;
  clk_set_tmu : forall t w, clk (set_tmu t w) = clk w;
  tmu_set_clk : forall c w, tmu (set_clk c w) = tmu w;
  clk_set : forall c w, clk (set_clk c w) = c;
  tmu_event_inj : forall c d, 0 <= c < 3 -> 0 <= d < 3 -> tmu_chan_event c = tmu_chan_event d -> c = d
}.

(** the views of a state after an update *)
Create Rewrite HintDb tmu_view.

(** ** Synchronizing a channel *)
Section sync.
Context {W : Type} {CFG : BuildConfig} {MCH : Machine W} {TW : TmuWorld W} {TL : TmuWorldLaws W}.
Implicit Types s : Sh4 W.

Definition chan_ok (c : Z) : Prop := 0 <= c < 3.

Lemma chan_cases c : chan_ok c -> c = 0 \/ c = 1 \/ c = 2.
Proof. unfold chan_ok. lia. Qed.

Lemma tmu_of_with_tmu t s : tmu_of (with_tmu t s) = t.
Proof. apply tmu_set. Qed.
Lemma clk_of_with_tmu t s : clk_of (with_tmu t s) = clk_of s.
Proof. apply clk_set_tmu. Qed.
Lemma tmu_of_with_clk c s : tmu_of (with_clk c s) = tmu_of s.
Proof. apply tmu_set_clk. Qed.
Lemma clk_of_with_clk c s : clk_of (with_clk c s) = c.
Proof. apply clk_set. Qed.

Lemma tmu_of_setr r v s : tmu_of (setr r v s) = tmu_of s.
Proof. done. Qed.
Lemma clk_of_setr r v s : clk_of (setr r v s) = clk_of s.
Proof. done. Qed.
Lemma getr_with_tmu r t s : getr r (with_tmu t s) = getr r s.
Proof. done. Qed.
Lemma getr_with_clk r c s : getr r (with_clk c s) = getr r s.
Proof. done. Qed.
Lemma regs_ok_with_tmu t s : regs_ok s -> regs_ok (with_tmu t s).
Proof. by destruct 1. Qed.
Lemma regs_ok_with_clk c s : regs_ok s -> regs_ok (with_clk c s).
Proof. by destruct 1. Qed.

Ltac view_ok :=
  first [ done | by split
        | repeat first [apply regs_ok_with_tmu | apply regs_ok_with_clk | apply setr_ok]; done ].
#[local] Hint Rewrite tmu_of_with_tmu clk_of_with_tmu tmu_of_with_clk clk_of_with_clk tmu_of_setr
  clk_of_setr getr_with_tmu getr_with_clk : tmu_view.

Definition tpsc (c : Z) s : Z := Z.land (getr (chan_tcr c) s) SH4_TCR_TPSC_MASK.
Definition chan_div (c : Z) s : Z := 2 ^ (2 * tpsc c s + 2).

Lemma tpsc_range c s : 0 <= tpsc c s < 8.
Proof. unfold tpsc. change SH4_TCR_TPSC_MASK with (Z.ones 3). rewrite Z.land_ones by lia. by apply Z.mod_pos_bound. Qed.

Lemma chan_div_range c s : tpsc c s <= 4 -> 4 <= chan_div c s <= 1024.
Proof.
  intros H. pose proof (tpsc_range c s). unfold chan_div. split.
  - change 4 with (2 ^ 2) at 1. apply Z.pow_le_mono_r; lia.
  - change 1024 with (2 ^ 10). apply Z.pow_le_mono_r; lia.
Qed.

Lemma chan_clock_div_ok c s : tpsc c s <= 4 -> chan_clock_div c s = Ok (chan_div c s, s).
Proof.
  intros H. unfold chan_clock_div. erewrite bind_ok by done. unfold chan_div.
  pose proof (tpsc_range c s). change (Z.land (getr (chan_tcr c) s) SH4_TCR_TPSC_MASK) with (tpsc c s).
  destruct (tpsc c s) as [|p|]; [done| |lia].
  assert (p = 1 \/ p = 2 \/ p = 3 \/ p = 4)%positive as [->|[->|[->| ->]]] by lia; done.
Qed.

(** the timer of a channel, whose flag is the one in TCR *)
Definition timer_of (c : Z) s : timer :=
  {| count := getr (chan_tcnt c) s; phase := chan_accum (tmu_of s) c;
     underflow := truth (Z.land (getr (chan_tcr c) s) SH4_TCR_UNF_MASK) |}.
Definition tcor_of (c : Z) s : Z := getr (chan_tcor c) s.
Definition elapsed (c : Z) s : Z := tmu_cycle_stamp s - stamp_last_sync (tmu_of s) c.

(** what a synchronization leaves alone, and the new count *)
Record synced (c : Z) s s' : Prop := {
  sy_ok : regs_ok s';
  sy_clk : clk_of s' = clk_of s;
  sy_last : stamp_last_sync (tmu_of s') = <[c := tmu_cycle_stamp s]> (stamp_last_sync (tmu_of s));
  sy_sched : chan_event_scheduled (tmu_of s') = chan_event_scheduled (tmu_of s);
  sy_accum : forall d, d <> c -> chan_accum (tmu_of s') d = chan_accum (tmu_of s) d;
  sy_reg : forall r, 0 <= r -> r <> chan_tcnt c -> r <> chan_tcr c -> getr r s' = getr r s;
  sy_tcr : Z.ldiff (getr (chan_tcr c) s') SH4_TCR_UNF_MASK = Z.ldiff (getr (chan_tcr c) s) SH4_TCR_UNF_MASK;
  sy_phase : 0 <= chan_accum (tmu_of s) c < chan_div c s -> 0 <= chan_accum (tmu_of s') c < chan_div c s;
  sy_off : chan_enabled c s = false -> timer_of c s' = timer_of c s /\ chan_unf (tmu_of s') = chan_unf (tmu_of s);
  sy_on : chan_enabled c s = true -> timer_ok (chan_div c s) (timer_of c s) ->
    0 <= elapsed c s <= until_underflow (chan_div c s) (timer_of c s) ->
    phase (timer_of c s) + elapsed c s < 2 ^ 32 ->
    timer_of c s' = ticks (chan_div c s) (tcor_of c s) (Z.to_nat (elapsed c s)) (timer_of c s) /\
    (elapsed c s = until_underflow (chan_div c s) (timer_of c s) -> chan_unf (tmu_of s') c = true)
}.

Lemma chan_regs c :
  (valid_reg (chan_tcnt c) /\ valid_reg (chan_tcr c) /\ valid_reg (chan_tcor c)) /\
  chan_tcnt c <> chan_tcr c /\ chan_tcnt c <> chan_tcor c /\ chan_tcr c <> chan_tcor c /\
  chan_tcnt c <> SH4_REG_TSTR /\ chan_tcr c <> SH4_REG_TSTR.
Proof.
  unfold chan_tcnt, chan_tcr, chan_tcor, valid_reg. destruct (c =? 0), (c =? 1); vm_compute; intuition congruence.
Qed.

Lemma chan_enabled_ext c s s' : getr SH4_REG_TSTR s' = getr SH4_REG_TSTR s -> chan_enabled c s' = chan_enabled c s.
Proof. intros E. unfold chan_enabled. by rewrite E. Qed.

Lemma unf_set v : in_range 32 v -> u32 (Z.lor v SH4_TCR_UNF_MASK) = Z.lor v SH4_TCR_UNF_MASK.
Proof. intros H. apply wrap_small, lor_range; [lia|done|by unfold in_range]. Qed.
Lemma unf_ldiff v : Z.ldiff (Z.lor v SH4_TCR_UNF_MASK) SH4_TCR_UNF_MASK = Z.ldiff v SH4_TCR_UNF_MASK.
Proof.
  apply Z.bits_inj'. intros n Hn. rewrite !Z.ldiff_spec, Z.lor_spec.
  by destruct (Z.testbit v n), (Z.testbit SH4_TCR_UNF_MASK n).
Qed.
Lemma unf_land v : truth (Z.land (Z.lor v SH4_TCR_UNF_MASK) SH4_TCR_UNF_MASK) = true.
Proof.
  change SH4_TCR_UNF_MASK with (2 ^ 8). rewrite truth_land_bit, Z.lor_spec, Z.pow2_bits_true by lia.
  by rewrite orb_true_r.
Qed.

Lemma elapsed_wrap c s :
  0 <= elapsed c s < 2 ^ 64 -> u64 (tmu_cycle_stamp s - stamp_last_sync (tmu_of s) c) = elapsed c s.
Proof. intros H. by apply wrap_small. Qed.

Lemma until_small c s :
  regs_ok s -> tpsc c s <= 4 -> 0 <= phase (timer_of c s) ->
  until_underflow (chan_div c s) (timer_of c s) < 2 ^ 43.
Proof.
  intros Hok Ht Hp. pose proof (chan_div_range c s Ht). pose proof (getr_range (chan_tcnt c) s Hok) as [H0 H1].
  unfold until_underflow. cbn [count phase timer_of] in *. nia.
Qed.

(** nothing to do *)
Lemma synced_idle c s :
  regs_ok s -> tpsc c s <= 4 ->
  (chan_enabled c s = true -> u64 (tmu_cycle_stamp s - stamp_last_sync (tmu_of s) c) = 0) ->
  synced c s (with_tmu (upd_last c (tmu_cycle_stamp s) (tmu_of s)) s).
Proof.
  intros Hok Ht He. split; rewrite ?tmu_of_with_tmu, ?clk_of_with_tmu; try done.
  - by destruct Hok.
  - intros _. unfold timer_of. by rewrite tmu_of_with_tmu.
  - intros Hen Htk Hel Hph. pose proof (until_small c s Hok Ht (proj1 (proj2 Htk))).
    pose proof (chan_div_range c s Ht). destruct Htk as [Hc Hp].
    assert (E : elapsed c s = 0) by (rewrite <- elapsed_wrap by lia; by apply He).
    rewrite E. split; [unfold timer_of; by rewrite tmu_of_with_tmu|]. unfold until_underflow. nia.
Qed.

(** the timer counts, without and with an underflow *)
Lemma synced_count c s s' a n :
  regs_ok s -> tpsc c s <= 4 -> chan_enabled c s = true ->
  a = u32 (chan_accum (tmu_of s) c + u64 (tmu_cycle_stamp s - stamp_last_sync (tmu_of s) c)) ->
  n = getr (chan_tcnt c) s -> a / chan_div c s <= n ->
  regs_ok s' -> clk_of s' = clk_of s ->
  stamp_last_sync (tmu_of s') = <[c := tmu_cycle_stamp s]> (stamp_last_sync (tmu_of s)) ->
  chan_event_scheduled (tmu_of s') = chan_event_scheduled (tmu_of s) ->
  (forall d, d <> c -> chan_accum (tmu_of s') d = chan_accum (tmu_of s) d) ->
  chan_accum (tmu_of s') c = a mod chan_div c s ->
  (forall r, 0 <= r -> r <> chan_tcnt c -> getr r s' = getr r s) ->
  getr (chan_tcnt c) s' = n - a / chan_div c s -> synced c s s'.
Proof.
  intros Hok Ht Hen Ha Hn Hle Hok' Hclk Hlast Hsch Hoth Hacc Hreg Htc.
  pose proof (chan_div_range c s Ht) as Hd. pose proof (chan_regs c) as ((_ & [V _] & _) & N1 & _).
  assert (Etcr : getr (chan_tcr c) s' = getr (chan_tcr c) s) by (apply Hreg; congruence).
  split; try done.
  - intros r Hr Hr1 Hr2. by apply Hreg.
  - by rewrite Etcr.
  - intros _. rewrite Hacc. apply Z.mod_pos_bound. lia.
  - by rewrite Hen.
  - intros _ Htk Hel Hph. pose proof (until_small c s Hok Ht (proj1 (proj2 Htk))).
    rewrite elapsed_wrap in Ha by lia. pose proof (proj2 Htk) as Hp. cbn [phase timer_of] in Hp, Hph.
    rewrite wrap_small in Ha by (unfold in_range; lia).
    pose proof (Z.div_mod a (chan_div c s) ltac:(lia)) as E.
    pose proof (Z.mod_pos_bound a (chan_div c s) ltac:(lia)) as Hm.
    assert (Hlt : elapsed c s < until_underflow (chan_div c s) (timer_of c s)).
    { unfold until_underflow. cbn [count phase timer_of]. rewrite <- Hn. nia. }
    split; [|lia]. rewrite ticks_before by (done || lia). rewrite Z2Nat.id by lia.
    cbn [count phase underflow timer_of]. rewrite <- Ha, <- Hn, <- Htc, <- Hacc. unfold timer_of. by rewrite Etcr.
Qed.

Lemma synced_underflow c s s' a :
  regs_ok s -> tpsc c s <= 4 -> chan_enabled c s = true ->
  a = u32 (chan_accum (tmu_of s) c + u64 (tmu_cycle_stamp s - stamp_last_sync (tmu_of s) c)) ->
  getr (chan_tcnt c) s < a / chan_div c s ->
  regs_ok s' -> clk_of s' = clk_of s ->
  stamp_last_sync (tmu_of s') = <[c := tmu_cycle_stamp s]> (stamp_last_sync (tmu_of s)) ->
  chan_event_scheduled (tmu_of s') = chan_event_scheduled (tmu_of s) ->
  (forall d, d <> c -> chan_accum (tmu_of s') d = chan_accum (tmu_of s) d) ->
  chan_accum (tmu_of s') c = a mod chan_div c s -> chan_unf (tmu_of s') c = true ->
  (forall r, 0 <= r -> r <> chan_tcnt c -> r <> chan_tcr c -> getr r s' = getr r s) ->
  getr (chan_tcnt c) s' = tcor_of c s ->
  getr (chan_tcr c) s' = Z.lor (getr (chan_tcr c) s) SH4_TCR_UNF_MASK -> synced c s s'.
Proof.
  intros Hok Ht Hen Ha Hlt Hok' Hclk Hlast Hsch Hoth Hacc Hunf Hreg Htc Htcr.
  pose proof (chan_div_range c s Ht) as Hd. split; try done.
  - by rewrite Htcr, unf_ldiff.
  - intros _. rewrite Hacc. apply Z.mod_pos_bound. lia.
  - by rewrite Hen.
  - intros _ Htk Hel Hph. pose proof (until_small c s Hok Ht (proj1 (proj2 Htk))).
    rewrite elapsed_wrap in Ha by lia. pose proof (proj2 Htk) as Hp. cbn [phase timer_of] in Hp, Hph.
    rewrite wrap_small in Ha by (unfold in_range; lia).
    assert (Hge : (getr (chan_tcnt c) s + 1) * chan_div c s <= a).
    { pose proof (Z.mul_div_le a (chan_div c s) ltac:(lia)). nia. }
    unfold until_underflow in Hel. cbn [count phase timer_of] in Hel.
    assert (Ea : a = (getr (chan_tcnt c) s + 1) * chan_div c s) by lia.
    split; [|done]. rewrite ticks_underflow; [|done|unfold until_underflow; cbn [count phase timer_of]; lia].
    unfold timer_of. rewrite Htc, Hacc, Htcr, unf_land, Ea. by rewrite Z.mod_mul by lia.
Qed.

Lemma sync_ok c s :
  regs_ok s -> tpsc c s <= 4 -> exists s', tmu_chan_sync c s = Ok (tt, s') /\ synced c s s'.
Proof.
  intros Hok Ht. pose proof (chan_div_range c s Ht) as Hd.
  pose proof (chan_regs c) as (([V1 V1'] & [V2 V2'] & [V3 V3']) & N1 & N2 & N3 & N4 & N5).
  unfold tmu_chan_sync. do 3 erewrite bind_ok by done.
  set (e := u64 (tmu_cycle_stamp s - stamp_last_sync (tmu_of s) c)).
  set (s1 := with_tmu (upd_last c (tmu_cycle_stamp s) (tmu_of s)) s).
  destruct (Z.eqb_spec e 0) as [He|He]; [exists s1; split; [done|by apply synced_idle]|].
  erewrite bind_ok by done. change (chan_enabled c s1) with (chan_enabled c s).
  destruct (chan_enabled c s) eqn:Hen; cbn [negb]; [|exists s1; split; [done|apply synced_idle; congruence]].
  rewrite (bind_ok _ _ _ _ _ (chan_clock_div_ok c s1 Ht)). change (chan_div c s1) with (chan_div c s).
  do 3 erewrite bind_ok by done. unfold s1. autorewrite with tmu_view. cbn [chan_accum upd_accum upd_last].
  rewrite fn_lookup_insert. fold s1. set (a := u32 (chan_accum (tmu_of s) c + e)). set (t1 := upd_accum c a _).
  assert (Hs2 : regs_ok (with_tmu t1 s1)) by by apply regs_ok_with_tmu, regs_ok_with_tmu.
  destruct (Z.geb_spec a (chan_div c s)) as [Hge|Hlt]; cbn [when].
  - erewrite bind_ok by done. change (getr (chan_tcnt c) (with_tmu t1 s1)) with (getr (chan_tcnt c) s).
    destruct (Z.gtb_spec (a / chan_div c s) (getr (chan_tcnt c) s)) as [Hu|Hn].
    + erewrite bind_ok; [|done]. eexists. split; [reflexivity|].
      rewrite getr_setr_ne by (auto; congruence). unfold t1, s1 in *. autorewrite with tmu_view.
      eapply (synced_underflow c s _ a); try done; autorewrite with tmu_view;
        cbn [stamp_last_sync chan_accum chan_event_scheduled chan_unf upd_accum upd_unf upd_last]; try done.
      * view_ok.
      * intros d Hdc. by rewrite !fn_lookup_insert_ne by done.
      * by rewrite fn_lookup_insert.
      * by rewrite fn_lookup_insert.
      * intros r Hr H1 H2. autorewrite with tmu_view. by rewrite !getr_setr_ne by (auto; congruence).
      * rewrite getr_setr_ne by (auto; congruence). rewrite getr_setr_eq by view_ok. apply wrap_small. by apply getr_range.
      * rewrite getr_setr_eq by view_ok. apply unf_set. by apply getr_range.
    + erewrite bind_ok; [|done]. eexists. split; [reflexivity|].
      pose proof (getr_range (chan_tcnt c) s Hok) as [G0 G1].
      assert (0 <= a / chan_div c s) by (apply Z.div_pos; [by apply wrap_range|lia]).
      unfold t1, s1 in *. autorewrite with tmu_view.
      eapply (synced_count c s _ a _); try done; autorewrite with tmu_view;
        cbn [stamp_last_sync chan_accum chan_event_scheduled chan_unf upd_accum upd_unf upd_last]; try done.
      * view_ok.
      * intros d Hdc. by rewrite !fn_lookup_insert_ne by done.
      * by rewrite fn_lookup_insert.
      * intros r Hr H1. autorewrite with tmu_view. by rewrite !getr_setr_ne by (auto; congruence).
      * rewrite getr_setr_eq by view_ok. rewrite wrap_wrap_le by lia. apply wrap_small. unfold in_range. lia.
  - exists (with_tmu t1 s1). split; [done|]. assert (0 <= a) by by apply wrap_range.
    pose proof (getr_range (chan_tcnt c) s Hok) as [G0 G1]. unfold t1, s1 in *.
    eapply (synced_count c s _ a _); try done; autorewrite with tmu_view;
        cbn [stamp_last_sync chan_accum chan_event_scheduled chan_unf upd_accum upd_unf upd_last]; try done.
    + by rewrite Z.div_small by lia.
    + intros d Hdc. by rewrite !fn_lookup_insert_ne by done.
    + by rewrite fn_lookup_insert, Z.mod_small by lia.
    + by rewrite Z.div_small, Z.sub_0_r by lia.
Qed.

(** [tmu_chan_sync] computes what a timer would have counted: for a running channel, if not more
    time has passed than up to its next underflow, and the accumulator does not overflow, the new
    count, phase and underflow flag are those of a timer after one tick for each TMU cycle since
    the last call. *)
Theorem tmu_sync_ticks c s :
  regs_ok s -> tpsc c s <= 4 -> chan_enabled c s = true -> 0 <= chan_accum (tmu_of s) c < chan_div c s ->
  0 <= elapsed c s <= until_underflow (chan_div c s) (timer_of c s) ->
  chan_accum (tmu_of s) c + elapsed c s < 2 ^ 32 ->
  exists s', tmu_chan_sync c s = Ok (tt, s') /\
    timer_of c s' = ticks (chan_div c s) (tcor_of c s) (Z.to_nat (elapsed c s)) (timer_of c s) /\
    elapsed c s' = 0 /\ clk_of s' = clk_of s /\
    (elapsed c s = until_underflow (chan_div c s) (timer_of c s) -> chan_unf (tmu_of s') c = true).
Proof.
  intros Hok Ht Hen Hp Hel Hov. destruct (sync_ok c s Hok Ht) as (s' & Hrun & [? Hclk Hlast ? ? ? ? ? _ Hon]).
  destruct (Hon Hen) as [Htk Hunf]; try done.
  { split; [by apply getr_range|done]. }
  exists s'. split_and!; try done. unfold elapsed, tmu_cycle_stamp, sh4_get_cycles.
  rewrite Hlast, Hclk, fn_lookup_insert. unfold tmu_cycle_stamp, sh4_get_cycles. lia.
Qed.
End sync.

(** ** The events of running channels *)
Section events.
Context {W : Type} {CFG : BuildConfig} {MCH : Machine W} {TW : TmuWorld W} {TL : TmuWorldLaws W}.
Implicit Types (s : Sh4 W) (l : list Z).

Definition now s : Z := sched.clock_cycle_stamp (clk_of s).
Definition TICK : Z := TMU_DIV * sched.SH4_CLOCK_SCALE.
Definition event_stamp (c : Z) s : Z := stamp (events (clk_of s)) (tmu_chan_event c).

Lemma tmu_cycle_now s : tmu_cycle_stamp s = now s / TICK.
Proof.
  unfold tmu_cycle_stamp, sh4_get_cycles. rewrite Z.shiftr_div_pow2 by (vm_compute; congruence).
  by rewrite Z.div_div by (vm_compute; congruence).
Qed.

(** the queue, and the flags that say whether a channel's event is in it; the flag of the channel
    [x] may be out of date *)
Record tmu_wf (x : Z) s l : Prop := {
  wf_ok : regs_ok s;
  wf_queue : queue (clk_of s) l;
  wf_future : Forall (fun i => now s <= stamp (events (clk_of s)) i) l;
  wf_now : 0 <= now s < 2 ^ 63;
  wf_event : forall c, chan_ok c -> is_Some (events (clk_of s) !! tmu_chan_event c);
  wf_tpsc : forall c, chan_ok c -> tpsc c s <= 4;
  wf_phase : forall c, chan_ok c -> 0 <= chan_accum (tmu_of s) c < chan_div c s;
  wf_last : forall c, chan_ok c -> 0 <= stamp_last_sync (tmu_of s) c <= tmu_cycle_stamp s;
  wf_sched : forall c, chan_ok c -> c <> x ->
    chan_event_scheduled (tmu_of s) c = true <-> tmu_chan_event c ∈ l
}.

(** the event of a running channel is scheduled for the stamp of its underflow *)
Record armed (c : Z) s : Prop := {
  ar_flag : chan_event_scheduled (tmu_of s) c = chan_enabled c s;
  ar_stamp : chan_enabled c s = true ->
    event_stamp c s = (stamp_last_sync (tmu_of s) c + until_underflow (chan_div c s) (timer_of c s)) * TICK
}.

(** the bits of TCR other than the underflow flag *)
Lemma ldiff_land v w m :
  Z.land SH4_TCR_UNF_MASK m = 0 ->
  Z.ldiff v SH4_TCR_UNF_MASK = Z.ldiff w SH4_TCR_UNF_MASK -> Z.land v m = Z.land w m.
Proof.
  intros Hm E. apply Z.bits_inj'. intros n Hn. rewrite !Z.land_spec.
  apply (f_equal (fun x => Z.testbit x n)) in Hm, E. rewrite Z.land_spec, Z.bits_0 in Hm. rewrite !Z.ldiff_spec in E.
  destruct (Z.testbit SH4_TCR_UNF_MASK n), (Z.testbit v n), (Z.testbit w n), (Z.testbit m n); done.
Qed.

Lemma synced_tpsc c d s s' : synced c s s' -> chan_ok c -> chan_ok d -> tpsc d s' = tpsc d s.
Proof.
  intros [_ _ _ _ _ Hreg Htcr _ _ _] Hc Hd. destruct (Z.eq_dec d c) as [->|Hne].
  - by apply ldiff_land.
  - unfold tpsc. rewrite Hreg; [done|..]; destruct (chan_cases c Hc) as [->|[->| ->]],
      (chan_cases d Hd) as [->|[->| ->]]; try done; by vm_compute.
Qed.

Lemma synced_enabled c d s s' : synced c s s' -> chan_enabled d s' = chan_enabled d s.
Proof.
  intros [_ _ _ _ _ Hreg _ _ _ _]. apply chan_enabled_ext. pose proof (chan_regs c) as (_ & _ & _ & _ & N1 & N2).
  apply Hreg; [by vm_compute|congruence..].
Qed.

Lemma synced_now c s s' : synced c s s' -> now s' = now s /\ tmu_cycle_stamp s' = tmu_cycle_stamp s.
Proof. intros [_ Hclk _ _ _ _ _ _ _ _]. rewrite !tmu_cycle_now. unfold now. by rewrite Hclk. Qed.

(** another channel's timer *)
Lemma synced_timer c d s s' :
  synced c s s' -> chan_ok c -> chan_ok d -> d <> c -> timer_of d s' = timer_of d s.
Proof.
  intros [_ _ _ _ Hacc Hreg _ _ _ _] Hc Hd Hne. unfold timer_of. rewrite Hacc by done.
  rewrite !Hreg; [done|..]; destruct (chan_cases c Hc) as [->|[->| ->]],
    (chan_cases d Hd) as [->|[->| ->]]; try done; by vm_compute.
Qed.

Lemma sync_wf x c s l :
  tmu_wf x s l -> chan_ok c ->
  exists s', tmu_chan_sync c s = Ok (tt, s') /\ synced c s s' /\ tmu_wf x s' l /\
    stamp_last_sync (tmu_of s') c = tmu_cycle_stamp s' /\
    forall d, chan_ok d -> d <> c -> armed d s -> armed d s'.
Proof.
  intros [Hok Hq Hf Hn Hev Ht Hp Hl Hs] Hc. destruct (sync_ok c s Hok (Ht c Hc)) as (s' & Hrun & Hsy).
  destruct (synced_now c s s' Hsy) as [En Ec].
  exists s'. split; [done|]. split; [done|]. pose proof Hsy as [Hok' Hclk Hlast Hsch Hacc _ _ Hph _ _]. split; [|split].
  - split; rewrite ?En, ?Ec, ?Hclk, ?Hsch; try done.
    + intros d Hd. rewrite (synced_tpsc c d s s') by done. by apply Ht.
    + intros d Hd. unfold chan_div. rewrite (synced_tpsc c d s s') by done. fold (chan_div d s).
      destruct (Z.eq_dec d c) as [->|Hne]; [by apply Hph, Hp|]. rewrite Hacc by done. by apply Hp.
    + intros d Hd. rewrite Hlast. specialize (Hl d Hd). destruct (Z.eq_dec d c) as [->|Hne].
      * rewrite fn_lookup_insert. lia.
      * by rewrite fn_lookup_insert_ne by done.
  - by rewrite Hlast, fn_lookup_insert, Ec.
  - intros d Hd Hne [A1 A2]. split.
    + by rewrite Hsch, (synced_enabled c d s s').
    + rewrite (synced_enabled c d s s') by done. intros Hen. specialize (A2 Hen). unfold event_stamp in *.
      rewrite Hclk, A2, Hlast, fn_lookup_insert_ne by done. unfold chan_div.
      by rewrite (synced_tpsc c d s s'), (synced_timer c d s s').
Qed.

(** a change to the event of the channel [c] and to its flag, and to nothing else *)
Record event_changed (c : Z) s s' : Prop := {
  ec_reg : reg s' = reg s;
  ec_last : stamp_last_sync (tmu_of s') = stamp_last_sync (tmu_of s);
  ec_accum : chan_accum (tmu_of s') = chan_accum (tmu_of s);
  ec_unf : chan_unf (tmu_of s') = chan_unf (tmu_of s);
  ec_sched : forall d, d <> c -> chan_event_scheduled (tmu_of s') d = chan_event_scheduled (tmu_of s) d;
  ec_now : now s' = now s;
  ec_stamp : forall i, i <> tmu_chan_event c -> stamp (events (clk_of s')) i = stamp (events (clk_of s)) i
}.

Lemma event_changed_trans c s1 s2 s3 :
  event_changed c s1 s2 -> event_changed c s2 s3 -> event_changed c s1 s3.
Proof.
  intros [] []. split; try congruence.
  - intros d Hd. rewrite ec_sched1; auto.
  - intros i Hi. rewrite ec_stamp1; auto.
Qed.

Lemma event_changed_views c d s s' :
  event_changed c s s' -> chan_enabled d s' = chan_enabled d s /\ tpsc d s' = tpsc d s /\
    timer_of d s' = timer_of d s /\ tmu_cycle_stamp s' = tmu_cycle_stamp s.
Proof.
  intros [Hr Hl Ha _ _ Hn _]. rewrite !tmu_cycle_now, Hn. unfold chan_enabled, tpsc, timer_of, getr.
  by rewrite Hr, Ha.
Qed.

Lemma event_changed_armed c d s s' :
  event_changed c s s' -> chan_ok c -> chan_ok d -> d <> c -> armed d s -> armed d s'.
Proof.
  intros H Hc Hd Hne [A1 A2]. destruct (event_changed_views c d s s' H) as (E1 & E2 & E3 & E4).
  destruct H as [_ Hl _ _ Hs _ Hst]. split.
  - by rewrite Hs, E1.
  - rewrite E1, E3, Hl. unfold chan_div in *. rewrite E2. intros Hen. rewrite <- (A2 Hen). unfold event_stamp.
    apply Hst. intros E. by apply Hne, tmu_event_inj.
Qed.

(** what is left to show of a new queue *)
Lemma event_changed_wf x y c s s' l l' :
  tmu_wf x s l -> event_changed c s s' -> chan_ok c -> (x = c \/ x = y) ->
  queue (clk_of s') l' ->
  (forall d, chan_ok d -> is_Some (events (clk_of s') !! tmu_chan_event d)) ->
  Forall (fun i => now s <= stamp (events (clk_of s')) i) l' ->
  (forall i, i <> tmu_chan_event c -> i ∈ l' <-> i ∈ l) ->
  (c <> y -> chan_event_scheduled (tmu_of s') c = true <-> tmu_chan_event c ∈ l') ->
  tmu_wf y s' l'.
Proof.
  intros [Hok Hq Hf Hn Hev Ht Hp Hl Hs] H Hc Hx Hq' Hev' Hf' Hin Hsc.
  assert (V : forall d, tpsc d s' = tpsc d s) by (intros d; by destruct (event_changed_views c d s s' H) as (_ & ? & _)).
  destruct (event_changed_views c c s s' H) as (_ & _ & _ & Ecyc).
  destruct H as [Hr Hla Ha Hu Hsch Hnow Hst]. split; try done.
  - destruct Hok as [O1 O2]. by split; rewrite Hr.
  - by rewrite Hnow.
  - by rewrite Hnow.
  - intros d Hd. rewrite V. by apply Ht.
  - intros d Hd. unfold chan_div. rewrite V, Ha. by apply Hp.
  - intros d Hd. rewrite Hla, Ecyc. by apply Hl.
  - intros d Hd Hdy. destruct (Z.eq_dec d c) as [->|Hne]; [by apply Hsc|].
    assert (tmu_chan_event d <> tmu_chan_event c) by (intros E; by apply Hne, tmu_event_inj).
    rewrite Hsch, Hin by done. apply Hs; [done|]. destruct Hx; congruence.
Qed.

Lemma on_clk_ok {A} (m : M dc_clock A) s a c' : m (clk_of s) = Ok (a, c') -> on_clk m s = Ok (a, with_clk c' s).
Proof. intros H. unfold on_clk. by rewrite H. Qed.

Lemma same_stamps_at evs evs' i : same_stamps evs evs' -> stamp evs' i = stamp evs i.
Proof. intros H. unfold stamp. by rewrite (H i). Qed.
Lemma same_stamps_some evs evs' i : same_stamps evs evs' -> is_Some (evs !! i) -> is_Some (evs' !! i).
Proof. intros H. specialize (H i). rewrite <- !(fmap_is_Some ev_when). by rewrite H. Qed.

Lemma unsched_wf c s l :
  tmu_wf (-1) s l -> chan_ok c -> chan_event_scheduled (tmu_of s) c = true ->
  exists s' l', chan_event_unsched c s = Ok (tt, s') /\ tmu_wf (-1) s' l' /\ event_changed c s s' /\
    chan_event_scheduled (tmu_of s') c = false.
Proof.
  intros Hwf Hc Hsch. pose proof Hwf as [_ Hq Hf _ Hev _ _ _ Hs].
  apply Hs in Hsch; [|done|unfold chan_ok in Hc; lia]. apply list_elem_of_split in Hsch as (l1 & l2 & ->).
  destruct (cancel_event_ok _ _ _ _ Hq) as (c' & Hrun & [Hq' Hst Hcy _]).
  { intros _. rewrite list.Forall_forall in Hf. apply Hf. set_solver. }
  unfold chan_event_unsched. erewrite bind_ok by by apply on_clk_ok. eexists _, (l1 ++ l2). split; [done|].
  set (s' := with_tmu _ _).
  assert (Hclk : clk_of s' = c') by (unfold s'; by rewrite clk_of_with_tmu, clk_of_with_clk).
  assert (Htmu : tmu_of s' = upd_scheduled c false (tmu_of s)) by (unfold s'; by rewrite tmu_of_with_tmu, tmu_of_with_clk).
  assert (Hch : event_changed c s s').
  { split; rewrite ?Htmu; try done.
    - intros d Hd. cbn. by rewrite fn_lookup_insert_ne.
    - unfold now. by rewrite Hclk.
    - intros i _. rewrite Hclk. by apply same_stamps_at. }
  destruct Hq as (_ & _ & Hnd & _). apply list.NoDup_app in Hnd as (Hnd1 & Hnd2 & Hnd3%list.NoDup_cons).
  split; [|split; [done|by rewrite Htmu; cbn; rewrite fn_lookup_insert]].
  eapply (event_changed_wf (-1) (-1) c s s'); try done; [by right|by rewrite Hclk|..]; rewrite ?Hclk.
  - intros d Hd. eapply same_stamps_some; [done|by apply Hev].
  - rewrite list.Forall_forall in Hf |- *. intros i Hi. rewrite (same_stamps_at _ _ _ Hst). apply Hf. set_solver.
  - intros i Hi. set_solver.
  - intros _. rewrite Htmu. cbn. rewrite fn_lookup_insert. split; [done|]. intros Hi. exfalso.
    apply elem_of_app in Hi as [Hi|Hi]; [apply (Hnd2 _ Hi); set_solver|by apply Hnd3].
Qed.

Lemma next_chan_event_ok x c s l :
  tmu_wf x s l -> chan_ok c ->
  next_chan_event c s = Ok (until_underflow (chan_div c s) (timer_of c s), s) /\
  1 <= until_underflow (chan_div c s) (timer_of c s) < 2 ^ 43.
Proof.
  intros [Hok _ _ _ _ Ht Hp _ _] Hc. specialize (Ht c Hc). specialize (Hp c Hc).
  pose proof (until_small c s Hok Ht (proj1 Hp)) as Hu. pose proof (chan_div_range c s Ht).
  pose proof (getr_range (chan_tcnt c) s Hok) as [G0 G1].
  assert (1 <= until_underflow (chan_div c s) (timer_of c s)).
  { unfold until_underflow. cbn [count phase timer_of]. nia. }
  split; [|lia]. unfold next_chan_event. rewrite (bind_ok _ _ _ _ _ (chan_clock_div_ok c s Ht)).
  do 2 erewrite bind_ok by done. unfold ret. do 2 f_equal. apply wrap_small.
  unfold in_range. unfold until_underflow in *. cbn [count phase timer_of] in *. lia.
Qed.

Lemma set_when_events e w c c' i :
  set_when e w c = Ok (tt, c') -> i <> e -> events c' !! i = events c !! i.
Proof.
  intros H Hi. unfold set_when in H. apply bind_inv in H as (ev & c1 & H1 & H2). unfold get_event in H1.
  unfold put_event in H2. destruct (events c !! e) eqn:E; [|done]. injection H1 as <- <-. rewrite E in H2.
  injection H2 as <-. cbn. by apply lookup_insert_ne.
Qed.

(** the flag of a stopped channel *)
Lemma flag_cleared c s l :
  tmu_wf c s l -> chan_ok c -> tmu_chan_event c ∉ l ->
  exists s', set_chan_event_scheduled c false s = Ok (tt, s') /\ tmu_wf (-1) s' l /\ event_changed c s s' /\
    chan_event_scheduled (tmu_of s') c = false.
Proof.
  intros Hwf Hc Hni. eexists. split; [done|]. set (s' := with_tmu _ _).
  assert (Hclk : clk_of s' = clk_of s) by apply clk_of_with_tmu.
  assert (Htmu : tmu_of s' = upd_scheduled c false (tmu_of s)) by apply tmu_of_with_tmu.
  assert (Hch : event_changed c s s').
  { split; rewrite ?Htmu, ?Hclk; try done.
    - intros d Hd. cbn. by rewrite fn_lookup_insert_ne.
    - unfold now. by rewrite Hclk. }
  assert (Hfl : chan_event_scheduled (tmu_of s') c = false) by (rewrite Htmu; cbn; by rewrite fn_lookup_insert).
  split; [|done]. pose proof Hwf as [_ Hq Hf _ Hev _ _ _ _].
  eapply (event_changed_wf c (-1) c s s'); try done; [by left|by rewrite Hclk..|]. intros _. rewrite Hfl. by split.
Qed.

(** an event at the stamp [w] *)
Lemma event_scheduled c s l w :
  tmu_wf c s l -> chan_ok c -> tmu_chan_event c ∉ l -> now s <= w ->
  exists s' l', (on_clk (set_when (tmu_chan_event c) w) ;; set_chan_event_scheduled c true ;;
      on_clk (sched_event (tmu_chan_event c))) s = Ok (tt, s') /\ tmu_wf (-1) s' l' /\ event_changed c s s' /\
    chan_event_scheduled (tmu_of s') c = true /\ event_stamp c s' = w.
Proof.
  intros Hwf Hc Hni Hw. pose proof Hwf as [_ Hq Hf _ Hev _ _ _ _].
  destruct (set_when_ok _ _ _ w Hq Hni (Hev c Hc)) as (c1 & Hset & Hq1 & Hcy1 & Hst1 & Hsome1 & Hoth1).
  destruct (sched_event_ok c1 l _ Hq1 Hni Hsome1) as (c2 & Hsch & [Hq2 Hss Hcy2 _]).
  { intros _. rewrite Hst1. unfold now in Hw. congruence. }
  erewrite bind_ok by (by apply on_clk_ok). erewrite bind_ok by done.
  set (s1 := with_tmu _ _).
  assert (H1 : clk_of s1 = c1) by (unfold s1; by rewrite clk_of_with_tmu, clk_of_with_clk).
  rewrite <- H1 in Hsch. exists (with_clk c2 s1), (insert_event (stamp (events c1)) (tmu_chan_event c) l).
  split; [by apply on_clk_ok|].
  assert (Hclk : clk_of (with_clk c2 s1) = c2) by apply clk_of_with_clk.
  assert (Htmu : tmu_of (with_clk c2 s1) = upd_scheduled c true (tmu_of s))
    by (unfold s1; by rewrite tmu_of_with_clk, tmu_of_with_tmu, tmu_of_with_clk).
  assert (Hch : event_changed c s (with_clk c2 s1)).
  { split; rewrite ?Htmu; try done.
    - intros d Hd. cbn. by rewrite fn_lookup_insert_ne.
    - unfold now. rewrite Hclk. congruence.
    - intros i Hi. rewrite Hclk, (same_stamps_at _ _ _ Hss). by apply Hoth1. }
  assert (Hst2 : event_stamp c (with_clk c2 s1) = w)
    by (unfold event_stamp; by rewrite Hclk, (same_stamps_at _ _ _ Hss)).
  assert (Hfl : chan_event_scheduled (tmu_of (with_clk c2 s1)) c = true) by (rewrite Htmu; cbn; by rewrite fn_lookup_insert).
  split; [|done].
  eapply (event_changed_wf c (-1) c s _ l); try done; [by left|by rewrite Hclk|..]; rewrite ?Hclk.
  - intros d Hd. eapply same_stamps_some; [done|]. destruct (Z.eq_dec d c) as [->|Hne]; [done|].
    rewrite (set_when_events _ _ _ _ _ Hset); [by apply Hev|]. intros E. by apply Hne, tmu_event_inj.
  - rewrite insert_event_perm. constructor.
    + unfold event_stamp in Hst2. rewrite Hclk in Hst2. by rewrite Hst2.
    + rewrite list.Forall_forall in Hf |- *. intros i Hi. rewrite (same_stamps_at _ _ _ Hss), Hoth1; [by apply Hf|].
      by intros ->.
  - intros i Hi. rewrite insert_event_perm, elem_of_cons. split; [by intros [?|]|by right].
  - intros _. rewrite Hfl, insert_event_perm. set_solver.
Qed.

Lemma sched_next_wf c s l :
  tmu_wf c s l -> chan_ok c -> tmu_chan_event c ∉ l -> 
  exists s' l', chan_event_sched_next c s = Ok (tt, s') /\ tmu_wf (-1) s' l' /\ event_changed c s s' /\
    (stamp_last_sync (tmu_of s) c = tmu_cycle_stamp s -> armed c s').
Proof.
  intros Hwf Hc Hni. unfold chan_event_sched_next. erewrite bind_ok by done.
  destruct (chan_enabled c s) eqn:Hen; cbn [negb].
  - destruct (next_chan_event_ok c c s l Hwf Hc) as [Hnx Hu]. rewrite (bind_ok _ _ _ _ _ Hnx).
    erewrite bind_ok by done. fold (now s) TICK. set (u := until_underflow _ _) in *.
    pose proof (wf_now _ _ _ Hwf) as Hnow.
    assert (HT : TICK = 108) by by vm_compute.
    pose proof (Z.div_mod (now s) TICK ltac:(lia)) as Edm.
    pose proof (Z.mod_pos_bound (now s) TICK ltac:(lia)) as Hm.
    assert (Ew : u64 ((u + now s / TICK) * TICK) = (u + now s / TICK) * TICK)
      by (apply wrap_small; unfold in_range; rewrite HT in *; lia).
    rewrite Ew. destruct (event_scheduled c s l ((u + now s / TICK) * TICK) Hwf Hc Hni) as (s' & l' & Hrun & Hwf' & Hch & Hfl & Hst);
      [rewrite HT in *; lia|].
    exists s', l'. split; [exact Hrun|]. split; [done|]. split; [done|]. intros Hlast.
    destruct (event_changed_views c c s s' Hch) as (E1 & E2 & E3 & E4). split.
    + by rewrite Hfl, E1.
    + intros _. rewrite Hst, E3. unfold chan_div. rewrite E2. fold (chan_div c s). fold u.
      rewrite (ec_last _ _ _ Hch), Hlast, tmu_cycle_now. lia.
  - destruct (flag_cleared c s l Hwf Hc Hni) as (s' & Hrun & Hwf' & Hch & Hfl).
    exists s', l. split; [done|]. split; [done|]. split; [done|]. intros _.
    destruct (event_changed_views c c s s' Hch) as (E1 & _). split; rewrite E1, Hen; done.
Qed.

Lemma wf_weaken x s l : tmu_wf (-1) s l -> tmu_wf x s l.
Proof. intros []. split; try done. intros c Hc _. apply wf_sched0; [done|]. unfold chan_ok in Hc. lia. Qed.

Lemma resched_wf c s l :
  tmu_wf (-1) s l -> chan_ok c -> stamp_last_sync (tmu_of s) c = tmu_cycle_stamp s ->
  exists s' l', chan_resched c s = Ok (tt, s') /\ tmu_wf (-1) s' l' /\ event_changed c s s' /\ armed c s'.
Proof.
  intros Hwf Hc Hlast. unfold chan_resched. erewrite bind_ok by done.
  assert (Hne : c <> -1) by (unfold chan_ok in Hc; lia).
  destruct (chan_event_scheduled (tmu_of s) c) eqn:Hs; cbn [when].
  - destruct (unsched_wf c s l Hwf Hc Hs) as (s1 & l1 & Hr1 & Hwf1 & Hch1 & Hf1). erewrite bind_ok by exact Hr1.
    destruct (sched_next_wf c s1 l1 (wf_weaken c _ _ Hwf1) Hc) as (s2 & l2 & Hr2 & Hwf2 & Hch2 & Ha2).
    { intros Hin. apply (wf_sched _ _ _ Hwf1 c Hc Hne) in Hin. congruence. }
    exists s2, l2. split; [done|]. split; [done|]. split; [by eapply event_changed_trans|]. apply Ha2.
    destruct (event_changed_views c c s s1 Hch1) as (_ & _ & _ & ->). by rewrite (ec_last _ _ _ Hch1).
  - erewrite bind_ok by done.
    destruct (sched_next_wf c s l (wf_weaken c _ _ Hwf) Hc) as (s2 & l2 & Hr2 & Hwf2 & Hch2 & Ha2).
    { intros Hin. apply (wf_sched _ _ _ Hwf c Hc Hne) in Hin. congruence. }
    exists s2, l2. auto.
Qed.

Record tmu_inv s l : Prop := {
  inv_wf : tmu_wf (-1) s l;
  inv_armed : forall c, chan_ok c -> armed c s
}.

(** the channel is synchronized before its underflow, and before its accumulator overflows *)
Definition in_time (c : Z) s : Prop :=
  chan_enabled c s = true -> now s < event_stamp c s /\ chan_accum (tmu_of s) c + elapsed c s < 2 ^ 32.

Lemma tick_before x q T : 0 < T -> x < q * T -> x / T < q.
Proof. intros HT Hx. apply Z.div_lt_upper_bound; [done|lia]. Qed.

Lemma sync_inv c s l :
  tmu_inv s l -> chan_ok c -> in_time c s ->
  exists s', tmu_chan_sync c s = Ok (tt, s') /\ tmu_inv s' l /\ synced c s s'.
Proof.
  intros [Hwf Har] Hc Hin. destruct (sync_wf _ c s l Hwf Hc) as (s' & Hrun & Hsy & Hwf' & Hl' & Hoth).
  exists s'. split; [done|]. split; [|done]. split; [done|]. intros d Hd.
  destruct (Z.eq_dec d c) as [->|Hne]; [|by apply Hoth, Har]. destruct (Har c Hc) as [A1 A2].
  pose proof (synced_enabled c c s s' Hsy) as Een. pose proof (synced_tpsc c c s s' Hsy Hc Hc) as Et.
  destruct (synced_now c s s' Hsy) as [_ Ecy].
  pose proof Hsy as [Hok' Hclk Hlast Hsch _ _ _ _ _ Hon]. split; [by rewrite Hsch, Een|].
  rewrite Een. intros Hen. destruct (Hin Hen) as [Hlt Hov]. specialize (A2 Hen).
  pose proof (wf_phase _ _ _ Hwf c Hc) as Hp. pose proof (wf_last _ _ _ Hwf c Hc) as Hla.
  assert (Hel : elapsed c s < until_underflow (chan_div c s) (timer_of c s)).
  { rewrite A2 in Hlt. apply tick_before in Hlt; [|by vm_compute]. unfold elapsed. rewrite tmu_cycle_now. lia. }
  assert (Htk : timer_ok (chan_div c s) (timer_of c s))
    by (split; [by apply getr_range; destruct Hwf|done]).
  destruct (Hon Hen Htk) as [Ht _]; [unfold elapsed in *; lia|done|].
  rewrite ticks_before in Ht by (done || unfold elapsed in *; lia).
  unfold event_stamp in *. rewrite Hclk, A2, Hl', Ecy. unfold chan_div at 2. rewrite Et. fold (chan_div c s).
  rewrite Ht. unfold until_underflow. cbn [count phase]. rewrite Z2Nat.id by (unfold elapsed; lia).
  pose proof (Z.div_mod (phase (timer_of c s) + elapsed c s) (chan_div c s) ltac:(lia)) as Edm.
  set (q := (phase (timer_of c s) + elapsed c s) / chan_div c s) in *.
  set (r := (phase (timer_of c s) + elapsed c s) mod chan_div c s) in *. unfold elapsed in *. nia.
Qed.

(** ** Register writes *)
Lemma setr_wf x r v s l :
  tmu_wf x s l -> 0 <= r -> (forall c, chan_ok c -> r <> chan_tcr c) -> tmu_wf x (setr r v s) l.
Proof.
  intros [Hok Hq Hf Hn Hev Ht Hp Hl Hs] Hr Hne.
  assert (E : forall c, chan_ok c -> tpsc c (setr r v s) = tpsc c s).
  { intros c Hc. unfold tpsc. pose proof (chan_regs c) as ((_ & [V _] & _) & _).
    rewrite getr_setr_ne by (auto; congruence || apply not_eq_sym; auto). done. }
  split; try done.
  - by apply setr_ok.
  - intros c Hc. rewrite E by done. by apply Ht.
  - intros c Hc. unfold chan_div. rewrite E by done. by apply Hp.
Qed.

Lemma setr_armed d r v s :
  armed d s -> 0 <= r -> r <> SH4_REG_TSTR -> r <> chan_tcr d -> r <> chan_tcnt d -> armed d (setr r v s).
Proof.
  intros [A1 A2] Hr N1 N2 N3. pose proof (chan_regs d) as (([V1 _] & [V2 _] & _) & _).
  split; unfold chan_enabled, event_stamp, chan_div, tpsc, timer_of in *;
    rewrite !getr_setr_ne by (auto; by vm_compute); done.
Qed.

Definition set_accum_0 (c : Z) s : Sh4 W := with_tmu (upd_accum c 0 (tmu_of s)) s.

Lemma set_accum_wf x c s l : tmu_wf x s l -> chan_ok c -> tmu_wf x (set_accum_0 c s) l.
Proof.
  intros [Hok Hq Hf Hn Hev Ht Hp Hl Hs] Hc. unfold set_accum_0.
  split; unfold now in *; rewrite ?tmu_cycle_now in *; unfold now in *;
    rewrite ?tmu_of_with_tmu, ?clk_of_with_tmu; try done.
  - by destruct Hok.
  - intros d Hd. cbn. change (chan_div d (with_tmu _ s)) with (chan_div d s).
    destruct (Z.eq_dec d c) as [->|Hne].
    + rewrite fn_lookup_insert. pose proof (chan_div_range c s (Ht c Hc)). lia.
    + rewrite fn_lookup_insert_ne by done. by apply Hp.
Qed.

Lemma tstr_chan_wf c mask tmp s l :
  tmu_wf (-1) s l -> chan_ok c ->
  exists s' l', tstr_chan c mask tmp s = Ok (tt, s') /\ tmu_wf (-1) s' l'.
Proof.
  intros Hwf Hc. assert (Hne : c <> -1) by (unfold chan_ok in Hc; lia).
  unfold tstr_chan. erewrite bind_ok by done. destruct (truth (Z.lxor _ _)); cbn [when]; [|by exists s, l].
  destruct (sync_wf _ c s l Hwf Hc) as (s1 & Hr1 & _ & Hwf1 & _). erewrite bind_ok by exact Hr1.
  do 2 erewrite bind_ok by done. fold (set_accum_0 c s1). apply (set_accum_wf _ c) in Hwf1; [|done].
  set (s2 := set_accum_0 c s1) in *.
  destruct (truth (Z.land tmp mask)), (chan_event_scheduled (tmu_of s2) c) eqn:Hs; cbn [negb when];
    [by exists s2, l| | |by exists s2, l].
  - destruct (sched_next_wf c s2 l (wf_weaken c _ _ Hwf1) Hc) as (s3 & l3 & Hr3 & Hwf3 & _); [|by exists s3, l3].
    intros Hin. apply (wf_sched _ _ _ Hwf1 c Hc Hne) in Hin. congruence.
  - destruct (unsched_wf c s2 l Hwf1 Hc Hs) as (s3 & l3 & Hr3 & Hwf3 & _). by exists s3, l3.
Qed.

(** the channels that have their event keep it *)
Definition keeps_armed (c : Z) s s' : Prop :=
  armed c s' /\ forall d, chan_ok d -> d <> c -> armed d s -> armed d s'.

Lemma sync_resched c s l :
  tmu_wf (-1) s l -> chan_ok c ->
  exists s' l', (tmu_chan_sync c ;; chan_resched c) s = Ok (tt, s') /\ tmu_wf (-1) s' l' /\ keeps_armed c s s'.
Proof.
  intros Hwf Hc. destruct (sync_wf _ c s l Hwf Hc) as (s1 & Hr1 & _ & Hwf1 & Hl1 & Hoth1).
  erewrite bind_ok by exact Hr1. destruct (resched_wf c s1 l Hwf1 Hc Hl1) as (s2 & l2 & Hr2 & Hwf2 & Hch & Ha).
  exists s2, l2. split; [done|]. split; [done|]. split; [done|]. intros d Hd Hne Had.
  apply (event_changed_armed c d s1 s2); auto.
Qed.

Lemma tstr_write_inv val s l :
  tmu_wf (-1) s l -> exists s' l', sh4_tmu_tstr_write_handler val s = Ok (tt, s') /\ tmu_inv s' l'.
Proof.
  intros Hwf. assert (C0 : chan_ok 0) by (unfold chan_ok; lia). assert (C1 : chan_ok 1) by (unfold chan_ok; lia).
  assert (C2 : chan_ok 2) by (unfold chan_ok; lia). unfold sh4_tmu_tstr_write_handler. set (tmp := Z.land _ 7).
  destruct (tstr_chan_wf 0 SH4_TSTR_CHAN0_MASK tmp s l Hwf C0) as (s1 & l1 & R1 & W1).
  destruct (tstr_chan_wf 1 SH4_TSTR_CHAN1_MASK tmp s1 l1 W1 C1) as (s2 & l2 & R2 & W2).
  destruct (tstr_chan_wf 2 SH4_TSTR_CHAN2_MASK tmp s2 l2 W2 C2) as (s3 & l3 & R3 & W3).
  rewrite (bind_ok _ _ _ _ _ R1), (bind_ok _ _ _ _ _ R2), (bind_ok _ _ _ _ _ R3). erewrite bind_ok by done.
  apply (setr_wf _ SH4_REG_TSTR tmp) in W3;
    [|by vm_compute|intros c Hc; pose proof (chan_regs c) as (_ & _ & _ & _ & _ & N); congruence].
  destruct (sync_resched 0 _ l3 W3 C0) as (s4 & l4 & R4 & W4 & A4 & _).
  destruct (sync_resched 1 s4 l4 W4 C1) as (s5 & l5 & R5 & W5 & A5 & K5).
  destruct (sync_resched 2 s5 l5 W5 C2) as (s6 & l6 & R6 & W6 & A6 & K6).
  rewrite (bind_ok _ _ _ _ _ R4), (bind_ok _ _ _ _ _ R5), R6. exists s6, l6. split; [done|]. split; [done|].
  intros c [->|[->| ->]]%chan_cases; [|by apply K6|done]. apply K6; [done..|]. by apply K5.
Qed.

(** the channel of a register *)
Lemma tcr_chan_tcr c : chan_ok c -> tcr_chan (chan_tcr c) = c.
Proof. by intros [->|[->| ->]]%chan_cases. Qed.
Lemma tcnt_chan_tcnt c : chan_ok c -> tcnt_chan (chan_tcnt c) = Some c.
Proof. by intros [->|[->| ->]]%chan_cases. Qed.
Lemma chan_regs_ne c d :
  chan_ok c -> chan_ok d -> chan_tcnt c <> chan_tcr d /\ (d <> c -> chan_tcnt c <> chan_tcnt d /\ chan_tcr c <> chan_tcr d).
Proof. intros [->|[->| ->]]%chan_cases [->|[->| ->]]%chan_cases; by vm_compute. Qed.

Lemma tcnt_write_inv c val s l :
  tmu_inv s l -> chan_ok c ->
  exists s' l', sh4_tmu_tcnt_write_handler (chan_tcnt c) val s = Ok (tt, s') /\ tmu_inv s' l'.
Proof.
  intros [Hwf Har] Hc. unfold sh4_tmu_tcnt_write_handler. rewrite tcnt_chan_tcnt by done.
  pose proof (chan_regs c) as (([V _] & _) & _ & _ & _ & N1 & _).
  destruct (sync_wf _ c s l Hwf Hc) as (s1 & R1 & _ & W1 & _ & K1). rewrite (bind_ok _ _ _ _ _ R1).
  erewrite bind_ok by done. apply (setr_wf _ (chan_tcnt c) val) in W1; [|done|intros d Hd; by apply chan_regs_ne].
  destruct (sync_resched c _ l W1 Hc) as (s2 & l2 & R2 & W2 & A2 & K2). exists s2, l2. split; [exact R2|].
  split; [done|]. intros d Hd. destruct (Z.eq_dec d c) as [->|Hne]; [done|]. apply K2; [done..|].
  apply setr_armed; [by apply K1; auto|done|done|by apply chan_regs_ne|by apply chan_regs_ne].
Qed.

Lemma set_accum_armed c d s : armed d s -> d <> c -> armed d (set_accum_0 c s).
Proof.
  intros [A1 A2] Hne. unfold set_accum_0. split.
  - rewrite tmu_of_with_tmu. exact A1.
  - intros Hen. unfold event_stamp, timer_of in *. rewrite clk_of_with_tmu, tmu_of_with_tmu. cbn.
    rewrite fn_lookup_insert_ne by done. by apply A2.
Qed.

Lemma tcr_set_wf c nv s l :
  tmu_wf (-1) s l -> chan_ok c -> in_range 32 nv -> Z.land nv SH4_TCR_TPSC_MASK <= 4 ->
  (chan_accum (tmu_of s) c = 0 \/ Z.land nv SH4_TCR_TPSC_MASK = tpsc c s) ->
  tmu_wf (-1) (setr (chan_tcr c) nv s) l.
Proof.
  intros [Hok Hq Hf Hn Hev Ht Hp Hl Hs] Hc Hnv H4 Hor. pose proof (chan_regs c) as ((_ & [V1 V2] & _) & _).
  assert (E : forall d, chan_ok d -> tpsc d (setr (chan_tcr c) nv s) =
    if bool_decide (d = c) then Z.land nv SH4_TCR_TPSC_MASK else tpsc d s).
  { intros d Hd. unfold tpsc. case_bool_decide as Hdc; [subst d|].
    - by rewrite getr_setr_eq, wrap_small by (done || by split).
    - rewrite getr_setr_ne; [done|by apply chan_regs|done|]. apply not_eq_sym. by apply chan_regs_ne. }
  split; try done.
  - by apply setr_ok.
  - intros d Hd. rewrite E by done. case_bool_decide; [done|by apply Ht].
  - intros d Hd. unfold chan_div. rewrite E by done. case_bool_decide as Hdc; [subst d|by apply Hp].
    change (tmu_of (setr (chan_tcr c) nv s)) with (tmu_of s).
    destruct Hor as [->| ->]; [|by apply Hp]. split; [done|]. apply Z.pow_pos_nonneg; [done|].
    pose proof (land_range_r 3 nv SH4_TCR_TPSC_MASK ltac:(done) ltac:(by vm_compute)) as [? _]. lia.
Qed.

(** the bits of TCR that a write does not set leave its clock alone *)
Lemma tpsc_clear (b : bool) v m :
  Z.land m SH4_TCR_TPSC_MASK = 0 ->
  Z.land (if b then Z.ldiff v m else v) SH4_TCR_TPSC_MASK = Z.land v SH4_TCR_TPSC_MASK.
Proof.
  intros Hm. destruct b; [|done]. apply Z.bits_inj'. intros n Hn. rewrite !Z.land_spec, Z.ldiff_spec.
  apply (f_equal (fun x => Z.testbit x n)) in Hm. rewrite Z.land_spec, Z.bits_0 in Hm.
  by destruct (Z.testbit v n), (Z.testbit m n), (Z.testbit SH4_TCR_TPSC_MASK n).
Qed.
Lemma clear_range (b : bool) w v m : 0 <= w -> in_range w v -> in_range w (if b then Z.ldiff v m else v).
Proof.
  intros Hw Hv. destruct b; [|done]. apply in_range_bits; [done|]. intros n Hn.
  by rewrite Z.ldiff_spec, (in_range_testbit_high w v n).
Qed.
Lemma tpsc_u16 v : Z.land (u16 v) SH4_TCR_TPSC_MASK = Z.land v SH4_TCR_TPSC_MASK.
Proof. change SH4_TCR_TPSC_MASK with (Z.ones 3). rewrite !land_ones_wrap by lia. by rewrite wrap_wrap_le by lia. Qed.

Lemma tcr_write_inv c val s l :
  tmu_inv s l -> chan_ok c -> Z.land val SH4_TCR_TPSC_MASK <= 4 ->
  exists s' l', sh4_tmu_tcr_write_handler (chan_tcr c) val s = Ok (tt, s') /\ tmu_inv s' l'.
Proof.
  intros [Hwf Har] Hc H4. unfold sh4_tmu_tcr_write_handler. erewrite bind_ok by done.
  rewrite tcr_chan_tcr by done. destruct (sync_wf _ c s l Hwf Hc) as (s1 & R1 & Hsy & W1 & _ & K1).
  rewrite (bind_ok _ _ _ _ _ R1). set (nv1 := if _ && _ then Z.ldiff (u16 val) _ else u16 val).
  set (nv := if _ && _ then Z.ldiff nv1 _ else nv1).
  assert (Et : Z.land nv SH4_TCR_TPSC_MASK = Z.land val SH4_TCR_TPSC_MASK)
    by (unfold nv, nv1; by rewrite !tpsc_clear, tpsc_u16 by done).
  assert (Hnv : in_range 32 nv).
  { apply (in_range_weaken 16); [done|]. unfold nv, nv1. by repeat apply clear_range; [..|apply wrap_range]. }
  rewrite Et, tpsc_u16. fold (tpsc c s).
  set (s2 := if tpsc c s =? Z.land val SH4_TCR_TPSC_MASK then s1 else set_accum_0 c s1).
  assert (R2 : when (negb (tpsc c s =? Z.land val SH4_TCR_TPSC_MASK)) (set_chan_accum c 0) s1 = Ok (tt, s2))
    by (unfold s2; by destruct (_ =? _)).
  rewrite (bind_ok _ _ _ _ _ R2). erewrite bind_ok by done.
  assert (W2 : tmu_wf (-1) s2 l) by (unfold s2; destruct (_ =? _); [done|by apply set_accum_wf]).
  assert (K2 : forall d, chan_ok d -> d <> c -> armed d s2)
    by (intros d Hd Hne; unfold s2; destruct (_ =? _); [|apply set_accum_armed; [|done]]; by apply K1; auto).
  apply (tcr_set_wf c nv) in W2; [|done|done|by rewrite Et|].
  2: { rewrite Et. unfold s2. destruct (Z.eqb_spec (tpsc c s) (Z.land val SH4_TCR_TPSC_MASK)) as [E|E].
       - right. by rewrite (synced_tpsc c c s s1).
       - left. unfold set_accum_0. rewrite tmu_of_with_tmu. cbn. by rewrite fn_lookup_insert. }
  destruct (sync_resched c _ l W2 Hc) as (s3 & l3 & R3 & W3 & A3 & K3). exists s3, l3. split; [exact R3|].
  split; [done|]. intros d Hd. destruct (Z.eq_dec d c) as [->|Hne]; [done|]. apply K3; [done..|].
  pose proof (chan_regs c) as ((_ & [V _] & _) & _ & _ & _ & _ & N).
  apply setr_armed; [by apply K2|done|done|by apply chan_regs_ne|]. apply not_eq_sym. by apply chan_regs_ne.
Qed.

(** ** The operations *)

(** the accesses to the registers of a channel, and time that passes; TCOR has the default handler *)
Inductive tmu_op : Type :=
| ReadTCR (c : Z) | ReadTCNT (c : Z)
| WriteTCR (c val : Z) | WriteTCNT (c val : Z) | WriteTCOR (c val : Z) | WriteTSTR (val : Z)
| Wait (t : Z).

Definition run_op (op : tmu_op) : M (Sh4 W) unit :=
  match op with
  | ReadTCR c => sh4_tmu_tcr_read_handler (chan_tcr c) ;; ret tt
  | ReadTCNT c => sh4_tmu_tcnt_read_handler (chan_tcnt c) ;; ret tt
  | WriteTCR c val => sh4_tmu_tcr_write_handler (chan_tcr c) val
  | WriteTCNT c val => sh4_tmu_tcnt_write_handler (chan_tcnt c) val
  | WriteTCOR c val => reg_set (chan_tcor c) val
  | WriteTSTR val => sh4_tmu_tstr_write_handler val
  | Wait t => on_clk (modify (sched.clock_set_cycle_stamp t))
  end.

(** the operations that the CPU performs between two events *)
Definition op_ok (op : tmu_op) s l : Prop :=
  match op with
  | ReadTCR c | ReadTCNT c => chan_ok c /\ in_time c s
  | WriteTCR c val => chan_ok c /\ Z.land val SH4_TCR_TPSC_MASK <= 4
  | WriteTCNT c _ | WriteTCOR c _ => chan_ok c
  | WriteTSTR _ => True
  | Wait t => now s <= t < 2 ^ 63 /\ Forall (fun i => t <= stamp (events (clk_of s)) i) l
  end.

Lemma wait_inv t s l :
  tmu_inv s l -> now s <= t < 2 ^ 63 -> Forall (fun i => t <= stamp (events (clk_of s)) i) l ->
  tmu_inv (with_clk (sched.clock_set_cycle_stamp t (clk_of s)) s) l.
Proof.
  intros [[Hok Hq Hf Hn Hev Ht Hp Hl Hs] Har] Ht1 Ht2.
  destruct (set_cycle_frame t (clk_of s)) as (E1 & E2 & E3 & E4).
  set (s' := with_clk _ s). assert (Hclk : clk_of s' = sched.clock_set_cycle_stamp t (clk_of s)) by apply clk_of_with_clk.
  assert (Htmu : tmu_of s' = tmu_of s) by apply tmu_of_with_clk.
  assert (En : now s' = t) by (unfold now; by rewrite Hclk).
  split; [split|]; rewrite ?tmu_cycle_now, ?Htmu, ?En, ?Hclk, ?E2; try done.
  - by destruct Hok.
  - by eapply queue_ext.
  - lia.
  - intros c Hc. specialize (Hl c Hc). rewrite tmu_cycle_now in Hl. split; [lia|].
    trans (now s / TICK); [lia|]. apply Z.div_le_mono; [by vm_compute|lia].
  - intros c Hc. destruct (Har c Hc) as [A1 A2]. split; [by rewrite Htmu|]. intros Hen.
    unfold event_stamp, timer_of. rewrite Hclk, E2, Htmu. by apply A2.
Qed.

Lemma tcor_write_inv c val s l : tmu_inv s l -> chan_ok c -> tmu_inv (setr (chan_tcor c) val s) l.
Proof.
  intros [Hwf Har] Hc. pose proof (chan_regs c) as ((_ & _ & [V _]) & _).
  assert (N : forall d, chan_ok d -> chan_tcor c <> chan_tcr d /\ chan_tcor c <> chan_tcnt d /\ chan_tcor c <> SH4_REG_TSTR).
  { intros d. revert Hc. by intros [->|[->| ->]]%chan_cases [->|[->| ->]]%chan_cases; vm_compute. }
  split; [apply setr_wf; [done..|]|]; intros d Hd; [by apply N|]. by apply setr_armed; [apply Har|done|apply (N d Hd)..].
Qed.

Lemma read_inv c s l r :
  tmu_inv s l -> chan_ok c -> in_time c s ->
  exists s', (x <- (tmu_chan_sync c ;; reg_get r) ;; ret tt) s = Ok (tt, s') /\ tmu_inv s' l.
Proof.
  intros Hinv Hc Hin. destruct (sync_inv c s l Hinv Hc Hin) as (s' & Hr & Hinv' & _). exists s'. split; [|done].
  erewrite bind_ok; [|erewrite bind_ok by exact Hr; done]. done.
Qed.

(** C6: the timer unit's events stay exact from one event of the machine to the next.  The invariant
    [tmu_inv]: the event of a running channel is in the queue, at the stamp at which the channel's
    registers, accumulator and last synchronization put its next underflow; a stopped channel has no
    event; the flags [chan_event_scheduled] agree with the queue, so that no event is scheduled
    twice or cancelled without being scheduled.  From a state with the invariant, each of these
    operations succeeds and keeps it: a write of TCNT, TCOR or TSTR with any value; a write of
    TCR whose clock source is not reserved (TPSC at most 4); a read of TCR or TCNT, for a
    running channel only before the stamp of its underflow and while its accumulator plus the timer
    cycles since its last synchronization is less than 2^32 ([in_time]; beyond that the 32-bit accumulator
    loses cycles, see [tmu_underflow_lost]); and time that passes, up to the stamp of the next queued
    event and below 2^63.  The event itself is the subject of [tmu_period]. *)
Theorem tmu_events_exact op s l :
  tmu_inv s l -> op_ok op s l -> exists s' l', run_op op s = Ok (tt, s') /\ tmu_inv s' l'.
Proof.
  intros Hinv Hop. destruct op; cbn [op_ok run_op] in *.
  - destruct Hop as [Hc Hin]. unfold sh4_tmu_tcr_read_handler. rewrite tcr_chan_tcr by done.
    destruct (read_inv c s l (chan_tcr c) Hinv Hc Hin) as (s' & Hr & Hinv'). by exists s', l.
  - destruct Hop as [Hc Hin]. unfold sh4_tmu_tcnt_read_handler. rewrite tcnt_chan_tcnt by done.
    destruct (read_inv c s l (chan_tcnt c) Hinv Hc Hin) as (s' & Hr & Hinv'). by exists s', l.
  - destruct Hop. by apply (tcr_write_inv _ _ _ l).
  - by apply (tcnt_write_inv _ _ _ l).
  - eexists _, l. split; [done|]. by apply tcor_write_inv.
  - apply (tstr_write_inv _ _ l). by destruct Hinv.
  - destruct Hop. eexists _, l. split; [by apply on_clk_ok|]. by apply wait_inv.
Qed.

(** ** The event *)

Lemma unf_inv c b s l : tmu_inv s l -> tmu_inv (with_tmu (upd_unf c b (tmu_of s)) s) l.
Proof.
  intros [[Hok Hq Hf Hn Hev Ht Hp Hl Hs] Har].
  split; [split|]; unfold now in *; rewrite ?tmu_cycle_now in *; unfold now in *;
    rewrite ?tmu_of_with_tmu, ?clk_of_with_tmu; try done.
  - by destruct Hok.
  - intros d Hd. destruct (Har d Hd) as [A1 A2]. split; [by rewrite tmu_of_with_tmu|]. intros Hen.
    unfold event_stamp, timer_of. rewrite clk_of_with_tmu, tmu_of_with_tmu. by apply A2.
Qed.

Lemma unf_idem s r :
  regs_ok s -> valid_reg r -> truth (Z.land (getr r s) SH4_TCR_UNF_MASK) = true ->
  setr r (Z.lor (getr r s) SH4_TCR_UNF_MASK) s = s.
Proof.
  intros Hok Hr Hu. replace (Z.lor (getr r s) SH4_TCR_UNF_MASK) with (getr r s); [by apply setr_same|].
  apply Z.bits_inj'. intros n Hn. rewrite Z.lor_spec. change SH4_TCR_UNF_MASK with (2 ^ 8) in *.
  rewrite truth_land_bit in Hu by lia. rewrite Z.pow2_bits_eqb by lia.
  destruct (Z.eqb_spec 8 n) as [<-|]; [by rewrite Hu|by rewrite orb_false_r].
Qed.

(** C25: the timer's period is exact.  When the event of a running channel comes up, at its stamp and
    with the event taken out of the queue, the handler reloads the count from TCOR, sets the
    underflow flag, schedules the next event [(TCOR + 1) * div] TMU cycles later, and raises the
    channel's interrupt if it is enabled; before it does so, the events of all channels are exact
    again.  (The accumulator must not overflow on the way, see [tmu_underflow_lost].) *)
Theorem tmu_period c s l :
  tmu_wf c s l -> chan_ok c -> tmu_chan_event c ∉ l -> chan_enabled c s = true ->
  (forall d, chan_ok d -> armed d s) -> now s = event_stamp c s ->
  chan_accum (tmu_of s) c + elapsed c s < 2 ^ 32 ->
  exists s1 l1, tmu_chan_event_handler c s = when (chan_int_enabled c s) (chan_raise_int c) s1 /\
    tmu_inv s1 l1 /\ timer_of c s1 = {| count := tcor_of c s; phase := 0; underflow := true |} /\
    event_stamp c s1 = now s + (tcor_of c s + 1) * chan_div c s * TICK.
Proof.
  intros Hwf Hc Hni Hen Har Hnow Hov. destruct (Har c Hc) as [A1 A2]. specialize (A2 Hen).
  destruct (sync_wf c c s l Hwf Hc) as (s1 & R1 & Hsy & W1 & Hl1 & K1).
  pose proof (wf_last _ _ _ Hwf c Hc) as Hla. rewrite <- Hnow in A2.
  assert (HT : 0 < TICK) by by vm_compute.
  assert (Ecy : tmu_cycle_stamp s = stamp_last_sync (tmu_of s) c + until_underflow (chan_div c s) (timer_of c s)).
  { rewrite tmu_cycle_now, A2. by rewrite Z.div_mul by lia. }
  assert (Htk : timer_ok (chan_div c s) (timer_of c s))
    by (split; [by apply getr_range; destruct Hwf|by apply Hwf]).
  pose proof Hsy as [Hok1 Hclk1 _ _ _ _ Htcr1 _ _ Hon]. destruct (Hon Hen Htk) as [Ht1 Hu1]; [unfold elapsed; lia|done|].
  specialize (Hu1 ltac:(unfold elapsed; lia)).
  rewrite ticks_underflow in Ht1 by (done || unfold elapsed; lia).
  destruct (sched_next_wf c s1 l W1 Hc Hni) as (s2 & l2 & R2 & W2 & Hch & Ha2). specialize (Ha2 Hl1).
  destruct (event_changed_views c c s1 s2 Hch) as (E1 & E2 & E3 & E4).
  set (s3 := with_tmu (upd_unf c false (tmu_of s2)) s2).
  assert (I2 : tmu_inv s2 l2).
  { split; [done|]. intros d Hd. destruct (Z.eq_dec d c) as [->|Hne]; [done|].
    apply (event_changed_armed c d s1 s2); auto. }
  assert (Ht3 : timer_of c s3 = timer_of c s1).
  { rewrite <- E3. unfold timer_of, s3. by rewrite tmu_of_with_tmu. }
  assert (Hu3 : setr (chan_tcr c) (Z.lor (getr (chan_tcr c) s3) SH4_TCR_UNF_MASK) s3 = s3).
  { apply unf_idem; [by destruct (unf_inv c false s2 l2 I2) as [[]]|by apply chan_regs|].
    change (underflow (timer_of c s3) = true). by rewrite Ht3, Ht1. }
  exists s3, l2. split; [|split; [by apply unf_inv|split; [by rewrite Ht3, Ht1|]]].
  - unfold tmu_chan_event_handler. rewrite (bind_ok _ _ _ _ _ R1), (bind_ok _ _ _ _ _ R2).
    erewrite bind_ok by done. rewrite (ec_unf _ _ _ Hch), Hu1. do 4 erewrite bind_ok by done. fold s3. rewrite Hu3.
    assert (Eie : chan_int_enabled c s3 = chan_int_enabled c s); [|by rewrite Eie].
    unfold chan_int_enabled. rewrite <- (ldiff_land _ _ SH4_TCR_UNIE_MASK eq_refl Htcr1). unfold getr, s3. cbn [with_tmu with_world reg].
    by rewrite (ec_reg _ _ _ Hch).
  - unfold event_stamp, s3. rewrite clk_of_with_tmu. fold (event_stamp c s2).
    rewrite (ar_stamp _ _ Ha2) by by rewrite E1, (synced_enabled c c s s1).
    rewrite E3, Ht1, (ec_last _ _ _ Hch), Hl1. destruct (synced_now c s s1 Hsy) as [_ ->].
    unfold chan_div. rewrite E2, (synced_tpsc c c s s1) by done. fold (chan_div c s).
    unfold until_underflow. cbn [count phase]. rewrite A2, Ecy. lia.
Qed.

(** ** Time that is counted wrongly *)

(** a long wait is lost.  [chan_accum] has 32 bits; a channel that counts from 0xffffffff reaches
    its underflow after a multiple of [2^32] TMU cycles, so that, unless it was synchronized on the way,
    [tmu_chan_sync] at the time of the underflow event finds nothing to count: the count stays,
    and neither the underflow flag nor [chan_unf] is set, while a ticking timer has underflowed. *)
Theorem tmu_underflow_lost c s :
  regs_ok s -> tpsc c s <= 4 -> chan_enabled c s = true -> 0 <= chan_accum (tmu_of s) c < chan_div c s ->
  getr (chan_tcnt c) s = 0xffffffff -> elapsed c s = until_underflow (chan_div c s) (timer_of c s) ->
  underflow (ticks (chan_div c s) (tcor_of c s) (Z.to_nat (elapsed c s)) (timer_of c s)) = true /\
  exists s', tmu_chan_sync c s = Ok (tt, s') /\ getr (chan_tcnt c) s' = 0xffffffff /\
    underflow (timer_of c s') = underflow (timer_of c s) /\ chan_unf (tmu_of s') c = chan_unf (tmu_of s) c.
Proof.
  intros Hok Ht Hen Hp Hn He. pose proof (chan_div_range c s Ht) as Hd.
  pose proof (until_small c s Hok Ht (proj1 Hp)) as Hu.
  assert (Hu1 : until_underflow (chan_div c s) (timer_of c s) = 2 ^ 32 * chan_div c s - chan_accum (tmu_of s) c)
    by (unfold until_underflow; cbn [count phase timer_of]; rewrite Hn; lia).
  split.
  { rewrite ticks_underflow; [done| |lia]. split; [by apply getr_range|done]. }
  unfold tmu_chan_sync. do 3 erewrite bind_ok by done. rewrite elapsed_wrap by lia.
  replace (elapsed c s =? 0) with false by lia. erewrite bind_ok by done.
  set (s1 := with_tmu (upd_last c (tmu_cycle_stamp s) (tmu_of s)) s).
  change (chan_enabled c s1) with (chan_enabled c s). rewrite Hen. cbn [negb].
  rewrite (bind_ok _ _ _ _ _ (chan_clock_div_ok c s1 Ht)). change (chan_div c s1) with (chan_div c s).
  do 3 erewrite bind_ok by done. unfold s1. rewrite !tmu_of_with_tmu. cbn [chan_accum upd_accum upd_last].
  rewrite fn_lookup_insert, He, Hu1.
  replace (chan_accum (tmu_of s) c + (2 ^ 32 * chan_div c s - chan_accum (tmu_of s) c)) with (chan_div c s * 2 ^ 32) by lia.
  assert (E0 : u32 (chan_div c s * 2 ^ 32) = 0) by (apply Z.mod_mul; lia). rewrite E0.
  replace (0 >=? chan_div c s) with false by lia. eexists. split; [done|]. split; [exact Hn|]. split; [done|].
  by rewrite tmu_of_with_tmu.
Qed.

Lemma tstr_chan_skip c s : getr SH4_REG_TSTR s = 0 -> tstr_chan c SH4_TSTR_CHAN0_MASK 1 s = Ok (tt, s).
Proof. intros E. unfold tstr_chan. erewrite bind_ok by done. by rewrite E. Qed.

(** what the loop at the end of the handler does to the count of another channel *)
Lemma sync_resched_timer c d s l :
  tmu_wf (-1) s l -> chan_ok c -> chan_ok d ->
  exists s' l', (tmu_chan_sync c ;; chan_resched c) s = Ok (tt, s') /\ tmu_wf (-1) s' l' /\
    (d <> c -> timer_of d s' = timer_of d s) /\ chan_enabled d s' = chan_enabled d s /\
    exists s1, synced c s s1 /\ timer_of c s' = timer_of c s1.
Proof.
  intros Hwf Hc Hd. destruct (sync_wf _ c s l Hwf Hc) as (s1 & Hr1 & Hsy & Hwf1 & Hl1 & _).
  erewrite bind_ok by exact Hr1. destruct (resched_wf c s1 l Hwf1 Hc Hl1) as (s2 & l2 & Hr2 & Hwf2 & Hch & _).
  assert (E : forall d, timer_of d s2 = timer_of d s1)
    by (intros d'; by destruct (event_changed_views c d' s1 s2 Hch) as (_ & _ & ? & _)).
  exists s2, l2. split; [done|]. split; [done|]. split; [|split; [|by exists s1]].
  - intros Hne. by rewrite E, (synced_timer c d s s1).
  - destruct (event_changed_views c d s1 s2 Hch) as (-> & _). by apply (synced_enabled c).
Qed.

(** the time before a channel is started is counted.  The comparison that decides which channels
    are synchronized before TSTR changes ([!a ^ b] in place of [a ^ b]) skips a channel exactly when
    its bit changes; so when channel 0 is started, the count that it has directly afterwards is
    that of a timer that was running since the last access to its registers. *)
Theorem tmu_start_counts_idle s l :
  tmu_wf (-1) s l -> getr SH4_REG_TSTR s = 0 ->
  elapsed 0 s <= until_underflow (chan_div 0 s) (timer_of 0 s) -> chan_accum (tmu_of s) 0 + elapsed 0 s < 2 ^ 32 ->
  exists s' l', sh4_tmu_tstr_write_handler 1 s = Ok (tt, s') /\ tmu_inv s' l' /\ chan_enabled 0 s' = true /\
    timer_of 0 s' = ticks (chan_div 0 s) (tcor_of 0 s) (Z.to_nat (elapsed 0 s)) (timer_of 0 s).
Proof.
  intros Hwf H0 Hel Hov. assert (K0 : chan_ok 0) by (unfold chan_ok; lia). assert (K1 : chan_ok 1) by (unfold chan_ok; lia).
  assert (K2 : chan_ok 2) by (unfold chan_ok; lia).
  destruct (tstr_write_inv 1 s l Hwf) as (s' & l' & Hrun & Hinv). exists s', l'. split; [done|]. split; [done|].
  revert Hrun. unfold sh4_tmu_tstr_write_handler. change (Z.land (u8 1) 7) with 1.
  do 3 rewrite (bind_ok _ _ _ _ _ (tstr_chan_skip _ s H0)). erewrite bind_ok by done.
  set (s1 := setr SH4_REG_TSTR 1 s).
  assert (W1 : tmu_wf (-1) s1 l).
  { apply setr_wf; [done|by vm_compute|]. intros c Hc. pose proof (chan_regs c) as (_ & _ & _ & _ & _ & N). congruence. }
  destruct (sync_resched_timer 0 0 s1 l W1 K0 K0) as (s2 & l2 & R2 & W2 & _ & En2 & s1' & Hsy & E2).
  destruct (sync_resched_timer 1 0 s2 l2 W2 K1 K0) as (s3 & l3 & R3 & W3 & E3 & En3 & _).
  destruct (sync_resched_timer 2 0 s3 l3 W3 K2 K0) as (s4 & l4 & R4 & W4 & E4 & En4 & _).
  rewrite (bind_ok _ _ _ _ _ R2), (bind_ok _ _ _ _ _ R3), R4. intros [= <-].
  assert (Hen : chan_enabled 0 s1 = true).
  { unfold chan_enabled, s1. rewrite getr_setr_eq; [done|by destruct Hwf|by vm_compute]. }
  split; [by rewrite En4, En3, En2|]. rewrite E4, E3, E2 by done.
  assert (G : forall r, 0 <= r -> r <> SH4_REG_TSTR -> getr r s1 = getr r s)
    by (intros r Hr Hne; apply getr_setr_ne; [done|by vm_compute|done]).
  assert (Et : timer_of 0 s1 = timer_of 0 s) by (unfold timer_of; by rewrite !G by by vm_compute).
  assert (Ed : chan_div 0 s1 = chan_div 0 s) by (unfold chan_div, tpsc; by rewrite G by by vm_compute).
  assert (Ec : tcor_of 0 s1 = tcor_of 0 s) by (unfold tcor_of; by rewrite G by by vm_compute).
  pose proof (wf_last _ _ _ Hwf 0 K0) as Hla. destruct (sy_on _ _ _ Hsy Hen) as [Htk _].
  - split; [by apply getr_range; destruct W1|by apply (wf_phase _ _ _ W1)].
  - rewrite Et, Ed. change (elapsed 0 s1) with (elapsed 0 s). unfold elapsed in *. lia.
  - exact Hov.
  - rewrite Htk, Et, Ed, Ec. done.
Qed.
End events.

(** ** A board with a timer unit *)
Record tmu_board : Type := { tmb_ram : memory.Memory; tmb_clk : dc_clock; tmb_tmu : sh4_tmu }.

#[export] Instance tmu_machine : Machine tmu_board := {|
  mem_map := memory_map.memory_map_init;
  sched_refresh_intc := fun w => Ok w;
  dc_debugger_enabled := fun _ => false;
  debug_on_softbreak := fun _ _ => ret tt;
  fpu_inst := fun _ _ => raise ERROR_UNIMPLEMENTED
|}.

#[export] Instance tmu_board_world : TmuWorld tmu_board := {|
  tmu := tmb_tmu;
  set_tmu t w := {| tmb_ram := tmb_ram w; tmb_clk := tmb_clk w; tmb_tmu := t |};
  clk := tmb_clk;
  set_clk c w := {| tmb_ram := tmb_ram w; tmb_clk := c; tmb_tmu := tmb_tmu w |};
  tmu_chan_event c := 1 + c
|}.

#[export] Instance tmu_board_laws : TmuWorldLaws tmu_board.
Proof. split; try done. cbn. lia. Qed.

(** channel 0 runs, from [n] down, since the stamp 0; the event is not in the queue *)
Definition tmu_cpu (tstr n t : Z) : Sh4 tmu_board :=
  {| reg := reg (cpu_with [(SH4_REG_TSTR, tstr); (SH4_REG_TCNT0, n); (SH4_REG_TCOR0, 9);
                           (SH4_REG_TCR0, 0x20)] ∅);
     delayed_branch := false; delayed_branch_addr := 0; exec_state := SH4_EXEC_STATE_NORM;
     last_inst_type := SH4_GROUP_NONE; aborted_operation := false; sq := replicate 16 0;
     intc := idle_intc; fround := FE_TONEAREST;
     world := {| tmb_ram := ∅;
                 tmb_clk := clock_set_cycle_stamp t
                   (dc_clock_init (list_to_map [(1, unlinked ((n + 1) * 4 * TICK)); (2, unlinked 0); (3, unlinked 0)]));
                 tmb_tmu := {| stamp_last_sync := fun _ => 0; chan_accum := fun _ => 0;
                               chan_event_scheduled := fun c => (c =? 0) && (tstr =? 1);
                               chan_unf := fun _ => false |} |} |}.

Lemma tmu_cpu_ok tstr n t : in_range 32 tstr -> in_range 32 n -> regs_ok (tmu_cpu tstr n t).
Proof.
  intros H1 H2. split; [done|]. unfold tmu_cpu, cpu_with, fold_left. cbn [reg].
  repeat (apply Forall_insert; [|by unfold in_range]). apply list.Forall_replicate. by unfold in_range.
Qed.

Lemma tmu_cpu_wf n t :
  in_range 32 n -> 0 <= t < 2 ^ 63 -> tmu_wf 0 (tmu_cpu 1 n t) [] /\ tmu_wf (-1) (tmu_cpu 0 n t) [].
Proof.
  intros Hn Ht. assert (Hq : forall k, queue (clk_of (tmu_cpu k n t)) []) by (by repeat split; constructor).
  assert (Hl : 0 <= t / TICK) by (apply Z.div_pos; [lia|by vm_compute]).
  split; split; try done; try (by apply tmu_cpu_ok); try (by constructor).
  all: try (intros c [->|[->| ->]]%chan_cases; by vm_compute).
  all: try (intros c Hc; rewrite tmu_cycle_now; exact (conj (Z.le_refl 0) Hl)).
  all: intros c [->|[->| ->]]%chan_cases; try done; intros _; vm_compute; split; try done; inversion 1.
Qed.

Lemma tmu_sync_ticks_witness :
  exists s', tmu_chan_sync 0 (tmu_cpu 1 5 (10 * TICK)) = Ok (tt, s') /\
    timer_of 0 s' = {| count := 3; phase := 2; underflow := false |}.
Proof.
  destruct (tmu_sync_ticks 0 (tmu_cpu 1 5 (10 * TICK))) as (s' & Hr & Ht & _);
    [by apply tmu_cpu_ok|by vm_compute..|]. exists s'. split; [exact Hr|]. rewrite Ht. by vm_compute.
Defined.

(** channel 0 is started, and its event scheduled *)
Lemma tmu_events_exact_witness :
  exists s' l', run_op (WriteTSTR 1) (tmu_cpu 0 5 0) = Ok (tt, s') /\ tmu_inv s' l' /\ l' = [1] /\
    chan_event_scheduled (tmu_of s') 0 = true.
Proof.
  destruct (tmu_events_exact (WriteTSTR 1) (tmu_cpu 0 5 0) []) as (s' & l' & Hr & Hinv).
  - split; [by apply tmu_cpu_wf|]. by intros c [->|[->| ->]]%chan_cases; split.
  - done.
  - exists s', l'. split; [exact Hr|]. split; [exact Hinv|].
    assert (Hq : queue (clk_of s') l') by by destruct Hinv as [[]].
    assert (E : (fun s => (ev_next_priv (clk_of s), next_event <$> events (clk_of s) !! 1,
        chan_event_scheduled (tmu_of s) 0)) ∘ snd <$> (match run_op (WriteTSTR 1) (tmu_cpu 0 5 0) with
        Ok x => Some x | Err _ => None end) = Some (Some 1, Some None, true)) by by vm_compute.
    rewrite Hr in E. cbn in E. injection E as E1 E2 E3. split; [|done].
    destruct Hq as (Hh & Hl & _). destruct l' as [|i [|j l']]; cbn in *; try congruence.
    exfalso. destruct Hl as [(ev & He & _ & Hn) _]. rewrite E1 in Hh. injection Hh as <-. rewrite He in E2. cbn in E2. congruence.
Defined.

(** after 24 TMU cycles channel 0 has counted 5, 4, 3, 2, 1 and 0, and interrupts *)
Lemma tmu_period_witness :
  exists s1 l1, tmu_chan_event_handler 0 (tmu_cpu 1 5 (24 * TICK)) = chan_raise_int 0 s1 /\ tmu_inv s1 l1 /\
    timer_of 0 s1 = {| count := 9; phase := 0; underflow := true |} /\ event_stamp 0 s1 = (24 + 10 * 4) * TICK.
Proof.
  destruct (tmu_period 0 (tmu_cpu 1 5 (24 * TICK)) []) as (s1 & l1 & Hr & Hinv & Ht & He).
  - apply tmu_cpu_wf; [by unfold in_range|by vm_compute].
  - by unfold chan_ok.
  - inversion 1.
  - done.
  - by intros c [->|[->| ->]]%chan_cases; split.
  - by vm_compute.
  - by vm_compute.
  - exists s1, l1. split_and!; [exact Hr|exact Hinv|exact Ht|rewrite He; by vm_compute].
Defined.

Lemma tmu_underflow_lost_witness :
  exists s', tmu_chan_sync 0 (tmu_cpu 1 0xffffffff (2 ^ 34 * TICK)) = Ok (tt, s') /\
    getr SH4_REG_TCNT0 s' = 0xffffffff /\ underflow (timer_of 0 s') = false /\ chan_unf (tmu_of s') 0 = false.
Proof.
  destruct (tmu_underflow_lost 0 (tmu_cpu 1 0xffffffff (2 ^ 34 * TICK))) as (_ & s' & Hr & Hc & Hu & Hf);
    [by apply tmu_cpu_ok|by vm_compute..|]. exists s'. split_and!; [exact Hr|exact Hc|exact Hu|exact Hf].
Defined.

(** started after 400 TMU cycles, the count is no longer 1000 *)
Lemma tmu_start_counts_idle_witness :
  exists s' l', sh4_tmu_tstr_write_handler 1 (tmu_cpu 0 1000 (400 * TICK)) = Ok (tt, s') /\ tmu_inv s' l' /\
    chan_enabled 0 s' = true /\ timer_of 0 s' = {| count := 900; phase := 0; underflow := false |}.
Proof.
  change {| count := 900; phase := 0; underflow := false |} with
    (ticks (chan_div 0 (tmu_cpu 0 1000 (400 * TICK))) (tcor_of 0 (tmu_cpu 0 1000 (400 * TICK)))
       (Z.to_nat (elapsed 0 (tmu_cpu 0 1000 (400 * TICK)))) (timer_of 0 (tmu_cpu 0 1000 (400 * TICK)))).
  apply (tmu_start_counts_idle (tmu_cpu 0 1000 (400 * TICK)) []); [|by vm_compute..].
  apply tmu_cpu_wf; [by unfold in_range|by vm_compute].
Defined.
