(* ===== verification/Mmio.v ===== *)
(** Device register spaces (src/libwashdc/mmio.h): the macros [DECL_MMIO_REGION] and
    [DEF_MMIO_REGION], which give each device an array of cells with a read and a write handler
    and a backing array.

    The section's variables are the macro's arguments [len_bytes], [beg_bytes] and [sizeof(type)],
    and the accessors of the backing array in the machine's state.  The handlers' context pointer
    is part of the state; the cells' names are only for messages. *)
From stdpp Require Import gmap.
From S2P Require Import Prelude.

Section mmio.
Context {St : Type}.

(** [struct mmio_region_##name]: the arrays [on_read] and [on_write] *)
Record mmio_region : Type := {
  on_read : list (Z -> M St Z);
  on_write : list (Z -> Z -> M St unit)
}.

Context (len_bytes beg_bytes sizeof_type : Z).
Context (backing : St -> list Z) (set_backing : list Z -> St -> St).

Definition n_cells : nat := Z.to_nat (len_bytes / sizeof_type).
Definition cell_idx (addr : Z) : Z := u32 (addr - beg_bytes) / sizeof_type.

(** an index outside the arrays is undefined *)
Definition mmio_region_read (region : mmio_region) (addr : Z) : M St Z :=
  let idx := cell_idx addr in
  match on_read region !! Z.to_nat idx with
  | Some handler => handler idx
  | None => raise C_UNDEFINED
  end.

Definition mmio_region_write (region : mmio_region) (addr val : Z) : M St unit :=
  let idx := cell_idx addr in
  match on_write region !! Z.to_nat idx with
  | Some handler => handler idx val
  | None => raise C_UNDEFINED
  end.

(** ** The stock handlers *)
Definition mmio_region_read_error (idx : Z) : M St Z := raise ERROR_UNIMPLEMENTED.
Definition mmio_region_write_error (idx val : Z) : M St unit := raise ERROR_UNIMPLEMENTED.
Definition mmio_region_readonly_write_error (idx val : Z) : M St unit := raise ERROR_UNIMPLEMENTED.
Definition mmio_region_writeonly_read_error (idx : Z) : M St Z := raise ERROR_UNIMPLEMENTED.

Definition mmio_region_silent_read_handler (idx : Z) : M St Z :=
  fun s => match backing s !! Z.to_nat idx with
           | Some v => Ok (v, s)
           | None => Err C_UNDEFINED
           end.
Definition mmio_region_silent_write_handler (idx val : Z) : M St unit :=
  fun s => match backing s !! Z.to_nat idx with
           | Some _ => Ok (tt, set_backing (<[Z.to_nat idx := val]> (backing s)) s)
           | None => Err C_UNDEFINED
           end.
(** these also write a message *)
Definition mmio_region_warn_read_handler (idx : Z) : M St Z := mmio_region_silent_read_handler idx.
Definition mmio_region_warn_write_handler (idx val : Z) : M St unit := mmio_region_silent_write_handler idx val.

(** ** Construction *)
Definition init_mmio_region : mmio_region :=
  {| on_read := replicate n_cells mmio_region_read_error; on_write := replicate n_cells mmio_region_write_error |}.

Definition mmio_region_init_cell (addr : Z) (rd : Z -> M St Z) (wr : Z -> Z -> M St unit)
    : M mmio_region unit :=
  fun region =>
    let idx := Z.to_nat (cell_idx addr) in
    match on_read region !! idx with
    | Some _ => Ok (tt, {| on_read := <[idx := rd]> (on_read region); on_write := <[idx := wr]> (on_write region) |})
    | None => Err C_UNDEFINED
    end.

(** a sequence of calls of [mmio_region_init_cell] *)
Definition mmio_cell : Type := Z * (Z -> M St Z) * (Z -> Z -> M St unit).
Fixpoint init_cells (cells : list mmio_cell) : M mmio_region unit :=
  match cells with
  | [] => ret tt
  | (addr, rd, wr) :: rest => mmio_region_init_cell addr rd wr ;; init_cells rest
  end.

(** ** What an access reaches *)
Definition reaches (addr : Z) (c : mmio_cell) : bool := cell_idx addr =? cell_idx (fst (fst c)).
Definition in_region (addr : Z) : Prop := (Z.to_nat (cell_idx addr) < n_cells)%nat.

(** the handlers of a cell: those of the last call for it, or the ones that raise an error *)
Definition cell_handlers (cells : list mmio_cell) (addr : Z) : (Z -> M St Z) * (Z -> Z -> M St unit) :=
  match List.find (reaches addr) (reverse cells) with
  | Some (_, rd, wr) => (rd, wr)
  | None => (mmio_region_read_error, mmio_region_write_error)
  end.

Definition region_of (cells : list mmio_cell) (region : mmio_region) : Prop :=
  length (on_read region) = n_cells /\ length (on_write region) = n_cells /\
  forall addr, in_region addr ->
    on_read region !! Z.to_nat (cell_idx addr) = Some (fst (cell_handlers cells addr)) /\
    on_write region !! Z.to_nat (cell_idx addr) = Some (snd (cell_handlers cells addr)).

Lemma cell_idx_nonneg addr : 0 < sizeof_type -> 0 <= cell_idx addr.
Proof. intros H. apply Z.div_pos; [|done]. apply (wrap_range 32); lia. Qed.

Lemma init_region_of : region_of [] init_mmio_region.
Proof.
  split_and!; [apply length_replicate..|]. intros addr Ha. cbn.
  split; by apply lookup_replicate_2.
Qed.

Lemma init_cell_ok cells region addr rd wr :
  0 < sizeof_type -> in_region addr -> region_of cells region ->
  exists region', mmio_region_init_cell addr rd wr region = Ok (tt, region') /\
    region_of (cells ++ [(addr, rd, wr)]) region'.
Proof.
  intros Hs Ha (Hr & Hw & Hc). unfold mmio_region_init_cell. destruct (Hc addr Ha) as [-> _].
  eexists. split; [reflexivity|]. split_and!; [cbn; by rewrite length_insert..|]. cbn [on_read on_write].
  intros b Hb. unfold cell_handlers. rewrite reverse_app. cbn [reverse rev_append app List.find].
  change (reverse [(addr, rd, wr)]) with [(addr, rd, wr)]. cbn [app List.find]. unfold reaches at 1 3. cbn [fst].
  destruct (Z.eqb_spec (cell_idx b) (cell_idx addr)) as [->|Hne].
  - unfold in_region in Ha. by rewrite !list_lookup_insert_eq by lia.
  - pose proof (cell_idx_nonneg addr Hs). pose proof (cell_idx_nonneg b Hs).
    rewrite !list_lookup_insert_ne by lia. by apply Hc.
Qed.

Lemma init_cells_ok cells : 0 < sizeof_type -> Forall (fun c : mmio_cell => in_region (fst (fst c))) cells ->
  exists region, init_cells cells init_mmio_region = Ok (tt, region) /\ region_of cells region.
Proof.
  intros Hs Hin.
  assert (Hgen : forall done region, region_of done region ->
            exists region', init_cells cells region = Ok (tt, region') /\ region_of (done ++ cells) region').
  { induction Hin as [|[[addr rd] wr] rest Ha _ IH]; intros done region Hd; cbn [init_cells].
    { exists region. by rewrite app_nil_r. }
    destruct (init_cell_ok done region addr rd wr Hs Ha Hd) as (r1 & H1 & Hd1).
    rewrite (bind_ok _ _ _ _ _ H1). destruct (IH _ _ Hd1) as (r2 & H2 & Hd2).
    exists r2. split; [done|]. by rewrite <- app_assoc in Hd2. }
  exact (Hgen [] init_mmio_region init_region_of).
Qed.

Lemma region_access cells region addr :
  region_of cells region -> in_region addr ->
  mmio_region_read region addr = fst (cell_handlers cells addr) (cell_idx addr) /\
  forall v, mmio_region_write region addr v = snd (cell_handlers cells addr) (cell_idx addr) v.
Proof.
  intros (_ & _ & Hc) Ha. destruct (Hc addr Ha) as [H1 H2]. unfold mmio_region_read, mmio_region_write.
  by rewrite H1, H2.
Qed.
End mmio.
Arguments mmio_region St : clear implicits.
