(* ===== verification/Frame.v ===== *)
(** What a computation leaves alone: [preserves R m] says that [m], where it succeeds, relates the
    states before and after by the preorder [R]; the rules follow the structure of the program, and
    the tactic [frame] applies them. *)
From stdpp Require Import base tactics.
From S2P Require Import Prelude.

Section frame.
Context {St : Type} (R : St -> St -> Prop) {PR : PreOrder R}.

Definition preserves {A} (m : M St A) : Prop := forall s a s', m s = Ok (a, s') -> R s s'.

Lemma preserves_ret {A} (a : A) : preserves (ret a).
Proof. intros s b s' [= _ <-]. reflexivity. Qed.

Lemma preserves_raise {A} e : preserves (A := A) (raise e).
Proof. by intros s a s'. Qed.

Lemma preserves_gets {A} (f : St -> A) : preserves (gets f).
Proof. intros s a s' [= _ <-]. reflexivity. Qed.

Lemma preserves_modify f : (forall s, R s (f s)) -> preserves (modify f).
Proof. intros Hf s a s' [= _ <-]. apply Hf. Qed.

Lemma preserves_bind {A B} (m : M St A) (k : A -> M St B) :
  preserves m -> (forall a, preserves (k a)) -> preserves (bind m k).
Proof.
  intros Hm Hk s b s' H. apply bind_inv in H as (a & s1 & H1 & H2). etransitivity; [by eapply Hm|by eapply Hk].
Qed.

Lemma preserves_when b (m : M St unit) : preserves m -> preserves (when b m).
Proof. destruct b; [done|]. intros _. apply preserves_ret. Qed.
End frame.

Create HintDb frame.
#[export] Hint Resolve preserves_ret preserves_raise preserves_gets : frame.

Ltac frame_step :=
  lazymatch goal with
  | |- preserves _ (bind _ _) => apply preserves_bind; [typeclasses eauto| |intros ?]
  | |- preserves _ (when _ _) => apply preserves_when; [typeclasses eauto|]
  | |- preserves _ (if ?b then _ else _) => destruct b
  | |- preserves _ (match ?x with _ => _ end) => destruct x
  | |- preserves _ (modify _) => apply preserves_modify; intros ?
  | |- _ => solve [eauto with frame typeclass_instances]
  end.
Ltac frame := cbn zeta; repeat frame_step.
