(* ===== verification/Sh4Irl.v ===== *)
(** The CPU's encoded interrupt pins: what [sh4_set_irl_interrupt] (src/libwashdc/hw/sh4/sh4_excp.c)
    does for the board's interrupt controller, in terms of the arbitration and the entry of
    [Sh4Excp]: a level above the CPU's mask and above the other requests is taken at once. *)
From stdpp Require Import gmap.
From S2P Require Import Prelude IntMath MemoryMap Memory Sh4State Board Sh4Core Sh4Excp Sh4Exec Frame.

Section irl.
Context {W : Type} {CFG : BuildConfig} {MCH : Machine W}.
(** what the scheduler needs to queue the deferred refresh: the first argument says whether it is
    queued already *)
Context (J : bool -> W -> Prop).
Implicit Types s : Sh4 W.

Definition lines_ok s : Prop := length (irq_lines (intc s)) = Z.to_nat SH4_IRQ_COUNT.
Definition irl_bit (irl n : Z) : bool := truth (Z.land (not32 irl) n).

(** the lines after [set_irl_lines] *)
Definition irl_lines (irl : Z) (l : list Z) : list Z :=
  let put i code b l := <[Z.to_nat i := if b : bool then code else 0]> l in
  put SH4_IRQ_IRL3 SH4_EXCP_IRL3 (irl_bit irl 8)
    (put SH4_IRQ_IRL2 SH4_EXCP_IRL2 (irl_bit irl 4)
       (put SH4_IRQ_IRL1 SH4_EXCP_IRL1 (irl_bit irl 2)
          (put SH4_IRQ_IRL0 SH4_EXCP_IRL0 (irl_bit irl 1) l))).
Definition with_lines (l : list Z) s : Sh4 W :=
  with_intc {| irq_lines := l; is_irq_pending := is_irq_pending (intc s); pending_irq := pending_irq (intc s);
               refresh_intc_event_scheduled := refresh_intc_event_scheduled (intc s) |} s.

Lemma set_irl_lines_eq irl s : set_irl_lines irl s = Ok (tt, with_lines (irl_lines irl (irq_lines (intc s))) s).
Proof. reflexivity. Qed.

Lemma irl_lines_val irl s :
  lines_ok s -> 0 <= irl < 16 ->
  let s1 := with_lines (irl_lines irl (irq_lines (intc s))) s in
  lines_ok s1 /\ irl_val s1 = irl /\ forall l, 0 <= l <= SH4_IRQ_GPIO -> irq_line s1 l = irq_line s l.
Proof.
  intros Hl Hirl s1. assert (Hlen : length (irq_lines (intc s)) = 16%nat) by exact Hl.
  split_and!.
  - unfold lines_ok, s1, with_lines, irl_lines. cbn [intc with_intc irq_lines]. by rewrite !length_insert.
  - assert (H : irq_line s1 SH4_IRQ_IRL0 = (if irl_bit irl 1 then SH4_EXCP_IRL0 else 0) /\
                irq_line s1 SH4_IRQ_IRL1 = (if irl_bit irl 2 then SH4_EXCP_IRL1 else 0) /\
                irq_line s1 SH4_IRQ_IRL2 = (if irl_bit irl 4 then SH4_EXCP_IRL2 else 0) /\
                irq_line s1 SH4_IRQ_IRL3 = (if irl_bit irl 8 then SH4_EXCP_IRL3 else 0)).
    { unfold irq_line, s1, with_lines, irl_lines. cbn [intc with_intc irq_lines]. rewrite !nth_lookup.
      unfold SH4_IRQ_IRL0, SH4_IRQ_IRL1, SH4_IRQ_IRL2, SH4_IRQ_IRL3.
      split_and!; repeat (rewrite list_lookup_insert_ne by lia);
        rewrite list_lookup_insert_eq by (rewrite ?length_insert; lia); done. }
    destruct H as (H0 & H1 & H2 & H3). unfold irl_val. rewrite H0, H1, H2, H3.
    assert (Hin : In irl [0;1;2;3;4;5;6;7;8;9;10;11;12;13;14;15]) by (cbn; lia).
    cbn in Hin. repeat destruct Hin as [<-|Hin]; try reflexivity. done.
  - intros l Hr. unfold irq_line, s1, with_lines, irl_lines. cbn [intc with_intc irq_lines]. rewrite !nth_lookup.
    unfold SH4_IRQ_GPIO, SH4_IRQ_IRL0, SH4_IRQ_IRL1, SH4_IRQ_IRL2, SH4_IRQ_IRL3 in *.
    by repeat (rewrite list_lookup_insert_ne by lia).
Qed.

(** the encoded request wins the arbitration *)
Definition irl_wins irl s : Prop :=
  15 - irl > sr_imask s /\ forall l, 0 <= l <= SH4_IRQ_GPIO -> line_ready s l -> line_prio s l < 15 - irl.

Lemma next_irl s meta irl :
  truth (Z.land (getr SH4_REG_SR s) SH4_SR_BL_MASK) = false ->
  truth (Z.land (getr SH4_REG_ICR s) SH4_ICR_IRLM_MASK) = false ->
  0 <= irl < 15 -> irl_val s = irl -> irl_wins irl s ->
  exists c, irl_prio_code irl = Some (15 - irl, c) /\
    sh4_get_next_irq_line s meta = Ok (15 - irl, {| is_irl := true; code := c; line := line meta |}).
Proof.
  intros HBL HI Hirl Hv [Hm Hw]. destruct (irl_prio_code_total irl Hirl) as [c Hc]. exists c. split; [done|].
  unfold sh4_get_next_irq_line. rewrite HBL, HI.
  destruct (fold_left (irq_loop_body s) (irq_lines_upto SH4_IRQ_GPIO) _) as [mp ml] eqn:E.
  destruct (line_choice s meta SH4_IRQ_GPIO mp ml ltac:(done) E) as (_ & tm & _ & Htk).
  rewrite Hv, Hc. cbn [negb andb]. rewrite (proj2 (Z.eqb_neq irl 15)) by lia. cbn [negb].
  assert (Hlt : mp < 15 - irl).
  { destruct Htk as [[-> _]|(_ & Hl & Hrd & -> & _)]; [lia|]. by apply Hw. }
  by rewrite !(proj2 (Z.gtb_lt _ _)) by lia.
Qed.

Definition refresh_total : Prop := forall w, J false w -> exists w', sched_refresh_intc w = Ok w' /\ J true w'.
Definition sched_ok s : Prop := J (refresh_intc_event_scheduled (intc s)) (world s).

Lemma refresh_deferred_total s : refresh_total -> sched_ok s ->
  exists s', sh4_refresh_intc_deferred s = Ok (tt, s') /\ sched_ok s'.
Proof.
  intros Hw Hj. unfold sh4_refresh_intc_deferred, sched_ok in *.
  destruct (refresh_intc_event_scheduled (intc s)) eqn:E; [exists s; by rewrite E|].
  destruct (Hw (world s) Hj) as (w' & Hw' & Hj'). cbn [world with_intc]. rewrite Hw'. by eexists.
Qed.

Lemma on_sr_change_total old s :
  refresh_total -> sched_ok s -> Z.testbit (getr SH4_REG_SR s) 30 = true ->
  exists s', sh4_on_sr_change old s = Ok (tt, s') /\ sched_ok s'.
Proof.
  intros Hw Hj Hmd. unfold sh4_on_sr_change. rewrite (bind_ok _ _ _ (getr SH4_REG_SR s) s eq_refl).
  assert (H1 : exists s1, sh4_bank_switch_maybe old (getr SH4_REG_SR s) s = Ok (tt, s1) /\ sched_ok s1).
  { unfold sh4_bank_switch_maybe, when. destruct (negb _); [|by eexists]. rewrite sh4_bank_switch_eq. by eexists. }
  destruct H1 as (s1 & H1 & Hj1). rewrite (bind_ok _ _ _ _ _ H1). change SH4_SR_MD_MASK with (2 ^ 30).
  rewrite truth_land_bit, Hmd by lia. cbn [negb when]. unfold when. destruct (negb _).
  - destruct (refresh_deferred_total s1 Hw Hj1) as (s2 & H2 & Hj2). rewrite (bind_ok _ _ _ _ _ H2). by exists s2.
  - by exists s1.
Qed.

Lemma enter_exception_total v s meta :
  refresh_total -> sched_ok s -> List.find (fun m => meta_code m =? v) sh4_excp_meta = Some meta -> regs_ok s ->
  exists s', sh4_enter_exception v s = Ok (tt, s') /\ sched_ok s'.
Proof.
  intros Hw Hj Hf Hok. unfold sh4_enter_exception. rewrite Hf. cbv [reg_get reg_set gets modify bind].
  change (setr SH4_REG_SGR _ _) with (saved s). fold (excp_sr (getr SH4_REG_SR (saved s))).
  set (s1 := setr SH4_REG_SR _ (saved s)). set (old := getr SH4_REG_SR (saved s)).
  assert (Hmd : Z.testbit (getr SH4_REG_SR s1) 30 = true).
  { pose proof (saved_ok s Hok) as Hoks. unfold s1. rewrite getr_setr_eq by done.
    rewrite wrap_small by by apply excp_sr_range, getr_range. apply excp_sr_bits. }
  destruct (on_sr_change_total old s1 Hw Hj Hmd) as (s2 & -> & Hj2).
  destruct (_ || _ || _ || _ || _); [by eexists|]. destruct (_ || _); by eexists.
Qed.

(** the vectors of the encoded requests *)
Lemma irl_vector irl : 0 <= irl < 15 ->
  exists c meta, irl_prio_code irl = Some (15 - irl, c) /\ c = 0x200 + 0x20 * irl /\
    List.find (fun m => meta_code m =? c) sh4_excp_meta = Some meta /\
    (forall s, excp_target c meta s = u32 (getr SH4_REG_VBR s + 0x600)) /\
    Z.land (Z.shiftl c SH4_INTEVT_CODE_SHIFT) SH4_INTEVT_CODE_MASK = c.
Proof.
  intros Hirl. assert (Hin : In irl [0;1;2;3;4;5;6;7;8;9;10;11;12;13;14]) by (cbn; lia).
  cbn in Hin. repeat destruct Hin as [<-|Hin]; try (do 2 eexists; split_and!; [reflexivity..|]; done). done.
Qed.

(** what the arbitration returns, as the entry uses it *)
Lemma arbitration_total s meta :
  truth (Z.land (getr SH4_REG_SR s) SH4_SR_BL_MASK) = false ->
  exists prio meta', sh4_get_next_irq_line s meta = Ok (prio, meta') /\
    ((prio = -1 /\ meta' = meta) \/
     (irq_line s (line meta') <> 0 /\ code meta' = irq_line s (line meta')) \/
     (exists irl, 0 <= irl < 15 /\ irl_prio_code irl = Some (prio, code meta'))).
Proof.
  intros HBL. unfold sh4_get_next_irq_line. rewrite HBL.
  set (irlm := truth (Z.land (getr SH4_REG_ICR s) SH4_ICR_IRLM_MASK)).
  set (n := if irlm then SH4_IRQ_COUNT - 1 else SH4_IRQ_GPIO).
  assert (Hn : 0 <= n) by (unfold n; destruct irlm; vm_compute; congruence).
  destruct (fold_left (irq_loop_body s) (irq_lines_upto n) _) as [mp ml] eqn:E.
  destruct (line_choice s meta n mp ml Hn E) as (_ & tm & -> & Htk).
  assert (Hline : exists prio meta', Ok (mp, tm) = Ok (A := Z * sh4_irq_meta) (prio, meta') /\
    ((prio = -1 /\ meta' = meta) \/ (irq_line s (line meta') <> 0 /\ code meta' = irq_line s (line meta')) \/
     (exists irl, 0 <= irl < 15 /\ irl_prio_code irl = Some (prio, code meta')))).
  { exists mp, tm. split; [done|]. destruct Htk as [?|(_ & _ & [? _] & _ & ?)]; [by left|]. right. by left. }
  pose proof (irl_val_range s). destruct (negb irlm && negb (irl_val s =? 0xf)) eqn:Hi; [|done].
  assert (Hv : 0 <= irl_val s < 15) by (destruct irlm; cbn in Hi; lia).
  destruct (irl_prio_code_total (irl_val s) Hv) as [c Hc]. rewrite Hc. destruct ((15 - irl_val s >? mp) && (15 - irl_val s >? sr_imask s)); [|done].
  do 2 eexists. split; [reflexivity|]. right. right. exists (irl_val s). split; [done|]. by rewrite Hc.
Qed.

(** ** A request that is taken at once *)
Lemma irl_taken irl s :
  refresh_total -> sched_ok s -> regs_ok s -> lines_ok s -> delayed_branch s = false ->
  truth (Z.land (getr SH4_REG_SR s) SH4_SR_BL_MASK) = false ->
  truth (Z.land (getr SH4_REG_ICR s) SH4_ICR_IRLM_MASK) = false ->
  0 <= irl < 15 -> irl_wins irl s ->
  exists s', sh4_set_irl_interrupt intc_fuel irl s = Ok (tt, s') /\
    getr SH4_REG_PC s' = u32 (getr SH4_REG_VBR s + 0x600) /\
    getr SH4_REG_INTEVT s' = 0x200 + 0x20 * irl /\
    getr SH4_REG_SPC s' = getr SH4_REG_PC s /\ getr SH4_REG_SSR s' = getr SH4_REG_SR s.
Proof.
  intros Hw Hj Hok Hlen Hdb HBL HI Hirl Hwin. unfold sh4_set_irl_interrupt.
  rewrite (bind_ok _ _ _ _ _ (set_irl_lines_eq irl s)).
  set (s1 := with_lines _ s). destruct (irl_lines_val irl s Hlen ltac:(lia)) as (Hlen1 & Hv1 & Hk1). fold s1 in Hlen1, Hv1, Hk1.
  assert (Hwin1 : irl_wins irl s1).
  { destruct Hwin as [Hm Hl]. split; [exact Hm|]. intros l Hr [Hne Hp]. apply Hl; [done|].
    split; [by rewrite <- Hk1|done]. }
  destruct (next_irl s1 (pending_irq (intc s1)) irl HBL HI Hirl Hv1 Hwin1) as (c & Hc & Hnext).
  destruct (irl_vector irl Hirl) as (c' & meta & Hc' & Hcv & Hf & Ht & Hiv). rewrite Hc in Hc'. injection Hc' as <-.
  change (sh4_refresh_intc intc_fuel) with (bind (refresh_pending (W := W)) (fun _ => sh4_check_interrupts (sh4_refresh_intc 1))).
  erewrite bind_ok by (unfold refresh_pending; by rewrite Hnext).
  set (m := {| is_irl := true; code := c; line := _ |}). set (s2 := with_intc _ s1).
  assert (Hok2 : regs_ok s2) by (destruct Hok; by split).
  unfold sh4_check_interrupts. rewrite (bind_ok _ _ _ false s2) by (unfold gets; f_equal; f_equal; exact Hdb).
  cbn [negb when]. unfold sh4_check_interrupts_no_delay_branch_check.
  rewrite (bind_ok _ _ _ (intc s2) s2 eq_refl).
  replace (is_irq_pending (intc s2)) with true by (unfold s2; cbn; lia). cbn [when].
  change (pending_irq (intc s2)) with m.
  set (s3 := setr SH4_REG_INTEVT c s2).
  assert (Hok3 : regs_ok s3) by by apply setr_ok.
  destruct (enter_exception_total c s3 meta Hw Hj Hf Hok3) as (s4 & H4 & _).
  destruct (enter_exception_spec c s3 s4 Hok3 H4) as (meta' & Hf' & Hok4 & Hspc & Hssr & _ & _ & Hpc & _ & Hoth).
  rewrite Hf in Hf'. injection Hf' as <-.
  erewrite bind_ok; cycle 1.
  { rewrite (enter_irq_eq 0 m s2 Hok2). cbn [code m]. rewrite Hiv. fold s3. rewrite H4. reflexivity. }
  eexists. split; [reflexivity|].
  assert (H30 : forall k, k <> SH4_REG_INTEVT -> 0 <= k -> getr k s3 = getr k s) by (intros; unfold s3; by rewrite getr_setr_ne).
  split_and!.
  - change (getr SH4_REG_PC s4 = u32 (getr SH4_REG_VBR s + 0x600)). by rewrite Hpc, Ht, H30.
  - change (getr SH4_REG_INTEVT s4 = 0x200 + 0x20 * irl).
    rewrite Hoth by (vm_compute; intuition congruence). unfold s3. rewrite getr_setr_eq by done.
    rewrite wrap_small; [done|]. unfold in_range. lia.
  - change (getr SH4_REG_SPC s4 = getr SH4_REG_PC s). by rewrite Hspc, H30.
  - change (getr SH4_REG_SSR s4 = getr SH4_REG_SR s). by rewrite Hssr, H30.
Qed.
End irl.

(** ** Every refresh returns

    A line is idle or has the code of an exception that the CPU knows. *)
Section total.
Context {W : Type} {CFG : BuildConfig} {MCH : Machine W} (J : bool -> W -> Prop).
Implicit Types s : Sh4 W.

Definition code_known (c : Z) : Prop :=
  c = 0 \/ exists meta, List.find (fun m => meta_code m =? c) sh4_excp_meta = Some meta.
Record intc_ready s : Prop := {
  ready_regs : regs_ok s;
  ready_lines : lines_ok s;
  ready_codes : Forall code_known (irq_lines (intc s));
  ready_sched : sched_ok J s
}.

Definition same_lines s s' : Prop := irq_lines (intc s') = irq_lines (intc s).
#[local] Instance same_lines_preorder : PreOrder same_lines.
Proof. split; [by intros s|]. intros x y z. unfold same_lines. congruence. Qed.

Lemma enter_exception_lines v : preserves same_lines (sh4_enter_exception (W := W) v).
Proof.
  assert (Hrs : forall i x, preserves same_lines (reg_set (W := W) i x)) by (intros; by apply preserves_modify).
  assert (Hrg : forall i, preserves same_lines (reg_get (W := W) i)) by (intros; by apply preserves_gets; apply _).
  assert (Hb : preserves same_lines (sh4_bank_switch (W := W))).
  { intros s a s'. rewrite sh4_bank_switch_eq. by intros [= _ <-]. }
  assert (Hd : preserves same_lines (sh4_refresh_intc_deferred (W := W))).
  { intros s a s'. unfold sh4_refresh_intc_deferred. destruct (refresh_intc_event_scheduled (intc s)).
    { by intros [= _ <-]. }
    cbn [world with_intc]. destruct (sched_refresh_intc (world s)); [|done]. by intros [= _ <-]. }
  unfold sh4_enter_exception, sh4_on_sr_change, sh4_bank_switch_maybe. by frame.
Qed.

Lemma lines_insert s l c : intc_ready s -> code_known c ->
  intc_ready (with_lines (<[l := c]> (irq_lines (intc s))) s).
Proof.
  intros [Hr Hl Hc Hj] Hk. split; [by destruct Hr|unfold lines_ok; cbn; by rewrite length_insert| |done].
  cbn. by apply list.Forall_insert.
Qed.

Lemma irl_lines_ready irl s : intc_ready s -> intc_ready (with_lines (irl_lines irl (irq_lines (intc s))) s).
Proof.
  intros H. unfold irl_lines.
  assert (Hk : forall b c, In c [SH4_EXCP_IRL0; SH4_EXCP_IRL1; SH4_EXCP_IRL2; SH4_EXCP_IRL3] ->
            code_known (if b : bool then c else 0)).
  { intros [] c Hc; [|by left]. right. cbn in Hc. destruct Hc as [<-|[<-|[<-|[<-|[]]]]]; by eexists. }
  pose proof (lines_insert s (Z.to_nat SH4_IRQ_IRL0) (if irl_bit irl 1 then SH4_EXCP_IRL0 else 0) H
                ltac:(apply Hk; cbn; tauto)) as H0.
  pose proof (lines_insert _ (Z.to_nat SH4_IRQ_IRL1) (if irl_bit irl 2 then SH4_EXCP_IRL1 else 0) H0
                ltac:(apply Hk; cbn; tauto)) as H1.
  pose proof (lines_insert _ (Z.to_nat SH4_IRQ_IRL2) (if irl_bit irl 4 then SH4_EXCP_IRL2 else 0) H1
                ltac:(apply Hk; cbn; tauto)) as H2.
  exact (lines_insert _ (Z.to_nat SH4_IRQ_IRL3) (if irl_bit irl 8 then SH4_EXCP_IRL3 else 0) H2
           ltac:(apply Hk; cbn; tauto)).
Qed.

Lemma next_irq_known s meta : intc_ready s ->
  exists prio meta', sh4_get_next_irq_line s meta = Ok (prio, meta') /\
    (0 <= prio -> exists m, List.find (fun e => meta_code e =? code meta') sh4_excp_meta = Some m).
Proof.
  intros [_ Hl Hc _]. destruct (truth (Z.land (getr SH4_REG_SR s) SH4_SR_BL_MASK)) eqn:HBL.
  { exists (-1), meta. unfold sh4_get_next_irq_line. rewrite HBL. split; [done|lia]. }
  destruct (arbitration_total s meta HBL) as (prio & meta' & Hn & Hcase). exists prio, meta'. split; [done|].
  intros Hp. destruct Hcase as [[-> _]|[(Hne & Hcode)|(irl & Hirl & Hcode)]]; [lia| |].
  - rewrite Hcode in *. unfold irq_line in *. rewrite nth_lookup in *.
    destruct (irq_lines (intc s) !! Z.to_nat (line meta')) as [c|] eqn:E; [|done]. cbn in *.
    rewrite list.Forall_lookup in Hc. destruct (Hc _ _ E) as [->|?]; done.
  - destruct (irl_vector (W := W) irl ltac:(lia)) as (c & m & Hc' & _ & Hf & _). rewrite Hcode in Hc'.
    injection Hc' as -> ->. by exists m.
Qed.

Lemma acknowledge_ready meta s : intc_ready s ->
  exists s', acknowledge meta s = Ok (tt, s') /\ intc_ready s'.
Proof.
  intros H. unfold acknowledge. destruct (is_irl meta).
  - rewrite set_irl_lines_eq. eexists. split; [done|]. by apply irl_lines_ready.
  - eexists. split; [reflexivity|]. apply lines_insert; [done|]. by left.
Qed.

Lemma refresh_intc_returns s : refresh_total J -> intc_ready s ->
  exists s', sh4_refresh_intc intc_fuel s = Ok (tt, s') /\ intc_ready s'.
Proof.
  intros Hw H. destruct (next_irq_known s (pending_irq (intc s)) H) as (prio & meta & Hn & Hk).
  change (sh4_refresh_intc intc_fuel) with (bind (refresh_pending (W := W)) (fun _ => sh4_check_interrupts (sh4_refresh_intc 1))).
  erewrite bind_ok by (unfold refresh_pending; by rewrite Hn).
  set (s1 := with_intc _ s). assert (H1 : intc_ready s1) by (destruct H as [[] ? ? ?]; by split).
  unfold sh4_check_interrupts. rewrite (bind_ok _ _ _ (delayed_branch s1) s1 eq_refl).
  destruct (delayed_branch s1); [by exists s1|]. cbn [negb when].
  unfold sh4_check_interrupts_no_delay_branch_check. rewrite (bind_ok _ _ _ (intc s1) s1 eq_refl).
  destruct (Z.geb_spec prio 0) as [Hp|Hp].
  2: { replace (is_irq_pending (intc s1)) with false by (unfold s1; cbn; lia). by exists s1. }
  replace (is_irq_pending (intc s1)) with true by (unfold s1; cbn; lia). cbn [when].
  change (pending_irq (intc s1)) with meta. destruct (Hk Hp) as [m Hm].
  pose proof H1 as [Hr1 Hl1 Hc1 Hj1].
  set (s2 := setr SH4_REG_INTEVT (Z.land (Z.shiftl (code meta) SH4_INTEVT_CODE_SHIFT) SH4_INTEVT_CODE_MASK) s1).
  assert (Hr2 : regs_ok s2) by by apply setr_ok.
  destruct (enter_exception_total J (code meta) s2 m Hw Hj1 Hm Hr2) as (s3 & H3 & Hj3).
  destruct (enter_exception_spec _ s2 s3 Hr2 H3) as (_ & _ & Hr3 & _).
  assert (Hl3 : irq_lines (intc s3) = irq_lines (intc s1)) by exact (enter_exception_lines _ s2 _ s3 H3).
  destruct (acknowledge_ready meta s3) as (s4 & H4 & Hok4).
  { split; [done|unfold lines_ok; by rewrite Hl3|by rewrite Hl3|done]. }
  unfold bind. rewrite (enter_irq_eq 0 meta s1 Hr1). fold s2. rewrite H3, H4.
  eexists. split; [reflexivity|]. destruct Hok4 as [[] ? ? ?]. by split.
Qed.

Lemma set_irl_interrupt_returns irl s : refresh_total J -> intc_ready s ->
  exists s', sh4_set_irl_interrupt intc_fuel irl s = Ok (tt, s') /\ intc_ready s'.
Proof.
  intros Hw H. unfold sh4_set_irl_interrupt. rewrite (bind_ok _ _ _ _ _ (set_irl_lines_eq irl s)).
  by apply refresh_intc_returns, irl_lines_ready.
Qed.

Lemma set_interrupt_returns l c s : refresh_total J -> intc_ready s -> code_known c ->
  exists s', sh4_set_interrupt intc_fuel l c s = Ok (tt, s') /\ intc_ready s'.
Proof.
  intros Hw H Hc. unfold sh4_set_interrupt.
  rewrite (bind_ok _ _ _ tt (with_lines (<[Z.to_nat l := c]> (irq_lines (intc s))) s) eq_refl).
  apply refresh_intc_returns; [done|]. by apply lines_insert.
Qed.
End total.

(** ** The rest of the machine

    The interrupt controller changes the world only by scheduling its own event. *)
Section world_rel.
Context {W : Type} {CFG : BuildConfig} {MCH : Machine W} (R : W -> W -> Prop) {PR : PreOrder R}.
Context (refresh_rel : forall w w', sched_refresh_intc w = Ok w' -> R w w').
Implicit Types s : Sh4 W.

Definition rel_world s s' : Prop := R (world s) (world s').
#[export] Instance rel_world_preorder : PreOrder rel_world.
Proof. split; [intros s; unfold rel_world; reflexivity|]. intros x y z. unfold rel_world. by etransitivity. Qed.

Lemma rel_world_mod f : (forall s, world (f s) = world s) -> preserves rel_world (modify f).
Proof. intros H. apply preserves_modify. intros s. unfold rel_world. rewrite H. reflexivity. Qed.

Lemma reg_set_rel i v : preserves rel_world (reg_set i v).
Proof. by apply rel_world_mod. Qed.
Lemma set_irq_line_rel l v : preserves rel_world (set_irq_line l v).
Proof. by apply rel_world_mod. Qed.
Lemma set_irq_pending_rel b : preserves rel_world (set_irq_pending b).
Proof. by apply rel_world_mod. Qed.
#[local] Hint Resolve rel_world_mod reg_set_rel set_irq_line_rel set_irq_pending_rel : frame.
#[local] Hint Extern 1 (preserves _ (reg_get _)) => apply preserves_gets : frame.

Lemma bank_switch_rel : preserves rel_world (sh4_bank_switch (W := W)).
Proof. intros s a s'. rewrite sh4_bank_switch_eq. intros [= _ <-]. change (R (world s) (world s)). reflexivity. Qed.

Lemma refresh_deferred_rel : preserves rel_world (sh4_refresh_intc_deferred (W := W)).
Proof.
  intros s a s'. unfold sh4_refresh_intc_deferred. destruct (refresh_intc_event_scheduled (intc s)).
  { intros [= _ <-]. reflexivity. }
  cbn [world with_intc]. destruct (sched_refresh_intc (world s)) as [w'|] eqn:E; [|done]. intros [= _ <-]. by apply refresh_rel.
Qed.
#[local] Hint Resolve bank_switch_rel refresh_deferred_rel : frame.

Lemma on_sr_change_rel old : preserves rel_world (sh4_on_sr_change (W := W) old).
Proof. unfold sh4_on_sr_change, sh4_bank_switch_maybe. by frame. Qed.

Lemma enter_exception_rel v : preserves rel_world (sh4_enter_exception (W := W) v).
Proof. pose proof on_sr_change_rel. unfold sh4_enter_exception. by frame. Qed.

Lemma set_irl_lines_rel irl : preserves rel_world (set_irl_lines (W := W) irl).
Proof. unfold set_irl_lines. by frame. Qed.

Lemma refresh_intc_rel fuel : preserves rel_world (sh4_refresh_intc (W := W) fuel).
Proof.
  pose proof enter_exception_rel. pose proof set_irl_lines_rel.
  induction fuel as [|fuel IH]; cbn [sh4_refresh_intc]; [apply preserves_raise|].
  apply preserves_bind; [typeclasses eauto| |intros _].
  - intros s a s'. unfold refresh_pending. destruct (sh4_get_next_irq_line _ _) as [[]|]; [|done]. intros [= _ <-]. change (R (world s) (world s)). reflexivity.
  - unfold sh4_check_interrupts, sh4_check_interrupts_no_delay_branch_check, sh4_enter_irq_from_meta. frame.
    all: match goal with |- rel_world ?s _ => change (R (world s) (world s)); reflexivity end.
Qed.

Lemma set_irl_interrupt_rel fuel irl : preserves rel_world (sh4_set_irl_interrupt (W := W) fuel irl).
Proof. pose proof set_irl_lines_rel. pose proof refresh_intc_rel. unfold sh4_set_irl_interrupt. by frame. Qed.

Lemma set_interrupt_rel fuel l c : preserves rel_world (sh4_set_interrupt (W := W) fuel l c).
Proof. pose proof refresh_intc_rel. unfold sh4_set_interrupt. by frame. Qed.
End world_rel.

(** a part of the world that scheduling the refresh leaves alone *)
Section world_part.
Context {W : Type} {CFG : BuildConfig} {MCH : Machine W} {X : Type} (part : W -> X).
Context (part_refresh : forall w w', sched_refresh_intc w = Ok w' -> part w' = part w).

Definition same_part (w w' : W) : Prop := part w' = part w.
#[export] Instance same_part_preorder : PreOrder same_part.
Proof. split; [by intros w|]. intros x y z. unfold same_part. congruence. Qed.

Lemma set_irl_interrupt_part fuel irl s a s' :
  sh4_set_irl_interrupt (W := W) fuel irl s = Ok (a, s') -> part (world s') = part (world s).
Proof. exact (set_irl_interrupt_rel same_part part_refresh fuel irl s a s'). Qed.
Lemma set_interrupt_part fuel l c s a s' :
  sh4_set_interrupt (W := W) fuel l c s = Ok (a, s') -> part (world s') = part (world s).
Proof. exact (set_interrupt_rel same_part part_refresh fuel l c s a s'). Qed.
End world_part.
