(* ===== verification/Holly.v ===== *)
(** The interrupt controller of the system block (src/libwashdc/hw/sys/holly_intc.c,
    holly_intc.h): the pending and mask registers of the board's devices, and the level that a
    device's interrupt drives the CPU's IRL pins to.

    [holly_int_delivered]: an unmasked interrupt enters its handler; [holly_regs_typed]: the
    registers keep their widths; [holly_unmask_lost], [holly_low_overwrites_high]: the level is
    only driven when a device raises its interrupt, and by that device alone. *)
From stdpp Require Import gmap functions.
From S2P Require Import Prelude IntMath MemoryMap Memory Sh4State Board Sh4Core Sh4Excp Sh4Exec Frame Sh4Irl.

(** ** Interrupts *)
Inductive HollyExtInt : Type := HOLLY_EXT_INT_GDROM | HOLLY_EXT_INT_AICA.
Inductive HollyNrmInt : Type :=
| HOLLY_NRM_INT_HBLANK
| HOLLY_NRM_INT_VBLANK_OUT
| HOLLY_NRM_INT_VBLANK_IN
| HOLLY_NRM_INT_ISTNRM_PVR_PUNCH_THROUGH_COMPLETE
| HOLLY_REG_ISTNRM_PVR_TRANS_MOD_COMPLETE
| HOLLY_REG_ISTNRM_PVR_TRANS_COMPLETE
| HOLLY_REG_ISTNRM_PVR_OPAQUE_MOD_COMPLETE
| HOLLY_REG_ISTNRM_PVR_OPAQUE_COMPLETE
| HOLLY_REG_ISTNRM_PVR_RENDER_COMPLETE
| HOLLY_MAPLE_ISTNRM_DMA_COMPLETE
| HOLLY_REG_ISTNRM_CHANNEL2_DMA_COMPLETE
| HOLLY_REG_ISTNRM_AICA_DMA_COMPLETE
| HOLLY_REG_ISTNRM_PVR_YUV_COMPLETE.

Definition HOLLY_REG_ISTNRM_PVR_PUNCH_THROUGH_COMPLETE_MASK : Z := Z.shiftl 1 21.
Definition HOLLY_REG_ISTNRM_CHANNEL2_DMA_COMPLETE_MASK : Z := Z.shiftl 1 19.
Definition HOLLY_REG_ISTNRM_AICA_DMA_COMPLETE_MASK : Z := Z.shiftl 1 15.
Definition HOLLY_REG_ISTNRM_MAPLE_DMA_COMPLETE_MASK : Z := Z.shiftl 1 12.
Definition HOLLY_REG_ISTNRM_PVR_TRANS_MOD_COMPLETE_MASK : Z := Z.shiftl 1 10.
Definition HOLLY_REG_ISTNRM_PVR_TRANS_COMPLETE_MASK : Z := Z.shiftl 1 9.
Definition HOLLY_REG_ISTNRM_PVR_OPAQUE_MOD_COMPLETE_MASK : Z := Z.shiftl 1 8.
Definition HOLLY_REG_ISTNRM_PVR_OPAQUE_COMPLETE_MASK : Z := Z.shiftl 1 7.
Definition HOLLY_REG_ISTNRM_PVR_YUV_COMPLETE_MASK : Z := Z.shiftl 1 6.
Definition HOLLY_REG_ISTNRM_HBLANK_MASK : Z := Z.shiftl 1 5.
Definition HOLLY_REG_ISTNRM_VBLANK_OUT_MASK : Z := Z.shiftl 1 4.
Definition HOLLY_REG_ISTNRM_VBLANK_IN_MASK : Z := Z.shiftl 1 3.
Definition HOLLY_REG_ISTNRM_PVR_RENDER_COMPLETE_MASK : Z := Z.shiftl 1 2.
Definition HOLLY_REG_ISTEXT_GDROM_MASK : Z := Z.shiftl 1 0.
Definition HOLLY_REG_ISTEXT_AICA_MASK : Z := Z.shiftl 1 1.

(** the tables [ext_intp_tbl] and [nrm_intp_tbl] *)
Definition ext_intp_tbl (i : HollyExtInt) : Z :=
  match i with
  | HOLLY_EXT_INT_GDROM => HOLLY_REG_ISTEXT_GDROM_MASK
  | HOLLY_EXT_INT_AICA => HOLLY_REG_ISTEXT_AICA_MASK
  end.
Definition nrm_intp_tbl (i : HollyNrmInt) : Z :=
  match i with
  | HOLLY_NRM_INT_HBLANK => HOLLY_REG_ISTNRM_HBLANK_MASK
  | HOLLY_NRM_INT_VBLANK_OUT => HOLLY_REG_ISTNRM_VBLANK_OUT_MASK
  | HOLLY_NRM_INT_VBLANK_IN => HOLLY_REG_ISTNRM_VBLANK_IN_MASK
  | HOLLY_NRM_INT_ISTNRM_PVR_PUNCH_THROUGH_COMPLETE => HOLLY_REG_ISTNRM_PVR_PUNCH_THROUGH_COMPLETE_MASK
  | HOLLY_REG_ISTNRM_PVR_TRANS_MOD_COMPLETE => HOLLY_REG_ISTNRM_PVR_TRANS_MOD_COMPLETE_MASK
  | HOLLY_REG_ISTNRM_PVR_TRANS_COMPLETE => HOLLY_REG_ISTNRM_PVR_TRANS_COMPLETE_MASK
  | HOLLY_REG_ISTNRM_PVR_OPAQUE_MOD_COMPLETE => HOLLY_REG_ISTNRM_PVR_OPAQUE_MOD_COMPLETE_MASK
  | HOLLY_REG_ISTNRM_PVR_OPAQUE_COMPLETE => HOLLY_REG_ISTNRM_PVR_OPAQUE_COMPLETE_MASK
  | HOLLY_REG_ISTNRM_PVR_RENDER_COMPLETE => HOLLY_REG_ISTNRM_PVR_RENDER_COMPLETE_MASK
  | HOLLY_MAPLE_ISTNRM_DMA_COMPLETE => HOLLY_REG_ISTNRM_MAPLE_DMA_COMPLETE_MASK
  | HOLLY_REG_ISTNRM_CHANNEL2_DMA_COMPLETE => HOLLY_REG_ISTNRM_CHANNEL2_DMA_COMPLETE_MASK
  | HOLLY_REG_ISTNRM_AICA_DMA_COMPLETE => HOLLY_REG_ISTNRM_AICA_DMA_COMPLETE_MASK
  | HOLLY_REG_ISTNRM_PVR_YUV_COMPLETE => HOLLY_REG_ISTNRM_PVR_YUV_COMPLETE_MASK
  end.

(** ** Registers: the static variables *)
Inductive holly_reg : Type :=
| reg_istnrm | reg_istext | reg_isterr
| reg_iml2nrm | reg_iml2ext | reg_iml2err
| reg_iml4nrm | reg_iml4ext | reg_iml4err
| reg_iml6nrm | reg_iml6ext | reg_iml6err.
#[export] Instance holly_reg_eq_dec : EqDecision holly_reg.
Proof. solve_decision. Defined.

Abbreviation holly_intc := (holly_reg -> Z).
Class HollyWorld (W : Type) : Type := {
  holly : W -> holly_intc;
  set_holly : holly_intc -> W -> W
}.
Class HollyWorldLaws (W : Type) `{!HollyWorld W} : Prop := {
  holly_set : forall h w, holly (set_holly h w) = h
}.

Section holly.
Context {W : Type} {CFG : BuildConfig} {MCH : Machine W} {HW : HollyWorld W}.
Abbreviation sh4M := (M (Sh4 W)).

Definition holly_of (s : Sh4 W) : holly_intc := holly (world s).
Definition with_holly (h : holly_intc) (s : Sh4 W) : Sh4 W := with_world (set_holly h (world s)) s.
Definition holly_get (r : holly_reg) : sh4M Z := gets (fun s => holly_of s r).
Definition holly_put (r : holly_reg) (v : Z) : sh4M unit := modify (fun s => with_holly (<[r := v]> (holly_of s)) s).

(** ** Raising and clearing *)
Definition holly_raise_nrm_int (int_type : HollyNrmInt) : sh4M unit :=
  let mask := nrm_intp_tbl int_type in
  ist <- holly_get reg_istnrm ;;
  holly_put reg_istnrm (Z.lor ist mask) ;;
  iml6 <- holly_get reg_iml6nrm ;;
  iml4 <- holly_get reg_iml4nrm ;;
  iml2 <- holly_get reg_iml2nrm ;;
  if truth (Z.land iml6 mask) then sh4_set_irl_interrupt intc_fuel 0x9
  else if truth (Z.land iml4 mask) then sh4_set_irl_interrupt intc_fuel 0xb
  else when (truth (Z.land iml2 mask)) (sh4_set_irl_interrupt intc_fuel 0xd).

Definition holly_clear_nrm_int (int_type : HollyNrmInt) : sh4M unit :=
  let mask := nrm_intp_tbl int_type in
  ist <- holly_get reg_istnrm ;;
  holly_put reg_istnrm (Z.land ist (not32 mask)).

Definition holly_raise_ext_int (int_type : HollyExtInt) : sh4M unit :=
  let mask := ext_intp_tbl int_type in
  ist <- holly_get reg_istext ;;
  holly_put reg_istext (Z.lor ist mask) ;;
  iml6 <- holly_get reg_iml6ext ;;
  iml4 <- holly_get reg_iml4ext ;;
  iml2 <- holly_get reg_iml2ext ;;
  if truth (Z.land iml6 mask) then sh4_set_irl_interrupt intc_fuel 0x9
  else if truth (Z.land iml4 mask) then sh4_set_irl_interrupt intc_fuel 0xb
  else when (truth (Z.land iml2 mask)) (sh4_set_irl_interrupt intc_fuel 0xd).

Definition holly_clear_ext_int (int_type : HollyExtInt) : sh4M unit :=
  let mask := ext_intp_tbl int_type in
  ist <- holly_get reg_istext ;;
  holly_put reg_istext (Z.land ist (not32 mask)).

(** ** Register handlers *)
Definition holly_reg_istnrm_mmio_read (idx : Z) : sh4M Z :=
  nrm <- holly_get reg_istnrm ;;
  ext <- holly_get reg_istext ;;
  err <- holly_get reg_isterr ;;
  let istnrm_out := Z.land nrm 0x3fffff in
  let istnrm_out := Z.lor istnrm_out (Z.shiftl (b2z (truth ext)) 30) in
  let istnrm_out := Z.lor istnrm_out (Z.shiftl (b2z (truth err)) 31) in
  ret istnrm_out.
Definition holly_reg_istnrm_mmio_write (idx val : Z) : sh4M unit :=
  ist <- holly_get reg_istnrm ;; holly_put reg_istnrm (Z.land ist (not32 val)).
Definition holly_reg_istext_mmio_read (idx : Z) : sh4M Z :=
  ext <- holly_get reg_istext ;; ret (Z.land ext 0xf).
Definition holly_reg_istext_mmio_write (idx val : Z) : sh4M unit := ret tt.
Definition holly_reg_isterr_mmio_read (idx : Z) : sh4M Z := holly_get reg_isterr.
Definition holly_reg_isterr_mmio_write (idx val : Z) : sh4M unit :=
  ist <- holly_get reg_isterr ;; holly_put reg_isterr (Z.land ist (not32 val)).
Definition holly_reg_iml2nrm_mmio_read (idx : Z) : sh4M Z := holly_get reg_iml2nrm.
Definition holly_reg_iml2nrm_mmio_write (idx val : Z) : sh4M unit := holly_put reg_iml2nrm (Z.land val 0x3fffff).
Definition holly_reg_iml2err_mmio_read (idx : Z) : sh4M Z := holly_get reg_iml2err.
Definition holly_reg_iml2err_mmio_write (idx val : Z) : sh4M unit := holly_put reg_iml2err val.
Definition holly_reg_iml2ext_mmio_read (idx : Z) : sh4M Z := holly_get reg_iml2ext.
Definition holly_reg_iml2ext_mmio_write (idx val : Z) : sh4M unit := holly_put reg_iml2ext (Z.land val 0xf).
Definition holly_reg_iml4nrm_mmio_read (idx : Z) : sh4M Z := holly_get reg_iml4nrm.
Definition holly_reg_iml4nrm_mmio_write (idx val : Z) : sh4M unit := holly_put reg_iml4nrm (Z.land val 0x3fffff).
Definition holly_reg_iml4err_mmio_read (idx : Z) : sh4M Z := holly_get reg_iml4err.
Definition holly_reg_iml4err_mmio_write (idx val : Z) : sh4M unit := holly_put reg_iml4err val.
Definition holly_reg_iml4ext_mmio_read (idx : Z) : sh4M Z := holly_get reg_iml4ext.
Definition holly_reg_iml4ext_mmio_write (idx val : Z) : sh4M unit := holly_put reg_iml4ext (Z.land val 0xf).
Definition holly_reg_iml6nrm_mmio_read (idx : Z) : sh4M Z := holly_get reg_iml6nrm.
Definition holly_reg_iml6nrm_mmio_write (idx val : Z) : sh4M unit := holly_put reg_iml6nrm (Z.land val 0x3fffff).
Definition holly_reg_iml6err_mmio_read (idx : Z) : sh4M Z := holly_get reg_iml6err.
Definition holly_reg_iml6err_mmio_write (idx val : Z) : sh4M unit := holly_put reg_iml6err val.
Definition holly_reg_iml6ext_mmio_read (idx : Z) : sh4M Z := holly_get reg_iml6ext.
Definition holly_reg_iml6ext_mmio_write (idx val : Z) : sh4M unit := holly_put reg_iml6ext (Z.land val 0xf).
End holly.

(** ** The level that an interrupt drives *)
Section levels.
Context {W : Type} {CFG : BuildConfig} {MCH : Machine W} {HW : HollyWorld W} {HL : HollyWorldLaws W}.
(** what the scheduler needs to queue the CPU's deferred refresh; it is not about these registers *)
Context (J : bool -> W -> Prop) (J_holly : forall b h w, J b w -> J b (set_holly h w)).
Implicit Types s : Sh4 W.

Definition irl_of (iml6 iml4 iml2 mask : Z) : option Z :=
  if truth (Z.land iml6 mask) then Some 0x9
  else if truth (Z.land iml4 mask) then Some 0xb
  else if truth (Z.land iml2 mask) then Some 0xd else None.
Definition nrm_irl (h : holly_intc) (t : HollyNrmInt) : option Z :=
  irl_of (h reg_iml6nrm) (h reg_iml4nrm) (h reg_iml2nrm) (nrm_intp_tbl t).
Definition ext_irl (h : holly_intc) (t : HollyExtInt) : option Z :=
  irl_of (h reg_iml6ext) (h reg_iml4ext) (h reg_iml2ext) (ext_intp_tbl t).
Definition drive (irl : option Z) : M (Sh4 W) unit :=
  match irl with Some v => sh4_set_irl_interrupt intc_fuel v | None => ret tt end.

Lemma with_holly_same h s : holly_of (with_holly h s) = h.
Proof. apply holly_set. Qed.

Lemma raise_nrm_eq t s :
  holly_raise_nrm_int t s =
  drive (nrm_irl (holly_of s) t)
    (with_holly (<[reg_istnrm := Z.lor (holly_of s reg_istnrm) (nrm_intp_tbl t)]> (holly_of s)) s).
Proof.
  unfold holly_raise_nrm_int, nrm_irl, irl_of. rewrite (bind_ok _ _ _ (holly_of s reg_istnrm) s eq_refl).
  set (s1 := with_holly _ s). rewrite (bind_ok _ _ _ tt s1 eq_refl).
  assert (H1 : forall r, r <> reg_istnrm -> holly_get r s1 = Ok (holly_of s r, s1)).
  { intros r Hr. unfold holly_get, gets, s1. by rewrite with_holly_same, fn_lookup_insert_ne by done. }
  rewrite !(fun r (Hr : r <> reg_istnrm) k => bind_ok _ k _ _ _ (H1 r Hr)) by done.
  destruct (truth (Z.land (holly_of s reg_iml6nrm) _)); [done|].
  destruct (truth (Z.land (holly_of s reg_iml4nrm) _)); [done|].
  by destruct (truth (Z.land (holly_of s reg_iml2nrm) _)).
Qed.

Lemma raise_ext_eq t s :
  holly_raise_ext_int t s =
  drive (ext_irl (holly_of s) t)
    (with_holly (<[reg_istext := Z.lor (holly_of s reg_istext) (ext_intp_tbl t)]> (holly_of s)) s).
Proof.
  unfold holly_raise_ext_int, ext_irl, irl_of. rewrite (bind_ok _ _ _ (holly_of s reg_istext) s eq_refl).
  set (s1 := with_holly _ s). rewrite (bind_ok _ _ _ tt s1 eq_refl).
  assert (H1 : forall r, r <> reg_istext -> holly_get r s1 = Ok (holly_of s r, s1)).
  { intros r Hr. unfold holly_get, gets, s1. by rewrite with_holly_same, fn_lookup_insert_ne by done. }
  rewrite !(fun r (Hr : r <> reg_istext) k => bind_ok _ k _ _ _ (H1 r Hr)) by done.
  destruct (truth (Z.land (holly_of s reg_iml6ext) _)); [done|].
  destruct (truth (Z.land (holly_of s reg_iml4ext) _)); [done|].
  by destruct (truth (Z.land (holly_of s reg_iml2ext) _)).
Qed.

(** the interrupts of both kinds *)
Definition holly_raise (i : HollyNrmInt + HollyExtInt) : M (Sh4 W) unit :=
  match i with inl t => holly_raise_nrm_int t | inr t => holly_raise_ext_int t end.
Definition int_irl (h : holly_intc) (i : HollyNrmInt + HollyExtInt) : option Z :=
  match i with inl t => nrm_irl h t | inr t => ext_irl h t end.
Definition int_raised (h : holly_intc) (i : HollyNrmInt + HollyExtInt) : holly_intc :=
  match i with
  | inl t => <[reg_istnrm := Z.lor (h reg_istnrm) (nrm_intp_tbl t)]> h
  | inr t => <[reg_istext := Z.lor (h reg_istext) (ext_intp_tbl t)]> h
  end.

Lemma raise_eq i s :
  holly_raise i s = drive (int_irl (holly_of s) i) (with_holly (int_raised (holly_of s) i) s).
Proof. destruct i; [apply raise_nrm_eq|apply raise_ext_eq]. Qed.

Lemma irl_of_range a b c m irl : irl_of a b c m = Some irl -> irl = 0x9 \/ irl = 0xb \/ irl = 0xd.
Proof. unfold irl_of. repeat case_match; naive_solver. Qed.

Lemma int_irl_range h i irl : int_irl h i = Some irl -> 0 <= irl < 15.
Proof. destruct i; cbn; intros H; apply irl_of_range in H; lia. Qed.

(** C17: an interrupt of a device that is unmasked at level 6, 4 or 2 reaches the CPU: if the CPU
    does not block interrupts, its IRL lines encode a level (ICR.IRLM is 0), it is not between a delayed
    branch and its slot, and neither its mask nor another request of its own outranks the level, raising
    the interrupt enters the handler at VBR + 0x600 with the level's code in INTEVT, and saves the PC and SR. *)
Theorem holly_int_delivered (i : HollyNrmInt + HollyExtInt) s irl :
  refresh_total J -> sched_ok J s -> regs_ok s -> lines_ok s -> delayed_branch s = false ->
  truth (Z.land (getr SH4_REG_SR s) SH4_SR_BL_MASK) = false ->
  truth (Z.land (getr SH4_REG_ICR s) SH4_ICR_IRLM_MASK) = false ->
  int_irl (holly_of s) i = Some irl -> irl_wins irl s ->
  exists s', holly_raise i s = Ok (tt, s') /\
    getr SH4_REG_PC s' = u32 (getr SH4_REG_VBR s + 0x600) /\
    getr SH4_REG_INTEVT s' = 0x200 + 0x20 * irl /\
    getr SH4_REG_SPC s' = getr SH4_REG_PC s /\ getr SH4_REG_SSR s' = getr SH4_REG_SR s.
Proof.
  intros Hw Hj Hok Hlen Hdb HBL HI Hirl Hwin. rewrite raise_eq, Hirl. cbn [drive].
  apply (irl_taken J irl (with_holly (int_raised (holly_of s) i) s)); try done.
  - by apply J_holly.
  - destruct Hok. by split.
  - by eapply int_irl_range.
Qed.

(** ** The widths of the registers *)
Record holly_typed (h : holly_intc) : Prop := {
  typed_istnrm : in_range 22 (h reg_istnrm);
  typed_istext : in_range 2 (h reg_istext);
  typed_isterr : h reg_isterr = 0;
  typed_nrm : in_range 22 (h reg_iml2nrm) /\ in_range 22 (h reg_iml4nrm) /\ in_range 22 (h reg_iml6nrm);
  typed_ext : in_range 4 (h reg_iml2ext) /\ in_range 4 (h reg_iml4ext) /\ in_range 4 (h reg_iml6ext);
  typed_err : in_range 32 (h reg_iml2err) /\ in_range 32 (h reg_iml4err) /\ in_range 32 (h reg_iml6err)
}.

(** the operations of the devices and the writes of the program *)
Inductive holly_op : Type :=
| OpRaise (i : HollyNrmInt + HollyExtInt)
| OpClearNrm (t : HollyNrmInt)
| OpClearExt (t : HollyExtInt)
| OpWrite (r : holly_reg) (val : Z).
Definition run_holly_op (o : holly_op) : M (Sh4 W) unit :=
  match o with
  | OpRaise i => holly_raise i
  | OpClearNrm t => holly_clear_nrm_int t
  | OpClearExt t => holly_clear_ext_int t
  | OpWrite r val =>
      match r with
      | reg_istnrm => holly_reg_istnrm_mmio_write | reg_istext => holly_reg_istext_mmio_write
      | reg_isterr => holly_reg_isterr_mmio_write
      | reg_iml2nrm => holly_reg_iml2nrm_mmio_write | reg_iml2ext => holly_reg_iml2ext_mmio_write
      | reg_iml2err => holly_reg_iml2err_mmio_write
      | reg_iml4nrm => holly_reg_iml4nrm_mmio_write | reg_iml4ext => holly_reg_iml4ext_mmio_write
      | reg_iml4err => holly_reg_iml4err_mmio_write
      | reg_iml6nrm => holly_reg_iml6nrm_mmio_write | reg_iml6ext => holly_reg_iml6ext_mmio_write
      | reg_iml6err => holly_reg_iml6err_mmio_write
      end 0 val
  end.
Definition op_val_ok (o : holly_op) : Prop := match o with OpWrite _ val => in_range 32 val | _ => True end.

(** the machine's other parts do not touch the registers *)
Context (refresh_keeps_holly : forall w w', sched_refresh_intc w = Ok w' -> holly w' = holly w).

Lemma drive_keeps_holly irl s s' : drive irl s = Ok (tt, s') -> holly_of s' = holly_of s.
Proof.
  destruct irl; cbn [drive]; [|by intros [= <-]].
  apply (set_irl_interrupt_part (fun w => holly w) refresh_keeps_holly).
Qed.

Lemma nrm_mask_range t : in_range 22 (nrm_intp_tbl t).
Proof. destruct t; by vm_compute. Qed.
Lemma ext_mask_range t : in_range 2 (ext_intp_tbl t).
Proof. destruct t; by vm_compute. Qed.

(** a register that is written keeps its width, and the others are as before *)
Definition reg_typed (r : holly_reg) (v : Z) : Prop :=
  match r with
  | reg_istnrm | reg_iml2nrm | reg_iml4nrm | reg_iml6nrm => in_range 22 v
  | reg_istext => in_range 2 v
  | reg_isterr => v = 0
  | reg_iml2ext | reg_iml4ext | reg_iml6ext => in_range 4 v
  | reg_iml2err | reg_iml4err | reg_iml6err => in_range 32 v
  end.
Lemma holly_typed_iff h : holly_typed h <-> forall r, reg_typed r (h r).
Proof.
  split.
  - intros [? ? ? (? & ? & ?) (? & ? & ?) (? & ? & ?)] []; done.
  - intros H. split; [exact (H reg_istnrm)|exact (H reg_istext)|exact (H reg_isterr)|..]; split_and!;
      [exact (H reg_iml2nrm)|exact (H reg_iml4nrm)|exact (H reg_iml6nrm)|exact (H reg_iml2ext)|exact (H reg_iml4ext)|
       exact (H reg_iml6ext)|exact (H reg_iml2err)|exact (H reg_iml4err)|exact (H reg_iml6err)].
Qed.

Lemma typed_insert h r v : holly_typed h -> reg_typed r v -> holly_typed (<[r := v]> h).
Proof.
  rewrite !holly_typed_iff. intros Hh Hv q. destruct (decide (q = r)) as [->|Hne].
  - by rewrite fn_lookup_insert.
  - by rewrite fn_lookup_insert_ne.
Qed.

Lemma put_typed r v s :
  intc_ready J s -> holly_typed (holly_of s) -> reg_typed r v ->
  exists s', holly_put r v s = Ok (tt, s') /\ intc_ready J s' /\ holly_typed (holly_of s').
Proof.
  intros [[] ? ? ?] Hh Hv. eexists. split; [reflexivity|]. split; [split; [by split|done..|by apply J_holly]|].
  rewrite with_holly_same. by apply typed_insert.
Qed.

Lemma write_typed r val s : intc_ready J s -> holly_typed (holly_of s) -> in_range 32 val ->
  exists s', run_holly_op (OpWrite r val) s = Ok (tt, s') /\ intc_ready J s' /\ holly_typed (holly_of s').
Proof.
  intros Hi Hh Hv. pose proof (proj1 (holly_typed_iff _) Hh) as Hr.
  assert (Hmask : forall w m, 0 <= w -> in_range w m -> in_range w (Z.land val m)) by (intros; by apply land_range_r).
  destruct r; try (apply put_typed; [done|done|]; exact Hv);
    try (apply put_typed; [done|done|]; apply Hmask; [lia|by vm_compute]).
  - apply (put_typed reg_istnrm); [done|done|]. apply land_range_l; [lia|exact (Hr reg_istnrm)].
  - by exists s.
  - apply (put_typed reg_isterr); [done|done|]. cbn. by rewrite (Hr reg_isterr : _ = 0).
Qed.

Lemma drive_returns irl s : refresh_total J -> intc_ready J s ->
  exists s', drive irl s = Ok (tt, s') /\ intc_ready J s' /\ holly_of s' = holly_of s.
Proof.
  intros Hw Hi. destruct irl as [irl|]; [|by exists s]. destruct (set_irl_interrupt_returns J irl s Hw Hi) as (s' & H & ?).
  exists s'. split_and!; [done..|]. by apply (drive_keeps_holly (Some irl)).
Qed.

(** raising an interrupt returns, and the controller has it pending *)
Lemma raise_returns i s : refresh_total J -> intc_ready J s ->
  exists s', holly_raise i s = Ok (tt, s') /\ intc_ready J s' /\ holly_of s' = int_raised (holly_of s) i.
Proof.
  intros Hw Hi. rewrite raise_eq. set (s1 := with_holly _ s).
  assert (Hi1 : intc_ready J s1) by (destruct Hi as [[] ? ? ?]; split; [by split|done..|by apply J_holly]).
  destruct (drive_returns (int_irl (holly_of s) i) s1 Hw Hi1) as (s' & H & Hi' & Hh'). exists s'.
  split_and!; [done..|]. rewrite Hh'. unfold s1. apply with_holly_same.
Qed.

Lemma raised_pending h t : Z.land (int_raised h (inl t) reg_istnrm) (nrm_intp_tbl t) = nrm_intp_tbl t.
Proof.
  cbn [int_raised]. rewrite fn_lookup_insert. apply Z.bits_inj'. intros n _.
  rewrite Z.land_spec, Z.lor_spec. by destruct (Z.testbit (h reg_istnrm) n), (Z.testbit (nrm_intp_tbl t) n).
Qed.

Lemma op_typed o s : refresh_total J -> intc_ready J s -> holly_typed (holly_of s) -> op_val_ok o ->
  exists s', run_holly_op o s = Ok (tt, s') /\ intc_ready J s' /\ holly_typed (holly_of s').
Proof.
  intros Hw Hi Hh Ho. pose proof (proj1 (holly_typed_iff _) Hh) as Hr. destruct o as [i|t|t|r val]; cbn [run_holly_op].
  - destruct (raise_returns i s Hw Hi) as (s' & H & Hi' & Hh'). exists s'. split_and!; [done..|]. rewrite Hh'.
    destruct i as [t|t]; cbn [int_raised]; apply typed_insert; try done; apply lor_range; try lia;
      [exact (Hr reg_istnrm)|apply nrm_mask_range|exact (Hr reg_istext)|apply ext_mask_range].
  - apply (put_typed reg_istnrm); [done|done|]. apply land_range_l; [lia|exact (Hr reg_istnrm)].
  - apply (put_typed reg_istext); [done|done|]. apply land_range_l; [lia|exact (Hr reg_istext)].
  - by apply write_typed.
Qed.

Fixpoint run_holly_ops (l : list holly_op) : M (Sh4 W) unit :=
  match l with [] => ret tt | o :: rest => run_holly_op o ;; run_holly_ops rest end.

(** C39: the registers of the controller keep their types: any sequence of interrupts raised and
    cleared by devices and of register writes by the program runs to its end, and then the pending
    and mask registers of the normal interrupts have 22 bits, the mask registers of the external
    ones 4 and their pending register the 2 of the devices that exist; and ISTERR is always zero,
    because nothing raises an error interrupt. *)
Theorem holly_regs_typed (l : list holly_op) s :
  refresh_total J -> intc_ready J s -> holly_typed (holly_of s) -> Forall op_val_ok l ->
  exists s', run_holly_ops l s = Ok (tt, s') /\ holly_typed (holly_of s').
Proof.
  intros Hw Hi Hh Hl. revert s Hi Hh. induction Hl as [|o l Ho _ IH]; intros s Hi Hh; cbn [run_holly_ops].
  - by exists s.
  - destruct (op_typed o s Hw Hi Hh Ho) as (s1 & H1 & Hi1 & Hh1). rewrite (bind_ok _ _ _ _ _ H1). by apply IH.
Qed.

(** ** What is lost *)

(** an interrupt that arrives while it is masked is lost: unmasking it afterwards, at any of the
    three levels, leaves the CPU and its interrupt pins as they were, while ISTNRM says that the
    interrupt is pending. *)
Theorem holly_unmask_lost (t : HollyNrmInt) (level : holly_reg) s val :
  nrm_irl (holly_of s) t = None -> level = reg_iml2nrm \/ level = reg_iml4nrm \/ level = reg_iml6nrm ->
  exists s1 s2, holly_raise_nrm_int t s = Ok (tt, s1) /\ run_holly_op (OpWrite level val) s1 = Ok (tt, s2) /\
    s2 = with_world (world s2) s /\
    holly_of s2 level = Z.land val 0x3fffff /\
    exists ist, holly_reg_istnrm_mmio_read 0 s2 = Ok (ist, s2) /\ Z.land ist (nrm_intp_tbl t) = nrm_intp_tbl t.
Proof.
  intros Hn Hlev. rewrite raise_nrm_eq, Hn. cbn [drive]. set (s1 := with_holly _ s).
  assert (Hlv : level <> reg_istnrm) by (destruct Hlev as [->|[->| ->]]; done).
  assert (Hw : run_holly_op (OpWrite level val) s1 =
            Ok (tt, with_holly (<[level := Z.land val 0x3fffff]> (holly_of s1)) s1)).
  { by destruct Hlev as [->|[->| ->]]. }
  exists s1. eexists. split; [reflexivity|]. split; [exact Hw|]. split; [reflexivity|].
  rewrite with_holly_same, fn_lookup_insert. split; [done|].
  set (s2 := with_holly _ s1). unfold holly_reg_istnrm_mmio_read.
  do 3 rewrite (bind_ok _ _ _ _ s2 eq_refl). eexists. split; [reflexivity|].
  assert (Hist : holly_of s2 reg_istnrm = Z.lor (holly_of s reg_istnrm) (nrm_intp_tbl t)).
  { unfold s2. rewrite with_holly_same, fn_lookup_insert_ne by done. unfold s1. by rewrite with_holly_same, fn_lookup_insert. }
  rewrite Hist. clear Hn.
  apply Z.bits_inj'. intros n Hn. rewrite Z.land_spec, !Z.lor_spec, Z.land_spec, Z.lor_spec.
  destruct (Z.testbit (nrm_intp_tbl t) n) eqn:Hb; [|by rewrite andb_false_r].
  assert (Hn22 : n < 22).
  { destruct (Z.ltb_spec n 22); [done|]. rewrite (in_range_testbit_high 22) in Hb by (apply nrm_mask_range || lia). done. }
  change 0x3fffff with (Z.ones 22). by rewrite Z.ones_spec_low, orb_true_r by lia.
Qed.

Lemma drive_blocked irl s : Z.testbit (getr SH4_REG_SR s) 28 = true ->
  sh4_set_irl_interrupt intc_fuel irl s =
    Ok (tt, let s1 := with_lines (irl_lines irl (irq_lines (intc s))) s in with_intc (no_pending (intc s1)) s1).
Proof.
  intros HBL. unfold sh4_set_irl_interrupt. rewrite (bind_ok _ _ _ _ _ (set_irl_lines_eq irl s)).
  by apply refresh_blocked.
Qed.

Lemma int_irl_raised h i j : int_irl (int_raised h i) j = int_irl h j.
Proof. by destruct i, j. Qed.

Lemma raise_blocked i irl s : Z.testbit (getr SH4_REG_SR s) 28 = true -> lines_ok s ->
  int_irl (holly_of s) i = Some irl ->
  exists s', holly_raise i s = Ok (tt, s') /\ reg s' = reg s /\ lines_ok s' /\ irl_val s' = irl /\
    holly_of s' = int_raised (holly_of s) i.
Proof.
  intros HBL Hl Hi. rewrite raise_eq, Hi. cbn [drive]. rewrite drive_blocked by done. eexists. split; [reflexivity|].
  pose proof (int_irl_range _ _ _ Hi). set (s1 := with_holly _ s).
  destruct (irl_lines_val irl s1 Hl ltac:(lia)) as (Hl1 & Hv & _). split_and!; [done..|].
  unfold holly_of. cbn [world with_intc with_lines]. exact (with_holly_same _ s).
Qed.

(** two devices do not share the pins: when the CPU blocks interrupts, the pins show the level
    of the last interrupt raised, also when an earlier one has a higher level and is still pending
    in the controller. *)
Theorem holly_low_overwrites_high (i j : HollyNrmInt + HollyExtInt) s hi lo :
  Z.testbit (getr SH4_REG_SR s) 28 = true -> lines_ok s ->
  int_irl (holly_of s) i = Some hi -> int_irl (holly_of s) j = Some lo ->
  exists s1 s2, holly_raise i s = Ok (tt, s1) /\ irl_val s1 = hi /\
    holly_raise j s1 = Ok (tt, s2) /\ irl_val s2 = lo /\
    holly_of s2 = int_raised (int_raised (holly_of s) i) j.
Proof.
  intros HBL Hl Hi Hj. destruct (raise_blocked i hi s HBL Hl Hi) as (s1 & H1 & Hr1 & Hl1 & Hv1 & Hh1).
  rewrite <- (int_irl_raised _ i), <- Hh1 in Hj. rewrite <- (getr_reg _ _ _ Hr1) in HBL.
  destruct (raise_blocked j lo s1 HBL Hl1 Hj) as (s2 & H2 & _ & _ & Hv2 & Hh2).
  exists s1, s2. by rewrite Hh2, Hh1.
Qed.
End levels.

(** *** Witnesses: a machine that has the CPU and the controller only *)
#[local] Instance holly_machine : Machine holly_intc := {|
  mem_map := memory_map.memory_map_init; sched_refresh_intc := fun h => Ok h;
  dc_debugger_enabled := fun _ => false; debug_on_softbreak := fun _ _ => ret tt;
  fpu_inst := fun _ _ => raise ERROR_UNIMPLEMENTED
|}.
#[local] Instance holly_alone : HollyWorld holly_intc := {| holly := fun h => h; set_holly := fun h _ => h |}.
#[local] Instance holly_alone_laws : HollyWorldLaws holly_intc.
Proof. by split. Qed.

Definition holly_cpu (sr : Z) (h : holly_intc) : Sh4 holly_intc :=
  let c := cpu_with [(SH4_REG_SR, sr); (SH4_REG_PC, 0x8c001000); (SH4_REG_VBR, 0x8c000000)] ∅ in
  {| reg := reg c; delayed_branch := false; delayed_branch_addr := 0; exec_state := SH4_EXEC_STATE_NORM;
     last_inst_type := SH4_GROUP_NONE; aborted_operation := false; sq := sq c; intc := idle_intc;
     fround := FE_TONEAREST; world := h |}.
Definition no_masks : holly_intc := fun _ => 0.
(** vertical blank at level 6, GD-ROM at level 2 *)
Definition two_masks : holly_intc := <[reg_iml6nrm := 0x8]> (<[reg_iml2ext := 0x1]> no_masks).

Definition always : bool -> holly_intc -> Prop := fun _ _ => True.
Lemma holly_alone_refresh : refresh_total always.
Proof. intros w. by exists w. Qed.
Lemma holly_cpu_ready sr h : in_range 32 sr -> intc_ready always (holly_cpu sr h).
Proof.
  intros Hsr. split; [|done| |done]; [|apply list.Forall_replicate; by left]. split; [done|].
  unfold holly_cpu. cbn [reg cpu_with fold_left]. repeat apply list.Forall_insert; try done.
  by apply list.Forall_replicate.
Qed.

Lemma holly_int_delivered_witness :
  exists s', holly_raise (inl HOLLY_NRM_INT_VBLANK_IN) (holly_cpu 0x40000000 two_masks) = Ok (tt, s') /\
    getr SH4_REG_PC s' = 0x8c000600 /\ getr SH4_REG_INTEVT s' = 0x320.
Proof.
  destruct (holly_int_delivered always ltac:(done) (inl HOLLY_NRM_INT_VBLANK_IN) (holly_cpu 0x40000000 two_masks) 0x9)
    as (s' & H & Hpc & Hev & _);
    [exact holly_alone_refresh|done|by apply holly_cpu_ready|reflexivity|reflexivity|by vm_compute|by vm_compute|reflexivity|..].
  - split; [by vm_compute|]. intros l Hl [Hne _]. exfalso. apply Hne. unfold irq_line. rewrite nth_lookup.
    cbn [intc holly_cpu idle_intc irq_lines]. by destruct (Z.to_nat l) as [|[|[|[|[|[|[|[|[|[|[|[|[|[|[|[|n]]]]]]]]]]]]]]]].
  - exists s'. rewrite Hpc, Hev. split; [exact H|]. split; reflexivity.
Defined.

Lemma holly_regs_typed_witness :
  exists s', run_holly_ops [OpWrite reg_iml2nrm 0xffffffff; OpRaise (inl HOLLY_NRM_INT_HBLANK);
                            OpRaise (inr HOLLY_EXT_INT_AICA); OpWrite reg_istnrm 0x20]
               (holly_cpu 0x400000f0 two_masks) = Ok (tt, s') /\ holly_typed (holly_of s').
Proof.
  apply (holly_regs_typed always); [done|by intros w w' [= <-]|exact holly_alone_refresh|by apply holly_cpu_ready| |].
  - by split; vm_compute.
  - repeat apply List.Forall_cons; done.
Defined.

Lemma holly_unmask_lost_witness :
  exists s1 s2, holly_raise_nrm_int HOLLY_NRM_INT_VBLANK_IN (holly_cpu 0x40000000 no_masks) = Ok (tt, s1) /\
    run_holly_op (OpWrite reg_iml6nrm 0x8) s1 = Ok (tt, s2) /\ getr SH4_REG_PC s2 = 0x8c001000 /\ irl_val s2 = 0xf.
Proof.
  destruct (holly_unmask_lost HOLLY_NRM_INT_VBLANK_IN reg_iml6nrm (holly_cpu 0x40000000 no_masks) 0x8)
    as (s1 & s2 & H1 & H2 & Hs & _); [done|tauto|].
  exists s1, s2. split; [exact H1|]. split; [exact H2|]. rewrite Hs. split; reflexivity.
Defined.

Lemma holly_low_overwrites_high_witness :
  exists s1 s2, holly_raise (inl HOLLY_NRM_INT_VBLANK_IN) (holly_cpu 0x50000000 two_masks) = Ok (tt, s1) /\
    irl_val s1 = 0x9 /\ holly_raise (inr HOLLY_EXT_INT_GDROM) s1 = Ok (tt, s2) /\ irl_val s2 = 0xd.
Proof.
  destruct (holly_low_overwrites_high (inl HOLLY_NRM_INT_VBLANK_IN) (inr HOLLY_EXT_INT_GDROM)
              (holly_cpu 0x50000000 two_masks) 0x9 0xd) as (s1 & s2 & H1 & V1 & H2 & V2 & _); try reflexivity.
  by exists s1, s2.
Defined.
