(* ===== verification/Events.v ===== *)
(** Devices on the event clock: how a device schedules, cancels and receives its events
    (the calls of src/libwashdc/dc_sched.c in hw/pvr2/spg.c, hw/sh4/sh4_dmac.c and hw/sh4/sh4_excp.c),
    in terms of the set of queued events and their time stamps. *)
From stdpp Require Import gmap sorting.
From S2P Require Import Prelude MemoryMap Memory Sh4State Sched.
Import sched.

(** the clock [sh4_clock] in the rest of the machine *)
Class EventWorld (W : Type) : Type := {
  evclk : W -> dc_clock;
  set_evclk : dc_clock -> W -> W
}.
Class EventWorldLaws (W : Type) `{!EventWorld W} : Prop := {
  evclk_set : forall c w, evclk (set_evclk c w) = c;
  evclk_set_set : forall c d w, set_evclk c (set_evclk d w) = set_evclk c w
}.

Section on_clock.
Context {W : Type} {EW : EventWorld W}.

Definition evclk_of (s : Sh4 W) : dc_clock := evclk (world s).
Definition with_evclk (c : dc_clock) (s : Sh4 W) : Sh4 W := with_world (set_evclk c (world s)) s.
Definition on_evclk {A} (m : M dc_clock A) : M (Sh4 W) A :=
  fun s => match m (evclk_of s) with
           | Ok (a, c) => Ok (a, with_evclk c s)
           | Err e => Err e
           end.

Lemma on_evclk_ok {A} (m : M dc_clock A) s a c : m (evclk_of s) = Ok (a, c) -> on_evclk m s = Ok (a, with_evclk c s).
Proof. unfold on_evclk. by intros ->. Qed.

Lemma on_evclk_bind {EL : EventWorldLaws W} {A B C} (m : M dc_clock A) (k : A -> M dc_clock B) (f : B -> M (Sh4 W) C) s :
  bind (on_evclk m) (fun a => bind (on_evclk (k a)) f) s = bind (on_evclk (bind m k)) f s.
Proof.
  unfold bind, on_evclk. destruct (m (evclk_of s)) as [[a c]|]; [|done].
  unfold evclk_of at 1, with_evclk at 1. cbn [world with_world]. rewrite evclk_set.
  destruct (k a c) as [[b c']|]; [|done]. unfold with_evclk. cbn. by rewrite evclk_set_set.
Qed.
End on_clock.

(** ** The queue as a set *)
Section clock.
Context {CFG : BuildConfig}.
Implicit Types c : dc_clock.

(** no queued event lies in the past, and the CPU runs up to the first one *)
Record clock_ok c (l : list Z) : Prop := {
  ck_queue : queue c l;
  ck_target : clock_target_stamp c = target_of c l;
  ck_future : Forall (fun i => clock_cycle_stamp c <= stamp (events c) i) l
}.

(** the events that satisfy [P] keep their stamps *)
Definition keeps_stamps (P : Z -> Prop) c c' : Prop :=
  clock_cycle_stamp c' = clock_cycle_stamp c /\
  forall i, (is_Some (events c !! i) -> is_Some (events c' !! i)) /\
            (P i -> stamp (events c') i = stamp (events c) i).

Lemma op_post_keeps c c' l' : op_post c c' l' -> keeps_stamps (fun _ => True) c c'.
Proof.
  intros [_ Hs Hc _]. split; [done|]. intros i. split; [|intros _; by apply same_stamps_stamp].
  specialize (Hs i). intros [x Hx]. rewrite Hx in Hs. destruct (events c' !! i); [by eexists|done].
Qed.

Lemma op_post_ok c c' l' : op_post c c' l' ->
  Forall (fun i => clock_cycle_stamp c <= stamp (events c) i) l' -> clock_ok c' l'.
Proof.
  intros Hp Hf. destruct (op_post_keeps _ _ _ Hp) as [Hc Hs]. destruct Hp as [Hq _ _ Ht]. split; [done..|].
  eapply list.Forall_impl; [exact Hf|]. intros i Hi. cbn in *. rewrite Hc. by destruct (Hs i) as [_ ->].
Qed.

(** [event.when = w; sched_event(clk, &event)] *)
Definition sched_at (e w : Z) : M dc_clock unit := set_when e w ;; sched_event e.

Lemma sched_at_ok c l e w :
  clock_ok c l -> e ∉ l -> is_Some (events c !! e) -> clock_cycle_stamp c <= w ->
  exists c' l', sched_at e w c = Ok (tt, c') /\ clock_ok c' l' /\ l' ≡ₚ e :: l /\
    stamp (events c') e = w /\ keeps_stamps (fun i => i <> e) c c'.
Proof.
  intros [Hq Ht Hf] He Hev Hw. destruct (set_when_ok c l e w Hq He Hev) as (c1 & H1 & Hq1 & Hn1 & Hs1 & Hev1 & Ho1).
  destruct (sched_event_ok c1 l e Hq1 He Hev1) as (c2 & H2 & Hp2); [lia|].
  exists c2, (insert_event (stamp (events c1)) e l). unfold sched_at. rewrite (bind_ok _ _ _ _ _ H1). split; [done|].
  destruct (op_post_keeps _ _ _ Hp2) as [Hn2 Hs2]. pose proof (insert_event_perm (stamp (events c1)) e l) as Hperm.
  split_and!; [| done| |].
  - eapply op_post_ok; [exact Hp2|]. rewrite Hperm. apply list.Forall_cons. split; [lia|].
    rewrite list.Forall_forall in Hf |- *. intros i Hi. rewrite Hn1, Ho1 by set_solver. by apply Hf.
  - by destruct (Hs2 e) as [_ ->].
  - split; [lia|]. intros i. destruct (Hs2 i) as [Hx Hy]. split.
    + intros Hi. apply Hx. destruct (decide (i = e)) as [->|Hne]; [done|].
      revert H1. unfold set_when, bind, get_event, put_event. destruct Hev as [ev Hev']. rewrite Hev', Hev'.
      intros [= <-]. cbn. by rewrite lookup_insert_ne.
    + intros Hne. rewrite Hy by done. by apply Ho1.
Qed.

Lemma cancel_ok c l e :
  clock_ok c l -> e ∈ l ->
  exists c' l', cancel_event e c = Ok (tt, c') /\ clock_ok c' l' /\ l ≡ₚ e :: l' /\ keeps_stamps (fun _ => True) c c'.
Proof.
  intros [Hq Ht Hf] He. apply list_elem_of_split in He as (l1 & l2 & ->).
  destruct (cancel_event_ok c l1 e l2 Hq) as (c' & H & Hp).
  { intros _. rewrite list.Forall_forall in Hf. apply Hf. set_solver. }
  exists c', (l1 ++ l2). split; [done|]. split_and!.
  - eapply op_post_ok; [exact Hp|]. rewrite !list.Forall_app, list.Forall_cons in *. naive_solver.
  - by rewrite Permutation_middle.
  - by eapply op_post_keeps.
Qed.

(** the CPU runs to the target stamp, and the first event is taken from the queue *)
Definition next_event_turn : M dc_clock (option Z) :=
  t <- gets clock_target_stamp ;; modify (clock_set_cycle_stamp t) ;; pop_event.

Lemma next_event_turn_ok c e l :
  clock_ok c (e :: l) ->
  exists c', next_event_turn c = Ok (Some e, c') /\ clock_ok c' l /\ clock_cycle_stamp c' = stamp (events c) e /\
    (forall i, stamp (events c') i = stamp (events c) i) /\
    (forall i, is_Some (events c !! i) -> is_Some (events c' !! i)).
Proof.
  intros [Hq Ht Hf]. unfold next_event_turn. rewrite (bind_ok _ _ _ (clock_target_stamp c) c eq_refl). rewrite Ht. cbn [target_of].
  set (c1 := clock_set_cycle_stamp (stamp (events c) e) c). rewrite (bind_ok _ _ _ tt c1 eq_refl).
  destruct (set_cycle_frame (stamp (events c) e) c) as (E1 & E2 & E3 & E4). fold c1 in E1, E2, E3, E4.
  assert (Hq1 : queue c1 (e :: l)) by by eapply queue_ext.
  destruct (pop_event_ok c1 e l Hq1) as (c2 & H2 & Hp); [rewrite E2, E3; lia|].
  exists c2. split; [done|]. destruct (op_post_keeps _ _ _ Hp) as [Hn Hs].
  split_and!.
  - eapply op_post_ok; [exact Hp|]. rewrite E2, E3. destruct Hq as (_ & _ & _ & Hso). by inversion Hso.
  - by rewrite Hn, E3.
  - intros i. destruct (Hs i) as [_ ->]; [|done]. by rewrite E2.
  - intros i Hi. apply (Hs i). by rewrite E2.
Qed.
End clock.
