(* ===== verification/Spg.v ===== *)
(** The sync pulse generator of the PowerVR2 (src/libwashdc/hw/pvr2/spg.c, spg.h): the position of
    the raster beam, and the horizontal and vertical blank interrupts.

    The beam is not stepped: [spg_sync] computes its position from the time since the last call, and
    each interrupt has an event on the CPU's clock.  The divisions by the pixel clock are written
    without a test for 0: [pclk_div] is 2 from [spg_init] on, and [spg_set_pclk_div] takes 1 and 2. *)
From stdpp Require Import gmap sorting functions.
From S2P Require Import Prelude IntMath MemoryMap Memory Sh4State Board Sh4Core Sh4Excp Sched Sh4Exec.
From S2P Require Import Frame Sh4Irl Events Holly.
Import sched.

Inductive spg_reg_idx : Type := SPG_HBLANK_INT | SPG_VBLANK_INT | SPG_HBLANK | SPG_VBLANK | SPG_LOAD | SPG_CONTROL.
#[export] Instance spg_reg_idx_eq_dec : EqDecision spg_reg_idx.
Proof. solve_decision. Defined.

(** [struct pvr2_spg] without its events, which are in the clock's memory *)
Record pvr2_spg : Type := {
  spg_reg : spg_reg_idx -> Z;
  pclk_div : Z;
  last_sync_rounded : Z;
  pix_double_x : bool;
  pix_double_y : bool;
  raster_x : Z;
  raster_y : Z;
  hblank_event_scheduled : bool;
  vblank_in_event_scheduled : bool;
  vblank_out_event_scheduled : bool
}.

Definition upd_reg (r : spg_reg_idx) (v : Z) (p : pvr2_spg) : pvr2_spg :=
  {| spg_reg := <[r := v]> (spg_reg p); pclk_div := pclk_div p; last_sync_rounded := last_sync_rounded p;
     pix_double_x := pix_double_x p; pix_double_y := pix_double_y p; raster_x := raster_x p; raster_y := raster_y p;
     hblank_event_scheduled := hblank_event_scheduled p; vblank_in_event_scheduled := vblank_in_event_scheduled p;
     vblank_out_event_scheduled := vblank_out_event_scheduled p |}.
Definition upd_pclk_div (v : Z) (p : pvr2_spg) : pvr2_spg :=
  {| spg_reg := spg_reg p; pclk_div := v; last_sync_rounded := last_sync_rounded p;
     pix_double_x := pix_double_x p; pix_double_y := pix_double_y p; raster_x := raster_x p; raster_y := raster_y p;
     hblank_event_scheduled := hblank_event_scheduled p; vblank_in_event_scheduled := vblank_in_event_scheduled p;
     vblank_out_event_scheduled := vblank_out_event_scheduled p |}.
Definition upd_pix_double (x y : bool) (p : pvr2_spg) : pvr2_spg :=
  {| spg_reg := spg_reg p; pclk_div := pclk_div p; last_sync_rounded := last_sync_rounded p;
     pix_double_x := x; pix_double_y := y; raster_x := raster_x p; raster_y := raster_y p;
     hblank_event_scheduled := hblank_event_scheduled p; vblank_in_event_scheduled := vblank_in_event_scheduled p;
     vblank_out_event_scheduled := vblank_out_event_scheduled p |}.
Definition upd_raster (last x y : Z) (p : pvr2_spg) : pvr2_spg :=
  {| spg_reg := spg_reg p; pclk_div := pclk_div p; last_sync_rounded := last;
     pix_double_x := pix_double_x p; pix_double_y := pix_double_y p; raster_x := x; raster_y := y;
     hblank_event_scheduled := hblank_event_scheduled p; vblank_in_event_scheduled := vblank_in_event_scheduled p;
     vblank_out_event_scheduled := vblank_out_event_scheduled p |}.
Definition upd_flags (hb vi vo : bool) (p : pvr2_spg) : pvr2_spg :=
  {| spg_reg := spg_reg p; pclk_div := pclk_div p; last_sync_rounded := last_sync_rounded p;
     pix_double_x := pix_double_x p; pix_double_y := pix_double_y p; raster_x := raster_x p; raster_y := raster_y p;
     hblank_event_scheduled := hb; vblank_in_event_scheduled := vi; vblank_out_event_scheduled := vo |}.

(** the generator in the rest of the machine, the addresses of its events, and [dc_end_frame] of
    dreamcast.c, which draws the frame on the host *)
Class SpgWorld (W : Type) : Type := {
  spg : W -> pvr2_spg;
  set_spg : pvr2_spg -> W -> W;
  hblank_event : Z;
  vblank_in_event : Z;
  vblank_out_event : Z;
  dc_end_frame : M (Sh4 W) unit
}.

(** ** Register fields *)
Definition get_hcount (p : pvr2_spg) : Z := Z.land (spg_reg p SPG_LOAD) 0x3ff + 1.
Definition get_vcount (p : pvr2_spg) : Z := Z.land (Z.shiftr (spg_reg p SPG_LOAD) 16) 0x3ff + 1.
Definition get_hblank_int_pix (p : pvr2_spg) : Z := Z.land (Z.shiftr (spg_reg p SPG_HBLANK_INT) 16) 0x3ff.
Definition get_hblank_int_mode (p : pvr2_spg) : Z := Z.land (Z.shiftr (spg_reg p SPG_HBLANK_INT) 12) 0x3.
Definition get_hblank_int_comp_val (p : pvr2_spg) : Z := Z.land (spg_reg p SPG_HBLANK_INT) 0x3ff.
Definition get_vblank_in_int_line (p : pvr2_spg) : Z := Z.land (spg_reg p SPG_VBLANK_INT) 0x3ff.
Definition get_vblank_out_int_line (p : pvr2_spg) : Z := Z.land (Z.shiftr (spg_reg p SPG_VBLANK_INT) 16) 0x3ff.
Definition get_hbstart (p : pvr2_spg) : Z := Z.land (spg_reg p SPG_HBLANK) 0x3ff.
Definition get_hbend (p : pvr2_spg) : Z := Z.land (Z.shiftr (spg_reg p SPG_HBLANK) 16) 0x3ff.
Definition get_vbstart (p : pvr2_spg) : Z := Z.land (spg_reg p SPG_VBLANK) 0x3ff.
Definition get_vbend (p : pvr2_spg) : Z := Z.land (Z.shiftr (spg_reg p SPG_VBLANK) 16) 0x3ff.
Definition get_interlace (p : pvr2_spg) : bool := truth (Z.land (spg_reg p SPG_CONTROL) (Z.shiftl 1 4)).
Definition get_pclk_div (p : pvr2_spg) : Z := if get_interlace p then pclk_div p else u32 (pclk_div p * 2).
Definition SPG_VCLK_DIV : Z := SCHED_FREQUENCY / (54 * 1000 * 1000).

Section spg.
Context {W : Type} {CFG : BuildConfig} {MCH : Machine W} {HW : HollyWorld W} {EW : EventWorld W} {SW : SpgWorld W}.
Abbreviation sh4M := (M (Sh4 W)).

Definition spg_of (s : Sh4 W) : pvr2_spg := spg (world s).
Definition with_spg (p : pvr2_spg) (s : Sh4 W) : Sh4 W := with_world (set_spg p (world s)) s.
Definition spg_get {A} (f : pvr2_spg -> A) : sh4M A := gets (fun s => f (spg_of s)).
Definition spg_mod (f : pvr2_spg -> pvr2_spg) : sh4M unit := modify (fun s => with_spg (f (spg_of s)) s).
Definition set_hblank_scheduled (b : bool) : sh4M unit :=
  spg_mod (fun p => upd_flags b (vblank_in_event_scheduled p) (vblank_out_event_scheduled p) p).
Definition set_vblank_in_scheduled (b : bool) : sh4M unit :=
  spg_mod (fun p => upd_flags (hblank_event_scheduled p) b (vblank_out_event_scheduled p) p).
Definition set_vblank_out_scheduled (b : bool) : sh4M unit :=
  spg_mod (fun p => upd_flags (hblank_event_scheduled p) (vblank_in_event_scheduled p) b p).

(** ** The beam *)
Definition spg_sync : sh4M unit :=
  cur_time <- gets (fun s => clock_cycle_stamp (evclk_of s)) ;;
  p <- spg_get (fun p => p) ;;
  let delta_cycles := u64 (cur_time - last_sync_rounded p) in
  let div := u32 (get_pclk_div p * SPG_VCLK_DIV) in
  when (delta_cycles >=? div)
    (let hcount := get_hcount p in
     let vcount := get_vcount p in
     let raster_x_inc := u32 (delta_cycles / div) in
     let x := u32 (raster_x p + raster_x_inc) in
     let y := u32 (raster_y p + x / hcount) in
     spg_mod (upd_raster (u64 (div * (cur_time / div))) (x mod hcount) (y mod vcount))).

(** ** Scheduling *)

(** [event.when = (SPG_VCLK_DIV * get_pclk_div) * (pixels + clock_cycle_stamp / (...))] and [sched_event] *)
Definition pixel_stamp (p : pvr2_spg) (pixels now : Z) : Z :=
  let pclk := u64 (SPG_VCLK_DIV * get_pclk_div p) in u64 (pclk * u64 (pixels + now / pclk)).

Definition sched_next_hblank_event : sh4M unit :=
  p <- spg_get (fun p => p) ;;
  let hcount := get_hcount p in
  let vcount := get_vcount p in
  let hblank_int_comp_val := get_hblank_int_comp_val p in
  next_hblank_pclk <-
    match get_hblank_int_mode p with
    | 0 =>
        if hblank_int_comp_val <=? raster_y p
        then ret (u32 ((vcount - raster_y p + hblank_int_comp_val) * hcount - raster_x p))
        else ret (u32 ((hblank_int_comp_val - raster_y p) * hcount - raster_x p))
    | 1 =>
        if hblank_int_comp_val =? 0 then raise C_UNDEFINED
        else
          let next_hblank_line := u32 ((1 + u32 (raster_y p + 1) / hblank_int_comp_val) * hblank_int_comp_val - 1) in
          if next_hblank_line <? vcount
          then ret (u32 ((next_hblank_line - raster_y p) * hcount - raster_x p))
          else ret (u32 ((vcount - raster_y p + next_hblank_line) * hcount - raster_x p))
    | 2 => ret (u32 (hcount - raster_x p))
    | _ => raise ERROR_UNIMPLEMENTED
    end ;;
  now <- gets (fun s => clock_cycle_stamp (evclk_of s)) ;;
  on_evclk (sched_at hblank_event (pixel_stamp p next_hblank_pclk now)) ;;
  set_hblank_scheduled true.

(** the pixels up to the start of [line] *)
Definition pixels_until_line (p : pvr2_spg) (line : Z) : Z :=
  let lines_until := if raster_y p <? line then u32 (line - raster_y p) else u32 (get_vcount p - raster_y p + line) in
  u32 (lines_until * get_hcount p - raster_x p).

Definition sched_next_vblank_in_event : sh4M unit :=
  p <- spg_get (fun p => p) ;;
  now <- gets (fun s => clock_cycle_stamp (evclk_of s)) ;;
  let when_ := pixel_stamp p (pixels_until_line p (get_vblank_in_int_line p)) now in
  on_evclk (set_when vblank_in_event when_) ;;
  when (INVARIANTS && (u64 (when_ - now) >=? SCHED_FREQUENCY)) (raise ERROR_INTEGRITY) ;;
  on_evclk (sched_event vblank_in_event) ;;
  set_vblank_in_scheduled true.

Definition sched_next_vblank_out_event : sh4M unit :=
  p <- spg_get (fun p => p) ;;
  now <- gets (fun s => clock_cycle_stamp (evclk_of s)) ;;
  let when_ := pixel_stamp p (pixels_until_line p (get_vblank_out_int_line p)) now in
  on_evclk (set_when vblank_out_event when_) ;;
  when (INVARIANTS && (u64 (when_ - now) >=? SCHED_FREQUENCY)) (raise ERROR_INTEGRITY) ;;
  on_evclk (sched_event vblank_out_event) ;;
  set_vblank_out_scheduled true.

Definition sched_all : sh4M unit :=
  sched_next_hblank_event ;; sched_next_vblank_in_event ;; sched_next_vblank_out_event.

Definition spg_unsched_all : sh4M unit :=
  hb <- spg_get hblank_event_scheduled ;;
  when hb (on_evclk (cancel_event hblank_event) ;; set_hblank_scheduled false) ;;
  vi <- spg_get vblank_in_event_scheduled ;;
  when vi (on_evclk (cancel_event vblank_in_event) ;; set_vblank_in_scheduled false) ;;
  vo <- spg_get vblank_out_event_scheduled ;;
  when vo (on_evclk (cancel_event vblank_out_event) ;; set_vblank_out_scheduled false).

(** [memset] of the structure, and [spg_init] *)
Definition spg_zero : pvr2_spg :=
  {| spg_reg := fun _ => 0; pclk_div := 0; last_sync_rounded := 0; pix_double_x := false; pix_double_y := false;
     raster_x := 0; raster_y := 0; hblank_event_scheduled := false; vblank_in_event_scheduled := false;
     vblank_out_event_scheduled := false |}.
Definition spg_init : sh4M unit :=
  spg_mod (fun p =>
    let p := upd_pclk_div 2 p in
    let p := upd_reg SPG_HBLANK_INT (Z.shiftl 0x31d 16) p in
    let p := upd_reg SPG_VBLANK_INT 0x00150104 p in
    let p := upd_reg SPG_HBLANK 0x007e0345 p in
    let p := upd_reg SPG_VBLANK 0x00150104 p in
    upd_reg SPG_LOAD (Z.lor (Z.shiftl 0x106 16) 0x359) p) ;;
  sched_all.

(** ** Event handlers *)
Definition check_hblank : sh4M unit :=
  p <- spg_get (fun p => p) ;;
  let hblank_int_mode := get_hblank_int_mode p in
  let hblank_int_comp_val := get_hblank_int_comp_val p in
  if negb (raster_x p =? 0) then raise ERROR_INTEGRITY
  else match hblank_int_mode with
       | 0 => when (negb (raster_y p =? hblank_int_comp_val)) (raise ERROR_INTEGRITY)
       | 1 => when (truth hblank_int_comp_val && negb (raster_y p mod hblank_int_comp_val =? 0)) (raise ERROR_INTEGRITY)
       | 2 => ret tt
       | _ => raise ERROR_UNIMPLEMENTED
       end.
Definition spg_handle_hblank : sh4M unit :=
  spg_sync ;;
  when INVARIANTS check_hblank ;;
  holly_raise_nrm_int HOLLY_NRM_INT_HBLANK ;;
  sched_next_hblank_event.

Definition spg_handle_vblank_in : sh4M unit :=
  spg_sync ;;
  holly_raise_nrm_int HOLLY_NRM_INT_VBLANK_IN ;;
  sched_next_vblank_in_event ;;
  dc_end_frame.

Definition spg_handle_vblank_out : sh4M unit :=
  spg_sync ;;
  holly_raise_nrm_int HOLLY_NRM_INT_VBLANK_OUT ;;
  sched_next_vblank_out_event.

(** ** The interface to the registers *)
Definition spg_set_pclk_div (val : Z) : sh4M unit :=
  if negb (val =? 1) && negb (val =? 2) then raise ERROR_INVALID_PARAM
  else
    spg_sync ;; spg_unsched_all ;;
    spg_mod (upd_pclk_div val) ;;
    spg_sync ;; sched_all.
Definition spg_set_pix_double_x (val : bool) : sh4M unit := spg_mod (fun p => upd_pix_double val (pix_double_y p) p).
Definition spg_set_pix_double_y (val : bool) : sh4M unit := spg_mod (fun p => upd_pix_double (pix_double_x p) val p).

(** the write of a register that moves the events *)
Definition set_timing_reg (r : spg_reg_idx) (val : Z) : sh4M unit :=
  spg_sync ;; spg_unsched_all ;;
  spg_mod (upd_reg r val) ;;
  spg_sync ;; sched_all.
Definition pvr2_spg_set_hblank_int (val : Z) : sh4M unit := set_timing_reg SPG_HBLANK_INT val.
Definition pvr2_spg_set_vblank_int (val : Z) : sh4M unit := set_timing_reg SPG_VBLANK_INT val.
Definition pvr2_spg_set_load (val : Z) : sh4M unit := set_timing_reg SPG_LOAD val.
Definition pvr2_spg_set_control (val : Z) : sh4M unit := spg_mod (upd_reg SPG_CONTROL val).
Definition pvr2_spg_set_hblank (val : Z) : sh4M unit := spg_mod (upd_reg SPG_HBLANK val).
Definition pvr2_spg_set_vblank (val : Z) : sh4M unit := spg_mod (upd_reg SPG_VBLANK val).

Definition get_spg_control : sh4M Z := spg_get (fun p => spg_reg p SPG_CONTROL).
Definition pvr2_spg_get_hblank_int : sh4M Z := spg_get (fun p => spg_reg p SPG_HBLANK_INT).
Definition pvr2_spg_get_vblank_int : sh4M Z := spg_get (fun p => spg_reg p SPG_VBLANK_INT).
Definition pvr2_spg_get_load : sh4M Z := spg_get (fun p => spg_reg p SPG_LOAD).
Definition pvr2_spg_get_control : sh4M Z := spg_get (fun p => spg_reg p SPG_CONTROL).
Definition pvr2_spg_get_hblank : sh4M Z := spg_get (fun p => spg_reg p SPG_HBLANK).
Definition pvr2_spg_get_vblank : sh4M Z := spg_get (fun p => spg_reg p SPG_VBLANK).
Definition pvr2_spg_get_status : sh4M Z :=
  spg_sync ;;
  p <- spg_get (fun p => p) ;;
  let spg_stat := Z.land 0x3ff (raster_y p) in
  let spg_stat := if (raster_y p <? get_vbend p) || (raster_y p >=? get_vbstart p)
                  then Z.lor spg_stat (Z.shiftl 1 13) else spg_stat in
  let spg_stat := if (raster_x p <? get_hbend p) || (raster_x p >=? get_hbstart p)
                  then Z.lor spg_stat (Z.shiftl 1 12) else spg_stat in
  ret spg_stat.
End spg.

(** ** A beam that moves *)

(** one pixel: to the right, at the end of a line to the next one, and at the end of the frame to
    its start *)
Definition beam_tick (hcount vcount : Z) (b : Z * Z) : Z * Z :=
  let '(x, y) := b in
  if x + 1 <? hcount then (x + 1, y) else (0, if y + 1 <? vcount then y + 1 else 0).
Definition beam_ticks (hcount vcount : Z) (n : nat) (b : Z * Z) : Z * Z := Nat.iter n (beam_tick hcount vcount) b.

(** the number of pixels from the start of the frame *)
Definition beam_pos (hcount : Z) (b : Z * Z) : Z := snd b * hcount + fst b.
Definition beam_at (hcount vcount pos : Z) : Z * Z := (pos mod hcount, (pos / hcount) mod vcount).

Section beam.
Context (H V : Z) (H_pos : 0 < H) (V_pos : 0 < V).

Lemma beam_at_pos b : 0 <= fst b < H -> 0 <= snd b < V -> beam_at H V (beam_pos H b) = b.
Proof.
  intros Hx Hy. destruct b as [x y]. unfold beam_at, beam_pos. cbn in *.
  rewrite Z.add_comm, Z.mod_add, Z.div_add by lia. rewrite Z.mod_small, Z.div_small by lia. cbn.
  by rewrite Z.mod_small by lia.
Qed.

Lemma beam_at_next pos : 0 <= pos -> beam_tick H V (beam_at H V pos) = beam_at H V (pos + 1).
Proof.
  intros Hp. unfold beam_tick, beam_at.
  assert (E : pos = H * (pos / H) + pos mod H) by (apply Z.div_mod; lia).
  pose proof (Z.mod_pos_bound pos H H_pos). pose proof (Z.mod_pos_bound (pos / H) V V_pos).
  destruct (Z.ltb_spec (pos mod H + 1) H).
  - rewrite <- (Z.mod_unique_pos (pos + 1) H (pos / H) (pos mod H + 1)) by lia.
    by rewrite <- (Z.div_unique_pos (pos + 1) H (pos / H) (pos mod H + 1)) by lia.
  - rewrite <- (Z.mod_unique_pos (pos + 1) H (pos / H + 1) 0) by lia.
    rewrite <- (Z.div_unique_pos (pos + 1) H (pos / H + 1) 0) by lia. f_equal.
    set (q := pos / H) in *. assert (E2 : q = V * (q / V) + q mod V) by (apply Z.div_mod; lia).
    destruct (Z.ltb_spec (q mod V + 1) V).
    + by rewrite <- (Z.mod_unique_pos (q + 1) V (q / V) (q mod V + 1)) by lia.
    + by rewrite <- (Z.mod_unique_pos (q + 1) V (q / V + 1) 0) by lia.
Qed.

Lemma beam_ticks_at n pos : 0 <= pos -> beam_ticks H V n (beam_at H V pos) = beam_at H V (pos + Z.of_nat n).
Proof.
  intros Hp. induction n as [|n IH]; [by rewrite Z.add_0_r|].
  change (beam_ticks H V (S n) (beam_at H V pos)) with (beam_tick H V (beam_ticks H V n (beam_at H V pos))). rewrite IH, beam_at_next by lia. f_equal. lia.
Qed.

Lemma beam_pos_at pos : 0 <= pos -> beam_pos H (beam_at H V pos) = pos mod (H * V).
Proof.
  intros Hp. unfold beam_pos, beam_at. cbn [fst snd]. rewrite Z.rem_mul_r by lia. lia.
Qed.
End beam.

Class SpgWorldLaws (W : Type) `{!SpgWorld W, !EventWorld W, !HollyWorld W} : Prop := {
  spg_set : forall p w, spg (set_spg p w) = p;
  spg_set_same : forall w, set_spg (spg w) w = w;
  spg_evclk : forall c w, spg (set_evclk c w) = spg w;
  spg_holly : forall h w, spg (set_holly h w) = spg w;
  evclk_spg : forall p w, evclk (set_spg p w) = evclk w;
  evclk_holly : forall h w, evclk (set_holly h w) = evclk w;
  holly_spg : forall p w, holly (set_spg p w) = holly w;
  holly_evclk : forall c w, holly (set_evclk c w) = holly w
}.

(** ** Synchronization *)
Definition pixel_cycles (p : pvr2_spg) : Z := SPG_VCLK_DIV * get_pclk_div p.
Definition beam (p : pvr2_spg) : Z * Z := (raster_x p, raster_y p).
Definition pos (p : pvr2_spg) : Z := beam_pos (get_hcount p) (beam p).
(** the pixels since the last synchronization *)
Definition pixels_since (now : Z) (p : pvr2_spg) : Z := now / pixel_cycles p - last_sync_rounded p / pixel_cycles p.

(** the beam is in the frame, and the last synchronization was at the start of a pixel *)
Record beam_ok (p : pvr2_spg) (now : Z) : Prop := {
  bk_div : pclk_div p = 1 \/ pclk_div p = 2;
  bk_x : 0 <= raster_x p < get_hcount p;
  bk_y : 0 <= raster_y p < get_vcount p;
  bk_last : last_sync_rounded p = pixel_cycles p * (last_sync_rounded p / pixel_cycles p);
  bk_past : 0 <= last_sync_rounded p <= now;
  bk_now : now < 2 ^ 62
}.

Definition synced_at (now : Z) (p : pvr2_spg) : pvr2_spg :=
  let b := beam_at (get_hcount p) (get_vcount p) (pos p + pixels_since now p) in
  upd_raster (pixel_cycles p * (now / pixel_cycles p)) (fst b) (snd b) p.

Lemma field_range v n : 0 <= Z.land (Z.shiftr v n) 0x3ff < 1024.
Proof. change 0x3ff with (Z.ones 10). rewrite Z.land_ones by lia. apply Z.mod_pos_bound. lia. Qed.
Lemma field_range0 v : 0 <= Z.land v 0x3ff < 1024.
Proof. exact (field_range v 0). Qed.
Lemma hcount_range p : 1 <= get_hcount p <= 1024.
Proof. unfold get_hcount. pose proof (field_range0 (spg_reg p SPG_LOAD)). lia. Qed.
Lemma vcount_range p : 1 <= get_vcount p <= 1024.
Proof. unfold get_vcount. pose proof (field_range (spg_reg p SPG_LOAD) 16). lia. Qed.
Lemma pixel_cycles_val p : pclk_div p = 1 \/ pclk_div p = 2 ->
  get_pclk_div p = 1 \/ get_pclk_div p = 2 \/ get_pclk_div p = 4.
Proof. unfold get_pclk_div. intros [->| ->]; destruct (get_interlace p); cbn; auto. Qed.
Lemma pixel_cycles_range p : pclk_div p = 1 \/ pclk_div p = 2 -> 100 <= pixel_cycles p <= 400.
Proof. intros Hd. unfold pixel_cycles. change SPG_VCLK_DIV with 100. pose proof (pixel_cycles_val p Hd). lia. Qed.

Lemma pixels_since_nonneg p now : beam_ok p now -> 0 <= pixels_since now p.
Proof.
  intros [Hd _ _ _ Hp _]. unfold pixels_since. pose proof (pixel_cycles_range p Hd).
  pose proof (Z.div_le_mono (last_sync_rounded p) now (pixel_cycles p)). lia.
Qed.

Lemma synced_beam_ok p now : beam_ok p now -> beam_ok (synced_at now p) now.
Proof.
  intros [Hd Hx Hy Hl Hp Hn]. pose proof (pixel_cycles_range _ Hd) as HD. pose proof (hcount_range p). pose proof (vcount_range p).
  pose proof (Z.div_mod now (pixel_cycles p) ltac:(lia)). pose proof (Z.mod_pos_bound now (pixel_cycles p) ltac:(lia)).
  pose proof (Z.div_pos now (pixel_cycles p) ltac:(lia) ltac:(lia)). split.
  - exact Hd.
  - change (0 <= (pos p + pixels_since now p) mod get_hcount p < get_hcount p). apply Z.mod_pos_bound. lia.
  - change (0 <= ((pos p + pixels_since now p) / get_hcount p) mod get_vcount p < get_vcount p). apply Z.mod_pos_bound. lia.
  - change (pixel_cycles p * (now / pixel_cycles p) = pixel_cycles p * ((pixel_cycles p * (now / pixel_cycles p)) / pixel_cycles p)).
    rewrite (Z.mul_comm (pixel_cycles p) (now / _)) at 2. by rewrite Z.div_mul by lia.
  - change (0 <= pixel_cycles p * (now / pixel_cycles p) <= now). nia.
  - exact Hn.
Qed.

Section sync.
Context {W : Type} {CFG : BuildConfig} {MCH : Machine W} {HW : HollyWorld W} {EW : EventWorld W} {SW : SpgWorld W}.
Context {SL : SpgWorldLaws W} {HL : HollyWorldLaws W} {EL : EventWorldLaws W}.
Implicit Types s : Sh4 W.

Definition now_of s : Z := clock_cycle_stamp (evclk_of s).

Lemma spg_of_with_spg p s : spg_of (with_spg p s) = p.
Proof. apply spg_set. Qed.
Lemma evclk_of_with_spg p s : evclk_of (with_spg p s) = evclk_of s.
Proof. apply evclk_spg. Qed.
Lemma spg_of_with_evclk c s : spg_of (with_evclk c s) = spg_of s.
Proof. apply spg_evclk. Qed.
Lemma evclk_of_with_evclk c s : evclk_of (with_evclk c s) = c.
Proof. apply evclk_set. Qed.
Lemma with_spg_same s : with_spg (spg_of s) s = s.
Proof. unfold with_spg, spg_of. rewrite spg_set_same. by destruct s. Qed.

Lemma upd_raster_same p : upd_raster (last_sync_rounded p) (raster_x p) (raster_y p) p = p.
Proof. by destruct p. Qed.

Lemma spg_sync_eq s :
  beam_ok (spg_of s) (now_of s) -> pixels_since (now_of s) (spg_of s) <= 2 ^ 31 ->
  spg_sync s = Ok (tt, with_spg (synced_at (now_of s) (spg_of s)) s).
Proof.
  intros Hb Hs. pose proof (pixels_since_nonneg _ _ Hb) as Hs0. destruct Hb as [Hd Hx Hy Hl Hp Hn].
  unfold spg_sync. rewrite (bind_ok _ _ _ (now_of s) s eq_refl), (bind_ok _ _ _ (spg_of s) s eq_refl).
  set (p := spg_of s) in *. set (now := now_of s) in *. pose proof (pixel_cycles_range p Hd) as HD.
  pose proof (hcount_range p). pose proof (vcount_range p).
  replace (u32 (get_pclk_div p * SPG_VCLK_DIV)) with (pixel_cycles p).
  2: { unfold pixel_cycles. rewrite Z.mul_comm. symmetry. apply wrap_small. unfold pixel_cycles in HD. unfold in_range. lia. }
  rewrite (wrap_small 64 (now - _)) by (unfold in_range; lia).
  unfold synced_at. fold now p. set (D := pixel_cycles p) in *.
  assert (Hdelta : (now - last_sync_rounded p) / D = pixels_since now p).
  { unfold pixels_since. fold D. rewrite Hl at 1. rewrite Z.mul_comm, <- Z.add_opp_r, <- Z.mul_opp_l, Z.div_add by lia. lia. }
  assert (Hpos : 0 <= pos p) by (unfold pos, beam_pos, beam; cbn; nia).
  destruct (Z.geb_spec (now - last_sync_rounded p) D) as [Hge|Hlt]; cbn [when].
  - rewrite Hdelta. set (n := pixels_since now p) in *.
    assert (En : u32 n = n) by (apply wrap_small; unfold in_range; lia). rewrite En.
    assert (Ex : u32 (raster_x p + n) = raster_x p + n) by (apply wrap_small; unfold in_range; lia). rewrite Ex.
    assert (Hdv : 0 <= (raster_x p + n) / get_hcount p <= raster_x p + n).
    { split; [apply Z.div_pos; lia|]. apply Z.div_le_upper_bound; nia. }
    rewrite (wrap_small 32 (raster_y p + _)) by (unfold in_range; lia).
    assert (0 <= D * (now / D) <= now) by (split; [pose proof (Z.div_pos now D); nia|apply Z.mul_div_le; lia]).
    rewrite (wrap_small 64) by (unfold in_range; lia).
    unfold spg_mod, modify. repeat f_equal. fold p. f_equal; unfold beam_at, pos, beam_pos, beam; cbn [fst snd].
    + rewrite <- (Z.mod_add (raster_x p + n) (raster_y p)) by lia. f_equal. lia.
    + unfold pos, beam_pos, beam. cbn [fst snd]. unfold beam_at. cbn [fst snd].
      replace (raster_y p * get_hcount p + raster_x p + n) with (raster_x p + n + raster_y p * get_hcount p) by lia.
      rewrite Z.div_add by lia. f_equal. lia.
  - assert (En : pixels_since now p = 0) by (rewrite <- Hdelta; apply Z.div_small; lia).
    rewrite En, Z.add_0_r. unfold pos. rewrite beam_at_pos by (cbn; lia). cbn [fst snd beam].
    replace (D * (now / D)) with (last_sync_rounded p).
    2: { unfold pixels_since in En. fold D in En. rewrite Hl. f_equal. lia. }
    rewrite upd_raster_same. unfold p. by rewrite with_spg_same.
Qed.

End sync.
