(* ===== verification/SpgEvents.v ===== *)
(** The events of the sync pulse generator (src/libwashdc/hw/pvr2/spg.c): the blank interrupts come when
    the beam is where the registers say, once per frame or line, and this goes on for ever. *)
From stdpp Require Import gmap sorting functions.
From S2P Require Import Prelude IntMath MemoryMap Memory Sh4State Board Sh4Core Sh4Excp Sched Sh4Exec.
From S2P Require Import Frame Sh4Irl Events Holly Spg.
Import sched.

Inductive spg_ev : Type := HB | VI | VO.
#[export] Instance spg_ev_eq_dec : EqDecision spg_ev.
Proof. solve_decision. Defined.

(** the pixels in a frame *)
Definition frame_pixels (p : pvr2_spg) : Z := get_hcount p * get_vcount p.
(** an event comes every [ev_period] pixels, when the beam is at [ev_target] *)
Definition ev_period (p : pvr2_spg) (k : spg_ev) : Z :=
  match k with
  | HB => if get_hblank_int_mode p =? 2 then get_hcount p else frame_pixels p
  | VI | VO => frame_pixels p
  end.
Definition ev_target (p : pvr2_spg) (k : spg_ev) : Z :=
  match k with
  | HB => if get_hblank_int_mode p =? 2 then 0 else get_hblank_int_comp_val p * get_hcount p
  | VI => get_vblank_in_int_line p * get_hcount p
  | VO => get_vblank_out_int_line p * get_hcount p
  end.
Definition ev_flag (p : pvr2_spg) (k : spg_ev) : bool :=
  match k with
  | HB => hblank_event_scheduled p | VI => vblank_in_event_scheduled p | VO => vblank_out_event_scheduled p
  end.

(** the interrupts are on lines of the frame; a horizontal interrupt on one line or on every line *)
Record config_ok (p : pvr2_spg) : Prop := {
  cfg_mode : get_hblank_int_mode p = 2 \/ get_hblank_int_mode p = 0 /\ get_hblank_int_comp_val p < get_vcount p;
  cfg_in : get_vblank_in_int_line p < get_vcount p;
  cfg_out : get_vblank_out_int_line p < get_vcount p
}.

(** the pixels up to the next event *)
Definition line_until (p : pvr2_spg) (line : Z) : Z :=
  (if raster_y p <? line then line - raster_y p else get_vcount p - raster_y p + line) * get_hcount p - raster_x p.
Definition ev_until (p : pvr2_spg) (k : spg_ev) : Z :=
  match k with
  | HB => if get_hblank_int_mode p =? 2 then get_hcount p - raster_x p else line_until p (get_hblank_int_comp_val p)
  | VI => line_until p (get_vblank_in_int_line p)
  | VO => line_until p (get_vblank_out_int_line p)
  end.

(** an event [u] pixels after the beam is at [pos] *)
Definition due_in (p : pvr2_spg) (k : spg_ev) (u : Z) : Prop :=
  0 <= u <= ev_period p k /\ (pos p + u) mod ev_period p k = ev_target p k mod ev_period p k.

Lemma period_range p k : 1 <= ev_period p k <= 2 ^ 20 /\ (ev_period p k | frame_pixels p).
Proof.
  pose proof (hcount_range p). pose proof (vcount_range p).
  assert (Hf : 1 <= frame_pixels p <= 2 ^ 20) by (unfold frame_pixels; nia).
  destruct k; cbn [ev_period]; [|split; [done|reflexivity]..].
  destruct (_ =? _); [|split; [done|reflexivity]]. split; [lia|]. apply Z.divide_factor_l.
Qed.

Lemma line_until_spec p line :
  0 <= raster_x p < get_hcount p -> 0 <= raster_y p < get_vcount p -> 0 <= line < get_vcount p ->
  0 < line_until p line <= frame_pixels p /\
  (pos p + line_until p line) mod frame_pixels p = (line * get_hcount p) mod frame_pixels p.
Proof.
  intros Hx Hy Hl. unfold line_until, frame_pixels, pos, beam_pos, beam. cbn [fst snd].
  destruct (Z.ltb_spec (raster_y p) line).
  - split; [nia|]. f_equal. lia.
  - split; [nia|]. rewrite <- (Z.mod_add (line * get_hcount p) 1 (get_hcount p * get_vcount p)) by nia. f_equal. lia.
Qed.

Lemma until_spec p k :
  0 <= raster_x p < get_hcount p -> 0 <= raster_y p < get_vcount p -> config_ok p ->
  0 < ev_until p k /\ due_in p k (ev_until p k).
Proof.
  intros Hx Hy [Hm Hi Ho]. unfold due_in. pose proof (field_range0 (spg_reg p SPG_VBLANK_INT)).
  pose proof (field_range (spg_reg p SPG_VBLANK_INT) 16). pose proof (field_range0 (spg_reg p SPG_HBLANK_INT)).
  destruct k; cbn [ev_until ev_period ev_target].
  - destruct (Z.eqb_spec (get_hblank_int_mode p) 2).
    + split; [lia|]. split; [lia|]. unfold pos, beam_pos, beam. cbn [fst snd].
      replace (raster_y p * get_hcount p + raster_x p + (get_hcount p - raster_x p)) with ((raster_y p + 1) * get_hcount p) by lia.
      rewrite Z.mod_mul, Z.mod_0_l by lia. done.
    + destruct Hm as [?|[_ Hm]]; [done|]. unfold get_hblank_int_comp_val in *.
      destruct (line_until_spec p (Z.land (spg_reg p SPG_HBLANK_INT) 0x3ff)); [lia..|]. split; [lia|]. split; [lia|done].
  - destruct (line_until_spec p (get_vblank_in_int_line p)); [unfold get_vblank_in_int_line in *; lia..|]. split; [lia|]. split; [lia|done].
  - destruct (line_until_spec p (get_vblank_out_int_line p)); [unfold get_vblank_out_int_line in *; lia..|]. split; [lia|]. split; [lia|done].
Qed.

(** an event that is due at the beam's position is due again a whole period later *)
Lemma due_period p k u : due_in p k 0 -> 0 < u -> due_in p k u -> u = ev_period p k.
Proof.
  intros [_ H0] Hu [Hr Hm]. destruct (period_range p k) as [HP _]. rewrite Z.add_0_r in H0. rewrite <- H0 in Hm.
  assert (Hd : (ev_period p k | u)).
  { apply Z.mod_divide; [lia|]. replace u with (pos p + u - pos p) by lia. rewrite Zminus_mod, Hm, Z.sub_diag. by apply Z.mod_0_l; lia. }
  destruct Hd as [q Hq]. clear H0 Hm.
  assert (q = 1) by nia. subst q. lia.
Qed.

Lemma synced_due p k now u :
  beam_ok p now -> pixels_since now p <= u -> due_in p k u -> due_in (synced_at now p) k (u - pixels_since now p).
Proof.
  intros Hb Hn [Hr Hm]. pose proof (pixels_since_nonneg _ _ Hb). destruct (period_range p k) as [HP Hdiv].
  pose proof (hcount_range p). pose proof (vcount_range p). destruct Hb as [_ Hx Hy _ _ _].
  assert (Hp : pos (synced_at now p) = (pos p + pixels_since now p) mod frame_pixels p).
  { unfold frame_pixels. rewrite <- beam_pos_at; [done|lia..|]. unfold pos, beam_pos, beam. cbn. nia. }
  unfold due_in. change (ev_period (synced_at now p) k) with (ev_period p k). change (ev_target (synced_at now p) k) with (ev_target p k).
  split; [lia|]. rewrite Hp, <- Hm. rewrite <- Z.add_mod_idemp_l by lia. rewrite Z.mod_mod_divide by done.
  rewrite Z.add_mod_idemp_l by lia. f_equal. lia.
Qed.

(** ** The invariant *)

(** the CPU's deferred interrupt refresh is an event of the same clock (sh4_excp.c) *)
Class RefreshOnClock (W : Type) {CFG : BuildConfig} `{!Machine W, !EventWorld W} : Type := {
  refresh_event : Z;
  refresh_on_clock : forall w,
    sched_refresh_intc w =
      match sched_at refresh_event (clock_cycle_stamp (evclk w)) (evclk w) with
      | Ok (_, c) => Ok (set_evclk c w)
      | Err e => Err e
      end
}.

Section events.
Context {W : Type} {CFG : BuildConfig} {MCH : Machine W} {HW : HollyWorld W} {EW : EventWorld W} {SW : SpgWorld W}.
Context {SL : SpgWorldLaws W} {HL : HollyWorldLaws W} {EL : EventWorldLaws W} {RC : RefreshOnClock W}.
Implicit Types (s : Sh4 W) (w : W) (A : spg_ev -> bool).

Definition ev_addr (k : spg_ev) : Z :=
  match k with HB => hblank_event | VI => vblank_in_event | VO => vblank_out_event end.
Context (addrs_distinct : NoDup [hblank_event; vblank_in_event; vblank_out_event; refresh_event]).

Definition wnow w : Z := clock_cycle_stamp (evclk w).
Definition ev_stamp w (k : spg_ev) : Z := stamp (events (evclk w)) (ev_addr k).

(** the event is queued for the moment at which the beam reaches its target *)
Definition armed w (k : spg_ev) : Prop :=
  exists u, ev_stamp w k = last_sync_rounded (spg w) + pixel_cycles (spg w) * u /\ due_in (spg w) k u.

(** the events of other devices *)
Context (other : Z -> Prop).

(** the events of [A] are queued, and [rf] says whether the CPU's refresh is *)
Record spg_inv A (rf : bool) w (l : list Z) : Prop := {
  si_clock : clock_ok (evclk w) l;
  si_events : forall k, is_Some (events (evclk w) !! ev_addr k);
  si_revent : is_Some (events (evclk w) !! refresh_event);
  si_beam : beam_ok (spg w) (wnow w);
  si_recent : pixels_since (wnow w) (spg w) <= 2 ^ 31;
  si_cfg : config_ok (spg w);
  si_armed : forall k, A k = true -> ev_addr k ∈ l /\ armed w k /\ ev_flag (spg w) k = true;
  si_idle : forall k, A k = false -> ev_addr k ∉ l;
  si_refresh : refresh_event ∈ l <-> rf = true;
  si_closed : forall i, i ∈ l -> i = refresh_event \/ (exists k, i = ev_addr k) \/ other i
}.

Lemma addr_inj k j : ev_addr k = ev_addr j -> k = j.
Proof.
  pose proof addrs_distinct as Hd. rewrite !list.NoDup_cons in Hd. rewrite !not_elem_of_cons in Hd.
  destruct k, j; cbn [ev_addr]; intros E; try done; naive_solver.
Qed.
Lemma addr_refresh k : ev_addr k <> refresh_event.
Proof.
  pose proof addrs_distinct as Hd. rewrite !list.NoDup_cons in Hd. rewrite !not_elem_of_cons in Hd.
  destruct k; cbn [ev_addr]; naive_solver.
Qed.

(** the time since the synchronization does not go beyond a queued event *)
Lemma armed_recent w l k : clock_ok (evclk w) l -> beam_ok (spg w) (wnow w) -> ev_addr k ∈ l -> armed w k ->
  exists u, ev_stamp w k = last_sync_rounded (spg w) + pixel_cycles (spg w) * u /\ due_in (spg w) k u /\
    pixels_since (wnow w) (spg w) <= u.
Proof.
  intros [_ _ Hf] [Hd Hx Hy Hl Hp Hn] Hin (u & Hs & Hu). exists u. split_and!; [done..|].
  rewrite list.Forall_forall in Hf. specialize (Hf _ Hin). unfold ev_stamp in Hs. rewrite Hs in Hf. fold (wnow w) in Hf.
  unfold pixels_since. pose proof (pixel_cycles_range _ Hd). set (D := pixel_cycles (spg w)) in *.
  assert (wnow w / D <= (last_sync_rounded (spg w) + D * u) / D) as Hle by (apply Z.div_le_mono; lia).
  rewrite (Z.mul_comm D u), Z.div_add in Hle by lia. lia.
Qed.

Lemma spg_sync_inv A rf w l : spg_inv A rf w l -> spg_inv A rf (set_spg (synced_at (wnow w) (spg w)) w) l.
Proof.
  intros [Hc He Hr Hb Hn Hcfg Ha Hi Hrf Hcl]. set (p' := synced_at _ _).
  assert (Enow : wnow (set_spg p' w) = wnow w) by (unfold wnow; by rewrite evclk_spg).
  split; rewrite ?Enow, ?evclk_spg, ?spg_set; try done.
  - by apply synced_beam_ok.
  - unfold pixels_since, p'. change (pixel_cycles (synced_at (wnow w) (spg w))) with (pixel_cycles (spg w)).
    change (last_sync_rounded (synced_at (wnow w) (spg w))) with (pixel_cycles (spg w) * (wnow w / pixel_cycles (spg w))).
    destruct Hb as [Hd _ _ _ _ _]. pose proof (pixel_cycles_range _ Hd).
    rewrite (Z.mul_comm (pixel_cycles _)), Z.div_mul by lia. lia.
  - by destruct Hcfg.
  - intros k Hk. destruct (Ha k Hk) as (Hin & Har & Hfl). split_and!; [done| |by destruct k].
    destruct (armed_recent w l k Hc Hb Hin Har) as (u & Hs & Hu & Hle).
    exists (u - pixels_since (wnow w) (spg w)). unfold ev_stamp. rewrite evclk_spg, spg_set. split; [|by apply synced_due].
    unfold ev_stamp in Hs. rewrite Hs. destruct Hb as [Hd _ _ Hl _ _]. pose proof (pixel_cycles_range _ Hd).
    change (last_sync_rounded p') with (pixel_cycles (spg w) * (wnow w / pixel_cycles (spg w))).
    change (pixel_cycles p') with (pixel_cycles (spg w)). unfold pixels_since. lia.
Qed.

(** the beam is where the clock says *)
Definition in_sync w : Prop := last_sync_rounded (spg w) = pixel_cycles (spg w) * (wnow w / pixel_cycles (spg w)).
Lemma synced_in_sync w : in_sync (set_spg (synced_at (wnow w) (spg w)) w).
Proof. unfold in_sync, wnow. by rewrite spg_set, evclk_spg. Qed.

(** ** Scheduling *)
Definition set_flag (k : spg_ev) (b : bool) (p : pvr2_spg) : pvr2_spg :=
  match k with
  | HB => upd_flags b (vblank_in_event_scheduled p) (vblank_out_event_scheduled p) p
  | VI => upd_flags (hblank_event_scheduled p) b (vblank_out_event_scheduled p) p
  | VO => upd_flags (hblank_event_scheduled p) (vblank_in_event_scheduled p) b p
  end.
Definition next_stamp w (k : spg_ev) : Z := last_sync_rounded (spg w) + pixel_cycles (spg w) * ev_until (spg w) k.

Lemma set_flag_frame k b p :
  spg_reg (set_flag k b p) = spg_reg p /\ pclk_div (set_flag k b p) = pclk_div p /\
  last_sync_rounded (set_flag k b p) = last_sync_rounded p /\ beam (set_flag k b p) = beam p.
Proof. by destruct k. Qed.

Lemma due_flag k b p j u : due_in (set_flag k b p) j u <-> due_in p j u.
Proof. by destruct k, j. Qed.
Lemma flag_set k b p j : ev_flag (set_flag k b p) j = if decide (j = k) then b else ev_flag p j.
Proof. by destruct k, j. Qed.

Lemma next_stamp_future w k :
  beam_ok (spg w) (wnow w) -> config_ok (spg w) -> in_sync w ->
  wnow w <= next_stamp w k < wnow w + SCHED_FREQUENCY /\ 0 <= next_stamp w k < 2 ^ 63.
Proof.
  intros Hb Hcfg Hsy. pose proof Hb as [Hd Hx Hy _ Hp Hn]. destruct (until_spec (spg w) k Hx Hy Hcfg) as [Hu [[_ Hr] _]].
  pose proof (pixel_cycles_range _ Hd). destruct (period_range (spg w) k) as [HP _]. unfold next_stamp. rewrite Hsy.
  set (D := pixel_cycles (spg w)) in *. pose proof (Z.div_mod (wnow w) D ltac:(lia)).
  pose proof (Z.mod_pos_bound (wnow w) D ltac:(lia)). change SCHED_FREQUENCY with 5400000000. nia.
Qed.

(** the change of the world when an event is queued *)
Definition arm (A : spg_ev -> bool) (k : spg_ev) : spg_ev -> bool := fun j => if decide (j = k) then true else A j.

Lemma arm_ok A rf w l k :
  spg_inv A rf w l -> A k = false -> in_sync w ->
  exists c' l', sched_at (ev_addr k) (next_stamp w k) (evclk w) = Ok (tt, c') /\
    let w' := set_spg (set_flag k true (spg w)) (set_evclk c' w) in
    spg_inv (arm A k) rf w' l' /\ l' ≡ₚ ev_addr k :: l /\ wnow w' = wnow w /\ in_sync w' /\
    ev_stamp w' k = next_stamp w k /\ (forall j, j <> k -> ev_stamp w' j = ev_stamp w j).
Proof.
  intros [Hc He Hr Hb Hn Hcfg Ha Hi Hrf Hcl] Hk Hsy. pose proof (next_stamp_future w k Hb Hcfg Hsy) as [Hfut _].
  destruct (sched_at_ok (evclk w) l (ev_addr k) (next_stamp w k) Hc (Hi k Hk) (He k)) as (c' & l' & Hs & Hc' & Hl' & Hst & Hnow & Hk').
  { fold (wnow w). lia. }
  exists c', l'. split; [done|]. set (p' := set_flag k true (spg w)). set (w' := set_spg p' _). cbn zeta.
  destruct (set_flag_frame k true (spg w)) as (F1 & F2 & F3 & F4). fold p' in F1, F2, F3, F4.
  assert (Ec : evclk w' = c') by (unfold w'; by rewrite evclk_spg, evclk_set).
  assert (Es : spg w' = p') by (unfold w'; by rewrite spg_set).
  assert (En : wnow w' = wnow w) by (unfold wnow; by rewrite Ec).
  assert (Eo : forall j, j <> k -> ev_stamp w' j = ev_stamp w j).
  { intros j Hj. unfold ev_stamp. rewrite Ec. apply (Hk' (ev_addr j)). intros E. by apply addr_inj in E. }
  assert (Ek : ev_stamp w' k = next_stamp w k) by (unfold ev_stamp; by rewrite Ec).
  assert (Hpc : pixel_cycles p' = pixel_cycles (spg w)) by (by destruct k).
  split_and!; [|done|done|unfold in_sync; rewrite Es, En, Hpc, F3; done|done|done].
  split; rewrite ?Ec, ?Es, ?En; try done.
  - intros j. apply (Hk' (ev_addr j)), He.
  - apply (Hk' refresh_event), Hr.
  - destruct Hb, k; by split.
  - unfold pixels_since. by rewrite Hpc, F3.
  - destruct Hcfg, k; by split.
  - intros j Hj. rewrite Hl', elem_of_cons. unfold armed. rewrite Es, Hpc, F3. unfold arm in Hj. destruct (decide (j = k)) as [->|Hne].
    + split_and!; [by left| |unfold p'; rewrite flag_set; by destruct (decide _)].
      exists (ev_until (spg w) k). split; [by rewrite Ek|]. unfold p'. apply due_flag. destruct Hb. by apply until_spec.
    + destruct (Ha j Hj) as (Hin & (u & Hu1 & Hu2) & Hfl). split_and!; [by right| |unfold p'; rewrite flag_set; by destruct (decide _)].
      exists u. rewrite Eo by done. split; [done|]. unfold p'. by apply due_flag.
  - intros j Hj. rewrite Hl', not_elem_of_cons. unfold arm in Hj. destruct (decide (j = k)) as [|Hne]; [done|].
    split; [|by apply Hi]. intros E. by apply addr_inj in E.
  - rewrite Hl', elem_of_cons, <- Hrf. split; [|by right]. intros [E|]; [|done]. by destruct (addr_refresh k).
  - intros i. rewrite Hl', elem_of_cons. intros [->|Hin]; [right; left; by exists k|by apply Hcl].
Qed.

Definition sched_ev (k : spg_ev) : M (Sh4 W) unit :=
  match k with
  | HB => sched_next_hblank_event | VI => sched_next_vblank_in_event | VO => sched_next_vblank_out_event
  end.

Lemma until_u32 p line :
  0 <= raster_x p < get_hcount p -> 0 <= raster_y p < get_vcount p -> 0 <= line < get_vcount p ->
  pixels_until_line p line = line_until p line.
Proof.
  intros Hx Hy Hl. pose proof (hcount_range p). pose proof (vcount_range p). destruct (line_until_spec p line Hx Hy Hl) as [Hr _].
  assert (frame_pixels p <= 2 ^ 20) by (unfold frame_pixels; nia).
  unfold pixels_until_line, line_until in *. destruct (Z.ltb_spec (raster_y p) line).
  - rewrite (wrap_small 32 (line - _)) by (unfold in_range; lia). apply wrap_small. unfold in_range. lia.
  - rewrite (wrap_small 32 (get_vcount p - _ + _)) by (unfold in_range; lia). apply wrap_small. unfold in_range. lia.
Qed.

Lemma pixel_stamp_eq w k :
  beam_ok (spg w) (wnow w) -> config_ok (spg w) -> in_sync w ->
  pixel_stamp (spg w) (ev_until (spg w) k) (wnow w) = next_stamp w k.
Proof.
  intros Hb Hcfg Hsy. pose proof (next_stamp_future w k Hb Hcfg Hsy) as [_ Hr]. pose proof Hb as [Hd Hx Hy _ Hp Hn].
  destruct (until_spec (spg w) k Hx Hy Hcfg) as [Hu [[_ Hu2] _]]. destruct (period_range (spg w) k) as [HP _].
  pose proof (pixel_cycles_range _ Hd) as HD. unfold pixel_stamp. fold (pixel_cycles (spg w)).
  rewrite (wrap_small 64 (pixel_cycles _)) by (unfold in_range; lia).
  unfold next_stamp in *. rewrite Hsy in *. set (D := pixel_cycles (spg w)) in *.
  assert (0 <= wnow w / D <= wnow w) by (split; [apply Z.div_pos; lia|apply Z.div_le_upper_bound; nia]).
  rewrite (wrap_small 64 (_ + _)) by (unfold in_range; lia). rewrite wrap_small by (unfold in_range; lia). lia.
Qed.

(** the beginning and the end of the functions for the vertical interrupts *)
Lemma vblank_sched_eq (e : Z) (k : spg_ev) s :
  u64 (next_stamp (world s) k - now_of s) < SCHED_FREQUENCY ->
  (on_evclk (set_when e (next_stamp (world s) k)) ;;
   when (INVARIANTS && (u64 (next_stamp (world s) k - now_of s) >=? SCHED_FREQUENCY)) (raise ERROR_INTEGRITY) ;;
   on_evclk (sched_event e) ;; spg_mod (set_flag k true)) s =
  (on_evclk (sched_at e (next_stamp (world s) k)) ;; spg_mod (set_flag k true)) s.
Proof.
  intros Hlt. replace (_ >=? SCHED_FREQUENCY) with false by lia. rewrite andb_false_r. unfold sched_at.
  rewrite <- on_evclk_bind. reflexivity.
Qed.

Lemma sched_ev_eq k s :
  beam_ok (spg_of s) (now_of s) -> config_ok (spg_of s) -> in_sync (world s) ->
  sched_ev k s = (on_evclk (sched_at (ev_addr k) (next_stamp (world s) k)) ;; spg_mod (set_flag k true)) s.
Proof.
  intros Hb Hcfg Hsy. pose proof (next_stamp_future (world s) k Hb Hcfg Hsy) as [Hfut Hr].
  pose proof (pixel_stamp_eq (world s) k Hb Hcfg Hsy) as Hps.
  assert (Hlt : u64 (next_stamp (world s) k - now_of s) < SCHED_FREQUENCY).
  { destruct Hb as [_ _ _ _ Hp _]. rewrite wrap_small; [unfold wnow in Hfut; unfold now_of, evclk_of; lia|].
    unfold wnow in Hfut. unfold in_range, now_of, evclk_of in *. lia. }
  pose proof Hb as [Hd Hx Hy _ _ _]. destruct Hcfg as [Hm Hi Ho].
  pose proof (field_range0 (spg_reg (spg_of s) SPG_VBLANK_INT)). pose proof (field_range (spg_reg (spg_of s) SPG_VBLANK_INT) 16).
  pose proof (field_range0 (spg_reg (spg_of s) SPG_HBLANK_INT)) as Hc.
  destruct k; cbn [sched_ev ev_addr].
  - unfold sched_next_hblank_event. rewrite (bind_ok _ _ _ (spg_of s) s eq_refl).
    change (pixel_stamp (spg (world s)) (ev_until (spg_of s) HB) (now_of s) = next_stamp (world s) HB) in Hps.
    erewrite (bind_ok _ _ _ (ev_until (spg_of s) HB) s).
    { rewrite (bind_ok _ _ _ (now_of s) s eq_refl). unfold spg_of at 1. by rewrite Hps. }
    cbn [ev_until]. pose proof (hcount_range (spg_of s)). pose proof (vcount_range (spg_of s)). destruct Hm as [-> |[-> Hm]].
    + cbn [Z.eqb Pos.eqb]. rewrite wrap_small by (unfold in_range; lia). done.
    + cbn [Z.eqb Pos.eqb]. rewrite <- until_u32 by (unfold get_hblank_int_comp_val in *; lia). unfold pixels_until_line.
      rewrite Z.leb_antisym. destruct (raster_y (spg_of s) <? get_hblank_int_comp_val (spg_of s)) eqn:E; cbn [negb];
        unfold get_hblank_int_comp_val in *;
        [rewrite (wrap_small 32 (Z.land _ _ - _)) by (unfold in_range; lia)
        |rewrite (wrap_small 32 (get_vcount _ - _ + _)) by (unfold in_range; lia)]; done.
  - unfold sched_next_vblank_in_event. rewrite (bind_ok _ _ _ (spg_of s) s eq_refl), (bind_ok _ _ _ (now_of s) s eq_refl).
    rewrite until_u32 by (unfold get_vblank_in_int_line in *; lia).
    change (pixel_stamp (spg_of s) (line_until (spg_of s) (get_vblank_in_int_line (spg_of s))) (now_of s))
      with (pixel_stamp (spg (world s)) (ev_until (spg (world s)) VI) (wnow (world s))). rewrite Hps. by apply (vblank_sched_eq _ VI).
  - unfold sched_next_vblank_out_event. rewrite (bind_ok _ _ _ (spg_of s) s eq_refl), (bind_ok _ _ _ (now_of s) s eq_refl).
    rewrite until_u32 by (unfold get_vblank_out_int_line in *; lia).
    change (pixel_stamp (spg_of s) (line_until (spg_of s) (get_vblank_out_int_line (spg_of s))) (now_of s))
      with (pixel_stamp (spg (world s)) (ev_until (spg (world s)) VO) (wnow (world s))). rewrite Hps. by apply (vblank_sched_eq _ VO).
Qed.

(** ** The interrupt controller and the clock *)
Definition spg_state A (p : pvr2_spg) (t : Z) (st : spg_ev -> Z) (rf : bool) w : Prop :=
  (exists l, spg_inv A rf w l) /\ spg w = p /\ wnow w = t /\ forall k, ev_stamp w k = st k.

Lemma inv_ext A rf w w' l : evclk w' = evclk w -> spg w' = spg w -> spg_inv A rf w l -> spg_inv A rf w' l.
Proof.
  intros Ec Es [Hc He Hr Hb Hn Hcfg Ha Hi Hrf Hcl]. split; unfold wnow, armed, ev_stamp in *; rewrite ?Ec, ?Es; try done.
Qed.

Lemma state_holly A p t st b h w : spg_state A p t st b w -> spg_state A p t st b (set_holly h w).
Proof.
  intros ([l Hl] & Hp & Ht & Hst). unfold spg_state, wnow, ev_stamp in *. rewrite spg_holly, evclk_holly.
  split_and!; try done. exists l. by apply (inv_ext A b w); [rewrite evclk_holly|rewrite spg_holly|].
Qed.

Lemma refresh_inv A w l : spg_inv A false w l ->
  exists w' l', sched_refresh_intc w = Ok w' /\ spg_inv A true w' l' /\ spg w' = spg w /\ wnow w' = wnow w /\
    forall k, ev_stamp w' k = ev_stamp w k.
Proof.
  intros [Hc He Hr Hb Hn Hcfg Ha Hi Hrf Hcl]. rewrite refresh_on_clock.
  destruct (sched_at_ok (evclk w) l refresh_event (wnow w) Hc) as (c' & l' & Hs & Hc' & Hl' & Hst & Hnow & Hk');
    [by intros ?%Hrf|done|done|].
  unfold wnow in Hs. rewrite Hs. exists (set_evclk c' w), l'. split; [done|].
  assert (En : wnow (set_evclk c' w) = wnow w) by (unfold wnow; by rewrite evclk_set).
  assert (Est : forall k, ev_stamp (set_evclk c' w) k = ev_stamp w k).
  { intros k. unfold ev_stamp. rewrite evclk_set. apply (Hk' (ev_addr k)). apply addr_refresh. }
  split_and!; [|apply spg_evclk|done|done].
  split; rewrite ?evclk_set, ?spg_evclk, ?En; try done.
  - intros k. apply (Hk' (ev_addr k)), He.
  - apply (Hk' refresh_event), Hr.
  - intros k Hk. destruct (Ha k Hk) as (Hin & (u & Hu) & Hfl). rewrite Hl', elem_of_cons. split_and!; [by right| |done].
    exists u. by rewrite Est, spg_evclk.
  - intros k Hk. rewrite Hl', not_elem_of_cons. split; [apply addr_refresh|by apply Hi].
  - rewrite Hl', elem_of_cons. split; [done|]. by left.
  - intros i. rewrite Hl', elem_of_cons. intros [->|Hin]; [by left|by apply Hcl].
Qed.

Lemma state_refresh A p t st : refresh_total (spg_state A p t st).
Proof.
  intros w ([l Hl] & Hp & Ht & Hst). destruct (refresh_inv A w l Hl) as (w' & l' & Hw & Hl' & Hp' & Ht' & Hst').
  exists w'. split; [done|]. split_and!; [by exists l'|congruence..|]. intros k. by rewrite Hst'.
Qed.

Lemma refresh_keeps_holly w w' : sched_refresh_intc w = Ok w' -> holly w' = holly w.
Proof. rewrite refresh_on_clock. destruct (sched_at _ _ _) as [[? c]|]; [|done]. intros [= <-]. apply holly_evclk. Qed.

Lemma ready_world J J' s w' : intc_ready J s -> J' (refresh_intc_event_scheduled (intc s)) w' ->
  intc_ready J' (with_world w' s).
Proof. intros [[] ? ? ?] Hj. split; [by split|done..]. Qed.

(** raising an interrupt leaves the generator and its events as they are *)
Lemma raise_state A p t st (i : HollyNrmInt) s :
  intc_ready (spg_state A p t st) s ->
  exists s', holly_raise_nrm_int i s = Ok (tt, s') /\ intc_ready (spg_state A p t st) s' /\
    Z.land (holly_of s' reg_istnrm) (nrm_intp_tbl i) = nrm_intp_tbl i.
Proof.
  intros Hr. rewrite raise_nrm_eq. set (s1 := with_holly _ s).
  assert (Hr1 : intc_ready (spg_state A p t st) s1) by (eapply ready_world; [done|]; apply state_holly; by destruct Hr).
  destruct (drive_returns (spg_state A p t st) (refresh_keeps_holly) (nrm_irl (holly_of s) i) s1 (state_refresh _ _ _ _) Hr1)
    as (s' & Hd & Hr' & Hh).
  exists s'. split_and!; [done..|]. rewrite Hh. unfold s1. rewrite with_holly_same, fn_lookup_insert.
  apply Z.bits_inj'. intros n _. rewrite Z.land_spec, Z.lor_spec. destruct (Z.testbit (nrm_intp_tbl i) n); by rewrite ?orb_true_r, ?andb_false_r.
Qed.

(** ** The handlers *)

(** drawing the frame touches neither the generator nor the clock nor the interrupt controller *)
Context (end_frame_ok : forall s, exists w', dc_end_frame s = Ok (tt, with_world w' s) /\
  evclk w' = evclk (world s) /\ spg w' = spg (world s) /\ holly w' = holly (world s)).

Definition handle (k : spg_ev) : M (Sh4 W) unit :=
  match k with
  | HB => spg_handle_hblank | VI => spg_handle_vblank_in | VO => spg_handle_vblank_out
  end.
Definition ev_int (k : spg_ev) : HollyNrmInt :=
  match k with
  | HB => HOLLY_NRM_INT_HBLANK | VI => HOLLY_NRM_INT_VBLANK_IN | VO => HOLLY_NRM_INT_VBLANK_OUT
  end.

Definition stamps_of (f : spg_ev -> Z) (k : spg_ev) (v : Z) : spg_ev -> Z := fun j => if decide (j = k) then v else f j.

Lemma resched_state A p t st k s :
  intc_ready (spg_state A p t st) s -> A k = false -> last_sync_rounded p = pixel_cycles p * (t / pixel_cycles p) ->
  exists s', sched_ev k s = Ok (tt, s') /\ holly_of s' = holly_of s /\
    intc_ready (spg_state (arm A k) (set_flag k true p) t
                 (stamps_of st k (last_sync_rounded p + pixel_cycles p * ev_until p k))) s'.
Proof.
  intros Hr Hk Hsy. pose proof Hr as [_ _ _ ([l Hl] & Hp & Ht & Hst)].
  assert (Hsy' : in_sync (world s)) by (unfold in_sync; by rewrite Hp, Ht).
  destruct (arm_ok A _ (world s) l k Hl Hk Hsy') as (c' & l' & Hs & Hl' & _ & Hn' & Hsy2 & Hk' & Hj').
  rewrite sched_ev_eq; [|by destruct Hl..|done].
  rewrite (bind_ok _ _ _ _ _ (on_evclk_ok _ s _ _ Hs)). eexists. split; [reflexivity|]. split.
  { unfold holly_of, with_spg. cbn [world with_world with_evclk]. by rewrite holly_spg, holly_evclk. }
  unfold with_spg, with_evclk. cbn [world with_world].
  eapply (ready_world _ _ s); [exact Hr|]. unfold spg_of. cbn [world with_world]. rewrite spg_evclk.
  split; [by exists l'|]. split; [by rewrite spg_set, Hp|]. split; [by rewrite Hn'|].
  intros j. unfold stamps_of. destruct (decide (j = k)) as [->|Hne].
  - rewrite Hk'. unfold next_stamp. by rewrite Hp.
  - by rewrite Hj'.
Qed.

Lemma sync_state A p t st s :
  intc_ready (spg_state A p t st) s ->
  exists s', spg_sync s = Ok (tt, s') /\ holly_of s' = holly_of s /\ intc_ready (spg_state A (synced_at t p) t st) s'.
Proof.
  intros Hr. pose proof Hr as [_ _ _ ([l Hl] & Hp & Ht & Hst)].
  rewrite spg_sync_eq by (by destruct Hl). eexists. split; [reflexivity|]. split; [apply holly_spg|].
  eapply (ready_world _ _ s); [exact Hr|]. fold (wnow (world s)).
  change (now_of s) with (wnow (world s)). change (spg_of s) with (spg (world s)).
  pose proof (spg_sync_inv A _ (world s) l Hl) as Hl'. rewrite Ht, Hp in *.
  split; [by exists l|]. split; [by rewrite spg_set|].
  unfold wnow, ev_stamp in *. rewrite evclk_spg. by split.
Qed.

(** where the beam is when the event comes *)
Lemma due_now p t k u :
  beam_ok p t -> t = last_sync_rounded p + pixel_cycles p * u -> due_in p k u ->
  due_in (synced_at t p) k 0 /\ last_sync_rounded (synced_at t p) = t.
Proof.
  intros Hb Ht Hu. pose proof Hb as [Hd _ _ Hl _ _]. pose proof (pixel_cycles_range _ Hd) as HD.
  set (D := pixel_cycles p) in *. set (q := last_sync_rounded p / D) in *.
  assert (Et : t / D = q + u) by (rewrite Ht, (Z.mul_comm D u), Z.div_add by lia; done).
  assert (En : pixels_since t p = u) by (unfold pixels_since; fold D q; lia).
  split.
  - pose proof (synced_due p k t u Hb ltac:(lia) Hu) as Hs. by rewrite En, Z.sub_diag in Hs.
  - change (last_sync_rounded (synced_at t p)) with (D * (t / D)). rewrite Et, Ht, Hl. lia.
Qed.

Lemma check_hblank_ok p s :
  spg_of s = p -> config_ok p -> 0 <= raster_x p < get_hcount p -> 0 <= raster_y p < get_vcount p -> due_in p HB 0 ->
  check_hblank s = Ok (tt, s).
Proof.
  intros Hp [Hm _ _] Hx Hy [_ Hu]. unfold check_hblank. rewrite (bind_ok _ _ _ p s) by (unfold spg_get, gets; by rewrite Hp).
  pose proof (hcount_range p). pose proof (vcount_range p). pose proof (field_range0 (spg_reg p SPG_HBLANK_INT)).
  rewrite Z.add_0_r in Hu. unfold pos, beam_pos, beam in Hu. cbn [fst snd ev_period ev_target] in Hu.
  destruct Hm as [Hm|[Hm Hc]]; rewrite Hm in *; cbn [Z.eqb Pos.eqb] in Hu.
  - rewrite Z.mod_0_l, Z.add_comm, Z.mod_add, Z.mod_small in Hu by lia. by rewrite (proj2 (Z.eqb_eq _ _) Hu).
  - assert (E : raster_y p * get_hcount p + raster_x p = get_hblank_int_comp_val p * get_hcount p).
    { unfold frame_pixels, get_hblank_int_comp_val in *. rewrite !Z.mod_small in Hu by nia. done. }
    assert (Ey : raster_y p = get_hblank_int_comp_val p) by nia.
    assert (Ex : raster_x p = 0) by nia. rewrite Ex, Ey. cbn [Z.eqb negb]. by rewrite Z.eqb_refl.
Qed.

Definition all : spg_ev -> bool := fun _ => true.
Definition without (k : spg_ev) : spg_ev -> bool := fun j => negb (bool_decide (j = k)).

Lemma arm_without k j : arm (without k) k j = all j.
Proof. unfold arm, without, all. by destruct (decide (j = k)), (bool_decide_reflect (j = k)). Qed.

Lemma state_ext A A' p t st b w : (forall k, A k = A' k) -> spg_state A p t st b w -> spg_state A' p t st b w.
Proof.
  intros He ([l [Hc He' Hr Hb Hn Hcfg Ha Hi Hrf Hcl]] & Hp). split; [|done]. exists l.
  split; try done; intros k; rewrite <- He; [apply Ha|apply Hi].
Qed.
Lemma ready_ext A A' p t st s : (forall k, A k = A' k) ->
  intc_ready (spg_state A p t st) s -> intc_ready (spg_state A' p t st) s.
Proof. intros He [? ? ? Hj]. split; [done..|]. by eapply state_ext. Qed.

Lemma handle_state k p t st u s :
  intc_ready (spg_state (without k) p t st) s -> t = last_sync_rounded p + pixel_cycles p * u -> due_in p k u ->
  exists s' p', handle k s = Ok (tt, s') /\ spg_reg p' = spg_reg p /\ pclk_div p' = pclk_div p /\
    intc_ready (spg_state all p' t (stamps_of st k (t + pixel_cycles p * ev_period p k))) s' /\
    Z.land (holly_of s' reg_istnrm) (nrm_intp_tbl (ev_int k)) = nrm_intp_tbl (ev_int k).
Proof.
  intros Hr Ht Hu. pose proof Hr as [_ _ _ ([l Hl] & Hp & Hnow & _)].
  assert (Hb : beam_ok p t) by (rewrite <- Hp, <- Hnow; by destruct Hl).
  assert (Hcfg : config_ok p) by (rewrite <- Hp; by destruct Hl).
  destruct (due_now p t k u Hb Ht Hu) as [Hdue Hlast]. set (p1 := synced_at t p) in *.
  assert (Hcfg1 : config_ok p1) by (by destruct Hcfg).
  pose proof (synced_beam_ok p t Hb) as [Hd1 Hx1 Hy1 _ _ _]. fold p1 in Hd1, Hx1, Hy1.
  destruct (sync_state _ _ _ _ _ Hr) as (s1 & H1 & _ & Hr1). fold p1 in Hr1.
  assert (Hck : (when INVARIANTS (match k with HB => check_hblank | _ => ret tt end)) s1 = Ok (tt, s1)).
  { unfold when. destruct INVARIANTS; [|done]. destruct k; [|done..]. apply (check_hblank_ok p1); try done.
    by destruct Hr1 as [_ _ _ (_ & ? & _)]. }
  destruct (raise_state _ _ _ _ (ev_int k) s1 Hr1) as (s2 & H2 & Hr2 & Hist).
  destruct (resched_state _ _ _ _ k s2 Hr2) as (s3 & H3 & Hh3 & Hr3).
  { unfold without. by rewrite bool_decide_eq_true_2. }
  { done. }
  replace (last_sync_rounded p1 + pixel_cycles p1 * ev_until p1 k) with (t + pixel_cycles p * ev_period p k) in Hr3.
  2: { rewrite Hlast. f_equal. change (pixel_cycles p1) with (pixel_cycles p). change (ev_period p k) with (ev_period p1 k).
       f_equal. destruct (until_spec p1 k Hx1 Hy1 Hcfg1). symmetry. by apply due_period. }
  apply (ready_ext _ all) in Hr3; [|apply arm_without].
  destruct (set_flag_frame k true p1) as (F1 & F2 & _).
  assert (Hend : exists s4, (match k with VI => dc_end_frame | _ => ret tt end) s3 = Ok (tt, s4) /\
            intc_ready (spg_state all (set_flag k true p1) t (stamps_of st k (t + pixel_cycles p * ev_period p k))) s4 /\
            holly_of s4 = holly_of s3).
  { destruct k; [by exists s3| |by exists s3]. destruct (end_frame_ok s3) as (w' & Hw & Ec & Es & Eh). exists (with_world w' s3).
    split_and!; [done| |done]. eapply ready_world; [exact Hr3|]. destruct Hr3 as [_ _ _ ([l3 Hl3] & Hp3 & Ht3 & Hst3)].
    unfold spg_state, wnow, ev_stamp in *. rewrite Ec, Es. split_and!; [|done..]. exists l3. by eapply inv_ext. }
  destruct Hend as (s4 & H4 & Hr4 & Hh4). exists s4, (set_flag k true p1).
  split; [|rewrite F1, F2; split_and!; [done|done|done|by rewrite Hh4, Hh3]].
  destruct k; cbn [handle];
    unfold spg_handle_hblank, spg_handle_vblank_in, spg_handle_vblank_out; rewrite (bind_ok _ _ _ _ _ H1).
  - rewrite (bind_ok _ _ _ _ _ Hck), (bind_ok _ _ _ _ _ H2). by injection H4 as <-.
  - rewrite (bind_ok _ _ _ _ _ H2), (bind_ok _ _ _ _ _ H3). done.
  - rewrite (bind_ok _ _ _ _ _ H2). by injection H4 as <-.
Qed.

(** ** Time passes up to the next event *)
Lemma advance_inv rf w e l :
  spg_inv all rf w (e :: l) -> stamp (events (evclk w)) e < 2 ^ 62 ->
  exists c', next_event_turn (evclk w) = Ok (Some e, c') /\ let w' := set_evclk c' w in
    wnow w' = stamp (events (evclk w)) e /\ spg w' = spg w /\ (forall k, ev_stamp w' k = ev_stamp w k) /\
    (forall k, e = ev_addr k -> spg_inv (without k) rf w' l) /\
    (e = refresh_event -> rf = true /\ spg_inv all false w' l).
Proof.
  intros [Hc He Hr Hb Hn Hcfg Ha Hi Hrf Hcl] Hlt.
  destruct (next_event_turn_ok (evclk w) e l Hc) as (c' & Ht & Hc' & Hnow & Hst & Hex).
  exists c'. split; [done|]. cbn zeta. set (w' := set_evclk c' w).
  assert (Ec : evclk w' = c') by apply evclk_set. assert (Es : spg w' = spg w) by apply spg_evclk.
  assert (En : wnow w' = stamp (events (evclk w)) e) by (unfold wnow; by rewrite Ec).
  assert (Est : forall k, ev_stamp w' k = ev_stamp w k) by (intros k; unfold ev_stamp; by rewrite Ec, Hst).
  assert (Hnd : e ∉ l) by (destruct Hc as [(_ & _ & Hnd & _) _ _]; by apply list.NoDup_cons in Hnd as [? _]).
  assert (Hle : wnow w <= wnow w') by (destruct Hc as [_ _ Hf]; rewrite En; by inversion Hf).
  pose proof Hb as [Hd Hx Hy Hl Hp _].
  assert (Hb' : beam_ok (spg w) (wnow w')) by (split; try done; lia).
  assert (Harm : forall k, armed w' k).
  { intros k. destruct (Ha k eq_refl) as (_ & (u & Hu) & _). exists u. by rewrite Est, Es. }
  assert (Hrec : pixels_since (wnow w') (spg w) <= 2 ^ 31).
  { destruct (Harm VI) as (u & Hu & Hdue). pose proof (pixel_cycles_range _ Hd).
    assert (Hvi : wnow w' <= ev_stamp w' VI).
    { destruct (Ha VI eq_refl) as (Hin & _). apply elem_of_cons in Hin as [E|Hin]; [rewrite En, <- E, Est; done|].
      destruct Hc' as [_ _ Hf]. rewrite list.Forall_forall in Hf. specialize (Hf _ Hin). unfold wnow, ev_stamp. by rewrite Ec. }
    destruct Hdue as [[_ Hur] _]. destruct (period_range (spg w') VI) as [HP _]. unfold pixels_since.
    assert (wnow w' / pixel_cycles (spg w) <= (last_sync_rounded (spg w) + u * pixel_cycles (spg w)) / pixel_cycles (spg w))
      as Hdv by (apply Z.div_le_mono; rewrite Es in *; lia).
    rewrite Z.div_add in Hdv by lia. lia. }
  split_and!; [done..| |].
  - intros k ->. split; rewrite ?Ec, ?Es; try done; eauto.
    + intros j Hj. assert (j <> k) by (intros ->; unfold without in Hj; by rewrite bool_decide_eq_true_2 in Hj).
      destruct (Ha j eq_refl) as (Hin & _ & Hfl). split_and!; [|apply Harm|done]. apply elem_of_cons in Hin as [E|]; [|done].
      by apply addr_inj in E.
    + intros j Hj. unfold without in Hj. destruct (decide (j = k)) as [E|Hne]; [by rewrite E|by rewrite bool_decide_eq_false_2 in Hj].
    + rewrite <- Hrf, elem_of_cons. split; [by right|]. intros [E|]; [|done]. by destruct (addr_refresh k).
    + intros i Hin. apply Hcl. by right.
  - intros ->. split; [apply Hrf; by left|]. split; rewrite ?Ec, ?Es; try done; eauto.
    + intros j _. destruct (Ha j eq_refl) as (Hin & _ & Hfl). split_and!; [|apply Harm|done].
      apply elem_of_cons in Hin as [E|]; [|done]. by destruct (addr_refresh j).
    + intros i Hin. apply Hcl. by right.
Qed.

(** ** The machine runs from event to event *)
Definition event_handler (e : Z) : M (Sh4 W) unit :=
  if e =? hblank_event then spg_handle_hblank
  else if e =? vblank_in_event then spg_handle_vblank_in
  else if e =? vblank_out_event then spg_handle_vblank_out
  else if e =? refresh_event then do_sh4_refresh_intc_deferred intc_fuel
  else raise C_UNDEFINED.
(** the CPU runs up to the next event, and the event's handler runs *)
Definition turn : M (Sh4 W) (option Z) :=
  e <- on_evclk next_event_turn ;;
  match e with
  | Some e => event_handler e ;; ret (Some e)
  | None => ret None
  end.
Fixpoint turns (n : nat) : M (Sh4 W) (list Z) :=
  match n with
  | O => ret []
  | S n' => e <- turn ;; rest <- turns n' ;; ret (match e with Some e => e :: rest | None => rest end)
  end.

Lemma handler_addr k : event_handler (ev_addr k) = handle k.
Proof.
  unfold event_handler. pose proof (addr_inj k) as Hinj. pose proof (Hinj HB). pose proof (Hinj VI). pose proof (Hinj VO). cbn [ev_addr] in *.
  destruct (Z.eqb_spec (ev_addr k) hblank_event) as [E|]; [by rewrite (H E)|].
  destruct (Z.eqb_spec (ev_addr k) vblank_in_event) as [E|]; [by rewrite (H0 E)|].
  destruct (Z.eqb_spec (ev_addr k) vblank_out_event) as [E|]; [by rewrite (H1 E)|]. by destruct k.
Qed.
Lemma handler_refresh : event_handler refresh_event = do_sh4_refresh_intc_deferred intc_fuel.
Proof.
  unfold event_handler. pose proof (addr_refresh HB). pose proof (addr_refresh VI). pose proof (addr_refresh VO). cbn [ev_addr] in *.
  by rewrite !(proj2 (Z.eqb_neq _ _)), Z.eqb_refl by done.
Qed.

(** the CPU's refresh, with its event out of the queue *)
Lemma refresh_turn p t st s :
  intc_ready (fun b w => b = true /\ spg_state all p t st false w) s ->
  exists s', do_sh4_refresh_intc_deferred intc_fuel s = Ok (tt, s') /\ intc_ready (spg_state all p t st) s' /\
    refresh_intc_event_scheduled (intc s') = false.
Proof.
  intros Hr. destruct (refresh_intc_returns (fun b w => b = true /\ spg_state all p t st false w) s) as (s1 & H1 & Hr1);
    [by intros w [? _]|done|].
  unfold do_sh4_refresh_intc_deferred. rewrite (bind_ok _ _ _ _ _ H1). eexists. split; [reflexivity|].
  destruct Hr1 as [[] ? ? [_ Hj]]. split; [by split|done].
Qed.

Definition flag s : bool := refresh_intc_event_scheduled (intc s).

Lemma turn_state p t st s :
  (forall e, ev_next_priv (evclk_of s) = Some e -> ~ other e) -> intc_ready (spg_state all p t st) s -> st VI < 2 ^ 62 ->
  exists e s', turn s = Ok (Some e, s') /\
    ((e = refresh_event /\ flag s = true /\ flag s' = false /\
      exists t', intc_ready (spg_state all p t' st) s') \/
     (exists k p', e = ev_addr k /\ st k <= st VI /\ spg_reg p' = spg_reg p /\ pclk_div p' = pclk_div p /\
        intc_ready (spg_state all p' (st k) (stamps_of st k (st k + pixel_cycles p * ev_period p k))) s' /\
        Z.land (holly_of s' reg_istnrm) (nrm_intp_tbl (ev_int k)) = nrm_intp_tbl (ev_int k))).
Proof.
  intros Hno Hr Hvi. pose proof Hr as [_ _ _ ([l Hl] & Hp & Ht & Hst)]. fold (flag s) in Hl.
  destruct (si_armed _ _ _ _ Hl VI eq_refl) as (Hin & _ & _).
  destruct l as [|e l]; [by apply elem_of_nil in Hin|].
  assert (Hfirst : stamp (events (evclk (world s))) e <= st VI).
  { rewrite <- Hst. unfold ev_stamp. apply elem_of_cons in Hin as [->|Hin]; [done|].
    destruct Hl as [[(_ & _ & _ & Hso) _ _] _ _ _ _ _ _ _ _ _]. inversion_clear Hso.
    rewrite list.Forall_forall in *. auto. }
  destruct (advance_inv _ _ _ _ Hl) as (c' & Hturn & Hn' & Hp' & Hst' & Hk & Href); [lia|].
  unfold turn. rewrite (bind_ok _ _ _ _ _ (on_evclk_ok _ s _ _ Hturn)). set (s1 := with_evclk c' s).
  destruct (si_closed _ _ _ _ Hl e) as [->|[[k ->]|Ho]]; [by left| | |].
  3: { exfalso. apply (Hno e); [|done]. destruct Hl as [[(Hh & _) _ _] _ _ _ _ _ _ _ _ _]. exact Hh. }
  - destruct (Href eq_refl) as [Hfl Hinv]. rewrite handler_refresh.
    destruct (refresh_turn p (stamp (events (evclk (world s))) refresh_event) st s1) as (s2 & H2 & Hr2 & Hf2).
    { eapply ready_world; [exact Hr|]. split; [done|]. split_and!; [by exists l|by rewrite Hp'|done|].
      intros k. by rewrite Hst'. }
    exists refresh_event, s2. rewrite (bind_ok _ _ _ _ _ H2). split; [done|]. left. split_and!; [done..|]. by eexists.
  - rewrite handler_addr. destruct (si_armed _ _ _ _ Hl k eq_refl) as (_ & (u & Hu & Hdue) & _). rewrite Hp, Hst in *.
    assert (Ek : stamp (events (evclk (world s))) (ev_addr k) = st k) by by rewrite <- Hst.
    destruct (handle_state k p (st k) st u s1) as (s2 & p2 & H2 & Hreg & Hdiv & Hr2 & Hist); [|done|done|].
    { eapply ready_world; [exact Hr|]. split_and!; [exists l; by apply Hk|by rewrite Hp'|by rewrite Hn', Ek|].
      intros j. by rewrite Hst'. }
    exists (ev_addr k), s2. rewrite (bind_ok _ _ _ _ _ H2). split; [done|]. right. exists k, p2. split_and!; try done. by rewrite <- Ek.
Qed.

(** ** Vertical blanks go on *)
Definition spg_running s : Prop :=
  intc_ready (spg_state all (spg_of s) (now_of s) (ev_stamp (world s))) s.
Definition frame_cycles (p : pvr2_spg) : Z := pixel_cycles p * frame_pixels p.
Definition raised (i : HollyNrmInt) s : Prop := Z.land (holly_of s reg_istnrm) (nrm_intp_tbl i) = nrm_intp_tbl i.

(** the turns that can come before the vertical blank *)
Definition before (st : spg_ev -> Z) (k : spg_ev) : Z := Z.max 0 (st VI - st k + 1).
Definition rank (st : spg_ev -> Z) s : Z := 2 * (before st HB + before st VO) + b2z (flag s).

Lemma same_regs_cycles p p' : spg_reg p' = spg_reg p -> pclk_div p' = pclk_div p ->
  pixel_cycles p' = pixel_cycles p /\ frame_pixels p' = frame_pixels p /\ forall k, ev_period p' k = ev_period p k.
Proof.
  intros E1 E2. unfold pixel_cycles, frame_pixels, get_pclk_div, get_interlace, get_hcount, get_vcount.
  rewrite E1, E2. split_and!; [done..|]. intros k. unfold ev_period, frame_pixels, get_hblank_int_mode, get_hcount, get_vcount.
  by rewrite E1.
Qed.

Lemma turns_cons n s e s1 l s2 : turn s = Ok (Some e, s1) -> turns n s1 = Ok (l, s2) -> turns (S n) s = Ok (e :: l, s2).
Proof. intros H1 H2. cbn [turns]. rewrite (bind_ok _ _ _ _ _ H1), (bind_ok _ _ _ _ _ H2). done. Qed.

Lemma turns_app n m s s1 s2 l1 l2 : turns n s = Ok (l1, s1) -> turns m s1 = Ok (l2, s2) -> turns (n + m) s = Ok (l1 ++ l2, s2).
Proof.
  revert s l1. induction n as [|n IH]; intros s l1 H1 H2; cbn [turns Nat.add] in *.
  - by injection H1 as <- <-.
  - apply bind_inv in H1 as (e & s3 & Ht & H1). apply bind_inv in H1 as (l3 & s4 & Hr & H1). injection H1 as <- <-.
    rewrite (bind_ok _ _ _ _ _ Ht), (bind_ok _ _ _ _ _ (IH _ _ Hr H2)). by destruct e.
Qed.

Lemma one_frame n p t st s :
  (forall i, ~ other i) -> intc_ready (spg_state all p t st) s -> st VI < 2 ^ 62 -> (Z.to_nat (rank st s) <= n)%nat ->
  exists m pre s' p' st', turns m s = Ok (pre ++ [vblank_in_event], s') /\ (vblank_in_event ∉ pre) /\
    spg_reg p' = spg_reg p /\ pclk_div p' = pclk_div p /\ intc_ready (spg_state all p' (st VI) st') s' /\
    st' VI = st VI + frame_cycles p /\ raised HOLLY_NRM_INT_VBLANK_IN s'.
Proof.
  intros Hno. revert p t st s. induction n as [|n IH]; intros p t st s Hr Hvi Hn;
    destruct (turn_state p t st s (fun e _ => Hno e) Hr Hvi) as (e & s1 & Hturn & Hcase).
  all: assert (Hrank0 : 0 <= rank st s) by (unfold rank, before; destruct (flag s); cbn; lia).
  all: pose proof Hr as [_ _ _ ([l Hl] & Hp & Ht & _)].
  all: destruct Hcase as [(-> & Hf & Hf' & t' & Hr')|(k & p' & -> & Hk & Hreg & Hdiv & Hr' & Hist)].
  all: try (destruct (decide (k = VI)) as [->|Hne];
    [exists 1%nat, (@nil Z), s1, p', (stamps_of st VI (st VI + pixel_cycles p * ev_period p VI)); cbn [ev_addr] in Hturn;
     split; [by apply (turns_cons 0 _ _ _ [] _ Hturn)|]; split_and!; [set_solver|done..]|]).
  - exfalso. unfold rank in Hn. rewrite Hf in Hn. unfold before in Hn. cbn in Hn. lia.
  - exfalso. assert (1 <= before st k) by (unfold before; lia). destruct k; [|done|]; unfold rank, before in *; destruct (flag s); cbn in *; lia.
  - destruct (IH p t' st s1 Hr' Hvi) as (m & pre & s' & p2 & st2 & Hts & Hpre & H2).
    { unfold rank in *. rewrite Hf in *. rewrite Hf'. cbn in *. lia. }
    exists (S m), (refresh_event :: pre), s', p2, st2. split; [by apply (turns_cons _ _ _ _ _ _ Hturn)|]. split; [|done].
    rewrite not_elem_of_cons. split; [apply (addr_refresh VI)|done].
  - set (st1 := stamps_of st k _) in *. assert (Hvi1 : st1 VI = st VI) by (unfold st1, stamps_of; by destruct (decide (VI = k))).
    destruct Hl as [_ _ _ [Hd _ _ _ _ _] _ _ _ _ _ _]. rewrite Hp in Hd. pose proof (pixel_cycles_range _ Hd).
    destruct (period_range p k) as [HP _].
    destruct (IH p' (st k) st1 s1 Hr') as (m & pre & s' & p2 & st2 & Hts & Hpre & Hreg2 & Hdiv2 & Hr2 & Hst2 & Hra);
      [by rewrite Hvi1|..].
    { assert (Hdec : before st1 HB + before st1 VO + 1 <= before st HB + before st VO).
      { assert (1 <= pixel_cycles p * ev_period p k) by nia. unfold before. rewrite Hvi1. unfold st1, stamps_of.
        destruct k; [|done|]; repeat (destruct (decide _); try congruence); lia. }
      unfold rank in *. destruct (flag s), (flag s1); cbn in *; lia. }
    destruct (same_regs_cycles p p' Hreg Hdiv) as (Epc & Efp & _).
    exists (S m), (ev_addr k :: pre), s', p2, st2. split; [by apply (turns_cons _ _ _ _ _ _ Hturn)|].
    rewrite not_elem_of_cons, Hreg2, Hdiv2. unfold frame_cycles in *. rewrite Hst2, Epc, Efp, Hvi1 in *.
    split_and!; try done. intros E. by apply (addr_inj VI k) in E.
Qed.

(** C15: vertical blanks go on for ever, in a machine in which no device but the generator and the CPU's interrupt
    controller has events, and the CPU does nothing but let the time pass from one event to the next (no registers
    are written): from every state in which the generator runs (its events queued for the right moments, the
    interrupts on lines of the frame, the horizontal one in mode 0 or 2), for every [n], the machine reaches the
    [n+1]st vertical blank after finitely many events, exactly [n] frames after the first, and the interrupt is
    then pending.  (Up to 2^62 cycles, 27 years.  The callback at the end of a frame,
    a parameter, succeeds and leaves the generator, the clock and the interrupts alone: [end_frame_ok].) *)
Theorem spg_vblank_forever (n : nat) s :
  (forall i, ~ other i) -> spg_running s ->
  ev_stamp (world s) VI + Z.of_nat n * frame_cycles (spg_of s) < 2 ^ 62 ->
  exists m trace s', turns m s = Ok (trace, s') /\
    last trace = Some vblank_in_event /\ count_occ Z.eq_dec trace vblank_in_event = S n /\
    now_of s' = ev_stamp (world s) VI + Z.of_nat n * frame_cycles (spg_of s) /\
    raised HOLLY_NRM_INT_VBLANK_IN s'.
Proof.
  intros Hno. unfold spg_running. generalize (spg_of s) as p, (now_of s) as t, (ev_stamp (world s)) as st.
  revert s. induction n as [|n IH]; intros s p t st Hr Hlt; pose proof Hr as [_ _ _ ([l Hl] & Hp & _)].
  all: assert (Hfc : 0 <= frame_cycles p) by
    (destruct Hl as [_ _ _ [Hd _ _ _ _ _] _ _ _ _ _ _]; rewrite Hp in Hd; pose proof (pixel_cycles_range _ Hd);
     pose proof (hcount_range p); pose proof (vcount_range p); unfold frame_cycles, frame_pixels; nia).
  all: destruct (one_frame (Z.to_nat (rank st s)) p t st s Hno Hr ltac:(nia) ltac:(lia))
    as (m1 & pre & s1 & p1 & st1 & Ht1 & Hpre & Hreg & Hdiv & Hr1 & Hst1 & Hra).
  all: assert (Hcnt : count_occ Z.eq_dec (pre ++ [vblank_in_event]) vblank_in_event = 1%nat).
  1, 3: rewrite count_occ_app; cbn; destruct (Z.eq_dec vblank_in_event vblank_in_event) as [_|Hx]; [|by destruct Hx];
    rewrite (proj1 (count_occ_not_In Z.eq_dec pre vblank_in_event)); [done|by intros ?%list_elem_of_In].
  - exists m1, (pre ++ [vblank_in_event]), s1. split_and!; [done|apply last_snoc|done| |done].
    destruct Hr1 as [_ _ _ (_ & _ & Hn1 & _)]. change (now_of s1) with (wnow (world s1)). lia.
  - destruct (same_regs_cycles p p1 Hreg Hdiv) as (Epc & Efp & _).
    assert (Efc : frame_cycles p1 = frame_cycles p) by (unfold frame_cycles; by rewrite Epc, Efp).
    destruct (IH s1 p1 (st VI) st1 Hr1) as (m2 & tr2 & s2 & Ht2 & Hlast & Hc2 & Hn2 & Hra2); [rewrite Efc; lia|].
    exists (m1 + m2)%nat, ((pre ++ [vblank_in_event]) ++ tr2), s2. split_and!; [by eapply turns_app|..].
    + rewrite last_app. by rewrite Hlast.
    + rewrite count_occ_app, Hcnt, Hc2. done.
    + rewrite Hn2, Efc. lia.
    + done.
Qed.

(** ** Initialization and register writes *)
Definition disarm A (k : spg_ev) : spg_ev -> bool := fun j => if decide (j = k) then false else A j.

Lemma disarm_inv A rf w l k :
  spg_inv A rf w l -> A k = true ->
  exists c' l', cancel_event (ev_addr k) (evclk w) = Ok (tt, c') /\
    let w' := set_spg (set_flag k false (spg w)) (set_evclk c' w) in
    spg_inv (disarm A k) rf w' l' /\ wnow w' = wnow w.
Proof.
  intros [Hc He Hr Hb Hn Hcfg Ha Hi Hrf Hcl] Hk. destruct (Ha k Hk) as (Hin & _ & _).
  destruct (cancel_ok (evclk w) l (ev_addr k) Hc Hin) as (c' & l' & Hs & Hc' & Hl' & Hnow & Hk').
  exists c', l'. split; [done|]. set (p' := set_flag k false (spg w)). set (w' := set_spg p' _). cbn zeta.
  assert (Ec : evclk w' = c') by (unfold w'; by rewrite evclk_spg, evclk_set).
  assert (Es : spg w' = p') by (unfold w'; by rewrite spg_set).
  assert (En : wnow w' = wnow w) by (unfold wnow; by rewrite Ec).
  assert (Hpc : pixel_cycles p' = pixel_cycles (spg w)) by (by destruct k).
  destruct (set_flag_frame k false (spg w)) as (F1 & F2 & F3 & F4). fold p' in F1, F2, F3, F4.
  assert (Hin' : forall i, i ∈ l' <-> i <> ev_addr k /\ i ∈ l).
  { intros i. rewrite Hl', elem_of_cons. destruct Hc as [(_ & _ & Hnd & _) _ _]. rewrite Hl' in Hnd.
    apply list.NoDup_cons in Hnd as [Hnd _]. split; [|by intros [? [?|?]]]. intros Hi'. split; [by intros ->|by right]. }
  split; [|done]. split; rewrite ?Ec, ?Es, ?En; try done.
  - intros j. apply (Hk' (ev_addr j)), He.
  - apply (Hk' refresh_event), Hr.
  - destruct Hb, k; by split.
  - unfold pixels_since. by rewrite Hpc, F3.
  - destruct Hcfg, k; by split.
  - intros j Hj. unfold disarm in Hj. destruct (decide (j = k)) as [|Hne]; [done|].
    destruct (Ha j Hj) as (Hinj & (u & Hu1 & Hu2) & Hfl). rewrite Hin'. split_and!; [|done| |].
    + intros E. by apply addr_inj in E.
    + exists u. rewrite Es, Hpc, F3. unfold ev_stamp in *. rewrite Ec. destruct (Hk' (ev_addr j)) as [_ ->]; [|done].
      split; [done|]. unfold p'. by apply due_flag.
    + unfold p'. rewrite flag_set. by destruct (decide (j = k)).
  - intros j Hj. rewrite Hin'. unfold disarm in Hj. destruct (decide (j = k)) as [->|Hne]; [by intros []|].
    intros [_ ?]. by apply (Hi j).
  - rewrite Hin', <- Hrf. split; [by intros []|]. split; [|done]. intros E. by apply (addr_refresh k).
  - intros i [_ Hi']%Hin'. by apply Hcl.
Qed.

(** the states of the generator at time [t], whatever the stamps *)
Definition spg_at A (p : pvr2_spg) (t : Z) (rf : bool) w : Prop := (exists l, spg_inv A rf w l) /\ spg w = p /\ wnow w = t.

Lemma ready_state A p t s : intc_ready (spg_at A p t) s -> intc_ready (spg_state A p t (ev_stamp (world s))) s.
Proof. intros [? ? ? (? & ? & ?)]. by split. Qed.
Lemma ready_at A p t st s : intc_ready (spg_state A p t st) s -> intc_ready (spg_at A p t) s.
Proof. intros [? ? ? (? & ? & ? & ?)]. by split. Qed.

Lemma cancel_state A p t k s : intc_ready (spg_at A p t) s -> A k = true ->
  exists s', (on_evclk (cancel_event (ev_addr k)) ;; spg_mod (set_flag k false)) s = Ok (tt, s') /\
    intc_ready (spg_at (disarm A k) (set_flag k false p) t) s'.
Proof.
  intros Hr Hk. pose proof Hr as [_ _ _ ([l Hl] & Hp & Ht)]. destruct (disarm_inv A _ _ l k Hl Hk) as (c' & l' & Hs & Hl' & Hn').
  rewrite (bind_ok _ _ _ _ _ (on_evclk_ok _ s _ _ Hs)). eexists. split; [reflexivity|].
  unfold with_spg, with_evclk. cbn [world with_world]. eapply (ready_world _ _ s); [exact Hr|].
  unfold spg_of. cbn [world with_world]. rewrite spg_evclk. split; [by exists l'|]. by rewrite spg_set, Hn', Hp.
Qed.

Definition none : spg_ev -> bool := fun _ => false.
Definition idle (p : pvr2_spg) : pvr2_spg := upd_flags false false false p.

Lemma unsched_state p t s : intc_ready (spg_at all p t) s ->
  exists s', spg_unsched_all s = Ok (tt, s') /\ intc_ready (spg_at none (idle p) t) s'.
Proof.
  intros Hr. assert (Hfl : forall k, ev_flag p k = true).
  { intros k. destruct Hr as [_ _ _ ([l Hl] & <- & _)]. by apply (si_armed _ _ _ _ Hl k). }
  assert (Hstep : forall A q k s, intc_ready (spg_at A q t) s -> A k = true -> ev_flag q k = true ->
    exists s', (b <- spg_get (fun q => ev_flag q k) ;; when b (on_evclk (cancel_event (ev_addr k)) ;; spg_mod (set_flag k false))) s =
      Ok (tt, s') /\ intc_ready (spg_at (disarm A k) (set_flag k false q) t) s').
  { intros A q k s0 Hr0 HA Hq. destruct (cancel_state A q t k s0 Hr0 HA) as (s1 & H1 & Hr1). exists s1. split; [|done].
    rewrite (bind_ok _ _ _ true s0); [done|]. destruct Hr0 as [_ _ _ (_ & Hp & _)]. unfold spg_get, gets, spg_of. by rewrite Hp, Hq. }
  destruct (Hstep all p HB s Hr eq_refl (Hfl HB)) as (s1 & H1 & Hr1).
  destruct (Hstep _ _ VI s1 Hr1 eq_refl (Hfl VI)) as (s2 & H2 & Hr2).
  destruct (Hstep _ _ VO s2 Hr2 eq_refl (Hfl VO)) as (s3 & H3 & Hr3).
  exists s3. split.
  - assert (Hseq : forall X Y Z (m : M (Sh4 W) X) (k : X -> M (Sh4 W) Y) (f : Y -> M (Sh4 W) Z) s y s', bind m k s = Ok (y, s') ->
              bind m (fun x => bind (k x) f) s = f y s').
    { intros X Y Z m k f s0 y s' Hm. apply bind_inv in Hm as (x & s4 & Hm1 & Hm2).
      by rewrite (bind_ok _ _ _ _ _ Hm1), (bind_ok _ _ _ _ _ Hm2). }
    unfold spg_unsched_all. rewrite (Hseq _ _ _ _ _ _ _ _ _ H1), (Hseq _ _ _ _ _ _ _ _ _ H2). exact H3.
  - destruct Hr3 as [? ? ? ([l Hl] & Hp & Ht)]. split; [done..|]. split; [|by rewrite Hp, Ht].
    exists l. destruct Hl as [Hc He Hv Hb Hn Hcfg Ha Hi Hrf Hcl]. split; try done. intros k _. apply Hi. by destruct k.
Qed.

Lemma sched_all_state p t s : intc_ready (spg_at none p t) s ->
  last_sync_rounded p = pixel_cycles p * (t / pixel_cycles p) ->
  exists s', sched_all s = Ok (tt, s') /\ spg_running s' /\ now_of s' = t /\ spg_of s' = upd_flags true true true p.
Proof.
  intros Hr Hsy. destruct (resched_state _ _ _ _ HB s (ready_state _ _ _ _ Hr) eq_refl Hsy) as (s1 & H1 & _ & Hr1).
  destruct (resched_state _ _ _ _ VI s1 Hr1 eq_refl Hsy) as (s2 & H2 & _ & Hr2).
  destruct (resched_state _ _ _ _ VO s2 Hr2 eq_refl Hsy) as (s3 & H3 & _ & Hr3).
  exists s3. unfold sched_all. cbn [sched_ev] in *. rewrite (bind_ok _ _ _ _ _ H1), (bind_ok _ _ _ _ _ H2). split; [done|].
  apply (ready_ext _ all) in Hr3; [|by intros []]. pose proof Hr3 as [_ _ _ (_ & Hp & Ht & _)].
  split; [|by split]. unfold spg_running. change (spg_of s3) with (spg (world s3)). change (now_of s3) with (wnow (world s3)).
  rewrite Hp, Ht. by eapply ready_state, ready_at.
Qed.


(** the register file changes; the beam stays where it is *)
Lemma mod_state A p t f s :
  intc_ready (spg_at A p t) s -> pclk_div (f p) = pclk_div p -> last_sync_rounded (f p) = last_sync_rounded p ->
  beam (f p) = beam p -> get_interlace (f p) = get_interlace p -> config_ok (f p) ->
  raster_x p < get_hcount (f p) -> raster_y p < get_vcount (f p) ->
  (forall k, A k = true -> ev_flag (f p) k = true /\ forall u, due_in p k u -> due_in (f p) k u) ->
  exists s', spg_mod f s = Ok (tt, s') /\ intc_ready (spg_at A (f p) t) s'.
Proof.
  intros Hr Ed El Eb Ec Hcfg Hx Hy Hk. eexists. split; [reflexivity|]. eapply (ready_world _ _ s); [exact Hr|].
  destruct Hr as [_ _ _ ([l [Hc He Hrv Hb Hn _ Ha Hi Hrf Hcl]] & Hp & Ht)]. change (spg_of s) with (spg (world s)). rewrite Hp in *.
  injection Eb as Ex Ey.
  assert (Hpc : pixel_cycles (f p) = pixel_cycles p) by (unfold pixel_cycles, get_pclk_div; by rewrite Ec, Ed).
  split; [|split; [by rewrite spg_set|unfold wnow; by rewrite evclk_spg]].
  exists l. split; unfold wnow; rewrite ?evclk_spg, ?spg_set; try done.
  - destruct Hb as [Bd Bx By Bl Bp Bn]. split; rewrite ?Ed, ?Ex, ?Ey, ?El, ?Hpc; try done; lia.
  - unfold pixels_since. rewrite Hpc, El. exact Hn.
  - intros k HA. destruct (Ha k HA) as (Hin & (u & Hu1 & Hu2) & Hfl). destruct (Hk k HA) as [Hfl' Hdue]. split_and!; [done| |done].
    exists u. unfold ev_stamp. rewrite evclk_spg, spg_set, Hpc, El. rewrite Hp in *. split; [exact Hu1|by apply Hdue].
Qed.

Lemma sync_again A p t s : intc_ready (spg_at A p t) s ->
  last_sync_rounded p = pixel_cycles p * (t / pixel_cycles p) -> spg_sync s = Ok (tt, s).
Proof.
  intros [_ _ _ ([l Hl] & Hp & Ht)] Hsy. rewrite spg_sync_eq by (by destruct Hl).
  destruct Hl as [_ _ _ [Hd Hx Hy _ _ _] _ _ _ _ _ _].
  change (spg_of s) with (spg (world s)). change (now_of s) with (wnow (world s)). rewrite Hp, Ht in *.
  pose proof (pixel_cycles_range _ Hd).
  assert (E : synced_at t p = p).
  { unfold synced_at. replace (pixels_since t p) with 0.
    2: { unfold pixels_since. rewrite Hsy, (Z.mul_comm (pixel_cycles p)), Z.div_mul by lia. lia. }
    rewrite Z.add_0_r. unfold pos. rewrite beam_at_pos by (cbn; lia). rewrite <- Hsy. apply upd_raster_same. }
  rewrite E, <- Hp. change (spg (world s)) with (spg_of s). by rewrite with_spg_same.
Qed.

Lemma running_at s : spg_running s -> intc_ready (spg_at all (spg_of s) (now_of s)) s.
Proof. apply ready_at. Qed.
Lemma at_running p t s : intc_ready (spg_at all p t) s -> spg_running s.
Proof.
  intros Hr. pose proof Hr as [_ _ _ (_ & Hp & Ht)]. unfold spg_running.
  change (spg_of s) with (spg (world s)). change (now_of s) with (wnow (world s)). rewrite Hp, Ht. by apply ready_state.
Qed.
Lemma sync_at A p t s : intc_ready (spg_at A p t) s ->
  exists s', spg_sync s = Ok (tt, s') /\ intc_ready (spg_at A (synced_at t p) t) s'.
Proof.
  intros Hr. destruct (sync_state _ _ _ _ _ (ready_state _ _ _ _ Hr)) as (s' & H & _ & Hr'). exists s'. split; [done|].
  by eapply ready_at.
Qed.

Lemma timing_write r val s :
  spg_running s -> r = SPG_HBLANK_INT \/ r = SPG_VBLANK_INT \/ r = SPG_LOAD ->
  let p := synced_at (now_of s) (spg_of s) in
  config_ok (upd_reg r val p) -> raster_x p < get_hcount (upd_reg r val p) -> raster_y p < get_vcount (upd_reg r val p) ->
  exists s', set_timing_reg r val s = Ok (tt, s') /\ spg_running s'.
Proof.
  intros Hrun Hreg p Hcfg Hx Hy. set (t := now_of s) in *.
  destruct (sync_at _ _ _ _ (running_at s Hrun)) as (s1 & H1 & Hr1). fold t p in Hr1.
  destruct (unsched_state _ _ _ Hr1) as (s2 & H2 & Hr2).
  destruct (mod_state none (idle p) t (upd_reg r val) s2 Hr2) as (s3 & H3 & Hr3); try done.
  { unfold get_interlace. cbn [upd_reg spg_reg]. rewrite fn_lookup_insert_ne; [done|]. destruct Hreg as [->|[->| ->]]; done. }
  { by destruct Hcfg. }
  assert (Hsy : last_sync_rounded (upd_reg r val (idle p)) =
            pixel_cycles (upd_reg r val (idle p)) * (t / pixel_cycles (upd_reg r val (idle p)))).
  { assert (Hpc : pixel_cycles (upd_reg r val (idle p)) = pixel_cycles p); [|by rewrite Hpc].
    unfold pixel_cycles, get_pclk_div, get_interlace. cbn [upd_reg spg_reg pclk_div].
    rewrite fn_lookup_insert_ne; [done|]. destruct Hreg as [->|[->| ->]]; done. }
  destruct (sched_all_state _ _ _ Hr3 Hsy) as (s4 & H4 & Hrun4 & _ & _).
  exists s4. split; [|done]. unfold set_timing_reg.
  rewrite (bind_ok _ _ _ _ _ H1), (bind_ok _ _ _ _ _ H2), (bind_ok _ _ _ _ _ H3), (bind_ok _ _ _ _ _ (sync_again _ _ _ _ Hr3 Hsy)).
  done.
Qed.

(** ** Every operation keeps the events right *)
Inductive spg_op : Type :=
| SetHblankInt (val : Z) | SetVblankInt (val : Z) | SetLoad (val : Z)
| SetHblank (val : Z) | SetVblank (val : Z) | SetPixDouble (x y : bool)
| SetControl (val : Z) | SetPclkDiv (val : Z)
| GetStatus | Wait (t : Z) | NextEvent.
Definition run_spg_op (o : spg_op) : M (Sh4 W) unit :=
  match o with
  | SetHblankInt val => pvr2_spg_set_hblank_int val
  | SetVblankInt val => pvr2_spg_set_vblank_int val
  | SetLoad val => pvr2_spg_set_load val
  | SetHblank val => pvr2_spg_set_hblank val
  | SetVblank val => pvr2_spg_set_vblank val
  | SetPixDouble x y => spg_set_pix_double_x x ;; spg_set_pix_double_y y
  | SetControl val => pvr2_spg_set_control val
  | SetPclkDiv val => spg_set_pclk_div val
  | GetStatus => pvr2_spg_get_status ;; ret tt
  | Wait t => on_evclk (modify (clock_set_cycle_stamp t))
  | NextEvent => turn ;; ret tt
  end.
(** the new timing fits: the interrupts are on lines of the frame, and the beam is in it *)
Definition timing_fits (r : spg_reg_idx) (val : Z) s : Prop :=
  let p := synced_at (now_of s) (spg_of s) in
  config_ok (upd_reg r val p) /\ raster_x p < get_hcount (upd_reg r val p) /\ raster_y p < get_vcount (upd_reg r val p).
(** the new pixel clock is one of the two that the code takes, and the present pixel of the old one starts with a pixel of the new *)
Definition clock_fits (val : Z) s : Prop :=
  let p := synced_at (now_of s) (spg_of s) in
  (val = 1 \/ val = 2) /\ last_sync_rounded p mod pixel_cycles (upd_pclk_div val p) = 0.
Definition spg_op_ok (o : spg_op) s : Prop :=
  match o with
  | SetHblankInt val => timing_fits SPG_HBLANK_INT val s
  | SetVblankInt val => timing_fits SPG_VBLANK_INT val s
  | SetLoad val => timing_fits SPG_LOAD val s
  | SetControl val => get_interlace (upd_reg SPG_CONTROL val (spg_of s)) = get_interlace (spg_of s)
  | SetPclkDiv val => clock_fits val s
  | Wait t => now_of s <= t < 2 ^ 62 /\ t <= clock_target_stamp (evclk_of s)
  | NextEvent => ev_stamp (world s) VI < 2 ^ 62 /\ forall e, ev_next_priv (evclk_of s) = Some e -> ~ other e
  | _ => True
  end.

Lemma wait_running t s : spg_running s -> now_of s <= t < 2 ^ 62 -> t <= clock_target_stamp (evclk_of s) ->
  spg_running (with_evclk (clock_set_cycle_stamp t (evclk_of s)) s).
Proof.
  intros Hrun Ht Htgt. pose proof (running_at s Hrun) as Hr.
  assert (Hw : spg_at all (spg_of s) t (flag s) (set_evclk (clock_set_cycle_stamp t (evclk_of s)) (world s))).
  { destruct Hr as [_ _ _ ([l [Hc He Hrv Hb Hn Hcfg Ha Hi Hrf Hcl]] & _ & _)]. unfold evclk_of in *. set (c := evclk (world s)) in *.
    destruct (set_cycle_frame t c) as (E1 & E2 & E3 & E4). set (c' := clock_set_cycle_stamp t c) in *. set (w' := set_evclk c' (world s)).
    assert (Ec : evclk w' = c') by apply evclk_set. assert (Es : spg w' = spg (world s)) by apply spg_evclk.
    assert (En : wnow w' = t) by (unfold wnow; by rewrite Ec).
    assert (Hall : forall i, i ∈ l -> t <= stamp (events c) i).
    { intros i Hin. destruct Hc as [(_ & _ & _ & Hso) Htg _]. rewrite Htg in Htgt. destruct l as [|e l]; [by apply elem_of_nil in Hin|].
      cbn [target_of] in Htgt. inversion_clear Hso. apply elem_of_cons in Hin as [->|Hin]; [done|].
      rewrite list.Forall_forall in *. etransitivity; [exact Htgt|]. auto. }
    assert (Hc' : clock_ok c' l).
    { destruct Hc as [Hq Htg Hf]. split; [by eapply queue_ext|rewrite E4, Htg|].
      - destruct l as [|e l]; [|by unfold target_of; rewrite E2]. destruct (Ha VI eq_refl) as (Hin & _). by apply elem_of_nil in Hin.
      - rewrite list.Forall_forall. intros i Hin. rewrite E2, E3. by apply Hall. }
    assert (Hb' : beam_ok (spg (world s)) t).
    { destruct Hb as [Bd Bx By Bl Bp Bn]. change (wnow (world s)) with (now_of s) in *. split; try done; lia. }
    assert (Harm : forall k, armed w' k).
    { intros k. destruct (Ha k eq_refl) as (_ & (u & Hu) & _). exists u. unfold ev_stamp. by rewrite Ec, Es, E2. }
    split; [|by split]. exists l. split; rewrite ?Ec, ?Es, ?En, ?E2; try done.
    - destruct (armed_recent w' l VI) as (u & _ & [[_ Hu] _] & Hle); rewrite ?Ec, ?Es, ?En; [done|done|by apply (Ha VI)|apply Harm|].
      destruct (period_range (spg w') VI) as [HP _]. rewrite ?Es, ?En in *. lia.
    - intros k Hk. destruct (Ha k Hk) as (Hin & _ & Hfl). by split_and!. }
  eapply at_running, (ready_world _ _ s); [exact Hr|exact Hw].
Qed.

(** a change that the events do not depend on *)
Definition same_timing (p p' : pvr2_spg) : Prop :=
  (forall r, r <> SPG_HBLANK -> r <> SPG_VBLANK -> r <> SPG_CONTROL -> spg_reg p' r = spg_reg p r) /\
  get_interlace p' = get_interlace p /\ pclk_div p' = pclk_div p /\
  last_sync_rounded p' = last_sync_rounded p /\ beam p' = beam p /\ forall k, ev_flag p' k = ev_flag p k.

Lemma mod_running f s : same_timing (spg_of s) (f (spg_of s)) -> spg_running s ->
  exists s', spg_mod f s = Ok (tt, s') /\ spg_running s'.
Proof.
  intros Hf Hrun. pose proof (running_at s Hrun) as Hr. set (p := spg_of s) in *.
  destruct Hf as (R & R4 & R5 & R6 & R7 & R8).
  pose proof (R SPG_HBLANK_INT ltac:(done) ltac:(done) ltac:(done)) as R1. pose proof (R SPG_VBLANK_INT ltac:(done) ltac:(done) ltac:(done)) as R2.
  pose proof (R SPG_LOAD ltac:(done) ltac:(done) ltac:(done)) as R3.
  pose proof Hr as [_ _ _ ([l Hl] & Hp & _)]. pose proof Hl as [_ _ _ [_ Hx Hy _ _ _] _ [C1 C2 C3] _ _ _ _]. rewrite Hp in *.
  destruct (mod_state all p (now_of s) f s Hr) as (s' & H & Hr'); try done.
  - split; unfold get_hblank_int_mode, get_hblank_int_comp_val, get_vblank_in_int_line, get_vblank_out_int_line, get_vcount in *;
      by rewrite ?R1, ?R2, ?R3.
  - unfold get_hcount in *. rewrite R3. lia.
  - unfold get_vcount in *. rewrite R3. lia.
  - intros k _. split.
    + rewrite R8. rewrite <- Hp. by apply (si_armed _ _ _ _ Hl k).
    + intros u. unfold due_in. replace (pos (f p)) with (pos p) by (unfold pos, get_hcount; by rewrite R3, R7).
      replace (ev_period (f p) k) with (ev_period p k)
        by (unfold ev_period, frame_pixels, get_hblank_int_mode, get_hcount, get_vcount; by rewrite R1, R3).
      replace (ev_target (f p) k) with (ev_target p k); [done|].
      unfold ev_target, get_hblank_int_mode, get_hblank_int_comp_val, get_vblank_in_int_line, get_vblank_out_int_line, get_hcount.
      by rewrite R1, R2, R3.
  - exists s'. split; [done|]. by eapply at_running.
Qed.

Lemma same_timing_reg r val p : r = SPG_HBLANK \/ r = SPG_VBLANK \/ r = SPG_CONTROL ->
  get_interlace (upd_reg r val p) = get_interlace p -> same_timing p (upd_reg r val p).
Proof.
  intros Hr Hi. split_and!; try done. intros q H1 H2 H3. cbn [upd_reg spg_reg]. apply fn_lookup_insert_ne.
  destruct Hr as [->|[->| ->]]; congruence.
Qed.
Lemma interlace_other r val p : r <> SPG_CONTROL -> get_interlace (upd_reg r val p) = get_interlace p.
Proof. intros Hr. unfold get_interlace. cbn [upd_reg spg_reg]. by rewrite fn_lookup_insert_ne. Qed.

(** a new pixel clock: the second synchronization counts the pixels of the new clock since the start of the old pixel *)
Lemma pclk_write val s : spg_running s -> clock_fits val s -> exists s', spg_set_pclk_div val s = Ok (tt, s') /\ spg_running s'.
Proof.
  intros Hrun [Hv Hal]. set (t := now_of s) in *. set (p := synced_at t (spg_of s)) in *.
  destruct (sync_at _ _ _ _ (running_at s Hrun)) as (s1 & H1 & Hr1). fold t p in Hr1.
  destruct (unsched_state _ _ _ Hr1) as (s2 & H2 & Hr2). set (q := upd_pclk_div val (idle p)).
  assert (Hq : pixel_cycles q = pixel_cycles (upd_pclk_div val p)) by done. rewrite <- Hq in Hal.
  assert (Hr3 : intc_ready (spg_at none q t) (with_spg q s2)).
  { eapply (ready_world _ _ s2); [exact Hr2|]. destruct Hr2 as [_ _ _ ([l [Hc He Hrv Hb Hn Hcf Ha Hi Hrf Hcl]] & Hp & Ht)].
    rewrite Hp, Ht in *. split; [|split; [by rewrite spg_set|unfold wnow; by rewrite evclk_spg]].
    pose proof Hb as [Bd Bx By Bl Bp Bn]. pose proof (pixel_cycles_range q Hv) as Hpc. pose proof (pixel_cycles_range _ Bd) as Hpc0.
    exists l. change (wnow (world s2)) with (clock_cycle_stamp (evclk (world s2))) in Ht.
    split; unfold wnow; rewrite ?evclk_spg, ?spg_set, ?Ht; try done.
    - split; try done. change (last_sync_rounded q) with (last_sync_rounded p). apply Z.div_exact in Hal; [done|lia].
    - unfold pixels_since in *. change (last_sync_rounded q) with (last_sync_rounded p).
      assert (Hls : last_sync_rounded p = pixel_cycles (idle p) * (t / pixel_cycles (idle p))) by done.
      assert (t - last_sync_rounded p < 400) by (pose proof (Z.mod_pos_bound t (pixel_cycles (idle p)) ltac:(lia));
        pose proof (Z.div_mod t (pixel_cycles (idle p)) ltac:(lia)); lia).
      assert (t / pixel_cycles q <= (last_sync_rounded p + 400 * pixel_cycles q) / pixel_cycles q) as Hdv by (apply Z.div_le_mono; nia).
      rewrite Z.div_add in Hdv by lia. lia.
    - by destruct Hcf. }
  destruct (sync_at _ _ _ _ Hr3) as (s4 & H4 & Hr4). destruct (sched_all_state _ _ _ Hr4) as (s5 & H5 & Hrun5 & _); [done|].
  exists s5. split; [|done]. unfold spg_set_pclk_div. replace (_ && _) with false by (destruct Hv as [->| ->]; done).
  rewrite (bind_ok _ _ _ _ _ H1), (bind_ok _ _ _ _ _ H2).
  assert (H3 : spg_mod (upd_pclk_div val) s2 = Ok (tt, with_spg q s2)).
  { unfold spg_mod, modify. destruct Hr2 as [_ _ _ (_ & Hp & _)]. change (spg_of s2) with (spg (world s2)). by rewrite Hp. }
  by rewrite (bind_ok _ _ _ _ _ H3), (bind_ok _ _ _ _ _ H4).
Qed.

(** C16: as long as the generator runs, its three events are queued for exactly the moments at which the beam reaches
    the lines that the registers name.  These operations keep this and succeed: writes of the load register
    and of the two interrupt registers after which the interrupts are on lines of the frame, the beam is in it and the
    horizontal interrupt is in mode 0 or 2; writes of the blanking registers, of the pixel-doubling flags, and of the control
    register without a change of the interlace bit; a change of the pixel clock at the start of one of its
    pixels; reads of the status; time that passes up to the next event and below 2^62; and the next event itself, when it
    is the generator's or the CPU's refresh.  (The other cases are findings: mode 1 of the horizontal
    interrupt, a beam outside the new frame, a change of the interlace bit, and a change of the clock within a
    pixel.  The callback at the end of a frame is assumed to leave generator, clock and interrupts alone: [end_frame_ok].) *)
Theorem spg_events_exact (o : spg_op) s :
  spg_running s -> spg_op_ok o s -> exists s', run_spg_op o s = Ok (tt, s') /\ spg_running s'.
Proof.
  intros Hrun Ho. pose proof (running_at s Hrun) as Hr.
  destruct o as [val|val|val|val|val|x y|val|val| |t|]; cbn [run_spg_op spg_op_ok] in *.
  - destruct Ho as (? & ? & ?). by apply timing_write; [|left|..].
  - destruct Ho as (? & ? & ?). by apply timing_write; [|right; left|..].
  - destruct Ho as (? & ? & ?). by apply timing_write; [|right; right|..].
  - apply mod_running; [|done]. apply same_timing_reg; [by left|by apply interlace_other].
  - apply mod_running; [|done]. apply same_timing_reg; [by right; left|by apply interlace_other].
  - destruct (mod_running (fun p => upd_pix_double x (pix_double_y p) p) s) as (s1 & H1 & Hrun1); [done|done|].
    unfold spg_set_pix_double_x. rewrite (bind_ok _ _ _ _ _ H1). by apply mod_running.
  - apply mod_running; [|done]. apply same_timing_reg; [by right; right|done].
  - by apply pclk_write.
  - destruct (sync_at _ _ _ _ Hr) as (s1 & H1 & Hr1). exists s1. split; [|by eapply at_running].
    assert (exists v, pvr2_spg_get_status s = Ok (v, s1)) as [v Hv].
    { unfold pvr2_spg_get_status. rewrite (bind_ok _ _ _ _ _ H1), (bind_ok _ _ _ (spg_of s1) s1 eq_refl). by eexists. }
    by rewrite (bind_ok _ _ _ _ _ Hv).
  - destruct Ho as [Ht Htgt]. eexists. split; [by apply on_evclk_ok|]. by apply wait_running.
  - destruct Ho as [Hvi Hno]. destruct (turn_state _ _ _ s Hno Hrun Hvi) as (e & s1 & Ht & Hcase). exists s1.
    rewrite (bind_ok _ _ _ _ _ Ht). split; [done|].
    destruct Hcase as [(_ & _ & _ & t' & Hr')|(k & p' & _ & _ & _ & _ & Hr' & _)]; by eapply at_running, ready_at.
Qed.

(** ** The start *)
Record spg_blank (rf : bool) w : Prop := {
  sb_now : wnow w = 0;
  sb_spg : spg w = spg_zero;
  sb_events : forall k, is_Some (events (evclk w) !! ev_addr k);
  sb_revent : is_Some (events (evclk w) !! refresh_event);
  sb_queue : exists l, clock_ok (evclk w) l /\ (forall k, ev_addr k ∉ l) /\ (refresh_event ∈ l <-> rf = true) /\
    forall i, i ∈ l -> i = refresh_event \/ (exists k, i = ev_addr k) \/ other i
}.

Lemma init_running s : intc_ready spg_blank s -> exists s', spg_init s = Ok (tt, s') /\ spg_running s' /\
  pixel_cycles (spg_of s') = 400 /\ frame_pixels (spg_of s') = 858 * 263.
Proof.
  intros Hr. unfold spg_init. set (f := fun p : pvr2_spg => _).
  rewrite (bind_ok _ _ _ tt (with_spg (f (spg_of s)) s) eq_refl). set (s1 := with_spg _ s).
  assert (Hr1 : intc_ready (spg_at none (f spg_zero) 0) s1).
  { eapply (ready_world _ _ s); [exact Hr|]. destruct Hr as [_ _ _ [Hn Hp He Hrv (l & Hc & Hni & Hrf & Hcl)]].
    change (spg_of s) with (spg (world s)). rewrite Hp. unfold wnow in Hn.
    split; [|split; [by rewrite spg_set|unfold wnow; by rewrite evclk_spg]].
    exists l. split; unfold wnow; rewrite ?evclk_spg, ?spg_set, ?Hn; try done.
    - split; try by vm_compute. by right.
    - split; [right|..]; by vm_compute. }
  destruct (sched_all_state _ _ _ Hr1) as (s' & H & Hrun & _ & Hp); [by vm_compute|].
  exists s'. split; [done|]. split; [done|]. rewrite Hp. split; by vm_compute.
Qed.

(** ** A horizontal interrupt on every n-th line *)

Lemma next_line_mod y c : 2 <= c -> 0 <= y -> (((1 + (y + 1) / c) * c - 1) mod c) = c - 1 /\ y < (1 + (y + 1) / c) * c - 1.
Proof.
  intros Hc Hy. split.
  - replace ((1 + (y + 1) / c) * c - 1) with (c - 1 + (y + 1) / c * c) by lia. rewrite Z.mod_add by lia. apply Z.mod_small. lia.
  - pose proof (Z.div_mod (y + 1) c ltac:(lia)). pose proof (Z.mod_pos_bound (y + 1) c ltac:(lia)). lia.
Qed.

(** the last line of the beam's group is at most a frame away *)
Lemma mode1_until p line : 0 <= raster_x p < get_hcount p -> 0 <= raster_y p < line -> line < get_vcount p ->
  0 < (line - raster_y p) * get_hcount p - raster_x p <= 2 ^ 20.
Proof.
  intros Hx Hy Hl. pose proof (hcount_range p). pose proof (vcount_range p).
  assert (1 * get_hcount p <= (line - raster_y p) * get_hcount p <= 1024 * 1024)
    by (split; [apply Z.mul_le_mono_nonneg_r; lia|apply Z.mul_le_mono_nonneg; lia]). lia.
Qed.

(** the synchronization at the start of [line] *)
Lemma synced_line p now line :
  0 <= line < get_vcount p -> pos p + pixels_since now p = line * get_hcount p ->
  raster_x (synced_at now p) = 0 /\ raster_y (synced_at now p) = line.
Proof.
  intros Hl Hp. pose proof (hcount_range p). unfold synced_at. rewrite Hp. unfold beam_at.
  cbn [upd_raster raster_x raster_y fst snd]. by rewrite Z.mod_mul, Z.div_mul, Z.mod_small by lia.
Qed.

Lemma check_mode1 p s : spg_of s = p -> get_hblank_int_mode p = 1 -> 2 <= get_hblank_int_comp_val p ->
  raster_x p = 0 -> raster_y p mod get_hblank_int_comp_val p = get_hblank_int_comp_val p - 1 ->
  check_hblank s = Err ERROR_INTEGRITY.
Proof.
  intros Hp Hm Hc Hx Hy. unfold check_hblank. rewrite (bind_ok _ _ _ p s) by (unfold spg_get, gets; by rewrite Hp).
  rewrite Hx, Hm, Hy. unfold truth. replace (get_hblank_int_comp_val p =? 0) with false by lia.
  by replace (get_hblank_int_comp_val p - 1 =? 0) with false by lia.
Qed.

(** the two uses of mode 1 of SPG_HBLANK_INT contradict each other: the event is scheduled for the
    start of the last line of a group of [comp_val] lines, and its handler accepts only the first line
    of a group.  In a build with INVARIANTS the handler ends the emulator when the event comes. *)
Theorem spg_hblank_mode1_fails s l :
  INVARIANTS = true -> clock_ok (evclk_of s) l -> hblank_event ∉ l -> is_Some (events (evclk_of s) !! hblank_event) ->
  beam_ok (spg_of s) (now_of s) -> in_sync (world s) -> now_of s < 2 ^ 61 ->
  get_hblank_int_mode (spg_of s) = 1 -> 2 <= get_hblank_int_comp_val (spg_of s) ->
  (1 + (raster_y (spg_of s) + 1) / get_hblank_int_comp_val (spg_of s)) * get_hblank_int_comp_val (spg_of s) - 1 <
    get_vcount (spg_of s) ->
  exists s1, sched_next_hblank_event s = Ok (tt, s1) /\
    spg_handle_hblank (with_evclk (clock_set_cycle_stamp (ev_stamp (world s1) HB) (evclk_of s1)) s1) = Err ERROR_INTEGRITY.
Proof.
  intros Hinv Hc Hni Hex Hb Hsy Hn Hmode Hcomp Hline. pose proof Hb as [Hd Hx Hy Hl Hp _].
  set (p := spg_of s) in *. set (t := now_of s) in *. set (c := get_hblank_int_comp_val p) in *.
  destruct (next_line_mod (raster_y p) c Hcomp ltac:(lia)) as [Hmod Hlt]. set (line := (1 + (raster_y p + 1) / c) * c - 1) in *.
  pose proof (pixel_cycles_range _ Hd) as HD. pose proof (hcount_range p). pose proof (vcount_range p).
  set (u := (line - raster_y p) * get_hcount p - raster_x p). 
  assert (Hu : 0 < u <= 2 ^ 20) by (apply mode1_until; lia).
  assert (Hlast : last_sync_rounded p = pixel_cycles p * (t / pixel_cycles p)) by exact Hsy.
  set (D := pixel_cycles p) in *. set (w1 := D * (u + t / D)).
  assert (Ht : t - D < D * (t / D) <= t).
  { pose proof (Z.div_mod t D ltac:(lia)). pose proof (Z.mod_pos_bound t D ltac:(lia)). lia. }
  assert (0 <= t / D <= t) by (split; [apply Z.div_pos; lia|apply Z.div_le_upper_bound; nia]).
  assert (Hw1 : t <= w1 < 2 ^ 62) by (unfold w1; nia).
  assert (Hstamp : pixel_stamp p u t = w1).
  { unfold pixel_stamp. fold (pixel_cycles p) D. rewrite (wrap_small 64 D), (wrap_small 64 (u + _)) by (unfold in_range; lia).
    apply wrap_small. unfold in_range, w1 in *. lia. }
  destruct (sched_at_ok (evclk_of s) l hblank_event w1 Hc Hni Hex (proj1 Hw1)) as (c' & l' & Hs & _ & _ & Hst & _).
  assert (Hsched : sched_next_hblank_event s = Ok (tt, with_spg (set_flag HB true p) (with_evclk c' s))).
  { unfold sched_next_hblank_event. rewrite (bind_ok _ _ _ p s eq_refl), Hmode. fold c.
    replace (c =? 0) with false by lia. rewrite (wrap_small 32 (raster_y p + 1)) by (unfold in_range; lia). fold line.
    rewrite (wrap_small 32 line) by (unfold in_range; lia). replace (line <? get_vcount p) with true by lia. fold u.
    rewrite (wrap_small 32 u) by (unfold in_range; lia). rewrite (bind_ok _ _ _ u s eq_refl), (bind_ok _ _ _ t s eq_refl), Hstamp.
    rewrite (bind_ok _ _ _ _ _ (on_evclk_ok _ s _ _ Hs)). unfold set_hblank_scheduled, spg_mod, modify. by rewrite spg_of_with_evclk. }
  eexists. split; [exact Hsched|]. set (s1 := with_spg _ _).
  assert (Ec1 : evclk_of s1 = c') by (unfold s1; by rewrite evclk_of_with_spg, evclk_of_with_evclk).
  assert (Est : ev_stamp (world s1) HB = w1) by (unfold ev_stamp; change (evclk (world s1)) with (evclk_of s1); by rewrite Ec1).
  rewrite Est, Ec1. set (c2 := clock_set_cycle_stamp w1 c'). set (s2 := with_evclk c2 s1).
  assert (Ep2 : spg_of s2 = set_flag HB true p) by (unfold s2, s1; by rewrite spg_of_with_evclk, spg_of_with_spg).
  assert (En2 : now_of s2 = w1).
  { unfold now_of, s2. rewrite evclk_of_with_evclk. unfold c2. by destruct (set_cycle_frame w1 c') as (_ & _ & -> & _). }
  assert (Hps : pixels_since w1 (set_flag HB true p) = u).
  { change (w1 / D - last_sync_rounded p / D = u). rewrite Hlast. unfold w1. rewrite !(Z.mul_comm D), !Z.div_mul by lia. lia. }
  assert (Hb2 : beam_ok (spg_of s2) (now_of s2)) by (rewrite Ep2, En2; split; try done; cbn; lia).
  unfold spg_handle_hblank. rewrite (bind_ok _ _ _ _ _ (spg_sync_eq s2 Hb2 ltac:(rewrite Ep2, En2, Hps; lia))). rewrite Ep2, En2.
  set (p3 := synced_at w1 _). set (s3 := with_spg p3 s2).
  destruct (synced_line (set_flag HB true p) w1 line) as [Hx3 Hy3].
  { change (0 <= line < get_vcount p). lia. }
  { rewrite Hps. change (pos p + u = line * get_hcount p). unfold pos, beam_pos, beam, u. cbn [fst snd]. lia. }
  fold p3 in Hx3, Hy3. rewrite Hinv. cbn [when]. unfold bind at 1.
  rewrite (check_mode1 p3 s3); [done|unfold s3; apply spg_of_with_spg|done|done|done|]. by rewrite Hy3.
Qed.
End events.

(** *** Witnesses: a machine that has the CPU, the controllers and the clock *)
Record video_board : Type := { vb_clk : dc_clock; vb_spg : pvr2_spg; vb_holly : holly_intc }.
#[local] Instance video_events : EventWorld video_board := {|
  evclk := vb_clk; set_evclk := fun c w => {| vb_clk := c; vb_spg := vb_spg w; vb_holly := vb_holly w |}
|}.
#[local] Instance video_holly : HollyWorld video_board := {|
  holly := vb_holly; set_holly := fun h w => {| vb_clk := vb_clk w; vb_spg := vb_spg w; vb_holly := h |}
|}.
#[local] Instance video_spg : SpgWorld video_board := {|
  spg := vb_spg; set_spg := fun p w => {| vb_clk := vb_clk w; vb_spg := p; vb_holly := vb_holly w |};
  hblank_event := 1; vblank_in_event := 2; vblank_out_event := 3; dc_end_frame := ret tt
|}.
#[local] Instance video_machine {CFG : BuildConfig} : Machine video_board := {|
  mem_map := memory_map.memory_map_init;
  sched_refresh_intc := fun w =>
    match sched_at 4 (clock_cycle_stamp (evclk w)) (evclk w) with
    | Ok (_, c) => Ok (set_evclk c w)
    | Err e => Err e
    end;
  dc_debugger_enabled := fun _ => false; debug_on_softbreak := fun _ _ => ret tt;
  fpu_inst := fun _ _ => raise ERROR_UNIMPLEMENTED
|}.
#[local] Instance video_refresh {CFG : BuildConfig} : RefreshOnClock video_board := {| refresh_event := 4; refresh_on_clock := fun _ => eq_refl |}.
#[local] Instance video_event_laws : EventWorldLaws video_board.
Proof. by split. Qed.
#[local] Instance video_holly_laws : HollyWorldLaws video_board.
Proof. by split. Qed.
#[local] Instance video_spg_laws : SpgWorldLaws video_board.
Proof. split; intros; by repeat match goal with w : video_board |- _ => destruct w end. Qed.

(** at reset, with the SPG's events and the CPU's in memory and none queued *)
Definition video_clock : dc_clock :=
  with_target (16 * SH4_CLOCK_SCALE) None
    (dc_clock_init (<[1 := unlinked 0]> (<[2 := unlinked 0]> (<[3 := unlinked 0]> (<[4 := unlinked 0]> ∅))))).
Definition video_cpu (p : pvr2_spg) (c : dc_clock) : Sh4 video_board :=
  let s := cpu_with [(SH4_REG_SR, 0x400000f0)] ∅ in
  {| reg := reg s; delayed_branch := false; delayed_branch_addr := 0; exec_state := SH4_EXEC_STATE_NORM;
     last_inst_type := SH4_GROUP_NONE; aborted_operation := false; sq := sq s; intc := idle_intc;
     fround := FE_TONEAREST; world := {| vb_clk := c; vb_spg := p; vb_holly := no_masks |} |}.
Definition no_others : Z -> Prop := fun _ => False.

Lemma video_addrs : NoDup [hblank_event; vblank_in_event; vblank_out_event; refresh_event].
Proof. apply (bool_decide_unpack (NoDup [1; 2; 3; 4])). by vm_compute. Qed.
Lemma video_end_frame s : exists w', dc_end_frame s = Ok (tt, with_world w' s) /\
  evclk w' = evclk (world s) /\ spg w' = spg (world s) /\ holly w' = holly (world s).
Proof. exists (world s). split_and!; try done. by destruct s. Qed.

Lemma video_blank : intc_ready (spg_blank no_others) (video_cpu spg_zero video_clock).
Proof.
  split.
  - split; [done|]. unfold video_cpu. cbn [reg cpu_with fold_left]. apply list.Forall_insert; [|done]. by apply list.Forall_replicate.
  - done.
  - apply list.Forall_replicate. by left.
  - split; [done|done|intros []; by eexists|by eexists|].
    + exists []. split_and!; [|intros k ?%elem_of_nil; done| |intros i ?%elem_of_nil; done].
      * split; [|done|by apply list.Forall_nil]. split_and!; [done|done|by apply list.NoDup_nil|constructor].
      * split; [by intros ?%elem_of_nil|done].
Qed.

Definition video_running : Sh4 video_board :=
  match spg_init (video_cpu spg_zero video_clock) with Ok (_, s) => s | Err _ => video_cpu spg_zero video_clock end.
Lemma video_running_ok : spg_running no_others video_running /\ pixel_cycles (spg_of video_running) = 400 /\
  frame_pixels (spg_of video_running) = 858 * 263.
Proof.
  destruct (init_running video_addrs no_others _ video_blank) as (s' & H & Hrun). unfold video_running. by rewrite H.
Qed.

(** ten seconds of video *)
Lemma spg_vblank_forever_witness :
  exists m trace s', turns m video_running = Ok (trace, s') /\
    count_occ Z.eq_dec trace vblank_in_event = 600%nat /\ raised HOLLY_NRM_INT_VBLANK_IN s'.
Proof.
  destruct video_running_ok as (Hrun & Hd & Hf).
  destruct (spg_vblank_forever video_addrs no_others video_end_frame 599 video_running) as (m & tr & s' & H & _ & Hc & _ & Hra).
  - exact (fun i H => H).
  - exact Hrun.
  - unfold frame_cycles. rewrite Hd, Hf. vm_compute (ev_stamp _ _). lia.
  - exists m, tr, s'. split; [exact H|]. split; [|exact Hra]. exact Hc.
Defined.

(** VGA timing: the load register's 525 lines, with the interrupts where they are *)
Lemma spg_events_exact_witness :
  exists s', run_spg_op (SetLoad (Z.lor (Z.shiftl 524 16) 857)) video_running = Ok (tt, s') /\ spg_running no_others s'.
Proof.
  apply (spg_events_exact video_addrs no_others video_end_frame _ video_running (proj1 video_running_ok)).
  split; [split; [right; split|..]|split]; by vm_compute.
Defined.


(** a horizontal interrupt on every second line *)
Definition invariants_config : BuildConfig := {|
  INVARIANTS := true; ENABLE_SH4_MMU := false; ENABLE_DEBUGGER := false; DBG_EXIT_ON_UNDEFINED_OPCODE := false
|}.
Lemma spg_hblank_mode1_fails_witness :
  let p := upd_pclk_div 2 (upd_reg SPG_HBLANK_INT 0x1002 (upd_reg SPG_LOAD 0x01060359 spg_zero)) in
  exists s1, sched_next_hblank_event (CFG := invariants_config) (video_cpu p video_clock) = Ok (tt, s1) /\
    ev_stamp (world s1) HB = 400 * 858 * 1 /\
    spg_handle_hblank (CFG := invariants_config)
      (with_evclk (clock_set_cycle_stamp (ev_stamp (world s1) HB) (evclk_of s1)) s1) = Err ERROR_INTEGRITY.
Proof.
  intros p. destruct (spg_hblank_mode1_fails (CFG := invariants_config) (video_cpu p video_clock) []) as (s1 & H1 & H2).
  - reflexivity.
  - split; [|done|by apply list.Forall_nil]. split_and!; [done|done|by apply list.NoDup_nil|constructor].
  - by intros ?%elem_of_nil.
  - by eexists.
  - split; try by vm_compute. by right.
  - by vm_compute.
  - by vm_compute.
  - by vm_compute.
  - by vm_compute.
  - by vm_compute.
  - exists s1. split; [exact H1|]. split; [|exact H2].
    assert (E : match sched_next_hblank_event (CFG := invariants_config) (video_cpu p video_clock) with
                | Ok (_, s) => ev_stamp (world s) HB | Err _ => 0 end = 343200) by by vm_compute.
    by rewrite H1 in E.
Defined.
