(* ===== verification/Twiddle.v ===== *)
(** The layouts of textures (src/libwashdc/hw/pvr2/pvr2_tex_cache.c): the twiddled order of pixels,
    [pvr2_tex_detwiddle] and its form for packed 4-bit pixels, and the vector quantization
    of [pvr2_tex_vq_decompress].

    A source pointer is a function from offsets to bytes, [None] outside the array it points into; a
    destination is the list of the bytes of the buffer, whose first contents ([malloc]) are arbitrary.
    The theorems say that the index [tex_twiddle] computes bit by bit is the recursive order of its comment,
    which places every pixel exactly once, and that the decoders invert that order. *)
From stdpp Require Import gmap list.
From S2P Require Import Prelude Sh4State.

(** ** [tex_twiddle] *)
Fixpoint twiddle_loop (n : nat) (shift x_sq y_sq twid_idx : Z) : Z :=
  match n with
  | O => twid_idx
  | S n' =>
      let mask := Z.shiftl 1 (shift + 1) - 1 in
      let pow := Z.shiftl 1 shift in
      let twid_idx := if Z.land x_sq mask >=? pow then Z.lor twid_idx (Z.shiftl 1 (shift * 2 + 1)) else twid_idx in
      let twid_idx := if Z.land y_sq mask >=? pow then Z.lor twid_idx (Z.shiftl 1 (shift * 2)) else twid_idx in
      twiddle_loop n' (shift + 1) x_sq y_sq twid_idx
  end.

Definition tex_twiddle (x y w_shift h_shift : Z) : Z :=
  let w := Z.shiftl 1 w_shift in
  let h := Z.shiftl 1 h_shift in
  let min_square := if w <? h then w else h in
  let min_square_shift := if w <? h then w_shift else h_shift in
  let x_resid := Z.land x (not32 (min_square - 1)) in
  let y_resid := Z.land y (not32 (min_square - 1)) in
  let x_sq := Z.land x (min_square - 1) in
  let y_sq := Z.land y (min_square - 1) in
  let twid_idx := twiddle_loop (Z.to_nat (min_square_shift + 1)) 0 x_sq y_sq 0 in
  if truth x_resid then u32 (twid_idx + x / min_square * min_square * min_square)
  else if truth y_resid then u32 (twid_idx + y / min_square * min_square * min_square)
  else twid_idx.

(** ** The order of the comment

    A square of side [2^(n+1)] is its upper left, lower left, upper right and lower right quarters, each
    in the same order; a rectangle is a row or a column of squares. *)
Fixpoint quarters (n : nat) (x y : Z) : Z :=
  match n with
  | O => 0
  | S m => let half := 2 ^ Z.of_nat m in
           (2 * (x / half) + y / half) * 4 ^ Z.of_nat m + quarters m (x mod half) (y mod half)
  end.

Definition layout (w_shift h_shift x y : Z) : Z :=
  let m := Z.min w_shift h_shift in
  (x / 2 ^ m + y / 2 ^ m) * 4 ^ m + quarters (Z.to_nat m) (x mod 2 ^ m) (y mod 2 ^ m).

(** the pixel at an index *)
Fixpoint quarters_inv (n : nat) (i : Z) : Z * Z :=
  match n with
  | O => (0, 0)
  | S m => let q := i / 4 ^ Z.of_nat m in
           let '(x, y) := quarters_inv m (i mod 4 ^ Z.of_nat m) in
           (q / 2 * 2 ^ Z.of_nat m + x, q mod 2 * 2 ^ Z.of_nat m + y)
  end.
Definition layout_inv (w_shift h_shift i : Z) : Z * Z :=
  let m := Z.min w_shift h_shift in
  let q := i / 4 ^ m in
  let '(x, y) := quarters_inv (Z.to_nat m) (i mod 4 ^ m) in
  if w_shift <? h_shift then (x, q * 2 ^ m + y) else (q * 2 ^ m + x, y).

Lemma pow4 n : 0 <= n -> 4 ^ n = 2 ^ n * 2 ^ n.
Proof. intros. change 4 with (2 * 2). by rewrite Z.pow_mul_l. Qed.
Lemma pow4_pos n : 0 <= n -> 0 < 4 ^ n.
Proof. intros. by apply Z.pow_pos_nonneg. Qed.

(** two digits, and a number of two digits *)
Lemma digits a b c : 0 <= b < c -> (a * c + b) / c = a /\ (a * c + b) mod c = b.
Proof.
  intros. rewrite Z.add_comm, Z.div_add, Z.mod_add by lia. rewrite Z.div_small, Z.mod_small by lia. lia.
Qed.
Lemma digit_bound x k n : 0 < k -> 0 <= x < n * k -> 0 <= x / k < n.
Proof. intros. split; [by apply Z.div_pos; lia|]. apply Z.div_lt_upper_bound; lia. Qed.

Lemma quarters_range n x y :
  0 <= x < 2 ^ Z.of_nat n -> 0 <= y < 2 ^ Z.of_nat n -> 0 <= quarters n x y < 4 ^ Z.of_nat n.
Proof.
  revert x y. induction n as [|n IH]; intros x y Hx Hy; [done|]. cbn [quarters].
  rewrite !Nat2Z.inj_succ, Z.pow_succ_r in * by lia. pose proof (pow2_pos (Z.of_nat n)).
  pose proof (pow4_pos (Z.of_nat n)).
  specialize (IH (x mod 2 ^ Z.of_nat n) (y mod 2 ^ Z.of_nat n)).
  pose proof (Z.mod_pos_bound x (2 ^ Z.of_nat n)). pose proof (Z.mod_pos_bound y (2 ^ Z.of_nat n)).
  pose proof (digit_bound x (2 ^ Z.of_nat n) 2). pose proof (digit_bound y (2 ^ Z.of_nat n) 2). nia.
Qed.

Lemma quarters_inv_range n i :
  0 <= i < 4 ^ Z.of_nat n ->
  0 <= fst (quarters_inv n i) < 2 ^ Z.of_nat n /\ 0 <= snd (quarters_inv n i) < 2 ^ Z.of_nat n.
Proof.
  revert i. induction n as [|n IH]; intros i Hi; [done|]. cbn [quarters_inv].
  rewrite !Nat2Z.inj_succ, !Z.pow_succ_r in * by lia. pose proof (pow2_pos (Z.of_nat n)).
  pose proof (pow4_pos (Z.of_nat n)). specialize (IH (i mod 4 ^ Z.of_nat n)).
  pose proof (Z.mod_pos_bound i (4 ^ Z.of_nat n)). pose proof (digit_bound i (4 ^ Z.of_nat n) 4).
  destruct (quarters_inv n _) as [x y]. cbn [fst snd] in *.
  pose proof (digit_bound (i / 4 ^ Z.of_nat n) 2 2). pose proof (Z.mod_pos_bound (i / 4 ^ Z.of_nat n) 2). nia.
Qed.

Lemma quarters_left n x y :
  0 <= x < 2 ^ Z.of_nat n -> 0 <= y < 2 ^ Z.of_nat n -> quarters_inv n (quarters n x y) = (x, y).
Proof.
  revert x y. induction n as [|n IH]; intros x y Hx Hy.
  { cbn in *. f_equal; lia. }
  cbn [quarters quarters_inv]. rewrite !Nat2Z.inj_succ, !Z.pow_succ_r in * by lia.
  pose proof (pow2_pos (Z.of_nat n)). set (k := 2 ^ Z.of_nat n) in *.
  pose proof (Z.mod_pos_bound x k). pose proof (Z.mod_pos_bound y k).
  destruct (digits (2 * (x / k) + y / k) (quarters n (x mod k) (y mod k)) (4 ^ Z.of_nat n)) as [E1 E2].
  { apply quarters_range; lia. }
  rewrite E1, E2, IH by lia. rewrite (Z.mul_comm 2 (x / k)).
  destruct (digits (x / k) (y / k) 2) as [-> ->]; [apply digit_bound; lia|].
  f_equal; rewrite Z.mul_comm; symmetry; apply Z.div_mod; lia.
Qed.

Lemma quarters_right n i :
  0 <= i < 4 ^ Z.of_nat n -> quarters n (fst (quarters_inv n i)) (snd (quarters_inv n i)) = i.
Proof.
  revert i. induction n as [|n IH]; intros i Hi.
  { cbn in *. lia. }
  cbn [quarters quarters_inv]. rewrite !Nat2Z.inj_succ, !Z.pow_succ_r in * by lia.
  pose proof (pow2_pos (Z.of_nat n)). pose proof (pow4_pos (Z.of_nat n)).
  pose proof (Z.mod_pos_bound i (4 ^ Z.of_nat n)).
  specialize (IH (i mod 4 ^ Z.of_nat n)). pose proof (quarters_inv_range n (i mod 4 ^ Z.of_nat n)) as Hr.
  destruct (quarters_inv n _) as [x y]. cbn [fst snd] in *. destruct Hr as [Hx Hy]; [lia|].
  destruct (digits (i / 4 ^ Z.of_nat n / 2) x (2 ^ Z.of_nat n) Hx) as [-> ->].
  destruct (digits (i / 4 ^ Z.of_nat n mod 2) y (2 ^ Z.of_nat n) Hy) as [-> ->].
  rewrite IH by lia. rewrite <- Z.div_mod by lia. rewrite Z.mul_comm. symmetry. apply Z.div_mod. lia.
Qed.

(** ** The bits are the quarters *)
Lemma lor_pow a n : 0 <= n -> Z.testbit a n = false -> Z.lor a (2 ^ n) = a + 2 ^ n.
Proof.
  intros Hn Ha. assert (Hl : Z.land a (2 ^ n) = 0).
  { apply Z.bits_inj_0. intros i. rewrite Z.land_spec, Z.pow2_bits_eqb by done.
    destruct (Z.eqb_spec n i) as [<-|]; [by rewrite Ha|apply andb_false_r]. }
  by rewrite <- (Z.lxor_lor _ _ Hl), <- (Z.add_nocarry_lxor _ _ Hl).
Qed.

Lemma above_pow k x : 0 <= k -> (Z.land x (Z.shiftl 1 (k + 1) - 1) >=? Z.shiftl 1 k) = Z.testbit x k.
Proof.
  intros Hk. rewrite !Z.shiftl_1_l. replace (2 ^ (k + 1) - 1) with (Z.ones (k + 1)) by (rewrite Z.ones_equiv; lia).
  rewrite Z.land_ones by lia. rewrite Z.testbit_odd, Z.shiftr_div_pow2 by done.
  rewrite Z.add_1_r, Z.pow_succ_r, Z.mul_comm by done. pose proof (pow2_pos k Hk).
  rewrite Z.rem_mul_r by lia. pose proof (Z.mod_pos_bound x (2 ^ k)). rewrite Zmod_odd.
  destruct (Z.odd (x / 2 ^ k)); rewrite Z.geb_leb; lia.
Qed.

(** the digit of weight [4^k] *)
Lemma set_digit k a (bx by_ : bool) :
  0 <= k -> 0 <= a < 4 ^ k ->
  (let a1 := if bx then Z.lor a (Z.shiftl 1 (k * 2 + 1)) else a in
   if by_ then Z.lor a1 (Z.shiftl 1 (k * 2)) else a1) = (2 * b2z bx + b2z by_) * 4 ^ k + a.
Proof.
  intros Hk Ha. cbv zeta. rewrite !Z.shiftl_1_l. replace (4 ^ k) with (2 ^ (k * 2)) in *
    by (rewrite Z.mul_comm, Z.pow_mul_r by lia; done).
  assert (Hhi : forall i, k * 2 <= i -> Z.testbit a i = false).
  { intros i Hi. apply (in_range_testbit_high (k * 2)); [|lia]. done. }
  rewrite (lor_pow a (k * 2 + 1)) by (try apply Hhi; lia). rewrite Z.add_1_r, Z.pow_succ_r by lia.
  destruct bx, by_; cbn [b2z]; try lia; rewrite lor_pow; try lia; try (apply Hhi; lia).
  rewrite Z.testbit_odd, Z.shiftr_div_pow2 by lia. pose proof (pow2_pos (k * 2)).
  rewrite Z.div_add, Z.div_small by lia. done.
Qed.

Lemma quarters_step k x y :
  quarters (S k) (x mod 2 ^ Z.of_nat (S k)) (y mod 2 ^ Z.of_nat (S k)) =
  (2 * b2z (Z.testbit x (Z.of_nat k)) + b2z (Z.testbit y (Z.of_nat k))) * 4 ^ Z.of_nat k +
  quarters k (x mod 2 ^ Z.of_nat k) (y mod 2 ^ Z.of_nat k).
Proof.
  cbn [quarters]. pose proof (pow2_pos (Z.of_nat k)).
  assert (E : forall z, z mod 2 ^ Z.of_nat (S k) / 2 ^ Z.of_nat k = b2z (Z.testbit z (Z.of_nat k)) /\
                        z mod 2 ^ Z.of_nat (S k) mod 2 ^ Z.of_nat k = z mod 2 ^ Z.of_nat k).
  { intros z. rewrite Nat2Z.inj_succ, Z.pow_succ_r, Z.mul_comm, Z.rem_mul_r by lia.
    rewrite Z.add_comm, Z.mul_comm.
    destruct (digits (z / 2 ^ Z.of_nat k mod 2) (z mod 2 ^ Z.of_nat k) (2 ^ Z.of_nat k)) as [-> ->].
    { apply Z.mod_pos_bound. lia. }
    rewrite Z.testbit_odd, Z.shiftr_div_pow2, Zmod_odd by lia. split; [|done]. by destruct (Z.odd _). }
  destruct (E x) as [-> ->], (E y) as [-> ->]. done.
Qed.

Lemma twiddle_loop_quarters n k x y :
  twiddle_loop n (Z.of_nat k) x y (quarters k (x mod 2 ^ Z.of_nat k) (y mod 2 ^ Z.of_nat k)) =
  quarters (k + n) (x mod 2 ^ Z.of_nat (k + n)) (y mod 2 ^ Z.of_nat (k + n)).
Proof.
  revert k. induction n as [|n IH]; intros k; [by rewrite Nat.add_0_r|].
  cbn [twiddle_loop]. rewrite !above_pow by lia. rewrite set_digit; [|lia|].
  2: { pose proof (pow2_pos (Z.of_nat k)). apply quarters_range; apply Z.mod_pos_bound; lia. }
  rewrite <- quarters_step. replace (Z.of_nat k + 1) with (Z.of_nat (S k)) by lia.
  rewrite IH. by rewrite Nat.add_succ_comm.
Qed.

(** ** Rectangles *)
Section layout.
Context (w_shift h_shift : Z) (Hw : 0 <= w_shift <= 15) (Hh : 0 <= h_shift <= 15).
Context (m : Z) (Em : m = Z.min w_shift h_shift).
Abbreviation in_tex x y := (0 <= x < 2 ^ w_shift /\ 0 <= y < 2 ^ h_shift).

Lemma min_pos : 0 < 2 ^ m.
Proof. apply pow2_pos. lia. Qed.
Lemma quarters_m x y : 0 <= quarters (Z.to_nat m) (x mod 2 ^ m) (y mod 2 ^ m) < 4 ^ m.
Proof.
  pose proof min_pos as Hm. pose proof (quarters_range (Z.to_nat m) (x mod 2 ^ m) (y mod 2 ^ m)) as H.
  rewrite Z2Nat.id in H by lia. apply H; by apply Z.mod_pos_bound.
Qed.
Lemma tex_area : 2 ^ w_shift * 2 ^ h_shift = 2 ^ (Z.max w_shift h_shift - m) * 4 ^ m.
Proof.
  rewrite <- Z.pow_add_r by lia. change 4 with (2 ^ 2). rewrite <- Z.pow_mul_r, <- Z.pow_add_r by lia. f_equal. lia.
Qed.
Lemma side_split : (w_shift = m /\ 2 ^ h_shift = 2 ^ (Z.max w_shift h_shift - m) * 2 ^ m) \/
                   (h_shift = m /\ 2 ^ w_shift = 2 ^ (Z.max w_shift h_shift - m) * 2 ^ m).
Proof.
  destruct (Z.le_gt_cases w_shift h_shift); [left|right]; (split; [lia|]); rewrite <- Z.pow_add_r by lia; f_equal; lia.
Qed.

Lemma squares x y : in_tex x y ->
  0 <= x / 2 ^ m + y / 2 ^ m < 2 ^ (Z.max w_shift h_shift - m) /\
  (w_shift <= h_shift -> x / 2 ^ m = 0) /\ (h_shift <= w_shift -> y / 2 ^ m = 0).
Proof.
  intros [Hx Hy]. pose proof min_pos as Hm. pose proof side_split as Hs.
  pose proof (pow2_pos (Z.max w_shift h_shift - m) ltac:(lia)) as Hk. set (k := 2 ^ (Z.max w_shift h_shift - m)) in *.
  destruct Hs as [[E1 E2]|[E1 E2]].
  - rewrite E1 in Hx. rewrite E2 in Hy. pose proof (digit_bound y (2 ^ m) k Hm Hy). rewrite (Z.div_small x) by lia.
    repeat split; try lia. intros. apply Z.div_small. assert (Eh : h_shift = m) by lia. rewrite Eh in E2. nia.
  - rewrite E1 in Hy. rewrite E2 in Hx. pose proof (digit_bound x (2 ^ m) k Hm Hx). rewrite (Z.div_small y) by lia.
    repeat split; try lia. intros. apply Z.div_small. assert (Ew : w_shift = m) by lia. rewrite Ew in E2. nia.
Qed.

Lemma layout_range x y : in_tex x y -> 0 <= layout w_shift h_shift x y < 2 ^ w_shift * 2 ^ h_shift.
Proof.
  intros H. unfold layout. rewrite <- Em. rewrite tex_area. pose proof (quarters_m x y). destruct (squares x y H) as [Hs _].
  pose proof (pow4_pos m). nia.
Qed.

Lemma layout_left x y : in_tex x y -> layout_inv w_shift h_shift (layout w_shift h_shift x y) = (x, y).
Proof.
  intros H. unfold layout_inv, layout. rewrite <- !Em. pose proof min_pos as Hm.
  destruct (digits (x / 2 ^ m + y / 2 ^ m) (quarters (Z.to_nat m) (x mod 2 ^ m) (y mod 2 ^ m)) (4 ^ m)) as [-> ->].
  { apply quarters_m. }
  pose proof (Z.mod_pos_bound x (2 ^ m) Hm). pose proof (Z.mod_pos_bound y (2 ^ m) Hm).
  rewrite quarters_left by (rewrite Z2Nat.id by lia; done).
  destruct (squares x y H) as (_ & Hz1 & Hz2).
  pose proof (Z.div_mod x (2 ^ m)). pose proof (Z.div_mod y (2 ^ m)).
  destruct (Z.ltb_spec w_shift h_shift); f_equal; nia.
Qed.

Lemma layout_right i : 0 <= i < 2 ^ w_shift * 2 ^ h_shift ->
  in_tex (fst (layout_inv w_shift h_shift i)) (snd (layout_inv w_shift h_shift i)) /\
  layout w_shift h_shift (fst (layout_inv w_shift h_shift i)) (snd (layout_inv w_shift h_shift i)) = i.
Proof.
  rewrite tex_area. intros Hi. unfold layout, layout_inv. rewrite <- !Em. pose proof min_pos as Hm. pose proof (pow4_pos m).
  pose proof (Z.mod_pos_bound i (4 ^ m)) as Hr.
  pose proof (quarters_inv_range (Z.to_nat m) (i mod 4 ^ m)) as Hq.
  pose proof (quarters_right (Z.to_nat m) (i mod 4 ^ m)) as Hi2.
  rewrite Z2Nat.id in * by lia. pose proof (digit_bound i (4 ^ m) (2 ^ (Z.max w_shift h_shift - m))) as Hd.
  destruct (quarters_inv _ _) as [x y]. cbn [fst snd] in *. destruct Hq as [Hx Hy]; [lia|].
  destruct (digits (i / 4 ^ m) x (2 ^ m) Hx) as [Ex1 Ex2], (digits (i / 4 ^ m) y (2 ^ m) Hy) as [Ey1 Ey2].
  pose proof (Z.div_mod i (4 ^ m)) as Hdm. pose proof side_split as Hs. set (k := 2 ^ (Z.max w_shift h_shift - m)) in *.
  destruct (Z.ltb_spec w_shift h_shift); cbn [fst snd]; destruct Hs as [[E1 E2]|[E1 E2]]; try lia.
  - rewrite Ey1, Ey2, (Z.div_small x), (Z.mod_small x), Hi2, E1, E2 by lia. nia.
  - assert (Eh : h_shift = m) by lia. rewrite Eh in E2 |- *. rewrite E1, Ex1, Ex2, (Z.div_small y), (Z.mod_small y), Hi2 by lia. nia.
  - rewrite Ex1, Ex2, (Z.div_small y), (Z.mod_small y), Hi2, E1, E2 by lia. nia.
Qed.

Lemma resid_zero x k : in_range 32 x -> 0 <= k <= 31 -> truth (Z.land x (not32 (2 ^ k - 1))) = negb (x / 2 ^ k =? 0).
Proof.
  intros Hx Hk. unfold truth. f_equal. pose proof (pow2_pos k).
  assert (E : Z.land x (not32 (2 ^ k - 1)) = x / 2 ^ k * 2 ^ k).
  { replace (2 ^ k - 1) with (Z.ones k) by (rewrite Z.ones_equiv; lia).
    rewrite <- Z.shiftr_div_pow2, <- Z.shiftl_mul_pow2 by lia. apply Z.bits_inj'. intros i Hi.
    assert (Ho : in_range 32 (Z.ones k)).
    { unfold in_range. rewrite Z.ones_equiv. pose proof (Z.pow_le_mono_r 2 k 31). lia. }
    rewrite Z.land_spec, not32_spec by done.
    rewrite Z.shiftl_spec, Z.testbit_ones_nonneg by lia. destruct (Z.ltb_spec i k).
    - rewrite (Z.testbit_neg_r _ (i - k)) by lia. by rewrite andb_false_r, andb_false_r.
    - rewrite Z.shiftr_spec by lia. replace (i - k + k) with i by lia. destruct (Z.ltb_spec i 32); [by rewrite andb_true_r|].
      by rewrite (in_range_testbit_high 32) by (auto; lia). }
  rewrite E. destruct (Z.eqb_spec (x / 2 ^ k) 0) as [->|]; [done|]. apply Z.eqb_neq. nia.
Qed.

(** the index that the code computes bit by bit *)
Lemma tex_twiddle_eq x y : in_tex x y -> tex_twiddle x y w_shift h_shift = layout w_shift h_shift x y.
Proof.
  intros H. pose proof (layout_range x y H) as Hr. unfold tex_twiddle. cbv zeta. rewrite !Z.shiftl_1_l.
  assert (Emin : (if 2 ^ w_shift <? 2 ^ h_shift then 2 ^ w_shift else 2 ^ h_shift) = 2 ^ m /\
               (if 2 ^ w_shift <? 2 ^ h_shift then w_shift else h_shift) = m).
  { destruct (Z.ltb_spec (2 ^ w_shift) (2 ^ h_shift)) as [Hl|Hl].
    - apply Z.pow_lt_mono_r_iff in Hl; [|lia..]. by rewrite Em, Z.min_l by lia.
    - apply Z.pow_le_mono_r_iff in Hl; [|lia..]. by rewrite Em, Z.min_r by lia. }
  destruct Emin as [-> ->]. assert (Hx32 : forall k, 0 <= k <= 15 -> 2 ^ k <= 2 ^ 15) by (intros; apply Z.pow_le_mono_r; lia).
  pose proof (Hx32 w_shift ltac:(lia)). pose proof (Hx32 h_shift ltac:(lia)). pose proof min_pos as Hm.
  destruct H as [Hx Hy]. rewrite !resid_zero by (unfold in_range; lia).
  assert (El : twiddle_loop (Z.to_nat (m + 1)) 0 (Z.land x (2 ^ m - 1)) (Z.land y (2 ^ m - 1)) 0 =
               quarters (Z.to_nat m) (x mod 2 ^ m) (y mod 2 ^ m)).
  { replace (2 ^ m - 1) with (Z.ones m) by (rewrite Z.ones_equiv; lia). rewrite !Z.land_ones by lia.
    pose proof (twiddle_loop_quarters (Z.to_nat (m + 1)) 0 (x mod 2 ^ m) (y mod 2 ^ m)) as E. cbn [quarters] in E.
    change (Z.of_nat 0) with 0 in E. rewrite E. replace (0 + Z.to_nat (m + 1))%nat with (S (Z.to_nat m)) by lia.
    rewrite quarters_step, Z2Nat.id, !Zmod_mod by lia.
    rewrite !(in_range_testbit_high m) by (try lia; by apply Z.mod_pos_bound). cbn [b2z]. lia. }
  rewrite El. destruct (squares x y (conj Hx Hy)) as (Hs & Hz1 & Hz2). unfold layout in *. rewrite <- !Em in Hr |- *.
  rewrite tex_area in Hr. assert (Hb : 2 ^ (Z.max w_shift h_shift - m) * 4 ^ m <= 2 ^ 30).
  { rewrite <- tex_area, <- Z.pow_add_r by lia. apply Z.pow_le_mono_r; lia. }
  rewrite pow4 in * by lia. destruct (Z.le_gt_cases w_shift h_shift) as [Hwh|Hwh].
  - rewrite (Hz1 Hwh) in *. cbn [Z.eqb negb]. destruct (Z.eqb_spec (y / 2 ^ m) 0) as [->|]; cbn [negb]; [lia|].
    rewrite wrap_small by (unfold in_range; lia). lia.
  - rewrite Hz2 in * by lia. destruct (Z.eqb_spec (x / 2 ^ m) 0) as [->|]; cbn [negb Z.eqb]; [lia|].
    rewrite wrap_small by (unfold in_range; lia). lia.
Qed.
End layout.

(** ** Buffers and loops *)

(** a pointer into an array, by the offsets from it *)
Abbreviation ptr := (Z -> option Z).
Definition ptr_read (p : ptr) (off : Z) (n : Z) : option (list Z) := mapM (fun k => p (off + k)) (seqZ 0 n).

(** [memcpy(dst + off, bytes, n)] *)
Definition buf_write (off : Z) (bytes : list Z) : M (list Z) unit :=
  fun dst => if (0 <=? off) && (off + Z.of_nat (length bytes) <=? Z.of_nat (length dst))
             then Ok (tt, list_inserts (Z.to_nat off) bytes dst) else Err C_UNDEFINED.

(** a read that must stay in its array *)
Definition known {St A} (o : option A) : M St A := match o with Some a => ret a | None => raise C_UNDEFINED end.

(** [for (i = 0; i < n; i++)] *)
Fixpoint for_from {St} (n : nat) (i : Z) (body : Z -> M St unit) : M St unit :=
  match n with
  | O => ret tt
  | S n' => body i ;; for_from n' (i + 1) body
  end.
Definition for_below {St} (n : Z) (body : Z -> M St unit) : M St unit := for_from (Z.to_nat n) 0 body.

Section decoders.
Context {CFG : BuildConfig}.

(** ** [pvr2_tex_detwiddle] *)
Definition check_twid_idx (twid_idx tex_w tex_h : Z) : M (list Z) unit :=
  when (INVARIANTS && (twid_idx >=? tex_w * tex_h)) (raise ERROR_INTEGRITY).

Definition pvr2_tex_detwiddle (src : ptr) (tex_w_shift tex_h_shift bytes_per_pix : Z) : M (list Z) unit :=
  let tex_w := Z.shiftl 1 tex_w_shift in
  let tex_h := Z.shiftl 1 tex_h_shift in
  for_below tex_h (fun row =>
  for_below tex_w (fun col =>
    let twid_idx := tex_twiddle col row tex_w_shift tex_h_shift in
    check_twid_idx twid_idx tex_w tex_h ;;
    px <- known (ptr_read src (twid_idx * bytes_per_pix) bytes_per_pix) ;;
    buf_write ((row * tex_w + col) * bytes_per_pix) px)).

(** ** [pvr2_tex_detwiddle_4bpp] *)
Definition pvr2_tex_detwiddle_4bpp (src8 : ptr) (tex_w_shift tex_h_shift : Z) : M (list Z) unit :=
  let tex_w := Z.shiftl 1 tex_w_shift in
  let tex_h := Z.shiftl 1 tex_h_shift in
  for_below tex_h (fun row =>
  for_below tex_w (fun col =>
    let twid_idx := tex_twiddle col row tex_w_shift tex_h_shift in
    check_twid_idx twid_idx tex_w tex_h ;;
    let dst_idx := row * tex_w + col in
    in_byte <- known (src8 (twid_idx / 2)) ;;
    let in_px := if twid_idx mod 2 =? 0 then Z.land in_byte 0xf else Z.shiftr in_byte 4 in
    d <- (fun dst : list Z => match dst !! Z.to_nat (dst_idx / 2) with Some d => Ok (d, dst) | None => Err C_UNDEFINED end) ;;
    buf_write (dst_idx / 2)
      [if dst_idx mod 2 =? 0 then u8 (Z.lor (u8 (Z.land d (Z.lnot 0xf))) in_px)
       else u8 (Z.lor (u8 (Z.land d (Z.lnot 0xf0))) (Z.shiftl in_px 4))])).

(** ** [pvr2_tex_vq_decompress] *)
Definition PVR2_CODE_BOOK_ENTRY_SIZE : Z := 4 * 2.
Definition PVR2_CODE_BOOK_ENTRY_COUNT : Z := 256.
Definition PVR2_CODE_BOOK_LEN : Z := PVR2_CODE_BOOK_ENTRY_COUNT * PVR2_CODE_BOOK_ENTRY_SIZE.

(** [color[i]], two bytes *)
Definition color_at (color : list Z) (i : nat) : list Z := take 2 (drop (2 * i) color).

Definition pvr2_tex_vq_decompress (code_book_src img_dat_src : ptr) (side_shift : Z) : M (list Z) unit :=
  let dst_side := Z.shiftl 1 side_shift in
  let src_side_shift := side_shift - 1 in
  let src_side := Z.shiftl 1 src_side_shift in
  for_below src_side (fun row =>
  for_below src_side (fun col =>
    let twid_idx := tex_twiddle col row src_side_shift src_side_shift in
    idx <- known (img_dat_src twid_idx) ;;
    color <- known (ptr_read code_book_src (PVR2_CODE_BOOK_ENTRY_SIZE * idx) PVR2_CODE_BOOK_ENTRY_SIZE) ;;
    let dst_row := row * 2 in
    let dst_col := col * 2 in
    buf_write (2 * (dst_row * dst_side + dst_col)) (color_at color 0) ;;
    buf_write (2 * ((dst_row + 1) * dst_side + dst_col)) (color_at color 1) ;;
    buf_write (2 * (dst_row * dst_side + dst_col + 1)) (color_at color 2) ;;
    buf_write (2 * ((dst_row + 1) * dst_side + dst_col + 1)) (color_at color 3))).
End decoders.

(** ** Loops that fill a buffer *)
Lemma for_from_inv {St} (I : Z -> St -> Prop) (n : nat) i body s :
  I i s ->
  (forall j s, i <= j < i + Z.of_nat n -> I j s -> exists s', body j s = Ok (tt, s') /\ I (j + 1) s') ->
  exists s', for_from n i body s = Ok (tt, s') /\ I (i + Z.of_nat n) s'.
Proof.
  revert i s. induction n as [|n IH]; intros i s Hi Hb; cbn [for_from].
  { rewrite Z.add_0_r. by exists s. }
  destruct (Hb i s) as (s1 & E1 & H1); [lia|done|]. rewrite (bind_ok _ _ _ _ _ E1).
  destruct (IH (i + 1) s1 H1) as (s2 & E2 & H2).
  { intros j s3 Hj. apply Hb. lia. }
  exists s2. split; [done|]. by replace (i + Z.of_nat (S n)) with (i + 1 + Z.of_nat n) by lia.
Qed.

(** nested loops over the rows and columns of a picture, by the number of the pixel *)
Lemma for_pixels {St} (I : Z -> St -> Prop) w h (body : Z -> Z -> M St unit) s :
  0 < w -> 0 <= h -> I 0 s ->
  (forall row col s, 0 <= row < h -> 0 <= col < w -> I (row * w + col) s ->
     exists s', body row col s = Ok (tt, s') /\ I (row * w + col + 1) s') ->
  exists s', for_below h (fun row => for_below w (body row)) s = Ok (tt, s') /\ I (h * w) s'.
Proof.
  intros Hw Hh H0 Hb. unfold for_below.
  destruct (for_from_inv (fun r => I (r * w)) (Z.to_nat h) 0 (fun row => for_from (Z.to_nat w) 0 (body row)) s)
    as (s' & E & H); [done| |by exists s'; rewrite Z2Nat.id in H by lia].
  intros r s1 Hr Hs1.
  destruct (for_from_inv (fun c => I (r * w + c)) (Z.to_nat w) 0 (body r) s1) as (s2 & E2 & H2).
  - by rewrite Z.add_0_r.
  - intros c s2 Hc Hs2. rewrite Z.add_assoc. apply Hb; [lia..|done].
  - exists s2. split; [done|]. rewrite Z2Nat.id in H2 by lia. by replace ((r + 1) * w) with (r * w + (0 + w)) by lia.
Qed.

Lemma buf_write_ok off bytes (dst : list Z) :
  0 <= off -> off + Z.of_nat (length bytes) <= Z.of_nat (length dst) ->
  exists dst', buf_write off bytes dst = Ok (tt, dst') /\ length dst' = length dst /\
    forall q, 0 <= q < Z.of_nat (length dst) ->
      dst' !! Z.to_nat q = if (off <=? q) && (q <? off + Z.of_nat (length bytes))
                           then bytes !! Z.to_nat (q - off) else dst !! Z.to_nat q.
Proof.
  intros Ho Hl. unfold buf_write. replace (_ && _) with true by lia. eexists. split; [done|]. split.
  { apply length_inserts. }
  intros q Hq. destruct (Z.leb_spec off q), (Z.ltb_spec q (off + Z.of_nat (length bytes))); cbn [andb].
  - rewrite list_lookup_inserts by lia. f_equal. lia.
  - rewrite list_lookup_inserts_ge by lia. done.
  - rewrite list_lookup_inserts_lt by lia. done.
  - lia.
Qed.

Lemma buf_write_all (bytes dst : list Z) : length bytes = length dst -> buf_write 0 bytes dst = Ok (tt, bytes).
Proof.
  intros Hl. destruct (buf_write_ok 0 bytes dst) as (dst' & -> & Hl' & Hq); [lia..|]. do 2 f_equal. apply list_eq. intros i.
  destruct (decide (i < length dst)%nat); [|rewrite !lookup_ge_None_2 by lia; done].
  specialize (Hq (Z.of_nat i) ltac:(lia)). replace (_ && _) with true in Hq by lia. rewrite Z.sub_0_r, Nat2Z.id in Hq. done.
Qed.

(** the bytes that [P k] describes after [k] pixels *)
Definition filled (n : Z) (P : Z -> Z -> Z -> Prop) (k : Z) (dst : list Z) : Prop :=
  Z.of_nat (length dst) = n /\ forall q, 0 <= q < n -> exists b, dst !! Z.to_nat q = Some b /\ P k q b.

Lemma filled_target n P k dst (target : Z -> Z) :
  0 <= n -> filled n P k dst -> (forall q b, 0 <= q < n -> P k q b -> b = target q) -> dst = target <$> seqZ 0 n.
Proof.
  intros Hn [Hl Hd] Ht. apply list_eq. intros i. destruct (decide (Z.of_nat i < n)) as [Hi|Hi].
  - destruct (Hd (Z.of_nat i)) as (b & Hb & HP); [lia|]. rewrite Nat2Z.id in Hb. rewrite Hb.
    rewrite list_lookup_fmap, lookup_seqZ_lt by lia. rewrite (Ht (Z.of_nat i) b) by (done || lia). done.
  - rewrite lookup_ge_None_2 by lia. symmetry. apply lookup_ge_None_2. rewrite length_fmap, length_seqZ. lia.
Qed.

Lemma ptr_read_ok (p : ptr) f off n :
  (forall i, off <= i < off + n -> p i = Some (f i)) -> ptr_read p off n = Some ((fun k => f (off + k)) <$> seqZ 0 n).
Proof.
  intros Hp. unfold ptr_read. apply mapM_Some. apply Forall2_fmap_r, Forall2_same_length_lookup. split; [done|].
  intros i a b Ha Hb. rewrite Ha in Hb. injection Hb as <-. apply lookup_seqZ in Ha. apply Hp. lia.
Qed.

(** a loop that writes the pixels one after the other, [b] bytes each *)
Lemma fill_pixels w h b (px : Z -> list Z) (body : Z -> Z -> M (list Z) unit) dst :
  0 < w -> 0 <= h -> 0 < b -> (forall k, 0 <= k < w * h -> Z.of_nat (length (px k)) = b) ->
  (forall row col s, 0 <= row < h -> 0 <= col < w ->
     body row col s = buf_write ((row * w + col) * b) (px (row * w + col)) s) ->
  Z.of_nat (length dst) = w * h * b ->
  for_below h (fun row => for_below w (body row)) dst =
  Ok (tt, (fun q => px (q / b) !!! Z.to_nat (q mod b)) <$> seqZ 0 (w * h * b)).
Proof.
  intros Hw Hh Hb Hpx Hbody Hlen. set (target q := px (q / b) !!! Z.to_nat (q mod b)).
  edestruct (for_pixels (filled (w * h * b) (fun k q v => q / b < k -> v = target q)) w h) as (dst' & E & H');
    [done|lia|..|rewrite E; do 2 f_equal; eapply filled_target; [nia|exact H'|]; intros q v Hq HP; apply HP, digit_bound; lia].
  { split; [done|]. intros q Hq. destruct (lookup_lt_is_Some_2 dst (Z.to_nat q)) as [v Hv]; [lia|]. exists v. split; [done|].
    pose proof (Z.div_pos q b). lia. }
  intros row col s Hr Hc [Hl Hs]. rewrite Hbody by done. set (k := row * w + col) in *.
  assert (Hk : 0 <= k < w * h) by nia. specialize (Hpx k Hk).
  edestruct buf_write_ok as (s' & -> & Hl' & Hs'); [| |exists s'; split; [done|]]; [nia..|].
  split; [lia|]. intros q Hq. rewrite Hs', Hpx by lia.
  destruct (Z.leb_spec (k * b) q), (Z.ltb_spec q (k * b + b)); cbn [andb].
  - destruct (digits k (q - k * b) b) as [D1 D2]; [lia|]. replace (k * b + (q - k * b)) with q in D1, D2 by lia.
    unfold target. rewrite D1, D2. eexists. split; [apply list_lookup_lookup_total_lt; lia|done].
  - destruct (Hs q Hq) as (v & Hv & HP). exists v. split; [done|]. intros Hlt. apply HP.
    assert (k + 1 <= q / b); [|lia]. apply Z.div_le_lower_bound; lia.
  - destruct (Hs q Hq) as (v & Hv & HP). exists v. split; [done|]. intros _. apply HP. apply Z.div_lt_upper_bound; lia.
  - lia.
Qed.

(** ** What the decoders produce *)
Section decode.
Context {CFG : BuildConfig} (w_shift h_shift : Z) (Hw : 0 <= w_shift <= 15) (Hh : 0 <= h_shift <= 15).
Abbreviation w := (2 ^ w_shift).
Abbreviation h := (2 ^ h_shift).

Lemma w_pos : 0 < w.
Proof. apply pow2_pos. lia. Qed.
Lemma h_pos : 0 < h.
Proof. apply pow2_pos. lia. Qed.
#[local] Hint Resolve w_pos h_pos : core.

(** the index in texture memory of a pixel in rows *)
Definition pixel_src (k : Z) : Z := layout w_shift h_shift (k mod w) (k / w).
(** and the pixel in rows at an index *)
Definition pixel_dst (i : Z) : Z := snd (layout_inv w_shift h_shift i) * w + fst (layout_inv w_shift h_shift i).

Lemma pixel_no row col : 0 <= col < w -> pixel_src (row * w + col) = layout w_shift h_shift col row.
Proof. intros H. unfold pixel_src. by destruct (digits row col w H) as [-> ->]. Qed.
Lemma pixel_src_range k : 0 <= k < w * h -> 0 <= pixel_src k < w * h.
Proof.
  intros Hk. pose proof w_pos. apply (layout_range _ _ Hw Hh _ eq_refl). split; [apply Z.mod_pos_bound; lia|].
  apply digit_bound; lia.
Qed.
Lemma pixel_dst_src k : 0 <= k < w * h -> pixel_dst (pixel_src k) = k.
Proof.
  intros Hk. pose proof w_pos. unfold pixel_dst, pixel_src. rewrite (layout_left _ _ Hw Hh _ eq_refl).
  - cbn [fst snd]. rewrite Z.mul_comm. symmetry. apply Z.div_mod. lia.
  - split; [apply Z.mod_pos_bound; lia|apply digit_bound; lia].
Qed.
Lemma pixel_dst_range i : 0 <= i < w * h -> 0 <= pixel_dst i < w * h.
Proof.
  intros Hi. destruct (layout_right _ _ Hw Hh _ eq_refl i Hi) as [[Hx Hy] _]. unfold pixel_dst. nia.
Qed.

Lemma check_ok row col (dst : list Z) : 0 <= row < h -> 0 <= col < w ->
  check_twid_idx (tex_twiddle col row w_shift h_shift) w h dst = Ok (tt, dst) /\
  tex_twiddle col row w_shift h_shift = pixel_src (row * w + col) /\ 0 <= pixel_src (row * w + col) < w * h.
Proof.
  intros Hr Hc. rewrite (tex_twiddle_eq _ _ Hw Hh _ eq_refl) by done. rewrite pixel_no by done.
  pose proof (layout_range _ _ Hw Hh _ eq_refl col row (conj Hc Hr)) as Hl. split; [|done].
  unfold check_twid_idx. replace (_ >=? _) with false by lia. by rewrite andb_false_r.
Qed.

(** whole bytes *)
Definition detwiddled (f : Z -> Z) (b : Z) : list Z := (fun q => f (pixel_src (q / b) * b + q mod b)) <$> seqZ 0 (w * h * b).

Lemma detwiddle_ok (src : ptr) f b dst :
  0 < b -> (forall i, 0 <= i < w * h * b -> src i = Some (f i)) -> Z.of_nat (length dst) = w * h * b ->
  pvr2_tex_detwiddle src w_shift h_shift b dst = Ok (tt, detwiddled f b).
Proof.
  intros Hb Hsrc Hlen. pose proof w_pos. pose proof h_pos. unfold pvr2_tex_detwiddle. cbv zeta. rewrite !Z.shiftl_1_l.
  rewrite (fill_pixels w h b (fun k => (fun j => f (pixel_src k * b + j)) <$> seqZ 0 b)); [|done|lia|done|..|done].
  - do 2 f_equal. apply list_fmap_ext. intros i q [Eq Hq]%lookup_seqZ. pose proof (Z.mod_pos_bound q b).
    apply list_lookup_total_correct. rewrite list_lookup_fmap, lookup_seqZ_lt by lia. cbn. do 2 f_equal. lia.
  - intros k Hk. rewrite length_fmap, length_seqZ. lia.
  - intros row col s Hr Hc. destruct (check_ok row col s Hr Hc) as (Ec & Et & Hi). rewrite (bind_ok _ _ _ _ _ Ec), Et.
    by erewrite ptr_read_ok by (intros i Hi2; apply Hsrc; nia).
Qed.

(** packed 4-bit pixels: pixel [i] of a byte array, and two pixels in a byte *)
Definition nibble (f : Z -> Z) (i : Z) : Z := if i mod 2 =? 0 then Z.land (f (i / 2)) 0xf else Z.shiftr (f (i / 2)) 4.
Definition pack (lo hi : Z) : Z := Z.lor lo (Z.shiftl hi 4).

Lemma nibble_range f i : (forall j, in_range 8 (f j)) -> in_range 4 (nibble f i).
Proof.
  intros Hf. unfold nibble. destruct (_ =? 0); [apply land_range_r; [lia|unfold in_range; lia]|].
  specialize (Hf (i / 2)). unfold in_range in *. rewrite Z.shiftr_div_pow2 by lia. apply digit_bound; lia.
Qed.
Lemma low_nibble d lo : in_range 4 lo -> Z.land (u8 (Z.lor (u8 (Z.land d (Z.lnot 0xf))) lo)) 0xf = lo.
Proof.
  intros Hlo. change 0xf with (Z.ones 4). apply Z.bits_inj'. intros i Hi.
  rewrite Z.land_spec, wrap_testbit, Z.lor_spec, wrap_testbit, Z.land_spec, Z.lnot_spec, Z.testbit_ones_nonneg by lia.
  destruct (Z.ltb_spec i 4); cbn [negb].
  - replace (i <? 8) with true by lia. by rewrite andb_false_r, andb_true_r.
  - by rewrite andb_false_r, (in_range_testbit_high 4) by (auto; lia).
Qed.
Lemma high_nibble d lo hi : in_range 8 d -> in_range 4 hi -> Z.land d 0xf = lo ->
  u8 (Z.lor (u8 (Z.land d (Z.lnot 0xf0))) (Z.shiftl hi 4)) = pack lo hi.
Proof.
  intros Hd Hhi <-. unfold pack. apply Z.bits_inj'. intros i Hi. change 0xf0 with (Z.shiftl (Z.ones 4) 4).
  change 0xf with (Z.ones 4).
  rewrite wrap_testbit, !Z.lor_spec, wrap_testbit, !Z.land_spec, Z.lnot_spec, !Z.shiftl_spec by lia.
  destruct (Z.ltb_spec i 4).
  - rewrite !(Z.testbit_neg_r _ (i - 4)), Z.testbit_ones_nonneg by lia. replace (i <? 8) with true by lia.
    replace (i <? 4) with true by lia. by rewrite !orb_false_r.
  - rewrite !Z.testbit_ones_nonneg by lia. replace (i <? 4) with false by lia. rewrite andb_false_r. destruct (Z.ltb_spec i 8); cbn [andb].
    + replace (i - 4 <? 4) with true by lia. cbn. by rewrite andb_false_r.
    + by rewrite (in_range_testbit_high 4 hi) by (auto; lia).
Qed.
Lemma pack_nibbles f j : in_range 8 (f j) -> pack (nibble f (2 * j)) (nibble f (2 * j + 1)) = f j.
Proof.
  intros Hf. unfold nibble. rewrite (Z.mul_comm 2 j). rewrite Z.mod_mul, Z.div_mul by lia. cbn [Z.eqb].
  destruct (digits j 1 2) as [-> ->]; [lia|]. cbn [Z.eqb]. unfold pack. apply Z.bits_inj'. intros i Hi.
  change 0xf with (Z.ones 4). rewrite Z.lor_spec, Z.land_spec, Z.shiftl_spec, Z.testbit_ones_nonneg by lia.
  destruct (Z.ltb_spec i 4).
  - by rewrite (Z.testbit_neg_r _ (i - 4)), andb_true_r, orb_false_r by lia.
  - rewrite Z.shiftr_spec by lia. replace (i - 4 + 4) with i by lia. by rewrite andb_false_r.
Qed.
Lemma nibble_pack (g : Z -> Z) i : (forall j, in_range 4 (g j)) -> nibble (fun j => pack (g (2 * j)) (g (2 * j + 1))) i = g i.
Proof.
  intros Hg. unfold nibble, pack. pose proof (Z.mod_pos_bound i 2). pose proof (Z.div_mod i 2).
  apply Z.bits_inj'. intros n Hn. change 0xf with (Z.ones 4).
  destruct (Z.eqb_spec (i mod 2) 0).
  - rewrite Z.land_spec, Z.lor_spec, Z.shiftl_spec, Z.testbit_ones_nonneg by lia. replace (2 * (i / 2)) with i by lia.
    destruct (Z.ltb_spec n 4).
    + by rewrite (Z.testbit_neg_r _ (n - 4)), orb_false_r, andb_true_r by lia.
    + by rewrite andb_false_r, (in_range_testbit_high 4) by (auto; lia).
  - rewrite Z.shiftr_spec, Z.lor_spec, Z.shiftl_spec by lia. replace (n + 4 - 4) with n by lia.
    rewrite (in_range_testbit_high 4 (g (2 * (i / 2)))) by (auto; lia). cbn. do 2 f_equal. lia.
Qed.

Definition detwiddled_4bpp (f : Z -> Z) : list Z :=
  (fun q => pack (nibble f (pixel_src (2 * q))) (nibble f (pixel_src (2 * q + 1)))) <$> seqZ 0 (w * h / 2).

Lemma detwiddle_4bpp_ok (src : ptr) f dst :
  (forall i, 0 <= i < w * h / 2 -> src i = Some (f i)) -> (forall i, in_range 8 (f i)) ->
  (w * h) mod 2 = 0 -> Z.of_nat (length dst) = w * h / 2 ->
  pvr2_tex_detwiddle_4bpp src w_shift h_shift dst = Ok (tt, detwiddled_4bpp f).
Proof.
  intros Hsrc Hf Heven Hlen. pose proof w_pos. pose proof h_pos. pose proof (Z.div_mod (w * h) 2).
  unfold pvr2_tex_detwiddle_4bpp. cbv zeta. rewrite !Z.shiftl_1_l.
  set (px k := nibble f (pixel_src k)).
  edestruct (for_pixels (filled (w * h / 2) (fun k q v =>
    (2 * q + 1 < k -> v = pack (px (2 * q)) (px (2 * q + 1))) /\
    (2 * q + 1 = k -> in_range 8 v /\ Z.land v 0xf = px (2 * q)))) w h) as (dst' & E & H');
    [done|lia|..|rewrite E; do 2 f_equal; eapply filled_target; [nia|exact H'|]; intros q v Hq [HP _]; apply HP; lia].
  { split; [done|]. intros q Hq. destruct (lookup_lt_is_Some_2 dst (Z.to_nat q)) as [v Hv]; [lia|]. exists v. split; [done|]. lia. }
  intros row col s Hr Hc [Hl Hs]. destruct (check_ok row col s Hr Hc) as (Ec & Et & Hi). rewrite (bind_ok _ _ _ _ _ Ec), Et.
  set (k := row * w + col) in *. assert (Hk : 0 <= k < w * h) by nia.
  rewrite Hsrc by (apply digit_bound; lia). cbn [known]. rewrite (bind_ok _ _ _ _ _ eq_refl).
  fold (nibble f (pixel_src k)). fold (px k). assert (Hpx : in_range 4 (px k)) by by apply nibble_range.
  assert (Hq2 : 0 <= k / 2 < w * h / 2) by (apply digit_bound; lia).
  destruct (Hs (k / 2) Hq2) as (d & Hd & _ & HP). cbn beta.
  rewrite (bind_ok _ _ s d s) by by rewrite Hd. pose proof (Z.div_mod k 2). pose proof (Z.mod_pos_bound k 2).
  edestruct (buf_write_ok (k / 2)) as (s' & -> & Hl' & Hs'); [| |exists s'; split; [done|]].
  { lia. } { cbn. lia. }
  split; [lia|]. intros q Hq. rewrite Hs' by lia. cbn [length].
  destruct (Z.leb_spec (k / 2) q), (Z.ltb_spec q (k / 2 + Z.of_nat 1)); cbn [andb]; try lia.
  - assert (q = k / 2) as -> by lia. rewrite Z.sub_diag. eexists. split; [done|].
    destruct (Z.eqb_spec (k mod 2) 0).
    + split; [lia|]. intros _. replace (2 * (k / 2)) with k by lia. split; [by apply wrap_range|by apply low_nibble].
    + split; [|lia]. intros _. destruct HP as [Hd8 Hlo]; [lia|]. replace (2 * (k / 2) + 1) with k by lia.
      by apply high_nibble.
  - destruct (Hs q Hq) as (v & Hv & HP1 & HP2). exists v. split; [done|]. split; intros; lia.
  - destruct (Hs q Hq) as (v & Hv & HP1 & HP2). exists v. split; [done|]. split; [|lia]. intros _. apply HP1. lia.
Qed.
End decode.

(** ** Vector quantization *)
Section vq.
Context (side_shift : Z) (Hs : 1 <= side_shift <= 16).
Abbreviation side := (2 ^ side_shift).
Abbreviation src_side := (2 ^ (side_shift - 1)).

Lemma side_twice : side = 2 * src_side.
Proof. rewrite <- Z.pow_succ_r by lia. f_equal. lia. Qed.
Lemma src_side_pos : 0 < src_side.
Proof. apply pow2_pos. lia. Qed.

(** the byte of the picture at an offset: the code of its block of two by two pixels, and in the entry the
    pixels in twiddled order *)
Definition vq_byte (code img : Z -> Z) (q : Z) : Z :=
  let x := q / 2 mod side in
  let y := q / 2 / side in
  code (PVR2_CODE_BOOK_ENTRY_SIZE * img (layout (side_shift - 1) (side_shift - 1) (x / 2) (y / 2)) +
        2 * (2 * (x mod 2) + y mod 2) + q mod 2).
Definition vq_picture (code img : Z -> Z) : list Z := vq_byte code img <$> seqZ 0 (2 * (side * side)).
Definition vq_block (q : Z) : Z := q / 2 / side / 2 * src_side + q / 2 mod side / 2.

Lemma vq_pixel q : 0 <= q < 2 * (side * side) ->
  exists x y, q / 2 mod side = x /\ q / 2 / side = y /\ 0 <= x < side /\ 0 <= y < side /\ q = 2 * (y * side + x) + q mod 2.
Proof.
  intros Hq. pose proof src_side_pos. pose proof side_twice. eexists _, _. split; [done|]. split; [done|].
  pose proof (Z.mod_pos_bound (q / 2) side). pose proof (digit_bound q 2 (side * side)).
  pose proof (digit_bound (q / 2) side side). pose proof (Z.div_mod q 2). pose proof (Z.div_mod (q / 2) side). lia.
Qed.

Lemma vq_block_range q : 0 <= q < 2 * (side * side) -> 0 <= vq_block q < src_side * src_side.
Proof.
  intros Hq. pose proof src_side_pos. pose proof side_twice. unfold vq_block.
  destruct (vq_pixel q Hq) as (x & y & -> & -> & Hx & Hy & _).
  pose proof (digit_bound x 2 src_side). pose proof (digit_bound y 2 src_side). nia.
Qed.

Lemma color_at_ok (code : Z -> Z) off i j : (i < 4)%nat -> 0 <= j < 2 ->
  color_at ((fun k => code (off + k)) <$> seqZ 0 8) i !! Z.to_nat j = Some (code (off + 2 * Z.of_nat i + j)).
Proof.
  intros Hi Hj. unfold color_at. rewrite lookup_take_lt by lia. rewrite lookup_drop, list_lookup_fmap, lookup_seqZ_lt by lia.
  cbn. do 2 f_equal. lia.
Qed.
Lemma color_at_length (g : Z -> Z) i : (i < 4)%nat -> length (color_at (g <$> seqZ 0 8) i) = 2%nat.
Proof. intros. unfold color_at. rewrite length_take, length_drop, length_fmap, length_seqZ. lia. Qed.

(** the bytes of one pixel of a block *)
Lemma vq_hit code img row col dx dy q :
  0 <= row < src_side -> 0 <= col < src_side -> 0 <= dx <= 1 -> 0 <= dy <= 1 ->
  let off := 2 * ((2 * row + dy) * side + (2 * col + dx)) in off <= q < off + 2 ->
  vq_byte code img q = code (PVR2_CODE_BOOK_ENTRY_SIZE * img (layout (side_shift - 1) (side_shift - 1) col row) +
                             2 * (2 * dx + dy) + (q - off)).
Proof.
  intros Hr Hc Hdx Hdy off Hq. pose proof side_twice as Hside. unfold vq_byte.
  destruct (digits ((2 * row + dy) * side + (2 * col + dx)) (q - off) 2) as [D1 D2]; [lia|].
  replace (((2 * row + dy) * side + (2 * col + dx)) * 2 + (q - off)) with q in D1, D2 by (unfold off; lia). rewrite D1, D2.
  destruct (digits (2 * row + dy) (2 * col + dx) side) as [-> ->]; [lia|].
  rewrite (Z.mul_comm 2 col), (Z.mul_comm 2 row).
  destruct (digits col dx 2) as [-> ->]; [lia|]. destruct (digits row dy 2) as [-> ->]; [lia|]. done.
Qed.

(** the bytes of the other blocks *)
Lemma vq_miss row col q :
  0 <= row < src_side -> 0 <= col < src_side -> 0 <= q < 2 * (side * side) -> vq_block q = row * src_side + col ->
  exists dx dy, (dx = 0 \/ dx = 1) /\ (dy = 0 \/ dy = 1) /\
    2 * ((2 * row + dy) * side + (2 * col + dx)) <= q < 2 * ((2 * row + dy) * side + (2 * col + dx)) + 2.
Proof.
  intros Hr Hc Hq Hb. pose proof side_twice. pose proof src_side_pos. unfold vq_block in Hb.
  destruct (vq_pixel q Hq) as (x & y & Ex & Ey & Hx & Hy & E). rewrite Ex, Ey in Hb.
  pose proof (digit_bound x 2 src_side ltac:(lia) ltac:(lia)) as Hx2.
  destruct (digits row col src_side Hc) as [D1 D2]. rewrite <- Hb in D1, D2.
  destruct (digits (y / 2) (x / 2) src_side Hx2) as [D3 D4]. rewrite D3 in D1. rewrite D4 in D2.
  pose proof (Z.div_mod x 2). pose proof (Z.div_mod y 2). pose proof (Z.mod_pos_bound x 2). pose proof (Z.mod_pos_bound y 2).
  pose proof (Z.mod_pos_bound q 2). exists (x mod 2), (y mod 2). split; [lia|]. split; [lia|].
  replace (2 * row + y mod 2) with y by lia. replace (2 * col + x mod 2) with x by lia. lia.
Qed.

Lemma vq_decompress_ok (code_book img_dat : ptr) code img dst :
  (forall i, 0 <= i < src_side * src_side -> img_dat i = Some (img i) /\ in_range 8 (img i)) ->
  (forall i, 0 <= i < PVR2_CODE_BOOK_LEN -> code_book i = Some (code i)) ->
  Z.of_nat (length dst) = 2 * (side * side) ->
  pvr2_tex_vq_decompress code_book img_dat side_shift dst = Ok (tt, vq_picture code img).
Proof.
  intros Himg Hcode Hlen. pose proof src_side_pos as Hsp. pose proof side_twice as Hst.
  unfold pvr2_tex_vq_decompress. cbv zeta. rewrite !Z.shiftl_1_l. unfold vq_picture.
  edestruct (for_pixels (filled (2 * (side * side)) (fun k q v => vq_block q < k -> v = vq_byte code img q)) src_side src_side)
    as (dst' & E & H'); [lia|lia|..|rewrite E; do 2 f_equal; eapply filled_target; [nia|exact H'|]; intros q v Hq HP; apply HP, vq_block_range, Hq].
  { split; [done|]. intros q Hq. destruct (lookup_lt_is_Some_2 dst (Z.to_nat q)) as [v Hv]; [lia|]. exists v. split; [done|].
    pose proof (vq_block_range q Hq). lia. }
  intros row col s Hr Hc [Hl Hsv].
  rewrite (tex_twiddle_eq (side_shift - 1) (side_shift - 1) ltac:(lia) ltac:(lia) _ eq_refl) by done.
  set (idx := layout _ _ col row). destruct (Himg idx) as [-> Hi8].
  { apply (layout_range (side_shift - 1) (side_shift - 1) ltac:(lia) ltac:(lia) _ eq_refl). done. }
  cbn [known]. rewrite (bind_ok _ _ _ _ _ eq_refl). unfold in_range in Hi8.
  erewrite ptr_read_ok by (intros i Hi2; apply Hcode; unfold PVR2_CODE_BOOK_LEN, PVR2_CODE_BOOK_ENTRY_COUNT, PVR2_CODE_BOOK_ENTRY_SIZE in *; lia).
  cbn [known]. rewrite (bind_ok _ _ _ _ _ eq_refl). change PVR2_CODE_BOOK_ENTRY_SIZE with 8.
  set (cc := (fun k => code (8 * img idx + k)) <$> seqZ 0 8).
  assert (Hcl : forall i, (i < 4)%nat -> Z.of_nat (length (color_at cc i)) = 2).
  { intros i Hi. unfold cc. by rewrite color_at_length. }
  destruct (buf_write_ok (2 * (row * 2 * side + col * 2)) (color_at cc 0) s) as (s1 & E1 & L1 & V1); [nia|rewrite Hcl by lia; nia|].
  destruct (buf_write_ok (2 * ((row * 2 + 1) * side + col * 2)) (color_at cc 1) s1) as (s2 & E2 & L2 & V2); [nia|rewrite Hcl by lia; nia|].
  destruct (buf_write_ok (2 * (row * 2 * side + col * 2 + 1)) (color_at cc 2) s2) as (s3 & E3 & L3 & V3); [nia|rewrite Hcl by lia; nia|].
  destruct (buf_write_ok (2 * ((row * 2 + 1) * side + col * 2 + 1)) (color_at cc 3) s3) as (s4 & E4 & L4 & V4); [nia|rewrite Hcl by lia; nia|].
  rewrite (bind_ok _ _ _ _ _ E1), (bind_ok _ _ _ _ _ E2), (bind_ok _ _ _ _ _ E3), E4. exists s4. split; [done|].
  split; [lia|]. intros q Hq. rewrite V4, V3, V2, V1 by lia. rewrite !Hcl by lia.
  assert (Hit : forall dx dy i off, dx = 0 \/ dx = 1 -> dy = 0 \/ dy = 1 -> Z.of_nat i = 2 * dx + dy ->
    off = 2 * ((2 * row + dy) * side + (2 * col + dx)) -> (off <=? q) && (q <? off + 2) = true ->
    exists b, color_at cc i !! Z.to_nat (q - off) = Some b /\ (vq_block q < row * src_side + col + 1 -> b = vq_byte code img q)).
  { intros dx dy i off Hdx Hdy Hi -> Hin. eexists. unfold cc. rewrite color_at_ok by lia. split; [done|]. intros _.
    rewrite (vq_hit code img row col dx dy q) by lia. change PVR2_CODE_BOOK_ENTRY_SIZE with 8. fold idx. f_equal. lia. }
  match goal with |- context[if ?b then _ else _] => destruct b eqn:B3 end; [apply (Hit 1 1 3%nat); auto; lia|].
  match goal with |- context[if ?b then _ else _] => destruct b eqn:B2 end; [apply (Hit 1 0 2%nat); auto; lia|].
  match goal with |- context[if ?b then _ else _] => destruct b eqn:B1 end; [apply (Hit 0 1 1%nat); auto; lia|].
  match goal with |- context[if ?b then _ else _] => destruct b eqn:B0 end; [apply (Hit 0 0 0%nat); auto; lia|]. clear Hit.
  destruct (Hsv q Hq) as (v & Hv & HP). exists v. split; [done|]. intros Hlt. apply HP.
  destruct (Z.eq_dec (vq_block q) (row * src_side + col)) as [Eb|]; [|lia]. exfalso.
  destruct (vq_miss row col q Hr Hc Hq Eb) as (dx & dy & [->| ->] & [->| ->] & Hin); lia.
Qed.
End vq.

(** ** Properties *)

(** C9: the index that [tex_twiddle] assembles bit by bit is the place of the pixel in the order that its comment
    describes: quarters of quarters, in the order upper left, lower left, upper right, lower right, and squares
    side by side for a rectangle.  Every place of the texture belongs to exactly one pixel. *)
Theorem tex_twiddle_layout w_shift h_shift :
  0 <= w_shift <= 15 -> 0 <= h_shift <= 15 ->
  (forall x y, 0 <= x < 2 ^ w_shift -> 0 <= y < 2 ^ h_shift ->
     tex_twiddle x y w_shift h_shift = layout w_shift h_shift x y) /\
  (forall i, 0 <= i < 2 ^ w_shift * 2 ^ h_shift ->
     exists x y, 0 <= x < 2 ^ w_shift /\ 0 <= y < 2 ^ h_shift /\ tex_twiddle x y w_shift h_shift = i /\
       forall x' y', 0 <= x' < 2 ^ w_shift -> 0 <= y' < 2 ^ h_shift -> tex_twiddle x' y' w_shift h_shift = i ->
         x' = x /\ y' = y).
Proof.
  intros Hw Hh. assert (E : forall x y, 0 <= x < 2 ^ w_shift -> 0 <= y < 2 ^ h_shift ->
    tex_twiddle x y w_shift h_shift = layout w_shift h_shift x y).
  { intros x y Hx Hy. exact (tex_twiddle_eq w_shift h_shift Hw Hh _ eq_refl x y (conj Hx Hy)). }
  split; [done|]. intros i Hi. destruct (layout_right w_shift h_shift Hw Hh _ eq_refl i Hi) as [[Hx Hy] Ei].
  eexists _, _. split; [exact Hx|]. split; [exact Hy|]. split; [by rewrite E|]. intros x' y' Hx' Hy' E'.
  rewrite E in E' by done. pose proof (layout_left w_shift h_shift Hw Hh _ eq_refl x' y' (conj Hx' Hy')) as El.
  rewrite E' in El. by rewrite El.
Qed.

(** a picture in rows, stored in twiddled order *)
Definition list_ptr (l : list Z) : ptr := fun i => if 0 <=? i then l !! Z.to_nat i else None.
Definition twiddle_image (w_shift h_shift b : Z) (img : list Z) : list Z :=
  (fun i => img !!! Z.to_nat (pixel_dst w_shift h_shift (i / b) * b + i mod b)) <$>
  seqZ 0 (2 ^ w_shift * 2 ^ h_shift * b).
Definition image_nibble (img : list Z) (k : Z) : Z := nibble (fun j => img !!! Z.to_nat j) k.
Definition twiddle_image_4bpp (w_shift h_shift : Z) (img : list Z) : list Z :=
  (fun j => pack (image_nibble img (pixel_dst w_shift h_shift (2 * j)))
                 (image_nibble img (pixel_dst w_shift h_shift (2 * j + 1)))) <$>
  seqZ 0 (2 ^ w_shift * 2 ^ h_shift / 2).

Lemma list_ptr_fmap (f : Z -> Z) n i : 0 <= i < n -> list_ptr (f <$> seqZ 0 n) i = Some (f i).
Proof.
  intros Hi. unfold list_ptr. replace (0 <=? i) with true by lia.
  rewrite list_lookup_fmap, lookup_seqZ_lt by lia. cbn. do 2 f_equal. lia.
Qed.
Lemma image_fmap (img : list Z) (f : Z -> Z) n : Z.of_nat (length img) = n ->
  (forall q, 0 <= q < n -> f q = img !!! Z.to_nat q) -> f <$> seqZ 0 n = img.
Proof.
  intros Hl Hf. apply list_eq_same_length with (length img); [done|by rewrite length_fmap, length_seqZ; lia|].
  intros i x y Hi Hx Hy. rewrite list_lookup_fmap, lookup_seqZ_lt in Hx by lia. cbn in Hx. injection Hx as <-.
  apply list_lookup_total_correct in Hy as <-. rewrite Hf by lia. f_equal. lia.
Qed.

Lemma image_byte_range img j : Forall (in_range 8) img -> in_range 8 (img !!! Z.to_nat j).
Proof.
  intros Hi. destruct (img !! Z.to_nat j) as [v|] eqn:E.
  - rewrite (list_lookup_total_correct _ _ _ E). by eapply Forall_lookup_1.
  - rewrite list_lookup_total_alt, E. done.
Qed.

Section roundtrip.
Context {CFG : BuildConfig} (w_shift h_shift : Z) (Hw : 0 <= w_shift <= 15) (Hh : 0 <= h_shift <= 15).

Lemma detwiddle_twiddle b img dst : 0 < b -> Z.of_nat (length img) = 2 ^ w_shift * 2 ^ h_shift * b -> length dst = length img ->
  pvr2_tex_detwiddle (list_ptr (twiddle_image w_shift h_shift b img)) w_shift h_shift b dst = Ok (tt, img).
Proof.
  intros Hb Hl Hd. erewrite detwiddle_ok; [|done..|intros i Hi; by apply list_ptr_fmap|lia].
  do 2 f_equal. apply image_fmap; [done|]. intros q Hq. pose proof (Z.mod_pos_bound q b Hb).
  pose proof (digit_bound q b (2 ^ w_shift * 2 ^ h_shift) Hb Hq) as Hk.
  destruct (digits (pixel_src w_shift h_shift (q / b)) (q mod b) b) as [-> ->]; [lia|].
  rewrite pixel_dst_src by done. do 2 f_equal. rewrite Z.mul_comm. symmetry. apply Z.div_mod. lia.
Qed.

Lemma detwiddle_twiddle_4bpp img dst : (2 ^ w_shift * 2 ^ h_shift) mod 2 = 0 -> Forall (in_range 8) img ->
  Z.of_nat (length img) = 2 ^ w_shift * 2 ^ h_shift / 2 -> length dst = length img ->
  pvr2_tex_detwiddle_4bpp (list_ptr (twiddle_image_4bpp w_shift h_shift img)) w_shift h_shift dst = Ok (tt, img).
Proof.
  intros Hev Hi Hl Hd. pose proof (Z.div_mod (2 ^ w_shift * 2 ^ h_shift) 2).
  set (g i := image_nibble img (pixel_dst w_shift h_shift i)).
  assert (Hg : forall i, in_range 4 (g i)) by (intros i; apply nibble_range; intros; by apply image_byte_range).
  erewrite (detwiddle_4bpp_ok w_shift h_shift Hw Hh _ (fun j => pack (g (2 * j)) (g (2 * j + 1)))); [| | |done|lia].
  2: { intros i Hi2. exact (list_ptr_fmap (fun j => pack (g (2 * j)) (g (2 * j + 1))) _ i Hi2). }
  2: { intros i. unfold pack. apply lor_range; [lia|apply (in_range_weaken 4); [lia|done]|].
       specialize (Hg (2 * i + 1)). unfold in_range in *. rewrite Z.shiftl_mul_pow2 by lia. lia. }
  do 2 f_equal. apply image_fmap; [done|]. intros q Hq. rewrite !nibble_pack by done. unfold g.
  rewrite !pixel_dst_src by (done || lia). apply pack_nibbles. by apply image_byte_range.
Qed.
End roundtrip.

(** Decoding a texture gives the picture that was encoded: whatever the buffer held before,
    [pvr2_tex_detwiddle] applied to the twiddled form of a picture with pixels of whole bytes, and
    [pvr2_tex_detwiddle_4bpp] applied to that of a picture with two pixels in a byte, leave the picture in the
    buffer; the checks of an INVARIANTS build never fire. *)
Theorem detwiddle_roundtrip (CFG : BuildConfig) w_shift h_shift b img img4 dst dst4 :
  0 <= w_shift <= 15 -> 1 <= h_shift <= 15 -> 0 < b -> Forall (in_range 8) img4 ->
  Z.of_nat (length img) = 2 ^ w_shift * 2 ^ h_shift * b -> length dst = length img ->
  2 * Z.of_nat (length img4) = 2 ^ w_shift * 2 ^ h_shift -> length dst4 = length img4 ->
  pvr2_tex_detwiddle (list_ptr (twiddle_image w_shift h_shift b img)) w_shift h_shift b dst = Ok (tt, img) /\
  pvr2_tex_detwiddle_4bpp (list_ptr (twiddle_image_4bpp w_shift h_shift img4)) w_shift h_shift dst4 = Ok (tt, img4).
Proof.
  intros Hw Hh Hb Hi Hl Hd Hl4 Hd4. split; [apply detwiddle_twiddle; done || lia|].
  apply detwiddle_twiddle_4bpp; [done|lia| |done| |done].
  - rewrite <- Hl4, Z.mul_comm. apply Z.mod_mul. lia.
  - rewrite <- Hl4, Z.mul_comm. rewrite Z.div_mul by lia. done.
Qed.

Lemma tex_twiddle_layout_witness : tex_twiddle 5 2 3 3 = layout 3 3 5 2 /\ tex_twiddle 1 9 3 4 = layout 3 4 1 9.
Proof. split; apply tex_twiddle_layout; lia. Defined.

Lemma detwiddle_roundtrip_witness :
  let CFG := {| INVARIANTS := true; ENABLE_SH4_MMU := false; ENABLE_DEBUGGER := false; DBG_EXIT_ON_UNDEFINED_OPCODE := false |} in
  pvr2_tex_detwiddle (list_ptr (twiddle_image 2 1 2 (seqZ 0 16))) 2 1 2 (replicate 16 0) = Ok (tt, seqZ 0 16) /\
  pvr2_tex_detwiddle_4bpp (list_ptr (twiddle_image_4bpp 2 1 [0x12; 0x34; 0x56; 0x78])) 2 1 [9; 9; 9; 9] =
    Ok (tt, [0x12; 0x34; 0x56; 0x78]).
Proof.
  intros CFG. apply (detwiddle_roundtrip CFG 2 1 2 (seqZ 0 16) [0x12; 0x34; 0x56; 0x78] (replicate 16 0) [9; 9; 9; 9]);
    try lia; try reflexivity.
  repeat constructor; unfold in_range; lia.
Defined.
