(* ===== verification/GfxObj.v ===== *)
(** The renderer's data stores: the objects (src/libwashdc/gfx/gfx_obj.c, gfx_obj.h), their allocation
    (hw/pvr2/pvr2_gfx_obj.c), the textures that are bound to them (gfx/gfx_tex_cache.c), the commands
    that the emulated graphics chip sends (gfx/rend_common.c), and the upload to the host
    ([opengl_renderer_update_tex] of gfx/opengl/opengl_renderer.c).

    What the host makes of a picture is a parameter ([tex_image]: the conversion of the pixels and
    [glTexImage2D]), and so are the contents of freshly allocated memory ([fresh]).  The commands for
    render targets and for drawing are not part of the model; no texture's object is a render target. *)
From stdpp Require Import gmap list.
From S2P Require Import Prelude Sh4State.

Inductive gfx_tex_fmt : Type :=
| GFX_TEX_FMT_ARGB_1555 | GFX_TEX_FMT_RGB_565 | GFX_TEX_FMT_ARGB_4444 | GFX_TEX_FMT_ARGB_8888 | GFX_TEX_FMT_YUV_422.
#[export] Instance gfx_tex_fmt_eq_dec : EqDecision gfx_tex_fmt.
Proof. solve_decision. Defined.

Definition GFX_OBJ_COUNT : Z := 768.
Definition GFX_TEX_CACHE_SIZE : Z := 512.
Definition GFX_OBJ_STATE_INVALID : Z := 0.
Definition GFX_OBJ_STATE_DAT : Z := 1.
Definition GFX_OBJ_STATE_TEX : Z := 2.

(** the only function that [on_write] ever points to *)
Inductive obj_writer : Type := update_tex_from_obj_fn.

(** [struct gfx_obj] without [on_read], which only render targets have; [arg] points to an element of the
    texture table *)
Record gfx_obj : Type := {
  obj_dat : option (list Z);
  obj_arg : option Z;
  on_write : option obj_writer;
  dat_len : Z;
  obj_state : Z
}.
(** [struct gfx_tex] *)
Record gfx_tex : Type := { obj_handle : Z; gt_fmt : gfx_tex_fmt; gt_width : Z; gt_height : Z; gt_valid : bool }.

Class Host (Img : Type) : Type := {
  tex_image : gfx_tex_fmt -> Z -> Z -> list Z -> Img;
  fresh : nat -> list Z
}.
Class HostLaws (Img : Type) `{!Host Img} : Prop := { length_fresh : forall n, length (fresh n) = n }.

(** the static variables of the four files, and the host's textures by the number of the object
    ([obj_tex_array]) *)
Record gfx {Img : Type} : Type := {
  states : list bool;
  obj_array : list gfx_obj;
  gfx_texs : list gfx_tex;
  gl_texs : gmap Z Img
}.
Arguments gfx Img : clear implicits.

Section gfx.
Context {Img : Type} {CFG : BuildConfig} {HOST : Host Img}.
Abbreviation gfxM := (M (gfx Img)).

Definition set_states (l : list bool) (g : gfx Img) : gfx Img :=
  {| states := l; obj_array := obj_array g; gfx_texs := gfx_texs g; gl_texs := gl_texs g |}.
Definition set_objs (l : list gfx_obj) (g : gfx Img) : gfx Img :=
  {| states := states g; obj_array := l; gfx_texs := gfx_texs g; gl_texs := gl_texs g |}.
Definition set_texs (l : list gfx_tex) (g : gfx Img) : gfx Img :=
  {| states := states g; obj_array := obj_array g; gfx_texs := l; gl_texs := gl_texs g |}.
Definition set_gl (m : gmap Z Img) (g : gfx Img) : gfx Img :=
  {| states := states g; obj_array := obj_array g; gfx_texs := gfx_texs g; gl_texs := m |}.

(** an element of an array: undefined outside it *)
Definition at_idx {A} (l : list A) (i : Z) : option A := if 0 <=? i then l !! Z.to_nat i else None.
Definition get_obj (handle : Z) : gfxM gfx_obj :=
  fun g => match at_idx (obj_array g) handle with Some o => Ok (o, g) | None => Err C_UNDEFINED end.
Definition put_obj (handle : Z) (o : gfx_obj) : gfxM unit := modify (fun g => set_objs (<[Z.to_nat handle := o]> (obj_array g)) g).
Definition get_tex (tex_no : Z) : gfxM gfx_tex :=
  fun g => match at_idx (gfx_texs g) tex_no with Some t => Ok (t, g) | None => Err C_UNDEFINED end.
Definition put_tex (tex_no : Z) (t : gfx_tex) : gfxM unit := modify (fun g => set_texs (<[Z.to_nat tex_no := t]> (gfx_texs g)) g).

(** ** Allocation of the objects (pvr2_gfx_obj.c) *)
Fixpoint first_free (l : list bool) (idx : Z) : option Z :=
  match l with
  | [] => None
  | true :: l' => first_free l' (idx + 1)
  | false :: _ => Some idx
  end.
Definition pvr2_alloc_gfx_obj : gfxM Z :=
  fun g => match first_free (states g) 0 with
           | Some idx => Ok (idx, set_states (<[Z.to_nat idx := true]> (states g)) g)
           | None => Err ERROR_OVERFLOW
           end.
Definition pvr2_free_gfx_obj (obj : Z) : gfxM unit :=
  fun g => match at_idx (states g) obj with
           | Some _ => Ok (tt, set_states (<[Z.to_nat obj := false]> (states g)) g)
           | None => Err C_UNDEFINED
           end.

(** ** Objects (gfx_obj.c) *)
Definition gfx_obj_init (handle n_bytes : Z) : gfxM unit :=
  obj <- get_obj handle ;;
  when (truth (dat_len obj)) (raise ERROR_INTEGRITY) ;;
  put_obj handle {| obj_dat := None; obj_arg := obj_arg obj; on_write := on_write obj; dat_len := n_bytes;
                    obj_state := GFX_OBJ_STATE_DAT |}.
Definition gfx_obj_free (handle : Z) : gfxM unit :=
  obj <- get_obj handle ;;
  put_obj handle {| obj_dat := None; obj_arg := obj_arg obj; on_write := None; dat_len := 0; obj_state := obj_state obj |}.
Definition gfx_obj_alloc (obj : gfx_obj) : gfx_obj :=
  match obj_dat obj with
  | Some _ => obj
  | None => {| obj_dat := Some (fresh (Z.to_nat (dat_len obj))); obj_arg := obj_arg obj; on_write := on_write obj;
               dat_len := dat_len obj; obj_state := obj_state obj |}
  end.
(** [memcpy(obj->dat, in, n_bytes); obj->state = GFX_OBJ_STATE_DAT], where [n_bytes] is the object's size *)
Definition obj_with_dat (dat : list Z) (obj : gfx_obj) : gfx_obj :=
  {| obj_dat := Some dat; obj_arg := obj_arg obj; on_write := on_write obj; dat_len := dat_len obj;
     obj_state := GFX_OBJ_STATE_DAT |}.

(** ** The upload *)
(** bytes of a pixel that [glTexImage2D] or the conversion before it reads *)
Definition fmt_pixel_size (fmt : gfx_tex_fmt) : Z := match fmt with GFX_TEX_FMT_ARGB_8888 => 4 | _ => 2 end.

Definition opengl_renderer_update_tex (tex_obj : Z) : gfxM unit :=
  tex <- get_tex tex_obj ;;
  obj <- get_obj (obj_handle tex) ;;
  if truth (Z.land (obj_state obj) GFX_OBJ_STATE_TEX) then ret tt
  else
    let obj := gfx_obj_alloc obj in
    put_obj (obj_handle tex) obj ;;
    let n_bytes := gt_width tex * gt_height tex * fmt_pixel_size (gt_fmt tex) in
    let checked := bool_decide (gt_fmt tex = GFX_TEX_FMT_ARGB_4444 \/ gt_fmt tex = GFX_TEX_FMT_ARGB_1555) in
    when (INVARIANTS && checked && (n_bytes >? dat_len obj)) (raise ERROR_OVERFLOW) ;;
    when (n_bytes >? dat_len obj) (raise C_UNDEFINED) ;;
    modify (fun g => set_gl (<[obj_handle tex := tex_image (gt_fmt tex) (gt_width tex) (gt_height tex)
                                                 (default [] (obj_dat obj))]> (gl_texs g)) g) ;;
    put_obj (obj_handle tex) {| obj_dat := obj_dat obj; obj_arg := obj_arg obj; on_write := on_write obj;
      dat_len := dat_len obj; obj_state := Z.lor (obj_state obj) GFX_OBJ_STATE_TEX |}.
Definition rend_update_tex (tex_no : Z) : gfxM unit := opengl_renderer_update_tex tex_no.

(** ** Textures (gfx_tex_cache.c) *)
Definition update_tex_from_obj (handle : Z) (dat : list Z) : gfxM unit :=
  obj <- get_obj handle ;;
  put_obj handle (obj_with_dat dat (gfx_obj_alloc obj)) ;;
  match obj_arg obj with
  | Some tex_no => rend_update_tex tex_no
  | None => raise C_UNDEFINED
  end.

Definition gfx_obj_write (handle : Z) (dat : list Z) (n_bytes : Z) : gfxM unit :=
  obj <- get_obj handle ;;
  when (negb (n_bytes =? dat_len obj)) (raise ERROR_OVERFLOW) ;;
  match on_write obj with
  | Some update_tex_from_obj_fn => update_tex_from_obj handle dat
  | None => put_obj handle (obj_with_dat dat (gfx_obj_alloc obj))
  end.

Definition gfx_tex_cache_bind (tex_no obj_no width height : Z) (tex_fmt : gfx_tex_fmt) : gfxM unit :=
  obj <- get_obj obj_no ;;
  _ <- get_tex tex_no ;;
  put_tex tex_no {| obj_handle := obj_no; gt_fmt := tex_fmt; gt_width := width; gt_height := height; gt_valid := true |} ;;
  put_obj obj_no {| obj_dat := obj_dat obj; obj_arg := Some tex_no; on_write := Some update_tex_from_obj_fn;
                    dat_len := dat_len obj; obj_state := obj_state obj |} ;;
  rend_update_tex tex_no.

Definition gfx_tex_cache_evict (idx : Z) : gfxM unit :=
  tex <- get_tex idx ;;
  put_tex idx {| obj_handle := obj_handle tex; gt_fmt := gt_fmt tex; gt_width := gt_width tex; gt_height := gt_height tex;
                 gt_valid := false |} ;;
  obj <- get_obj (obj_handle tex) ;;
  put_obj (obj_handle tex) {| obj_dat := obj_dat obj; obj_arg := None; on_write := None; dat_len := dat_len obj;
                              obj_state := obj_state obj |}.
Definition gfx_tex_cache_unbind (tex_no : Z) : gfxM unit := gfx_tex_cache_evict tex_no.

(** ** Commands (rend_common.c) *)
Inductive gfx_il_inst : Type :=
| GFX_IL_BIND_TEX (tex_no gfx_obj_handle : Z) (pix_fmt : gfx_tex_fmt) (width height : Z)
| GFX_IL_UNBIND_TEX (tex_no : Z)
| GFX_IL_INIT_OBJ (obj_no n_bytes : Z)
| GFX_IL_WRITE_OBJ (dat : list Z) (obj_no n_bytes : Z)
| GFX_IL_FREE_OBJ (obj_no : Z).

Definition rend_exec_il (cmd : gfx_il_inst) : gfxM unit :=
  match cmd with
  | GFX_IL_BIND_TEX tex_no obj_handle pix_fmt width height => gfx_tex_cache_bind tex_no obj_handle width height pix_fmt
  | GFX_IL_UNBIND_TEX tex_no => gfx_tex_cache_unbind tex_no
  | GFX_IL_INIT_OBJ obj_no n_bytes => gfx_obj_init obj_no n_bytes
  | GFX_IL_WRITE_OBJ dat obj_no n_bytes => gfx_obj_write obj_no dat n_bytes
  | GFX_IL_FREE_OBJ obj_no => gfx_obj_free obj_no
  end.
End gfx.

(** ** What a client sees *)
Section client.
Context {Img : Type} {CFG : BuildConfig} {HOST : Host Img} {HL : HostLaws Img}.
Implicit Types g : gfx Img.

Lemma at_idx_Some {A} (l : list A) i a : at_idx l i = Some a <-> 0 <= i /\ l !! Z.to_nat i = Some a.
Proof. unfold at_idx. destruct (Z.leb_spec 0 i); [naive_solver|]. split; [done|lia]. Qed.
Lemma at_idx_insert {A} (l : list A) i j a :
  0 <= i -> at_idx (<[Z.to_nat i := a]> l) j = if bool_decide (i = j) then (fun _ => a) <$> at_idx l j else at_idx l j.
Proof.
  intros Hi. unfold at_idx. destruct (Z.leb_spec 0 j); [|by case_bool_decide]. case_bool_decide as E.
  - subst j. destruct (l !! Z.to_nat i) eqn:El; cbn.
    + apply list_lookup_insert_eq. by eapply lookup_lt_Some.
    + by rewrite list_insert_ge by by apply lookup_ge_None.
  - apply list_lookup_insert_ne. lia.
Qed.
Lemma at_idx_same {A} (l : list A) i a b : at_idx l i = Some a -> at_idx (<[Z.to_nat i := b]> l) i = Some b.
Proof. intros H. apply at_idx_Some in H as H'. rewrite at_idx_insert by lia. rewrite bool_decide_true by done. by rewrite H. Qed.
Lemma at_idx_other {A} (l : list A) i j b : 0 <= i -> i <> j -> at_idx (<[Z.to_nat i := b]> l) j = at_idx l j.
Proof. intros Hi Hn. rewrite at_idx_insert by done. by rewrite bool_decide_false. Qed.

Lemma get_obj_ok g k o : at_idx (obj_array g) k = Some o -> get_obj k g = Ok (o, g).
Proof. unfold get_obj. by intros ->. Qed.
Lemma get_tex_ok g i t : at_idx (gfx_texs g) i = Some t -> get_tex i g = Ok (t, g).
Proof. unfold get_tex. by intros ->. Qed.
Lemma put_obj_ok g k o : put_obj k o g = Ok (tt, set_objs (<[Z.to_nat k := o]> (obj_array g)) g).
Proof. done. Qed.
Lemma put_tex_ok g i t : put_tex i t g = Ok (tt, set_texs (<[Z.to_nat i := t]> (gfx_texs g)) g).
Proof. done. Qed.

(** the first object that is not in use *)
Lemma first_free_Some l n k : first_free l n = Some k -> n <= k /\ l !! Z.to_nat (k - n) = Some false.
Proof.
  revert n. induction l as [|[] l IH]; intros n H; cbn in H; [done|..].
  - apply IH in H as [H1 H2]. split; [lia|]. replace (Z.to_nat (k - n)) with (S (Z.to_nat (k - (n + 1)))) by lia. done.
  - injection H as <-. by rewrite Z.sub_diag.
Qed.
Lemma first_free_is_Some l n i : l !! i = Some false -> is_Some (first_free l n).
Proof.
  revert n i. induction l as [|[] l IH]; intros n i H; cbn; [done| |by eexists].
  destruct i; [done|]. by eapply IH.
Qed.

(** the texture [i], with its object [k], shows a picture *)
Definition live_obj (i : Z) (dat : list Z) : gfx_obj :=
  {| obj_dat := Some dat; obj_arg := Some i; on_write := Some update_tex_from_obj_fn; dat_len := Z.of_nat (length dat);
     obj_state := Z.lor GFX_OBJ_STATE_DAT GFX_OBJ_STATE_TEX |}.
Definition live_tex (k : Z) (fmt : gfx_tex_fmt) (w h : Z) : gfx_tex :=
  {| obj_handle := k; gt_fmt := fmt; gt_width := w; gt_height := h; gt_valid := true |}.
Definition shown (i k : Z) (fmt : gfx_tex_fmt) (w h : Z) (dat : list Z) (g : gfx Img) : gfx Img :=
  {| states := states g; obj_array := <[Z.to_nat k := live_obj i dat]> (obj_array g);
     gfx_texs := <[Z.to_nat i := live_tex k fmt w h]> (gfx_texs g);
     gl_texs := <[k := tex_image fmt w h dat]> (gl_texs g) |}.

(** the upload of an object whose data are not on the host yet *)
Lemma update_tex_ok g i k fmt w h o dat :
  at_idx (gfx_texs g) i = Some (live_tex k fmt w h) -> at_idx (obj_array g) k = Some o -> obj_dat o = Some dat ->
  obj_state o = GFX_OBJ_STATE_DAT -> w * h * fmt_pixel_size fmt <= dat_len o ->
  rend_update_tex i g =
    Ok (tt, set_gl (<[k := tex_image fmt w h dat]> (gl_texs g))
              (set_objs (<[Z.to_nat k := {| obj_dat := Some dat; obj_arg := obj_arg o; on_write := on_write o;
                 dat_len := dat_len o; obj_state := Z.lor GFX_OBJ_STATE_DAT GFX_OBJ_STATE_TEX |}]> (obj_array g)) g)).
Proof.
  intros Ht Ho Hd Hs Hn. unfold rend_update_tex, opengl_renderer_update_tex.
  rewrite (bind_ok _ _ _ _ _ (get_tex_ok _ _ _ Ht)). cbn [obj_handle live_tex].
  rewrite (bind_ok _ _ _ _ _ (get_obj_ok _ _ _ Ho)), Hs.
  change (truth (Z.land GFX_OBJ_STATE_DAT GFX_OBJ_STATE_TEX)) with false. cbn iota.
  unfold gfx_obj_alloc. rewrite Hd. cbn [live_tex gt_fmt gt_width gt_height].
  replace (_ >? _) with false by lia. rewrite andb_false_r. unfold bind, put_obj, modify, when, ret, set_gl, set_objs. cbn.
  by rewrite list_insert_insert_eq, Hd, Hs.
Qed.

Lemma upload_new g i k fmt w h dat n o t :
  at_idx (obj_array g) k = Some o -> dat_len o = 0 -> on_write o = None -> at_idx (gfx_texs g) i = Some t ->
  n = Z.of_nat (length dat) -> n = w * h * fmt_pixel_size fmt ->
  (rend_exec_il (GFX_IL_INIT_OBJ k n) ;; rend_exec_il (GFX_IL_WRITE_OBJ dat k n) ;; rend_exec_il (GFX_IL_BIND_TEX i k fmt w h)) g =
  Ok (tt, shown i k fmt w h dat g).
Proof.
  intros Ho H0 Hw Ht -> Hs. cbn [rend_exec_il].
  set (o1 := {| obj_dat := None; obj_arg := obj_arg o; on_write := None; dat_len := Z.of_nat (length dat); obj_state := GFX_OBJ_STATE_DAT |}).
  set (g1 := set_objs (<[Z.to_nat k := o1]> (obj_array g)) g).
  rewrite (bind_ok _ _ g tt g1).
  2: { unfold gfx_obj_init. rewrite (bind_ok _ _ _ _ _ (get_obj_ok _ _ _ Ho)), H0, Hw. done. }
  assert (Ho1 : at_idx (obj_array g1) k = Some o1) by by eapply at_idx_same.
  set (o2 := obj_with_dat dat o1). set (g2 := set_objs (<[Z.to_nat k := o2]> (obj_array g1)) g1).
  rewrite (bind_ok _ _ g1 tt g2).
  2: { unfold gfx_obj_write. rewrite (bind_ok _ _ _ _ _ (get_obj_ok _ _ _ Ho1)). cbn. by rewrite Z.eqb_refl. }
  assert (Ho2 : at_idx (obj_array g2) k = Some o2) by exact (at_idx_same _ _ _ _ Ho1).
  unfold gfx_tex_cache_bind. rewrite (bind_ok _ _ _ _ _ (get_obj_ok _ _ _ Ho2)), (bind_ok _ _ _ _ _ (get_tex_ok g2 _ _ Ht)).
  rewrite (bind_ok _ _ _ _ _ (put_tex_ok _ _ _)), (bind_ok _ _ _ _ _ (put_obj_ok _ _ _)).
  erewrite (update_tex_ok _ i k fmt w h _ dat);
    [|exact (at_idx_same _ _ _ _ Ht)|exact (at_idx_same _ _ _ _ Ho2)|done|done|cbn; lia].
  unfold shown, set_gl, set_objs, set_texs, live_obj. cbn. by rewrite !list_insert_insert_eq.
Qed.

Lemma upload_again g i k fmt w h dat n o :
  at_idx (obj_array g) k = Some o -> dat_len o = n -> on_write o = Some update_tex_from_obj_fn -> obj_arg o = Some i ->
  at_idx (gfx_texs g) i = Some (live_tex k fmt w h) ->
  n = Z.of_nat (length dat) -> n = w * h * fmt_pixel_size fmt ->
  rend_exec_il (GFX_IL_WRITE_OBJ dat k n) g = Ok (tt, shown i k fmt w h dat g).
Proof.
  intros Ho Hl Hw Ha Ht Hn Hs. cbn [rend_exec_il]. unfold gfx_obj_write, update_tex_from_obj.
  rewrite (bind_ok _ _ _ _ _ (get_obj_ok _ _ _ Ho)), Hl, Z.eqb_refl, Hw. cbn [negb].
  rewrite (bind_ok _ _ g tt g eq_refl), (bind_ok _ _ _ _ _ (get_obj_ok _ _ _ Ho)), (bind_ok _ _ _ _ _ (put_obj_ok _ _ _)), Ha.
  erewrite (update_tex_ok _ i k fmt w h _ dat); [|done|exact (at_idx_same _ _ _ _ Ho)|done|done|].
  - unfold shown, set_gl, set_objs, live_obj. cbn. rewrite list_insert_insert_eq.
    apply at_idx_Some in Ht as [_ Ht]. rewrite (list_insert_id _ _ _ Ht).
    unfold gfx_obj_alloc. destruct (obj_dat o); cbn; by rewrite Hl, Hw, Ha, Hn.
  - unfold obj_with_dat, gfx_obj_alloc. destruct (obj_dat o); cbn; lia.
Qed.

(** an object that is not in use, and what is left of a texture *)
Definition free_obj (o : gfx_obj) : Prop := dat_len o = 0 /\ on_write o = None.

Lemma drop_tex g i k o t :
  at_idx (obj_array g) k = Some o -> at_idx (gfx_texs g) i = Some t -> obj_handle t = k ->
  exists o' t', free_obj o' /\
    (rend_exec_il (GFX_IL_UNBIND_TEX i) ;; rend_exec_il (GFX_IL_FREE_OBJ k)) g =
    Ok (tt, set_texs (<[Z.to_nat i := t']> (gfx_texs g)) (set_objs (<[Z.to_nat k := o']> (obj_array g)) g)).
Proof.
  intros Ho Ht Hk. cbn [rend_exec_il].
  set (t1 := {| obj_handle := k; gt_fmt := gt_fmt t; gt_width := gt_width t; gt_height := gt_height t; gt_valid := false |}).
  set (o1 := {| obj_dat := obj_dat o; obj_arg := None; on_write := None; dat_len := dat_len o; obj_state := obj_state o |}).
  set (g1 := set_texs (<[Z.to_nat i := t1]> (gfx_texs g)) g). set (g2 := set_objs (<[Z.to_nat k := o1]> (obj_array g1)) g1).
  exists {| obj_dat := None; obj_arg := None; on_write := None; dat_len := 0; obj_state := obj_state o |}, t1. split; [done|].
  rewrite (bind_ok _ _ g tt g2).
  2: { unfold gfx_tex_cache_unbind, gfx_tex_cache_evict.
       rewrite (bind_ok _ _ _ _ _ (get_tex_ok _ _ _ Ht)), (bind_ok _ _ _ _ _ (put_tex_ok _ _ _)), Hk.
       by rewrite (bind_ok _ _ _ _ _ (get_obj_ok g1 k o Ho)). }
  unfold gfx_obj_free. rewrite (bind_ok _ _ _ _ _ (get_obj_ok g2 k o1 (at_idx_same _ _ _ _ Ho))), put_obj_ok.
  cbn. by rewrite list_insert_insert_eq.
Qed.

Lemma free_obj_ok g k o : at_idx (obj_array g) k = Some o ->
  exists o', free_obj o' /\ rend_exec_il (GFX_IL_FREE_OBJ k) g = Ok (tt, set_objs (<[Z.to_nat k := o']> (obj_array g)) g).
Proof.
  intros Ho. eexists. split; [|cbn [rend_exec_il]; unfold gfx_obj_free; by rewrite (bind_ok _ _ _ _ _ (get_obj_ok _ _ _ Ho))].
  done.
Qed.
End client.
