(* ===== verification/TexCache.v ===== *)
(** The texture cache of the PowerVR2 (src/libwashdc/hw/pvr2/pvr2_tex_cache.c, pvr2_tex_cache.h), the
    two areas of texture memory (pvr2_tex_mem.c), and the parts of pvr2_reg.c, pvr2_ta.c and
    framebuffer.c that it works with.

    A texture of the program stays on the host until the program writes to its memory: every write
    stamps the 512-byte pages it touches, and when a frame is rendered the textures with a page
    younger than their last upload are decoded and uploaded again.

    Writing a finished picture back to texture memory ([sync_fb_to_tex_mem] of framebuffer.c) is a
    parameter.  The clock is the stamp [clk_now]; the device only reads it. *)
From stdpp Require Import gmap list.
From S2P Require Import Prelude Sh4State MemoryMap Memory Twiddle GfxObj.
Import memory.

Inductive TexCtrlPixFmt : Type :=
| TEX_CTRL_PIX_FMT_ARGB_1555 | TEX_CTRL_PIX_FMT_RGB_565 | TEX_CTRL_PIX_FMT_ARGB_4444 | TEX_CTRL_PIX_FMT_YUV_422
| TEX_CTRL_PIX_FMT_BUMP_MAP | TEX_CTRL_PIX_FMT_4_BPP_PAL | TEX_CTRL_PIX_FMT_8_BPP_PAL | TEX_CTRL_PIX_FMT_INVALID.
#[export] Instance TexCtrlPixFmt_eq_dec : EqDecision TexCtrlPixFmt.
Proof. solve_decision. Defined.

Definition pixel_sizes (fmt : TexCtrlPixFmt) : Z :=
  match fmt with
  | TEX_CTRL_PIX_FMT_ARGB_1555 => 2
  | TEX_CTRL_PIX_FMT_RGB_565 => 2
  | TEX_CTRL_PIX_FMT_ARGB_4444 => 2
  | TEX_CTRL_PIX_FMT_YUV_422 => 2
  | TEX_CTRL_PIX_FMT_BUMP_MAP => 0
  | TEX_CTRL_PIX_FMT_4_BPP_PAL => 0
  | TEX_CTRL_PIX_FMT_8_BPP_PAL => 1
  | TEX_CTRL_PIX_FMT_INVALID => 0
  end.
Definition is_pal (fmt : TexCtrlPixFmt) : bool :=
  bool_decide (fmt = TEX_CTRL_PIX_FMT_4_BPP_PAL) || bool_decide (fmt = TEX_CTRL_PIX_FMT_8_BPP_PAL).

Definition mipmap_byte_offset_palette : list Z :=
  [0x3; 0x4; 0x8; 0x18; 0x58; 0x158; 0x558; 0x1558; 0x5558; 0x15558; 0x55558].
Definition mipmap_byte_offset_vq : list Z :=
  [0x0; 0x1; 0x2; 0x6; 0x16; 0x56; 0x156; 0x556; 0x1556; 0x5556; 0x15556].
Definition mipmap_byte_offset_norm : list Z :=
  [0x6; 0x8; 0x10; 0x30; 0xb0; 0x2b0; 0xab0; 0x2ab0; 0xaab0; 0x2aab0; 0xaaab0].

Definition ADDR_TEX64_FIRST : Z := 0x04000000.
Definition ADDR_TEX64_LAST : Z := 0x047fffff.
Definition ADDR_TEX32_FIRST : Z := 0x05000000.
Definition ADDR_TEX32_LAST : Z := 0x057fffff.
Definition PVR2_TEX_CACHE_SIZE : Z := GFX_TEX_CACHE_SIZE.
Definition PVR2_TEX_PAGE_SIZE : Z := 512.
Definition PVR2_TEX_MEM_LEN : Z := ADDR_TEX64_LAST - ADDR_TEX64_FIRST + 1.
Definition PVR2_TEX_N_PAGES : Z := PVR2_TEX_MEM_LEN / PVR2_TEX_PAGE_SIZE.

(** ** State *)
Record pvr2_tex_meta : Type := {
  addr_first : Z; addr_last : Z;
  w_shift : Z; h_shift : Z;
  pix_fmt : gfx_tex_fmt;
  tex_fmt : TexCtrlPixFmt;
  tex_palette_start : Z;
  twiddled : bool; stride_sel : bool; vq_compression : bool; mipmap : bool
}.
Inductive pvr2_tex_state : Type := PVR2_TEX_INVALID | PVR2_TEX_DIRTY | PVR2_TEX_READY.
#[export] Instance pvr2_tex_state_eq_dec : EqDecision pvr2_tex_state.
Proof. solve_decision. Defined.

Record pvr2_tex : Type := {
  last_update : Z;
  meta : pvr2_tex_meta;
  obj_no : Z;
  frame_stamp_last_used : Z;
  state : pvr2_tex_state
}.

(** what this file reads of [struct framebuffer]; the addresses of the two fields *)
Record framebuffer : Type := { fb_state : Z; fb_first : Z * Z; fb_last : Z * Z }.
Definition FB_STATE_INVALID : Z := 0.
Definition FB_STATE_VIRT : Z := 1.
Definition FB_STATE_GFX : Z := 2.
Definition FB_STATE_VIRT_AND_GFX : Z := 3.

(** the part of [struct pvr2], with the renderer behind it; the palette is the upper half of [reg_backing] *)
Record pvr2 {Img : Type} : Type := {
  tex64 : Memory;
  tex32 : Memory;
  page_stamps : gmap Z Z;
  tex_cache : list pvr2_tex;
  palette_tp : Z;
  pal_ram : Memory;
  next_frame_stamp : Z;
  clk_now : Z;
  fb_heap : list framebuffer;
  rend : gfx Img
}.
Arguments pvr2 Img : clear implicits.

Section updates.
Context {Img : Type}.
Definition upd_tex64 (v : Memory) (p : pvr2 Img) : pvr2 Img :=
  {| tex64 := v; tex32 := tex32 p; page_stamps := page_stamps p; tex_cache := tex_cache p; palette_tp := palette_tp p; pal_ram := pal_ram p;
     next_frame_stamp := next_frame_stamp p; clk_now := clk_now p; fb_heap := fb_heap p; rend := rend p |}.
Definition upd_tex32 (v : Memory) (p : pvr2 Img) : pvr2 Img :=
  {| tex64 := tex64 p; tex32 := v; page_stamps := page_stamps p; tex_cache := tex_cache p; palette_tp := palette_tp p; pal_ram := pal_ram p;
     next_frame_stamp := next_frame_stamp p; clk_now := clk_now p; fb_heap := fb_heap p; rend := rend p |}.
Definition upd_stamps (v : gmap Z Z) (p : pvr2 Img) : pvr2 Img :=
  {| tex64 := tex64 p; tex32 := tex32 p; page_stamps := v; tex_cache := tex_cache p; palette_tp := palette_tp p; pal_ram := pal_ram p;
     next_frame_stamp := next_frame_stamp p; clk_now := clk_now p; fb_heap := fb_heap p; rend := rend p |}.
Definition upd_cache (v : list pvr2_tex) (p : pvr2 Img) : pvr2 Img :=
  {| tex64 := tex64 p; tex32 := tex32 p; page_stamps := page_stamps p; tex_cache := v; palette_tp := palette_tp p; pal_ram := pal_ram p;
     next_frame_stamp := next_frame_stamp p; clk_now := clk_now p; fb_heap := fb_heap p; rend := rend p |}.
Definition upd_palette (tp : Z) (v : Memory) (p : pvr2 Img) : pvr2 Img :=
  {| tex64 := tex64 p; tex32 := tex32 p; page_stamps := page_stamps p; tex_cache := tex_cache p; palette_tp := tp; pal_ram := v;
     next_frame_stamp := next_frame_stamp p; clk_now := clk_now p; fb_heap := fb_heap p; rend := rend p |}.
Definition upd_frame_stamp (v : Z) (p : pvr2 Img) : pvr2 Img :=
  {| tex64 := tex64 p; tex32 := tex32 p; page_stamps := page_stamps p; tex_cache := tex_cache p; palette_tp := palette_tp p; pal_ram := pal_ram p;
     next_frame_stamp := v; clk_now := clk_now p; fb_heap := fb_heap p; rend := rend p |}.
Definition upd_now (v : Z) (p : pvr2 Img) : pvr2 Img :=
  {| tex64 := tex64 p; tex32 := tex32 p; page_stamps := page_stamps p; tex_cache := tex_cache p; palette_tp := palette_tp p; pal_ram := pal_ram p;
     next_frame_stamp := next_frame_stamp p; clk_now := v; fb_heap := fb_heap p; rend := rend p |}.
Definition upd_fb (v : list framebuffer) (p : pvr2 Img) : pvr2 Img :=
  {| tex64 := tex64 p; tex32 := tex32 p; page_stamps := page_stamps p; tex_cache := tex_cache p; palette_tp := palette_tp p; pal_ram := pal_ram p;
     next_frame_stamp := next_frame_stamp p; clk_now := clk_now p; fb_heap := v; rend := rend p |}.
Definition upd_rend (v : gfx Img) (p : pvr2 Img) : pvr2 Img :=
  {| tex64 := tex64 p; tex32 := tex32 p; page_stamps := page_stamps p; tex_cache := tex_cache p; palette_tp := palette_tp p; pal_ram := pal_ram p;
     next_frame_stamp := next_frame_stamp p; clk_now := clk_now p; fb_heap := fb_heap p; rend := v |}.
Definition on_rend {A} (m : M (gfx Img) A) : M (pvr2 Img) A :=
  fun p => match m (rend p) with Ok (a, g) => Ok (a, upd_rend g p) | Err e => Err e end.
End updates.

Definition with_used (stamp : Z) (t : pvr2_tex) : pvr2_tex :=
  {| last_update := last_update t; meta := meta t; obj_no := obj_no t; frame_stamp_last_used := stamp; state := state t |}.
Definition with_state (st : pvr2_tex_state) (t : pvr2_tex) : pvr2_tex :=
  {| last_update := last_update t; meta := meta t; obj_no := obj_no t; frame_stamp_last_used := frame_stamp_last_used t;
     state := st |}.
Definition with_obj_no (obj : Z) (t : pvr2_tex) : pvr2_tex :=
  {| last_update := last_update t; meta := meta t; obj_no := obj; frame_stamp_last_used := frame_stamp_last_used t;
     state := state t |}.
Definition with_last_update (v : Z) (t : pvr2_tex) : pvr2_tex :=
  {| last_update := v; meta := meta t; obj_no := obj_no t; frame_stamp_last_used := frame_stamp_last_used t;
     state := state t |}.
Definition with_pix_fmt (fmt : gfx_tex_fmt) (m : pvr2_tex_meta) : pvr2_tex_meta :=
  {| addr_first := addr_first m; addr_last := addr_last m; w_shift := w_shift m; h_shift := h_shift m; pix_fmt := fmt;
     tex_fmt := tex_fmt m; tex_palette_start := tex_palette_start m; twiddled := twiddled m; stride_sel := stride_sel m;
     vq_compression := vq_compression m; mipmap := mipmap m |}.

Definition pvr2_tex_valid (st : pvr2_tex_state) : bool :=
  bool_decide (st = PVR2_TEX_READY) || bool_decide (st = PVR2_TEX_DIRTY).

Definition pvr2_tex_fmt_to_gfx {St} (in_fmt : TexCtrlPixFmt) : M St gfx_tex_fmt :=
  match in_fmt with
  | TEX_CTRL_PIX_FMT_ARGB_1555 => ret GFX_TEX_FMT_ARGB_1555
  | TEX_CTRL_PIX_FMT_RGB_565 => ret GFX_TEX_FMT_RGB_565
  | TEX_CTRL_PIX_FMT_ARGB_4444 => ret GFX_TEX_FMT_ARGB_4444
  | TEX_CTRL_PIX_FMT_YUV_422 => ret GFX_TEX_FMT_YUV_422
  | TEX_CTRL_PIX_FMT_4_BPP_PAL => raise ERROR_INTEGRITY
  | TEX_CTRL_PIX_FMT_8_BPP_PAL => raise ERROR_INTEGRITY
  | _ => raise ERROR_UNIMPLEMENTED
  end.
Definition PALETTE_TP_ARGB_1555 : Z := 0.
Definition PALETTE_TP_RGB_565 : Z := 1.
Definition PALETTE_TP_ARGB_4444 : Z := 2.
Definition PALETTE_TP_ARGB_8888 : Z := 3.
Definition translate_palette_to_pix_format {St} (tp : Z) : M St gfx_tex_fmt :=
  if tp =? PALETTE_TP_ARGB_1555 then ret GFX_TEX_FMT_ARGB_1555
  else if tp =? PALETTE_TP_RGB_565 then ret GFX_TEX_FMT_RGB_565
  else if tp =? PALETTE_TP_ARGB_4444 then ret GFX_TEX_FMT_ARGB_4444
  else if tp =? PALETTE_TP_ARGB_8888 then ret GFX_TEX_FMT_ARGB_8888
  else raise ERROR_UNIMPLEMENTED.

(** the arguments of [pvr2_tex_cache_find] and [pvr2_tex_cache_add] *)
Record tex_args : Type := {
  a_addr : Z; a_pal_addr : Z; a_w_shift : Z; a_h_shift : Z; a_tex_fmt : TexCtrlPixFmt;
  a_twiddled : bool; a_vq_compression : bool; a_mipmap : bool; a_stride_sel : bool
}.

Section tex_cache.
Context {Img : Type} {CFG : BuildConfig} {HOST : Host Img}.
Abbreviation pvrM := (M (pvr2 Img)).
(** [sync_fb_to_tex_mem], by the index in [fb_heap] *)
Context (sync_fb_to_tex_mem : Z -> pvrM unit).

Definition get_slot (idx : Z) : pvrM pvr2_tex :=
  fun p => match at_idx (tex_cache p) idx with Some t => Ok (t, p) | None => Err C_UNDEFINED end.
Definition put_slot (idx : Z) (t : pvr2_tex) : pvrM unit := modify (fun p => upd_cache (<[Z.to_nat idx := t]> (tex_cache p)) p).

(** ** Initialization *)
Definition meta_zero : pvr2_tex_meta :=
  {| addr_first := 0; addr_last := 0; w_shift := 0; h_shift := 0; pix_fmt := GFX_TEX_FMT_ARGB_1555;
     tex_fmt := TEX_CTRL_PIX_FMT_ARGB_1555; tex_palette_start := 0; twiddled := false; stride_sel := false;
     vq_compression := false; mipmap := false |}.
Definition slot_init : pvr2_tex :=
  {| last_update := 0; meta := meta_zero; obj_no := -1; frame_stamp_last_used := 0; state := PVR2_TEX_INVALID |}.
Definition pvr2_tex_cache_init : pvrM unit :=
  modify (fun p => upd_stamps ∅ (upd_cache (replicate (Z.to_nat PVR2_TEX_CACHE_SIZE) slot_init) p)).

Definition pvr2_tex_cache_cleanup : pvrM unit :=
  for_below PVR2_TEX_CACHE_SIZE (fun idx =>
    tex <- get_slot idx ;;
    when (obj_no tex >=? 0) (on_rend (pvr2_free_gfx_obj (obj_no tex)))).

(** ** Look-up *)
Definition tex_matches (a : tex_args) (t : pvr2_tex) : bool :=
  let m := meta t in
  pvr2_tex_valid (state t) && (addr_first m =? a_addr a) && (w_shift m =? a_w_shift a) && (h_shift m =? a_h_shift a) &&
  bool_decide (tex_fmt m = a_tex_fmt a) && Bool.eqb (twiddled m) (a_twiddled a) &&
  Bool.eqb (vq_compression m) (a_vq_compression a) && Bool.eqb (a_mipmap a) (mipmap m) &&
  (negb (is_pal (a_tex_fmt a)) || (a_pal_addr a =? tex_palette_start m)).
Fixpoint find_tex (a : tex_args) (l : list pvr2_tex) (idx : Z) : option Z :=
  match l with
  | [] => None
  | t :: l' => if tex_matches a t then Some idx else find_tex a l' (idx + 1)
  end.
Definition pvr2_tex_cache_find (a : tex_args) : pvrM (option Z) :=
  p <- gets (fun p => p) ;;
  match find_tex a (tex_cache p) 0 with
  | Some idx =>
      tex <- get_slot idx ;;
      put_slot idx (with_used (next_frame_stamp p) tex) ;;
      ret (Some idx)
  | None => ret None
  end.

(** ** Insertion *)

(** the loop over the slots: the first invalid one, or the one that was not used for the longest time *)
Fixpoint pick_slot (cur_frame_stamp : Z) (l : list pvr2_tex) (idx : Z) (oldest : option (Z * Z)) : Z + option Z :=
  match l with
  | [] => inr (fst <$> oldest)
  | t :: l' =>
      if negb (pvr2_tex_valid (state t)) then inl idx
      else
        let used := frame_stamp_last_used t in
        let older := match oldest with None => true | Some (_, stamp) => used <? stamp end in
        pick_slot cur_frame_stamp l' (idx + 1)
          (if (used <? cur_frame_stamp) && older then Some (idx, used) else oldest)
  end.

(** [tex->meta.addr_last] *)
Definition tex_addr_last (a : tex_args) (vq : bool) : pvrM Z :=
  let w := Z.shiftl 1 (a_w_shift a) in
  let h := Z.shiftl 1 (a_h_shift a) in
  if vq then ret (u32 (a_addr a - 1 + PVR2_CODE_BOOK_LEN + w * w / 4))
  else
    let last := if bool_decide (a_tex_fmt a = TEX_CTRL_PIX_FMT_4_BPP_PAL)
                then u32 (a_addr a - 1 + w * h / 2)
                else u32 (a_addr a - 1 + pixel_sizes (a_tex_fmt a) * w * h) in
    if negb (a_mipmap a) then ret last
    else if negb (a_w_shift a =? a_h_shift a) then raise ERROR_UNIMPLEMENTED
    else
      tbl <- (if vq then ret mipmap_byte_offset_vq
              else match a_tex_fmt a with
                   | TEX_CTRL_PIX_FMT_ARGB_1555 | TEX_CTRL_PIX_FMT_RGB_565
                   | TEX_CTRL_PIX_FMT_YUV_422 | TEX_CTRL_PIX_FMT_ARGB_4444 => ret mipmap_byte_offset_norm
                   | TEX_CTRL_PIX_FMT_4_BPP_PAL | TEX_CTRL_PIX_FMT_8_BPP_PAL => ret mipmap_byte_offset_palette
                   | _ => raise ERROR_UNIMPLEMENTED
                   end) ;;
      offs <- known (at_idx tbl (a_w_shift a)) ;;
      ret (u32 (last + offs)).

(** a slot is filled *)
Definition tex_install (idx cur_frame_stamp tp : Z) (a : tex_args) : pvrM (option Z) :=
  fmt <- (if negb (is_pal (a_tex_fmt a)) then pvr2_tex_fmt_to_gfx (a_tex_fmt a) else translate_palette_to_pix_format tp) ;;
  let vq := if a_vq_compression a && negb (a_w_shift a =? a_h_shift a) then false else a_vq_compression a in
  last <- tex_addr_last a vq ;;
  put_slot idx
    {| last_update := 0;
       meta := {| addr_first := a_addr a; addr_last := last; w_shift := a_w_shift a; h_shift := a_h_shift a;
                  pix_fmt := fmt; tex_fmt := a_tex_fmt a; tex_palette_start := a_pal_addr a;
                  twiddled := a_twiddled a; stride_sel := a_stride_sel a; vq_compression := vq; mipmap := a_mipmap a |};
       obj_no := -1;
       frame_stamp_last_used := cur_frame_stamp;
       state := PVR2_TEX_DIRTY |} ;;
  ret (Some idx).

Definition pvr2_tex_cache_add (a : tex_args) : pvrM (option Z) :=
  when (bool_decide (a_tex_fmt a = TEX_CTRL_PIX_FMT_INVALID)) (raise C_ABORT) ;;
  p <- gets (fun p => p) ;;
  let cur_frame_stamp := next_frame_stamp p in
  when (INVARIANTS && ((a_w_shift a >? 10) || (a_h_shift a >? 10) || (a_w_shift a <? 3) || (a_h_shift a <? 3)))
    (raise ERROR_INTEGRITY) ;;
  match pick_slot cur_frame_stamp (tex_cache p) 0 None with
  | inl idx => tex_install idx cur_frame_stamp (palette_tp p) a
  | inr None => ret None
  | inr (Some idx) =>
      tex <- get_slot idx ;;
      when (obj_no tex >=? 0)
        (on_rend (rend_exec_il (GFX_IL_FREE_OBJ (obj_no tex))) ;; on_rend (pvr2_free_gfx_obj (obj_no tex))) ;;
      tex_install idx cur_frame_stamp (palette_tp p) a
  end.

(** the texture of a polygon header (pvr2_ta.c) *)
Definition use_texture (a : tex_args) : pvrM (option Z) :=
  ent <- pvr2_tex_cache_find a ;;
  match ent with
  | Some idx => ret (Some idx)
  | None => pvr2_tex_cache_add a
  end.

(** ** Invalidation *)
Fixpoint stamp_pages (n : nat) (page_no time : Z) (stamps : gmap Z Z) : res (gmap Z Z) :=
  match n with
  | O => Ok stamps
  | S n' => if (0 <=? page_no) && (page_no <? PVR2_TEX_N_PAGES)
            then stamp_pages n' (page_no + 1) time (<[page_no := time]> stamps) else Err C_UNDEFINED
  end.
Definition pvr2_tex_cache_notify_write (addr len : Z) : pvrM unit :=
  let addr_last_abs := u32 (addr + (len - 1)) in
  when (INVARIANTS && ((addr <? ADDR_TEX64_FIRST) || (addr >? ADDR_TEX64_LAST) ||
                       (addr_last_abs <? ADDR_TEX64_FIRST) || (addr_last_abs >? ADDR_TEX64_LAST)))
    (raise ERROR_INTEGRITY) ;;
  let first := u32 (addr - ADDR_TEX64_FIRST) in
  let last := u32 (first + (len - 1)) in
  let page_first := first / PVR2_TEX_PAGE_SIZE in
  let page_last := last / PVR2_TEX_PAGE_SIZE in
  fun p => match stamp_pages (Z.to_nat (page_last - page_first + 1)) page_first (clk_now p) (page_stamps p) with
           | Ok stamps => Ok (tt, upd_stamps stamps p)
           | Err e => Err e
           end.

Definition pvr2_tex_cache_notify_palette_tp_change : pvrM unit :=
  modify (fun p => upd_cache ((fun t => if bool_decide (state t = PVR2_TEX_READY) && is_pal (tex_fmt (meta t))
                                        then with_state PVR2_TEX_DIRTY t else t) <$> tex_cache p) p).
Definition pvr2_tex_cache_notify_palette_write (addr len : Z) : pvrM unit := pvr2_tex_cache_notify_palette_tp_change.

(** writes of PALETTE_TP and of a word of the palette (pvr2_reg.c) *)
Definition write_palette_tp (val : Z) : pvrM unit :=
  modify (fun p => upd_palette val (pal_ram p) p) ;; pvr2_tex_cache_notify_palette_tp_change.
Definition PAL_RAM_WORDS : Z := 1024.
Definition write_palette (word val : Z) : pvrM unit :=
  modify (fun p => upd_palette (palette_tp p) (store 4 (4 * word) val (pal_ram p)) p) ;;
  pvr2_tex_cache_notify_palette_write (4 * word) 4.

(** ** Decoding *)

(** pointers into texture memory and into the palette *)
Definition tex64_ptr (mem : Memory) (offs : Z) : ptr :=
  fun i => if (0 <=? offs + i) && (offs + i <? PVR2_TEX_MEM_LEN) then Some (byte mem (offs + i)) else None.
Definition pal_ptr (pal : Memory) : ptr := fun i => if (0 <=? i) && (i <? 4 * PAL_RAM_WORDS) then Some (byte pal i) else None.

(** the offsets of the code book and of the picture *)
Definition tex_begin {St} (m : pvr2_tex_meta) : M St (Z * Z) :=
  if mipmap m then
    if negb (w_shift m =? h_shift m) then raise ERROR_UNIMPLEMENTED
    else if bool_decide (tex_fmt m = TEX_CTRL_PIX_FMT_YUV_422) then raise ERROR_UNIMPLEMENTED
    else if vq_compression m then
      offs <- known (at_idx mipmap_byte_offset_vq (w_shift m)) ;;
      ret (addr_first m, addr_first m + PVR2_CODE_BOOK_LEN + offs)
    else
      tbl <- match tex_fmt m with
             | TEX_CTRL_PIX_FMT_ARGB_1555 | TEX_CTRL_PIX_FMT_RGB_565
             | TEX_CTRL_PIX_FMT_YUV_422 | TEX_CTRL_PIX_FMT_ARGB_4444 => ret mipmap_byte_offset_norm
             | TEX_CTRL_PIX_FMT_4_BPP_PAL | TEX_CTRL_PIX_FMT_8_BPP_PAL => ret mipmap_byte_offset_palette
             | _ => raise ERROR_UNIMPLEMENTED
             end ;;
      offs <- known (at_idx tbl (w_shift m)) ;;
      ret (0, addr_first m + offs)
  else if vq_compression m then ret (addr_first m, addr_first m + PVR2_CODE_BOOK_LEN)
  else ret (0, addr_first m).

(** the bytes of the texture, before the palette is applied; the state is the buffer [tex_dat] *)
Definition tex_unpack (mem : Memory) (m : pvr2_tex_meta) (code_book beg n_bytes : Z) : M (list Z) unit :=
  let fmt := tex_fmt m in
  if vq_compression m then
    if is_pal fmt then raise ERROR_UNIMPLEMENTED
    else if bool_decide (fmt = TEX_CTRL_PIX_FMT_YUV_422) then raise ERROR_UNIMPLEMENTED
    else if negb (pixel_sizes fmt =? 2) then raise ERROR_UNIMPLEMENTED
    else if negb (w_shift m =? h_shift m) then raise ERROR_UNIMPLEMENTED
    else pvr2_tex_vq_decompress (tex64_ptr mem code_book) (tex64_ptr mem beg) (w_shift m)
  else if twiddled m then
    if bool_decide (fmt = TEX_CTRL_PIX_FMT_4_BPP_PAL)
    then pvr2_tex_detwiddle_4bpp (tex64_ptr mem beg) (w_shift m) (h_shift m)
    else pvr2_tex_detwiddle (tex64_ptr mem beg) (w_shift m) (h_shift m) (pixel_sizes fmt)
  else
    dat <- known (ptr_read (tex64_ptr mem beg) 0 n_bytes) ;;
    buf_write 0 dat.

Definition tex_size_actual {St} (tp : Z) : M St Z :=
  if tp =? PALETTE_TP_ARGB_1555 then ret 2
  else if tp =? PALETTE_TP_RGB_565 then ret 2
  else if tp =? PALETTE_TP_ARGB_4444 then ret 2
  else if tp =? PALETTE_TP_ARGB_8888 then ret 4
  else raise ERROR_INTEGRITY.

(** the loop that replaces the pixels by their colors; [pix_in] is the value of a pixel *)
Definition apply_palette (pal : Memory) (pal_start size tex_w tex_h : Z) (pix_in : Z -> option Z) : M (list Z) unit :=
  for_below tex_h (fun row =>
  for_below tex_w (fun col =>
    let pix_idx := row * tex_w + col in
    pix <- known (pix_in pix_idx) ;;
    let palette_addr := u32 (Z.lor pal_start pix * 4) in
    color <- known (ptr_read (pal_ptr pal) palette_addr size) ;;
    buf_write (pix_idx * size) color)).
Definition nibble_at (tex_dat8 : list Z) (pix_idx : Z) : option Z :=
  match list_ptr tex_dat8 (pix_idx / 2) with
  | Some b => Some (if pix_idx mod 2 =? 0 then Z.land b 0xf else Z.shiftr b 4)
  | None => None
  end.

(** [malloc], which succeeds *)
Definition alloc_buf (n_bytes : Z) : M (list Z) unit := modify (fun _ => fresh (Z.to_nat n_bytes)).

(** the pixels of a texture with a palette are replaced by their colors *)
Definition tex_expand (pal : Memory) (tp : Z) (m : pvr2_tex_meta) (n_bytes : Z) : M (list Z) Z :=
  let tex_w := Z.shiftl 1 (w_shift m) in
  let tex_h := Z.shiftl 1 (h_shift m) in
  if bool_decide (tex_fmt m = TEX_CTRL_PIX_FMT_8_BPP_PAL) then
    size <- tex_size_actual tp ;;
    tex_dat8 <- gets (fun b => b) ;;
    alloc_buf (size * tex_w * tex_h) ;;
    apply_palette pal (Z.shiftl (Z.land (tex_palette_start m) 0x30) 4) size tex_w tex_h (list_ptr tex_dat8) ;;
    ret (size * tex_w * tex_h)
  else if bool_decide (tex_fmt m = TEX_CTRL_PIX_FMT_4_BPP_PAL) then
    size <- tex_size_actual tp ;;
    tex_dat8 <- gets (fun b => b) ;;
    alloc_buf (size * tex_w * tex_h) ;;
    apply_palette pal (u32 (Z.shiftl (tex_palette_start m) 4)) size tex_w tex_h (nibble_at tex_dat8) ;;
    ret (size * tex_w * tex_h)
  else ret n_bytes.

Definition tex_read (mem pal : Memory) (tp : Z) (m : pvr2_tex_meta) : M (list Z) Z :=
  let tex_w := Z.shiftl 1 (w_shift m) in
  let tex_h := Z.shiftl 1 (h_shift m) in
  when (PVR2_TEX_MEM_LEN <=? u32 (addr_last m - addr_first m + 1)) (raise C_ABORT) ;;
  n_bytes <- (if bool_decide (tex_fmt m = TEX_CTRL_PIX_FMT_4_BPP_PAL) then ret (tex_w * tex_h / 2)
              else if pixel_sizes (tex_fmt m) =? 0 then raise ERROR_UNIMPLEMENTED
              else ret (tex_w * tex_h * pixel_sizes (tex_fmt m))) ;;
  when (n_bytes =? 0) (raise ERROR_FAILED_ALLOC) ;;
  alloc_buf n_bytes ;;
  offsets <- tex_begin m ;;
  tex_unpack mem m (fst offsets) (snd offsets) n_bytes ;;
  tex_expand pal tp m n_bytes.

Definition pvr2_tex_cache_read (m : pvr2_tex_meta) : pvrM (list Z * Z) :=
  fun p => match tex_read (tex64 p) (pal_ram p) (palette_tp p) m [] with
           | Ok (n_bytes, tex_dat) => Ok ((tex_dat, n_bytes), p)
           | Err e => Err e
           end.

(** ** Pictures on their way to texture memory (framebuffer.c) *)
Definition TEX_MIRROR_MASK : Z := 0x7fffff.
Definition get_tex_mem_offs (addr : Z) : Z :=
  let area := Z.land addr 0xff000000 in
  if (area =? 0x04000000) || (area =? 0x06000000) then ADDR_TEX64_FIRST else ADDR_TEX32_FIRST.
Definition check_overlap (range1_start range1_end range2_start range2_end : Z) : bool :=
  (range1_start >=? range2_start) && (range1_start <=? range2_end) ||
  (range1_end >=? range2_start) && (range1_end <=? range2_end) ||
  (range2_start >=? range1_start) && (range2_start <=? range1_end) ||
  (range2_end >=? range1_start) && (range2_end <=? range1_end).

Definition fb_with_state (st : Z) (fb : framebuffer) : framebuffer :=
  {| fb_state := st; fb_first := fb_first fb; fb_last := fb_last fb |}.
Definition pvr2_framebuffer_notify_write (addr n_bytes : Z) : pvrM unit :=
  let first_byte := u32 (addr - ADDR_TEX32_FIRST) in
  let last_byte := u32 (n_bytes - 1 + first_byte) in
  modify (fun p => upd_fb ((fun fb =>
    if truth (Z.land (fb_state fb) FB_STATE_GFX) &&
       (check_overlap first_byte last_byte (fst (fb_first fb)) (fst (fb_last fb)) ||
        check_overlap first_byte last_byte (snd (fb_first fb)) (snd (fb_last fb)))
    then fb_with_state FB_STATE_VIRT fb else fb) <$> fb_heap p) p).

Definition fb_notify_texture (first_tex_addr last_tex_addr fb_idx : Z) : pvrM unit :=
  p <- gets (fun p => p) ;;
  fb <- known (at_idx (fb_heap p) fb_idx) ;;
  when (fb_state fb =? FB_STATE_GFX)
    (when (get_tex_mem_offs (u32 (fst (fb_first fb) + ADDR_TEX32_FIRST)) =? ADDR_TEX64_FIRST)
      (when (check_overlap first_tex_addr last_tex_addr (Z.land (fst (fb_first fb)) TEX_MIRROR_MASK)
               (Z.land (fst (fb_last fb)) TEX_MIRROR_MASK) ||
             check_overlap first_tex_addr last_tex_addr (Z.land (snd (fb_first fb)) TEX_MIRROR_MASK)
               (Z.land (snd (fb_last fb)) TEX_MIRROR_MASK))
        (sync_fb_to_tex_mem fb_idx ;;
         modify (fun p => upd_fb (alter (fb_with_state FB_STATE_VIRT_AND_GFX) (Z.to_nat fb_idx) (fb_heap p)) p)))).
Definition FB_HEAP_SIZE : Z := 8.
Definition pvr2_framebuffer_notify_texture (first_tex_addr last_tex_addr : Z) : pvrM unit :=
  let first_tex_addr := Z.land first_tex_addr TEX_MIRROR_MASK in
  let last_tex_addr := Z.land last_tex_addr TEX_MIRROR_MASK in
  for_below FB_HEAP_SIZE (fb_notify_texture first_tex_addr last_tex_addr).

(** ** Transmission to the renderer *)
Fixpoint younger_page (n : nat) (page last_update : Z) (stamps : gmap Z Z) : option bool :=
  match n with
  | O => Some false
  | S n' => if (0 <=? page) && (page <? PVR2_TEX_N_PAGES)
            then if default 0 (stamps !! page) >? last_update then Some true
                 else younger_page n' (page + 1) last_update stamps
            else None
  end.
Definition tex_need_update (tex : pvr2_tex) : pvrM bool :=
  match state tex with
  | PVR2_TEX_DIRTY => ret true
  | PVR2_TEX_READY =>
      let page := addr_first (meta tex) / PVR2_TEX_PAGE_SIZE in
      let last_page := addr_last (meta tex) / PVR2_TEX_PAGE_SIZE in
      p <- gets (fun p => p) ;;
      known (younger_page (Z.to_nat (last_page - page + 1)) page (last_update tex) (page_stamps p))
  | PVR2_TEX_INVALID => ret false
  end.

(** the copy of the texture's description, with the format of the palette *)
Definition tex_meta_now (m : pvr2_tex_meta) : pvrM pvr2_tex_meta :=
  if is_pal (tex_fmt m)
  then p <- gets (fun p => p) ;; fmt <- translate_palette_to_pix_format (palette_tp p) ;; ret (with_pix_fmt fmt m)
  else ret m.

(** the texture was not used in this frame *)
Definition xmit_evict (idx : Z) (tex_in : pvr2_tex) : pvrM unit :=
  put_slot idx (with_state PVR2_TEX_INVALID tex_in) ;;
  on_rend (rend_exec_il (GFX_IL_UNBIND_TEX idx)) ;;
  on_rend (rend_exec_il (GFX_IL_FREE_OBJ (obj_no tex_in))) ;;
  on_rend (pvr2_free_gfx_obj (obj_no tex_in)) ;;
  put_slot idx (with_obj_no (-1) (with_state PVR2_TEX_INVALID tex_in)).

(** a new data store, or the one the texture has *)
Definition xmit_new (idx : Z) (tex_in : pvr2_tex) : pvrM pvr2_tex :=
  obj <- on_rend pvr2_alloc_gfx_obj ;;
  put_slot idx (with_obj_no obj tex_in) ;;
  tmp <- tex_meta_now (meta tex_in) ;;
  dat <- pvr2_tex_cache_read tmp ;;
  on_rend (rend_exec_il (GFX_IL_INIT_OBJ obj (snd dat))) ;;
  on_rend (rend_exec_il (GFX_IL_WRITE_OBJ (fst dat) obj (snd dat))) ;;
  on_rend (rend_exec_il (GFX_IL_BIND_TEX idx obj (pix_fmt tmp) (Z.shiftl 1 (w_shift (meta tex_in)))
                           (Z.shiftl 1 (h_shift (meta tex_in))))) ;;
  ret (with_obj_no obj tex_in).
Definition xmit_again (tex_in : pvr2_tex) : pvrM pvr2_tex :=
  tmp <- tex_meta_now (meta tex_in) ;;
  dat <- pvr2_tex_cache_read tmp ;;
  on_rend (rend_exec_il (GFX_IL_WRITE_OBJ (fst dat) (obj_no tex_in) (snd dat))) ;;
  ret tex_in.

Definition xmit_update (idx : Z) (tex_in : pvr2_tex) : pvrM unit :=
  p <- gets (fun p => p) ;;
  if negb (frame_stamp_last_used tex_in =? next_frame_stamp p) then xmit_evict idx tex_in
  else
    tex <- (if obj_no tex_in <? 0 then xmit_new idx tex_in else xmit_again tex_in) ;;
    p <- gets (fun p => p) ;;
    put_slot idx (with_last_update (clk_now p) (with_state PVR2_TEX_READY tex)).

Definition xmit_slot (idx : Z) : pvrM unit :=
  tex_in <- get_slot idx ;;
  when (negb (bool_decide (state tex_in = PVR2_TEX_INVALID)))
    (pvr2_framebuffer_notify_texture (u32 (addr_first (meta tex_in) + ADDR_TEX64_FIRST))
                                     (u32 (addr_last (meta tex_in) + ADDR_TEX64_FIRST))) ;;
  need_update <- tex_need_update tex_in ;;
  when need_update (xmit_update idx tex_in).

Definition pvr2_tex_cache_xmit : pvrM unit := for_below PVR2_TEX_CACHE_SIZE xmit_slot.

(** the part of [pvr2_ta_startrender] that concerns textures: the cache is sent, the frame is drawn,
    and the next one begins *)
Definition render_frame : pvrM unit :=
  pvr2_tex_cache_xmit ;;
  modify (fun p => upd_frame_stamp (u32 (next_frame_stamp p + 1)) p).

(** ** Writes to the 64-bit area (pvr2_tex_mem.c), of [2^k] bytes *)
Definition area64_out_of_bounds (k addr : Z) : bool :=
  (addr <? ADDR_TEX64_FIRST) || (addr >? ADDR_TEX64_LAST) ||
  (u32 (addr - 1) + 2 ^ k >? ADDR_TEX64_LAST) || (u32 (addr - 1) + 2 ^ k <? ADDR_TEX64_FIRST).
Definition area64_write (k addr val : Z) : pvrM unit :=
  when (area64_out_of_bounds k addr) (raise ERROR_UNIMPLEMENTED) ;;
  pvr2_framebuffer_notify_write addr (2 ^ k) ;;
  pvr2_tex_cache_notify_write addr (2 ^ k) ;;
  modify (fun p => upd_tex64 (store (Z.to_nat (2 ^ k)) (elem_addr k (addr - ADDR_TEX64_FIRST)) val (tex64 p)) p).
Definition area64_read (k addr : Z) : pvrM Z :=
  when (area64_out_of_bounds k addr) (raise ERROR_UNIMPLEMENTED) ;;
  gets (fun p => load (Z.to_nat (2 ^ k)) (elem_addr k (addr - ADDR_TEX64_FIRST)) (tex64 p)).
Definition pvr2_tex_mem_area64_read_8 (addr : Z) : pvrM Z := area64_read 0 addr.
Definition pvr2_tex_mem_area64_read_16 (addr : Z) : pvrM Z := area64_read 1 addr.
Definition pvr2_tex_mem_area64_read_32 (addr : Z) : pvrM Z := area64_read 2 addr.
Definition pvr2_tex_mem_area64_read_float (addr : Z) : pvrM Z := pvr2_tex_mem_area64_read_32 addr.
Definition pvr2_tex_mem_area64_read_double (addr : Z) : pvrM Z := area64_read 3 addr.
Definition pvr2_tex_mem_area64_write_8 (addr val : Z) : pvrM unit := area64_write 0 addr val.
Definition pvr2_tex_mem_area64_write_16 (addr val : Z) : pvrM unit := area64_write 1 addr val.
Definition pvr2_tex_mem_area64_write_32 (addr val : Z) : pvrM unit := area64_write 2 addr val.
Definition pvr2_tex_mem_area64_write_float (addr val : Z) : pvrM unit := pvr2_tex_mem_area64_write_32 addr val.
Definition pvr2_tex_mem_area64_write_double (addr val : Z) : pvrM unit := area64_write 3 addr val.

(** ** The 32-bit area, which is memory of its own *)
Definition area32_out_of_bounds (k addr : Z) : bool :=
  (addr <? ADDR_TEX32_FIRST) || (addr >? ADDR_TEX32_LAST) ||
  (u32 (addr - 1) + 2 ^ k >? ADDR_TEX32_LAST) || (u32 (addr - 1) + 2 ^ k <? ADDR_TEX32_FIRST).
Definition area32_write (k addr val : Z) : pvrM unit :=
  when (area32_out_of_bounds k addr) (raise ERROR_UNIMPLEMENTED) ;;
  pvr2_framebuffer_notify_write addr (2 ^ k) ;;
  modify (fun p => upd_tex32 (store (Z.to_nat (2 ^ k)) (elem_addr k (addr - ADDR_TEX32_FIRST)) val (tex32 p)) p).
Definition area32_read (k addr : Z) : pvrM Z :=
  when (area32_out_of_bounds k addr) (raise ERROR_UNIMPLEMENTED) ;;
  gets (fun p => load (Z.to_nat (2 ^ k)) (elem_addr k (addr - ADDR_TEX32_FIRST)) (tex32 p)).
Definition pvr2_tex_mem_area32_read_8 (addr : Z) : pvrM Z := area32_read 0 addr.
Definition pvr2_tex_mem_area32_read_16 (addr : Z) : pvrM Z := area32_read 1 addr.
Definition pvr2_tex_mem_area32_read_32 (addr : Z) : pvrM Z := area32_read 2 addr.
Definition pvr2_tex_mem_area32_read_float (addr : Z) : pvrM Z := pvr2_tex_mem_area32_read_32 addr.
Definition pvr2_tex_mem_area32_read_double (addr : Z) : pvrM Z := raise ERROR_UNIMPLEMENTED.
Definition pvr2_tex_mem_area32_write_8 (addr val : Z) : pvrM unit := area32_write 0 addr val.
Definition pvr2_tex_mem_area32_write_16 (addr val : Z) : pvrM unit := area32_write 1 addr val.
Definition pvr2_tex_mem_area32_write_32 (addr val : Z) : pvrM unit := area32_write 2 addr val.
Definition pvr2_tex_mem_area32_write_float (addr val : Z) : pvrM unit := pvr2_tex_mem_area32_write_32 addr val.
Definition pvr2_tex_mem_area32_write_double (addr val : Z) : pvrM unit := area32_write 3 addr val.

(** ** Other accessors *)
Definition pvr2_tex_get_meta (tex_idx : Z) : pvrM (option pvr2_tex_meta) :=
  tex_in <- get_slot tex_idx ;;
  ret (if pvr2_tex_valid (state tex_in) then Some (meta tex_in) else None).
End tex_cache.
