(* ===== verification/TexRead.v ===== *)
(** What [pvr2_tex_cache_read] produces: for every texture that the emulator supports it succeeds, and the
    picture depends on the bytes of the texture and, if it has one, on the palette. *)
From stdpp Require Import gmap list.
From S2P Require Import Prelude Sh4State MemoryMap Memory Twiddle GfxObj TexCache.
Import memory.

(** bytes of texture memory *)
Definition bytes_ok (mem : Memory) : Prop := forall a, in_range 8 (byte mem a).

(** ** The extent of a texture *)
Definition tex_w (m : pvr2_tex_meta) : Z := 2 ^ w_shift m.
Definition tex_h (m : pvr2_tex_meta) : Z := 2 ^ h_shift m.
Definition pic_bytes (m : pvr2_tex_meta) : Z :=
  if bool_decide (tex_fmt m = TEX_CTRL_PIX_FMT_4_BPP_PAL) then tex_w m * tex_h m / 2 else tex_w m * tex_h m * pixel_sizes (tex_fmt m).
Definition mip_offset (m : pvr2_tex_meta) : Z :=
  if mipmap m
  then default 0 (at_idx (if vq_compression m then mipmap_byte_offset_vq
                          else if is_pal (tex_fmt m) then mipmap_byte_offset_palette else mipmap_byte_offset_norm) (w_shift m))
  else 0.
(** bytes from [addr_first] to [addr_last], and bytes from [addr_first] on that the decoder reads: the two differ
    for a compressed texture with mipmaps *)
Definition tex_len (m : pvr2_tex_meta) : Z :=
  if vq_compression m then PVR2_CODE_BOOK_LEN + tex_w m * tex_w m / 4 else pic_bytes m + mip_offset m.
Definition tex_extent (m : pvr2_tex_meta) : Z :=
  if vq_compression m then PVR2_CODE_BOOK_LEN + mip_offset m + tex_w m * tex_w m / 4 else pic_bytes m + mip_offset m.

(** the formats *)
Definition fmt_ok (m : pvr2_tex_meta) : Prop :=
  match tex_fmt m with
  | TEX_CTRL_PIX_FMT_ARGB_1555 | TEX_CTRL_PIX_FMT_RGB_565 | TEX_CTRL_PIX_FMT_ARGB_4444 => True
  | TEX_CTRL_PIX_FMT_YUV_422 => vq_compression m = false /\ mipmap m = false
  | TEX_CTRL_PIX_FMT_4_BPP_PAL | TEX_CTRL_PIX_FMT_8_BPP_PAL => vq_compression m = false /\ 0 <= tex_palette_start m < 64
  | _ => False
  end.
(** the format on the host, for a type of palette *)
Definition pal_gfx_fmt (tp : Z) : gfx_tex_fmt :=
  match tp with 0 => GFX_TEX_FMT_ARGB_1555 | 1 => GFX_TEX_FMT_RGB_565 | 2 => GFX_TEX_FMT_ARGB_4444 | _ => GFX_TEX_FMT_ARGB_8888 end.
Definition tex_gfx_fmt (tp : Z) (m : pvr2_tex_meta) : gfx_tex_fmt :=
  match tex_fmt m with
  | TEX_CTRL_PIX_FMT_RGB_565 => GFX_TEX_FMT_RGB_565
  | TEX_CTRL_PIX_FMT_ARGB_4444 => GFX_TEX_FMT_ARGB_4444
  | TEX_CTRL_PIX_FMT_YUV_422 => GFX_TEX_FMT_YUV_422
  | TEX_CTRL_PIX_FMT_4_BPP_PAL | TEX_CTRL_PIX_FMT_8_BPP_PAL => pal_gfx_fmt tp
  | _ => GFX_TEX_FMT_ARGB_1555
  end.

(** a texture that the emulator supports and that lies in texture memory *)
Record meta_ok (m : pvr2_tex_meta) : Prop := {
  mo_w : 3 <= w_shift m <= 10;
  mo_h : 3 <= h_shift m <= 10;
  mo_fmt : fmt_ok m;
  mo_square : vq_compression m = true \/ mipmap m = true -> w_shift m = h_shift m;
  mo_first : 0 <= addr_first m;
  mo_last : addr_last m = addr_first m + tex_len m - 1;
  mo_fits : addr_first m + tex_extent m <= PVR2_TEX_MEM_LEN;
  mo_len : tex_len m < PVR2_TEX_MEM_LEN
}.

Lemma shift_cases s : 3 <= s <= 10 -> s = 3 \/ s = 4 \/ s = 5 \/ s = 6 \/ s = 7 \/ s = 8 \/ s = 9 \/ s = 10.
Proof. lia. Qed.

Section sizes.
Context (m : pvr2_tex_meta) (Hm : meta_ok m).

Lemma w_bounds : 8 <= tex_w m <= 1024.
Proof.
  destruct (mo_w m Hm). unfold tex_w. split; [apply (Z.pow_le_mono_r 2 3)|apply (Z.pow_le_mono_r 2 _ 10)]; lia.
Qed.
Lemma h_bounds : 8 <= tex_h m <= 1024.
Proof.
  destruct (mo_h m Hm). unfold tex_h. split; [apply (Z.pow_le_mono_r 2 3)|apply (Z.pow_le_mono_r 2 _ 10)]; lia.
Qed.
Lemma area_even : (tex_w m * tex_h m) mod 2 = 0.
Proof.
  destruct (mo_h m Hm). unfold tex_h. replace (2 ^ h_shift m) with (2 * 2 ^ (h_shift m - 1)).
  - rewrite Z.mul_assoc, (Z.mul_comm _ 2), <- Z.mul_assoc, Z.mul_comm. apply Z.mod_mul. lia.
  - rewrite <- Z.pow_succ_r by lia. f_equal. lia.
Qed.
Lemma mip_offset_nonneg : 0 <= mip_offset m.
Proof.
  unfold mip_offset. destruct (mipmap m); [|done].
  destruct (shift_cases _ (mo_w m Hm)) as [->|[->|[->|[->|[->|[->|[->| ->]]]]]]], (vq_compression m), (is_pal (tex_fmt m)); done.
Qed.
Lemma mip_offset_ok tbl : mipmap m = true ->
  tbl = (if vq_compression m then mipmap_byte_offset_vq
         else if is_pal (tex_fmt m) then mipmap_byte_offset_palette else mipmap_byte_offset_norm) ->
  at_idx tbl (w_shift m) = Some (mip_offset m).
Proof.
  intros Hmip ->. unfold mip_offset. rewrite Hmip.
  destruct (shift_cases _ (mo_w m Hm)) as [->|[->|[->|[->|[->|[->|[->| ->]]]]]]], (vq_compression m), (is_pal (tex_fmt m)); done.
Qed.
Lemma pic_bytes_pos : 0 < pic_bytes m.
Proof.
  pose proof w_bounds. pose proof h_bounds. pose proof area_even. pose proof (Z.div_mod (tex_w m * tex_h m) 2).
  assert (64 <= tex_w m * tex_h m) by nia. pose proof (mo_fmt m Hm) as Hf. unfold pic_bytes, fmt_ok in *.
  destruct (tex_fmt m) eqn:E; try done; case_bool_decide; try done; cbn [pixel_sizes]; lia.
Qed.
Lemma quarter_pos : 0 < tex_w m * tex_w m / 4.
Proof. pose proof w_bounds. apply Z.div_str_pos. nia. Qed.
Lemma tex_len_pos : 0 < tex_len m <= tex_extent m.
Proof.
  pose proof pic_bytes_pos. pose proof quarter_pos. pose proof mip_offset_nonneg. unfold tex_len, tex_extent.
  destruct (vq_compression m); unfold PVR2_CODE_BOOK_LEN, PVR2_CODE_BOOK_ENTRY_COUNT, PVR2_CODE_BOOK_ENTRY_SIZE; lia.
Qed.
End sizes.

(** ** The unpacked bytes, as a function of those in memory *)
Definition tex_beg (m : pvr2_tex_meta) : Z :=
  addr_first m + (if vq_compression m then PVR2_CODE_BOOK_LEN else 0) + mip_offset m.
Definition unpacked (f : Z -> Z) (m : pvr2_tex_meta) : list Z :=
  if vq_compression m then vq_picture (w_shift m) (fun i => f (addr_first m + i)) (fun i => f (tex_beg m + i))
  else if twiddled m then
    if bool_decide (tex_fmt m = TEX_CTRL_PIX_FMT_4_BPP_PAL)
    then detwiddled_4bpp (w_shift m) (h_shift m) (fun i => f (tex_beg m + i))
    else detwiddled (w_shift m) (h_shift m) (fun i => f (tex_beg m + i)) (pixel_sizes (tex_fmt m))
  else (fun i => f (tex_beg m + i)) <$> seqZ 0 (pic_bytes m).

Section read.
Context {Img : Type} {CFG : BuildConfig} {HOST : Host Img} {HL : HostLaws Img}.

Lemma tex_begin_ok {St} m (s : St) : meta_ok m ->
  exists cb, tex_begin m s = Ok ((cb, tex_beg m), s) /\ (vq_compression m = true -> cb = addr_first m).
Proof.
  intros Hm. unfold tex_begin, tex_beg. pose proof (mo_square m Hm) as Hsq. pose proof (mo_fmt m Hm) as Hf. unfold fmt_ok in Hf.
  destruct (mipmap m) eqn:Emip.
  - replace (w_shift m =? h_shift m) with true by (symmetry; apply Z.eqb_eq; auto). cbn [negb].
    rewrite bool_decide_false by (intros E; rewrite E in Hf; by destruct Hf).
    destruct (vq_compression m) eqn:Evq.
    + rewrite (mip_offset_ok m Hm) by by rewrite ?Emip, ?Evq. cbn. eexists. split; [done|done].
    + exists 0. split; [|done].
      erewrite (bind_ok _ _ _ (if is_pal (tex_fmt m) then mipmap_byte_offset_palette else mipmap_byte_offset_norm) s).
      2: { destruct (tex_fmt m); done || by destruct Hf. }
      rewrite (mip_offset_ok m Hm) by by rewrite ?Emip, ?Evq. by rewrite Z.add_0_r.
  - unfold mip_offset. rewrite Emip. exists (if vq_compression m then addr_first m else 0). destruct (vq_compression m); by rewrite ?Z.add_0_r.
Qed.

Lemma tex64_ptr_ok mem f m offs i :
  (forall a, addr_first m <= a < addr_first m + tex_extent m -> byte mem a = f a) -> meta_ok m ->
  addr_first m <= offs + i < addr_first m + tex_extent m -> tex64_ptr mem offs i = Some (f (offs + i)).
Proof.
  intros Hf Hm Hi. unfold tex64_ptr. pose proof (mo_first m Hm). pose proof (mo_fits m Hm).
  rewrite Hf by lia. by replace (_ && _) with true by lia.
Qed.

Lemma tex_unpack_ok mem f m cb dst :
  (forall a, addr_first m <= a < addr_first m + tex_extent m -> byte mem a = f a) -> (forall a, in_range 8 (f a)) ->
  meta_ok m -> (vq_compression m = true -> cb = addr_first m) -> Z.of_nat (length dst) = pic_bytes m ->
  tex_unpack mem m cb (tex_beg m) (pic_bytes m) dst = Ok (tt, unpacked f m).
Proof.
  intros Hmem Hf Hm Hcb Hlen. unfold tex_unpack, unpacked, tex_beg.
  pose proof (mo_w m Hm) as Hw. pose proof (mo_h m Hm) as Hh. pose proof (mo_fmt m Hm) as Hfmt.
  pose proof (mip_offset_nonneg m Hm). pose proof (pic_bytes_pos m Hm). pose proof (area_even m Hm) as Hev.
  unfold fmt_ok in Hfmt. unfold tex_extent in Hmem. pose proof (fun i offs => tex64_ptr_ok mem f m offs i Hmem Hm) as Hptr.
  unfold tex_extent in Hptr. pose proof (Z.div_mod (tex_w m * tex_h m) 2).
  assert (Hlen8 : PVR2_CODE_BOOK_LEN = 2048) by done.
  destruct (vq_compression m) eqn:Evq.
  - assert (Hk : pixel_sizes (tex_fmt m) = 2 /\ is_pal (tex_fmt m) = false /\ tex_fmt m <> TEX_CTRL_PIX_FMT_YUV_422).
    { destruct (tex_fmt m); try done; by destruct Hfmt. }
    destruct Hk as (Hsz & -> & Hyuv). rewrite bool_decide_false by done. rewrite Hsz.
    pose proof (mo_square m Hm ltac:(auto)) as Hsq. rewrite <- Hsq, !Z.eqb_refl. cbn [negb]. rewrite (Hcb eq_refl).
    assert (Eq : 2 ^ (w_shift m - 1) * 2 ^ (w_shift m - 1) = tex_w m * tex_w m / 4).
    { unfold tex_w. replace (2 ^ w_shift m) with (2 * 2 ^ (w_shift m - 1)) by (rewrite <- Z.pow_succ_r by lia; f_equal; lia).
      replace (2 * 2 ^ (w_shift m - 1) * (2 * 2 ^ (w_shift m - 1))) with (2 ^ (w_shift m - 1) * 2 ^ (w_shift m - 1) * 4) by lia.
      by rewrite Z.div_mul by lia. }
    apply vq_decompress_ok; [lia|..].
    + rewrite Eq. intros i Hi. split; [|done]. apply Hptr. lia.
    + intros i Hi. apply Hptr. pose proof (quarter_pos m Hm). lia.
    + rewrite Hlen. unfold pic_bytes, tex_w, tex_h. rewrite bool_decide_false, Hsz, Hsq by (intros E; by rewrite E in Hsz). lia.
  - rewrite Z.add_0_r in *. destruct (twiddled m).
    + case_bool_decide as E.
      * assert (Ep : pic_bytes m = tex_w m * tex_h m / 2) by (unfold pic_bytes; by rewrite bool_decide_true).
        apply detwiddle_4bpp_ok; [lia|lia| |done|done|by rewrite Hlen]. intros i Hi. apply Hptr. unfold tex_w, tex_h in *. lia.
      * assert (Ep : pic_bytes m = tex_w m * tex_h m * pixel_sizes (tex_fmt m)) by (unfold pic_bytes; by rewrite bool_decide_false).
        apply detwiddle_ok; [lia|lia|..|by rewrite Hlen]; [|intros i Hi; apply Hptr; unfold tex_w, tex_h in *; lia].
        destruct (tex_fmt m); done.
    + erewrite ptr_read_ok by (intros i Hi; apply Hptr; lia). cbn [known]. rewrite (bind_ok _ _ _ _ _ eq_refl).
      apply buf_write_all. rewrite length_fmap, length_seqZ. lia.
Qed.

Lemma pack_range lo hi : in_range 4 lo -> in_range 4 hi -> in_range 8 (pack lo hi).
Proof.
  intros Hlo Hhi. unfold pack. apply lor_range; [lia|by apply (in_range_weaken 4)|].
  unfold in_range in *. rewrite Z.shiftl_mul_pow2 by lia. lia.
Qed.
Lemma unpacked_length f m : meta_ok m -> Z.of_nat (length (unpacked f m)) = pic_bytes m.
Proof.
  intros Hm. pose proof (pic_bytes_pos m Hm) as Hp. pose proof (mo_fmt m Hm) as Hf. unfold unpacked, pic_bytes, tex_w, tex_h, fmt_ok in *.
  destruct (vq_compression m) eqn:Evq; [|destruct (twiddled m); [case_bool_decide as E|]].
  - rewrite <- (mo_square m Hm) by auto. unfold vq_picture. rewrite length_fmap, length_seqZ.
    rewrite bool_decide_false by (intros E; rewrite E in Hf; by destruct Hf).
    assert (pixel_sizes (tex_fmt m) = 2) as -> by (destruct (tex_fmt m); done || by destruct Hf).
    rewrite Z2Nat.id by nia. lia.
  - unfold detwiddled_4bpp. rewrite length_fmap, length_seqZ. lia.
  - unfold detwiddled. rewrite length_fmap, length_seqZ. lia.
  - rewrite length_fmap, length_seqZ. lia.
Qed.
Lemma unpacked_range f m : (forall a, in_range 8 (f a)) -> Forall (in_range 8) (unpacked f m).
Proof.
  intros Hf. unfold unpacked, vq_picture, detwiddled_4bpp, detwiddled.
  repeat case_match; apply Forall_fmap, Forall_true; intros q; cbn; try apply Hf.
  apply pack_range; by apply nibble_range.
Qed.

(** ** Colors *)
Definition colors (pal : Memory) (start size n : Z) (pix : Z -> Z) : list Z :=
  (fun q => byte pal (Z.lor start (pix (q / size)) * 4 + q mod size)) <$> seqZ 0 (n * size).

Lemma apply_palette_ok pal start size w h (pix_in : Z -> option Z) pix dst :
  0 < w -> 0 < h -> 0 < size <= 4 ->
  (forall k, 0 <= k < w * h -> pix_in k = Some (pix k) /\ 0 <= Z.lor start (pix k) < 1024) ->
  Z.of_nat (length dst) = w * h * size ->
  apply_palette pal start size w h pix_in dst = Ok (tt, colors pal start size (w * h) pix).
Proof.
  intros Hw Hh Hs Hpix Hlen. unfold apply_palette, colors.
  rewrite (fill_pixels w h size (fun k => (fun j => byte pal (Z.lor start (pix k) * 4 + j)) <$> seqZ 0 size)); [|lia|lia|lia|..|done].
  - do 2 f_equal. apply list_fmap_ext. intros i q [Eq Hq]%lookup_seqZ. pose proof (Z.mod_pos_bound q size).
    apply list_lookup_total_correct. rewrite list_lookup_fmap, lookup_seqZ_lt by lia. cbn. do 2 f_equal. lia.
  - intros k Hk. rewrite length_fmap, length_seqZ. lia.
  - intros row col s Hr Hc. destruct (Hpix (row * w + col)) as [-> Hb]; [nia|]. cbn [known]. rewrite (bind_ok _ _ _ _ _ eq_refl).
    rewrite wrap_small by (unfold in_range; lia).
    erewrite (ptr_read_ok _ (byte pal)); [done|]. intros i Hi. unfold pal_ptr, PAL_RAM_WORDS. by replace (_ && _) with true by lia.
Qed.

Definition pal_size (tp : Z) : Z := fmt_pixel_size (pal_gfx_fmt tp).
Lemma tex_size_actual_ok {St} tp (s : St) : 0 <= tp <= 3 -> tex_size_actual tp s = Ok (pal_size tp, s) /\ 0 < pal_size tp <= 4.
Proof. intros H. assert (tp = 0 \/ tp = 1 \/ tp = 2 \/ tp = 3) as [->|[->|[->| ->]]] by lia; done. Qed.

(** the picture that the host gets *)
Definition picture (f : Z -> Z) (pal : Memory) (tp : Z) (m : pvr2_tex_meta) : list Z :=
  match tex_fmt m with
  | TEX_CTRL_PIX_FMT_8_BPP_PAL =>
      colors pal (Z.shiftl (Z.land (tex_palette_start m) 0x30) 4) (pal_size tp) (tex_w m * tex_h m)
        (fun k => unpacked f m !!! Z.to_nat k)
  | TEX_CTRL_PIX_FMT_4_BPP_PAL =>
      colors pal (Z.shiftl (tex_palette_start m) 4) (pal_size tp) (tex_w m * tex_h m) (image_nibble (unpacked f m))
  | _ => unpacked f m
  end.

Lemma picture_no_palette f pal1 pal2 tp1 tp2 m : is_pal (tex_fmt m) = false -> picture f pal1 tp1 m = picture f pal2 tp2 m.
Proof. unfold picture. by destruct (tex_fmt m). Qed.

Lemma colors_length pal start size n pix : 0 <= n * size -> Z.of_nat (length (colors pal start size n pix)) = n * size.
Proof. intros. unfold colors. rewrite length_fmap, length_seqZ. lia. Qed.

Lemma picture_length f pal tp m : meta_ok m -> 0 <= tp <= 3 ->
  Z.of_nat (length (picture f pal tp m)) = tex_w m * tex_h m * fmt_pixel_size (tex_gfx_fmt tp m).
Proof.
  intros Hm Htp. pose proof (unpacked_length f m Hm) as Hl. pose proof (mo_fmt m Hm) as Hf. unfold fmt_ok in Hf.
  pose proof (w_bounds m Hm). pose proof (h_bounds m Hm). destruct (tex_size_actual_ok tp tt Htp) as [_ Hs].
  unfold pic_bytes, picture, tex_gfx_fmt in *. destruct (tex_fmt m); try done; by rewrite ?colors_length by nia.
Qed.

Lemma pal_start_4 start : 0 <= start < 64 -> u32 (Z.shiftl start 4) = Z.shiftl start 4 /\ in_range 10 (Z.shiftl start 4).
Proof.
  intros H. assert (Hr : in_range 10 (Z.shiftl start 4)) by (unfold in_range; rewrite Z.shiftl_mul_pow2; lia).
  split; [|done]. apply wrap_small. by apply (in_range_weaken 10).
Qed.
Lemma pal_start_8 start : 0 <= start < 64 -> in_range 10 (Z.shiftl (Z.land start 0x30) 4).
Proof.
  intros H. assert (Hl : in_range 6 (Z.land start 0x30)) by (apply land_range_l; [lia|done]).
  unfold in_range in *. rewrite Z.shiftl_mul_pow2; lia.
Qed.

Lemma tex_expand_4 pal tp m f :
  meta_ok m -> (forall a, in_range 8 (f a)) -> 0 <= tp <= 3 -> tex_fmt m = TEX_CTRL_PIX_FMT_4_BPP_PAL ->
  tex_expand pal tp m (pic_bytes m) (unpacked f m) = Ok (Z.of_nat (length (picture f pal tp m)), picture f pal tp m).
Proof.
  intros Hm Hf Htp E. pose proof (mo_fmt m Hm) as Hfmt. unfold fmt_ok in Hfmt. rewrite E in Hfmt. destruct Hfmt as [_ Hs].
  destruct (tex_size_actual_ok tp (unpacked f m) Htp) as [Esz Hsz]. destruct (pal_start_4 _ Hs) as [Ep Hs4].
  pose proof (w_bounds m Hm). pose proof (h_bounds m Hm). pose proof (unpacked_length f m Hm) as Hul.
  unfold pic_bytes in Hul. rewrite bool_decide_true in Hul by done. pose proof (area_even m Hm). pose proof (Z.div_mod (tex_w m * tex_h m) 2).
  unfold tex_expand, picture. rewrite bool_decide_false by by rewrite E. rewrite bool_decide_true, Ep, E by done.
  rewrite !Z.shiftl_1_l. fold (tex_w m) (tex_h m).
  rewrite (bind_ok _ _ _ _ _ Esz), (bind_ok _ _ _ _ _ eq_refl),
    (bind_ok _ _ _ tt (fresh (Z.to_nat (pal_size tp * tex_w m * tex_h m))) eq_refl).
  erewrite bind_ok; [unfold ret; do 2 f_equal; rewrite colors_length by nia; lia|].
  apply (apply_palette_ok _ _ _ _ _ _ (image_nibble (unpacked f m))); [lia..| |rewrite length_fresh; lia].
  intros k Hk. split.
  - unfold nibble_at, list_ptr, image_nibble, nibble. pose proof (digit_bound k 2 (tex_w m * tex_h m / 2)).
    replace (0 <=? k / 2) with true by lia. by rewrite (list_lookup_lookup_total_lt (unpacked f m)) by lia.
  - apply (lor_range 10); [lia|done|]. apply (in_range_weaken 4); [lia|]. apply nibble_range. intros j.
    by apply image_byte_range, unpacked_range.
Qed.
Lemma tex_expand_8 pal tp m f :
  meta_ok m -> (forall a, in_range 8 (f a)) -> 0 <= tp <= 3 -> tex_fmt m = TEX_CTRL_PIX_FMT_8_BPP_PAL ->
  tex_expand pal tp m (pic_bytes m) (unpacked f m) = Ok (Z.of_nat (length (picture f pal tp m)), picture f pal tp m).
Proof.
  intros Hm Hf Htp E. pose proof (mo_fmt m Hm) as Hfmt. unfold fmt_ok in Hfmt. rewrite E in Hfmt. destruct Hfmt as [_ Hs].
  destruct (tex_size_actual_ok tp (unpacked f m) Htp) as [Esz Hsz]. pose proof (pal_start_8 _ Hs) as Hs8.
  pose proof (w_bounds m Hm). pose proof (h_bounds m Hm). pose proof (unpacked_length f m Hm) as Hul.
  unfold pic_bytes in Hul. rewrite E in Hul. rewrite bool_decide_false in Hul by done. cbn [pixel_sizes] in Hul.
  unfold tex_expand, picture. rewrite bool_decide_true, E by done. rewrite !Z.shiftl_1_l. fold (tex_w m) (tex_h m).
  rewrite (bind_ok _ _ _ _ _ Esz), (bind_ok _ _ _ _ _ eq_refl),
    (bind_ok _ _ _ tt (fresh (Z.to_nat (pal_size tp * tex_w m * tex_h m))) eq_refl).
  erewrite bind_ok; [unfold ret; do 2 f_equal; rewrite colors_length by nia; lia|].
  apply (apply_palette_ok _ _ _ _ _ _ (fun k => unpacked f m !!! Z.to_nat k)); [lia..| |rewrite length_fresh; lia].
  intros k Hk. split.
  - unfold list_ptr. replace (0 <=? k) with true by lia. apply list_lookup_lookup_total_lt. lia.
  - apply (lor_range 10); [lia|done|]. apply (in_range_weaken 8); [lia|]. by apply image_byte_range, unpacked_range.
Qed.
Lemma tex_expand_ok pal tp m f :
  meta_ok m -> (forall a, in_range 8 (f a)) -> 0 <= tp <= 3 ->
  tex_expand pal tp m (pic_bytes m) (unpacked f m) = Ok (Z.of_nat (length (picture f pal tp m)), picture f pal tp m).
Proof.
  intros Hm Hf Htp. destruct (decide (tex_fmt m = TEX_CTRL_PIX_FMT_4_BPP_PAL)); [by apply tex_expand_4|].
  destruct (decide (tex_fmt m = TEX_CTRL_PIX_FMT_8_BPP_PAL)); [by apply tex_expand_8|].
  unfold tex_expand. rewrite !bool_decide_false by done. unfold ret. rewrite <- (unpacked_length f m Hm).
  unfold picture. by destruct (tex_fmt m).
Qed.

Lemma tex_read_ok mem pal tp m f :
  (forall a, addr_first m <= a < addr_first m + tex_extent m -> byte mem a = f a) -> (forall a, in_range 8 (f a)) ->
  meta_ok m -> 0 <= tp <= 3 ->
  tex_read mem pal tp m [] = Ok (Z.of_nat (length (picture f pal tp m)), picture f pal tp m).
Proof.
  intros Hmem Hf Hm Htp. unfold tex_read. rewrite !Z.shiftl_1_l. fold (tex_w m) (tex_h m).
  pose proof (tex_len_pos m Hm). pose proof (mo_len m Hm) as Hlen. pose proof (mo_last m Hm). pose proof (mo_fmt m Hm) as Hfmt.
  pose proof (pic_bytes_pos m Hm) as Hp.
  rewrite (wrap_small 32) by (unfold in_range, PVR2_TEX_MEM_LEN, ADDR_TEX64_LAST, ADDR_TEX64_FIRST in *; lia).
  replace (_ <=? _) with false by lia. rewrite (bind_ok _ _ _ tt [] eq_refl).
  rewrite (bind_ok _ _ _ (pic_bytes m) []).
  2: { unfold pic_bytes, fmt_ok in *. case_bool_decide; [done|]. destruct (tex_fmt m); done. }
  replace (pic_bytes m =? 0) with false by lia. rewrite (bind_ok _ _ _ tt [] eq_refl).
  rewrite (bind_ok _ _ _ tt (fresh (Z.to_nat (pic_bytes m))) eq_refl).
  destruct (tex_begin_ok m (fresh (Z.to_nat (pic_bytes m))) Hm) as (cb & Eb & Hcb). rewrite (bind_ok _ _ _ _ _ Eb). cbn [fst snd].
  rewrite (bind_ok _ _ _ tt (unpacked f m)); [by apply tex_expand_ok|].
  apply tex_unpack_ok; try done. rewrite length_fresh. lia.
Qed.
End read.
