(* ===== verification/TexCoherent.v ===== *)
(** The textures on the host are those in texture memory: the invariant of the texture cache of
    [TexCache], and its preservation by everything the program and the graphics chip do. *)
From stdpp Require Import gmap list.
From S2P Require Import Prelude Sh4State MemoryMap Memory Twiddle GfxObj TexCache TexRead.
Import memory.

Section invariant.
Context {Img : Type} {CFG : BuildConfig} {HOST : Host Img} {HL : HostLaws Img}.
Implicit Types (p : pvr2 Img) (t : pvr2_tex).

Definition stamp p (pg : Z) : Z := default 0 (page_stamps p !! pg).
Definition host_fmt p t : gfx_tex_fmt := tex_gfx_fmt (palette_tp p) (meta t).
Definition host_image p t : Img :=
  tex_image (host_fmt p t) (tex_w (meta t)) (tex_h (meta t))
    (picture (byte (tex64 p)) (pal_ram p) (palette_tp p) (meta t)).

(** the texture has an object of its size, and the renderer uses it for this slot *)
Record owns p (i : Z) t : Prop := {
  ow_state : at_idx (states (rend p)) (obj_no t) = Some true;
  ow_obj : exists o, at_idx (obj_array (rend p)) (obj_no t) = Some o /\
    dat_len o = tex_w (meta t) * tex_h (meta t) * fmt_pixel_size (host_fmt p t) /\
    on_write o = Some update_tex_from_obj_fn /\ obj_arg o = Some i;
  ow_tex : at_idx (gfx_texs (rend p)) i = Some (live_tex (obj_no t) (host_fmt p t) (tex_w (meta t)) (tex_h (meta t)))
}.

(** the decoder reads only what [addr_first] and [addr_last] enclose *)
Definition enclosed (m : pvr2_tex_meta) : bool := negb (vq_compression m && mipmap m).
(** no page of the texture is younger than its last upload *)
Definition unwritten p t : Prop :=
  forall pg, addr_first (meta t) / PVR2_TEX_PAGE_SIZE <= pg <= addr_last (meta t) / PVR2_TEX_PAGE_SIZE ->
    stamp p pg <= last_update t.
Definition uploaded p t : Prop := enclosed (meta t) = true -> gl_texs (rend p) !! obj_no t = Some (host_image p t).

Definition meta_inv (m : pvr2_tex_meta) : Prop := meta_ok m /\ (is_pal (tex_fmt m) = false -> pix_fmt m = tex_gfx_fmt 0 m).
Definition slot_inv p (i : Z) t : Prop :=
  match state t with
  | PVR2_TEX_INVALID => obj_no t = -1
  | PVR2_TEX_DIRTY => meta_inv (meta t) /\
      ((obj_no t = -1 /\ frame_stamp_last_used t = next_frame_stamp p) \/ owns p i t)
  | PVR2_TEX_READY => meta_inv (meta t) /\ owns p i t /\ last_update t <= clk_now p /\ (unwritten p t -> uploaded p t)
  end.

(** no rendered picture waits to be written to the 64-bit area *)
Definition quiet (fb : framebuffer) : Prop :=
  fb_state fb = FB_STATE_GFX -> get_tex_mem_offs (u32 (fst (fb_first fb) + ADDR_TEX32_FIRST)) <> ADDR_TEX64_FIRST.

Record tex_inv p : Prop := {
  ti_len : length (tex_cache p) = Z.to_nat PVR2_TEX_CACHE_SIZE;
  ti_bytes : bytes_ok (tex64 p);
  ti_stamps : forall pg, 0 <= stamp p pg <= clk_now p;
  ti_pal : 0 <= palette_tp p <= 3;
  ti_fb_len : length (fb_heap p) = Z.to_nat FB_HEAP_SIZE;
  ti_fb : Forall quiet (fb_heap p);
  ti_states : length (states (rend p)) = Z.to_nat GFX_OBJ_COUNT;
  ti_objs : length (obj_array (rend p)) = Z.to_nat GFX_OBJ_COUNT;
  ti_texs : length (gfx_texs (rend p)) = Z.to_nat GFX_TEX_CACHE_SIZE;
  ti_free : forall k, at_idx (states (rend p)) k = Some false -> exists o, at_idx (obj_array (rend p)) k = Some o /\ free_obj o;
  ti_slot : forall i t, at_idx (tex_cache p) i = Some t -> slot_inv p i t;
  ti_inj : forall i j t1 t2, at_idx (tex_cache p) i = Some t1 -> at_idx (tex_cache p) j = Some t2 ->
    0 <= obj_no t1 -> obj_no t1 = obj_no t2 -> i = j;
  ti_count : exists others : list Z, (length others <= 256)%nat /\
    forall k, at_idx (states (rend p)) k = Some true -> k ∈ others \/ exists i t, at_idx (tex_cache p) i = Some t /\ obj_no t = k
}.

(** ** Indices *)
Lemma at_idx_lt {A} (l : list A) i : 0 <= i < Z.of_nat (length l) -> exists a, at_idx l i = Some a.
Proof.
  intros Hi. destruct (lookup_lt_is_Some_2 l (Z.to_nat i)) as [a Ha]; [lia|]. exists a. apply at_idx_Some. split; [lia|done].
Qed.
Lemma at_idx_range {A} (l : list A) i a : at_idx l i = Some a -> 0 <= i < Z.of_nat (length l).
Proof. intros [H1 H2]%at_idx_Some. apply lookup_lt_Some in H2. lia. Qed.

Lemma owns_nonneg p i t : owns p i t -> 0 <= obj_no t.
Proof. intros H. apply ow_state, at_idx_range in H. lia. Qed.
Lemma slot_obj p i t : slot_inv p i t -> obj_no t = -1 \/ (owns p i t /\ 0 <= obj_no t).
Proof.
  unfold slot_inv. intros H. assert (obj_no t = -1 \/ owns p i t) as [|Ho] by (destruct (state t); naive_solver); [by left|].
  right. split; [done|]. by eapply owns_nonneg.
Qed.

(** ** A change of one slot and its object *)
Record gfx_frame (i k : Z) (g g' : gfx Img) : Prop := {
  gf_states : forall j, j <> k -> at_idx (states g') j = at_idx (states g) j;
  gf_objs : forall j, j <> k -> at_idx (obj_array g') j = at_idx (obj_array g) j;
  gf_texs : forall j, j <> i -> at_idx (gfx_texs g') j = at_idx (gfx_texs g) j;
  gf_gl : forall j, j <> k -> gl_texs g' !! j = gl_texs g !! j;
  gf_len : length (states g') = length (states g) /\ length (obj_array g') = length (obj_array g) /\
           length (gfx_texs g') = length (gfx_texs g)
}.
Definition with_slot p (i : Z) t (g : gfx Img) : pvr2 Img := upd_rend g (upd_cache (<[Z.to_nat i := t]> (tex_cache p)) p).

Lemma owns_frame p i k t1 g j t : owns p j t -> gfx_frame i k (rend p) g -> j <> i -> obj_no t <> k -> owns (with_slot p i t1 g) j t.
Proof.
  intros [Hs (o & Ho & Hd) Ht] [Fs Fo Ft Fg Fl] Hji Hk. split.
  - by rewrite Fs.
  - exists o. by rewrite Fo.
  - by rewrite Ft.
Qed.
Lemma slot_frame p i k t1 g j t :
  slot_inv p j t -> gfx_frame i k (rend p) g -> j <> i -> (0 <= obj_no t -> obj_no t <> k) -> slot_inv (with_slot p i t1 g) j t.
Proof.
  intros Hi Hf Hji Hk. pose proof (owns_frame p i k t1 g j t) as Hof.
  destruct (slot_obj p j t Hi) as [Hn|[Ho Hn]].
  - unfold slot_inv in *. destruct (state t); [done| |].
    + destruct Hi as [Hm [Hi|Hi]]; [by split; [|left]|]. apply owns_nonneg in Hi. lia.
    + destruct Hi as (_ & Hi & _). apply owns_nonneg in Hi. lia.
  - unfold slot_inv in *. destruct (state t); [done| |].
    + destruct Hi as [Hm [Hi|Hi]]; split; auto.
    + destruct Hi as (Hm & _ & Hu & Hp). split; [done|]. split; [by auto|]. split; [done|]. intros Hu' He.
      change (host_image (with_slot p i t1 g) t) with (host_image p t). rewrite <- (Hp Hu' He). by apply (gf_gl _ _ _ _ Hf), Hk.
Qed.

(** a slot after its turn in [pvr2_tex_cache_xmit] *)
Definition slot_done p (i : Z) : Prop :=
  forall t, at_idx (tex_cache p) i = Some t ->
    match state t with PVR2_TEX_INVALID => True | PVR2_TEX_DIRTY => False | PVR2_TEX_READY => uploaded p t end.

Lemma slot_change p i k t t' g :
  tex_inv p -> at_idx (tex_cache p) i = Some t -> obj_no t = -1 \/ obj_no t = k ->
  (forall j tj, j <> i -> at_idx (tex_cache p) j = Some tj -> 0 <= obj_no tj -> obj_no tj <> k) ->
  gfx_frame i k (rend p) g ->
  slot_inv (with_slot p i t' g) i t' -> obj_no t' = -1 \/ obj_no t' = k ->
  (at_idx (states g) k = Some true -> obj_no t' = k) ->
  (at_idx (states g) k = Some false -> exists o, at_idx (obj_array g) k = Some o /\ free_obj o) ->
  tex_inv (with_slot p i t' g) /\ (forall j, j <> i -> slot_done p j -> slot_done (with_slot p i t' g) j).
Proof.
  intros Hp Ht Hk Hother Hf Hi' Hk' Htrue Hfalse. pose proof (at_idx_range _ _ _ Ht) as Hi.
  assert (Hcache : forall j, j <> i -> at_idx (tex_cache (with_slot p i t' g)) j = at_idx (tex_cache p) j).
  { intros j Hj. cbn. apply at_idx_other; [lia|done]. }
  assert (Hnew : at_idx (tex_cache (with_slot p i t' g)) i = Some t') by exact (at_idx_same _ _ _ _ Ht).
  split.
  - destruct (gf_len _ _ _ _ Hf) as (L1 & L2 & L3). split; try apply Hp.
    + cbn. rewrite length_insert. apply Hp.
    + cbn. rewrite L1. apply Hp.
    + cbn. rewrite L2. apply Hp.
    + cbn. rewrite L3. apply Hp.
    + intros k2 Hk2. destruct (decide (k2 = k)) as [->|]; [by apply Hfalse|]. cbn in *.
      rewrite (gf_objs _ _ _ _ Hf) by done. rewrite (gf_states _ _ _ _ Hf) in Hk2 by done. by apply Hp.
    + intros j tj Hj. destruct (decide (j = i)) as [->|Hji].
      * rewrite Hnew in Hj. by injection Hj as <-.
      * rewrite Hcache in Hj by done. eapply slot_frame; [by apply Hp|done|done|]. by eapply Hother.
    + intros j1 j2 t1 t2 H1 H2 Hn He.
      destruct (decide (j1 = i)) as [->|Hj1], (decide (j2 = i)) as [->|Hj2]; [done|..];
        rewrite ?Hnew, ?Hcache in H1 by done; rewrite ?Hnew, ?Hcache in H2 by done.
      * injection H1 as <-. destruct Hk' as [|Hk']; [lia|]. exfalso. eapply (Hother j2 t2); [done..|lia|congruence].
      * injection H2 as <-. destruct Hk' as [|Hk']; [lia|]. exfalso. eapply (Hother j1 t1); [done..|congruence].
      * by eapply (ti_inj p Hp).
    + destruct (ti_count p Hp) as (others & Ho & Hc). exists others. split; [done|]. intros k2 Hk2.
      destruct (decide (k2 = k)) as [->|Hne]; [right; exists i, t'; split; [done|by apply Htrue]|].
      cbn in Hk2. rewrite (gf_states _ _ _ _ Hf) in Hk2 by done. pose proof (at_idx_range _ _ _ Hk2) as Hr.
      destruct (Hc k2 Hk2) as [|(j & tj & Hj & Ej)]; [by left|]. right. destruct (decide (j = i)) as [->|Hji].
      * rewrite Ht in Hj. injection Hj as <-. destruct Hk; lia.
      * exists j, tj. by rewrite Hcache.
  - intros j Hji Hd tj Hj. rewrite Hcache in Hj by done. specialize (Hd tj Hj). destruct (state tj) eqn:Es; [done|done|].
    intros He. change (host_image (with_slot p i t' g) tj) with (host_image p tj). rewrite <- (Hd He). apply (gf_gl _ _ _ _ Hf). eapply Hother; [done|done|].
    pose proof (ti_slot p Hp j tj Hj) as Hs. unfold slot_inv in Hs. rewrite Es in Hs. by eapply owns_nonneg, Hs.
Qed.
End invariant.

Section xmit.
Context {Img : Type} {CFG : BuildConfig} {HOST : Host Img} {HL : HostLaws Img}.
Context (sync_fb_to_tex_mem : Z -> M (pvr2 Img) unit).
Implicit Types (p : pvr2 Img) (t : pvr2_tex).

Lemma on_rend_ok {A} (m : M (gfx Img) A) p a g : m (rend p) = Ok (a, g) -> on_rend m p = Ok (a, upd_rend g p).
Proof. unfold on_rend. by intros ->. Qed.
Lemma on_rend_seq {A B C} (m : M (gfx Img) A) (n : M (gfx Img) B) (k : B -> M (pvr2 Img) C) p :
  (on_rend m ;; b <- on_rend n ;; k b) p = (b <- on_rend (m ;; n) ;; k b) p.
Proof. unfold on_rend, bind. destruct (m (rend p)) as [[a g]|]; [|done]. cbn. by destruct (n g) as [[b g']|]. Qed.
Lemma on_rend_seq3 {A B C D} (m : M (gfx Img) A) (n : M (gfx Img) B) (o : M (gfx Img) C) (k : M (pvr2 Img) D) p :
  (on_rend m ;; on_rend n ;; on_rend o ;; k) p = (on_rend (m ;; n ;; o) ;; k) p.
Proof.
  unfold on_rend, bind. destruct (m (rend p)) as [[a g]|]; [|done]. cbn. destruct (n g) as [[b g']|]; [|done]. cbn.
  by destruct (o g') as [[c g'']|].
Qed.
Lemma get_slot_ok p i t : at_idx (tex_cache p) i = Some t -> get_slot i p = Ok (t, p).
Proof. unfold get_slot. by intros ->. Qed.

(** ** The parts of a turn *)
Lemma notify_texture_quiet p a b : length (fb_heap p) = Z.to_nat FB_HEAP_SIZE -> Forall quiet (fb_heap p) ->
  pvr2_framebuffer_notify_texture sync_fb_to_tex_mem a b p = Ok (tt, p).
Proof.
  intros Hl Hq. unfold pvr2_framebuffer_notify_texture, for_below.
  edestruct (for_from_inv (fun _ s => s = p) (Z.to_nat FB_HEAP_SIZE) 0) as (s & E & ->); [done| |exact E].
  intros j s Hj ->. exists p. split; [|done]. destruct (at_idx_lt (fb_heap p) j) as [fb Hfb].
  { rewrite Hl. lia. }
  unfold fb_notify_texture. rewrite (bind_ok _ _ _ _ _ eq_refl), Hfb. cbn [known]. rewrite (bind_ok _ _ _ _ _ eq_refl).
  apply at_idx_Some in Hfb as [_ Hfb]. pose proof (Forall_lookup_1 _ _ _ _ Hq Hfb) as Hq1. unfold quiet in Hq1.
  destruct (Z.eqb_spec (fb_state fb) FB_STATE_GFX) as [E|]; [|done]. cbn [when]. specialize (Hq1 E).
  by rewrite (proj2 (Z.eqb_neq _ _) Hq1).
Qed.

Lemma younger_page_ok n page lu p : 0 <= page -> page + Z.of_nat n <= PVR2_TEX_N_PAGES ->
  exists b, younger_page n page lu (page_stamps p) = Some b /\
    (b = false -> forall pg, page <= pg < page + Z.of_nat n -> stamp p pg <= lu).
Proof.
  revert page. induction n as [|n IH]; intros page H0 Hn; cbn [younger_page]; [exists false; split; [done|lia]|].
  replace (_ && _) with true by lia. fold (stamp p page). destruct (Z.gtb_spec (stamp p page) lu); [by exists true|].
  destruct (IH (page + 1)) as (b & -> & Hb); [lia..|]. exists b. split; [done|]. intros -> pg Hpg.
  destruct (decide (pg = page)) as [->|]; [done|]. apply Hb; [done|]. lia.
Qed.

(** no page is younger: no update *)
Lemma younger_page_none n page lu p : 0 <= page -> page + Z.of_nat n <= PVR2_TEX_N_PAGES ->
  (forall pg, page <= pg < page + Z.of_nat n -> stamp p pg <= lu) -> younger_page n page lu (page_stamps p) = Some false.
Proof.
  revert page. induction n as [|n IH]; intros page H0 Hn Hs; cbn [younger_page]; [done|].
  replace (_ && _) with true by lia. fold (stamp p page). pose proof (Hs page ltac:(lia)).
  destruct (Z.gtb_spec (stamp p page) lu); [lia|]. apply IH; [lia..|]. intros pg Hpg. apply Hs. lia.
Qed.
Lemma tex_pages m a : meta_ok m -> addr_first m <= a <= addr_last m -> 0 <= a / PVR2_TEX_PAGE_SIZE < PVR2_TEX_N_PAGES.
Proof.
  intros Hm Ha. pose proof (mo_first _ Hm). pose proof (mo_last _ Hm). pose proof (mo_fits _ Hm). pose proof (tex_len_pos _ Hm).
  apply digit_bound; [done|]. change (PVR2_TEX_N_PAGES * PVR2_TEX_PAGE_SIZE) with PVR2_TEX_MEM_LEN. lia.
Qed.

Lemma need_update_ok p i t : tex_inv p -> slot_inv p i t ->
  exists b, tex_need_update t p = Ok (b, p) /\
    match state t with
    | PVR2_TEX_INVALID => b = false
    | PVR2_TEX_DIRTY => b = true
    | PVR2_TEX_READY => b = false -> unwritten p t
    end.
Proof.
  intros Hp Hs. unfold tex_need_update, slot_inv in *. destruct (state t); [by exists false|by exists true|].
  destruct Hs as [[Hm _] _]. pose proof (mo_first _ Hm). pose proof (mo_last _ Hm). pose proof (mo_fits _ Hm).
  pose proof (tex_len_pos _ Hm). rewrite (bind_ok _ _ _ _ _ eq_refl).
  pose proof (tex_pages (meta t)) as Hpg.
  pose proof (Hpg (addr_first (meta t)) Hm ltac:(lia)). pose proof (Hpg (addr_last (meta t)) Hm ltac:(lia)).
  pose proof (Z.div_le_mono (addr_first (meta t)) (addr_last (meta t)) PVR2_TEX_PAGE_SIZE ltac:(done)).
  edestruct (younger_page_ok (Z.to_nat (addr_last (meta t) / PVR2_TEX_PAGE_SIZE - addr_first (meta t) / PVR2_TEX_PAGE_SIZE + 1)))
    as (b & -> & Hb); [| |exists b; split; [done|]]; [lia..|].
  intros -> pg Hr. apply Hb; [done|]. lia.
Qed.

(** there is an object for a texture without one *)
Lemma alloc_ok p i t : tex_inv p -> at_idx (tex_cache p) i = Some t -> obj_no t = -1 ->
  exists k o, pvr2_alloc_gfx_obj (rend p) = Ok (k, set_states (<[Z.to_nat k := true]> (states (rend p))) (rend p)) /\
    at_idx (states (rend p)) k = Some false /\ at_idx (obj_array (rend p)) k = Some o /\ free_obj o.
Proof.
  intros Hp Ht Hn. destruct (first_free (states (rend p)) 0) as [k|] eqn:E.
  - exists k. destruct (first_free_Some _ _ _ E) as [Hk Hs]. rewrite Z.sub_0_r in Hs.
    assert (Hf : at_idx (states (rend p)) k = Some false) by (apply at_idx_Some; done).
    destruct (ti_free p Hp k Hf) as (o & Ho & Hfo). exists o. split; [unfold pvr2_alloc_gfx_obj; by rewrite E|done].
  - exfalso. destruct (ti_count p Hp) as (others & Hl & Hc).
    assert (Hall : forall k, 0 <= k < GFX_OBJ_COUNT -> at_idx (states (rend p)) k = Some true).
    { intros k Hk. destruct (at_idx_lt (states (rend p)) k) as [b Hb]; [rewrite (ti_states p Hp); lia|]. destruct b; [done|].
      apply at_idx_Some in Hb as [_ Hb]. destruct (first_free_is_Some _ 0 _ Hb) as [? E']. congruence. }
    assert (Hincl : (-1 :: seqZ 0 GFX_OBJ_COUNT) ⊆+ others ++ (obj_no <$> tex_cache p)).
    { apply NoDup_submseteq.
      - apply list.NoDup_cons. split; [|apply NoDup_seqZ]. rewrite elem_of_seqZ. lia.
      - intros k [->|Hk]%elem_of_cons; apply elem_of_app.
        + right. apply list_elem_of_fmap. exists t. split; [done|]. apply at_idx_Some in Ht as [_ Ht]. by eapply list_elem_of_lookup_2.
        + apply elem_of_seqZ in Hk. destruct (Hc k) as [|(j & tj & Hj & <-)]; [apply Hall; lia|by left|right].
          apply list_elem_of_fmap. exists tj. split; [done|]. apply at_idx_Some in Hj as [_ Hj]. by eapply list_elem_of_lookup_2. }
    apply submseteq_length in Hincl. cbn [length] in Hincl. rewrite length_app, length_fmap, length_seqZ, (ti_len p Hp) in Hincl.
    unfold GFX_OBJ_COUNT, PVR2_TEX_CACHE_SIZE, GFX_TEX_CACHE_SIZE in Hincl. lia.
Qed.

(** the description that the upload uses, and the picture *)
Lemma meta_now_ok p t : bytes_ok (tex64 p) -> 0 <= palette_tp p <= 3 -> meta_inv (meta t) ->
  exists m, tex_meta_now (meta t) p = Ok (m, p) /\ pix_fmt m = host_fmt p t /\
    pvr2_tex_cache_read m p =
      Ok ((picture (byte (tex64 p)) (pal_ram p) (palette_tp p) (meta t),
           tex_w (meta t) * tex_h (meta t) * fmt_pixel_size (host_fmt p t)), p).
Proof.
  intros Hp Htp [Hm Hf].
  assert (Hread : forall m, meta_ok m -> picture (byte (tex64 p)) (pal_ram p) (palette_tp p) m =
                                          picture (byte (tex64 p)) (pal_ram p) (palette_tp p) (meta t) ->
    pvr2_tex_cache_read m p = Ok ((picture (byte (tex64 p)) (pal_ram p) (palette_tp p) (meta t),
           tex_w (meta t) * tex_h (meta t) * fmt_pixel_size (host_fmt p t)), p)).
  { intros m Hmo E. unfold pvr2_tex_cache_read. rewrite (tex_read_ok _ _ _ m (byte (tex64 p))) by done.
    rewrite E. unfold host_fmt. by rewrite <- (picture_length (byte (tex64 p)) (pal_ram p)). }
  unfold tex_meta_now. destruct (is_pal (tex_fmt (meta t))) eqn:Ep.
  - exists (with_pix_fmt (host_fmt p t) (meta t)). split; [|split; [done|apply Hread; [by destruct Hm|done]]].
    rewrite (bind_ok _ _ _ _ _ eq_refl). unfold host_fmt, tex_gfx_fmt, is_pal in *.
    assert (palette_tp p = 0 \/ palette_tp p = 1 \/ palette_tp p = 2 \/ palette_tp p = 3) as H4 by lia.
    destruct (tex_fmt (meta t)); try done; by destruct H4 as [->|[->|[->| ->]]].
  - exists (meta t). split; [done|]. split; [|by apply Hread]. rewrite Hf by done. unfold host_fmt, tex_gfx_fmt, is_pal in *.
    by destruct (tex_fmt (meta t)).
Qed.

(** ** The three outcomes of a turn *)
Definition host_dat p t : list Z := picture (byte (tex64 p)) (pal_ram p) (palette_tp p) (meta t).

Lemma xmit_evict_ok p i t : at_idx (tex_cache p) i = Some t -> owns p i t ->
  exists g o, xmit_evict i t p = Ok (tt, with_slot p i (with_obj_no (-1) (with_state PVR2_TEX_INVALID t)) g) /\
    gfx_frame i (obj_no t) (rend p) g /\ at_idx (states g) (obj_no t) = Some false /\
    at_idx (obj_array g) (obj_no t) = Some o /\ free_obj o.
Proof.
  intros Hi [Hs (o & Ho & _) Ht]. destruct (drop_tex (rend p) i (obj_no t) o _ Ho Ht eq_refl) as (o' & t' & Hf & E).
  pose proof (at_idx_range _ _ _ Hs) as Hk. pose proof (at_idx_range _ _ _ Hi) as Hir.
  set (g1 := set_texs _ _) in E. set (g2 := set_states (<[Z.to_nat (obj_no t) := false]> (states (rend p))) g1).
  exists g2, o'. split.
  { unfold xmit_evict. erewrite bind_ok by done. rewrite on_rend_seq.
    erewrite bind_ok by (apply on_rend_ok, E). erewrite bind_ok.
    2: { apply on_rend_ok. unfold pvr2_free_gfx_obj. cbn [rend upd_rend g1 set_texs set_objs states]. by rewrite Hs. }
    unfold put_slot, modify, with_slot, upd_rend, upd_cache. cbn. by rewrite list_insert_insert_eq. }
  split; [|split; [exact (at_idx_same _ _ _ _ Hs)|split; [exact (at_idx_same _ _ _ _ Ho)|done]]].
  split; cbn; intros; rewrite ?at_idx_other by (done || lia); try done. rewrite !length_insert. done.
Qed.

(** the renderer after an upload *)
Lemma shown_frame p i k t g0 : at_idx (obj_array (rend p)) k = Some g0 -> at_idx (gfx_texs (rend p)) i <> None ->
  forall st fmt w h dat, length st = length (states (rend p)) ->
  (forall j, j <> k -> at_idx st j = at_idx (states (rend p)) j) ->
  gfx_frame i k (rend p) (shown i k fmt w h dat (set_states st (rend p))) /\
  at_idx (obj_array (shown i k fmt w h dat (set_states st (rend p)))) k = Some (live_obj i dat) /\
  at_idx (gfx_texs (shown i k fmt w h dat (set_states st (rend p)))) i = Some (live_tex k fmt w h) /\
  gl_texs (shown i k fmt w h dat (set_states st (rend p))) !! k = Some (tex_image fmt w h dat).
Proof.
  intros Ho Hi st fmt w h dat Hl Hst. destruct (at_idx (gfx_texs (rend p)) i) as [t0|] eqn:Et; [|done].
  pose proof (at_idx_range _ _ _ Ho). pose proof (at_idx_range _ _ _ Et). split; [|split; [exact (at_idx_same _ _ _ _ Ho)|split; [exact (at_idx_same _ _ _ _ Et)|]]].
  - split; cbn; intros.
    + by apply Hst.
    + apply at_idx_other; [lia|done].
    + apply at_idx_other; [lia|done].
    + by rewrite lookup_insert_ne.
    + by rewrite !length_insert.
  - cbn. by rewrite lookup_insert_eq.
Qed.

Lemma host_dat_length p t : tex_inv p -> meta_inv (meta t) ->
  Z.of_nat (length (host_dat p t)) = tex_w (meta t) * tex_h (meta t) * fmt_pixel_size (host_fmt p t).
Proof. intros Hp [Hm _]. apply picture_length; [done|apply Hp]. Qed.

(** the slot after an upload *)
Lemma ready_slot p i k t t' st :
  tex_inv p -> meta_inv (meta t) -> at_idx (obj_array (rend p)) k <> None -> at_idx (gfx_texs (rend p)) i <> None ->
  at_idx st k = Some true -> meta t' = meta t -> obj_no t' = k -> state t' = PVR2_TEX_READY -> last_update t' = clk_now p ->
  let g := shown i k (host_fmt p t) (tex_w (meta t)) (tex_h (meta t)) (host_dat p t) (set_states st (rend p)) in
  slot_inv (with_slot p i t' g) i t' /\ uploaded (with_slot p i t' g) t'.
Proof.
  intros Hp Hm Ho Hi Hk Hmt Hkt Hst Hlu g. destruct (at_idx (obj_array (rend p)) k) as [o|] eqn:Eo; [|done].
  destruct (at_idx (gfx_texs (rend p)) i) as [t0|] eqn:Et; [|done].
  assert (Hup : uploaded (with_slot p i t' g) t').
  { intros _. rewrite Hkt. unfold host_image, host_fmt. rewrite Hmt. cbn. by rewrite lookup_insert_eq. }
  split; [|done]. unfold slot_inv. rewrite Hst, Hmt. split; [done|]. split; [|split; [|done]].
  - split; rewrite Hkt; unfold host_fmt; rewrite ?Hmt.
    + done.
    + eexists. split; [exact (at_idx_same _ _ _ _ Eo)|]. cbn [dat_len live_obj on_write obj_arg]. split; [|done].
      rewrite (host_dat_length p t Hp Hm). done.
    + exact (at_idx_same _ _ _ _ Et).
  - rewrite Hlu. done.
Qed.

Lemma xmit_new_ok p i t : tex_inv p -> at_idx (tex_cache p) i = Some t -> obj_no t = -1 -> meta_inv (meta t) ->
  exists k, at_idx (states (rend p)) k = Some false /\ at_idx (obj_array (rend p)) k <> None /\
    xmit_new i t p = Ok (with_obj_no k t, with_slot p i (with_obj_no k t)
      (shown i k (host_fmt p t) (tex_w (meta t)) (tex_h (meta t)) (host_dat p t)
         (set_states (<[Z.to_nat k := true]> (states (rend p))) (rend p)))).
Proof.
  intros Hp Hi Hn Hm. destruct (alloc_ok p i t Hp Hi Hn) as (k & o & Ea & Hs & Ho & [Hf1 Hf2]).
  exists k. split; [done|]. split; [by rewrite Ho|]. pose proof (host_dat_length p t Hp Hm) as Hlen.
  destruct (at_idx_lt (gfx_texs (rend p)) i) as [t0 Et].
  { pose proof (at_idx_range _ _ _ Hi). rewrite (ti_len p Hp) in *. rewrite (ti_texs p Hp). done. }
  unfold xmit_new. rewrite (bind_ok _ _ _ _ _ (on_rend_ok _ _ _ _ Ea)). erewrite bind_ok by done.
  set (p1 := upd_cache _ (upd_rend _ p)).
  destruct (meta_now_ok p1 t (ti_bytes p Hp) (ti_pal p Hp) Hm) as (m & E1 & Efmt & E2).
  rewrite (bind_ok _ _ _ _ _ E1), (bind_ok _ _ _ _ _ E2). cbn [fst snd]. rewrite on_rend_seq3, !Z.shiftl_1_l, Efmt.
  erewrite bind_ok; [|apply on_rend_ok; eapply (upload_new _ i k); [exact Ho|done|done|exact Et|exact (eq_sym Hlen)|done]].
  done.
Qed.

Lemma xmit_again_ok p i t : tex_inv p -> owns p i t -> meta_inv (meta t) ->
  xmit_again t p = Ok (t, upd_rend (shown i (obj_no t) (host_fmt p t) (tex_w (meta t)) (tex_h (meta t)) (host_dat p t) (rend p)) p).
Proof.
  intros Hp [Hs (o & Ho & Hd & Hw & Ha) Ht] Hm. pose proof (host_dat_length p t Hp Hm) as Hlen. unfold xmit_again.
  destruct (meta_now_ok p t (ti_bytes p Hp) (ti_pal p Hp) Hm) as (m & E1 & Efmt & E2).
  rewrite (bind_ok _ _ _ _ _ E1), (bind_ok _ _ _ _ _ E2). cbn [fst snd].
  erewrite bind_ok; [|apply on_rend_ok; eapply upload_again; [exact Ho|exact Hd|exact Hw|exact Ha|exact Ht|exact (eq_sym Hlen)|done]].
  done.
Qed.

(** ** A turn *)
Lemma owned_by p i k t : tex_inv p -> at_idx (tex_cache p) i = Some t -> obj_no t = k -> 0 <= k ->
  forall j tj, j <> i -> at_idx (tex_cache p) j = Some tj -> 0 <= obj_no tj -> obj_no tj <> k.
Proof. intros Hp Hi Hk H0 j tj Hji Hj Hn E. apply Hji. symmetry. eapply (ti_inj p Hp i j t tj); [done..|lia|congruence]. Qed.
Lemma owned_by_none p k : tex_inv p -> at_idx (states (rend p)) k = Some false ->
  forall j tj, at_idx (tex_cache p) j = Some tj -> 0 <= obj_no tj -> obj_no tj <> k.
Proof.
  intros Hp Hf j tj Hj Hn <-. destruct (slot_obj p j tj (ti_slot p Hp j tj Hj)) as [|[Ho _]]; [lia|].
  pose proof (ow_state _ _ _ Ho). congruence.
Qed.

(** what the program sees *)
Record same_guest p p' : Prop := {
  sg_frame : next_frame_stamp p' = next_frame_stamp p; sg_now : clk_now p' = clk_now p;
  sg_mem : tex64 p' = tex64 p; sg_pal : pal_ram p' = pal_ram p; sg_tp : palette_tp p' = palette_tp p
}.
#[local] Instance same_guest_trans : Transitive same_guest.
Proof. intros p1 p2 p3 [] []. split; congruence. Qed.

(** the textures of this frame stay *)
Definition keeps p p' : Prop := forall i t, at_idx (tex_cache p) i = Some t -> pvr2_tex_valid (state t) = true ->
  frame_stamp_last_used t = next_frame_stamp p ->
  exists t', at_idx (tex_cache p') i = Some t' /\ pvr2_tex_valid (state t') = true /\
    frame_stamp_last_used t' = frame_stamp_last_used t /\ meta t' = meta t.
Lemma keeps_trans p1 p2 p3 : next_frame_stamp p2 = next_frame_stamp p1 -> keeps p1 p2 -> keeps p2 p3 -> keeps p1 p3.
Proof.
  intros E H12 H23 i t Hi Hv Hu. destruct (H12 i t Hi Hv Hu) as (t2 & Hi2 & Hv2 & Hu2 & Hm2).
  destruct (H23 i t2 Hi2 Hv2) as (t3 & Hi3 & Hv3 & Hu3 & Hm3); [congruence|]. exists t3. repeat split; congruence.
Qed.
Lemma keeps_slot p i t t' g : at_idx (tex_cache p) i = Some t ->
  (frame_stamp_last_used t = next_frame_stamp p ->
   pvr2_tex_valid (state t') = true /\ frame_stamp_last_used t' = frame_stamp_last_used t /\ meta t' = meta t) ->
  keeps p (with_slot p i t' g).
Proof.
  intros Hi H j tj Hj Hv Hu. pose proof (at_idx_range _ _ _ Hi). destruct (decide (j = i)) as [->|Hji].
  - rewrite Hi in Hj. injection Hj as <-. destruct (H Hu) as (H1 & H2 & H3). exists t'. split; [exact (at_idx_same _ _ _ _ Hi)|done].
  - exists tj. split; [cbn; rewrite at_idx_other; [done|lia|done]|done].
Qed.

(** what a turn leaves: the invariant, its own slot up to date, and the other slots as they were *)
Definition turn_ok p (i : Z) (p' : pvr2 Img) : Prop :=
  tex_inv p' /\ slot_done p' i /\ (forall j, j <> i -> slot_done p j -> slot_done p' j) /\
  same_guest p p' /\ keeps p p'.

Lemma turn_evict p i t : tex_inv p -> at_idx (tex_cache p) i = Some t -> owns p i t ->
  frame_stamp_last_used t <> next_frame_stamp p ->
  exists p', xmit_evict i t p = Ok (tt, p') /\ turn_ok p i p'.
Proof.
  intros Hp Hi Ho Hu. destruct (xmit_evict_ok p i t Hi Ho) as (g & o & E & Hf & Hs & Hg & Hfo). eexists. split; [exact E|].
  set (t' := with_obj_no (-1) _) in *. pose proof (owns_nonneg _ _ _ Ho) as Hn.
  destruct (slot_change p i (obj_no t) t t' g) as [Hinv Hd]; try done; [by right|by eapply owned_by|by left|intros; congruence|by eauto|].
  split; [done|]. split; [|split; [done|split; [done|by apply (keeps_slot p i t)]]]. intros t2 H2. cbn in H2. rewrite (at_idx_same _ _ _ _ Hi) in H2. by injection H2 as <-.
Qed.

(** the last step of an upload *)
Lemma turn_ready p i k t st t1 :
  tex_inv p -> at_idx (tex_cache p) i = Some t -> meta_inv (meta t) -> obj_no t = -1 \/ obj_no t = k ->
  (forall j tj, j <> i -> at_idx (tex_cache p) j = Some tj -> 0 <= obj_no tj -> obj_no tj <> k) ->
  at_idx (obj_array (rend p)) k <> None -> at_idx st k = Some true -> length st = length (states (rend p)) ->
  (forall j, j <> k -> at_idx st j = at_idx (states (rend p)) j) ->
  meta t1 = meta t -> obj_no t1 = k -> frame_stamp_last_used t1 = frame_stamp_last_used t ->
  turn_ok p i (with_slot p i (with_last_update (clk_now p) (with_state PVR2_TEX_READY t1))
    (shown i k (host_fmt p t) (tex_w (meta t)) (tex_h (meta t)) (host_dat p t) (set_states st (rend p)))).
Proof.
  intros Hp Hi Hm Hk Hother Ho Hst Hl Hj Hmt Hk1 Hu1. set (t2 := with_last_update _ _). set (g := shown _ _ _ _ _ _ _).
  assert (Het : at_idx (gfx_texs (rend p)) i <> None).
  { destruct (at_idx_lt (gfx_texs (rend p)) i) as [t0 ->]; [|done]. apply at_idx_range in Hi.
    rewrite (ti_len p Hp) in Hi. by rewrite (ti_texs p Hp). }
  destruct (ready_slot p i k t t2 st) as [Hs Hu]; try done.
  destruct (at_idx (obj_array (rend p)) k) as [o|] eqn:Eo; [|done].
  destruct (shown_frame p i k t o Eo Het st (host_fmt p t) (tex_w (meta t)) (tex_h (meta t)) (host_dat p t) Hl Hj) as (Hf & _).
  destruct (slot_change p i k t t2 g) as [Hinv Hd]; try done; [by right|intros Hff; change (at_idx st k = Some false) in Hff; congruence|].
  split; [done|]. split; [|split; [done|split; [done|by apply (keeps_slot p i t)]]]. intros t3 H3. cbn in H3. rewrite (at_idx_same _ _ _ _ Hi) in H3. by injection H3 as <-.
Qed.

Lemma turn_update p i t : tex_inv p -> at_idx (tex_cache p) i = Some t -> state t <> PVR2_TEX_INVALID ->
  exists p', xmit_update i t p = Ok (tt, p') /\ turn_ok p i p'.
Proof.
  intros Hp Hi Hv. pose proof (ti_slot p Hp i t Hi) as Hs.
  assert (Hm : meta_inv (meta t)) by (unfold slot_inv in Hs; by destruct (state t); destruct Hs).
  assert (Hst : obj_no t = -1 -> frame_stamp_last_used t = next_frame_stamp p).
  { intros Hn. unfold slot_inv in Hs. destruct (state t); [done| |].
    - destruct Hs as [_ [[_ ?]|Ho]]; [done|]. apply owns_nonneg in Ho. lia.
    - destruct Hs as (_ & Ho & _). apply owns_nonneg in Ho. lia. }
  unfold xmit_update. rewrite (bind_ok _ _ _ _ _ eq_refl).
  destruct (Z.eqb_spec (frame_stamp_last_used t) (next_frame_stamp p)) as [E|E]; cbn [negb].
  2: { destruct (slot_obj p i t Hs) as [|[Ho _]]; [by apply Hst in H|]. by apply turn_evict. }
  destruct (slot_obj p i t Hs) as [Hn|[Ho Hn]].
  - replace (obj_no t <? 0) with true by lia. destruct (xmit_new_ok p i t Hp Hi Hn Hm) as (k & Hk & Hok & E2).
    rewrite (bind_ok _ _ _ _ _ E2), (bind_ok _ _ _ _ _ eq_refl). eexists. split.
    { unfold put_slot, modify, with_slot, upd_cache, upd_rend. cbn. by rewrite list_insert_insert_eq. }
    pose proof (at_idx_range _ _ _ Hk). apply (turn_ready p i k t); try done; [by left|intros j tj _; by apply owned_by_none|..].
    + exact (at_idx_same _ _ _ _ Hk).
    + apply length_insert.
    + intros j Hj. apply at_idx_other; [lia|done].
  - replace (obj_no t <? 0) with false by lia. rewrite (bind_ok _ _ _ _ _ (xmit_again_ok p i t Hp Ho Hm)), (bind_ok _ _ _ _ _ eq_refl).
    eexists. split; [done|]. destruct Ho as [Hos (o & Hoo & _) _]. pose proof (turn_ready p i (obj_no t) t (states (rend p)) t) as Ht.
    apply Ht; try done; [by right|by eapply owned_by|by rewrite Hoo].
Qed.

Lemma xmit_slot_ok p i : tex_inv p -> 0 <= i < PVR2_TEX_CACHE_SIZE ->
  exists p', xmit_slot sync_fb_to_tex_mem i p = Ok (tt, p') /\ turn_ok p i p'.
Proof.
  intros Hp Hi. destruct (at_idx_lt (tex_cache p) i) as [t Ht]; [rewrite (ti_len p Hp); lia|].
  pose proof (ti_slot p Hp i t Ht) as Hs. unfold xmit_slot. rewrite (bind_ok _ _ _ _ _ (get_slot_ok p i t Ht)).
  rewrite (bind_ok _ _ p tt p) by (destruct (negb _); [by apply notify_texture_quiet; apply Hp|done]).
  destruct (need_update_ok p i t Hp Hs) as (b & Eb & Hb). rewrite (bind_ok _ _ _ _ _ Eb). destruct b; cbn [when].
  - apply turn_update; try done. intros E. rewrite E in Hb. done.
  - exists p. split; [done|]. split; [done|].
    split; [|split; [done|split; [done|by intros j tj; exists tj]]]. intros t2 H2. rewrite Ht in H2. injection H2 as <-.
    unfold slot_inv in Hs. destruct (state t); [done|done|]. apply Hs. by apply Hb.
Qed.

(** ** The whole cache *)
Lemma xmit_ok p : tex_inv p ->
  exists p', pvr2_tex_cache_xmit sync_fb_to_tex_mem p = Ok (tt, p') /\ tex_inv p' /\
    (forall i, 0 <= i < PVR2_TEX_CACHE_SIZE -> slot_done p' i) /\
    same_guest p p' /\ keeps p p'.
Proof.
  intros Hp. unfold pvr2_tex_cache_xmit, for_below.
  destruct (for_from_inv (fun n s => tex_inv s /\ (forall i, 0 <= i < n -> slot_done s i) /\
    same_guest p s /\ keeps p s) (Z.to_nat PVR2_TEX_CACHE_SIZE) 0
    (xmit_slot sync_fb_to_tex_mem) p) as (p' & E & H); [split; [done|split; [lia|split; [done|by intros j tj; exists tj]]]| |].
  - intros i s Hi (Hs & Hd & E1 & K1). destruct (xmit_slot_ok s i Hs ltac:(lia)) as (s' & E & Hs' & Hd1 & Hd2 & E2 & K2).
    exists s'. split; [done|]. split; [done|]. split; [|split; [by etrans|eapply keeps_trans; [apply E1|done|done]]]. intros j Hj.
    destruct (decide (j = i)) as [->|]; [done|]. apply Hd2; [done|]. apply Hd. lia.
  - exists p'. split; [done|]. replace (0 + Z.of_nat (Z.to_nat PVR2_TEX_CACHE_SIZE)) with PVR2_TEX_CACHE_SIZE in H by done. done.
Qed.
End xmit.

(** ** Changes of the surroundings *)
Section environment.
Context {Img : Type} {CFG : BuildConfig} {HOST : Host Img} {HL : HostLaws Img}.
Implicit Types (p : pvr2 Img) (t : pvr2_tex).

Lemma at_idx_fmap {A B} (f : A -> B) (l : list A) i : at_idx (f <$> l) i = f <$> at_idx l i.
Proof. unfold at_idx. destruct (0 <=? i); [apply list_lookup_fmap|done]. Qed.

Lemma inv_env p p' (f : pvr2_tex -> pvr2_tex) :
  tex_inv p -> rend p' = rend p -> tex_cache p' = f <$> tex_cache p -> (forall t, obj_no (f t) = obj_no t) ->
  bytes_ok (tex64 p') -> (forall pg, 0 <= stamp p' pg <= clk_now p') -> 0 <= palette_tp p' <= 3 ->
  length (fb_heap p') = length (fb_heap p) -> Forall quiet (fb_heap p') ->
  (forall i t, at_idx (tex_cache p) i = Some t -> slot_inv p i t -> slot_inv p' i (f t)) -> tex_inv p'.
Proof.
  intros Hp Er Ec Hf Hb Hs Hpal Hl Hq Hi.
  assert (Hat : forall i t', at_idx (tex_cache p') i = Some t' -> exists t, at_idx (tex_cache p) i = Some t /\ t' = f t).
  { intros i t'. rewrite Ec, at_idx_fmap. destruct (at_idx (tex_cache p) i) as [t|]; cbn; [|done]. intros [= <-]. by exists t. }
  split; rewrite ?Er; try apply Hp; try done.
  - rewrite Ec, length_fmap. apply Hp.
  - rewrite Hl. apply Hp.
  - intros i t' (t & Ht & ->)%Hat. apply Hi; [done|]. by apply Hp.
  - intros i j t1' t2' (t1 & H1 & ->)%Hat (t2 & H2 & ->)%Hat. rewrite !Hf. by apply (ti_inj p Hp).
  - destruct (ti_count p Hp) as (others & Ho & Hc). exists others. split; [done|]. intros k Hk.
    destruct (Hc k Hk) as [|(i & t & Ht & Et)]; [by left|]. right. exists i, (f t). rewrite Ec, at_idx_fmap, Ht, Hf. done.
Qed.

(** the slot does not look at what changes *)
Lemma slot_env p p' i t :
  slot_inv p i t -> rend p' = rend p -> palette_tp p' = palette_tp p -> next_frame_stamp p' = next_frame_stamp p ->
  clk_now p <= clk_now p' ->
  (state t = PVR2_TEX_READY -> enclosed (meta t) = true -> unwritten p' t -> unwritten p t /\ host_image p' t = host_image p t) ->
  (state t = PVR2_TEX_READY -> unwritten p' t -> unwritten p t) ->
  slot_inv p' i t.
Proof.
  intros Hs Er Ep En Ec Hi Hu. assert (Ho : owns p i t -> owns p' i t).
  { intros [H1 H2 H3]. split; unfold host_fmt in *; by rewrite Er, ?Ep. }
  unfold slot_inv in *. destruct (state t) eqn:E; [done| |].
  - destruct Hs as [Hm [Hs|Hs]]; split; [done| |done|]; [left; by rewrite En|right; by apply Ho].
  - destruct Hs as (Hm & Hs & Hl & Hup). split; [done|]. split; [by apply Ho|]. split; [lia|]. intros Hu' He.
    destruct (Hi eq_refl He Hu') as [Hu2 ->]. rewrite Er. by apply Hup.
Qed.

Lemma time_inv p time : tex_inv p -> clk_now p <= time -> tex_inv (upd_now time p).
Proof.
  intros Hp Ht. apply (inv_env p _ id); try done; try apply Hp.
  - by rewrite list_fmap_id.
  - intros pg. pose proof (ti_stamps p Hp pg). cbn. unfold stamp in *. cbn. lia.
  - intros i t _ Hs. by eapply slot_env.
Qed.

(** ** Writes to texture memory *)
Lemma bytes_store n a v m : bytes_ok m -> bytes_ok (store n a v m).
Proof.
  revert a v m. induction n as [|n IH]; intros a v m Hm; cbn [store]; [done|]. apply IH. intros b. rewrite byte_insert.
  destruct (a =? b); [by apply wrap_range|done].
Qed.
Lemma stamp_pages_ok n page time stamps : 0 <= page -> page + Z.of_nat n <= PVR2_TEX_N_PAGES ->
  exists stamps', stamp_pages n page time stamps = Ok stamps' /\
    forall pg, default 0 (stamps' !! pg) = if (page <=? pg) && (pg <? page + Z.of_nat n) then time else default 0 (stamps !! pg).
Proof.
  revert page stamps. induction n as [|n IH]; intros page stamps H0 Hn; cbn [stamp_pages].
  { exists stamps. split; [done|]. intros pg. by destruct (Z.leb_spec page pg), (Z.ltb_spec pg (page + Z.of_nat 0)); [lia|..]. }
  replace (_ && _) with true by lia. destruct (IH (page + 1) (<[page := time]> stamps)) as (st & E & Hst); [lia..|].
  exists st. split; [done|]. intros pg. rewrite Hst. destruct (decide (pg = page)) as [->|Hne].
  - rewrite lookup_insert_eq. destruct (Z.leb_spec (page + 1) page), (Z.leb_spec page page),
      (Z.ltb_spec page (page + Z.of_nat (S n))); done || lia.
  - rewrite lookup_insert_ne by done. destruct (Z.leb_spec (page + 1) pg), (Z.leb_spec page pg),
      (Z.ltb_spec pg (page + 1 + Z.of_nat n)), (Z.ltb_spec pg (page + Z.of_nat (S n))); done || lia.
Qed.

Lemma fb_notify_quiet p addr n : Forall quiet (fb_heap p) -> exists fbs,
  pvr2_framebuffer_notify_write addr n p = Ok (tt, upd_fb fbs p) /\ length fbs = length (fb_heap p) /\ Forall quiet fbs.
Proof.
  intros Hq. eexists. split; [done|]. split; [apply length_fmap|]. apply Forall_fmap.
  eapply list.Forall_impl; [exact Hq|]. intros fb Hfb. cbn. destruct (_ && _); [by intros E|done].
Qed.

Lemma notify_write_ok p addr n : ADDR_TEX64_FIRST <= addr -> 0 < n -> addr + n - 1 <= ADDR_TEX64_LAST ->
  exists stamps, pvr2_tex_cache_notify_write addr n p = Ok (tt, upd_stamps stamps p) /\
    forall pg, default 0 (stamps !! pg) =
      if ((addr - ADDR_TEX64_FIRST) / PVR2_TEX_PAGE_SIZE <=? pg) && (pg <=? (addr - ADDR_TEX64_FIRST + n - 1) / PVR2_TEX_PAGE_SIZE)
      then clk_now p else stamp p pg.
Proof.
  unfold ADDR_TEX64_FIRST, ADDR_TEX64_LAST. intros H1 Hn H2. unfold pvr2_tex_cache_notify_write, ADDR_TEX64_FIRST, ADDR_TEX64_LAST.
  assert (E32 : forall x, 0 <= x < 0x8000000 -> u32 x = x) by (intros; apply wrap_small; unfold in_range; lia).
  rewrite (E32 (addr + (n - 1))), (E32 (addr - 0x04000000)) by lia. rewrite (E32 (addr - 0x04000000 + (n - 1))) by lia.
  replace (_ || _) with false by lia. rewrite andb_false_r. rewrite (bind_ok _ _ p tt p eq_refl).
  set (a := addr - 0x04000000). replace (a + (n - 1)) with (a + n - 1) by lia.
  assert (Hpg : forall x, 0 <= x < 0x800000 -> 0 <= x / PVR2_TEX_PAGE_SIZE < PVR2_TEX_N_PAGES) by (intros; by apply digit_bound).
  pose proof (Hpg a ltac:(lia)). pose proof (Hpg (a + n - 1) ltac:(lia)).
  pose proof (Z.div_le_mono a (a + n - 1) PVR2_TEX_PAGE_SIZE ltac:(done) ltac:(lia)).
  destruct (stamp_pages_ok (Z.to_nat ((a + n - 1) / PVR2_TEX_PAGE_SIZE - a / PVR2_TEX_PAGE_SIZE + 1)) (a / PVR2_TEX_PAGE_SIZE)
    (clk_now p) (page_stamps p)) as (stamps & -> & Hst); [lia..|]. exists stamps. split; [done|]. intros pg. rewrite Hst.
  rewrite Z2Nat.id by lia. fold (stamp p pg).
  destruct (Z.leb_spec (a / PVR2_TEX_PAGE_SIZE) pg), (Z.leb_spec pg ((a + n - 1) / PVR2_TEX_PAGE_SIZE)),
    (Z.ltb_spec pg (a / PVR2_TEX_PAGE_SIZE + ((a + n - 1) / PVR2_TEX_PAGE_SIZE - a / PVR2_TEX_PAGE_SIZE + 1))); done || lia.
Qed.
End environment.
