(* ===== verification/TexSteps.v ===== *)
(** What the program does with textures: every operation of [TexCache] keeps the invariant of
    [TexCoherent], from the reset of the device on, and therefore the pictures on the host are those
    in texture memory whenever a frame is drawn. *)
From stdpp Require Import gmap list.
From S2P Require Import Prelude Sh4State MemoryMap Memory Twiddle GfxObj TexCache TexRead TexCoherent.
Import memory.

Section operations.
Context {Img : Type} {CFG : BuildConfig} {HOST : Host Img} {HL : HostLaws Img}.
Implicit Types (p : pvr2 Img) (t : pvr2_tex).

(** ** Writes to texture memory *)

(** the decoder depends only on the bytes of the texture *)
Lemma picture_ext mem1 mem2 pal tp m :
  meta_ok m -> 0 <= tp <= 3 -> bytes_ok mem1 -> bytes_ok mem2 ->
  (forall a, addr_first m <= a < addr_first m + tex_extent m -> byte mem1 a = byte mem2 a) ->
  picture (byte mem1) pal tp m = picture (byte mem2) pal tp m.
Proof.
  intros Hm Htp H1 H2 He. pose proof (tex_read_ok mem1 pal tp m (byte mem1)) as E1.
  pose proof (tex_read_ok mem1 pal tp m (byte mem2)) as E2. rewrite E1 in E2 by done.
  assert (Ok (Z.of_nat (length (picture (byte mem1) pal tp m)), picture (byte mem1) pal tp m) =
          Ok (Z.of_nat (length (picture (byte mem2) pal tp m)), picture (byte mem2) pal tp m)) as [= _ E]; [|done].
  by apply E2.
Qed.

Lemma elem_page k a x : 0 <= k <= 9 -> elem_addr k a <= x < elem_addr k a + 2 ^ k ->
  x / PVR2_TEX_PAGE_SIZE = a / PVR2_TEX_PAGE_SIZE.
Proof.
  intros Hk. unfold elem_addr. rewrite Z.shiftl_mul_pow2, Z.shiftr_div_pow2 by lia. intros Hx.
  assert (E : x / 2 ^ k = a / 2 ^ k).
  { replace x with (x - a / 2 ^ k * 2 ^ k + a / 2 ^ k * 2 ^ k) by lia.
    rewrite Z.div_add, (Z.div_small (_ - _)) by lia. lia. }
  change PVR2_TEX_PAGE_SIZE with (2 ^ 9). replace (2 ^ 9) with (2 ^ k * 2 ^ (9 - k)).
  - rewrite <- !Z.div_div, E by lia. done.
  - rewrite <- Z.pow_add_r by lia. f_equal. lia.
Qed.

(** the clock has advanced since the last upload *)
Definition after_uploads p : Prop := Forall (fun t => state t = PVR2_TEX_READY -> last_update t < clk_now p) (tex_cache p).

(** a texture that is ready still counts as up to date after the write only when the write is not in its pages *)
Lemma written_slot p p' a n t :
  last_update t < clk_now p -> 0 < n ->
  (forall pg, stamp p' pg = if (a / PVR2_TEX_PAGE_SIZE <=? pg) && (pg <=? (a + n - 1) / PVR2_TEX_PAGE_SIZE) then clk_now p else stamp p pg) ->
  unwritten p' t ->
  unwritten p t /\ ~ (addr_first (meta t) / PVR2_TEX_PAGE_SIZE <= a / PVR2_TEX_PAGE_SIZE <= addr_last (meta t) / PVR2_TEX_PAGE_SIZE).
Proof.
  intros Hlu Hn Hst Hu. pose proof (Z.div_le_mono a (a + n - 1) PVR2_TEX_PAGE_SIZE ltac:(done) ltac:(lia)). split.
  - intros pg Hpg. specialize (Hu pg Hpg). rewrite Hst in Hu. destruct (_ && _); lia.
  - intros Hr. specialize (Hu _ Hr). rewrite Hst in Hu. destruct (Z.leb_spec (a / PVR2_TEX_PAGE_SIZE) (a / PVR2_TEX_PAGE_SIZE)),
      (Z.leb_spec (a / PVR2_TEX_PAGE_SIZE) ((a + n - 1) / PVR2_TEX_PAGE_SIZE)); cbn [andb] in Hu; lia.
Qed.
Lemma enclosed_extent m : enclosed m = true -> tex_extent m = tex_len m.
Proof. unfold enclosed, tex_extent, tex_len, mip_offset. by destruct (vq_compression _), (mipmap _). Qed.

(** the bytes of an element are in the page of its address, so a texture elsewhere keeps its picture *)
Lemma written_picture p k a val t : tex_inv p -> 0 <= k <= 3 -> meta_ok (meta t) -> enclosed (meta t) = true ->
  ~ (addr_first (meta t) / PVR2_TEX_PAGE_SIZE <= a / PVR2_TEX_PAGE_SIZE <= addr_last (meta t) / PVR2_TEX_PAGE_SIZE) ->
  picture (byte (store (Z.to_nat (2 ^ k)) (elem_addr k a) val (tex64 p))) (pal_ram p) (palette_tp p) (meta t) =
  picture (byte (tex64 p)) (pal_ram p) (palette_tp p) (meta t).
Proof.
  intros Hp Hk Hm He Hu. pose proof (pow2_pos k ltac:(lia)). pose proof (mo_last _ Hm). pose proof (enclosed_extent _ He).
  apply picture_ext; [done|apply Hp|apply bytes_store, Hp|apply Hp|].
  intros x Hx. apply byte_store_outside. rewrite Z2Nat.id by lia.
  destruct (decide (elem_addr k a <= x < elem_addr k a + 2 ^ k)) as [Hin|]; [|lia]. exfalso. apply Hu.
  rewrite <- (elem_page k a x) by lia. split; apply Z.div_le_mono; done || lia.
Qed.

Lemma area64_in_bounds k addr : 0 <= k <= 3 -> area64_out_of_bounds k addr = false ->
  ADDR_TEX64_FIRST <= addr /\ 0 < 2 ^ k /\ addr + 2 ^ k - 1 <= ADDR_TEX64_LAST.
Proof.
  intros Hk Hb. assert (1 <= 2 ^ k <= 8) as Hp by (split; [apply (Z.pow_le_mono_r 2 0)|apply (Z.pow_le_mono_r 2 k 3)]; lia).
  unfold area64_out_of_bounds in Hb. apply orb_false_iff in Hb as [Hb _]. apply orb_false_iff in Hb as [Hb H3].
  apply orb_false_iff in Hb as [H1 H2]. revert H1 H2 H3. unfold ADDR_TEX64_FIRST, ADDR_TEX64_LAST. generalize dependent (2 ^ k).
  intros n Hn H1 H2 H3. rewrite (wrap_small 32) in H3 by (unfold in_range; lia). lia.
Qed.

Lemma area64_write_ok p k addr val :
  tex_inv p -> 0 <= k <= 3 -> area64_out_of_bounds k addr = false -> after_uploads p ->
  exists p', area64_write k addr val p = Ok (tt, p') /\ tex_inv p' /\ tex_cache p' = tex_cache p.
Proof.
  intros Hp Hk Hb Hau. destruct (area64_in_bounds k addr Hk Hb) as (Ha & Hpow & Hz).
  unfold area64_write. rewrite Hb. cbn [when]. rewrite (bind_ok _ _ p tt p eq_refl).
  destruct (fb_notify_quiet p addr (2 ^ k) (ti_fb p Hp)) as (fbs & E1 & Hl & Hq). rewrite (bind_ok _ _ _ _ _ E1).
  destruct (notify_write_ok (upd_fb fbs p) addr (2 ^ k)) as (stamps & E2 & Hst); [lia..|]. rewrite (bind_ok _ _ _ _ _ E2).
  eexists. split; [done|]. split; [|done]. set (a := addr - ADDR_TEX64_FIRST) in *. set (p' := upd_tex64 _ _).
  change (forall pg, stamp p' pg = if (a / PVR2_TEX_PAGE_SIZE <=? pg) && (pg <=? (a + 2 ^ k - 1) / PVR2_TEX_PAGE_SIZE)
                                   then clk_now p else stamp p pg) in Hst.
  apply (inv_env p p' id); try done; [by rewrite list_fmap_id|apply bytes_store, Hp| |apply Hp|].
  - intros pg. rewrite Hst. pose proof (ti_stamps p Hp pg). change (clk_now p') with (clk_now p). destruct (_ && _); lia.
  - intros i t Hi Hs. change (id t) with t. apply at_idx_Some in Hi as [_ Hi]. pose proof (Forall_lookup_1 _ _ _ _ Hau Hi) as Hlu.
    cbn beta in Hlu. apply (slot_env p); try done.
    + intros Er He Hu. destruct (written_slot p p' a (2 ^ k) t (Hlu Er) Hpow Hst Hu) as [Hu1 Hu2]. split; [done|].
      assert (Hm : meta_ok (meta t)) by (unfold slot_inv in Hs; rewrite Er in Hs; apply Hs).
      unfold host_image. f_equal. exact (written_picture p k a val t Hp Hk Hm He Hu2).
    + intros Er Hu. by apply (written_slot p p' a (2 ^ k) t (Hlu Er) Hpow Hst).
Qed.

(** ** Writes to the palette *)
Lemma palette_inv p tp pal : tex_inv p -> 0 <= tp <= 3 ->
  tp = palette_tp p \/ Forall (fun t => is_pal (tex_fmt (meta t)) = true -> obj_no t = -1) (tex_cache p) ->
  exists p', pvr2_tex_cache_notify_palette_tp_change (upd_palette tp pal p) = Ok (tt, p') /\ tex_inv p'.
Proof.
  intros Hp Htp Hg. eexists. split; [done|]. set (p' := upd_cache _ _).
  apply (inv_env p p' (fun t => if bool_decide (state t = PVR2_TEX_READY) && is_pal (tex_fmt (meta t))
    then with_state PVR2_TEX_DIRTY t else t)); try done; try apply Hp.
  - intros t. by destruct (_ && _).
  - intros i t Hi Hs.
    assert (Hfmt : obj_no t = -1 \/ host_fmt p' t = host_fmt p t).
    { destruct Hg as [->|Hg]; [by right|]. apply at_idx_Some in Hi as [_ Hi]. pose proof (Forall_lookup_1 _ _ _ _ Hg Hi) as Hpal.
      cbn beta in Hpal. unfold host_fmt, tex_gfx_fmt, is_pal in *. destruct (tex_fmt (meta t)); auto. }
    assert (Ho : owns p i t -> owns p' i t).
    { intros Ho. destruct Hfmt as [Hn|Hf]; [pose proof (owns_nonneg _ _ _ Ho); lia|]. destruct Ho as [H1 H2 H3].
      split; rewrite ?Hf; done. }
    unfold slot_inv in Hs. case_bool_decide as Er; cbn [andb].
    + rewrite Er in Hs. destruct Hs as (Hm & Hown & Hlu & Hu). destruct (is_pal (tex_fmt (meta t))) eqn:Ep.
      * split; [done|right]. destruct (Ho Hown) as [H1 H2 H3]. by split.
      * unfold slot_inv. rewrite Er. split; [done|]. split; [by apply Ho|]. split; [done|]. intros Huw He.
        destruct Hfmt as [Hn|Hf]; [pose proof (owns_nonneg _ _ _ Hown); lia|].
        unfold host_image. rewrite Hf. cbn [p' tex64 pal_ram palette_tp upd_cache upd_palette].
        rewrite (picture_no_palette _ pal (pal_ram p) tp (palette_tp p)) by done. by apply Hu.
    + unfold slot_inv. destruct (state t); [done| |done]. destruct Hs as [Hm [Hs|Hs]]; split; auto.
Qed.
(** ** Requests *)

(** the description of a new texture *)
Definition asked_vq (a : tex_args) : bool := a_vq_compression a && (a_w_shift a =? a_h_shift a).
Definition asked (fmt : gfx_tex_fmt) (last : Z) (a : tex_args) : pvr2_tex_meta :=
  {| addr_first := a_addr a; addr_last := last; w_shift := a_w_shift a; h_shift := a_h_shift a; pix_fmt := fmt;
     tex_fmt := a_tex_fmt a; tex_palette_start := a_pal_addr a; twiddled := a_twiddled a; stride_sel := a_stride_sel a;
     vq_compression := asked_vq a; mipmap := a_mipmap a |}.
Definition asked_last (a : tex_args) : Z := a_addr a + tex_len (asked GFX_TEX_FMT_ARGB_1555 0 a) - 1.
Definition asked_meta (tp : Z) (a : tex_args) : pvr2_tex_meta :=
  asked (tex_gfx_fmt tp (asked GFX_TEX_FMT_ARGB_1555 0 a)) (asked_last a) a.
Definition args_ok (a : tex_args) : Prop := meta_ok (asked_meta 0 a).

Lemma asked_ok tp a : args_ok a -> meta_inv (asked_meta tp a).
Proof.
  intros Ha. split; [by destruct Ha|]. cbn. unfold tex_gfx_fmt. cbn. by destruct (a_tex_fmt a).
Qed.

Lemma tex_addr_last_ok p a : args_ok a -> tex_addr_last a (asked_vq a) p = Ok (asked_last a, p).
Proof.
  intros Ha. set (m := asked_meta 0 a). pose proof (tex_len_pos m Ha) as Hlen. pose proof (mo_first m Ha) as H0.
  pose proof (mo_fits m Ha) as Hfit. pose proof (mo_fmt m Ha) as Hf. pose proof (mip_offset_nonneg m Ha) as Hmn.
  pose proof (pic_bytes_pos m Ha) as Hpp. unfold tex_addr_last. rewrite !Z.shiftl_1_l.
  assert (E32 : forall x, 0 <= x <= PVR2_TEX_MEM_LEN -> u32 x = x)
    by (unfold PVR2_TEX_MEM_LEN, ADDR_TEX64_LAST, ADDR_TEX64_FIRST; intros x Hx; apply wrap_small; unfold in_range; lia).
  change (addr_first m) with (a_addr a) in *. change (asked_last a) with (a_addr a + tex_len m - 1).
  unfold tex_len, tex_extent in *. change (vq_compression m) with (asked_vq a) in *. destruct (asked_vq a) eqn:Evq; unfold ret.
  { change (2 ^ a_w_shift a) with (tex_w m). do 2 f_equal. rewrite E32 by lia. lia. }
  set (last := if bool_decide _ then _ else _). assert (Hlast : last = a_addr a + pic_bytes m - 1).
  { unfold last, pic_bytes in *. change (tex_fmt m) with (a_tex_fmt a) in *. change (2 ^ a_w_shift a) with (tex_w m).
    change (2 ^ a_h_shift a) with (tex_h m). destruct (bool_decide _); rewrite E32 by lia; lia. }
  clearbody last. subst last. destruct (a_mipmap a) eqn:Emip; cbn [negb].
  2: { unfold mip_offset. change (mipmap m) with (a_mipmap a). rewrite Emip. do 2 f_equal. lia. }
  pose proof (mo_square m Ha (or_intror Emip)) as Hsq. change (a_w_shift a = a_h_shift a) in Hsq. rewrite Hsq, Z.eqb_refl. cbn [negb].
  rewrite <- Hsq. pose proof (mip_offset_ok m Ha) as Hmip. change (vq_compression m) with (asked_vq a) in Hmip. rewrite Evq in Hmip.
  specialize (Hmip _ Emip eq_refl). change (w_shift m) with (a_w_shift a) in Hmip. unfold fmt_ok, is_pal in *.
  change (tex_fmt m) with (a_tex_fmt a) in *.
  assert (Elast : u32 (a_addr a + pic_bytes m - 1 + mip_offset m) = a_addr a + (pic_bytes m + mip_offset m) - 1)
    by (rewrite E32 by lia; lia).
  destruct (a_tex_fmt a) eqn:Ef; try done; unfold bind, ret, known;
    (change (at_idx mipmap_byte_offset_norm (a_w_shift a) = Some (mip_offset m)) in Hmip ||
     change (at_idx mipmap_byte_offset_palette (a_w_shift a) = Some (mip_offset m)) in Hmip); rewrite Hmip, <- Elast; done.
Qed.

Lemma upd_same p i t : at_idx (tex_cache p) i = Some t -> upd_cache (<[Z.to_nat i := t]> (tex_cache p)) p = p.
Proof. intros [_ H]%at_idx_Some. rewrite list_insert_id by done. by destruct p. Qed.
Lemma gfx_frame_refl i k (g : gfx Img) : gfx_frame i k g g.
Proof. by split. Qed.

(** the slot that a request gets, and the textures of the others *)
Definition gives p (a : tex_args) (i : Z) (p' : pvr2 Img) : Prop :=
  exists t, at_idx (tex_cache p') i = Some t /\ pvr2_tex_valid (state t) = true /\ frame_stamp_last_used t = next_frame_stamp p /\
    addr_first (meta t) = a_addr a /\ w_shift (meta t) = a_w_shift a /\ h_shift (meta t) = a_h_shift a /\ tex_fmt (meta t) = a_tex_fmt a.

Lemma find_tex_Some a l n i : find_tex a l n = Some i -> n <= i /\ exists t, l !! Z.to_nat (i - n) = Some t /\ tex_matches a t = true.
Proof.
  revert n. induction l as [|t l IH]; intros n H; cbn in H; [done|]. destruct (tex_matches a t) eqn:E.
  - injection H as <-. split; [lia|]. exists t. by rewrite Z.sub_diag.
  - apply IH in H as (Hn & t' & Ht' & Em). split; [lia|]. exists t'. split; [|done].
    by replace (Z.to_nat (i - n)) with (S (Z.to_nat (i - (n + 1)))) by lia.
Qed.
Lemma tex_matches_ok a t : tex_matches a t = true -> pvr2_tex_valid (state t) = true /\
  addr_first (meta t) = a_addr a /\ w_shift (meta t) = a_w_shift a /\ h_shift (meta t) = a_h_shift a /\ tex_fmt (meta t) = a_tex_fmt a /\
  vq_compression (meta t) = a_vq_compression a.
Proof. unfold tex_matches. rewrite !andb_true_iff, bool_decide_eq_true, !Z.eqb_eq, !Bool.eqb_true_iff. naive_solver. Qed.

Lemma used_inv p i t : tex_inv p -> at_idx (tex_cache p) i = Some t -> pvr2_tex_valid (state t) = true ->
  tex_inv (with_slot p i (with_used (next_frame_stamp p) t) (rend p)).
Proof.
  intros Hp Hi Hv. pose proof (ti_slot p Hp i t Hi) as Hs.
  destruct (slot_change p i (obj_no t) t (with_used (next_frame_stamp p) t) (rend p)) as [H _]; try done.
  - by right.
  - intros j tj Hji Hj Hn E. apply Hji. symmetry. by eapply (ti_inj p Hp i j t tj); [..|lia|].
  - unfold slot_inv in *. cbn [state with_used meta obj_no frame_stamp_last_used last_update].
    assert (Ho : owns p i t -> owns (with_slot p i (with_used (next_frame_stamp p) t) (rend p)) i (with_used (next_frame_stamp p) t))
      by (intros [H1 H2 H3]; by split).
    destruct (state t); [done| |].
    + destruct Hs as [Hm [[Hs _]|Hs]]; split; auto.
    + destruct Hs as (Hm & Hs & Hl & Hu). split; [done|]. split; [by apply Ho|]. split; [done|]. intros Huw He. by apply Hu.
  - by right.
  - intros Hf. by apply (ti_free p Hp).
Qed.

Lemma find_ok p a : tex_inv p ->
  pvr2_tex_cache_find a p = Ok (None, p) \/
  exists i p', pvr2_tex_cache_find a p = Ok (Some i, p') /\ tex_inv p' /\ gives p a i p'.
Proof.
  intros Hp. unfold pvr2_tex_cache_find. rewrite (bind_ok _ _ _ _ _ eq_refl).
  destruct (find_tex a (tex_cache p) 0) as [i|] eqn:E; [right|by left].
  apply find_tex_Some in E as (Hi & t & Ht & Em). rewrite Z.sub_0_r in Ht.
  assert (Hat : at_idx (tex_cache p) i = Some t) by by apply at_idx_Some. destruct (tex_matches_ok a t Em) as (Hv & Hma).
  exists i, (with_slot p i (with_used (next_frame_stamp p) t) (rend p)). split; [|split; [by apply used_inv|]].
  - by rewrite (bind_ok _ _ _ _ _ (get_slot_ok p i t Hat)).
  - eexists. split; [exact (at_idx_same _ _ _ _ Hat)|]. cbn. naive_solver.
Qed.
(** ** New textures *)
Lemma pick_slot_inl c l n old i : pick_slot c l n old = inl i ->
  n <= i /\ exists t, l !! Z.to_nat (i - n) = Some t /\ state t = PVR2_TEX_INVALID.
Proof.
  revert n old. induction l as [|t l IH]; intros n old H; cbn [pick_slot] in H; [done|].
  destruct (pvr2_tex_valid (state t)) eqn:E; cbn [negb] in H.
  - apply IH in H as (Hn & t' & Ht' & Em). split; [lia|]. exists t'. split; [|done].
    by replace (Z.to_nat (i - n)) with (S (Z.to_nat (i - (n + 1)))) by lia.
  - injection H as <-. split; [lia|]. exists t. rewrite Z.sub_diag. split; [done|]. by destruct (state t).
Qed.
Lemma pick_slot_inr c l n old i : pick_slot c l n old = inr (Some i) ->
  fst <$> old = Some i \/ (n <= i /\ exists t, l !! Z.to_nat (i - n) = Some t /\ frame_stamp_last_used t < c).
Proof.
  revert n old. induction l as [|t l IH]; intros n old H; cbn [pick_slot] in H; [left; by injection H|].
  destruct (pvr2_tex_valid (state t)) eqn:E; cbn [negb] in H; [|done].
  apply IH in H as [H|(Hn & t' & Ht' & Em)].
  - destruct (Z.ltb_spec (frame_stamp_last_used t) c); cbn [andb] in H; [|by left].
    destruct (match old with None => true | Some _ => _ end); [|by left]. injection H as <-. right. split; [lia|]. exists t.
    by rewrite Z.sub_diag.
  - right. split; [lia|]. exists t'. split; [|done]. by replace (Z.to_nat (i - n)) with (S (Z.to_nat (i - (n + 1)))) by lia.
Qed.

(** the slot that is taken gives its object back *)
Definition give_back (obj : Z) : M (pvr2 Img) unit :=
  when (obj >=? 0) (on_rend (rend_exec_il (GFX_IL_FREE_OBJ obj)) ;; on_rend (pvr2_free_gfx_obj obj)).

Definition fresh_slot p (a : tex_args) : pvr2_tex :=
  {| last_update := 0; meta := asked_meta (palette_tp p) a; obj_no := -1; frame_stamp_last_used := next_frame_stamp p;
     state := PVR2_TEX_DIRTY |}.

Lemma fresh_inv p i k t a g :
  tex_inv p -> args_ok a -> at_idx (tex_cache p) i = Some t -> obj_no t = -1 \/ obj_no t = k ->
  (forall j tj, j <> i -> at_idx (tex_cache p) j = Some tj -> 0 <= obj_no tj -> obj_no tj <> k) ->
  gfx_frame i k (rend p) g -> at_idx (states g) k <> Some true ->
  (at_idx (states g) k = Some false -> exists o, at_idx (obj_array g) k = Some o /\ free_obj o) ->
  tex_inv (with_slot p i (fresh_slot p a) g).
Proof.
  intros Hp Ha Hi Hk Ho Hf Hs1 Hs2. destruct (slot_change p i k t (fresh_slot p a) g) as [H _]; try done; [|by left].
  split; [by apply asked_ok|]. by left.
Qed.

Lemma give_back_ok p i t a : tex_inv p -> args_ok a -> at_idx (tex_cache p) i = Some t ->
  exists g, give_back (obj_no t) p = Ok (tt, upd_rend g p) /\ tex_inv (with_slot p i (fresh_slot p a) g).
Proof.
  intros Hp Ha Hi. unfold give_back. destruct (slot_obj p i t (ti_slot p Hp i t Hi)) as [Hn|[Ho Hn]].
  - exists (rend p). rewrite Hn. split; [by destruct p|]. apply (fresh_inv p i (-1) t); try done; [by left|]. intros. lia.
  - replace (obj_no t >=? 0) with true by lia. cbn [when]. destruct (ow_obj _ _ _ Ho) as (o & Eo & _).
    pose proof (ow_state _ _ _ Ho) as Hs. destruct (free_obj_ok (rend p) (obj_no t) o Eo) as (o' & Hf & E).
    pose proof (at_idx_range _ _ _ Hs) as Hr.
    exists (set_states (<[Z.to_nat (obj_no t) := false]> (states (rend p))) (set_objs (<[Z.to_nat (obj_no t) := o']> (obj_array (rend p))) (rend p))).
    split.
    { rewrite (bind_ok _ _ _ _ _ (on_rend_ok _ _ _ _ E)). unfold on_rend, pvr2_free_gfx_obj. cbn [rend upd_rend states set_objs].
      by rewrite Hs. }
    apply (fresh_inv p i (obj_no t) t); try done; [by right|by eapply owned_by|..].
    + split; cbn; intros; rewrite ?at_idx_other by (done || lia); try done. by rewrite !length_insert.
    + cbn. rewrite (at_idx_same _ _ _ _ Hs). done.
    + intros _. exists o'. split; [exact (at_idx_same _ _ _ _ Eo)|done].
Qed.

Lemma add_fmt_ok p tp a : 0 <= tp <= 3 -> args_ok a ->
  (if negb (is_pal (a_tex_fmt a)) then pvr2_tex_fmt_to_gfx (a_tex_fmt a) else translate_palette_to_pix_format tp) p =
  Ok (pix_fmt (asked_meta tp a), p).
Proof.
  intros Htp Ha. pose proof (mo_fmt _ Ha) as Hf. unfold fmt_ok in Hf. cbn in Hf. cbn. unfold tex_gfx_fmt. cbn.
  assert (tp = 0 \/ tp = 1 \/ tp = 2 \/ tp = 3) as H4 by lia.
  destruct (a_tex_fmt a); try done; by destruct H4 as [->|[->|[->| ->]]].
Qed.
Lemma install_ok p i a g : tex_inv p -> args_ok a ->
  tex_install i (next_frame_stamp p) (palette_tp p) a (upd_rend g p) = Ok (Some i, with_slot p i (fresh_slot p a) g).
Proof.
  intros Hp Ha. unfold tex_install. rewrite (bind_ok _ _ _ _ _ (add_fmt_ok _ _ a (ti_pal p Hp) Ha)).
  replace (if a_vq_compression a && negb _ then _ else _) with (asked_vq a) by (unfold asked_vq; by destruct (a_vq_compression a), (_ =? _)).
  by rewrite (bind_ok _ _ _ _ _ (tex_addr_last_ok _ a Ha)).
Qed.

(** a new texture gets a slot whose texture was not used in this frame, unless there is none *)
Lemma add_ok p a : tex_inv p -> args_ok a ->
  pvr2_tex_cache_add a p = Ok (None, p) \/
  exists i g, pvr2_tex_cache_add a p = Ok (Some i, with_slot p i (fresh_slot p a) g) /\ tex_inv (with_slot p i (fresh_slot p a) g) /\
    exists t, at_idx (tex_cache p) i = Some t /\ (state t = PVR2_TEX_INVALID \/ frame_stamp_last_used t < next_frame_stamp p).
Proof.
  intros Hp Ha. unfold pvr2_tex_cache_add. pose proof (mo_fmt _ Ha) as Hf. unfold fmt_ok in Hf. cbn in Hf.
  rewrite bool_decide_false by (intros E; by rewrite E in Hf). rewrite (bind_ok _ _ p tt p eq_refl), (bind_ok _ _ _ _ _ eq_refl).
  pose proof (mo_w _ Ha) as Hw. pose proof (mo_h _ Ha) as Hh. cbn in Hw, Hh.
  replace (_ || _) with false by lia. rewrite andb_false_r, (bind_ok _ _ p tt p eq_refl).
  destruct (pick_slot _ _ _ _) as [i|[i|]] eqn:E; [| |by left]; right; exists i.
  - apply pick_slot_inl in E as (Hi & t & Ht & Es). rewrite Z.sub_0_r in Ht.
    assert (Hat : at_idx (tex_cache p) i = Some t) by by apply at_idx_Some.
    destruct (give_back_ok p i t a Hp Ha Hat) as (g & Eg & Hinv). pose proof (ti_slot p Hp i t Hat) as Hs. unfold slot_inv in Hs.
    rewrite Es in Hs. rewrite Hs in Eg. injection Eg as Eg. exists g. split; [|split; [done|exists t; auto]].
    rewrite <- (install_ok p i a g Hp Ha). f_equal. done.
  - apply pick_slot_inr in E as [[=]|(Hi & t & Ht & Es)]. rewrite Z.sub_0_r in Ht.
    assert (Hat : at_idx (tex_cache p) i = Some t) by by apply at_idx_Some.
    destruct (give_back_ok p i t a Hp Ha Hat) as (g & Eg & Hinv). exists g. split; [|split; [done|exists t; auto]].
    rewrite (bind_ok _ _ _ _ _ (get_slot_ok p i t Hat)). fold (give_back (obj_no t)). rewrite (bind_ok _ _ _ _ _ Eg). by apply install_ok.
Qed.

Lemma use_texture_ok p a : tex_inv p -> args_ok a ->
  exists r p', use_texture a p = Ok (r, p') /\ tex_inv p' /\
    match r with Some i => gives p a i p' | None => p' = p end.
Proof.
  intros Hp Ha. unfold use_texture. destruct (find_ok p a Hp) as [E|(i & p' & E & Hp' & Hg)]; rewrite (bind_ok _ _ _ _ _ E).
  - destruct (add_ok p a Hp Ha) as [->|(i & g & -> & Hinv & t & Ht & _)]; [by exists None, p|].
    eexists (Some i), _. split; [done|]. split; [done|]. exists (fresh_slot p a). split; [exact (at_idx_same _ _ _ _ Ht)|done].
  - by exists (Some i), p'.
Qed.

(** ** A frame *)
Context (sync_fb_to_tex_mem : Z -> M (pvr2 Img) unit).
Lemma render_ok p : tex_inv p -> exists p', render_frame sync_fb_to_tex_mem p = Ok (tt, p') /\ tex_inv p'.
Proof.
  intros Hp. unfold render_frame. destruct (xmit_ok sync_fb_to_tex_mem p Hp) as (p1 & E & Hp1 & Hd & _). rewrite (bind_ok _ _ _ _ _ E).
  eexists. split; [done|]. apply (inv_env p1 _ id); try done; try apply Hp1.
  - by rewrite list_fmap_id.
  - intros i t Hi Hs. change (id t) with t. pose proof (at_idx_range _ _ _ Hi) as Hr. rewrite (ti_len p1 Hp1) in Hr.
    specialize (Hd i Hr t Hi). unfold slot_inv in *. destruct (state t); [done|done|]. destruct Hs as (Hm & [H1 H2 H3] & Hs). by split.
Qed.
End operations.
