(* ===== verification/Textures.v ===== *)
(** Textures, from the reset of the device on: the operations as steps, the states they reach, and
    the theorems about them.  The invariant and its preservation are in [TexCoherent] and [TexSteps]. *)
From stdpp Require Import gmap list relations.
From S2P Require Import Prelude Sh4State MemoryMap Memory Twiddle GfxObj TexCache TexRead TexCoherent TexSteps.
Import memory.

Section reachable.
Context {Img : Type} {CFG : BuildConfig} {HOST : Host Img}.
Context (sync_fb_to_tex_mem : Z -> M (pvr2 Img) unit).
Implicit Types (p : pvr2 Img) (t : pvr2_tex).

(** before [pvr2_tex_cache_init]: at most 256 of the renderer's objects serve something else, and the
    others are as the program image has them *)
Record powered_on p : Prop := {
  po_bytes : bytes_ok (tex64 p);
  po_now : 0 <= clk_now p;
  po_tp : 0 <= palette_tp p <= 3;
  po_fb : length (fb_heap p) = Z.to_nat FB_HEAP_SIZE /\ Forall quiet (fb_heap p);
  po_states : length (states (rend p)) = Z.to_nat GFX_OBJ_COUNT;
  po_objs : length (obj_array (rend p)) = Z.to_nat GFX_OBJ_COUNT;
  po_texs : length (gfx_texs (rend p)) = Z.to_nat GFX_TEX_CACHE_SIZE;
  po_free : forall k, at_idx (states (rend p)) k = Some false -> exists o, at_idx (obj_array (rend p)) k = Some o /\ free_obj o;
  po_taken : exists taken : list Z, (length taken <= 256)%nat /\ forall k, at_idx (states (rend p)) k = Some true -> k ∈ taken
}.

(** no texture with a palette has been sent to the renderer *)
Definition no_palette_sent p : Prop := Forall (fun t => is_pal (tex_fmt (meta t)) = true -> obj_no t = -1) (tex_cache p).

(** what the program does: time passes, it writes to the two areas of texture memory and to the palette, it uses a
    texture in the frame that it prepares, and it draws the frame; other parts of the chip change the
    picture buffers *)
Inductive tex_step p : pvr2 Img -> Prop :=
| step_time time : clk_now p <= time -> tex_step p (upd_now time p)
| step_write k addr val p' : 0 <= k <= 3 -> area64_out_of_bounds k addr = false -> after_uploads p ->
    area64_write k addr val p = Ok (tt, p') -> tex_step p p'
| step_write32 k addr val p' : area32_write k addr val p = Ok (tt, p') -> tex_step p p'
| step_palette word val p' : 0 <= word < PAL_RAM_WORDS -> write_palette word val p = Ok (tt, p') -> tex_step p p'
| step_palette_tp val p' : 0 <= val <= 3 -> no_palette_sent p -> write_palette_tp val p = Ok (tt, p') -> tex_step p p'
| step_use a r p' : args_ok a -> use_texture a p = Ok (r, p') -> tex_step p p'
| step_render p' : render_frame sync_fb_to_tex_mem p = Ok (tt, p') -> tex_step p p'
| step_fb fbs : length fbs = length (fb_heap p) -> Forall quiet fbs -> tex_step p (upd_fb fbs p).

Definition reachable p : Prop :=
  exists p0 p1, powered_on p0 /\ pvr2_tex_cache_init p0 = Ok (tt, p1) /\ rtc tex_step p1 p.

Lemma reach_step p p' : tex_step p p' -> reachable p -> reachable p'.
Proof. intros Hs (p0 & p1 & H0 & H1 & H). exists p0, p1. split; [done|]. split; [done|]. by eapply rtc_r. Qed.

(** what the host shows for the texture in slot [i] is what the decoder makes of texture memory *)
Definition shows p (i : Z) t : Prop :=
  exists m dat n, tex_meta_now (meta t) p = Ok (m, p) /\ pvr2_tex_cache_read m p = Ok ((dat, n), p) /\
    at_idx (gfx_texs (rend p)) i = Some (live_tex (obj_no t) (pix_fmt m) (2 ^ w_shift m) (2 ^ h_shift m)) /\
    gl_texs (rend p) !! obj_no t = Some (tex_image (pix_fmt m) (2 ^ w_shift m) (2 ^ h_shift m) dat).

Context {HL : HostLaws Img}.

Lemma init_inv p p' : powered_on p -> pvr2_tex_cache_init p = Ok (tt, p') -> tex_inv p'.
Proof.
  intros Hp E. set (p1 := upd_stamps ∅ (upd_cache (replicate (Z.to_nat PVR2_TEX_CACHE_SIZE) slot_init) p)).
  assert (p' = p1) as -> by (change (Ok (tt, p1) = Ok (tt, p')) in E; congruence). clear E.
  assert (Hat : forall i t, at_idx (tex_cache p1) i = Some t -> t = slot_init).
  { intros i t [_ Ht]%at_idx_Some. change (replicate (Z.to_nat PVR2_TEX_CACHE_SIZE) slot_init !! Z.to_nat i = Some t) in Ht.
    by apply lookup_replicate_1 in Ht as [-> _]. }
  split; try apply Hp.
  - exact (length_replicate (Z.to_nat PVR2_TEX_CACHE_SIZE) slot_init).
  - intros pg. pose proof (po_now p Hp). unfold stamp. cbn. rewrite lookup_empty. cbn. lia.
  - intros i t ->%Hat. done.
  - intros i j t1 t2 ->%Hat ->%Hat H. cbn in H. lia.
  - destruct (po_taken p Hp) as (taken & Hl & Ht). exists taken. split; [done|]. intros k Hk. left. by apply Ht.
Qed.

Lemma fb_inv p fbs mem : tex_inv p -> length fbs = length (fb_heap p) -> Forall quiet fbs -> tex_inv (upd_tex32 mem (upd_fb fbs p)).
Proof.
  intros Hp Hl Hq. apply (inv_env p _ id); try done; try apply Hp; [by rewrite list_fmap_id|]. intros i t _ Hs. by eapply slot_env.
Qed.

Lemma step_inv p p' : tex_step p p' -> tex_inv p -> tex_inv p'.
Proof.
  intros Hst Hp. destruct Hst as [time Ht|k addr val p' Hk Hb Hu E|k addr val p' E|word val p' _ E|val p' Hv Hn E|a r p' Ha E|p' E|fbs Hl Hq].
  - by apply time_inv.
  - destruct (area64_write_ok p k addr val Hp Hk Hb Hu) as (p2 & E2 & H & _). rewrite E2 in E. by injection E as <-.
  - unfold area32_write in E. destruct (area32_out_of_bounds k addr); [done|]. cbn [when] in E. rewrite (bind_ok _ _ p tt p eq_refl) in E.
    destruct (fb_notify_quiet p addr (2 ^ k) (ti_fb p Hp)) as (fbs & E1 & Hl & Hq). rewrite (bind_ok _ _ _ _ _ E1) in E. injection E as <-.
    by apply fb_inv.
  - destruct (palette_inv p (palette_tp p) (store 4 (4 * word) val (pal_ram p)) Hp) as (p2 & E2 & H); [apply Hp|by left|].
    assert (Ok (tt, p2) = Ok (tt, p')) as [= <-] by (rewrite <- E, <- E2; done). done.
  - destruct (palette_inv p val (pal_ram p) Hp Hv) as (p2 & E2 & H); [by right|].
    assert (Ok (tt, p2) = Ok (tt, p')) as [= <-] by (rewrite <- E, <- E2; done). done.
  - destruct (use_texture_ok p a Hp Ha) as (r2 & p2 & E2 & H & _). rewrite E2 in E. by injection E as <- <-.
  - destruct (render_ok sync_fb_to_tex_mem p Hp) as (p2 & E2 & H). rewrite E2 in E. by injection E as <-.
  - by apply (fb_inv p fbs (tex32 p)).
Qed.

Lemma tex_reachable_inv p : reachable p -> tex_inv p.
Proof.
  intros (p0 & p1 & Hp0 & E & Hst). pose proof (init_inv p0 p1 Hp0 E) as Hp1. clear Hp0 E. induction Hst; [done|].
  apply IHHst. by eapply step_inv.
Qed.

Lemma uploaded_shows p i t : tex_inv p -> at_idx (tex_cache p) i = Some t -> state t = PVR2_TEX_READY ->
  enclosed (meta t) = true -> uploaded p t -> shows p i t.
Proof.
  intros Hp Hi Hr He Hu. pose proof (ti_slot p Hp i t Hi) as Hs. unfold slot_inv in Hs. rewrite Hr in Hs.
  destruct Hs as (Hm & Ho & _). destruct (meta_now_ok p t (ti_bytes p Hp) (ti_pal p Hp) Hm) as (m & E1 & Ef & E2).
  assert (w_shift m = w_shift (meta t) /\ h_shift m = h_shift (meta t)) as [Ew Eh].
  { unfold tex_meta_now in E1. destruct (is_pal (tex_fmt (meta t))); [|by injection E1 as <-].
    unfold bind, gets in E1. destruct (translate_palette_to_pix_format _ _) as [[f s]|]; [|done]. by injection E1 as <- _. }
  eexists m, _, _. split; [exact E1|]. split; [exact E2|]. rewrite Ew, Eh, Ef. split; [apply Ho|by apply Hu].
Qed.

(** C7: let a state be reached from power-on by the steps [tex_step].  Then sending the cache to the
    renderer succeeds, leaves the 64-bit area, the palette and the clock alone, keeps every texture
    of the current frame, and leaves on the host, for every texture in the cache that is not both
    compressed and mipmapped, exactly the picture that decoding the present contents of texture
    memory gives.  [tex_step] lets time pass, writes to both areas of texture memory and to
    the palette, requests textures, draws frames and changes the picture buffers, with these
    restrictions: the accesses are in range; a write to the 64-bit area comes after the clock has
    advanced since the last upload ([after_uploads]; otherwise see [same_stamp_write_missed]); PALETTE_TP
    is written only while no palette texture has been sent ([no_palette_sent]; otherwise see
    [palette_depth_overflow]); the requested textures are of a supported format and lie in memory
    ([args_ok]); and no rendered picture buffer waits for the 64-bit area ([quiet]; its copy is not modelled).  At power-on
    at most 256 of the host's objects are taken. *)
Theorem tex_cache_coherent p : reachable p ->
  exists p', pvr2_tex_cache_xmit sync_fb_to_tex_mem p = Ok (tt, p') /\ same_guest p p' /\ keeps p p' /\
    forall i t, at_idx (tex_cache p') i = Some t -> pvr2_tex_valid (state t) = true ->
      vq_compression (meta t) && mipmap (meta t) = false -> shows p' i t.
Proof.
  intros Hp%tex_reachable_inv. destruct (xmit_ok sync_fb_to_tex_mem p Hp) as (p' & E & Hp' & Hd & Hg & Hk).
  exists p'. split; [done|]. split; [done|]. split; [done|]. intros i t Hi Hv He. pose proof (at_idx_range _ _ _ Hi) as Hr.
  rewrite (ti_len p' Hp') in Hr. specialize (Hd i Hr t Hi).
  destruct (state t) eqn:Es; [done|done|]. apply uploaded_shows; try done. unfold enclosed. by rewrite He.
Qed.

(** C20: let a state be reached from power-on by the steps [tex_step].  Then none of these operations fails or
    is undefined: a write of 1 to 8 bytes in range of the 64-bit area, when the clock has advanced since the
    last upload; a write to a word of the palette; the request of a texture of a supported format in
    memory, which gives a slot that describes it unless all 512 are in use in this frame, and changes
    nothing then; and the start of a frame.  [tex_step] lets time pass, writes to both areas of texture memory and to
    the palette, requests textures, draws frames and changes the picture buffers, with these
    restrictions: the accesses are in range; a write to the 64-bit area comes after the clock has
    advanced since the last upload ([after_uploads]; otherwise see [same_stamp_write_missed]); PALETTE_TP
    is written only while no palette texture has been sent ([no_palette_sent]; otherwise see
    [palette_depth_overflow]); the requested textures are of a supported format and lie in memory
    ([args_ok]); and no rendered picture buffer waits for the 64-bit area ([quiet]; its copy is not modelled).  At power-on
    at most 256 of the host's objects are taken. *)
Theorem tex_ops_run p : reachable p ->
  (forall k addr val, 0 <= k <= 3 -> area64_out_of_bounds k addr = false -> after_uploads p ->
     exists p', area64_write k addr val p = Ok (tt, p')) /\
  (forall word val, 0 <= word < PAL_RAM_WORDS -> exists p', write_palette word val p = Ok (tt, p')) /\
  (forall a, args_ok a -> exists r p', use_texture a p = Ok (r, p') /\ match r with Some i => gives p a i p' | None => p' = p end) /\
  exists p', render_frame sync_fb_to_tex_mem p = Ok (tt, p').
Proof.
  intros Hp%tex_reachable_inv. split; [|split; [|split]].
  - intros k addr val Hk Hb Hu. destruct (area64_write_ok p k addr val Hp Hk Hb Hu) as (p' & E & _). by exists p'.
  - intros word val _. by eexists.
  - intros a Ha. destruct (use_texture_ok p a Hp Ha) as (r & p' & E & _ & H). by exists r, p'.
  - destruct (render_ok sync_fb_to_tex_mem p Hp) as (p' & E & _). by exists p'.
Qed.

(** ** Where the cache goes wrong *)

Lemma find_none p a : tex_inv p -> a_vq_compression a = true -> a_w_shift a <> a_h_shift a -> pvr2_tex_cache_find a p = Ok (None, p).
Proof.
  intros Hp Hvq Hwh. unfold pvr2_tex_cache_find. rewrite (bind_ok _ _ _ _ _ eq_refl).
  destruct (find_tex a (tex_cache p) 0) as [i|] eqn:E; [exfalso|done]. apply find_tex_Some in E as (Hi & t & Ht & Em).
  rewrite Z.sub_0_r in Ht. destruct (tex_matches_ok a t Em) as (Hv & _ & Hw & Hh & _ & Hq).
  assert (Hm : meta_ok (meta t)).
  { pose proof (ti_slot p Hp i t ltac:(by apply at_idx_Some)) as Hs. unfold slot_inv in Hs. destruct (state t); [done|apply Hs|apply Hs]. }
  apply Hwh. rewrite <- Hw, <- Hh. apply (mo_square _ Hm). left. congruence.
Qed.

(** a request for a compressed texture that is not square is never found in the cache, because the slot
    forgets that the texture is compressed: two uses of the same texture in one frame take two slots *)
Theorem vq_rect_never_found p a : reachable p -> args_ok a -> a_vq_compression a = true -> a_w_shift a <> a_h_shift a ->
  pvr2_tex_cache_find a p = Ok (None, p) /\
  forall i p1 j p2, use_texture a p = Ok (Some i, p1) -> use_texture a p1 = Ok (Some j, p2) -> i <> j.
Proof.
  intros Hp%tex_reachable_inv Ha Hvq Hwh. split; [by apply find_none|]. intros i p1 j p2 E1 E2 <-. unfold use_texture in E1, E2.
  rewrite (bind_ok _ _ _ _ _ (find_none p a Hp Hvq Hwh)) in E1.
  destruct (add_ok p a Hp Ha) as [E|(i' & g & E & Hp1 & t & Ht & _)]; rewrite E in E1; [done|]. injection E1 as -> <-.
  rewrite (bind_ok _ _ _ _ _ (find_none _ a Hp1 Hvq Hwh)) in E2.
  destruct (add_ok _ a Hp1 Ha) as [E'|(i' & g' & E' & _ & t' & Ht' & Hn)]; rewrite E' in E2; [done|]. injection E2 as -> _.
  cbn in Ht'. rewrite (at_idx_same _ _ _ _ Ht) in Ht'. injection Ht' as <-. cbn in Hn. destruct Hn as [|Hn]; [done|lia].
Qed.

(** after the palette is switched from 16-bit to 32-bit colors, a texture with a palette that is on the host
    and is used in the frame stops the emulator: its object keeps the size of the 16-bit picture *)
Theorem palette_depth_overflow p i t : reachable p -> at_idx (tex_cache p) i = Some t -> pvr2_tex_valid (state t) = true ->
  is_pal (tex_fmt (meta t)) = true -> 0 <= obj_no t -> frame_stamp_last_used t = next_frame_stamp p -> palette_tp p <> PALETTE_TP_ARGB_8888 ->
  exists p1, write_palette_tp PALETTE_TP_ARGB_8888 p = Ok (tt, p1) /\ xmit_slot sync_fb_to_tex_mem i p1 = Err ERROR_OVERFLOW.
Proof.
  intros Hp%tex_reachable_inv Hi Hv Hpal Hn Hu Htp. eexists. split; [done|]. set (p1 := upd_cache _ _). pose proof (ti_slot p Hp i t Hi) as Hs.
  assert (Hi1 : exists t1, at_idx (tex_cache p1) i = Some t1 /\ state t1 = PVR2_TEX_DIRTY /\ meta t1 = meta t /\ obj_no t1 = obj_no t /\
    frame_stamp_last_used t1 = frame_stamp_last_used t).
  { cbn [p1 tex_cache upd_cache upd_palette]. rewrite at_idx_fmap, Hi. eexists. split; [done|]. rewrite Hpal.
    destruct (state t) eqn:Es; [done|..]; by case_bool_decide. }
  destruct Hi1 as (t1 & Hi1 & Es1 & Em1 & Eo1 & Eu1).
  assert (Hm : meta_inv (meta t)) by (unfold slot_inv in Hs; by destruct (state t); destruct Hs).
  destruct (slot_obj p i t Hs) as [|[Ho _]]; [lia|]. destruct (ow_obj _ _ _ Ho) as (o & Eo & Hlen & _).
  unfold xmit_slot. rewrite (bind_ok _ _ _ _ _ (get_slot_ok p1 i t1 Hi1)), Es1. cbn [when negb].
  rewrite bool_decide_false by done. cbn [negb when]. erewrite bind_ok by (apply notify_texture_quiet; apply Hp).
  unfold tex_need_update. rewrite Es1, (bind_ok _ _ _ _ _ eq_refl). cbn [when]. unfold xmit_update. rewrite (bind_ok _ _ _ _ _ eq_refl).
  rewrite Eu1, Hu, Z.eqb_refl, Eo1. cbn [negb]. replace (obj_no t <? 0) with false by lia.
  destruct (meta_now_ok p1 t (ti_bytes p Hp) ltac:(done) Hm) as (m & E1 & _ & E2).
  unfold xmit_again. rewrite Em1, Eo1. unfold bind at 1. rewrite (bind_ok _ _ _ _ _ E1), (bind_ok _ _ _ _ _ E2). cbn [fst snd rend_exec_il].
  unfold bind at 1, on_rend. cbn [rend_exec_il]. unfold gfx_obj_write. rewrite (bind_ok _ _ _ _ _ (get_obj_ok (rend p1) _ o Eo)), Hlen.
  pose proof (w_bounds _ (proj1 Hm)). pose proof (h_bounds _ (proj1 Hm)). pose proof (ti_pal p Hp).
  assert (fmt_pixel_size (host_fmt p t) = 2 /\ fmt_pixel_size (host_fmt p1 t) = 4) as [-> ->].
  { unfold host_fmt, tex_gfx_fmt, is_pal in *. unfold PALETTE_TP_ARGB_8888 in Htp.
    assert (palette_tp p = 0 \/ palette_tp p = 1 \/ palette_tp p = 2) as H3 by lia.
    destruct (tex_fmt (meta t)); try done; by destruct H3 as [->|[->| ->]]. }
  replace (_ =? _) with false by nia. done.
Qed.

(** a write to texture memory with the same time stamp as the last upload of the texture is missed: the next
    transmission does not send the texture again *)
Theorem same_stamp_write_missed p i t k addr val : reachable p -> at_idx (tex_cache p) i = Some t -> state t = PVR2_TEX_READY ->
  last_update t = clk_now p -> 0 <= k <= 3 -> area64_out_of_bounds k addr = false ->
  exists p', area64_write k addr val p = Ok (tt, p') /\ tex_need_update t p' = Ok (false, p').
Proof.
  intros Hp%tex_reachable_inv Hi Hr Hlu Hk Hb. destruct (area64_in_bounds k addr Hk Hb) as (Ha & Hpow & Hz).
  unfold area64_write. rewrite Hb. cbn [when]. rewrite (bind_ok _ _ p tt p eq_refl).
  destruct (fb_notify_quiet p addr (2 ^ k) (ti_fb p Hp)) as (fbs & E1 & Hl & Hq). rewrite (bind_ok _ _ _ _ _ E1).
  destruct (notify_write_ok (upd_fb fbs p) addr (2 ^ k)) as (stamps & E2 & Hst); [lia..|]. rewrite (bind_ok _ _ _ _ _ E2).
  eexists. split; [done|]. set (p' := upd_tex64 _ _). unfold tex_need_update. rewrite Hr, (bind_ok _ _ _ _ _ eq_refl).
  pose proof (ti_slot p Hp i t Hi) as Hs. unfold slot_inv in Hs. rewrite Hr in Hs. destruct Hs as [[Hm _] _].
  pose proof (mo_last _ Hm). pose proof (tex_len_pos _ Hm). pose proof (tex_pages _ (addr_first (meta t)) Hm ltac:(lia)).
  pose proof (tex_pages _ (addr_last (meta t)) Hm ltac:(lia)).
  pose proof (Z.div_le_mono (addr_first (meta t)) (addr_last (meta t)) PVR2_TEX_PAGE_SIZE ltac:(done) ltac:(lia)).
  rewrite (younger_page_none _ _ _ p'); [done|lia..|]. intros pg _. unfold stamp at 1. cbn [p' page_stamps upd_tex64 upd_stamps].
  rewrite Hst. pose proof (ti_stamps p Hp pg) as Hsp. change (stamp (upd_fb fbs p) pg) with (stamp p pg).
  change (clk_now (upd_fb fbs p)) with (clk_now p). destruct (_ && _); lia.
Qed.
End reachable.

(** ** A machine *)
Module example.
#[local] Instance config : BuildConfig :=
  {| INVARIANTS := true; ENABLE_SH4_MMU := false; ENABLE_DEBUGGER := false; DBG_EXIT_ON_UNDEFINED_OPCODE := false |}.
(** a host that keeps the pictures as they are *)
Definition kept : Type := gfx_tex_fmt * Z * Z * list Z.
#[local] Instance host : Host kept := {| tex_image := fun fmt w h dat => (fmt, w, h, dat); fresh := fun n => replicate n 0 |}.
#[local] Instance host_laws : HostLaws kept.
Proof. split. intros n. apply length_replicate. Qed.
Definition no_sync : Z -> M (pvr2 kept) unit := fun _ => ret tt.

Definition obj_zero : gfx_obj := {| obj_dat := None; obj_arg := None; on_write := None; dat_len := 0; obj_state := 0 |}.
Definition fb_zero : framebuffer := {| fb_state := FB_STATE_INVALID; fb_first := (0, 0); fb_last := (0, 0) |}.
Definition boot : pvr2 kept :=
  {| tex64 := ∅; tex32 := ∅; page_stamps := ∅; tex_cache := []; palette_tp := 0; pal_ram := ∅; next_frame_stamp := 0; clk_now := 0;
     fb_heap := replicate (Z.to_nat FB_HEAP_SIZE) fb_zero;
     rend := {| states := replicate (Z.to_nat GFX_OBJ_COUNT) false; obj_array := replicate (Z.to_nat GFX_OBJ_COUNT) obj_zero;
                gfx_texs := replicate (Z.to_nat GFX_TEX_CACHE_SIZE) (live_tex 0 GFX_TEX_FMT_ARGB_1555 0 0); gl_texs := ∅ |} |}.

Lemma boot_ok : powered_on boot.
Proof.
  split; try done.
  - split; [done|]. by repeat constructor.
  - intros k Hk. assert (Hr := at_idx_range _ _ _ Hk). change (states (rend boot)) with (replicate (Z.to_nat GFX_OBJ_COUNT) false) in Hr.
    rewrite length_replicate in Hr. exists obj_zero. split; [|done]. apply at_idx_Some. split; [lia|].
    apply (lookup_replicate_2 (Z.to_nat GFX_OBJ_COUNT)). lia.
  - exists []. split; [cbn; lia|]. intros k [_ Hk]%at_idx_Some.
    change (replicate (Z.to_nat GFX_OBJ_COUNT) false !! Z.to_nat k = Some true) in Hk. by apply lookup_replicate_1 in Hk as [? _].
Qed.

(** the state after an operation *)
Definition after {A} (m : M (pvr2 kept) A) (p : pvr2 kept) : pvr2 kept := match m p with Ok (_, p') => p' | Err _ => p end.
Definition gives_back {A} (m : M (pvr2 kept) A) (p : pvr2 kept) : option A := match m p with Ok (a, _) => Some a | Err _ => None end.
Lemma after_ok {A} (m : M (pvr2 kept) A) p (a : A) : gives_back m p = Some a -> m p = Ok (a, after m p).
Proof. unfold after, gives_back. destruct (m p) as [[b p']|]; congruence. Qed.

(** a texture of [2^w] by 8 pixels *)
Definition rect (addr w : Z) (fmt : TexCtrlPixFmt) (vq mip : bool) : tex_args :=
  {| a_addr := addr; a_pal_addr := 0; a_w_shift := w; a_h_shift := 3; a_tex_fmt := fmt; a_twiddled := true;
     a_vq_compression := vq; a_mipmap := mip; a_stride_sel := false |}.
Definition plain : tex_args := rect 0x1000 3 TEX_CTRL_PIX_FMT_RGB_565 false false.
Definition paletted : tex_args := rect 0x2000 3 TEX_CTRL_PIX_FMT_8_BPP_PAL false false.
Definition wide : tex_args := rect 0x3000 4 TEX_CTRL_PIX_FMT_RGB_565 true false.
(** its picture ends in the page behind [addr_last] *)
Definition compressed : tex_args := rect 0x11f0 3 TEX_CTRL_PIX_FMT_RGB_565 true true.
Lemma requests_ok : args_ok plain /\ args_ok paletted /\ args_ok wide /\ args_ok compressed.
Proof. split_and!; split; vm_compute; intuition congruence. Qed.

Lemma reach_use s a r : args_ok a -> gives_back (use_texture a) s = Some r -> reachable no_sync s -> reachable no_sync (after (use_texture a) s).
Proof. intros Ha E. apply reach_step. exact (step_use _ _ a r _ Ha (after_ok _ _ _ E)). Qed.
Lemma reach_render s : gives_back (render_frame no_sync) s = Some tt -> reachable no_sync s ->
  reachable no_sync (after (render_frame no_sync) s).
Proof. intros E. apply reach_step. exact (step_render _ _ _ (after_ok _ _ _ E)). Qed.
Lemma reach_time s time : clk_now s <= time -> reachable no_sync s -> reachable no_sync (upd_now time s).
Proof. intros E. apply reach_step. by apply step_time. Qed.
Definition late (s : pvr2 kept) : bool := forallb (fun t => bool_decide (state t = PVR2_TEX_READY -> last_update t < clk_now s)) (tex_cache s).
Lemma late_ok s : late s = true -> after_uploads s.
Proof.
  unfold late. rewrite forallb_forall. intros H. apply list.Forall_forall. intros t Ht%list_elem_of_In.
  specialize (H t Ht). by apply bool_decide_eq_true in H.
Qed.
Lemma reach_write s k addr val : 0 <= k <= 3 -> area64_out_of_bounds k addr = false -> late s = true ->
  gives_back (area64_write k addr val) s = Some tt -> reachable no_sync s -> reachable no_sync (after (area64_write k addr val) s).
Proof. intros Hk Hb Hl E. apply reach_step. exact (step_write _ _ k addr val _ Hk Hb (late_ok s Hl) (after_ok _ _ _ E)). Qed.
Definition start : pvr2 kept := after pvr2_tex_cache_init boot.
Lemma reach_start : reachable no_sync start.
Proof. exists boot, start. split; [exact boot_ok|]. split; [reflexivity|apply rtc_refl]. Qed.

(** two textures are used and drawn, then the program writes to the memory of the first, and uses both again *)
Definition used : pvr2 kept := after (use_texture paletted) (after (use_texture plain) start).
Definition drawn : pvr2 kept := after (render_frame no_sync) used.
Definition written : pvr2 kept := after (area64_write 2 0x04001004 0xdeadbeef) (upd_now 10 drawn).
Definition again : pvr2 kept := after (use_texture paletted) (after (use_texture plain) written).

Lemma drawn_reachable : reachable no_sync drawn.
Proof.
  destruct requests_ok as (H1 & H2 & _). apply reach_render; [by vm_compute|]. apply reach_use with (Some 1); [done|by vm_compute|].
  apply reach_use with (Some 0); [done|by vm_compute|exact reach_start].
Qed.
Lemma again_reachable : reachable no_sync again.
Proof.
  destruct requests_ok as (H1 & H2 & _). apply reach_use with (Some 1); [done|by vm_compute|].
  apply reach_use with (Some 0); [done|by vm_compute|]. apply reach_write; [done|done|by vm_compute|by vm_compute|].
  apply reach_time; [by vm_compute|exact drawn_reachable].
Qed.

(** the picture of a compressed texture with mipmaps changes behind [addr_last] *)
Definition comp_used : pvr2 kept := after (use_texture compressed) (after (area64_write 2 0x040011f8 0x11111111) start).
Definition comp_drawn : pvr2 kept := after (render_frame no_sync) comp_used.
Definition comp_again : pvr2 kept :=
  after (use_texture compressed) (after (area64_write 0 0x04001a04 1) (upd_now 10 comp_drawn)).
Lemma comp_reachable : reachable no_sync comp_again.
Proof.
  destruct requests_ok as (_ & _ & _ & H). apply reach_use with (Some 0); [done|by vm_compute|].
  apply reach_write; [done|done|by vm_compute|by vm_compute|]. apply reach_time; [by vm_compute|].
  apply reach_render; [by vm_compute|]. apply reach_use with (Some 0); [done|by vm_compute|].
  apply reach_write; [done|done|by vm_compute|by vm_compute|exact reach_start].
Qed.

(** [shows], computed *)
Definition shown_now (p : pvr2 kept) (t : pvr2_tex) : bool :=
  match tex_meta_now (meta t) p with
  | Ok (m, _) =>
      match pvr2_tex_cache_read m p with
      | Ok ((dat, _), _) => bool_decide (gl_texs (rend p) !! obj_no t = Some (pix_fmt m, 2 ^ w_shift m, 2 ^ h_shift m, dat))
      | Err _ => false
      end
  | Err _ => false
  end.
Lemma shown_now_ok p i t : shows p i t -> shown_now p t = true.
Proof. intros (m & dat & n & E1 & E2 & _ & E3). unfold shown_now. rewrite E1, E2. by apply bool_decide_eq_true. Qed.
Definition slot_at (p : pvr2 kept) (i : Z) : pvr2_tex := default slot_init (at_idx (tex_cache p) i).
Lemma slot_at_ok p i : bool_decide (state (slot_at p i) = PVR2_TEX_INVALID) = false -> at_idx (tex_cache p) i = Some (slot_at p i).
Proof. unfold slot_at. by destruct (at_idx (tex_cache p) i) as [t'|]. Qed.
End example.
Import example.
#[local] Existing Instances config host host_laws.

Lemma tex_cache_coherent_witness :
  reachable no_sync again /\
  exists p', pvr2_tex_cache_xmit no_sync again = Ok (tt, p') /\ same_guest again p' /\ keeps again p' /\
    forall i t, at_idx (tex_cache p') i = Some t -> pvr2_tex_valid (state t) = true ->
      vq_compression (meta t) && mipmap (meta t) = false -> shows p' i t.
Proof. split; [exact again_reachable|]. exact (tex_cache_coherent no_sync again again_reachable). Defined.

Lemma tex_ops_run_witness :
  reachable no_sync again /\ late (upd_now 20 again) = true /\ exists p', render_frame no_sync again = Ok (tt, p').
Proof. split; [exact again_reachable|]. split; [by vm_compute|]. exact (proj2 (proj2 (proj2 (tex_ops_run no_sync again again_reachable)))). Defined.

Lemma vq_rect_never_found_witness :
  args_ok wide /\ pvr2_tex_cache_find wide drawn = Ok (None, drawn) /\
  gives_back (use_texture wide) drawn = Some (Some 2) /\
  forall p1 j p2, use_texture wide drawn = Ok (Some 2, p1) -> use_texture wide p1 = Ok (Some j, p2) -> 2 <> j.
Proof.
  destruct requests_ok as (_ & _ & H & _).
  destruct (vq_rect_never_found no_sync drawn wide drawn_reachable H eq_refl ltac:(done)) as [H1 H2].
  split; [exact H|]. split; [exact H1|]. split; [by vm_compute|]. intros p1 j p2. apply H2.
Defined.

(** a compressed texture with mipmaps ends behind the address that the cache records for it, so a write to
    its last bytes is missed: the next frame is drawn with the old picture *)
Theorem vq_mipmap_stale : exists p p' t,
  reachable no_sync p /\ pvr2_tex_cache_xmit no_sync p = Ok (tt, p') /\ at_idx (tex_cache p') 0 = Some t /\
  state t = PVR2_TEX_READY /\ frame_stamp_last_used t = next_frame_stamp p' /\ ~ shows p' 0 t.
Proof.
  assert (Hr : gives_back (pvr2_tex_cache_xmit no_sync) comp_again = Some tt) by by vm_compute.
  exists comp_again, (after (pvr2_tex_cache_xmit no_sync) comp_again), (slot_at (after (pvr2_tex_cache_xmit no_sync) comp_again) 0).
  split; [exact comp_reachable|]. split; [exact (after_ok _ _ _ Hr)|].
  assert (Hs : state (slot_at (after (pvr2_tex_cache_xmit no_sync) comp_again) 0) = PVR2_TEX_READY) by by vm_compute.
  split; [apply slot_at_ok; by vm_compute|]. split; [exact Hs|]. split; [by vm_compute|].
  intros H%shown_now_ok. revert H. assert (E : shown_now (after (pvr2_tex_cache_xmit no_sync) comp_again)
    (slot_at (after (pvr2_tex_cache_xmit no_sync) comp_again) 0) = false) by by vm_compute. rewrite E. discriminate.
Qed.

Lemma palette_depth_overflow_witness :
  (reachable no_sync again /\ is_pal (tex_fmt (meta (slot_at again 1))) = true /\ 0 <= obj_no (slot_at again 1)) /\
  exists p1, write_palette_tp PALETTE_TP_ARGB_8888 again = Ok (tt, p1) /\ xmit_slot no_sync 1 p1 = Err ERROR_OVERFLOW.
Proof.
  split; [split; [exact again_reachable|by vm_compute]|].
  apply (palette_depth_overflow no_sync again 1 (slot_at again 1) again_reachable); [apply slot_at_ok|..]; by vm_compute.
Defined.

Lemma same_stamp_write_missed_witness :
  (reachable no_sync drawn /\ state (slot_at drawn 0) = PVR2_TEX_READY) /\
  exists p', area64_write 2 0x04001004 0xdeadbeef drawn = Ok (tt, p') /\ tex_need_update (slot_at drawn 0) p' = Ok (false, p').
Proof.
  split; [split; [exact drawn_reachable|by vm_compute]|].
  apply (same_stamp_write_missed no_sync drawn 0 (slot_at drawn 0) 2 0x04001004 0xdeadbeef drawn_reachable);
    [apply slot_at_ok|..]; by vm_compute.
Defined.
