(* ===== verification/RamBus.v ===== *)
(** The main memory behind the CPU's memory map, as the devices with direct memory access see it
    (src/libwashdc/dreamcast.c, [construct_sh4_mem_map]): a class for machines whose bus has the
    RAM in its windows, which every bus built by [add_ram_regions] satisfies; and the bytes of a
    little-endian buffer as values of the bus. *)
From stdpp Require Import gmap.
From S2P Require Import Prelude MemoryMap Memory Sh4State Board.
Import memory_map memory.

(** ** Buffers of bytes *)

(** the value of a little-endian element, and the bytes of one *)
Fixpoint le_val (bs : list Z) : Z :=
  match bs with [] => 0 | b :: bs' => Z.lor b (Z.shiftl (le_val bs') 8) end.
Fixpoint le_bytes (n : nat) (v : Z) : list Z :=
  match n with O => [] | S n' => u8 v :: le_bytes n' (Z.shiftr v 8) end.

Lemma length_le_bytes n v : length (le_bytes n v) = n.
Proof. revert v. induction n as [|n IH]; intros v; cbn; [done|]. by rewrite IH. Qed.

Lemma le_bytes_range n v : Forall (in_range 8) (le_bytes n v).
Proof. revert v. induction n as [|n IH]; intros v; cbn; constructor; [by apply wrap_range|done]. Qed.

Lemma le_val_cons b bs : in_range 8 b -> u8 (le_val (b :: bs)) = b /\ Z.shiftr (le_val (b :: bs)) 8 = le_val bs.
Proof.
  intros Hb. cbn [le_val]. split; apply Z.bits_inj'; intros i Hi.
  - rewrite wrap_testbit, Z.lor_spec, Z.shiftl_spec by lia. destruct (Z.ltb_spec i 8); cbn [andb].
    + by rewrite (Z.testbit_neg_r _ (i - 8)), orb_false_r by lia.
    + by rewrite (in_range_testbit_high 8) by (done || lia).
  - rewrite Z.shiftr_spec, Z.lor_spec, Z.shiftl_spec by lia.
    rewrite (in_range_testbit_high 8) by (done || lia). cbn [orb]. f_equal. lia.
Qed.

Lemma le_bytes_val bs : Forall (in_range 8) bs -> le_bytes (length bs) (le_val bs) = bs.
Proof.
  induction 1 as [|b bs Hb _ IH]; [done|]. cbn [length le_bytes].
  destruct (le_val_cons b bs Hb) as [-> ->]. by rewrite IH.
Qed.

Lemma le_val_range bs : Forall (in_range 8) bs -> in_range (8 * Z.of_nat (length bs)) (le_val bs).
Proof.
  induction 1 as [|b bs Hb _ IH]; [by vm_compute|]. cbn [length le_val]. apply in_range_bits; [lia|].
  intros n Hn. rewrite Z.lor_spec, Z.shiftl_spec by lia.
  rewrite (in_range_testbit_high 8 b n Hb) by lia.
  by rewrite (in_range_testbit_high _ _ _ IH) by lia.
Qed.

Lemma le_val_bytes n v : le_val (le_bytes n v) = wrap (8 * Z.of_nat n) v.
Proof.
  revert v. induction n as [|n IH]; intros v; cbn [le_bytes le_val].
  { unfold wrap. by rewrite Z.mod_1_r. }
  rewrite IH. apply Z.bits_inj'. intros i Hi. rewrite Z.lor_spec, Z.shiftl_spec by lia.
  rewrite (wrap_testbit 8), (wrap_testbit (8 * Z.of_nat (S n))) by lia. destruct (Z.ltb_spec i 8).
  - rewrite (Z.testbit_neg_r _ (i - 8)) by lia. destruct (Z.ltb_spec i (8 * Z.of_nat (S n))); [|lia]. by rewrite orb_false_r.
  - cbn [andb orb]. rewrite wrap_testbit, Z.shiftr_spec by lia. replace (i - 8 + 8) with i by lia.
    by destruct (Z.ltb_spec (i - 8) (8 * Z.of_nat n)), (Z.ltb_spec i (8 * Z.of_nat (S n))); try lia.
Qed.

(** the byte array and buffers *)
Lemma load_le_val n a m : load n a m = le_val (load_bytes n a m).
Proof. revert a. induction n as [|n IH]; intros a; cbn; [done|]. by rewrite IH. Qed.

Lemma store_le_val bs a m : Forall (in_range 8) bs -> store (length bs) a (le_val bs) m = store_bytes a bs m.
Proof.
  intros H. revert a m. induction H as [|b bs Hb _ IH]; intros a m; [done|]. cbn [length store store_bytes].
  destruct (le_val_cons b bs Hb) as [-> ->]. apply IH.
Qed.

Lemma store_le_bytes n a v m : store n a v m = store_bytes a (le_bytes n v) m.
Proof. revert a v m. induction n as [|n IH]; intros a v m; cbn; [done|]. apply IH. Qed.

Lemma store_bytes_app a xs ys m : store_bytes a (xs ++ ys) m = store_bytes (a + Z.of_nat (length xs)) ys (store_bytes a xs m).
Proof.
  revert a m. induction xs as [|x xs IH]; intros a m; cbn [app store_bytes length].
  { by rewrite Z.add_0_r. }
  rewrite IH. f_equal. lia.
Qed.

Lemma load_bytes_app n k a m : load_bytes (n + k) a m = load_bytes n a m ++ load_bytes k (a + Z.of_nat n) m.
Proof.
  revert a. induction n as [|n IH]; intros a; cbn [load_bytes Nat.add app].
  { by rewrite Z.add_0_r. }
  rewrite IH. do 3 f_equal. lia.
Qed.

Lemma length_load_bytes n a m : length (load_bytes n a m) = n.
Proof. revert a. induction n as [|n IH]; intros a; cbn; [done|]. by rewrite IH. Qed.

Lemma load_bytes_ext n a m1 m2 :
  (forall b, a <= b < a + Z.of_nat n -> byte m1 b = byte m2 b) -> load_bytes n a m1 = load_bytes n a m2.
Proof.
  revert a. induction n as [|n IH]; intros a Hb; cbn [load_bytes]; [done|].
  rewrite (Hb a) by lia. rewrite (IH (a + 1)); [done|]. intros b ?. apply Hb. lia.
Qed.

Lemma byte_store_bytes_outside a bs m b :
  b < a \/ a + Z.of_nat (length bs) <= b -> byte (store_bytes a bs m) b = byte m b.
Proof.
  revert a m. induction bs as [|x bs IH]; intros a m Hb; cbn [store_bytes length] in *; [done|].
  rewrite IH by lia. rewrite byte_insert. by destruct (Z.eqb_spec a b); [lia|].
Qed.

Lemma load_store_bytes_other n a bs b m :
  b + Z.of_nat n <= a \/ a + Z.of_nat (length bs) <= b -> load_bytes n b (store_bytes a bs m) = load_bytes n b m.
Proof. intros Hd. apply load_bytes_ext. intros c Hc. apply byte_store_bytes_outside. lia. Qed.

(** every byte of the RAM is one *)
Definition ram_typed (m : Memory) : Prop := forall a, in_range 8 (byte m a).

Lemma ram_typed_store a bs m : ram_typed m -> Forall (in_range 8) bs -> ram_typed (store_bytes a bs m).
Proof.
  intros Hm H. revert a m Hm. induction H as [|b bs Hb _ IH]; intros a m Hm; cbn [store_bytes]; [done|].
  apply IH. intros c. rewrite byte_insert. by destruct (a =? c).
Qed.

Lemma load_bytes_range n a m : ram_typed m -> Forall (in_range 8) (load_bytes n a m).
Proof. intros Hm. revert a. induction n as [|n IH]; intros a; cbn; constructor; [apply Hm|apply IH]. Qed.

(** ** The RAM in a machine *)
Class RamWorld (W : Type) : Type := {
  bus_ram : W -> Memory;
  set_bus_ram : Memory -> W -> W
}.

Definition ram_of {W} `{!RamWorld W} (s : Sh4 W) : Memory := bus_ram (world s).
Definition with_bus_ram {W} `{!RamWorld W} (m : Memory) (s : Sh4 W) : Sh4 W := with_world (set_bus_ram m (world s)) s.

(** an aligned access in area 3 is an access to the byte array, at the address's offset in the 16 MB *)
Class RamLaws (W : Type) `{!Machine W, !RamWorld W} : Prop := {
  ram_put : forall m (s : Sh4 W), ram_of (with_bus_ram m s) = m;
  ram_put_put : forall m m' (s : Sh4 W), with_bus_ram m (with_bus_ram m' s) = with_bus_ram m s;
  ram_put_same : forall s : Sh4 W, with_bus_ram (ram_of s) s = s;
  ram_read : forall sz a (s : Sh4 W), in_area3 a -> a mod sizeof sz = 0 ->
    memory_map_read sz mem_map a s = Ok (load (Z.to_nat (sizeof sz)) (a mod 2 ^ 24) (ram_of s), s);
  ram_write : forall sz a v (s : Sh4 W), in_area3 a -> a mod sizeof sz = 0 ->
    memory_map_write sz mem_map a v s =
      Ok (tt, with_bus_ram (store (Z.to_nat (sizeof sz)) (a mod 2 ^ 24) v (ram_of s)) s)
}.

(** a bus that has the RAM's windows *)
Lemma ram_windows_laws (W : Type) `{!Machine W, !RamWorld W} :
  (forall m (w : W), bus_ram (set_bus_ram m w) = m) ->
  (forall m m' (w : W), set_bus_ram m (set_bus_ram m' w) = set_bus_ram m w) ->
  (forall w : W, set_bus_ram (bus_ram w) w = w) ->
  ram_on_bus (ram_intf (ram_of (W := W)) with_bus_ram) mem_map -> RamLaws W.
Proof.
  intros H1 H2 H3 Hmap.
  assert (Hfind : forall sz a, in_area3 a -> a mod sizeof sz = 0 ->
    exists r, find_region a (u32 (sizeof sz - 1 + a)) (regions (mem_map (W := W))) = Some r /\
      mask r = ADDR_AREA3_MASK /\ intf r = ram_intf ram_of with_bus_ram /\
      sizeof sz = 2 ^ acc_shift sz /\ elem_addr (acc_shift sz) (a mod 2 ^ 24) = a mod 2 ^ 24 /\
      in_array (acc_shift sz) (a mod 2 ^ 24) = true).
  { intros sz a Ha Hal. assert (Hs : sizeof sz = 2 ^ acc_shift sz) by by destruct sz.
    assert (Hk : 0 <= acc_shift sz <= 3) by (destruct sz; cbn; lia).
    rewrite Hs in Hal |- *. destruct (aligned_fits (acc_shift sz) a Hk Hal) as (Hfit & He & Hin).
    assert (1 <= 2 ^ acc_shift sz <= 8) by (destruct sz; cbn; lia).
    destruct (area3_region _ a (2 ^ acc_shift sz) mem_map Hmap Ha ltac:(lia) Hfit) as (r & Hr & Hm & Hi).
    by exists r. }
  split.
  - intros m s. apply H1.
  - intros m m' s. unfold with_bus_ram. cbn. by rewrite H2.
  - intros s. unfold with_bus_ram, ram_of. rewrite H3. by destruct s.
  - intros sz a s Ha Hal. destruct (Hfind sz a Ha Hal) as (r & Hr & Hm & Hi & Hs & He & Hin).
    unfold memory_map_read. rewrite Hr, Hm, Hi, area3_offset.
    destruct sz; cbn -[Z.pow]; unfold lift_read, memory_read_8, memory_read_16, memory_read_32, memory_read_float,
      memory_read_double, read_elem; cbn [acc_shift] in Hin, He; by rewrite Hin, He.
  - intros sz a v s Ha Hal. destruct (Hfind sz a Ha Hal) as (r & Hr & Hm & Hi & Hs & He & Hin).
    unfold memory_map_write. rewrite Hr, Hm, Hi, area3_offset.
    destruct sz; cbn -[Z.pow]; unfold lift_write, memory_write_8, memory_write_16, memory_write_32, memory_write_float,
      memory_write_double, write_elem; cbn [acc_shift] in Hin, He; by rewrite Hin, He.
Qed.

(** offsets of a run of bytes that stays in one window *)
Lemma area3_step a n : in_area3 a -> 0 <= n -> a mod 2 ^ 24 + n < 2 ^ 24 ->
  in_area3 (a + n) /\ (a + n) mod 2 ^ 24 = a mod 2 ^ 24 + n /\ u32 (a + n) = a + n.
Proof.
  intros [Hr H3] Hn Hfit. unfold SH4_AREA_P4_FIRST in Hr.
  pose proof (Z.div_mod a (2 ^ 24) ltac:(lia)) as D. pose proof (Z.mod_pos_bound a (2 ^ 24) ltac:(lia)).
  assert (Hq : a / 2 ^ 24 < 0xe0) by (apply Z.div_lt_upper_bound; lia).
  assert (E : (a + n) mod 2 ^ 24 = a mod 2 ^ 24 + n).
  { symmetry. apply (Z.mod_unique _ _ (a / 2 ^ 24)); lia. }
  assert (E29 : (a + n) mod 2 ^ 29 = a mod 2 ^ 29 + n).
  { assert (E' : (a mod 2 ^ 29) mod 2 ^ 24 = a mod 2 ^ 24) by (apply Z.mod_mod_divide; by exists 32).
    pose proof (Z.div_mod (a mod 2 ^ 29) (2 ^ 24) ltac:(lia)) as D'. rewrite E' in D'.
    pose proof (Z.div_mod a (2 ^ 29) ltac:(lia)) as D2. pose proof (Z.mod_pos_bound a (2 ^ 29) ltac:(lia)).
    symmetry. apply (Z.mod_unique _ _ (a / 2 ^ 29)); lia. }
  split_and!; [split| |].
  - unfold SH4_AREA_P4_FIRST. lia.
  - rewrite E29. assert (E' : (a mod 2 ^ 29) mod 2 ^ 24 = a mod 2 ^ 24) by (apply Z.mod_mod_divide; by exists 32).
    pose proof (Z.div_mod (a mod 2 ^ 29) (2 ^ 24) ltac:(lia)) as D'. rewrite E' in D'. lia.
  - done.
  - apply wrap_small. unfold in_range. lia.
Qed.

(** the address on the bus of one in any of the seven segments below P4 *)
Lemma area3_bus a : in_area3 a ->
  in_area3 (Z.land a 0x1fffffff) /\ Z.land a 0x1fffffff mod 2 ^ 24 = a mod 2 ^ 24.
Proof.
  intros [Hr H3]. rewrite land_window. split; [|apply Z.mod_mod_divide; by exists 32].
  split; [unfold SH4_AREA_P4_FIRST; lia|]. by rewrite Z.mod_mod.
Qed.
