(* ===== verification/Ocache.v ===== *)
(** The operand cache's store queues and its use as RAM (src/libwashdc/hw/sh4/sh4_ocache.c, sh4_ocache.h),
    the address arrays of the two caches (sh4_icache.c), and the part of the address space that is the
    CPU's own (sh4_mem.c).

    The store queues are two buffers of eight words each; a program fills one by writing to the queue
    area, and the PREF instruction ([sh4_sq_pref] of Sh4Core) sends it to memory.

    A [double] is its 64 bits and a [float] its 32.  The on-chip registers of the same area are a
    parameter, and so is dropping the JIT's compiled code. *)
From stdpp Require Import gmap.
From S2P Require Import Prelude IntMath MemoryMap Memory Sh4State Board Sh4Core RamBus.
Import memory_map memory.

Definition SH4_OC_RAM_AREA_SIZE : Z := 8 * 1024.
Definition SH4_OC_RAM_AREA_MASK : Z := 0xfc000000.
Definition SH4_OC_RAM_AREA_VAL : Z := 0x7c000000.
Definition SH4_OC_ADDR_ARRAY_FIRST : Z := 0xf4000000.
Definition SH4_OC_ADDR_ARRAY_LAST : Z := 0xf4ffffff.
Definition SH4_IC_ADDR_ARRAY_FIRST : Z := 0xf0000000.
Definition SH4_IC_ADDR_ARRAY_LAST : Z := 0xf0ffffff.
Definition SH4_P4_REGSTART : Z := 0xff000000.
Definition SH4_P4_REGEND : Z := 0xfff00008.
Definition SH4_CCR_OIX_MASK : Z := Z.shiftl 1 7.
Definition SH4_CCR_ORA_MASK : Z := Z.shiftl 1 5.
Definition SH4_CCR_OCE_MASK : Z := Z.shiftl 1 0.

(** the operand cache's RAM in the rest of the machine *)
Class OcacheWorld (W : Type) : Type := {
  oc_ram_area : W -> Memory;
  set_oc_ram_area : Memory -> W -> W
}.
(** the neighbours in the P4 area *)
Class P4World (W : Type) : Type := {
  sh4_read_mem_mapped_reg : acc -> Z -> M (Sh4 W) Z;
  sh4_write_mem_mapped_reg : acc -> Z -> Z -> M (Sh4 W) unit;
  config_get_jit : bool;
  drop_compiled_code : M (Sh4 W) unit
}.

Section ocache.
Context {W : Type} {CFG : BuildConfig} {MCH : Machine W} {OW : OcacheWorld W}.
Abbreviation sh4M := (M (Sh4 W)).

(** ** The cache as RAM *)
Definition sh4_ocache_in_ram_area (addr : Z) : bool := Z.land addr SH4_OC_RAM_AREA_MASK =? SH4_OC_RAM_AREA_VAL.
Definition sh4_ocache_clear : sh4M unit := modify (fun s => with_world (set_oc_ram_area ∅ (world s)) s).
Definition sh4_ocache_get_ora_ram_addr (paddr : Z) : sh4M Z :=
  ccr <- reg_get SH4_REG_CCR ;;
  let area_offset := Z.land paddr 0xfff in
  let mask := if truth (Z.land ccr SH4_CCR_OIX_MASK) then Z.shiftl 1 25 else Z.shiftl 1 13 in
  let area_start := if truth (Z.land paddr mask) then Z.shiftr SH4_OC_RAM_AREA_SIZE 1 else 0 in
  ret (area_start + area_offset).
Definition ora_check (paddr : Z) : sh4M unit :=
  ccr <- reg_get SH4_REG_CCR ;;
  when (negb (truth (Z.land ccr SH4_CCR_OCE_MASK)) || negb (truth (Z.land ccr SH4_CCR_ORA_MASK)) || negb (sh4_ocache_in_ram_area paddr))
    (raise ERROR_INTEGRITY).
(** an access past the end of the area is undefined *)
Definition sh4_ocache_do_write_ora (sz : acc) (paddr val : Z) : sh4M unit :=
  ora_check paddr ;;
  addr <- sh4_ocache_get_ora_ram_addr paddr ;;
  when (addr + sizeof sz >? SH4_OC_RAM_AREA_SIZE) (raise C_UNDEFINED) ;;
  modify (fun s => with_world (set_oc_ram_area (store (Z.to_nat (sizeof sz)) addr val (oc_ram_area (world s))) (world s)) s).
Definition sh4_ocache_do_read_ora (sz : acc) (paddr : Z) : sh4M Z :=
  ora_check paddr ;;
  addr <- sh4_ocache_get_ora_ram_addr paddr ;;
  when (addr + sizeof sz >? SH4_OC_RAM_AREA_SIZE) (raise C_UNDEFINED) ;;
  gets (fun s => load (Z.to_nat (sizeof sz)) addr (oc_ram_area (world s))).

(** ** The store queues *)
Definition sq_invariants_check (len sq_idx : Z) : sh4M unit :=
  when (INVARIANTS && (len / 4 + sq_idx >? 8)) (raise ERROR_UNIMPLEMENTED).
Definition sq_index (addr : Z) : Z := Z.land (Z.shiftr addr 2) 0x7.
Definition sq_select (addr : Z) : Z := Z.shiftl (Z.shiftr (Z.land addr SH4_SQ_SELECT_MASK) SH4_SQ_SELECT_SHIFT) 3.
Definition sq_word (i : Z) (s : Sh4 W) : Z := nth (Z.to_nat i) (sq s) 0.
Definition sq_put (i v : Z) : sh4M unit :=
  if (0 <=? i) && (i <? 16) then modify (fun s => with_sq (<[Z.to_nat i := v]> (sq s)) s) else raise C_UNDEFINED.
(** the value is stored at the first bytes of its word, whatever the low bits of the address *)
Definition sh4_sq_write (sz : acc) (addr val : Z) : sh4M unit :=
  sq_invariants_check (sizeof sz) (sq_index addr) ;;
  let i := sq_index addr + sq_select addr in
  match sz with
  | A8 => w <- gets (sq_word i) ;; sq_put i (Z.lor (Z.land w 0xffffff00) (u8 val))
  | A16 => w <- gets (sq_word i) ;; sq_put i (Z.lor (Z.land w 0xffff0000) (u16 val))
  | A32 | Afloat => sq_put i (u32 val)
  | Adouble => sq_put i (u32 val) ;; sq_put (i + 1) (u32 (Z.shiftr val 32))
  end.
Definition sh4_sq_read (sz : acc) (addr : Z) : sh4M Z :=
  sq_invariants_check (sizeof sz) (sq_index addr) ;;
  let i := sq_index addr + sq_select addr in
  match sz with
  | A8 => gets (fun s => u8 (sq_word i s))
  | A16 => gets (fun s => u16 (sq_word i s))
  | A32 | Afloat => gets (sq_word i)
  | Adouble => when (i + 1 >=? 16) (raise C_UNDEFINED) ;; gets (fun s => Z.lor (sq_word i s) (Z.shiftl (sq_word (i + 1) s) 32))
  end.

(** ** The address arrays *)
Definition sh4_ocache_read_addr_array (sz : acc) (paddr : Z) : sh4M Z := ret 0.
Definition sh4_ocache_write_addr_array (sz : acc) (paddr val : Z) : sh4M unit := ret tt.

(** ** The P4 area *)
Context {PW : P4World W}.
Definition sh4_icache_read_addr_array (sz : acc) (paddr : Z) : sh4M Z := ret 0.
Definition sh4_icache_write_addr_array (sz : acc) (paddr val : Z) : sh4M unit := when config_get_jit drop_compiled_code.

Definition in_sq_area (addr : Z) : bool := Z.land addr SH4_SQ_AREA_MASK =? SH4_SQ_AREA_VAL.
Definition in_p4_regs (addr : Z) : bool := (addr >=? SH4_P4_REGSTART) && (addr <? SH4_P4_REGEND).
Definition in_oc_array (addr : Z) : bool := (addr >=? SH4_OC_ADDR_ARRAY_FIRST) && (addr <=? SH4_OC_ADDR_ARRAY_LAST).
Definition in_ic_array (addr : Z) : bool := (addr >=? SH4_IC_ADDR_ARRAY_FIRST) && (addr <=? SH4_IC_ADDR_ARRAY_LAST).

Definition sh4_do_write_p4 (sz : acc) (addr val : Z) : sh4M unit :=
  if in_sq_area addr then sh4_sq_write sz addr val
  else if in_p4_regs addr then sh4_write_mem_mapped_reg sz addr val
  else if in_oc_array addr then sh4_ocache_write_addr_array sz addr val
  else if in_ic_array addr then sh4_icache_write_addr_array sz addr val
  else raise ERROR_UNIMPLEMENTED.
Definition sh4_do_read_p4 (sz : acc) (addr : Z) : sh4M Z :=
  if in_sq_area addr then sh4_sq_read sz addr
  else if in_p4_regs addr then sh4_read_mem_mapped_reg sz addr
  else if in_oc_array addr then sh4_ocache_read_addr_array sz addr
  else if in_ic_array addr then sh4_icache_read_addr_array sz addr
  else if addr =? 0xfffffffc then ret 0
  else raise ERROR_UNIMPLEMENTED.
(** [false] and [None] are the return value -1 *)
Definition sh4_try_write_p4 (sz : acc) (addr val : Z) : sh4M bool :=
  if in_sq_area addr then sh4_sq_write sz addr val ;; ret true
  else if in_p4_regs addr then sh4_write_mem_mapped_reg sz addr val ;; ret true
  else if in_oc_array addr then sh4_ocache_write_addr_array sz addr val ;; ret true
  else if in_ic_array addr then sh4_icache_write_addr_array sz addr val ;; ret true
  else ret false.
Definition sh4_try_read_p4 (sz : acc) (addr : Z) : sh4M (option Z) :=
  if in_sq_area addr then v <- sh4_sq_read sz addr ;; ret (Some v)
  else if in_p4_regs addr then v <- sh4_read_mem_mapped_reg sz addr ;; ret (Some v)
  else if in_oc_array addr then v <- sh4_ocache_read_addr_array sz addr ;; ret (Some v)
  else if in_ic_array addr then v <- sh4_icache_read_addr_array sz addr ;; ret (Some v)
  else if addr =? 0xfffffffc then ret (Some 0)
  else ret None.

Definition sh4_ora_intf : memory_interface (Sh4 W) :=
  {| read_fn := fun sz => Some (sh4_ocache_do_read_ora sz); write_fn := fun sz => Some (sh4_ocache_do_write_ora sz);
     try_read_fn := fun _ => None; try_write_fn := fun _ => None |}.
Definition sh4_p4_intf : memory_interface (Sh4 W) :=
  {| read_fn := fun sz => Some (sh4_do_read_p4 sz); write_fn := fun sz => Some (sh4_do_write_p4 sz);
     try_read_fn := fun sz => Some (sh4_try_read_p4 sz); try_write_fn := fun sz => Some (sh4_try_write_p4 sz) |}.
End ocache.

(** the P4 area takes its addresses before the RAM's windows see them *)
Lemma p4_region {St} (p i : memory_interface St) m rest a n :
  add_cpu_regions p i memory_map_init = Ok (tt, m) -> SH4_AREA_P4_FIRST <= a -> 1 <= n -> a + n <= 2 ^ 32 ->
  exists r, find_region a (u32 (n - 1 + a)) (regions m ++ rest) = Some r /\ mask r = 0xffffffff /\ intf r = p.
Proof.
  intros Hm Ha Hn Hf. vm_compute in Hm. injection Hm as <-. unfold SH4_AREA_P4_FIRST in Ha.
  eexists. split; [|shelve]. rewrite find_region_app. cbn [regions find_region].
  unfold region_match at 1. cbn [range_mask first_addr last_addr]. rewrite wrap_small by (unfold in_range; lia).
  change 0xffffffff with (Z.ones 32). rewrite !Z.land_ones, !Z.mod_small by lia. change (Z.ones 32) with 0xffffffff.
  replace (a >=? 0xe0000000) with true by lia. replace (n - 1 + a <=? 0xffffffff) with true by lia. cbn [andb]. reflexivity.
  Unshelve. split; reflexivity.
Qed.

(** ** A burst: eight stores to a queue and its transfer *)
Section burst.
Context {W : Type} {CFG : BuildConfig} {MCH : Machine W} {PW : P4World W}.
Context `{!RamWorld W, !RamLaws W}.
Abbreviation sh4M := (M (Sh4 W)).

(** the bus as [construct_sh4_mem_map] begins it; any devices follow *)
Definition cpu_bus : Prop :=
  exists m rest, add_cpu_regions sh4_p4_intf (ram_intf (ram_of (W := W)) with_bus_ram) memory_map_init = Ok (tt, m) /\
    regions (mem_map (W := W)) = regions m ++ rest.

(** a program's stores of consecutive words *)
Fixpoint store_words (a : Z) (ws : list Z) : sh4M unit :=
  match ws with
  | [] => ret tt
  | w :: ws' => memory_map_write A32 mem_map a w ;; store_words (a + 4) ws'
  end.

Lemma cpu_bus_ram : cpu_bus -> ram_on_bus (ram_intf (ram_of (W := W)) with_bus_ram) mem_map.
Proof. intros (m & rest & Hm & Hr). exists m, rest. split; [done|right]. by eexists. Qed.

Lemma p4_write sz a v (s : Sh4 W) : cpu_bus -> SH4_AREA_P4_FIRST <= a -> a + sizeof sz <= 2 ^ 32 ->
  memory_map_write sz mem_map a v s = sh4_do_write_p4 sz a v s.
Proof.
  intros (m & rest & Hm & Hrs) Ha Hf. assert (1 <= sizeof sz) by by destruct sz.
  destruct (p4_region _ _ m rest a (sizeof sz) Hm Ha ltac:(done) Hf) as (r & Hr & Hk & Hi).
  unfold memory_map_write. rewrite Hrs, Hr, Hk, Hi. unfold SH4_AREA_P4_FIRST in Ha.
  change 0xffffffff with (Z.ones 32). by rewrite Z.land_ones, Z.mod_small by lia.
Qed.

(** the two queues are one array of sixteen words, selected by bits 2 to 5 of the address *)
Lemma sq_slot x : 0 <= x -> sq_index (0xe0000000 + x) + sq_select (0xe0000000 + x) = (x / 4) mod 16.
Proof.
  intros Hx. unfold sq_index, sq_select. change SH4_SQ_SELECT_MASK with (Z.shiftl (Z.ones 1) 5).
  change 7 with (Z.ones 3). rewrite land_field, Z.land_ones, !Z.shiftr_div_pow2, Z.shiftl_mul_pow2 by (done || lia).
  unfold SH4_SQ_SELECT_SHIFT. Z.div_mod_to_equations; lia.
Qed.

Lemma sq_area x : 0 <= x < 2 ^ 26 -> in_sq_area (0xe0000000 + x) = true.
Proof.
  intros Hx. unfold in_sq_area, SH4_SQ_AREA_VAL. change SH4_SQ_AREA_MASK with (Z.shiftl (Z.ones 6) 26).
  rewrite land_field by lia. apply Z.eqb_eq. Z.div_mod_to_equations; lia.
Qed.

Lemma sq_store x v (s : Sh4 W) : 0 <= x < 2 ^ 26 ->
  sh4_do_write_p4 A32 (0xe0000000 + x) v s = Ok (tt, with_sq (<[Z.to_nat ((x / 4) mod 16) := u32 v]> (sq s)) s).
Proof.
  intros Hx. unfold sh4_do_write_p4, sh4_sq_write. rewrite sq_area, sq_slot by lia.
  assert (Hi : 0 <= sq_index (0xe0000000 + x) < 8).
  { unfold sq_index. change 7 with (Z.ones 3). rewrite Z.land_ones by lia. apply Z.mod_pos_bound. lia. }
  unfold sq_invariants_check, sq_put. cbn [sizeof]. change (4 / 4) with 1.
  replace (1 + sq_index (0xe0000000 + x) >? 8) with false by lia. rewrite andb_false_r.
  pose proof (Z.mod_pos_bound (x / 4) 16 ltac:(lia)).
  replace (0 <=? (x / 4) mod 16) with true by lia. by replace ((x / 4) mod 16 <? 16) with true by lia.
Qed.

Lemma splice_nil i (l : list Z) : splice i [] l = l.
Proof. unfold splice. cbn [length app]. by rewrite Nat.add_0_r, take_drop. Qed.

Lemma splice_insert i v vs (l : list Z) : (i < length l)%nat -> splice (S i) vs (<[i := v]> l) = splice i (v :: vs) l.
Proof.
  intros Hi. unfold splice. rewrite (take_S_r _ _ v) by by apply list_lookup_insert_eq.
  rewrite take_insert_ge, drop_insert_lt, <- app_assoc by lia. cbn [app length]. by rewrite Nat.add_succ_r.
Qed.

Lemma splice_slice i vs (l : list Z) n :
  (i <= length l)%nat -> n = length vs -> take n (drop i (splice i vs l)) = vs.
Proof.
  intros H ->. unfold splice. rewrite drop_app_length' by by rewrite length_take_le. by rewrite take_app_length.
Qed.

Lemma store_words_sq ws k (i : nat) (s : Sh4 W) :
  cpu_bus -> 0 <= k < 2 ^ 20 -> (i + length ws <= 16)%nat -> length (sq s) = 16%nat ->
  store_words (0xe0000000 + (64 * k + 4 * Z.of_nat i)) ws s = Ok (tt, with_sq (splice i (map u32 ws) (sq s)) s).
Proof.
  intros Hb Hk. revert i s. induction ws as [|w ws IH]; intros i s Hi Hl; cbn [length map] in *.
  { rewrite splice_nil. by destruct s. }
  set (x := 64 * k + 4 * Z.of_nat i). assert (Hx : (x / 4) mod 16 = Z.of_nat i) by (subst x; Z.div_mod_to_equations; lia).
  assert (0 <= x < 2 ^ 26) by (subst x; lia).
  cbn [store_words]. unfold bind at 1. rewrite p4_write by (done || (unfold SH4_AREA_P4_FIRST; cbn [sizeof]; lia)).
  rewrite sq_store, Hx, Nat2Z.id by done. replace (0xe0000000 + x + 4) with (0xe0000000 + (64 * k + 4 * Z.of_nat (S i))) by (subst x; lia).
  rewrite IH; [|lia|by cbn; rewrite length_insert]. cbn [sq with_sq]. by rewrite splice_insert by lia.
Qed.

Lemma sq_pref_ram n k (r : memory_map_region (Sh4 W)) a idx (s : Sh4 W) :
  intf r = ram_intf (ram_of (W := W)) with_bus_ram -> mask r = ADDR_AREA3_MASK ->
  in_area3 a -> a mod 32 = 0 -> 0 <= k -> k + Z.of_nat n <= 8 -> 0 <= idx -> idx + 8 <= Z.of_nat (length (sq s)) ->
  sq_pref_words n k r a idx s =
    Ok (tt, with_bus_ram (store_bytes (a mod 2 ^ 24 + 4 * k) (flat_map (le_bytes 4) (take n (drop (Z.to_nat (idx + k)) (sq s))))
                            (ram_of s)) s).
Proof.
  intros Hi Hm Ha Hal. revert k s. induction n as [|n IH]; intros k s Hk Hn H0 Hl; cbn [sq_pref_words].
  { rewrite take_0. cbn [flat_map store_bytes]. by rewrite ram_put_same. }
  assert (Hf : a mod 2 ^ 24 + 32 <= 2 ^ 24) by (Z.div_mod_to_equations; lia).
  destruct (area3_step a (4 * k) Ha ltac:(lia) ltac:(lia)) as (Ha' & Hmod & Hu).
  destruct (aligned_fits 2 (a + 4 * k) ltac:(lia) ltac:(Z.div_mod_to_equations; lia)) as (_ & He & Hin).
  destruct (lookup_lt_is_Some_2 (sq s) (Z.to_nat (idx + k)) ltac:(lia)) as [v Hv].
  unfold bind, gets. rewrite Hi, Hm, Hu, area3_offset, (nth_lookup_Some _ _ _ _ Hv).
  cbn [ram_intf write_fn fmap option_fmap option_map call_ptr]. unfold lift_write, memory_write_32, write_elem.
  rewrite Hin, He, Hmod, store_le_bytes. change (Z.to_nat (2 ^ 2)) with 4%nat.
  rewrite IH by (done || lia). cbn [sq with_world with_bus_ram].
  rewrite ram_put, ram_put_put, (drop_S _ _ _ Hv), firstn_cons. cbn [flat_map].
  rewrite store_bytes_app, length_le_bytes.
  replace (Z.to_nat (idx + (k + 1))) with (S (Z.to_nat (idx + k))) by lia.
  by replace (a mod 2 ^ 24 + 4 * (k + 1)) with (a mod 2 ^ 24 + 4 * k + Z.of_nat 4) by lia.
Qed.

Lemma sq_pref_area3 a (s : Sh4 W) :
  cpu_bus -> 0 <= a < 2 ^ 26 -> a mod 32 = 0 -> length (sq s) = 16%nat ->
  Z.shiftr (Z.land (getr (SH4_REG_QACR0 + (a / 32) mod 2) s) SH4_QACR_MASK) SH4_QACR_SHIFT = 3 ->
  sh4_sq_pref (0xe0000000 + a) s =
    Ok (tt, with_bus_ram (store_bytes (a mod 2 ^ 24)
                            (flat_map (le_bytes 4) (take 8 (drop (Z.to_nat (8 * ((a / 32) mod 2))) (sq s)))) (ram_of s)) s).
Proof.
  intros Hb Ha Hal Hl Hq. pose proof (Z.mod_pos_bound (a / 32) 2 ltac:(lia)).
  assert (Hsel : Z.shiftr (Z.land (0xe0000000 + a) SH4_SQ_SELECT_MASK) SH4_SQ_SELECT_SHIFT = (a / 32) mod 2).
  { change SH4_SQ_SELECT_MASK with (Z.shiftl (Z.ones 1) 5). rewrite land_field, Z.shiftr_div_pow2 by (done || lia).
    unfold SH4_SQ_SELECT_SHIFT. Z.div_mod_to_equations; lia. }
  assert (Hadr : Z.lor (Z.land (0xe0000000 + a) SH4_SQ_ADDR_MASK) (u32 (Z.shiftl 3 26)) = 0x0c000000 + a).
  { change SH4_SQ_ADDR_MASK with (Z.shiftl (Z.ones 21) 5). change (u32 (Z.shiftl 3 26)) with (Z.shiftl 3 26).
    rewrite land_field by lia. replace (_ * 2 ^ 5) with a by (Z.div_mod_to_equations; lia).
    rewrite lor_shiftl_add by (done || lia). lia. }
  unfold sh4_sq_pref, bind at 1, reg_get, gets. rewrite Hsel, Hq, Hadr.
  assert (H3 : in_area3 (0x0c000000 + a)).
  { unfold in_area3, SH4_AREA_P4_FIRST. rewrite (Z.mod_small _ (2 ^ 29)) by lia. lia. }
  assert (Hm24 : (0x0c000000 + a) mod 2 ^ 24 = a mod 2 ^ 24).
  { change 0x0c000000 with (12 * 2 ^ 24). by rewrite Z.add_comm, Z_mod_plus_full. }
  assert (Hf : a mod 2 ^ 24 + 32 <= 2 ^ 24) by (Z.div_mod_to_equations; lia).
  destruct (area3_region _ (0x0c000000 + a) 32 mem_map (cpu_bus_ram Hb) H3 ltac:(lia) ltac:(by rewrite Hm24)) as (r & Hr & Hm & Hi).
  unfold memory_map_get_region. replace (0x0c000000 + a + (32 - 1)) with (32 - 1 + (0x0c000000 + a)) by lia. rewrite Hr.
  rewrite Z.shiftl_mul_pow2 by lia. rewrite sq_pref_ram; try done; try lia; [|Z.div_mod_to_equations; lia].
  rewrite Hm24, Z.add_0_r. change (2 ^ 3) with 8. by rewrite Z.add_0_r, (Z.mul_comm _ 8).
Qed.

(** C12: a store-queue burst, on the bus as the machine builds it.  A program that stores eight words at
    consecutive addresses of the queue area, from a multiple of 32, and then prefetches the first address,
    with the queue's QACR register naming area 3, has its 32 bytes written in order to the main memory at
    the physical address that the low 26 bits name.  The words stay in the queue that bit 5 of the address
    selects; the other queue, every other byte of the memory and the rest of the state are as before. *)
Theorem store_queue_burst a ws (s : Sh4 W) :
  cpu_bus -> 0 <= a < 2 ^ 26 -> a mod 32 = 0 -> length ws = 8%nat -> Forall (in_range 32) ws -> length (sq s) = 16%nat ->
  Z.shiftr (Z.land (getr (SH4_REG_QACR0 + (a / 32) mod 2) s) SH4_QACR_MASK) SH4_QACR_SHIFT = 3 ->
  (store_words (0xe0000000 + a) ws ;; sh4_sq_pref (0xe0000000 + a)) s =
    Ok (tt, with_bus_ram (store_bytes (a mod 2 ^ 24) (flat_map (le_bytes 4) ws) (ram_of s))
              (with_sq (splice (Z.to_nat (8 * ((a / 32) mod 2))) ws (sq s)) s)).
Proof.
  intros Hb Ha Hal Hw Ht Hl Hq. set (q := (a / 32) mod 2) in *.
  assert (0 <= q < 2) by (apply Z.mod_pos_bound; lia).
  assert (Hws : map u32 ws = ws).
  { clear -Ht. induction Ht as [|w ws Hw _ IH]; [done|]. cbn. by rewrite IH, wrap_small. }
  unfold bind. replace (0xe0000000 + a) with (0xe0000000 + (64 * (a / 64) + 4 * Z.of_nat (Z.to_nat (8 * q))))
    by (subst q; Z.div_mod_to_equations; lia).
  rewrite store_words_sq by (done || (Z.div_mod_to_equations; lia)). rewrite Hws.
  replace (0xe0000000 + (64 * (a / 64) + 4 * Z.of_nat (Z.to_nat (8 * q)))) with (0xe0000000 + a)
    by (subst q; Z.div_mod_to_equations; lia).
  rewrite sq_pref_area3; [|done..|cbn; rewrite length_splice; lia|done]. cbn [sq with_sq]. by rewrite splice_slice by lia.
Qed.
End burst.

(** *** A machine with the RAM behind the P4 area *)
Record sq_board : Type := { sb_ram : Memory }.
#[local] Instance sq_ram : RamWorld sq_board := {| bus_ram := sb_ram; set_bus_ram := fun m _ => {| sb_ram := m |} |}.
#[local] Instance sq_p4 : P4World sq_board := {|
  sh4_read_mem_mapped_reg := fun _ _ => ret 0; sh4_write_mem_mapped_reg := fun _ _ _ => ret tt;
  config_get_jit := false; drop_compiled_code := ret tt
|}.
Definition sq_map : memory_map (Sh4 sq_board) :=
  match add_cpu_regions sh4_p4_intf (ram_intf (ram_of (W := sq_board)) with_bus_ram) memory_map_init with
  | Ok (_, m) => m
  | Err _ => memory_map_init
  end.
#[local] Instance sq_machine : Machine sq_board := {|
  mem_map := sq_map; sched_refresh_intc := fun b => Ok b;
  dc_debugger_enabled := fun _ => false; debug_on_softbreak := fun _ _ => ret tt;
  fpu_inst := fun _ _ => raise ERROR_UNIMPLEMENTED
|}.
Lemma sq_cpu_bus : cpu_bus (W := sq_board).
Proof. exists sq_map, []. split; [done|by rewrite app_nil_r]. Qed.
#[local] Instance sq_ram_laws : RamLaws sq_board.
Proof. apply ram_windows_laws; [done..|by intros []|exact (cpu_bus_ram sq_cpu_bus)]. Qed.

Definition sq_cpu : Sh4 sq_board :=
  let c := cpu_with [(SH4_REG_QACR1, 0x0c)] ∅ in
  {| reg := reg c; delayed_branch := false; delayed_branch_addr := 0; exec_state := SH4_EXEC_STATE_NORM;
     last_inst_type := SH4_GROUP_NONE; aborted_operation := false; sq := sq c; intc := idle_intc; fround := FE_TONEAREST;
     world := {| sb_ram := ∅ |} |}.

(** a line sent through the second queue *)
Lemma store_queue_burst_witness :
  exists s', (store_words 0xe0001020 [0x03020100; 1; 2; 3; 4; 5; 6; 0x1f] ;; sh4_sq_pref 0xe0001020) sq_cpu = Ok (tt, s') /\
    load_bytes 32 0x1020 (ram_of s') =
      [0; 1; 2; 3; 1; 0; 0; 0; 2; 0; 0; 0; 3; 0; 0; 0; 4; 0; 0; 0; 5; 0; 0; 0; 6; 0; 0; 0; 0x1f; 0; 0; 0].
Proof.
  eexists. split.
  - apply (store_queue_burst 0x1020); [exact sq_cpu_bus|done|done|done|by repeat constructor|done|by vm_compute].
  - by vm_compute.
Defined.
