(* ===== verification/Yuv.v ===== *)
(** The YUV converter of the PowerVR2 (src/libwashdc/hw/pvr2/pvr2_yuv.c, pvr2_yuv.h, and the converter's
    registers in pvr2_reg.c).

    The program sends a film frame as a stream of 16x16-pixel macroblocks, each of them 64 bytes of U,
    64 of V and four 8x8 squares of Y; the converter collects a macroblock, interleaves its components
    to pairs of pixels (U, Y0, V, Y1) and stores its 16 rows in texture memory, 1024 bytes apart; after
    the last macroblock an event on the clock raises an interrupt.

    The rest of the PowerVR2 and the clock are reached through classes. *)
From stdpp Require Import gmap.
From S2P Require Import Prelude IntMath MemoryMap Memory Sh4State Board Sh4Core Sh4Excp Sched Sh4Exec.
From S2P Require Import Frame Sh4Irl Events Holly GfxObj TexCache TexRead TexCoherent RamBus.
Import memory sched.

Inductive pvr2_yuv_fmt : Type := PVR2_YUV_FMT_420 | PVR2_YUV_FMT_422.
#[export] Instance pvr2_yuv_fmt_eq_dec : EqDecision pvr2_yuv_fmt.
Proof. solve_decision. Defined.

Record pvr2_yuv : Type := {
  dst_addr : Z;
  yuv_fmt : pvr2_yuv_fmt;
  macroblock_offset : Z;
  cur_macroblock_x : Z; cur_macroblock_y : Z;
  macroblock_count_x : Z; macroblock_count_y : Z;
  u_buf : list Z; v_buf : list Z; y_buf : list Z;
  yuv_complete_event_scheduled : bool
}.

Definition upd_yuv_bufs (offset : Z) (u v lum : list Z) (y : pvr2_yuv) : pvr2_yuv :=
  {| dst_addr := dst_addr y; yuv_fmt := yuv_fmt y; macroblock_offset := offset; cur_macroblock_x := cur_macroblock_x y;
     cur_macroblock_y := cur_macroblock_y y; macroblock_count_x := macroblock_count_x y; macroblock_count_y := macroblock_count_y y;
     u_buf := u; v_buf := v; y_buf := lum; yuv_complete_event_scheduled := yuv_complete_event_scheduled y |}.
Definition upd_yuv_cursor (mx my : Z) (y : pvr2_yuv) : pvr2_yuv :=
  {| dst_addr := dst_addr y; yuv_fmt := yuv_fmt y; macroblock_offset := macroblock_offset y; cur_macroblock_x := mx;
     cur_macroblock_y := my; macroblock_count_x := macroblock_count_x y; macroblock_count_y := macroblock_count_y y;
     u_buf := u_buf y; v_buf := v_buf y; y_buf := y_buf y; yuv_complete_event_scheduled := yuv_complete_event_scheduled y |}.
Definition upd_yuv_scheduled (b : bool) (y : pvr2_yuv) : pvr2_yuv :=
  {| dst_addr := dst_addr y; yuv_fmt := yuv_fmt y; macroblock_offset := macroblock_offset y; cur_macroblock_x := cur_macroblock_x y;
     cur_macroblock_y := cur_macroblock_y y; macroblock_count_x := macroblock_count_x y; macroblock_count_y := macroblock_count_y y;
     u_buf := u_buf y; v_buf := v_buf y; y_buf := y_buf y; yuv_complete_event_scheduled := b |}.
Definition upd_yuv_offset (offset : Z) (y : pvr2_yuv) : pvr2_yuv := upd_yuv_bufs offset (u_buf y) (v_buf y) (y_buf y) y.

Definition PVR2_YUV_COMPLETE_INT_DELAY : Z := SCHED_FREQUENCY / 1024.

(** the PowerVR2 in the rest of the machine, with the input of its tile accelerator, which is not modelled *)
Class PvrWorld (W Img : Type) : Type := {
  pvr : W -> pvr2 Img;
  set_pvr : pvr2 Img -> W -> W;
  pvr2_ta_fifo_poly_write_32 : Z -> Z -> M (Sh4 W) unit
}.
(** the converter, its two registers in [reg_backing] and the address of its event *)
Class YuvWorld (W : Type) : Type := {
  yuv : W -> pvr2_yuv;
  set_yuv : pvr2_yuv -> W -> W;
  ta_yuv_tex_base : W -> Z;
  ta_yuv_tex_ctrl : W -> Z;
  set_yuv_regs : Z -> Z -> W -> W;
  pvr2_yuv_complete_int_event : Z
}.

(** an element of an array whose index is in range *)
Definition elem (l : list Z) (i : Z) : Z := nth (Z.to_nat i) l 0.

Section yuv.
Context {W Img : Type} {CFG : BuildConfig} {MCH : Machine W}.
Context {PW : PvrWorld W Img} {YW : YuvWorld W} {HW : HollyWorld W} {EW : EventWorld W}.
Abbreviation sh4M := (M (Sh4 W)).
Abbreviation pvrM := (M (pvr2 Img)).

(** the PowerVR2 reads the time from the clock of the CPU *)
Definition pvr_of (s : Sh4 W) : pvr2 Img := upd_now (clock_cycle_stamp (evclk_of s)) (pvr (world s)).
Definition with_pvr (p : pvr2 Img) (s : Sh4 W) : Sh4 W := with_world (set_pvr p (world s)) s.
Definition on_pvr {A} (m : pvrM A) : sh4M A :=
  fun s => match m (pvr_of s) with Ok (a, p) => Ok (a, with_pvr p s) | Err e => Err e end.

Definition yuv_of (s : Sh4 W) : pvr2_yuv := yuv (world s).
Definition with_yuv (y : pvr2_yuv) (s : Sh4 W) : Sh4 W := with_world (set_yuv y (world s)) s.
Definition yuv_get {A} (f : pvr2_yuv -> A) : sh4M A := gets (fun s => f (yuv_of s)).
Definition yuv_mod (f : pvr2_yuv -> pvr2_yuv) : sh4M unit := modify (fun s => with_yuv (f (yuv_of s)) s).
Definition get_ta_yuv_tex_base (s : Sh4 W) : Z := ta_yuv_tex_base (world s).
Definition get_ta_yuv_tex_ctrl (s : Sh4 W) : Z := ta_yuv_tex_ctrl (world s).

(** ** The completion interrupt *)
Definition pvr2_yuv_complete_int_event_handler : sh4M unit :=
  yuv_mod (upd_yuv_scheduled false) ;;
  holly_raise_nrm_int HOLLY_REG_ISTNRM_PVR_YUV_COMPLETE.

Definition pvr2_yuv_schedule_int : sh4M unit :=
  scheduled <- yuv_get yuv_complete_event_scheduled ;;
  when (negb scheduled)
    (now <- gets (fun s => clock_cycle_stamp (evclk_of s)) ;;
     yuv_mod (upd_yuv_scheduled true) ;;
     on_evclk (sched_at pvr2_yuv_complete_int_event (u64 (now + PVR2_YUV_COMPLETE_INT_DELAY)))).

(** ** Registers *)
Definition yuv_check_ctrl : sh4M Z :=
  tex_ctrl <- gets get_ta_yuv_tex_ctrl ;;
  when (truth (Z.land tex_ctrl (Z.shiftl 1 16))) (raise ERROR_UNIMPLEMENTED) ;;
  when (truth (Z.land tex_ctrl (Z.shiftl 1 24))) (raise ERROR_UNIMPLEMENTED) ;;
  ret tex_ctrl.

Definition pvr2_yuv_set_base (new_base : Z) : sh4M unit :=
  tex_ctrl <- yuv_check_ctrl ;;
  yuv_mod (fun y =>
    {| dst_addr := new_base; yuv_fmt := PVR2_YUV_FMT_420; macroblock_offset := 0; cur_macroblock_x := 0; cur_macroblock_y := 0;
       macroblock_count_x := Z.land tex_ctrl 0x3f + 1; macroblock_count_y := Z.land (Z.shiftr tex_ctrl 8) 0x3f + 1;
       u_buf := u_buf y; v_buf := v_buf y; y_buf := y_buf y; yuv_complete_event_scheduled := yuv_complete_event_scheduled y |}).

Definition write_ta_yuv_tex_base (val : Z) : sh4M unit :=
  modify (fun s => with_world (set_yuv_regs val (get_ta_yuv_tex_ctrl s) (world s)) s) ;;
  pvr2_yuv_set_base (Z.land val (intmath.BIT_RANGE 3 23)).
Definition write_ta_yuv_tex_ctrl (val : Z) : sh4M unit :=
  modify (fun s => with_world (set_yuv_regs (get_ta_yuv_tex_base s) val (world s)) s).

(** ** A macroblock *)

(** where the first of the two luminances of a pair of pixels is in [y_buf] *)
Definition lum_index (row col : Z) : Z :=
  let '(lum_start, col_lum, row_lum) :=
    if row <? 8 then if col <? 4 then (0, col, row) else (0x40, col - 4, row)
    else if col <? 4 then (0x80, col, row - 8) else (0xc0, col - 4, row - 8) in
  row_lum * 8 + col_lum * 2 + lum_start.

(** [block[row][col]] *)
Definition block_word (y : pvr2_yuv) (row col : Z) : Z :=
  let lum0 := elem (y_buf y) (lum_index row col) in
  let lum1 := elem (y_buf y) (lum_index row col + 1) in
  let u_val := elem (u_buf y) (row / 2 * 8 + col) in
  let v_val := elem (v_buf y) (row / 2 * 8 + col) in
  u32 (Z.lor (Z.lor (Z.lor (Z.shiftl lum0 8) (Z.shiftl lum1 24)) u_val) (Z.shiftl v_val 16)).
Definition block_row (y : pvr2_yuv) (row : Z) : list Z :=
  concat (map (fun col => le_bytes 4 (block_word y row (Z.of_nat col))) (seq 0 8)).

Definition linestride : Z := 512 * 2.

(** the loop over the rows from [row] on; [row_ptr] is an index in the array of 32-bit words *)
Fixpoint store_rows (n : nat) (block : Z -> list Z) (row row_ptr addr_base : Z) : pvrM unit :=
  match n with
  | O => ret tt
  | S n' =>
      when (4 * row_ptr + 32 >? PVR2_TEX_MEM_LEN) (raise C_UNDEFINED) ;;
      modify (fun p => upd_tex64 (store_bytes (4 * row_ptr) (block row) (tex64 p)) p) ;;
      let row_ptr := row_ptr + linestride / 4 in
      let addr_base := u32 (addr_base + linestride) in
      pvr2_framebuffer_notify_write (u32 (ADDR_TEX64_FIRST + addr_base)) 32 ;;
      pvr2_tex_cache_notify_write (u32 (ADDR_TEX64_FIRST + addr_base)) 32 ;;
      store_rows n' block (row + 1) row_ptr addr_base
  end.

Definition pvr2_yuv_macroblock : sh4M unit :=
  y <- yuv_get (fun y => y) ;;
  when (cur_macroblock_x y >=? macroblock_count_x y) (raise ERROR_INTEGRITY) ;;
  when (cur_macroblock_y y >=? macroblock_count_y y) (raise ERROR_UNIMPLEMENTED) ;;
  let macroblock_offs := u32 (linestride * 16 * cur_macroblock_y y + cur_macroblock_x y * 8 * 4) in
  let row_offs32 := u32 (dst_addr y / 4 + macroblock_offs / 4) in
  on_pvr (store_rows 16 (block_row y) 0 row_offs32 (u32 (4 * row_offs32))) ;;
  let next_x := u32 (cur_macroblock_x y + 1) in
  (if next_x >=? macroblock_count_x y then yuv_mod (upd_yuv_cursor 0 (u32 (cur_macroblock_y y + 1)))
   else yuv_mod (upd_yuv_cursor next_x (cur_macroblock_y y))) ;;
  y <- yuv_get (fun y => y) ;;
  when (cur_macroblock_y y =? macroblock_count_y y) pvr2_yuv_schedule_int.

(** ** Input *)
Definition store_elem (i v : Z) (l : list Z) : list Z := <[Z.to_nat i := u8 v]> l.
Definition pvr2_yuv_input_byte (dat : Z) : sh4M unit :=
  y <- yuv_get (fun y => y) ;;
  when (negb (bool_decide (yuv_fmt y = PVR2_YUV_FMT_420))) (raise ERROR_UNIMPLEMENTED) ;;
  let o := macroblock_offset y in
  (if o <? 64 then yuv_mod (upd_yuv_bufs (o + 1) (store_elem o dat (u_buf y)) (v_buf y) (y_buf y))
   else if o <? 128 then yuv_mod (upd_yuv_bufs (o + 1) (u_buf y) (store_elem (o - 64) dat (v_buf y)) (y_buf y))
   else if o <? 384 then yuv_mod (upd_yuv_bufs (o + 1) (u_buf y) (v_buf y) (store_elem (o - 128) dat (y_buf y)))
   else raise ERROR_INTEGRITY) ;;
  o <- yuv_get macroblock_offset ;;
  when (o =? 384)
    (yuv_mod (upd_yuv_offset 0) ;;
     when ((cur_macroblock_x y >=? macroblock_count_x y) || (cur_macroblock_y y >=? macroblock_count_y y)) (raise ERROR_INTEGRITY) ;;
     pvr2_yuv_macroblock).

(** [while (n_bytes)] *)
Fixpoint input_bytes (dat : list Z) : sh4M unit :=
  match dat with [] => ret tt | b :: dat' => pvr2_yuv_input_byte b ;; input_bytes dat' end.
Definition pvr2_yuv_input_data (dat : list Z) : sh4M unit :=
  yuv_check_ctrl ;;
  dst <- yuv_get dst_addr ;;
  when (u32 (dst + 3) >=? PVR2_TEX_MEM_LEN) (raise ERROR_INTEGRITY) ;;
  input_bytes dat.
End yuv.
