(* ===== verification/YuvPicture.v ===== *)
(** What the YUV converter makes of a frame: the specification by pixels, and the proof that a frame
    that is fed byte by byte, in pieces of any size, becomes that picture. *)
From stdpp Require Import gmap.
From S2P Require Import Prelude IntMath MemoryMap Memory Sh4State Board Sh4Core Sh4Excp Sched Sh4Exec.
From S2P Require Import Frame Sh4Irl Events Holly GfxObj TexCache TexRead TexCoherent RamBus Yuv.
Import memory sched.

Ltac dlia := Z.div_mod_to_equations; lia.

(** ** The picture

    In a frame of [cx] macroblocks per row the macroblock of a pixel is the [(y / 16) * cx + x / 16]-th;
    in its 384 bytes, every two by two pixels share a byte of U and one of V, and the luminances are in
    four squares.  A pixel takes two bytes: U or V, by the parity of its column, and its luminance. *)
Definition in_block (r j : Z) : Z :=
  if Z.odd j then 128 + 64 * (2 * (r / 8) + j / 16) + 8 * (r mod 8) + (j / 2) mod 8
  else (if Z.even (j / 2) then 0 else 64) + 8 * (r / 2) + j / 4.
Definition frame_index (cx x y k : Z) : Z := 384 * (y / 16 * cx + x / 16) + in_block (y mod 16) (2 * (x mod 16) + k).

(** the byte of the frame that belongs at an address of texture memory *)
Definition yuv_src (dst cx a : Z) : option Z :=
  let o := a - dst in
  let c := o mod 1024 in
  if (0 <=? o) && (c <? 32 * cx) then Some (384 * (o / 1024 / 16 * cx + c / 32) + in_block (o / 1024 mod 16) (c mod 32)) else None.

Lemma in_block_range r j : 0 <= r < 16 -> 0 <= j < 32 -> 0 <= in_block r j < 384.
Proof.
  intros Hr Hj. unfold in_block. pose proof (Z.div_lt_upper_bound r 8 2 ltac:(lia) ltac:(lia)). pose proof (Z.div_pos r 8 ltac:(lia) ltac:(lia)).
  pose proof (Z.mod_pos_bound r 8 ltac:(lia)). pose proof (Z.mod_pos_bound (j / 2) 8 ltac:(lia)).
  pose proof (Z.div_lt_upper_bound j 16 2 ltac:(lia) ltac:(lia)). pose proof (Z.div_pos j 16 ltac:(lia) ltac:(lia)).
  pose proof (Z.div_lt_upper_bound j 4 8 ltac:(lia) ltac:(lia)). pose proof (Z.div_pos j 4 ltac:(lia) ltac:(lia)).
  pose proof (Z.div_lt_upper_bound r 2 8 ltac:(lia) ltac:(lia)). pose proof (Z.div_pos r 2 ltac:(lia) ltac:(lia)).
  destruct (Z.odd j), (Z.even (j / 2)); lia.
Qed.

Lemma yuv_src_nonneg dst cx a i : 0 <= cx -> yuv_src dst cx a = Some i -> 0 <= i.
Proof.
  intros Hcx. unfold yuv_src. destruct (Z.leb_spec 0 (a - dst)); [|done]. destruct (_ <? _); [|done]. intros [= <-].
  pose proof (in_block_range ((a - dst) / 1024 mod 16) ((a - dst) mod 1024 mod 32) ltac:(dlia) ltac:(dlia)).
  assert (0 <= (a - dst) / 1024 / 16) by dlia. assert (0 <= (a - dst) mod 1024 / 32) by dlia. nia.
Qed.

(** ** The words of a macroblock *)

(** the macroblock as it was sent *)
Definition sent (y : pvr2_yuv) : list Z := u_buf y ++ v_buf y ++ y_buf y.
Record bufs_ok (y : pvr2_yuv) : Prop := {
  bo_u : length (u_buf y) = 64%nat; bo_v : length (v_buf y) = 64%nat; bo_y : length (y_buf y) = 256%nat;
  bo_bytes : Forall (in_range 8) (sent y)
}.

Lemma elem_sent y i : bufs_ok y -> 0 <= i ->
  elem (sent y) i = if i <? 64 then elem (u_buf y) i else if i <? 128 then elem (v_buf y) (i - 64) else elem (y_buf y) (i - 128).
Proof.
  intros [Hu Hv _ _] Hi. unfold elem, sent. destruct (Z.ltb_spec i 64).
  { apply app_nth1. lia. }
  rewrite app_nth2 by lia. destruct (Z.ltb_spec i 128).
  { rewrite app_nth1 by lia. f_equal. lia. }
  rewrite app_nth2 by lia. f_equal. lia.
Qed.

Lemma elem_range l i : Forall (in_range 8) l -> in_range 8 (elem l i).
Proof.
  intros H. unfold elem. destruct (nth_in_or_default (Z.to_nat i) l 0) as [Hin| ->]; [|by unfold in_range].
  rewrite list.Forall_forall in H. apply H. by apply list_elem_of_In.
Qed.

Lemma le_bytes_word u y0 v y1 : in_range 8 u -> in_range 8 y0 -> in_range 8 v -> in_range 8 y1 ->
  le_bytes 4 (u32 (Z.lor (Z.lor (Z.lor (Z.shiftl y0 8) (Z.shiftl y1 24)) u) (Z.shiftl v 16))) = [u; y0; v; y1].
Proof.
  intros Hu H0 Hv H1. assert (Hb : Forall (in_range 8) [u; y0; v; y1]) by (repeat (apply list.Forall_cons; split; [done|]); by apply list.Forall_nil).
  rewrite <- (le_bytes_val _ Hb). change (length [u; y0; v; y1]) with 4%nat. f_equal.
  pose proof (le_val_range _ Hb) as Hr. rewrite <- (wrap_small 32 (le_val _) Hr). f_equal. cbn [le_val].
  rewrite Z.shiftl_0_l, Z.lor_0_r, !Z.shiftl_lor, !Z.shiftl_shiftl by lia. cbn [Z.add Pos.add].
  rewrite (Z.lor_comm (Z.lor (Z.lor _ _) _)), (Z.lor_comm (Z.lor _ _) u).
  rewrite (Z.lor_comm (Z.shiftl v 16)), <- Z.lor_assoc. f_equal. rewrite <- Z.lor_assoc. f_equal. apply Z.lor_comm.
Qed.

Lemma nth_concat4 (f : nat -> list Z) col q : (forall c, length (f c) = 4%nat) -> (col < 8)%nat -> (q < 4)%nat ->
  nth (4 * col + q) (concat (map f (seq 0 8))) 0 = nth q (f col) 0.
Proof.
  intros Hf Hc Hq. assert (H : forall n k, (col < n)%nat ->
    nth (4 * col + q) (concat (map f (seq k n))) 0 = nth q (f (k + col)%nat) 0).
  { clear Hc. induction col as [|col IH]; intros [|n] k Hn; try lia; cbn [seq map concat].
    - rewrite app_nth1 by (rewrite Hf; lia). by rewrite Nat.add_0_r.
    - rewrite app_nth2, Hf by (rewrite Hf; lia). replace (4 * S col + q - 4)%nat with (4 * col + q)%nat by lia.
      rewrite IH by lia. by rewrite <- plus_n_Sm. }
  by rewrite H.
Qed.

Lemma length_block_row y r : length (block_row y r) = 32%nat.
Proof. reflexivity. Qed.

(** the four bytes of a pair of pixels *)
Lemma in_block_pair r c : 0 <= r < 16 -> 0 <= c < 8 ->
  in_block r (4 * c) = 8 * (r / 2) + c /\ in_block r (4 * c + 1) = 128 + lum_index r c /\
  in_block r (4 * c + 2) = 64 + 8 * (r / 2) + c /\ in_block r (4 * c + 3) = 128 + (lum_index r c + 1).
Proof.
  intros Hr Hc. unfold in_block.
  assert (H0 : 4 * c / 2 = 2 * c) by dlia. assert (H1 : (4 * c + 1) / 2 = 2 * c) by dlia.
  assert (H2 : (4 * c + 2) / 2 = 2 * c + 1) by dlia. assert (H3 : (4 * c + 3) / 2 = 2 * c + 1) by dlia.
  rewrite H0, H1, H2, H3, !Z.odd_add, !Z.even_add, !Z.odd_mul, !Z.even_mul.
  assert (Hlum : lum_index r c = 64 * (2 * (r / 8) + c / 4) + 8 * (r mod 8) + 2 * (c mod 4)).
  { unfold lum_index. destruct (Z.ltb_spec r 8), (Z.ltb_spec c 4); dlia. }
  rewrite Hlum. cbn -[Z.div Z.modulo Z.mul Z.add]. split_and!; dlia.
Qed.

Lemma block_row_byte y r j : bufs_ok y -> 0 <= r < 16 -> 0 <= j < 32 -> elem (block_row y r) j = elem (sent y) (in_block r j).
Proof.
  assert (Hlum : forall c, 0 <= r < 16 -> 0 <= c < 8 -> 0 <= lum_index r c).
  { intros c ? ?. unfold lum_index. destruct (Z.ltb_spec r 8), (Z.ltb_spec c 4); lia. }
  intros Hb Hr Hj. pose proof (bo_bytes y Hb) as Hs. unfold sent in Hs. rewrite !list.Forall_app in Hs. destruct Hs as (Hu & Hv & Hl).
  set (c := j / 4). set (q := j mod 4). assert (Ej : j = 4 * c + q) by (apply Z.div_mod; lia).
  assert (Hc : 0 <= c < 8) by (unfold c; dlia). assert (Hq : q = 0 \/ q = 1 \/ q = 2 \/ q = 3) by (unfold q; dlia).
  assert (E : elem (block_row y r) j = nth (Z.to_nat q) (le_bytes 4 (block_word y r c)) 0).
  { unfold elem, block_row. replace (Z.to_nat j) with (4 * Z.to_nat c + Z.to_nat q)%nat by lia.
    rewrite nth_concat4 by (lia || (intros; apply length_le_bytes)). by rewrite Z2Nat.id by lia. }
  rewrite E. unfold block_word. rewrite le_bytes_word by by apply elem_range.
  rewrite elem_sent by (done || by apply in_block_range). clear E.
  destruct (in_block_pair r c Hr Hc) as (I0 & I1 & I2 & I3). pose proof (in_block_range r j Hr Hj) as Hi.
  assert (0 <= r / 2 < 8) by dlia. specialize (Hlum c Hr Hc). clearbody c q. subst j.
  destruct Hq as [->|[->|[->| ->]]]; rewrite ?Z.add_0_r in *; rewrite ?I0, ?I1, ?I2, ?I3 in *.
  all: repeat match goal with |- context [?a <? ?b] => destruct (Z.ltb_spec a b); try lia end.
  all: match goal with |- context [Z.to_nat ?k] => let n := eval vm_compute in (Z.to_nat k) in change (Z.to_nat k) with n end; cbn [nth].
  all: f_equal; lia.
Qed.

(** ** The rows in texture memory *)
Lemma byte_store_bytes a bs m b :
  byte (store_bytes a bs m) b = if (a <=? b) && (b <? a + Z.of_nat (length bs)) then elem bs (b - a) else byte m b.
Proof.
  revert a m. induction bs as [|x bs IH]; intros a m; cbn [store_bytes length].
  { by destruct (Z.leb_spec a b), (Z.ltb_spec b (a + Z.of_nat 0)); [lia|..]. }
  rewrite IH, byte_insert. unfold elem. destruct (Z.eqb_spec a b) as [->|Hne].
  - destruct (Z.leb_spec (b + 1) b), (Z.leb_spec b b), (Z.ltb_spec b (b + Z.of_nat (S (length bs)))); try lia. by rewrite Z.sub_diag.
  - destruct (Z.leb_spec a b), (Z.leb_spec (a + 1) b); try lia; cbn [andb]; [|done].
    destruct (Z.ltb_spec b (a + 1 + Z.of_nat (length bs))), (Z.ltb_spec b (a + Z.of_nat (S (length bs)))); try lia.
    replace (Z.to_nat (b - a)) with (S (Z.to_nat (b - (a + 1)))) by lia. done.
Qed.

(** an offset from the first byte of a macroblock lies in one of its first [n] rows *)
Definition in_rows (n o : Z) : bool := (0 <=? o) && (o / 1024 <? n) && (o mod 1024 <? 32).

Lemma in_rows_0 o : in_rows 0 o = false.
Proof. unfold in_rows. destruct (Z.leb_spec 0 o), (Z.ltb_spec (o / 1024) 0); try done. dlia. Qed.

Lemma in_rows_S n o : 0 <= n ->
  in_rows (n + 1) o = (0 <=? o) && (o <? 32) || in_rows n (o - 1024).
Proof.
  intros Hn. unfold in_rows. replace ((o - 1024) / 1024) with (o / 1024 - 1) by dlia. replace ((o - 1024) mod 1024) with (o mod 1024) by dlia.
  destruct (Z.leb_spec 0 o), (Z.leb_spec 0 (o - 1024)), (Z.ltb_spec (o / 1024) (n + 1)), (Z.ltb_spec (o / 1024 - 1) n),
    (Z.ltb_spec (o mod 1024) 32), (Z.ltb_spec o 32); try done; dlia.
Qed.

Section rows.
Context {Img : Type} {CFG : BuildConfig}.
Implicit Types p : pvr2 Img.

(** the rows are stored, and the pages of the next row of each are stamped *)
Record rows_stored (n : nat) (block : Z -> list Z) (row base : Z) p p' : Prop := {
  rs_frame : exists m st fbs, p' = upd_tex64 m (upd_stamps st (upd_fb fbs p));
  rs_mem : forall a, byte (tex64 p') a =
    if in_rows (Z.of_nat n) (a - base) then elem (block (row + (a - base) / 1024)) ((a - base) mod 1024) else byte (tex64 p) a;
  rs_stamped : forall a, in_rows (Z.of_nat n) (a - base) = true -> TexCoherent.stamp p' ((a + 1024) / PVR2_TEX_PAGE_SIZE) = clk_now p;
  rs_kept : forall pg, TexCoherent.stamp p pg = clk_now p -> TexCoherent.stamp p' pg = clk_now p
}.

Lemma row_notified base p : 0 <= base -> base + 32 <= PVR2_TEX_MEM_LEN -> exists fbs st,
  (pvr2_framebuffer_notify_write (u32 (ADDR_TEX64_FIRST + base)) 32 ;; pvr2_tex_cache_notify_write (u32 (ADDR_TEX64_FIRST + base)) 32) p
    = Ok (tt, upd_stamps st (upd_fb fbs p)) /\
  forall pg, default 0 (st !! pg) = if (base / PVR2_TEX_PAGE_SIZE <=? pg) && (pg <=? (base + 31) / PVR2_TEX_PAGE_SIZE) then clk_now p else TexCoherent.stamp p pg.
Proof.
  intros H1 H2. change PVR2_TEX_MEM_LEN with 0x800000 in H2.
  assert (E : u32 (ADDR_TEX64_FIRST + base) = ADDR_TEX64_FIRST + base) by (apply wrap_small; unfold in_range, ADDR_TEX64_FIRST; lia).
  rewrite E. assert (Hfb : exists fbs, pvr2_framebuffer_notify_write (ADDR_TEX64_FIRST + base) 32 p = Ok (tt, upd_fb fbs p)) by by eexists.
  destruct Hfb as (fbs & E1). destruct (notify_write_ok (upd_fb fbs p) (ADDR_TEX64_FIRST + base) 32) as (st & E2 & Hst);
    [unfold ADDR_TEX64_FIRST; lia|lia|unfold ADDR_TEX64_FIRST, ADDR_TEX64_LAST; lia|].
  exists fbs, st. rewrite (bind_ok _ _ _ _ _ E1). split; [exact E2|]. intros pg. rewrite Hst.
  replace (ADDR_TEX64_FIRST + base - ADDR_TEX64_FIRST) with base by lia. replace (base + 32 - 1) with (base + 31) by lia. done.
Qed.

Lemma store_rows_ok n block row ptr p :
  (forall r, row <= r < row + Z.of_nat n -> length (block r) = 32%nat) -> 0 <= ptr -> 4 * ptr + 1024 * Z.of_nat n + 32 <= PVR2_TEX_MEM_LEN ->
  exists p', store_rows n block row ptr (4 * ptr) p = Ok (tt, p') /\ rows_stored n block row (4 * ptr) p p'.
Proof.
  change PVR2_TEX_MEM_LEN with 0x800000. revert row ptr p. induction n as [|n IH]; intros row ptr p Hb Hp Hf; cbn [store_rows].
  { exists p. split; [done|]. split.
    - exists (tex64 p), (page_stamps p), (fb_heap p). by destruct p.
    - intros a. by rewrite in_rows_0.
    - intros a. by rewrite in_rows_0.
    - done. }
  change PVR2_TEX_MEM_LEN with 0x800000. replace (4 * ptr + 32 >? 0x800000) with false by lia. cbn [when].
  rewrite (bind_ok _ _ p tt p eq_refl). set (p1 := upd_tex64 (store_bytes (4 * ptr) (block row) (tex64 p)) p).
  erewrite (bind_ok (modify _) _ p tt) by reflexivity. fold p1. change (linestride / 4) with 256. change linestride with 1024.
  assert (E4 : u32 (4 * ptr + 1024) = 4 * (ptr + 256)) by (rewrite wrap_small by (unfold in_range; lia); lia). rewrite E4.
  destruct (row_notified (4 * (ptr + 256)) p1) as (fbs & st & E1 & Hst); [lia|change PVR2_TEX_MEM_LEN with 0x800000; lia|].
  set (p2 := upd_stamps st (upd_fb fbs p1)) in *.
  destruct (IH (row + 1) (ptr + 256) p2) as (p' & E' & [(m & st' & fbs' & Ep') Hm Hs Hk]); [intros r ?; apply Hb; lia|lia|lia|].
  assert (Hlen : length (block row) = 32%nat) by (apply Hb; lia).
  exists p'. split.
  { rewrite <- E'. apply bind_inv in E1 as ([] & q & Eq1 & Eq2). rewrite (bind_ok _ _ _ _ _ Eq1). by rewrite (bind_ok _ _ _ _ _ Eq2). }
  split.
  - by exists m, st', fbs'.
  - intros a. rewrite Nat2Z.inj_succ, <- Z.add_1_r, in_rows_S, Hm by lia. replace (a - 4 * ptr - 1024) with (a - 4 * (ptr + 256)) by lia.
    destruct (in_rows (Z.of_nat n) (a - 4 * (ptr + 256))) eqn:Er.
    { rewrite orb_true_r. f_equal; [f_equal|]; dlia. }
    rewrite orb_false_r. cbn [tex64 p2 p1 upd_stamps upd_fb upd_tex64]. rewrite byte_store_bytes, Hlen.
    change (Z.of_nat 32) with 32.
    destruct (Z.leb_spec (4 * ptr) a), (Z.ltb_spec a (4 * ptr + 32)), (Z.leb_spec 0 (a - 4 * ptr)), (Z.ltb_spec (a - 4 * ptr) 32);
      try lia; cbn [andb]; try done. f_equal; [f_equal|]; dlia.
  - intros a. rewrite Nat2Z.inj_succ, <- Z.add_1_r, in_rows_S by lia. intros [Ha|Ha]%orb_true_iff.
    + change (clk_now p) with (clk_now p2). apply Hk. unfold TexCoherent.stamp at 1. cbn [page_stamps p2 upd_stamps]. rewrite Hst.
      change (clk_now p1) with (clk_now p2). unfold PVR2_TEX_PAGE_SIZE.
      replace (4 * (ptr + 256) / 512 <=? (a + 1024) / 512) with true by (apply andb_true_iff in Ha; symmetry; apply Z.leb_le, Z.div_le_mono; lia).
      replace ((a + 1024) / 512 <=? (4 * (ptr + 256) + 31) / 512) with true by (apply andb_true_iff in Ha; symmetry; apply Z.leb_le, Z.div_le_mono; lia).
      done.
    + apply Hs. by replace (a - 4 * (ptr + 256)) with (a - 4 * ptr - 1024) by lia.
  - intros pg Hpg. apply Hk. unfold TexCoherent.stamp at 1. cbn [page_stamps p2 upd_stamps]. rewrite Hst.
    destruct (_ && _); [done|exact Hpg].
Qed.
End rows.

(** ** Where a macroblock goes *)
Lemma src_block dst cx mx my a : 0 <= mx < cx -> cx <= 32 -> 0 <= my ->
  let o := a - (dst + 16384 * my + 32 * mx) in
  if in_rows 16 o then yuv_src dst cx a = Some (384 * (my * cx + mx) + in_block (o / 1024) (o mod 1024))
  else forall i, yuv_src dst cx a = Some i -> i / 384 <> my * cx + mx.
Proof.
  intros Hmx Hcx Hmy o. unfold in_rows, yuv_src. set (o' := a - dst). assert (Eo : o = o' - 16384 * my - 32 * mx) by lia. clearbody o o'. clear a.
  destruct ((0 <=? o) && (o / 1024 <? 16) && (o mod 1024 <? 32)) eqn:E.
  - assert (Ho : 0 <= o /\ o / 1024 < 16 /\ o mod 1024 < 32) by lia. destruct Ho as (H0 & Hr & Hj). clear E.
    assert (Er : o' / 1024 = 16 * my + o / 1024) by dlia. assert (Ec : o' mod 1024 = 32 * mx + o mod 1024) by dlia.
    rewrite Er, Ec. replace (0 <=? o') with true by lia. replace (32 * mx + o mod 1024 <? 32 * cx) with true by lia. cbn [andb]. f_equal.
    pose proof (Z.div_pos o 1024 H0 ltac:(lia)). pose proof (Z.mod_pos_bound o 1024 ltac:(lia)).
    replace ((16 * my + o / 1024) / 16) with my by dlia. replace ((16 * my + o / 1024) mod 16) with (o / 1024) by dlia.
    replace ((32 * mx + o mod 1024) / 32) with mx by dlia. by replace ((32 * mx + o mod 1024) mod 32) with (o mod 1024) by dlia.
  - intros i. destruct ((0 <=? o') && (o' mod 1024 <? 32 * cx)) eqn:E'; [|done]. intros [= <-] Hi.
    assert (Ho' : 0 <= o' /\ o' mod 1024 < 32 * cx) by lia. destruct Ho' as [H0 Hc]. clear E'.
    pose proof (Z.mod_pos_bound o' 1024 ltac:(lia)). pose proof (in_block_range (o' / 1024 mod 16) (o' mod 1024 mod 32) ltac:(dlia) ltac:(dlia)) as Hb.
    rewrite Z.add_comm, Z.mul_comm, Z.div_add, Z.div_small in Hi by lia. cbn [Z.add] in Hi.
    assert (Hu : o' / 1024 / 16 = my /\ o' mod 1024 / 32 = mx).
    { apply (Z.div_mod_unique cx); [left; split; [dlia|apply Z.div_lt_upper_bound; lia]|left; lia|lia]. }
    destruct Hu as [Hy Hx]. clear Hi Hb. assert (Hlow : o = 1024 * (o' / 1024 mod 16) + o' mod 1024 mod 32) by dlia.
    pose proof (Z.mod_pos_bound (o' / 1024) 16 ltac:(lia)). pose proof (Z.mod_pos_bound (o' mod 1024) 32 ltac:(lia)).
    assert (o / 1024 < 16 /\ o mod 1024 < 32) by dlia. lia.
Qed.

(** ** Collecting a macroblock *)
Definition push_byte (dat : Z) (y : pvr2_yuv) : pvr2_yuv :=
  let o := macroblock_offset y in
  if o <? 64 then upd_yuv_bufs (o + 1) (store_elem o dat (u_buf y)) (v_buf y) (y_buf y) y
  else if o <? 128 then upd_yuv_bufs (o + 1) (u_buf y) (store_elem (o - 64) dat (v_buf y)) (y_buf y) y
  else upd_yuv_bufs (o + 1) (u_buf y) (v_buf y) (store_elem (o - 128) dat (y_buf y)) y.

Lemma sent_push dat y : bufs_ok y -> 0 <= macroblock_offset y < 384 ->
  sent (push_byte dat y) = <[Z.to_nat (macroblock_offset y) := u8 dat]> (sent y).
Proof.
  intros [Hu Hv _ _] Ho. unfold push_byte, sent, store_elem.
  destruct (Z.ltb_spec (macroblock_offset y) 64); [|destruct (Z.ltb_spec (macroblock_offset y) 128)]; cbn [u_buf v_buf y_buf upd_yuv_bufs].
  - by rewrite insert_app_l by lia.
  - rewrite insert_app_r_alt by lia. rewrite insert_app_l by lia. do 3 f_equal. lia.
  - rewrite insert_app_r_alt by lia. rewrite insert_app_r_alt by lia. do 3 f_equal. lia.
Qed.

Lemma bufs_push dat y : bufs_ok y -> 0 <= macroblock_offset y < 384 -> bufs_ok (push_byte dat y).
Proof.
  intros Hb Ho. pose proof (sent_push dat y Hb Ho) as Hs. destruct Hb as [Hu Hv Hl Hr].
  assert (H : length (u_buf (push_byte dat y)) = 64%nat /\ length (v_buf (push_byte dat y)) = 64%nat /\ length (y_buf (push_byte dat y)) = 256%nat).
  { unfold push_byte, store_elem. destruct (_ <? 64); [|destruct (_ <? 128)]; cbn [u_buf v_buf y_buf upd_yuv_bufs]; by rewrite ?length_insert. }
  destruct H as (? & ? & ?). split; [done..|]. rewrite Hs. apply list.Forall_insert; [done|by apply wrap_range].
Qed.

Lemma elem_insert l i j v : 0 <= i < Z.of_nat (length l) -> 0 <= j ->
  elem (<[Z.to_nat i := v]> l) j = if i =? j then v else elem l j.
Proof.
  intros Hi Hj. unfold elem. rewrite !nth_lookup. destruct (Z.eqb_spec i j) as [->|Hne].
  - by rewrite list_lookup_insert_eq by lia.
  - by rewrite list_lookup_insert_ne by lia.
Qed.

Lemma push_fields dat y : let y' := push_byte dat y in
  dst_addr y' = dst_addr y /\ yuv_fmt y' = yuv_fmt y /\ macroblock_offset y' = macroblock_offset y + 1 /\
  cur_macroblock_x y' = cur_macroblock_x y /\ cur_macroblock_y y' = cur_macroblock_y y /\
  macroblock_count_x y' = macroblock_count_x y /\ macroblock_count_y y' = macroblock_count_y y /\
  yuv_complete_event_scheduled y' = yuv_complete_event_scheduled y.
Proof. unfold push_byte. destruct (_ <? 64); [done|]. by destruct (_ <? 128). Qed.

Lemma keeps_stamps_trans (P : Z -> Prop) c1 c2 c3 : keeps_stamps P c1 c2 -> keeps_stamps P c2 c3 -> keeps_stamps P c1 c3.
Proof.
  intros [E1 H1] [E2 H2]. split; [congruence|]. intros i. destruct (H1 i) as [S1 T1], (H2 i) as [S2 T2].
  split; [auto|]. intros Hi. rewrite T2, T1; done.
Qed.

(** ** Feeding a frame *)
Class YuvLaws (W Img : Type) `{!PvrWorld W Img, !YuvWorld W, !EventWorld W} : Prop := {
  yl_pvr : forall p (w : W), pvr (set_pvr p w) = p /\ yuv (set_pvr p w) = yuv w /\
    ta_yuv_tex_ctrl (set_pvr p w) = ta_yuv_tex_ctrl w /\ evclk (set_pvr p w) = evclk w;
  yl_yuv : forall y (w : W), yuv (set_yuv y w) = y /\ pvr (set_yuv y w) = pvr w /\
    ta_yuv_tex_ctrl (set_yuv y w) = ta_yuv_tex_ctrl w /\ evclk (set_yuv y w) = evclk w;
  yl_clk : forall c (w : W), yuv (set_evclk c w) = yuv w /\ pvr (set_evclk c w) = pvr w /\
    ta_yuv_tex_ctrl (set_evclk c w) = ta_yuv_tex_ctrl w;
  yl_regs : forall b c (w : W), ta_yuv_tex_ctrl (set_yuv_regs b c w) = c /\ yuv (set_yuv_regs b c w) = yuv w /\
    pvr (set_yuv_regs b c w) = pvr w /\ evclk (set_yuv_regs b c w) = evclk w
}.

Section feed.
Context {W Img : Type} {CFG : BuildConfig} {MCH : Machine W} {PW : PvrWorld W Img} {YW : YuvWorld W} {EW : EventWorld W}.
Context {EL : EventWorldLaws W} {YL : YuvLaws W Img}.
(** a part of the machine that the converter does not touch *)
Context {B : Type} (part : W -> B) (part_pvr : forall p w, part (set_pvr p w) = part w) (part_yuv : forall y w, part (set_yuv y w) = part w)
  (part_clk : forall c w, part (set_evclk c w) = part w) (part_regs : forall b c w, part (set_yuv_regs b c w) = part w).
Implicit Types s : Sh4 W.

Lemma with_yuv_keeps y s : yuv_of (with_yuv y s) = y /\ pvr_of (with_yuv y s) = pvr_of s /\
  get_ta_yuv_tex_ctrl (with_yuv y s) = get_ta_yuv_tex_ctrl s /\ evclk_of (with_yuv y s) = evclk_of s /\ part (world (with_yuv y s)) = part (world s).
Proof.
  unfold yuv_of, pvr_of, get_ta_yuv_tex_ctrl, evclk_of, with_yuv. cbn. destruct (yl_yuv y (world s)) as (-> & -> & -> & ->). by rewrite part_yuv.
Qed.

Lemma with_pvr_yuv p s : clk_now p = clock_cycle_stamp (evclk_of s) ->
  pvr_of (with_pvr p s) = p /\ yuv_of (with_pvr p s) = yuv_of s /\
  get_ta_yuv_tex_ctrl (with_pvr p s) = get_ta_yuv_tex_ctrl s /\ evclk_of (with_pvr p s) = evclk_of s /\ part (world (with_pvr p s)) = part (world s).
Proof.
  intros Hc. unfold yuv_of, pvr_of, get_ta_yuv_tex_ctrl, evclk_of, with_pvr in *. cbn. destruct (yl_pvr p (world s)) as (-> & -> & -> & ->).
  rewrite part_pvr, <- Hc. by destruct p.
Qed.

(** the event of the completion: not yet queued, or queued for [now + PVR2_YUV_COMPLETE_INT_DELAY] *)
Record yuv_queue (c0 : dc_clock) (l0 : list Z) (now : Z) (complete : bool) s : Prop := {
  yq_now : clock_cycle_stamp (evclk_of s) = now;
  yq_kept : keeps_stamps (fun i => i <> pvr2_yuv_complete_int_event) c0 (evclk_of s);
  yq_flag : yuv_complete_event_scheduled (yuv_of s) = complete;
  yq_events : exists l, clock_ok (evclk_of s) l /\
    (if complete then l ≡ₚ pvr2_yuv_complete_int_event :: l0 /\
       stamp (events (evclk_of s)) pvr2_yuv_complete_int_event = now + PVR2_YUV_COMPLETE_INT_DELAY
     else l = l0 /\ (pvr2_yuv_complete_int_event ∉ l0) /\ is_Some (events (evclk_of s) !! pvr2_yuv_complete_int_event))
}.

Lemma schedule_int_ok c0 l0 now s : 0 <= now -> now + PVR2_YUV_COMPLETE_INT_DELAY < 2 ^ 64 -> yuv_queue c0 l0 now false s ->
  exists s', pvr2_yuv_schedule_int s = Ok (tt, s') /\ yuv_queue c0 l0 now true s' /\
    yuv_of s' = upd_yuv_scheduled true (yuv_of s) /\ pvr_of s' = pvr_of s /\ get_ta_yuv_tex_ctrl s' = get_ta_yuv_tex_ctrl s /\
    part (world s') = part (world s).
Proof.
  intros H0 H64 [Hn Hkp Hf (l & Hck & -> & Hni & Hsome)]. unfold pvr2_yuv_schedule_int, yuv_get. rewrite (bind_ok _ _ s false s) by by unfold gets; rewrite Hf.
  cbn [negb when]. rewrite (bind_ok _ _ s now s) by by unfold gets; rewrite Hn. unfold yuv_mod.
  set (s1 := with_yuv (upd_yuv_scheduled true (yuv_of s)) s). erewrite (bind_ok (modify _)) by reflexivity. fold s1.
  destruct (with_yuv_keeps (upd_yuv_scheduled true (yuv_of s)) s) as (Y1 & P1 & T1 & C1 & B1). fold s1 in Y1, P1, T1, C1, B1. clearbody s1.
  rewrite wrap_small by (unfold in_range, PVR2_YUV_COMPLETE_INT_DELAY in *; change (SCHED_FREQUENCY / 1024) with 5273437 in *; lia).
  destruct (sched_at_ok (evclk_of s) l0 pvr2_yuv_complete_int_event (now + PVR2_YUV_COMPLETE_INT_DELAY) Hck Hni Hsome) as (c' & l' & E & Hck' & Hl' & Hst & Hks).
  { rewrite Hn. change PVR2_YUV_COMPLETE_INT_DELAY with 5273437. lia. }
  rewrite <- C1 in E. rewrite (on_evclk_ok _ _ _ _ E). exists (with_evclk c' s1). split; [done|].
  assert (Ec : clock_cycle_stamp c' = now) by (rewrite <- Hn; apply Hks).
  assert (K : yuv_of (with_evclk c' s1) = yuv_of s1 /\ pvr_of (with_evclk c' s1) = pvr_of s1 /\
    get_ta_yuv_tex_ctrl (with_evclk c' s1) = get_ta_yuv_tex_ctrl s1 /\ part (world (with_evclk c' s1)) = part (world s1) /\
    evclk_of (with_evclk c' s1) = c').
  { unfold yuv_of, pvr_of, get_ta_yuv_tex_ctrl, evclk_of, with_evclk in *. cbn. destruct (yl_clk c' (world s1)) as (-> & -> & ->).
    rewrite part_clk, evclk_set, Ec, C1, Hn. done. }
  destruct K as (KY & KP & KT & KB & KC). rewrite KY, KP, KT, KB, Y1. split_and!; [|done..]. split.
  - by rewrite KC.
  - rewrite KC. by eapply keeps_stamps_trans.
  - by rewrite KY, Y1.
  - exists l'. by rewrite KC.
Qed.

(** *** A frame of [cx] by [cy] macroblocks for the address [dst] *)
Record frame_ok (dst cx cy ctrl now : Z) (frame : list Z) : Prop := {
  fo_cx : 0 < cx <= 32;
  fo_cy : 0 < cy;
  fo_dst : 0 <= dst /\ dst mod 4 = 0;
  (** one row more than the picture *)
  fo_fit : dst + 1024 * (16 * cy) + 32 * cx <= PVR2_TEX_MEM_LEN;
  fo_len : Z.of_nat (length frame) = 384 * (cx * cy);
  fo_bytes : Forall (in_range 8) frame;
  fo_ctrl : truth (Z.land ctrl (Z.shiftl 1 16)) = false /\ truth (Z.land ctrl (Z.shiftl 1 24)) = false;
  fo_now : 0 <= now /\ now + PVR2_YUV_COMPLETE_INT_DELAY < 2 ^ 64
}.

Context (dst cx cy ctrl now : Z) (frame : list Z) (m0 : Memory) (b0 : B) (c0 : dc_clock) (l0 : list Z) (FO : frame_ok dst cx cy ctrl now frame).

Record yuv_conf (y : pvr2_yuv) : Prop := {
  yc_dst : dst_addr y = dst; yc_fmt : yuv_fmt y = PVR2_YUV_FMT_420;
  yc_cx : macroblock_count_x y = cx; yc_cy : macroblock_count_y y = cy;
  yc_bufs : bufs_ok y
}.
(** the first [k] macroblocks are in texture memory, and the pages one row below each of their bytes are stamped *)
Record pictured (k : Z) (p : pvr2 Img) : Prop := {
  pi_mem : forall a, byte (tex64 p) a =
    match yuv_src dst cx a with Some i => if i <? 384 * k then elem frame i else byte m0 a | None => byte m0 a end;
  pi_stamped : forall a i, yuv_src dst cx a = Some i -> i < 384 * k -> TexCoherent.stamp p ((a + 1024) / PVR2_TEX_PAGE_SIZE) = now
}.
(** [n] bytes of the frame have been fed *)
Record fed (n : Z) s : Prop := {
  fd_conf : yuv_conf (yuv_of s);
  fd_ctrl : get_ta_yuv_tex_ctrl s = ctrl;
  fd_offset : macroblock_offset (yuv_of s) = n mod 384;
  fd_cursor : cur_macroblock_x (yuv_of s) = n / 384 mod cx /\ cur_macroblock_y (yuv_of s) = n / 384 / cx;
  fd_sent : forall i, 0 <= i < n mod 384 -> elem (sent (yuv_of s)) i = elem frame (384 * (n / 384) + i);
  fd_pictured : pictured (n / 384) (pvr_of s);
  fd_queue : yuv_queue c0 l0 now (n =? 384 * (cx * cy)) s;
  fd_part : part (world s) = b0
}.

Lemma pictured_step k mx my y p p' : 0 <= mx < cx -> 0 <= my -> k = my * cx + mx -> yuv_conf y ->
  (forall i, 0 <= i < 384 -> elem (sent y) i = elem frame (384 * k + i)) -> clk_now p = now -> pictured k p ->
  rows_stored 16 (block_row y) 0 (dst + 16384 * my + 32 * mx) p p' -> pictured (k + 1) p'.
Proof.
  intros Hmx Hmy -> Hy Hs Hnow [Hm Hst] [_ Rm Rs Rk]. pose proof (fo_cx _ _ _ _ _ _ FO) as [_ Hcx].
  assert (Hib : forall a, in_rows 16 (a - (dst + 16384 * my + 32 * mx)) = true ->
    let o := a - (dst + 16384 * my + 32 * mx) in 0 <= o / 1024 < 16 /\ 0 <= o mod 1024 < 32).
  { intros a Ha o. unfold in_rows in Ha. fold o in Ha. pose proof (Z.mod_pos_bound o 1024 ltac:(lia)).
    assert (0 <= o) by lia. pose proof (Z.div_pos o 1024 ltac:(lia) ltac:(lia)). lia. }
  split.
  - intros a. rewrite Rm. pose proof (src_block dst cx mx my a Hmx Hcx Hmy) as Hb. cbn zeta in Hb. change (Z.of_nat 16) with 16.
    destruct (in_rows 16 (a - (dst + 16384 * my + 32 * mx))) eqn:E.
    + rewrite Hb. destruct (Hib a E) as [Hr Hj]. cbn zeta in Hr, Hj. pose proof (in_block_range _ _ Hr Hj).
      rewrite (proj2 (Z.ltb_lt _ _)) by lia. rewrite Z.add_0_l, block_row_byte by (apply Hy || done). by rewrite Hs.
    + rewrite Hm. destruct (yuv_src dst cx a) as [i|]; [|done]. specialize (Hb i eq_refl).
      destruct (Z.ltb_spec i (384 * (my * cx + mx))), (Z.ltb_spec i (384 * (my * cx + mx + 1))); try done; [lia|].
      exfalso. apply Hb. dlia.
  - intros a i Hi Hlt. pose proof (src_block dst cx mx my a Hmx Hcx Hmy) as Hb. cbn zeta in Hb.
    destruct (in_rows 16 (a - (dst + 16384 * my + 32 * mx))) eqn:E; [rewrite <- Hnow; by apply Rs|].
    specialize (Hb i Hi). rewrite <- Hnow. apply Rk. rewrite Hnow. apply (Hst a i Hi). dlia.
Qed.

(** the cursor after a macroblock *)
Lemma next_cursor mx my : 0 <= mx < cx -> 0 <= my < cy ->
  let mx' := if mx + 1 >=? cx then 0 else mx + 1 in let my' := if mx + 1 >=? cx then my + 1 else my in
  (my * cx + mx + 1) mod cx = mx' /\ (my * cx + mx + 1) / cx = my' /\ (my' = cy <-> my * cx + mx + 1 = cx * cy).
Proof.
  intros Hmx Hmy. cbn zeta. destruct (Z.geb_spec (mx + 1) cx).
  - replace (my * cx + mx + 1) with ((my + 1) * cx) by lia. rewrite Z.mod_mul, Z.div_mul by lia. split_and!; [done..|nia].
  - replace (my * cx + mx + 1) with (mx + 1 + my * cx) by lia. rewrite Z.mod_add, Z.div_add, Z.mod_small, Z.div_small by lia.
    split_and!; [done|lia|nia].
Qed.

(** the state after the [k]-th macroblock is stored *)
Lemma fed_block k mx' my' y s : (k + 1) mod cx = mx' -> (k + 1) / cx = my' -> (my' = cy <-> k + 1 = cx * cy) ->
  yuv_conf y -> macroblock_offset y = 0 -> (exists b, yuv_of s = upd_yuv_scheduled b (upd_yuv_cursor mx' my' y)) ->
  get_ta_yuv_tex_ctrl s = ctrl -> pictured (k + 1) (pvr_of s) -> yuv_queue c0 l0 now (my' =? cy) s -> part (world s) = b0 -> fed (384 * (k + 1)) s.
Proof.
  intros Hx Hy Hend Hc Ho (b & EY) ET EP EQ EB.
  assert (Hd384 : 384 * (k + 1) / 384 = k + 1) by (rewrite Z.mul_comm; by apply Z.div_mul).
  assert (Hm384 : 384 * (k + 1) mod 384 = 0) by (rewrite Z.mul_comm; by apply Z.mod_mul).
  split; rewrite ?EY, ?Hd384, ?Hm384; try done.
  - destruct Hc as [? ? ? ? []]. by split.
  - intros i ?. lia.
  - replace (384 * (k + 1) =? 384 * (cx * cy)) with (my' =? cy); [done|].
    destruct (Z.eqb_spec my' cy), (Z.eqb_spec (384 * (k + 1)) (384 * (cx * cy))); try done; lia.
Qed.

(** a complete macroblock is stored *)
Lemma macroblock_ok k mx my s :
  0 <= mx < cx -> 0 <= my < cy -> k = my * cx + mx -> yuv_conf (yuv_of s) -> get_ta_yuv_tex_ctrl s = ctrl ->
  cur_macroblock_x (yuv_of s) = mx -> cur_macroblock_y (yuv_of s) = my -> macroblock_offset (yuv_of s) = 0 ->
  (forall i, 0 <= i < 384 -> elem (sent (yuv_of s)) i = elem frame (384 * k + i)) ->
  pictured k (pvr_of s) -> yuv_queue c0 l0 now false s -> part (world s) = b0 ->
  exists s', pvr2_yuv_macroblock s = Ok (tt, s') /\ fed (384 * (k + 1)) s'.
Proof.
  intros Hmx Hmy Hk Hy Hc Ex Ey Eo Hs Hp Hq Hb. pose proof FO as [[Hcx0 Hcx] _ [Hd Hal] Hfit _ _ _ [Hnow H64]].
  unfold pvr2_yuv_macroblock, yuv_get. erewrite (bind_ok (gets _)) by reflexivity. set (y := yuv_of s) in *.
  rewrite (yc_cx y Hy), (yc_cy y Hy), (yc_dst y Hy), Ex, Ey. replace (mx >=? cx) with false by lia. replace (my >=? cy) with false by lia.
  cbn [when]. rewrite !(bind_ok (ret tt) _ s tt s eq_refl). change PVR2_TEX_MEM_LEN with 0x800000 in Hfit. change (linestride * 16) with 16384.
  assert (Hoff : u32 (16384 * my + mx * 8 * 4) = 4 * (4096 * my + 8 * mx)) by (rewrite wrap_small by (unfold in_range; nia); lia).
  rewrite Hoff, (Z.mul_comm 4 (_ + _)), Z.div_mul by lia. set (ptr := dst / 4 + (4096 * my + 8 * mx)).
  assert (Hptr : 4 * ptr = dst + 16384 * my + 32 * mx) by (unfold ptr; dlia).
  rewrite (wrap_small 32 ptr), (wrap_small 32 (4 * ptr)) by (unfold in_range; nia).
  destruct (store_rows_ok 16 (block_row y) 0 ptr (pvr_of s)) as (p' & E & Hrs); [intros; apply length_block_row|nia|change PVR2_TEX_MEM_LEN with 0x800000; nia|].
  assert (Hcn : clk_now p' = clock_cycle_stamp (evclk_of s)) by (destruct (rs_frame _ _ _ _ _ _ Hrs) as (? & ? & ? & ->); done).
  rewrite (bind_ok _ _ s tt (with_pvr p' s)) by (unfold on_pvr; by rewrite E).
  destruct (with_pvr_yuv p' s Hcn) as (P1 & Y1 & T1 & C1 & B1). set (s1 := with_pvr p' s) in *.
  assert (Hp1 : pictured (k + 1) (pvr_of s1)).
  { rewrite P1. rewrite Hptr in Hrs. exact (pictured_step k mx my y (pvr_of s) p' Hmx (proj1 Hmy) Hk Hy Hs (yq_now _ _ _ _ _ Hq) Hp Hrs). }
  assert (Hx1 : u32 (mx + 1) = mx + 1) by (apply wrap_small; unfold in_range; lia).
  assert (Hy1 : u32 (my + 1) = my + 1) by (apply wrap_small; unfold in_range; nia). rewrite Hx1, Hy1.
  set (mx' := if mx + 1 >=? cx then 0 else mx + 1). set (my' := if mx + 1 >=? cx then my + 1 else my).
  set (s2 := with_yuv (upd_yuv_cursor mx' my' y) s1).
  rewrite (bind_ok _ _ s1 tt s2) by (unfold yuv_mod, modify, s2, mx', my'; destruct (mx + 1 >=? cx); cbn beta; by rewrite Y1).
  erewrite (bind_ok (gets _)) by reflexivity.
  destruct (with_yuv_keeps (upd_yuv_cursor mx' my' y) s1) as (Y2 & P2 & T2 & C2 & B2). fold s2 in Y2, P2, T2, C2, B2.
  rewrite Y2. cbn [cur_macroblock_y macroblock_count_y upd_yuv_cursor]. rewrite (yc_cy y Hy).
  pose proof (next_cursor mx my Hmx Hmy) as Hcur. cbn zeta in Hcur. fold mx' my' in Hcur. rewrite <- Hk in Hcur.
  assert (Hq2 : yuv_queue c0 l0 now false s2).
  { destruct Hq as [Q1 Q2 Q3 Q4]. split; rewrite ?C2, ?C1, ?Y2; done. }
  destruct Hcur as (Hc1 & Hc2 & Hc3).
  destruct (Z.eqb_spec my' cy) as [Hmy'|Hmy']; cbn [when].
  - destruct (schedule_int_ok c0 l0 now s2 Hnow H64 Hq2) as (s' & E' & Q' & Y' & P' & T' & B'). exists s'. split; [done|].
    apply (fed_block k mx' my' y); rewrite ?T', ?P', ?B'; try done; [exists true; by rewrite Y', Y2|congruence|by rewrite P2| |congruence].
    by rewrite (proj2 (Z.eqb_eq _ _)).
  - exists s2. split; [done|].
    apply (fed_block k mx' my' y); try done; [exists (yuv_complete_event_scheduled y); by rewrite Y2|congruence|by rewrite P2| |congruence].
    by rewrite (proj2 (Z.eqb_neq _ _)).
Qed.

Lemma input_byte_push dat s : yuv_fmt (yuv_of s) = PVR2_YUV_FMT_420 -> 0 <= macroblock_offset (yuv_of s) < 384 ->
  pvr2_yuv_input_byte dat s =
    (if macroblock_offset (yuv_of s) =? 383 then
       yuv_mod (upd_yuv_offset 0) ;;
       when ((cur_macroblock_x (yuv_of s) >=? macroblock_count_x (yuv_of s)) || (cur_macroblock_y (yuv_of s) >=? macroblock_count_y (yuv_of s)))
         (raise ERROR_INTEGRITY) ;;
       pvr2_yuv_macroblock
     else ret tt) (with_yuv (push_byte dat (yuv_of s)) s).
Proof.
  intros Hf Ho. unfold pvr2_yuv_input_byte, yuv_get. erewrite (bind_ok (gets _)) by reflexivity. rewrite Hf, bool_decide_eq_true_2 by done.
  cbn [negb when]. rewrite (bind_ok (ret tt) _ s tt s eq_refl). set (y := yuv_of s) in *. set (s1 := with_yuv (push_byte dat y) s).
  rewrite (bind_ok _ _ s tt s1).
  2:{ unfold s1, push_byte, yuv_mod, modify. fold y. destruct (_ <? 64); [done|]. destruct (_ <? 128); [done|].
      by rewrite (proj2 (Z.ltb_lt _ _)) by lia. }
  erewrite (bind_ok (gets _)) by reflexivity. destruct (with_yuv_keeps (push_byte dat y) s) as (Y1 & _). fold s1 in Y1. rewrite Y1.
  destruct (push_fields dat y) as (_ & _ & -> & _). 
  destruct (Z.eqb_spec (macroblock_offset y + 1) 384), (Z.eqb_spec (macroblock_offset y) 383); try lia; done.
Qed.

Lemma cursor_of n : 0 <= n < 384 * (cx * cy) -> 0 <= n / 384 mod cx < cx /\ 0 <= n / 384 / cx < cy /\ n / 384 = n / 384 / cx * cx + n / 384 mod cx.
Proof.
  intros Hn. pose proof (fo_cx _ _ _ _ _ _ FO) as [Hcx _]. pose proof (Z.mod_pos_bound (n / 384) cx Hcx). split_and!; [lia..| | |].
  - apply Z.div_pos; [apply Z.div_pos; lia|done].
  - apply Z.div_lt_upper_bound; [done|]. apply Z.div_lt_upper_bound; lia.
  - rewrite Z.mul_comm. apply Z.div_mod. lia.
Qed.

Lemma input_byte_ok n s : 0 <= n < 384 * (cx * cy) -> fed n s ->
  exists s', pvr2_yuv_input_byte (elem frame n) s = Ok (tt, s') /\ fed (n + 1) s'.
Proof.
  intros Hn [Hc Ht Ho [Hx Hy] Hs Hp Hq Hb]. destruct (cursor_of n Hn) as (Hmx & Hmy & Hk). pose proof (Z.mod_pos_bound n 384 ltac:(lia)) as Hm.
  rewrite input_byte_push by (apply Hc || lia). set (y := yuv_of s) in *. set (y1 := push_byte (elem frame n) y). set (s1 := with_yuv y1 s).
  destruct (push_fields (elem frame n) y) as (F1 & F2 & F3 & F4 & F5 & F6 & F7 & F8). fold y1 in F1, F2, F3, F4, F5, F6, F7, F8.
  assert (Hy1 : yuv_conf y1).
  { destruct Hc. split; try congruence. apply bufs_push; [done|lia]. }
  destruct (with_yuv_keeps y1 s) as (Y1 & P1 & T1 & C1 & B1). fold s1 in Y1, P1, T1, C1, B1.
  assert (Hs1 : forall i, 0 <= i < n mod 384 + 1 -> elem (sent y1) i = elem frame (384 * (n / 384) + i)).
  { intros i Hi. unfold y1. rewrite sent_push by (apply Hc || lia). destruct (yc_bufs _ Hc) as [Lu Lv Ly _].
    rewrite elem_insert by (unfold sent; rewrite ?length_app; lia). rewrite Ho. destruct (Z.eqb_spec (n mod 384) i) as [<-|].
    - rewrite <- Z.div_mod by lia. apply wrap_small, elem_range, (fo_bytes _ _ _ _ _ _ FO).
    - apply Hs. lia. }
  assert (Hq1 : forall y', yuv_complete_event_scheduled y' = yuv_complete_event_scheduled y ->
    yuv_queue c0 l0 now (n =? 384 * (cx * cy)) s -> forall s', yuv_of s' = y' -> evclk_of s' = evclk_of s -> yuv_queue c0 l0 now false s').
  { intros y' Ey [Q1 Q2 Q3 Q4] s' EY EC. rewrite (proj2 (Z.eqb_neq _ _)) in Q3, Q4 by lia. split; rewrite ?EC, ?EY, ?Ey; done. }
  rewrite Ho. destruct (Z.eqb_spec (n mod 384) 383) as [E383|E383].
  - unfold yuv_mod. erewrite (bind_ok (modify _)) by reflexivity. rewrite Y1, Hx, Hy, (yc_cx _ Hc), (yc_cy _ Hc).
    replace (n / 384 mod cx >=? cx) with false by lia. replace (n / 384 / cx >=? cy) with false by lia. cbn [orb when].
    set (s2 := with_yuv (upd_yuv_offset 0 y1) s1). rewrite (bind_ok (ret tt) _ s2 tt s2 eq_refl).
    destruct (with_yuv_keeps (upd_yuv_offset 0 y1) s1) as (Y2 & P2 & T2 & C2 & B2). fold s2 in Y2, P2, T2, C2, B2.
    replace (n + 1) with (384 * (n / 384 + 1)) by dlia.
    apply (macroblock_ok (n / 384) (n / 384 mod cx) (n / 384 / cx)); rewrite ?Y2, ?P2, ?P1; try done; try congruence; try exact (eq_trans F4 Hx); try exact (eq_trans F5 Hy).
    + destruct Hy1 as [? ? ? ? []]. by split.
    + intros i Hi. apply Hs1. lia.
    + apply (Hq1 (upd_yuv_offset 0 y1)); [exact F8|done|exact Y2|congruence].
  - exists s1. split; [done|]. assert (Ed : (n + 1) / 384 = n / 384) by dlia. assert (Em : (n + 1) mod 384 = n mod 384 + 1) by dlia.
    split; rewrite ?Y1, ?P1, ?Ed, ?Em; try done; try congruence; [split; congruence|].
    rewrite (proj2 (Z.eqb_neq _ _)) by dlia. by apply (Hq1 y1).
Qed.

Lemma input_bytes_ok dat n s : fed n s -> 0 <= n -> n + Z.of_nat (length dat) <= 384 * (cx * cy) ->
  dat = take (length dat) (drop (Z.to_nat n) frame) ->
  exists s', input_bytes dat s = Ok (tt, s') /\ fed (n + Z.of_nat (length dat)) s'.
Proof.
  revert n s. induction dat as [|b dat IH]; intros n s Hf Hn Hl Hd; cbn [input_bytes length] in *.
  { exists s. by rewrite Z.add_0_r. }
  pose proof (fo_len _ _ _ _ _ _ FO) as Hlen.
  destruct (drop (Z.to_nat n) frame) as [|x rest] eqn:E; [done|]. cbn [firstn] in Hd. injection Hd as -> Hd.
  assert (Ex : elem frame n = x) by (unfold elem; by rewrite nth_lookup, <- (Nat.add_0_r (Z.to_nat n)), <- lookup_drop, E).
  destruct (input_byte_ok n s ltac:(lia) Hf) as (s1 & E1 & Hf1). rewrite Ex in E1. rewrite (bind_ok _ _ _ _ _ E1).
  replace (n + Z.of_nat (S (length dat))) with (n + 1 + Z.of_nat (length dat)) by lia. apply IH; [done|lia|lia|].
  rewrite Z2Nat.inj_add by lia. change (Z.to_nat 1) with 1%nat. rewrite <- drop_drop, E. exact Hd.
Qed.

Lemma check_ctrl_ok s : get_ta_yuv_tex_ctrl s = ctrl -> yuv_check_ctrl s = Ok (ctrl, s).
Proof. intros E. unfold yuv_check_ctrl, bind, gets. rewrite E. destruct (fo_ctrl _ _ _ _ _ _ FO) as [-> ->]. done. Qed.

Lemma input_data_ok dat n s : fed n s -> 0 <= n -> n + Z.of_nat (length dat) <= 384 * (cx * cy) ->
  dat = take (length dat) (drop (Z.to_nat n) frame) ->
  exists s', pvr2_yuv_input_data dat s = Ok (tt, s') /\ fed (n + Z.of_nat (length dat)) s'.
Proof.
  intros Hf Hn Hl Hd. unfold pvr2_yuv_input_data, yuv_get. rewrite (bind_ok _ _ _ _ _ (check_ctrl_ok s (fd_ctrl _ _ Hf))).
  erewrite (bind_ok (gets _)) by reflexivity. rewrite (yc_dst _ (fd_conf _ _ Hf)).
  pose proof FO as [Hcx Hcy [Hd0 _] Hfit _ _ _ _]. change PVR2_TEX_MEM_LEN with 0x800000 in *.
  rewrite wrap_small by (unfold in_range; lia). replace (dst + 3 >=? 0x800000) with false by lia. cbn [when].
  rewrite (bind_ok (ret tt) _ s tt s eq_refl). by apply input_bytes_ok.
Qed.

(** ** The picture by pixels *)
Definition shows_frame (m : Memory) : Prop :=
  (forall x y k, 0 <= x < 16 * cx -> 0 <= y < 16 * cy -> k = 0 \/ k = 1 ->
     byte m (dst + 1024 * y + 2 * x + k) = elem frame (frame_index cx x y k)) /\
  (forall a, a < dst \/ dst + 1024 * (16 * cy) <= a \/ 32 * cx <= (a - dst) mod 1024 -> byte m a = byte m0 a).

Lemma yuv_src_pixel x y k : 0 <= x < 16 * cx -> 0 <= y -> k = 0 \/ k = 1 ->
  yuv_src dst cx (dst + 1024 * y + 2 * x + k) = Some (frame_index cx x y k).
Proof.
  intros Hx Hy Hk. pose proof (fo_cx _ _ _ _ _ _ FO) as Hcx. unfold yuv_src, frame_index.
  replace (dst + 1024 * y + 2 * x + k - dst) with (1024 * y + (2 * x + k)) by lia.
  replace ((1024 * y + (2 * x + k)) / 1024) with y by dlia. replace ((1024 * y + (2 * x + k)) mod 1024) with (2 * x + k) by dlia.
  replace (0 <=? 1024 * y + (2 * x + k)) with true by lia. replace (2 * x + k <? 32 * cx) with true by lia. cbn [andb].
  replace ((2 * x + k) / 32) with (x / 16) by dlia. by replace ((2 * x + k) mod 32) with (2 * (x mod 16) + k) by dlia.
Qed.

Lemma frame_index_range x y k : 0 <= x < 16 * cx -> 0 <= y < 16 * cy -> k = 0 \/ k = 1 -> 0 <= frame_index cx x y k < 384 * (cx * cy).
Proof.
  intros Hx Hy Hk. unfold frame_index. pose proof (in_block_range (y mod 16) (2 * (x mod 16) + k) ltac:(dlia) ltac:(dlia)).
  assert (0 <= x / 16 < cx) by dlia. assert (0 <= y / 16 < cy) by dlia. nia.
Qed.

Lemma fed_shows s : fed (384 * (cx * cy)) s ->
  shows_frame (tex64 (pvr_of s)) /\
  forall x y, 0 <= x < 16 * cx -> 1 <= y < 16 * cy -> TexCoherent.stamp (pvr_of s) ((dst + 1024 * y + 2 * x) / PVR2_TEX_PAGE_SIZE) = now.
Proof.
  intros [_ _ _ _ _ [Hm Hst] _ _]. assert (E : 384 * (cx * cy) / 384 = cx * cy) by (rewrite Z.mul_comm; by apply Z.div_mul).
  rewrite E in Hm, Hst. split; [split|].
  - intros x y k Hx Hy Hk. rewrite Hm, yuv_src_pixel by lia. pose proof (frame_index_range x y k Hx Hy Hk).
    by rewrite (proj2 (Z.ltb_lt _ _)) by lia.
  - intros a Ha. rewrite Hm. unfold yuv_src. destruct (Z.leb_spec 0 (a - dst)); [|done]. destruct (Z.ltb_spec ((a - dst) mod 1024) (32 * cx)); [|done].
    assert (Hy : 16 * cy <= (a - dst) / 1024) by (destruct Ha as [|[|]]; [lia|dlia|lia]). cbn [andb].
    pose proof (Z.mod_pos_bound (a - dst) 1024 ltac:(lia)). assert (0 <= (a - dst) mod 1024 / 32) by dlia.
    pose proof (in_block_range ((a - dst) / 1024 mod 16) ((a - dst) mod 1024 mod 32) ltac:(dlia) ltac:(dlia)).
    assert (cy <= (a - dst) / 1024 / 16) by dlia. pose proof (fo_cx _ _ _ _ _ _ FO). rewrite (proj2 (Z.ltb_ge _ _)) by nia. done.
  - intros x y Hx Hy. pose proof (frame_index_range x (y - 1) 0 Hx ltac:(lia) ltac:(by left)).
    replace (dst + 1024 * y + 2 * x) with (dst + 1024 * (y - 1) + 2 * x + 0 + 1024) by lia.
    apply (Hst _ (frame_index cx x (y - 1) 0)); [apply yuv_src_pixel; lia|lia].
Qed.
End feed.

(** ** From the registers on *)
Section from_registers.
Context {W Img : Type} {CFG : BuildConfig} {MCH : Machine W} {PW : PvrWorld W Img} {YW : YuvWorld W} {EW : EventWorld W}.
Context {EL : EventWorldLaws W} {YL : YuvLaws W Img}.
Context {B : Type} (part : W -> B) (part_pvr : forall p w, part (set_pvr p w) = part w) (part_yuv : forall y w, part (set_yuv y w) = part w)
  (part_clk : forall c w, part (set_evclk c w) = part w) (part_regs : forall b c w, part (set_yuv_regs b c w) = part w).
Implicit Types s : Sh4 W.

(** what the two registers ask for *)
Definition conf_dst (base : Z) : Z := Z.land base (intmath.BIT_RANGE 3 23).
Definition conf_cx (ctrl : Z) : Z := Z.land ctrl 0x3f + 1.
Definition conf_cy (ctrl : Z) : Z := Z.land (Z.shiftr ctrl 8) 0x3f + 1.

Definition yuv_start (ctrl base : Z) : M (Sh4 W) unit := write_ta_yuv_tex_ctrl ctrl ;; write_ta_yuv_tex_base base.
Fixpoint yuv_feed (chunks : list (list Z)) : M (Sh4 W) unit :=
  match chunks with [] => ret tt | dat :: chunks' => pvr2_yuv_input_data dat ;; yuv_feed chunks' end.

Lemma with_regs_keeps b c s : let s' := with_world (set_yuv_regs b c (world s)) s in
  get_ta_yuv_tex_ctrl s' = c /\ yuv_of s' = yuv_of s /\ pvr_of s' = pvr_of s /\ evclk_of s' = evclk_of s /\ part (world s') = part (world s).
Proof.
  unfold yuv_of, pvr_of, get_ta_yuv_tex_ctrl, evclk_of. cbn. destruct (yl_regs b c (world s)) as (-> & -> & -> & ->). by rewrite part_regs.
Qed.

Lemma queue_same c0 l0 now b s s' : evclk_of s' = evclk_of s ->
  yuv_complete_event_scheduled (yuv_of s') = yuv_complete_event_scheduled (yuv_of s) -> yuv_queue c0 l0 now b s -> yuv_queue c0 l0 now b s'.
Proof. intros EC EY [Q1 Q2 Q3 Q4]. split; rewrite ?EC, ?EY; done. Qed.

Lemma yuv_start_ok ctrl base now frame c0 l0 s :
  frame_ok (conf_dst base) (conf_cx ctrl) (conf_cy ctrl) ctrl now frame -> bufs_ok (yuv_of s) -> yuv_queue c0 l0 now false s ->
  exists s', yuv_start ctrl base s = Ok (tt, s') /\
    fed part (conf_dst base) (conf_cx ctrl) (conf_cy ctrl) ctrl now frame (tex64 (pvr_of s)) (part (world s)) c0 l0 0 s'.
Proof.
  intros FO Hb Hq. unfold yuv_start, write_ta_yuv_tex_ctrl, write_ta_yuv_tex_base. erewrite (bind_ok (modify _)) by reflexivity.
  destruct (with_regs_keeps (get_ta_yuv_tex_base s) ctrl s) as (T1 & Y1 & P1 & C1 & B1). set (s1 := with_world _ s) in *.
  erewrite (bind_ok (modify _)) by reflexivity. rewrite T1.
  destruct (with_regs_keeps base ctrl s1) as (T2 & Y2 & P2 & C2 & B2). set (s2 := with_world _ s1) in *.
  unfold pvr2_yuv_set_base. rewrite (bind_ok _ _ _ _ _ (check_ctrl_ok _ _ _ _ _ _ FO s2 T2)). eexists. split; [unfold yuv_mod, modify; reflexivity|].
  match goal with |- fed _ _ _ _ _ _ _ _ _ _ _ _ (with_yuv ?y _) => destruct (with_yuv_keeps part part_yuv y s2) as (Y3 & P3 & T3 & C3 & B3) end.
  pose proof FO as [Hcx Hcy _ _ _ _ _ _]. rewrite Y2, Y1 in *. split; rewrite ?Y3, ?P3, ?T3, ?B3, ?P2, ?P1; try done; try congruence.
  - by split; [..|destruct Hb].
  - intros i Hi. change (0 mod 384) with 0 in Hi. lia.
  - change (0 / 384) with 0. split; change (384 * 0) with 0.
    + intros a. destruct (yuv_src _ _ a) as [i|] eqn:E; [|done]. apply yuv_src_nonneg in E; [|lia]. by rewrite (proj2 (Z.ltb_ge _ _)).
    + intros a i E Hi. apply yuv_src_nonneg in E; lia.
  - rewrite (proj2 (Z.eqb_neq _ _)) by nia. apply (queue_same c0 l0 now false s); [congruence|by rewrite Y3|done].
Qed.

Lemma yuv_feed_ok dst cx cy ctrl now frame m0 b0 c0 l0 chunks n s : frame_ok dst cx cy ctrl now frame ->
  fed part dst cx cy ctrl now frame m0 b0 c0 l0 n s -> 0 <= n <= 384 * (cx * cy) -> drop (Z.to_nat n) frame = concat chunks ->
  exists s', yuv_feed chunks s = Ok (tt, s') /\ fed part dst cx cy ctrl now frame m0 b0 c0 l0 (384 * (cx * cy)) s'.
Proof.
  intros FO. revert n s. induction chunks as [|dat chunks IH]; intros n s Hf Hn Hc; cbn [yuv_feed concat] in *.
  all: pose proof (fo_len _ _ _ _ _ _ FO) as Hlen; pose proof (f_equal length Hc) as Hl; rewrite length_drop in Hl.
  - exists s. split; [done|]. cbn in Hl. by replace (384 * (cx * cy)) with n by lia.
  - rewrite length_app in Hl.
    destruct (input_data_ok part part_pvr part_yuv part_clk _ _ _ _ _ _ _ _ _ _ FO dat n s Hf) as (s1 & E1 & Hf1); [lia|lia|by rewrite Hc, take_app_length|].
    rewrite (bind_ok _ _ _ _ _ E1). apply (IH _ _ Hf1); [lia|].
    rewrite Z2Nat.inj_add, Nat2Z.id, <- drop_drop, Hc, drop_app_length by lia. done.
Qed.

(** the converter turns a frame into a picture: when the two registers have asked for a place in texture
    memory and the frame is fed in pieces of any lengths, the pixels are stored as [frame_index] says,
    no other byte of texture memory changes, every row but the first is reported to the texture cache,
    and the completion event is queued. *)
Theorem yuv_frame_converted (ctrl base now : Z) (frame : list Z) (chunks : list (list Z)) (c0 : dc_clock) (l0 : list Z) s :
  frame_ok (conf_dst base) (conf_cx ctrl) (conf_cy ctrl) ctrl now frame -> bufs_ok (yuv_of s) -> yuv_queue c0 l0 now false s ->
  concat chunks = frame ->
  exists s', (yuv_start ctrl base ;; yuv_feed chunks) s = Ok (tt, s') /\
    shows_frame (conf_dst base) (conf_cx ctrl) (conf_cy ctrl) frame (tex64 (pvr_of s)) (tex64 (pvr_of s')) /\
    (forall x y, 0 <= x < 16 * conf_cx ctrl -> 1 <= y < 16 * conf_cy ctrl ->
       TexCoherent.stamp (pvr_of s') ((conf_dst base + 1024 * y + 2 * x) / PVR2_TEX_PAGE_SIZE) = now) /\
    yuv_queue c0 l0 now true s' /\ part (world s') = part (world s).
Proof.
  intros FO Hb Hq Hc. destruct (yuv_start_ok ctrl base now frame c0 l0 s FO Hb Hq) as (s1 & E1 & Hf1).
  pose proof (fo_cx _ _ _ _ _ _ FO). pose proof (fo_cy _ _ _ _ _ _ FO).
  destruct (yuv_feed_ok _ _ _ _ _ _ _ _ _ _ chunks 0 s1 FO Hf1) as (s' & E' & Hf'); [nia|done|].
  exists s'. rewrite (bind_ok _ _ _ _ _ E1). destruct (fed_shows _ _ _ _ _ _ _ _ _ _ _ FO s' Hf') as [Hs Hst].
  split_and!; [done..| |exact (fd_part _ _ _ _ _ _ _ _ _ _ _ _ _ Hf')].
  pose proof (fd_queue _ _ _ _ _ _ _ _ _ _ _ _ _ Hf') as Hq'. by rewrite Z.eqb_refl in Hq'.
Qed.
End from_registers.
