(* ===== verification/Dmac.v ===== *)
(** The SH-4's DMA controller (src/libwashdc/hw/sh4/sh4_dmac.c, sh4_dmac.h) and the transfer of its
    channel 2 to the PowerVR2 (dreamcast.c, [dc_ch2_dma_xfer]).

    A buffer of a device is the list of its bytes; the code walks it as an array of 32-bit, 16-bit
    or 8-bit elements, and an access past its end is undefined.  Memory is accessed through the
    CPU's memory map. *)
From stdpp Require Import gmap.
From S2P Require Import Prelude IntMath MemoryMap Memory Sh4State Board Sh4Core Sh4Excp Sched Sh4Exec.
From S2P Require Import Frame Sh4Irl Events Holly GfxObj TexCache TexRead TexCoherent TexSteps Textures RamBus Yuv.
Import memory_map memory sched.

(** [struct sh4_dmac], with the static variable [ch2_dma_scheduled] *)
Record sh4_dmac : Type := {
  sar : list Z;
  dar : list Z;
  dmatcr : list Z;
  chcr : list Z;
  dmaor : Z;
  ch2_dma_scheduled : bool
}.

Definition upd_sar (v : list Z) (d : sh4_dmac) : sh4_dmac :=
  {| sar := v; dar := dar d; dmatcr := dmatcr d; chcr := chcr d; dmaor := dmaor d; ch2_dma_scheduled := ch2_dma_scheduled d |}.
Definition upd_dar (v : list Z) (d : sh4_dmac) : sh4_dmac :=
  {| sar := sar d; dar := v; dmatcr := dmatcr d; chcr := chcr d; dmaor := dmaor d; ch2_dma_scheduled := ch2_dma_scheduled d |}.
Definition upd_dmatcr (v : list Z) (d : sh4_dmac) : sh4_dmac :=
  {| sar := sar d; dar := dar d; dmatcr := v; chcr := chcr d; dmaor := dmaor d; ch2_dma_scheduled := ch2_dma_scheduled d |}.
Definition upd_chcr (v : list Z) (d : sh4_dmac) : sh4_dmac :=
  {| sar := sar d; dar := dar d; dmatcr := dmatcr d; chcr := v; dmaor := dmaor d; ch2_dma_scheduled := ch2_dma_scheduled d |}.
Definition upd_dmaor (v : Z) (d : sh4_dmac) : sh4_dmac :=
  {| sar := sar d; dar := dar d; dmatcr := dmatcr d; chcr := chcr d; dmaor := v; ch2_dma_scheduled := ch2_dma_scheduled d |}.
Definition upd_ch2_scheduled (v : bool) (d : sh4_dmac) : sh4_dmac :=
  {| sar := sar d; dar := dar d; dmatcr := dmatcr d; chcr := chcr d; dmaor := dmaor d; ch2_dma_scheduled := v |}.

Definition SH4_DMAC_CHCR_TE_SHIFT : Z := 1.
Definition SH4_DMAC_CHCR_TE_MASK : Z := Z.shiftl 1 SH4_DMAC_CHCR_TE_SHIFT.
Definition CH2_DMA_INT_DELAY : Z := 0.

Definition ADDR_AREA4_TEX64_FIRST : Z := 0x11000000.
Definition ADDR_AREA4_TEX64_LAST : Z := 0x117fffff.
Definition ADDR_AREA4_TEX32_FIRST : Z := 0x11800000.
Definition ADDR_AREA4_TEX32_LAST : Z := 0x11ffffff.
Definition ADDR_TA_FIFO_POLY_FIRST : Z := 0x10000000.
Definition ADDR_TA_FIFO_POLY_LAST : Z := 0x107fffff.
Definition ADDR_TA_FIFO_YUV_FIRST : Z := 0x10800000.
Definition ADDR_TA_FIFO_YUV_LAST : Z := 0x10ffffff.

(** the controller in the rest of the machine, and the address of its event *)
Class DmacWorld (W : Type) : Type := {
  dmac : W -> sh4_dmac;
  set_dmac : sh4_dmac -> W -> W;
  raise_ch2_dma_int_event : Z
}.
Section transfer.
Context {W : Type} {MCH : Machine W}.
Abbreviation sh4M := (M (Sh4 W)).

(** ** Transfers between memory and a buffer *)

(** the accessors of the three loops *)
Definition bus_read (sz : acc) : Z -> sh4M Z :=
  match sz with A8 => memory_map_read_8 | A16 => memory_map_read_16 | _ => memory_map_read_32 end.
Definition bus_write (sz : acc) : Z -> Z -> sh4M unit :=
  match sz with A8 => memory_map_write_8 | A16 => memory_map_write_16 | _ => memory_map_write_32 end.

(** [while (total_len)]: one element per turn *)
Fixpoint to_mem_loop (sz : acc) (total_len : nat) (transfer_dst : Z) (dat : list Z) : sh4M unit :=
  match total_len with
  | O => ret tt
  | S total_len' =>
      let n := Z.to_nat (sizeof sz) in
      if (length dat <? n)%nat then raise C_UNDEFINED
      else
        bus_write sz (Z.land transfer_dst (not32 0xe0000000)) (le_val (take n dat)) ;;
        to_mem_loop sz total_len' (u32 (transfer_dst + sizeof sz)) (drop n dat)
  end.

Definition sh4_dmac_transfer_to_mem (transfer_dst unit_sz n_units : Z) (dat : list Z) : sh4M unit :=
  let total_len := u64 (unit_sz * n_units) in
  if total_len mod 4 =? 0 then to_mem_loop A32 (Z.to_nat (total_len / 4)) transfer_dst dat
  else if total_len mod 2 =? 0 then to_mem_loop A16 (Z.to_nat (total_len / 2)) transfer_dst dat
  else to_mem_loop A8 (Z.to_nat total_len) transfer_dst dat.

(** the bytes that are stored in the buffer *)
Fixpoint from_mem_loop (sz : acc) (total_len : nat) (transfer_src : Z) : sh4M (list Z) :=
  match total_len with
  | O => ret []
  | S total_len' =>
      val <- bus_read sz (Z.land transfer_src (not32 0xe0000000)) ;;
      rest <- from_mem_loop sz total_len' (u32 (transfer_src + sizeof sz)) ;;
      ret (le_bytes (Z.to_nat (sizeof sz)) val ++ rest)
  end.

Definition sh4_dmac_transfer_from_mem (transfer_src unit_sz n_units : Z) : sh4M (list Z) :=
  let total_len := u64 (unit_sz * n_units) in
  if total_len mod 4 =? 0 then from_mem_loop A32 (Z.to_nat (total_len / 4)) transfer_src
  else if total_len mod 2 =? 0 then from_mem_loop A16 (Z.to_nat (total_len / 2)) transfer_src
  else from_mem_loop A8 (Z.to_nat total_len) transfer_src.

(** ** Transfers from memory to memory, byte by byte *)
Fixpoint transfer_loop (n : nat) (transfer_src transfer_dst : Z) : sh4M unit :=
  match n with
  | O => ret tt
  | S n' =>
      byte <- memory_map_read_8 transfer_src ;;
      memory_map_write_8 transfer_dst byte ;;
      transfer_loop n' (u32 (transfer_src + 1)) (u32 (transfer_dst + 1))
  end.
Definition sh4_dmac_transfer (transfer_src transfer_dst n_bytes : Z) : sh4M unit :=
  transfer_loop (Z.to_nat n_bytes) transfer_src transfer_dst.
End transfer.

Section dmac.
Context {W : Type} {CFG : BuildConfig} {MCH : Machine W} {DW : DmacWorld W}.
Abbreviation sh4M := (M (Sh4 W)).

Definition dmac_of (s : Sh4 W) : sh4_dmac := dmac (world s).
Definition with_dmac (d : sh4_dmac) (s : Sh4 W) : Sh4 W := with_world (set_dmac d (world s)) s.
Definition dmac_get {A} (f : sh4_dmac -> A) : sh4M A := gets (fun s => f (dmac_of s)).
Definition dmac_mod (f : sh4_dmac -> sh4_dmac) : sh4M unit := modify (fun s => with_dmac (f (dmac_of s)) s).

(** ** Registers: the [switch] of each handler, and the access to its array *)
Definition chan_of (r1 r2 r3 reg_idx : Z) : sh4M Z :=
  if reg_idx =? r1 then ret 1
  else if reg_idx =? r2 then ret 2
  else if reg_idx =? r3 then ret 3
  else raise ERROR_INVALID_PARAM.
Definition chan_read (f : sh4_dmac -> list Z) (chan : Z) : sh4M Z := dmac_get (fun d => nth (Z.to_nat chan) (f d) 0).
Definition chan_set (chan val : Z) (l : list Z) : list Z := <[Z.to_nat chan := u32 val]> l.

Definition sh4_dmac_sar_reg_read_handler (reg_idx : Z) : sh4M Z :=
  chan <- chan_of SH4_REG_SAR1 SH4_REG_SAR2 SH4_REG_SAR3 reg_idx ;; chan_read sar chan.
Definition sh4_dmac_sar_reg_write_handler (reg_idx val : Z) : sh4M unit :=
  chan <- chan_of SH4_REG_SAR1 SH4_REG_SAR2 SH4_REG_SAR3 reg_idx ;;
  dmac_mod (fun d => upd_sar (chan_set chan val (sar d)) d).
Definition sh4_dmac_dar_reg_read_handler (reg_idx : Z) : sh4M Z :=
  chan <- chan_of SH4_REG_DAR1 SH4_REG_DAR2 SH4_REG_DAR3 reg_idx ;; chan_read dar chan.
Definition sh4_dmac_dar_reg_write_handler (reg_idx val : Z) : sh4M unit :=
  chan <- chan_of SH4_REG_DAR1 SH4_REG_DAR2 SH4_REG_DAR3 reg_idx ;;
  dmac_mod (fun d => upd_dar (chan_set chan val (dar d)) d).
Definition sh4_dmac_dmatcr_reg_read_handler (reg_idx : Z) : sh4M Z :=
  chan <- chan_of SH4_REG_DMATCR1 SH4_REG_DMATCR2 SH4_REG_DMATCR3 reg_idx ;; chan_read dmatcr chan.
Definition sh4_dmac_dmatcr_reg_write_handler (reg_idx val : Z) : sh4M unit :=
  chan <- chan_of SH4_REG_DMATCR1 SH4_REG_DMATCR2 SH4_REG_DMATCR3 reg_idx ;;
  dmac_mod (fun d => upd_dmatcr (chan_set chan val (dmatcr d)) d).
Definition sh4_dmac_chcr_reg_read_handler (reg_idx : Z) : sh4M Z :=
  chan <- chan_of SH4_REG_CHCR1 SH4_REG_CHCR2 SH4_REG_CHCR3 reg_idx ;; chan_read chcr chan.
Definition sh4_dmac_chcr_reg_write_handler (reg_idx val : Z) : sh4M unit :=
  chan <- chan_of SH4_REG_CHCR1 SH4_REG_CHCR2 SH4_REG_CHCR3 reg_idx ;;
  dmac_mod (fun d => upd_chcr (chan_set chan val (chcr d)) d).
Definition sh4_dmac_dmaor_reg_read_handler : sh4M Z := dmac_get dmaor.
Definition sh4_dmac_dmaor_reg_write_handler (val : Z) : sh4M unit := dmac_mod (upd_dmaor (u32 val)).

(** ** Channel 2 *)
Context {Img : Type} {PW : PvrWorld W Img} {YW : YuvWorld W} {HW : HollyWorld W} {EW : EventWorld W}.

(** [while (n_words--)]; the YUV converter's input has no address *)
Fixpoint ch2_loop (sink : Z -> Z -> sh4M unit) (n_words : nat) (xfer_src xfer_dst : Z) : sh4M unit :=
  match n_words with
  | O => ret tt
  | S n_words' =>
      buf <- memory_map_read_32 xfer_src ;;
      sink xfer_dst buf ;;
      ch2_loop sink n_words' (u32 (xfer_src + 4)) (u32 (xfer_dst + 4))
  end.

Definition dc_ch2_dma_xfer (xfer_src xfer_dst n_words : Z) : sh4M unit :=
  let n := Z.to_nat n_words in
  if (xfer_dst >=? ADDR_TA_FIFO_POLY_FIRST) && (xfer_dst <=? ADDR_TA_FIFO_POLY_LAST) then
    ch2_loop pvr2_ta_fifo_poly_write_32 n xfer_src xfer_dst
  else if (xfer_dst >=? ADDR_AREA4_TEX64_FIRST) && (xfer_dst <=? ADDR_AREA4_TEX64_LAST) then
    ch2_loop (fun addr buf => on_pvr (pvr2_tex_mem_area64_write_32 addr buf)) n xfer_src
      (u32 (xfer_dst - ADDR_AREA4_TEX64_FIRST + ADDR_TEX64_FIRST))
  else if (xfer_dst >=? ADDR_AREA4_TEX32_FIRST) && (xfer_dst <=? ADDR_AREA4_TEX32_LAST) then
    ch2_loop (fun addr buf => on_pvr (pvr2_tex_mem_area32_write_32 addr buf)) n xfer_src
      (u32 (xfer_dst - ADDR_AREA4_TEX32_FIRST + ADDR_TEX32_FIRST))
  else if (xfer_dst >=? ADDR_TA_FIFO_YUV_FIRST) && (xfer_dst <=? ADDR_TA_FIFO_YUV_LAST) then
    ch2_loop (fun _ buf => pvr2_yuv_input_data (le_bytes 4 buf)) n xfer_src xfer_dst
  else raise ERROR_UNIMPLEMENTED.

Definition sh4_dmac_channel2 (transfer_dst n_bytes : Z) : sh4M unit :=
  dmatcr2 <- chan_read dmatcr 2 ;;
  when (negb (n_bytes =? u32 (32 * dmatcr2))) (raise ERROR_UNIMPLEMENTED) ;;
  let n_words := n_bytes / 4 in
  transfer_src <- chan_read sar 2 ;;
  dc_ch2_dma_xfer transfer_src transfer_dst n_words ;;
  dmac_mod (upd_ch2_scheduled true) ;;
  now <- gets (fun s => clock_cycle_stamp (evclk_of s)) ;;
  on_evclk (sched_at raise_ch2_dma_int_event (u64 (now + CH2_DMA_INT_DELAY))).

Definition raise_ch2_dma_int_event_handler : sh4M unit :=
  dmac_mod (fun d => upd_chcr (chan_set 2 (Z.lor (nth 2 (chcr d) 0) SH4_DMAC_CHCR_TE_MASK) (chcr d)) d) ;;
  sh4_set_interrupt intc_fuel SH4_IRQ_DMAC SH4_EXCP_DMAC_DMTE2 ;;
  dmac_mod (upd_ch2_scheduled false) ;;
  holly_raise_nrm_int HOLLY_REG_ISTNRM_CHANNEL2_DMA_COMPLETE.
End dmac.

(** ** What the transfers do *)
Section transfers.
Context {W : Type} {MCH : Machine W} {RW : RamWorld W} {RL : RamLaws W}.
Implicit Types s : Sh4 W.

(** a run of elements that lies in one window of the RAM *)
Definition dma_span (k a : Z) (n : nat) : Prop :=
  n <> O -> in_area3 a /\ a mod k = 0 /\ a mod 2 ^ 24 + k * Z.of_nat n <= 2 ^ 24.

Lemma span_step k a n : 0 < k -> dma_span k a (S n) ->
  dma_span k (u32 (a + k)) n /\ (n <> O -> u32 (a + k) mod 2 ^ 24 = a mod 2 ^ 24 + k).
Proof.
  intros Hk Hs. destruct (Hs ltac:(done)) as (Ha & Hal & Hf).
  assert (H : n <> O -> in_area3 (a + k) /\ (a + k) mod 2 ^ 24 = a mod 2 ^ 24 + k /\ u32 (a + k) = a + k).
  { intros Hn. apply area3_step; [done|lia|]. nia. }
  split; [|by intros Hn; destruct (H Hn) as (_ & E & ->)].
  intros Hn. destruct (H Hn) as (Ha' & E & ->). split; [done|]. split.
  - rewrite Z.add_mod, Hal, Z.mod_same by lia. by rewrite Z.mod_0_l by lia.
  - rewrite E. nia.
Qed.

(** the widths of the three loops *)
Definition dma_acc (sz : acc) : Prop := sz = A8 \/ sz = A16 \/ sz = A32.

Lemma bus_read_ok sz a s : dma_acc sz -> in_area3 a -> a mod sizeof sz = 0 -> ram_typed (ram_of s) ->
  bus_read sz a s = Ok (le_val (load_bytes (Z.to_nat (sizeof sz)) (a mod 2 ^ 24) (ram_of s)), s).
Proof.
  intros Hsz Ha Hal Ht. pose proof (le_val_range _ (load_bytes_range (Z.to_nat (sizeof sz)) (a mod 2 ^ 24) (ram_of s) Ht)) as Hr.
  rewrite length_load_bytes in Hr. assert (Ea : u32 a = a) by by apply wrap_small, area3_range.
  destruct Hsz as [-> |[-> | ->]]; unfold bus_read, memory_map_read_8, memory_map_read_16, memory_map_read_32; rewrite Ea;
    (rewrite (bind_ok _ _ _ _ _ (ram_read _ a s Ha Hal)), load_le_val; unfold ret; by rewrite wrap_small).
Qed.

Lemma bus_write_ok sz a bs s : dma_acc sz -> in_area3 a -> a mod sizeof sz = 0 ->
  length bs = Z.to_nat (sizeof sz) -> Forall (in_range 8) bs ->
  bus_write sz a (le_val bs) s = Ok (tt, with_bus_ram (store_bytes (a mod 2 ^ 24) bs (ram_of s)) s).
Proof.
  intros Hsz Ha Hal Hl Hb. pose proof (le_val_range _ Hb) as Hr. rewrite <- (store_le_val bs) by done.
  assert (Ea : u32 a = a) by by apply wrap_small, area3_range. rewrite Hl in Hr |- *.
  destruct Hsz as [-> |[-> | ->]]; unfold bus_write, memory_map_write_8, memory_map_write_16, memory_map_write_32; rewrite Ea;
    rewrite wrap_small by exact Hr; exact (ram_write _ a _ s Ha Hal).
Qed.

Lemma bus_mask a : in_area3 a ->
  in_area3 (Z.land a (not32 0xe0000000)) /\ Z.land a (not32 0xe0000000) mod 2 ^ 24 = a mod 2 ^ 24.
Proof. exact (area3_bus a). Qed.

Lemma bus_mask_aligned sz a : dma_acc sz -> in_area3 a -> a mod sizeof sz = 0 -> Z.land a (not32 0xe0000000) mod sizeof sz = 0.
Proof.
  intros Hsz Ha Hal. change (not32 0xe0000000) with 0x1fffffff. rewrite land_window.
  destruct Hsz as [-> |[-> | ->]]; rewrite Z.mod_mod_divide; try done; [by exists (2 ^ 29)|by exists (2 ^ 28)|by exists (2 ^ 27)].
Qed.

Lemma to_mem_loop_ok sz n dst dat s : dma_acc sz -> dma_span (sizeof sz) dst n ->
  (n * Z.to_nat (sizeof sz) <= length dat)%nat -> Forall (in_range 8) dat ->
  to_mem_loop sz n dst dat s =
    Ok (tt, with_bus_ram (store_bytes (dst mod 2 ^ 24) (take (n * Z.to_nat (sizeof sz)) dat) (ram_of s)) s).
Proof.
  intros Hsz. assert (Hk : 0 < sizeof sz) by (destruct Hsz as [-> |[-> | ->]]; done).
  revert dst dat s. induction n as [|n IH]; intros dst dat s Hs Hl Hb; cbn [to_mem_loop].
  { rewrite Nat.mul_0_l, take_0. cbn [store_bytes]. by rewrite ram_put_same. }
  set (k := Z.to_nat (sizeof sz)) in *. destruct (Hs ltac:(done)) as (Ha & Hal & _).
  destruct (span_step _ _ _ Hk Hs) as [Hs' Hd]. rewrite (proj2 (Nat.ltb_ge _ _)) by lia.
  destruct (bus_mask dst Ha) as [Ha' Hm'].
  rewrite (bind_ok _ _ _ _ _ (bus_write_ok sz _ (take k dat) s Hsz Ha' (bus_mask_aligned sz dst Hsz Ha Hal)
    ltac:(rewrite length_take; lia) ltac:(by apply list.Forall_take))).
  rewrite IH by (done || (rewrite length_drop; lia) || by apply list.Forall_drop).
  rewrite ram_put, ram_put_put, Hm'. do 3 f_equal.
  change (S n * k)%nat with (k + n * k)%nat. rewrite <- (take_take_drop dat k (n * k)), store_bytes_app, length_take.
  destruct (decide (n = O)) as [->|Hn]; [done|]. rewrite (Hd Hn). do 2 f_equal. unfold k in *. lia.
Qed.

Lemma from_mem_loop_ok sz n src s : dma_acc sz -> dma_span (sizeof sz) src n -> ram_typed (ram_of s) ->
  from_mem_loop sz n src s = Ok (load_bytes (n * Z.to_nat (sizeof sz)) (src mod 2 ^ 24) (ram_of s), s).
Proof.
  intros Hsz Hs Ht. assert (Hk : 0 < sizeof sz) by (destruct Hsz as [-> |[-> | ->]]; done).
  revert src Hs. induction n as [|n IH]; intros src Hs; cbn [from_mem_loop]; [done|].
  set (k := Z.to_nat (sizeof sz)) in *. destruct (Hs ltac:(done)) as (Ha & Hal & _).
  destruct (span_step _ _ _ Hk Hs) as [Hs' Hd]. destruct (bus_mask src Ha) as [Ha' Hm'].
  rewrite (bind_ok _ _ _ _ _ (bus_read_ok sz _ s Hsz Ha' (bus_mask_aligned sz src Hsz Ha Hal) Ht)).
  rewrite (bind_ok _ _ _ _ _ (IH _ Hs')), Hm'. unfold ret. do 2 f_equal. fold k.
  change (S n * k)%nat with (k + n * k)%nat. rewrite load_bytes_app. f_equal.
  - rewrite <- (length_load_bytes k (src mod 2 ^ 24) (ram_of s)) at 1. by apply le_bytes_val, load_bytes_range.
  - destruct (decide (n = O)) as [->|Hn]; [done|]. rewrite (Hd Hn). f_equal. unfold k. lia.
Qed.

(** a block of [len] bytes in one window, aligned as the loop that is chosen for its length needs it *)
Definition dma_width (len : Z) : Z := if len mod 4 =? 0 then 4 else if len mod 2 =? 0 then 2 else 1.
Definition dma_block (a len : Z) : Prop :=
  in_area3 a /\ a mod dma_width len = 0 /\ 0 <= len /\ a mod 2 ^ 24 + len <= 2 ^ 24.

Lemma dma_choice (len : Z) : 0 <= len < 2 ^ 64 -> exists sz,
  dma_acc sz /\ dma_width len = sizeof sz /\ (Z.to_nat (len / sizeof sz) * Z.to_nat (sizeof sz))%nat = Z.to_nat len /\
  forall (A : Type) (f : acc -> nat -> A),
    (if u64 len mod 4 =? 0 then f A32 (Z.to_nat (u64 len / 4))
     else if u64 len mod 2 =? 0 then f A16 (Z.to_nat (u64 len / 2)) else f A8 (Z.to_nat (u64 len)))
    = f sz (Z.to_nat (len / sizeof sz)).
Proof.
  intros Hl. rewrite wrap_small by done. unfold dma_width.
  assert (Hdiv : forall k, 0 < k -> len mod k = 0 -> (Z.to_nat (len / k) * Z.to_nat k)%nat = Z.to_nat len).
  { intros k Hk E. pose proof (Z.div_mod len k ltac:(lia)). pose proof (Z.div_pos len k ltac:(lia) ltac:(lia)).
    rewrite <- Z2Nat.inj_mul by lia. f_equal. lia. }
  destruct (Z.eqb_spec (len mod 4) 0); [exists A32; split_and!; [by right; right|done|by apply Hdiv|done]|].
  destruct (Z.eqb_spec (len mod 2) 0); [exists A16; split_and!; [by right; left|done|by apply Hdiv|done]|].
  exists A8. split_and!; [by left|done|apply Hdiv; [done|by rewrite Z.mod_1_r]|]. intros A f. cbn [sizeof]. by rewrite Z.div_1_r.
Qed.

Lemma block_span a len sz : 0 <= len -> dma_block a len -> dma_acc sz -> dma_width len = sizeof sz ->
  (Z.to_nat (len / sizeof sz) * Z.to_nat (sizeof sz))%nat = Z.to_nat len -> dma_span (sizeof sz) a (Z.to_nat (len / sizeof sz)).
Proof.
  intros Hl (Ha & Hal & _ & Hf) Hsz Hw E _. rewrite Hw in Hal. split_and!; [done..|].
  assert (0 < sizeof sz) by (destruct Hsz as [-> |[-> | ->]]; done). lia.
Qed.

Lemma transfer_to_mem_ok dst unit_sz n_units dat s :
  dma_block dst (unit_sz * n_units) -> unit_sz * n_units <= Z.of_nat (length dat) -> Forall (in_range 8) dat ->
  sh4_dmac_transfer_to_mem dst unit_sz n_units dat s =
    Ok (tt, with_bus_ram (store_bytes (dst mod 2 ^ 24) (take (Z.to_nat (unit_sz * n_units)) dat) (ram_of s)) s).
Proof.
  intros Hb Hl Hd. pose proof Hb as (_ & _ & H0 & Hf). pose proof (Z.mod_pos_bound dst (2 ^ 24) ltac:(done)).
  destruct (dma_choice (unit_sz * n_units)) as (sz & Hsz & Hw & E & Hc); [lia|]. unfold sh4_dmac_transfer_to_mem.
  rewrite (Hc _ (fun z n => to_mem_loop z n dst dat)), to_mem_loop_ok by (done || (rewrite E; lia) || by eapply block_span).
  by rewrite E.
Qed.

Lemma transfer_from_mem_ok src unit_sz n_units s : dma_block src (unit_sz * n_units) -> ram_typed (ram_of s) ->
  sh4_dmac_transfer_from_mem src unit_sz n_units s =
    Ok (load_bytes (Z.to_nat (unit_sz * n_units)) (src mod 2 ^ 24) (ram_of s), s).
Proof.
  intros Hb Ht. pose proof Hb as (_ & _ & H0 & Hf). pose proof (Z.mod_pos_bound src (2 ^ 24) ltac:(done)).
  destruct (dma_choice (unit_sz * n_units)) as (sz & Hsz & Hw & E & Hc); [lia|]. unfold sh4_dmac_transfer_from_mem.
  rewrite (Hc _ (fun z n => from_mem_loop z n src)), from_mem_loop_ok by (done || by eapply block_span). by rewrite E.
Qed.

(** the copy goes upwards: the destination may overlap the source from below *)
Lemma transfer_loop_ok n src dst s : dma_span 1 src n -> dma_span 1 dst n -> ram_typed (ram_of s) ->
  (n <> O -> dst mod 2 ^ 24 <= src mod 2 ^ 24 \/ src mod 2 ^ 24 + Z.of_nat n <= dst mod 2 ^ 24) ->
  transfer_loop n src dst s =
    Ok (tt, with_bus_ram (store_bytes (dst mod 2 ^ 24) (load_bytes n (src mod 2 ^ 24) (ram_of s)) (ram_of s)) s).
Proof.
  revert src dst s. induction n as [|n IH]; intros src dst s Hs Hd Ht Ho; cbn [transfer_loop load_bytes store_bytes].
  { by rewrite ram_put_same. }
  destruct (Hs ltac:(done)) as (Hsa & Hsl & _). destruct (Hd ltac:(done)) as (Hda & Hdl & _). specialize (Ho ltac:(done)).
  destruct (span_step 1 src n ltac:(done) Hs) as [Hs' Es]. destruct (span_step 1 dst n ltac:(done) Hd) as [Hd' Ed].
  set (x := byte (ram_of s) (src mod 2 ^ 24)).
  assert (Hr : memory_map_read_8 src s = Ok (le_val [x], s)) by exact (bus_read_ok A8 src s ltac:(by left) Hsa Hsl Ht).
  rewrite (bind_ok _ _ _ _ _ Hr).
  rewrite (bind_ok _ _ _ _ _ (bus_write_ok A8 dst [x] s ltac:(by left) Hda Hdl eq_refl ltac:(repeat constructor; apply Ht))).
  cbn [store_bytes]. set (m1 := <[dst mod 2 ^ 24 := x]> (ram_of s)).
  assert (Ht1 : ram_typed m1) by exact (ram_typed_store (dst mod 2 ^ 24) [x] _ Ht ltac:(repeat constructor; apply Ht)).
  assert (IH' := IH (u32 (src + 1)) (u32 (dst + 1)) (with_bus_ram m1 s)). rewrite ram_put, ram_put_put in IH'. rewrite IH'; clear IH'.
  2-4: done.
  2: { intros Hn. rewrite (Es Hn), (Ed Hn). lia. }
  destruct (decide (n = O)) as [->|Hn]; [done|]. rewrite (Es Hn), (Ed Hn).
  change m1 with (store_bytes (dst mod 2 ^ 24) [x] (ram_of s)) at 1.
  by rewrite load_store_bytes_other by (cbn [length]; lia).
Qed.

Lemma transfer_ok src dst len s : dma_block src len -> dma_block dst len -> ram_typed (ram_of s) ->
  dst mod 2 ^ 24 <= src mod 2 ^ 24 \/ src mod 2 ^ 24 + len <= dst mod 2 ^ 24 ->
  sh4_dmac_transfer src dst len s =
    Ok (tt, with_bus_ram (store_bytes (dst mod 2 ^ 24) (load_bytes (Z.to_nat len) (src mod 2 ^ 24) (ram_of s)) (ram_of s)) s).
Proof.
  intros (Hs & _ & H0 & Hsf) (Hd & _ & _ & Hdf) Ht Ho. apply transfer_loop_ok; [| |done|intros _; lia].
  - intros _. rewrite Z.mod_1_r. split_and!; [done..|lia].
  - intros _. rewrite Z.mod_1_r. split_and!; [done..|lia].
Qed.

(** C35: what goes in comes out: a buffer of any length that a device writes to an aligned block of RAM,
    in any window of any of the seven segments below P4, is stored there byte by byte and nowhere else; a transfer from
    memory to memory copies it to a block that does not overlap it, or that lies below; and reading
    that block gives the device its buffer back, and leaves memory as it is. *)
Theorem dmac_roundtrip (a b unit_sz n_units : Z) (dat : list Z) s :
  let len := unit_sz * n_units in
  dma_block a len -> dma_block b len -> ram_typed (ram_of s) -> Forall (in_range 8) dat -> Z.of_nat (length dat) = len ->
  b mod 2 ^ 24 <= a mod 2 ^ 24 \/ a mod 2 ^ 24 + len <= b mod 2 ^ 24 ->
  exists s1 s2, sh4_dmac_transfer_to_mem a unit_sz n_units dat s = Ok (tt, s1) /\
    sh4_dmac_transfer_from_mem a unit_sz n_units s1 = Ok (dat, s1) /\
    sh4_dmac_transfer a b len s1 = Ok (tt, s2) /\
    sh4_dmac_transfer_from_mem b unit_sz n_units s2 = Ok (dat, s2) /\
    forall x, ~ (a mod 2 ^ 24 <= x < a mod 2 ^ 24 + len) -> ~ (b mod 2 ^ 24 <= x < b mod 2 ^ 24 + len) ->
      byte (ram_of s2) x = byte (ram_of s) x.
Proof.
  intros len Ha Hb Ht Hd Hl Ho. assert (Hn : Z.to_nat len = length dat) by lia.
  pose proof (transfer_to_mem_ok a unit_sz n_units dat s Ha ltac:(lia) Hd) as E1. fold len in E1. rewrite Hn, firstn_all in E1.
  set (m1 := store_bytes (a mod 2 ^ 24) dat (ram_of s)) in *. set (s1 := with_bus_ram m1 s) in *.
  assert (R1 : ram_of s1 = m1) by apply ram_put. assert (T1 : ram_typed m1) by by apply ram_typed_store.
  assert (L1 : load_bytes (length dat) (a mod 2 ^ 24) m1 = dat) by apply load_store_bytes.
  pose proof (transfer_from_mem_ok a unit_sz n_units s1 Ha ltac:(by rewrite R1)) as E2. fold len in E2. rewrite R1, Hn, L1 in E2.
  pose proof (transfer_ok a b len s1 Ha Hb ltac:(by rewrite R1) Ho) as E3. rewrite R1, Hn, L1 in E3.
  set (m2 := store_bytes (b mod 2 ^ 24) dat m1) in *. set (s2 := with_bus_ram m2 s1) in *.
  assert (R2 : ram_of s2 = m2) by apply ram_put.
  pose proof (transfer_from_mem_ok b unit_sz n_units s2 Hb ltac:(rewrite R2; by apply ram_typed_store)) as E4.
  fold len in E4. rewrite R2, Hn in E4. unfold m2 in E4. rewrite load_store_bytes in E4.
  exists s1, s2. split_and!; [done..|]. intros x Hxa Hxb. rewrite R2. unfold m2, m1.
  by rewrite !byte_store_bytes_outside by lia.
Qed.
End transfers.

(** ** Channel 2 *)
Class DmaLaws (W Img : Type) `{!RamWorld W, !DmacWorld W, !PvrWorld W Img, !HollyWorld W, !EventWorld W} : Prop := {
  pvr_set : forall p (w : W), pvr (set_pvr p w) = p;
  pvr_set_set : forall p q (w : W), set_pvr p (set_pvr q w) = set_pvr p w;
  pvr_keeps : forall p (w : W), bus_ram (set_pvr p w) = bus_ram w /\ dmac (set_pvr p w) = dmac w /\ evclk (set_pvr p w) = evclk w;
  dmac_set : forall d (w : W), dmac (set_dmac d w) = d;
  dmac_keeps : forall d (w : W), bus_ram (set_dmac d w) = bus_ram w /\ pvr (set_dmac d w) = pvr w /\ evclk (set_dmac d w) = evclk w /\
    holly (set_dmac d w) = holly w;
  clk_keeps : forall c (w : W), bus_ram (set_evclk c w) = bus_ram w /\ pvr (set_evclk c w) = pvr w /\ dmac (set_evclk c w) = dmac w
}.

Section channel2.
Context {W Img : Type} {CFG : BuildConfig} {HOST : Host Img} {HTL : HostLaws Img} {MCH : Machine W} {RW : RamWorld W} {RL : RamLaws W}.
Context {DW : DmacWorld W} {PW : PvrWorld W Img} {YW : YuvWorld W} {HW : HollyWorld W} {EW : EventWorld W} {EL : EventWorldLaws W} {DL : DmaLaws W Img}.
Implicit Types (s : Sh4 W) (p : pvr2 Img).

Lemma area64_write_exact p k addr val : Forall quiet (fb_heap p) -> 0 <= k <= 3 -> area64_out_of_bounds k addr = false ->
  exists stamps fbs, area64_write k addr val p =
    Ok (tt, upd_tex64 (store (Z.to_nat (2 ^ k)) (elem_addr k (addr - ADDR_TEX64_FIRST)) val (tex64 p)) (upd_stamps stamps (upd_fb fbs p))).
Proof.
  intros Hq Hk Hb. destruct (area64_in_bounds k addr Hk Hb) as (Ha & Hpow & Hz).
  unfold area64_write. rewrite Hb. cbn [when]. rewrite (bind_ok _ _ p tt p eq_refl).
  destruct (fb_notify_quiet p addr (2 ^ k) Hq) as (fbs & E1 & _ & _). rewrite (bind_ok _ _ _ _ _ E1).
  destruct (notify_write_ok (upd_fb fbs p) addr (2 ^ k)) as (stamps & E2 & _); [lia..|]. rewrite (bind_ok _ _ _ _ _ E2).
  by exists stamps, fbs.
Qed.

(** a word at an aligned address of the 64-bit area *)
Lemma tex64_word addr val p : tex_inv p -> after_uploads p -> addr mod 4 = 0 ->
  ADDR_TEX64_FIRST <= addr -> addr + 4 <= ADDR_TEX64_LAST + 1 ->
  exists p', pvr2_tex_mem_area64_write_32 addr val p = Ok (tt, p') /\ tex_inv p' /\ after_uploads p' /\
    clk_now p' = clk_now p /\ tex64 p' = store 4 (addr - ADDR_TEX64_FIRST) val (tex64 p).
Proof.
  unfold ADDR_TEX64_FIRST, ADDR_TEX64_LAST. intros Hi Hau Hal H1 H2.
  assert (Hb : area64_out_of_bounds 2 addr = false).
  { unfold area64_out_of_bounds, ADDR_TEX64_FIRST, ADDR_TEX64_LAST. rewrite wrap_small by (unfold in_range; lia). change (2 ^ 2) with 4.
    destruct (Z.ltb_spec addr 0x4000000), (Z.gtb_spec addr 0x47fffff), (Z.gtb_spec (addr - 1 + 4) 0x47fffff),
      (Z.ltb_spec (addr - 1 + 4) 0x4000000); done || lia. }
  destruct (area64_write_ok p 2 addr val Hi ltac:(lia) Hb Hau) as (p' & E & Hi' & Hc).
  destruct (area64_write_exact p 2 addr val (ti_fb p Hi) ltac:(lia) Hb) as (st & fbs & E'). rewrite E in E'. injection E' as ->.
  exists (upd_tex64 (store (Z.to_nat (2 ^ 2)) (elem_addr 2 (addr - ADDR_TEX64_FIRST)) val (tex64 p)) (upd_stamps st (upd_fb fbs p))).
  split_and!; [exact E|done|exact Hau|done|]. cbn [tex64 upd_tex64]. f_equal.
  unfold elem_addr, ADDR_TEX64_FIRST. rewrite Z.shiftr_div_pow2, Z.shiftl_mul_pow2 by lia. change (2 ^ 2) with 4.
  pose proof (Z.div_mod (addr - 0x4000000) 4 ltac:(lia)) as D.
  rewrite Zminus_mod, Hal in D. change ((0 - 0x4000000 mod 4) mod 4) with 0 in D. lia.
Qed.

Lemma pvr_of_with p s : clk_now p = clock_cycle_stamp (evclk_of s) -> pvr_of (with_pvr p s) = p.
Proof.
  intros Hc. unfold pvr_of, with_pvr, evclk_of in *. cbn. destruct (pvr_keeps p (world s)) as (_ & _ & ->).
  rewrite pvr_set, <- Hc. by destruct p.
Qed.

Lemma with_pvr_keeps p s : ram_of (with_pvr p s) = ram_of s /\ dmac_of (with_pvr p s) = dmac_of s /\
  evclk_of (with_pvr p s) = evclk_of s.
Proof. exact (pvr_keeps p (world s)). Qed.

Definition tex64_sink (addr buf : Z) : M (Sh4 W) unit := on_pvr (pvr2_tex_mem_area64_write_32 addr buf).

Lemma tex64_loop n src dst s :
  dma_span 4 src n -> ram_typed (ram_of s) -> tex_inv (pvr_of s) -> after_uploads (pvr_of s) ->
  dst mod 4 = 0 -> ADDR_TEX64_FIRST <= dst -> dst + 4 * Z.of_nat n <= ADDR_TEX64_LAST + 1 ->
  exists s', ch2_loop tex64_sink n src dst s = Ok (tt, s') /\
    ram_of s' = ram_of s /\ dmac_of s' = dmac_of s /\ evclk_of s' = evclk_of s /\ tex_inv (pvr_of s') /\
    tex64 (pvr_of s') =
      store_bytes (dst - ADDR_TEX64_FIRST) (load_bytes (4 * n) (src mod 2 ^ 24) (ram_of s)) (tex64 (pvr_of s)).
Proof.
  revert src dst s. induction n as [|n IH]; intros src dst s Hs Ht Hi Hau Hal H1 H2; cbn [ch2_loop].
  { exists s. by rewrite Nat.mul_0_r. }
  destruct (Hs ltac:(done)) as (Ha & Hsal & _). destruct (span_step 4 src n ltac:(done) Hs) as [Hs' Es].
  set (bs := load_bytes 4 (src mod 2 ^ 24) (ram_of s)). assert (Hbs : Forall (in_range 8) bs) by by apply load_bytes_range.
  assert (Hr : memory_map_read_32 src s = Ok (le_val bs, s)) by exact (bus_read_ok A32 src s ltac:(by right; right) Ha Hsal Ht).
  rewrite (bind_ok _ _ _ _ _ Hr).
  destruct (tex64_word dst (le_val bs) (pvr_of s) Hi Hau Hal H1 ltac:(lia)) as (p' & E & Hi' & Hau' & Hc & Hm).
  assert (Hw : tex64_sink dst (le_val bs) s = Ok (tt, with_pvr p' s)) by (unfold tex64_sink, on_pvr; by rewrite E).
  rewrite (bind_ok _ _ _ _ _ Hw). pose proof (pvr_of_with p' s Hc) as Hp. destruct (with_pvr_keeps p' s) as (K1 & K2 & K3).
  assert (E4 : u32 (dst + 4) = dst + 4).
  { apply wrap_small. unfold in_range, ADDR_TEX64_FIRST, ADDR_TEX64_LAST in *. lia. }
  destruct (IH (u32 (src + 4)) (u32 (dst + 4)) (with_pvr p' s)) as (s' & E' & R & D & C & I' & M');
    [done|by rewrite K1|by rewrite Hp|by rewrite Hp|rewrite E4, Z.add_mod, Hal by lia; done|rewrite E4; lia|rewrite E4; lia|].
  exists s'. split_and!; [exact E'|congruence..|done|]. rewrite M', Hp, K1, Hm, E4.
  change 4%nat with (length bs) at 2. rewrite store_le_val by done.
  replace (4 * S n)%nat with (4 + 4 * n)%nat by lia. rewrite load_bytes_app, store_bytes_app. fold bs.
  destruct (decide (n = O)) as [->|Hn]; [done|]. rewrite (Es Hn). f_equal. change (length bs) with 4%nat. lia.
Qed.

Definition chan2 (f : sh4_dmac -> list Z) s : Z := nth 2 (f (dmac_of s)) 0.

(** the registers ask for [n_bytes] from a block of RAM *)
Record ch2_armed (n_bytes : Z) s : Prop := {
  ca_len : n_bytes = 32 * chan2 dmatcr s;
  ca_src : dma_block (chan2 sar s) n_bytes;
  ca_ram : ram_typed (ram_of s)
}.

Lemma with_dmac_keeps d s : ram_of (with_dmac d s) = ram_of s /\ pvr_of (with_dmac d s) = pvr_of s /\
  evclk_of (with_dmac d s) = evclk_of s /\ holly_of (with_dmac d s) = holly_of s /\ dmac_of (with_dmac d s) = d.
Proof.
  unfold pvr_of, with_dmac, ram_of, evclk_of, holly_of, dmac_of. cbn. destruct (dmac_keeps d (world s)) as (-> & -> & -> & ->).
  by rewrite dmac_set.
Qed.

Lemma with_evclk_keeps c s : clock_cycle_stamp c = clock_cycle_stamp (evclk_of s) ->
  ram_of (with_evclk c s) = ram_of s /\ pvr_of (with_evclk c s) = pvr_of s /\ dmac_of (with_evclk c s) = dmac_of s /\
  evclk_of (with_evclk c s) = c.
Proof.
  intros Hc. unfold pvr_of, with_evclk, ram_of, evclk_of, dmac_of in *. cbn. destruct (clk_keeps c (world s)) as (-> & -> & ->).
  rewrite evclk_set. by rewrite Hc.
Qed.

Lemma xfer_tex64 src dst n_bytes s :
  dma_block src n_bytes -> n_bytes mod 4 = 0 -> ram_typed (ram_of s) -> tex_inv (pvr_of s) -> after_uploads (pvr_of s) ->
  ADDR_AREA4_TEX64_FIRST <= dst <= ADDR_AREA4_TEX64_LAST -> dst mod 4 = 0 -> dst + n_bytes <= ADDR_AREA4_TEX64_LAST + 1 ->
  exists s', dc_ch2_dma_xfer src dst (n_bytes / 4) s = Ok (tt, s') /\
    ram_of s' = ram_of s /\ dmac_of s' = dmac_of s /\ evclk_of s' = evclk_of s /\ tex_inv (pvr_of s') /\
    tex64 (pvr_of s') = store_bytes (dst - ADDR_AREA4_TEX64_FIRST)
      (load_bytes (Z.to_nat n_bytes) (src mod 2 ^ 24) (ram_of s)) (tex64 (pvr_of s)).
Proof.
  intros (Hsa & Hsal & Hn0 & Hsf) Hm4 Ht Hi Hau Hd Hal Hfit. pose proof (Z.div_mod n_bytes 4 ltac:(done)) as Hdm.
  unfold dma_width in Hsal. rewrite Hm4 in Hsal. change (0 =? 0) with true in Hsal.
  assert (Hspan : dma_span 4 src (Z.to_nat (n_bytes / 4))) by (intros _; split_and!; [done..|lia]).
  set (dst' := dst - ADDR_AREA4_TEX64_FIRST + ADDR_TEX64_FIRST).
  assert (Edst : u32 dst' = dst').
  { apply wrap_small. unfold in_range, dst', ADDR_AREA4_TEX64_FIRST, ADDR_AREA4_TEX64_LAST, ADDR_TEX64_FIRST in *. lia. }
  destruct (tex64_loop (Z.to_nat (n_bytes / 4)) src dst' s) as (s1 & E1 & R1 & D1 & C1 & I1 & M1); try done.
  { unfold dst', ADDR_AREA4_TEX64_FIRST, ADDR_TEX64_FIRST. rewrite Z.add_mod, Zminus_mod, Hal by done. done. }
  { unfold dst', ADDR_AREA4_TEX64_FIRST, ADDR_TEX64_FIRST in *. lia. }
  { unfold dst', ADDR_AREA4_TEX64_FIRST, ADDR_AREA4_TEX64_LAST, ADDR_TEX64_FIRST, ADDR_TEX64_LAST in *. lia. }
  exists s1. split_and!; try done.
  - unfold dc_ch2_dma_xfer, ADDR_TA_FIFO_POLY_FIRST, ADDR_TA_FIFO_POLY_LAST, ADDR_AREA4_TEX64_FIRST, ADDR_AREA4_TEX64_LAST in *.
    destruct (Z.geb_spec dst 0x10000000), (Z.leb_spec dst 0x107fffff), (Z.geb_spec dst 0x11000000), (Z.leb_spec dst 0x117fffff);
      try lia; cbn [andb]; fold dst'; rewrite Edst; exact E1.
  - rewrite M1. unfold dst'. f_equal; [lia|]. f_equal. lia.
Qed.

(** C10: a texture that the program sends with channel 2 arrives.  Let the registers describe a block of
    RAM (a multiple of 32 bytes at an address that is a multiple of 4, inside one 16 MB window: [ch2_armed]), let the destination be a
    multiple of 4 in the mirror of the 64-bit area with room for the block, let the
    texture cache be consistent ([tex_inv]), and let the clock have advanced since the last upload of a texture
    ([after_uploads]; otherwise see [same_stamp_write_missed]); the completion event is not in the queue.  Then
    the transfer stores exactly the block's bytes at the destination's offset in texture memory, leaves
    RAM alone, keeps the texture cache consistent (the textures it changed, if not both
    compressed and mipmapped, count as out of date, and are sent to the host again), and has the
    completion event queued for now. *)
Theorem ch2_texture_upload (dst n_bytes : Z) s l :
  ch2_armed n_bytes s -> tex_inv (pvr_of s) -> after_uploads (pvr_of s) ->
  ADDR_AREA4_TEX64_FIRST <= dst <= ADDR_AREA4_TEX64_LAST -> dst mod 4 = 0 -> dst + n_bytes <= ADDR_AREA4_TEX64_LAST + 1 ->
  clock_ok (evclk_of s) l -> in_range 64 (clock_cycle_stamp (evclk_of s)) ->
  raise_ch2_dma_int_event ∉ l -> is_Some (events (evclk_of s) !! raise_ch2_dma_int_event) ->
  exists s' l', sh4_dmac_channel2 dst n_bytes s = Ok (tt, s') /\
    tex64 (pvr_of s') = store_bytes (dst - ADDR_AREA4_TEX64_FIRST)
      (load_bytes (Z.to_nat n_bytes) (chan2 sar s mod 2 ^ 24) (ram_of s)) (tex64 (pvr_of s)) /\
    tex_inv (pvr_of s') /\ ram_of s' = ram_of s /\ ch2_dma_scheduled (dmac_of s') = true /\
    clock_ok (evclk_of s') l' /\ l' ≡ₚ raise_ch2_dma_int_event :: l /\
    stamp (events (evclk_of s')) raise_ch2_dma_int_event = clock_cycle_stamp (evclk_of s).
Proof.
  intros [Hlen Hsrc Ht] Hi Hau Hd Hal Hfit Hck Hnow Hev Hsome. pose proof Hsrc as (_ & _ & Hn0 & Hsf).
  pose proof (Z.mod_pos_bound (chan2 sar s) (2 ^ 24) ltac:(done)).
  assert (Hm4 : n_bytes mod 4 = 0) by (rewrite Hlen; replace (32 * _) with (8 * chan2 dmatcr s * 4) by lia; by apply Z.mod_mul).
  unfold sh4_dmac_channel2. rewrite (bind_ok _ _ _ (chan2 dmatcr s) s eq_refl).
  rewrite (wrap_small 32 (32 * chan2 dmatcr s)), <- Hlen by (unfold in_range; lia).
  rewrite Z.eqb_refl. cbn [negb when]. rewrite (bind_ok _ _ s tt s eq_refl), (bind_ok _ _ _ (chan2 sar s) s eq_refl).
  destruct (xfer_tex64 (chan2 sar s) dst n_bytes s) as (s1 & Ex & R1 & D1 & C1 & I1 & M1); try done.
  rewrite (bind_ok _ _ _ _ _ Ex). set (s2 := with_dmac (upd_ch2_scheduled true (dmac_of s1)) s1).
  rewrite (bind_ok _ _ _ tt s2 eq_refl), (bind_ok _ _ _ (clock_cycle_stamp (evclk_of s2)) s2 eq_refl).
  destruct (with_dmac_keeps (upd_ch2_scheduled true (dmac_of s1)) s1) as (R2 & P2 & C2 & _ & D2). fold s2 in R2, P2, C2, D2.
  rewrite C2, C1. unfold CH2_DMA_INT_DELAY. rewrite Z.add_0_r, (wrap_small 64) by done.
  destruct (sched_at_ok (evclk_of s) l raise_ch2_dma_int_event (clock_cycle_stamp (evclk_of s)) Hck Hev Hsome (Z.le_refl _))
    as (c' & l' & E3 & Hck' & Hl' & Hst & Hks).
  assert (Ec : evclk_of s2 = evclk_of s) by congruence.
  assert (E4 : sched_at raise_ch2_dma_int_event (clock_cycle_stamp (evclk_of s)) (evclk_of s2) = Ok (tt, c')) by by rewrite Ec.
  destruct (with_evclk_keeps c' s2 ltac:(rewrite Ec; apply Hks)) as (R3 & P3 & D3 & C3).
  rewrite (on_evclk_ok _ _ _ _ E4). exists (with_evclk c' s2), l'. rewrite P3, P2, R3, R2, D3, D2, C3.
  by split_and!.
Qed.

(** the completion: channel 2 is marked as ended, both controllers have the interrupt, and the next
    transfer can be scheduled *)
Context (J : bool -> W -> Prop) (J_holly : forall b h w, J b w -> J b (set_holly h w)) (J_dmac : forall b d w, J b w -> J b (set_dmac d w)).
Context {HL : HollyWorldLaws W}.
Context (refresh_keeps : forall w w', sched_refresh_intc w = Ok w' -> holly w' = holly w /\ dmac w' = dmac w).
Context (holly_dmac : forall h w, dmac (set_holly h w) = dmac w).

Lemma with_dmac_ready d s : intc_ready J s -> intc_ready J (with_dmac d s).
Proof. intros [[] ? ? ?]. split; [by split|done..|by apply J_dmac]. Qed.

Lemma raise_keeps_dmac i s s' : holly_raise i s = Ok (tt, s') -> dmac_of s' = dmac_of s.
Proof.
  rewrite raise_eq. set (s1 := with_holly _ s). assert (H1 : dmac_of s1 = dmac_of s) by apply holly_dmac.
  destruct (int_irl (holly_of s) i) as [irl|]; cbn [drive]; [|by intros [= <-]]. intros H. rewrite <- H1.
  exact (set_irl_interrupt_part dmac (fun w w' E => proj2 (refresh_keeps w w' E)) _ _ _ _ _ H).
Qed.

Theorem ch2_dma_completes s : refresh_total J -> intc_ready J s -> length (chcr (dmac_of s)) = 4%nat ->
  exists s', raise_ch2_dma_int_event_handler s = Ok (tt, s') /\ intc_ready J s' /\
    Z.testbit (chan2 chcr s') 1 = true /\ ch2_dma_scheduled (dmac_of s') = false /\
    Z.land (holly_of s' reg_istnrm) HOLLY_REG_ISTNRM_CHANNEL2_DMA_COMPLETE_MASK = HOLLY_REG_ISTNRM_CHANNEL2_DMA_COMPLETE_MASK.
Proof.
  intros Hw Hr Hl. unfold raise_ch2_dma_int_event_handler. set (d1 := (fun d => upd_chcr (chan_set 2 (Z.lor (nth 2 (chcr d) 0) SH4_DMAC_CHCR_TE_MASK) (chcr d)) d) (dmac_of s)). set (s1 := with_dmac d1 s).
  rewrite (bind_ok _ _ _ tt s1 eq_refl). pose proof (with_dmac_ready d1 s Hr) as Hr1. fold s1 in Hr1.
  destruct (set_interrupt_returns J SH4_IRQ_DMAC SH4_EXCP_DMAC_DMTE2 s1 Hw Hr1) as (s2 & E2 & Hr2); [right; by eexists|].
  rewrite (bind_ok _ _ _ _ _ E2). set (s3 := with_dmac (upd_ch2_scheduled false (dmac_of s2)) s2).
  rewrite (bind_ok _ _ _ tt s3 eq_refl). pose proof (with_dmac_ready (upd_ch2_scheduled false (dmac_of s2)) s2 Hr2) as Hr3. fold s3 in Hr3.
  assert (D2 : dmac_of s2 = d1).
  { etrans; [exact (set_interrupt_part dmac (fun w w' E => proj2 (refresh_keeps w w' E)) _ _ _ _ _ _ E2)|]. apply dmac_set. }
  destruct (raise_returns J J_holly (fun w w' E => proj1 (refresh_keeps w w' E)) (inl HOLLY_REG_ISTNRM_CHANNEL2_DMA_COMPLETE) s3 Hw Hr3)
    as (s4 & E4 & Hr4 & Hh). exists s4. pose proof (raise_keeps_dmac _ _ _ E4) as D4.
  assert (D3 : dmac_of s3 = upd_ch2_scheduled false d1) by (rewrite <- D2; apply dmac_set).
  split_and!; [exact E4|done| |by rewrite D4, D3|].
  - unfold chan2. rewrite D4, D3. cbn [chcr upd_ch2_scheduled d1 upd_chcr]. unfold chan_set. change (Z.to_nat 2) with 2%nat.
    rewrite nth_lookup, list_lookup_insert_eq by lia.
    change (Z.testbit (u32 (Z.lor (nth 2 (chcr (dmac_of s)) 0) SH4_DMAC_CHCR_TE_MASK)) 1 = true).
    rewrite wrap_testbit, Z.lor_spec by lia. by rewrite orb_true_r.
  - rewrite Hh. apply raised_pending.
Qed.
End channel2.

(** *** Witnesses: a machine with the RAM, the controllers, the clock and the texture memory *)
Record dma_board : Type := {
  db_ram : Memory; db_dmac : sh4_dmac; db_pvr : pvr2 example.kept; db_yuv : pvr2_yuv; db_yuv_regs : Z * Z; db_holly : holly_intc; db_clk : dc_clock
}.
#[local] Existing Instances example.host example.host_laws.
#[local] Instance dma_ram : RamWorld dma_board := {|
  bus_ram := db_ram;
  set_bus_ram := fun m b => {| db_ram := m; db_dmac := db_dmac b; db_pvr := db_pvr b; db_yuv := db_yuv b; db_yuv_regs := db_yuv_regs b; db_holly := db_holly b; db_clk := db_clk b |}
|}.
#[local] Instance dma_dmac : DmacWorld dma_board := {|
  dmac := db_dmac;
  set_dmac := fun d b => {| db_ram := db_ram b; db_dmac := d; db_pvr := db_pvr b; db_yuv := db_yuv b; db_yuv_regs := db_yuv_regs b; db_holly := db_holly b; db_clk := db_clk b |};
  raise_ch2_dma_int_event := 1
|}.
#[local] Instance dma_pvr : PvrWorld dma_board example.kept := {|
  pvr := db_pvr;
  set_pvr := fun p b => {| db_ram := db_ram b; db_dmac := db_dmac b; db_pvr := p; db_yuv := db_yuv b; db_yuv_regs := db_yuv_regs b; db_holly := db_holly b; db_clk := db_clk b |};
  pvr2_ta_fifo_poly_write_32 := fun _ _ => ret tt
|}.
#[local] Instance dma_yuv : YuvWorld dma_board := {|
  yuv := db_yuv;
  set_yuv := fun y b => {| db_ram := db_ram b; db_dmac := db_dmac b; db_pvr := db_pvr b; db_yuv := y; db_yuv_regs := db_yuv_regs b; db_holly := db_holly b; db_clk := db_clk b |};
  ta_yuv_tex_base := fun b => fst (db_yuv_regs b);
  ta_yuv_tex_ctrl := fun b => snd (db_yuv_regs b);
  set_yuv_regs := fun base ctrl b =>
    {| db_ram := db_ram b; db_dmac := db_dmac b; db_pvr := db_pvr b; db_yuv := db_yuv b; db_yuv_regs := (base, ctrl); db_holly := db_holly b; db_clk := db_clk b |};
  pvr2_yuv_complete_int_event := 2
|}.
#[local] Instance dma_holly : HollyWorld dma_board := {|
  holly := db_holly;
  set_holly := fun h b => {| db_ram := db_ram b; db_dmac := db_dmac b; db_pvr := db_pvr b; db_yuv := db_yuv b; db_yuv_regs := db_yuv_regs b; db_holly := h; db_clk := db_clk b |}
|}.
#[local] Instance dma_events : EventWorld dma_board := {|
  evclk := db_clk;
  set_evclk := fun c b => {| db_ram := db_ram b; db_dmac := db_dmac b; db_pvr := db_pvr b; db_yuv := db_yuv b; db_yuv_regs := db_yuv_regs b; db_holly := db_holly b; db_clk := c |}
|}.
Definition dma_map : memory_map (Sh4 dma_board) :=
  match add_ram_regions (ram_intf (ram_of (W := dma_board)) with_bus_ram) memory_map_init with
  | Ok (_, m) => m
  | Err _ => memory_map_init
  end.
#[local] Instance dma_machine : Machine dma_board := {|
  mem_map := dma_map; sched_refresh_intc := fun b => Ok b;
  dc_debugger_enabled := fun _ => false; debug_on_softbreak := fun _ _ => ret tt;
  fpu_inst := fun _ _ => raise ERROR_UNIMPLEMENTED
|}.
#[local] Instance dma_ram_laws : RamLaws dma_board.
Proof. apply ram_windows_laws; try done; [by intros []|by apply ram_on_bus_alone]. Qed.
#[local] Instance dma_event_laws : EventWorldLaws dma_board.
Proof. by split. Qed.
#[local] Instance dma_laws : DmaLaws dma_board example.kept.
Proof. by split. Qed.

Definition yuv_idle : pvr2_yuv :=
  {| dst_addr := 0; yuv_fmt := PVR2_YUV_FMT_420; macroblock_offset := 0; cur_macroblock_x := 0; cur_macroblock_y := 0;
     macroblock_count_x := 0; macroblock_count_y := 0; u_buf := replicate 64 0; v_buf := replicate 64 0; y_buf := replicate 256 0;
     yuv_complete_event_scheduled := false |}.
Definition dma_regs (src count : Z) : sh4_dmac :=
  {| sar := [0; 0; src; 0]; dar := [0; 0; 0; 0]; dmatcr := [0; 0; count; 0]; chcr := [0; 0; 0; 0]; dmaor := 0; ch2_dma_scheduled := false |}.
Definition dma_clock : dc_clock :=
  clock_set_cycle_stamp 10 (with_target (10 + 16 * SH4_CLOCK_SCALE) None (dc_clock_init (<[2 := unlinked 0]> (<[1 := unlinked 0]> ∅)))).
Definition dma_cpu (m : Memory) (src count : Z) : Sh4 dma_board :=
  let c := cpu_with [] ∅ in
  {| reg := reg c; delayed_branch := false; delayed_branch_addr := 0; exec_state := SH4_EXEC_STATE_NORM;
     last_inst_type := SH4_GROUP_NONE; aborted_operation := false; sq := sq c; intc := idle_intc; fround := FE_TONEAREST;
     world := {| db_ram := m; db_dmac := dma_regs src count; db_pvr := example.start; db_yuv := yuv_idle; db_yuv_regs := (0, 0); db_holly := no_masks; db_clk := dma_clock |} |}.

Lemma zeros_typed : ram_typed ∅.
Proof. intros a. unfold byte. by rewrite lookup_empty. Qed.

(** seven bytes, copied over their own lower half *)
Lemma dmac_roundtrip_witness :
  exists s1 s2, sh4_dmac_transfer_to_mem 0x8c001004 1 7 [1; 2; 3; 4; 5; 6; 7] (dma_cpu ∅ 0 0) = Ok (tt, s1) /\
    sh4_dmac_transfer 0x8c001004 0xad001001 7 s1 = Ok (tt, s2) /\
    sh4_dmac_transfer_from_mem 0x0e001001 1 7 s2 = Ok ([1; 2; 3; 4; 5; 6; 7], s2).
Proof.
  destruct (dmac_roundtrip 0x8c001004 0xad001001 1 7 [1; 2; 3; 4; 5; 6; 7] (dma_cpu ∅ 0 0))
    as (s1 & s2 & H1 & _ & H2 & H3 & _).
  - unfold dma_block, in_area3, in_range. vm_compute. intuition congruence.
  - unfold dma_block, in_area3, in_range. vm_compute. intuition congruence.
  - exact zeros_typed.
  - repeat constructor; done.
  - done.
  - left. by vm_compute.
  - exists s1, s2. split; [exact H1|]. split; [exact H2|]. exact H3.
Defined.

Lemma ch2_texture_upload_witness :
  let s := dma_cpu (<[0x2000 := 0xaa]> ∅) 0x8c002000 1 in
  exists s', sh4_dmac_channel2 0x11001000 32 s = Ok (tt, s') /\ byte (tex64 (pvr_of s')) 0x1000 = 0xaa /\
    stamp (events (evclk_of s')) 1 = 10.
Proof.
  intros s. assert (Hinv : tex_inv (upd_now 10 example.start)).
  { apply (tex_reachable_inv (CFG := example.config) example.no_sync), example.reach_time; [by vm_compute|exact example.reach_start]. }
  destruct (ch2_texture_upload 0x11001000 32 s []) as (s' & l' & H & Ht & _ & _ & _ & _ & _ & Hst).
  - split; [done| |].
    + unfold dma_block, in_area3, in_range. vm_compute. intuition congruence.
    + exact (ram_typed_store 0x2000 [0xaa] ∅ zeros_typed ltac:(by repeat constructor)).
  - exact Hinv.
  - by apply example.late_ok; vm_compute.
  - by vm_compute.
  - done.
  - by vm_compute.
  - split; [|by vm_compute|by apply list.Forall_nil]. split_and!; [done|done|by apply list.NoDup_nil|constructor].
  - by vm_compute.
  - by intros ?%elem_of_nil.
  - by eexists.
  - exists s'. split; [exact H|]. split; [rewrite Ht; by vm_compute|exact Hst].
Defined.
