(* ===== verification/YuvDma.v ===== *)
(** A film frame from the RAM to the screen's memory: channel 2 of the DMA controller (Dmac) feeds the YUV
    converter (Yuv, YuvPicture), which stores the picture in texture memory; and what goes wrong when the
    picture reaches the end of that memory. *)
From stdpp Require Import gmap.
From S2P Require Import Prelude IntMath MemoryMap Memory Sh4State Board Sh4Core Sh4Excp Sched Sh4Exec.
From S2P Require Import Frame Sh4Irl Events Holly GfxObj TexCache TexRead TexCoherent TexSteps Textures RamBus Yuv YuvPicture Dmac.
Import memory_map memory sched.

(** what the two classes of laws do not say about each other's parts *)
Class YuvDmaLaws (W Img : Type) `{!RamWorld W, !DmacWorld W, !PvrWorld W Img, !YuvWorld W, !EventWorld W} : Prop := {
  yd_yuv : forall y (w : W), bus_ram (set_yuv y w) = bus_ram w /\ dmac (set_yuv y w) = dmac w;
  yd_regs : forall b c (w : W), bus_ram (set_yuv_regs b c w) = bus_ram w /\ dmac (set_yuv_regs b c w) = dmac w;
  yd_dmac : forall d (w : W), yuv (set_dmac d w) = yuv w;
  yd_events : pvr2_yuv_complete_int_event <> raise_ch2_dma_int_event
}.

Section film.
Context {W Img : Type} {CFG : BuildConfig} {MCH : Machine W} {RW : RamWorld W} {RL : RamLaws W}.
Context {DW : DmacWorld W} {PW : PvrWorld W Img} {YW : YuvWorld W} {HW : HollyWorld W} {EW : EventWorld W} {EL : EventWorldLaws W}.
Context {DL : DmaLaws W Img} {YL : YuvLaws W Img} {YD : YuvDmaLaws W Img}.
Implicit Types s : Sh4 W.

(** the RAM and the controller *)
Definition ram_dmac (w : W) : Memory * sh4_dmac := (bus_ram w, dmac w).

Lemma ram_dmac_pvr p w : ram_dmac (set_pvr p w) = ram_dmac w.
Proof. unfold ram_dmac. by destruct (pvr_keeps p w) as (-> & -> & _). Qed.
Lemma ram_dmac_yuv y w : ram_dmac (set_yuv y w) = ram_dmac w.
Proof. unfold ram_dmac. by destruct (yd_yuv y w) as (-> & ->). Qed.
Lemma ram_dmac_clk c w : ram_dmac (set_evclk c w) = ram_dmac w.
Proof. unfold ram_dmac. by destruct (clk_keeps c w) as (-> & _ & ->). Qed.
Lemma ram_dmac_regs b c w : ram_dmac (set_yuv_regs b c w) = ram_dmac w.
Proof. unfold ram_dmac. by destruct (yd_regs b c w) as (-> & ->). Qed.
Abbreviation fed := (fed ram_dmac).

Lemma load_bytes_take n m a mem : (n <= m)%nat -> take n (load_bytes m a mem) = load_bytes n a mem.
Proof.
  intros H. replace m with (n + (m - n))%nat by lia. rewrite load_bytes_app.
  by rewrite take_app_le, take_ge by (rewrite length_load_bytes; lia).
Qed.
Lemma load_bytes_drop n m a mem : (n <= m)%nat -> drop n (load_bytes m a mem) = load_bytes (m - n) (a + Z.of_nat n) mem.
Proof.
  intros H. replace m with (n + (m - n))%nat at 1 by lia. rewrite load_bytes_app.
  rewrite <- (length_load_bytes n a mem) at 1. apply drop_app_length.
Qed.

Section transfer.
Context (dst cx cy ctrl now : Z) (frame : list Z) (m0 : Memory) (ram : Memory) (d : sh4_dmac) (c0 : dc_clock) (l0 : list Z).
Context (FO : frame_ok dst cx cy ctrl now frame) (Hram : ram_typed ram).
Abbreviation feeding := (fed dst cx cy ctrl now frame m0 (ram, d) c0 l0).

Lemma feeding_ram i s : feeding i s -> ram_of s = ram /\ dmac_of s = d.
Proof. intros Hf. pose proof (fd_part _ _ _ _ _ _ _ _ _ _ _ _ _ Hf) as E. unfold ram_dmac in E. by injection E. Qed.

Lemma yuv_loop n src xdst i s : feeding i s -> 0 <= i -> dma_span 4 src n -> i + 4 * Z.of_nat n <= 384 * (cx * cy) ->
  load_bytes (4 * n) (src mod 2 ^ 24) ram = take (4 * n) (drop (Z.to_nat i) frame) ->
  exists s', ch2_loop (fun _ buf => pvr2_yuv_input_data (le_bytes 4 buf)) n src xdst s = Ok (tt, s') /\ feeding (i + 4 * Z.of_nat n) s'.
Proof.
  revert src xdst i s. induction n as [|n IH]; intros src xdst i s Hf Hi Hs Hle Hl; cbn [ch2_loop].
  { exists s. by rewrite Z.mul_0_r, Z.add_0_r. }
  destruct (Hs ltac:(done)) as (Ha & Hal & _). destruct (span_step 4 src n ltac:(done) Hs) as [Hs' Es].
  destruct (feeding_ram i s Hf) as [Er _]. set (bs := load_bytes 4 (src mod 2 ^ 24) ram).
  assert (Hr : memory_map_read_32 src s = Ok (le_val bs, s)).
  { pose proof (bus_read_ok A32 src s ltac:(by right; right) Ha Hal ltac:(by rewrite Er)) as E. by rewrite Er in E. }
  rewrite (bind_ok _ _ _ _ _ Hr). change 4%nat with (length bs) at 1. rewrite le_bytes_val by by apply load_bytes_range.
  replace (4 * S n)%nat with (4 + 4 * n)%nat in Hl by lia.
  assert (Hbs : bs = take 4 (drop (Z.to_nat i) frame)).
  { apply (f_equal (take 4)) in Hl. rewrite load_bytes_take, take_take in Hl by lia. by rewrite Nat.min_l in Hl by lia. }
  destruct (input_data_ok ram_dmac ram_dmac_pvr ram_dmac_yuv ram_dmac_clk _ _ _ _ _ _ _ _ _ _ FO bs i s Hf Hi) as (s1 & E1 & Hf1);
    [change (length bs) with 4%nat; lia|done|].
  change (Z.of_nat (length bs)) with 4 in Hf1. rewrite (bind_ok _ _ _ _ _ E1).
  destruct (IH (u32 (src + 4)) (u32 (xdst + 4)) (i + 4) s1 Hf1) as (s' & E' & Hf'); [lia|done|lia| |].
  - apply (f_equal (drop 4)) in Hl. rewrite load_bytes_drop in Hl by lia. replace (4 + 4 * n - 4)%nat with (4 * n)%nat in Hl by lia.
    rewrite skipn_firstn_comm, drop_drop in Hl. replace (4 + 4 * n - 4)%nat with (4 * n)%nat in Hl by lia.
    destruct (decide (n = O)) as [->|Hn]; [done|]. rewrite (Es Hn), Z2Nat.inj_add by lia. exact Hl.
  - exists s'. split; [done|]. by replace (i + 4 * Z.of_nat (S n)) with (i + 4 + 4 * Z.of_nat n) by lia.
Qed.

Lemma xfer_yuv src xdst s : feeding 0 s -> dma_block src (384 * (cx * cy)) -> ADDR_TA_FIFO_YUV_FIRST <= xdst <= ADDR_TA_FIFO_YUV_LAST ->
  frame = load_bytes (Z.to_nat (384 * (cx * cy))) (src mod 2 ^ 24) ram ->
  exists s', dc_ch2_dma_xfer src xdst (384 * (cx * cy) / 4) s = Ok (tt, s') /\ feeding (384 * (cx * cy)) s'.
Proof.
  intros Hf (Ha & Hal & Hn0 & Hfit) Hx Hfr. unfold dc_ch2_dma_xfer.
  assert (Hdiv : 384 * (cx * cy) / 4 = 96 * (cx * cy)) by (replace (384 * (cx * cy)) with (96 * (cx * cy) * 4) by lia; by apply Z.div_mul).
  assert (Hmod : 384 * (cx * cy) mod 4 = 0) by (replace (384 * (cx * cy)) with (96 * (cx * cy) * 4) by lia; by apply Z.mod_mul).
  unfold dma_width in Hal. rewrite Hmod in Hal. change (0 =? 0) with true in Hal. rewrite Hdiv.
  unfold ADDR_TA_FIFO_YUV_FIRST, ADDR_TA_FIFO_YUV_LAST, ADDR_TA_FIFO_POLY_FIRST, ADDR_TA_FIFO_POLY_LAST, ADDR_AREA4_TEX64_FIRST,
    ADDR_AREA4_TEX64_LAST, ADDR_AREA4_TEX32_FIRST, ADDR_AREA4_TEX32_LAST in *.
  destruct (Z.geb_spec xdst 0x10000000), (Z.leb_spec xdst 0x107fffff), (Z.geb_spec xdst 0x11000000), (Z.geb_spec xdst 0x11800000),
    (Z.geb_spec xdst 0x10800000), (Z.leb_spec xdst 0x10ffffff); try lia. cbn [andb].
  assert (Hn : (4 * Z.to_nat (96 * (cx * cy)))%nat = Z.to_nat (384 * (cx * cy))) by lia.
  destruct (yuv_loop (Z.to_nat (96 * (cx * cy))) src xdst 0 s Hf) as (s' & E & Hf'); [lia| |lia| |].
  - intros _. split_and!; [done..|lia].
  - rewrite Hn, <- Hfr. change (drop (Z.to_nat 0) frame) with frame. symmetry. apply take_ge. pose proof (fo_len _ _ _ _ _ _ FO). lia.
  - exists s'. split; [exact E|]. by replace (384 * (cx * cy)) with (0 + 4 * Z.of_nat (Z.to_nat (96 * (cx * cy)))) by lia.
Qed.
End transfer.

(** the registers ask for a single picture in 4:2:0 that is at most 512 pixels wide and ends, with one row
    more, in texture memory *)
Record picture_fits (ctrl base : Z) : Prop := {
  pf_single : truth (Z.land ctrl (Z.shiftl 1 16)) = false;
  pf_420 : truth (Z.land ctrl (Z.shiftl 1 24)) = false;
  pf_width : conf_cx ctrl <= 32;
  pf_end : conf_dst base + 1024 * (16 * conf_cy ctrl) + 32 * conf_cx ctrl <= PVR2_TEX_MEM_LEN
}.

Lemma land_low x : 0 <= Z.land x 0x3f < 64.
Proof. change 0x3f with (Z.ones 6). rewrite Z.land_ones by lia. by apply Z.mod_pos_bound. Qed.

Lemma conf_dst_aligned base : 0 <= conf_dst base /\ conf_dst base mod 4 = 0.
Proof.
  unfold conf_dst. change (intmath.BIT_RANGE 3 23) with (Z.shiftl (Z.ones 21) 3). split; [apply Z.land_nonneg; by right|].
  change 4 with (2 ^ 2). rewrite <- Z.land_ones, <- Z.land_assoc by lia. change (Z.land (Z.shiftl (Z.ones 21) 3) (Z.ones 2)) with 0. apply Z.land_0_r.
Qed.

Lemma ram_frame_ok ctrl base now src s : picture_fits ctrl base -> ram_typed (ram_of s) -> 0 <= now -> now + PVR2_YUV_COMPLETE_INT_DELAY < 2 ^ 64 ->
  frame_ok (conf_dst base) (conf_cx ctrl) (conf_cy ctrl) ctrl now
    (load_bytes (Z.to_nat (384 * (conf_cx ctrl * conf_cy ctrl))) (src mod 2 ^ 24) (ram_of s)).
Proof.
  intros [H16 H24 Hw He] Ht Hn H64. pose proof (land_low ctrl). pose proof (land_low (Z.shiftr ctrl 8)). unfold conf_cx, conf_cy in *.
  split; [lia|lia|apply conf_dst_aligned|done| |by apply load_bytes_range|done|done]. rewrite length_load_bytes. lia.
Qed.

(** the end of a transfer of channel 2: its event joins the queue *)
Lemma ch2_queued s1 l1 now : clock_ok (evclk_of s1) l1 -> clock_cycle_stamp (evclk_of s1) = now -> in_range 64 now ->
  raise_ch2_dma_int_event ∉ l1 -> is_Some (events (evclk_of s1) !! raise_ch2_dma_int_event) ->
  exists s' l', (dmac_mod (upd_ch2_scheduled true) ;;
      now <- gets (fun s => clock_cycle_stamp (evclk_of s)) ;;
      on_evclk (sched_at raise_ch2_dma_int_event (u64 (now + CH2_DMA_INT_DELAY)))) s1 = Ok (tt, s') /\
    ram_of s' = ram_of s1 /\ pvr_of s' = pvr_of s1 /\ clock_ok (evclk_of s') l' /\ l' ≡ₚ raise_ch2_dma_int_event :: l1 /\
    stamp (events (evclk_of s')) raise_ch2_dma_int_event = now /\
    keeps_stamps (fun i => i <> raise_ch2_dma_int_event) (evclk_of s1) (evclk_of s').
Proof.
  intros Hck Hn Hnow Hni Hsome. set (s2 := with_dmac (upd_ch2_scheduled true (dmac_of s1)) s1).
  rewrite (bind_ok _ _ _ tt s2 eq_refl), (bind_ok _ _ _ (clock_cycle_stamp (evclk_of s2)) s2 eq_refl).
  destruct (with_dmac_keeps (upd_ch2_scheduled true (dmac_of s1)) s1) as (R2 & P2 & C2 & _ & D2). fold s2 in R2, P2, C2, D2.
  rewrite C2, Hn. unfold CH2_DMA_INT_DELAY. rewrite Z.add_0_r, (wrap_small 64) by done.
  destruct (sched_at_ok (evclk_of s1) l1 raise_ch2_dma_int_event now Hck Hni Hsome ltac:(lia)) as (c' & l' & E & Hck' & Hl' & Hst & Hks).
  rewrite <- C2 in E. rewrite (on_evclk_ok _ _ _ _ E). destruct (with_evclk_keeps c' s2 ltac:(rewrite C2; apply Hks)) as (R3 & P3 & _ & C3).
  exists (with_evclk c' s2), l'. rewrite R3, R2, P3, P2, C3. by split_and!.
Qed.

(** C11: a film frame that the program leaves in RAM becomes a picture.  Let the program tell the
    converter with the two registers where the picture goes and how large it is, and start
    channel 2 of the DMA controller on the frame.  The picture is a single one in 4:2:0 format, at most 512 pixels wide, and
    ends at least one line of 1024 bytes before the end of texture memory ([picture_fits]; without that line
    the conversion fails, see [yuv_end_of_memory_fails]); the frame is at an address that is a multiple of 4, inside one 16 MB window of the
    RAM; no completion of the converter is pending, neither event is in the queue, and the clock is below 2^63.  Then every
    pixel of the picture has the chroma and the luminance of its place in the frame, no other byte of
    texture memory changes, the RAM is left alone, and the events of both completions are
    queued, the transfer's for now and the converter's after its delay. *)
Theorem ch2_yuv_picture (ctrl base fifo : Z) s l :
  let n_bytes := 384 * (conf_cx ctrl * conf_cy ctrl) in
  let now := clock_cycle_stamp (evclk_of s) in
  picture_fits ctrl base -> ch2_armed n_bytes s -> ADDR_TA_FIFO_YUV_FIRST <= fifo <= ADDR_TA_FIFO_YUV_LAST ->
  bufs_ok (yuv_of s) -> yuv_complete_event_scheduled (yuv_of s) = false -> clock_ok (evclk_of s) l -> 0 <= now < 2 ^ 63 ->
  (forall e, e = pvr2_yuv_complete_int_event \/ e = raise_ch2_dma_int_event -> (e ∉ l) /\ is_Some (events (evclk_of s) !! e)) ->
  exists s' l', (yuv_start ctrl base ;; sh4_dmac_channel2 fifo n_bytes) s = Ok (tt, s') /\
    shows_frame (conf_dst base) (conf_cx ctrl) (conf_cy ctrl) (load_bytes (Z.to_nat n_bytes) (chan2 sar s mod 2 ^ 24) (ram_of s))
      (tex64 (pvr_of s)) (tex64 (pvr_of s')) /\
    ram_of s' = ram_of s /\ clock_ok (evclk_of s') l' /\ l' ≡ₚ raise_ch2_dma_int_event :: pvr2_yuv_complete_int_event :: l /\
    stamp (events (evclk_of s')) raise_ch2_dma_int_event = now /\
    stamp (events (evclk_of s')) pvr2_yuv_complete_int_event = now + PVR2_YUV_COMPLETE_INT_DELAY.
Proof.
  intros n_bytes now Hpf [Hlen Hsrc Ht] Hx Hb Hsch Hck Hnow Hev.
  destruct (Hev _ (or_introl eq_refl)) as [Yni Ysome]. destruct (Hev _ (or_intror eq_refl)) as [Dni Dsome]. clear Hev.
  assert (H64 : now + PVR2_YUV_COMPLETE_INT_DELAY < 2 ^ 64) by (change PVR2_YUV_COMPLETE_INT_DELAY with 5273437; lia).
  pose proof (ram_frame_ok ctrl base now (chan2 sar s) s Hpf Ht (proj1 Hnow) H64) as FO. fold n_bytes in FO.
  assert (Hq : yuv_queue (evclk_of s) l now false s) by (split; [done|by split|done|by exists l]).
  destruct (yuv_start_ok ram_dmac ram_dmac_yuv ram_dmac_regs ctrl base now _ (evclk_of s) l s FO Hb Hq) as (s1 & E1 & Hf1).
  rewrite (bind_ok _ _ _ _ _ E1). destruct (feeding_ram _ _ _ _ _ _ _ (ram_of s) (dmac_of s) _ _ _ s1 Hf1) as [R1 D1].
  unfold sh4_dmac_channel2. assert (Ech : forall f, chan2 f s1 = chan2 f s) by (intros f; unfold chan2; by rewrite D1).
  rewrite (bind_ok _ _ _ (chan2 dmatcr s1) s1 eq_refl), Ech.
  destruct Hsrc as (Ha & Hal & Hn0 & Hfit). pose proof (Z.mod_pos_bound (chan2 sar s) (2 ^ 24) ltac:(done)).
  rewrite (wrap_small 32 (32 * chan2 dmatcr s)), <- Hlen by (unfold in_range; lia). rewrite Z.eqb_refl. cbn [negb when].
  rewrite (bind_ok (ret tt) _ s1 tt s1 eq_refl), (bind_ok _ _ _ (chan2 sar s1) s1 eq_refl), Ech.
  destruct (xfer_yuv _ _ _ _ _ _ _ (ram_of s) (dmac_of s) _ _ FO Ht (chan2 sar s) fifo s1 Hf1) as (s2 & E2 & Hf2); [done|done|done|].
  rewrite (bind_ok _ _ _ _ _ E2). destruct (feeding_ram _ _ _ _ _ _ _ (ram_of s) (dmac_of s) _ _ _ s2 Hf2) as [R2 _].
  destruct (fed_shows _ _ _ _ _ _ _ _ _ _ _ FO s2 Hf2) as [Hshow _].
  pose proof (fd_queue _ _ _ _ _ _ _ _ _ _ _ _ _ Hf2) as [Qn Qk _ Qe]. rewrite Z.eqb_refl in Qe. destruct Qe as (l1 & Hck1 & Hl1 & Hst1).
  destruct (ch2_queued s2 l1 now Hck1 Qn) as (s' & l' & E' & R' & P' & Hck' & Hl' & Hst' & Hks).
  { unfold in_range. lia. }
  { rewrite Hl1, elem_of_cons. intros [E|E]; [by apply yd_events|done]. }
  { by apply Qk. }
  exists s', l'. split; [exact E'|]. rewrite P', R', R2. split_and!; try done.
  - by rewrite Hl', Hl1.
  - rewrite <- Hst1. apply Hks. apply yd_events.
Qed.

(** ** The end of texture memory *)
Lemma store_rows_app n k block row ptr base (p : pvr2 Img) : 0 <= ptr -> base = 4 * ptr -> 4 * ptr + 1024 * Z.of_nat n < 2 ^ 32 ->
  store_rows (n + k) block row ptr base p =
    (store_rows n block row ptr base ;; store_rows k block (row + Z.of_nat n) (ptr + 256 * Z.of_nat n) (4 * (ptr + 256 * Z.of_nat n))) p.
Proof.
  intros Hp -> Hlt. revert row ptr p Hp Hlt. induction n as [|n IH]; intros row ptr p Hp Hlt; cbn [store_rows Nat.add].
  { by rewrite Z.mul_0_r, !Z.add_0_r. }
  change (linestride / 4) with 256. change linestride with 1024.
  assert (E4 : u32 (4 * ptr + 1024) = 4 * (ptr + 256)) by (rewrite wrap_small by (unfold in_range; lia); lia). rewrite E4. unfold bind.
  destruct (when _ _ p) as [[[] p1]|]; [|done]. cbn [modify]. destruct (pvr2_framebuffer_notify_write _ _ _) as [[[] p2]|]; [|done].
  destruct (pvr2_tex_cache_notify_write _ _ _) as [[[] p3]|]; [|done]. rewrite IH by lia. unfold bind. by replace (row + 1 + Z.of_nat n) with (row + Z.of_nat (S n)) by lia;
    replace (ptr + 256 + 256 * Z.of_nat n) with (ptr + 256 * Z.of_nat (S n)) by lia.
Qed.

Lemma notify_past_end a (p : pvr2 Img) : 0 <= a -> a <= PVR2_TEX_MEM_LEN + 1024 -> PVR2_TEX_MEM_LEN < a + 32 ->
  pvr2_tex_cache_notify_write (u32 (ADDR_TEX64_FIRST + a)) 32 p = Err (if INVARIANTS then ERROR_INTEGRITY else C_UNDEFINED).
Proof.
  change PVR2_TEX_MEM_LEN with 0x800000. intros H0 H1 H2. unfold pvr2_tex_cache_notify_write, ADDR_TEX64_FIRST, ADDR_TEX64_LAST.
  assert (E32 : forall x, 0 <= x < 0x8000000 -> u32 x = x) by (intros; apply wrap_small; unfold in_range; lia).
  rewrite (E32 (0x4000000 + a)), (E32 (0x4000000 + a + (32 - 1))), (E32 (0x4000000 + a - 0x4000000)), (E32 (0x4000000 + a - 0x4000000 + (32 - 1))) by lia.
  replace (0x4000000 + a - 0x4000000) with a by lia. replace (0x4000000 + a + (32 - 1) >? 0x47fffff) with true by lia. rewrite orb_true_r.
  destruct INVARIANTS; [done|]. cbn [andb when]. rewrite (bind_ok (ret tt) _ p tt p eq_refl). unfold PVR2_TEX_PAGE_SIZE.
  set (n := a / 512). assert (Hn : 16383 <= n <= 16386 /\ 16384 <= (a + (32 - 1)) / 512 <= n + 1) by (unfold n; dlia).
  destruct (decide (n = 16383)) as [E|E].
  - replace (Z.to_nat ((a + (32 - 1)) / 512 - n + 1)) with 2%nat by lia. rewrite E. done.
  - assert (Hge : n <= (a + (32 - 1)) / 512) by (apply Z.div_le_mono; lia).
    replace (Z.to_nat ((a + (32 - 1)) / 512 - n + 1)) with (S (Z.to_nat ((a + (32 - 1)) / 512 - n))) by lia. cbn [stamp_pages].
    change PVR2_TEX_N_PAGES with 16384. by replace (n <? 16384) with false by lia; rewrite andb_false_r.
Qed.

(** A picture that reaches to the end of texture memory cannot be converted: the code reports to the
    texture cache not the row that it has stored but the one below it, so that the last row of a
    macroblock whose rows all lie in texture memory, with no room for one more, ends in an error of the
    builds that check for it and in a write behind the array of page stamps in the others. *)
Theorem yuv_end_of_memory_fails s :
  let y := yuv_of s in
  let base := dst_addr y + 1024 * (16 * cur_macroblock_y y) + 32 * cur_macroblock_x y in
  0 <= cur_macroblock_x y < macroblock_count_x y -> 0 <= cur_macroblock_y y < macroblock_count_y y ->
  0 <= dst_addr y -> dst_addr y mod 4 = 0 ->
  base + 1024 * 15 + 32 <= PVR2_TEX_MEM_LEN -> PVR2_TEX_MEM_LEN < base + 1024 * 16 + 32 ->
  pvr2_yuv_macroblock s = Err (if INVARIANTS then ERROR_INTEGRITY else C_UNDEFINED).
Proof.
  intros y base Hx Hy Hd Hal Hfit Hend. unfold pvr2_yuv_macroblock, yuv_get. erewrite (bind_ok (gets _)) by reflexivity. fold y.
  replace (cur_macroblock_x y >=? macroblock_count_x y) with false by lia. replace (cur_macroblock_y y >=? macroblock_count_y y) with false by lia.
  cbn [when]. rewrite !(bind_ok (ret tt) _ s tt s eq_refl). change (linestride * 16) with 16384. change PVR2_TEX_MEM_LEN with 0x800000 in *.
  set (offs := 4096 * cur_macroblock_y y + 8 * cur_macroblock_x y).
  assert (Hoff : u32 (16384 * cur_macroblock_y y + cur_macroblock_x y * 8 * 4) = offs * 4) by (rewrite wrap_small by (unfold in_range; lia); lia).
  rewrite Hoff, Z.div_mul by lia. set (ptr := dst_addr y / 4 + offs). assert (Hptr : 4 * ptr = base) by (unfold ptr, base, offs; dlia).
  rewrite (wrap_small 32 ptr), (wrap_small 32 (4 * ptr)) by (unfold in_range; lia).
  assert (Hrows : store_rows 16 (block_row y) 0 ptr (4 * ptr) (pvr_of s) = Err (if INVARIANTS then ERROR_INTEGRITY else C_UNDEFINED)).
  { change 16%nat with (15 + 1)%nat. rewrite store_rows_app by lia.
    destruct (store_rows_ok 15 (block_row y) 0 ptr (pvr_of s)) as (p' & E & _); [intros; apply length_block_row|lia|change PVR2_TEX_MEM_LEN with 0x800000; lia|].
    rewrite (bind_ok _ _ _ _ _ E). cbn [store_rows]. change PVR2_TEX_MEM_LEN with 0x800000. change (Z.of_nat 15) with 15.
    replace (4 * (ptr + 256 * 15) + 32 >? 0x800000) with false by lia. cbn [when]. rewrite (bind_ok (ret tt) _ p' tt p' eq_refl).
    erewrite (bind_ok (modify _)) by reflexivity. change linestride with 1024. rewrite (wrap_small 32 (_ + 1024)) by (unfold in_range; lia).
    erewrite (bind_ok (pvr2_framebuffer_notify_write _ _)) by reflexivity. unfold bind. rewrite notify_past_end; [done|..]; change PVR2_TEX_MEM_LEN with 0x800000; lia. }
  unfold bind at 1, on_pvr. by rewrite Hrows.
Qed.
End film.

(** *** Witnesses: a frame of one macroblock with one luminance that is not 0 *)
#[local] Existing Instances example.host example.host_laws dma_ram dma_dmac dma_pvr dma_yuv dma_holly dma_events dma_machine dma_ram_laws
  dma_event_laws dma_laws.
#[local] Instance film_yuv_laws : YuvLaws dma_board example.kept.
Proof. by split. Qed.
#[local] Instance film_laws : YuvDmaLaws dma_board example.kept.
Proof. by split. Qed.

Lemma yuv_idle_ok : bufs_ok yuv_idle.
Proof. split; [done..|]. apply (bool_decide_unpack _). by vm_compute. Qed.

Lemma ch2_yuv_picture_witness :
  let s := dma_cpu (<[0x209d := 0x77]> ∅) 0x8c002000 12 in
  exists s', (yuv_start 0 0x1000 ;; sh4_dmac_channel2 0x10800000 384) s = Ok (tt, s') /\
    byte (tex64 (pvr_of s')) (0x1000 + 1024 * 3 + 2 * 5 + 1) = 0x77 /\ stamp (events (evclk_of s')) 2 = 10 + 5273437.
Proof.
  intros s. assert (Hx : 0 <= 5 < 16 * conf_cx 0) by by vm_compute. assert (Hy : 0 <= 3 < 16 * conf_cy 0) by by vm_compute.
  destruct (ch2_yuv_picture 0 0x1000 0x10800000 s []) as (s' & l' & H & [Hp _] & _ & _ & _ & _ & Hst).
  - by split; vm_compute.
  - split; [done| |].
    + unfold dma_block, in_area3, in_range. vm_compute. intuition congruence.
    + exact (ram_typed_store 0x209d [0x77] ∅ zeros_typed ltac:(by repeat constructor)).
  - by vm_compute.
  - exact yuv_idle_ok.
  - done.
  - split; [|by vm_compute|by apply list.Forall_nil]. split_and!; [done|done|by apply list.NoDup_nil|constructor].
  - by vm_compute.
  - intros e [-> | ->]; (split; [by intros ?%elem_of_nil|by eexists]).
  - exists s'. split; [exact H|]. split; [|exact Hst].
    pose proof (Hp 5 3 1 Hx Hy (or_intror eq_refl)) as E. change (conf_dst 0x1000) with 0x1000 in E. rewrite E. by vm_compute.
Defined.

Lemma yuv_end_of_memory_fails_witness :
  let s := with_yuv {| dst_addr := 0x7fc000; yuv_fmt := PVR2_YUV_FMT_420; macroblock_offset := 0; cur_macroblock_x := 0; cur_macroblock_y := 0;
       macroblock_count_x := 1; macroblock_count_y := 1; u_buf := replicate 64 0; v_buf := replicate 64 0; y_buf := replicate 256 0;
       yuv_complete_event_scheduled := false |} (dma_cpu ∅ 0 0) in
  pvr2_yuv_macroblock s = Err (if INVARIANTS then ERROR_INTEGRITY else C_UNDEFINED).
Proof. intros s. apply (yuv_end_of_memory_fails s); by vm_compute. Defined.
