(* ===== verification/Mount.v ===== *)
(** The disc in the drive (src/libwashdc/mount.c, mount.h, cdrom.h): the mounted image behind its table
    of operations, and the table of contents as a drive sends it.

    An operation of the image is a function of its arguments: what the file of the image holds does not
    change while it is mounted.  A sector is the list of its bytes. *)
From S2P Require Import Prelude Memory RamBus.
Import memory.

Definition CDROM_FRAME_SIZE : Z := 2352.
Definition CDROM_FRAME_DATA_SIZE : Z := 2048.
Definition CDROM_TOC_SIZE : Z := (99 + 3) * 4.

Definition cdrom_lba_to_fad (lba : Z) : Z := u32 (lba + 150).
Definition cdrom_fad_to_lba (fad : Z) : Z := u32 (fad - 150).

Record mount_track : Type := { ctrl : Z; adr : Z; fad : Z; valid : bool }.
Record mount_toc : Type := {
  tracks : list mount_track;
  first_track : Z;
  last_track : Z;
  leadout : Z;
  leadout_adr : Z
}.
(** [memset(&toc, 0, sizeof(toc))] *)
Definition toc_zero : mount_toc :=
  {| tracks := replicate 99 {| ctrl := 0; adr := 0; fad := 0; valid := false |};
     first_track := 0; last_track := 0; leadout := 0; leadout_adr := 0 |}.

(** the pointers of [struct mount_ops]: [None] is a null pointer.  [read_toc] gives its return value with
    the table it leaves; [read_sector] gives the bytes it stores, or [None] for a non-zero return value *)
Record mount_ops : Type := {
  session_count : option Z;
  read_toc : option (mount_toc -> Z -> Z * mount_toc);
  read_sector : option (Z -> option (list Z));
  cleanup : bool
}.
(** the static variables [mounted] and [img] *)
Record mount : Type := {
  mounted : bool;
  img_ops : option mount_ops;
  img_state : option Z
}.

Definition mount_eject : M mount unit :=
  fun m => match img_ops m with
           | Some _ => Ok (tt, {| mounted := false; img_ops := None; img_state := None |})
           | None => Err C_UNDEFINED
           end.
Definition mount_insert (ops : mount_ops) (ptr : option Z) : M mount unit :=
  st <- gets img_state ;;
  when (bool_decide (is_Some st)) mount_eject ;;
  modify (fun _ => {| mounted := true; img_ops := Some ops; img_state := ptr |}).
Definition mount_check : M mount bool := gets mounted.
Definition img_op {A} (f : mount_ops -> A) : M mount A :=
  fun m => match img_ops m with Some o => Ok (f o, m) | None => Err C_UNDEFINED end.

Definition mount_session_count : M mount Z :=
  b <- mount_check ;;
  if b : bool then c <- img_op session_count ;; ret (default 0 c) else raise ERROR_INTEGRITY.
(** the return value and the table *)
Definition mount_read_toc (out : mount_toc) (session : Z) : M mount (Z * mount_toc) :=
  b <- mount_check ;;
  if b : bool then
    n <- mount_session_count ;;
    f <- img_op read_toc ;;
    match f with
    | Some f => ret (if session <? n then f out session else (-1, out))
    | None => ret (-1, out)
    end
  else raise ERROR_INTEGRITY.

(** the loop over the sectors *)
Fixpoint read_sectors (f : Z -> option (list Z)) (n : nat) (fad : Z) : option (list Z) :=
  match n with
  | O => Some []
  | S n' =>
      match f fad with
      | Some bs => match read_sectors f n' (u32 (fad + 1)) with Some bs' => Some (bs ++ bs') | None => None end
      | None => None
      end
  end.
(** [None] is the return value -1; a range of sectors that wraps is empty *)
Definition mount_read_sectors (fad_start sector_count : Z) : M mount (option (list Z)) :=
  b <- mount_check ;;
  if b : bool then
    f <- img_op read_sector ;;
    match f with
    | Some f => ret (if fad_start <? u32 (fad_start + sector_count) then read_sectors f (Z.to_nat sector_count) fad_start else Some [])
    | None => ret None
    end
  else ret None.

(** ** The table of contents *)
(** the address with its three bytes exchanged, in the upper bits of a word *)
Definition fad_be (fad : Z) : Z :=
  Z.lor (Z.lor (Z.shiftr (Z.land fad 0xff0000) 16) (Z.land fad 0x00ff00)) (Z.shiftl (Z.land fad 0x0000ff) 16).
Definition track_info (t : mount_track) : Z := Z.lor (Z.land (adr t) 0xf) (Z.land (u32 (Z.shiftl (ctrl t) 4)) 0xf0).
Definition encode_track (t : mount_track) : list Z :=
  if valid t then le_bytes 4 (Z.lor (track_info t) (u32 (Z.shiftl (fad_be (fad t)) 8))) else replicate 4 0xff.
(** [toc->tracks + (no - 1)], with [no - 1] unsigned; outside the array it is undefined *)
Definition track_ptr (toc : mount_toc) (no : Z) : option mount_track := tracks toc !! Z.to_nat (u32 (no - 1)).
Definition mount_encode_toc (toc : mount_toc) : res (list Z) :=
  if negb (length (tracks toc) =? 99)%nat then Err C_UNDEFINED
  else
    match track_ptr toc (first_track toc), track_ptr toc (last_track toc) with
    | Some first_trackp, Some last_trackp =>
        let first_track_bin := Z.lor (track_info first_trackp) (Z.land (u32 (Z.shiftl (first_track toc) 8)) 0xff00) in
        let last_track_bin := Z.lor (track_info last_trackp) (Z.land (u32 (Z.shiftl (last_track toc) 8)) 0xff00) in
        let leadout_bin := Z.lor (Z.lor (u32 (Z.shiftl (fad_be (leadout toc)) 8)) (leadout_adr toc))
                             (Z.land (u32 (Z.shiftl (ctrl last_trackp) 4)) 0xf0) in
        Ok (concat (map encode_track (tracks toc)) ++ le_bytes 4 first_track_bin ++ le_bytes 4 last_track_bin ++
            le_bytes 4 leadout_bin)
    | _, _ => Err C_UNDEFINED
    end.
