(* ===== verification/GdromResponse.v ===== *)
(** The recorded answers of the GD-ROM drive (src/libwashdc/hw/gdrom/gdrom_response.c, gdrom_response.h). *)
From S2P Require Import Prelude.

Definition GDROM_REQ_MODE_RESP_LEN : Z := 32.
Definition GDROM_PKT_71_RESP_LEN : Z := 960.
Definition GDROM_IDENT_RESP_LEN : Z := 80.

Definition gdrom_req_mode_resp : list Z := [
  0; 0; 0; 0; 0; 180; 25; 0; 0; 8; 83; 69; 32; 32; 32; 32; 32; 32; 82; 101; 118; 32; 54; 46; 52; 50; 57; 57; 48; 51;
  49; 54].

Definition pkt71_resp : list Z := [
  66; 7; 240; 71; 7; 27; 16; 237; 5; 188; 192; 0; 6; 8; 148; 120; 106; 10; 75; 0; 70; 14; 221; 196; 168; 56; 130;
  177; 252; 213; 94; 42; 183; 0; 154; 11; 236; 29; 190; 133; 92; 150; 244; 130; 0; 105; 10; 158; 52; 231; 61; 159;
  34; 131; 0; 9; 15; 63; 124; 38; 131; 40; 191; 109; 179; 35; 15; 7; 66; 0; 225; 7; 216; 254; 35; 252; 0; 0; 4; 103;
  0; 48; 3; 0; 202; 8; 85; 117; 224; 191; 146; 0; 237; 5; 54; 123; 0; 154; 12; 8; 177; 121; 136; 19; 206; 236; 150;
  0; 0; 205; 4; 104; 0; 166; 3; 0; 137; 14; 34; 210; 50; 76; 143; 151; 210; 125; 192; 65; 126; 0; 81; 14; 99; 192;
  208; 130; 18; 230; 147; 144; 194; 160; 163; 0; 21; 6; 195; 151; 92; 0; 241; 3; 0; 11; 3; 0; 85; 4; 195; 0; 136; 11;
  158; 65; 43; 75; 45; 90; 206; 43; 0; 103; 12; 184; 13; 196; 83; 99; 220; 101; 162; 166; 0; 97; 12; 150; 24; 214;
  235; 102; 169; 5; 41; 240; 0; 221; 11; 121; 157; 217; 158; 219; 53; 3; 20; 0; 203; 4; 224; 0; 81; 8; 95; 252; 20;
  106; 108; 0; 96; 16; 166; 222; 44; 143; 56; 109; 40; 214; 196; 138; 232; 203; 236; 0; 60; 17; 1; 230; 29; 128; 170;
  27; 34; 46; 14; 13; 245; 41; 81; 227; 0; 96; 7; 182; 77; 78; 60; 0; 34; 5; 90; 185; 0; 155; 8; 155; 112; 182; 189;
  41; 0; 26; 6; 254; 58; 190; 0; 10; 9; 246; 56; 177; 181; 29; 161; 0; 69; 14; 229; 192; 210; 98; 98; 225; 152; 112;
  1; 27; 17; 0; 74; 5; 190; 189; 0; 203; 12; 245; 160; 164; 76; 46; 234; 23; 158; 55; 0; 108; 14; 176; 191; 202; 31;
  233; 34; 197; 73; 183; 126; 111; 0; 79; 16; 236; 234; 146; 197; 92; 114; 106; 111; 93; 149; 172; 143; 203; 0; 129;
  15; 18; 186; 103; 137; 15; 178; 151; 191; 147; 89; 196; 186; 0; 123; 9; 76; 195; 221; 216; 216; 94; 0; 211; 17; 6;
  45; 255; 129; 143; 73; 59; 224; 147; 65; 236; 1; 93; 127; 0; 255; 12; 110; 222; 240; 137; 80; 146; 107; 202; 217;
  0; 143; 10; 16; 227; 192; 32; 105; 190; 91; 249; 95; 181; 129; 15; 137; 201; 150; 200; 139; 110; 108; 65; 160; 231;
  131; 192; 107; 156; 219; 67; 189; 52; 42; 64; 249; 107; 242; 201; 165; 221; 206; 88; 191; 167; 249; 203; 206; 247;
  109; 201; 229; 246; 144; 135; 28; 91; 224; 208; 234; 85; 46; 160; 25; 126; 43; 7; 246; 218; 22; 190; 251; 159; 91;
  194; 137; 118; 177; 25; 203; 40; 224; 155; 178; 134; 21; 29; 27; 172; 21; 242; 117; 24; 179; 231; 226; 47; 253;
  253; 30; 131; 26; 181; 44; 69; 233; 74; 68; 10; 114; 255; 64; 52; 187; 248; 224; 22; 237; 50; 156; 252; 10; 249;
  188; 147; 164; 70; 115; 22; 217; 63; 50; 167; 167; 204; 232; 172; 224; 186; 166; 255; 48; 233; 16; 25; 232; 124;
  92; 32; 67; 156; 188; 231; 36; 223; 81; 115; 14; 96; 93; 61; 106; 138; 100; 115; 207; 87; 36; 162; 16; 100; 186;
  205; 239; 0; 64; 35; 213; 221; 66; 49; 56; 19; 185; 156; 213; 168; 67; 52; 253; 145; 136; 62; 170; 66; 69; 99; 250;
  16; 217; 197; 167; 127; 222; 18; 100; 169; 46; 136; 10; 169; 48; 218; 99; 204; 181; 44; 224; 34; 46; 108; 93; 20;
  201; 75; 189; 59; 239; 221; 156; 151; 245; 77; 211; 153; 1; 94; 176; 237; 231; 169; 200; 33; 6; 145; 52; 116; 117;
  95; 133; 10; 116; 29; 116; 66; 208; 90; 172; 69; 17; 6; 249; 65; 161; 97; 225; 15; 212; 210; 152; 65; 183; 129;
  157; 36; 248; 64; 160; 135; 123; 99; 143; 170; 204; 150; 158; 180; 172; 114; 184; 242; 138; 222; 85; 166; 242; 71;
  132; 226; 153; 244; 212; 238; 228; 34; 123; 202; 81; 222; 164; 28; 174; 58; 141; 31; 124; 27; 236; 251; 111; 154;
  139; 242; 57; 164; 109; 201; 157; 123; 169; 46; 239; 194; 227; 95; 181; 85; 29; 173; 26; 131; 200; 177; 3; 30; 103;
  152; 165; 177; 57; 41; 170; 9; 57; 107; 5; 18; 11; 133; 109; 38; 173; 164; 196; 33; 84; 253; 55; 111; 184; 228;
  118; 59; 194; 70; 240; 130; 185; 206; 159; 91; 190; 24; 14; 131; 129; 75; 254; 194; 11; 184; 30; 174; 245; 54; 13;
  141; 239; 189; 46; 229; 223; 215; 18; 222; 107; 146; 251; 182; 234; 186; 20; 73; 122; 181; 8; 255; 175; 142; 20;
  199; 14; 122; 65; 211; 5; 159; 41; 228; 219; 94; 135; 3; 228; 229; 71; 117; 158; 89; 123; 130; 156; 112; 174; 68;
  170; 164; 109; 34; 49; 110; 100; 11; 226; 208; 94; 220; 243; 45; 151; 246; 244; 162; 59; 104; 30; 164; 155; 54; 11;
  100; 146; 141; 93; 166; 99; 3; 152; 113; 117; 41; 172; 252; 77; 229; 106; 229; 200; 124; 199; 163; 218; 104; 78;
  23; 240; 15; 19; 8; 225; 167; 12; 252; 173; 8; 194; 104; 190; 253; 102; 121; 20; 119; 102; 244; 28; 140; 84; 36;
  120; 15; 145; 147; 85; 100; 88; 150; 224; 85; 228; 251; 69; 155; 11; 252; 21; 53; 150; 89; 201; 222; 145; 164; 4;
  184; 18; 71; 19; 234; 191; 90; 47; 190; 36; 230; 98; 113; 241; 177; 243; 141].

Definition gdrom_ident_resp : list Z := [
  32; 32; 32; 0; 0; 0; 0; 0; 0; 0; 0; 0; 0; 0; 0; 0; 83; 69; 32; 32; 32; 32; 32; 32; 32; 32; 32; 32; 32; 32; 32; 32;
  67; 68; 45; 82; 79; 77; 32; 68; 82; 73; 86; 69; 32; 32; 32; 32; 54; 46; 52; 50; 32; 32; 32; 32; 32; 32; 32; 32; 32;
  32; 32; 32; 0; 0; 0; 0; 0; 0; 0; 0; 0; 0; 0; 0; 0; 0; 0; 0].
