(* ===== verification/Gdrom.v ===== *)
(** The GD-ROM drive (src/libwashdc/hw/gdrom/gdrom.c, gdrom.h, gdrom_response.c): the ATA and the packet
    commands, the state machine of the transfers, the DMA, the registers on the bus.

    The queue of buffers is the list of its nodes: the code only pushes, pops, peeks and tests for emptiness,
    for which [Fifo] shows that the pointers form that list.  A node's [dat] has the bytes that were stored
    in it, and reading past them is undefined; allocating nodes and freeing them is left out.  The array
    [regs] is a memory of 256 bytes. *)
From stdpp Require Import gmap.
From S2P Require Import Prelude IntMath MemoryMap Memory Sh4State Board Sh4Core Sh4Excp Sched Sh4Exec.
From S2P Require Import Sh4Irl Events Holly RamBus Dmac Mmio Mount GdromResponse.
Import memory_map memory sched.

(** ** State *)
Inductive gdrom_trans_mode : Type :=
| TRANS_MODE_PIO_DFLT | TRANS_MODE_PIO_FLOW_CTRL | TRANS_MODE_SINGLE_WORD_DMA | TRANS_MODE_MULTI_WORD_DMA | TRANS_MODE_PSEUDO_DMA.
Definition trans_mode_idx (m : gdrom_trans_mode) : nat :=
  match m with
  | TRANS_MODE_PIO_DFLT => 0 | TRANS_MODE_PIO_FLOW_CTRL => 1 | TRANS_MODE_SINGLE_WORD_DMA => 2
  | TRANS_MODE_MULTI_WORD_DMA => 3 | TRANS_MODE_PSEUDO_DMA => 4
  end%nat.
Definition TRANS_MODE_COUNT : nat := 5.

Inductive gdrom_state : Type :=
| GDROM_STATE_NORM | GDROM_STATE_INPUT_PKT | GDROM_STATE_SET_MODE | GDROM_STATE_PIO_READ_DELAY
| GDROM_STATE_PIO_READING | GDROM_STATE_DMA_READING.
#[export] Instance gdrom_state_eq_dec : EqDecision gdrom_state.
Proof. solve_decision. Defined.

Record gdrom_status : Type := { bsy : bool; drdy : bool; df : bool; dsc : bool; drq : bool; corr : bool; check : bool }.
Record gdrom_error : Type := { ili : bool; eomf : bool; abrt : bool; mcr : bool; sense_key : Z }.
Record gdrom_features : Type := { dma_enable : bool; set_feat_enable : bool }.
Record gdrom_sector_count : Type := { trans_mode : gdrom_trans_mode; mode_val : Z }.
Record gdrom_int_reason : Type := { cod : bool; io : bool }.
Record gdrom_dev_ctrl : Type := { nien : bool; srst : bool }.
Record gdrom_read_meta : Type := { byte_count : Z; bytes_read : Z }.
Record gdrom_bufq_node : Type := { nd_idx : Z; nd_len : Z; nd_dat : list Z }.

Record gdrom_ctxt : Type := {
  gd_regs : Memory;
  gdrom_int_scheduled : bool;
  stat_reg : gdrom_status;
  error_reg : gdrom_error;
  feat_reg : gdrom_features;
  sect_cnt_reg : gdrom_sector_count;
  int_reason_reg : gdrom_int_reason;
  dev_ctrl_reg : gdrom_dev_ctrl;
  data_byte_count : Z;
  gdapro_reg : Z;
  g1gdrc_reg : Z;
  dma_start_addr_reg : Z;
  dma_len_reg : Z;
  dma_dir_reg : Z;
  dma_en_reg : Z;
  dma_start_reg : Z;
  gdlend_reg : Z;
  drive_sel_reg : Z;
  additional_sense : Z;
  trans_mode_vals : list Z;
  gd_state : gdrom_state;
  meta_read : gdrom_read_meta;
  set_mode_bytes_remaining : Z;
  pkt_buf : list Z;
  n_bytes_received : Z;
  bufq : list gdrom_bufq_node
}.

Definition upd_bsy (v : bool) (x : gdrom_status) : gdrom_status :=
  {| bsy := v; drdy := drdy x; df := df x; dsc := dsc x; drq := drq x; corr := corr x; check := check x |}.
Definition upd_drdy (v : bool) (x : gdrom_status) : gdrom_status :=
  {| bsy := bsy x; drdy := v; df := df x; dsc := dsc x; drq := drq x; corr := corr x; check := check x |}.
Definition upd_df (v : bool) (x : gdrom_status) : gdrom_status :=
  {| bsy := bsy x; drdy := drdy x; df := v; dsc := dsc x; drq := drq x; corr := corr x; check := check x |}.
Definition upd_dsc (v : bool) (x : gdrom_status) : gdrom_status :=
  {| bsy := bsy x; drdy := drdy x; df := df x; dsc := v; drq := drq x; corr := corr x; check := check x |}.
Definition upd_drq (v : bool) (x : gdrom_status) : gdrom_status :=
  {| bsy := bsy x; drdy := drdy x; df := df x; dsc := dsc x; drq := v; corr := corr x; check := check x |}.
Definition upd_corr (v : bool) (x : gdrom_status) : gdrom_status :=
  {| bsy := bsy x; drdy := drdy x; df := df x; dsc := dsc x; drq := drq x; corr := v; check := check x |}.
Definition upd_check (v : bool) (x : gdrom_status) : gdrom_status :=
  {| bsy := bsy x; drdy := drdy x; df := df x; dsc := dsc x; drq := drq x; corr := corr x; check := v |}.

Definition upd_gd_regs (v : Memory) (g : gdrom_ctxt) : gdrom_ctxt :=
  {| gd_regs := v; gdrom_int_scheduled := gdrom_int_scheduled g; stat_reg := stat_reg g; error_reg := error_reg g; feat_reg := feat_reg g;
     sect_cnt_reg := sect_cnt_reg g; int_reason_reg := int_reason_reg g; dev_ctrl_reg := dev_ctrl_reg g; data_byte_count := data_byte_count g;
     gdapro_reg := gdapro_reg g; g1gdrc_reg := g1gdrc_reg g; dma_start_addr_reg := dma_start_addr_reg g; dma_len_reg := dma_len_reg g;
     dma_dir_reg := dma_dir_reg g; dma_en_reg := dma_en_reg g; dma_start_reg := dma_start_reg g; gdlend_reg := gdlend_reg g;
     drive_sel_reg := drive_sel_reg g; additional_sense := additional_sense g; trans_mode_vals := trans_mode_vals g; gd_state := gd_state g;
     meta_read := meta_read g; set_mode_bytes_remaining := set_mode_bytes_remaining g; pkt_buf := pkt_buf g; n_bytes_received := n_bytes_received g;
     bufq := bufq g |}.
Definition upd_gdrom_int_scheduled (v : bool) (g : gdrom_ctxt) : gdrom_ctxt :=
  {| gd_regs := gd_regs g; gdrom_int_scheduled := v; stat_reg := stat_reg g; error_reg := error_reg g; feat_reg := feat_reg g;
     sect_cnt_reg := sect_cnt_reg g; int_reason_reg := int_reason_reg g; dev_ctrl_reg := dev_ctrl_reg g; data_byte_count := data_byte_count g;
     gdapro_reg := gdapro_reg g; g1gdrc_reg := g1gdrc_reg g; dma_start_addr_reg := dma_start_addr_reg g; dma_len_reg := dma_len_reg g;
     dma_dir_reg := dma_dir_reg g; dma_en_reg := dma_en_reg g; dma_start_reg := dma_start_reg g; gdlend_reg := gdlend_reg g;
     drive_sel_reg := drive_sel_reg g; additional_sense := additional_sense g; trans_mode_vals := trans_mode_vals g; gd_state := gd_state g;
     meta_read := meta_read g; set_mode_bytes_remaining := set_mode_bytes_remaining g; pkt_buf := pkt_buf g; n_bytes_received := n_bytes_received g;
     bufq := bufq g |}.
Definition upd_stat_reg (v : gdrom_status) (g : gdrom_ctxt) : gdrom_ctxt :=
  {| gd_regs := gd_regs g; gdrom_int_scheduled := gdrom_int_scheduled g; stat_reg := v; error_reg := error_reg g; feat_reg := feat_reg g;
     sect_cnt_reg := sect_cnt_reg g; int_reason_reg := int_reason_reg g; dev_ctrl_reg := dev_ctrl_reg g; data_byte_count := data_byte_count g;
     gdapro_reg := gdapro_reg g; g1gdrc_reg := g1gdrc_reg g; dma_start_addr_reg := dma_start_addr_reg g; dma_len_reg := dma_len_reg g;
     dma_dir_reg := dma_dir_reg g; dma_en_reg := dma_en_reg g; dma_start_reg := dma_start_reg g; gdlend_reg := gdlend_reg g;
     drive_sel_reg := drive_sel_reg g; additional_sense := additional_sense g; trans_mode_vals := trans_mode_vals g; gd_state := gd_state g;
     meta_read := meta_read g; set_mode_bytes_remaining := set_mode_bytes_remaining g; pkt_buf := pkt_buf g; n_bytes_received := n_bytes_received g;
     bufq := bufq g |}.
Definition upd_error_reg (v : gdrom_error) (g : gdrom_ctxt) : gdrom_ctxt :=
  {| gd_regs := gd_regs g; gdrom_int_scheduled := gdrom_int_scheduled g; stat_reg := stat_reg g; error_reg := v; feat_reg := feat_reg g;
     sect_cnt_reg := sect_cnt_reg g; int_reason_reg := int_reason_reg g; dev_ctrl_reg := dev_ctrl_reg g; data_byte_count := data_byte_count g;
     gdapro_reg := gdapro_reg g; g1gdrc_reg := g1gdrc_reg g; dma_start_addr_reg := dma_start_addr_reg g; dma_len_reg := dma_len_reg g;
     dma_dir_reg := dma_dir_reg g; dma_en_reg := dma_en_reg g; dma_start_reg := dma_start_reg g; gdlend_reg := gdlend_reg g;
     drive_sel_reg := drive_sel_reg g; additional_sense := additional_sense g; trans_mode_vals := trans_mode_vals g; gd_state := gd_state g;
     meta_read := meta_read g; set_mode_bytes_remaining := set_mode_bytes_remaining g; pkt_buf := pkt_buf g; n_bytes_received := n_bytes_received g;
     bufq := bufq g |}.
Definition upd_feat_reg (v : gdrom_features) (g : gdrom_ctxt) : gdrom_ctxt :=
  {| gd_regs := gd_regs g; gdrom_int_scheduled := gdrom_int_scheduled g; stat_reg := stat_reg g; error_reg := error_reg g; feat_reg := v;
     sect_cnt_reg := sect_cnt_reg g; int_reason_reg := int_reason_reg g; dev_ctrl_reg := dev_ctrl_reg g; data_byte_count := data_byte_count g;
     gdapro_reg := gdapro_reg g; g1gdrc_reg := g1gdrc_reg g; dma_start_addr_reg := dma_start_addr_reg g; dma_len_reg := dma_len_reg g;
     dma_dir_reg := dma_dir_reg g; dma_en_reg := dma_en_reg g; dma_start_reg := dma_start_reg g; gdlend_reg := gdlend_reg g;
     drive_sel_reg := drive_sel_reg g; additional_sense := additional_sense g; trans_mode_vals := trans_mode_vals g; gd_state := gd_state g;
     meta_read := meta_read g; set_mode_bytes_remaining := set_mode_bytes_remaining g; pkt_buf := pkt_buf g; n_bytes_received := n_bytes_received g;
     bufq := bufq g |}.
Definition upd_sect_cnt_reg (v : gdrom_sector_count) (g : gdrom_ctxt) : gdrom_ctxt :=
  {| gd_regs := gd_regs g; gdrom_int_scheduled := gdrom_int_scheduled g; stat_reg := stat_reg g; error_reg := error_reg g; feat_reg := feat_reg g;
     sect_cnt_reg := v; int_reason_reg := int_reason_reg g; dev_ctrl_reg := dev_ctrl_reg g; data_byte_count := data_byte_count g;
     gdapro_reg := gdapro_reg g; g1gdrc_reg := g1gdrc_reg g; dma_start_addr_reg := dma_start_addr_reg g; dma_len_reg := dma_len_reg g;
     dma_dir_reg := dma_dir_reg g; dma_en_reg := dma_en_reg g; dma_start_reg := dma_start_reg g; gdlend_reg := gdlend_reg g;
     drive_sel_reg := drive_sel_reg g; additional_sense := additional_sense g; trans_mode_vals := trans_mode_vals g; gd_state := gd_state g;
     meta_read := meta_read g; set_mode_bytes_remaining := set_mode_bytes_remaining g; pkt_buf := pkt_buf g; n_bytes_received := n_bytes_received g;
     bufq := bufq g |}.
Definition upd_int_reason_reg (v : gdrom_int_reason) (g : gdrom_ctxt) : gdrom_ctxt :=
  {| gd_regs := gd_regs g; gdrom_int_scheduled := gdrom_int_scheduled g; stat_reg := stat_reg g; error_reg := error_reg g; feat_reg := feat_reg g;
     sect_cnt_reg := sect_cnt_reg g; int_reason_reg := v; dev_ctrl_reg := dev_ctrl_reg g; data_byte_count := data_byte_count g; gdapro_reg := gdapro_reg g;
     g1gdrc_reg := g1gdrc_reg g; dma_start_addr_reg := dma_start_addr_reg g; dma_len_reg := dma_len_reg g; dma_dir_reg := dma_dir_reg g;
     dma_en_reg := dma_en_reg g; dma_start_reg := dma_start_reg g; gdlend_reg := gdlend_reg g; drive_sel_reg := drive_sel_reg g;
     additional_sense := additional_sense g; trans_mode_vals := trans_mode_vals g; gd_state := gd_state g; meta_read := meta_read g;
     set_mode_bytes_remaining := set_mode_bytes_remaining g; pkt_buf := pkt_buf g; n_bytes_received := n_bytes_received g; bufq := bufq g |}.
Definition upd_dev_ctrl_reg (v : gdrom_dev_ctrl) (g : gdrom_ctxt) : gdrom_ctxt :=
  {| gd_regs := gd_regs g; gdrom_int_scheduled := gdrom_int_scheduled g; stat_reg := stat_reg g; error_reg := error_reg g; feat_reg := feat_reg g;
     sect_cnt_reg := sect_cnt_reg g; int_reason_reg := int_reason_reg g; dev_ctrl_reg := v; data_byte_count := data_byte_count g;
     gdapro_reg := gdapro_reg g; g1gdrc_reg := g1gdrc_reg g; dma_start_addr_reg := dma_start_addr_reg g; dma_len_reg := dma_len_reg g;
     dma_dir_reg := dma_dir_reg g; dma_en_reg := dma_en_reg g; dma_start_reg := dma_start_reg g; gdlend_reg := gdlend_reg g;
     drive_sel_reg := drive_sel_reg g; additional_sense := additional_sense g; trans_mode_vals := trans_mode_vals g; gd_state := gd_state g;
     meta_read := meta_read g; set_mode_bytes_remaining := set_mode_bytes_remaining g; pkt_buf := pkt_buf g; n_bytes_received := n_bytes_received g;
     bufq := bufq g |}.
Definition upd_data_byte_count (v : Z) (g : gdrom_ctxt) : gdrom_ctxt :=
  {| gd_regs := gd_regs g; gdrom_int_scheduled := gdrom_int_scheduled g; stat_reg := stat_reg g; error_reg := error_reg g; feat_reg := feat_reg g;
     sect_cnt_reg := sect_cnt_reg g; int_reason_reg := int_reason_reg g; dev_ctrl_reg := dev_ctrl_reg g; data_byte_count := v; gdapro_reg := gdapro_reg g;
     g1gdrc_reg := g1gdrc_reg g; dma_start_addr_reg := dma_start_addr_reg g; dma_len_reg := dma_len_reg g; dma_dir_reg := dma_dir_reg g;
     dma_en_reg := dma_en_reg g; dma_start_reg := dma_start_reg g; gdlend_reg := gdlend_reg g; drive_sel_reg := drive_sel_reg g;
     additional_sense := additional_sense g; trans_mode_vals := trans_mode_vals g; gd_state := gd_state g; meta_read := meta_read g;
     set_mode_bytes_remaining := set_mode_bytes_remaining g; pkt_buf := pkt_buf g; n_bytes_received := n_bytes_received g; bufq := bufq g |}.
Definition upd_gdapro_reg (v : Z) (g : gdrom_ctxt) : gdrom_ctxt :=
  {| gd_regs := gd_regs g; gdrom_int_scheduled := gdrom_int_scheduled g; stat_reg := stat_reg g; error_reg := error_reg g; feat_reg := feat_reg g;
     sect_cnt_reg := sect_cnt_reg g; int_reason_reg := int_reason_reg g; dev_ctrl_reg := dev_ctrl_reg g; data_byte_count := data_byte_count g;
     gdapro_reg := v; g1gdrc_reg := g1gdrc_reg g; dma_start_addr_reg := dma_start_addr_reg g; dma_len_reg := dma_len_reg g; dma_dir_reg := dma_dir_reg g;
     dma_en_reg := dma_en_reg g; dma_start_reg := dma_start_reg g; gdlend_reg := gdlend_reg g; drive_sel_reg := drive_sel_reg g;
     additional_sense := additional_sense g; trans_mode_vals := trans_mode_vals g; gd_state := gd_state g; meta_read := meta_read g;
     set_mode_bytes_remaining := set_mode_bytes_remaining g; pkt_buf := pkt_buf g; n_bytes_received := n_bytes_received g; bufq := bufq g |}.
Definition upd_g1gdrc_reg (v : Z) (g : gdrom_ctxt) : gdrom_ctxt :=
  {| gd_regs := gd_regs g; gdrom_int_scheduled := gdrom_int_scheduled g; stat_reg := stat_reg g; error_reg := error_reg g; feat_reg := feat_reg g;
     sect_cnt_reg := sect_cnt_reg g; int_reason_reg := int_reason_reg g; dev_ctrl_reg := dev_ctrl_reg g; data_byte_count := data_byte_count g;
     gdapro_reg := gdapro_reg g; g1gdrc_reg := v; dma_start_addr_reg := dma_start_addr_reg g; dma_len_reg := dma_len_reg g; dma_dir_reg := dma_dir_reg g;
     dma_en_reg := dma_en_reg g; dma_start_reg := dma_start_reg g; gdlend_reg := gdlend_reg g; drive_sel_reg := drive_sel_reg g;
     additional_sense := additional_sense g; trans_mode_vals := trans_mode_vals g; gd_state := gd_state g; meta_read := meta_read g;
     set_mode_bytes_remaining := set_mode_bytes_remaining g; pkt_buf := pkt_buf g; n_bytes_received := n_bytes_received g; bufq := bufq g |}.
Definition upd_dma_start_addr_reg (v : Z) (g : gdrom_ctxt) : gdrom_ctxt :=
  {| gd_regs := gd_regs g; gdrom_int_scheduled := gdrom_int_scheduled g; stat_reg := stat_reg g; error_reg := error_reg g; feat_reg := feat_reg g;
     sect_cnt_reg := sect_cnt_reg g; int_reason_reg := int_reason_reg g; dev_ctrl_reg := dev_ctrl_reg g; data_byte_count := data_byte_count g;
     gdapro_reg := gdapro_reg g; g1gdrc_reg := g1gdrc_reg g; dma_start_addr_reg := v; dma_len_reg := dma_len_reg g; dma_dir_reg := dma_dir_reg g;
     dma_en_reg := dma_en_reg g; dma_start_reg := dma_start_reg g; gdlend_reg := gdlend_reg g; drive_sel_reg := drive_sel_reg g;
     additional_sense := additional_sense g; trans_mode_vals := trans_mode_vals g; gd_state := gd_state g; meta_read := meta_read g;
     set_mode_bytes_remaining := set_mode_bytes_remaining g; pkt_buf := pkt_buf g; n_bytes_received := n_bytes_received g; bufq := bufq g |}.
Definition upd_dma_len_reg (v : Z) (g : gdrom_ctxt) : gdrom_ctxt :=
  {| gd_regs := gd_regs g; gdrom_int_scheduled := gdrom_int_scheduled g; stat_reg := stat_reg g; error_reg := error_reg g; feat_reg := feat_reg g;
     sect_cnt_reg := sect_cnt_reg g; int_reason_reg := int_reason_reg g; dev_ctrl_reg := dev_ctrl_reg g; data_byte_count := data_byte_count g;
     gdapro_reg := gdapro_reg g; g1gdrc_reg := g1gdrc_reg g; dma_start_addr_reg := dma_start_addr_reg g; dma_len_reg := v; dma_dir_reg := dma_dir_reg g;
     dma_en_reg := dma_en_reg g; dma_start_reg := dma_start_reg g; gdlend_reg := gdlend_reg g; drive_sel_reg := drive_sel_reg g;
     additional_sense := additional_sense g; trans_mode_vals := trans_mode_vals g; gd_state := gd_state g; meta_read := meta_read g;
     set_mode_bytes_remaining := set_mode_bytes_remaining g; pkt_buf := pkt_buf g; n_bytes_received := n_bytes_received g; bufq := bufq g |}.
Definition upd_dma_dir_reg (v : Z) (g : gdrom_ctxt) : gdrom_ctxt :=
  {| gd_regs := gd_regs g; gdrom_int_scheduled := gdrom_int_scheduled g; stat_reg := stat_reg g; error_reg := error_reg g; feat_reg := feat_reg g;
     sect_cnt_reg := sect_cnt_reg g; int_reason_reg := int_reason_reg g; dev_ctrl_reg := dev_ctrl_reg g; data_byte_count := data_byte_count g;
     gdapro_reg := gdapro_reg g; g1gdrc_reg := g1gdrc_reg g; dma_start_addr_reg := dma_start_addr_reg g; dma_len_reg := dma_len_reg g; dma_dir_reg := v;
     dma_en_reg := dma_en_reg g; dma_start_reg := dma_start_reg g; gdlend_reg := gdlend_reg g; drive_sel_reg := drive_sel_reg g;
     additional_sense := additional_sense g; trans_mode_vals := trans_mode_vals g; gd_state := gd_state g; meta_read := meta_read g;
     set_mode_bytes_remaining := set_mode_bytes_remaining g; pkt_buf := pkt_buf g; n_bytes_received := n_bytes_received g; bufq := bufq g |}.
Definition upd_dma_en_reg (v : Z) (g : gdrom_ctxt) : gdrom_ctxt :=
  {| gd_regs := gd_regs g; gdrom_int_scheduled := gdrom_int_scheduled g; stat_reg := stat_reg g; error_reg := error_reg g; feat_reg := feat_reg g;
     sect_cnt_reg := sect_cnt_reg g; int_reason_reg := int_reason_reg g; dev_ctrl_reg := dev_ctrl_reg g; data_byte_count := data_byte_count g;
     gdapro_reg := gdapro_reg g; g1gdrc_reg := g1gdrc_reg g; dma_start_addr_reg := dma_start_addr_reg g; dma_len_reg := dma_len_reg g;
     dma_dir_reg := dma_dir_reg g; dma_en_reg := v; dma_start_reg := dma_start_reg g; gdlend_reg := gdlend_reg g; drive_sel_reg := drive_sel_reg g;
     additional_sense := additional_sense g; trans_mode_vals := trans_mode_vals g; gd_state := gd_state g; meta_read := meta_read g;
     set_mode_bytes_remaining := set_mode_bytes_remaining g; pkt_buf := pkt_buf g; n_bytes_received := n_bytes_received g; bufq := bufq g |}.
Definition upd_dma_start_reg (v : Z) (g : gdrom_ctxt) : gdrom_ctxt :=
  {| gd_regs := gd_regs g; gdrom_int_scheduled := gdrom_int_scheduled g; stat_reg := stat_reg g; error_reg := error_reg g; feat_reg := feat_reg g;
     sect_cnt_reg := sect_cnt_reg g; int_reason_reg := int_reason_reg g; dev_ctrl_reg := dev_ctrl_reg g; data_byte_count := data_byte_count g;
     gdapro_reg := gdapro_reg g; g1gdrc_reg := g1gdrc_reg g; dma_start_addr_reg := dma_start_addr_reg g; dma_len_reg := dma_len_reg g;
     dma_dir_reg := dma_dir_reg g; dma_en_reg := dma_en_reg g; dma_start_reg := v; gdlend_reg := gdlend_reg g; drive_sel_reg := drive_sel_reg g;
     additional_sense := additional_sense g; trans_mode_vals := trans_mode_vals g; gd_state := gd_state g; meta_read := meta_read g;
     set_mode_bytes_remaining := set_mode_bytes_remaining g; pkt_buf := pkt_buf g; n_bytes_received := n_bytes_received g; bufq := bufq g |}.
Definition upd_gdlend_reg (v : Z) (g : gdrom_ctxt) : gdrom_ctxt :=
  {| gd_regs := gd_regs g; gdrom_int_scheduled := gdrom_int_scheduled g; stat_reg := stat_reg g; error_reg := error_reg g; feat_reg := feat_reg g;
     sect_cnt_reg := sect_cnt_reg g; int_reason_reg := int_reason_reg g; dev_ctrl_reg := dev_ctrl_reg g; data_byte_count := data_byte_count g;
     gdapro_reg := gdapro_reg g; g1gdrc_reg := g1gdrc_reg g; dma_start_addr_reg := dma_start_addr_reg g; dma_len_reg := dma_len_reg g;
     dma_dir_reg := dma_dir_reg g; dma_en_reg := dma_en_reg g; dma_start_reg := dma_start_reg g; gdlend_reg := v; drive_sel_reg := drive_sel_reg g;
     additional_sense := additional_sense g; trans_mode_vals := trans_mode_vals g; gd_state := gd_state g; meta_read := meta_read g;
     set_mode_bytes_remaining := set_mode_bytes_remaining g; pkt_buf := pkt_buf g; n_bytes_received := n_bytes_received g; bufq := bufq g |}.
Definition upd_drive_sel_reg (v : Z) (g : gdrom_ctxt) : gdrom_ctxt :=
  {| gd_regs := gd_regs g; gdrom_int_scheduled := gdrom_int_scheduled g; stat_reg := stat_reg g; error_reg := error_reg g; feat_reg := feat_reg g;
     sect_cnt_reg := sect_cnt_reg g; int_reason_reg := int_reason_reg g; dev_ctrl_reg := dev_ctrl_reg g; data_byte_count := data_byte_count g;
     gdapro_reg := gdapro_reg g; g1gdrc_reg := g1gdrc_reg g; dma_start_addr_reg := dma_start_addr_reg g; dma_len_reg := dma_len_reg g;
     dma_dir_reg := dma_dir_reg g; dma_en_reg := dma_en_reg g; dma_start_reg := dma_start_reg g; gdlend_reg := gdlend_reg g; drive_sel_reg := v;
     additional_sense := additional_sense g; trans_mode_vals := trans_mode_vals g; gd_state := gd_state g; meta_read := meta_read g;
     set_mode_bytes_remaining := set_mode_bytes_remaining g; pkt_buf := pkt_buf g; n_bytes_received := n_bytes_received g; bufq := bufq g |}.
Definition upd_additional_sense (v : Z) (g : gdrom_ctxt) : gdrom_ctxt :=
  {| gd_regs := gd_regs g; gdrom_int_scheduled := gdrom_int_scheduled g; stat_reg := stat_reg g; error_reg := error_reg g; feat_reg := feat_reg g;
     sect_cnt_reg := sect_cnt_reg g; int_reason_reg := int_reason_reg g; dev_ctrl_reg := dev_ctrl_reg g; data_byte_count := data_byte_count g;
     gdapro_reg := gdapro_reg g; g1gdrc_reg := g1gdrc_reg g; dma_start_addr_reg := dma_start_addr_reg g; dma_len_reg := dma_len_reg g;
     dma_dir_reg := dma_dir_reg g; dma_en_reg := dma_en_reg g; dma_start_reg := dma_start_reg g; gdlend_reg := gdlend_reg g;
     drive_sel_reg := drive_sel_reg g; additional_sense := v; trans_mode_vals := trans_mode_vals g; gd_state := gd_state g; meta_read := meta_read g;
     set_mode_bytes_remaining := set_mode_bytes_remaining g; pkt_buf := pkt_buf g; n_bytes_received := n_bytes_received g; bufq := bufq g |}.
Definition upd_trans_mode_vals (v : list Z) (g : gdrom_ctxt) : gdrom_ctxt :=
  {| gd_regs := gd_regs g; gdrom_int_scheduled := gdrom_int_scheduled g; stat_reg := stat_reg g; error_reg := error_reg g; feat_reg := feat_reg g;
     sect_cnt_reg := sect_cnt_reg g; int_reason_reg := int_reason_reg g; dev_ctrl_reg := dev_ctrl_reg g; data_byte_count := data_byte_count g;
     gdapro_reg := gdapro_reg g; g1gdrc_reg := g1gdrc_reg g; dma_start_addr_reg := dma_start_addr_reg g; dma_len_reg := dma_len_reg g;
     dma_dir_reg := dma_dir_reg g; dma_en_reg := dma_en_reg g; dma_start_reg := dma_start_reg g; gdlend_reg := gdlend_reg g;
     drive_sel_reg := drive_sel_reg g; additional_sense := additional_sense g; trans_mode_vals := v; gd_state := gd_state g; meta_read := meta_read g;
     set_mode_bytes_remaining := set_mode_bytes_remaining g; pkt_buf := pkt_buf g; n_bytes_received := n_bytes_received g; bufq := bufq g |}.
Definition upd_gd_state (v : gdrom_state) (g : gdrom_ctxt) : gdrom_ctxt :=
  {| gd_regs := gd_regs g; gdrom_int_scheduled := gdrom_int_scheduled g; stat_reg := stat_reg g; error_reg := error_reg g; feat_reg := feat_reg g;
     sect_cnt_reg := sect_cnt_reg g; int_reason_reg := int_reason_reg g; dev_ctrl_reg := dev_ctrl_reg g; data_byte_count := data_byte_count g;
     gdapro_reg := gdapro_reg g; g1gdrc_reg := g1gdrc_reg g; dma_start_addr_reg := dma_start_addr_reg g; dma_len_reg := dma_len_reg g;
     dma_dir_reg := dma_dir_reg g; dma_en_reg := dma_en_reg g; dma_start_reg := dma_start_reg g; gdlend_reg := gdlend_reg g;
     drive_sel_reg := drive_sel_reg g; additional_sense := additional_sense g; trans_mode_vals := trans_mode_vals g; gd_state := v;
     meta_read := meta_read g; set_mode_bytes_remaining := set_mode_bytes_remaining g; pkt_buf := pkt_buf g; n_bytes_received := n_bytes_received g;
     bufq := bufq g |}.
Definition upd_meta_read (v : gdrom_read_meta) (g : gdrom_ctxt) : gdrom_ctxt :=
  {| gd_regs := gd_regs g; gdrom_int_scheduled := gdrom_int_scheduled g; stat_reg := stat_reg g; error_reg := error_reg g; feat_reg := feat_reg g;
     sect_cnt_reg := sect_cnt_reg g; int_reason_reg := int_reason_reg g; dev_ctrl_reg := dev_ctrl_reg g; data_byte_count := data_byte_count g;
     gdapro_reg := gdapro_reg g; g1gdrc_reg := g1gdrc_reg g; dma_start_addr_reg := dma_start_addr_reg g; dma_len_reg := dma_len_reg g;
     dma_dir_reg := dma_dir_reg g; dma_en_reg := dma_en_reg g; dma_start_reg := dma_start_reg g; gdlend_reg := gdlend_reg g;
     drive_sel_reg := drive_sel_reg g; additional_sense := additional_sense g; trans_mode_vals := trans_mode_vals g; gd_state := gd_state g; meta_read := v;
     set_mode_bytes_remaining := set_mode_bytes_remaining g; pkt_buf := pkt_buf g; n_bytes_received := n_bytes_received g; bufq := bufq g |}.
Definition upd_set_mode_bytes_remaining (v : Z) (g : gdrom_ctxt) : gdrom_ctxt :=
  {| gd_regs := gd_regs g; gdrom_int_scheduled := gdrom_int_scheduled g; stat_reg := stat_reg g; error_reg := error_reg g; feat_reg := feat_reg g;
     sect_cnt_reg := sect_cnt_reg g; int_reason_reg := int_reason_reg g; dev_ctrl_reg := dev_ctrl_reg g; data_byte_count := data_byte_count g;
     gdapro_reg := gdapro_reg g; g1gdrc_reg := g1gdrc_reg g; dma_start_addr_reg := dma_start_addr_reg g; dma_len_reg := dma_len_reg g;
     dma_dir_reg := dma_dir_reg g; dma_en_reg := dma_en_reg g; dma_start_reg := dma_start_reg g; gdlend_reg := gdlend_reg g;
     drive_sel_reg := drive_sel_reg g; additional_sense := additional_sense g; trans_mode_vals := trans_mode_vals g; gd_state := gd_state g;
     meta_read := meta_read g; set_mode_bytes_remaining := v; pkt_buf := pkt_buf g; n_bytes_received := n_bytes_received g; bufq := bufq g |}.
Definition upd_pkt_buf (v : list Z) (g : gdrom_ctxt) : gdrom_ctxt :=
  {| gd_regs := gd_regs g; gdrom_int_scheduled := gdrom_int_scheduled g; stat_reg := stat_reg g; error_reg := error_reg g; feat_reg := feat_reg g;
     sect_cnt_reg := sect_cnt_reg g; int_reason_reg := int_reason_reg g; dev_ctrl_reg := dev_ctrl_reg g; data_byte_count := data_byte_count g;
     gdapro_reg := gdapro_reg g; g1gdrc_reg := g1gdrc_reg g; dma_start_addr_reg := dma_start_addr_reg g; dma_len_reg := dma_len_reg g;
     dma_dir_reg := dma_dir_reg g; dma_en_reg := dma_en_reg g; dma_start_reg := dma_start_reg g; gdlend_reg := gdlend_reg g;
     drive_sel_reg := drive_sel_reg g; additional_sense := additional_sense g; trans_mode_vals := trans_mode_vals g; gd_state := gd_state g;
     meta_read := meta_read g; set_mode_bytes_remaining := set_mode_bytes_remaining g; pkt_buf := v; n_bytes_received := n_bytes_received g; bufq := bufq g |}.
Definition upd_n_bytes_received (v : Z) (g : gdrom_ctxt) : gdrom_ctxt :=
  {| gd_regs := gd_regs g; gdrom_int_scheduled := gdrom_int_scheduled g; stat_reg := stat_reg g; error_reg := error_reg g; feat_reg := feat_reg g;
     sect_cnt_reg := sect_cnt_reg g; int_reason_reg := int_reason_reg g; dev_ctrl_reg := dev_ctrl_reg g; data_byte_count := data_byte_count g;
     gdapro_reg := gdapro_reg g; g1gdrc_reg := g1gdrc_reg g; dma_start_addr_reg := dma_start_addr_reg g; dma_len_reg := dma_len_reg g;
     dma_dir_reg := dma_dir_reg g; dma_en_reg := dma_en_reg g; dma_start_reg := dma_start_reg g; gdlend_reg := gdlend_reg g;
     drive_sel_reg := drive_sel_reg g; additional_sense := additional_sense g; trans_mode_vals := trans_mode_vals g; gd_state := gd_state g;
     meta_read := meta_read g; set_mode_bytes_remaining := set_mode_bytes_remaining g; pkt_buf := pkt_buf g; n_bytes_received := v; bufq := bufq g |}.
Definition upd_bufq (v : list gdrom_bufq_node) (g : gdrom_ctxt) : gdrom_ctxt :=
  {| gd_regs := gd_regs g; gdrom_int_scheduled := gdrom_int_scheduled g; stat_reg := stat_reg g; error_reg := error_reg g; feat_reg := feat_reg g;
     sect_cnt_reg := sect_cnt_reg g; int_reason_reg := int_reason_reg g; dev_ctrl_reg := dev_ctrl_reg g; data_byte_count := data_byte_count g;
     gdapro_reg := gdapro_reg g; g1gdrc_reg := g1gdrc_reg g; dma_start_addr_reg := dma_start_addr_reg g; dma_len_reg := dma_len_reg g;
     dma_dir_reg := dma_dir_reg g; dma_en_reg := dma_en_reg g; dma_start_reg := dma_start_reg g; gdlend_reg := gdlend_reg g;
     drive_sel_reg := drive_sel_reg g; additional_sense := additional_sense g; trans_mode_vals := trans_mode_vals g; gd_state := gd_state g;
     meta_read := meta_read g; set_mode_bytes_remaining := set_mode_bytes_remaining g; pkt_buf := pkt_buf g; n_bytes_received := n_bytes_received g;
     bufq := v |}.

Definition GDROM_GDAPRO_DEFAULT : Z := 0x00007f00.
Definition GDROM_G1GDRC_DEFAULT : Z := 0x0000ffff.
Definition GDROM_GDSTAR_DEFAULT : Z := 0.
Definition GDROM_GDLEN_DEFAULT : Z := 0.
Definition GDROM_GDDIR_DEFAULT : Z := 0.
Definition GDROM_GDEN_DEFAULT : Z := 0.
Definition GDROM_GDST_DEFAULT : Z := 0.
Definition GDROM_GDLEND_DEFAULT : Z := 0.
Definition GDROM_DATA_BYTE_COUNT_DEFAULT : Z := 0xeb14.
Definition ADDR_GDROM_FIRST : Z := 0x5f7000.
Definition GDROM_REG_IDX (addr : Z) : Z := (addr - ADDR_GDROM_FIRST) / 4.
Definition ATA_REG_ALT_STATUS : Z := GDROM_REG_IDX 0x5f7018.
Definition ATA_REG_RW_DATA : Z := GDROM_REG_IDX 0x5f7080.
Definition ATA_REG_W_FEAT : Z := GDROM_REG_IDX 0x5f7084.
Definition ATA_REG_R_ERROR : Z := GDROM_REG_IDX 0x5f7084.
Definition ATA_REG_R_INT_REASON : Z := GDROM_REG_IDX 0x5f7088.
Definition ATA_REG_W_SEC_CNT : Z := GDROM_REG_IDX 0x5f7088.
Definition ATA_REG_R_SEC_NUM : Z := GDROM_REG_IDX 0x5f708c.
Definition ATA_REG_RW_BYTE_CNT_LO : Z := GDROM_REG_IDX 0x5f7090.
Definition ATA_REG_RW_BYTE_CNT_HI : Z := GDROM_REG_IDX 0x5f7094.
Definition ATA_REG_RW_DRIVE_SEL : Z := GDROM_REG_IDX 0x5f7098.
Definition ATA_REG_R_STATUS : Z := GDROM_REG_IDX 0x5f709c.
Definition ATA_REG_W_CMD : Z := GDROM_REG_IDX 0x5f709c.
Definition GDROM_INT_DELAY : Z := SCHED_FREQUENCY / 1024.

Definition SENSE_KEY_NOT_READY : Z := 2.
Definition SENSE_KEY_ILLEGAL_REQ : Z := 5.
Definition ADDITIONAL_SENSE_NO_ERROR : Z := 0.
Definition ADDITIONAL_SENSE_NO_DISC : Z := 0x3a.
Definition GDROM_BUFQ_LEN : Z := CDROM_FRAME_SIZE.

Definition GDROM_CMD_NOP : Z := 0x00.
Definition GDROM_CMD_PKT : Z := 0xa0.
Definition GDROM_CMD_IDENTIFY : Z := 0xa1.
Definition GDROM_CMD_SET_FEAT : Z := 0xef.
Definition GDROM_PKT_TEST_UNIT : Z := 0x00.
Definition GDROM_PKT_REQ_STAT : Z := 0x10.
Definition GDROM_PKT_REQ_MODE : Z := 0x11.
Definition GDROM_PKT_SET_MODE : Z := 0x12.
Definition GDROM_PKT_REQ_ERROR : Z := 0x13.
Definition GDROM_PKT_READ_TOC : Z := 0x14.
Definition GDROM_PKT_READ : Z := 0x30.
Definition GDROM_PKT_PLAY : Z := 0x20.
Definition GDROM_PKT_SEEK : Z := 0x21.
Definition GDROM_PKT_SUBCODE : Z := 0x40.
Definition GDROM_PKT_START_DISK : Z := 0x70.
Definition GDROM_PKT_UNKNOWN_71 : Z := 0x71.

(** ** Register images *)
Definition mask_if (b : bool) (mask : Z) : Z := if b then mask else 0.
Definition gdrom_get_error_reg (e : gdrom_error) : Z :=
  Z.lor (Z.lor (Z.lor (Z.lor (Z.land (u32 (Z.shiftl (sense_key e) 4)) 0xf0) (mask_if (ili e) 1)) (mask_if (eomf e) 2))
    (mask_if (abrt e) 4)) (mask_if (mcr e) 8).
Definition gdrom_get_int_reason_reg (r : gdrom_int_reason) : Z := Z.lor (mask_if (cod r) 1) (mask_if (io r) 2).
Definition gdrom_get_status_reg (x : gdrom_status) : Z :=
  Z.lor (Z.lor (Z.lor (Z.lor (Z.lor (Z.lor (mask_if (bsy x) 0x80) (mask_if (drdy x) 0x40)) (mask_if (df x) 0x20))
    (mask_if (dsc x) 0x10)) (mask_if (drq x) 8)) (mask_if (corr x) 4)) (mask_if (check x) 1).
Definition gdrom_set_features_reg (feat : Z) : gdrom_features :=
  {| dma_enable := truth (Z.land feat 1); set_feat_enable := Z.land feat 0x7f =? 3 |}.
Definition gdrom_set_dev_ctrl_reg (v : Z) : gdrom_dev_ctrl := {| nien := truth (Z.land v 2); srst := truth (Z.land v 4) |}.
(** [None]: the transfer mode is not one of the drive's *)
Definition sect_cnt_mode (v : Z) : option gdrom_trans_mode :=
  if Z.land v 0xfe =? 0 then Some TRANS_MODE_PIO_DFLT
  else if Z.land v 0xf8 =? 0x08 then Some TRANS_MODE_PIO_FLOW_CTRL
  else if Z.land v 0xf8 =? 0x10 then Some TRANS_MODE_SINGLE_WORD_DMA
  else if Z.land v 0xf8 =? 0x20 then Some TRANS_MODE_MULTI_WORD_DMA
  else if Z.land v 0xf8 =? 0x18 then Some TRANS_MODE_PSEUDO_DMA
  else None.
Definition error_none : gdrom_error := {| ili := false; eomf := false; abrt := false; mcr := false; sense_key := 0 |}.
Definition with_sense_key (k : Z) (e : gdrom_error) : gdrom_error :=
  {| ili := ili e; eomf := eomf e; abrt := abrt e; mcr := mcr e; sense_key := k |}.

(** ** The drive in the machine *)
Class GdromWorld (W : Type) : Type := {
  gdrom : W -> gdrom_ctxt;
  set_gdrom : gdrom_ctxt -> W -> W;
  disc : W -> mount;
  gdrom_int_raise_event : Z
}.

Section gdrom.
Context {W : Type} {CFG : BuildConfig} {MCH : Machine W} {HW : HollyWorld W} {EW : EventWorld W} {GW : GdromWorld W}.
Abbreviation sh4M := (M (Sh4 W)).

Definition gdrom_of (s : Sh4 W) : gdrom_ctxt := gdrom (world s).
Definition with_gdrom (g : gdrom_ctxt) (s : Sh4 W) : Sh4 W := with_world (set_gdrom g (world s)) s.
Definition gd_get {A} (f : gdrom_ctxt -> A) : sh4M A := gets (fun s => f (gdrom_of s)).
Definition gd_mod (f : gdrom_ctxt -> gdrom_ctxt) : sh4M unit := modify (fun s => with_gdrom (f (gdrom_of s)) s).
Definition stat_mod (f : gdrom_status -> gdrom_status) : sh4M unit := gd_mod (fun g => upd_stat_reg (f (stat_reg g)) g).
Definition set_int_reason (c i : bool) : sh4M unit := gd_mod (upd_int_reason_reg {| cod := c; io := i |}).
Definition set_state (st : gdrom_state) : sh4M unit := gd_mod (upd_gd_state st).
(** a call of mount.c *)
Definition on_disc {A} (m : M mount A) : sh4M A :=
  fun s => match m (disc (world s)) with Ok (a, _) => Ok (a, s) | Err e => Err e end.

(** ** Events *)
Definition gdrom_delayed_processing : sh4M unit :=
  sch <- gd_get gdrom_int_scheduled ;;
  when (negb sch)
    (gd_mod (upd_gdrom_int_scheduled true) ;;
     now <- gets (fun s => clock_cycle_stamp (evclk_of s)) ;;
     on_evclk (sched_at gdrom_int_raise_event (u64 (now + GDROM_INT_DELAY)))).

Definition gdrom_raise_int : sh4M unit :=
  c <- gd_get dev_ctrl_reg ;;
  when (negb (nien c)) (holly_raise_ext_int HOLLY_EXT_INT_GDROM).

(** the next chunk of a PIO transfer *)
Definition pio_chunk : sh4M unit :=
  n <- gd_get (fun g => byte_count (meta_read g)) ;;
  (if n =? 0 then
     gd_mod (upd_meta_read {| byte_count := 0; bytes_read := 0 |}) ;;
     stat_mod (upd_drq false) ;; set_state GDROM_STATE_NORM ;; gd_mod (upd_data_byte_count 0)
   else if n >? 0x8000 then
     gd_mod (upd_data_byte_count 0x8000) ;;
     gd_mod (upd_meta_read {| byte_count := u32 (n - 0x8000); bytes_read := 0 |}) ;;
     stat_mod (upd_drq true) ;; set_state GDROM_STATE_PIO_READING
   else
     gd_mod (upd_data_byte_count n) ;;
     gd_mod (upd_meta_read {| byte_count := 0; bytes_read := 0 |}) ;;
     stat_mod (upd_drq true) ;; set_state GDROM_STATE_PIO_READING).

Definition post_delay_gdrom_delayed_processing : sh4M unit :=
  gd_mod (upd_gdrom_int_scheduled false) ;;
  st <- gd_get gd_state ;;
  match st with
  | GDROM_STATE_PIO_READING => raise ERROR_INTEGRITY
  | GDROM_STATE_PIO_READ_DELAY =>
      pio_chunk ;;
      stat_mod (upd_bsy false) ;;
      x <- gd_get stat_reg ;;
      (if drq x then set_int_reason false true
       else stat_mod (upd_drdy true) ;; set_int_reason true true) ;;
      gdrom_raise_int
  | GDROM_STATE_DMA_READING =>
      set_int_reason true true ;;
      stat_mod (upd_drdy true) ;; stat_mod (upd_drq false) ;; stat_mod (upd_bsy false) ;;
      set_state GDROM_STATE_NORM ;;
      gdrom_raise_int
  | _ => gdrom_raise_int
  end.

(** ** The queue of buffers *)
Definition bufq_clear : sh4M unit := gd_mod (upd_bufq []).
Definition bufq_push (n : gdrom_bufq_node) : sh4M unit := gd_mod (fun g => upd_bufq (bufq g ++ [n]) g).
Definition bufq_pop : sh4M (option gdrom_bufq_node) :=
  q <- gd_get bufq ;;
  match q with
  | [] => ret None
  | n :: q' => gd_mod (upd_bufq q') ;; ret (Some n)
  end.
Definition bufq_consume_byte : sh4M (option Z) :=
  q <- gd_get bufq ;;
  match q with
  | [] => ret None
  | n :: q' =>
      match nd_dat n !! Z.to_nat (nd_idx n) with
      | Some b =>
          let idx := nd_idx n + 1 in
          gd_mod (upd_bufq (if idx >=? nd_len n then q' else {| nd_idx := idx; nd_len := nd_len n; nd_dat := nd_dat n |} :: q')) ;;
          ret (Some b)
      | None => raise C_UNDEFINED
      end
  end.
Definition new_bufq_node (len : Z) (dat : list Z) : gdrom_bufq_node := {| nd_idx := 0; nd_len := len; nd_dat := dat |}.
Definition gdrom_clear_error : sh4M unit := gd_mod (upd_error_reg error_none).

(** ** DMA *)
Definition gdrom_dma_prot_top : sh4M Z :=
  r <- gd_get gdapro_reg ;; ret (Z.lor (u32 (Z.shiftl (Z.shiftr (Z.land r 0x7f00) 8) 20)) 0x08000000).
Definition gdrom_dma_prot_bot : sh4M Z :=
  r <- gd_get gdapro_reg ;; ret (Z.lor (u32 (Z.shiftl (Z.land r 0x7f) 20)) 0x080fffff).

(** the loop over the buffers; every turn takes one from the queue *)
Fixpoint complete_dma_loop (fuel : nat) (bytes_transmitted bytes_to_transmit addr : Z) : sh4M Z :=
  if bytes_transmitted <? bytes_to_transmit then
    match fuel with
    | O => raise OUT_OF_FUEL
    | S fuel' =>
        node <- bufq_pop ;;
        match node with
        | None => ret bytes_transmitted
        | Some node =>
            let chunk_sz := if u32 (nd_len node + bytes_transmitted) >? bytes_to_transmit
                            then u32 (bytes_to_transmit - bytes_transmitted) else nd_len node in
            let bytes_transmitted := u32 (bytes_transmitted + chunk_sz) in
            top <- gdrom_dma_prot_top ;;
            bot <- gdrom_dma_prot_bot ;;
            if (addr <? top) && (u32 (chunk_sz + addr) <? top) then
              complete_dma_loop fuel' bytes_transmitted bytes_to_transmit (u32 (addr + chunk_sz))
            else
              let chunk_sz := if addr <? top then u32 (chunk_sz - u32 (top - addr)) else chunk_sz in
              let addr := if addr <? top then top else addr in
              let chunk_sz := if u32 (u32 (addr + chunk_sz) - 1) >? bot then u32 (bot - addr + 1) else chunk_sz in
              sh4_dmac_transfer_to_mem addr chunk_sz 1 (nd_dat node) ;;
              complete_dma_loop fuel' bytes_transmitted bytes_to_transmit (u32 (addr + chunk_sz))
        end
    end
  else ret bytes_transmitted.

Definition gdrom_complete_dma : sh4M unit :=
  bytes_to_transmit <- gd_get dma_len_reg ;;
  addr <- gd_get dma_start_addr_reg ;;
  q <- gd_get bufq ;;
  bytes_transmitted <- complete_dma_loop (S (length q)) 0 bytes_to_transmit addr ;;
  gd_mod (upd_gdlend_reg bytes_transmitted) ;;
  gd_mod (upd_dma_start_reg 0).

Definition gdrom_start_dma : sh4M unit :=
  st <- gd_get dma_start_reg ;;
  when (truth st) (stat_mod (upd_drq false) ;; stat_mod (upd_bsy true) ;; gdrom_complete_dma) ;;
  set_state GDROM_STATE_DMA_READING ;;
  stat_mod (upd_check false) ;;
  gdrom_clear_error ;;
  gdrom_delayed_processing.

(** ** Packet commands *)
Definition gdrom_state_transfer_pio_read (n : Z) : sh4M unit :=
  set_state GDROM_STATE_PIO_READ_DELAY ;;
  gd_mod (fun g => upd_meta_read {| byte_count := n; bytes_read := bytes_read (meta_read g) |} g) ;;
  stat_mod (upd_bsy true) ;; stat_mod (upd_drq false) ;; stat_mod (upd_check false) ;;
  gdrom_clear_error ;;
  gdrom_delayed_processing.

Definition pkt (i : nat) : sh4M Z := gd_get (fun g => nth i (pkt_buf g) 0).
(** three bytes, the first shifted by [a], the second by [b], the third by [c] *)
Definition pkt3 (i j k : nat) (a b c : Z) : sh4M Z :=
  x <- pkt i ;; y <- pkt j ;; z <- pkt k ;;
  ret (u32 (Z.lor (Z.lor (Z.shiftl x a) (Z.shiftl y b)) (Z.shiftl z c))).

(** [while (trans_len--)]; [false] when a sector cannot be read *)
Fixpoint read_sectors_loop (trans_len : nat) (fad : Z) : sh4M bool :=
  match trans_len with
  | O => ret true
  | S trans_len' =>
      r <- on_disc (mount_read_sectors fad 1) ;;
      match r with
      | Some dat => bufq_push (new_bufq_node CDROM_FRAME_DATA_SIZE dat) ;; read_sectors_loop trans_len' (u32 (fad + 1))
      | None =>
          gd_mod (fun g => upd_error_reg (with_sense_key SENSE_KEY_ILLEGAL_REQ (error_reg g)) g) ;;
          stat_mod (upd_check true) ;;
          set_state GDROM_STATE_NORM ;;
          ret false
      end
  end.

Definition gdrom_input_read_packet : sh4M unit :=
  start_addr <- pkt3 2 3 4 16 8 0 ;;
  trans_len <- pkt3 8 9 10 16 8 0 ;;
  b1 <- pkt 1 ;;
  let data_sel := Z.shiftr b1 4 in
  let param_tp := Z.land b1 1 in
  when (negb (data_sel =? 2)) (raise ERROR_UNIMPLEMENTED) ;;
  when (negb (param_tp =? 0)) (raise ERROR_UNIMPLEMENTED) ;;
  bufq_clear ;;
  let n := u32 (CDROM_FRAME_DATA_SIZE * trans_len) in
  gd_mod (upd_data_byte_count 0) ;;
  ok <- read_sectors_loop (Z.to_nat trans_len) start_addr ;;
  if ok : bool then
    f <- gd_get feat_reg ;;
    when (negb (dma_enable f)) (gdrom_state_transfer_pio_read n)
  else ret tt.

Definition gdrom_input_test_unit_packet : sh4M unit :=
  set_int_reason true true ;;
  stat_mod (upd_drdy true) ;; stat_mod (upd_bsy false) ;; stat_mod (upd_drq false) ;;
  gdrom_delayed_processing ;;
  set_state GDROM_STATE_NORM ;;
  gdrom_clear_error ;;
  b <- on_disc mount_check ;;
  if b : bool then stat_mod (upd_check false)
  else
    stat_mod (upd_check true) ;;
    gd_mod (fun g => upd_error_reg (with_sense_key SENSE_KEY_NOT_READY (error_reg g)) g) ;;
    gd_mod (upd_additional_sense ADDITIONAL_SENSE_NO_DISC).

Definition gdrom_input_req_error_packet : sh4M unit :=
  len <- pkt 4 ;;
  e <- gd_get error_reg ;;
  a <- gd_get additional_sense ;;
  let dat_out := [0xf0; 0; Z.land (sense_key e) 0xf; 0; 0; 0; 0; 0; u8 a; 0] in
  let len := if len >? 10 then 10 else len in
  bufq_clear ;;
  when (negb (len =? 0)) (bufq_push (new_bufq_node len (take (Z.to_nat len) dat_out))) ;;
  gdrom_state_transfer_pio_read len.

Definition gdrom_input_start_disk_packet : sh4M unit :=
  set_int_reason true true ;;
  stat_mod (upd_drdy true) ;; stat_mod (upd_bsy false) ;; stat_mod (upd_drq false) ;;
  set_state GDROM_STATE_NORM ;;
  stat_mod (upd_check false) ;;
  gdrom_clear_error ;;
  gdrom_delayed_processing.

Definition gdrom_input_packet_71 : sh4M unit :=
  bufq_clear ;;
  bufq_push (new_bufq_node GDROM_PKT_71_RESP_LEN pkt71_resp) ;;
  gdrom_state_transfer_pio_read GDROM_PKT_71_RESP_LEN.

Definition gdrom_input_set_mode_packet : sh4M unit :=
  n <- gd_get data_byte_count ;;
  gd_mod (upd_set_mode_bytes_remaining (s32 n)) ;;
  f <- gd_get feat_reg ;;
  when (dma_enable f) (raise ERROR_UNIMPLEMENTED) ;;
  set_int_reason false true ;;
  stat_mod (upd_drq true) ;;
  set_state GDROM_STATE_SET_MODE ;;
  gdrom_delayed_processing.

Definition gdrom_input_req_mode_packet : sh4M unit :=
  starting_addr <- pkt 2 ;;
  len <- pkt 4 ;;
  bufq_clear ;;
  (if negb (len =? 0) then
     let last := GDROM_REQ_MODE_RESP_LEN - 1 in
     let first_idx := if starting_addr >? last then last else starting_addr in
     let last_idx := if starting_addr + (len - 1) >? last then last else starting_addr + (len - 1) in
     let n := last_idx - first_idx + 1 in
     bufq_clear ;;
     bufq_push (new_bufq_node n (take (Z.to_nat n) (drop (Z.to_nat first_idx) gdrom_req_mode_resp))) ;;
     gdrom_state_transfer_pio_read n
   else gdrom_state_transfer_pio_read 0).

(** the result of [mount_read_toc] is not looked at *)
Definition gdrom_input_read_toc_packet : sh4M unit :=
  b1 <- pkt 1 ;;
  b3 <- pkt 3 ;;
  b4 <- pkt 4 ;;
  let session := Z.land b1 1 in
  let len := Z.lor (Z.shiftl b3 8) b4 in
  r <- on_disc (mount_read_toc toc_zero session) ;;
  bufq_clear ;;
  match mount_encode_toc (snd r) with
  | Ok ptr =>
      let len := if len >? CDROM_TOC_SIZE then CDROM_TOC_SIZE else len in
      bufq_push (new_bufq_node len (take (Z.to_nat len) ptr)) ;;
      gdrom_state_transfer_pio_read len
  | Err e => raise e
  end.

(** the length is not compared with the buffer's *)
Definition gdrom_input_read_subcode_packet : sh4M unit :=
  b3 <- pkt 3 ;;
  b4 <- pkt 4 ;;
  let len := Z.lor (Z.shiftl b3 8) b4 in
  bufq_clear ;;
  when (len >? GDROM_BUFQ_LEN) (raise C_UNDEFINED) ;;
  bufq_push (new_bufq_node len (replicate (Z.to_nat len) 0)) ;;
  gdrom_state_transfer_pio_read len.

Definition gdrom_input_seek_packet : sh4M unit :=
  b1 <- pkt 1 ;;
  when (negb (Z.land b1 0xf =? 4)) (raise ERROR_UNIMPLEMENTED) ;;
  gdrom_delayed_processing.
Definition gdrom_input_play_packet : sh4M unit := gdrom_delayed_processing.

Definition gdrom_input_packet : sh4M unit :=
  stat_mod (upd_drq false) ;; stat_mod (upd_bsy false) ;;
  cmd <- pkt 0 ;;
  if cmd =? GDROM_PKT_TEST_UNIT then gdrom_input_test_unit_packet
  else if cmd =? GDROM_PKT_REQ_STAT then set_state GDROM_STATE_NORM ;; gdrom_delayed_processing
  else if cmd =? GDROM_PKT_REQ_MODE then gdrom_input_req_mode_packet
  else if cmd =? GDROM_PKT_SET_MODE then gdrom_input_set_mode_packet
  else if cmd =? GDROM_PKT_REQ_ERROR then gdrom_input_req_error_packet
  else if cmd =? GDROM_PKT_START_DISK then gdrom_input_start_disk_packet
  else if cmd =? GDROM_PKT_READ_TOC then gdrom_input_read_toc_packet
  else if cmd =? GDROM_PKT_SUBCODE then gdrom_input_read_subcode_packet
  else if cmd =? GDROM_PKT_READ then gdrom_input_read_packet
  else if cmd =? GDROM_PKT_UNKNOWN_71 then gdrom_input_packet_71
  else if cmd =? GDROM_PKT_SEEK then gdrom_input_seek_packet
  else if cmd =? GDROM_PKT_PLAY then gdrom_input_play_packet
  else raise ERROR_UNIMPLEMENTED.

(** ** ATA commands *)
Definition gdrom_cmd_set_features : sh4M unit :=
  f <- gd_get feat_reg ;;
  if set_feat_enable f then
    sc <- gd_get sect_cnt_reg ;;
    gd_mod (fun g => upd_trans_mode_vals (<[trans_mode_idx (trans_mode sc) := mode_val sc]> (trans_mode_vals g)) g) ;;
    stat_mod (upd_check false) ;;
    gdrom_clear_error ;;
    gd_mod (fun g => upd_int_reason_reg {| cod := true; io := io (int_reason_reg g) |} g) ;;
    gdrom_delayed_processing
  else ret tt.

Definition gdrom_cmd_identify : sh4M unit :=
  set_state GDROM_STATE_NORM ;;
  stat_mod (upd_bsy false) ;; stat_mod (upd_drq true) ;;
  gdrom_delayed_processing ;;
  bufq_clear ;;
  gd_mod (upd_data_byte_count GDROM_IDENT_RESP_LEN) ;;
  bufq_push (new_bufq_node GDROM_IDENT_RESP_LEN gdrom_ident_resp) ;;
  stat_mod (upd_check false) ;;
  gdrom_clear_error.

Definition gdrom_cmd_begin_packet : sh4M unit :=
  stat_mod (upd_check false) ;;
  set_int_reason true false ;;
  stat_mod (upd_drq true) ;;
  gd_mod (upd_n_bytes_received 0) ;;
  set_state GDROM_STATE_INPUT_PKT.

Definition gdrom_input_cmd (cmd : Z) : sh4M unit :=
  if cmd =? GDROM_CMD_PKT then gdrom_cmd_begin_packet
  else if cmd =? GDROM_CMD_SET_FEAT then gdrom_cmd_set_features
  else if cmd =? GDROM_CMD_IDENTIFY then gdrom_cmd_identify
  else if cmd =? GDROM_CMD_NOP then ret tt
  else raise ERROR_UNIMPLEMENTED.

(** ** The data register *)
Fixpoint read_data_loop (n_bytes : nat) : sh4M (list Z) :=
  match n_bytes with
  | O => ret []
  | S n_bytes' =>
      dat <- bufq_consume_byte ;;
      m <- gd_get meta_read ;;
      count <- gd_get data_byte_count ;;
      let out := match dat with Some b => if bytes_read m <? count then b else 0 | None => 0 end in
      gd_mod (upd_meta_read {| byte_count := byte_count m; bytes_read := u32 (bytes_read m + 1) |}) ;;
      rest <- read_data_loop n_bytes' ;;
      ret (out :: rest)
  end.

(** after the last byte of a chunk: the end of the transfer, or a pause before the next one *)
Definition end_of_chunk : sh4M unit :=
  m <- gd_get meta_read ;;
  count <- gd_get data_byte_count ;;
  if bytes_read m =? count then
    if byte_count m =? 0 then
      stat_mod (upd_drq false) ;; stat_mod (upd_bsy false) ;; stat_mod (upd_drdy true) ;;
      set_int_reason true true ;;
      set_state GDROM_STATE_NORM ;;
      gdrom_delayed_processing
    else
      stat_mod (upd_drq false) ;; stat_mod (upd_bsy true) ;;
      set_state GDROM_STATE_PIO_READ_DELAY ;;
      gdrom_delayed_processing
  else when (bytes_read m >? count) (raise ERROR_UNIMPLEMENTED).

Definition gdrom_read_data (n_bytes : Z) : sh4M (list Z) :=
  st <- gd_get gd_state ;;
  if negb (bool_decide (st = GDROM_STATE_PIO_READING)) then ret (replicate (Z.to_nat n_bytes) 0)
  else
    buf <- read_data_loop (Z.to_nat n_bytes) ;;
    end_of_chunk ;;
    ret buf.

Definition gdrom_write_data (buf : list Z) (n_bytes : Z) : sh4M unit :=
  let n_bytes := if n_bytes <? 4 then n_bytes else 4 in
  let dat := le_val (take (Z.to_nat n_bytes) buf) in
  st <- gd_get gd_state ;;
  match st with
  | GDROM_STATE_INPUT_PKT =>
      k <- gd_get n_bytes_received ;;
      gd_mod (fun g => upd_pkt_buf (<[Z.to_nat (k + 1) := Z.land (Z.shiftr dat 8) 0xff]>
                                      (<[Z.to_nat k := Z.land dat 0xff]> (pkt_buf g))) g) ;;
      gd_mod (upd_n_bytes_received (u32 (k + 2))) ;;
      when (u32 (k + 2) >=? 12) (gd_mod (upd_n_bytes_received 0) ;; gdrom_input_packet)
  | GDROM_STATE_SET_MODE =>
      r <- gd_get set_mode_bytes_remaining ;;
      gd_mod (upd_set_mode_bytes_remaining (s32 (r - n_bytes))) ;;
      when (s32 (r - n_bytes) <=? 0)
        (stat_mod (upd_drq false) ;; set_state GDROM_STATE_NORM ;; gdrom_delayed_processing)
  | _ => ret tt
  end.

(** ** The registers on the bus *)
Definition DISC_TYPE_GDROM : Z := 8.
Definition GDROM_STATE_PAUSE : Z := 1.
Definition GDROM_STATE_NODISC : Z := 7.
Definition gdrom_get_disc_type : sh4M Z := b <- on_disc mount_check ;; ret (if b : bool then DISC_TYPE_GDROM else 0).
Definition gdrom_get_drive_state : sh4M Z := b <- on_disc mount_check ;; ret (if b : bool then GDROM_STATE_PAUSE else GDROM_STATE_NODISC).

Definition put_reg (idx v : Z) : sh4M unit := gd_mod (fun g => upd_gd_regs (store 4 (4 * idx) v (gd_regs g)) g).
Definition get_reg (idx : Z) : sh4M Z := gd_get (fun g => load 4 (4 * idx) (gd_regs g)).
(** the test of the byte-count registers, after the value is stored *)
Definition check_count : sh4M unit :=
  n <- gd_get data_byte_count ;; when (n >? 0xffff) (raise ERROR_UNIMPLEMENTED).

Definition gdrom_pre_read (addr n_bytes : Z) : sh4M unit :=
  when (INVARIANTS && truth (u32 (addr - 0x5f7000) mod 4)) (raise ERROR_UNIMPLEMENTED) ;;
  let idx := u32 (addr - ADDR_GDROM_FIRST) / 4 in
  if idx =? ATA_REG_RW_DATA then
    put_reg ATA_REG_RW_DATA 0 ;;
    buf <- gdrom_read_data n_bytes ;;
    gd_mod (fun g => upd_gd_regs (store_bytes (4 * ATA_REG_RW_DATA) buf (gd_regs g)) g)
  else if idx =? ATA_REG_R_ERROR then e <- gd_get error_reg ;; put_reg ATA_REG_R_ERROR (gdrom_get_error_reg e)
  else if idx =? ATA_REG_R_INT_REASON then
    r <- gd_get int_reason_reg ;; put_reg ATA_REG_R_INT_REASON (gdrom_get_int_reason_reg r)
  else if idx =? ATA_REG_R_SEC_NUM then
    d <- gdrom_get_drive_state ;; t <- gdrom_get_disc_type ;;
    put_reg ATA_REG_R_SEC_NUM (Z.lor d (Z.shiftl t 4))
  else if idx =? ATA_REG_RW_BYTE_CNT_LO then
    n <- gd_get data_byte_count ;; put_reg ATA_REG_RW_BYTE_CNT_LO (Z.land n 0xff) ;; check_count
  else if idx =? ATA_REG_RW_BYTE_CNT_HI then
    n <- gd_get data_byte_count ;; put_reg ATA_REG_RW_BYTE_CNT_HI (Z.shiftr (Z.land n 0xff00) 8) ;; check_count
  else if idx =? ATA_REG_RW_DRIVE_SEL then v <- gd_get drive_sel_reg ;; put_reg ATA_REG_RW_DRIVE_SEL v
  else if idx =? ATA_REG_R_STATUS then
    holly_clear_ext_int HOLLY_EXT_INT_GDROM ;;
    x <- gd_get stat_reg ;; put_reg ATA_REG_R_STATUS (gdrom_get_status_reg x)
  else if idx =? ATA_REG_ALT_STATUS then x <- gd_get stat_reg ;; put_reg ATA_REG_ALT_STATUS (gdrom_get_status_reg x)
  else raise ERROR_UNIMPLEMENTED.

Definition gdrom_post_write (addr n_bytes : Z) : sh4M unit :=
  when (INVARIANTS && truth (u32 (addr - 0x5f7000) mod 4)) (raise ERROR_UNIMPLEMENTED) ;;
  let idx := u32 (addr - ADDR_GDROM_FIRST) / 4 in
  if idx =? ATA_REG_RW_DATA then
    buf <- gd_get (fun g => load_bytes (Z.to_nat n_bytes) (4 * ATA_REG_RW_DATA) (gd_regs g)) ;;
    gdrom_write_data buf n_bytes
  else if idx =? ATA_REG_W_FEAT then v <- get_reg ATA_REG_W_FEAT ;; gd_mod (upd_feat_reg (gdrom_set_features_reg v))
  else if idx =? ATA_REG_W_SEC_CNT then
    v <- get_reg ATA_REG_W_SEC_CNT ;;
    match sect_cnt_mode v with
    | Some m => gd_mod (upd_sect_cnt_reg {| trans_mode := m; mode_val := Z.land v 0xf |})
    | None => raise ERROR_UNIMPLEMENTED
    end
  else if idx =? ATA_REG_RW_BYTE_CNT_LO then
    v <- get_reg ATA_REG_RW_BYTE_CNT_LO ;;
    gd_mod (fun g => upd_data_byte_count (Z.lor (Z.land (data_byte_count g) (not32 0xff)) (Z.land v 0xff)) g)
  else if idx =? ATA_REG_RW_BYTE_CNT_HI then
    v <- get_reg ATA_REG_RW_BYTE_CNT_HI ;;
    gd_mod (fun g => upd_data_byte_count (Z.lor (Z.land (data_byte_count g) (not32 0xff00)) (Z.shiftl (Z.land v 0xff) 8)) g)
  else if idx =? ATA_REG_RW_DRIVE_SEL then v <- get_reg ATA_REG_RW_DRIVE_SEL ;; gd_mod (upd_drive_sel_reg v)
  else if idx =? ATA_REG_W_CMD then v <- get_reg ATA_REG_W_CMD ;; gdrom_input_cmd v
  else if idx =? ATA_REG_ALT_STATUS then v <- get_reg ATA_REG_ALT_STATUS ;; gd_mod (upd_dev_ctrl_reg (gdrom_set_dev_ctrl_reg v))
  else ret tt.

Definition gdrom_check_addr (addr n_bytes : Z) : sh4M unit :=
  let first := addr in
  let last := u32 (addr + (n_bytes - 1)) in
  when (negb ((first >=? 0x5f7000) && (first <=? 0x5f70ff)) || negb ((last >=? 0x5f7000) && (last <=? 0x5f70ff)))
    (raise ERROR_MEM_OUT_OF_BOUNDS).

(** the accessors of the five access types *)
Definition gdrom_reg_read (sz : acc) (addr : Z) : sh4M Z :=
  gdrom_check_addr addr (sizeof sz) ;;
  gdrom_pre_read addr (sizeof sz) ;;
  gd_get (fun g => load (Z.to_nat (sizeof sz)) (addr - ADDR_GDROM_FIRST) (gd_regs g)).
Definition gdrom_reg_write (sz : acc) (addr val : Z) : sh4M unit :=
  gdrom_check_addr addr (sizeof sz) ;;
  gd_mod (fun g => upd_gd_regs (store (Z.to_nat (sizeof sz)) (addr - ADDR_GDROM_FIRST) val (gd_regs g)) g) ;;
  gdrom_post_write addr (sizeof sz).
Definition gdrom_reg_intf : memory_interface (Sh4 W) :=
  {| read_fn := fun sz => Some (gdrom_reg_read sz); write_fn := fun sz => Some (gdrom_reg_write sz);
     try_read_fn := fun _ => None; try_write_fn := fun _ => None |}.

(** ** The registers of the G1 bus *)
Definition gdrom_gdapro_mmio_read (idx : Z) : sh4M Z := gd_get gdapro_reg.
Definition gdrom_gdapro_mmio_write (idx val : Z) : sh4M unit :=
  when (Z.land val 0xffff0000 =? 0x88430000) (gd_mod (upd_gdapro_reg val)).
Definition gdrom_g1gdrc_mmio_read (idx : Z) : sh4M Z := gd_get g1gdrc_reg.
Definition gdrom_g1gdrc_mmio_write (idx val : Z) : sh4M unit := gd_mod (upd_g1gdrc_reg val).
Definition gdrom_gdstar_mmio_read (idx : Z) : sh4M Z := gd_get dma_start_addr_reg.
Definition gdrom_gdstar_mmio_write (idx val : Z) : sh4M unit := gd_mod (upd_dma_start_addr_reg (Z.land val (not32 0xe0000000))).
Definition gdrom_gdlen_mmio_read (idx : Z) : sh4M Z := gd_get dma_len_reg.
Definition gdrom_gdlen_mmio_write (idx val : Z) : sh4M unit := gd_mod (upd_dma_len_reg val).
Definition gdrom_gddir_mmio_read (idx : Z) : sh4M Z := gd_get dma_dir_reg.
Definition gdrom_gddir_mmio_write (idx val : Z) : sh4M unit := gd_mod (upd_dma_dir_reg val).
Definition gdrom_gden_mmio_read (idx : Z) : sh4M Z := gd_get dma_en_reg.
Definition gdrom_gden_mmio_write (idx val : Z) : sh4M unit := gd_mod (upd_dma_en_reg val).
Definition gdrom_gdst_reg_read_handler (idx : Z) : sh4M Z := gd_get dma_start_reg.
Definition gdrom_gdst_reg_write_handler (idx val : Z) : sh4M unit := gd_mod (upd_dma_start_reg val) ;; gdrom_start_dma.
Definition gdrom_gdlend_mmio_read (idx : Z) : sh4M Z := gd_get gdlend_reg.

(** the calls of [gdrom_reg_init]; the handlers of the region without a function of the drive are its own *)
Definition gdrom_cells (warn_read : Z -> sh4M Z) (warn_write : Z -> Z -> sh4M unit) : list (mmio_cell (St := Sh4 W)) :=
  [(0x5f74b8, gdrom_gdapro_mmio_read, gdrom_gdapro_mmio_write);
   (0x5f74a0, gdrom_g1gdrc_mmio_read, gdrom_g1gdrc_mmio_write);
   (0x5f74a4, warn_read, warn_write);
   (0x5f7404, gdrom_gdstar_mmio_read, gdrom_gdstar_mmio_write);
   (0x5f7408, gdrom_gdlen_mmio_read, gdrom_gdlen_mmio_write);
   (0x5f740c, gdrom_gddir_mmio_read, gdrom_gddir_mmio_write);
   (0x5f7414, gdrom_gden_mmio_read, gdrom_gden_mmio_write);
   (0x5f7418, gdrom_gdst_reg_read_handler, gdrom_gdst_reg_write_handler);
   (0x5f74f8, gdrom_gdlend_mmio_read, mmio_region_readonly_write_error)].
End gdrom.

(** [gdrom_init], on the drive's own state *)
Definition gdrom_init : gdrom_ctxt :=
  {| gd_regs := ∅; gdrom_int_scheduled := false;
     stat_reg := {| bsy := false; drdy := false; df := false; dsc := false; drq := false; corr := false; check := false |};
     error_reg := {| ili := true; eomf := false; abrt := false; mcr := false; sense_key := 0 |};
     feat_reg := {| dma_enable := false; set_feat_enable := false |};
     sect_cnt_reg := {| trans_mode := TRANS_MODE_PIO_DFLT; mode_val := 1 |};
     int_reason_reg := {| cod := false; io := false |}; dev_ctrl_reg := {| nien := false; srst := false |};
     data_byte_count := GDROM_DATA_BYTE_COUNT_DEFAULT; gdapro_reg := GDROM_GDAPRO_DEFAULT; g1gdrc_reg := GDROM_G1GDRC_DEFAULT;
     dma_start_addr_reg := GDROM_GDSTAR_DEFAULT; dma_len_reg := GDROM_GDLEN_DEFAULT; dma_dir_reg := GDROM_GDDIR_DEFAULT;
     dma_en_reg := GDROM_GDEN_DEFAULT; dma_start_reg := GDROM_GDST_DEFAULT; gdlend_reg := GDROM_GDLEND_DEFAULT;
     drive_sel_reg := 0; additional_sense := ADDITIONAL_SENSE_NO_ERROR; trans_mode_vals := replicate TRANS_MODE_COUNT 0;
     gd_state := GDROM_STATE_NORM; meta_read := {| byte_count := 0; bytes_read := 0 |}; set_mode_bytes_remaining := 0;
     pkt_buf := replicate 12 0; n_bytes_received := 0; bufq := [] |}.
