(* ===== verification/GdromRead.v ===== *)
(** Reading a disc (src/libwashdc/hw/gdrom/gdrom.c): from the program's writes to the drive's registers to the
    sectors in memory, with the DMA. *)
From stdpp Require Import gmap.
From S2P Require Import Prelude IntMath MemoryMap Memory Sh4State Board Sh4Core Sh4Excp Sched Sh4Exec.
From S2P Require Import Sh4Irl Events Holly RamBus Dmac Mmio Mount GdromResponse Gdrom.
Import memory_map memory sched.

Class GdromLaws (W : Type) `{!RamWorld W, !EventWorld W, !GdromWorld W} : Prop := {
  gdrom_set : forall g (w : W), gdrom (set_gdrom g w) = g;
  gdrom_set_same : forall w : W, set_gdrom (gdrom w) w = w;
  gdrom_set_set : forall g h (w : W), set_gdrom g (set_gdrom h w) = set_gdrom g w;
  gdrom_keeps : forall g (w : W), bus_ram (set_gdrom g w) = bus_ram w /\ evclk (set_gdrom g w) = evclk w /\ disc (set_gdrom g w) = disc w;
  gdrom_ram : forall m (w : W), gdrom (set_bus_ram m w) = gdrom w /\ evclk (set_bus_ram m w) = evclk w;
  gdrom_clk : forall c (w : W), gdrom (set_evclk c w) = gdrom w /\ bus_ram (set_evclk c w) = bus_ram w
}.

Section drive.
Context {W : Type} {CFG : BuildConfig} {MCH : Machine W} {HW : HollyWorld W} {EW : EventWorld W} {EL : EventWorldLaws W}.
Context {GW : GdromWorld W} {RW : RamWorld W} {RL : RamLaws W} {GL : GdromLaws W}.
Abbreviation sh4M := (M (Sh4 W)).
Implicit Types (s : Sh4 W) (g : gdrom_ctxt).

(** ** Symbolic execution *)
Lemma gdrom_with g s : gdrom_of (with_gdrom g s) = g.
Proof. apply gdrom_set. Qed.
Lemma with_gdrom_with g h s : with_gdrom g (with_gdrom h s) = with_gdrom g s.
Proof. unfold with_gdrom. cbn. by rewrite gdrom_set_set. Qed.
Lemma evclk_with g s : evclk_of (with_gdrom g s) = evclk_of s.
Proof. apply gdrom_keeps. Qed.
Lemma ram_with g s : ram_of (with_gdrom g s) = ram_of s.
Proof. apply gdrom_keeps. Qed.
Lemma disc_with g s : disc (world (with_gdrom g s)) = disc (world s).
Proof. apply gdrom_keeps. Qed.

Lemma gd_get_bind {A B} (f : gdrom_ctxt -> A) (k : A -> sh4M B) s : bind (gd_get f) k s = k (f (gdrom_of s)) s.
Proof. done. Qed.
Lemma gd_mod_bind {B} f (k : unit -> sh4M B) s : bind (gd_mod f) k s = k tt (with_gdrom (f (gdrom_of s)) s).
Proof. done. Qed.
Lemma stat_mod_bind {B} f (k : unit -> sh4M B) s :
  bind (stat_mod f) k s = k tt (with_gdrom (upd_stat_reg (f (stat_reg (gdrom_of s))) (gdrom_of s)) s).
Proof. done. Qed.
Lemma bind_assoc {A B C} (m : sh4M A) (f : A -> sh4M B) (k : B -> sh4M C) s :
  bind (bind m f) k s = bind m (fun a => bind (f a) k) s.
Proof. unfold bind. by destruct (m s) as [[a s']|]. Qed.
Lemma ret_bind {A B} (a : A) (k : A -> sh4M B) s : bind (ret a) k s = k a s.
Proof. done. Qed.
End drive.

(** runs the drive's own steps *)
Ltac gd_norm :=
  repeat (progress (rewrite ?bind_assoc, ?gd_get_bind, ?gd_mod_bind, ?stat_mod_bind, ?ret_bind, ?gdrom_with, ?with_gdrom_with);
          cbv beta).
(** takes the branch of a closed test *)
Ltac closed_if :=
  match goal with
  | |- context [if ?b then _ else _] =>
      let b' := eval vm_compute in b in
      match b' with true => idtac | false => idtac end; change b with b'; cbv iota
  end.

Section registers.
Context {W : Type} {CFG : BuildConfig} {MCH : Machine W} {HW : HollyWorld W} {EW : EventWorld W} {EL : EventWorldLaws W}.
Context {GW : GdromWorld W} {RW : RamWorld W} {RL : RamLaws W} {GL : GdromLaws W}.
Abbreviation sh4M := (M (Sh4 W)).
Implicit Types (s : Sh4 W) (g : gdrom_ctxt).

(** ** The program's accesses *)
Lemma check_addr_ok {B} addr n (k : unit -> sh4M B) s : 0x5f7000 <= addr -> 1 <= n -> addr + n <= 0x5f7100 ->
  bind (gdrom_check_addr addr n) k s = k tt s.
Proof.
  intros Ha Hn Hf. unfold gdrom_check_addr. rewrite wrap_small by (unfold in_range; lia).
  replace (addr >=? 0x5f7000) with true by lia. replace (addr <=? 0x5f70ff) with true by lia.
  replace (addr + (n - 1) >=? 0x5f7000) with true by lia. by replace (addr + (n - 1) <=? 0x5f70ff) with true by lia.
Qed.

Lemma aligned_ok {B} c (k : unit -> sh4M B) s : truth c = false ->
  bind (when (INVARIANTS && truth c) (raise ERROR_UNIMPLEMENTED)) k s = k tt s.
Proof. intros ->. by rewrite andb_false_r. Qed.

Lemma load_bytes_store n a v m : load_bytes n a (store n a v m) = le_bytes n v.
Proof. rewrite store_le_bytes. rewrite <- (length_le_bytes n v) at 1. apply load_store_bytes. Qed.

(** the upper bytes of a register stay when its lowest byte is written *)
Lemma store1_load4 a v m : load 4 a (store 1 a v m) = Z.lor (u8 v) (Z.shiftl (load 3 (a + 1) m) 8).
Proof.
  change (load 4 a (store 1 a v m)) with (Z.lor (byte (<[a := u8 v]> m) a) (Z.shiftl (load 3 (a + 1) (store 1 a v m)) 8)).
  rewrite byte_insert, Z.eqb_refl. rewrite load_store_other by (cbn; lia). done.
Qed.

Lemma low_bit v x : truth (Z.land (Z.lor (u8 v) (Z.shiftl x 8)) 1) = Z.odd v.
Proof.
  change 1 with (Z.ones 1). rewrite Z.land_ones by lia. change (2 ^ 1) with 2. rewrite Zmod_odd.
  assert (E : Z.odd (Z.lor (u8 v) (Z.shiftl x 8)) = Z.odd v).
  { rewrite <- !Z.bit0_odd, Z.lor_spec, Z.shiftl_spec, wrap_testbit by lia. cbn [Z.ltb Z.compare andb].
    by rewrite (Z.testbit_neg_r x), orb_false_r by lia. }
  rewrite E. by destruct (Z.odd v).
Qed.

(** what the first commands leave alone *)
Record cmd_frame g g' : Prop := {
  cf_sched : gdrom_int_scheduled g' = gdrom_int_scheduled g;
  cf_prot : gdapro_reg g' = gdapro_reg g;
  cf_ctrl : dev_ctrl_reg g' = dev_ctrl_reg g;
  cf_pkt : length (pkt_buf g') = length (pkt_buf g)
}.

Lemma write_feat v s : exists m f,
  gdrom_reg_write A8 0x5f7084 v s = Ok (tt, with_gdrom (upd_feat_reg f (upd_gd_regs m (gdrom_of s))) s) /\
  dma_enable f = Z.odd v /\ load 3 0x9d m = load 3 0x9d (gd_regs (gdrom_of s)).
Proof.
  eexists _, _. unfold gdrom_reg_write. rewrite check_addr_ok by done. unfold gdrom_post_write. repeat closed_if. gd_norm.
  rewrite aligned_ok by done. unfold get_reg. gd_norm. unfold gd_mod, modify. rewrite with_gdrom_with, gdrom_with. split; [done|].
  split.
  - cbn [gd_regs upd_gd_regs]. change (4 * ATA_REG_W_FEAT) with 0x84. change (Z.to_nat (sizeof A8)) with 1%nat.
    change (0x5f7084 - ADDR_GDROM_FIRST) with 0x84. rewrite store1_load4. apply low_bit.
  - change (0x5f7084 - ADDR_GDROM_FIRST) with 0x84. apply load_store_other. cbn; lia.
Qed.

Lemma write_packet_cmd s : load 3 0x9d (gd_regs (gdrom_of s)) = 0 -> exists g,
  gdrom_reg_write A8 0x5f709c GDROM_CMD_PKT s = Ok (tt, with_gdrom g s) /\
  gd_state g = GDROM_STATE_INPUT_PKT /\ n_bytes_received g = 0 /\ feat_reg g = feat_reg (gdrom_of s) /\ cmd_frame (gdrom_of s) g.
Proof.
  intros H0. eexists. unfold gdrom_reg_write. rewrite check_addr_ok by done. unfold gdrom_post_write. repeat closed_if. gd_norm.
  rewrite aligned_ok by done. unfold get_reg. gd_norm. cbn [gd_regs upd_gd_regs]. change (4 * ATA_REG_W_CMD) with 0x9c.
  change (Z.to_nat (sizeof A8)) with 1%nat. change (0x5f709c - ADDR_GDROM_FIRST) with 0x9c.
  rewrite store1_load4. change (0x9c + 1) with 0x9d. rewrite H0. change (Z.lor (u8 GDROM_CMD_PKT) (Z.shiftl 0 8)) with 0xa0. unfold gdrom_input_cmd. repeat closed_if.
  unfold gdrom_cmd_begin_packet, set_int_reason, set_state. gd_norm. unfold gd_mod at 1, modify. rewrite with_gdrom_with, gdrom_with.
  split; [done|]. by split_and!.
Qed.

Lemma word_split b0 b1 : in_range 8 b0 -> in_range 8 b1 ->
  Z.land (le_val [b0; b1]) 0xff = b0 /\ Z.land (Z.shiftr (le_val [b0; b1]) 8) 0xff = b1.
Proof.
  intros H0 H1. change 0xff with (Z.ones 8). destruct (le_val_cons b0 [b1] H0) as [E0 E1]. unfold wrap in E0.
  rewrite !Z.land_ones, E0, E1 by lia. split; [done|]. by destruct (le_val_cons b1 [] H1) as [E _].
Qed.

Lemma word_bytes b0 b1 : in_range 8 b0 -> in_range 8 b1 -> take 2 (le_bytes 2 (Z.lor b0 (Z.shiftl b1 8))) = [b0; b1].
Proof.
  intros H0 H1. replace (Z.lor b0 (Z.shiftl b1 8)) with (le_val [b0; b1]) by (cbn [le_val]; by rewrite Z.shiftl_0_l, Z.lor_0_r).
  change 2%nat with (length [b0; b1]) at 2. rewrite le_bytes_val; [done|]. apply List.Forall_cons; [done|]. by apply List.Forall_cons.
Qed.

Lemma write_word b0 b1 s : gd_state (gdrom_of s) = GDROM_STATE_INPUT_PKT -> in_range 8 b0 -> in_range 8 b1 -> exists m,
  gdrom_reg_write A16 0x5f7080 (Z.lor b0 (Z.shiftl b1 8)) s =
    (let g := gdrom_of s in
     let k := n_bytes_received g in
     when (u32 (k + 2) >=? 12) (gd_mod (upd_n_bytes_received 0) ;; gdrom_input_packet)
       (with_gdrom (upd_n_bytes_received (u32 (k + 2))
          (upd_pkt_buf (<[Z.to_nat (k + 1) := b1]> (<[Z.to_nat k := b0]> (pkt_buf g))) (upd_gd_regs m g))) s)).
Proof.
  intros Hst H0 H1. eexists. unfold gdrom_reg_write. rewrite check_addr_ok by done. unfold gdrom_post_write. repeat closed_if. gd_norm.
  rewrite aligned_ok by done. unfold gdrom_write_data. repeat closed_if. gd_norm. cbn [gd_regs upd_gd_regs gd_state]. rewrite Hst. gd_norm.
  cbn [n_bytes_received upd_gd_regs upd_pkt_buf pkt_buf].
  change (Z.to_nat (sizeof A16)) with 2%nat. change (0x5f7080 - ADDR_GDROM_FIRST) with 0x80. change (4 * ATA_REG_RW_DATA) with 0x80.
  rewrite load_bytes_store, word_bytes by done. by destruct (word_split b0 b1 H0 H1) as [-> ->].
Qed.

(** a packet, two bytes at a time *)
Fixpoint send_packet (p : list Z) : sh4M unit :=
  match p with
  | b0 :: b1 :: p' => gdrom_reg_write A16 0x5f7080 (Z.lor b0 (Z.shiftl b1 8)) ;; send_packet p'
  | _ => ret tt
  end.

Lemma bind_tt (m : sh4M unit) s : bind m (fun _ => ret tt) s = m s.
Proof. unfold bind. by destruct (m s) as [[[] s']|]. Qed.

Lemma bind_eq {B} (m m' : sh4M unit) (k : unit -> sh4M B) s s' : m s = m' s' -> bind m k s = bind m' k s'.
Proof. unfold bind. by intros ->. Qed.

Lemma two_more (k : nat) b0 b1 (l p : list Z) : (k + 2 <= length l)%nat ->
  take (k + 2) (<[k + 1 := b1]> (<[k := b0]> l))%nat ++ p = take k l ++ b0 :: b1 :: p.
Proof.
  intros Hk. replace (k + 2)%nat with (S (S k)) by lia. replace (k + 1)%nat with (S k) by lia.
  rewrite (take_S_r _ _ b1) by (apply list_lookup_insert_eq; rewrite length_insert; lia).
  rewrite take_insert_ge by lia. rewrite (take_S_r _ _ b0) by (apply list_lookup_insert_eq; lia).
  rewrite take_insert_ge by lia. by rewrite <- !app_assoc.
Qed.

Lemma send_packet_from w k p s : (k + 2 * S w = 12)%nat -> length p = (2 * S w)%nat -> Forall (in_range 8) p ->
  gd_state (gdrom_of s) = GDROM_STATE_INPUT_PKT -> n_bytes_received (gdrom_of s) = Z.of_nat k ->
  length (pkt_buf (gdrom_of s)) = 12%nat -> exists m,
  send_packet p s = gdrom_input_packet
    (with_gdrom (upd_n_bytes_received 0 (upd_pkt_buf (take k (pkt_buf (gdrom_of s)) ++ p) (upd_gd_regs m (gdrom_of s)))) s).
Proof.
  revert k p s. induction w as [|w IH]; intros k p s Hk Hp Hb Hst Hn Hl.
  all: destruct p as [|b0 [|b1 p]]; try (cbn in Hp; lia); apply list.Forall_cons in Hb as [H0 Hb]; apply list.Forall_cons in Hb as [H1 Hb].
  all: destruct (write_word b0 b1 s Hst H0 H1) as [m E]; cbv zeta in E; rewrite Hn in E; cbn [send_packet]; rewrite (bind_eq _ _ _ _ _ E).
  all: rewrite wrap_small by (unfold in_range; lia).
  all: replace (Z.to_nat (Z.of_nat k + 1)) with (k + 1)%nat by lia; rewrite Nat2Z.id.
  - destruct p; [|cbn in Hp; lia]. assert (k = 10%nat) as -> by lia. change (Z.of_nat 10 + 2 >=? 12) with true. exists m.
    cbn [when send_packet]. rewrite bind_tt. gd_norm. rewrite <- two_more. 2: lia. rewrite app_nil_r, firstn_all2. 2: { rewrite ?length_insert. lia. } done.
  - replace (Z.of_nat k + 2 >=? 12) with false by lia. cbn [when]. gd_norm.
    destruct (IH (k + 2)%nat p (with_gdrom (upd_n_bytes_received (Z.of_nat k + 2)
       (upd_pkt_buf (<[(k + 1)%nat := b1]> (<[k := b0]> (pkt_buf (gdrom_of s)))) (upd_gd_regs m (gdrom_of s)))) s)) as [m' E'];
      rewrite ?gdrom_with; cbn [gd_state n_bytes_received pkt_buf upd_gd_regs upd_pkt_buf upd_n_bytes_received length] in *;
      rewrite ?length_insert; try done; try lia.
    exists m'. rewrite E'. gd_norm. cbn [pkt_buf upd_pkt_buf upd_n_bytes_received]. by rewrite two_more by lia.
Qed.

Lemma send_packet_ok p s : gd_state (gdrom_of s) = GDROM_STATE_INPUT_PKT -> n_bytes_received (gdrom_of s) = 0 ->
  length (pkt_buf (gdrom_of s)) = 12%nat -> length p = 12%nat -> Forall (in_range 8) p -> exists m,
  send_packet p s = gdrom_input_packet (with_gdrom (upd_n_bytes_received 0 (upd_pkt_buf p (upd_gd_regs m (gdrom_of s)))) s).
Proof. intros Hst Hn Hl Hp Hb. by destruct (send_packet_from 5 0 p s) as [m E]; [..|exists m]. Qed.
End registers.

(** ** The READ command *)
Definition be_byte (k x : Z) : Z := u8 (Z.shiftr x k).
Definition read_packet (fad n : Z) : list Z :=
  [GDROM_PKT_READ; 0x20; be_byte 16 fad; be_byte 8 fad; be_byte 0 fad; 0; 0; 0; be_byte 16 n; be_byte 8 n; be_byte 0 n; 0].

(** the mounted disc has these sectors from [fad] on *)
Record disc_holds (d : mount) (fad : Z) (secs : list (list Z)) : Prop := {
  dh_mounted : mounted d = true;
  dh_read : exists o f, img_ops d = Some o /\ read_sector o = Some f /\
    forall i sec, secs !! i = Some sec -> f (fad + Z.of_nat i) = Some sec;
  dh_secs : Forall (fun sec => length sec = 2048%nat /\ Forall (in_range 8) sec) secs
}.
Definition sector_nodes (secs : list (list Z)) : list gdrom_bufq_node := map (new_bufq_node CDROM_FRAME_DATA_SIZE) secs.

Lemma disc_holds_cons d fad sec secs : disc_holds d fad (sec :: secs) -> disc_holds d (fad + 1) secs.
Proof.
  intros [H1 (o & f & Ho & Hf & H) H3]. split; [done| |by apply list.Forall_cons in H3 as [_ H3]].
  exists o, f. split_and!; [done..|]. intros i x Hx. rewrite <- (H (S i) x Hx). f_equal. lia.
Qed.

Lemma be_byte_bit k x i : 0 <= k -> 0 <= i ->
  Z.testbit (Z.shiftl (be_byte k x) k) i = (k <=? i) && (i <? k + 8) && Z.testbit x i.
Proof.
  intros Hk Hi. unfold be_byte. rewrite Z.shiftl_spec by done. destruct (Z.leb_spec k i); [|by rewrite Z.testbit_neg_r by lia].
  rewrite wrap_testbit, Z.shiftr_spec by lia. replace (i - k + k) with i by lia. f_equal.
  destruct (Z.ltb_spec (i - k) 8), (Z.ltb_spec i (k + 8)); try done; lia.
Qed.

Lemma be24 x : in_range 24 x ->
  u32 (Z.lor (Z.lor (Z.shiftl (be_byte 16 x) 16) (Z.shiftl (be_byte 8 x) 8)) (Z.shiftl (be_byte 0 x) 0)) = x.
Proof.
  intros Hx. apply Z.bits_inj'. intros i Hi. rewrite wrap_testbit, !Z.lor_spec, !be_byte_bit by lia.
  destruct (Z.ltb_spec i 24); [|by rewrite (in_range_testbit_high 24 x i Hx), !andb_false_r by lia].
  replace (i <? 32) with true by lia. destruct (Z.testbit x i); [|by rewrite !andb_false_r]. rewrite !andb_true_r. cbn [andb].
  destruct (Z.leb_spec 16 i), (Z.ltb_spec i (16 + 8)), (Z.leb_spec 8 i), (Z.ltb_spec i (8 + 8)), (Z.leb_spec 0 i), (Z.ltb_spec i (0 + 8));
    try done; lia.
Qed.

Section read.
Context {W : Type} {CFG : BuildConfig} {MCH : Machine W} {HW : HollyWorld W} {EW : EventWorld W} {EL : EventWorldLaws W}.
Context {GW : GdromWorld W} {RW : RamWorld W} {RL : RamLaws W} {GL : GdromLaws W}.
Abbreviation sh4M := (M (Sh4 W)).
Implicit Types (s : Sh4 W) (g : gdrom_ctxt).

Lemma with_gdrom_same s : with_gdrom (gdrom_of s) s = s.
Proof. unfold with_gdrom, gdrom_of. rewrite gdrom_set_same. by destruct s. Qed.

Lemma read_sectors_loop_ok secs fad s :
  disc_holds (disc (world s)) fad secs -> 0 <= fad -> fad + Z.of_nat (length secs) < 2 ^ 32 ->
  read_sectors_loop (length secs) fad s =
    Ok (true, with_gdrom (upd_bufq (bufq (gdrom_of s) ++ sector_nodes secs) (gdrom_of s)) s).
Proof.
  revert fad s. induction secs as [|sec secs IH]; intros fad s Hd H0 Hf; cbn [length read_sectors_loop sector_nodes map] in *.
  { rewrite app_nil_r. replace (upd_bufq _ _) with (gdrom_of s) by by destruct (gdrom_of s). by rewrite with_gdrom_same. }
  pose proof (disc_holds_cons _ _ _ _ Hd) as Hd'. destruct Hd as [Hm (o & f & Ho & Hr & Hsec) _].
  assert (E : on_disc (mount_read_sectors fad 1) s = Ok (Some sec, s)).
  { unfold on_disc, mount_read_sectors, mount_check, img_op, bind, gets, ret. rewrite Hm, Ho, Hr, wrap_small by (unfold in_range; lia).
    replace (fad <? fad + 1) with true by lia. change (Z.to_nat 1) with 1%nat. cbn [read_sectors].
    specialize (Hsec 0%nat sec eq_refl). rewrite Z.add_0_r in Hsec. by rewrite Hsec, app_nil_r. }
  rewrite (bind_ok _ _ _ _ _ E). unfold bufq_push. gd_norm. rewrite wrap_small by (unfold in_range; lia).
  rewrite IH by (rewrite ?disc_with; done || lia). rewrite gdrom_with, with_gdrom_with. cbn [bufq upd_bufq].
  by rewrite <- app_assoc.
Qed.
Lemma pkt3_ok {B} i j l a b c (k : Z -> sh4M B) s :
  bind (pkt3 i j l a b c) k s =
    (let p := pkt_buf (gdrom_of s) in
     k (u32 (Z.lor (Z.lor (Z.shiftl (nth i p 0) a) (Z.shiftl (nth j p 0) b)) (Z.shiftl (nth l p 0) c))) s).
Proof. done. Qed.

(** the packet command queues the sectors, and starts the PIO transfer unless the DMA is selected *)
Lemma read_command fad secs s :
  pkt_buf (gdrom_of s) = read_packet fad (Z.of_nat (length secs)) -> in_range 24 fad -> Z.of_nat (length secs) < 2 ^ 21 ->
  disc_holds (disc (world s)) fad secs -> exists g,
  gdrom_input_packet s =
    when (negb (dma_enable (feat_reg (gdrom_of s)))) (gdrom_state_transfer_pio_read (2048 * Z.of_nat (length secs))) (with_gdrom g s) /\
  bufq g = sector_nodes secs /\ feat_reg g = feat_reg (gdrom_of s) /\ gd_regs g = gd_regs (gdrom_of s) /\ cmd_frame (gdrom_of s) g.
Proof.
  intros Hp Hf Hn Hd. assert (Hn24 : in_range 24 (Z.of_nat (length secs))) by (unfold in_range; lia).
  unfold in_range in Hf. eexists. unfold gdrom_input_packet, pkt. gd_norm.
  cbn [pkt_buf upd_stat_reg]. rewrite Hp. cbn [nth read_packet]. repeat closed_if. unfold gdrom_input_read_packet.
  rewrite !pkt3_ok. unfold pkt. cbv zeta. rewrite !gdrom_with. gd_norm. cbn [pkt_buf upd_stat_reg stat_reg]. rewrite Hp. cbn [nth read_packet].
  rewrite !be24 by done. change (negb (Z.shiftr 0x20 4 =? 2)) with false. change (negb (Z.land 0x20 1 =? 0)) with false. cbn [when].
  unfold bufq_clear. gd_norm. rewrite Nat2Z.id.
  rewrite (bind_ok _ _ _ _ _ (read_sectors_loop_ok secs fad _ ltac:(by rewrite disc_with) ltac:(lia) ltac:(lia))). cbv iota. gd_norm.
  unfold CDROM_FRAME_DATA_SIZE. rewrite wrap_small by (unfold in_range; lia). split; [done|]. by split_and!.
Qed.

(** ** The transfer with the DMA *)
(** the window that the protection register leaves open *)
Definition prot_top (r : Z) : Z := Z.lor (u32 (Z.shiftl (Z.shiftr (Z.land r 0x7f00) 8) 20)) 0x08000000.
Definition prot_bot (r : Z) : Z := Z.lor (u32 (Z.shiftl (Z.land r 0x7f) 20)) 0x080fffff.
Definition prot_open (r a len : Z) : Prop := prot_top r <= a /\ a + len - 1 <= prot_bot r.

Lemma complete_dma_loop_ok secs tr a s fuel :
  bufq (gdrom_of s) = sector_nodes secs -> Forall (fun sec => length sec = 2048%nat /\ Forall (in_range 8) sec) secs ->
  (length secs < fuel)%nat -> 0 <= tr -> tr + 2048 * Z.of_nat (length secs) < 2 ^ 32 ->
  (secs <> [] -> in_area3 a) -> a mod 4 = 0 -> a mod 2 ^ 24 + 2048 * Z.of_nat (length secs) <= 2 ^ 24 ->
  prot_open (gdapro_reg (gdrom_of s)) a (2048 * Z.of_nat (length secs)) -> exists s',
  complete_dma_loop fuel tr (tr + 2048 * Z.of_nat (length secs)) a s = Ok (tr + 2048 * Z.of_nat (length secs), s') /\
    gdrom_of s' = upd_bufq [] (gdrom_of s) /\ ram_of s' = store_bytes (a mod 2 ^ 24) (concat secs) (ram_of s) /\
    evclk_of s' = evclk_of s.
Proof.
  revert tr a s fuel. induction secs as [|sec secs IH]; intros tr a s fuel Hq Hsec Hfu Htr Htot Ha Hal Hfit Hpr; cbn [length concat] in *.
  { exists s. destruct fuel as [|fuel]; [lia|]. cbn [complete_dma_loop]. change (Z.of_nat 0) with 0. rewrite Z.add_0_r, Z.ltb_irrefl.
    split_and!; try done. change (sector_nodes []) with (@nil gdrom_bufq_node) in Hq. rewrite <- Hq. by destruct (gdrom_of s). }
  destruct fuel as [|fuel]; [lia|]. apply list.Forall_cons in Hsec as [[Hls Hbs] Hsec]. specialize (Ha ltac:(done)).
  set (n := Z.of_nat (length secs)) in *. replace (Z.of_nat (S (length secs))) with (n + 1) in * by lia.
  assert (0 <= n) by lia. destruct Hpr as [Hp1 Hp2]. cbn [complete_dma_loop].
  replace (tr <? tr + 2048 * (n + 1)) with true by lia. unfold bufq_pop. gd_norm. rewrite Hq. cbn [sector_nodes map]. gd_norm.
  change (nd_len (new_bufq_node CDROM_FRAME_DATA_SIZE sec)) with 2048. change (nd_dat (new_bufq_node CDROM_FRAME_DATA_SIZE sec)) with sec.
  rewrite (wrap_small 32 (2048 + tr)) by (unfold in_range; lia). replace (2048 + tr >? tr + 2048 * (n + 1)) with false by lia.
  unfold gdrom_dma_prot_top, gdrom_dma_prot_bot. gd_norm. cbn [gdapro_reg upd_bufq].
  fold (prot_top (gdapro_reg (gdrom_of s))) (prot_bot (gdapro_reg (gdrom_of s))).
  replace (a <? prot_top (gdapro_reg (gdrom_of s))) with false by lia. cbn [andb].
  assert (Hu : u32 (a + 2048) = a + 2048) by (apply wrap_small; destruct Ha; unfold SH4_AREA_P4_FIRST, in_range in *; lia).
  rewrite Hu, (wrap_small 32 (a + 2048 - 1)) by (destruct Ha; unfold SH4_AREA_P4_FIRST, in_range in *; lia).
  replace (a + 2048 - 1 >? prot_bot (gdapro_reg (gdrom_of s))) with false by lia. rewrite Hu, (wrap_small 32 (tr + 2048)) by (unfold in_range; lia).
  set (s1 := with_gdrom _ s).
  assert (Hblk : dma_block a (2048 * 1)) by (split_and!; [done|exact Hal|lia|lia]).
  rewrite (bind_ok _ _ _ _ _ (transfer_to_mem_ok a 2048 1 sec s1 Hblk ltac:(lia) Hbs)).
  change (Z.to_nat (2048 * 1)) with 2048%nat. rewrite firstn_all2 by lia. set (s2 := with_bus_ram _ s1).
  assert (E2 : gdrom_of s2 = upd_bufq (sector_nodes secs) (gdrom_of s)) by (etrans; [apply gdrom_ram|apply gdrom_with]).
  assert (R2 : ram_of s2 = store_bytes (a mod 2 ^ 24) sec (ram_of s)) by (unfold s2, s1; by rewrite ram_put, ram_with).
  assert (C2 : evclk_of s2 = evclk_of s) by (etrans; [apply gdrom_ram|apply evclk_with]).
  assert (Hnext : secs <> [] -> in_area3 (a + 2048) /\ (a + 2048) mod 2 ^ 24 = a mod 2 ^ 24 + 2048).
  { intros Hne. destruct secs as [|x l]; [done|]. destruct (area3_step a 2048 Ha ltac:(lia)) as (H1 & H2 & _); [cbn [length] in n; lia|done]. }
  destruct (IH (tr + 2048) (a + 2048) s2 fuel) as (s' & E & G & R & C); try done; try lia.
  - by rewrite E2.
  - intros Hne. by apply Hnext.
  - rewrite Z.add_mod, Hal by lia. done.
  - fold n. destruct secs as [|x l]; [|rewrite (proj2 (Hnext ltac:(done))); lia].
    change n with 0. pose proof (Z.mod_pos_bound (a + 2048) (2 ^ 24) ltac:(lia)). lia.
  - rewrite E2. split; cbn [gdapro_reg upd_bufq]; fold n; lia.
  - exists s'. fold n in E. replace (tr + 2048 * (n + 1)) with (tr + 2048 + 2048 * n) by lia. rewrite E. split; [done|].
    rewrite G, E2, R, R2, C, C2. split_and!; [by destruct (gdrom_of s)| |done].
    rewrite store_bytes_app, Hls. destruct secs as [|x l]; [done|]. by rewrite (proj2 (Hnext ltac:(done))).
Qed.
(** the drive has no event in the queue, and the clock has room for one *)
Record gd_idle (l : list Z) s : Prop := {
  gi_flag : gdrom_int_scheduled (gdrom_of s) = false;
  gi_clock : clock_ok (evclk_of s) l;
  gi_event : gdrom_int_raise_event ∉ l;
  gi_entry : is_Some (events (evclk_of s) !! gdrom_int_raise_event);
  gi_now : 0 <= clock_cycle_stamp (evclk_of s) < 2 ^ 63
}.
(** the drive's event is queued *)
Record gd_waiting (l : list Z) (w : Z) s : Prop := {
  gw_flag : gdrom_int_scheduled (gdrom_of s) = true;
  gw_clock : exists l', clock_ok (evclk_of s) l' /\ l' ≡ₚ gdrom_int_raise_event :: l;
  gw_stamp : stamp (events (evclk_of s)) gdrom_int_raise_event = w
}.

Lemma delayed_processing_ok l s : gd_idle l s -> exists s',
  gdrom_delayed_processing s = Ok (tt, s') /\ gdrom_of s' = upd_gdrom_int_scheduled true (gdrom_of s) /\
    ram_of s' = ram_of s /\ gd_waiting l (clock_cycle_stamp (evclk_of s) + GDROM_INT_DELAY) s'.
Proof.
  intros [Hf Hck Hev Hen Hn]. unfold gdrom_delayed_processing. gd_norm. rewrite Hf. cbn [negb when]. gd_norm.
  set (s1 := with_gdrom _ s). rewrite (bind_ok _ _ _ (clock_cycle_stamp (evclk_of s1)) s1 eq_refl).
  unfold s1 at 1. rewrite evclk_with. change GDROM_INT_DELAY with 5273437.
  rewrite wrap_small by (unfold in_range; lia).
  assert (Hw : clock_cycle_stamp (evclk_of s) <= clock_cycle_stamp (evclk_of s) + 5273437) by lia.
  destruct (sched_at_ok (evclk_of s) l gdrom_int_raise_event (clock_cycle_stamp (evclk_of s) + 5273437) Hck Hev Hen Hw)
    as (c' & l' & E & Hck' & Hl' & Hst & _).
  assert (E1 : sched_at gdrom_int_raise_event (clock_cycle_stamp (evclk_of s) + 5273437) (evclk_of s1) = Ok (tt, c'))
    by (unfold s1; by rewrite evclk_with).
  rewrite (on_evclk_ok _ _ _ _ E1). exists (with_evclk c' s1).
  assert (G : gdrom_of (with_evclk c' s1) = upd_gdrom_int_scheduled true (gdrom_of s)) by (etrans; [apply gdrom_clk|apply gdrom_with]).
  assert (C : evclk_of (with_evclk c' s1) = c') by apply evclk_set.
  split; [done|]. split; [exact G|]. split; [etrans; [apply gdrom_clk|apply ram_with]|].
  split; [by rewrite G|exists l'; by rewrite C|by rewrite C].
Qed.

Lemma gd_idle_with l g s : gdrom_int_scheduled g = false -> gd_idle l s -> gd_idle l (with_gdrom g s).
Proof. intros Hg [? ? ? ? ?]. split; rewrite ?gdrom_with, ?evclk_with; done. Qed.

Definition dma_read_program (fad n dst : Z) : sh4M unit :=
  gdrom_reg_write A8 0x5f7084 1 ;;
  gdrom_reg_write A8 0x5f709c GDROM_CMD_PKT ;;
  send_packet (read_packet fad n) ;;
  gdrom_gdstar_mmio_write 1 dst ;;
  gdrom_gdlen_mmio_write 2 (2048 * n) ;;
  gdrom_gdst_reg_write_handler 6 1.

Lemma read_packet_bytes fad n : Forall (in_range 8) (read_packet fad n).
Proof. repeat (apply list.Forall_cons; split; [by (apply wrap_range || vm_compute)|]). by apply list.Forall_nil. Qed.

(** the commands of the program, up to the transfer *)
Lemma send_read_ok v fad secs s :
  disc_holds (disc (world s)) fad secs -> in_range 24 fad -> Z.of_nat (length secs) < 2 ^ 21 ->
  length (pkt_buf (gdrom_of s)) = 12%nat -> load 3 0x9d (gd_regs (gdrom_of s)) = 0 -> exists g,
  (gdrom_reg_write A8 0x5f7084 v ;; gdrom_reg_write A8 0x5f709c GDROM_CMD_PKT ;;
   send_packet (read_packet fad (Z.of_nat (length secs)))) s =
    when (negb (Z.odd v)) (gdrom_state_transfer_pio_read (2048 * Z.of_nat (length secs))) (with_gdrom g s) /\
  bufq g = sector_nodes secs /\ cmd_frame (gdrom_of s) g.
Proof.
  intros Hd Hf Hn Hp Hr. destruct (write_feat v s) as (m & f & E1 & Hdma & H1). rewrite (bind_ok _ _ _ _ _ E1). set (s1 := with_gdrom _ s).
  destruct (write_packet_cmd s1) as (g2 & E2 & Hst & Hn2 & Hft & [F1 F2 F3 F4]).
  { unfold s1. rewrite gdrom_with. cbn [gd_regs upd_feat_reg upd_gd_regs]. by rewrite H1. }
  rewrite (bind_ok _ _ _ _ _ E2). unfold s1 in *. rewrite with_gdrom_with, gdrom_with in *. cbn in F1, F2, F3, F4, Hft.
  destruct (send_packet_ok (read_packet fad (Z.of_nat (length secs))) (with_gdrom g2 s)) as [m3 E3]; rewrite ?gdrom_with; try done.
  { by rewrite F4. } { apply read_packet_bytes. }
  rewrite E3, gdrom_with, with_gdrom_with. set (g3 := upd_n_bytes_received _ _).
  destruct (read_command fad secs (with_gdrom g3 s)) as (g4 & E4 & Hq & Hft4 & _ & [A1 A2 A3 A4]); rewrite ?gdrom_with, ?disc_with; try done.
  exists g4. rewrite E4, gdrom_with, with_gdrom_with. rewrite gdrom_with in A1, A2, A3, A4, Hft4. cbn in A1, A2, A3, A4.
  replace (dma_enable (feat_reg g3)) with (Z.odd v) by (cbn; by rewrite Hft). split; [done|]. split; [done|].
  split; congruence.
Qed.
Lemma bind3 {A} (m1 m2 m3 : sh4M unit) (k : unit -> sh4M A) s :
  bind m1 (fun _ => bind m2 (fun _ => bind m3 k)) s = bind (bind m1 (fun _ => bind m2 (fun _ => m3))) k s.
Proof. unfold bind. destruct (m1 s) as [[[] s1]|]; [|done]. destruct (m2 s1) as [[[] s2]|]; [|done]. done. Qed.

Lemma complete_dma_ok secs dst s :
  bufq (gdrom_of s) = sector_nodes secs -> Forall (fun sec => length sec = 2048%nat /\ Forall (in_range 8) sec) secs ->
  dma_start_addr_reg (gdrom_of s) = dst -> dma_len_reg (gdrom_of s) = 2048 * Z.of_nat (length secs) ->
  in_area3 dst -> dst mod 4 = 0 -> dst mod 2 ^ 24 + 2048 * Z.of_nat (length secs) <= 2 ^ 24 ->
  prot_open (gdapro_reg (gdrom_of s)) dst (2048 * Z.of_nat (length secs)) -> exists s',
  gdrom_complete_dma s = Ok (tt, s') /\
    gdrom_of s' = upd_dma_start_reg 0 (upd_gdlend_reg (2048 * Z.of_nat (length secs)) (upd_bufq [] (gdrom_of s))) /\
    ram_of s' = store_bytes (dst mod 2 ^ 24) (concat secs) (ram_of s) /\ evclk_of s' = evclk_of s.
Proof.
  intros Hq Hs Hd Hn Ha Hal Hf Hp. pose proof (Z.mod_pos_bound dst (2 ^ 24) ltac:(done)). unfold gdrom_complete_dma. gd_norm. rewrite Hd, Hn, Hq.
  destruct (complete_dma_loop_ok secs 0 dst s (S (length (sector_nodes secs)))) as (s1 & E & G & R & C); try done; try lia.
  { unfold sector_nodes. rewrite length_map. lia. }
  rewrite Z.add_0_l in E. rewrite (bind_ok _ _ _ _ _ E). gd_norm. unfold gd_mod, modify. eexists. split; [reflexivity|].
  by rewrite !gdrom_with, ram_with, ram_with, !evclk_with, G.
Qed.

(** the drive at rest, as its interrupt finds it *)
Definition gd_ready (g : gdrom_ctxt) : Prop :=
  gd_state g = GDROM_STATE_NORM /\ bsy (stat_reg g) = false /\ drq (stat_reg g) = false /\ drdy (stat_reg g) = true /\
  check (stat_reg g) = false /\ int_reason_reg g = {| cod := true; io := true |} /\ gdrom_int_scheduled g = false.

Lemma dma_event_ok s : gd_state (gdrom_of s) = GDROM_STATE_DMA_READING -> check (stat_reg (gdrom_of s)) = false -> exists s2,
  gd_ready (gdrom_of s2) /\ ram_of s2 = ram_of s /\ evclk_of s2 = evclk_of s /\
  post_delay_gdrom_delayed_processing s =
    (if nien (dev_ctrl_reg (gdrom_of s)) then Ok (tt, s2) else holly_raise_ext_int HOLLY_EXT_INT_GDROM s2).
Proof.
  intros Hst Hc. unfold post_delay_gdrom_delayed_processing, gdrom_raise_int, set_int_reason, set_state. gd_norm.
  cbn [gd_state upd_gdrom_int_scheduled]. rewrite Hst. gd_norm. eexists. split_and!; cycle -1.
  - cbn [dev_ctrl_reg upd_gd_state upd_stat_reg upd_int_reason_reg upd_gdrom_int_scheduled]. unfold when.
    destruct (nien (dev_ctrl_reg (gdrom_of s))); reflexivity.
  - rewrite gdrom_with. by split_and!.
  - apply ram_with.
  - apply evclk_with.
Qed.

(** C13: reading sectors with the DMA, from the program's first write to the data in memory.  The drive is idle, with no
    event queued ([gd_idle]).  The program selects the DMA, sends the READ packet for consecutive sectors that
    the disc has, sets the address (a multiple of 4 in any window and segment of the RAM, with room for the sectors in
    the window) and the length of the transfer, and starts it; the window of the
    protection register is open for the destination.  Then the sectors are in the RAM, in order and nowhere
    else; the length register has the bytes transferred; the drive is busy, and its event is queued
    [GDROM_INT_DELAY] cycles later.  When the event comes, whatever has happened to the rest of the machine,
    the drive is ready without an error, and it raises its interrupt unless the program has masked it. *)
Theorem gdrom_dma_read fad secs dst l s :
  disc_holds (disc (world s)) fad secs -> in_range 24 fad ->
  in_area3 dst -> dst mod 4 = 0 -> dst mod 2 ^ 24 + 2048 * Z.of_nat (length secs) <= 2 ^ 24 ->
  prot_open (gdapro_reg (gdrom_of s)) (Z.land dst 0x1fffffff) (2048 * Z.of_nat (length secs)) ->
  length (pkt_buf (gdrom_of s)) = 12%nat -> load 3 0x9d (gd_regs (gdrom_of s)) = 0 -> gd_idle l s ->
  exists s', dma_read_program fad (Z.of_nat (length secs)) dst s = Ok (tt, s') /\
    ram_of s' = store_bytes (dst mod 2 ^ 24) (concat secs) (ram_of s) /\
    gdlend_reg (gdrom_of s') = 2048 * Z.of_nat (length secs) /\ dma_start_reg (gdrom_of s') = 0 /\
    bsy (stat_reg (gdrom_of s')) = true /\
    gd_waiting l (clock_cycle_stamp (evclk_of s) + GDROM_INT_DELAY) s' /\
    forall s1, gdrom_of s1 = gdrom_of s' -> exists s2,
      gd_ready (gdrom_of s2) /\ ram_of s2 = ram_of s1 /\ evclk_of s2 = evclk_of s1 /\
      post_delay_gdrom_delayed_processing s1 =
        (if nien (dev_ctrl_reg (gdrom_of s)) then Ok (tt, s2) else holly_raise_ext_int HOLLY_EXT_INT_GDROM s2).
Proof.
  intros Hd Hfad Ha Hal Hfit Hp Hpk Hr Hidle. pose proof (Z.mod_pos_bound dst (2 ^ 24) ltac:(done)).
  set (n := Z.of_nat (length secs)) in *.
  destruct (send_read_ok 1 fad secs s Hd Hfad ltac:(lia) Hpk Hr) as (g & E & Hq & [F1 F2 F3 F4]). fold n in E.
  unfold dma_read_program. rewrite bind3. rewrite (bind_ok _ _ _ tt (with_gdrom g s) E).
  unfold gdrom_gdstar_mmio_write, gdrom_gdlen_mmio_write, gdrom_gdst_reg_write_handler, gdrom_start_dma. gd_norm.
  cbn [dma_start_reg upd_dma_start_reg]. change (truth 1) with true. cbn [when]. gd_norm. cbn [stat_reg upd_stat_reg upd_dma_start_reg upd_dma_len_reg upd_dma_start_addr_reg].
  change (not32 0xe0000000) with 0x1fffffff. set (g1 := upd_stat_reg _ _).
  destruct (area3_bus dst Ha) as [Ha' Hm'].
  assert (Hal' : Z.land dst 0x1fffffff mod 4 = 0) by (rewrite land_window, Z.mod_mod_divide by (by exists (2 ^ 27)); done).
  destruct (complete_dma_ok secs (Z.land dst 0x1fffffff) (with_gdrom g1 s)) as (s2 & E2 & G2 & R2 & C2);
    rewrite ?gdrom_with; try done; [exact (dh_secs _ _ _ Hd)|by rewrite Hm'|unfold g1; cbn; by rewrite F2|].
  rewrite (bind_ok _ _ _ _ _ E2). unfold set_state, gdrom_clear_error. gd_norm. rewrite G2, gdrom_with. fold n.
  set (g3 := upd_error_reg _ _).
  assert (Hi3 : gd_idle l (with_gdrom g3 s2)).
  { apply gd_idle_with; [by rewrite <- (gi_flag _ _ Hidle), <- F1|]. destruct Hidle as [? ? ? ? ?]. rewrite evclk_with in C2.
    split; rewrite ?C2; try done. rewrite G2, gdrom_with. unfold g1. cbn. congruence. }
  destruct (delayed_processing_ok l _ Hi3) as (s' & E3 & G3 & R3 & W3). exists s'. split; [exact E3|].
  rewrite gdrom_with in G3. rewrite ram_with, R2, ram_with, Hm' in R3. rewrite evclk_with, C2, evclk_with in W3. rewrite G3.
  split_and!; [done..|]. intros s1 H1. destruct (dma_event_ok s1) as (s4 & H4); [by rewrite H1|by rewrite H1|].
  exists s4. rewrite H1 in H4. cbn in H4. by rewrite F3 in H4.
Qed.
End read.

(** *** A machine with the RAM, the drive, a disc and the clock *)
Record gd_board : Type := { gb_ram : Memory; gb_drive : gdrom_ctxt; gb_disc : mount; gb_holly : holly_intc; gb_clk : dc_clock }.
#[export] Instance gd_board_ram : RamWorld gd_board := {|
  bus_ram := gb_ram;
  set_bus_ram := fun m b => {| gb_ram := m; gb_drive := gb_drive b; gb_disc := gb_disc b; gb_holly := gb_holly b; gb_clk := gb_clk b |}
|}.
#[export] Instance gd_board_drive : GdromWorld gd_board := {|
  gdrom := gb_drive;
  set_gdrom := fun g b => {| gb_ram := gb_ram b; gb_drive := g; gb_disc := gb_disc b; gb_holly := gb_holly b; gb_clk := gb_clk b |};
  disc := gb_disc;
  gdrom_int_raise_event := 1
|}.
#[export] Instance gd_board_holly : HollyWorld gd_board := {|
  holly := gb_holly;
  set_holly := fun h b => {| gb_ram := gb_ram b; gb_drive := gb_drive b; gb_disc := gb_disc b; gb_holly := h; gb_clk := gb_clk b |}
|}.
#[export] Instance gd_board_events : EventWorld gd_board := {|
  evclk := gb_clk;
  set_evclk := fun c b => {| gb_ram := gb_ram b; gb_drive := gb_drive b; gb_disc := gb_disc b; gb_holly := gb_holly b; gb_clk := c |}
|}.
Definition gd_map : memory_map (Sh4 gd_board) :=
  match add_ram_regions (ram_intf (ram_of (W := gd_board)) with_bus_ram) memory_map_init with
  | Ok (_, m) => m
  | Err _ => memory_map_init
  end.
#[export] Instance gd_machine : Machine gd_board := {|
  mem_map := gd_map; sched_refresh_intc := fun b => Ok b;
  dc_debugger_enabled := fun _ => false; debug_on_softbreak := fun _ _ => ret tt;
  fpu_inst := fun _ _ => raise ERROR_UNIMPLEMENTED
|}.
#[export] Instance gd_ram_laws : RamLaws gd_board.
Proof. apply ram_windows_laws; try done; [by intros []|by apply ram_on_bus_alone]. Qed.
#[export] Instance gd_event_laws : EventWorldLaws gd_board.
Proof. by split. Qed.
#[export] Instance gd_holly_laws : HollyWorldLaws gd_board.
Proof. by split. Qed.
#[export] Instance gd_laws : GdromLaws gd_board.
Proof. split; try done. by intros []. Qed.

Definition one_sector : list Z := 0x2a :: 0x2b :: replicate 2046 0.
Definition one_disc : mount :=
  {| mounted := true; img_state := Some 1;
     img_ops := Some {| session_count := Some 1; read_toc := None; cleanup := false;
                        read_sector := Some (fun fad => if fad =? 150 then Some one_sector else None) |} |}.
(** the drive after [gdrom_init], with the protection open for the RAM *)
Definition gd_cpu : Sh4 gd_board :=
  let c := cpu_with [] ∅ in
  {| reg := reg c; delayed_branch := false; delayed_branch_addr := 0; exec_state := SH4_EXEC_STATE_NORM;
     last_inst_type := SH4_GROUP_NONE; aborted_operation := false; sq := sq c; intc := idle_intc; fround := FE_TONEAREST;
     world := {| gb_ram := ∅; gb_drive := upd_gdapro_reg 0x8843407f gdrom_init; gb_disc := one_disc; gb_holly := no_masks; gb_clk := dma_clock |} |}.

Lemma one_disc_holds : disc_holds one_disc 150 [one_sector].
Proof.
  split; [done| |].
  - eexists _, _. split; [reflexivity|]. split; [reflexivity|]. intros [|i] sec; [by intros [= <-]|by intros ?].
  - apply list.Forall_singleton. split; [done|]. apply list.Forall_cons. split; [done|]. apply list.Forall_cons. split; [done|].
    apply list.Forall_forall. intros x Hx. apply elem_of_replicate in Hx as [-> _]. done.
Qed.

Lemma gd_cpu_idle : gd_idle [] gd_cpu.
Proof.
  split; [done| |by intros ?%elem_of_nil|by eexists|done].
  split; [|by vm_compute|by apply list.Forall_nil]. split_and!; [done|done|by apply list.NoDup_nil|constructor].
Qed.

Lemma gdrom_dma_read_witness :
  exists s', dma_read_program 150 1 0x8c002000 gd_cpu = Ok (tt, s') /\ load_bytes 3 0x2000 (ram_of s') = [0x2a; 0x2b; 0] /\
    gdlend_reg (gdrom_of s') = 2048.
Proof.
  destruct (gdrom_dma_read 150 [one_sector] 0x8c002000 [] gd_cpu) as (s' & E & R & G & _).
  - exact one_disc_holds.
  - done.
  - unfold in_area3. by vm_compute.
  - done.
  - by vm_compute.
  - split; by vm_compute.
  - done.
  - done.
  - exact gd_cpu_idle.
  - exists s'. split; [exact E|]. split; [rewrite R; by vm_compute|exact G].
Defined.
