(* ===== verification/GdromPio.v ===== *)
(** Reading a disc at the data register (src/libwashdc/hw/gdrom/gdrom.c): the chunks of a transfer as a step
    relation, in which the rest of the machine runs between the drive's own steps. *)
From stdpp Require Import gmap.
From S2P Require Import Prelude IntMath MemoryMap Memory Sh4State Board Sh4Core Sh4Excp Sched Sh4Exec.
From S2P Require Import Frame Sh4Irl Events Holly RamBus Dmac Mmio Mount GdromResponse Gdrom GdromRead.
Import memory_map memory sched.

(** what the rest of the machine does to the clock: it stays consistent and does not go back, and the event [e]
    stays in the queue with its stamp, or out of the queue *)
Record ev_kept (e : Z) (c c' : dc_clock) : Prop := {
  ek_now : clock_cycle_stamp c <= clock_cycle_stamp c';
  ek_entry : is_Some (events c !! e) -> is_Some (events c' !! e);
  ek_clock : forall l, clock_ok c l -> exists l', clock_ok c' l' /\ (e ∈ l' <-> e ∈ l);
  ek_stamp : stamp (events c') e = stamp (events c) e
}.
#[export] Instance ev_kept_preorder e : PreOrder (ev_kept e).
Proof.
  split.
  - intros c. split; [lia|done| |done]. intros l Hl. by exists l.
  - intros c1 c2 c3 [N1 E1 K1 S1] [N2 E2 K2 S2]. split; [lia|auto| |congruence]. intros l Hl. destruct (K1 l Hl) as (l2 & H2 & I2).
    destruct (K2 l2 H2) as (l3 & H3 & I3). exists l3. split; [done|]. by rewrite I3.
Qed.

(** the rest of the machine does not reach into the drive, and the refresh of the interrupt controller, which may
    be queued at any time, leaves the drive's event alone *)
Class GdromFrame (W : Type) `{!Machine W, !HollyWorld W, !EventWorld W, !GdromWorld W} : Prop := {
  frame_refresh : forall w w' : W, sched_refresh_intc w = Ok w' ->
    gdrom w' = gdrom w /\ ev_kept gdrom_int_raise_event (evclk w) (evclk w');
  frame_holly : forall h (w : W), gdrom (set_holly h w) = gdrom w /\ evclk (set_holly h w) = evclk w
}.

(** the bytes that a queue still has *)
Definition node_bytes (n : gdrom_bufq_node) : list Z :=
  take (Z.to_nat (nd_len n - nd_idx n)) (drop (Z.to_nat (nd_idx n)) (nd_dat n)).
Definition q_bytes (q : list gdrom_bufq_node) : list Z := concat (map node_bytes q).
Definition node_ok (n : gdrom_bufq_node) : Prop :=
  0 <= nd_idx n < nd_len n /\ nd_len n <= Z.of_nat (length (nd_dat n)) /\ Forall (in_range 8) (nd_dat n).

Lemma sector_nodes_ok secs : Forall (fun sec => length sec = 2048%nat /\ Forall (in_range 8) sec) secs ->
  Forall node_ok (sector_nodes secs) /\ q_bytes (sector_nodes secs) = concat secs.
Proof.
  induction 1 as [|sec secs [Hl Hb] _ [IH1 IH2]]; [by split|]. split.
  - apply list.Forall_cons. split; [|done]. split_and!; [done|done|cbn [nd_len nd_dat new_bufq_node]; unfold CDROM_FRAME_DATA_SIZE; lia|done].
  - unfold q_bytes in *. cbn [sector_nodes map concat]. unfold sector_nodes in IH2. rewrite IH2. f_equal.
    unfold node_bytes. cbn [nd_len nd_idx nd_dat new_bufq_node]. rewrite drop_0. apply firstn_all2. unfold CDROM_FRAME_DATA_SIZE. lia.
Qed.

Section pio.
Context {W : Type} {CFG : BuildConfig} {MCH : Machine W} {HW : HollyWorld W} {EW : EventWorld W} {EL : EventWorldLaws W}.
Context {GW : GdromWorld W} {RW : RamWorld W} {RL : RamLaws W} {GL : GdromLaws W} {GF : GdromFrame W} {HL : HollyWorldLaws W}.
Abbreviation sh4M := (M (Sh4 W)).
Implicit Types (s : Sh4 W) (g : gdrom_ctxt).

(** ** The data register *)
Lemma consume_ok s b bs : Forall node_ok (bufq (gdrom_of s)) -> q_bytes (bufq (gdrom_of s)) = b :: bs -> exists q,
  bufq_consume_byte s = Ok (Some b, with_gdrom (upd_bufq q (gdrom_of s)) s) /\ Forall node_ok q /\ q_bytes q = bs /\ in_range 8 b.
Proof.
  intros Hq Hb. unfold bufq_consume_byte. gd_norm. destruct (bufq (gdrom_of s)) as [|n q]; [done|].
  apply list.Forall_cons in Hq as [(Hi & Hl & Ht) Hq]. unfold q_bytes in Hb. cbn [map concat] in Hb.
  destruct (lookup_lt_is_Some_2 (nd_dat n) (Z.to_nat (nd_idx n)) ltac:(lia)) as [x Hx].
  assert (E : node_bytes n = x :: take (Z.to_nat (nd_len n - (nd_idx n + 1))) (drop (Z.to_nat (nd_idx n + 1)) (nd_dat n))).
  { unfold node_bytes. rewrite (drop_S _ _ _ Hx). replace (Z.to_nat (nd_len n - nd_idx n)) with (S (Z.to_nat (nd_len n - (nd_idx n + 1)))) by lia.
    rewrite firstn_cons. by replace (S (Z.to_nat (nd_idx n))) with (Z.to_nat (nd_idx n + 1)) by lia. }
  rewrite E in Hb. injection Hb as -> Hb. rewrite Hx. gd_norm. unfold gd_mod, modify, ret.
  assert (Hr : in_range 8 b) by (rewrite list.Forall_forall in Ht; by eapply Ht, list_elem_of_lookup_2).
  eexists. split; [reflexivity|]. destruct (Z.geb_spec (nd_idx n + 1) (nd_len n)).
  - split_and!; [done| |done]. rewrite <- Hb. replace (Z.to_nat (nd_len n - (nd_idx n + 1))) with 0%nat by lia. done.
  - split_and!; [|unfold q_bytes; cbn [map concat]; by rewrite <- Hb|done].
    apply list.Forall_cons. split; [|done]. split_and!; cbn [nd_idx nd_len nd_dat]; done || lia.
Qed.

Lemma read_data_loop_ok n bs rest s : length bs = n -> Forall node_ok (bufq (gdrom_of s)) -> q_bytes (bufq (gdrom_of s)) = bs ++ rest ->
  0 <= bytes_read (meta_read (gdrom_of s)) -> bytes_read (meta_read (gdrom_of s)) + Z.of_nat n <= data_byte_count (gdrom_of s) < 2 ^ 32 ->
  exists g, read_data_loop n s = Ok (bs, with_gdrom g s) /\ Forall node_ok (bufq g) /\ q_bytes (bufq g) = rest /\ Forall (in_range 8) bs /\
    exists q, g = upd_meta_read {| byte_count := byte_count (meta_read (gdrom_of s));
                                   bytes_read := bytes_read (meta_read (gdrom_of s)) + Z.of_nat n |} (upd_bufq q (gdrom_of s)).
Proof.
  revert bs s. induction n as [|n IH]; intros bs s Hl Hq Hb H0 Hc.
  { destruct bs; [|done]. exists (gdrom_of s). cbn [read_data_loop]. rewrite with_gdrom_same. split_and!; try done.
    exists (bufq (gdrom_of s)). change (Z.of_nat 0) with 0. rewrite Z.add_0_r. by destruct (gdrom_of s) as [? ? ? ? ? ? ? ? ? ? ? ? ? ? ? ? ? ? ? ? ? [] ? ? ? ?]. }
  destruct bs as [|b bs]; [done|]. cbn [app] in Hb. injection Hl as Hl. destruct (consume_ok s b _ Hq Hb) as (q & E & Hq' & Hb' & Hr).
  cbn [read_data_loop]. rewrite (bind_ok _ _ _ _ _ E). gd_norm. cbn [meta_read upd_bufq data_byte_count].
  rewrite wrap_small by (unfold in_range; lia). replace (bytes_read (meta_read (gdrom_of s)) <? data_byte_count (gdrom_of s)) with true by lia.
  edestruct (IH bs (with_gdrom (upd_meta_read {| byte_count := byte_count (meta_read (gdrom_of s)); bytes_read := bytes_read (meta_read (gdrom_of s)) + 1 |}
    (upd_bufq q (gdrom_of s))) s)) as (g & E2 & Hq2 & Hb2 & Ht2 & q2 & Hg); rewrite ?gdrom_with; try done; cbn; try lia.
  rewrite (bind_ok _ _ _ _ _ E2), with_gdrom_with. exists g. split_and!; try done; [by apply list.Forall_cons|].
  exists q2. rewrite Hg, gdrom_with.
  by replace (bytes_read (meta_read (gdrom_of s)) + Z.of_nat (S n)) with (bytes_read (meta_read (gdrom_of s)) + 1 + Z.of_nat n) by lia.
Qed.
(** what the end of a chunk makes of the drive *)
Definition chunk_end g : gdrom_ctxt :=
  if byte_count (meta_read g) =? 0 then
    upd_gd_state GDROM_STATE_NORM (upd_int_reason_reg {| cod := true; io := true |}
      (upd_stat_reg (upd_drdy true (upd_bsy false (upd_drq false (stat_reg g)))) g))
  else upd_gd_state GDROM_STATE_PIO_READ_DELAY (upd_stat_reg (upd_bsy true (upd_drq false (stat_reg g))) g).

Lemma end_of_chunk_eq s : bytes_read (meta_read (gdrom_of s)) <= data_byte_count (gdrom_of s) ->
  end_of_chunk s =
    if bytes_read (meta_read (gdrom_of s)) <? data_byte_count (gdrom_of s) then Ok (tt, s)
    else gdrom_delayed_processing (with_gdrom (chunk_end (gdrom_of s)) s).
Proof.
  intros Hc. unfold end_of_chunk, chunk_end. gd_norm. destruct (Z.ltb_spec (bytes_read (meta_read (gdrom_of s))) (data_byte_count (gdrom_of s))).
  - replace (_ =? data_byte_count _) with false by lia. by replace (_ >? data_byte_count _) with false by lia.
  - replace (_ =? data_byte_count _) with true by lia. destruct (byte_count (meta_read (gdrom_of s)) =? 0);
      unfold set_int_reason, set_state; gd_norm; by repeat f_equal; destruct (gdrom_of s).
Qed.

(** ** The drive's event *)

(** the flag agrees with the queue, and the event is not further away than the delay *)
Record pio_clock s : Prop := {
  pc_clock : exists l, clock_ok (evclk_of s) l /\ (gdrom_int_raise_event ∈ l <-> gdrom_int_scheduled (gdrom_of s) = true);
  pc_entry : is_Some (events (evclk_of s) !! gdrom_int_raise_event);
  pc_now : 0 <= clock_cycle_stamp (evclk_of s) < 2 ^ 63;
  pc_stamp : gdrom_int_scheduled (gdrom_of s) = true ->
    stamp (events (evclk_of s)) gdrom_int_raise_event <= clock_cycle_stamp (evclk_of s) + GDROM_INT_DELAY
}.

Lemma pio_clock_with g s : pio_clock s -> gdrom_int_scheduled g = gdrom_int_scheduled (gdrom_of s) -> pio_clock (with_gdrom g s).
Proof. intros [Hc He Hn Hs] Hf. by split; rewrite ?gdrom_with, ?evclk_with, ?Hf. Qed.
Lemma idle_clock l s : gd_idle l s -> pio_clock s.
Proof. intros [Hf Hc He Hen Hn]. split; rewrite ?Hf; try done. exists l. split; [done|]. by split. Qed.

(** scheduling the event succeeds, and the flag is all it changes in the drive *)
Lemma delayed_clock s : pio_clock s -> exists s',
  gdrom_delayed_processing s = Ok (tt, s') /\ gdrom_of s' = upd_gdrom_int_scheduled true (gdrom_of s) /\ pio_clock s'.
Proof.
  intros Hc. destruct (gdrom_int_scheduled (gdrom_of s)) eqn:Hf.
  { exists s. unfold gdrom_delayed_processing. gd_norm. rewrite Hf. split_and!; [done| |done]. rewrite <- Hf. by destruct (gdrom_of s). }
  destruct Hc as [(l & Hc & Hl) He Hn _]. rewrite Hf in Hl. unfold gdrom_delayed_processing. gd_norm. rewrite Hf. cbn [negb when]. gd_norm.
  set (s1 := with_gdrom _ s). assert (C1 : evclk_of s1 = evclk_of s) by apply evclk_with.
  rewrite (bind_ok _ _ _ (clock_cycle_stamp (evclk_of s1)) s1 eq_refl), C1. set (now := clock_cycle_stamp (evclk_of s)) in *.
  rewrite wrap_small by (change GDROM_INT_DELAY with 5273437; unfold in_range; lia).
  destruct (sched_at_ok (evclk_of s) l gdrom_int_raise_event (now + GDROM_INT_DELAY) Hc ltac:(by intros ?%Hl) He)
    as (c' & l' & E & Hc' & Hl' & Hst & Hnow & Hk); [change GDROM_INT_DELAY with 5273437; lia|].
  rewrite <- C1 in E. rewrite (on_evclk_ok _ _ _ _ E). exists (with_evclk c' s1). split; [done|].
  assert (G : gdrom_of (with_evclk c' s1) = upd_gdrom_int_scheduled true (gdrom_of s)) by (etrans; [apply gdrom_clk|apply gdrom_with]).
  split; [exact G|]. assert (C : evclk_of (with_evclk c' s1) = c') by apply evclk_set.
  split; rewrite ?C, ?G; [|by apply Hk|by rewrite Hnow|by rewrite Hst, Hnow].
  exists l'. split; [done|]. rewrite Hl'. split; [done|]. intros _. by apply elem_of_cons; left.
Qed.

(** the event is the next one: it leaves the queue, and the flag still says that it is queued *)
Lemma event_popped s s1 : pio_clock s -> on_evclk next_event_turn s = Ok (Some gdrom_int_raise_event, s1) ->
  gdrom_int_scheduled (gdrom_of s) = true /\ gdrom_of s1 = gdrom_of s /\ is_Some (events (evclk_of s1) !! gdrom_int_raise_event) /\
  0 <= clock_cycle_stamp (evclk_of s1) /\ exists l, clock_ok (evclk_of s1) l /\ gdrom_int_raise_event ∉ l.
Proof.
  intros [(l & Hc & Hl) He Hn Hs] H. unfold on_evclk in H. destruct (next_event_turn (evclk_of s)) as [[e c]|] eqn:E; [|done].
  injection H as -> <-. destruct l as [|e l].
  { destruct Hc as [Hq _ _]. unfold next_event_turn in E. rewrite (bind_ok _ _ _ (clock_target_stamp (evclk_of s)) (evclk_of s) eq_refl) in E.
    set (t := clock_target_stamp (evclk_of s)) in E. destruct (set_cycle_frame t (evclk_of s)) as (E1 & E2 & _ & _).
    rewrite (bind_ok _ _ _ tt (clock_set_cycle_stamp t (evclk_of s)) eq_refl) in E.
    assert (Hq1 : queue (clock_set_cycle_stamp t (evclk_of s)) []) by by eapply queue_ext.
    destruct (pop_event_empty_ok _ Hq1) as (c' & E' & _). by rewrite E' in E. }
  destruct (next_event_turn_ok (evclk_of s) e l Hc) as (c' & E' & Hc' & Hn' & _ & He'). rewrite E' in E. injection E as -> ->.
  assert (Ec : evclk_of (with_evclk c s) = c) by apply evclk_set. rewrite Ec. split_and!.
  - apply Hl, elem_of_cons. by left.
  - apply gdrom_clk.
  - by apply He'.
  - rewrite Hn'. destruct Hc as [_ _ Hf]. apply list.Forall_cons in Hf as [Hf _]. lia.
  - exists l. split; [done|]. destruct Hc as [(_ & _ & Hd & _) _ _]. by apply list.NoDup_cons in Hd as [? _].
Qed.

(** a word of the data register while the drive has one *)
Lemma read_word_eq b0 b1 rest s :
  gd_state (gdrom_of s) = GDROM_STATE_PIO_READING -> Forall node_ok (bufq (gdrom_of s)) ->
  q_bytes (bufq (gdrom_of s)) = b0 :: b1 :: rest -> 0 <= bytes_read (meta_read (gdrom_of s)) ->
  bytes_read (meta_read (gdrom_of s)) + 2 <= data_byte_count (gdrom_of s) < 2 ^ 32 -> exists q m,
  let g := upd_meta_read {| byte_count := byte_count (meta_read (gdrom_of s)); bytes_read := bytes_read (meta_read (gdrom_of s)) + 2 |}
             (upd_bufq q (upd_gd_regs m (gdrom_of s))) in
  gdrom_reg_read A16 0x5f7080 s =
    (end_of_chunk ;; gd_mod (fun g => upd_gd_regs (store_bytes 0x80 [b0; b1] (gd_regs g)) g) ;; ret (le_val [b0; b1])) (with_gdrom g s) /\
  Forall node_ok q /\ q_bytes q = rest /\ in_range 8 b0 /\ in_range 8 b1.
Proof.
  intros Hst Hq Hb H0 Hc. set (m := store 4 (4 * ATA_REG_RW_DATA) 0 (gd_regs (gdrom_of s))).
  destruct (read_data_loop_ok 2 [b0; b1] rest (with_gdrom (upd_gd_regs m (gdrom_of s)) s)) as (g & E & Hq' & Hb' & Ht & q & Hg);
    rewrite ?gdrom_with; try done.
  rewrite gdrom_with in Hg. exists q, m. cbv zeta. change (Z.of_nat 2) with 2 in Hg. cbn [meta_read upd_gd_regs] in Hg. rewrite <- Hg.
  apply list.Forall_cons in Ht as [Ht0 Ht]. apply list.Forall_cons in Ht as [Ht1 _]. subst g. split_and!; [|done..].
  unfold gdrom_reg_read. rewrite check_addr_ok by done. unfold gdrom_pre_read, put_reg. repeat closed_if.
  rewrite bind_assoc, aligned_ok by done. gd_norm. unfold gdrom_read_data. gd_norm. cbn [gd_state upd_gd_regs]. rewrite Hst.
  rewrite bool_decide_eq_true_2 by done. cbn [negb]. gd_norm. change (Z.to_nat (sizeof A16)) with 2%nat. fold m.
  rewrite (bind_ok _ _ _ _ _ E). rewrite with_gdrom_with. gd_norm.
  unfold bind at 1. unfold bind at 3. destruct (end_of_chunk _) as [[[] s1]|]; [|done]. gd_norm.
  unfold gd_get, gets, ret. rewrite gdrom_with. cbn [gd_regs upd_gd_regs]. change (4 * ATA_REG_RW_DATA) with 0x80.
  change (0x5f7080 - ADDR_GDROM_FIRST) with 0x80. rewrite load_le_val. change 2%nat with (length [b0; b1]). by rewrite load_store_bytes.
Qed.

(** the event of a transfer that has bytes to send, or none *)
Definition chunk_start g : gdrom_ctxt :=
  let n := byte_count (meta_read g) in
  let st := stat_reg g in
  if n =? 0 then
    upd_int_reason_reg {| cod := true; io := true |} (upd_stat_reg (upd_drdy true (upd_bsy false (upd_drq false st)))
      (upd_data_byte_count 0 (upd_gd_state GDROM_STATE_NORM (upd_meta_read {| byte_count := 0; bytes_read := 0 |}
         (upd_gdrom_int_scheduled false g)))))
  else
    let count := Z.min n 0x8000 in
    upd_int_reason_reg {| cod := false; io := true |} (upd_stat_reg (upd_bsy false (upd_drq true st))
      (upd_gd_state GDROM_STATE_PIO_READING (upd_meta_read {| byte_count := n - count; bytes_read := 0 |}
         (upd_data_byte_count count (upd_gdrom_int_scheduled false g))))).

Lemma pio_event_eq s : gd_state (gdrom_of s) = GDROM_STATE_PIO_READ_DELAY -> in_range 32 (byte_count (meta_read (gdrom_of s))) ->
  post_delay_gdrom_delayed_processing s = gdrom_raise_int (with_gdrom (chunk_start (gdrom_of s)) s).
Proof.
  intros Hst Hn. unfold post_delay_gdrom_delayed_processing, pio_chunk, chunk_start. gd_norm. cbn [gd_state upd_gdrom_int_scheduled].
  rewrite Hst. gd_norm. cbn [meta_read upd_gdrom_int_scheduled]. set (n := byte_count (meta_read (gdrom_of s))) in *. unfold in_range in Hn.
  destruct (Z.eqb_spec n 0) as [->|]; [|destruct (Z.gtb_spec n 0x8000)]; unfold set_state, set_int_reason; gd_norm;
    cbn [stat_reg upd_gd_state upd_stat_reg upd_data_byte_count upd_meta_read upd_gdrom_int_scheduled drq upd_bsy upd_drq]; gd_norm.
  - done.
  - rewrite Z.min_r by lia. rewrite wrap_small by (unfold in_range; lia). done.
  - rewrite Z.min_l, Z.sub_diag by lia. done.
Qed.
(** ** The transfer as a step relation *)

(** one step: the scheduler takes the drive's event from the queue and runs its handler; a word is read while the
    drive offers data (it is added to what the program has); or anything else that leaves the drive and its
    event alone, reads of the drive's other registers and the events of other devices included.  The clock stays
    below 2^63 (54 years). *)
Inductive pio_step : list Z * Sh4 W -> list Z * Sh4 W -> Prop :=
| pio_event out s s1 s' :
    on_evclk next_event_turn s = Ok (Some gdrom_int_raise_event, s1) -> post_delay_gdrom_delayed_processing s1 = Ok (tt, s') ->
    clock_cycle_stamp (evclk_of s') < 2 ^ 63 -> pio_step (out, s) (out, s')
| pio_read out s v s' :
    drq (stat_reg (gdrom_of s)) = true -> gdrom_reg_read A16 0x5f7080 s = Ok (v, s') -> pio_step (out, s) (out ++ le_bytes 2 v, s')
| pio_other out s s' m :
    gdrom_of s' = upd_gd_regs m (gdrom_of s) -> ev_kept gdrom_int_raise_event (evclk_of s) (evclk_of s') ->
    clock_cycle_stamp (evclk_of s') < 2 ^ 63 -> pio_step (out, s) (out, s').

(** where a transfer of the bytes [all] stands when the program has [out] *)
Record pio_inv (all out : list Z) g : Prop := {
  pi_rest : exists rest, all = out ++ rest /\ q_bytes (bufq g) = rest /\ Forall node_ok (bufq g) /\ Z.of_nat (length rest) mod 2 = 0 /\
    match gd_state g with
    | GDROM_STATE_PIO_READ_DELAY =>
        byte_count (meta_read g) = Z.of_nat (length rest) /\ gdrom_int_scheduled g = true /\ drq (stat_reg g) = false
    | GDROM_STATE_PIO_READING =>
        0 <= bytes_read (meta_read g) < data_byte_count g /\ data_byte_count g <= 0x8000 /\
        (data_byte_count g - bytes_read (meta_read g)) mod 2 = 0 /\ 0 <= byte_count (meta_read g) /\
        byte_count (meta_read g) + (data_byte_count g - bytes_read (meta_read g)) = Z.of_nat (length rest) /\
        gdrom_int_scheduled g = false /\ drq (stat_reg g) = true
    | GDROM_STATE_NORM => rest = [] /\ drq (stat_reg g) = false
    | _ => False
    end;
  pi_size : Z.of_nat (length all) < 2 ^ 32
}.

Lemma pio_inv_start all out rest g : all = out ++ rest -> q_bytes (bufq g) = rest -> Forall node_ok (bufq g) ->
  Z.of_nat (length rest) mod 2 = 0 -> gd_state g = GDROM_STATE_PIO_READ_DELAY -> byte_count (meta_read g) = Z.of_nat (length rest) ->
  Z.of_nat (length all) < 2 ^ 32 -> pio_inv all out (chunk_start g).
Proof.
  intros -> Hb Hq He Hst Hn Hs. split; [|done]. rewrite length_app in Hs. exists rest. unfold chunk_start. rewrite Hn.
  destruct (Z.eqb_spec (Z.of_nat (length rest)) 0) as [E|E]; cbn -[Z.of_nat Z.min]; split_and!; try done; try lia.
  - destruct rest; [done|cbn in E; lia].
  - rewrite Z.sub_0_r. destruct (Z.min_spec (Z.of_nat (length rest)) 0x8000) as [[_ ->]|[_ ->]]; done.
Qed.

Lemma pio_inv_end all out rest g : all = out ++ rest -> q_bytes (bufq g) = rest -> Forall node_ok (bufq g) ->
  0 <= byte_count (meta_read g) -> byte_count (meta_read g) = Z.of_nat (length rest) -> Z.of_nat (length rest) mod 2 = 0 ->
  Z.of_nat (length all) < 2 ^ 32 -> pio_inv all out (upd_gdrom_int_scheduled true (chunk_end g)).
Proof.
  intros -> Hb Hq H0 Hn He Hs. split; [|done]. exists rest. unfold chunk_end. rewrite Hn.
  destruct (Z.eqb_spec (Z.of_nat (length rest)) 0) as [E|E]; cbn -[Z.of_nat]; split_and!; try done.
  destruct rest; [done|cbn in E; lia].
Qed.

Lemma pio_inv_regs all out g m : pio_inv all out g -> pio_inv all out (upd_gd_regs m g).
Proof. intros [(rest & H) Hs]. split; [by exists rest|done]. Qed.
Lemma kept_clock s s' : pio_clock s -> ev_kept gdrom_int_raise_event (evclk_of s) (evclk_of s') ->
  gdrom_int_scheduled (gdrom_of s') = gdrom_int_scheduled (gdrom_of s) -> clock_cycle_stamp (evclk_of s') < 2 ^ 63 -> pio_clock s'.
Proof.
  intros [(l & Hc & Hl) He Hn Hs] [N E K S] Hf Hb. split; rewrite ?Hf, ?S; [|by apply E|lia|].
  - destruct (K l Hc) as (l' & Hc' & Hl'). exists l'. split; [done|]. by rewrite Hl'.
  - intros H. specialize (Hs H). lia.
Qed.

(** raising the interrupt leaves the drive and its event alone *)
Definition drive_kept (w w' : W) : Prop := gdrom w' = gdrom w /\ ev_kept gdrom_int_raise_event (evclk w) (evclk w').
#[local] Instance drive_kept_preorder : PreOrder drive_kept.
Proof.
  split; [by intros w|]. intros w1 w2 w3 [G1 K1] [G2 K2]. split; [congruence|by etransitivity].
Qed.
Lemma raise_int_inv s s' : gdrom_raise_int s = Ok (tt, s') -> drive_kept (world s) (world s').
Proof.
  unfold gdrom_raise_int. gd_norm. destruct (nien _); cbn [negb when]; [by intros [= <-]|]. intros H.
  change (holly_raise (inr HOLLY_EXT_INT_GDROM) s = Ok (tt, s')) in H. rewrite raise_eq in H.
  assert (Hh : forall h, drive_kept (world s) (world (with_holly h s))).
  { intros h. destruct (frame_holly h (world s)) as [Hg Hc]. split; [done|]. cbn [world with_holly with_world]. by rewrite Hc. }
  revert H. set (s1 := with_holly _ s). pose proof (Hh (int_raised (holly_of s) (inr HOLLY_EXT_INT_GDROM))) as H1. fold s1 in H1.
  destruct (int_irl _ _) as [irl|]; cbn [drive]; [|by intros [= <-]]. intros H. etransitivity; [exact H1|].
  exact (set_irl_interrupt_rel drive_kept (fun w w' E => frame_refresh w w' E) _ _ _ _ _ H).
Qed.

(** a word at the data register: the two bytes, and the drive after them *)
Lemma pio_read_ok all out s : pio_inv all out (gdrom_of s) -> pio_clock s -> gd_state (gdrom_of s) = GDROM_STATE_PIO_READING ->
  exists b0 b1 rest s', all = out ++ b0 :: b1 :: rest /\ le_bytes 2 (le_val [b0; b1]) = [b0; b1] /\
    gdrom_reg_read A16 0x5f7080 s = Ok (le_val [b0; b1], s') /\ pio_inv all (out ++ [b0; b1]) (gdrom_of s') /\ pio_clock s' /\
    gd_state (gdrom_of s') =
      if bytes_read (meta_read (gdrom_of s)) + 2 <? data_byte_count (gdrom_of s) then GDROM_STATE_PIO_READING
      else if bool_decide (rest = []) then GDROM_STATE_NORM else GDROM_STATE_PIO_READ_DELAY.
Proof.
  intros [(rest & Hall & Hb & Hq & He & Hm) Hsz] Hck Hst. rewrite Hst in Hm. destruct Hm as (Hr & Hc & Hev & Hbc & Hlen & Hfl & Hdrq).
  assert (H2 : 2 <= data_byte_count (gdrom_of s) - bytes_read (meta_read (gdrom_of s))) by (Z.div_mod_to_equations; lia).
  destruct rest as [|b0 [|b1 rest]]; [cbn in Hlen; lia|cbn in Hlen; lia|].
  destruct (read_word_eq b0 b1 rest s Hst Hq Hb ltac:(lia) ltac:(lia)) as (q & m & E & Hq' & Hb' & H0 & H1). cbv zeta in E.
  set (g1 := upd_meta_read _ _) in E.
  assert (Hle : le_bytes 2 (le_val [b0; b1]) = [b0; b1]) by (apply (le_bytes_val [b0; b1]); apply list.Forall_cons; split; [done|by apply list.Forall_singleton]).
  assert (Hall' : all = (out ++ [b0; b1]) ++ rest) by by rewrite <- app_assoc.
  assert (Hl2 : Z.of_nat (length rest) + 2 = Z.of_nat (length (b0 :: b1 :: rest))) by (cbn [length]; lia). rewrite <- Hl2 in *.
  assert (He' : Z.of_nat (length rest) mod 2 = 0) by (Z.div_mod_to_equations; lia).
  assert (Hend : bytes_read (meta_read g1) = bytes_read (meta_read (gdrom_of s)) + 2 /\ data_byte_count g1 = data_byte_count (gdrom_of s) /\
    byte_count (meta_read g1) = byte_count (meta_read (gdrom_of s)) /\ gdrom_int_scheduled g1 = gdrom_int_scheduled (gdrom_of s)) by done.
  destruct Hend as (B1 & B2 & B3 & B4).
  pose proof (end_of_chunk_eq (with_gdrom g1 s)) as Ee. rewrite gdrom_with, B1, B2, with_gdrom_with in Ee. specialize (Ee ltac:(lia)).
  destruct (Z.ltb_spec (bytes_read (meta_read (gdrom_of s)) + 2) (data_byte_count (gdrom_of s))) as [Hlt|Hge].
  - rewrite (bind_ok _ _ _ _ _ Ee) in E. revert E. gd_norm. intros E. eexists b0, b1, rest, _. split_and!; [done|done|exact E|..].
    + rewrite gdrom_with. apply pio_inv_regs. split; [|done]. exists rest. unfold g1. cbn -[Z.of_nat le_val]. rewrite Hst.
      split_and!; try done; try lia. Z.div_mod_to_equations; lia.
    + by apply pio_clock_with.
    + by rewrite gdrom_with.
  - assert (Hbc' : byte_count (meta_read g1) = Z.of_nat (length rest)) by lia.
    pose proof (pio_inv_end all (out ++ [b0; b1]) rest g1 Hall' Hb' Hq' ltac:(lia) Hbc' He' Hsz) as Hinv.
    destruct (delayed_clock (with_gdrom (chunk_end g1) s)) as (s1 & E1 & G1 & C1).
    { apply pio_clock_with; [done|]. unfold chunk_end. by destruct (_ =? 0). }
    rewrite gdrom_with in G1. rewrite E1 in Ee. rewrite (bind_ok _ _ _ _ _ Ee) in E. revert E. gd_norm. intros E.
    eexists b0, b1, rest, _. split_and!; [done|done|exact E|..].
    + rewrite gdrom_with, G1. by apply pio_inv_regs.
    + by apply pio_clock_with.
    + rewrite gdrom_with, G1. unfold chunk_end. rewrite Hbc'. destruct rest as [|b rest]; [done|].
      rewrite bool_decide_eq_false_2 by done. by destruct (Z.eqb_spec (Z.of_nat (length (b :: rest))) 0) as [E0|]; [cbn in E0; lia|].
Qed.

(** the handler, after the event has left the queue *)
Lemma event_inv all out s s1 s' : pio_inv all out (gdrom_of s) -> pio_clock s ->
  on_evclk next_event_turn s = Ok (Some gdrom_int_raise_event, s1) -> post_delay_gdrom_delayed_processing s1 = Ok (tt, s') ->
  clock_cycle_stamp (evclk_of s') < 2 ^ 63 -> pio_inv all out (gdrom_of s') /\ pio_clock s'.
Proof.
  intros Hi Hc Hpop Hev Hb. destruct (event_popped s s1 Hc Hpop) as (Hfl & G1 & He1 & Hn1 & l & Hc1 & Hl1).
  assert (H : exists g, post_delay_gdrom_delayed_processing s1 = gdrom_raise_int (with_gdrom g s1) /\ pio_inv all out g /\ gdrom_int_scheduled g = false).
  { pose proof Hi as [(rest & Hall & Hbs & Hq & He & Hm) Hsz]. destruct (gd_state (gdrom_of s)) eqn:Hst; try done.
    - exists (upd_gdrom_int_scheduled false (gdrom_of s)). split_and!; [|split; [|done]|done].
      + unfold post_delay_gdrom_delayed_processing. gd_norm. cbn [gd_state upd_gdrom_int_scheduled]. by rewrite G1, Hst.
      + exists rest. cbn [bufq upd_gdrom_int_scheduled gd_state stat_reg]. by rewrite Hst.
    - destruct Hm as (Hn & _ & _). exists (chunk_start (gdrom_of s)). split_and!; [|by apply pio_inv_start with rest|].
      + rewrite <- G1. apply pio_event_eq; rewrite G1; [done|]. rewrite Hn. subst all. rewrite length_app in Hsz. unfold in_range. lia.
      + unfold chunk_start. by destruct (_ =? 0).
    - destruct Hm as (_ & _ & _ & _ & _ & Hf & _). congruence. }
  destruct H as (g & E & Hg & Hgf). rewrite E in Hev. apply raise_int_inv in Hev as [Hg' Hk].
  change (gdrom_of s' = gdrom_of (with_gdrom g s1)) in Hg'. rewrite gdrom_with in Hg'. split; [by rewrite Hg'|].
  apply (kept_clock (with_gdrom g s1)); [|done|by rewrite gdrom_with, Hg'|done].
  destruct Hk as [N _ _ _]. fold (evclk_of s') in N. fold (evclk_of (with_gdrom g s1)) in N. rewrite evclk_with in N.
  split; rewrite ?gdrom_with, ?evclk_with, ?Hgf; [|done|lia|done]. exists l. by split; [|split].
Qed.

Lemma pio_step_inv all x y : pio_step x y -> pio_inv all (fst x) (gdrom_of (snd x)) -> pio_clock (snd x) ->
  pio_inv all (fst y) (gdrom_of (snd y)) /\ pio_clock (snd y).
Proof.
  intros Hs Hi Hc. destruct Hs as [out s s1 s' Hpop Hev Hb|out s v s' Hdrq Hrd|out s s' m Hm Hk Hb]; cbn [fst snd] in *.
  - by eapply event_inv.
  - pose proof Hi as [(rest & _ & _ & _ & _ & Hm) _]. destruct (gd_state (gdrom_of s)) eqn:Hst; try done.
    + destruct Hm as [_ Hm]. congruence.
    + destruct Hm as (_ & _ & Hm). congruence.
    + destruct (pio_read_ok all out s Hi Hc Hst) as (b0 & b1 & rest' & s2 & _ & Hle & E & Hi' & Hc' & _). rewrite E in Hrd.
      assert (v = le_val [b0; b1] /\ s' = s2) as [-> ->] by (split; congruence). by rewrite Hle.
  - split; [rewrite Hm; by apply pio_inv_regs|]. apply (kept_clock s); [done|done|by rewrite Hm|done].
Qed.
Lemma pio_steps_inv all x y : rtc pio_step x y -> pio_inv all (fst x) (gdrom_of (snd x)) -> pio_clock (snd x) ->
  pio_inv all (fst y) (gdrom_of (snd y)) /\ pio_clock (snd y).
Proof. induction 1 as [|x y z Hxy _ IH]; [done|]. intros Hi Hc. destruct (pio_step_inv all x y Hxy Hi Hc). by apply IH. Qed.

Definition pio_read_program (fad n : Z) : sh4M unit :=
  gdrom_reg_write A8 0x5f7084 0 ;;
  gdrom_reg_write A8 0x5f709c GDROM_CMD_PKT ;;
  send_packet (read_packet fad n).

Lemma transfer_pio_read_ok l n s : gd_idle l s -> exists s',
  gdrom_state_transfer_pio_read n s = Ok (tt, s') /\ gd_waiting l (clock_cycle_stamp (evclk_of s) + GDROM_INT_DELAY) s' /\
  gdrom_of s' = upd_gdrom_int_scheduled true (upd_error_reg error_none
    (upd_stat_reg (upd_check false (upd_drq false (upd_bsy true (stat_reg (gdrom_of s)))))
      (upd_meta_read {| byte_count := n; bytes_read := bytes_read (meta_read (gdrom_of s)) |}
        (upd_gd_state GDROM_STATE_PIO_READ_DELAY (gdrom_of s))))) /\ pio_clock s'.
Proof.
  intros Hi. unfold gdrom_state_transfer_pio_read, set_state, gdrom_clear_error. gd_norm.
  set (g := upd_error_reg _ _). destruct (delayed_processing_ok l (with_gdrom g s)) as (s' & E & G & _ & Hw).
  { apply gd_idle_with; [|done]. by rewrite <- (gi_flag _ _ Hi). }
  exists s'. split; [done|]. rewrite evclk_with in Hw. split; [done|]. split; [by rewrite G, gdrom_with|].
  destruct (delayed_clock (with_gdrom g s)) as (s1 & E1 & _ & C1); [apply pio_clock_with; [by eapply idle_clock|done]|].
  rewrite E in E1. by injection E1 as ->.
Qed.

(** where a transfer of the sectors begins *)
Lemma pio_inv_begin secs g : Forall (fun sec => length sec = 2048%nat /\ Forall (in_range 8) sec) secs -> Z.of_nat (length secs) < 2 ^ 21 ->
  bufq g = sector_nodes secs -> gd_state g = GDROM_STATE_PIO_READ_DELAY -> byte_count (meta_read g) = 2048 * Z.of_nat (length secs) ->
  gdrom_int_scheduled g = true -> drq (stat_reg g) = false -> pio_inv (concat secs) [] g.
Proof.
  intros Hs Hn Hq Hst Hbc Hfl Hdrq. destruct (sector_nodes_ok secs Hs) as [Hok Hby].
  assert (Hlen : Z.of_nat (length (concat secs)) = 2048 * Z.of_nat (length secs)).
  { clear -Hs. induction Hs as [|sec secs [Hl _] _ IH]; [done|]. cbn [concat length].
    rewrite length_app, Nat2Z.inj_add, Hl, IH. change (Z.of_nat 2048) with 2048. lia. }
  split; [|lia]. exists (concat secs). rewrite Hq, Hst. split_and!; try done; [|lia]. rewrite Hlen. Z.div_mod_to_equations; lia.
Qed.

Lemma chunk_start_spec (rest : list Z) g : byte_count (meta_read g) = Z.of_nat (length rest) ->
  data_byte_count (chunk_start g) = Z.min (Z.of_nat (length rest)) 0x8000 /\ bytes_read (meta_read (chunk_start g)) = 0 /\
  gd_state (chunk_start g) = if bool_decide (rest = []) then GDROM_STATE_NORM else GDROM_STATE_PIO_READING.
Proof.
  intros Hn. unfold chunk_start. rewrite Hn. destruct rest as [|b rest]; [done|]. rewrite bool_decide_eq_false_2 by done.
  by destruct (Z.eqb_spec (Z.of_nat (length (b :: rest))) 0) as [E|]; [cbn in E; lia|].
Qed.

(** C14: reading sectors at the data register.  The drive is idle; the program deselects the DMA and sends the READ
    packet for consecutive sectors that the disc has, fewer than 2^21 of them.  From then on its words, the
    drive's events and whatever the rest of the machine does may follow each other in any order, as long as the program
    reads a 16-bit word only while the drive offers data, and the rest of the machine leaves the drive and its
    event in the queue alone.  At any time the bytes that the program has are the first ones of the sectors, in
    order, and the transfer never gets stuck or into another state of the drive.  Either the drive's
    event is in the queue, due within [GDROM_INT_DELAY] cycles, and its handler, whatever has happened to the
    rest of the machine, offers a chunk of all the bytes that are left, but at most 0x8000, or ends a transfer of
    none; or a chunk of at most 0x8000 bytes is offered, and the next word read is the next two bytes, after which the
    chunk goes on, or the transfer has ended, or the drive waits for the next chunk; or the drive is at rest, and the
    program has every byte. *)
Theorem gdrom_pio_read fad secs l s :
  disc_holds (disc (world s)) fad secs -> in_range 24 fad -> Z.of_nat (length secs) < 2 ^ 21 ->
  length (pkt_buf (gdrom_of s)) = 12%nat -> load 3 0x9d (gd_regs (gdrom_of s)) = 0 -> gd_idle l s ->
  exists s0, pio_read_program fad (Z.of_nat (length secs)) s = Ok (tt, s0) /\
    gd_waiting l (clock_cycle_stamp (evclk_of s) + GDROM_INT_DELAY) s0 /\
    forall out s', rtc pio_step ([], s0) (out, s') -> exists rest, concat secs = out ++ rest /\
      let now := clock_cycle_stamp (evclk_of s') in
      let count := data_byte_count (gdrom_of s') in
      let pos := bytes_read (meta_read (gdrom_of s')) in
      match gd_state (gdrom_of s') with
      | GDROM_STATE_PIO_READ_DELAY =>
          (exists l', clock_ok (evclk_of s') l' /\ gdrom_int_raise_event ∈ l') /\
          now <= stamp (events (evclk_of s')) gdrom_int_raise_event <= now + GDROM_INT_DELAY /\
          forall s1, gdrom_of s1 = gdrom_of s' -> exists s2, post_delay_gdrom_delayed_processing s1 = gdrom_raise_int s2 /\
            data_byte_count (gdrom_of s2) = Z.min (Z.of_nat (length rest)) 0x8000 /\ bytes_read (meta_read (gdrom_of s2)) = 0 /\
            gd_state (gdrom_of s2) = if bool_decide (rest = []) then GDROM_STATE_NORM else GDROM_STATE_PIO_READING
      | GDROM_STATE_PIO_READING =>
          drq (stat_reg (gdrom_of s')) = true /\ 0 <= pos < count /\ count <= 0x8000 /\
          exists b0 b1 rest' s2, rest = b0 :: b1 :: rest' /\ gdrom_reg_read A16 0x5f7080 s' = Ok (le_val [b0; b1], s2) /\
            gd_state (gdrom_of s2) =
              if pos + 2 <? count then GDROM_STATE_PIO_READING
              else if bool_decide (rest' = []) then GDROM_STATE_NORM else GDROM_STATE_PIO_READ_DELAY
      | GDROM_STATE_NORM => rest = []
      | _ => False
      end.
Proof.
  intros Hd Hf Hn Hp Hr Hidle. destruct (send_read_ok 0 fad secs s Hd Hf Hn Hp Hr) as (g & E & Hq & [F1 _ _ _]).
  change (negb (Z.odd 0)) with true in E. cbn [when] in E.
  destruct (transfer_pio_read_ok l (2048 * Z.of_nat (length secs)) (with_gdrom g s)) as (s0 & E0 & Hw & G0 & C0).
  { apply gd_idle_with; [by rewrite F1; apply Hidle|done]. }
  rewrite evclk_with in Hw. exists s0. unfold pio_read_program. rewrite E. split; [done|]. split; [done|]. intros out s' Hst.
  assert (Hi0 : pio_inv (concat secs) [] (gdrom_of s0)) by (rewrite G0, gdrom_with; by apply pio_inv_begin; [apply (dh_secs _ _ _ Hd)|..]).
  destruct (pio_steps_inv _ _ _ Hst Hi0 C0) as [Hi Hc]. cbn [fst snd] in Hi, Hc.
  pose proof Hi as [(rest & Hall & Hb & Hqo & He & Hm) Hsz]. exists rest. split; [done|]. cbn zeta.
  destruct (gd_state (gdrom_of s')) eqn:Est; try done.
  - by destruct Hm.
  - destruct Hm as (Hbc & Hfl & Hdrq). destruct Hc as [(l' & Hc & Hl) _ _ Hs]. pose proof (proj2 Hl Hfl) as Hin.
    split_and!; [by exists l'| |by apply Hs|].
    + destruct Hc as [_ _ Hfu]. rewrite list.Forall_forall in Hfu. by apply Hfu.
    + intros s1 G1. eexists. split; [apply pio_event_eq; rewrite G1; [done|]|].
      * rewrite Hbc. apply (f_equal length) in Hall. rewrite length_app in Hall. unfold in_range. lia.
      * rewrite gdrom_with, G1. by apply chunk_start_spec.
  - destruct Hm as (Hpos & Hcnt & _ & _ & _ & _ & Hdrq). split_and!; [done|lia|lia|done|].
    destruct (pio_read_ok _ out s' Hi Hc Est) as (b0 & b1 & rest' & s2 & Hall' & _ & E2 & _ & _ & H). exists b0, b1, rest', s2.
    rewrite Hall' in Hall. by apply app_inv_head in Hall.
Qed.
End pio.

#[local] Instance gd_frame : GdromFrame gd_board.
Proof. split; [by intros w w' [= <-]|done]. Qed.

Lemma gdrom_pio_read_witness :
  exists s0, pio_read_program 150 1 gd_cpu = Ok (tt, s0) /\
    forall out s', rtc pio_step ([], s0) (out, s') -> exists rest, one_sector = out ++ rest.
Proof.
  destruct (gdrom_pio_read 150 [one_sector] [] gd_cpu) as (s0 & E & _ & H);
    [exact one_disc_holds|done|done|done|done|exact gd_cpu_idle|].
  exists s0. split; [exact E|]. intros out s' Hs. destruct (H out s' Hs) as (rest & Hr & _). exists rest. exact Hr.
Defined.
