(* ===== verification/Maple.v ===== *)
(** The Maple bus, to which the controllers are connected (src/libwashdc/hw/maple/: maple.c, maple.h,
    maple_device.c, maple_device.h, maple_controller.c, maple_controller.h, maple_reg.c).

    The program writes a list of command frames to RAM and starts the bus's DMA; for each frame the
    code reads the command from RAM, asks the device, and writes the reply to the address that the
    frame names; the end is an event on the clock that raises an interrupt.

    A pointer to a device is its port and unit; the pointer [sw] to a table of functions is the name
    of the table, and there is one, the controller's.  The loop over the frames takes a bound. *)
From stdpp Require Import gmap strings.
From S2P Require Import Prelude IntMath MemoryMap Memory Sh4State Board Sh4Core Sh4Excp Sched Sh4Exec.
From S2P Require Import Mmio Frame Sh4Irl Events Holly RamBus Dmac.
Import memory_map memory sched.

(** ** maple_controller.h, maple_device.h *)
Definition MAPLE_CONT_BTN_C_MASK : Z := Z.shiftl 1 0.
Definition MAPLE_CONT_BTN_B_MASK : Z := Z.shiftl 1 1.
Definition MAPLE_CONT_BTN_A_MASK : Z := Z.shiftl 1 2.
Definition MAPLE_CONT_BTN_START_MASK : Z := Z.shiftl 1 3.
Definition MAPLE_CONT_BTN_DPAD_UP_MASK : Z := Z.shiftl 1 4.
Definition MAPLE_CONT_BTN_DPAD_DOWN_MASK : Z := Z.shiftl 1 5.
Definition MAPLE_CONT_BTN_DPAD_LEFT_MASK : Z := Z.shiftl 1 6.
Definition MAPLE_CONT_BTN_DPAD_RIGHT_MASK : Z := Z.shiftl 1 7.
Definition MAPLE_CONT_BTN_Z_MASK : Z := Z.shiftl 1 8.
Definition MAPLE_CONT_BTN_Y_MASK : Z := Z.shiftl 1 9.
Definition MAPLE_CONT_BTN_X_MASK : Z := Z.shiftl 1 10.
Definition MAPLE_CONT_BTN_D_MASK : Z := Z.shiftl 1 11.
Definition MAPLE_CONT_BTN_DPAD2_UP_MASK : Z := Z.shiftl 1 12.
Definition MAPLE_CONT_BTN_DPAD2_DOWN_MASK : Z := Z.shiftl 1 13.
Definition MAPLE_CONT_BTN_DPAD2_LEFT_MASK : Z := Z.shiftl 1 14.
Definition MAPLE_CONT_BTN_DPAD2_RIGHT_MASK : Z := Z.shiftl 1 15.

Definition MAPLE_CONTROLLER_AXIS_R_TRIG : Z := 0.
Definition MAPLE_CONTROLLER_AXIS_L_TRIG : Z := 1.
Definition MAPLE_CONTROLLER_AXIS_JOY1_X : Z := 2.
Definition MAPLE_CONTROLLER_AXIS_JOY1_Y : Z := 3.
Definition MAPLE_CONTROLLER_AXIS_JOY2_X : Z := 4.
Definition MAPLE_CONTROLLER_AXIS_JOY2_Y : Z := 5.
Definition MAPLE_CONTROLLER_N_AXES : Z := 6.

Record maple_controller : Type := { btns : Z; axes : list Z }.

Definition MAPLE_FUNC_CONTROLLER : Z := 0x01000000.
Definition MAPLE_DEV_NAME_LEN : Z := 30.
Definition MAPLE_DEV_LICENSE_LEN : Z := 60.
Definition MAPLE_DEVINFO_SIZE : Z := 4 + 4 * 3 + 1 + 1 + MAPLE_DEV_NAME_LEN + MAPLE_DEV_LICENSE_LEN + 2 + 2.
Definition MAPLE_COND_SIZE : Z := 4 + 2 + 1 * 6.

Record maple_devinfo : Type := {
  di_func : Z; di_func_data : list Z; di_area_code : Z; di_dir : Z;
  di_dev_name : list Z; di_license : list Z; di_standby_power : Z; di_max_power : Z
}.
Record maple_cond : Type := {
  co_func : Z; co_btn : Z; co_trig_r : Z; co_trig_l : Z; co_js_x : Z; co_js_y : Z; co_js_x2 : Z; co_js_y2 : Z
}.

Inductive maple_device_type : Type := MAPLE_DEVICE_CONTROLLER.
#[export] Instance maple_device_type_eq_dec : EqDecision maple_device_type.
Proof. solve_decision. Defined.
Inductive maple_switch_table : Type := maple_controller_switch_table.

Record maple_device : Type := {
  sw : option maple_switch_table;
  tp : maple_device_type;
  enable : bool;
  cont : maple_controller
}.

(** ** maple.h *)
Definition MAPLE_RESP_NONE : Z := -1.
Definition MAPLE_RESP_DEVINFO : Z := 5.
Definition MAPLE_RESP_DATATRF : Z := 8.
Definition MAPLE_CMD_DEVINFO : Z := 1.
Definition MAPLE_CMD_GETCOND : Z := 9.
Definition MAPLE_PORT_COUNT : Z := 4.
Definition MAPLE_UNIT_COUNT : Z := 6.

(** the parts of the two buffers that are filled *)
Record maple_frame : Type := {
  fr_port : Z; fr_ptrn : Z; recv_addr : Z; last_frame : bool; fr_cmd : Z; maple_addr : Z; pack_len : Z;
  input_len : Z; input_data : list Z; output_len : Z; output_data : list Z
}.
Definition upd_input (dat : list Z) (f : maple_frame) : maple_frame :=
  {| fr_port := fr_port f; fr_ptrn := fr_ptrn f; recv_addr := recv_addr f; last_frame := last_frame f; fr_cmd := fr_cmd f;
     maple_addr := maple_addr f; pack_len := pack_len f; input_len := input_len f; input_data := dat;
     output_len := output_len f; output_data := output_data f |}.
Definition upd_output (len : Z) (dat : list Z) (f : maple_frame) : maple_frame :=
  {| fr_port := fr_port f; fr_ptrn := fr_ptrn f; recv_addr := recv_addr f; last_frame := last_frame f; fr_cmd := fr_cmd f;
     maple_addr := maple_addr f; pack_len := pack_len f; input_len := input_len f; input_data := input_data f;
     output_len := len; output_data := dat |}.

(** ** maple.c: masks *)
Definition MAPLE_LENGTH_SHIFT : Z := 0.
Definition MAPLE_LENGTH_MASK : Z := Z.shiftl 0xff MAPLE_LENGTH_SHIFT.
Definition MAPLE_PORT_SHIFT : Z := 16.
Definition MAPLE_PORT_MASK : Z := Z.shiftl 0x3 MAPLE_PORT_SHIFT.
Definition MAPLE_PTRN_SHIFT : Z := 8.
Definition MAPLE_PTRN_MASK : Z := Z.shiftl 0x7 MAPLE_PTRN_SHIFT.
Definition MAPLE_LAST_SHIFT : Z := 31.
Definition MAPLE_LAST_MASK : Z := Z.shiftl 1 MAPLE_LAST_SHIFT.
Definition MAPLE_CMD_SHIFT : Z := 0.
Definition MAPLE_CMD_MASK : Z := Z.shiftl 0xf MAPLE_CMD_SHIFT.
Definition MAPLE_ADDR_SHIFT : Z := 8.
Definition MAPLE_ADDR_MASK : Z := Z.shiftl 0xff MAPLE_ADDR_SHIFT.
Definition MAPLE_PACK_LEN_SHIFT : Z := 24.
Definition MAPLE_PACK_LEN_MASK : Z := Z.shiftl 0xff MAPLE_PACK_LEN_SHIFT.
Definition MAPLE_DMA_COMPLETE_DELAY : Z := 0.

Section addr.
Context {St : Type} {CFG : BuildConfig}.

Definition maple_addr_unpack (addr : Z) : M St (Z * Z) :=
  let port := Z.land (Z.shiftr addr 6) 0x3 in
  if Z.land addr 0x3f =? 0x20 then ret (port, 0)
  else if Z.land addr 0x1f =? 1 then ret (port, 1)
  else if Z.land addr 0x1f =? 2 then ret (port, 2)
  else if Z.land addr 0x1f =? 4 then ret (port, 3)
  else if Z.land addr 0x1f =? 8 then ret (port, 4)
  else if Z.land addr 0x1f =? 16 then ret (port, 5)
  else raise ERROR_INTEGRITY.

Definition maple_addr_pack (port unit : Z) : M St Z :=
  when (INVARIANTS && ((port >=? MAPLE_PORT_COUNT) || (unit >=? MAPLE_UNIT_COUNT))) (raise ERROR_INTEGRITY) ;;
  when (unit - 1 >=? 32) (raise C_UNDEFINED) ;;
  let addr := if unit >? 0 then Z.land (Z.shiftl 1 (unit - 1)) 0x1f else 0x20 in
  ret (Z.lor addr (u32 (Z.shiftl port 6))).

Definition maple_decode_frame (frame_out : maple_frame) (dat0 dat1 dat2 : Z) : M St maple_frame :=
  let msg_length_port := dat0 in
  let recv := dat1 in
  let cmd_addr_pack_len := dat2 in
  let len := Z.shiftr (Z.land msg_length_port MAPLE_LENGTH_MASK) MAPLE_LENGTH_SHIFT * 4 in
  let f := {|
    fr_port := Z.shiftr (Z.land msg_length_port MAPLE_PORT_MASK) MAPLE_PORT_SHIFT;
    fr_ptrn := Z.shiftr (Z.land msg_length_port MAPLE_PTRN_MASK) MAPLE_PTRN_SHIFT;
    recv_addr := recv;
    last_frame := truth (Z.land msg_length_port MAPLE_LAST_MASK);
    fr_cmd := Z.shiftr (Z.land cmd_addr_pack_len MAPLE_CMD_MASK) MAPLE_CMD_SHIFT;
    maple_addr := Z.shiftr (Z.land cmd_addr_pack_len MAPLE_ADDR_MASK) MAPLE_ADDR_SHIFT;
    pack_len := Z.shiftr (Z.land cmd_addr_pack_len MAPLE_PACK_LEN_MASK) MAPLE_PACK_LEN_SHIFT;
    input_len := len; input_data := input_data frame_out;
    output_len := output_len frame_out; output_data := output_data frame_out
  |} in
  when (negb (input_len f =? 4 * pack_len f)) (raise ERROR_UNIMPLEMENTED) ;;
  ret f.
End addr.

(** ** maple_controller.c *)
Definition bytes_of (str : String.string) : list Z :=
  map (fun c => Z.of_nat (Ascii.nat_of_ascii c)) (String.list_ascii_of_string str).
(** [strncpy] into an array of [n] chars *)
Definition strncpy (n : Z) (str : list Z) : list Z := take (Z.to_nat n) (str ++ replicate (Z.to_nat n) 0).

Definition MAPLE_CONTROLLER_STRING : String.string := "Dreamcast Controller         "%string.
Definition MAPLE_CONTROLLER_LICENSE : String.string :=
  "Produced By or Under License From SEGA ENTERPRISES,LTD.    "%string.

Definition is_controller (dev : maple_device) : bool := enable dev && bool_decide (tp dev = MAPLE_DEVICE_CONTROLLER).
Definition axis (c : maple_controller) (i : Z) : Z := nth (Z.to_nat i) (axes c) 0.
Definition with_cont (c : maple_controller) (dev : maple_device) : maple_device :=
  {| sw := sw dev; tp := tp dev; enable := enable dev; cont := c |}.

Definition controller_dev_init : M maple_device Z :=
  fun dev =>
    if negb (is_controller dev) then Err ERROR_INTEGRITY
    else
      let zeros := replicate (Z.to_nat MAPLE_CONTROLLER_N_AXES) 0 in
      let a := <[Z.to_nat MAPLE_CONTROLLER_AXIS_JOY1_Y := 128]> (<[Z.to_nat MAPLE_CONTROLLER_AXIS_JOY1_X := 128]> zeros) in
      Ok (0, with_cont {| btns := 0; axes := a |} dev).

Definition controller_dev_cleanup : M maple_device unit :=
  fun dev => if negb (is_controller dev) then Err ERROR_INTEGRITY else Ok (tt, dev).

Definition controller_dev_info : M maple_device maple_devinfo :=
  fun dev =>
    if negb (is_controller dev) then Err ERROR_INTEGRITY
    else Ok ({|
      di_func := MAPLE_FUNC_CONTROLLER; di_func_data := [0xfe060f00; 0x00000000; 0x724400ff];
      di_area_code := 0xff; di_dir := 0;
      di_dev_name := <[Z.to_nat (MAPLE_DEV_NAME_LEN - 1) := 0]> (strncpy MAPLE_DEV_NAME_LEN (bytes_of MAPLE_CONTROLLER_STRING));
      di_license := <[Z.to_nat (MAPLE_DEV_LICENSE_LEN - 1) := 0]> (strncpy MAPLE_DEV_LICENSE_LEN (bytes_of MAPLE_CONTROLLER_LICENSE));
      di_standby_power := 0x01ae; di_max_power := 0x01f4
    |}, dev).

Definition controller_dev_get_cond : M maple_device maple_cond :=
  fun dev =>
    if negb (is_controller dev) then Err ERROR_INTEGRITY
    else
      let c := cont dev in
      Ok ({|
        co_func := MAPLE_FUNC_CONTROLLER;
        co_btn := u16 (not32 (btns c));
        co_trig_r := u8 (axis c MAPLE_CONTROLLER_AXIS_R_TRIG);
        co_trig_l := u8 (axis c MAPLE_CONTROLLER_AXIS_L_TRIG);
        co_js_x := u8 (axis c MAPLE_CONTROLLER_AXIS_JOY1_X);
        co_js_y := u8 (axis c MAPLE_CONTROLLER_AXIS_JOY1_Y);
        co_js_x2 := u8 (axis c MAPLE_CONTROLLER_AXIS_JOY2_X);
        co_js_y2 := u8 (axis c MAPLE_CONTROLLER_AXIS_JOY2_X)
      |}, dev).

(** [struct maple_switch_table] *)
Definition dev_init (t : maple_switch_table) : option (M maple_device Z) :=
  match t with maple_controller_switch_table => Some controller_dev_init end.
Definition dev_cleanup (t : maple_switch_table) : option (M maple_device unit) :=
  match t with maple_controller_switch_table => Some controller_dev_cleanup end.
Definition dev_info (t : maple_switch_table) : option (M maple_device maple_devinfo) :=
  match t with maple_controller_switch_table => Some controller_dev_info end.
Definition dev_get_cond (t : maple_switch_table) : option (M maple_device maple_cond) :=
  match t with maple_controller_switch_table => Some controller_dev_get_cond end.

(** ** maple_device.c *)
(** the static variables of the four files *)
Record maple : Type := {
  devs : list (list maple_device);
  maple_dma_complete_int_event_scheduled : bool;
  maple_dma_cmd_start : Z;
  reg_backing : list Z
}.
Definition upd_devs (v : list (list maple_device)) (m : maple) : maple :=
  {| devs := v; maple_dma_complete_int_event_scheduled := maple_dma_complete_int_event_scheduled m;
     maple_dma_cmd_start := maple_dma_cmd_start m; reg_backing := reg_backing m |}.
Definition upd_maple_scheduled (v : bool) (m : maple) : maple :=
  {| devs := devs m; maple_dma_complete_int_event_scheduled := v;
     maple_dma_cmd_start := maple_dma_cmd_start m; reg_backing := reg_backing m |}.
Definition upd_cmd_start (v : Z) (m : maple) : maple :=
  {| devs := devs m; maple_dma_complete_int_event_scheduled := maple_dma_complete_int_event_scheduled m;
     maple_dma_cmd_start := v; reg_backing := reg_backing m |}.
Definition upd_backing (v : list Z) (m : maple) : maple :=
  {| devs := devs m; maple_dma_complete_int_event_scheduled := maple_dma_complete_int_event_scheduled m;
     maple_dma_cmd_start := maple_dma_cmd_start m; reg_backing := v |}.

Definition dev_at (m : maple) (p : Z * Z) : option maple_device :=
  devs m !! Z.to_nat (fst p) ≫= fun row => row !! Z.to_nat (snd p).
Definition put_dev (p : Z * Z) (d : maple_device) (m : maple) : maple :=
  upd_devs (alter (<[Z.to_nat (snd p) := d]>) (Z.to_nat (fst p)) (devs m)) m.
(** code that works on the device at a pointer *)
Definition on_dev {A} (p : Z * Z) (f : M maple_device A) : M maple A :=
  fun m => match dev_at m p with
           | Some d => match f d with Ok (a, d') => Ok (a, put_dev p d' m) | Err e => Err e end
           | None => Err C_UNDEFINED
           end.
(** a call through [dev->sw] *)
Definition with_sw {A} (k : maple_switch_table -> M maple_device A) : M maple_device A :=
  fun dev => match sw dev with Some t => k t dev | None => Err C_UNDEFINED end.

Definition maple_device_get (addr : Z) : M maple (Z * Z) :=
  p <- maple_addr_unpack addr ;;
  when ((fst p >=? MAPLE_PORT_COUNT) || (snd p >=? MAPLE_UNIT_COUNT)) (raise ERROR_INTEGRITY) ;;
  ret p.

Definition maple_device_init (addr : Z) (t : maple_device_type) : M maple Z :=
  p <- maple_addr_unpack addr ;;
  on_dev p
    (dev <- gets (fun d => d) ;;
     when (enable dev) (raise ERROR_INTEGRITY) ;;
     modify (fun d => {| sw := Some maple_controller_switch_table; tp := t; enable := true; cont := cont d |}) ;;
     with_sw (fun sw => match dev_init sw with Some f => f | None => ret 0 end)).

Definition maple_device_cleanup (addr : Z) : M maple unit :=
  p <- maple_addr_unpack addr ;;
  on_dev p
    (with_sw (fun sw => match dev_cleanup sw with Some f => f | None => ret tt end) ;;
     modify (fun d => {| sw := sw d; tp := tp d; enable := false; cont := cont d |})).

Definition devinfo_zero : maple_devinfo :=
  {| di_func := 0; di_func_data := [0; 0; 0]; di_area_code := 0; di_dir := 0;
     di_dev_name := replicate (Z.to_nat MAPLE_DEV_NAME_LEN) 0; di_license := replicate (Z.to_nat MAPLE_DEV_LICENSE_LEN) 0;
     di_standby_power := 0; di_max_power := 0 |}.
Definition maple_device_info : M maple_device maple_devinfo :=
  with_sw (fun sw => match dev_info sw with Some f => f | None => ret devinfo_zero end).

Definition cond_zero : maple_cond :=
  {| co_func := 0; co_btn := 0; co_trig_r := 0; co_trig_l := 0; co_js_x := 0; co_js_y := 0; co_js_x2 := 0; co_js_y2 := 0 |}.
Definition maple_device_cond : M maple_device maple_cond :=
  with_sw (fun sw => match dev_get_cond sw with Some f => f | None => ret cond_zero end).

Definition maple_compile_devinfo (d : maple_devinfo) : list Z :=
  le_bytes 4 (di_func d) ++ flat_map (le_bytes 4) (di_func_data d) ++ le_bytes 1 (di_area_code d) ++ le_bytes 1 (di_dir d) ++
  di_dev_name d ++ di_license d ++ le_bytes 2 (di_standby_power d) ++ le_bytes 2 (di_max_power d).

Definition maple_compile_cond (c : maple_cond) : list Z :=
  le_bytes 4 (co_func c) ++ le_bytes 2 (co_btn c) ++ le_bytes 1 (co_trig_r c) ++ le_bytes 1 (co_trig_l c) ++
  le_bytes 1 (co_js_x c) ++ le_bytes 1 (co_js_y c) ++ le_bytes 1 (co_js_x2 c) ++ le_bytes 1 (co_js_y2 c).

(** ** maple_controller.c: the interface of the front end; only a message says that the port is empty *)
Section controller.
Context {CFG : BuildConfig}.
Definition controller_at (port_no : Z) : M maple (Z * Z) :=
  addr <- maple_addr_pack port_no 0 ;; maple_device_get addr.
Definition maple_controller_press_btns (port_no b : Z) : M maple unit :=
  p <- controller_at port_no ;;
  on_dev p (modify (fun d => with_cont {| btns := Z.lor (btns (cont d)) b; axes := axes (cont d) |} d)).
Definition maple_controller_release_btns (port_no b : Z) : M maple unit :=
  p <- controller_at port_no ;;
  on_dev p (modify (fun d => with_cont {| btns := Z.land (btns (cont d)) (not32 b); axes := axes (cont d) |} d)).
Definition maple_controller_set_axis (port_no axis val : Z) : M maple unit :=
  p <- controller_at port_no ;;
  when (axis >=? MAPLE_CONTROLLER_N_AXES) (raise ERROR_INTEGRITY) ;;
  on_dev p (modify (fun d => with_cont {| btns := btns (cont d); axes := <[Z.to_nat axis := val]> (axes (cont d)) |} d)).
End controller.

(** the bus in the rest of the machine, and the address of its event *)
Class MapleWorld (W : Type) : Type := {
  maple_bus : W -> maple;
  set_maple_bus : maple -> W -> W;
  maple_dma_complete_int_event : Z
}.

Section maple.
Context {W : Type} {CFG : BuildConfig} {MCH : Machine W} {HW : HollyWorld W} {EW : EventWorld W} {MW : MapleWorld W}.
Abbreviation sh4M := (M (Sh4 W)).

Definition maple_of (s : Sh4 W) : maple := maple_bus (world s).
Definition with_maple (m : maple) (s : Sh4 W) : Sh4 W := with_world (set_maple_bus m (world s)) s.
Definition on_maple {A} (f : M maple A) : sh4M A :=
  fun s => match f (maple_of s) with Ok (a, m) => Ok (a, with_maple m s) | Err e => Err e end.
Definition maple_get {A} (f : maple -> A) : sh4M A := gets (fun s => f (maple_of s)).

(** ** maple.c *)
Definition maple_dma_complete : sh4M unit :=
  scheduled <- maple_get maple_dma_complete_int_event_scheduled ;;
  when (negb scheduled)
    (on_maple (modify (upd_maple_scheduled true)) ;;
     now <- gets (fun s => clock_cycle_stamp (evclk_of s)) ;;
     on_evclk (sched_at maple_dma_complete_int_event (u64 (now + MAPLE_DMA_COMPLETE_DELAY)))).

Definition maple_dma_complete_int_event_handler : sh4M unit :=
  on_maple (modify (upd_maple_scheduled false)) ;;
  holly_raise_nrm_int HOLLY_MAPLE_ISTNRM_DMA_COMPLETE.

Definition maple_write_frame_resp (frame : maple_frame) (resp_code : Z) : sh4M unit :=
  let len := output_len frame / 4 in
  let pkt_hdr := Z.lor (Z.lor (Z.land (Z.shiftl (u32 resp_code) MAPLE_CMD_SHIFT) MAPLE_CMD_MASK)
                              (Z.land (Z.shiftl (maple_addr frame) MAPLE_ADDR_SHIFT) MAPLE_ADDR_MASK))
                       (Z.land (Z.shiftl len MAPLE_PACK_LEN_SHIFT) MAPLE_PACK_LEN_MASK) in
  sh4_dmac_transfer_to_mem (recv_addr frame) 4 1 (le_bytes 4 pkt_hdr) ;;
  when (truth len)
    (sh4_dmac_transfer_to_mem (u32 (recv_addr frame + 4)) 1 (output_len frame) (output_data frame)).

Definition maple_handle_devinfo (frame : maple_frame) : sh4M unit :=
  dev <- on_maple (maple_device_get (maple_addr frame)) ;;
  plugged <- on_maple (on_dev dev (gets enable)) ;;
  (if (plugged : bool) then
     devinfo <- on_maple (on_dev dev maple_device_info) ;;
     maple_write_frame_resp (upd_output MAPLE_DEVINFO_SIZE (maple_compile_devinfo devinfo) frame) MAPLE_RESP_DEVINFO
   else maple_write_frame_resp (upd_output 0 (output_data frame) frame) MAPLE_RESP_NONE) ;;
  maple_dma_complete.

Definition maple_handle_getcond (frame : maple_frame) : sh4M unit :=
  dev <- on_maple (maple_device_get (maple_addr frame)) ;;
  plugged <- on_maple (on_dev dev (gets enable)) ;;
  (if (plugged : bool) then
     cond <- on_maple (on_dev dev maple_device_cond) ;;
     maple_write_frame_resp (upd_output MAPLE_COND_SIZE (maple_compile_cond cond) frame) MAPLE_RESP_DATATRF
   else raise ERROR_UNIMPLEMENTED) ;;
  maple_dma_complete.

Definition maple_handle_frame (frame : maple_frame) : sh4M unit :=
  if fr_ptrn frame =? 0 then
    if fr_cmd frame =? MAPLE_CMD_DEVINFO then maple_handle_devinfo frame
    else if fr_cmd frame =? MAPLE_CMD_GETCOND then maple_handle_getcond frame
    else raise ERROR_UNIMPLEMENTED
  else if fr_ptrn frame =? 7 then when (truth (pack_len frame)) (raise ERROR_UNIMPLEMENTED)
  else raise ERROR_UNIMPLEMENTED.

(** the [do] loop, at most [fuel] times; [continue] goes to the loop's condition *)
Fixpoint maple_process_dma_loop (fuel : nat) (frame : maple_frame) (src_addr : Z) : sh4M unit :=
  match fuel with
  | O => raise OUT_OF_FUEL
  | S fuel' =>
      meta0 <- sh4_dmac_transfer_from_mem src_addr 4 1 ;;
      let frame_meta0 := le_val meta0 in
      let xfer_complete := truth (Z.shiftr frame_meta0 31) in
      let ptrn := Z.land (Z.shiftr frame_meta0 8) 7 in
      let src_addr := u32 (src_addr + 4) in
      if ptrn =? 0 then
        meta12 <- sh4_dmac_transfer_from_mem src_addr 4 2 ;;
        frame <- maple_decode_frame frame frame_meta0 (le_val (take 4 meta12)) (le_val (drop 4 meta12)) ;;
        let src_addr := u32 (src_addr + 8) in
        frame <- (if truth (input_len frame) then
                    dat <- sh4_dmac_transfer_from_mem src_addr 4 (input_len frame / 4) ;; ret (upd_input dat frame)
                  else ret frame) ;;
        let src_addr := u32 (src_addr + input_len frame) in
        maple_handle_frame frame ;;
        (if xfer_complete then ret tt else maple_process_dma_loop fuel' frame src_addr)
      else if ptrn =? 7 then
        (if xfer_complete then ret tt else maple_process_dma_loop fuel' frame src_addr)
      else raise ERROR_UNIMPLEMENTED
  end.
(** the local variable [frame] before the first turn *)
Definition frame_blank : maple_frame :=
  {| fr_port := 0; fr_ptrn := 0; recv_addr := 0; last_frame := false; fr_cmd := 0; maple_addr := 0; pack_len := 0;
     input_len := 0; input_data := []; output_len := 0; output_data := [] |}.
Definition maple_process_dma (fuel : nat) (src_addr : Z) : sh4M unit := maple_process_dma_loop fuel frame_blank src_addr.

(** ** maple_reg.c *)
Definition ADDR_MAPLE_FIRST : Z := 0x5f6c00.
Definition ADDR_MAPLE_LAST : Z := 0x5f6cff.
Definition N_MAPLE_REGS : Z := ADDR_MAPLE_LAST - ADDR_MAPLE_FIRST + 1.
Definition maple_dma_prot_bot : Z := 0.
Definition maple_dma_prot_top : Z := Z.lor (Z.shiftl 0x1 27) (Z.shiftl 0x7f 20).
Definition maple_get_dma_prot_bot : Z := maple_dma_prot_bot.
Definition maple_get_dma_prot_top : Z := maple_dma_prot_top.

Definition mden_reg_mmio_read (idx : Z) : sh4M Z := ret 0.
Definition mden_reg_mmio_write (idx val : Z) : sh4M unit := ret tt.
Definition mdstar_reg_mmio_read (idx : Z) : sh4M Z := maple_get maple_dma_cmd_start.
Definition mdstar_reg_mmio_write (idx val : Z) : sh4M unit := on_maple (modify (upd_cmd_start val)).
Definition mdtsel_reg_mmio_read (idx : Z) : sh4M Z := ret 0.
Definition mdtsel_reg_mmio_write (idx val : Z) : sh4M unit := when (truth val) (raise ERROR_UNIMPLEMENTED).
Definition mdst_reg_mmio_read (idx : Z) : sh4M Z := ret 0.

(** the bound on the frames of one transfer *)
Context (frames : nat).
Definition mdst_reg_mmio_write (idx val : Z) : sh4M unit :=
  when (truth val) (start <- maple_get maple_dma_cmd_start ;; maple_process_dma frames start).

Definition maple_backing (s : Sh4 W) : list Z := reg_backing (maple_of s).
Definition set_maple_backing (l : list Z) (s : Sh4 W) : Sh4 W := with_maple (upd_backing l (maple_of s)) s.
Definition maple_warn_read : Z -> sh4M Z := mmio_region_warn_read_handler maple_backing.
Definition maple_warn_write : Z -> Z -> sh4M unit := mmio_region_warn_write_handler maple_backing set_maple_backing.

(** the calls of [maple_reg_init] *)
Definition maple_cells : list (mmio_cell (St := Sh4 W)) :=
  [(0x5f6c04, mdstar_reg_mmio_read, mdstar_reg_mmio_write);
   (0x5f6c10, mdtsel_reg_mmio_read, mdtsel_reg_mmio_write);
   (0x5f6c14, mden_reg_mmio_read, mden_reg_mmio_write);
   (0x5f6c18, mdst_reg_mmio_read, mdst_reg_mmio_write);
   (0x5f6c80, maple_warn_read, maple_warn_write);
   (0x5f6c8c, mmio_region_writeonly_read_error, maple_warn_write);
   (0x5f6ce8, maple_warn_read, maple_warn_write)].
Definition maple_reg_init : M (mmio_region (Sh4 W)) unit := init_cells ADDR_MAPLE_FIRST 4 maple_cells.
Definition mmio_region_maple_reg : mmio_region (Sh4 W) :=
  let r := init_mmio_region N_MAPLE_REGS 4 in
  match maple_reg_init r with Ok (_, r') => r' | Err _ => r end.

Definition maple_reg_read_32 (addr : Z) : sh4M Z := mmio_region_read ADDR_MAPLE_FIRST 4 mmio_region_maple_reg addr.
Definition maple_reg_write_32 (addr val : Z) : sh4M unit := mmio_region_write ADDR_MAPLE_FIRST 4 mmio_region_maple_reg addr val.
Definition maple_reg_read_float (addr : Z) : sh4M Z := maple_reg_read_32 addr.
Definition maple_reg_write_float (addr val : Z) : sh4M unit := maple_reg_write_32 addr val.
Definition maple_reg_read_double (addr : Z) : sh4M Z := raise ERROR_UNIMPLEMENTED.
Definition maple_reg_write_double (addr val : Z) : sh4M unit := raise ERROR_UNIMPLEMENTED.
Definition maple_reg_read_16 (addr : Z) : sh4M Z := raise ERROR_UNIMPLEMENTED.
Definition maple_reg_write_16 (addr val : Z) : sh4M unit := raise ERROR_UNIMPLEMENTED.
Definition maple_reg_read_8 (addr : Z) : sh4M Z := raise ERROR_UNIMPLEMENTED.
Definition maple_reg_write_8 (addr val : Z) : sh4M unit := raise ERROR_UNIMPLEMENTED.

Definition maple_intf : memory_interface (Sh4 W) :=
  {| read_fn := fun a => Some match a with
       | A8 => maple_reg_read_8 | A16 => maple_reg_read_16 | A32 => maple_reg_read_32
       | Afloat => maple_reg_read_float | Adouble => maple_reg_read_double end;
     write_fn := fun a => Some match a with
       | A8 => maple_reg_write_8 | A16 => maple_reg_write_16 | A32 => maple_reg_write_32
       | Afloat => maple_reg_write_float | Adouble => maple_reg_write_double end;
     try_read_fn := fun _ => None; try_write_fn := fun _ => None |}.
End maple.

(** [maple_init] and [maple_cleanup], on the devices *)
Section init.
Context {CFG : BuildConfig}.
Definition maple_init : M maple unit :=
  addr <- maple_addr_pack 0 0 ;; _r <- maple_device_init addr MAPLE_DEVICE_CONTROLLER ;; ret tt.
Definition maple_cleanup : M maple unit := addr <- maple_addr_pack 0 0 ;; maple_device_cleanup addr.
End init.
