(* ===== verification/MapleDma.v ===== *)
(** Polling the controllers: what a program that sends a list of commands over the Maple bus finds in
    RAM ([maple_dma_answers]).  The specification is the wire format: the words of the commands and the
    bytes of the replies. *)
From stdpp Require Import gmap strings.
From S2P Require Import Prelude IntMath MemoryMap Memory Sh4State Board Sh4Core Sh4Excp Sched Sh4Exec.
From S2P Require Import Mmio Frame Sh4Irl Events Holly RamBus Dmac Maple.
Import memory_map memory sched.

(** ** The wire format *)

(** the address of a unit: the port in the top bits, and one bit for the unit *)
Definition unit_addr (port unit : Z) : Z := 64 * port + (if unit =? 0 then 0x20 else 2 ^ (unit - 1)).
Definition unit_ok (port unit : Z) : Prop := 0 <= port < 4 /\ 0 <= unit < 6.

Inductive maple_req : Type :=
| ReqNop
| Req (cmd port unit recv : Z) (payload : list Z).

Definition encode_req (last : bool) (r : maple_req) : list Z :=
  match r with
  | ReqNop => le_bytes 4 (7 * 2 ^ 8 + b2z last * 2 ^ 31)
  | Req cmd port unit recv payload =>
      let n := Z.of_nat (length payload) / 4 in
      le_bytes 4 (n + port * 2 ^ 16 + b2z last * 2 ^ 31) ++ le_bytes 4 recv ++
      le_bytes 4 (cmd + unit_addr port unit * 2 ^ 8 + n * 2 ^ 24) ++ payload
  end.
Fixpoint encode (rs : list maple_req) : list Z :=
  match rs with
  | [] => []
  | [r] => encode_req true r
  | r :: rest => encode_req false r ++ encode rest
  end.

(** what a controller says of itself: its functions, the area, the direction, the name and the licence, padded with
    spaces up to a final zero, and its currents *)
Definition controller_info : list Z :=
  [0; 0; 0; 1] ++ [0; 0x0f; 0x06; 0xfe] ++ [0; 0; 0; 0] ++ [0xff; 0; 0x44; 0x72] ++ [0xff; 0] ++
  (bytes_of "Dreamcast Controller         " ++ [0]) ++
  (bytes_of "Produced By or Under License From SEGA ENTERPRISES,LTD.    " ++ [0]) ++ [0xae; 0x01; 0xf4; 0x01].
(** the buttons, where a pressed one is a zero, and a byte for each of the axes [ixs] *)
Definition controller_state (ixs : list Z) (c : maple_controller) : list Z :=
  [0; 0; 0; 1] ++ le_bytes 2 (Z.lxor (u16 (btns c)) 0xffff) ++ map (fun i => u8 (axis c i)) ixs.

(** the triggers and the two axes of the first stick, and those of the second stick: as [struct maple_cond] has
    them, and as the code fills them in, with the second stick's horizontal axis twice *)
Definition doc_axes : list Z := [0; 1; 2; 3; 4; 5].
Definition sent_axes : list Z := [0; 1; 2; 3; 4; 4].
(** the code of an empty port: [MAPLE_RESP_NONE], -1, in a byte, and what the code's mask of four bits leaves of it *)
Definition doc_none : Z := 0xff.
Definition sent_none : Z := 0xf.

Definition header (code port unit n : Z) : list Z := le_bytes 4 (code + unit_addr port unit * 2 ^ 8 + n * 2 ^ 24).
Definition answer (none : Z) (ixs : list Z) (d : maple_device) (cmd port unit : Z) : list Z :=
  if negb (enable d) then header none port unit 0
  else if cmd =? MAPLE_CMD_DEVINFO then header 5 port unit 28 ++ controller_info
  else header 8 port unit 3 ++ controller_state ixs (cont d).
(** the reply that the headers describe, and the reply that is sent *)
Definition doc_bytes : maple_device -> Z -> Z -> Z -> list Z := answer doc_none doc_axes.
Definition reply_bytes : maple_device -> Z -> Z -> Z -> list Z := answer sent_none sent_axes.
(** where they agree: the unit is plugged in, and for the state of a controller the second stick has the same
    position on both axes *)
Definition conforms (d : maple_device) (cmd : Z) : Prop :=
  enable d = true /\ (cmd <> MAPLE_CMD_DEVINFO -> u8 (axis (cont d) 4) = u8 (axis (cont d) 5)).

Lemma header_code code port unit n : head (header code port unit n) = Some (u8 code).
Proof.
  unfold header. cbn [le_bytes head]. f_equal. unfold wrap. change (2 ^ 8) with 256.
  replace (code + unit_addr port unit * 256 + n * 2 ^ 24) with (code + (unit_addr port unit + n * 2 ^ 16) * 256) by lia.
  by rewrite Z.mod_add.
Qed.
(** the two deviations are the only ones *)
Theorem maple_reply_conforms d cmd port unit : reply_bytes d cmd port unit = doc_bytes d cmd port unit <-> conforms d cmd.
Proof.
  unfold reply_bytes, doc_bytes, answer, conforms. destruct (enable d); cbn [negb].
  - destruct (Z.eqb_spec cmd MAPLE_CMD_DEVINFO) as [->|]; [done|]. unfold controller_state, sent_axes, doc_axes. cbn [map]. split.
    + intros E. split; [done|]. intros _. apply app_inv_head in E. apply app_inv_head in E. apply app_inv_head in E. by injection E.
    + intros [_ E]. by rewrite E.
  - split; [|by intros []]. intros E. apply (f_equal head) in E. by rewrite !header_code in E.
Qed.

(** where in RAM the reply goes, and its bytes *)
Definition reply (m : maple) (r : maple_req) : option (Z * list Z) :=
  match r with
  | ReqNop => None
  | Req cmd port unit recv _ => (fun d => (recv mod 2 ^ 24, reply_bytes d cmd port unit)) <$> dev_at m (port, unit)
  end.

(** RAM after the replies *)
Definition store_all (rs : list (Z * list Z)) (m : Memory) : Memory :=
  fold_left (fun m r => store_bytes (fst r) (snd r) m) rs m.
Definition blocks_apart (r1 r2 : Z * list Z) : Prop :=
  fst r1 + Z.of_nat (length (snd r1)) <= fst r2 \/ fst r2 + Z.of_nat (length (snd r2)) <= fst r1.

Lemma load_store_all_other rs n a m :
  Forall (fun r => a + Z.of_nat n <= fst r \/ fst r + Z.of_nat (length (snd r)) <= a) rs ->
  load_bytes n a (store_all rs m) = load_bytes n a m.
Proof.
  intros H. revert m. induction H as [|[b bs] rs Hr _ IH]; intros m; [done|]. cbn [store_all fold_left]. fold (store_all rs).
  etrans; [apply IH|]. apply load_store_bytes_other. cbn in Hr |- *. lia.
Qed.

Lemma load_store_all rs r m : ForallOrdPairs blocks_apart rs -> r ∈ rs ->
  load_bytes (length (snd r)) (fst r) (store_all rs m) = snd r.
Proof.
  intros H. revert m. induction H as [|[b bs] rs Hr _ IH]; intros m Hin; [by apply elem_of_nil in Hin|].
  cbn [store_all fold_left]. fold (store_all rs). apply elem_of_cons in Hin as [->|Hin]; [|by apply IH].
  etrans; [apply load_store_all_other|apply load_store_bytes]. eapply list.Forall_impl; [exact Hr|].
  intros [c cs]. unfold blocks_apart. cbn. lia.
Qed.

(** ** Addresses *)
Lemma addr_roundtrip {St} {CFG : BuildConfig} port unit (s : St) : unit_ok port unit ->
  maple_addr_pack port unit s = Ok (unit_addr port unit, s) /\
  maple_addr_unpack (unit_addr port unit) s = Ok ((port, unit), s).
Proof.
  intros [Hp Hu]. assert (Hport : In port [0; 1; 2; 3]) by (cbn; lia). assert (Hunit : In unit [0; 1; 2; 3; 4; 5]) by (cbn; lia).
  cbn in Hport, Hunit. unfold maple_addr_pack, MAPLE_PORT_COUNT, MAPLE_UNIT_COUNT. destruct INVARIANTS;
    repeat destruct Hport as [<-|Hport]; try done; repeat destruct Hunit as [<-|Hunit]; done.
Qed.

Lemma unit_addr_range port unit : unit_ok port unit -> 0 <= unit_addr port unit < 256.
Proof.
  intros [Hp Hu]. assert (Hunit : In unit [0; 1; 2; 3; 4; 5]) by (cbn; lia). unfold unit_addr. cbn in Hunit.
  repeat destruct Hunit as [<-|Hunit]; try done; cbn; lia.
Qed.

(** ** Fields of words *)
Lemma field x sh k : 0 <= sh -> 0 <= k -> Z.shiftr (Z.land x (Z.shiftl (Z.ones k) sh)) sh = x / 2 ^ sh mod 2 ^ k.
Proof.
  intros Hs Hk. rewrite Z.shiftr_land, Z.shiftr_shiftl_l, Z.sub_diag, Z.shiftl_0_r by lia.
  by rewrite Z.land_ones, Z.shiftr_div_pow2 by lia.
Qed.

Lemma le_word x : in_range 32 x -> le_val (le_bytes 4 x) = x.
Proof. intros Hx. rewrite le_val_bytes. by apply wrap_small. Qed.

(** the three words of a command *)
Lemma decode_words {St} frame (s : St) n port last recv cmd addr :
  0 <= n < 256 -> 0 <= port < 4 -> 0 <= cmd < 16 -> 0 <= addr < 256 ->
  exists f, maple_decode_frame frame (n + port * 2 ^ 16 + b2z last * 2 ^ 31) recv (cmd + addr * 2 ^ 8 + n * 2 ^ 24) s = Ok (f, s) /\
    fr_ptrn f = 0 /\ fr_cmd f = cmd /\ maple_addr f = addr /\ recv_addr f = recv /\ input_len f = 4 * n.
Proof.
  intros Hn Hp Hc Ha. unfold maple_decode_frame.
  change MAPLE_LENGTH_MASK with (Z.shiftl (Z.ones 8) MAPLE_LENGTH_SHIFT). change MAPLE_PORT_MASK with (Z.shiftl (Z.ones 2) MAPLE_PORT_SHIFT).
  change MAPLE_PTRN_MASK with (Z.shiftl (Z.ones 3) MAPLE_PTRN_SHIFT). change MAPLE_CMD_MASK with (Z.shiftl (Z.ones 4) MAPLE_CMD_SHIFT).
  change MAPLE_ADDR_MASK with (Z.shiftl (Z.ones 8) MAPLE_ADDR_SHIFT).
  change MAPLE_PACK_LEN_MASK with (Z.shiftl (Z.ones 8) MAPLE_PACK_LEN_SHIFT). rewrite !field by done.
  unfold MAPLE_LENGTH_SHIFT, MAPLE_PORT_SHIFT, MAPLE_PTRN_SHIFT, MAPLE_CMD_SHIFT, MAPLE_ADDR_SHIFT, MAPLE_PACK_LEN_SHIFT.
  assert (Hl : 0 <= b2z last <= 1) by by destruct last. generalize dependent (b2z last). intros l Hl.
  assert (E1 : (n + port * 2 ^ 16 + l * 2 ^ 31) / 2 ^ 0 mod 2 ^ 8 = n) by (Z.div_mod_to_equations; lia).
  assert (E2 : (n + port * 2 ^ 16 + l * 2 ^ 31) / 2 ^ 8 mod 2 ^ 3 = 0) by (Z.div_mod_to_equations; lia).
  assert (E3 : (cmd + addr * 2 ^ 8 + n * 2 ^ 24) / 2 ^ 0 mod 2 ^ 4 = cmd) by (Z.div_mod_to_equations; lia).
  assert (E4 : (cmd + addr * 2 ^ 8 + n * 2 ^ 24) / 2 ^ 8 mod 2 ^ 8 = addr) by (Z.div_mod_to_equations; lia).
  assert (E5 : (cmd + addr * 2 ^ 8 + n * 2 ^ 24) / 2 ^ 24 mod 2 ^ 8 = n) by (Z.div_mod_to_equations; lia).
  rewrite E1, E2, E3, E4, E5. cbn [input_len pack_len]. rewrite (Z.mul_comm n 4), Z.eqb_refl. cbn [negb when].
  rewrite (bind_ok _ _ s tt s eq_refl). eexists. split; [reflexivity|]. by cbn.
Qed.

(** the tests that the loop makes on the first word *)
Lemma first_word n ptrn port last : 0 <= n < 256 -> 0 <= ptrn < 8 -> 0 <= port < 4 ->
  let w := n + ptrn * 2 ^ 8 + port * 2 ^ 16 + b2z last * 2 ^ 31 in
  in_range 32 w /\ truth (Z.shiftr w 31) = last /\ Z.land (Z.shiftr w 8) 7 = ptrn.
Proof.
  intros Hn Hq Hp w. assert (Hl : 0 <= b2z last <= 1) by by destruct last.
  assert (E : Z.shiftr w 31 = b2z last) by (unfold w; rewrite Z.shiftr_div_pow2 by done; Z.div_mod_to_equations; lia).
  split; [unfold in_range, w; lia|]. split; [by rewrite E, b2z_truth|].
  change 7 with (Z.ones 3). rewrite Z.land_ones, Z.shiftr_div_pow2 by done. unfold w. Z.div_mod_to_equations; lia.
Qed.

(** ** The devices *)

(** the table has its size, and a device that is plugged in has its functions *)
Record devs_ok (m : maple) : Prop := {
  do_table : forall port unit, unit_ok port unit -> is_Some (dev_at m (port, unit));
  do_sw : forall port unit d, dev_at m (port, unit) = Some d -> enable d = true -> sw d = Some maple_controller_switch_table
}.

Lemma put_dev_same p d m : dev_at m p = Some d -> put_dev p d m = m.
Proof.
  unfold dev_at, put_dev. intros H. apply bind_Some in H as (row & Hrow & Hd).
  assert (E : alter (<[Z.to_nat (snd p) := d]>) (Z.to_nat (fst p)) (devs m) = devs m).
  { etrans; [apply (list_alter_ext _ (fun r => r) _ (devs m)); [|done]|by apply list_alter_id].
    intros x Hx. rewrite Hrow in Hx. injection Hx as <-. by apply list_insert_id. }
  rewrite E. by destruct m.
Qed.

Lemma on_dev_read {A} p d m (f : M maple_device A) a : dev_at m p = Some d -> f d = Ok (a, d) -> on_dev p f m = Ok (a, m).
Proof. intros Hd Hf. unfold on_dev. rewrite Hd, Hf. by rewrite put_dev_same. Qed.

Lemma device_get_ok port unit (m : maple) : unit_ok port unit -> maple_device_get (unit_addr port unit) m = Ok ((port, unit), m).
Proof.
  intros Hu. unfold maple_device_get.
  destruct (addr_roundtrip (CFG := {| INVARIANTS := false; ENABLE_SH4_MMU := false; ENABLE_DEBUGGER := false;
              DBG_EXIT_ON_UNDEFINED_OPCODE := false |}) port unit m Hu) as [_ E].
  rewrite (bind_ok _ _ _ _ _ E). destruct Hu as [Hp Hu]. cbn [fst snd]. unfold MAPLE_PORT_COUNT, MAPLE_UNIT_COUNT.
  destruct (Z.geb_spec port 4), (Z.geb_spec unit 6); try lia. done.
Qed.

Lemma device_info_ok d : sw d = Some maple_controller_switch_table -> enable d = true ->
  exists i, maple_device_info d = Ok (i, d) /\ maple_compile_devinfo i = controller_info.
Proof.
  intros Hs He. unfold maple_device_info, with_sw. rewrite Hs. cbn [dev_info]. unfold controller_dev_info, is_controller.
  rewrite He. destruct (tp d). eexists. split; [reflexivity|]. reflexivity.
Qed.

Lemma device_cond_ok d : sw d = Some maple_controller_switch_table -> enable d = true ->
  exists c, maple_device_cond d = Ok (c, d) /\ maple_compile_cond c = controller_state sent_axes (cont d).
Proof.
  intros Hs He. unfold maple_device_cond, with_sw. rewrite Hs. cbn [dev_get_cond]. unfold controller_dev_get_cond, is_controller.
  rewrite He. destruct (tp d). eexists. split; [reflexivity|].
  assert (E : u16 (not32 (btns (cont d))) = Z.lxor (u16 (btns (cont d))) 0xffff).
  { apply Z.bits_inj'. intros n Hn. unfold not32. change 0xffffffff with (Z.ones 32). change 0xffff with (Z.ones 16).
    rewrite wrap_testbit, !Z.lxor_spec, wrap_testbit, !Z.testbit_ones_nonneg by lia.
    destruct (Z.ltb_spec n 16), (Z.ltb_spec n 32); try lia; by destruct (Z.testbit (btns (cont d)) n). }
  unfold maple_compile_cond, controller_state, sent_axes. cbn [co_func co_btn co_trig_r co_trig_l co_js_x co_js_y co_js_x2 co_js_y2].
  rewrite E. cbn [map le_bytes app]. by rewrite !wrap_wrap.
Qed.

(** ** The machine *)
Class MapleLaws (W : Type) `{!RamWorld W, !MapleWorld W, !EventWorld W} : Prop := {
  maple_set : forall m (w : W), maple_bus (set_maple_bus m w) = m;
  maple_set_same : forall w : W, set_maple_bus (maple_bus w) w = w;
  maple_keeps : forall m (w : W), bus_ram (set_maple_bus m w) = bus_ram w /\ evclk (set_maple_bus m w) = evclk w;
  ram_keeps_maple : forall m (w : W), maple_bus (set_bus_ram m w) = maple_bus w /\ evclk (set_bus_ram m w) = evclk w;
  clk_keeps_maple : forall c (w : W), bus_ram (set_evclk c w) = bus_ram w /\ maple_bus (set_evclk c w) = maple_bus w
}.

Section dma.
Context {W : Type} {CFG : BuildConfig} {MCH : Machine W} {RW : RamWorld W} {RL : RamLaws W} {HW : HollyWorld W}.
Context {EW : EventWorld W} {EL : EventWorldLaws W} {MW : MapleWorld W} {ML : MapleLaws W}.
Implicit Types s : Sh4 W.

Lemma on_maple_read {A} (f : M maple A) s a : f (maple_of s) = Ok (a, maple_of s) -> on_maple f s = Ok (a, s).
Proof.
  unfold on_maple. intros ->. unfold with_maple, maple_of. rewrite maple_set_same. by destruct s.
Qed.

Lemma with_maple_keeps m s : ram_of (with_maple m s) = ram_of s /\ evclk_of (with_maple m s) = evclk_of s /\ maple_of (with_maple m s) = m.
Proof. unfold ram_of, evclk_of, maple_of, with_maple. cbn. destruct (maple_keeps m (world s)) as [-> ->]. by rewrite maple_set. Qed.
Lemma put_ram_keeps m s : evclk_of (with_bus_ram m s) = evclk_of s /\ maple_of (with_bus_ram m s) = maple_of s.
Proof. unfold evclk_of, maple_of, with_bus_ram. cbn. by destruct (ram_keeps_maple m (world s)) as [-> ->]. Qed.
Lemma with_clk_keeps c s : ram_of (with_evclk c s) = ram_of s /\ maple_of (with_evclk c s) = maple_of s /\ evclk_of (with_evclk c s) = c.
Proof. unfold ram_of, maple_of, evclk_of, with_evclk. cbn. destruct (clk_keeps_maple c (world s)) as [-> ->]. by rewrite evclk_set. Qed.

(** the completion event, and the flag that says whether it is queued *)
Record pending (l0 : list Z) (now : Z) (b : bool) s : Prop := {
  pe_now : clock_cycle_stamp (evclk_of s) = now;
  pe_flag : maple_dma_complete_int_event_scheduled (maple_of s) = b;
  pe_queue : exists l, clock_ok (evclk_of s) l /\
    (if b then l ≡ₚ (maple_dma_complete_int_event :: l0) /\ stamp (events (evclk_of s)) maple_dma_complete_int_event = now
     else l = l0 /\ (maple_dma_complete_int_event ∉ l) /\ is_Some (events (evclk_of s) !! maple_dma_complete_int_event))
}.

(** what a step of the bus does: RAM changes as given, the devices stay, the event is queued or not *)
Record served l0 now (b : bool) (m' : Memory) s s' : Prop := {
  sv_ram : ram_of s' = m';
  sv_devs : devs (maple_of s') = devs (maple_of s);
  sv_pend : pending l0 now b s'
}.

Lemma complete_ok l0 now b s : in_range 64 now -> pending l0 now b s ->
  exists s', maple_dma_complete s = Ok (tt, s') /\ served l0 now true (ram_of s) s s'.
Proof.
  intros Hr [Hn Hf (l & Hck & Hq)]. unfold maple_dma_complete. rewrite (bind_ok _ _ _ b s) by (unfold maple_get, gets; by rewrite Hf).
  destruct b; cbn [negb when].
  { exists s. split; [done|]. split; [done..|]. split; [done..|]. by exists l. }
  destruct Hq as (-> & Hni & Hsome). set (s1 := with_maple (upd_maple_scheduled true (maple_of s)) s).
  rewrite (bind_ok (on_maple (modify (upd_maple_scheduled true))) _ s tt s1 eq_refl), (bind_ok _ _ _ (clock_cycle_stamp (evclk_of s1)) s1 eq_refl).
  destruct (with_maple_keeps (upd_maple_scheduled true (maple_of s)) s) as (R1 & C1 & M1). fold s1 in R1, C1, M1.
  rewrite C1, Hn. unfold MAPLE_DMA_COMPLETE_DELAY. rewrite Z.add_0_r, (wrap_small 64) by done.
  destruct (sched_at_ok (evclk_of s) l0 maple_dma_complete_int_event now Hck Hni Hsome ltac:(lia)) as (c' & l' & E & Hck' & Hl' & Hst & Hks).
  assert (E1 : sched_at maple_dma_complete_int_event now (evclk_of s1) = Ok (tt, c')) by by rewrite C1.
  rewrite (on_evclk_ok _ _ _ _ E1). destruct (with_clk_keeps c' s1) as (R2 & M2 & C2).
  eexists. split; [reflexivity|]. split; [congruence|by rewrite M2, M1|]. split; rewrite ?C2, ?M2, ?M1; [rewrite <- Hn; apply Hks|done|].
  by exists l'.
Qed.

(** ** Replies *)
Definition word_block (a len : Z) : Prop := in_area3 a /\ a mod 4 = 0 /\ 0 <= len /\ a mod 2 ^ 24 + len <= 2 ^ 24.

Lemma word_block_dma a len k : word_block a len -> 0 <= k <= len -> dma_block a k.
Proof.
  intros (Ha & Hal & _ & Hf) Hk. split_and!; [done| |lia|lia]. unfold dma_width.
  destruct (k mod 4 =? 0); [done|]. destruct (k mod 2 =? 0); [|apply Z.mod_1_r]. Z.div_mod_to_equations; lia.
Qed.

Lemma word_block_step a len k : word_block a len -> 0 <= k < len -> k mod 4 = 0 ->
  word_block (u32 (a + k)) (len - k) /\ u32 (a + k) mod 2 ^ 24 = a mod 2 ^ 24 + k.
Proof.
  intros (Ha & Hal & _ & Hf) Hk Hk4. destruct (area3_step a k Ha ltac:(lia) ltac:(lia)) as (Ha' & Hm & ->).
  split; [|done]. split_and!; [done| |lia|lia]. rewrite Z.add_mod, Hal, Hk4 by done. done.
Qed.

Lemma resp_header code addr len : 0 <= addr < 256 -> 0 <= len < 256 ->
  Z.lor (Z.lor (Z.land (Z.shiftl (u32 code) MAPLE_CMD_SHIFT) MAPLE_CMD_MASK) (Z.land (Z.shiftl addr MAPLE_ADDR_SHIFT) MAPLE_ADDR_MASK))
    (Z.land (Z.shiftl len MAPLE_PACK_LEN_SHIFT) MAPLE_PACK_LEN_MASK) = code mod 16 + addr * 2 ^ 8 + len * 2 ^ 24.
Proof.
  intros Ha Hl. unfold MAPLE_CMD_SHIFT, MAPLE_ADDR_SHIFT, MAPLE_PACK_LEN_SHIFT. rewrite Z.shiftl_0_r.
  assert (E1 : Z.land (u32 code) MAPLE_CMD_MASK = code mod 16).
  { change MAPLE_CMD_MASK with (Z.ones 4). rewrite Z.land_ones by done. apply Z.mod_mod_divide. by exists (2 ^ 28). }
  assert (E2 : forall x k, 0 <= x < 256 -> 0 <= k -> Z.land (Z.shiftl x k) (Z.shiftl 0xff k) = Z.shiftl x k).
  { intros x k Hx Hk. rewrite <- Z.shiftl_land. change 0xff with (Z.ones 8). rewrite Z.land_ones by done. by rewrite Z.mod_small. }
  rewrite E1. change MAPLE_ADDR_MASK with (Z.shiftl 0xff 8). change MAPLE_PACK_LEN_MASK with (Z.shiftl 0xff 24). rewrite !E2 by done.
  pose proof (Z.mod_pos_bound code 16 ltac:(done)).
  rewrite (lor_shiftl_add _ _ 8), (lor_shiftl_add _ _ 24) by (done || (unfold in_range; lia)). done.
Qed.

Lemma write_resp_ok frame code s :
  0 <= maple_addr frame < 256 -> 0 <= output_len frame < 1024 -> output_len frame mod 4 = 0 ->
  output_len frame <= Z.of_nat (length (output_data frame)) -> (output_len frame <> 0 -> Forall (in_range 8) (output_data frame)) ->
  word_block (recv_addr frame) (4 + output_len frame) ->
  maple_write_frame_resp frame code s =
    Ok (tt, with_bus_ram (store_bytes (recv_addr frame mod 2 ^ 24)
      (le_bytes 4 (code mod 16 + maple_addr frame * 2 ^ 8 + output_len frame / 4 * 2 ^ 24) ++
       take (Z.to_nat (output_len frame)) (output_data frame)) (ram_of s)) s).
Proof.
  intros Ha Ho Ho4 Hl Hd Hb. unfold maple_write_frame_resp. set (n := output_len frame) in *.
  pose proof (Z.div_mod n 4 ltac:(done)) as Hdm. rewrite resp_header by lia. set (h := _ + _ + _).
  pose proof (transfer_to_mem_ok (recv_addr frame) 4 1 (le_bytes 4 h) s ltac:(apply (word_block_dma _ _ _ Hb); lia)
    ltac:(rewrite length_le_bytes; lia) (le_bytes_range _ _)) as E1. rewrite take_ge in E1 by (rewrite length_le_bytes; lia).
  rewrite (bind_ok _ _ _ _ _ E1). unfold when, truth. destruct (Z.eqb_spec (n / 4) 0) as [E0|E0]; cbn [negb].
  { assert (n = 0) as -> by lia. change (Z.to_nat 0) with 0%nat. by rewrite take_0, app_nil_r. }
  destruct (word_block_step _ _ 4 Hb ltac:(lia) ltac:(done)) as [Hb' Hm'].
  rewrite transfer_to_mem_ok; [|apply (word_block_dma _ _ _ Hb'); lia|lia|apply Hd; lia].
  rewrite ram_put, ram_put_put, Hm', Z.mul_1_l, store_bytes_app, length_le_bytes. done.
Qed.

Lemma respond_ok l0 now b (m : M (Sh4 W) unit) mem s : in_range 64 now -> pending l0 now b s -> m s = Ok (tt, with_bus_ram mem s) ->
  exists s', bind m (fun _ => maple_dma_complete) s = Ok (tt, s') /\ served l0 now true mem s s'.
Proof.
  intros Hr [Hn Hf Hq] E. rewrite (bind_ok _ _ _ _ _ E). destruct (put_ram_keeps mem s) as [C M'].
  destruct (complete_ok l0 now b (with_bus_ram mem s) Hr) as (s' & E' & [H1 H2 H3]).
  { split; [by rewrite C|by rewrite M'|by rewrite C]. }
  exists s'. split; [done|]. split; [by rewrite H1, ram_put|by rewrite H2, M'|done].
Qed.

Lemma controller_info_ok : length controller_info = 112%nat /\ Forall (in_range 8) controller_info.
Proof.
  split; [by vm_compute|]. apply List.Forall_forall. intros x Hx.
  assert (H : forallb (fun x => (0 <=? x) && (x <? 256)) controller_info = true) by by vm_compute.
  rewrite forallb_forall in H. specialize (H x Hx). unfold in_range. lia.
Qed.

Lemma controller_state_ok c : length (controller_state sent_axes c) = 12%nat /\ Forall (in_range 8) (controller_state sent_axes c).
Proof.
  split; [done|]. unfold controller_state. rewrite !list.Forall_app. split_and!; [by repeat constructor|apply le_bytes_range|].
  apply list.Forall_forall. intros x Hx. apply list_elem_of_fmap in Hx as (i & -> & _). by apply wrap_range.
Qed.

(** a command that the code can answer: to a unit that exists, and GETCOND only to one that is plugged
    in; with a payload of whole words, and room for the reply *)
Definition cmd_ok (d : maple_device) (cmd : Z) : Prop := cmd = MAPLE_CMD_DEVINFO \/ cmd = MAPLE_CMD_GETCOND /\ enable d = true.
Definition req_ok (m : maple) (r : maple_req) : Prop :=
  match r with
  | ReqNop => True
  | Req cmd port unit recv payload =>
      unit_ok port unit /\ Z.of_nat (length payload) mod 4 = 0 /\ Z.of_nat (length payload) <= 1020 /\ Forall (in_range 8) payload /\
      exists d, dev_at m (port, unit) = Some d /\ cmd_ok d cmd /\ word_block recv (Z.of_nat (length (reply_bytes d cmd port unit)))
  end.

Lemma handle_ok l0 now b frame cmd port unit d s :
  in_range 64 now -> pending l0 now b s -> devs_ok (maple_of s) -> unit_ok port unit -> dev_at (maple_of s) (port, unit) = Some d ->
  cmd_ok d cmd -> word_block (recv_addr frame) (Z.of_nat (length (reply_bytes d cmd port unit))) ->
  fr_ptrn frame = 0 -> fr_cmd frame = cmd -> maple_addr frame = unit_addr port unit ->
  exists s', maple_handle_frame frame s = Ok (tt, s') /\
    served l0 now true (store_bytes (recv_addr frame mod 2 ^ 24) (reply_bytes d cmd port unit) (ram_of s)) s s'.
Proof.
  intros Hr Hp Hdv Hu Hd Hc Hb Hpt Hcmd Ha. pose proof (unit_addr_range _ _ Hu) as Hua.
  unfold maple_handle_frame. rewrite Hpt, Hcmd. change (0 =? 0) with true.
  pose proof (on_maple_read _ s _ (device_get_ok port unit (maple_of s) Hu)) as E1. rewrite <- Ha in E1.
  assert (E2 : on_maple (on_dev (port, unit) (gets enable)) s = Ok (enable d, s)) by by eapply on_maple_read, on_dev_read.
  assert (Hfin : forall olen dat code, 0 <= olen < 1024 -> olen mod 4 = 0 ->
    olen <= Z.of_nat (length dat) -> (olen <> 0 -> Forall (in_range 8) dat) ->
    header (code mod 16) port unit (olen / 4) ++ take (Z.to_nat olen) dat = reply_bytes d cmd port unit ->
    maple_write_frame_resp (upd_output olen dat frame) code s =
      Ok (tt, with_bus_ram (store_bytes (recv_addr frame mod 2 ^ 24) (reply_bytes d cmd port unit) (ram_of s)) s)).
  { intros olen dat code H1 H2 H3 H4 H5. rewrite write_resp_ok; cbn [maple_addr output_len output_data recv_addr upd_output]; try done.
    - rewrite Ha. change (le_bytes 4 (code mod 16 + unit_addr port unit * 2 ^ 8 + olen / 4 * 2 ^ 24)) with (header (code mod 16) port unit (olen / 4)).
      by rewrite H5.
    - by rewrite Ha.
    - rewrite <- H5 in Hb. unfold header in Hb. rewrite length_app, length_le_bytes, length_take in Hb.
      replace (4 + olen) with (Z.of_nat (4 + Nat.min (Z.to_nat olen) (length dat))) by lia. done. }
  destruct Hc as [-> |[-> He]].
  - cbn [Z.eqb]. change (MAPLE_CMD_DEVINFO =? MAPLE_CMD_DEVINFO) with true. cbn match. unfold maple_handle_devinfo.
    rewrite (bind_ok _ _ _ _ _ E1), (bind_ok _ _ _ _ _ E2). apply (respond_ok l0 now b); [done..|].
    destruct (enable d) eqn:He.
    + destruct (device_info_ok d (do_sw _ Hdv _ _ _ Hd He) He) as (i & Ei & Hi).
      rewrite (bind_ok _ _ _ _ _ (on_maple_read _ s _ (on_dev_read _ _ _ _ _ Hd Ei))). destruct controller_info_ok as [Hl Hf].
      apply Hfin; try done; rewrite Hi; [rewrite Hl; done|done|]. unfold reply_bytes, answer. rewrite He. cbn [negb].
      rewrite take_ge by (rewrite Hl; done). done.
    + apply Hfin; try done; [lia|]. unfold reply_bytes, answer. by rewrite He.
  - unfold maple_handle_getcond. change (MAPLE_CMD_GETCOND =? MAPLE_CMD_DEVINFO) with false.
    change (MAPLE_CMD_GETCOND =? MAPLE_CMD_GETCOND) with true. cbn match.
    rewrite (bind_ok _ _ _ _ _ E1), (bind_ok _ _ _ _ _ E2). apply (respond_ok l0 now b); [done..|]. rewrite He.
    destruct (device_cond_ok d (do_sw _ Hdv _ _ _ Hd He) He) as (c & Ec & Hc).
    rewrite (bind_ok _ _ _ _ _ (on_maple_read _ s _ (on_dev_read _ _ _ _ _ Hd Ec))). destruct (controller_state_ok (cont d)) as [Hl Hf].
    apply Hfin; try done; rewrite Hc; [done|]. unfold reply_bytes, answer. rewrite He. cbn [negb].
    rewrite take_ge by (rewrite Hl; done). done.
Qed.

(** ** The loop *)
Lemma length_encode_req last r : Z.of_nat (length (encode_req last r)) =
  match r with ReqNop => 4 | Req _ _ _ _ payload => 12 + Z.of_nat (length payload) end.
Proof. destruct r; cbn [encode_req]; rewrite ?length_app, ?length_le_bytes; lia. Qed.

(** the words of a block, read by the device *)
Lemma read_words a len k s bs rest : word_block a len -> ram_typed (ram_of s) -> 0 <= 4 * k <= len -> length bs = Z.to_nat (4 * k) ->
  load_bytes (length (bs ++ rest)) (a mod 2 ^ 24) (ram_of s) = bs ++ rest ->
  sh4_dmac_transfer_from_mem a 4 k s = Ok (bs, s) /\
  load_bytes (length rest) (a mod 2 ^ 24 + 4 * k) (ram_of s) = rest.
Proof.
  intros Hb Ht Hk Hl H. rewrite length_app, load_bytes_app in H. apply app_inj_1 in H as [H1 H2]; [|apply length_load_bytes].
  rewrite transfer_from_mem_ok by (done || by eapply word_block_dma). rewrite <- Hl, H1. split; [done|].
  rewrite <- H2 at 2. f_equal. lia.
Qed.

Definition reply_mem (m : maple) (r : maple_req) (mem : Memory) : Memory :=
  match reply m r with Some (a, bs) => store_bytes a bs mem | None => mem end.
Definition is_cmd (r : maple_req) : bool := match r with ReqNop => false | Req _ _ _ _ _ => true end.

Lemma cmd_words n port unit last cmd : 0 <= n < 256 -> 0 <= cmd < 16 -> unit_ok port unit ->
  in_range 32 (n + port * 2 ^ 16 + b2z last * 2 ^ 31) /\ in_range 32 (cmd + unit_addr port unit * 2 ^ 8 + n * 2 ^ 24) /\
  truth (Z.shiftr (n + port * 2 ^ 16 + b2z last * 2 ^ 31) 31) = last /\
  Z.land (Z.shiftr (n + port * 2 ^ 16 + b2z last * 2 ^ 31) 8) 7 = 0.
Proof.
  intros Hn Hc Hu. pose proof (unit_addr_range _ _ Hu). destruct Hu as [Hp _].
  destruct (first_word n 0 port last Hn ltac:(done) Hp) as (H1 & H2 & H3). rewrite Z.mul_0_l, Z.add_0_r in H1, H2, H3.
  split_and!; [done| |done..]. unfold in_range. lia.
Qed.

Lemma step_nop l0 now b last fuel frame src s :
  pending l0 now b s -> ram_typed (ram_of s) -> word_block src 4 ->
  load_bytes 4 (src mod 2 ^ 24) (ram_of s) = encode_req last ReqNop ->
  maple_process_dma_loop (S fuel) frame src s =
    if last then Ok (tt, s) else maple_process_dma_loop fuel frame (u32 (src + 4)) s.
Proof.
  intros Hp Ht Hb Hl. cbn [maple_process_dma_loop]. cbn [encode_req] in Hl.
  destruct (first_word 0 7 0 last ltac:(done) ltac:(done) ltac:(done)) as (H1 & H2 & H3).
  rewrite Z.mul_0_l, Z.add_0_l, Z.add_0_r in H1, H2, H3. set (w := 7 * 2 ^ 8 + b2z last * 2 ^ 31) in *.
  destruct (read_words src 4 1 s (le_bytes 4 w) []) as [E _]; [done..|by rewrite app_nil_r|].
  rewrite (bind_ok _ _ _ _ _ E), le_word by done. rewrite H2, H3. by destruct last.
Qed.

Lemma read_payload src n f payload s :
  input_len f = 4 * n -> Z.of_nat (length payload) = 4 * n -> ram_typed (ram_of s) ->
  (n <> 0 -> word_block src (4 * n) /\ load_bytes (length payload) (src mod 2 ^ 24) (ram_of s) = payload) ->
  exists f', (if truth (input_len f) then
      dat <- sh4_dmac_transfer_from_mem src 4 (input_len f / 4) ;; ret (upd_input dat f) else ret f) s = Ok (f', s) /\
    fr_ptrn f' = fr_ptrn f /\ fr_cmd f' = fr_cmd f /\ maple_addr f' = maple_addr f /\ recv_addr f' = recv_addr f /\ input_len f' = 4 * n.
Proof.
  intros Hf Hn Ht Hw. rewrite Hf. unfold truth. destruct (Z.eqb_spec (4 * n) 0) as [E|E]; cbn [negb]; [by exists f|].
  destruct (Hw ltac:(lia)) as [Hb L]. rewrite <- (app_nil_r payload) in L.
  destruct (read_words src _ n s payload [] Hb Ht ltac:(lia) ltac:(lia) L) as [E3 _].
  rewrite (Z.mul_comm 4 n), Z.div_mul, (bind_ok _ _ _ _ _ E3) by done. exists (upd_input payload f). split; [done|].
  cbn. rewrite Hf. by rewrite Z.mul_comm.
Qed.

Lemma step_cmd l0 now b last fuel frame src cmd port unit recv payload s :
  let r := Req cmd port unit recv payload in
  in_range 64 now -> pending l0 now b s -> ram_typed (ram_of s) -> devs_ok (maple_of s) -> req_ok (maple_of s) r -> in_range 32 recv ->
  word_block src (Z.of_nat (length (encode_req last r))) ->
  load_bytes (length (encode_req last r)) (src mod 2 ^ 24) (ram_of s) = encode_req last r ->
  exists f' s', served l0 now true (reply_mem (maple_of s) r (ram_of s)) s s' /\
    maple_process_dma_loop (S fuel) frame src s =
      if last then Ok (tt, s')
      else maple_process_dma_loop fuel f' (u32 (src + Z.of_nat (length (encode_req last r)))) s'.
Proof.
  intros r Hr Hp Ht Hdv (Hu & Hp4 & Hp1 & Hpr & d & Hd & Hc & Hrb) Hrecv Hb Hl.
  assert (Hcmd : 0 <= cmd < 16) by (destruct Hc as [-> |[-> _]]; done).
  set (n := Z.of_nat (length payload) / 4). assert (Hn : Z.of_nat (length payload) = 4 * n) by (unfold n; Z.div_mod_to_equations; lia).
  destruct (cmd_words n port unit last cmd ltac:(lia) Hcmd Hu) as (R0 & R2 & T & P).
  rewrite length_encode_req in Hb |- *. unfold r in Hl, Hb |- *. cbn [encode_req] in Hl. fold n in Hl.
  set (w0 := n + port * 2 ^ 16 + b2z last * 2 ^ 31) in *. set (w2 := cmd + unit_addr port unit * 2 ^ 8 + n * 2 ^ 24) in *.
  destruct (read_words src _ 1 s (le_bytes 4 w0) _ Hb Ht ltac:(lia) eq_refl Hl) as [E0 L0].
  destruct (word_block_step _ _ 4 Hb ltac:(lia) ltac:(done)) as [B1 M1]. change (4 * 1) with 4 in L0. rewrite <- M1, app_assoc in L0.
  destruct (read_words _ _ 2 s (le_bytes 4 recv ++ le_bytes 4 w2) payload B1 Ht ltac:(lia) eq_refl L0) as [E1 L1].
  cbn [maple_process_dma_loop]. rewrite (bind_ok _ _ _ _ _ E0), (le_word w0), T, P by done. change (0 =? 0) with true. cbn match.
  rewrite (bind_ok _ _ _ _ _ E1). change (take 4 (le_bytes 4 recv ++ le_bytes 4 w2)) with (le_bytes 4 recv).
  change (drop 4 (le_bytes 4 recv ++ le_bytes 4 w2)) with (le_bytes 4 w2). rewrite !le_word by done.
  destruct (decode_words frame s n port last recv cmd (unit_addr port unit) ltac:(lia) (proj1 Hu) Hcmd (unit_addr_range _ _ Hu))
    as (f & Ef & F1 & F2 & F3 & F4 & F5). fold w0 w2 in Ef. rewrite (bind_ok _ _ _ _ _ Ef).
  destruct (read_payload (u32 (u32 (src + 4) + 8)) n f payload s F5 Hn Ht) as (f' & E2 & G1 & G2 & G3 & G4 & G5).
  { intros Hn0. destruct (word_block_step _ _ 8 B1 ltac:(lia) ltac:(done)) as [B2 M2]. change (4 * 2) with 8 in L1. rewrite <- M2 in L1.
    split; [|done]. by replace (4 * n) with (12 + Z.of_nat (length payload) - 4 - 8) by lia. }
  rewrite F1 in G1. rewrite F2 in G2. rewrite F3 in G3. rewrite F4 in G4.
  rewrite (bind_ok _ _ _ _ _ E2), G5. rewrite <- G4 in Hrb.
  destruct (handle_ok l0 now b f' cmd port unit d s Hr Hp Hdv Hu Hd Hc Hrb G1 G2 G3) as (s' & E4 & Hs).
  rewrite (bind_ok _ _ _ _ _ E4). exists f', s'. rewrite wrap_add_l, <- Z.add_assoc, wrap_add_l.
  split; [|destruct last; [done|]; do 2 f_equal; lia]. unfold reply_mem. cbn [reply]. rewrite Hd. cbn. by rewrite <- G4.
Qed.

Lemma dev_at_devs m m' q : devs m' = devs m -> dev_at m' q = dev_at m q.
Proof. unfold dev_at. by intros ->. Qed.
Lemma reply_devs m m' r : devs m' = devs m -> reply m' r = reply m r.
Proof. intros E. destruct r; [done|]. unfold reply. by rewrite (dev_at_devs m m'). Qed.
Lemma req_ok_devs m m' r : devs m' = devs m -> req_ok m r -> req_ok m' r.
Proof. intros E. destruct r; [done|]. cbn. by rewrite (dev_at_devs m m'). Qed.
Lemma devs_ok_devs m m' : devs m' = devs m -> devs_ok m -> devs_ok m'.
Proof.
  intros E [H1 H2]. split; intros port unit; rewrite (dev_at_devs m m' (port, unit) E); [apply H1|apply H2].
Qed.

Lemma reply_bytes_range d cmd port unit : Forall (in_range 8) (reply_bytes d cmd port unit).
Proof.
  unfold reply_bytes, answer, header. destruct (negb (enable d)); [apply le_bytes_range|].
  destruct (cmd =? MAPLE_CMD_DEVINFO); apply list.Forall_app; (split; [apply le_bytes_range|]).
  - apply controller_info_ok.
  - apply controller_state_ok.
Qed.

Lemma reply_mem_typed m r mem : ram_typed mem -> ram_typed (reply_mem m r mem).
Proof.
  intros Hm. unfold reply_mem, reply. destruct r as [|cmd port unit recv payload]; [done|]. destruct (dev_at m (port, unit)); [|done].
  apply ram_typed_store; [done|]. apply reply_bytes_range.
Qed.

(** the reply does not overwrite the bytes [bs] at [a] *)
Definition clear_of (m : maple) (a : Z) (bs : list Z) (r : maple_req) : Prop :=
  match reply m r with Some q => blocks_apart q (a, bs) | None => True end.

Lemma reply_mem_keeps m r mem a xs ys : clear_of m a (xs ++ ys) r ->
  load_bytes (length (xs ++ ys)) a (reply_mem m r mem) = load_bytes (length (xs ++ ys)) a mem.
Proof.
  unfold clear_of, reply_mem. destruct (reply m r) as [[b bs]|]; [|done]. unfold blocks_apart. cbn [fst snd]. intros H.
  apply load_store_bytes_other. lia.
Qed.

(** one frame of either kind *)
Lemma step_ok l0 now b last fuel frame src r s :
  in_range 64 now -> pending l0 now b s -> ram_typed (ram_of s) -> devs_ok (maple_of s) -> req_ok (maple_of s) r ->
  word_block src (Z.of_nat (length (encode_req last r))) ->
  load_bytes (length (encode_req last r)) (src mod 2 ^ 24) (ram_of s) = encode_req last r ->
  exists f' s', served l0 now (b || is_cmd r) (reply_mem (maple_of s) r (ram_of s)) s s' /\
    maple_process_dma_loop (S fuel) frame src s =
      if last then Ok (tt, s')
      else maple_process_dma_loop fuel f' (u32 (src + Z.of_nat (length (encode_req last r)))) s'.
Proof.
  intros Hr Hp Ht Hd Hq Hb Hl. destruct r as [|cmd port unit recv payload].
  - exists frame, s. rewrite orb_false_r. split; [by split|]. by apply (step_nop l0 now b).
  - rewrite orb_true_r. apply (step_cmd l0 now b); try done. destruct Hq as (_ & _ & _ & _ & d & _ & _ & [Hra _]). by apply area3_range.
Qed.

Lemma encode_req_words m last r : req_ok m r ->
  Z.of_nat (length (encode_req last r)) mod 4 = 0 /\ 0 < Z.of_nat (length (encode_req last r)).
Proof.
  intros Hq. rewrite length_encode_req. destruct r; [done|]. destruct Hq as (_ & Hp4 & _). Z.div_mod_to_equations; lia.
Qed.

Lemma encode_pos r rest : 0 < Z.of_nat (length (encode (r :: rest))).
Proof.
  destruct rest as [|r2 rest].
  - change (encode [r]) with (encode_req true r). rewrite length_encode_req. destruct r; lia.
  - change (encode (r :: r2 :: rest)) with (encode_req false r ++ encode (r2 :: rest)).
    rewrite length_app, Nat2Z.inj_add, length_encode_req. destruct r; lia.
Qed.

Lemma store_all_reply m r rest mem :
  store_all (omap (reply m) (r :: rest)) mem = store_all (omap (reply m) rest) (reply_mem m r mem).
Proof. unfold reply_mem. cbn. by destruct (reply m r) as [[]|]. Qed.

Lemma loop_ok l0 now reqs : in_range 64 now -> reqs <> [] -> forall b fuel frame src s,
  (length reqs <= fuel)%nat -> pending l0 now b s -> ram_typed (ram_of s) -> devs_ok (maple_of s) -> Forall (req_ok (maple_of s)) reqs ->
  word_block src (Z.of_nat (length (encode reqs))) ->
  load_bytes (length (encode reqs)) (src mod 2 ^ 24) (ram_of s) = encode reqs ->
  Forall (clear_of (maple_of s) (src mod 2 ^ 24) (encode reqs)) reqs ->
  exists s', maple_process_dma_loop fuel frame src s = Ok (tt, s') /\
    served l0 now (b || existsb is_cmd reqs) (store_all (omap (reply (maple_of s)) reqs) (ram_of s)) s s'.
Proof.
  intros Hr Hne. induction reqs as [|r rest IH]; [done|]. intros b fuel frame src s Hf Hp Ht Hd Hq Hb Hl Hc.
  destruct fuel as [|fuel]; [cbn in Hf; lia|]. apply list.Forall_cons in Hq as [Hqr Hqs]. apply list.Forall_cons in Hc as [Hcr Hcs].
  rewrite store_all_reply. destruct rest as [|r2 rest].
  { destruct (step_ok l0 now b true fuel frame src r s Hr Hp Ht Hd Hqr Hb Hl) as (f' & s' & Hs & E).
    exists s'. split; [exact E|]. cbn [existsb]. by rewrite orb_false_r. }
  set (rs := r2 :: rest) in *. change (encode (r :: rs)) with (encode_req false r ++ encode rs) in Hb, Hl, Hcr, Hcs.
  set (n := Z.of_nat (length (encode_req false r))). pose proof (encode_req_words _ false r Hqr) as Hn. fold n in Hn.
  pose proof (encode_pos r2 rest) as Hpos. fold rs in Hpos.
  rewrite length_app, Nat2Z.inj_add in Hb. fold n in Hb.
  assert (Hb1 : word_block src n) by (destruct Hb as (? & ? & ? & ?); split_and!; [done..|lia|lia]).
  destruct (word_block_step _ _ n Hb ltac:(lia) (proj1 Hn)) as [Hb2 Hm2]. rewrite Z.add_simpl_l in Hb2.
  pose proof Hl as Hl'. rewrite length_app, load_bytes_app in Hl'. apply app_inj_1 in Hl' as [Hl1 Hl2]; [|apply length_load_bytes].
  destruct (step_ok l0 now b false fuel frame src r s Hr Hp Ht Hd Hqr Hb1 Hl1) as (f' & s1 & [R1 D1 P1] & E). rewrite E. fold n.
  pose proof (reply_mem_keeps _ _ (ram_of s) _ _ _ Hcr) as Hkeep. rewrite length_app, !load_bytes_app in Hkeep.
  apply app_inj_1 in Hkeep as [_ Hkeep]; [|by rewrite !length_load_bytes]. fold n in Hl2, Hkeep. rewrite <- Hm2 in Hl2, Hkeep.
  destruct (IH ltac:(done) (b || is_cmd r) fuel f' (u32 (src + n)) s1) as (s' & E' & [R2 D2 P2]); try done.
  - cbn in Hf |- *. lia.
  - rewrite R1. by apply reply_mem_typed.
  - by apply (devs_ok_devs (maple_of s)).
  - eapply list.Forall_impl; [exact Hqs|]. intros x. by apply req_ok_devs.
  - rewrite R1, Hkeep. done.
  - eapply list.Forall_impl; [exact Hcs|]. intros x. unfold clear_of. rewrite (reply_devs (maple_of s) (maple_of s1) x D1).
    destruct (reply (maple_of s) x) as [[c cs]|]; [|done]. unfold blocks_apart. cbn [fst snd]. rewrite length_app, Hm2. fold n. lia.
  - exists s'. split; [done|]. split; [|congruence|by rewrite <- orb_assoc in P2].
    rewrite R2, R1. f_equal. apply list_omap_ext, list.Forall_Forall2_diag, list.Forall_forall. intros x _. by apply reply_devs.
Qed.

(** the program writes the address of its list to SB_MDSTAR and starts the transfer with SB_MDST *)
Definition maple_start (frames : nat) (src : Z) : M (Sh4 W) unit :=
  maple_reg_write_32 frames 0x5f6c04 src ;; maple_reg_write_32 frames 0x5f6c18 1.

Lemma maple_start_eq frames src s :
  maple_start frames src s = maple_process_dma frames src (with_maple (upd_cmd_start src (maple_of s)) s).
Proof.
  set (s1 := with_maple (upd_cmd_start src (maple_of s)) s).
  change (maple_start frames src s) with ((start <- maple_get maple_dma_cmd_start ;; maple_process_dma frames start) s1).
  destruct (with_maple_keeps (upd_cmd_start src (maple_of s)) s) as (_ & _ & M1). fold s1 in M1.
  rewrite (bind_ok _ _ _ src s1); [done|]. unfold maple_get, gets. by rewrite M1.
Qed.

(** C8: a poll of the Maple bus: the program writes a list of commands to RAM, one after the other, the
    last one marked, and starts the transfer.  When every command is to a unit that exists and GETCOND
    is only sent to one that is plugged in, every unit that is plugged in is a controller, the list and the replies
    are at multiples of 4 inside one 16 MB window of the RAM, the replies apart from each other and from the list, and
    no event of the end is pending, then the transfer ends, each command has its reply at the address it
    names, all other bytes of RAM and the devices are as before, and the event of the end is queued for now, once, if
    there was a command.  The reply is the one that maple.h and maple_device.h describe - the device's
    description, or the state of its buttons and axes -, with two exceptions, which are errors of the code: the last
    byte of the state is the second stick's horizontal axis and not the vertical one, so that the reply is the
    described one only when both are the same; and the reply of an empty port has the code 0x0f where 0xff is meant. *)
Theorem maple_dma_answers (frames : nat) (src : Z) (reqs : list maple_req) s l :
  let m := maple_of s in
  let replies := omap (reply m) reqs in
  reqs <> [] -> (length reqs <= frames)%nat -> devs_ok m -> Forall (req_ok m) reqs -> ram_typed (ram_of s) ->
  word_block src (Z.of_nat (length (encode reqs))) ->
  load_bytes (length (encode reqs)) (src mod 2 ^ 24) (ram_of s) = encode reqs ->
  Forall (fun q => blocks_apart q (src mod 2 ^ 24, encode reqs)) replies -> ForallOrdPairs blocks_apart replies ->
  in_range 64 (clock_cycle_stamp (evclk_of s)) -> pending l (clock_cycle_stamp (evclk_of s)) false s ->
  exists s', maple_start frames src s = Ok (tt, s') /\
    Forall (fun q => load_bytes (length (snd q)) (fst q) (ram_of s') = snd q) replies /\
    (forall cmd port unit recv payload d, Req cmd port unit recv payload ∈ reqs -> dev_at m (port, unit) = Some d -> conforms d cmd ->
       let bs := doc_bytes d cmd port unit in load_bytes (length bs) (recv mod 2 ^ 24) (ram_of s') = bs) /\
    (forall x, Forall (fun q => x < fst q \/ fst q + Z.of_nat (length (snd q)) <= x) replies ->
       byte (ram_of s') x = byte (ram_of s) x) /\
    devs (maple_of s') = devs m /\
    pending l (clock_cycle_stamp (evclk_of s)) (existsb is_cmd reqs) s'.
Proof.
  intros m replies Hne Hf Hd Hq Ht Hb Hl Hc Ha Hr [Hn Hfl Hpq]. rewrite maple_start_eq.
  destruct (with_maple_keeps (upd_cmd_start src (maple_of s)) s) as (R1 & C1 & M1). set (s1 := with_maple _ s) in *.
  assert (Dm : devs (maple_of s1) = devs m) by by rewrite M1.
  assert (Er : omap (reply (maple_of s1)) reqs = replies).
  { apply list_omap_ext, list.Forall_Forall2_diag, list.Forall_forall. intros x _. by apply reply_devs. }
  destruct (loop_ok l (clock_cycle_stamp (evclk_of s)) reqs Hr Hne false frames frame_blank src s1) as (s' & E & [R D P]); try done.
  - split; rewrite ?C1, ?M1; done.
  - by rewrite R1.
  - by apply (devs_ok_devs m).
  - eapply list.Forall_impl; [exact Hq|]. intros x. by apply req_ok_devs.
  - by rewrite R1.
  - apply list.Forall_forall. intros x Hx. unfold clear_of. rewrite (reply_devs m (maple_of s1) x Dm).
    destruct (reply m x) as [q|] eqn:Eq; [|done]. rewrite list.Forall_forall in Hc. apply Hc, list_elem_of_omap. by exists x.
  - exists s'. rewrite Er, R1 in R. split; [exact E|]. rewrite R. split_and!; [| | |congruence|done].
    + apply list.Forall_forall. intros q Hq'. by apply load_store_all.
    + intros cmd port unit recv payload d Hin Hdev Hco bs. unfold bs. rewrite <- (proj2 (maple_reply_conforms d cmd port unit) Hco).
      apply (load_store_all _ (recv mod 2 ^ 24, reply_bytes d cmd port unit)); [done|]. apply list_elem_of_omap.
      exists (Req cmd port unit recv payload). split; [done|]. cbn [reply]. by rewrite Hdev.
    + intros x Hx. assert (H1 : load_bytes 1 x (store_all replies (ram_of s)) = load_bytes 1 x (ram_of s)).
      { apply load_store_all_other. eapply list.Forall_impl; [exact Hx|]. intros q. cbn. lia. }
      by injection H1.
Qed.

(** ** The end of the transfer *)
Context {HL : HollyWorldLaws W} (J : bool -> W -> Prop).
Context (J_holly : forall b h w, J b w -> J b (set_holly h w)) (J_maple : forall b m w, J b w -> J b (set_maple_bus m w)).
Context (refresh_keeps_holly : forall w w', sched_refresh_intc w = Ok w' -> holly w' = holly w).

Theorem maple_dma_completes s : refresh_total J -> intc_ready J s ->
  exists s', maple_dma_complete_int_event_handler s = Ok (tt, s') /\ intc_ready J s' /\
    Z.land (holly_of s' reg_istnrm) HOLLY_REG_ISTNRM_MAPLE_DMA_COMPLETE_MASK = HOLLY_REG_ISTNRM_MAPLE_DMA_COMPLETE_MASK.
Proof.
  intros Hw [[] ? ? ?]. unfold maple_dma_complete_int_event_handler. set (s1 := with_maple (upd_maple_scheduled false (maple_of s)) s).
  rewrite (bind_ok (on_maple (modify (upd_maple_scheduled false))) _ s tt s1 eq_refl).
  assert (Hr1 : intc_ready J s1) by (split; [by split|done..|by apply J_maple]).
  destruct (raise_returns J J_holly refresh_keeps_holly (inl HOLLY_MAPLE_ISTNRM_DMA_COMPLETE) s1 Hw Hr1) as (s' & E & Hr' & Hh).
  exists s'. split_and!; [exact E|done|]. rewrite Hh. apply raised_pending.
Qed.
End dma.

(** *** Witnesses: a machine with the RAM, the bus, the interrupt controller and the clock *)
Record maple_board : Type := { mb_ram : Memory; mb_maple : maple; mb_holly : holly_intc; mb_clk : dc_clock }.
#[local] Instance poll_ram : RamWorld maple_board := {|
  bus_ram := mb_ram;
  set_bus_ram := fun m b => {| mb_ram := m; mb_maple := mb_maple b; mb_holly := mb_holly b; mb_clk := mb_clk b |}
|}.
#[local] Instance poll_maple : MapleWorld maple_board := {|
  maple_bus := mb_maple;
  set_maple_bus := fun m b => {| mb_ram := mb_ram b; mb_maple := m; mb_holly := mb_holly b; mb_clk := mb_clk b |};
  maple_dma_complete_int_event := 1
|}.
#[local] Instance poll_holly : HollyWorld maple_board := {|
  holly := mb_holly;
  set_holly := fun h b => {| mb_ram := mb_ram b; mb_maple := mb_maple b; mb_holly := h; mb_clk := mb_clk b |}
|}.
#[local] Instance poll_events : EventWorld maple_board := {|
  evclk := mb_clk;
  set_evclk := fun c b => {| mb_ram := mb_ram b; mb_maple := mb_maple b; mb_holly := mb_holly b; mb_clk := c |}
|}.
Definition poll_map : memory_map (Sh4 maple_board) :=
  match add_ram_regions (ram_intf (ram_of (W := maple_board)) with_bus_ram) memory_map_init with
  | Ok (_, m) => m
  | Err _ => memory_map_init
  end.
#[local] Instance poll_machine : Machine maple_board := {|
  mem_map := poll_map; sched_refresh_intc := fun b => Ok b;
  dc_debugger_enabled := fun _ => false; debug_on_softbreak := fun _ _ => ret tt;
  fpu_inst := fun _ _ => raise ERROR_UNIMPLEMENTED
|}.
#[local] Instance poll_ram_laws : RamLaws maple_board.
Proof. apply ram_windows_laws; try done; [by intros []|by apply ram_on_bus_alone]. Qed.
#[local] Instance poll_event_laws : EventWorldLaws maple_board.
Proof. by split. Qed.
#[local] Instance poll_laws : MapleLaws maple_board.
Proof. split; try done. by intros []. Qed.

(** the program image, the bus after [maple_init], and the start button and the A button pressed *)
Definition maple_blank : maple :=
  {| devs := replicate 4 (replicate 6 {| sw := None; tp := MAPLE_DEVICE_CONTROLLER; enable := false; cont := {| btns := 0; axes := replicate 6 0 |} |});
     maple_dma_complete_int_event_scheduled := false; maple_dma_cmd_start := 0; reg_backing := replicate 64 0 |}.
Definition maple_after {A} (f : M maple A) (m : maple) : maple := match f m with Ok (_, m') => m' | Err _ => m end.
Definition maple_pressed : maple :=
  maple_after (maple_controller_press_btns 0 (Z.lor MAPLE_CONT_BTN_A_MASK MAPLE_CONT_BTN_START_MASK)) (maple_after maple_init maple_blank).

Definition poll_reqs : list maple_req :=
  [Req MAPLE_CMD_DEVINFO 0 0 0x8c003000 []; ReqNop; Req MAPLE_CMD_GETCOND 0 0 0x8c003100 [0; 0; 0; 1]; Req MAPLE_CMD_DEVINFO 1 0 0x8c003200 []].
Definition poll_cpu : Sh4 maple_board :=
  let c := cpu_with [] ∅ in
  {| reg := reg c; delayed_branch := false; delayed_branch_addr := 0; exec_state := SH4_EXEC_STATE_NORM;
     last_inst_type := SH4_GROUP_NONE; aborted_operation := false; sq := sq c; intc := idle_intc; fround := FE_TONEAREST;
     world := {| mb_ram := store_bytes 0x2000 (encode poll_reqs) ∅; mb_maple := maple_pressed; mb_holly := no_masks; mb_clk := dma_clock |} |}.

Lemma pressed_ok : devs_ok maple_pressed.
Proof.
  split.
  - intros port unit [Hp Hu]. assert (Hport : In port [0; 1; 2; 3]) by (cbn; lia).
    assert (Hunit : In unit [0; 1; 2; 3; 4; 5]) by (cbn; lia). cbn in Hport, Hunit.
    repeat destruct Hport as [<-|Hport]; try done; repeat destruct Hunit as [<-|Hunit]; try done; by eexists.
  - assert (H : forallb (forallb (fun d => negb (enable d) || bool_decide (is_Some (sw d)))) (devs maple_pressed) = true) by by vm_compute.
    intros port unit d Hd He. unfold dev_at in Hd. apply bind_Some in Hd as (row & Hrow & Hd).
    rewrite forallb_forall in H. specialize (H row ltac:(eapply list_elem_of_In, list_elem_of_lookup_2; exact Hrow)).
    rewrite forallb_forall in H. specialize (H d ltac:(eapply list_elem_of_In, list_elem_of_lookup_2; exact Hd)).
    rewrite He in H. cbn in H. apply bool_decide_eq_true in H as [[] E]. exact E.
Qed.

Definition apartb (r1 r2 : Z * list Z) : bool :=
  (fst r1 + Z.of_nat (length (snd r1)) <=? fst r2) || (fst r2 + Z.of_nat (length (snd r2)) <=? fst r1).
Lemma apartb_ok r1 r2 : apartb r1 r2 = true -> blocks_apart r1 r2.
Proof. unfold apartb, blocks_apart. rewrite orb_true_iff, !Z.leb_le. done. Qed.
Fixpoint all_apartb (l : list (Z * list Z)) : bool :=
  match l with [] => true | x :: l' => forallb (apartb x) l' && all_apartb l' end.
Lemma all_apartb_ok l : all_apartb l = true -> ForallOrdPairs blocks_apart l.
Proof.
  induction l as [|x l IH]; cbn [all_apartb]; [constructor|]. intros [H1 H2]%andb_true_iff. constructor; [|by apply IH].
  apply List.Forall_forall. intros y Hy. rewrite forallb_forall in H1. by apply apartb_ok, H1.
Qed.

Lemma word_block_at a n : 0 <= a < SH4_AREA_P4_FIRST -> 0x0c000000 <= a mod 2 ^ 29 <= 0x0fffffff -> a mod 4 = 0 ->
  a mod 2 ^ 24 + Z.of_nat n <= 2 ^ 24 -> word_block a (Z.of_nat n).
Proof. intros. split_and!; [done|done|lia|done]. Qed.

Lemma poll_reqs_ok : Forall (req_ok (maple_of poll_cpu)) poll_reqs.
Proof.
  assert (H : forall cmd port unit recv payload d n, unit_ok port unit -> Z.of_nat (length payload) mod 4 = 0 ->
    Z.of_nat (length payload) <= 1020 -> Forall (in_range 8) payload -> dev_at (maple_of poll_cpu) (port, unit) = Some d ->
    cmd_ok d cmd -> length (reply_bytes d cmd port unit) = n -> word_block recv (Z.of_nat n) ->
    req_ok (maple_of poll_cpu) (Req cmd port unit recv payload)).
  { intros cmd port unit recv payload d n H1 H2 H3 H4 H5 H6 <- H8. split_and!; [done..|]. by exists d. }
  assert (Hd : is_Some (dev_at maple_pressed (0, 0)) /\ is_Some (dev_at maple_pressed (1, 0))) by (split; by eexists).
  destruct Hd as [[d0 H0] [d1 H1]].
  assert (E0 : enable d0 = true) by (vm_compute in H0; injection H0 as <-; done).
  assert (E1 : enable d1 = false) by (vm_compute in H1; injection H1 as <-; done).
  repeat apply List.Forall_cons; try apply List.Forall_nil.
  1: apply (H _ _ _ _ _ d0 116%nat).
  9: done.
  9: apply (H _ _ _ _ _ d0 16%nat).
  17: apply (H _ _ _ _ _ d1 4%nat).
  all: first [done|by left|by right|by repeat constructor|by unfold reply_bytes, answer; rewrite E0|by unfold reply_bytes, answer; rewrite E1|
              by apply word_block_at; vm_compute].
Qed.

Lemma maple_dma_answers_witness :
  exists s', maple_start 8 0x8c002000 poll_cpu = Ok (tt, s') /\
    load_bytes 16 0x3100 (ram_of s') = [8; 32; 0; 3; 0; 0; 0; 1; 0xf3; 0xff; 0; 0; 128; 128; 0; 0] /\
    load_bytes 4 0x3200 (ram_of s') = [0xf; 96; 0; 0] /\
    maple_dma_complete_int_event_scheduled (maple_of s') = true.
Proof.
  destruct (maple_dma_answers 8 0x8c002000 poll_reqs poll_cpu []) as (s' & E & Hrep & _ & _ & _ & [_ Hfl _]).
  - done.
  - by vm_compute; lia.
  - exact pressed_ok.
  - exact poll_reqs_ok.
  - apply ram_typed_store; [exact zeros_typed|]. apply List.Forall_forall. intros x Hx.
    assert (H : forallb (fun x => (0 <=? x) && (x <? 256)) (encode poll_reqs) = true) by by vm_compute.
    rewrite forallb_forall in H. specialize (H x Hx). unfold in_range. lia.
  - unfold word_block, in_area3, in_range. vm_compute. intuition congruence.
  - exact (load_store_bytes 0x2000 (encode poll_reqs) ∅).
  - apply List.Forall_forall. intros q Hq. apply apartb_ok.
    assert (H : forallb (fun q => apartb q (0x8c002000 mod 2 ^ 24, encode poll_reqs)) (omap (reply (maple_of poll_cpu)) poll_reqs) = true)
      by by vm_compute.
    rewrite forallb_forall in H. by apply H.
  - apply all_apartb_ok. by vm_compute.
  - by vm_compute.
  - split; [done|done|]. exists []. split; [split; [|by vm_compute|by apply list.Forall_nil]|].
    + split_and!; [done|done|by apply list.NoDup_nil|constructor].
    + split_and!; [done|by intros ?%elem_of_nil|by eexists].
  - assert (Hr : omap (reply (maple_of poll_cpu)) poll_reqs =
      [(0x3000, header 5 0 0 28 ++ controller_info); (0x3100, [8; 32; 0; 3; 0; 0; 0; 1; 0xf3; 0xff; 0; 0; 128; 128; 0; 0]);
       (0x3200, [0xf; 96; 0; 0])]) by by vm_compute.
    rewrite Hr, !list.Forall_cons in Hrep. destruct Hrep as (_ & H2 & H3 & _).
    exists s'. split; [exact E|]. split; [exact H2|]. split; [exact H3|exact Hfl].
Defined.
