(* ===== verification/Flash.v ===== *)
(** The flash memory (src/libwashdc/hw/flash_mem.c, flash_mem.h): 128 kilobytes that the program reads
    like RAM and changes by commands, each a sequence of bytes written to magic addresses.  Writing a
    byte can only clear bits; erasing sets a whole sector to ones. *)
From stdpp Require Import gmap list.
From S2P Require Import Prelude MemoryMap Memory.
Import memory_map memory.

Definition ADDR_FLASH_FIRST : Z := 0x00200000.
Definition ADDR_FLASH_LAST : Z := 0x0021ffff.
Definition FLASH_MEM_SZ : Z := ADDR_FLASH_LAST - ADDR_FLASH_FIRST + 1.
Definition FLASH_ADDR_AA : Z := 0x00205555.
Definition FLASH_ADDR_55 : Z := 0x00202aaa.
Definition FLASH_CMD_ERASE : Z := 0x30.
Definition FLASH_CMD_PRE_ERASE : Z := 0x80.
Definition FLASH_CMD_WRITE : Z := 0xa0.
Definition FLASH_SECTOR_SIZE : Z := 16 * 1024.
Definition FLASH_SECTOR_MASK : Z := u32 (Z.lnot (FLASH_SECTOR_SIZE - 1)).

Inductive flash_state : Type :=
| FLASH_STATE_AA | FLASH_STATE_55 | FLASH_STATE_CMD | FLASH_STATE_WRITE | FLASH_STATE_ERASE.
#[export] Instance flash_state_eq_dec : EqDecision flash_state.
Proof. solve_decision. Defined.

Record flash_mem : Type := { fl_state : flash_state; erase_unlocked : bool; fl_bytes : Memory }.
Abbreviation flashM := (M flash_mem).
Definition fl_set_state (st : flash_state) (m : flash_mem) : flash_mem :=
  {| fl_state := st; erase_unlocked := erase_unlocked m; fl_bytes := fl_bytes m |}.
Definition fl_set_unlocked (b : bool) (m : flash_mem) : flash_mem :=
  {| fl_state := fl_state m; erase_unlocked := b; fl_bytes := fl_bytes m |}.
Definition fl_set_bytes (b : Memory) (m : flash_mem) : flash_mem :=
  {| fl_state := fl_state m; erase_unlocked := erase_unlocked m; fl_bytes := b |}.

(** ** Commands *)

(** [memset]: undefined outside the array *)
Fixpoint fill (n : nat) (a v : Z) (m : Memory) : Memory :=
  match n with
  | O => m
  | S n' => fill n' (a + 1) v (<[a := v]> m)
  end.
Definition flash_mem_do_erase (addr : Z) : flashM unit :=
  let addr := Z.land (u32 (addr - ADDR_FLASH_FIRST)) FLASH_SECTOR_MASK in
  when (negb (addr + FLASH_SECTOR_SIZE <=? FLASH_MEM_SZ)) (raise C_UNDEFINED) ;;
  modify (fun m => fl_set_bytes (fill (Z.to_nat FLASH_SECTOR_SIZE) addr 0xff (fl_bytes m)) m).
Definition flash_mem_do_write_cmd (addr val : Z) : flashM unit :=
  let offs := addr - ADDR_FLASH_FIRST in
  when (negb ((0 <=? offs) && (offs <? FLASH_MEM_SZ))) (raise C_UNDEFINED) ;;
  modify (fun m => fl_set_bytes (<[offs := Z.land (byte (fl_bytes m) offs) val]> (fl_bytes m)) m) ;;
  modify (fl_set_state FLASH_STATE_AA).

Definition flash_mem_input_cmd (addr val : Z) : flashM unit :=
  unlocked <- gets erase_unlocked ;;
  if val =? FLASH_CMD_ERASE then
    if unlocked then
      flash_mem_do_erase addr ;;
      modify (fl_set_state FLASH_STATE_AA) ;;
      modify (fl_set_unlocked false)
    else raise ERROR_UNIMPLEMENTED
  else if val =? FLASH_CMD_PRE_ERASE then
    when unlocked (raise ERROR_UNIMPLEMENTED) ;;
    modify (fl_set_state FLASH_STATE_AA) ;;
    modify (fl_set_unlocked true)
  else if val =? FLASH_CMD_WRITE then
    when unlocked (raise ERROR_UNIMPLEMENTED) ;;
    modify (fl_set_state FLASH_STATE_WRITE)
  else
    modify (fl_set_state FLASH_STATE_AA) ;;
    when unlocked (raise ERROR_UNIMPLEMENTED).

Definition flash_mem_input_byte (addr val : Z) : flashM unit :=
  st <- gets fl_state ;;
  match st with
  | FLASH_STATE_AA => when ((val =? 0xaa) && (addr =? FLASH_ADDR_AA)) (modify (fl_set_state FLASH_STATE_55))
  | FLASH_STATE_55 => when ((val =? 0x55) && (addr =? FLASH_ADDR_55)) (modify (fl_set_state FLASH_STATE_CMD))
  | FLASH_STATE_CMD => flash_mem_input_cmd addr val
  | FLASH_STATE_WRITE => flash_mem_do_write_cmd addr val
  | FLASH_STATE_ERASE => raise ERROR_INTEGRITY
  end.

(** ** Accesses of [2^k] bytes *)
Definition flash_read (k addr : Z) : flashM Z :=
  when ((addr + 2 ^ k - 1 >? ADDR_FLASH_LAST) || (addr <? ADDR_FLASH_FIRST)) (raise ERROR_MEM_OUT_OF_BOUNDS) ;;
  gets (fun m => load (Z.to_nat (2 ^ k)) (elem_addr k (addr - ADDR_FLASH_FIRST)) (fl_bytes m)).
Definition flash_mem_read_8 (addr : Z) : flashM Z := flash_read 0 addr.
Definition flash_mem_read_16 (addr : Z) : flashM Z := flash_read 1 addr.
Definition flash_mem_read_32 (addr : Z) : flashM Z := flash_read 2 addr.
Definition flash_mem_read_float (addr : Z) : flashM Z := flash_mem_read_32 addr.
Definition flash_mem_read_double (addr : Z) : flashM Z := raise ERROR_UNIMPLEMENTED.
Definition flash_mem_write_8 (addr val : Z) : flashM unit :=
  when ((addr >? ADDR_FLASH_LAST) || (addr <? ADDR_FLASH_FIRST)) (raise ERROR_MEM_OUT_OF_BOUNDS) ;;
  flash_mem_input_byte addr val.
Definition flash_mem_write_16 (addr val : Z) : flashM unit := raise ERROR_UNIMPLEMENTED.
Definition flash_mem_write_32 (addr val : Z) : flashM unit := raise ERROR_UNIMPLEMENTED.
Definition flash_mem_write_float (addr val : Z) : flashM unit := raise ERROR_UNIMPLEMENTED.
Definition flash_mem_write_double (addr val : Z) : flashM unit := raise ERROR_UNIMPLEMENTED.

(** [flash_mem_intf], for a machine that keeps the memory where [get] and [put] say *)
Definition on_flash {St A} (get : St -> flash_mem) (put : flash_mem -> St -> St) (m : flashM A) : M St A :=
  fun s => match m (get s) with Ok (a, f) => Ok (a, put f s) | Err e => Err e end.
Definition flash_mem_intf {St} (get : St -> flash_mem) (put : flash_mem -> St -> St) : memory_interface St :=
  {| read_fn := fun a => Some (fun addr => on_flash get put (match a with
       | A8 => flash_mem_read_8 | A16 => flash_mem_read_16 | A32 => flash_mem_read_32
       | Afloat => flash_mem_read_float | Adouble => flash_mem_read_double end addr));
     write_fn := fun a => Some (fun addr val => on_flash get put (match a with
       | A8 => flash_mem_write_8 | A16 => flash_mem_write_16 | A32 => flash_mem_write_32
       | Afloat => flash_mem_write_float | Adouble => flash_mem_write_double end addr val));
     try_read_fn := fun _ => None; try_write_fn := fun _ => None |}.

(** ** Start: the file as its bytes, or nothing if it cannot be opened; what can be opened can be read *)
Definition flash_mem_load (file : option (list Z)) : flashM unit :=
  match file with
  | None => raise ERROR_FILE_IO
  | Some dat =>
      let file_len := Z.of_nat (length dat) in
      if file_len <=? 0 then raise ERROR_FILE_IO
      else
        let n := if file_len >? FLASH_MEM_SZ then FLASH_MEM_SZ else file_len in
        modify (fun m => fl_set_bytes (store_bytes 0 (take (Z.to_nat n) dat) (fl_bytes m)) m)
  end.
Definition flash_mem_init (file : option (list Z)) : flashM unit :=
  modify (fun _ => {| fl_state := FLASH_STATE_AA; erase_unlocked := false; fl_bytes := ∅ |}) ;;
  modify (fl_set_state FLASH_STATE_AA) ;;
  flash_mem_load file.

(** ** The abstract device: an array of bytes with two operations *)
Inductive flash_op : Type :=
(** [cmd_addr] and [pre_addr] are the addresses at which the program writes the command bytes; they are ignored *)
| FlashProgram (cmd_addr addr val : Z)
| FlashErase (pre_addr addr : Z).
Definition in_flash (addr : Z) : Prop := ADDR_FLASH_FIRST <= addr <= ADDR_FLASH_LAST.
Definition flash_op_ok (o : flash_op) : Prop :=
  match o with FlashProgram c addr val => in_flash c /\ in_flash addr /\ in_range 8 val | FlashErase p addr => in_flash p /\ in_flash addr end.
Definition sector (addr : Z) : Z := (addr - ADDR_FLASH_FIRST) / FLASH_SECTOR_SIZE.
Definition flash_apply (o : flash_op) (contents : Z -> Z) : Z -> Z :=
  match o with
  | FlashProgram _ addr val => fun x => if x =? addr then Z.land (contents x) val else contents x
  | FlashErase _ addr => fun x => if sector x =? sector addr then 0xff else contents x
  end.
(** the bytes that the program writes for an operation *)
Definition flash_unlock : list (Z * Z) := [(FLASH_ADDR_AA, 0xaa); (FLASH_ADDR_55, 0x55)].
Definition flash_encode (o : flash_op) : list (Z * Z) :=
  match o with
  | FlashProgram cmd_addr addr val => flash_unlock ++ [(cmd_addr, FLASH_CMD_WRITE); (addr, val)]
  | FlashErase pre_addr addr => flash_unlock ++ [(pre_addr, FLASH_CMD_PRE_ERASE)] ++ flash_unlock ++ [(addr, FLASH_CMD_ERASE)]
  end.
Fixpoint flash_writes (l : list (Z * Z)) : flashM unit :=
  match l with
  | [] => ret tt
  | (addr, val) :: l' => flash_mem_write_8 addr val ;; flash_writes l'
  end.

(** the device waits for a command and holds the bytes [contents] *)
Record flash_holds (m : flash_mem) (contents : Z -> Z) : Prop := {
  fh_state : fl_state m = FLASH_STATE_AA;
  fh_locked : erase_unlocked m = false;
  fh_bytes : forall addr, in_flash addr -> byte (fl_bytes m) (addr - ADDR_FLASH_FIRST) = contents addr
}.

Lemma flash_writes_app l1 l2 m m1 : flash_writes l1 m = Ok (tt, m1) -> flash_writes (l1 ++ l2) m = flash_writes l2 m1.
Proof.
  revert m. induction l1 as [|[a v] l1 IH]; intros m H; cbn [flash_writes app] in *; [by injection H as ->|].
  apply bind_inv in H as ([] & m2 & E & H). rewrite (bind_ok _ _ _ _ _ E). by apply IH.
Qed.
Lemma flash_write_ok addr val m : in_flash addr -> flash_mem_write_8 addr val m = flash_mem_input_byte addr val m.
Proof. unfold in_flash, flash_mem_write_8. intros H. by replace (_ || _) with false by lia. Qed.

(** the two bytes before a command *)
Lemma flash_unlock_ok m : fl_state m = FLASH_STATE_AA -> flash_writes flash_unlock m = Ok (tt, fl_set_state FLASH_STATE_CMD m).
Proof.
  intros Hs. cbn [flash_writes flash_unlock].
  rewrite (bind_ok _ _ m tt (fl_set_state FLASH_STATE_55 m)).
  2: { rewrite flash_write_ok by done. unfold flash_mem_input_byte. by rewrite (bind_ok _ _ _ _ _ eq_refl), Hs. }
  by rewrite (bind_ok _ _ _ tt (fl_set_state FLASH_STATE_CMD m)) by by rewrite flash_write_ok by done.
Qed.

Lemma byte_fill n a v m x : byte (fill n a v m) x = if (a <=? x) && (x <? a + Z.of_nat n) then v else byte m x.
Proof.
  revert a m. induction n as [|n IH]; intros a m; cbn [fill].
  - by destruct (Z.leb_spec a x), (Z.ltb_spec x (a + Z.of_nat 0)); [lia|..].
  - rewrite IH, byte_insert. destruct (Z.leb_spec (a + 1) x), (Z.leb_spec a x), (Z.ltb_spec x (a + 1 + Z.of_nat n)),
      (Z.ltb_spec x (a + Z.of_nat (S n))), (Z.eqb_spec a x); cbn [andb]; done || lia.
Qed.

Lemma sector_start addr : in_flash addr ->
  Z.land (u32 (addr - ADDR_FLASH_FIRST)) FLASH_SECTOR_MASK = sector addr * FLASH_SECTOR_SIZE /\ 0 <= sector addr < 8.
Proof.
  unfold in_flash, sector, ADDR_FLASH_FIRST, ADDR_FLASH_LAST, FLASH_SECTOR_SIZE. intros H. change (16 * 1024) with 16384. pose proof (Z.div_mod (addr - 0x00200000) 16384 ltac:(done)).
  pose proof (Z.mod_pos_bound (addr - 0x00200000) 16384 ltac:(done)). set (x := addr - 0x00200000) in *.
  rewrite (wrap_small 32) by (unfold in_range; lia). split; [|lia].
  change 16384 with (2 ^ 14). rewrite <- Z.shiftr_div_pow2, <- Z.shiftl_mul_pow2 by lia.
  apply Z.bits_inj'. intros n Hn. rewrite Z.land_spec, Z.shiftl_spec by lia.
  change FLASH_SECTOR_MASK with (wrap 32 (Z.lnot (Z.ones 14))). rewrite wrap_testbit, Z.lnot_spec by lia.
  destruct (Z.ltb_spec n 14).
  - rewrite Z.ones_spec_low by lia. rewrite (Z.testbit_neg_r _ (n - 14)) by lia. by rewrite andb_false_r, andb_false_r.
  - rewrite Z.ones_spec_high, Z.shiftr_spec by lia. replace (n - 14 + 14) with n by lia.
    destruct (Z.ltb_spec n 32); [by rewrite !andb_true_r|].
    rewrite (in_range_testbit_high 32 x n) by (unfold in_range; lia). done.
Qed.

(** ** The operations *)
Lemma flash_cmd_ok addr val m : in_flash addr -> fl_state m = FLASH_STATE_CMD ->
  flash_mem_write_8 addr val m =
    (if val =? FLASH_CMD_ERASE then
       if erase_unlocked m then
         flash_mem_do_erase addr ;; modify (fl_set_state FLASH_STATE_AA) ;; modify (fl_set_unlocked false)
       else raise ERROR_UNIMPLEMENTED
     else if val =? FLASH_CMD_PRE_ERASE then
       when (erase_unlocked m) (raise ERROR_UNIMPLEMENTED) ;; modify (fl_set_state FLASH_STATE_AA) ;; modify (fl_set_unlocked true)
     else if val =? FLASH_CMD_WRITE then
       when (erase_unlocked m) (raise ERROR_UNIMPLEMENTED) ;; modify (fl_set_state FLASH_STATE_WRITE)
     else modify (fl_set_state FLASH_STATE_AA) ;; when (erase_unlocked m) (raise ERROR_UNIMPLEMENTED)) m.
Proof.
  intros Ha Hs. rewrite flash_write_ok by done. unfold flash_mem_input_byte. rewrite (bind_ok _ _ _ _ _ eq_refl), Hs.
  unfold flash_mem_input_cmd. by rewrite (bind_ok _ _ _ _ _ eq_refl).
Qed.
Lemma flash_program_ok m contents c addr val : flash_holds m contents -> flash_op_ok (FlashProgram c addr val) ->
  exists m', flash_writes (flash_encode (FlashProgram c addr val)) m = Ok (tt, m') /\
    flash_holds m' (flash_apply (FlashProgram c addr val) contents).
Proof.
  intros [Hs Hl Hb] (Hc & Ha & Hv). cbn [flash_encode]. rewrite (flash_writes_app _ _ _ _ (flash_unlock_ok m Hs)). cbn [flash_writes].
  rewrite (bind_ok _ _ _ tt (fl_set_state FLASH_STATE_WRITE m)).
  2: { rewrite flash_cmd_ok by done. cbn [erase_unlocked fl_set_state]. by rewrite Hl. }
  eexists. split.
  { erewrite bind_ok; [done|]. rewrite flash_write_ok by done. unfold flash_mem_input_byte, flash_mem_do_write_cmd.
    rewrite (bind_ok _ _ _ _ _ eq_refl). cbn [fl_state fl_set_state].
    unfold in_flash, FLASH_MEM_SZ in *. replace (_ && _) with true by lia. done. }
  split; [done|done|]. intros x Hx. cbn [fl_bytes fl_set_bytes fl_set_state flash_apply]. rewrite byte_insert.
  destruct (Z.eqb_spec (addr - ADDR_FLASH_FIRST) (x - ADDR_FLASH_FIRST)), (Z.eqb_spec x addr); try lia; [subst x|]; by rewrite Hb.
Qed.

Lemma flash_erase_ok m contents q addr : flash_holds m contents -> flash_op_ok (FlashErase q addr) ->
  exists m', flash_writes (flash_encode (FlashErase q addr)) m = Ok (tt, m') /\
    flash_holds m' (flash_apply (FlashErase q addr) contents).
Proof.
  intros [Hs Hl Hb] (Hq & Ha). cbn [flash_encode]. rewrite (flash_writes_app _ _ _ _ (flash_unlock_ok m Hs)).
  set (m1 := fl_set_unlocked true (fl_set_state FLASH_STATE_AA (fl_set_state FLASH_STATE_CMD m))).
  rewrite (flash_writes_app [_] _ _ m1).
  2: { cbn [flash_writes]. rewrite (bind_ok _ _ _ tt m1); [done|]. rewrite flash_cmd_ok by done.
       cbn [erase_unlocked fl_set_state]. by rewrite Hl. }
  rewrite (flash_writes_app _ _ _ _ (flash_unlock_ok m1 eq_refl)). destruct (sector_start addr Ha) as [E Hsec].
  assert (Hsec' : sector addr * FLASH_SECTOR_SIZE + FLASH_SECTOR_SIZE <= FLASH_MEM_SZ)
    by (unfold FLASH_SECTOR_SIZE, FLASH_MEM_SZ, ADDR_FLASH_LAST, ADDR_FLASH_FIRST; lia).
  eexists. split.
  { cbn [flash_writes]. erewrite bind_ok; [done|]. rewrite flash_cmd_ok by done. change (FLASH_CMD_ERASE =? FLASH_CMD_ERASE) with true.
    cbn [erase_unlocked fl_set_state m1 fl_set_unlocked]. erewrite bind_ok; [done|]. unfold flash_mem_do_erase. rewrite E. by replace (_ <=? FLASH_MEM_SZ) with true by lia. }
  split; [done|done|]. intros x Hx. cbn [fl_bytes fl_set_bytes fl_set_state fl_set_unlocked m1 flash_apply].
  rewrite byte_fill, Z2Nat.id by done. rewrite Hb by done. destruct (sector_start x Hx) as [_ Hsx]. unfold sector in *.
  revert Hsx Hsec Hsec'. generalize (x - ADDR_FLASH_FIRST) (addr - ADDR_FLASH_FIRST). change FLASH_SECTOR_SIZE with 16384. intros u v.
  pose proof (Z.div_mod u 16384 ltac:(done)). pose proof (Z.mod_pos_bound u 16384 ltac:(done)). intros _ _ _.
  destruct (Z.eqb_spec (u / 16384) (v / 16384)), (Z.leb_spec (v / 16384 * 16384) u), (Z.ltb_spec u (v / 16384 * 16384 + 16384));
    cbn [andb]; done || lia.
Qed.

(** C18: the command decoder implements the abstract device: a program that writes the command sequences of any list
    of operations runs without an error, leaves the device waiting for the next command, and reads back an array
    to which the operations were applied in order: programming a byte clears bits, erasing sets a sector to ones *)
Theorem flash_commands_refine m contents ops : flash_holds m contents -> Forall flash_op_ok ops ->
  exists m', flash_writes (concat (flash_encode <$> ops)) m = Ok (tt, m') /\
    let contents' := fold_left (fun c o => flash_apply o c) ops contents in
    flash_holds m' contents' /\ forall addr, in_flash addr -> flash_mem_read_8 addr m' = Ok (contents' addr, m').
Proof.
  intros Hm Hops. revert m contents Hm. induction Hops as [|o ops Ho Hops IH]; intros m contents Hm.
  - exists m. split; [done|]. cbn [fold_left]. split; [done|]. intros addr Ha. unfold flash_mem_read_8, flash_read.
    unfold in_flash in *. change (2 ^ 0) with 1. replace (_ || _) with false by lia. rewrite (bind_ok _ _ m tt m eq_refl).
    unfold gets. cbn [load Z.to_nat Pos.to_nat]. unfold elem_addr. rewrite Z.shiftr_0_r, Z.shiftl_0_r. cbn [load].
    change (Z.to_nat 1) with 1%nat. cbn [load]. rewrite Z.shiftl_0_l, Z.lor_0_r. by rewrite (fh_bytes m contents Hm).
  - assert (exists m1, flash_writes (flash_encode o) m = Ok (tt, m1) /\ flash_holds m1 (flash_apply o contents)) as (m1 & E & Hm1).
    { destruct o; [by apply flash_program_ok|by apply flash_erase_ok]. }
    cbn [fmap list_fmap concat fold_left]. rewrite (flash_writes_app _ _ _ _ E). by apply IH.
Qed.

(** ** Without an erase command, bits are only cleared *)
Definition only_cleared (m m' : flash_mem) : Prop :=
  forall x, Z.land (byte (fl_bytes m') x) (byte (fl_bytes m) x) = byte (fl_bytes m') x.
Lemma only_cleared_same m m' : fl_bytes m' = fl_bytes m -> only_cleared m m'.
Proof. intros E x. by rewrite E, Z.land_diag. Qed.
#[local] Instance only_cleared_trans : Transitive only_cleared.
Proof.
  intros m1 m2 m3 H12 H23 x. specialize (H12 x). specialize (H23 x). rewrite <- H23 at 1. by rewrite <- Z.land_assoc, H12.
Qed.

Lemma flash_step_clears addr val m m' : flash_mem_write_8 addr val m = Ok (tt, m') -> val <> FLASH_CMD_ERASE -> only_cleared m m'.
Proof.
  intros E Hv. destruct (decide (in_flash addr)) as [Ha|Ha].
  2: { unfold flash_mem_write_8, in_flash in *. replace (_ || _) with true in E by lia. done. }
  destruct (fl_state m) eqn:Hs; [..|by rewrite flash_write_ok in E by done; unfold flash_mem_input_byte, bind, gets in E; rewrite Hs in E].
  - rewrite flash_write_ok in E by done. unfold flash_mem_input_byte in E. rewrite (bind_ok _ _ _ _ _ eq_refl), Hs in E.
    apply only_cleared_same. destruct (_ && _); by injection E as <-.
  - rewrite flash_write_ok in E by done. unfold flash_mem_input_byte in E. rewrite (bind_ok _ _ _ _ _ eq_refl), Hs in E.
    apply only_cleared_same. destruct (_ && _); by injection E as <-.
  - rewrite flash_cmd_ok in E by done. rewrite (proj2 (Z.eqb_neq _ _) Hv) in E. apply only_cleared_same.
    destruct (val =? FLASH_CMD_PRE_ERASE), (erase_unlocked m); try done; [by injection E as <-|..];
      destruct (val =? FLASH_CMD_WRITE); try done; by injection E as <-.
  - rewrite flash_write_ok in E by done. unfold flash_mem_input_byte, flash_mem_do_write_cmd in E.
    rewrite (bind_ok _ _ _ _ _ eq_refl), Hs in E. unfold in_flash, FLASH_MEM_SZ in *.
    replace (_ && _) with true in E by lia. injection E as <-. intros x. cbn. rewrite byte_insert.
    destruct (Z.eqb_spec (addr - ADDR_FLASH_FIRST) x) as [<-|]; [|apply Z.land_diag]. rewrite (Z.land_comm _ val), <- Z.land_assoc, Z.land_diag. done.
Qed.

(** as long as no byte is the erase command, no sequence of writes, complete or not, sets a bit of the memory *)
Theorem flash_bits_only_clear m ws m' : flash_writes ws m = Ok (tt, m') -> Forall (fun w => snd w <> FLASH_CMD_ERASE) ws ->
  only_cleared m m'.
Proof.
  intros E Hw. revert m E. induction Hw as [|[addr val] ws Hv Hw IH]; intros m E; cbn [flash_writes] in E.
  - injection E as <-. by apply only_cleared_same.
  - apply bind_inv in E as ([] & m1 & E1 & E). transitivity m1; [by eapply flash_step_clears|by apply IH].
Qed.

(** ** Instances *)
Definition flash_new : flash_mem := {| fl_state := FLASH_STATE_AA; erase_unlocked := false; fl_bytes := ∅ |}.
Lemma flash_new_holds : flash_holds flash_new (fun _ => 0).
Proof. split; [done|done|]. intros addr _. unfold byte. cbn. by rewrite lookup_empty. Qed.
Definition flash_demo : list flash_op :=
  [FlashErase 0x205555 0x21c000; FlashProgram 0x205555 0x21c007 0x5a; FlashProgram 0x205555 0x21c007 0xf0].

Lemma flash_commands_refine_witness :
  (flash_holds flash_new (fun _ => 0) /\ Forall flash_op_ok flash_demo) /\
  exists m', flash_writes (concat (flash_encode <$> flash_demo)) flash_new = Ok (tt, m') /\
    flash_mem_read_8 0x21c007 m' = Ok (0x50, m') /\ flash_mem_read_8 0x21c008 m' = Ok (0xff, m').
Proof.
  assert (Hd : Forall flash_op_ok flash_demo) by (repeat constructor; done).
  split; [split; [exact flash_new_holds|exact Hd]|].
  destruct (flash_commands_refine flash_new (fun _ => 0) flash_demo flash_new_holds Hd) as (m' & E & _ & Hr).
  exists m'. split; [exact E|]. split; rewrite Hr by done; reflexivity.
Defined.

Lemma flash_bits_only_clear_witness :
  exists m', flash_writes (flash_encode (FlashProgram 0x205555 0x21c007 0x5a)) flash_new = Ok (tt, m') /\ only_cleared flash_new m'.
Proof.
  eexists. split; [reflexivity|]. apply (flash_bits_only_clear _ (flash_encode (FlashProgram 0x205555 0x21c007 0x5a))); [reflexivity|].
  repeat constructor; done.
Defined.
