(* ===== verification/WaveMem.v ===== *)
(** The sound memory (src/libwashdc/hw/aica/aica_wave_mem.c, aica_wave_mem.h): two megabytes of
    bytes, with accesses of any alignment; an access that leaves the array ends the process. *)
From stdpp Require Import gmap.
From S2P Require Import Prelude MemoryMap Memory.
Import memory_map memory.

Definition AICA_WAVE_MEM_LEN : Z := 0x009fffff - 0x00800000 + 1.
Definition AICA_WAVE_MEM_MASK : Z := AICA_WAVE_MEM_LEN - 1.

(** [struct aica_wave_mem] *)
Abbreviation aica_wave_mem := Memory.
Definition aica_wave_mem_init : aica_wave_mem := ∅.

(** [sizeof(type) - 1 + addr >= AICA_WAVE_MEM_LEN], and the [memcpy] *)
Definition wave_out_of_bounds (n : nat) (addr : Z) : bool := Z.of_nat n - 1 + addr >=? AICA_WAVE_MEM_LEN.
Definition wave_load (n : nat) (addr : Z) (m : aica_wave_mem) : res Z :=
  if wave_out_of_bounds n addr then Err ERROR_UNIMPLEMENTED else Ok (load n addr m).
Definition wave_store (n : nat) (addr v : Z) (m : aica_wave_mem) : res aica_wave_mem :=
  if wave_out_of_bounds n addr then Err ERROR_UNIMPLEMENTED else Ok (store n addr v m).

Definition aica_wave_mem_read_8 (addr : Z) (m : aica_wave_mem) : res Z := wave_load 1 addr m.
Definition aica_wave_mem_read_16 (addr : Z) (m : aica_wave_mem) : res Z := wave_load 2 addr m.
Definition aica_wave_mem_read_32 (addr : Z) (m : aica_wave_mem) : res Z := wave_load 4 addr m.
Definition aica_wave_mem_read_float (addr : Z) (m : aica_wave_mem) : res Z := aica_wave_mem_read_32 addr m.
Definition aica_wave_mem_read_double (addr : Z) (m : aica_wave_mem) : res Z := Err ERROR_UNIMPLEMENTED.
Definition aica_wave_mem_write_8 (addr v : Z) (m : aica_wave_mem) : res aica_wave_mem := wave_store 1 addr v m.
Definition aica_wave_mem_write_16 (addr v : Z) (m : aica_wave_mem) : res aica_wave_mem := wave_store 2 addr v m.
Definition aica_wave_mem_write_32 (addr v : Z) (m : aica_wave_mem) : res aica_wave_mem := wave_store 4 addr v m.
Definition aica_wave_mem_write_float (addr v : Z) (m : aica_wave_mem) : res aica_wave_mem :=
  aica_wave_mem_write_32 addr v m.
Definition aica_wave_mem_write_double (addr v : Z) (m : aica_wave_mem) : res aica_wave_mem :=
  Err ERROR_UNIMPLEMENTED.

(** [aica_wave_mem_intf], for a machine that keeps the memory where [get] and [put] say *)
Definition aica_wave_mem_intf {St} (get : St -> aica_wave_mem) (put : aica_wave_mem -> St -> St)
    : memory_interface St :=
  {| read_fn := fun a => Some (lift_read get match a with
       | A8 => aica_wave_mem_read_8 | A16 => aica_wave_mem_read_16 | A32 => aica_wave_mem_read_32
       | Afloat => aica_wave_mem_read_float | Adouble => aica_wave_mem_read_double end);
     write_fn := fun a => Some (lift_write get put match a with
       | A8 => aica_wave_mem_write_8 | A16 => aica_wave_mem_write_16 | A32 => aica_wave_mem_write_32
       | Afloat => aica_wave_mem_write_float | Adouble => aica_wave_mem_write_double end);
     try_read_fn := fun _ => None; try_write_fn := fun _ => None |}.

(** a word that was written is read back, and other words stay *)
Lemma wave_word_same addr v m :
  in_range 32 v -> wave_out_of_bounds 4 addr = false ->
  aica_wave_mem_write_32 addr v m = Ok (store 4 addr v m) /\
  aica_wave_mem_read_32 addr (store 4 addr v m) = Ok v.
Proof.
  intros Hv Hb. unfold aica_wave_mem_write_32, aica_wave_mem_read_32, wave_store, wave_load. rewrite Hb.
  split; [done|]. f_equal. rewrite (load_store_inside 4 4 addr addr v m) by lia.
  rewrite Z.sub_diag, Z.shiftr_0_r. by apply wrap_small.
Qed.

Lemma wave_word_other addr b v m :
  (b + 4 <= addr \/ addr + 4 <= b) ->
  aica_wave_mem_read_32 b (store 4 addr v m) = aica_wave_mem_read_32 b m.
Proof.
  intros H. unfold aica_wave_mem_read_32, wave_load. destruct (wave_out_of_bounds 4 b); [done|].
  f_equal. apply load_store_other. lia.
Qed.
