(* ===== verification/Arm7.v ===== *)
(** The sound CPU (src/libwashdc/hw/arm7/arm7.c, arm7.h): an ARM7DI with a two-stage prefetch
    buffer, interpreted.

    The state is [struct arm7] with the rest of the machine, [aworld]; the memory map and the
    memory that instructions are fetched from are a parameter, the class [Arm7Machine].

    This file has the definitions; the properties are in [Arm7Flags], [Arm7Pipe] and [Arm7Excp]. *)
From stdpp Require Import gmap.
From S2P Require Import Prelude IntMath MemoryMap Memory Sh4State Sched Sh4Exec WaveMem.
Import memory_map memory intmath.

(** ** Registers (include/washdc/hw/arm7/arm7_reg_idx.h) and flags *)
Definition ARM7_REG_R0 : Z := 0.
Definition ARM7_REG_R8 : Z := 8.
Definition ARM7_REG_R14 : Z := 14.
Definition ARM7_REG_R15 : Z := 15.
Definition ARM7_REG_PC : Z := ARM7_REG_R15.
Definition ARM7_REG_R8_FIQ : Z := 16.
Definition ARM7_REG_R14_FIQ : Z := 22.
Definition ARM7_REG_R13_SVC : Z := 23.
Definition ARM7_REG_R14_SVC : Z := 24.
Definition ARM7_REG_R13_ABT : Z := 25.
Definition ARM7_REG_R13_IRQ : Z := 27.
Definition ARM7_REG_R13_UND : Z := 29.
Definition ARM7_REG_CPSR : Z := 31.
Definition ARM7_REG_SPSR_FIQ : Z := 32.
Definition ARM7_REG_SPSR_SVC : Z := 33.
Definition ARM7_REG_SPSR_ABT : Z := 34.
Definition ARM7_REG_SPSR_IRQ : Z := 35.
Definition ARM7_REG_SPSR_UND : Z := 36.
Definition ARM7_REGISTER_COUNT : Z := 37.

Definition ARM7_CPSR_N_MASK : Z := Z.shiftl 1 31.
Definition ARM7_CPSR_Z_MASK : Z := Z.shiftl 1 30.
Definition ARM7_CPSR_C_MASK : Z := Z.shiftl 1 29.
Definition ARM7_CPSR_V_MASK : Z := Z.shiftl 1 28.
Definition ARM7_CPSR_I_MASK : Z := Z.shiftl 1 7.
Definition ARM7_CPSR_F_MASK : Z := Z.shiftl 1 6.
Definition ARM7_CPSR_M_MASK : Z := 0x1f.

Definition ARM7_MODE_USER : Z := 0x10.
Definition ARM7_MODE_FIQ : Z := 0x11.
Definition ARM7_MODE_IRQ : Z := 0x12.
Definition ARM7_MODE_SVC : Z := 0x13.
Definition ARM7_MODE_ABT : Z := 0x17.
Definition ARM7_MODE_UND : Z := 0x1b.

(** [enum arm7_excp] *)
Definition ARM7_EXCP_RESET : Z := 1.
Definition ARM7_EXCP_FIQ : Z := 4.
Definition ARM7_EXCP_IRQ : Z := 8.
Definition ARM7_EXCP_SWI : Z := 32.

(** [inst & (1 << n)] as a [bool] *)
Definition inst_bit (n inst : Z) : bool := truth (Z.land inst (Z.shiftl 1 n)).

(** ** [struct arm7] *)
Record arm7 {W : Type} : Type := {
  areg : list Z;
  pipeline : Z * Z;
  pipeline_pc : Z * Z;
  excp : Z;
  enabled : bool;
  fiq_line : bool;
  excp_dirty : bool;
  pipeline_full : bool;
  aworld : W
}.
Arguments arm7 W : clear implicits.

Section setters.
Context {W : Type}.
Definition with_areg v (a : arm7 W) : arm7 W :=
  {| areg := v; pipeline := pipeline a; pipeline_pc := pipeline_pc a; excp := excp a; enabled := enabled a;
     fiq_line := fiq_line a; excp_dirty := excp_dirty a; pipeline_full := pipeline_full a; aworld := aworld a |}.
Definition with_pipeline p q (a : arm7 W) : arm7 W :=
  {| areg := areg a; pipeline := p; pipeline_pc := q; excp := excp a; enabled := enabled a;
     fiq_line := fiq_line a; excp_dirty := excp_dirty a; pipeline_full := pipeline_full a; aworld := aworld a |}.
Definition with_excp v (a : arm7 W) : arm7 W :=
  {| areg := areg a; pipeline := pipeline a; pipeline_pc := pipeline_pc a; excp := v; enabled := enabled a;
     fiq_line := fiq_line a; excp_dirty := excp_dirty a; pipeline_full := pipeline_full a; aworld := aworld a |}.
Definition with_enabled v (a : arm7 W) : arm7 W :=
  {| areg := areg a; pipeline := pipeline a; pipeline_pc := pipeline_pc a; excp := excp a; enabled := v;
     fiq_line := fiq_line a; excp_dirty := excp_dirty a; pipeline_full := pipeline_full a; aworld := aworld a |}.
Definition with_fiq_line v (a : arm7 W) : arm7 W :=
  {| areg := areg a; pipeline := pipeline a; pipeline_pc := pipeline_pc a; excp := excp a; enabled := enabled a;
     fiq_line := v; excp_dirty := excp_dirty a; pipeline_full := pipeline_full a; aworld := aworld a |}.
Definition with_excp_dirty v (a : arm7 W) : arm7 W :=
  {| areg := areg a; pipeline := pipeline a; pipeline_pc := pipeline_pc a; excp := excp a; enabled := enabled a;
     fiq_line := fiq_line a; excp_dirty := v; pipeline_full := pipeline_full a; aworld := aworld a |}.
Definition with_pipeline_full v (a : arm7 W) : arm7 W :=
  {| areg := areg a; pipeline := pipeline a; pipeline_pc := pipeline_pc a; excp := excp a; enabled := enabled a;
     fiq_line := fiq_line a; excp_dirty := excp_dirty a; pipeline_full := v; aworld := aworld a |}.
Definition with_aworld v (a : arm7 W) : arm7 W :=
  {| areg := areg a; pipeline := pipeline a; pipeline_pc := pipeline_pc a; excp := excp a; enabled := enabled a;
     fiq_line := fiq_line a; excp_dirty := excp_dirty a; pipeline_full := pipeline_full a; aworld := v |}.

(** [arm7->reg[i]] *)
Definition ageta (i : Z) (a : arm7 W) : Z := nth (Z.to_nat i) (areg a) 0.
Definition aseta (i v : Z) (a : arm7 W) : arm7 W := with_areg (<[Z.to_nat i := u32 v]> (areg a)) a.
End setters.

(** [arm7->map] and [arm7->inst_mem] *)
Class Arm7Machine (W : Type) : Type := {
  arm7_map : memory_map (arm7 W);
  inst_mem : W -> aica_wave_mem
}.

Section arm7.
Context {W : Type} {CFG : BuildConfig} {AM : Arm7Machine W}.
Abbreviation armM := (M (arm7 W)).

Definition areg_get (i : Z) : armM Z := gets (ageta i).
Definition areg_set (i v : Z) : armM unit := modify (aseta i v).
Definition cpsr (a : arm7 W) : Z := ageta ARM7_REG_CPSR a.
Definition cpu_mode (a : arm7 W) : Z := Z.land (cpsr a) ARM7_CPSR_M_MASK.

(** [arm7_gen_reg]: the index of the register in the current mode *)
Definition gen_reg_idx (mode r : Z) : option Z :=
  let bank13 b := if (r >=? 13) && (r <=? 14) then (r - 13) + b else r + ARM7_REG_R0 in
  if mode =? ARM7_MODE_USER then Some (r + ARM7_REG_R0)
  else if mode =? ARM7_MODE_FIQ then
    Some (if (r >=? 8) && (r <=? 14) then (r - 8) + ARM7_REG_R8_FIQ else r + ARM7_REG_R0)
  else if mode =? ARM7_MODE_IRQ then Some (bank13 ARM7_REG_R13_IRQ)
  else if mode =? ARM7_MODE_SVC then Some (bank13 ARM7_REG_R13_SVC)
  else if mode =? ARM7_MODE_ABT then Some (bank13 ARM7_REG_R13_ABT)
  else if mode =? ARM7_MODE_UND then Some (bank13 ARM7_REG_R13_UND)
  else None.
Definition arm7_gen_reg (r : Z) : armM Z :=
  mode <- gets cpu_mode ;;
  match gen_reg_idx mode r with Some i => ret i | None => raise ERROR_UNIMPLEMENTED end.
Definition gen_get (r : Z) : armM Z := i <- arm7_gen_reg r ;; areg_get i.
Definition gen_set (r v : Z) : armM unit := i <- arm7_gen_reg r ;; areg_set i v.

Definition arm7_spsr_idx : armM Z :=
  mode <- gets cpu_mode ;;
  if mode =? ARM7_MODE_FIQ then ret ARM7_REG_SPSR_FIQ
  else if mode =? ARM7_MODE_IRQ then ret ARM7_EXCP_IRQ
  else if mode =? ARM7_MODE_SVC then ret ARM7_REG_SPSR_SVC
  else if mode =? ARM7_MODE_ABT then ret ARM7_REG_SPSR_ABT
  else if mode =? ARM7_MODE_UND then ret ARM7_REG_SPSR_UND
  else raise ERROR_INTEGRITY.

(** ** Conditions *)
Definition arm7_cond_eq (a : arm7 W) : bool := truth (Z.land (cpsr a) ARM7_CPSR_Z_MASK).
Definition arm7_cond_ne (a : arm7 W) : bool := negb (arm7_cond_eq a).
Definition arm7_cond_cs (a : arm7 W) : bool := truth (Z.land (cpsr a) ARM7_CPSR_C_MASK).
Definition arm7_cond_cc (a : arm7 W) : bool := negb (arm7_cond_cs a).
Definition arm7_cond_mi (a : arm7 W) : bool := truth (Z.land (cpsr a) ARM7_CPSR_N_MASK).
Definition arm7_cond_pl (a : arm7 W) : bool := negb (arm7_cond_mi a).
Definition arm7_cond_vs (a : arm7 W) : bool := truth (Z.land (cpsr a) ARM7_CPSR_V_MASK).
Definition arm7_cond_vc (a : arm7 W) : bool := negb (arm7_cond_vs a).
Definition arm7_cond_hi (a : arm7 W) : bool := arm7_cond_ne a && arm7_cond_cs a.
Definition arm7_cond_ls (a : arm7 W) : bool := arm7_cond_cc a || arm7_cond_eq a.
Definition arm7_cond_ge (a : arm7 W) : bool := Bool.eqb (arm7_cond_mi a) (arm7_cond_vs a).
Definition arm7_cond_lt (a : arm7 W) : bool := negb (arm7_cond_ge a).
Definition arm7_cond_gt (a : arm7 W) : bool := arm7_cond_ne a && arm7_cond_ge a.
Definition arm7_cond_le (a : arm7 W) : bool := negb (arm7_cond_gt a).
Definition arm7_cond_al (a : arm7 W) : bool := true.
Definition arm7_cond_nv (a : arm7 W) : bool := false.

Definition ARM7_INST_COND_SHIFT : Z := 28.
Definition ARM7_INST_COND_MASK : Z := Z.shiftl 0xf ARM7_INST_COND_SHIFT.
Definition arm7_cond (inst : Z) : arm7 W -> bool :=
  match Z.shiftr (Z.land inst ARM7_INST_COND_MASK) ARM7_INST_COND_SHIFT with
  | 0 => arm7_cond_eq | 1 => arm7_cond_ne | 2 => arm7_cond_cs | 3 => arm7_cond_cc
  | 4 => arm7_cond_mi | 5 => arm7_cond_pl | 6 => arm7_cond_vs | 7 => arm7_cond_vc
  | 8 => arm7_cond_hi | 9 => arm7_cond_ls | 10 => arm7_cond_ge | 11 => arm7_cond_lt
  | 12 => arm7_cond_gt | 13 => arm7_cond_le | 14 => arm7_cond_al | _ => arm7_cond_nv
  end.

(** ** Pipeline *)
Definition next_inst : armM unit := pc <- areg_get ARM7_REG_PC ;; areg_set ARM7_REG_PC (pc + 4).
Definition reset_pipeline : armM unit := modify (with_pipeline_full false).

Definition do_fetch_inst (addr : Z) : armM Z :=
  fun a => if addr <=? 0x007fffff
           then match aica_wave_mem_read_32 (Z.land addr 0x001fffff) (inst_mem (aworld a)) with
                | Ok v => Ok (v, a)
                | Err e => Err e
                end
           else Ok (0xffffffff, a).

(** ** Operands *)
Definition ror1 (x : Z) : Z := Z.lor (Z.shiftl (Z.land x 1) 31) (Z.shiftr x 1).
Fixpoint ror (x : Z) (n_bits : nat) : Z :=
  match n_bits with O => x | S n => ror (ror1 x) n end.

Definition decode_immed (inst : Z) : Z :=
  let n_bits := 2 * Z.shiftr (Z.land inst (BIT_RANGE 8 11)) 8 in
  let imm := Z.land inst (BIT_RANGE 0 7) in
  ror imm (Z.to_nat n_bits).

(** the value and the new carry; a shift by 32 or more is undefined *)
Definition do_decode_shift (shift_fn src_val shift_amt : Z) (carry : bool) : armM (Z * bool) :=
  let bit n := truth (Z.land (Z.shiftl 1 n) src_val) in
  if shift_fn =? 0 then
    if shift_amt >=? 32 then raise C_UNDEFINED
    else
      let carry := if truth shift_amt then bit (31 - shift_amt + 1) else carry in
      ret (u32 (Z.shiftl src_val shift_amt), carry)
  else if shift_fn =? 1 then
    if shift_amt >=? 32 then raise C_UNDEFINED
    else
      let carry := if truth shift_amt then bit (shift_amt - 1) else carry in
      ret (Z.shiftr src_val shift_amt, carry)
  else if shift_fn =? 2 then
    if shift_amt =? 0 then raise ERROR_UNIMPLEMENTED
    else if shift_amt >=? 32 then raise C_UNDEFINED
    else ret (u32 (Z.shiftr (s32 src_val) shift_amt), bit (shift_amt - 1))
  else if shift_fn =? 3 then
    if shift_amt =? 0 then raise ERROR_UNIMPLEMENTED
    else
      let ret_val := ror src_val (Z.to_nat shift_amt) in
      ret (ret_val, truth (Z.land (Z.shiftl 1 31) ret_val))
  else raise ERROR_INTEGRITY.

Definition decode_shift_ldr_str (inst : Z) (carry : bool) : armM (Z * bool) :=
  let amt_in_reg := inst_bit 4 inst in
  let shift_fn := Z.shiftr (Z.land inst (BIT_RANGE 5 6)) 5 in
  when amt_in_reg (raise ERROR_UNIMPLEMENTED) ;;
  let shift_amt := Z.shiftr (Z.land inst (BIT_RANGE 7 11)) 7 in
  let src_reg := Z.land inst 0xf in
  src_val <- gen_get src_reg ;;
  do_decode_shift shift_fn src_val shift_amt carry.

Definition decode_shift (inst : Z) (carry : bool) : armM (Z * bool) :=
  let amt_in_reg := inst_bit 4 inst in
  let shift_fn := Z.shiftr (Z.land inst (BIT_RANGE 5 6)) 5 in
  shift_amt <-
    (if amt_in_reg then
       when (inst_bit 7 inst) (raise ERROR_INTEGRITY) ;;
       let reg_no := Z.shiftr (Z.land inst (BIT_RANGE 8 11)) 8 in
       when (reg_no =? 15) (raise ERROR_UNIMPLEMENTED) ;;
       v <- gen_get reg_no ;;
       ret (Z.land v 0xff)
     else ret (Z.shiftr (Z.land inst (BIT_RANGE 7 11)) 7)) ;;
  let src_reg := Z.land inst 0xf in
  src_val <- gen_get src_reg ;;
  do_decode_shift shift_fn src_val shift_amt carry.

(** ** Data processing *)

(** [n_out], [c_out], [z_out], [v_out]; the logical operations leave [c_out] as the shifter set
    it, and do not set [v_out], which their instructions do not use *)
Record flags : Type := { n_out : bool; c_out : bool; z_out : bool; v_out : bool }.
Definition logic_flags (val : Z) (c : bool) : flags :=
  {| n_out := truth (Z.land val (Z.shiftl 1 31)); c_out := c; z_out := negb (truth val); v_out := false |}.
Definition arith_flags (val : Z) (c v : bool) : flags :=
  {| n_out := truth (Z.land val (Z.shiftl 1 31)); c_out := c; z_out := negb (truth val); v_out := v |}.

(** [sub_flags] as the operations call it, with its result as a [uint32_t] *)
Definition arm_sub (lhs rhs : Z) : Z * flags :=
  let '(r, c_tmp, v) := sub_flags (s32 rhs) (s32 lhs) false in
  let val := u32 r in (val, arith_flags val (negb c_tmp) v).
Definition arm_add (lhs rhs : Z) : Z * flags :=
  let '(val, c, v) := add_flags lhs rhs false in (val, arith_flags val c v).

Definition arm7_op_and (lhs rhs : Z) (c : bool) : Z * flags :=
  let val := Z.land lhs rhs in (val, logic_flags val c).
Definition arm7_op_sub (lhs rhs : Z) (c : bool) : Z * flags := arm_sub lhs rhs.
Definition arm7_op_rsb (lhs rhs : Z) (c : bool) : Z * flags := arm_sub rhs lhs.
Definition arm7_op_add (lhs rhs : Z) (c : bool) : Z * flags := arm_add lhs rhs.
Definition arm7_op_cmn (lhs rhs : Z) (c : bool) : Z * flags := (0xdeadbeef, snd (arm_add lhs rhs)).
Definition arm7_op_tst (lhs rhs : Z) (c : bool) : Z * flags := (0xdeadbabe, logic_flags (Z.land lhs rhs) c).
Definition arm7_op_cmp (lhs rhs : Z) (c : bool) : Z * flags := (0xdeadbabe, snd (arm_sub lhs rhs)).
Definition arm7_op_eor (lhs rhs : Z) (c : bool) : Z * flags :=
  let val := Z.lxor lhs rhs in (val, logic_flags val c).
Definition arm7_op_orr (lhs rhs : Z) (c : bool) : Z * flags :=
  let val := Z.lor lhs rhs in (val, logic_flags val c).
Definition arm7_op_mov (lhs rhs : Z) (c : bool) : Z * flags := (rhs, logic_flags rhs c).
Definition arm7_op_mvn (lhs rhs : Z) (c : bool) : Z * flags :=
  let val := not32 rhs in (val, logic_flags val c).
Definition arm7_op_bic (lhs rhs : Z) (c : bool) : Z * flags :=
  let val := Z.land lhs (not32 rhs) in (val, logic_flags val c).

(** the new CPSR *)
Definition flag_bit (b : bool) (mask : Z) : Z := if b then mask else 0.
Definition set_flags (is_logic : bool) (f : flags) (psr : Z) : Z :=
  if is_logic then
    Z.lor (Z.land psr (not32 (Z.lor (Z.lor ARM7_CPSR_Z_MASK ARM7_CPSR_N_MASK) ARM7_CPSR_C_MASK)))
      (Z.lor (Z.lor (flag_bit (z_out f) ARM7_CPSR_Z_MASK) (flag_bit (n_out f) ARM7_CPSR_N_MASK))
         (flag_bit (c_out f) ARM7_CPSR_C_MASK))
  else
    Z.lor (Z.land psr (not32 (Z.lor (Z.lor (Z.lor ARM7_CPSR_Z_MASK ARM7_CPSR_N_MASK) ARM7_CPSR_C_MASK)
                                ARM7_CPSR_V_MASK)))
      (Z.lor (Z.lor (Z.lor (flag_bit (z_out f) ARM7_CPSR_Z_MASK) (flag_bit (n_out f) ARM7_CPSR_N_MASK))
                (flag_bit (c_out f) ARM7_CPSR_C_MASK)) (flag_bit (v_out f) ARM7_CPSR_V_MASK)).

(** the two inputs, and the carry of the shifter *)
Definition data_inputs (inst : Z) : armM (Z * Z * bool) :=
  let rn := Z.land (Z.shiftr inst 16) 0xf in
  carry_in <- gets arm7_cond_cs ;;
  input_1 <- gen_get rn ;;
  if inst_bit 25 inst then ret (input_1, decode_immed inst, carry_in)
  else
    p <- decode_shift inst carry_in ;;
    let input_1 := if inst_bit 4 inst && (rn =? 15) then u32 (input_1 + 4) else input_1 in
    ret (input_1, fst p, snd p).

(** the macro [DEF_INST_FN] *)
Definition data_inst (op : Z -> Z -> bool -> Z * flags) (is_logic require_s write_result : bool)
    (inst : Z) : armM unit :=
  let s_flag := inst_bit 20 inst in
  let rd := Z.land (Z.shiftr inst 12) 0xf in
  inp <- data_inputs inst ;;
  let '(input_1, input_2, c) := inp in
  let '(res, f) := op input_1 input_2 c in
  (if s_flag && negb (rd =? 15) then
     psr <- areg_get ARM7_REG_CPSR ;; areg_set ARM7_REG_CPSR (set_flags is_logic f psr)
   else if s_flag && (rd =? 15) then
     i <- arm7_spsr_idx ;; v <- areg_get i ;; areg_set ARM7_REG_CPSR v
   else when require_s (raise ERROR_INTEGRITY)) ;;
  if write_result then
    gen_set rd res ;;
    if rd =? 15 then reset_pipeline else next_inst
  else next_inst.

Definition arm7_inst_orr : Z -> armM unit := data_inst arm7_op_orr true false true.
Definition arm7_inst_eor : Z -> armM unit := data_inst arm7_op_eor true false true.
Definition arm7_inst_and : Z -> armM unit := data_inst arm7_op_and true false true.
Definition arm7_inst_bic : Z -> armM unit := data_inst arm7_op_bic true false true.
Definition arm7_inst_mov : Z -> armM unit := data_inst arm7_op_mov true false true.
Definition arm7_inst_add : Z -> armM unit := data_inst arm7_op_add false false true.
Definition arm7_inst_sub : Z -> armM unit := data_inst arm7_op_sub false false true.
Definition arm7_inst_rsb : Z -> armM unit := data_inst arm7_op_rsb false false true.
Definition arm7_inst_cmp : Z -> armM unit := data_inst arm7_op_cmp false true false.
Definition arm7_inst_tst : Z -> armM unit := data_inst arm7_op_tst true true false.
Definition arm7_inst_mvn : Z -> armM unit := data_inst arm7_op_mvn true false true.
Definition arm7_inst_cmn : Z -> armM unit := data_inst arm7_op_cmn false true false.

(** ** Branches, multiplication, status registers *)
Definition arm7_inst_branch (inst : Z) : armM unit :=
  let offs := Z.land inst (Z.shiftl 1 24 - 1) in
  let offs := if inst_bit 23 offs then Z.lor offs 0xff000000 else offs in
  let offs := u32 (Z.shiftl offs 2) in
  when (inst_bit 24 inst) (pc <- areg_get ARM7_REG_PC ;; gen_set 14 (pc - 4)) ;;
  pc <- areg_get ARM7_REG_PC ;;
  areg_set ARM7_REG_PC (u32 (offs + pc)) ;;
  reset_pipeline.

Definition arm7_inst_mrs (inst : Z) : armM unit :=
  let src_psr := inst_bit 22 inst in
  let dst_reg := Z.land (Z.shiftr inst 12) 0xf in
  src_p <- (if src_psr then arm7_spsr_idx else ret ARM7_REG_CPSR) ;;
  i <- arm7_gen_reg dst_reg ;;
  v <- areg_get src_p ;;
  areg_set i v ;;
  next_inst.

Definition arm7_inst_msr (inst : Z) : armM unit :=
  let dst_psr := inst_bit 22 inst in
  dst_p <- (if dst_psr then arm7_spsr_idx else ret ARM7_REG_CPSR) ;;
  let src_reg := Z.land inst 0xff in
  v <- gen_get src_reg ;;
  areg_set dst_p v ;;
  next_inst.

Definition arm7_inst_mul (inst : Z) : armM unit :=
  let accum := inst_bit 21 inst in
  let set_flags := inst_bit 20 inst in
  let rd := Z.shiftr (Z.land (BIT_RANGE 16 19) inst) 16 in
  let rn := Z.shiftr (Z.land (BIT_RANGE 12 15) inst) 12 in
  let rs := Z.shiftr (Z.land (BIT_RANGE 8 11) inst) 8 in
  let rm := Z.land (BIT_RANGE 0 3) inst in
  when (INVARIANTS && (truth (Z.land (BIT_RANGE 22 27) inst) ||
                       negb (Z.shiftr (Z.land (BIT_RANGE 4 7) inst) 4 =? 9))) (raise ERROR_INTEGRITY) ;;
  when (rd =? rm) (raise ERROR_UNIMPLEMENTED) ;;
  when ((rd =? 15) || (rn =? 15) || (rs =? 15) || (rm =? 15)) (raise ERROR_UNIMPLEMENTED) ;;
  a <- gen_get rm ;;
  b <- gen_get rs ;;
  val <- (if accum then c <- gen_get rn ;; ret (u32 (u32 (a * b) + c)) else ret (u32 (a * b))) ;;
  gen_set rd val ;;
  when set_flags
    (psr <- areg_get ARM7_REG_CPSR ;;
     let psr := if truth (Z.land val (Z.shiftl 1 31)) then Z.lor psr ARM7_CPSR_N_MASK
                else Z.land psr (not32 ARM7_CPSR_N_MASK) in
     let psr := if negb (truth val) then Z.lor psr ARM7_CPSR_Z_MASK
                else Z.land psr (not32 ARM7_CPSR_Z_MASK) in
     let psr := Z.land psr (not32 ARM7_CPSR_C_MASK) in
     areg_set ARM7_REG_CPSR psr) ;;
  next_inst.

Definition arm7_inst_swi (inst : Z) : armM unit :=
  modify (fun a => with_excp (Z.lor (excp a) ARM7_EXCP_SWI) a) ;;
  modify (with_excp_dirty true).

(** ** Loads and stores *)
Definition map_read_32 (addr : Z) : armM Z := v <- memory_map_read A32 arm7_map addr ;; ret (u32 v).
Definition map_read_8 (addr : Z) : armM Z := v <- memory_map_read A8 arm7_map addr ;; ret (u8 v).
Definition map_write_32 (addr v : Z) : armM unit := memory_map_write A32 arm7_map addr (u32 v).
Definition map_write_8 (addr v : Z) : armM unit := memory_map_write A8 arm7_map addr (u8 v).

(** the rotation of a word that was loaded from an address that is not aligned *)
Definition unaligned_rotate (addr val : Z) : Z :=
  match addr mod 4 with
  | 3 => Z.lor (Z.land (Z.shiftr val 24) 0xffffff) (u32 (Z.shiftl val 8))
  | 2 => Z.lor (Z.land (Z.shiftr val 16) 0xffffff) (u32 (Z.shiftl val 16))
  | 1 => Z.lor (Z.land (Z.shiftr val 8) 0xffffff) (u32 (Z.shiftl val 24))
  | _ => val
  end.

Definition arm7_inst_ldr_str (inst : Z) : armM unit :=
  let rn := Z.land (Z.shiftr inst 16) 0xf in
  let rd := Z.land (Z.shiftr inst 12) 0xf in
  let writeback := inst_bit 21 inst in
  let byte_len := inst_bit 22 inst in
  let up := inst_bit 23 inst in
  let pre := inst_bit 24 inst in
  let offs_reg := inst_bit 25 inst in
  let to_mem := negb (inst_bit 20 inst) in
  carry <- gets arm7_cond_cs ;;
  offs <- (if offs_reg then p <- decode_shift_ldr_str inst carry ;; ret (fst p)
           else ret (Z.land inst (Z.shiftl 1 12 - 1))) ;;
  addr <- gen_get rn ;;
  let move addr := u32 (if up then addr + offs else addr - offs) in
  let addr := if pre then move addr else addr in
  addr <-
    (if negb byte_len then
       if to_mem then
         val <- gen_get rd ;;
         let val := if rd =? 15 then u32 (val + 4) else val in
         let addr := Z.land addr (not32 3) in
         map_write_32 addr val ;; ret addr
       else
         val <- map_read_32 (Z.land addr (not32 3)) ;;
         gen_set rd (unaligned_rotate addr val) ;; ret addr
     else
       if to_mem then
         val <- gen_get rd ;;
         let val := if rd =? 15 then u32 (val + 4) else val in
         map_write_8 addr val ;; ret addr
       else
         i <- arm7_gen_reg rd ;;
         val <- map_read_8 addr ;;
         areg_set i val ;; ret addr) ;;
  when (negb pre && writeback) (raise ERROR_UNIMPLEMENTED) ;;
  let writeback := negb pre || writeback in
  let addr := if pre then addr else move addr in
  when writeback
    (when (rn =? 15) (raise ERROR_UNIMPLEMENTED) ;; gen_set rn addr) ;;
  if negb to_mem && (rd =? 15) then reset_pipeline else next_inst.

(** ** Block transfers *)

(** one turn of the loops: [xfer] moves the register from or to the address *)
Definition xfer_reg (up pre : bool) (reg_list : Z) (xfer : Z -> Z -> armM unit) (reg_no base : Z) : armM Z :=
  if inst_bit reg_no reg_list then
    let step b := u32 (if up then b + 4 else b - 4) in
    let base := if pre then step base else base in
    xfer reg_no base ;;
    ret (if pre then base else step base)
  else ret base.
Fixpoint xfer_loop (up pre : bool) (reg_list : Z) (xfer : Z -> Z -> armM unit) (regs : list Z) (base : Z) : armM Z :=
  match regs with
  | [] => ret base
  | r :: rest => b <- xfer_reg up pre reg_list xfer r base ;; xfer_loop up pre reg_list xfer rest b
  end.

Definition load_reg (reg_no base : Z) : armM unit :=
  i <- arm7_gen_reg reg_no ;; v <- map_read_32 base ;; areg_set i v.
Definition store_reg (reg_no base : Z) : armM unit := v <- gen_get reg_no ;; map_write_32 base v.
Definition load_pc (psr_user_force : bool) (reg_no base : Z) : armM unit :=
  when psr_user_force (i <- arm7_spsr_idx ;; v <- areg_get i ;; areg_set ARM7_REG_CPSR v) ;;
  v <- map_read_32 base ;; areg_set ARM7_REG_PC v.
Definition store_pc (reg_no base : Z) : armM unit :=
  pc <- areg_get ARM7_REG_PC ;; map_write_32 base (u32 (pc + 4)).

Definition regs_up : list Z := seqZ 0 15.
Definition arm7_block_xfer (inst : Z) : armM unit :=
  let rn := Z.shiftr (Z.land inst (BIT_RANGE 16 19)) 16 in
  let reg_list := Z.land inst 0xffff in
  let pre := inst_bit 24 inst in
  let up := inst_bit 23 inst in
  let psr_user_force := inst_bit 22 inst in
  let writeback := inst_bit 21 inst in
  let load := inst_bit 20 inst in
  when (psr_user_force && (negb (inst_bit 15 reg_list) || negb load)) (raise ERROR_UNIMPLEMENTED) ;;
  when (rn =? 15) (raise ERROR_UNIMPLEMENTED) ;;
  baseptr <- arm7_gen_reg rn ;;
  base <- areg_get baseptr ;;
  when (writeback && inst_bit rn reg_list) (raise ERROR_UNIMPLEMENTED) ;;
  when (negb (truth reg_list)) (raise ERROR_UNIMPLEMENTED) ;;
  when (truth (base mod 4)) (raise ERROR_UNIMPLEMENTED) ;;
  base <-
    (if up then
       if load then
         b <- xfer_loop up pre reg_list load_reg regs_up base ;;
         xfer_reg up pre reg_list (load_pc psr_user_force) 15 b
       else
         when psr_user_force (raise ERROR_UNIMPLEMENTED) ;;
         b <- xfer_loop up pre reg_list store_reg regs_up base ;;
         xfer_reg up pre reg_list store_pc 15 b
     else
       when psr_user_force (raise ERROR_UNIMPLEMENTED) ;;
       if load then xfer_loop up pre reg_list load_reg (15 :: reverse regs_up) base
       else
         b <- xfer_reg up pre reg_list store_pc 15 base ;;
         xfer_loop up pre reg_list store_reg (reverse regs_up) b) ;;
  when writeback (areg_set baseptr base) ;;
  if load && inst_bit 15 reg_list then reset_pipeline else next_inst.

(** ** The table of opcodes and the decoder *)
Definition S_CYCLE : Z := 1.
Definition N_CYCLE : Z := 1.
Definition I_CYCLE : Z := 1.

Definition MASK_B : Z := BIT_RANGE 25 27.
Definition VAL_B : Z := 0x0a000000.
Definition MASK_LDR_STR : Z := BIT_RANGE 26 27.
Definition VAL_LDR_STR : Z := 0x04000000.
Definition MASK_MRS : Z := Z.lor (Z.lor (BIT_RANGE 23 27) (BIT_RANGE 16 21)) (BIT_RANGE 0 11).
Definition VAL_MRS : Z := 0x010f0000.
Definition MASK_MSR : Z := Z.lor (BIT_RANGE 23 27) (BIT_RANGE 4 21).
Definition VAL_MSR : Z := 0x0129f000.
Definition MASK_DATA : Z := Z.lor (BIT_RANGE 21 24) (BIT_RANGE 26 27).
Definition VAL_ORR : Z := Z.shiftl 12 21.
Definition VAL_EOR : Z := Z.shiftl 1 21.
Definition VAL_BIC : Z := Z.shiftl 14 21.
Definition VAL_ADD : Z := Z.shiftl 4 21.
Definition VAL_SUB : Z := Z.shiftl 2 21.
Definition VAL_RSB : Z := Z.shiftl 3 21.
Definition VAL_CMP : Z := Z.shiftl 10 21.
Definition VAL_TST : Z := Z.shiftl 8 21.
Definition VAL_AND : Z := 0.
Definition VAL_MOV : Z := Z.shiftl 13 21.
Definition VAL_MVN : Z := Z.shiftl 15 21.
Definition VAL_CMN : Z := Z.shiftl 11 21.
Definition MASK_BLOCK_XFER : Z := BIT_RANGE 25 27.
Definition VAL_BLOCK_XFER : Z := Z.shiftl 4 25.
Definition MASK_MUL : Z := Z.lor (BIT_RANGE 22 27) (BIT_RANGE 4 7).
Definition VAL_MUL : Z := Z.shiftl 9 4.
Definition MASK_SWI : Z := BIT_RANGE 24 27.
Definition VAL_SWI : Z := BIT_RANGE 24 27.

Record arm7_opcode : Type := { op_fn : Z -> armM unit; op_mask : Z; op_val : Z; n_cycles : Z }.
Definition opc f m v n : arm7_opcode := {| op_fn := f; op_mask := m; op_val := v; n_cycles := n |}.
Definition ops : list arm7_opcode := [
  opc arm7_inst_branch MASK_B VAL_B (2 * S_CYCLE + 1 * N_CYCLE);
  opc arm7_inst_ldr_str MASK_LDR_STR VAL_LDR_STR (1 * S_CYCLE + 1 * N_CYCLE + 1 * I_CYCLE);
  opc arm7_block_xfer MASK_BLOCK_XFER VAL_BLOCK_XFER (1 * S_CYCLE + 1 * N_CYCLE + 1 * I_CYCLE);
  opc arm7_inst_mrs MASK_MRS VAL_MRS (1 * S_CYCLE);
  opc arm7_inst_msr MASK_MSR VAL_MSR (1 * S_CYCLE);
  opc arm7_inst_mul MASK_MUL VAL_MUL (4 * S_CYCLE);
  opc arm7_inst_orr MASK_DATA VAL_ORR (2 * S_CYCLE + 1 * N_CYCLE);
  opc arm7_inst_eor MASK_DATA VAL_EOR (2 * S_CYCLE + 1 * N_CYCLE);
  opc arm7_inst_bic MASK_DATA VAL_BIC (2 * S_CYCLE + 1 * N_CYCLE);
  opc arm7_inst_mov MASK_DATA VAL_MOV (2 * S_CYCLE + 1 * N_CYCLE);
  opc arm7_inst_add MASK_DATA VAL_ADD (2 * S_CYCLE + 1 * N_CYCLE);
  opc arm7_inst_sub MASK_DATA VAL_SUB (2 * S_CYCLE + 1 * N_CYCLE);
  opc arm7_inst_rsb MASK_DATA VAL_RSB (2 * S_CYCLE + 1 * N_CYCLE);
  opc arm7_inst_cmp MASK_DATA VAL_CMP (2 * S_CYCLE + 1 * N_CYCLE);
  opc arm7_inst_tst MASK_DATA VAL_TST (2 * S_CYCLE + 1 * N_CYCLE);
  opc arm7_inst_and MASK_DATA VAL_AND (2 * S_CYCLE + 1 * N_CYCLE);
  opc arm7_inst_mvn MASK_DATA VAL_MVN (2 * S_CYCLE + 1 * N_CYCLE);
  opc arm7_inst_cmn MASK_DATA VAL_CMN (2 * S_CYCLE + 1 * N_CYCLE);
  opc arm7_inst_swi MASK_SWI VAL_SWI (2 * S_CYCLE + 1 * N_CYCLE)
].

(** [struct arm7_decoded_inst] *)
Record arm7_decoded_inst : Type := {
  dec_cond : arm7 W -> bool;
  dec_op : Z -> armM unit;
  dec_inst : Z;
  dec_cycles : Z
}.

Definition arm7_match (inst : Z) (o : arm7_opcode) : bool := Z.land (op_mask o) inst =? op_val o.
Fixpoint arm7_search (inst : Z) (l : list arm7_opcode) : option arm7_opcode :=
  match l with
  | [] => None
  | o :: rest => if arm7_match inst o then Some o else arm7_search inst rest
  end.
Definition arm7_decode (inst : Z) : armM arm7_decoded_inst :=
  match arm7_search inst ops with
  | Some o => ret {| dec_cond := arm7_cond inst; dec_op := op_fn o; dec_inst := inst; dec_cycles := n_cycles o |}
  | None => raise ERROR_UNIMPLEMENTED
  end.

(** ** Exceptions *)
Definition arm7_pc_next (a : arm7 W) : Z :=
  if pipeline_full a then snd (pipeline_pc a) else ageta ARM7_REG_PC a.

(** the entry: saved status, link register, vector and mode *)
Definition arm7_enter (spsr link vector mode which : Z) : armM unit :=
  psr <- areg_get ARM7_REG_CPSR ;;
  areg_set spsr psr ;;
  next <- gets arm7_pc_next ;;
  areg_set link (next + 4) ;;
  areg_set ARM7_REG_PC vector ;;
  areg_set ARM7_REG_CPSR (Z.lor (Z.lor (Z.lor (Z.land psr (not32 ARM7_CPSR_M_MASK)) mode) ARM7_CPSR_I_MASK)
                            ARM7_CPSR_F_MASK) ;;
  reset_pipeline ;;
  modify (fun a => with_excp (Z.ldiff (excp a) which) a).

Definition arm7_check_excp : armM unit :=
  dirty <- gets excp_dirty ;;
  when dirty
    (pending <- gets excp ;;
     psr <- areg_get ARM7_REG_CPSR ;;
     line <- gets fiq_line ;;
     let pending := if line : bool then Z.lor pending ARM7_EXCP_FIQ else Z.ldiff pending ARM7_EXCP_FIQ in
     (if truth (Z.land pending ARM7_EXCP_RESET) then
        arm7_enter ARM7_REG_SPSR_SVC ARM7_REG_R14_SVC 0 ARM7_MODE_SVC ARM7_EXCP_RESET
      else if truth (Z.land pending ARM7_EXCP_FIQ) && negb (truth (Z.land psr ARM7_CPSR_F_MASK)) then
        arm7_enter ARM7_REG_SPSR_FIQ ARM7_REG_R14_FIQ 0x1c ARM7_MODE_FIQ ARM7_EXCP_FIQ
      else when (truth (Z.land pending ARM7_EXCP_SWI))
        (arm7_enter ARM7_REG_SPSR_SVC ARM7_REG_R14_SVC 0 ARM7_MODE_SVC ARM7_EXCP_SWI)) ;;
     modify (with_excp_dirty false)).

Definition arm7_set_fiq : armM unit := modify (with_fiq_line true) ;; modify (with_excp_dirty true).
Definition arm7_clear_fiq : armM unit := modify (with_fiq_line false).

Definition arm7_reset (val : bool) : armM unit :=
  en <- gets enabled ;;
  when (negb en && val)
    (modify (fun a => with_excp (Z.lor (excp a) ARM7_EXCP_RESET) a) ;; modify (with_excp_dirty true)) ;;
  modify (with_enabled val).

(** [arm7_init] and [arm7_set_mem_map]; the pointers are the parameter [AM] *)
Definition arm7_init (w : W) : arm7 W :=
  {| areg := replicate (Z.to_nat ARM7_REGISTER_COUNT) 0; pipeline := (0, 0); pipeline_pc := (0, 0); excp := 0;
     enabled := false; fiq_line := false; excp_dirty := false; pipeline_full := false; aworld := w |}.
Definition arm7_set_mem_map : armM unit := reset_pipeline.
Definition arm7_get_regs (a : arm7 W) : list Z := areg a.

(** ** Fetch and execute *)

(** the two words of prefetch after a branch *)
Definition fill_pipeline : armM Z :=
  full <- gets pipeline_full ;;
  pc <- areg_get ARM7_REG_PC ;;
  if full : bool then ret 0
  else
    i0 <- do_fetch_inst (u32 (pc + 4)) ;;
    i1 <- do_fetch_inst pc ;;
    modify (with_pipeline (i0, i1) (u32 (pc + 4), pc)) ;;
    modify (with_pipeline_full true) ;;
    areg_set ARM7_REG_PC (pc + 8) ;;
    ret 2.

Definition arm7_fetch_inst : armM arm7_decoded_inst :=
  arm7_check_excp ;;
  cycle_count <- fill_pipeline ;;
  pc <- areg_get ARM7_REG_PC ;;
  inst_fetched <- do_fetch_inst pc ;;
  p <- gets pipeline ;;
  q <- gets pipeline_pc ;;
  modify (with_pipeline (inst_fetched, fst p) (pc, fst q)) ;;
  d <- arm7_decode (snd p) ;;
  ret {| dec_cond := dec_cond d; dec_op := dec_op d; dec_inst := dec_inst d;
         dec_cycles := dec_cycles d + cycle_count |}.

Definition arm7_exec (inst : arm7_decoded_inst) : armM Z :=
  c <- gets (dec_cond inst) ;;
  (if c : bool then dec_op inst (dec_inst inst) else next_inst) ;;
  ret (dec_cycles inst).

(** [run_to_next_arm7_event] of dreamcast.c *)
Context {CLK : Clock W}.
Definition ARM7_CLOCK_SCALE : Z := sched.SCHED_FREQUENCY / (10 * 1000 * 1000).

Definition run_one_arm7_inst : armM unit :=
  decoded <- arm7_fetch_inst ;;
  inst_cycles <- arm7_exec decoded ;;
  now <- gets (fun a => clock_cycle_stamp (aworld a)) ;;
  let cycles_after := u64 (now + inst_cycles * ARM7_CLOCK_SCALE) in
  tgt_stamp <- gets (fun a => clock_target_stamp (aworld a)) ;;
  let cycles_after := if cycles_after >? tgt_stamp then tgt_stamp else cycles_after in
  modify (fun a => with_aworld (clock_set_cycle_stamp cycles_after (aworld a)) a).

Fixpoint arm7_event_loop (fuel : nat) : armM unit :=
  match fuel with
  | O => raise OUT_OF_FUEL
  | S fuel' =>
      tgt_stamp <- gets (fun a => clock_target_stamp (aworld a)) ;;
      now <- gets (fun a => clock_cycle_stamp (aworld a)) ;;
      if tgt_stamp >? now then run_one_arm7_inst ;; arm7_event_loop fuel' else ret tt
  end.

Definition run_to_next_arm7_event (fuel : nat) : armM unit :=
  en <- gets enabled ;;
  if en : bool then arm7_event_loop fuel
  else
    modify (fun a => with_aworld (clock_set_cycle_stamp (clock_target_stamp (aworld a)) (aworld a)) a).
End arm7.
