(* ===== verification/Arm7Board.v ===== *)
(** The sound CPU's bus: [construct_arm7_mem_map] and [arm7_unmapped_mem]
    (src/libwashdc/dreamcast.c), over the wave memory, with the interface of the AICA's registers
    as a parameter; and a machine with no such registers, on which the witnesses run. *)
From stdpp Require Import gmap.
From S2P Require Import Prelude MemoryMap Memory Sh4State Sh4Exec WaveMem Arm7.
Import memory_map memory.

(** ** The map *)
Definition ADDR_AICA_WAVE_MASK : Z := 0x001fffff.

Definition arm7_unmapped_mem {St} : memory_interface St :=
  {| read_fn := fun _ => Some (fun _ => ret 0); write_fn := fun _ => Some (fun _ _ => ret tt);
     try_read_fn := fun _ => None; try_write_fn := fun _ => None |}.

Definition construct_arm7_mem_map {St} (wave aica_sys_intf : memory_interface St) : M (memory_map St) unit :=
  memory_map_add 0x00000000 0x007fffff 0xffffffff ADDR_AICA_WAVE_MASK MEMORY_MAP_REGION_UNKNOWN wave ;;
  memory_map_add 0x00800000 0x00807fff 0xffffffff 0xffffffff MEMORY_MAP_REGION_UNKNOWN aica_sys_intf ;;
  modify (fun map => {| regions := regions map; unmap := Some arm7_unmapped_mem |}).

(** ** The machine *)
Record sound : Type := { wave_mem : aica_wave_mem; sound_stamp : Z; sound_target : Z }.
Definition with_wave_mem (m : aica_wave_mem) (w : sound) : sound :=
  {| wave_mem := m; sound_stamp := sound_stamp w; sound_target := sound_target w |}.

Definition wave_intf : memory_interface (arm7 sound) :=
  aica_wave_mem_intf (fun a => wave_mem (aworld a)) (fun m a => with_aworld (with_wave_mem m (aworld a)) a).

Definition arm7_mem_map (aica_sys_intf : memory_interface (arm7 sound)) : memory_map (arm7 sound) :=
  match construct_arm7_mem_map wave_intf aica_sys_intf memory_map_init with
  | Ok (_, m) => m
  | Err _ => memory_map_init
  end.

Definition sound_machine (aica_sys_intf : memory_interface (arm7 sound)) : Arm7Machine sound :=
  {| arm7_map := arm7_mem_map aica_sys_intf; inst_mem := wave_mem |}.

#[export] Instance bare_machine : Arm7Machine sound := sound_machine arm7_unmapped_mem.

#[export] Instance sound_clock : Clock sound := {|
  clock_target_stamp := sound_target;
  clock_cycle_stamp := sound_stamp;
  clock_set_cycle_stamp := fun v w =>
    {| wave_mem := wave_mem w; sound_stamp := v; sound_target := sound_target w |}
|}.

(** a CPU with the given registers and the given words of memory *)
Definition arm_with (regs mem : list (Z * Z)) : arm7 sound :=
  with_areg (fold_left (fun r '(i, v) => <[Z.to_nat i := v]> r) regs (replicate (Z.to_nat ARM7_REGISTER_COUNT) 0))
    (arm7_init {| wave_mem := fold_left (fun m '(p, v) => store 4 p v m) mem aica_wave_mem_init;
                  sound_stamp := 0; sound_target := 0 |}).

Lemma arm7_mem_map_eq aica_sys_intf :
  arm7_mem_map aica_sys_intf =
  {| regions :=
       [{| first_addr := 0x00000000; last_addr := 0x007fffff; range_mask := 0xffffffff;
           mask := ADDR_AICA_WAVE_MASK; id := MEMORY_MAP_REGION_UNKNOWN; intf := wave_intf |};
        {| first_addr := 0x00800000; last_addr := 0x00807fff; range_mask := 0xffffffff;
           mask := 0xffffffff; id := MEMORY_MAP_REGION_UNKNOWN; intf := aica_sys_intf |}];
     unmap := Some arm7_unmapped_mem |}.
Proof. reflexivity. Qed.
