(* ===== verification/Arm7Flags.v ===== *)
(** Properties of the ARM7's data processing: the registers, the rotation of operands, and the
    conditions after a comparison. *)
From stdpp Require Import gmap.
From S2P Require Import Prelude IntMath MemoryMap Memory Sh4State Sched Sh4Exec WaveMem Arm7 Arm7Board Board.
Import memory_map memory intmath.

(** ** The register file *)
Definition valid_areg (i : Z) : Prop := 0 <= i < ARM7_REGISTER_COUNT.

Record arm_ok {W} (a : arm7 W) : Prop := {
  arm_length : length (areg a) = Z.to_nat ARM7_REGISTER_COUNT;
  arm_range : Forall (in_range 32) (areg a)
}.

Section registers.
Context {W : Type}.
Implicit Types a : arm7 W.

Lemma ageta_range i a : arm_ok a -> in_range 32 (ageta i a).
Proof.
  intros [_ Hr]. unfold ageta. destruct (nth_in_or_default (Z.to_nat i) (areg a) 0) as [Hi| ->].
  - rewrite List.Forall_forall in Hr. auto.
  - by unfold in_range.
Qed.

Lemma arm_ok_areg a (b : arm7 W) : areg a = areg b -> arm_ok b -> arm_ok a.
Proof. intros E []. split; by rewrite E. Qed.

Lemma aseta_ok i v a : arm_ok a -> arm_ok (aseta i v a).
Proof.
  intros [Hl Hr]. unfold aseta. split; cbn; [by rewrite length_insert|].
  apply Forall_insert; [done|]. by apply wrap_range.
Qed.

Lemma ageta_aseta_eq i v a : arm_ok a -> valid_areg i -> ageta i (aseta i v a) = u32 v.
Proof.
  intros [Hl _] Hi. unfold ageta, aseta, valid_areg in *. cbn.
  rewrite nth_lookup, list_lookup_insert_eq; [done|]. rewrite Hl. lia.
Qed.

Lemma ageta_aseta_ne i j v a : 0 <= i -> 0 <= j -> i <> j -> ageta i (aseta j v a) = ageta i a.
Proof.
  intros Hi Hj Hne. unfold ageta, aseta. cbn. rewrite !nth_lookup. rewrite list_lookup_insert_ne; [done|]. lia.
Qed.
End registers.
#[export] Hint Resolve ageta_range aseta_ok : int_range.

(** ** Rotation *)
Lemma ror1_spec x i : in_range 32 x -> 0 <= i < 32 -> Z.testbit (ror1 x) i = Z.testbit x ((i + 1) mod 32).
Proof.
  intros Hx Hi. unfold ror1. rewrite Z.lor_spec, Z.shiftl_spec, Z.shiftr_spec by lia.
  destruct (Z.eq_dec i 31) as [->|Hne].
  - change (31 - 31) with 0. rewrite Z.land_spec. change ((31 + 1) mod 32) with 0.
    rewrite (in_range_testbit_high 32 x (31 + 1)) by (done || lia). by rewrite andb_true_r, orb_false_r.
  - rewrite (Z.testbit_neg_r _ (i - 31)) by lia. by rewrite Z.mod_small by lia.
Qed.

Lemma ror1_range x : in_range 32 x -> in_range 32 (ror1 x).
Proof.
  intros Hx. unfold ror1. apply lor_range; [lia| |].
  - apply in_range_bits; [lia|]. intros n Hn. rewrite Z.shiftl_spec, Z.land_spec by lia.
    replace (Z.testbit 1 (n - 31)) with false; [by rewrite andb_false_r|].
    symmetry. change 1 with (2 ^ 0). apply Z.pow2_bits_false. lia.
  - apply shiftr_range; lia || done.
Qed.

Lemma ror_range n : forall x, in_range 32 x -> in_range 32 (ror x n).
Proof. induction n as [|n IH]; intros x Hx; [done|]. cbn. by apply IH, ror1_range. Qed.

Lemma ror_spec n : forall x i, in_range 32 x -> 0 <= i < 32 ->
  Z.testbit (ror x n) i = Z.testbit x ((i + Z.of_nat n) mod 32).
Proof.
  induction n as [|n IH]; intros x i Hx Hi; cbn [ror].
  - by rewrite Z.add_0_r, Z.mod_small by lia.
  - rewrite IH, ror1_spec by (done || by apply ror1_range || by apply Z.mod_pos_bound).
    f_equal. rewrite Zplus_mod_idemp_l. f_equal. lia.
Qed.

(** the loop of [ror] is a rotation by [n mod 32], which takes two shifts *)
Lemma ror_two_shifts x n :
  in_range 32 x -> let m := Z.of_nat n mod 32 in ror x n = Z.lor (Z.shiftr x m) (u32 (Z.shiftl x (32 - m))).
Proof.
  intros Hx m. assert (Hm : 0 <= m < 32) by by apply Z.mod_pos_bound.
  apply Z.bits_inj'. intros i Hi. rewrite Z.lor_spec, Z.shiftr_spec, wrap_testbit, Z.shiftl_spec by lia.
  destruct (Z.ltb_spec i 32).
  - rewrite ror_spec by (done || lia). rewrite <- Zplus_mod_idemp_r. fold m.
    destruct (Z.ltb_spec (i + m) 32).
    + rewrite Z.mod_small by lia. rewrite (Z.testbit_neg_r x (i - (32 - m))) by lia. by rewrite orb_false_r.
    + replace ((i + m) mod 32) with (i - (32 - m)).
      * by rewrite (in_range_testbit_high 32 x (i + m)) by (done || lia).
      * apply Z.mod_unique with 1; lia.
  - rewrite (in_range_testbit_high 32 (ror x n)) by (lia || by apply ror_range).
    rewrite (in_range_testbit_high 32 x (i + m)) by (done || lia). done.
Qed.

(** ** Operands *)
Section operands.
Context {W : Type} {CFG : BuildConfig} {AM : Arm7Machine W}.
Implicit Types a : arm7 W.

Lemma gen_get_range r a v a' : arm_ok a -> gen_get r a = Ok (v, a') -> a' = a /\ in_range 32 v.
Proof.
  intros Hok H. unfold gen_get, arm7_gen_reg in H. apply bind_inv in H as (i & a1 & H1 & H2).
  apply bind_inv in H1 as (m & a2 & H3 & H4). injection H3 as <- <-.
  destruct (gen_reg_idx _ r); [|done]. injection H4 as <- <-. injection H2 as <- <-. split; [done|]. by apply ageta_range.
Qed.

Lemma do_decode_shift_range f x n c a v c' a' :
  in_range 32 x -> 0 <= n -> do_decode_shift f x n c a = Ok ((v, c'), a') -> a' = a /\ in_range 32 v.
Proof.
  intros Hx Hn. unfold do_decode_shift.
  destruct (f =? 0); [|destruct (f =? 1); [|destruct (f =? 2); [|destruct (f =? 3); [|done]]]].
  - destruct (n >=? 32); [done|]. intros [= <- _ <-]. split; [done|]. by apply wrap_range.
  - destruct (n >=? 32); [done|]. intros [= <- _ <-]. split; [done|]. by apply shiftr_range.
  - destruct (n =? 0); [done|]. destruct (n >=? 32); [done|]. intros [= <- _ <-]. split; [done|]. by apply wrap_range.
  - destruct (n =? 0); [done|]. intros [= <- _ <-]. split; [done|]. by apply ror_range.
Qed.

Lemma decode_shift_range inst c a v c' a' :
  arm_ok a -> decode_shift inst c a = Ok ((v, c'), a') -> a' = a /\ in_range 32 v.
Proof.
  intros Hok H. unfold decode_shift in H. apply bind_inv in H as (n & a1 & H1 & H2).
  assert (Hn : a1 = a /\ 0 <= n).
  { destruct (inst_bit 4 inst).
    - destruct (inst_bit 7 inst); [done|]. rewrite (bind_ok _ _ _ tt a eq_refl) in H1.
      destruct (Z.shiftr (Z.land inst (BIT_RANGE 8 11)) 8 =? 15); [done|].
      rewrite (bind_ok _ _ _ tt a eq_refl) in H1. apply bind_inv in H1 as (w & a2 & Hg & Hr).
      apply gen_get_range in Hg as [-> Hw]; [|done]. injection Hr as <- <-. split; [done|].
      apply Z.land_nonneg. by right.
    - injection H1 as <- <-. split; [done|]. apply Z.shiftr_nonneg, Z.land_nonneg. by right. }
  destruct Hn as [-> Hn]. apply bind_inv in H2 as (x & a2 & Hg & Hs).
  apply gen_get_range in Hg as [-> Hx]; [|done]. by eapply do_decode_shift_range.
Qed.

Lemma decode_immed_range inst : in_range 32 (decode_immed inst).
Proof.
  apply ror_range. apply land_range_r; [done|]. by vm_compute.
Qed.

Lemma data_inputs_range inst a x y c a' :
  arm_ok a -> data_inputs inst a = Ok ((x, y, c), a') -> a' = a /\ in_range 32 x /\ in_range 32 y.
Proof.
  intros Hok H. unfold data_inputs in H. rewrite (bind_ok _ _ _ (arm7_cond_cs a) a eq_refl) in H.
  apply bind_inv in H as (v & a1 & Hg & H). apply gen_get_range in Hg as [-> Hv]; [|done].
  destruct (inst_bit 25 inst).
  - injection H as <- <- _ <-. split_and!; [done..|apply decode_immed_range].
  - apply bind_inv in H as ([y' c'] & a2 & Hs & H). apply decode_shift_range in Hs as [-> Hy]; [|done].
    injection H as <- <- _ <-. split_and!; [done| |done].
    destruct (inst_bit 4 inst && _); [by apply wrap_range|done].
Qed.
End operands.

(** ** Comparison *)

(** what each condition means after a comparison of [x] with [y] *)
Definition cmp_cond (code x y : Z) : bool :=
  match code with
  | 0 => x =? y | 1 => negb (x =? y)
  | 2 => y <=? x | 3 => x <? y
  | 4 => 2 ^ 31 <=? u32 (x - y) | 5 => u32 (x - y) <? 2 ^ 31
  | 6 => negb (fits_int32 (s32 x - s32 y)) | 7 => fits_int32 (s32 x - s32 y)
  | 8 => y <? x | 9 => x <=? y
  | 10 => s32 y <=? s32 x | 11 => s32 x <? s32 y
  | 12 => s32 y <? s32 x | 13 => s32 x <=? s32 y
  | 14 => true | _ => false
  end.

Lemma sign_bit x : in_range 32 x -> truth (Z.land x (Z.shiftl 1 31)) = (2 ^ 31 <=? x).
Proof.
  intros Hx. change (Z.shiftl 1 31) with (2 ^ 31). rewrite truth_land_bit by lia.
  rewrite Z.testbit_eqb by lia. destruct (Z.leb_spec (2 ^ 31) x).
  - replace (x / 2 ^ 31) with 1; [done|]. apply Z.div_unique with (x - 2 ^ 31); unfold in_range in *; lia.
  - by rewrite Z.div_small by (unfold in_range in *; lia).
Qed.

(** the result and the four flags of a subtraction *)
Lemma arm_sub_spec x y : in_range 32 x -> in_range 32 y ->
  arm_sub x y = (u32 (x - y), {| n_out := 2 ^ 31 <=? u32 (x - y); c_out := y <=? x; z_out := x =? y;
                                 v_out := negb (fits_int32 (s32 x - s32 y)) |}).
Proof.
  intros Hx Hy. unfold arm_sub. pose proof (sub_flags_diff y x false Hy Hx) as Hd.
  pose proof (sub_flags_overflow (s32 y) (s32 x) (swrap_range 32 y ltac:(lia)) (swrap_range 32 x ltac:(lia))) as Hv.
  destruct (sub_flags _ _ _) as [[r c] v]. cbn [snd] in *. subst v.
  pose proof (wrap_range 32 r ltac:(lia)) as Hr. unfold arith_flags. rewrite sign_bit by done.
  assert (Hu : u32 r = u32 (x - y)).
  { unfold wrap at 2. apply Z.mod_unique with (- b2z c); unfold in_range in *; [lia|].
    destruct c; unfold b2z in *; lia. }
  rewrite Hu in *. unfold in_range, b2z in *. f_equal. f_equal.
  - destruct c, (Z.leb_spec y x); done || lia.
  - unfold truth. rewrite negb_involutive. destruct c, (Z.eqb_spec (u32 (x - y)) 0), (Z.eqb_spec x y); done || lia.
Qed.

(** the conditions read the four flags that [set_flags] wrote, and the rest of the CPSR stays *)
Lemma set_flags_testbit f psr n : 0 <= n < 32 ->
  Z.testbit (set_flags false f psr) n =
  if n =? 31 then n_out f else if n =? 30 then z_out f else if n =? 29 then c_out f
  else if n =? 28 then v_out f else Z.testbit psr n.
Proof.
  intros Hn. unfold set_flags. rewrite !Z.lor_spec, Z.land_spec.
  assert (Hb : forall b k, 0 <= k -> Z.testbit (flag_bit b (Z.shiftl 1 k)) n = (k =? n) && b).
  { intros b k Hk. rewrite Z.shiftl_1_l. destruct b; cbn [flag_bit]; rewrite ?Z.bits_0, ?andb_false_r, ?andb_true_r; [|done].
    by apply Z.pow2_bits_eqb. }
  unfold ARM7_CPSR_Z_MASK, ARM7_CPSR_N_MASK, ARM7_CPSR_C_MASK, ARM7_CPSR_V_MASK. rewrite !Hb by lia.
  rewrite (Z.eqb_sym 31 n), (Z.eqb_sym 30 n), (Z.eqb_sym 29 n), (Z.eqb_sym 28 n).
  destruct (Z.eqb_spec n 31) as [->|]; [by destruct (Z.testbit psr 31), (n_out f)|].
  destruct (Z.eqb_spec n 30) as [->|]; [by destruct (Z.testbit psr 30), (z_out f)|].
  destruct (Z.eqb_spec n 29) as [->|]; [by destruct (Z.testbit psr 29), (c_out f)|].
  destruct (Z.eqb_spec n 28) as [->|]; [by destruct (Z.testbit psr 28), (v_out f)|].
  rewrite !andb_false_l, !orb_false_r, not32_spec by (lia || by vm_compute).
  rewrite !Z.lor_spec, !Z.shiftl_1_l, !Z.pow2_bits_false, (proj2 (Z.ltb_lt n 32)) by lia. by rewrite andb_true_r.
Qed.

Lemma set_flags_range b f psr : in_range 32 psr -> in_range 32 (set_flags b f psr).
Proof.
  intros H. unfold set_flags. destruct b, f as [[] [] [] []]; cbn [flag_bit z_out n_out c_out v_out];
    repeat apply lor_range; try lia; try (by apply land_range_l); by vm_compute.
Qed.

(** N xor V is the sign of the exact difference *)
Lemma sub_ge x y : in_range 32 x -> in_range 32 y ->
  Bool.eqb (2 ^ 31 <=? u32 (x - y)) (negb (fits_int32 (s32 x - s32 y))) = (s32 y <=? s32 x).
Proof.
  intros Hx Hy. assert (Hu : u32 (x - y) = u32 (s32 x - s32 y)).
  { rewrite <- wrap_sub_l, <- wrap_sub_r, <- (wrap_sub_l 32 (s32 x)), <- (wrap_sub_r 32 _ (s32 y)).
    by rewrite !wrap_swrap by lia. }
  rewrite Hu. pose proof (swrap_range 32 x ltac:(lia)). pose proof (swrap_range 32 y ltac:(lia)).
  set (p := s32 x) in *. set (q := s32 y) in *. clearbody p q. clear Hu Hx Hy x y.
  unfold fits_int32, INT_MIN, INT_MAX. change (2 ^ (32 - 1)) with 2147483648 in *. change (2 ^ 31) with 2147483648.
  unfold wrap. change (2 ^ 32) with 4294967296.
  destruct (Z.leb_spec 0 (p - q)).
  - rewrite Z.mod_small by lia. repeat destruct (Z.leb_spec _ _); cbn; done || lia.
  - rewrite <- (Z_mod_plus_full _ 1), Z.mod_small by lia.
    repeat destruct (Z.leb_spec _ _); cbn; done || lia.
Qed.

Lemma s32_eqb x y : in_range 32 x -> in_range 32 y -> (s32 x =? s32 y) = (x =? y).
Proof.
  intros Hx Hy. destruct (Z.eqb_spec x y) as [->|Hne]; [by rewrite Z.eqb_refl|].
  apply Z.eqb_neq. intros He. apply (f_equal u32) in He. rewrite !wrap_swrap, !wrap_small in He by (done || lia). done.
Qed.

Section cmp.
Context {W : Type} {CFG : BuildConfig} {AM : Arm7Machine W}.
Implicit Types a : arm7 W.

Lemma cond_after_cmp a x y psr : in_range 32 x -> in_range 32 y ->
  cpsr a = set_flags false (snd (arm_sub x y)) psr ->
  forall inst, arm7_cond inst a = cmp_cond (Z.shiftr (Z.land inst ARM7_INST_COND_MASK) ARM7_INST_COND_SHIFT) x y.
Proof.
  intros Hx Hy Hp inst.
  assert (Hbit : forall n, 28 <= n < 32 -> truth (Z.land (cpsr a) (Z.shiftl 1 n)) =
            if n =? 31 then 2 ^ 31 <=? u32 (x - y) else if n =? 30 then x =? y else if n =? 29 then y <=? x
            else negb (fits_int32 (s32 x - s32 y))).
  { intros n Hn. rewrite Z.shiftl_1_l, truth_land_bit, Hp, set_flags_testbit, arm_sub_spec by (done || lia).
    cbn [snd n_out z_out c_out v_out]. destruct (n =? 31) eqn:E1, (n =? 30) eqn:E2, (n =? 29) eqn:E3, (n =? 28) eqn:E4; done || lia. }
  assert (Hn : arm7_cond_mi a = (2 ^ 31 <=? u32 (x - y))) by (by apply (Hbit 31)).
  assert (Hz : arm7_cond_eq a = (x =? y)) by (by apply (Hbit 30)).
  assert (Hc : arm7_cond_cs a = (y <=? x)) by (by apply (Hbit 29)).
  assert (Hv : arm7_cond_vs a = negb (fits_int32 (s32 x - s32 y))) by (by apply (Hbit 28)).
  assert (Hge : arm7_cond_ge a = (s32 y <=? s32 x)).
  { unfold arm7_cond_ge. rewrite Hn, Hv. by apply sub_ge. }
  assert (Heq : (s32 x =? s32 y) = (x =? y)) by by apply s32_eqb.
  unfold arm7_cond, cmp_cond, arm7_cond_le, arm7_cond_gt, arm7_cond_lt, arm7_cond_ls, arm7_cond_hi, arm7_cond_vc,
    arm7_cond_pl, arm7_cond_cc, arm7_cond_ne, arm7_cond_al, arm7_cond_nv.
  repeat case_match; cbn beta; rewrite ?Hn, ?Hz, ?Hc, ?Hv, ?Hge, ?negb_involutive; done || lia.
Qed.

(** C29: the condition codes are the comparisons they are named after: once [CMP] has compared two
    operands [x] and [y], of whatever form, each of the sixteen conditions, as [arm7_cond] selects
    it from the next instruction's word, is the unsigned or signed comparison of [x] with [y]; and
    no general register but the PC, which moves to the next instruction, has changed. *)
Theorem arm7_cmp_conditions inst a x y c :
  arm_ok a -> inst_bit 20 inst = true -> Z.land (Z.shiftr inst 12) 0xf <> 15 ->
  data_inputs inst a = Ok ((x, y, c), a) ->
  exists a', arm7_inst_cmp inst a = Ok (tt, a') /\
    (forall next, arm7_cond next a' =
       cmp_cond (Z.shiftr (Z.land next ARM7_INST_COND_MASK) ARM7_INST_COND_SHIFT) x y) /\
    ageta ARM7_REG_PC a' = u32 (ageta ARM7_REG_PC a + 4) /\
    (forall i, 0 <= i -> i <> ARM7_REG_PC -> i <> ARM7_REG_CPSR -> ageta i a' = ageta i a).
Proof.
  intros Hok Hs Hrd Hin. destruct (data_inputs_range _ _ _ _ _ _ Hok Hin) as (_ & Hx & Hy).
  pose proof (ageta_range ARM7_REG_CPSR a Hok) as Hpsr.
  unfold arm7_inst_cmp, data_inst. rewrite (bind_ok _ _ _ _ _ Hin). rewrite Hs, (proj2 (Z.eqb_neq _ _) Hrd).
  cbn [andb negb arm7_op_cmp]. eexists. split; [reflexivity|].
  assert (H31 : valid_areg ARM7_REG_CPSR) by done. assert (H15 : valid_areg ARM7_REG_PC) by done.
  split_and!.
  - apply cond_after_cmp with (psr := ageta ARM7_REG_CPSR a); [done..|]. unfold cpsr.
    rewrite ageta_aseta_ne, ageta_aseta_eq by done. apply wrap_small. by apply set_flags_range.
  - rewrite ageta_aseta_eq, ageta_aseta_ne by (done || by apply aseta_ok). done.
  - intros i Hi Hpc Hps. by rewrite !ageta_aseta_ne.
Qed.
End cmp.

(** a check of [arm_ok] by computation *)
Lemma arm_with_ok regs mem :
  forallb (fun p => (0 <=? snd p) && (snd p <? 2 ^ 32)) regs = true -> arm_ok (arm_with regs mem).
Proof.
  intros H. unfold arm_with.
  assert (Hgen : forall l, Forall (in_range 32) l -> length l = Z.to_nat ARM7_REGISTER_COUNT ->
            Forall (in_range 32) (fold_left (fun r '(i, v) => <[Z.to_nat i := v]> r) regs l) /\
            length (fold_left (fun r '(i, v) => <[Z.to_nat i := v]> r) regs l) = Z.to_nat ARM7_REGISTER_COUNT).
  { induction regs as [|[i v] rest IH]; intros l Hl Hn; [done|]. cbn in H |- *. apply andb_prop in H as [Hv H].
    apply IH; [done| |by rewrite length_insert]. apply Forall_insert; [done|]. unfold in_range. lia. }
  destruct (Hgen (replicate (Z.to_nat ARM7_REGISTER_COUNT) 0)) as [Hr Hl]; [|done|by constructor].
  apply Forall_replicate. by unfold in_range.
Qed.

(** [CMP r1, r2, LSL #2] with r1 = 2^31 and r2 = 1: greater as unsigned numbers, less as signed ones *)
Lemma arm7_cmp_conditions_witness :
  exists a', arm7_inst_cmp 0xe1510102 (arm_with [(1, 2 ^ 31); (2, 1); (ARM7_REG_CPSR, 0x13)] []) = Ok (tt, a') /\
    arm7_cond 0x80000000 a' = true /\ arm7_cond 0xb0000000 a' = true /\ arm7_cond 0x60000000 a' = true.
Proof.
  destruct (arm7_cmp_conditions 0xe1510102 (arm_with [(1, 2 ^ 31); (2, 1); (ARM7_REG_CPSR, 0x13)] []) (2 ^ 31) 4 false
              ltac:(by apply arm_with_ok) eq_refl ltac:(done) ltac:(by vm_compute)) as (a' & H1 & H2 & _).
  exists a'. split_and!; [exact H1|rewrite H2; reflexivity..].
Defined.
