(* ===== verification/Arm7Pipe.v ===== *)
(** The prefetch buffer of the sound CPU against a plain program counter: each instruction sees its
    own address plus 8 in R15, and the next one is the word after it unless the instruction wrote
    R15 or was a software interrupt.

    [keeps b m Q]: [m] leaves the buffer alone, and where [b] the PC, and returns a value that
    satisfies [Q]; its rules follow the monad, and every instruction is a part that keeps them and
    one last step. *)
From stdpp Require Import gmap.
From S2P Require Import Prelude IntMath MemoryMap Memory Sh4State Board Sched Sh4Exec WaveMem Arm7 Arm7Board Arm7Flags.
Import memory_map memory intmath.

(** ** What stays *)
Section same.
Context {W : Type}.
Implicit Types a : arm7 W.

Record same_pipe (b : bool) a a' : Prop := {
  sp_ok : arm_ok a -> arm_ok a';
  sp_pc : b = true -> ageta ARM7_REG_PC a' = ageta ARM7_REG_PC a;
  sp_pipeline : pipeline a' = pipeline a;
  sp_pipeline_pc : pipeline_pc a' = pipeline_pc a;
  sp_full : pipeline_full a' = pipeline_full a
}.

#[export] Instance same_pipe_preorder b : PreOrder (same_pipe b).
Proof.
  split; [by intros a; constructor|]. intros x y z [? H1 ? ? ?] [? H2 ? ? ?].
  constructor; [by auto|intros; rewrite H2, H1 by done; done|congruence..].
Qed.

Definition keeps (b : bool) {A} (m : M (arm7 W) A) (Q : A -> Prop) : Prop :=
  forall a v a', m a = Ok (v, a') -> same_pipe b a a' /\ Q v.

Lemma keeps_bind b {A B} (m : M (arm7 W) A) (k : A -> M (arm7 W) B) Q R :
  keeps b m Q -> (forall v, Q v -> keeps b (k v) R) -> keeps b (bind m k) R.
Proof.
  intros Hm Hk a v a' H. apply bind_inv in H as (u & a1 & H1 & H2). destruct (Hm _ _ _ H1) as [S1 HQ].
  destruct (Hk u HQ _ _ _ H2) as [S2 HR]. split; [by etrans|done].
Qed.

Lemma keeps_any b {A} (m : M (arm7 W) A) Q : keeps true m Q -> keeps b m Q.
Proof.
  intros H a v a' E. destruct (H _ _ _ E) as [[] HQ]. split; [by constructor; auto|done].
Qed.

Lemma keeps_weaken b {A} (m : M (arm7 W) A) (Q R : A -> Prop) :
  keeps b m Q -> (forall v, Q v -> R v) -> keeps b m R.
Proof. intros H HQ a v a' E. destruct (H _ _ _ E). auto. Qed.

Lemma keeps_ret b {A} (v : A) (Q : A -> Prop) : Q v -> keeps b (ret v) Q.
Proof. intros HQ a u a' [= <- <-]. by split. Qed.

Lemma keeps_raise b {A} e (Q : A -> Prop) : keeps b (raise e) Q.
Proof. by intros a v a'. Qed.

Lemma keeps_gets b {A} (f : arm7 W -> A) : keeps b (gets f) (fun _ => True).
Proof. intros a v a' [= <- <-]. by split. Qed.

Lemma keeps_when b c (m : M (arm7 W) unit) :
  (c = true -> keeps b m (fun _ => True)) -> keeps b (when c m) (fun _ => True).
Proof. destruct c; [by auto|]. intros _. by apply keeps_ret. Qed.

Lemma keeps_guard b c e : keeps b (when c (raise e)) (fun _ => c = false).
Proof. destruct c; [apply keeps_raise|by apply keeps_ret]. Qed.

Lemma keeps_areg_get b i : keeps b (areg_get i) (fun _ => True).
Proof. apply keeps_gets. Qed.

Definition other_reg (b : bool) (i : Z) : Prop := 0 <= i /\ (b = true -> i <> ARM7_REG_PC).

Lemma keeps_areg_set b i v : other_reg b i -> keeps b (areg_set i v) (fun _ => True).
Proof.
  intros [Hi Hne] a u a' [= <- <-]. split; [|done]. constructor; try done; [by apply aseta_ok|].
  intros Hb. rewrite ageta_aseta_ne; [done|done|done|]. intros E. by apply Hne.
Qed.
End same.
Create HintDb arm_keep.
#[export] Hint Resolve keeps_raise keeps_gets keeps_areg_get keeps_areg_set : arm_keep.

(** binds and conditionals by the structure of the program *)
Ltac keep_step :=
  lazymatch goal with
  | |- keeps _ (bind (when _ (raise _)) _) _ => eapply keeps_bind; [apply keeps_guard|intros ? ?; cbn beta in *]
  | |- keeps _ (bind (if _ then _ else _) _) _ => apply keeps_bind with (Q := fun _ => True); [|intros ? _]
  | |- keeps _ (bind _ _) _ => eapply keeps_bind; [|intros ? ?; cbn beta in *]
  | |- keeps _ (if ?b then _ else _) _ => destruct b eqn:?
  | |- keeps _ (ret _) _ => apply keeps_ret
  | |- keeps _ (let '(_, _) := ?p in _) _ => destruct p
  | |- keeps _ (when _ _) _ => apply keeps_when; intros ?
  | |- _ => solve [eauto with arm_keep]
  end.
Ltac keep := cbn zeta; repeat keep_step.

(** the devices on the bus do not touch the CPU's registers and its buffer; they may raise or
    clear its interrupt line and reset it *)
Class Arm7MapLaws (W : Type) `{!Arm7Machine W} : Prop := {
  map_read_keeps : forall b sz addr, keeps b (memory_map_read sz arm7_map addr) (fun _ => True);
  map_write_keeps : forall b sz addr v, keeps b (memory_map_write sz arm7_map addr v) (fun _ => True)
}.
#[export] Hint Resolve map_read_keeps map_write_keeps : arm_keep.

(** ** Registers *)
Section registers.
Context {W : Type} {CFG : BuildConfig} {AM : Arm7Machine W} {ML : Arm7MapLaws W}.
Implicit Types a : arm7 W.

Lemma keeps_gen_reg b r :
  0 <= r -> (b = true -> r <> 15) -> keeps b (arm7_gen_reg (W := W) r) (other_reg b).
Proof.
  intros Hr Hne. unfold arm7_gen_reg. eapply keeps_bind; [apply keeps_gets|]. intros mode _.
  destruct (gen_reg_idx mode r) as [i|] eqn:E; [|apply keeps_raise]. apply keeps_ret.
  unfold gen_reg_idx in E. unfold other_reg, ARM7_REG_PC, ARM7_REG_R15.
  repeat match type of E with context [if ?b then _ else _] => destruct b eqn:? end; try done;
    injection E as <-; unfold ARM7_REG_R0, ARM7_REG_R8_FIQ, ARM7_REG_R13_IRQ, ARM7_REG_R13_SVC, ARM7_REG_R13_ABT,
      ARM7_REG_R13_UND; (split; [lia|intros Hb; specialize (Hne Hb); lia]).
Qed.

Lemma keeps_spsr_idx b : keeps b (arm7_spsr_idx (W := W)) (other_reg b).
Proof.
  unfold arm7_spsr_idx. eapply keeps_bind; [apply keeps_gets|]. intros mode _. by keep.
Qed.

Lemma keeps_gen_get b r : 0 <= r -> keeps b (gen_get (W := W) r) (fun _ => True).
Proof.
  intros Hr. unfold gen_get. apply keeps_any. intros a v a' H. apply bind_inv in H as (i & a1 & H1 & H2).
  unfold arm7_gen_reg in H1. apply bind_inv in H1 as (mode & a2 & H3 & H4). injection H3 as <- <-.
  destruct (gen_reg_idx _ r); [|done]. injection H4 as <- <-. injection H2 as <- <-. by split.
Qed.

Lemma keeps_gen_set b r v :
  0 <= r -> (b = true -> r <> 15) -> keeps b (gen_set (W := W) r v) (fun _ => True).
Proof.
  intros Hr Hne. unfold gen_set. eapply keeps_bind; [by apply keeps_gen_reg|]. intros i Hi. by apply keeps_areg_set.
Qed.

Lemma BIT_RANGE_nonneg i j : 0 <= i -> i <= j -> 0 <= BIT_RANGE i j.
Proof.
  intros Hi Hj. unfold BIT_RANGE. apply Z.land_nonneg. left. by apply (wrap_range 32).
Qed.
End registers.

(** fields of an instruction *)
Ltac field_nonneg :=
  lazymatch goal with
  | |- 0 <= Z.shiftr _ _ => apply Z.shiftr_nonneg; field_nonneg
  | |- 0 <= Z.land _ _ => apply Z.land_nonneg; first [right; field_nonneg | left; field_nonneg]
  | |- 0 <= BIT_RANGE _ _ => apply BIT_RANGE_nonneg; lia
  | |- _ => lia
  end.
#[export] Hint Resolve keeps_spsr_idx keeps_gen_reg keeps_gen_get keeps_gen_set : arm_keep.
#[export] Hint Extern 2 (0 <= _) => field_nonneg : arm_keep.
#[export] Hint Extern 2 (other_reg _ ARM7_REG_CPSR) => done : arm_keep.
#[export] Hint Extern 4 => lazymatch goal with |- _ = true -> _ => intros ?; discriminate || lia end : arm_keep.

(** ** How an instruction ends *)
Section endings.
Context {W : Type} {CFG : BuildConfig} {AM : Arm7Machine W} {ML : Arm7MapLaws W}.
Implicit Types a : arm7 W.

(** a software interrupt that the next fetch will take *)
Definition swi_pending a : Prop := excp_dirty a = true /\ Z.testbit (excp a) 5 = true.

(** the buffer is dropped, or the PC moves on by a word, or a software interrupt is pending *)
Definition ended a a' : Prop :=
  arm_ok a' /\
  (pipeline_full a' = false \/
   pipeline a' = pipeline a /\ pipeline_pc a' = pipeline_pc a /\ pipeline_full a' = pipeline_full a /\
   (ageta ARM7_REG_PC a' = u32 (ageta ARM7_REG_PC a + 4) \/
    ageta ARM7_REG_PC a' = ageta ARM7_REG_PC a /\ swi_pending a')).
Definition ends (m : M (arm7 W) unit) : Prop := forall a a', arm_ok a -> m a = Ok (tt, a') -> ended a a'.

Lemma ends_bind {A} (m : M (arm7 W) A) k Q :
  keeps true m Q -> (forall v, Q v -> ends (k v)) -> ends (bind m k).
Proof.
  intros Hm Hk a a' Hok H. apply bind_inv in H as (v & a1 & H1 & H2).
  destruct (Hm _ _ _ H1) as [[Hok1 Hpc Hp Hq Hf] HQ]. specialize (Hpc eq_refl).
  destruct (Hk v HQ a1 a' (Hok1 Hok) H2) as [Hok2 He]. split; [done|]. rewrite <- Hp, <- Hq, <- Hf, <- Hpc. done.
Qed.

(** programs that may write the PC and end by dropping the buffer *)
Definition resets (m : M (arm7 W) unit) : Prop :=
  forall a a', arm_ok a -> m a = Ok (tt, a') -> arm_ok a' /\ pipeline_full a' = false.

Lemma resets_bind {A} (m : M (arm7 W) A) k Q :
  keeps false m Q -> (forall v, Q v -> resets (k v)) -> resets (bind m k).
Proof.
  intros Hm Hk a a' Hok H. apply bind_inv in H as (v & a1 & H1 & H2).
  destruct (Hm _ _ _ H1) as [[Hok1 _ _ _ _] HQ]. by apply (Hk v HQ a1 a' (Hok1 Hok)).
Qed.

Lemma resets_reset : resets reset_pipeline.
Proof. intros a a' [Hl Hr] [= <-]. by split; [split|]. Qed.

Lemma resets_ends m : resets m -> ends m.
Proof. intros Hm a a' Hok H. destruct (Hm a a' Hok H). split; [done|by left]. Qed.

Lemma ends_next : ends next_inst.
Proof.
  intros a a' Hok [= <-]. split; [by apply aseta_ok|]. right. split_and!; [done..|]. left.
  by rewrite ageta_aseta_eq.
Qed.

Lemma ends_raise e : ends (raise e).
Proof. by intros a a'. Qed.
End endings.
#[export] Hint Resolve ends_next ends_raise resets_reset : arm_keep.

(** the same by the structure of a program that ends an instruction *)
Ltac end_step :=
  lazymatch goal with
  | |- ends (bind (when _ (raise _)) _) => eapply ends_bind; [apply keeps_guard|intros ? ?; cbn beta in *]
  | |- resets (bind (when _ (raise _)) _) => eapply resets_bind; [apply keeps_guard|intros ? ?; cbn beta in *]
  | |- ends (bind (if _ then _ else _) _) => apply ends_bind with (Q := fun _ => True); [keep; try done|intros ? _]
  | |- resets (bind (if _ then _ else _) _) => apply resets_bind with (Q := fun _ => True); [keep; try done|intros ? _]
  | |- ends (bind _ _) => eapply ends_bind; [keep; try done|intros ? ?; cbn beta in *]
  | |- resets (bind _ _) => eapply resets_bind; [keep; try done|intros ? ?; cbn beta in *]
  | |- ends (let '(_, _) := ?p in _) => destruct p
  | |- _ => solve [eauto with arm_keep]
  end.
Ltac endings := cbn zeta; repeat end_step.

(** ** The instructions *)
Section instructions.
Context {W : Type} {CFG : BuildConfig} {AM : Arm7Machine W} {ML : Arm7MapLaws W}.
Implicit Types a : arm7 W.

Lemma keeps_decode_shift b inst c : keeps b (decode_shift (W := W) inst c) (fun _ => True).
Proof. unfold decode_shift, do_decode_shift. by keep.
Qed.

Lemma keeps_decode_shift_ldr_str b inst c : keeps b (decode_shift_ldr_str (W := W) inst c) (fun _ => True).
Proof. unfold decode_shift_ldr_str, do_decode_shift. by keep. Qed.

Lemma keeps_data_inputs b inst : keeps b (data_inputs (W := W) inst) (fun _ => True).
Proof.
  unfold data_inputs. keep; try done. apply keeps_decode_shift.
Qed.

Lemma keeps_map_read_32 b addr : keeps b (map_read_32 (W := W) addr) (fun _ => True).
Proof. unfold map_read_32. by keep. Qed.
Lemma keeps_map_read_8 b addr : keeps b (map_read_8 (W := W) addr) (fun _ => True).
Proof. unfold map_read_8. by keep. Qed.
Lemma keeps_map_write_32 b addr v : keeps b (map_write_32 (W := W) addr v) (fun _ => True).
Proof. apply map_write_keeps. Qed.
Lemma keeps_map_write_8 b addr v : keeps b (map_write_8 (W := W) addr v) (fun _ => True).
Proof. apply map_write_keeps. Qed.
#[local] Hint Resolve keeps_decode_shift keeps_decode_shift_ldr_str keeps_data_inputs keeps_map_read_32
  keeps_map_read_8 keeps_map_write_32 keeps_map_write_8 : arm_keep.

Lemma data_inst_ends op l rs wr inst : ends (data_inst (W := W) op l rs wr inst).
Proof.
  unfold data_inst. eapply ends_bind; [apply keeps_data_inputs|]. intros [[x y] c] _. destruct (op x y c) as [v f].
  end_step. destruct wr; [|apply ends_next]. destruct (Z.eqb_spec (Z.land (Z.shiftr inst 12) 15) 15) as [E|E].
  - apply resets_ends. rewrite E. by endings.
  - by endings.
Qed.

Lemma branch_ends inst : ends (arm7_inst_branch (W := W) inst).
Proof. apply resets_ends. unfold arm7_inst_branch. endings. by apply keeps_areg_set. Qed.

Lemma mrs_ends inst : Z.land (Z.shiftr inst 12) 0xf <> 15 -> ends (arm7_inst_mrs (W := W) inst).
Proof.
  intros Hrd. unfold arm7_inst_mrs. endings. eapply keeps_weaken; [apply keeps_spsr_idx|done].
Qed.

Lemma msr_ends inst : ends (arm7_inst_msr (W := W) inst).
Proof.
  unfold arm7_inst_msr. cbn zeta. eapply (ends_bind _ _ (other_reg true)).
  { destruct (inst_bit 22 inst); [apply keeps_spsr_idx|by apply keeps_ret]. }
  intros dst Hd. by endings.
Qed.

Lemma mul_ends inst : ends (arm7_inst_mul (W := W) inst).
Proof. unfold arm7_inst_mul. by endings. Qed.

Lemma swi_ends inst : ends (arm7_inst_swi (W := W) inst).
Proof.
  intros a a' [Hl Hr] [= <-]. split; [by split|]. right. split_and!; [done..|]. right. split; [done|]. split; [done|].
  unfold with_excp_dirty, with_excp. cbn [excp]. by rewrite Z.lor_spec, orb_true_r.
Qed.

Lemma ldr_str_ends inst : ends (arm7_inst_ldr_str (W := W) inst).
Proof.
  unfold arm7_inst_ldr_str. cbn zeta.
  destruct (negb (negb (inst_bit 20 inst)) && (Z.land (Z.shiftr inst 12) 15 =? 15)) eqn:E.
  - apply resets_ends. by endings.
  - by endings.
Qed.

Lemma keeps_xfer_reg b up pre rl (x : Z -> Z -> M (arm7 W) unit) r base :
  (inst_bit r rl = true -> forall p, keeps b (x r p) (fun _ => True)) ->
  keeps b (xfer_reg up pre rl x r base) (fun _ => True).
Proof. intros Hx. unfold xfer_reg. by keep. Qed.

Lemma keeps_xfer_loop b up pre rl (x : Z -> Z -> M (arm7 W) unit) regs : forall base,
  Forall (fun r => inst_bit r rl = true -> forall p, keeps b (x r p) (fun _ => True)) regs ->
  keeps b (xfer_loop up pre rl x regs base) (fun _ => True).
Proof.
  induction regs as [|r rest IH]; intros base Hx; cbn [xfer_loop]; [by apply keeps_ret|].
  inversion_clear Hx as [|? ? Hr Hrest]. eapply keeps_bind; [by apply keeps_xfer_reg|]. intros. by apply IH.
Qed.

Lemma keeps_load_reg b r p : 0 <= r -> (b = true -> r <> 15) -> keeps b (load_reg (W := W) r p) (fun _ => True).
Proof. intros Hr Hne. unfold load_reg. by keep. Qed.
Lemma keeps_load_pc u r p : keeps false (load_pc (W := W) u r p) (fun _ => True).
Proof. unfold load_pc. keep. by apply keeps_areg_set. Qed.
Lemma keeps_store_reg b r p : 0 <= r -> keeps b (store_reg (W := W) r p) (fun _ => True).
Proof. intros Hr. unfold store_reg. by keep. Qed.
Lemma keeps_store_pc b r p : keeps b (store_pc (W := W) r p) (fun _ => True).
Proof. unfold store_pc. by keep. Qed.

Lemma regs_up_range : Forall (fun r => 0 <= r /\ r <> 15) regs_up.
Proof. by repeat constructor. Qed.

Lemma regs_loops b up pre rl base (x : Z -> Z -> M (arm7 W) unit) :
  (forall r p, 0 <= r -> r <> 15 -> keeps b (x r p) (fun _ => True)) ->
  keeps b (xfer_loop up pre rl x regs_up base) (fun _ => True) /\
  keeps b (xfer_loop up pre rl x (reverse regs_up) base) (fun _ => True).
Proof.
  intros Hx. split; apply keeps_xfer_loop; [|apply Forall_reverse];
    (eapply list.Forall_impl; [apply regs_up_range|]; cbn beta; intros r [] _ p; by apply Hx).
Qed.

(** the transfers of a block: only a load of R15 changes the PC *)
Definition block_moves (inst base : Z) : M (arm7 W) Z :=
  let reg_list := Z.land inst 0xffff in
  let pre := inst_bit 24 inst in
  let up := inst_bit 23 inst in
  let psr_user_force := inst_bit 22 inst in
  if up then
    if inst_bit 20 inst then
      b <- xfer_loop up pre reg_list load_reg regs_up base ;;
      xfer_reg up pre reg_list (load_pc psr_user_force) 15 b
    else
      when psr_user_force (raise ERROR_UNIMPLEMENTED) ;;
      b <- xfer_loop up pre reg_list store_reg regs_up base ;;
      xfer_reg up pre reg_list store_pc 15 b
  else
    when psr_user_force (raise ERROR_UNIMPLEMENTED) ;;
    if inst_bit 20 inst then xfer_loop up pre reg_list load_reg (15 :: reverse regs_up) base
    else
      b <- xfer_reg up pre reg_list store_pc 15 base ;;
      xfer_loop up pre reg_list store_reg (reverse regs_up) b.

Lemma block_moves_keep b inst base :
  (b = true -> inst_bit 20 inst && inst_bit 15 (Z.land inst 0xffff) = false) ->
  keeps b (block_moves inst base) (fun _ => True).
Proof.
  intros Hb. unfold block_moves. cbn zeta.
  assert (Hload : forall r p, 0 <= r -> r <> 15 -> keeps b (load_reg (W := W) r p) (fun _ => True)).
  { intros r p Hr Hne. by apply keeps_load_reg. }
  assert (Hstore : forall r p, 0 <= r -> r <> 15 -> keeps b (store_reg (W := W) r p) (fun _ => True)).
  { intros r p Hr Hne. by apply keeps_store_reg. }
  destruct (inst_bit 23 inst), (inst_bit 20 inst) eqn:H20; cbn [andb] in Hb.
  - eapply keeps_bind; [by apply regs_loops|]. intros. apply keeps_xfer_reg. intros H15 p.
    destruct b; [rewrite Hb in H15; done|apply keeps_load_pc].
  - eapply keeps_bind; [apply keeps_guard|]. intros. eapply keeps_bind; [by apply regs_loops|].
    intros. apply keeps_xfer_reg. intros. apply keeps_store_pc.
  - eapply keeps_bind; [apply keeps_guard|]. intros. cbn [xfer_loop]. eapply keeps_bind; [|intros; by apply regs_loops].
    apply keeps_xfer_reg. intros H15 p. destruct b; [rewrite Hb in H15; done|by apply keeps_load_reg].
  - eapply keeps_bind; [apply keeps_guard|]. intros. eapply keeps_bind; [|intros; by apply regs_loops].
    apply keeps_xfer_reg. intros. apply keeps_store_pc.
Qed.

Lemma block_xfer_ends inst : ends (arm7_block_xfer (W := W) inst).
Proof.
  unfold arm7_block_xfer. cbn zeta.
  do 2 end_step. eapply ends_bind; [apply keeps_gen_reg; [field_nonneg|lia]|]. intros i Hi.
  eapply ends_bind; [apply keeps_areg_get|]. intros base _. do 3 end_step.
  match goal with |- ends (bind ?m ?k) => change (ends (bind (block_moves inst base) k)) end.
  destruct (inst_bit 20 inst && inst_bit 15 (Z.land inst 65535)) eqn:E.
  - apply resets_ends. eapply resets_bind; [by apply block_moves_keep|]. intros. endings.
    apply keeps_areg_set. split; [apply Hi|done].
  - eapply ends_bind; [by apply block_moves_keep|]. intros. by endings.
Qed.
End instructions.

(** ** The step of the CPU *)
Section step.
Context {W : Type} {CFG : BuildConfig} {AM : Arm7Machine W} {ML : Arm7MapLaws W}.
Implicit Types a : arm7 W.

(** [MRS] with R15 as its destination, the one instruction that writes the PC and keeps the buffer *)
Definition mrs_to_pc (inst : Z) : bool :=
  (Z.land MASK_MRS inst =? VAL_MRS) && (Z.land (Z.shiftr inst 12) 0xf =? 15).

Lemma ops_end inst : mrs_to_pc inst = false ->
  Forall (fun o : arm7_opcode (W := W) => arm7_match inst o = true -> ends (op_fn o inst)) ops.
Proof.
  intros Hm. repeat (apply List.Forall_cons); try apply List.Forall_nil; intros Hmatch; cbn [op_fn opc];
    try apply data_inst_ends.
  - apply branch_ends.
  - apply ldr_str_ends.
  - apply block_xfer_ends.
  - apply mrs_ends. intros E. unfold mrs_to_pc in Hm. unfold arm7_match, opc, op_mask, op_val in Hmatch.
    rewrite Hmatch, E in Hm. done.
  - apply msr_ends.
  - apply mul_ends.
  - apply swi_ends.
Qed.

Lemma search_match inst (l : list (arm7_opcode (W := W))) o :
  arm7_search inst l = Some o -> In o l /\ arm7_match inst o = true.
Proof.
  induction l as [|p l IH]; [done|]. cbn. destruct (arm7_match inst p) eqn:E; [intros [= <-]; auto|].
  intros H. apply IH in H as []. auto.
Qed.

Lemma exec_ends (d : arm7_decoded_inst (W := W)) inst a0 a1 n a a' :
  arm7_decode inst a0 = Ok (d, a1) -> mrs_to_pc inst = false -> arm_ok a ->
  arm7_exec {| dec_cond := dec_cond d; dec_op := dec_op d; dec_inst := dec_inst d; dec_cycles := n |} a = Ok (n, a') ->
  ended a a'.
Proof.
  unfold arm7_decode. destruct (arm7_search inst ops) as [o|] eqn:E; [|done]. intros [= <- <-] Hm Hok H.
  apply search_match in E as [Hin Hmatch]. pose proof (ops_end inst Hm) as Hall. rewrite List.Forall_forall in Hall.
  unfold arm7_exec in H. cbn [dec_cond dec_op dec_inst dec_cycles] in H.
  rewrite (bind_ok _ _ _ (arm7_cond inst a) a eq_refl) in H. apply bind_inv in H as ([] & a2 & H1 & H2).
  injection H2 as <-. destruct (arm7_cond inst a); [by apply (Hall o Hin Hmatch)|by apply ends_next].
Qed.

(** the buffer holds the two words before R15 *)
Definition pipe_aligned a : Prop :=
  pipeline_full a = true ->
  pipeline_pc a = (u32 (ageta ARM7_REG_PC a - 4), u32 (ageta ARM7_REG_PC a - 8)).
Definition pipe_ok a : Prop := pipe_aligned a \/ swi_pending a.

Lemma enter_resets spsr link vector mode which a :
  arm_ok a -> exists a', arm7_enter spsr link vector mode which a = Ok (tt, a') /\
    arm_ok a' /\ pipeline_full a' = false.
Proof.
  intros Hok. eexists. split; [reflexivity|]. split; [|done].
  assert (H : forall e (b : arm7 W), arm_ok b -> arm_ok (with_excp e (with_pipeline_full false b)))
    by (intros e b []; by split).
  apply H. auto 6 using aseta_ok.
Qed.

Lemma check_excp_aligned a :
  arm_ok a -> pipe_ok a ->
  exists a', arm7_check_excp a = Ok (tt, a') /\ arm_ok a' /\ pipe_aligned a' /\ (excp_dirty a = false -> a' = a).
Proof.
  intros Hok Hp. unfold arm7_check_excp. rewrite (bind_ok _ _ _ (excp_dirty a) a eq_refl).
  destruct (excp_dirty a) eqn:Hd; cbn [when].
  2: { exists a. split_and!; [done..| |done]. destruct Hp as [|[]]; [done|congruence]. }
  do 3 (erewrite bind_ok by reflexivity).
  set (p := if fiq_line a then _ else _).
  assert (Hswi : swi_pending a -> truth (Z.land p ARM7_EXCP_SWI) = true).
  { intros [_ H5]. change ARM7_EXCP_SWI with (2 ^ 5). rewrite truth_land_bit by lia. subst p.
    destruct (fiq_line a); [by rewrite Z.lor_spec, H5|]. by rewrite Z.ldiff_spec, H5. }
  assert (Hfin : forall b, arm_ok b /\ pipeline_full b = false ->
            exists a', (modify (with_excp_dirty false)) b = Ok (tt, a') /\ arm_ok a' /\ pipe_aligned a' /\
                       (true = false -> a' = a)).
  { intros b [[Hl Hr] Hf]. eexists. split; [reflexivity|]. split; [by split|]. split; [|done].
    intros H. cbn in H. congruence. }
  destruct (truth (Z.land p ARM7_EXCP_RESET)).
  { destruct (enter_resets ARM7_REG_SPSR_SVC ARM7_REG_R14_SVC 0 ARM7_MODE_SVC ARM7_EXCP_RESET a Hok) as (b & E & Hb).
    rewrite (bind_ok _ _ _ _ _ E). by apply Hfin. }
  destruct (truth (Z.land p ARM7_EXCP_FIQ) && _).
  { destruct (enter_resets ARM7_REG_SPSR_FIQ ARM7_REG_R14_FIQ 0x1c ARM7_MODE_FIQ ARM7_EXCP_FIQ a Hok) as (b & E & Hb).
    rewrite (bind_ok _ _ _ _ _ E). by apply Hfin. }
  destruct (truth (Z.land p ARM7_EXCP_SWI)) eqn:E5; cbn [when].
  { destruct (enter_resets ARM7_REG_SPSR_SVC ARM7_REG_R14_SVC 0 ARM7_MODE_SVC ARM7_EXCP_SWI a Hok) as (b & E & Hb).
    rewrite (bind_ok _ _ _ _ _ E). by apply Hfin. }
  eexists. split; [reflexivity|]. split; [destruct Hok; by split|]. split; [|done].
  destruct Hp as [Hp|Hp]; [exact Hp|]. specialize (Hswi Hp). congruence.
Qed.

(** the words of the buffer are those in memory: no store has changed them since they were fetched *)
Definition word_at (addr v : Z) a : Prop := do_fetch_inst addr a = Ok (v, a).
Definition coherent a : Prop :=
  pipeline_full a = true ->
  word_at (fst (pipeline_pc a)) (fst (pipeline a)) a /\ word_at (snd (pipeline_pc a)) (snd (pipeline a)) a.

Lemma do_fetch_inv addr a v a' : do_fetch_inst addr a = Ok (v, a') -> a' = a /\ word_at addr v a.
Proof.
  unfold word_at, do_fetch_inst. destruct (addr <=? _); [|by intros [= <- <-]].
  destruct (aica_wave_mem_read_32 _ _); [|done]. by intros [= <- <-].
Qed.

Lemma word_at_world addr v a b : aworld a = aworld b -> word_at addr v a -> word_at addr v b.
Proof.
  unfold word_at, do_fetch_inst. intros <-. destruct (addr <=? _); [|by intros [= <-]].
  destruct (aica_wave_mem_read_32 _ _); [|done]. by intros [= <-].
Qed.

(** after the fill the buffer holds the next instruction, whose address is [arm7_pc_next] *)
Lemma fill_aligned a n b :
  arm_ok a -> pipe_aligned a -> fill_pipeline a = Ok (n, b) ->
  arm_ok b /\ pipeline_full b = true /\ aworld b = aworld a /\
  ageta ARM7_REG_PC b = u32 (arm7_pc_next a + 8) /\
  pipeline_pc b = (u32 (arm7_pc_next a + 4), arm7_pc_next a) /\
  (coherent a -> coherent b) /\ in_range 32 (arm7_pc_next a).
Proof.
  intros Hok Hp H. unfold fill_pipeline in H. rewrite (bind_ok _ _ _ (pipeline_full a) a eq_refl) in H.
  rewrite (bind_ok _ _ _ (ageta ARM7_REG_PC a) a eq_refl) in H.
  pose proof (ageta_range ARM7_REG_PC a Hok) as Hr. unfold arm7_pc_next. unfold pipe_aligned in Hp.
  destruct (pipeline_full a) eqn:Hf.
  - injection H as <- <-. rewrite Hp by done. cbn [fst snd]. rewrite !wrap_add_l.
    replace (ageta ARM7_REG_PC a - 8 + 8) with (ageta ARM7_REG_PC a) by lia.
    replace (ageta ARM7_REG_PC a - 8 + 4) with (ageta ARM7_REG_PC a - 4) by lia.
    rewrite (wrap_small 32 (ageta _ _)) by done. split_and!; [done..|by apply wrap_range].
  - apply bind_inv in H as (i0 & a1 & H0 & H). apply do_fetch_inv in H0 as [-> H0].
    apply bind_inv in H as (i1 & a1 & H1 & H). apply do_fetch_inv in H1 as [-> H1].
    injection H as <- <-. split_and!; try done.
    + apply aseta_ok. destruct Hok. by split.
    + rewrite ageta_aseta_eq; [done| |done]. destruct Hok. by split.
    + intros _ _. cbn. split; (eapply word_at_world; [|done]); done.
Qed.

Lemma decode_inv inst a (d : arm7_decoded_inst (W := W)) a' :
  arm7_decode inst a = Ok (d, a') -> a' = a /\ dec_inst d = inst.
Proof. unfold arm7_decode. destruct (arm7_search inst ops); [|done]. by intros [= <- <-]. Qed.

(** [a0] is the state after the check for exceptions *)
Lemma fetch_pipe a a0 d a1 :
  arm7_check_excp a = Ok (tt, a0) -> arm_ok a0 -> pipe_aligned a0 -> arm7_fetch_inst a = Ok (d, a1) ->
  let pc := arm7_pc_next a0 in
  arm_ok a1 /\ pipeline_full a1 = true /\ ageta ARM7_REG_PC a1 = u32 (pc + 8) /\
  pipeline_pc a1 = (u32 (pc + 8), u32 (pc + 4)) /\
  (coherent a0 -> word_at pc (dec_inst d) a0 /\ coherent a1) /\
  exists d0 b b', arm7_decode (dec_inst d) b = Ok (d0, b') /\
    d = {| dec_cond := dec_cond d0; dec_op := dec_op d0; dec_inst := dec_inst d0; dec_cycles := dec_cycles d |}.
Proof.
  intros He Hok Hp H pc. unfold arm7_fetch_inst in H. rewrite (bind_ok _ _ _ _ _ He) in H.
  apply bind_inv in H as (n & b & Hfill & H).
  destruct (fill_aligned _ _ _ Hok Hp Hfill) as (Hb & Hbf & Hbw & Hbpc & Hbq & Hbc & Hr).
  rewrite (bind_ok _ _ _ (ageta ARM7_REG_PC b) b eq_refl) in H. rewrite Hbpc in H.
  apply bind_inv in H as (i & b1 & Hi & H). apply do_fetch_inv in Hi as [-> Hi].
  do 3 (erewrite bind_ok in H by reflexivity). rewrite Hbq in H. cbn [fst] in H.
  apply bind_inv in H as (d0 & b2 & Hd & H). injection H as <- <-. pose proof Hd as Hd'.
  apply decode_inv in Hd as [-> Hdi]. cbn [dec_inst dec_cycles]. rewrite Hdi.
  split_and!; try done.
  - destruct Hb. by split.
  - intros Hc. specialize (Hbc Hc Hbf). rewrite Hbq in Hbc. destruct Hbc as [Hw0 Hw1]. cbn [fst snd] in *. split.
    + by apply (word_at_world _ _ b a0).
    + intros _. split; [apply (word_at_world _ _ b)|apply (word_at_world _ _ b)]; done.
  - exists d0. eexists _, _. rewrite <- Hdi at 2. split; [exact Hd'|]. by destruct d0.
Qed.

(** C23: the prefetch buffer refines a program counter [arm7_pc_next]: after the check for
    exceptions the CPU executes the instruction at that address (the word in memory there, unless
    a store has overwritten it since it was prefetched) with R15 reading its address plus 8; if
    the instruction did not drop the buffer, the next one is at the next word; and the relation
    between R15 and the buffer that this needs holds again.  The one instruction excluded is an
    [MRS] into R15. *)
Theorem arm7_step_pipeline a d a1 :
  arm_ok a -> pipe_ok a -> arm7_fetch_inst a = Ok (d, a1) ->
  exists a0, arm7_check_excp a = Ok (tt, a0) /\ (excp_dirty a = false -> a0 = a) /\
    let pc := arm7_pc_next a0 in
    (coherent a0 -> word_at pc (dec_inst d) a0) /\
    ageta ARM7_REG_PC a1 = u32 (pc + 8) /\
    forall n a2, mrs_to_pc (dec_inst d) = false -> arm7_exec d a1 = Ok (n, a2) ->
      arm_ok a2 /\ pipe_ok a2 /\ (coherent a0 -> aworld a2 = aworld a1 -> coherent a2) /\
      (pipeline_full a2 = true -> arm7_pc_next a2 = u32 (pc + 4)).
Proof.
  intros Hok Hp Hf. destruct (check_excp_aligned a Hok Hp) as (a0 & He & Hok0 & Hp0 & Hsame).
  exists a0. split; [done|]. split; [done|]. intros pc.
  destruct (fetch_pipe _ _ _ _ He Hok0 Hp0 Hf) as (Hok1 & Hfull & Hpc & Hq & Hc & d0 & b & b' & Hd & Hdd).
  fold pc in Hpc, Hq, Hc. split; [by intros H; apply Hc|]. split; [done|]. intros n a2 Hm Hx.
  assert (Hn : n = dec_cycles d).
  { unfold arm7_exec in Hx. erewrite bind_ok in Hx by reflexivity. apply bind_inv in Hx as (? & ? & _ & Hx).
    by injection Hx as <-. }
  rewrite Hn, Hdd in Hx. destruct (exec_ends _ _ _ _ _ _ _ Hd Hm Hok1 Hx) as [Hok2 Hend].
  split; [done|]. unfold arm7_pc_next, pipe_ok, pipe_aligned, coherent.
  destruct Hend as [Hend|(Ep & Eq & Ef & Hend)].
  - split_and!; [left|..]; congruence.
  - rewrite Eq, Hq, Ef, Hfull, Ep. cbn [snd fst]. split_and!; [| |done].
    + destruct Hend as [Hr|[_ Hs]]; [left|by right]. intros _. rewrite Hr, Hpc, wrap_add_l, !wrap_sub_l.
      f_equal; f_equal; lia.
    + intros H Ew _. destruct (Hc H) as [_ Hc1]. specialize (Hc1 Hfull). rewrite Hq in Hc1. destruct Hc1.
      split; by eapply word_at_world; [|done].
Qed.
End step.

(** ** The board *)

Ltac regions_of := match goal with |- context [region_match ?x ?y ?z] => destruct (region_match x y z) end.

(** the map of the sound CPU keeps the laws if the AICA's registers do *)
Lemma sound_map_laws sys :
  (forall b sz f addr, read_fn sys sz = Some f -> keeps b (f addr) (fun _ => True)) ->
  (forall b sz f addr v, write_fn sys sz = Some f -> keeps b (f addr v) (fun _ => True)) ->
  Arm7MapLaws sound (Arm7Machine0 := sound_machine sys).
Proof.
  intros Hr Hw. split.
  - intros b sz addr. unfold memory_map_read. cbn [arm7_map sound_machine].
    rewrite arm7_mem_map_eq. cbn [regions find_region unmap].
    regions_of; [|regions_of; [|by apply keeps_ret]]; cbn [intf mask].
    + intros a v a'. destruct sz; cbn; unfold lift_read; try case_match; try done; intros [= <- <-]; by split.
    + destruct (read_fn sys sz) as [f|] eqn:E; [|apply keeps_raise]. by eapply Hr.
  - intros b sz addr v. unfold memory_map_write. cbn [arm7_map sound_machine].
    rewrite arm7_mem_map_eq. cbn [regions find_region unmap].
    regions_of; [|regions_of; [|by apply keeps_ret]]; cbn [intf mask].
    + intros a u a'. destruct sz; cbn; unfold lift_write; try case_match; try done; intros [= <- <-];
        split; try done; constructor; try done; intros []; by split.
    + destruct (write_fn sys sz) as [f|] eqn:E; [|apply keeps_raise]. by eapply Hw.
Qed.

#[export] Instance bare_map_laws : Arm7MapLaws sound.
Proof. apply sound_map_laws; intros; simplify_eq/=; by apply keeps_ret. Qed.

(** [MOV r0, #1] at 0x100 after a branch there: fetched into the empty buffer, and executed *)
Lemma arm7_step_pipeline_witness :
  exists d a1, arm7_fetch_inst (arm_with [(ARM7_REG_PC, 0x100); (ARM7_REG_CPSR, 0x13)] [(0x100, 0xe3a00001)]) = Ok (d, a1) /\
    ageta ARM7_REG_PC a1 = 0x108 /\
    exists n a2, arm7_exec d a1 = Ok (n, a2) /\ ageta 0 a2 = 1 /\ pipe_ok a2 /\ arm7_pc_next a2 = 0x104.
Proof.
  set (a := arm_with _ _).
  assert (Hrun : match arm7_fetch_inst a with
                 | Ok (d, a1) => match arm7_exec d a1 with
                     | Ok (n, a2) => (mrs_to_pc (dec_inst d), ageta 0 a2, pipeline_full a2)
                     | Err _ => (true, 0, false) end
                 | Err _ => (true, 0, false) end = (false, 1, true)) by (vm_compute; reflexivity).
  destruct (arm7_fetch_inst a) as [[d a1]|] eqn:E; [|discriminate].
  destruct (arm7_exec d a1) as [[n a2]|] eqn:E2; [|discriminate]. injection Hrun as Hm H0 Hfull.
  destruct (arm7_step_pipeline a d a1 ltac:(by apply arm_with_ok) ltac:(by left) E)
    as (a0 & _ & Hsame & _ & Hpc & Hx).
  rewrite (Hsame eq_refl) in *. exists d, a1. split; [reflexivity|]. split; [exact Hpc|].
  exists n, a2. destruct (Hx n a2 Hm E2) as (_ & Hq & _ & Hn).
  split; [exact E2|]. split; [exact H0|]. split; [exact Hq|]. exact (Hn Hfull).
Defined.
