(* ===== verification/Arm7Excp.v ===== *)
(** Exceptions of the sound CPU: the entry to the fast interrupt and the return from it, and two
    behaviours that differ from what the code's comments and the architecture say. *)
From stdpp Require Import gmap.
From S2P Require Import Prelude IntMath MemoryMap Memory Sh4State Board Sched Sh4Exec WaveMem Arm7 Arm7Board Arm7Flags Arm7Pipe.
Import memory_map memory intmath.

(** the CPSR at the entry to an exception *)
Lemma entry_psr x m : in_range 32 x -> in_range 5 m ->
  let y := u32 (Z.lor (Z.lor (Z.lor (Z.land x (not32 ARM7_CPSR_M_MASK)) m) ARM7_CPSR_I_MASK) ARM7_CPSR_F_MASK) in
  Z.land y ARM7_CPSR_M_MASK = m /\ truth (Z.land y ARM7_CPSR_F_MASK) = true /\
  truth (Z.land y ARM7_CPSR_I_MASK) = true.
Proof.
  intros Hx Hm y. assert (Hb : forall n, 0 <= n < 32 -> Z.testbit y n =
            Z.testbit x n && Z.testbit (not32 0x1f) n || Z.testbit m n || Z.testbit 0xc0 n).
  { intros n Hn. unfold y. rewrite wrap_testbit by lia. rewrite (proj2 (Z.ltb_lt n 32)) by lia.
    rewrite !Z.lor_spec, Z.land_spec, <- !orb_assoc. do 2 f_equal. rewrite <- !Z.lor_spec. done. }
  split_and!.
  - apply Z.bits_inj'. intros n Hn. change ARM7_CPSR_M_MASK with (Z.ones 5). rewrite Z.land_spec.
    destruct (Z.ltb_spec n 5).
    + rewrite Hb by lia. assert (n = 0 \/ n = 1 \/ n = 2 \/ n = 3 \/ n = 4) as [->|[->|[->|[->| ->]]]] by lia;
        by rewrite !andb_false_r, orb_false_r, andb_true_r.
    + rewrite Z.ones_spec_high by lia. rewrite andb_false_r. symmetry. by apply (in_range_testbit_high 5).
  - change ARM7_CPSR_F_MASK with (2 ^ 6). rewrite truth_land_bit, Hb by lia. apply orb_true_r.
  - change ARM7_CPSR_I_MASK with (2 ^ 7). rewrite truth_land_bit, Hb by lia. apply orb_true_r.
Qed.

Section excp.
Context {W : Type} {CFG : BuildConfig} {AM : Arm7Machine W}.
Implicit Types a : arm7 W.

Definition masks_fiq a : bool := truth (Z.land (cpsr a) ARM7_CPSR_F_MASK).
Definition mode_known a : Prop := exists i, gen_reg_idx (cpu_mode a) 0 = Some i.

(** R0 and R15 are not banked *)
Lemma unbanked mode r i j :
  gen_reg_idx mode 0 = Some i -> r = 0 \/ r = 15 -> gen_reg_idx mode r = Some j -> j = r.
Proof.
  unfold gen_reg_idx, ARM7_REG_R0. intros _ Hr.
  repeat match goal with |- context [if ?b then _ else _] => destruct b eqn:? end; intros [= <-]; lia.
Qed.

Lemma unbanked_reg a r : mode_known a -> r = 0 \/ r = 15 -> arm7_gen_reg r a = Ok (r, a).
Proof.
  intros [i Hi] Hr. unfold arm7_gen_reg. rewrite (bind_ok _ _ _ (cpu_mode a) a eq_refl).
  destruct (gen_reg_idx (cpu_mode a) r) as [j|] eqn:E.
  - by rewrite (unbanked _ _ _ _ Hi Hr E).
  - exfalso. unfold gen_reg_idx in Hi, E.
    repeat match type of E with context [if ?b then _ else _] => destruct b; try discriminate end.
Qed.

(** the state that [arm7_enter] leaves *)
Lemma enter_spec spsr link vector mode which a :
  arm_ok a -> valid_areg spsr -> valid_areg link -> spsr <> link -> spsr <> ARM7_REG_PC -> link <> ARM7_REG_PC ->
  spsr <> ARM7_REG_CPSR -> link <> ARM7_REG_CPSR ->
  exists a', arm7_enter spsr link vector mode which a = Ok (tt, a') /\ arm_ok a' /\
    ageta spsr a' = cpsr a /\ ageta link a' = u32 (arm7_pc_next a + 4) /\ arm7_pc_next a' = u32 vector /\
    cpsr a' = u32 (Z.lor (Z.lor (Z.lor (Z.land (cpsr a) (not32 ARM7_CPSR_M_MASK)) mode) ARM7_CPSR_I_MASK)
                     ARM7_CPSR_F_MASK) /\
    (forall i, 0 <= i -> i <> spsr -> i <> link -> i <> ARM7_REG_PC -> i <> ARM7_REG_CPSR -> ageta i a' = ageta i a).
Proof.
  intros Hok Hs Hl H1 H2 H3 H4 H5. eexists. split; [reflexivity|].
  assert (Hr : forall i e (b : arm7 W), ageta i (with_excp e (with_pipeline_full false b)) = ageta i b) by done.
  assert (Hv : forall e (b : arm7 W), arm7_pc_next (with_excp e (with_pipeline_full false b)) = ageta ARM7_REG_PC b) by done.
  assert (Ho : forall e (b : arm7 W), arm_ok b -> arm_ok (with_excp e (with_pipeline_full false b)))
    by (intros e b []; by split).
  assert (Hp : forall v, arm7_pc_next (aseta spsr v a) = arm7_pc_next a).
  { intros v. unfold arm7_pc_next. cbn [pipeline_full aseta with_areg pipeline_pc].
    destruct (pipeline_full a); [done|]. apply ageta_aseta_ne; [done|apply Hs|done]. }
  pose proof (ageta_range ARM7_REG_CPSR a Hok) as Hc. unfold cpsr. rewrite !Hr, Hv.
  assert (HP : valid_areg ARM7_REG_PC) by done. assert (HC : valid_areg ARM7_REG_CPSR) by done.
  pose proof (proj1 Hs). pose proof (proj1 Hl).
  split_and!.
  - apply Ho. auto 6 using aseta_ok.
  - rewrite !(ageta_aseta_ne spsr) by done. rewrite ageta_aseta_eq by done. by apply wrap_small.
  - rewrite !(ageta_aseta_ne link) by done. rewrite ageta_aseta_eq by auto using aseta_ok. by rewrite Hp.
  - rewrite !(ageta_aseta_ne ARM7_REG_PC) by done. by rewrite ageta_aseta_eq by auto using aseta_ok.
  - rewrite ageta_aseta_eq by auto 6 using aseta_ok. done.
  - intros i Hi Hi1 Hi2 Hi3 Hi4. rewrite Hr. by rewrite !ageta_aseta_ne.
Qed.

(** [SUBS PC, R14, #4], the return from the fast interrupt *)
Definition SUBS_PC_R14_4 : Z := 0xe25ef004.

Lemma mode_spsr_fiq a : cpu_mode a = ARM7_MODE_FIQ -> arm7_spsr_idx a = Ok (ARM7_REG_SPSR_FIQ, a).
Proof. intros Hm. unfold arm7_spsr_idx. rewrite (bind_ok _ _ _ (cpu_mode a) a eq_refl). by rewrite Hm. Qed.

Lemma mode_known_cpsr a b : cpsr b = cpsr a -> mode_known a -> mode_known b.
Proof. unfold mode_known, cpu_mode. by intros ->. Qed.

Lemma subs_pc_returns h link psr :
  arm_ok h -> cpu_mode h = ARM7_MODE_FIQ -> ageta ARM7_REG_R14_FIQ h = link -> ageta ARM7_REG_SPSR_FIQ h = psr ->
  (exists i, gen_reg_idx (Z.land psr ARM7_CPSR_M_MASK) 0 = Some i) ->
  exists a', arm7_inst_sub SUBS_PC_R14_4 h = Ok (tt, a') /\ cpsr a' = psr /\ arm7_pc_next a' = u32 (link - 4) /\
    (forall i, 0 <= i -> i <> ARM7_REG_PC -> i <> ARM7_REG_CPSR -> ageta i a' = ageta i h).
Proof.
  intros Hok Hm Hl Hp Hk. pose proof (ageta_range ARM7_REG_R14_FIQ h Hok) as Hlr.
  pose proof (ageta_range ARM7_REG_SPSR_FIQ h Hok) as Hpr. rewrite Hl in Hlr. rewrite Hp in Hpr.
  unfold arm7_inst_sub, data_inst.
  assert (Hin : data_inputs SUBS_PC_R14_4 h = Ok ((link, 4, arm7_cond_cs h), h)).
  { unfold data_inputs. rewrite (bind_ok _ _ _ (arm7_cond_cs h) h eq_refl).
    change (Z.land (Z.shiftr SUBS_PC_R14_4 16) 15) with 14.
    assert (Hg : gen_get 14 h = Ok (link, h)).
    { unfold gen_get, arm7_gen_reg, bind, gets. rewrite Hm. by rewrite <- Hl. }
    rewrite (bind_ok _ _ _ _ _ Hg). done. }
  rewrite (bind_ok _ _ _ _ _ Hin). unfold arm7_op_sub. rewrite arm_sub_spec by (done || by vm_compute).
  change (Z.land (Z.shiftr SUBS_PC_R14_4 12) 15) with 15. change (inst_bit 20 SUBS_PC_R14_4) with true.
  change (15 =? 15) with true. cbn [andb negb].
  set (h1 := aseta ARM7_REG_CPSR psr h).
  assert (Hc : cpsr h1 = psr) by (unfold cpsr, h1; rewrite ageta_aseta_eq by done; by apply wrap_small).
  assert (H1 : (i <- arm7_spsr_idx;; v <- areg_get i;; areg_set ARM7_REG_CPSR v) h = Ok (tt, h1)).
  { rewrite (bind_ok _ _ _ _ _ (mode_spsr_fiq h Hm)). unfold areg_get, areg_set, bind, gets, modify. by rewrite Hp. }
  rewrite (bind_ok _ _ _ _ _ H1).
  assert (Hk1 : mode_known h1) by (unfold mode_known, cpu_mode; by rewrite Hc).
  assert (Hg : gen_set 15 (u32 (link - 4)) h1 = Ok (tt, aseta 15 (u32 (link - 4)) h1)).
  { unfold gen_set. by rewrite (bind_ok _ _ _ _ _ (unbanked_reg h1 15 Hk1 ltac:(by right))). }
  rewrite (bind_ok _ _ _ _ _ Hg). eexists. split; [reflexivity|].
  assert (Hok1 : arm_ok h1) by by apply aseta_ok.
  split_and!.
  - unfold cpsr. change (ageta ARM7_REG_CPSR (aseta 15 (u32 (link - 4)) h1) = psr). by rewrite ageta_aseta_ne.
  - change (ageta ARM7_REG_PC (aseta 15 (u32 (link - 4)) h1) = u32 (link - 4)).
    rewrite ageta_aseta_eq by done. apply wrap_wrap.
  - intros i Hi Hi1 Hi2. change (ageta i (aseta 15 (u32 (link - 4)) h1) = ageta i h).
    unfold h1. rewrite ageta_aseta_ne, ageta_aseta_ne by done. done.
Qed.

(** the bits that [arm7_check_excp] tests *)
Lemma fiq_pending_bits e n : 0 <= n -> n <> 2 -> Z.testbit (Z.lor e ARM7_EXCP_FIQ) n = Z.testbit e n.
Proof.
  intros Hn Hne. rewrite Z.lor_spec. change ARM7_EXCP_FIQ with (2 ^ 2). rewrite Z.pow2_bits_false by lia.
  by rewrite orb_false_r.
Qed.

Lemma check_fiq a :
  excp_dirty a = true -> fiq_line a = true -> Z.testbit (excp a) 0 = false ->
  arm7_check_excp a =
  ((if masks_fiq a then
      when (Z.testbit (excp a) 5) (arm7_enter ARM7_REG_SPSR_SVC ARM7_REG_R14_SVC 0 ARM7_MODE_SVC ARM7_EXCP_SWI)
    else arm7_enter ARM7_REG_SPSR_FIQ ARM7_REG_R14_FIQ 0x1c ARM7_MODE_FIQ ARM7_EXCP_FIQ) ;;
   modify (with_excp_dirty false)) a.
Proof.
  intros Hd Hl H0. unfold arm7_check_excp. rewrite (bind_ok _ _ _ (excp_dirty a) a eq_refl), Hd. cbn [when].
  do 3 (erewrite bind_ok by reflexivity). rewrite Hl.
  change ARM7_EXCP_RESET with (2 ^ 0) at 1. rewrite truth_land_bit, fiq_pending_bits, H0 by lia.
  change ARM7_EXCP_FIQ with (2 ^ 2) at 2. rewrite (truth_land_bit _ 2), Z.lor_spec by lia.
  change (Z.testbit ARM7_EXCP_FIQ 2) with true. rewrite orb_true_r. cbn [andb].
  change ARM7_EXCP_SWI with (2 ^ 5) at 1. rewrite truth_land_bit, fiq_pending_bits by lia.
  unfold masks_fiq, cpsr. by destruct (truth (Z.land (ageta ARM7_REG_CPSR a) ARM7_CPSR_F_MASK)).
Qed.

(** C30: a fast interrupt that is taken and its return are transparent to the interrupted program.  Let the line be
    high, let it have changed since the last check of exceptions ([excp_dirty]; a check with the interrupt masked clears
    this mark, and the interrupt is then lost, see [arm7_masked_fiq_lost]), let no reset be
    pending, and let the CPU be in one of its modes with the fast interrupt unmasked.  Then the check
    before the next fetch moves the CPU to the vector 0x1c in FIQ mode with both interrupts
    masked, and changes no register but R14_fiq, SPSR_fiq, the PC and the CPSR; and from whatever
    state [h] the handler reaches in that mode with R14_fiq and SPSR_fiq as it found them,
    [SUBS PC, R14, #4] resumes at the instruction that was about to run, with the CPSR it had, and
    changes nothing else. *)
Theorem arm7_fiq_transparent a :
  arm_ok a -> mode_known a -> excp_dirty a = true -> fiq_line a = true -> Z.testbit (excp a) 0 = false ->
  masks_fiq a = false ->
  exists a1, arm7_check_excp a = Ok (tt, a1) /\
    arm7_pc_next a1 = 0x1c /\ cpu_mode a1 = ARM7_MODE_FIQ /\ masks_fiq a1 = true /\
    truth (Z.land (cpsr a1) ARM7_CPSR_I_MASK) = true /\
    (forall i, 0 <= i -> i <> ARM7_REG_SPSR_FIQ -> i <> ARM7_REG_R14_FIQ -> i <> ARM7_REG_PC -> i <> ARM7_REG_CPSR ->
       ageta i a1 = ageta i a) /\
    forall h, arm_ok h -> cpu_mode h = ARM7_MODE_FIQ ->
      ageta ARM7_REG_R14_FIQ h = ageta ARM7_REG_R14_FIQ a1 -> ageta ARM7_REG_SPSR_FIQ h = ageta ARM7_REG_SPSR_FIQ a1 ->
      exists a2, arm7_inst_sub SUBS_PC_R14_4 h = Ok (tt, a2) /\
        cpsr a2 = cpsr a /\ arm7_pc_next a2 = u32 (arm7_pc_next a) /\
        (forall i, 0 <= i -> i <> ARM7_REG_PC -> i <> ARM7_REG_CPSR -> ageta i a2 = ageta i h).
Proof.
  intros Hok Hk Hd Hl H0 Hm. rewrite check_fiq, Hm by done.
  destruct (enter_spec ARM7_REG_SPSR_FIQ ARM7_REG_R14_FIQ 0x1c ARM7_MODE_FIQ ARM7_EXCP_FIQ a Hok)
    as (b & He & Hokb & Hsp & Hlk & Hpc & Hps & Hrest); try done.
  rewrite (bind_ok _ _ _ _ _ He). eexists. split; [reflexivity|].
  assert (Hr : forall i, ageta i (with_excp_dirty false b) = ageta i b) by done.
  unfold masks_fiq, cpu_mode, cpsr in *. rewrite !Hr, Hps.
  destruct (entry_psr (ageta ARM7_REG_CPSR a) ARM7_MODE_FIQ (ageta_range _ a Hok) ltac:(by vm_compute)) as (F1 & F2 & F3).
  split_and!; [exact Hpc|done..| |].
  - intros i Hi. rewrite Hr. by apply Hrest.
  - intros h Hokh Hmh. rewrite Hlk, Hsp. intros Hlh Hsh.
    destruct (subs_pc_returns h _ _ Hokh Hmh Hlh Hsh Hk) as (a2 & H1 & H2 & H3 & H4).
    exists a2. split_and!; [done..| |done]. rewrite H3, wrap_sub_l. f_equal. lia.
Qed.

(** a fast interrupt that arrives while it is masked is dropped: the check clears the mark that
    something is to be checked, so that when the program then unmasks the interrupt (here with
    [MSR CPSR, R0]) with the line still high, nothing happens until the line is raised anew. *)
Theorem arm7_masked_fiq_lost a :
  arm_ok a -> mode_known a -> excp_dirty a = true -> fiq_line a = true ->
  Z.testbit (excp a) 0 = false -> Z.testbit (excp a) 5 = false -> masks_fiq a = true ->
  truth (Z.land (ageta ARM7_REG_R0 a) ARM7_CPSR_F_MASK) = false ->
  exists a1 a2, arm7_check_excp a = Ok (tt, a1) /\ arm7_inst_msr 0xe129f000 a1 = Ok (tt, a2) /\
    fiq_line a2 = true /\ masks_fiq a2 = false /\ arm7_check_excp a2 = Ok (tt, a2).
Proof.
  intros Hok Hk Hd Hl H0 H5 Hm Hr0. rewrite check_fiq, Hm, H5 by done. cbn [when].
  set (a1 := with_excp_dirty false a). assert (Hok1 : arm_ok a1) by (destruct Hok; by split).
  assert (Hmsr : arm7_inst_msr 0xe129f000 a1 =
            Ok (tt, aseta ARM7_REG_PC (ageta ARM7_REG_PC (aseta ARM7_REG_CPSR (ageta ARM7_REG_R0 a) a1) + 4)
                      (aseta ARM7_REG_CPSR (ageta ARM7_REG_R0 a) a1))).
  { unfold arm7_inst_msr. cbn zeta. change (inst_bit 22 0xe129f000) with false. change (Z.land 0xe129f000 255) with 0.
    rewrite (bind_ok _ _ _ ARM7_REG_CPSR a1 eq_refl). unfold gen_get.
    by rewrite (bind_ok _ _ _ (ageta 0 a1) a1 (bind_ok _ _ _ _ _ (unbanked_reg a1 0 Hk ltac:(by left)))). }
  eexists _, _. split; [reflexivity|]. split; [exact Hmsr|]. split; [done|].
  pose proof (ageta_range ARM7_REG_R0 a Hok). split.
  - unfold masks_fiq, cpsr. rewrite ageta_aseta_ne, ageta_aseta_eq, wrap_small by done. done.
  - done.
Qed.

(** ** Software interrupts *)
Lemma fetch_keeps_excp a d a1 :
  excp_dirty a = false -> arm7_fetch_inst a = Ok (d, a1) ->
  excp a1 = excp a /\ fiq_line a1 = fiq_line a /\ excp_dirty a1 = false.
Proof.
  intros Hd H. unfold arm7_fetch_inst, arm7_check_excp in H.
  rewrite (bind_ok _ _ _ tt a) in H by (rewrite (bind_ok _ _ _ (excp_dirty a) a eq_refl); by rewrite Hd).
  apply bind_inv in H as (n & b & Hfill & H).
  assert (Hb : excp b = excp a /\ fiq_line b = fiq_line a /\ excp_dirty b = false).
  { unfold fill_pipeline in Hfill. do 2 (erewrite bind_ok in Hfill by reflexivity).
    destruct (pipeline_full a); [by injection Hfill as <- <-|].
    do 2 (apply bind_inv in Hfill as (? & ? & Hw & Hfill); apply do_fetch_inv in Hw as [-> _]).
    by injection Hfill as <- <-. }
  erewrite bind_ok in H by reflexivity. apply bind_inv in H as (i & b1 & Hw & H). apply do_fetch_inv in Hw as [-> _].
  do 3 (erewrite bind_ok in H by reflexivity). apply bind_inv in H as (d0 & b2 & Hdec & H).
  apply decode_inv in Hdec as [-> _]. by injection H as <- <-.
Qed.

Lemma match_bit (inst m v : Z) n : Z.land m inst = v -> Z.testbit m n = true -> Z.testbit inst n = Z.testbit v n.
Proof. intros <- Hm. by rewrite Z.land_spec, Hm. Qed.

Lemma search_swi inst : Z.land MASK_SWI inst = VAL_SWI ->
  arm7_search inst (ops (W := W)) = Some (opc arm7_inst_swi MASK_SWI VAL_SWI (2 * S_CYCLE + 1 * N_CYCLE)).
Proof.
  intros H. pose proof (match_bit _ _ _ 26 H eq_refl) as H26. pose proof (match_bit _ _ _ 27 H eq_refl) as H27.
  change (Z.testbit inst 26 = true) in H26. change (Z.testbit inst 27 = true) in H27.
  assert (Hno : forall f m v n, Z.testbit m 26 = true -> Z.testbit m 27 = true ->
            Z.testbit v 26 && Z.testbit v 27 = false -> arm7_match inst (opc (W := W) f m v n) = false).
  { intros f m v n Hm26 Hm27 Hv. unfold arm7_match, opc, op_mask, op_val. apply Z.eqb_neq. intros E.
    rewrite <- (match_bit _ _ _ 26 E Hm26), <- (match_bit _ _ _ 27 E Hm27), H26, H27 in Hv. done. }
  unfold ops. cbn [arm7_search]. rewrite !Hno by reflexivity.
  unfold arm7_match at 1. cbn [op_mask op_val opc]. rewrite H. by rewrite Z.eqb_refl.
Qed.

Lemma check_swi a :
  excp_dirty a = true -> fiq_line a = false -> Z.testbit (excp a) 0 = false -> Z.testbit (excp a) 5 = true ->
  arm7_check_excp a =
  (arm7_enter ARM7_REG_SPSR_SVC ARM7_REG_R14_SVC 0 ARM7_MODE_SVC ARM7_EXCP_SWI ;; modify (with_excp_dirty false)) a.
Proof.
  intros Hd Hl H0 H5. unfold arm7_check_excp. rewrite (bind_ok _ _ _ (excp_dirty a) a eq_refl), Hd. cbn [when].
  do 3 (erewrite bind_ok by reflexivity). rewrite Hl.
  assert (Hb : forall n, 0 <= n -> Z.testbit (Z.ldiff (excp a) ARM7_EXCP_FIQ) n = Z.testbit (excp a) n && negb (n =? 2)).
  { intros n Hn. rewrite Z.ldiff_spec. change ARM7_EXCP_FIQ with (2 ^ 2). rewrite Z.pow2_bits_eqb by lia. by rewrite Z.eqb_sym. }
  change ARM7_EXCP_RESET with (2 ^ 0) at 1. rewrite truth_land_bit, Hb, H0 by lia. cbn [andb].
  change ARM7_EXCP_FIQ with (2 ^ 2) at 2. rewrite (truth_land_bit _ 2), Hb, andb_false_r by lia. cbn [andb].
  change ARM7_EXCP_SWI with (2 ^ 5) at 1. by rewrite truth_land_bit, Hb, H5 by lia.
Qed.

(** the link register of a software interrupt is one word too far: for a [SWI] at [pc] the
    handler is entered with R14_svc = pc + 8, where the comment in [arm7_check_excp] asks for the
    instruction immediately after the [SWI], which is at pc + 4; a handler that returns to R14
    skips that instruction.  (The vector is 0, the one of a reset.) *)
Theorem arm7_swi_link a d a1 :
  arm_ok a -> pipe_aligned a -> excp_dirty a = false -> fiq_line a = false -> Z.testbit (excp a) 0 = false ->
  arm7_fetch_inst a = Ok (d, a1) -> Z.land MASK_SWI (dec_inst d) = VAL_SWI -> arm7_cond (dec_inst d) a1 = true ->
  exists n a2 a3, arm7_exec d a1 = Ok (n, a2) /\ arm7_pc_next a2 = u32 (arm7_pc_next a + 4) /\
    arm7_check_excp a2 = Ok (tt, a3) /\
    ageta ARM7_REG_R14_SVC a3 = u32 (arm7_pc_next a + 8) /\ arm7_pc_next a3 = 0 /\ cpu_mode a3 = ARM7_MODE_SVC.
Proof.
  intros Hok Hp Hd Hl H0 Hf Hswi Hc.
  assert (He : arm7_check_excp a = Ok (tt, a)).
  { unfold arm7_check_excp. rewrite (bind_ok _ _ _ (excp_dirty a) a eq_refl). by rewrite Hd. }
  destruct (fetch_keeps_excp a d a1 Hd Hf) as (He1 & Hl1 & _).
  destruct (fetch_pipe _ _ _ _ He Hok Hp Hf) as (Hok1 & Hfull & Hpc & Hq & _ & d0 & b & b' & Hdec & Hdd).
  unfold arm7_decode in Hdec. rewrite (search_swi _ Hswi) in Hdec. injection Hdec as <- <-.
  set (a2 := with_excp_dirty true (with_excp (Z.lor (excp a1) ARM7_EXCP_SWI) a1)).
  assert (Hx : arm7_exec d a1 = Ok (dec_cycles d, a2)).
  { rewrite Hdd. unfold arm7_exec. cbn [dec_cond dec_op dec_inst dec_cycles].
    rewrite (bind_ok _ _ _ true a1) by (unfold gets; by rewrite Hc). done. }
  assert (Hok2 : arm_ok a2) by (destruct Hok1; by split).
  assert (Hn : arm7_pc_next a2 = u32 (arm7_pc_next a + 4)) by (unfold arm7_pc_next, a2; cbn; by rewrite Hfull, Hq).
  destruct (enter_spec ARM7_REG_SPSR_SVC ARM7_REG_R14_SVC 0 ARM7_MODE_SVC ARM7_EXCP_SWI a2 Hok2)
    as (c & Hen & Hokc & _ & Hlk & Hpc2 & Hps & _); try done.
  exists (dec_cycles d), a2, (with_excp_dirty false c). split; [done|]. split; [done|]. split.
  - rewrite check_swi; [by rewrite (bind_ok _ _ _ _ _ Hen)|done|by unfold a2; cbn; rewrite Hl1|..];
      change (excp a2) with (Z.lor (excp a1) ARM7_EXCP_SWI); rewrite Z.lor_spec, He1.
    + by rewrite H0.
    + by rewrite orb_true_r.
  - split_and!.
    + change (ageta ARM7_REG_R14_SVC c = u32 (arm7_pc_next a + 8)). rewrite Hlk, Hn, wrap_add_l. f_equal. lia.
    + exact Hpc2.
    + unfold cpu_mode, cpsr in *. change (Z.land (ageta ARM7_REG_CPSR c) ARM7_CPSR_M_MASK = ARM7_MODE_SVC).
      rewrite Hps. apply (entry_psr (ageta ARM7_REG_CPSR a2) ARM7_MODE_SVC); [by apply ageta_range|by vm_compute].
Qed.
End excp.

(** ** Witnesses *)

(** an interrupt between two instructions at 0x200 and 0x204 *)
Definition fiq_arm : arm7 sound :=
  with_excp_dirty true (with_fiq_line true (arm_with [(ARM7_REG_PC, 0x204); (ARM7_REG_CPSR, 0x60000013)] [])).

Lemma arm7_fiq_transparent_witness :
  exists a1, arm7_check_excp fiq_arm = Ok (tt, a1) /\ arm7_pc_next a1 = 0x1c /\
    exists a2, arm7_inst_sub SUBS_PC_R14_4 a1 = Ok (tt, a2) /\ cpsr a2 = 0x60000013 /\ arm7_pc_next a2 = 0x204.
Proof.
  destruct (arm7_fiq_transparent fiq_arm) as (a1 & H1 & H2 & H3 & _ & _ & _ & H4);
    [by eapply arm_ok_areg; [|apply arm_with_ok]|by eexists|done..|].
  exists a1. split; [exact H1|]. split; [exact H2|].
  destruct (H4 a1) as (a2 & H5 & H6 & H7 & _); [|exact H3|reflexivity..|].
  { assert (Hx : exists l, a1 = with_areg l a1 /\ arm_ok (with_areg l a1)); [|by destruct Hx as (l & -> & ?)].
    vm_compute in H1. injection H1 as <-. eexists. split; [reflexivity|]. split; [reflexivity|].
    repeat constructor; by vm_compute. }
  exists a2. split; [exact H5|]. split; [exact H6|exact H7].
Defined.

Lemma arm7_masked_fiq_lost_witness :
  exists a1 a2, arm7_check_excp (with_excp_dirty true (with_fiq_line true
      (arm_with [(0, 0x13); (ARM7_REG_PC, 0x204); (ARM7_REG_CPSR, 0x53)] []))) = Ok (tt, a1) /\
    arm7_inst_msr 0xe129f000 a1 = Ok (tt, a2) /\
    fiq_line a2 = true /\ masks_fiq a2 = false /\ arm7_check_excp a2 = Ok (tt, a2).
Proof.
  apply arm7_masked_fiq_lost; [by eapply arm_ok_areg; [|apply arm_with_ok]|by eexists|done..].
Defined.

(** [SWI 0] at 0x100: R14_svc is 0x108 *)
Lemma arm7_swi_link_witness :
  exists d a1 n a2 a3,
    arm7_fetch_inst (arm_with [(ARM7_REG_PC, 0x100); (ARM7_REG_CPSR, 0x10)] [(0x100, 0xef000000)]) = Ok (d, a1) /\
    arm7_exec d a1 = Ok (n, a2) /\ arm7_check_excp a2 = Ok (tt, a3) /\ ageta ARM7_REG_R14_SVC a3 = 0x108.
Proof.
  set (a := arm_with _ _).
  assert (Hrun : match arm7_fetch_inst a with
                 | Ok (d, a1) => (Z.land MASK_SWI (dec_inst d) =? VAL_SWI, arm7_cond (dec_inst d) a1)
                 | Err _ => (false, false) end = (true, true)) by (vm_compute; reflexivity).
  destruct (arm7_fetch_inst a) as [[d a1]|] eqn:E; [|discriminate]. injection Hrun as Hs Hc.
  destruct (arm7_swi_link a d a1 ltac:(by apply arm_with_ok) ltac:(done) eq_refl eq_refl eq_refl E
              (proj1 (Z.eqb_eq _ _) Hs) Hc) as (n & a2 & a3 & H1 & _ & H2 & H3 & _).
  exists d, a1, n, a2, a3. split; [reflexivity|]. split; [exact H1|]. split; [exact H2|exact H3].
Defined.
