(* ===== verification/JitIL.v ===== *)
(** The intermediate language of the JIT (src/libwashdc/jit/jit_il.h, jit_il.c), the blocks
    that the front end fills (jit/code_block.c, code_block.h) and the back end that
    interprets them (jit/jit_intp/code_block_intp.c).

    An IL program works on slots, an array of 32-bit values that the front end numbers.  A
    pointer into the host's memory is either to a register of [sh4->reg] or to a byte of the
    RAM's array.  The slots of a block are allocated without being initialised: the theorems
    hold for any contents. *)
From stdpp Require Import gmap.
From S2P Require Import Prelude MemoryMap Memory Sh4State Sh4Core.
Import memory_map memory.

(** the array behind the RAM's memory interface: the context pointer of its region *)
Class HostRam (W : Type) : Type := host_ram : W -> Memory.

(** a host address that the front end puts into a block *)
Inductive host_ptr : Type :=
| PtrReg (reg_no : Z)
| PtrRam (offs : Z).

Definition MAX_SLOTS : Z := 8 * 1024.

Section jit_il.
Context {W : Type}.

(** [struct jit_inst]: the opcode and its member of [union jit_immed] *)
Inductive jit_inst : Type :=
| JIT_OP_FALLBACK (fallback_fn : Z -> M (Sh4 W) unit) (inst : Z)
| JIT_OP_JUMP (slot_no : Z)
| JIT_JUMP_COND (slot_no jmp_addr_slot alt_jmp_addr_slot t_flag : Z)
| JIT_SET_SLOT (slot_idx new_val : Z)
| JIT_OP_CALL_FUNC (call_fn : Z -> M (Sh4 W) unit) (slot_no : Z)
| JIT_OP_READ_16_CONSTADDR (addr slot_no : Z)
| JIT_OP_SIGN_EXTEND_16 (slot_no : Z)
| JIT_OP_READ_32_CONSTADDR (addr slot_no : Z)
| JIT_OP_READ_32_SLOT (addr_slot dst_slot : Z)
| JIT_OP_WRITE_32_SLOT (src_slot addr_slot : Z)
| JIT_OP_LOAD_SLOT16 (src : host_ptr) (slot_no : Z)
| JIT_OP_LOAD_SLOT (src : host_ptr) (slot_no : Z)
| JIT_OP_STORE_SLOT (dst : host_ptr) (slot_no : Z)
| JIT_OP_ADD (slot_src slot_dst : Z)
| JIT_OP_SUB (slot_src slot_dst : Z)
| JIT_OP_ADD_CONST32 (slot_dst const32 : Z)
| JIT_OP_XOR (slot_src slot_dst : Z)
| JIT_OP_XOR_CONST32 (slot_no const32 : Z)
| JIT_OP_MOV (slot_src slot_dst : Z)
| JIT_OP_AND (slot_src slot_dst : Z)
| JIT_OP_AND_CONST32 (slot_no const32 : Z)
| JIT_OP_OR (slot_src slot_dst : Z)
| JIT_OP_OR_CONST32 (slot_no const32 : Z)
| JIT_OP_SLOT_TO_BOOL (slot_no : Z)
| JIT_OP_NOT (slot_no : Z)
| JIT_OP_SHLL (slot_no shift_amt : Z)
| JIT_OP_SHAR (slot_no shift_amt : Z)
| JIT_OP_SHLR (slot_no shift_amt : Z)
| JIT_OP_SHAD (slot_val slot_shift_amt : Z)
| JIT_OP_SET_GT_UNSIGNED (slot_lhs slot_rhs slot_dst : Z)
| JIT_OP_SET_GT_SIGNED (slot_lhs slot_rhs slot_dst : Z)
| JIT_OP_SET_GT_SIGNED_CONST (slot_lhs imm_rhs slot_dst : Z)
| JIT_OP_SET_EQ (slot_lhs slot_rhs slot_dst : Z)
| JIT_OP_SET_GE_UNSIGNED (slot_lhs slot_rhs slot_dst : Z)
| JIT_OP_SET_GE_SIGNED (slot_lhs slot_rhs slot_dst : Z)
| JIT_OP_SET_GE_SIGNED_CONST (slot_lhs imm_rhs slot_dst : Z)
| JIT_OP_MUL_U32 (slot_lhs slot_rhs slot_dst : Z)
| JIT_OP_DISCARD_SLOT (slot_no : Z).

(** [struct il_code_block]; [slots_in_use] holds the slots whose [in_use] is set *)
Record il_code_block : Type := {
  inst_list : list jit_inst;
  n_slots : Z;
  slots_in_use : gset Z
}.

Definition il_code_block_init : il_code_block :=
  {| inst_list := []; n_slots := 0; slots_in_use := ∅ |}.

(** the growth of the array is the host's business *)
Definition il_code_block_push_inst (inst : jit_inst) (b : il_code_block) : il_code_block :=
  {| inst_list := inst_list b ++ [inst]; n_slots := n_slots b; slots_in_use := slots_in_use b |}.

Definition il_code_block_add_slot (b : il_code_block) : il_code_block :=
  let n := n_slots b + 1 in
  {| inst_list := inst_list b; n_slots := n; slots_in_use := slots_in_use b ∖ {[n - 1]} |}.

Definition slot_status (b : il_code_block) (slot_no : Z) : res bool :=
  if slot_no >=? MAX_SLOTS then Err ERROR_OVERFLOW
  else Ok (bool_decide (slot_no ∈ slots_in_use b)).

Definition alloc_slot (b : il_code_block) : res (Z * il_code_block) :=
  if n_slots b >=? MAX_SLOTS then Err ERROR_OVERFLOW
  else
    let slot_no := n_slots b in
    Ok (slot_no, il_code_block_add_slot
      {| inst_list := inst_list b; n_slots := n_slots b + 1;
         slots_in_use := {[slot_no]} ∪ slots_in_use b |}).

Definition free_slot (slot_no : Z) (b : il_code_block) : il_code_block :=
  {| inst_list := inst_list b; n_slots := n_slots b; slots_in_use := slots_in_use b ∖ {[slot_no]} |}.

(** *** The emitters of jit_il.c *)
Definition jit_fallback (fallback_fn : Z -> M (Sh4 W) unit) (inst : Z) :=
  il_code_block_push_inst (JIT_OP_FALLBACK fallback_fn inst).
Definition jit_jump (slot_no : Z) := il_code_block_push_inst (JIT_OP_JUMP slot_no).
Definition jit_jump_cond (slot_no jmp_addr_slot alt_jmp_addr_slot t_val : Z) :=
  il_code_block_push_inst (JIT_JUMP_COND slot_no jmp_addr_slot alt_jmp_addr_slot t_val).
Definition jit_set_slot (slot_idx new_val : Z) :=
  il_code_block_push_inst (JIT_SET_SLOT slot_idx (u32 new_val)).
Definition jit_call_func (call_fn : Z -> M (Sh4 W) unit) (slot_no : Z) :=
  il_code_block_push_inst (JIT_OP_CALL_FUNC call_fn slot_no).
Definition jit_read_16_constaddr (addr slot_no : Z) :=
  il_code_block_push_inst (JIT_OP_READ_16_CONSTADDR addr slot_no).
Definition jit_sign_extend_16 (slot_no : Z) :=
  il_code_block_push_inst (JIT_OP_SIGN_EXTEND_16 slot_no).
Definition jit_read_32_constaddr (addr slot_no : Z) :=
  il_code_block_push_inst (JIT_OP_READ_32_CONSTADDR addr slot_no).
Definition jit_read_32_slot (addr_slot dst_slot : Z) :=
  il_code_block_push_inst (JIT_OP_READ_32_SLOT addr_slot dst_slot).
Definition jit_write_32_slot (src_slot addr_slot : Z) :=
  il_code_block_push_inst (JIT_OP_WRITE_32_SLOT src_slot addr_slot).
Definition jit_load_slot16 (slot_no : Z) (src : host_ptr) :=
  il_code_block_push_inst (JIT_OP_LOAD_SLOT16 src slot_no).
Definition jit_load_slot (slot_no : Z) (src : host_ptr) :=
  il_code_block_push_inst (JIT_OP_LOAD_SLOT src slot_no).
Definition jit_store_slot (slot_no : Z) (dst : host_ptr) :=
  il_code_block_push_inst (JIT_OP_STORE_SLOT dst slot_no).
Definition jit_add (slot_src slot_dst : Z) :=
  il_code_block_push_inst (JIT_OP_ADD slot_src slot_dst).
Definition jit_sub (slot_src slot_dst : Z) :=
  il_code_block_push_inst (JIT_OP_SUB slot_src slot_dst).
Definition jit_add_const32 (slot_dst const32 : Z) :=
  il_code_block_push_inst (JIT_OP_ADD_CONST32 slot_dst (u32 const32)).
Definition jit_discard_slot (slot_no : Z) := il_code_block_push_inst (JIT_OP_DISCARD_SLOT slot_no).
Definition jit_xor (slot_src slot_dst : Z) :=
  il_code_block_push_inst (JIT_OP_XOR slot_src slot_dst).
Definition jit_xor_const32 (slot_no const32 : Z) :=
  il_code_block_push_inst (JIT_OP_XOR_CONST32 slot_no (u32 const32)).
Definition jit_mov (slot_src slot_dst : Z) :=
  il_code_block_push_inst (JIT_OP_MOV slot_src slot_dst).
Definition jit_and (slot_src slot_dst : Z) :=
  il_code_block_push_inst (JIT_OP_AND slot_src slot_dst).
Definition jit_and_const32 (slot_no const32 : Z) :=
  il_code_block_push_inst (JIT_OP_AND_CONST32 slot_no (u32 const32)).
Definition jit_or (slot_src slot_dst : Z) :=
  il_code_block_push_inst (JIT_OP_OR slot_src slot_dst).
Definition jit_or_const32 (slot_no const32 : Z) :=
  il_code_block_push_inst (JIT_OP_OR_CONST32 slot_no (u32 const32)).
Definition jit_slot_to_bool (slot_no : Z) := il_code_block_push_inst (JIT_OP_SLOT_TO_BOOL slot_no).
Definition jit_not (slot_no : Z) := il_code_block_push_inst (JIT_OP_NOT slot_no).
Definition jit_shll (slot_no shift_amt : Z) :=
  il_code_block_push_inst (JIT_OP_SHLL slot_no shift_amt).
Definition jit_shar (slot_no shift_amt : Z) :=
  il_code_block_push_inst (JIT_OP_SHAR slot_no shift_amt).
Definition jit_shlr (slot_no shift_amt : Z) :=
  il_code_block_push_inst (JIT_OP_SHLR slot_no shift_amt).
Definition jit_shad (slot_val slot_shift_amt : Z) :=
  il_code_block_push_inst (JIT_OP_SHAD slot_val slot_shift_amt).
Definition jit_set_gt_unsigned (slot_lhs slot_rhs slot_dst : Z) :=
  il_code_block_push_inst (JIT_OP_SET_GT_UNSIGNED slot_lhs slot_rhs slot_dst).
Definition jit_set_gt_signed (slot_lhs slot_rhs slot_dst : Z) :=
  il_code_block_push_inst (JIT_OP_SET_GT_SIGNED slot_lhs slot_rhs slot_dst).
Definition jit_set_gt_signed_const (slot_lhs imm_rhs slot_dst : Z) :=
  il_code_block_push_inst (JIT_OP_SET_GT_SIGNED_CONST slot_lhs (s32 imm_rhs) slot_dst).
Definition jit_set_eq (slot_lhs slot_rhs slot_dst : Z) :=
  il_code_block_push_inst (JIT_OP_SET_EQ slot_lhs slot_rhs slot_dst).
Definition jit_set_ge_unsigned (slot_lhs slot_rhs slot_dst : Z) :=
  il_code_block_push_inst (JIT_OP_SET_GE_UNSIGNED slot_lhs slot_rhs slot_dst).
Definition jit_set_ge_signed (slot_lhs slot_rhs slot_dst : Z) :=
  il_code_block_push_inst (JIT_OP_SET_GE_SIGNED slot_lhs slot_rhs slot_dst).
Definition jit_set_ge_signed_const (slot_lhs imm_rhs slot_dst : Z) :=
  il_code_block_push_inst (JIT_OP_SET_GE_SIGNED_CONST slot_lhs (s32 imm_rhs) slot_dst).
Definition jit_mul_u32 (slot_lhs slot_rhs slot_dst : Z) :=
  il_code_block_push_inst (JIT_OP_MUL_U32 slot_lhs slot_rhs slot_dst).
End jit_il.
Arguments jit_inst W : clear implicits.
Arguments il_code_block W : clear implicits.

(** ** The interpreter of blocks *)
Abbreviation slots := (gmap Z Z).

Section intp.
Context {W : Type} `{!Machine W} `{!HostRam W}.

(** [block->slots[i]] *)
Definition slot_get (i : Z) (sl : slots) : Z := default 0 (sl !! i).
Definition slot_set (i v : Z) (sl : slots) : slots := <[i := u32 v]> sl.

(** reads and writes through a host pointer *)
Definition ptr_load16 (p : host_ptr) (s : Sh4 W) : res Z :=
  match p with
  | PtrReg i => Ok (Z.land (getr i s) 0xffff)
  | PtrRam a => Ok (u16 (load 2 a (host_ram (world s))))
  end.
Definition ptr_load32 (p : host_ptr) (s : Sh4 W) : res Z :=
  match p with
  | PtrReg i => Ok (getr i s)
  | PtrRam a => Ok (u32 (load 4 a (host_ram (world s))))
  end.
(** the front end stores to registers only *)
Definition ptr_store32 (p : host_ptr) (v : Z) (s : Sh4 W) : res (Sh4 W) :=
  match p with
  | PtrReg i => Ok (setr i v s)
  | PtrRam _ => Err C_UNDEFINED
  end.

(** the state of a running block *)
Abbreviation jit_mach := (slots * Sh4 W)%type.

(** a step continues with the next instruction or leaves the block with a new PC *)
Inductive jit_next : Type := JitNext | JitReturn (pc : Z).

Definition on_slots (f : slots -> slots) : M jit_mach jit_next :=
  fun x => Ok (JitNext, (f (fst x), snd x)).
Definition on_cpu (m : slots -> M (Sh4 W) unit) : M jit_mach jit_next :=
  fun x => match m (fst x) (snd x) with
           | Ok (_, s) => Ok (JitNext, (fst x, s))
           | Err e => Err e
           end.
Definition cpu_to_slot (slot_no : Z) (m : slots -> M (Sh4 W) Z) : M jit_mach jit_next :=
  fun x => match m (fst x) (snd x) with
           | Ok (v, s) => Ok (JitNext, (slot_set slot_no v (fst x), s))
           | Err e => Err e
           end.
Definition shift_ok {A} (n : Z) (r : res A) : res A :=
  if (0 <=? n) && (n <? 32) then r else Err C_UNDEFINED.

(** one turn of the loop of [code_block_intp_exec] *)
Definition intp_step (inst : jit_inst W) : M jit_mach jit_next :=
  match inst with
  | JIT_OP_FALLBACK fallback_fn i => on_cpu (fun _ => fallback_fn i)
  | JIT_OP_JUMP slot_no => fun x => Ok (JitReturn (slot_get slot_no (fst x)), x)
  | JIT_JUMP_COND slot_no jmp_addr_slot alt_jmp_addr_slot t_flag =>
      fun x =>
        if Z.land (slot_get slot_no (fst x)) 1 =? t_flag
        then Ok (JitReturn (slot_get jmp_addr_slot (fst x)), x)
        else Ok (JitReturn (slot_get alt_jmp_addr_slot (fst x)), x)
  | JIT_SET_SLOT slot_idx new_val => on_slots (slot_set slot_idx new_val)
  | JIT_OP_CALL_FUNC call_fn slot_no => on_cpu (fun sl => call_fn (slot_get slot_no sl))
  | JIT_OP_READ_16_CONSTADDR addr slot_no =>
      cpu_to_slot slot_no (fun _ => memory_map_read_16 addr)
  | JIT_OP_SIGN_EXTEND_16 slot_no =>
      on_slots (fun sl => slot_set slot_no (s16 (slot_get slot_no sl)) sl)
  | JIT_OP_READ_32_CONSTADDR addr slot_no =>
      cpu_to_slot slot_no (fun _ => memory_map_read_32 addr)
  | JIT_OP_READ_32_SLOT addr_slot dst_slot =>
      cpu_to_slot dst_slot (fun sl => memory_map_read_32 (slot_get addr_slot sl))
  | JIT_OP_WRITE_32_SLOT src_slot addr_slot =>
      on_cpu (fun sl => memory_map_write_32 (slot_get addr_slot sl) (slot_get src_slot sl))
  | JIT_OP_LOAD_SLOT16 src slot_no =>
      cpu_to_slot slot_no (fun _ s => match ptr_load16 src s with
                                      | Ok v => Ok (v, s) | Err e => Err e end)
  | JIT_OP_LOAD_SLOT src slot_no =>
      cpu_to_slot slot_no (fun _ s => match ptr_load32 src s with
                                      | Ok v => Ok (v, s) | Err e => Err e end)
  | JIT_OP_STORE_SLOT dst slot_no =>
      on_cpu (fun sl s => match ptr_store32 dst (slot_get slot_no sl) s with
                          | Ok s' => Ok (tt, s') | Err e => Err e end)
  | JIT_OP_ADD src dst =>
      on_slots (fun sl => slot_set dst (slot_get dst sl + slot_get src sl) sl)
  | JIT_OP_SUB src dst =>
      on_slots (fun sl => slot_set dst (slot_get dst sl - slot_get src sl) sl)
  | JIT_OP_ADD_CONST32 dst const32 =>
      on_slots (fun sl => slot_set dst (slot_get dst sl + const32) sl)
  | JIT_OP_XOR src dst =>
      on_slots (fun sl => slot_set dst (Z.lxor (slot_get dst sl) (slot_get src sl)) sl)
  | JIT_OP_XOR_CONST32 slot_no const32 =>
      on_slots (fun sl => slot_set slot_no (Z.lxor (slot_get slot_no sl) const32) sl)
  | JIT_OP_MOV src dst => on_slots (fun sl => slot_set dst (slot_get src sl) sl)
  | JIT_OP_AND src dst =>
      on_slots (fun sl => slot_set dst (Z.land (slot_get dst sl) (slot_get src sl)) sl)
  | JIT_OP_AND_CONST32 slot_no const32 =>
      on_slots (fun sl => slot_set slot_no (Z.land (slot_get slot_no sl) const32) sl)
  | JIT_OP_OR src dst =>
      on_slots (fun sl => slot_set dst (Z.lor (slot_get dst sl) (slot_get src sl)) sl)
  | JIT_OP_OR_CONST32 slot_no const32 =>
      on_slots (fun sl => slot_set slot_no (Z.lor (slot_get slot_no sl) const32) sl)
  | JIT_OP_SLOT_TO_BOOL slot_no =>
      on_slots (fun sl => slot_set slot_no (b2z (truth (slot_get slot_no sl))) sl)
  | JIT_OP_NOT slot_no =>
      on_slots (fun sl => slot_set slot_no (not32 (slot_get slot_no sl)) sl)
  | JIT_OP_SHLL slot_no amt =>
      fun x => shift_ok amt (on_slots (fun sl =>
        slot_set slot_no (Z.shiftl (slot_get slot_no sl) amt) sl) x)
  | JIT_OP_SHAR slot_no amt =>
      fun x => shift_ok amt (on_slots (fun sl =>
        slot_set slot_no (Z.shiftr (s32 (slot_get slot_no sl)) amt) sl) x)
  | JIT_OP_SHLR slot_no amt =>
      fun x => shift_ok amt (on_slots (fun sl =>
        slot_set slot_no (Z.shiftr (slot_get slot_no sl) amt) sl) x)
  | JIT_OP_SHAD slot_val slot_shift_amt =>
      fun x =>
        let amt := s32 (slot_get slot_shift_amt (fst x)) in
        if amt >=? 0 then
          shift_ok (slot_get slot_shift_amt (fst x)) (on_slots (fun sl =>
            slot_set slot_val (Z.shiftl (slot_get slot_val sl) (slot_get slot_shift_amt sl)) sl) x)
        else
          shift_ok (s32 (- amt)) (on_slots (fun sl =>
            slot_set slot_val (Z.shiftr (s32 (slot_get slot_val sl)) (s32 (- amt))) sl) x)
  | JIT_OP_SET_GT_UNSIGNED lhs rhs dst =>
      on_slots (fun sl => if slot_get lhs sl >? slot_get rhs sl
                          then slot_set dst (Z.lor (slot_get dst sl) 1) sl else sl)
  | JIT_OP_SET_GT_SIGNED lhs rhs dst =>
      on_slots (fun sl => if s32 (slot_get lhs sl) >? s32 (slot_get rhs sl)
                          then slot_set dst (Z.lor (slot_get dst sl) 1) sl else sl)
  | JIT_OP_SET_GT_SIGNED_CONST lhs imm_rhs dst =>
      on_slots (fun sl => if s32 (slot_get lhs sl) >? imm_rhs
                          then slot_set dst (Z.lor (slot_get dst sl) 1) sl else sl)
  | JIT_OP_SET_EQ lhs rhs dst =>
      on_slots (fun sl => if slot_get lhs sl =? slot_get rhs sl
                          then slot_set dst (Z.lor (slot_get dst sl) 1) sl else sl)
  | JIT_OP_SET_GE_UNSIGNED lhs rhs dst =>
      on_slots (fun sl => if slot_get lhs sl >=? slot_get rhs sl
                          then slot_set dst (Z.lor (slot_get dst sl) 1) sl else sl)
  | JIT_OP_SET_GE_SIGNED lhs rhs dst =>
      on_slots (fun sl => if s32 (slot_get lhs sl) >=? s32 (slot_get rhs sl)
                          then slot_set dst (Z.lor (slot_get dst sl) 1) sl else sl)
  | JIT_OP_SET_GE_SIGNED_CONST lhs imm_rhs dst =>
      on_slots (fun sl => if s32 (slot_get lhs sl) >=? imm_rhs
                          then slot_set dst (Z.lor (slot_get dst sl) 1) sl else sl)
  | JIT_OP_MUL_U32 lhs rhs dst =>
      on_slots (fun sl => slot_set dst (slot_get lhs sl * slot_get rhs sl) sl)
  | JIT_OP_DISCARD_SLOT _ => on_slots (fun sl => sl)
  end.

(** [code_block_intp_exec]: the new PC; a block that does not jump out is an error *)
Fixpoint code_block_intp_exec (insts : list (jit_inst W)) : M jit_mach Z :=
  match insts with
  | [] => raise ERROR_INTEGRITY
  | inst :: rest =>
      next <- intp_step inst ;;
      match next with
      | JitReturn pc => ret pc
      | JitNext => code_block_intp_exec rest
      end
  end.
End intp.
