(* ===== verification/Sh4Jit.v ===== *)
(** The SH-4 front end of the JIT (src/libwashdc/hw/sh4/sh4_jit.c, sh4_jit.h,
    jit/jit_mem.c): the translation of SH-4 instructions to the intermediate language.

    The front end keeps registers in slots: [reg_map] says for each register whether its
    value is in [sh4->reg], in a slot, or in both.  Every function of sh4_jit.c that
    translates an instruction is a definition of the same name; it appends to the block and
    returns whether the block goes on.  The translation reads the program through the memory
    map, so the CPU is part of its state. *)
From stdpp Require Import gmap.
From S2P Require Import Prelude MemoryMap Memory Sh4State Sh4Core Sh4Excp Sh4Inst Sh4InstMem.
From S2P Require Import Sh4Decode Sched Sh4Exec JitIL.
Import memory_map memory.

Inductive reg_status : Type := REG_STATUS_SH4 | REG_STATUS_SLOT_AND_SH4 | REG_STATUS_SLOT.

#[export] Instance reg_status_eq_dec : EqDecision reg_status.
Proof. solve_decision. Defined.

(** [struct residency]; its [last_write] and [last_read] are never used *)
Record residency : Type := { stat : reg_status; slot_no : Z }.

Section sh4_jit.
Context {W : Type} `{!BuildConfig} `{!Machine W}.

(** what the translation works on: the CPU, [struct sh4_jit_compile_ctx], the static
    [reg_map] and the block *)
Record jit_compile : Type := {
  jc_sh4 : Sh4 W;
  jc_last_inst_type : sh4_inst_group;
  jc_cycle_count : Z;
  reg_map : gmap Z residency;
  jc_block : il_code_block W
}.
Abbreviation jitM := (M jit_compile).

Definition with_map (f : gmap Z residency -> gmap Z residency) (c : jit_compile) : jit_compile :=
  {| jc_sh4 := jc_sh4 c; jc_last_inst_type := jc_last_inst_type c;
     jc_cycle_count := jc_cycle_count c; reg_map := f (reg_map c); jc_block := jc_block c |}.
Definition with_block (b : il_code_block W) (c : jit_compile) : jit_compile :=
  {| jc_sh4 := jc_sh4 c; jc_last_inst_type := jc_last_inst_type c;
     jc_cycle_count := jc_cycle_count c; reg_map := reg_map c; jc_block := b |}.

(** [reg_map[r]]: after [sh4_jit_new_block] every entry is [REG_STATUS_SH4] *)
Definition residency_init : residency := {| stat := REG_STATUS_SH4; slot_no := -1 |}.
Definition residency_of (r : Z) (c : jit_compile) : residency :=
  default residency_init (reg_map c !! r).

Definition emit (f : il_code_block W -> il_code_block W) : jitM unit :=
  modify (fun c => with_block (f (jc_block c)) c).
Definition jit_alloc_slot : jitM Z :=
  fun c => match alloc_slot (jc_block c) with
           | Ok (n, b) => Ok (n, with_block b c)
           | Err e => Err e
           end.
Definition set_stat (r : Z) (st : reg_status) : jitM unit :=
  modify (fun c => with_map
    (<[r := {| stat := st; slot_no := slot_no (residency_of r c) |}]>) c).

Definition sh4_jit_new_block : jitM unit := modify (with_map (fun _ => ∅)).

(** ** Residency *)
Definition res_associate_reg (reg_no slot : Z) : jitM unit :=
  modify (fun c => with_map
    (<[reg_no := {| stat := stat (residency_of reg_no c); slot_no := slot |}]>) c).

Definition res_drain_reg (reg_no : Z) : jitM unit :=
  res <- gets (residency_of reg_no) ;;
  when (bool_decide (stat res = REG_STATUS_SLOT))
    (emit (jit_store_slot (slot_no res) (PtrReg reg_no)) ;;
     set_stat reg_no REG_STATUS_SLOT_AND_SH4).

(** the loop of [res_drain_all_regs] over [n] registers from [reg_no] on *)
Fixpoint res_drain_loop (n : nat) (reg_no : Z) : jitM unit :=
  match n with
  | O => ret tt
  | S n' => res_drain_reg reg_no ;; res_drain_loop n' (reg_no + 1)
  end.
Definition res_drain_all_regs : jitM unit := res_drain_loop (Z.to_nat SH4_REGISTER_COUNT) 0.

Definition res_invalidate_reg (reg_no : Z) : jitM unit :=
  res <- gets (residency_of reg_no) ;;
  when (negb (bool_decide (stat res = REG_STATUS_SH4)))
    (set_stat reg_no REG_STATUS_SH4 ;;
     emit (free_slot (slot_no res)) ;;
     emit (jit_discard_slot (slot_no res))).

Fixpoint res_invalidate_loop (n : nat) (reg_no : Z) : jitM unit :=
  match n with
  | O => ret tt
  | S n' =>
      res <- gets (residency_of reg_no) ;;
      when (negb (bool_decide (stat res = REG_STATUS_SH4))) (res_invalidate_reg reg_no) ;;
      res_invalidate_loop n' (reg_no + 1)
  end.
Definition res_invalidate_all_regs : jitM unit :=
  res_invalidate_loop (Z.to_nat SH4_REGISTER_COUNT) 0.

Definition res_disassociate_reg (reg_no : Z) : jitM unit :=
  res_drain_reg reg_no ;;
  set_stat reg_no REG_STATUS_SH4.

Definition reg_slot (reg_no : Z) : jitM Z :=
  res <- gets (residency_of reg_no) ;;
  when (bool_decide (stat res = REG_STATUS_SH4))
    (slot <- jit_alloc_slot ;;
     res_associate_reg reg_no slot ;;
     set_stat reg_no REG_STATUS_SLOT_AND_SH4 ;;
     emit (jit_load_slot slot (PtrReg reg_no))) ;;
  gets (fun c => slot_no (residency_of reg_no c)).

Definition reg_slot_noload (reg_no : Z) : jitM Z :=
  res <- gets (residency_of reg_no) ;;
  match stat res with
  | REG_STATUS_SH4 =>
      slot <- jit_alloc_slot ;;
      res_associate_reg reg_no slot ;;
      set_stat reg_no REG_STATUS_SLOT
  | REG_STATUS_SLOT_AND_SH4 => set_stat reg_no REG_STATUS_SLOT
  | REG_STATUS_SLOT => ret tt
  end ;;
  gets (fun c => slot_no (residency_of reg_no c)).

Definition sh4_jit_set_sr (new_sr_val : Z) : M (Sh4 W) unit :=
  old_sr <- reg_get SH4_REG_SR ;;
  reg_set SH4_REG_SR new_sr_val ;;
  sh4_on_sr_change old_sr.

(** ** Reads from constant addresses (jit_mem.c) *)
Definition find_ram (map : memory_map (Sh4 W)) : option (memory_map_region (Sh4 W)) :=
  List.find (fun r => bool_decide (id r = MEMORY_MAP_REGION_RAM)) (regions map).

(** the window test of both functions *)
Definition ram_window (addr : Z) (ram : memory_map_region (Sh4 W)) : bool :=
  (Z.land addr (range_mask ram) >=? first_addr ram) &&
  (Z.land (u32 (addr + 3)) (range_mask ram) <=? last_addr ram).

Definition jit_mem_read_constaddr_32 (addr slot : Z) : jitM unit :=
  match find_ram mem_map with
  | Some ram =>
      if ram_window addr ram then emit (jit_load_slot slot (PtrRam (Z.land addr (mask ram))))
      else emit (jit_read_32_constaddr addr slot)
  | None => emit (jit_read_32_constaddr addr slot)
  end.

Definition jit_mem_read_constaddr_16 (addr slot : Z) : jitM unit :=
  match find_ram mem_map with
  | Some ram =>
      if ram_window addr ram then emit (jit_load_slot16 slot (PtrRam (Z.land addr (mask ram))))
      else emit (jit_read_16_constaddr addr slot)
  | None => emit (jit_read_16_constaddr addr slot)
  end.

(** reads of the program while it is translated *)
Definition jit_read_inst (pc : Z) : jitM Z :=
  fun c => match sh4_do_read_inst pc (jc_sh4 c) with
           | Ok (inst, s) =>
               Ok (inst, {| jc_sh4 := s; jc_last_inst_type := jc_last_inst_type c;
                            jc_cycle_count := jc_cycle_count c; reg_map := reg_map c;
                            jc_block := jc_block c |})
           | Err e => Err e
           end.
Definition jit_count_cycles (op : InstOpcode W) : jitM unit :=
  modify (fun c =>
    let '(n, last) := sh4_count_inst_cycles op (jc_last_inst_type c) in
    {| jc_sh4 := jc_sh4 c; jc_last_inst_type := last;
       jc_cycle_count := u32 (jc_cycle_count c + n); reg_map := reg_map c;
       jc_block := jc_block c |}).

(** [pc & ~3] of an [unsigned] *)
Definition pc_align4 (pc : Z) : Z := Z.land pc 0xfffffffc.

(** ** Instructions that do not branch *)
Definition sh4_jit_fallback (pc : Z) (op : InstOpcode W) (inst : Z) : jitM bool :=
  res_drain_all_regs ;;
  res_invalidate_all_regs ;;
  emit (jit_fallback (func op) inst) ;;
  ret true.

Definition sh4_jit_movw_a_disp_pc_rn (pc : Z) (op : InstOpcode W) (inst : Z) : jitM bool :=
  let reg_no := Z.land (Z.shiftr inst 8) 0xf + SH4_REG_R0 in
  let disp := Z.land inst 0xff in
  let addr := u32 (disp * 2 + pc + 4) in
  slot <- reg_slot_noload reg_no ;;
  jit_mem_read_constaddr_16 addr slot ;;
  emit (jit_sign_extend_16 slot) ;;
  ret true.

Definition sh4_jit_movl_a_disp_pc_rn (pc : Z) (op : InstOpcode W) (inst : Z) : jitM bool :=
  let reg_no := Z.land (Z.shiftr inst 8) 0xf in
  let disp := Z.land inst 0xff in
  let addr := u32 (disp * 4 + pc_align4 pc + 4) in
  slot <- reg_slot_noload reg_no ;;
  jit_mem_read_constaddr_32 addr slot ;;
  ret true.

Definition sh4_jit_mova_a_disp_pc_r0 (pc : Z) (op : InstOpcode W) (inst : Z) : jitM bool :=
  let disp := Z.land inst 0xff in
  let addr := u32 (disp * 4 + pc_align4 pc + 4) in
  slot <- reg_slot_noload SH4_REG_R0 ;;
  emit (jit_set_slot slot addr) ;;
  ret true.

Definition sh4_jit_nop (pc : Z) (op : InstOpcode W) (inst : Z) : jitM bool := ret true.
Definition sh4_jit_ocbi_arn (pc : Z) (op : InstOpcode W) (inst : Z) : jitM bool := ret true.
Definition sh4_jit_ocbp_arn (pc : Z) (op : InstOpcode W) (inst : Z) : jitM bool := ret true.
Definition sh4_jit_ocbwb_arn (pc : Z) (op : InstOpcode W) (inst : Z) : jitM bool := ret true.

Definition sh4_jit_add_rm_rn (pc : Z) (op : InstOpcode W) (inst : Z) : jitM bool :=
  let reg_src := Z.shiftr (Z.land inst 0x00f0) 4 in
  let reg_dst := Z.shiftr (Z.land inst 0x0f00) 8 in
  slot_src <- reg_slot reg_src ;;
  slot_dst <- reg_slot reg_dst ;;
  emit (jit_add slot_src slot_dst) ;;
  set_stat reg_dst REG_STATUS_SLOT ;;
  ret true.

Definition sh4_jit_add_imm_rn (pc : Z) (op : InstOpcode W) (inst : Z) : jitM bool :=
  let imm_val := s8 (Z.land inst 0xff) in
  let reg_dst := Z.shiftr (Z.land inst 0x0f00) 8 in
  slot_dst <- reg_slot reg_dst ;;
  emit (jit_add_const32 slot_dst imm_val) ;;
  set_stat reg_dst REG_STATUS_SLOT ;;
  ret true.

Definition sh4_jit_xor_rm_rn (pc : Z) (op : InstOpcode W) (inst : Z) : jitM bool :=
  let reg_src := Z.shiftr (Z.land inst 0x00f0) 4 in
  let reg_dst := Z.shiftr (Z.land inst 0x0f00) 8 in
  slot_src <- reg_slot reg_src ;;
  slot_dst <- reg_slot reg_dst ;;
  emit (jit_xor slot_src slot_dst) ;;
  set_stat reg_dst REG_STATUS_SLOT ;;
  ret true.

Definition sh4_jit_mov_rm_rn (pc : Z) (op : InstOpcode W) (inst : Z) : jitM bool :=
  let reg_src := Z.shiftr (Z.land inst 0x00f0) 4 in
  let reg_dst := Z.shiftr (Z.land inst 0x0f00) 8 in
  slot_src <- reg_slot reg_src ;;
  slot_dst <- reg_slot reg_dst ;;
  emit (jit_mov slot_src slot_dst) ;;
  set_stat reg_dst REG_STATUS_SLOT ;;
  ret true.

Definition sh4_jit_and_rm_rn (pc : Z) (op : InstOpcode W) (inst : Z) : jitM bool :=
  let reg_src := Z.shiftr (Z.land inst 0x00f0) 4 in
  let reg_dst := Z.shiftr (Z.land inst 0x0f00) 8 in
  slot_src <- reg_slot reg_src ;;
  slot_dst <- reg_slot reg_dst ;;
  emit (jit_and slot_src slot_dst) ;;
  set_stat reg_dst REG_STATUS_SLOT ;;
  ret true.

Definition sh4_jit_or_rm_rn (pc : Z) (op : InstOpcode W) (inst : Z) : jitM bool :=
  let reg_src := Z.shiftr (Z.land inst 0x00f0) 4 in
  let reg_dst := Z.shiftr (Z.land inst 0x0f00) 8 in
  slot_src <- reg_slot reg_src ;;
  slot_dst <- reg_slot reg_dst ;;
  emit (jit_or slot_src slot_dst) ;;
  set_stat reg_dst REG_STATUS_SLOT ;;
  ret true.

Definition sh4_jit_sub_rm_rn (pc : Z) (op : InstOpcode W) (inst : Z) : jitM bool :=
  let reg_src := Z.shiftr (Z.land inst 0x00f0) 4 in
  let reg_dst := Z.shiftr (Z.land inst 0x0f00) 8 in
  slot_src <- reg_slot reg_src ;;
  slot_dst <- reg_slot reg_dst ;;
  emit (jit_sub slot_src slot_dst) ;;
  set_stat reg_dst REG_STATUS_SLOT ;;
  ret true.

Definition sh4_inst_binary_andb_imm_r0 (pc : Z) (op : InstOpcode W) (inst : Z) : jitM bool :=
  let imm_val := Z.land inst 0xff in
  slot <- reg_slot SH4_REG_R0 ;;
  emit (jit_and_const32 slot imm_val) ;;
  set_stat SH4_REG_R0 REG_STATUS_SLOT ;;
  ret true.

Definition sh4_jit_or_imm8_r0 (pc : Z) (op : InstOpcode W) (inst : Z) : jitM bool :=
  let imm_val := Z.land inst 0xff in
  slot <- reg_slot SH4_REG_R0 ;;
  emit (jit_or_const32 slot imm_val) ;;
  set_stat SH4_REG_R0 REG_STATUS_SLOT ;;
  ret true.

Definition sh4_jit_xor_imm8_r0 (pc : Z) (op : InstOpcode W) (inst : Z) : jitM bool :=
  let imm_val := Z.land inst 0xff in
  slot <- reg_slot SH4_REG_R0 ;;
  emit (jit_xor_const32 slot imm_val) ;;
  set_stat SH4_REG_R0 REG_STATUS_SLOT ;;
  ret true.

Definition sh4_jit_tst_rm_rn (pc : Z) (op : InstOpcode W) (inst : Z) : jitM bool :=
  let reg_dst := Z.shiftr (Z.land inst 0x0f00) 8 + SH4_REG_R0 in
  let reg_src := Z.shiftr (Z.land inst 0x00f0) 4 + SH4_REG_R0 in
  slot_src <- reg_slot reg_src ;;
  slot_dst <- reg_slot reg_dst ;;
  slot_sr <- reg_slot SH4_REG_SR ;;
  res_disassociate_reg reg_dst ;;
  emit (jit_and slot_src slot_dst) ;;
  emit (jit_slot_to_bool slot_dst) ;;
  emit (jit_not slot_dst) ;;
  emit (jit_and_const32 slot_dst 1) ;;
  emit (jit_and_const32 slot_sr (not32 1)) ;;
  emit (jit_or slot_dst slot_sr) ;;
  set_stat SH4_REG_SR REG_STATUS_SLOT ;;
  emit (free_slot slot_dst) ;;
  emit (jit_discard_slot slot_dst) ;;
  ret true.

Definition sh4_jit_tst_imm8_r0 (pc : Z) (op : InstOpcode W) (inst : Z) : jitM bool :=
  slot_r0 <- reg_slot SH4_REG_R0 ;;
  slot_sr <- reg_slot SH4_REG_SR ;;
  res_disassociate_reg SH4_REG_R0 ;;
  emit (jit_and_const32 slot_r0 (Z.land inst 0xff)) ;;
  emit (jit_slot_to_bool slot_r0) ;;
  emit (jit_not slot_r0) ;;
  emit (jit_and_const32 slot_r0 1) ;;
  emit (jit_and_const32 slot_sr (not32 1)) ;;
  emit (jit_or slot_r0 slot_sr) ;;
  set_stat SH4_REG_SR REG_STATUS_SLOT ;;
  emit (free_slot slot_r0) ;;
  emit (jit_discard_slot slot_r0) ;;
  ret true.

Definition sh4_jit_movl_arm_rn (pc : Z) (op : InstOpcode W) (inst : Z) : jitM bool :=
  let reg_src := Z.shiftr (Z.land inst 0x00f0) 4 + SH4_REG_R0 in
  let reg_dst := Z.shiftr (Z.land inst 0x0f00) 8 + SH4_REG_R0 in
  slot_src <- reg_slot reg_src ;;
  slot_dst <- reg_slot reg_dst ;;
  emit (jit_read_32_slot slot_src slot_dst) ;;
  set_stat reg_dst REG_STATUS_SLOT ;;
  ret true.

Definition sh4_jit_movl_rm_arn (pc : Z) (op : InstOpcode W) (inst : Z) : jitM bool :=
  let reg_src := Z.shiftr (Z.land inst 0x00f0) 4 + SH4_REG_R0 in
  let reg_dst := Z.shiftr (Z.land inst 0x0f00) 8 + SH4_REG_R0 in
  slot_src <- reg_slot reg_src ;;
  slot_dst <- reg_slot reg_dst ;;
  emit (jit_write_32_slot slot_src slot_dst) ;;
  set_stat reg_src REG_STATUS_SLOT ;;
  ret true.

Definition sh4_jit_movl_a_disp4_rm_rn (pc : Z) (op : InstOpcode W) (inst : Z) : jitM bool :=
  let disp := Z.shiftl (Z.land inst 0xf) 2 in
  let reg_src := Z.shiftr (Z.land inst 0x00f0) 4 + SH4_REG_R0 in
  let reg_dst := Z.shiftr (Z.land inst 0x0f00) 8 + SH4_REG_R0 in
  slot_src <- reg_slot reg_src ;;
  res_disassociate_reg reg_src ;;
  emit (jit_add_const32 slot_src disp) ;;
  slot_dst <- reg_slot reg_dst ;;
  emit (jit_read_32_slot slot_src slot_dst) ;;
  set_stat reg_dst REG_STATUS_SLOT ;;
  emit (free_slot slot_src) ;;
  emit (jit_discard_slot slot_src) ;;
  ret true.

Definition sh4_jit_movl_a_disp8_gbr_r0 (pc : Z) (op : InstOpcode W) (inst : Z) : jitM bool :=
  let disp := Z.shiftl (Z.land inst 0xff) 2 in
  let reg_src := SH4_REG_GBR in
  let reg_dst := SH4_REG_R0 in
  slot_src <- reg_slot reg_src ;;
  res_disassociate_reg reg_src ;;
  emit (jit_add_const32 slot_src disp) ;;
  slot_dst <- reg_slot reg_dst ;;
  emit (jit_read_32_slot slot_src slot_dst) ;;
  set_stat reg_dst REG_STATUS_SLOT ;;
  emit (free_slot slot_src) ;;
  emit (jit_discard_slot slot_src) ;;
  ret true.

Definition sh4_jit_movl_armp_rn (pc : Z) (op : InstOpcode W) (inst : Z) : jitM bool :=
  let reg_src := Z.shiftr (Z.land inst 0x00f0) 4 + SH4_REG_R0 in
  let reg_dst := Z.shiftr (Z.land inst 0x0f00) 8 + SH4_REG_R0 in
  slot_src <- reg_slot reg_src ;;
  slot_dst <- reg_slot reg_dst ;;
  emit (jit_read_32_slot slot_src slot_dst) ;;
  when (negb (reg_src =? reg_dst)) (emit (jit_add_const32 slot_src 4)) ;;
  set_stat reg_dst REG_STATUS_SLOT ;;
  set_stat reg_src REG_STATUS_SLOT ;;
  ret true.

Definition sh4_jit_movl_rm_amrn (pc : Z) (op : InstOpcode W) (inst : Z) : jitM bool :=
  let reg_src := Z.shiftr (Z.land inst 0x00f0) 4 + SH4_REG_R0 in
  let reg_dst := Z.shiftr (Z.land inst 0x0f00) 8 + SH4_REG_R0 in
  slot_src <- reg_slot reg_src ;;
  slot_dst <- reg_slot reg_dst ;;
  emit (jit_add_const32 slot_dst (-4)) ;;
  emit (jit_write_32_slot slot_src slot_dst) ;;
  set_stat reg_dst REG_STATUS_SLOT ;;
  set_stat reg_src REG_STATUS_SLOT ;;
  ret true.

Definition sh4_jit_ldsl_armp_pr (pc : Z) (op : InstOpcode W) (inst : Z) : jitM bool :=
  let addr_reg := Z.shiftr (Z.land inst 0x0f00) 8 + SH4_REG_R0 in
  addr_slot <- reg_slot addr_reg ;;
  pr_slot <- reg_slot SH4_REG_PR ;;
  emit (jit_read_32_slot addr_slot pr_slot) ;;
  emit (jit_add_const32 addr_slot 4) ;;
  set_stat SH4_REG_PR REG_STATUS_SLOT ;;
  set_stat addr_reg REG_STATUS_SLOT ;;
  ret true.

Definition sh4_jit_mov_imm8_rn (pc : Z) (op : InstOpcode W) (inst : Z) : jitM bool :=
  let imm32 := s8 (Z.land inst 0xff) in
  let dst_reg := Z.shiftr (Z.land inst 0x0f00) 8 + SH4_REG_R0 in
  dst_slot <- reg_slot_noload dst_reg ;;
  emit (jit_set_slot dst_slot imm32) ;;
  set_stat dst_reg REG_STATUS_SLOT ;;
  ret true.

Definition sh4_jit_shll16_rn (pc : Z) (op : InstOpcode W) (inst : Z) : jitM bool :=
  let reg_no := Z.shiftr (Z.land inst 0x0f00) 8 + SH4_REG_R0 in
  slot <- reg_slot reg_no ;;
  emit (jit_shll slot 16) ;;
  set_stat reg_no REG_STATUS_SLOT ;;
  ret true.

Definition sh4_jit_shll2_rn (pc : Z) (op : InstOpcode W) (inst : Z) : jitM bool :=
  let reg_no := Z.shiftr (Z.land inst 0x0f00) 8 + SH4_REG_R0 in
  slot <- reg_slot reg_no ;;
  emit (jit_shll slot 2) ;;
  set_stat reg_no REG_STATUS_SLOT ;;
  ret true.

Definition sh4_jit_shll8_rn (pc : Z) (op : InstOpcode W) (inst : Z) : jitM bool :=
  let reg_no := Z.shiftr (Z.land inst 0x0f00) 8 + SH4_REG_R0 in
  slot <- reg_slot reg_no ;;
  emit (jit_shll slot 8) ;;
  set_stat reg_no REG_STATUS_SLOT ;;
  ret true.

Definition sh4_jit_shar_rn (pc : Z) (op : InstOpcode W) (inst : Z) : jitM bool :=
  let reg_no := Z.shiftr (Z.land inst 0x0f00) 8 + SH4_REG_R0 in
  slot <- reg_slot reg_no ;;
  tmp_cpy <- jit_alloc_slot ;;
  sr_slot <- reg_slot SH4_REG_SR ;;
  emit (jit_mov slot tmp_cpy) ;;
  emit (jit_and_const32 tmp_cpy 1) ;;
  emit (jit_and_const32 sr_slot (not32 1)) ;;
  emit (jit_or tmp_cpy sr_slot) ;;
  set_stat SH4_REG_SR REG_STATUS_SLOT ;;
  emit (free_slot tmp_cpy) ;;
  emit (jit_discard_slot tmp_cpy) ;;
  emit (jit_shar slot 1) ;;
  set_stat reg_no REG_STATUS_SLOT ;;
  ret true.

Definition sh4_jit_shlr_rn (pc : Z) (op : InstOpcode W) (inst : Z) : jitM bool :=
  let reg_no := Z.shiftr (Z.land inst 0x0f00) 8 + SH4_REG_R0 in
  slot <- reg_slot reg_no ;;
  tmp_cpy <- jit_alloc_slot ;;
  sr_slot <- reg_slot SH4_REG_SR ;;
  emit (jit_mov slot tmp_cpy) ;;
  emit (jit_and_const32 tmp_cpy 1) ;;
  emit (jit_and_const32 sr_slot (not32 1)) ;;
  emit (jit_or tmp_cpy sr_slot) ;;
  set_stat SH4_REG_SR REG_STATUS_SLOT ;;
  emit (free_slot tmp_cpy) ;;
  emit (jit_discard_slot tmp_cpy) ;;
  emit (jit_shlr slot 1) ;;
  set_stat reg_no REG_STATUS_SLOT ;;
  ret true.

Definition sh4_jit_shll_rn (pc : Z) (op : InstOpcode W) (inst : Z) : jitM bool :=
  let reg_no := Z.shiftr (Z.land inst 0x0f00) 8 + SH4_REG_R0 in
  slot <- reg_slot reg_no ;;
  tmp_cpy <- jit_alloc_slot ;;
  sr_slot <- reg_slot SH4_REG_SR ;;
  emit (jit_mov slot tmp_cpy) ;;
  emit (jit_and_const32 tmp_cpy (Z.shiftl 1 31)) ;;
  emit (jit_shlr tmp_cpy 31) ;;
  emit (jit_and_const32 sr_slot (not32 1)) ;;
  emit (jit_or tmp_cpy sr_slot) ;;
  set_stat SH4_REG_SR REG_STATUS_SLOT ;;
  emit (free_slot tmp_cpy) ;;
  emit (jit_discard_slot tmp_cpy) ;;
  emit (jit_shll slot 1) ;;
  set_stat reg_no REG_STATUS_SLOT ;;
  ret true.

Definition sh4_jit_shal_rn (pc : Z) (op : InstOpcode W) (inst : Z) : jitM bool :=
  sh4_jit_shll_rn pc op inst.

Definition sh4_jit_shad_rm_rn (pc : Z) (op : InstOpcode W) (inst : Z) : jitM bool :=
  let reg_src := Z.shiftr (Z.land inst 0x00f0) 4 in
  let reg_dst := Z.shiftr (Z.land inst 0x0f00) 8 in
  slot_src <- reg_slot reg_src ;;
  slot_dst <- reg_slot reg_dst ;;
  emit (jit_shad slot_dst slot_src) ;;
  set_stat reg_dst REG_STATUS_SLOT ;;
  ret true.

Definition sh4_jit_shlr2_rn (pc : Z) (op : InstOpcode W) (inst : Z) : jitM bool :=
  let reg_no := Z.shiftr (Z.land inst 0x0f00) 8 + SH4_REG_R0 in
  slot <- reg_slot reg_no ;;
  emit (jit_shlr slot 2) ;;
  set_stat reg_no REG_STATUS_SLOT ;;
  ret true.

Definition sh4_jit_shlr8_rn (pc : Z) (op : InstOpcode W) (inst : Z) : jitM bool :=
  let reg_no := Z.shiftr (Z.land inst 0x0f00) 8 + SH4_REG_R0 in
  slot <- reg_slot reg_no ;;
  emit (jit_shlr slot 8) ;;
  set_stat reg_no REG_STATUS_SLOT ;;
  ret true.

Definition sh4_jit_shlr16_rn (pc : Z) (op : InstOpcode W) (inst : Z) : jitM bool :=
  let reg_no := Z.shiftr (Z.land inst 0x0f00) 8 + SH4_REG_R0 in
  slot <- reg_slot reg_no ;;
  emit (jit_shlr slot 16) ;;
  set_stat reg_no REG_STATUS_SLOT ;;
  ret true.

Definition sh4_jit_swapw_rm_rn (pc : Z) (op : InstOpcode W) (inst : Z) : jitM bool :=
  let reg_src := Z.shiftr (Z.land inst 0x00f0) 4 + SH4_REG_R0 in
  let reg_dst := Z.shiftr (Z.land inst 0x0f00) 8 + SH4_REG_R0 in
  slot_src <- reg_slot reg_src ;;
  slot_dst <- reg_slot_noload reg_dst ;;
  slot_tmp <- jit_alloc_slot ;;
  emit (jit_mov slot_src slot_tmp) ;;
  emit (jit_shlr slot_tmp 16) ;;
  emit (jit_mov slot_src slot_dst) ;;
  emit (jit_and_const32 slot_dst 0xffff) ;;
  emit (jit_shll slot_dst 16) ;;
  emit (jit_or slot_tmp slot_dst) ;;
  set_stat reg_dst REG_STATUS_SLOT ;;
  emit (free_slot slot_tmp) ;;
  emit (jit_discard_slot slot_tmp) ;;
  ret true.

Definition sh4_jit_cmphi_rm_rn (pc : Z) (op : InstOpcode W) (inst : Z) : jitM bool :=
  let reg_src := Z.shiftr (Z.land inst 0x00f0) 4 + SH4_REG_R0 in
  let reg_dst := Z.shiftr (Z.land inst 0x0f00) 8 + SH4_REG_R0 in
  slot_src <- reg_slot reg_src ;;
  slot_dst <- reg_slot reg_dst ;;
  slot_sr <- reg_slot SH4_REG_SR ;;
  emit (jit_and_const32 slot_sr (not32 1)) ;;
  emit (jit_set_gt_unsigned slot_dst slot_src slot_sr) ;;
  set_stat SH4_REG_SR REG_STATUS_SLOT ;;
  ret true.

Definition sh4_jit_cmpgt_rm_rn (pc : Z) (op : InstOpcode W) (inst : Z) : jitM bool :=
  let reg_src := Z.shiftr (Z.land inst 0x00f0) 4 + SH4_REG_R0 in
  let reg_dst := Z.shiftr (Z.land inst 0x0f00) 8 + SH4_REG_R0 in
  slot_src <- reg_slot reg_src ;;
  slot_dst <- reg_slot reg_dst ;;
  slot_sr <- reg_slot SH4_REG_SR ;;
  emit (jit_and_const32 slot_sr (not32 1)) ;;
  emit (jit_set_gt_signed slot_dst slot_src slot_sr) ;;
  set_stat SH4_REG_SR REG_STATUS_SLOT ;;
  ret true.

Definition sh4_jit_cmpeq_rm_rn (pc : Z) (op : InstOpcode W) (inst : Z) : jitM bool :=
  let reg_src := Z.shiftr (Z.land inst 0x00f0) 4 + SH4_REG_R0 in
  let reg_dst := Z.shiftr (Z.land inst 0x0f00) 8 + SH4_REG_R0 in
  slot_src <- reg_slot reg_src ;;
  slot_dst <- reg_slot reg_dst ;;
  slot_sr <- reg_slot SH4_REG_SR ;;
  emit (jit_and_const32 slot_sr (not32 1)) ;;
  emit (jit_set_eq slot_dst slot_src slot_sr) ;;
  set_stat SH4_REG_SR REG_STATUS_SLOT ;;
  ret true.

Definition sh4_jit_cmphs_rm_rn (pc : Z) (op : InstOpcode W) (inst : Z) : jitM bool :=
  let reg_src := Z.shiftr (Z.land inst 0x00f0) 4 + SH4_REG_R0 in
  let reg_dst := Z.shiftr (Z.land inst 0x0f00) 8 + SH4_REG_R0 in
  slot_src <- reg_slot reg_src ;;
  slot_dst <- reg_slot reg_dst ;;
  slot_sr <- reg_slot SH4_REG_SR ;;
  emit (jit_and_const32 slot_sr (not32 1)) ;;
  emit (jit_set_ge_unsigned slot_dst slot_src slot_sr) ;;
  set_stat SH4_REG_SR REG_STATUS_SLOT ;;
  ret true.

Definition sh4_jit_muluw_rm_rn (pc : Z) (op : InstOpcode W) (inst : Z) : jitM bool :=
  let reg_lhs := Z.shiftr (Z.land inst 0x00f0) 4 + SH4_REG_R0 in
  let reg_rhs := Z.shiftr (Z.land inst 0x0f00) 8 + SH4_REG_R0 in
  slot_lhs <- reg_slot reg_lhs ;;
  slot_rhs <- reg_slot reg_rhs ;;
  slot_macl <- reg_slot SH4_REG_MACL ;;
  slot_lhs_16 <- jit_alloc_slot ;;
  slot_rhs_16 <- jit_alloc_slot ;;
  emit (jit_mov slot_lhs slot_lhs_16) ;;
  emit (jit_mov slot_rhs slot_rhs_16) ;;
  emit (jit_and_const32 slot_lhs_16 0xffff) ;;
  emit (jit_and_const32 slot_rhs_16 0xffff) ;;
  emit (jit_mul_u32 slot_lhs_16 slot_rhs_16 slot_macl) ;;
  set_stat SH4_REG_MACL REG_STATUS_SLOT ;;
  emit (jit_discard_slot slot_rhs_16) ;;
  emit (free_slot slot_rhs_16) ;;
  emit (jit_discard_slot slot_lhs_16) ;;
  emit (free_slot slot_lhs_16) ;;
  ret true.

Definition sh4_jit_sts_macl_rn (pc : Z) (op : InstOpcode W) (inst : Z) : jitM bool :=
  let reg_dst := Z.shiftr (Z.land inst 0x0f00) 8 + SH4_REG_R0 in
  slot_dst <- reg_slot reg_dst ;;
  slot_macl <- reg_slot SH4_REG_MACL ;;
  emit (jit_mov slot_macl slot_dst) ;;
  set_stat reg_dst REG_STATUS_SLOT ;;
  ret true.

Definition sh4_jit_cmpge_rm_rn (pc : Z) (op : InstOpcode W) (inst : Z) : jitM bool :=
  let reg_src := Z.shiftr (Z.land inst 0x00f0) 4 + SH4_REG_R0 in
  let reg_dst := Z.shiftr (Z.land inst 0x0f00) 8 + SH4_REG_R0 in
  slot_src <- reg_slot reg_src ;;
  slot_dst <- reg_slot reg_dst ;;
  slot_sr <- reg_slot SH4_REG_SR ;;
  emit (jit_and_const32 slot_sr (not32 1)) ;;
  emit (jit_set_ge_signed slot_dst slot_src slot_sr) ;;
  set_stat SH4_REG_SR REG_STATUS_SLOT ;;
  ret true.

Definition sh4_jit_cmppl_rn (pc : Z) (op : InstOpcode W) (inst : Z) : jitM bool :=
  let reg_lhs := Z.shiftr (Z.land inst 0x0f00) 8 + SH4_REG_R0 in
  slot_lhs <- reg_slot reg_lhs ;;
  slot_sr <- reg_slot SH4_REG_SR ;;
  emit (jit_and_const32 slot_sr (not32 1)) ;;
  emit (jit_set_gt_signed_const slot_lhs 0 slot_sr) ;;
  set_stat SH4_REG_SR REG_STATUS_SLOT ;;
  ret true.

Definition sh4_jit_cmppz_rn (pc : Z) (op : InstOpcode W) (inst : Z) : jitM bool :=
  let reg_lhs := Z.shiftr (Z.land inst 0x0f00) 8 + SH4_REG_R0 in
  slot_lhs <- reg_slot reg_lhs ;;
  slot_sr <- reg_slot SH4_REG_SR ;;
  emit (jit_and_const32 slot_sr (not32 1)) ;;
  emit (jit_set_ge_signed_const slot_lhs 0 slot_sr) ;;
  set_stat SH4_REG_SR REG_STATUS_SLOT ;;
  ret true.

Definition sh4_jit_not_rm_rn (pc : Z) (op : InstOpcode W) (inst : Z) : jitM bool :=
  let reg_src := Z.shiftr (Z.land inst 0x00f0) 4 + SH4_REG_R0 in
  let reg_dst := Z.shiftr (Z.land inst 0x0f00) 8 + SH4_REG_R0 in
  slot_src <- reg_slot reg_src ;;
  slot_dst <- reg_slot reg_dst ;;
  emit (jit_mov slot_src slot_dst) ;;
  emit (jit_not slot_dst) ;;
  set_stat reg_dst REG_STATUS_SLOT ;;
  ret true.

Definition sh4_jit_dt_rn (pc : Z) (op : InstOpcode W) (inst : Z) : jitM bool :=
  let reg_no := Z.shiftr (Z.land inst 0x0f00) 8 + SH4_REG_R0 in
  slot <- reg_slot reg_no ;;
  sr_slot <- reg_slot SH4_REG_SR ;;
  tmp_slot <- jit_alloc_slot ;;
  emit (jit_and_const32 sr_slot (not32 1)) ;;
  emit (jit_add_const32 slot (not32 0)) ;;
  emit (jit_mov slot tmp_slot) ;;
  emit (jit_slot_to_bool tmp_slot) ;;
  emit (jit_not tmp_slot) ;;
  emit (jit_and_const32 tmp_slot 1) ;;
  emit (jit_or tmp_slot sr_slot) ;;
  set_stat reg_no REG_STATUS_SLOT ;;
  set_stat SH4_REG_SR REG_STATUS_SLOT ;;
  emit (jit_discard_slot tmp_slot) ;;
  ret true.

Definition sh4_jit_clrt (pc : Z) (op : InstOpcode W) (inst : Z) : jitM bool :=
  sr_slot <- reg_slot SH4_REG_SR ;;
  emit (jit_and_const32 sr_slot (not32 1)) ;;
  set_stat SH4_REG_SR REG_STATUS_SLOT ;;
  ret true.

Definition sh4_jit_sett (pc : Z) (op : InstOpcode W) (inst : Z) : jitM bool :=
  sr_slot <- reg_slot SH4_REG_SR ;;
  emit (jit_or_const32 sr_slot 1) ;;
  set_stat SH4_REG_SR REG_STATUS_SLOT ;;
  ret true.

Definition sh4_jit_movt (pc : Z) (op : InstOpcode W) (inst : Z) : jitM bool :=
  let reg_no := Z.shiftr (Z.land inst 0x0f00) 8 + SH4_REG_R0 in
  slot <- reg_slot reg_no ;;
  sr_slot <- reg_slot SH4_REG_SR ;;
  emit (jit_mov sr_slot slot) ;;
  emit (jit_and_const32 slot 1) ;;
  set_stat reg_no REG_STATUS_SLOT ;;
  ret true.

(** ** Branches *)
Section branches.
(** [sh4_jit_delay_slot] *)
Context (delay_slot : Z -> jitM unit).

(** the end of a block that jumps to the address in a slot *)
Definition jit_end_jump (slot : Z) : jitM bool :=
  res_drain_all_regs ;;
  emit (jit_jump slot) ;;
  emit (free_slot slot) ;;
  emit (jit_discard_slot slot) ;;
  ret false.

(** the end of a block that jumps on the T flag in a slot *)
Definition jit_end_cond (slot jump_addr alt_addr t_val : Z) : jitM bool :=
  res_drain_all_regs ;;
  jmp_addr_slot <- jit_alloc_slot ;;
  alt_jmp_addr_slot <- jit_alloc_slot ;;
  emit (jit_set_slot jmp_addr_slot jump_addr) ;;
  emit (jit_set_slot alt_jmp_addr_slot alt_addr) ;;
  emit (jit_jump_cond slot jmp_addr_slot alt_jmp_addr_slot t_val) ;;
  emit (free_slot alt_jmp_addr_slot) ;;
  emit (free_slot jmp_addr_slot) ;;
  emit (jit_discard_slot alt_jmp_addr_slot) ;;
  emit (jit_discard_slot jmp_addr_slot) ;;
  emit (free_slot slot) ;;
  emit (jit_discard_slot slot) ;;
  ret false.

Definition sh4_jit_rts (pc : Z) (op : InstOpcode W) (inst : Z) : jitM bool :=
  slot <- reg_slot SH4_REG_PR ;;
  res_disassociate_reg SH4_REG_PR ;;
  delay_slot (u32 (pc + 2)) ;;
  jit_end_jump slot.

Definition sh4_jit_rte (pc : Z) (op : InstOpcode W) (inst : Z) : jitM bool :=
  slot <- reg_slot SH4_REG_SPC ;;
  res_disassociate_reg SH4_REG_SPC ;;
  res_drain_all_regs ;;
  res_invalidate_all_regs ;;
  slot_ssr <- reg_slot SH4_REG_SSR ;;
  emit (jit_call_func sh4_jit_set_sr slot_ssr) ;;
  delay_slot (u32 (pc + 2)) ;;
  jit_end_jump slot.

Definition sh4_jit_braf_rn (pc : Z) (op : InstOpcode W) (inst : Z) : jitM bool :=
  let reg_no := Z.land (Z.shiftr inst 8) 0xf in
  let jump_offs := u32 (pc + 4) in
  slot <- reg_slot (SH4_REG_R0 + reg_no) ;;
  res_disassociate_reg (SH4_REG_R0 + reg_no) ;;
  emit (jit_add_const32 slot jump_offs) ;;
  delay_slot (u32 (pc + 2)) ;;
  jit_end_jump slot.

Definition sh4_jit_bsrf_rn (pc : Z) (op : InstOpcode W) (inst : Z) : jitM bool :=
  let reg_no := Z.land (Z.shiftr inst 8) 0xf in
  let jump_offs := u32 (pc + 4) in
  addr_slot <- reg_slot (SH4_REG_R0 + reg_no) ;;
  res_disassociate_reg (SH4_REG_R0 + reg_no) ;;
  emit (jit_add_const32 addr_slot jump_offs) ;;
  pr_slot <- reg_slot_noload SH4_REG_PR ;;
  emit (jit_set_slot pr_slot (pc + 4)) ;;
  delay_slot (u32 (pc + 2)) ;;
  jit_end_jump addr_slot.

(** [(int)((int8_t)(inst & 0x00ff)) * 2 + 4] *)
Definition jit_disp8 (inst : Z) : Z := s8 (Z.land inst 0x00ff) * 2 + 4.

Definition sh4_jit_bf (pc : Z) (op : InstOpcode W) (inst : Z) : jitM bool :=
  slot <- reg_slot SH4_REG_SR ;;
  res_disassociate_reg SH4_REG_SR ;;
  jit_end_cond slot (pc + jit_disp8 inst) (pc + 2) 0.

Definition sh4_jit_bt (pc : Z) (op : InstOpcode W) (inst : Z) : jitM bool :=
  slot <- reg_slot SH4_REG_SR ;;
  res_disassociate_reg SH4_REG_SR ;;
  jit_end_cond slot (pc + jit_disp8 inst) (pc + 2) 1.

Definition sh4_jit_bfs (pc : Z) (op : InstOpcode W) (inst : Z) : jitM bool :=
  slot <- reg_slot SH4_REG_SR ;;
  res_disassociate_reg SH4_REG_SR ;;
  delay_slot (u32 (pc + 2)) ;;
  jit_end_cond slot (pc + jit_disp8 inst) (pc + 4) 0.

Definition sh4_jit_bts (pc : Z) (op : InstOpcode W) (inst : Z) : jitM bool :=
  slot <- reg_slot SH4_REG_SR ;;
  res_disassociate_reg SH4_REG_SR ;;
  delay_slot (u32 (pc + 2)) ;;
  jit_end_cond slot (pc + jit_disp8 inst) (pc + 4) 1.

(** the displacement of BRA and BSR *)
Definition jit_disp12 (inst : Z) : Z :=
  let disp := Z.land inst 0x0fff in
  let disp := if truth (Z.land disp 0x0800) then s32 (Z.lor disp 0xfffff000) else disp in
  disp * 2 + 4.

Definition sh4_jit_bra (pc : Z) (op : InstOpcode W) (inst : Z) : jitM bool :=
  let disp := jit_disp12 inst in
  delay_slot (u32 (pc + 2)) ;;
  res_drain_all_regs ;;
  addr_slot <- jit_alloc_slot ;;
  emit (jit_set_slot addr_slot (pc + disp)) ;;
  emit (jit_jump addr_slot) ;;
  emit (free_slot addr_slot) ;;
  emit (jit_discard_slot addr_slot) ;;
  ret false.

Definition sh4_jit_bsr (pc : Z) (op : InstOpcode W) (inst : Z) : jitM bool :=
  let disp := jit_disp12 inst in
  slot <- reg_slot_noload SH4_REG_PR ;;
  emit (jit_set_slot slot (pc + 4)) ;;
  delay_slot (u32 (pc + 2)) ;;
  res_drain_all_regs ;;
  addr_slot <- jit_alloc_slot ;;
  emit (jit_set_slot addr_slot (pc + disp)) ;;
  emit (jit_jump addr_slot) ;;
  emit (free_slot addr_slot) ;;
  emit (jit_discard_slot addr_slot) ;;
  ret false.

Definition sh4_jit_jmp_arn (pc : Z) (op : InstOpcode W) (inst : Z) : jitM bool :=
  let reg_no := Z.land (Z.shiftr inst 8) 0xf in
  slot <- reg_slot (SH4_REG_R0 + reg_no) ;;
  res_disassociate_reg (SH4_REG_R0 + reg_no) ;;
  delay_slot (u32 (pc + 2)) ;;
  jit_end_jump slot.

Definition sh4_jit_jsr_arn (pc : Z) (op : InstOpcode W) (inst : Z) : jitM bool :=
  let reg_no := Z.land (Z.shiftr inst 8) 0xf in
  addr_slot <- reg_slot (SH4_REG_R0 + reg_no) ;;
  res_disassociate_reg (SH4_REG_R0 + reg_no) ;;
  pr_slot <- reg_slot_noload SH4_REG_PR ;;
  emit (jit_set_slot pr_slot (pc + 4)) ;;
  delay_slot (u32 (pc + 2)) ;;
  jit_end_jump addr_slot.

(** the call through [op->disas] *)
Definition jit_disas (fn : sh4_jit_fn) : Z -> InstOpcode W -> Z -> jitM bool :=
  match fn with
  | fn_sh4_jit_rts => sh4_jit_rts
  | fn_sh4_jit_fallback => sh4_jit_fallback
  | fn_sh4_jit_clrt => sh4_jit_clrt
  | fn_sh4_jit_nop => sh4_jit_nop
  | fn_sh4_jit_rte => sh4_jit_rte
  | fn_sh4_jit_sett => sh4_jit_sett
  | fn_sh4_jit_movt => sh4_jit_movt
  | fn_sh4_jit_cmppz_rn => sh4_jit_cmppz_rn
  | fn_sh4_jit_cmppl_rn => sh4_jit_cmppl_rn
  | fn_sh4_jit_dt_rn => sh4_jit_dt_rn
  | fn_sh4_jit_shal_rn => sh4_jit_shal_rn
  | fn_sh4_jit_shar_rn => sh4_jit_shar_rn
  | fn_sh4_jit_shll_rn => sh4_jit_shll_rn
  | fn_sh4_jit_shlr_rn => sh4_jit_shlr_rn
  | fn_sh4_jit_shll2_rn => sh4_jit_shll2_rn
  | fn_sh4_jit_shlr2_rn => sh4_jit_shlr2_rn
  | fn_sh4_jit_shll8_rn => sh4_jit_shll8_rn
  | fn_sh4_jit_shlr8_rn => sh4_jit_shlr8_rn
  | fn_sh4_jit_shll16_rn => sh4_jit_shll16_rn
  | fn_sh4_jit_shlr16_rn => sh4_jit_shlr16_rn
  | fn_sh4_jit_braf_rn => sh4_jit_braf_rn
  | fn_sh4_jit_bsrf_rn => sh4_jit_bsrf_rn
  | fn_sh4_inst_binary_andb_imm_r0 => sh4_inst_binary_andb_imm_r0
  | fn_sh4_jit_or_imm8_r0 => sh4_jit_or_imm8_r0
  | fn_sh4_jit_tst_imm8_r0 => sh4_jit_tst_imm8_r0
  | fn_sh4_jit_xor_imm8_r0 => sh4_jit_xor_imm8_r0
  | fn_sh4_jit_bf => sh4_jit_bf
  | fn_sh4_jit_bfs => sh4_jit_bfs
  | fn_sh4_jit_bt => sh4_jit_bt
  | fn_sh4_jit_bts => sh4_jit_bts
  | fn_sh4_jit_bra => sh4_jit_bra
  | fn_sh4_jit_bsr => sh4_jit_bsr
  | fn_sh4_jit_ocbi_arn => sh4_jit_ocbi_arn
  | fn_sh4_jit_ocbp_arn => sh4_jit_ocbp_arn
  | fn_sh4_jit_ocbwb_arn => sh4_jit_ocbwb_arn
  | fn_sh4_jit_jmp_arn => sh4_jit_jmp_arn
  | fn_sh4_jit_jsr_arn => sh4_jit_jsr_arn
  | fn_sh4_jit_mov_imm8_rn => sh4_jit_mov_imm8_rn
  | fn_sh4_jit_add_imm_rn => sh4_jit_add_imm_rn
  | fn_sh4_jit_movw_a_disp_pc_rn => sh4_jit_movw_a_disp_pc_rn
  | fn_sh4_jit_movl_a_disp_pc_rn => sh4_jit_movl_a_disp_pc_rn
  | fn_sh4_jit_mov_rm_rn => sh4_jit_mov_rm_rn
  | fn_sh4_jit_swapw_rm_rn => sh4_jit_swapw_rm_rn
  | fn_sh4_jit_add_rm_rn => sh4_jit_add_rm_rn
  | fn_sh4_jit_cmpeq_rm_rn => sh4_jit_cmpeq_rm_rn
  | fn_sh4_jit_cmphs_rm_rn => sh4_jit_cmphs_rm_rn
  | fn_sh4_jit_cmpge_rm_rn => sh4_jit_cmpge_rm_rn
  | fn_sh4_jit_cmphi_rm_rn => sh4_jit_cmphi_rm_rn
  | fn_sh4_jit_cmpgt_rm_rn => sh4_jit_cmpgt_rm_rn
  | fn_sh4_jit_muluw_rm_rn => sh4_jit_muluw_rm_rn
  | fn_sh4_jit_sub_rm_rn => sh4_jit_sub_rm_rn
  | fn_sh4_jit_and_rm_rn => sh4_jit_and_rm_rn
  | fn_sh4_jit_not_rm_rn => sh4_jit_not_rm_rn
  | fn_sh4_jit_or_rm_rn => sh4_jit_or_rm_rn
  | fn_sh4_jit_tst_rm_rn => sh4_jit_tst_rm_rn
  | fn_sh4_jit_xor_rm_rn => sh4_jit_xor_rm_rn
  | fn_sh4_jit_shad_rm_rn => sh4_jit_shad_rm_rn
  | fn_sh4_jit_sts_macl_rn => sh4_jit_sts_macl_rn
  | fn_sh4_jit_ldsl_armp_pr => sh4_jit_ldsl_armp_pr
  | fn_sh4_jit_movl_rm_arn => sh4_jit_movl_rm_arn
  | fn_sh4_jit_movl_arm_rn => sh4_jit_movl_arm_rn
  | fn_sh4_jit_movl_rm_amrn => sh4_jit_movl_rm_amrn
  | fn_sh4_jit_movl_armp_rn => sh4_jit_movl_armp_rn
  | fn_sh4_jit_movl_a_disp4_rm_rn => sh4_jit_movl_a_disp4_rm_rn
  | fn_sh4_jit_movl_a_disp8_gbr_r0 => sh4_jit_movl_a_disp8_gbr_r0
  | fn_sh4_jit_mova_a_disp_pc_r0 => sh4_jit_mova_a_disp_pc_r0
  end.
End branches.

(** [sh4_jit_delay_slot] translates the instruction in the slot with the same functions.  The
    recursion ends there: an instruction that has a slot of its own is rejected. *)
Fixpoint sh4_jit_delay_slot (fuel : nat) (pc : Z) : jitM unit :=
  match fuel with
  | O => raise OUT_OF_FUEL
  | S fuel' =>
      inst <- jit_read_inst pc ;;
      let inst_op := sh4_decode_inst inst in
      if pc_relative inst_op then raise ERROR_UNIMPLEMENTED
      else
        go_on <- jit_disas (sh4_jit_delay_slot fuel') (disas inst_op) pc inst_op inst ;;
        if go_on : bool then jit_count_cycles inst_op else raise ERROR_INTEGRITY
  end.

(** one level of [sh4_jit_delay_slot] is enough *)
Definition slot_fuel : nat := 1.

Definition sh4_jit_compile_inst (pc : Z) : jitM bool :=
  inst <- jit_read_inst pc ;;
  let inst_op := sh4_decode_inst inst in
  jit_count_cycles inst_op ;;
  jit_disas (sh4_jit_delay_slot slot_fuel) (disas inst_op) pc inst_op inst.

(** the loop of [sh4_jit_il_code_block_compile] *)
Fixpoint compile_loop (fuel : nat) (addr : Z) : jitM unit :=
  match fuel with
  | O => raise OUT_OF_FUEL
  | S fuel' =>
      do_continue <- sh4_jit_compile_inst addr ;;
      if do_continue : bool then compile_loop fuel' (u32 (addr + 2)) else ret tt
  end.

Definition sh4_jit_il_code_block_compile (fuel : nat) (addr : Z) : jitM unit :=
  sh4_jit_new_block ;; compile_loop fuel addr.

(** [struct code_block_intp], without the slots, which every run provides *)
Record code_block_intp : Type := {
  intp_insts : list (jit_inst W);
  intp_cycle_count : Z
}.

(** [sh4_jit_compile_intp] and [code_block_intp_compile] *)
Definition sh4_jit_compile_intp (fuel : nat) (pc : Z) (s : Sh4 W) : res (code_block_intp * Sh4 W) :=
  match sh4_jit_il_code_block_compile fuel pc
          {| jc_sh4 := s; jc_last_inst_type := SH4_GROUP_NONE; jc_cycle_count := 0;
             reg_map := ∅; jc_block := il_code_block_init |} with
  | Ok (_, c) =>
      Ok ({| intp_insts := inst_list (jc_block c);
             intp_cycle_count := u32 (jc_cycle_count c * SH4_CLOCK_SCALE) |}, jc_sh4 c)
  | Err e => Err e
  end.
End sh4_jit.
Arguments jit_compile W : clear implicits.
Arguments code_block_intp W : clear implicits.
