(* ===== verification/Sh4JitSim.v ===== *)
(** The correctness argument of the SH-4 front end: a relation between a running block and
    the CPU that the interpreter would have, and rules that follow the front end's functions
    while they emit code.

    [st] relates the state of the translation, the slots and the (partly outdated) register
    array of the running block to the CPU of the interpreter.  A rule [jwp] about a function
    of the front end says that the function succeeds, that the code it emits runs, and what
    holds afterwards. *)
From stdpp Require Import gmap.
From S2P Require Import Prelude MemoryMap Memory Sh4State Board Sh4Core Sh4Excp Sh4Inst.
From S2P Require Import Sh4InstMem Sh4Decode Sched Sh4Exec JitIL Sh4Jit.
Import memory_map memory.

(** the registers that the front end keeps in slots *)
Definition cached_regs : list Z :=
  [0; 1; 2; 3; 4; 5; 6; 7; 8; 9; 10; 11; 12; 13; 14; 15;
   SH4_REG_SR; SH4_REG_SSR; SH4_REG_SPC; SH4_REG_GBR; SH4_REG_MACL; SH4_REG_PR].

Definition res_map {A S T} (f : S -> T) (r : res (A * S)) : res (A * T) :=
  match r with Ok (a, s) => Ok (a, f s) | Err e => Err e end.

(** an operation that neither reads nor writes the registers of [rs] *)
Record blind_to {W A} (rs : list Z) (m : M (Sh4 W) A) : Prop := {
  blind_set : forall r v s, r ∈ rs -> regs_ok s -> m (setr r v s) = res_map (setr r v) (m s);
  blind_ok : forall a s s', m s = Ok (a, s') -> regs_ok s -> regs_ok s'
}.

(** the state of a delayed branch, which the interpreter keeps in the CPU and a block does not *)
Definition delayed {W} (b : bool) (a : Z) (s : Sh4 W) : Sh4 W :=
  with_delayed_branch b (with_delayed_branch_addr a s).

(** an operation that does not look at what a block keeps elsewhere *)
Record jit_blind {W A} (m : M (Sh4 W) A) : Prop := {
  jb_regs : blind_to (SH4_REG_PC :: cached_regs) m;
  jb_delay : forall b a s, m (delayed b a s) = res_map (delayed b a) (m s)
}.

(** What the front end needs of the machine: the handlers behind the memory map do not look at
    the registers that it keeps in slots, nor at PC or a pending branch, and aligned reads that
    [jit_mem.c] takes for reads of the RAM are, where they succeed, reads of its array. *)
Class JitMachine (W : Type) `{!Machine W} `{!HostRam W} : Prop := {
  jm_read : forall r a f addr, r ∈ regions mem_map -> read_fn (intf r) a = Some f ->
    jit_blind (f addr);
  jm_write : forall r a f addr v, r ∈ regions mem_map -> write_fn (intf r) a = Some f ->
    jit_blind (f addr v);
  jm_unmap_read : forall u a f addr, unmap mem_map = Some u -> read_fn u a = Some f ->
    jit_blind (f addr);
  jm_unmap_write : forall u a f addr v, unmap mem_map = Some u -> write_fn u a = Some f ->
    jit_blind (f addr v);
  jm_ram_32 : forall ram addr v (s s' : Sh4 W), find_ram mem_map = Some ram ->
    ram_window addr ram = true -> in_range 32 addr -> addr mod 4 = 0 ->
    memory_map_read_32 addr s = Ok (v, s') ->
    v = u32 (load 4 (Z.land addr (mask ram)) (host_ram (world s))) /\ s' = s;
  jm_ram_16 : forall ram addr v (s s' : Sh4 W), find_ram mem_map = Some ram ->
    ram_window addr ram = true -> in_range 32 addr -> addr mod 2 = 0 ->
    memory_map_read_16 addr s = Ok (v, s') ->
    v = u16 (load 2 (Z.land addr (mask ram)) (host_ram (world s))) /\ s' = s
}.

Section blind.
Context {W : Type} {MCH : Machine W}.
Implicit Types s : Sh4 W.

Lemma blind_ret rs {A} (a : A) : blind_to rs (ret a : M (Sh4 W) A).
Proof. split; [done|]. by intros ? ? ? [= <- <-]. Qed.

Lemma blind_raise rs {A} e : blind_to rs (raise e : M (Sh4 W) A).
Proof. by split. Qed.

Lemma blind_bind rs {A B} (m : M (Sh4 W) A) (k : A -> M (Sh4 W) B) :
  blind_to rs m -> (forall a, blind_to rs (k a)) -> blind_to rs (bind m k).
Proof.
  intros [Hm Ho] Hk. split.
  - intros r v s Hr Hs. unfold bind. rewrite Hm by done.
    destruct (m s) as [[a s']|] eqn:E; [|done]. cbn. apply (Hk a); eauto.
  - intros b s s' Hb Hs. apply bind_inv in Hb as (a & s1 & H1 & H2).
    eapply (Hk a); eauto.
Qed.
End blind.

Section blind_memory.
Context {W : Type} {MCH : Machine W} {HR : HostRam W} {JM : JitMachine W}.
Implicit Types s : Sh4 W.

Lemma find_region_blind first last r :
  find_region first last (regions mem_map) = Some r -> r ∈ regions (mem_map : memory_map (Sh4 W)).
Proof. intros H. by apply find_region_Some in H as [? _]. Qed.

Lemma jit_blind_raise {A} e : jit_blind (raise e : M (Sh4 W) A).
Proof. split; [apply blind_raise|done]. Qed.

Lemma jit_blind_call {A} (f : option (M (Sh4 W) A)) :
  (forall g, f = Some g -> jit_blind g) -> jit_blind (call_ptr f).
Proof. destruct f; [by auto|]. intros. apply jit_blind_raise. Qed.

Lemma jit_blind_read a addr : jit_blind (memory_map_read a (mem_map : memory_map (Sh4 W)) addr).
Proof.
  unfold memory_map_read. destruct (find_region _ _ _) as [r|] eqn:Ef.
  - apply find_region_blind in Ef. apply jit_blind_call. intros g Hg.
    apply fmap_Some in Hg as (f & Hf & ->). eauto using jm_read.
  - destruct (unmap mem_map) as [u|] eqn:Eu; [|apply jit_blind_raise].
    destruct (read_fn u a) as [f|] eqn:Ef'; [|apply jit_blind_raise]. eauto using jm_unmap_read.
Qed.

Lemma jit_blind_write a addr v :
  jit_blind (memory_map_write a (mem_map : memory_map (Sh4 W)) addr v).
Proof.
  unfold memory_map_write. destruct (find_region _ _ _) as [r|] eqn:Ef.
  - apply find_region_blind in Ef. apply jit_blind_call. intros g Hg.
    apply fmap_Some in Hg as (f & Hf & ->). eauto using jm_write.
  - destruct (unmap mem_map) as [u|] eqn:Eu; [|apply jit_blind_raise].
    destruct (read_fn u a) as [f|] eqn:Ef'; [|apply jit_blind_raise]. apply jit_blind_call.
    intros g Hg. apply fmap_Some in Hg as (f' & Hf & ->). eauto using jm_unmap_write.
Qed.

Lemma blind_map_read a addr :
  blind_to (SH4_REG_PC :: cached_regs) (memory_map_read a (mem_map : memory_map (Sh4 W)) addr).
Proof. apply jb_regs, jit_blind_read. Qed.

Lemma blind_map_write a addr v :
  blind_to (SH4_REG_PC :: cached_regs) (memory_map_write a (mem_map : memory_map (Sh4 W)) addr v).
Proof. apply jb_regs, jit_blind_write. Qed.

Lemma blind_read_8 a : blind_to (W := W) (SH4_REG_PC :: cached_regs) (memory_map_read_8 a).
Proof. apply blind_bind; [apply blind_map_read|]. intros. apply blind_ret. Qed.
Lemma blind_read_16 a : blind_to (W := W) (SH4_REG_PC :: cached_regs) (memory_map_read_16 a).
Proof. apply blind_bind; [apply blind_map_read|]. intros. apply blind_ret. Qed.
Lemma blind_read_32 a : blind_to (W := W) (SH4_REG_PC :: cached_regs) (memory_map_read_32 a).
Proof. apply blind_bind; [apply blind_map_read|]. intros. apply blind_ret. Qed.
End blind_memory.

(** registers of a list keep their values under a blind operation *)
Section blind_facts.
Context {W : Type}.
Implicit Types s : Sh4 W.

Lemma setr_comm i j v w s : 0 <= i -> 0 <= j -> i <> j -> setr i v (setr j w s) = setr j w (setr i v s).
Proof.
  intros. unfold setr, with_reg. cbn. f_equal. apply list_insert_insert_ne. lia.
Qed.

Lemma blind_keeps {A} rs (m : M (Sh4 W) A) r a s s' :
  blind_to rs m -> r ∈ rs -> valid_reg r -> regs_ok s -> m s = Ok (a, s') ->
  getr r s' = getr r s.
Proof.
  intros [Hb Ho] Hr Hv Hs Hm. pose proof (Hb r (getr r s) s Hr Hs) as H.
  rewrite setr_same, Hm in H by done. cbn in H. injection H as H. rewrite H.
  rewrite getr_setr_eq by eauto. by rewrite wrap_small by by apply getr_range.
Qed.

(** several registers at once *)
Definition setrs (l : list (Z * Z)) s : Sh4 W := foldr (fun rv acc => setr (fst rv) (snd rv) acc) s l.

Lemma setrs_ok l s : regs_ok s -> regs_ok (setrs l s).
Proof. intros. induction l; cbn; auto using setr_ok. Qed.

Lemma blind_setrs {A} rs (m : M (Sh4 W) A) l s :
  blind_to rs m -> (forall r v, (r, v) ∈ l -> r ∈ rs) -> regs_ok s ->
  m (setrs l s) = res_map (setrs l) (m s).
Proof.
  intros Hb Hl Hs. induction l as [|[r v] l IH].
  - cbn. by destruct (m s) as [[]|].
  - change (m (setr r v (setrs l s)) = res_map (setrs ((r, v) :: l)) (m s)).
    rewrite (blind_set _ _ Hb); [|eapply Hl; by left|by apply setrs_ok].
    rewrite IH by (intros; eapply Hl; by right). by destruct (m s) as [[]|].
Qed.
End blind_facts.

(** ** Running emitted code *)
Section run.
Context {W : Type} {MCH : Machine W} {HR : HostRam W}.

(** straight-line code *)
Fixpoint il_run (code : list (jit_inst W)) (x : slots * Sh4 W) : res (slots * Sh4 W) :=
  match code with
  | [] => Ok x
  | i :: code' =>
      match intp_step i x with
      | Ok (JitNext, x') => il_run code' x'
      | Ok (JitReturn _, _) => Err ERROR_INTEGRITY
      | Err e => Err e
      end
  end.

Lemma il_run_app code1 code2 x x1 :
  il_run code1 x = Ok x1 -> il_run (code1 ++ code2) x = il_run code2 x1.
Proof.
  revert x. induction code1 as [|i code1 IH]; intros x; cbn; [congruence|].
  destruct (intp_step i x) as [[[|] x']|]; [apply IH|done..].
Qed.

Lemma intp_exec_app code rest x x1 :
  il_run code x = Ok x1 ->
  code_block_intp_exec (code ++ rest) x = code_block_intp_exec rest x1.
Proof.
  revert x. induction code as [|i code IH]; intros x; cbn; [congruence|].
  unfold bind. destruct (intp_step i x) as [[[|] x']|]; [apply IH|done..].
Qed.

(** [m] succeeds, and the code it appends takes [x] to [x'] *)
Definition cexec {A} (m : M (jit_compile W) A) c x (a : A) c' x' : Prop :=
  m c = Ok (a, c') /\
  exists code, inst_list (jc_block c') = inst_list (jc_block c) ++ code /\ il_run code x = Ok x'.

(** the parts of the translation's state that code generation leaves alone *)
Definition same_ctx (c c' : jit_compile W) : Prop :=
  jc_sh4 c' = jc_sh4 c /\ jc_last_inst_type c' = jc_last_inst_type c /\
  jc_cycle_count c' = jc_cycle_count c.

Definition jwp {A} (m : M (jit_compile W) A)
    (Q : A -> jit_compile W -> slots * Sh4 W -> Prop) c x : Prop :=
  exists a c' x', cexec m c x a c' x' /\ same_ctx c c' /\ Q a c' x'.

Lemma cexec_bind {A B} (m : M (jit_compile W) A) (k : A -> M (jit_compile W) B) c x a c1 x1 b c2 x2 :
  cexec m c x a c1 x1 -> cexec (k a) c1 x1 b c2 x2 -> cexec (bind m k) c x b c2 x2.
Proof.
  intros (Hm & code1 & E1 & R1) (Hk & code2 & E2 & R2). split; [by erewrite bind_ok|].
  exists (code1 ++ code2). split; [by rewrite E2, E1, app_assoc|].
  by rewrite (il_run_app _ _ _ _ R1).
Qed.

Lemma jwp_bind {A B} (m : M (jit_compile W) A) (k : A -> M (jit_compile W) B) Q c x :
  jwp m (fun a c' x' => jwp (k a) Q c' x') c x -> jwp (bind m k) Q c x.
Proof.
  intros (a & c1 & x1 & H1 & (E1 & E2 & E3) & b & c2 & x2 & H2 & (F1 & F2 & F3) & HQ).
  exists b, c2, x2. split; [by eapply cexec_bind|]. split; [|done].
  unfold same_ctx. by rewrite F1, F2, F3.
Qed.

Lemma jwp_ret {A} (a : A) (Q : A -> jit_compile W -> slots * Sh4 W -> Prop) c x :
  Q a c x -> jwp (ret a) Q c x.
Proof.
  intros. exists a, c, x. split; [|done]. split; [done|]. exists []. by rewrite app_nil_r.
Qed.

Lemma jwp_gets {A} (f : jit_compile W -> A) (Q : A -> jit_compile W -> slots * Sh4 W -> Prop) c x :
  Q (f c) c x -> jwp (gets f) Q c x.
Proof.
  intros. exists (f c), c, x. split; [|done]. split; [done|]. exists []. by rewrite app_nil_r.
Qed.

Lemma jwp_map f (Q : unit -> jit_compile W -> slots * Sh4 W -> Prop) c x :
  Q tt (with_map f c) x -> jwp (modify (with_map f)) Q c x.
Proof.
  intros. exists tt, (with_map f c), x. split; [|done]. split; [done|]. exists [].
  by rewrite app_nil_r.
Qed.

Lemma jwp_push i (Q : unit -> jit_compile W -> slots * Sh4 W -> Prop) c x x' :
  intp_step i x = Ok (JitNext, x') ->
  Q tt (with_block (il_code_block_push_inst i (jc_block c)) c) x' ->
  jwp (emit (il_code_block_push_inst i)) Q c x.
Proof.
  intros Hi HQ. eexists tt, _, x'. split; [|split; [|exact HQ]]; [|done].
  split; [done|]. exists [i]. split; [done|]. cbn. by rewrite Hi.
Qed.

Lemma jwp_free n (Q : unit -> jit_compile W -> slots * Sh4 W -> Prop) c x :
  Q tt (with_block (free_slot n (jc_block c)) c) x -> jwp (emit (free_slot n)) Q c x.
Proof.
  intros HQ. eexists tt, _, x. split; [|split; [|exact HQ]]; [|done].
  split; [done|]. exists []. by rewrite app_nil_r.
Qed.

Lemma jwp_weaken {A} (m : M (jit_compile W) A) (Q Q' : A -> jit_compile W -> slots * Sh4 W -> Prop) c x :
  jwp m Q c x -> (forall a c' x', Q a c' x' -> Q' a c' x') -> jwp m Q' c x.
Proof. intros (a & c' & x' & H1 & H2 & H3) Hw. exists a, c', x'. auto. Qed.
End run.

(** ** The relation *)
Section relation.
Context {W : Type} {CFG : BuildConfig} {MCH : Machine W} {HR : HostRam W}.
Implicit Types (s : Sh4 W) (c : jit_compile W) (x : slots * Sh4 W).

Definition status c (r : Z) : reg_status := stat (residency_of r c).
Definition slot_of c (r : Z) : Z := slot_no (residency_of r c).
Definition in_slot c (r : Z) : Prop := status c r <> REG_STATUS_SH4.

(** [D] holds the registers whose slot was written but whose status does not say so yet, [T]
    the temporary slots with their values, [H] the registers known to be in slots. *)
Record st (N : Z) (D : Z -> Prop) (T H : list (Z * Z)) c x s : Prop := {
  st_ok : regs_ok s;
  st_okj : regs_ok (snd x);
  st_rest : with_reg [] (snd x) = with_reg [] s;
  st_n : 0 <= n_slots (jc_block c) <= N;
  st_range : forall i, in_range 32 (slot_get i (fst x));
  st_map : forall r, in_slot c r -> r ∈ cached_regs /\ 0 <= slot_of c r < n_slots (jc_block c);
  st_inj : forall r1 r2, in_slot c r1 -> in_slot c r2 -> slot_of c r1 = slot_of c r2 -> r1 = r2;
  st_slot : forall r, in_slot c r -> slot_get (slot_of c r) (fst x) = getr r s;
  st_mem : forall r, valid_reg r -> r <> SH4_REG_PC -> status c r = REG_STATUS_SH4 ->
    getr r (snd x) = getr r s;
  st_sync : forall r, status c r = REG_STATUS_SLOT_AND_SH4 -> ~ D r -> getr r (snd x) = getr r s;
  st_temp : forall t v, (t, v) ∈ T -> slot_get t (fst x) = v /\
    0 <= t < n_slots (jc_block c) /\ (forall r, in_slot c r -> slot_of c r <> t);
  st_tdup : NoDup (fst <$> T);
  st_held : forall r l, (r, l) ∈ H -> in_slot c r /\ slot_of c r = l
}.

Definition clean N T c x s : Prop := st N (fun _ => False) T [] c x s.

Lemma cached_valid r : r ∈ cached_regs -> valid_reg r /\ r <> SH4_REG_PC.
Proof.
  unfold cached_regs. rewrite list_elem_of_In. cbn. unfold valid_reg, SH4_REGISTER_COUNT.
  intros H. repeat destruct H as [<-|H]; try done; vm_compute; intuition congruence.
Qed.

Lemma cached_nonneg r : r ∈ cached_regs -> 0 <= r.
Proof. intros [[? _] _]%cached_valid. done. Qed.

Lemma residency_insert r q v c :
  residency_of r (with_map (<[q := v]>) c) = if q =? r then v else residency_of r c.
Proof.
  unfold residency_of. cbn. destruct (Z.eqb_spec q r) as [->|].
  - by rewrite lookup_insert_eq.
  - by rewrite lookup_insert_ne.
Qed.

Lemma slot_get_set i j v (sl : slots) :
  slot_get i (slot_set j v sl) = if j =? i then u32 v else slot_get i sl.
Proof.
  unfold slot_get, slot_set. destruct (Z.eqb_spec j i) as [->|].
  - by rewrite lookup_insert_eq.
  - by rewrite lookup_insert_ne.
Qed.

Lemma slot_set_range i v (sl : slots) :
  (forall j, in_range 32 (slot_get j sl)) -> forall j, in_range 32 (slot_get j (slot_set i v sl)).
Proof. intros H j. rewrite slot_get_set. destruct (i =? j); [by apply wrap_range|done]. Qed.

(** the relation looks at the register map and the number of slots only *)
Lemma st_block N D T H c c' x s :
  reg_map c' = reg_map c -> n_slots (jc_block c') = n_slots (jc_block c) ->
  st N D T H c x s -> st N D T H c' x s.
Proof.
  intros Hm Hn [].
  assert (Hr : forall r, residency_of r c' = residency_of r c)
    by (intros; unfold residency_of; by rewrite Hm).
  split; unfold in_slot, slot_of, status in *; try done; rewrite ?Hn; try setoid_rewrite Hr; done.
Qed.

Lemma st_weaken N N' D D' T H H' c x s :
  st N D T H c x s -> N <= N' -> (forall r, D r -> D' r) -> (forall p, p ∈ H' -> p ∈ H) ->
  st N' D' T H' c x s.
Proof.
  intros [] HN HD HH. split; try done; [lia|auto|]. intros. apply st_held0. auto.
Qed.

Lemma st_drop_temp N D T T' H c x s : st N D (T' ++ T) H c x s -> st N D T H c x s.
Proof.
  intros []. split; try done.
  - intros. apply st_temp0. apply elem_of_app. by right.
  - rewrite fmap_app in st_tdup0. by apply list.NoDup_app in st_tdup0 as (_ & _ & ?).
Qed.

(** *** Values *)
Lemma st_held_val N D T H c x s r l :
  st N D T H c x s -> (r, l) ∈ H -> slot_get l (fst x) = getr r s.
Proof. intros Hst Hh. destruct (st_held _ _ _ _ _ _ _ Hst r l Hh) as [Hi <-]. by eapply st_slot. Qed.

Lemma st_temp_val N D T H c x s t v :
  st N D T H c x s -> (t, v) ∈ T -> slot_get t (fst x) = v.
Proof. intros Hst Ht. by destruct (st_temp _ _ _ _ _ _ _ Hst t v Ht). Qed.

(** *** Writes to slots *)
Lemma st_write N D T H c x s r l v :
  st N D T H c x s -> (r, l) ∈ H ->
  st N (fun q => q = r \/ D q) T H c (slot_set l v (fst x), snd x) (setr r v s).
Proof.
  intros Hst Hh. pose proof (st_held _ _ _ _ _ _ _ Hst r l Hh) as [Hi Hl]. destruct Hst.
  pose proof (st_map0 r Hi) as [Hc Hb]. destruct (cached_valid r Hc) as [Hv Hnpc].
  assert (H0 : 0 <= r) by by apply cached_nonneg.
  split; cbn [fst snd]; try done.
  - by apply setr_ok.
  - by apply slot_set_range.
  - intros q Hq. rewrite slot_get_set. destruct (Z.eqb_spec l (slot_of c q)) as [E|E].
    + rewrite (st_inj0 q r Hq Hi) by congruence. by rewrite getr_setr_eq.
    + rewrite getr_setr_ne; [by apply st_slot0|by apply cached_nonneg, st_map0|done|].
      congruence.
  - intros q Hq Hqpc Hs. destruct Hq. rewrite getr_setr_ne; [by apply st_mem0|done|done|].
    intros ->. by apply Hi.
  - intros q Hs Hd. assert (Hq : q ∈ cached_regs) by (apply st_map0; by unfold in_slot; rewrite Hs).
    rewrite getr_setr_ne; [apply st_sync0; tauto|by apply cached_nonneg|done|]. tauto.
  - intros t w Ht. destruct (st_temp0 t w Ht) as (Hw & Hb' & Hd). rewrite slot_get_set.
    destruct (Z.eqb_spec l t) as [->|]; [by destruct (Hd r Hi)|done].
Qed.

Lemma st_write_temp N D T1 T2 H c x s t v0 v :
  st N D (T1 ++ (t, v0) :: T2) H c x s ->
  st N D (T1 ++ (t, u32 v) :: T2) H c (slot_set t v (fst x), snd x) s.
Proof.
  intros []. assert (Ht : (t, v0) ∈ T1 ++ (t, v0) :: T2)
    by (apply elem_of_app; right; by left).
  destruct (st_temp0 t v0 Ht) as (_ & Hb & Hd). split; cbn [fst snd]; try done.
  - by apply slot_set_range.
  - intros q Hq. rewrite slot_get_set. destruct (Z.eqb_spec t (slot_of c q)) as [E|E].
    + by destruct (Hd q Hq).
    + by apply st_slot0.
  - intros u w Hu. rewrite slot_get_set.
    assert (Hcase : (u, w) = (t, u32 v) \/ (u <> t /\ (u, w) ∈ T1 ++ (t, v0) :: T2)).
    { rewrite fmap_app in st_tdup0. cbn in st_tdup0.
      apply list.NoDup_app in st_tdup0 as (_ & Hn1 & Hn2). apply list.NoDup_cons in Hn2 as [Hn2 _].
      apply elem_of_app in Hu as [Hu|Hu]; [|apply elem_of_cons in Hu as [Hu|Hu]].
      - right. split; [|apply elem_of_app; by left]. intros ->.
        apply (Hn1 t); [|by left]. apply list_elem_of_fmap. by exists (t, w).
      - by left.
      - right. split; [|apply elem_of_app; right; by right]. intros ->. apply Hn2.
        apply list_elem_of_fmap. by exists (t, w). }
    destruct Hcase as [[= -> ->]|[Hne Hin]].
    + rewrite Z.eqb_refl. done.
    + destruct (Z.eqb_spec t u); [done|]. by apply st_temp0.
  - by rewrite fmap_app in *.
Qed.

(** *** Status changes *)
Lemma st_mark N D T H c x s r l :
  st N D T H c x s -> (r, l) ∈ H ->
  st N (fun q => D q /\ q <> r) T H
    (with_map (<[r := {| stat := REG_STATUS_SLOT; slot_no := slot_no (residency_of r c) |}]>) c) x s.
Proof.
  intros Hst Hh. pose proof (st_held _ _ _ _ _ _ _ Hst r l Hh) as [Hi Hl]. destruct Hst.
  set (c' := with_map _ c).
  assert (Hs : forall q, slot_of c' q = slot_of c q).
  { intros q. unfold slot_of, c'. rewrite residency_insert. by destruct (Z.eqb_spec r q) as [->|]. }
  assert (Ht : forall q, status c' q = if r =? q then REG_STATUS_SLOT else status c q).
  { intros q. unfold status, c'. rewrite residency_insert. by destruct (r =? q). }
  assert (Hq : forall q, in_slot c' q <-> in_slot c q).
  { intros q. unfold in_slot. rewrite Ht. destruct (Z.eqb_spec r q) as [->|]; [|done]. by split. }
  split; try done; try (intros *; rewrite ?Hq, ?Hs; auto; fail).
  - intros q Hv Hpc. rewrite Ht. destruct (Z.eqb_spec r q); [done|]. auto.
  - intros q. rewrite Ht. destruct (Z.eqb_spec r q); [done|]. intros. apply st_sync0; [done|].
    intros ?. naive_solver.
  - intros t v Hin. destruct (st_temp0 t v Hin) as (? & ? & Hd). split; [done|]. split; [done|].
    intros q. rewrite Hq, Hs. apply Hd.
Qed.

(** a register that was not in a slot gets the fresh slot [n_slots]; [v] is its value there *)
Lemma st_assoc N D T H c c' x sl' s r stt v :
  st N D T H c x s -> r ∈ cached_regs -> status c r = REG_STATUS_SH4 -> stt <> REG_STATUS_SH4 ->
  (forall q, residency_of q c' =
     if r =? q then {| stat := stt; slot_no := n_slots (jc_block c) |} else residency_of q c) ->
  n_slots (jc_block c') = n_slots (jc_block c) + 2 ->
  (forall i, i <> n_slots (jc_block c) -> slot_get i sl' = slot_get i (fst x)) ->
  slot_get (n_slots (jc_block c)) sl' = u32 v ->
  (stt = REG_STATUS_SLOT_AND_SH4 -> u32 v = getr r (snd x)) ->
  st (N + 2) D T ((r, n_slots (jc_block c)) :: H) c' (sl', snd x) (setr r v s).
Proof.
  intros [] Hc Hr Hst Hres Hn Hsl Hv Hsync. destruct (cached_valid r Hc) as [Hvr Hnpc].
  assert (Hr0 : 0 <= r) by by apply cached_nonneg. set (n := n_slots (jc_block c)) in *.
  assert (Hstat : forall q, status c' q = if r =? q then stt else status c q).
  { intros. unfold status. rewrite Hres. by destruct (r =? q). }
  assert (Hslot : forall q, slot_of c' q = if r =? q then n else slot_of c q).
  { intros. unfold slot_of. rewrite Hres. by destruct (r =? q). }
  assert (Hin : forall q, in_slot c' q <-> q = r \/ in_slot c q).
  { intros. unfold in_slot. rewrite Hstat. destruct (Z.eqb_spec r q) as [->|]; [tauto|].
    split; [tauto|]. intros [->|]; done. }
  assert (Hne : forall q, in_slot c q -> q <> r /\ slot_of c q <> n).
  { intros q Hq. split; [intros ->; by apply Hq|]. apply st_map0 in Hq as [_ ?]. lia. }
  assert (Hget : forall q, 0 <= q -> q <> r -> getr q (setr r v s) = getr q s)
    by (intros; by apply getr_setr_ne).
  split; cbn [fst snd]; try done.
  - by apply setr_ok.
  - rewrite Hn. lia.
  - intros i. destruct (Z.eq_dec i n) as [->|]; [rewrite Hv; by apply wrap_range|].
    by rewrite Hsl.
  - intros q. rewrite Hin, Hslot, Hn. intros [->|Hq].
    + rewrite Z.eqb_refl. split; [done|lia].
    + destruct (st_map0 q Hq). destruct (r =? q); split; lia || done.
  - intros q1 q2. rewrite !Hin, !Hslot.
    destruct (Z.eqb_spec r q1), (Z.eqb_spec r q2); [congruence|..].
    + intros _ [->|Hq]; [done|]. destruct (Hne q2 Hq). congruence.
    + intros [->|Hq] _; [done|]. destruct (Hne q1 Hq). congruence.
    + intros [->|?] [->|?]; try done. by apply st_inj0.
  - intros q. rewrite Hin, Hslot. destruct (Z.eqb_spec r q) as [->|].
    + intros _. by rewrite Hv, getr_setr_eq.
    + intros [->|Hq]; [done|]. destruct (Hne q Hq). rewrite Hsl, Hget by
        (done || by apply cached_nonneg, st_map0). by apply st_slot0.
  - intros q Hq1 Hq2. rewrite Hstat. destruct (Z.eqb_spec r q) as [->|]; [done|].
    intros. rewrite Hget; [by apply st_mem0|by destruct Hq1|done].
  - intros q. rewrite Hstat. destruct (Z.eqb_spec r q) as [->|].
    + intros -> _. by rewrite getr_setr_eq, Hsync.
    + intros Hs HD. rewrite Hget; [by apply st_sync0| |done].
      apply cached_nonneg, st_map0. unfold in_slot. by rewrite Hs.
  - intros t w Ht. destruct (st_temp0 t w Ht) as (Hw & Hb & Hd). rewrite Hsl, Hn by lia.
    split; [done|]. split; [lia|]. intros q. rewrite Hin, Hslot.
    destruct (Z.eqb_spec r q); [lia|]. intros [->|]; [done|]. by apply Hd.
  - intros q l Hh. rewrite Hin, Hslot. apply elem_of_cons in Hh as [[= -> ->]|Hh].
    + rewrite Z.eqb_refl. tauto.
    + destruct (st_held0 q l Hh) as [Hq <-]. destruct (Hne q Hq).
      destruct (Z.eqb_spec r q); [congruence|]. tauto.
Qed.

(** a fresh temporary *)
Lemma st_fresh N D T H c c' x s :
  st N D T H c x s -> reg_map c' = reg_map c ->
  n_slots (jc_block c') = n_slots (jc_block c) + 2 ->
  st (N + 2) D ((n_slots (jc_block c), slot_get (n_slots (jc_block c)) (fst x)) :: T) H c' x s.
Proof.
  intros [] Hm Hn.
  assert (Hr : forall r, residency_of r c' = residency_of r c)
    by (intros; unfold residency_of; by rewrite Hm).
  split; unfold in_slot, slot_of, status in *; try done; try (setoid_rewrite Hr; done).
  - rewrite Hn. lia.
  - intros r. rewrite Hr, Hn. intros Hq. destruct (st_map0 r Hq). split; lia || done.
  - intros t v Ht. apply elem_of_cons in Ht as [[= -> ->]|Ht].
    + split; [done|]. split; [lia|]. intros r. rewrite Hr. intros Hq. destruct (st_map0 r Hq). lia.
    + destruct (st_temp0 t v Ht) as (? & ? & ?). rewrite Hn. setoid_rewrite Hr.
      split; [done|]. split; [lia|done].
  - cbn. apply list.NoDup_cons. split; [|done]. intros Hin.
    apply list_elem_of_fmap in Hin as ([t v] & Heq & Hin). cbn in Heq.
    destruct (st_temp0 t v Hin) as (_ & ? & _). lia.
Qed.

(** a register leaves its slot after its value was written back *)
Lemma st_release N D T H H' c c' x sj s r l :
  st N D T H c x s -> (r, l) ∈ H -> ~ D r ->
  (forall q, status c' q = if r =? q then REG_STATUS_SH4 else status c q) ->
  (forall q, r <> q -> slot_of c' q = slot_of c q) ->
  n_slots (jc_block c') = n_slots (jc_block c) ->
  regs_ok sj -> with_reg [] sj = with_reg [] s -> getr r sj = getr r s ->
  (forall q, 0 <= q -> q <> r -> getr q sj = getr q (snd x)) ->
  (forall q k, (q, k) ∈ H' -> (q, k) ∈ H /\ q <> r) ->
  st N D ((l, getr r s) :: T) H' c' (fst x, sj) s.
Proof.
  intros Hst Hh HD Hstat Hslot Hn Hokj Hrest Hval Hoth HH'.
  pose proof (st_held _ _ _ _ _ _ _ Hst r l Hh) as [Hi Hl]. destruct Hst.
  assert (Hin : forall q, in_slot c' q <-> q <> r /\ in_slot c q).
  { intros q. unfold in_slot. rewrite Hstat. destruct (Z.eqb_spec r q) as [->|]; [tauto|].
    split; [|tauto]. intros ?. split; [congruence|done]. }
  assert (Hs : forall q, in_slot c' q -> slot_of c' q = slot_of c q).
  { intros q [? _]%Hin. by apply Hslot. }
  split; cbn [fst snd]; try done.
  - by rewrite Hn.
  - intros q Hq. rewrite (Hs q Hq), Hn. apply st_map0. by apply Hin.
  - intros q1 q2 H1 H2. rewrite (Hs q1 H1), (Hs q2 H2). apply Hin in H1 as [_ ?], H2 as [_ ?].
    by apply st_inj0.
  - intros q Hq. rewrite (Hs q Hq). apply st_slot0. by apply Hin.
  - intros q Hv Hpc. rewrite Hstat. destruct (Z.eqb_spec r q) as [->|]; [done|].
    intros. rewrite Hoth; [by apply st_mem0|by destruct Hv|congruence].
  - intros q. rewrite Hstat. destruct (Z.eqb_spec r q) as [->|]; [done|]. intros Hq HDq.
    rewrite Hoth; [by apply st_sync0| |congruence].
    apply cached_nonneg, st_map0. unfold in_slot. by rewrite Hq.
  - intros t v Ht. apply elem_of_cons in Ht as [[= -> ->]|Ht].
    + rewrite <- Hl, Hn. split; [by apply st_slot0|]. split; [by apply st_map0|].
      intros q Hq. rewrite (Hs q Hq). apply Hin in Hq as [Hne Hq]. intros E. apply Hne.
      by apply st_inj0.
    + destruct (st_temp0 t v Ht) as (? & ? & Hd). rewrite Hn. split; [done|]. split; [done|].
      intros q Hq. rewrite (Hs q Hq). apply Hin in Hq as [_ Hq]. by apply Hd.
  - cbn. apply list.NoDup_cons. split; [|done]. intros Hin'.
    apply list_elem_of_fmap in Hin' as ([t v] & Heq & Ht). cbn in Heq. subst t.
    destruct (st_temp0 _ v Ht) as (_ & _ & Hd). by apply (Hd r).
  - intros q k Hq. destruct (HH' q k Hq) as [Hq' Hne]. destruct (st_held0 q k Hq') as [? <-].
    split; [by apply Hin|]. apply Hslot. congruence.
Qed.
End relation.
