(* ===== verification/JitDeterm.v ===== *)
(** The determinism pass of the JIT (src/libwashdc/jit/jit_determ.c, jit_determ.h): which bits of
    which slots have a value that is known when the block is compiled.

    It is an abstract interpreter of the intermediate language of [JitIL]: a slot's abstract value is
    a mask of known bits and their values.  The theorems are against the interpreter back end: what
    the pass records is true of the slots after the instruction, except for the right shifts. *)
From stdpp Require Import gmap.
From S2P Require Import Prelude MemoryMap Memory Sh4State Board Sh4Core JitIL Sh4Jit Sh4JitSim.

Record jit_determ_slot : Type := { known_bits : Z; known_val : Z }.
(** [struct jit_determ_state]: a slot that the map does not hold is as [memset] leaves it *)
Abbreviation jit_determ_state := (gmap Z jit_determ_slot).

Definition slot_unknown : jit_determ_slot := {| known_bits := 0; known_val := 0 |}.
Definition jit_determ_default : jit_determ_state := ∅.
Definition dslot (st : jit_determ_state) (i : Z) : jit_determ_slot := default slot_unknown (st !! i).
Definition put_determ (i bits val : Z) (st : jit_determ_state) : jit_determ_state :=
  <[i := {| known_bits := bits; known_val := val |}]> st.

Definition all_known (k : jit_determ_slot) : bool := known_bits k =? 0xffffffff.

Section pass.
Context {W : Type}.

(** the two results of the comparisons; the test is in the arguments *)
Definition set_bit0 (taken : bool) (dst : Z) (st : jit_determ_state) : jit_determ_state :=
  let d := dslot st dst in
  if taken then put_determ dst (Z.lor (known_bits d) 1) (Z.lor (known_val d) 1) st
  else put_determ dst (Z.land (known_bits d) (not32 1)) (known_val d) st.

(** from masks of the bits that are known to be 0 and to be 1 *)
Definition put_zero_one (dst zero_bits one_bits : Z) (st : jit_determ_state) : jit_determ_state :=
  let bits := Z.lor zero_bits one_bits in
  put_determ dst bits (Z.land (Z.lor (not32 zero_bits) one_bits) bits) st.

Definition update_state (st : jit_determ_state) (op : jit_inst W) : res jit_determ_state :=
  match op with
  | JIT_SET_SLOT slot_idx new_val => Ok (put_determ slot_idx 0xffffffff (u32 new_val) st)
  | JIT_OP_READ_16_CONSTADDR _ slot_no => Ok (put_determ slot_no 0xffff0000 0 st)
  | JIT_OP_SIGN_EXTEND_16 slot_no =>
      let d := dslot st slot_no in
      if truth (Z.land (known_bits d) (Z.shiftl 1 16)) then
        let bits := Z.lor (known_bits d) 0xffff0000 in
        if truth (Z.land (known_val d) (Z.shiftl 1 16)) then Ok (put_determ slot_no bits (Z.lor (known_val d) 0xffff0000) st)
        else Ok (put_determ slot_no bits (Z.land (known_val d) 0xffff) st)
      else Ok (put_determ slot_no (Z.land (known_bits d) 0xffff) (Z.land (known_val d) 0xffff) st)
  | JIT_OP_READ_32_CONSTADDR _ slot_no => Ok (put_determ slot_no 0 0 st)
  | JIT_OP_READ_32_SLOT _ dst_slot => Ok (put_determ dst_slot 0 0 st)
  | JIT_OP_WRITE_32_SLOT _ _ => Ok st
  | JIT_OP_LOAD_SLOT16 _ slot_no => Ok (put_determ slot_no 0xffff0000 0 st)
  | JIT_OP_STORE_SLOT _ _ => Ok st
  | JIT_OP_ADD slot_src slot_dst =>
      let s := dslot st slot_src in let d := dslot st slot_dst in
      if all_known s && all_known d then Ok (put_determ slot_dst 0xffffffff (u32 (known_val d + known_val s)) st)
      else if slot_src =? slot_dst then
        Ok (put_determ slot_dst (Z.lor (u32 (Z.shiftl (known_bits d) 1)) 1) (u32 (Z.shiftl (known_val d) 1)) st)
      else Ok (put_determ slot_dst 0 0 st)
  | JIT_OP_SUB slot_src slot_dst =>
      let s := dslot st slot_src in let d := dslot st slot_dst in
      if all_known s && all_known d then Ok (put_determ slot_dst 0xffffffff (u32 (known_val d - known_val s)) st)
      else if slot_src =? slot_dst then Ok (put_determ slot_dst 0xffffffff 0 st)
      else Ok (put_determ slot_dst 0 0 st)
  | JIT_OP_ADD_CONST32 slot_dst const32 =>
      let d := dslot st slot_dst in
      if all_known d then Ok (put_determ slot_dst (known_bits d) (u32 (known_val d + const32)) st)
      else Ok (put_determ slot_dst 0 0 st)
  | JIT_OP_DISCARD_SLOT slot_no => Ok (put_determ slot_no 0 0 st)
  | JIT_OP_XOR slot_src slot_dst =>
      let s := dslot st slot_src in let d := dslot st slot_dst in
      if slot_src =? slot_dst then Ok (put_determ slot_dst 0xffffffff 0 st)
      else Ok (put_determ slot_dst (Z.land (known_bits d) (known_bits s)) (Z.lxor (known_val d) (known_val s)) st)
  | JIT_OP_XOR_CONST32 slot_no const32 =>
      let d := dslot st slot_no in Ok (put_determ slot_no (known_bits d) (Z.lxor (known_val d) (u32 const32)) st)
  | JIT_OP_MOV slot_src slot_dst =>
      let s := dslot st slot_src in let d := dslot st slot_dst in
      Ok (put_determ slot_dst (known_bits s) (known_val d) st)
  | JIT_OP_AND slot_src slot_dst =>
      let s := dslot st slot_src in
      let zero_bits := Z.lor (Z.land (not32 (known_val s)) (known_bits s)) (Z.land (not32 (known_val s)) (known_bits s)) in
      let one_bits := Z.land (Z.land (known_val s) (known_bits s)) (Z.land (known_val s) (known_bits s)) in
      Ok (put_zero_one slot_dst zero_bits one_bits st)
  | JIT_OP_AND_CONST32 slot_no const32 =>
      let d := dslot st slot_no in let c := u32 const32 in
      let zero_bits := Z.lor (not32 c) (Z.land (not32 (known_val d)) (known_bits d)) in
      let one_bits := Z.land (Z.land c (known_val d)) (known_bits d) in
      Ok (put_zero_one slot_no zero_bits one_bits st)
  | JIT_OP_OR slot_src slot_dst =>
      let s := dslot st slot_src in let d := dslot st slot_dst in
      let zero_bits := Z.land (Z.land (not32 (known_val s)) (known_bits s)) (Z.land (not32 (known_val d)) (known_bits d)) in
      let one_bits := Z.lor (Z.land (known_val s) (known_bits s)) (Z.land (known_val d) (known_bits d)) in
      Ok (put_zero_one slot_dst zero_bits one_bits st)
  | JIT_OP_OR_CONST32 slot_no const32 =>
      let d := dslot st slot_no in let c := u32 const32 in
      let zero_bits := Z.land (not32 c) (Z.land (not32 (known_val d)) (known_bits d)) in
      let one_bits := Z.lor c (Z.land (known_val d) (known_bits d)) in
      Ok (put_zero_one slot_no zero_bits one_bits st)
  | JIT_OP_SLOT_TO_BOOL slot_no =>
      let d := dslot st slot_no in
      if all_known d then Ok (put_determ slot_no (known_bits d) (b2z (truth (known_val d))) st)
      else Ok (put_determ slot_no 0 (known_val d) st)
  | JIT_OP_NOT slot_no => let d := dslot st slot_no in Ok (put_determ slot_no (known_bits d) (not32 (known_val d)) st)
  | JIT_OP_SHLL slot_no shift_amt =>
      let d := dslot st slot_no in
      if shift_amt >=? 32 then Err C_UNDEFINED
      else Ok (put_determ slot_no (Z.lor (known_bits d) (u32 (s32 (Z.shiftl 1 shift_amt - 1))))
                 (u32 (Z.shiftl (known_val d) shift_amt)) st)
  | JIT_OP_SHAR slot_no shift_amt =>
      let d := dslot st slot_no in
      if shift_amt >=? 32 then Err C_UNDEFINED
      else Ok (put_determ slot_no (Z.lor (known_bits d) (not32 (u32 (Z.shiftl 1 (31 - shift_amt) - 1))))
                 (u32 (Z.shiftr (s32 (known_val d)) shift_amt)) st)
  | JIT_OP_SHLR slot_no shift_amt =>
      let d := dslot st slot_no in
      if shift_amt >=? 32 then Err C_UNDEFINED
      else Ok (put_determ slot_no (Z.lor (known_bits d) (not32 (u32 (Z.shiftl 1 (31 - shift_amt) - 1))))
                 (Z.shiftr (known_val d) shift_amt) st)
  | JIT_OP_SET_GT_UNSIGNED slot_lhs slot_rhs slot_dst =>
      let l := dslot st slot_lhs in let r := dslot st slot_rhs in
      Ok (set_bit0 (all_known l && all_known r && (known_val l >? known_val r)) slot_dst st)
  | JIT_OP_SET_GT_SIGNED slot_lhs slot_rhs slot_dst =>
      let l := dslot st slot_lhs in let r := dslot st slot_rhs in
      Ok (set_bit0 (all_known l && all_known r && (s32 (known_val l) >? s32 (known_val r))) slot_dst st)
  | JIT_OP_SET_GT_SIGNED_CONST slot_lhs imm_rhs slot_dst =>
      let l := dslot st slot_lhs in
      Ok (set_bit0 (all_known l && (s32 (known_val l) >? s32 (u32 imm_rhs))) slot_dst st)
  | JIT_OP_SET_EQ slot_lhs slot_rhs slot_dst =>
      let l := dslot st slot_lhs in let r := dslot st slot_rhs in
      Ok (set_bit0 (all_known l && all_known r && (known_val l =? known_val r)) slot_dst st)
  | JIT_OP_SET_GE_UNSIGNED slot_lhs slot_rhs slot_dst =>
      let l := dslot st slot_lhs in let r := dslot st slot_rhs in
      Ok (set_bit0 (all_known l && all_known r && (known_val l >=? known_val r)) slot_dst st)
  | JIT_OP_SET_GE_SIGNED slot_lhs slot_rhs slot_dst =>
      let l := dslot st slot_lhs in let r := dslot st slot_rhs in
      Ok (set_bit0 (all_known l && all_known r && (s32 (known_val l) >=? s32 (known_val r))) slot_dst st)
  | JIT_OP_SET_GE_SIGNED_CONST slot_lhs imm_rhs slot_dst =>
      let l := dslot st slot_lhs in
      Ok (set_bit0 (all_known l && (s32 (known_val l) >=? s32 (u32 imm_rhs))) slot_dst st)
  | JIT_OP_MUL_U32 _ _ slot_dst => Ok (put_determ slot_dst 0 0 st)
  | JIT_OP_CALL_FUNC _ _ | JIT_OP_FALLBACK _ _ | JIT_OP_JUMP _ | JIT_JUMP_COND _ _ _ _ | JIT_OP_LOAD_SLOT _ _
  | JIT_OP_SHAD _ _ => Ok jit_determ_default
  end.

(** the loop: [state_prev] is null in the first turn, and the last statement of the body assigns it to
    [state] instead of the other way round; what it returns is [block->determ] *)
Fixpoint determ_loop (state_prev : option jit_determ_state) (insts : list (jit_inst W)) : res (list jit_determ_state) :=
  match insts with
  | [] => Ok []
  | op :: rest =>
      let state := match state_prev with Some st => st | None => jit_determ_default end in
      match update_state state op with
      | Err e => Err e
      | Ok state =>
          match determ_loop state_prev rest with
          | Err e => Err e
          | Ok states => Ok (state :: states)
          end
      end
  end.
Definition jit_determ_pass (block : il_code_block W) : res (list jit_determ_state) := determ_loop None (inst_list block).
End pass.

(** ** What it means for the pass to be right *)
Record slot_sound (k : jit_determ_slot) (v : Z) : Prop := {
  ss_bits : in_range 32 (known_bits k);
  ss_val : in_range 32 (known_val k);
  ss_knows : forall n, 0 <= n < 32 -> Z.testbit (known_bits k) n = true -> Z.testbit v n = Z.testbit (known_val k) n
}.
Definition slots_typed (sl : slots) : Prop := forall i, in_range 32 (slot_get i sl).
Definition determ_sound (st : jit_determ_state) (sl : slots) : Prop := forall i, slot_sound (dslot st i) (slot_get i sl).

Lemma sound_default sl : determ_sound jit_determ_default sl.
Proof. intros i. unfold dslot, jit_determ_default. rewrite lookup_empty. split; [done|done|]. intros n _. cbn. by rewrite Z.bits_0. Qed.

Lemma dslot_put st i j bits val :
  dslot (put_determ i bits val st) j = if i =? j then {| known_bits := bits; known_val := val |} else dslot st j.
Proof.
  unfold dslot, put_determ. destruct (Z.eqb_spec i j) as [->|].
  - by rewrite lookup_insert_eq.
  - by rewrite lookup_insert_ne.
Qed.

Lemma put_sound st sl i bits val v :
  determ_sound st sl -> slot_sound {| known_bits := bits; known_val := val |} (u32 v) -> determ_sound (put_determ i bits val st) (slot_set i v sl).
Proof. intros Hs Hk j. rewrite dslot_put, slot_get_set. by destruct (i =? j). Qed.

Lemma put_sound_same st sl i bits val :
  determ_sound st sl -> slot_sound {| known_bits := bits; known_val := val |} (slot_get i sl) -> determ_sound (put_determ i bits val st) sl.
Proof. intros Hs Hk j. rewrite dslot_put. by destruct (Z.eqb_spec i j) as [->|]. Qed.

Lemma not32_bit x n : 0 <= n < 32 -> Z.testbit (not32 x) n = negb (Z.testbit x n).
Proof. intros Hn. unfold not32. rewrite Z.lxor_spec. change 0xffffffff with (Z.ones 32). by rewrite Z.ones_spec_low, xorb_true_r by lia. Qed.
Lemma u32_bit x n : 0 <= n < 32 -> Z.testbit (u32 x) n = Z.testbit x n.
Proof. intros Hn. rewrite wrap_testbit by lia. by destruct (Z.ltb_spec n 32); [|lia]. Qed.
Lemma ones_bit n : 0 <= n < 32 -> Z.testbit 0xffffffff n = true.
Proof. intros Hn. change 0xffffffff with (Z.ones 32). by apply Z.ones_spec_low. Qed.
Lemma mask_range : in_range 32 1 /\ in_range 32 0xffff /\ in_range 32 0xffff0000 /\ in_range 32 0xffffffff /\ in_range 32 0.
Proof. by vm_compute. Qed.

(** masks stay in 32 bits *)
Ltac range32 :=
  repeat first
    [ assumption | apply mask_range | apply lor_range; [lia|..] | apply lxor_range; [lia|..] | apply not32_range
    | apply wrap_range; lia | apply b2z_range; lia | apply land_range_l; [lia|] ].

(** a value of which every bit is known *)
Lemma all_known_val k v : slot_sound k v -> in_range 32 v -> all_known k = true -> v = known_val k.
Proof.
  intros [Hb Hv Hk] Hr Ha. apply Z.eqb_eq in Ha. apply Z.bits_inj'. intros n Hn. destruct (Z.ltb_spec n 32).
  - apply Hk; [lia|]. rewrite Ha. apply ones_bit. lia.
  - by rewrite !(in_range_testbit_high 32) by (done || lia).
Qed.

(** a full mask is right about the value it holds *)
Lemma exact_sound v : slot_sound {| known_bits := 0xffffffff; known_val := u32 v |} (u32 v).
Proof. split; cbn; [done|by apply wrap_range|done]. Qed.
Lemma unknown_sound v val : in_range 32 val -> slot_sound {| known_bits := 0; known_val := val |} v.
Proof. split; cbn; [done|done|]. intros n _. by rewrite Z.bits_0. Qed.
(** a value that comes from 16 bits *)
Lemma half_sound v : in_range 16 v -> slot_sound {| known_bits := 0xffff0000; known_val := 0 |} (u32 v).
Proof.
  intros Hv. split; [done|done|]. intros n Hn Hb. cbn [known_bits known_val] in *. rewrite Z.bits_0, u32_bit by done.
  destruct (Z.ltb_spec n 16); [|by rewrite (in_range_testbit_high 16) by (done || lia)].
  exfalso. revert Hb. change 0xffff0000 with (Z.shiftl (Z.ones 16) 16). by rewrite Z.shiftl_spec, Z.testbit_neg_r by lia.
Qed.

(** the masks of zeros and ones *)
Lemma zero_one_sound st sl dst zero one v :
  determ_sound st sl -> in_range 32 zero -> in_range 32 one ->
  (forall n, 0 <= n < 32 -> Z.testbit zero n = true -> Z.testbit v n = false) ->
  (forall n, 0 <= n < 32 -> Z.testbit one n = true -> Z.testbit v n = true) ->
  determ_sound (put_zero_one dst zero one st) (slot_set dst v sl).
Proof.
  intros Hs Hz Ho H0 H1. apply put_sound; [done|]. split; cbn [known_bits known_val]; [range32..|].
  intros n Hn. rewrite u32_bit, !Z.land_spec, !Z.lor_spec, not32_bit by done. specialize (H0 n Hn). specialize (H1 n Hn).
  destruct (Z.testbit zero n), (Z.testbit one n); cbn; intros E; try done; rewrite ?H0, ?H1 by done; try done.
  rewrite H0 in H1 by done. by rewrite H1.
Qed.

Lemma set_bit0_sound st sl (t taken : bool) dst :
  slots_typed sl -> determ_sound st sl -> (t = true -> taken = true) ->
  determ_sound (set_bit0 t dst st) (if taken then slot_set dst (Z.lor (slot_get dst sl) 1) sl else sl).
Proof.
  intros Hty Hs Ht. destruct (Hs dst) as [Hb Hv Hk]. unfold set_bit0.
  assert (H1 : forall n, 0 <= n -> Z.testbit 1 n = (n =? 0)).
  { intros n Hn. change 1 with (2 ^ 0). by rewrite Z.pow2_bits_eqb, Z.eqb_sym by lia. }
  destruct t; [rewrite (Ht eq_refl)|destruct taken]; [apply put_sound|apply put_sound|apply put_sound_same]; try done;
    (split; cbn [known_bits known_val]; [range32..|]); intros n Hn; rewrite ?u32_bit by done;
    rewrite ?Z.lor_spec, ?Z.land_spec, ?not32_bit, ?H1 by (done || lia); specialize (Hk n Hn);
    destruct (n =? 0), (Z.testbit (known_bits (dslot st dst)) n); cbn; rewrite ?orb_true_r, ?orb_false_r; auto; done.
Qed.

Section soundness.
Context {W : Type} `{!Machine W} `{!HostRam W}.
Implicit Types (op : jit_inst W) (x : slots * Sh4 W).

(** the constants of the comparisons are signed *)
Definition imm_ok op : Prop :=
  match op with
  | JIT_OP_SET_GT_SIGNED_CONST _ imm _ | JIT_OP_SET_GE_SIGNED_CONST _ imm _ => - 2 ^ 31 <= imm < 2 ^ 31
  | _ => True
  end.
(** the instructions whose rule is right for every state before them *)
Definition rule_ok op : bool :=
  match op with
  | JIT_OP_SIGN_EXTEND_16 _ | JIT_OP_MOV _ _ | JIT_OP_AND _ _ | JIT_OP_SHLL _ _ | JIT_OP_SHAR _ _ | JIT_OP_SHLR _ _ => false
  | _ => true
  end.

Lemma cpu_to_slot_inv i m x x' : cpu_to_slot (W := W) i m x = Ok (JitNext, x') ->
  exists v s, m (fst x) (snd x) = Ok (v, s) /\ x' = (slot_set i v (fst x), s).
Proof. unfold cpu_to_slot. destruct (m (fst x) (snd x)) as [[v s]|]; [|done]. intros [= <-]. eauto. Qed.

Lemma on_cpu_inv m x x' : on_cpu (W := W) m x = Ok (JitNext, x') -> fst x' = fst x.
Proof. unfold on_cpu. destruct (m (fst x) (snd x)) as [[u s]|]; [|done]. by intros [= <-]. Qed.

Lemma shift_ok_inv {A} n (r : res A) a : shift_ok n r = Ok a -> 0 <= n < 32 /\ r = Ok a.
Proof. unfold shift_ok. destruct (Z.leb_spec 0 n), (Z.ltb_spec n 32); cbn [andb]; naive_solver lia. Qed.

Lemma add_sound st sl s d : slots_typed sl -> determ_sound st sl ->
  forall st', update_state (W := W) st (JIT_OP_ADD s d) = Ok st' -> determ_sound st' (slot_set d (slot_get d sl + slot_get s sl) sl).
Proof.
  intros Hty Hs st'. cbn [update_state]. destruct (all_known (dslot st s) && all_known (dslot st d)) eqn:E.
  - apply andb_true_iff in E as [Es Ed]. intros [= <-].
    rewrite <- (all_known_val _ _ (Hs s) (Hty s) Es), <- (all_known_val _ _ (Hs d) (Hty d) Ed).
    apply put_sound; [done|apply exact_sound].
  - destruct (Z.eqb_spec s d) as [->|Hne]; intros [= <-]; (apply put_sound; [done|]).
    + destruct (Hs d) as [Hb Hv Hk]. split; cbn [known_bits known_val]; [range32..|].
      intros n Hn. rewrite !u32_bit by done. replace (slot_get d sl + slot_get d sl) with (Z.shiftl (slot_get d sl) 1)
        by (rewrite Z.shiftl_mul_pow2 by done; lia).
      rewrite Z.lor_spec, u32_bit, !Z.shiftl_spec by (done || lia). destruct (Z.eqb_spec n 0) as [->|].
      * by rewrite !Z.testbit_neg_r by lia.
      * change 1 with (2 ^ 0) at 2. rewrite Z.pow2_bits_false, orb_false_r by lia. apply Hk. lia.
    + by apply unknown_sound.
Qed.

Lemma sub_sound st sl s d : slots_typed sl -> determ_sound st sl ->
  forall st', update_state (W := W) st (JIT_OP_SUB s d) = Ok st' -> determ_sound st' (slot_set d (slot_get d sl - slot_get s sl) sl).
Proof.
  intros Hty Hs st'. cbn [update_state]. destruct (all_known (dslot st s) && all_known (dslot st d)) eqn:E.
  - apply andb_true_iff in E as [Es Ed]. intros [= <-].
    rewrite <- (all_known_val _ _ (Hs s) (Hty s) Es), <- (all_known_val _ _ (Hs d) (Hty d) Ed).
    apply put_sound; [done|apply exact_sound].
  - destruct (Z.eqb_spec s d) as [->|Hne]; intros [= <-]; (apply put_sound; [done|]).
    + rewrite Z.sub_diag. exact (exact_sound 0).
    + by apply unknown_sound.
Qed.

Lemma xor_sound st sl s d : determ_sound st sl ->
  forall st', update_state (W := W) st (JIT_OP_XOR s d) = Ok st' -> determ_sound st' (slot_set d (Z.lxor (slot_get d sl) (slot_get s sl)) sl).
Proof.
  intros Hs st'. cbn [update_state]. destruct (Z.eqb_spec s d) as [->|Hne]; intros [= <-]; (apply put_sound; [done|]).
  - rewrite Z.lxor_nilpotent. exact (exact_sound 0).
  - destruct (Hs s) as [Hb Hv Hk], (Hs d) as [Hb' Hv' Hk']. split; cbn [known_bits known_val]; [range32..|].
    intros n Hn. rewrite u32_bit, Z.land_spec, !Z.lxor_spec by done. intros [E1 E2]%andb_true_iff. by rewrite Hk, Hk'.
Qed.

Lemma or_sound st sl s d : determ_sound st sl ->
  forall st', update_state (W := W) st (JIT_OP_OR s d) = Ok st' -> determ_sound st' (slot_set d (Z.lor (slot_get d sl) (slot_get s sl)) sl).
Proof.
  intros Hs st' [= <-]. destruct (Hs s) as [Hb Hv Hk], (Hs d) as [Hb' Hv' Hk']. apply zero_one_sound; [done|range32..| |];
    intros n Hn; specialize (Hk n Hn); specialize (Hk' n Hn); rewrite ?Z.lor_spec, ?Z.land_spec, ?not32_bit by done;
    destruct (Z.testbit (known_val (dslot st s)) n), (Z.testbit (known_bits (dslot st s)) n), (Z.testbit (known_val (dslot st d)) n),
      (Z.testbit (known_bits (dslot st d)) n); cbn; intros E; try done; rewrite ?Hk, ?Hk' by done; rewrite ?orb_true_r; done.
Qed.

Lemma consts_sound st sl i c : determ_sound st sl ->
  (forall st', update_state (W := W) st (JIT_OP_AND_CONST32 i c) = Ok st' -> determ_sound st' (slot_set i (Z.land (slot_get i sl) c) sl)) /\
  (forall st', update_state (W := W) st (JIT_OP_OR_CONST32 i c) = Ok st' -> determ_sound st' (slot_set i (Z.lor (slot_get i sl) c) sl)) /\
  (forall st', update_state (W := W) st (JIT_OP_XOR_CONST32 i c) = Ok st' -> determ_sound st' (slot_set i (Z.lxor (slot_get i sl) c) sl)).
Proof.
  intros Hs. destruct (Hs i) as [Hb Hv Hk]. split_and!; intros st' [= <-].
  1,2: apply zero_one_sound; [done|range32..| |]; intros n Hn; specialize (Hk n Hn);
    rewrite ?Z.lor_spec, ?Z.land_spec, ?not32_bit, ?u32_bit by done;
    destruct (Z.testbit (known_val (dslot st i)) n), (Z.testbit (known_bits (dslot st i)) n), (Z.testbit c n);
    cbn; intros E; try done; rewrite ?Hk by done; rewrite ?orb_true_r, ?andb_false_r; done.
  apply put_sound; [done|]. split; cbn [known_bits known_val]; [range32..|]. intros n Hn E.
  rewrite u32_bit, !Z.lxor_spec, u32_bit by done. by rewrite Hk.
Qed.

(** the comparisons: the pass knows a result only when it knows both sides *)
Lemma known_cmp st sl l r (f : Z -> Z -> bool) : slots_typed sl -> determ_sound st sl ->
  all_known (dslot st l) && all_known (dslot st r) && f (known_val (dslot st l)) (known_val (dslot st r)) = true ->
  f (slot_get l sl) (slot_get r sl) = true.
Proof.
  intros Hty Hs. intros [[El Er]%andb_true_iff E]%andb_true_iff.
  by rewrite (all_known_val _ _ (Hs l) (Hty l) El), (all_known_val _ _ (Hs r) (Hty r) Er).
Qed.
Lemma known_cmp_imm st sl l (f : Z -> bool) : slots_typed sl -> determ_sound st sl ->
  all_known (dslot st l) && f (known_val (dslot st l)) = true -> f (slot_get l sl) = true.
Proof. intros Hty Hs [El E]%andb_true_iff. by rewrite (all_known_val _ _ (Hs l) (Hty l) El). Qed.

Lemma one_slot_sound st sl i c : slots_typed sl -> determ_sound st sl ->
  (forall st', update_state (W := W) st (JIT_OP_ADD_CONST32 i c) = Ok st' -> determ_sound st' (slot_set i (slot_get i sl + c) sl)) /\
  (forall st', update_state (W := W) st (JIT_OP_SLOT_TO_BOOL i) = Ok st' -> determ_sound st' (slot_set i (b2z (truth (slot_get i sl))) sl)) /\
  (forall st', update_state (W := W) st (JIT_OP_NOT i) = Ok st' -> determ_sound st' (slot_set i (not32 (slot_get i sl)) sl)).
Proof.
  intros Hty Hs. pose proof (all_known_val _ _ (Hs i) (Hty i)) as Ha. destruct (Hs i) as [Hb Hv Hk].
  split_and!; intros st'; cbn [update_state].
  1,2: destruct (all_known (dslot st i)) eqn:E; intros [= <-]; (apply put_sound; [done|]); [|by apply unknown_sound].
  1,2: rewrite (Ha eq_refl); apply Z.eqb_eq in E; rewrite E.
  - apply exact_sound.
  - rewrite <- (wrap_small 32 (b2z (truth (known_val (dslot st i))))) at 1 by (apply b2z_range; lia). apply exact_sound.
  - intros [= <-]. apply put_sound; [done|]. split; cbn [known_bits known_val]; [range32..|]. intros n Hn En.
    rewrite u32_bit, !not32_bit by done. by rewrite Hk.
Qed.

Lemma s32_u32 c : - 2 ^ 31 <= c < 2 ^ 31 -> s32 (u32 c) = c.
Proof.
  intros Hc. rewrite <- (swrap_small 32 c) at 2 by (done || lia). unfold swrap, wrap. by rewrite Zplus_mod_idemp_l.
Qed.

(** the rules that are right for every state *)
Lemma rule_sound op st st' x x' :
  rule_ok op = true -> imm_ok op -> slots_typed (fst x) -> determ_sound st (fst x) ->
  update_state st op = Ok st' -> intp_step op x = Ok (JitNext, x') -> determ_sound st' (fst x').
Proof.
  intros Hr Hi Hty Hs Hu He. pose proof (sound_default (fst x')) as Hdef.
  destruct op; try done; try (injection Hu as <-; exact Hdef); cbn [intp_step] in He;
    try (injection He as <-; cbn [fst]); try (apply on_cpu_inv in He; rewrite He);
    try (apply cpu_to_slot_inv in He as (v & s' & Hm & ->); cbn [fst]); try (by injection Hu as <-).
  - injection Hu as <-. apply put_sound; [done|apply exact_sound].
  - injection Hu as <-. apply put_sound; [done|]. apply half_sound.
    unfold memory_map_read_16 in Hm. apply bind_inv in Hm as (a & s1 & _ & [= <- _]). apply wrap_range; lia.
  - injection Hu as <-. apply put_sound; [done|by apply unknown_sound].
  - injection Hu as <-. apply put_sound; [done|by apply unknown_sound].
  - injection Hu as <-. apply put_sound; [done|]. apply half_sound. destruct src; injection Hm as <- _.
    + apply land_range_r; [lia|by vm_compute].
    + apply wrap_range; lia.
  - by eapply add_sound.
  - by eapply sub_sound.
  - by apply (one_slot_sound st (fst x) slot_dst const32).
  - by eapply xor_sound.
  - by apply (consts_sound st (fst x) slot_no const32).
  - by apply (consts_sound st (fst x) slot_no const32).
  - by eapply or_sound.
  - by apply (consts_sound st (fst x) slot_no const32).
  - by apply (one_slot_sound st (fst x) slot_no 0).
  - by apply (one_slot_sound st (fst x) slot_no 0).
  - injection Hu as <-. by apply set_bit0_sound, (known_cmp st (fst x) _ _ Z.gtb).
  - injection Hu as <-. by apply set_bit0_sound, (known_cmp st (fst x) _ _ (fun a b => s32 a >? s32 b)).
  - injection Hu as <-. apply set_bit0_sound; [done..|]. intros E. apply (known_cmp_imm st (fst x) _ (fun a => s32 a >? s32 (u32 imm_rhs))) in E; try done.
    by rewrite s32_u32 in E by exact Hi.
  - injection Hu as <-. by apply set_bit0_sound, (known_cmp st (fst x) _ _ Z.eqb).
  - injection Hu as <-. by apply set_bit0_sound, (known_cmp st (fst x) _ _ Z.geb).
  - injection Hu as <-. by apply set_bit0_sound, (known_cmp st (fst x) _ _ (fun a b => s32 a >=? s32 b)).
  - injection Hu as <-. apply set_bit0_sound; [done..|]. intros E. apply (known_cmp_imm st (fst x) _ (fun a => s32 a >=? s32 (u32 imm_rhs))) in E; try done.
    by rewrite s32_u32 in E by exact Hi.
  - injection Hu as <-. apply put_sound; [done|by apply unknown_sound].
  - injection Hu as <-. apply put_sound_same; [done|by apply unknown_sound].
Qed.

(** the other rules, when nothing is known before *)
Definition right_shift op : bool := match op with JIT_OP_SHAR _ _ | JIT_OP_SHLR _ _ => true | _ => false end.

Lemma dslot_default i : dslot jit_determ_default i = slot_unknown.
Proof. unfold dslot, jit_determ_default. by rewrite lookup_empty. Qed.

Lemma shll_mask a : 0 <= a < 32 -> u32 (s32 (Z.shiftl 1 a - 1)) = Z.ones a.
Proof.
  intros Ha. rewrite Z.ones_equiv, Z.shiftl_1_l, <- Z.sub_1_r. pose proof (Z.pow_le_mono_r 2 a 31 ltac:(lia) ltac:(lia)).
  pose proof (pow2_pos a ltac:(lia)). rewrite wrap_swrap by lia. apply wrap_small. unfold in_range. lia.
Qed.

Lemma first_rule_sound op st' x x' :
  right_shift op = false -> imm_ok op -> slots_typed (fst x) ->
  update_state jit_determ_default op = Ok st' -> intp_step op x = Ok (JitNext, x') -> determ_sound st' (fst x').
Proof.
  intros Hr Hi Hty Hu He. pose proof (sound_default (fst x)) as Hs. destruct (rule_ok op) eqn:Ho; [by eapply rule_sound|].
  destruct op; try done; cbn [update_state] in Hu; rewrite ?dslot_default in Hu.
  - injection He as <-. injection Hu as <-. apply put_sound; [done|by apply unknown_sound].
  - injection He as <-. injection Hu as <-. apply put_sound; [done|by apply unknown_sound].
  - injection He as <-. injection Hu as <-. apply put_sound; [done|by apply unknown_sound].
  - cbn [intp_step] in He. apply shift_ok_inv in He as [Ha He]. injection He as <-. cbn [fst].
    destruct (shift_amt >=? 32); [done|]. injection Hu as <-. rewrite shll_mask by done. apply put_sound; [done|].
    cbn [known_bits known_val slot_unknown]. rewrite Z.shiftl_0_l, Z.lor_0_l. split; cbn [known_bits known_val]; [|done|].
    + apply (in_range_weaken shift_amt); [lia|]. unfold in_range. rewrite Z.ones_equiv. pose proof (pow2_pos shift_amt ltac:(lia)). lia.
    + intros n Hn. rewrite Z.testbit_ones_nonneg by lia. intros E%Z.ltb_lt. change (u32 0) with 0.
      rewrite u32_bit, Z.shiftl_spec, Z.bits_0 by (done || lia). apply Z.testbit_neg_r. lia.
Qed.

Lemma determ_loop_lookup insts states i op : determ_loop None insts = Ok states -> insts !! i = Some op ->
  exists st, states !! i = Some st /\ update_state jit_determ_default op = Ok st.
Proof.
  revert states i. induction insts as [|o insts IH]; intros states i; cbn [determ_loop]; [done|].
  destruct (update_state jit_determ_default o) as [st|] eqn:Eu; [|done].
  destruct (determ_loop None insts) as [rest|] eqn:El; [|done]. intros [= <-]. destruct i as [|i]; cbn.
  - intros [= <-]. eauto.
  - by apply IH.
Qed.

(** C21: what the pass records is true: for every instruction of a block other than a right shift, and
    every run of it - with any slots and any machine -, the bits of a slot that the recorded state
    claims to know have the values it claims after the instruction.  It holds for each instruction on
    its own, because the pass carries nothing over from one to the next. *)
Theorem jit_determ_sound (block : il_code_block W) (states : list jit_determ_state) (i : nat) op x x' :
  jit_determ_pass block = Ok states -> inst_list block !! i = Some op -> right_shift op = false -> imm_ok op ->
  slots_typed (fst x) -> intp_step op x = Ok (JitNext, x') ->
  exists st, states !! i = Some st /\ determ_sound st (fst x').
Proof.
  intros Hp Hi Hr Hm Hty He. destruct (determ_loop_lookup _ _ _ _ Hp Hi) as (st & Hst & Hu).
  exists st. split; [done|]. by eapply first_rule_sound.
Qed.

(** the right shifts: one bit too many is taken as known, the one that was the sign *)
Definition one_inst op : il_code_block W := {| inst_list := [op]; n_slots := 1; slots_in_use := ∅ |}.

Lemma shift_mask_bit a : 0 <= a < 32 -> Z.testbit (not32 (u32 (Z.shiftl 1 (31 - a) - 1))) (31 - a) = true.
Proof.
  intros Ha. rewrite not32_bit, u32_bit, Z.shiftl_1_l, Z.sub_1_r, <- Z.ones_equiv, Z.testbit_ones_nonneg by lia.
  by rewrite Z.ltb_irrefl.
Qed.

Lemma shifted_sign a : 0 <= a < 32 ->
  Z.testbit (u32 (Z.shiftr (2 ^ 31) a)) (31 - a) = true /\ Z.testbit (u32 (Z.shiftr (s32 (2 ^ 31)) a)) (31 - a) = true.
Proof.
  intros Ha. rewrite !u32_bit, !Z.shiftr_spec by lia. replace (31 - a + a) with 31 by lia. done.
Qed.

(** C40: the pass is wrong about right shifts by any amount, logical or arithmetic: in a block of one
    such shift it claims to know that bit 31-amount of the result is 0, but the shift puts the top bit
    of the slot there, and it can be 1. *)
Theorem jit_determ_shift_wrong (a : Z) (arith : bool) (s : Sh4 W) : 0 <= a < 32 ->
  let op := if arith then JIT_OP_SHAR 0 a else JIT_OP_SHLR 0 a in
  exists st x', jit_determ_pass (one_inst op) = Ok [st] /\ intp_step op ({[0 := 2 ^ 31]}, s) = Ok (JitNext, x') /\
    Z.testbit (known_bits (dslot st 0)) (31 - a) = true /\ Z.testbit (known_val (dslot st 0)) (31 - a) = false /\
    Z.testbit (slot_get 0 (fst x')) (31 - a) = true.
Proof.
  intros Ha op. destruct (shifted_sign a Ha) as [Hl Hs]. pose proof (shift_mask_bit a Ha) as Hm.
  assert (Hg : slot_get 0 ({[0 := 2 ^ 31]} : slots) = 2 ^ 31) by done.
  assert (Hso : forall A (r : res A), shift_ok a r = r).
  { intros A r. unfold shift_ok. by destruct (Z.leb_spec 0 a), (Z.ltb_spec a 32); try lia. }
  unfold jit_determ_pass, op. destruct arith; cbn [inst_list one_inst determ_loop update_state intp_step]; rewrite Hso, dslot_default;
    (destruct (Z.geb_spec a 32); [lia|]); do 2 eexists; (split; [reflexivity|]); (split; [reflexivity|]); cbn [fst];
    rewrite dslot_put, slot_get_set, Hg; cbn [Z.eqb known_bits known_val slot_unknown]; rewrite Z.lor_0_l.
  - split_and!; [done| |done]. change (s32 0) with 0. rewrite Z.shiftr_0_l. apply Z.bits_0.
  - split_and!; [done| |done]. rewrite Z.shiftr_0_l. apply Z.bits_0.
Qed.
End soundness.

(** *** Witnesses *)
#[local] Instance determ_ram : HostRam board := ram.
Definition determ_block : il_code_block board :=
  {| inst_list := [JIT_SET_SLOT 0 5; JIT_OP_ADD_CONST32 0 1; JIT_OP_SHLL 0 4]; n_slots := 1; slots_in_use := ∅ |}.

(** after the shift by four the pass knows the four low bits, and that they are zero *)
Lemma jit_determ_sound_witness :
  exists states st, jit_determ_pass determ_block = Ok states /\ states !! 2%nat = Some st /\
    known_bits (dslot st 0) = 0xf /\ determ_sound st (slot_set 0 0x70 {[0 := 7]}).
Proof.
  destruct (jit_determ_pass determ_block) as [states|] eqn:E; [|by vm_compute in E].
  destruct (jit_determ_sound determ_block states 2 (JIT_OP_SHLL 0 4) ({[0 := 7]}, cpu_with [] ∅) (slot_set 0 0x70 {[0 := 7]}, cpu_with [] ∅) E)
    as (st & Hst & Hs).
  - reflexivity.
  - reflexivity.
  - exact I.
  - intros i. unfold slot_get. cbn [fst]. destruct (decide (i = 0)) as [->|Hne].
    + rewrite lookup_singleton_eq. by vm_compute.
    + rewrite lookup_singleton_ne by done. by vm_compute.
  - reflexivity.
  - exists states, st. split; [reflexivity|]. split; [exact Hst|]. split; [|exact Hs].
    vm_compute in E. injection E as <-. vm_compute in Hst. injection Hst as <-. reflexivity.
Defined.

Lemma jit_determ_shift_wrong_witness :
  exists st x', jit_determ_pass (one_inst (W := board) (JIT_OP_SHLR 0 8)) = Ok [st] /\
    intp_step (JIT_OP_SHLR 0 8) ({[0 := 2 ^ 31]}, cpu_with [] ∅) = Ok (JitNext, x') /\
    Z.testbit (known_bits (dslot st 0)) 23 = true /\ Z.testbit (known_val (dslot st 0)) 23 = false /\
    Z.testbit (slot_get 0 (fst x')) 23 = true.
Proof. exact (jit_determ_shift_wrong 8 false (cpu_with [] ∅) ltac:(lia)). Defined.
