(* ===== verification/Sh4JitRules.v ===== *)
(** Rules for the functions of the SH-4 front end ([Sh4Jit]): what each of them emits, in
    terms of the relation [st] of [Sh4JitSim], and the tactics that follow a translator
    through them. *)
From stdpp Require Import gmap.
From S2P Require Import Prelude MemoryMap Memory Sh4State Board Sh4Core Sh4Excp Sh4Inst.
From S2P Require Import Sh4InstMem Sh4Decode Sched Sh4Exec JitIL Sh4Jit Sh4JitSim.
Import memory_map memory.

Section ext.
Context {W : Type}.
Implicit Types s : Sh4 W.

(** two CPUs that agree on the registers and on everything else are the same *)
Lemma jit_regs_ext s s' :
  regs_ok s -> regs_ok s' -> with_reg [] s = with_reg [] s' ->
  (forall r, valid_reg r -> getr r s = getr r s') -> s = s'.
Proof.
  intros [Hl _] [Hl' _] Hrest Hr.
  assert (Hreg : reg s = reg s').
  { apply nth_ext with 0 0; [congruence|]. intros n Hn. rewrite Hl in Hn.
    specialize (Hr (Z.of_nat n)). unfold getr in Hr. rewrite Nat2Z.id in Hr. apply Hr.
    unfold valid_reg. lia. }
  destruct s, s'. cbn in *. unfold with_reg in Hrest. cbn in Hrest. congruence.
Qed.

Lemma setr_rest r v s : with_reg [] (setr r v s) = with_reg [] s.
Proof. done. Qed.

Lemma setr_wrap r v s : setr r (u32 v) s = setr r v s.
Proof. unfold setr. by rewrite wrap_wrap by lia. Qed.

Lemma setrs_rest l s : with_reg [] (setrs l s) = with_reg [] s.
Proof. by induction l. Qed.

(** overwriting registers with the values they have in another CPU *)
Definition reg_vals (rs : list Z) s : list (Z * Z) := map (fun r => (r, getr r s)) rs.

Lemma getr_setrs rs s0 s r :
  regs_ok s0 -> regs_ok s -> Forall valid_reg rs -> valid_reg r ->
  getr r (setrs (reg_vals rs s0) s) = if bool_decide (r ∈ rs) then getr r s0 else getr r s.
Proof.
  intros H0 Hs Hrs Hr. induction Hrs as [|q rs Hq _ IH]; [done|].
  change (setrs (reg_vals (q :: rs) s0) s) with (setr q (getr q s0) (setrs (reg_vals rs s0) s)).
  destruct (Z.eq_dec r q) as [->|Hne].
  - rewrite getr_setr_eq by auto using setrs_ok. rewrite bool_decide_true by by left.
    apply wrap_small. auto with int_range.
  - destruct Hr, Hq. rewrite getr_setr_ne, IH by done.
    rewrite (bool_decide_ext (r ∈ q :: rs) (r ∈ rs)); [done|].
    rewrite elem_of_cons. tauto.
Qed.
End ext.

Section rules.
Context {W : Type} {CFG : BuildConfig} {MCH : Machine W} {HR : HostRam W}.
Implicit Types (s : Sh4 W) (c : jit_compile W) (x : slots * Sh4 W).

(** *** Accesses to the rest of the machine *)

(** the registers in which the running block may differ from the interpreter *)
Definition jit_regs c (rs : list Z) : Prop :=
  Forall valid_reg rs /\ SH4_REG_PC ∈ rs /\ (forall r, in_slot c r -> r ∈ rs).

Lemma st_cpu N D T H c x s rs :
  st N D T H c x s -> jit_regs c rs -> snd x = setrs (reg_vals rs (snd x)) s.
Proof.
  intros [] (Hv & Hpc & Hin). apply jit_regs_ext; [done|by apply setrs_ok| |].
  - by rewrite setrs_rest.
  - intros r Hr. rewrite getr_setrs by done. case_bool_decide as Hr'; [done|].
    apply st_mem; [done|by intros ->|]. destruct (status c r) eqn:E; [done|..];
      destruct Hr'; apply Hin; unfold in_slot; by rewrite E.
Qed.

(** an operation blind to these registers behaves in the block as in the interpreter *)
Lemma st_blind {A} N D T H c x s rs (m : M (Sh4 W) A) a s' :
  st N D T H c x s -> jit_regs c rs -> blind_to rs m -> m s = Ok (a, s') ->
  exists sj, m (snd x) = Ok (a, sj) /\ st N D T H c (fst x, sj) s'.
Proof.
  intros Hst Hrs Hb Hm. pose proof (st_cpu _ _ _ _ _ _ _ _ Hst Hrs) as Hcpu.
  destruct Hrs as (Hv & Hpc & Hin). set (l := reg_vals rs (snd x)) in *. destruct Hst.
  assert (Hok : regs_ok s') by by eapply blind_ok.
  assert (Hkeep : forall r, r ∈ rs -> getr r s' = getr r s).
  { intros r Hr. eapply blind_keeps; eauto. rewrite list.Forall_forall in Hv. auto. }
  exists (setrs l s'). split.
  { rewrite Hcpu, (blind_setrs rs), Hm; [done|done| |done]. intros r v.
    unfold l, reg_vals. rewrite list_elem_of_In, in_map_iff.
    intros (r' & [= <- <-] & Hr). by apply list_elem_of_In. }
  assert (Hslots : forall r, in_slot c r -> getr r s' = getr r s) by eauto.
  assert (Hget : forall r, valid_reg r -> getr r (snd x) = getr r s -> getr r (setrs l s') = getr r s').
  { intros r Hr Heq. unfold l. rewrite getr_setrs by done. case_bool_decide as Hr'; [|done].
    by rewrite Hkeep. }
  assert (Hvs : forall r, in_slot c r -> valid_reg r) by (intros; by apply cached_valid, st_map).
  split; cbn [fst snd]; try done.
  - by apply setrs_ok.
  - apply setrs_rest.
  - intros r Hr. rewrite Hslots by done. by apply st_slot.
  - intros r Hr Hne Hs. apply Hget; [done|]. by apply st_mem.
  - intros r Hs HD. apply Hget; [apply Hvs; unfold in_slot; by rewrite Hs|]. by apply st_sync.
Qed.

Lemma cached_jit_regs N D T H c x s : st N D T H c x s -> jit_regs c (SH4_REG_PC :: cached_regs).
Proof.
  intros []. split; [|split].
  - constructor; [by vm_compute; intuition congruence|]. apply list.Forall_forall.
    intros r Hr. by apply cached_valid.
  - by left.
  - intros r Hr. right. by apply st_map.
Qed.

Lemma st_pc N D T H c x s v : st N D T H c x s -> st N D T H c x (setr SH4_REG_PC v s).
Proof.
  intros []. assert (Hg : forall r, 0 <= r -> r <> SH4_REG_PC -> getr r (setr SH4_REG_PC v s) = getr r s)
    by (intros; by apply getr_setr_ne).
  assert (Hc : forall r, in_slot c r -> 0 <= r /\ r <> SH4_REG_PC).
  { intros r Hr. apply st_map in Hr as [Hr _]. split; [by apply cached_nonneg|by apply cached_valid]. }
  split; try done.
  - by apply setr_ok.
  - intros r Hr. destruct (Hc r Hr). rewrite Hg by done. by apply st_slot.
  - intros r [] Hne Hs. rewrite Hg by done. by apply st_mem.
  - intros r Hs HD. destruct (Hc r ltac:(unfold in_slot; by rewrite Hs)). rewrite Hg by done.
    by apply st_sync.
Qed.

(** *** Slots *)
Lemma jwp_alloc_slot c x (Q : Z -> jit_compile W -> slots * Sh4 W -> Prop) :
  n_slots (jc_block c) < MAX_SLOTS ->
  (forall c', reg_map c' = reg_map c -> n_slots (jc_block c') = n_slots (jc_block c) + 2 ->
     Q (n_slots (jc_block c)) c' x) ->
  jwp jit_alloc_slot Q c x.
Proof.
  intros HN HQ. unfold jwp, cexec, jit_alloc_slot, alloc_slot.
  destruct (Z.geb_spec (n_slots (jc_block c)) MAX_SLOTS); [lia|].
  do 3 eexists. split; [split; [done|]; exists []; by rewrite app_nil_r|].
  split; [done|]. apply HQ; [done|]. cbn. lia.
Qed.

Lemma jwp_alloc N D T H c x s (Q : Z -> jit_compile W -> slots * Sh4 W -> Prop) :
  st N D T H c x s -> N < MAX_SLOTS ->
  (forall t v c', st (N + 2) D ((t, v) :: T) H c' x s -> Q t c' x) ->
  jwp jit_alloc_slot Q c x.
Proof.
  intros Hst HN HQ. pose proof (st_n _ _ _ _ _ _ _ Hst) as Hn.
  apply jwp_alloc_slot; [lia|]. intros c' Hm Hc'. eapply HQ. by apply st_fresh.
Qed.

Lemma in_slot_dec c r : status c r = REG_STATUS_SH4 \/ in_slot c r.
Proof. unfold in_slot. destruct (status c r); [by left|by right..]. Qed.

Lemma status_insert r q v c :
  status (with_map (<[q := v]>) c) r = if q =? r then stat v else status c r.
Proof. unfold status. rewrite residency_insert. by destruct (q =? r). Qed.

Lemma slot_of_insert r q v c :
  slot_of (with_map (<[q := v]>) c) r = if q =? r then slot_no v else slot_of c r.
Proof. unfold slot_of. rewrite residency_insert. by destruct (q =? r). Qed.

Lemma st_hold N D T H c x s r :
  st N D T H c x s -> in_slot c r -> st N D T ((r, slot_of c r) :: H) c x s.
Proof.
  intros [] Hr. split; try done. intros q l Hq. apply elem_of_cons in Hq as [[= -> ->]|Hq]; auto.
Qed.

Lemma st_hold_slot N D T H c x s r l :
  st N D T H c x s -> (r, l) ∈ H -> slot_of c r = l.
Proof. intros Hst Hin. by apply (st_held _ _ _ _ _ _ _ Hst). Qed.

(** the register map after [jit_alloc_slot], [res_associate_reg] and [set_stat] *)
Lemma assoc_residency c c1 r n stt q :
  reg_map c1 = reg_map c ->
  let c2 := with_map (<[r := {| stat := stat (residency_of r c1); slot_no := n |}]>) c1 in
  residency_of q (with_map (<[r := {| stat := stt; slot_no := slot_no (residency_of r c2) |}]>) c2) =
    if r =? q then {| stat := stt; slot_no := n |} else residency_of q c.
Proof.
  intros Hm c2. unfold c2. rewrite !residency_insert, Z.eqb_refl. unfold residency_of. rewrite Hm.
  by destruct (r =? q).
Qed.

Lemma jwp_reg_slot_status N D T H c x s r Q :
  st N D T H c x s -> r ∈ cached_regs -> N < MAX_SLOTS ->
  (forall l c' x', st (N + 2) D T ((r, l) :: H) c' x' s ->
     (forall q, status c' q = if bool_decide (q = r /\ status c r = REG_STATUS_SH4)
                              then REG_STATUS_SLOT_AND_SH4 else status c q) -> Q l c' x') ->
  jwp (reg_slot r) Q c x.
Proof.
  intros Hst Hc HN HQ. pose proof (st_n _ _ _ _ _ _ _ Hst) as Hn0.
  assert (Hsame : setr r (getr r s) s = s)
    by (apply setr_same; [by destruct Hst|by apply cached_valid]). unfold reg_slot. apply jwp_bind, jwp_gets.
  destruct (in_slot_dec c r) as [Hr|Hr].
  - rewrite bool_decide_true by exact Hr. cbn [when]. apply jwp_bind.
    apply jwp_bind, jwp_alloc_slot; [lia|]. intros c1 Hm Hn1.
    apply jwp_bind, jwp_map, jwp_bind, jwp_map. set (c' := with_map _ _).
    assert (Hres := fun q => assoc_residency c c1 r (n_slots (jc_block c)) REG_STATUS_SLOT_AND_SH4 q Hm).
    fold c' in Hres. cbv zeta in Hres. fold c' in Hres.
    eapply jwp_push; [done|]. apply jwp_gets.
    unfold residency_of. cbn [reg_map with_block]. fold (residency_of r c').
    rewrite Hres, Z.eqb_refl. cbn [slot_no].
    apply HQ.
    2: { intros q. unfold status, residency_of. cbn [reg_map with_block]. fold (residency_of q c').
         rewrite Hres. destruct (Z.eqb_spec r q) as [->|]; [by rewrite bool_decide_true|].
         by rewrite bool_decide_false by (intros [? _]; congruence). }
    eapply (st_block _ _ _ _ c'); [done|done|].
    assert (Hs : getr r (snd x) = getr r s).
    { apply (st_mem _ _ _ _ _ _ _ Hst); [by apply cached_valid..|done]. }
    rewrite <- Hsame, <- Hs. apply (st_assoc N D T H c c' x _ s r REG_STATUS_SLOT_AND_SH4); try done.
    + intros i Hi. cbn [fst]. rewrite slot_get_set. by destruct (Z.eqb_spec (n_slots (jc_block c)) i).
    + rewrite slot_get_set, Z.eqb_refl. done.
    + intros _. apply wrap_small. destruct Hst. auto with int_range.
  - rewrite bool_decide_false by exact Hr. apply jwp_bind, jwp_ret, jwp_gets, HQ.
    + eapply st_weaken; [by apply st_hold|lia|done|done].
    + intros q. by rewrite bool_decide_false by (intros [_ ?]; by apply Hr).
Qed.

Lemma jwp_reg_slot N D T H c x s r Q :
  st N D T H c x s -> r ∈ cached_regs -> N < MAX_SLOTS ->
  (forall l c' x', st (N + 2) D T ((r, l) :: H) c' x' s -> Q l c' x') ->
  jwp (reg_slot r) Q c x.
Proof. intros. eapply jwp_reg_slot_status; eauto. Qed.

Lemma jwp_reg_slot_noload N D T H c x s r Q :
  st N D T H c x s -> r ∈ cached_regs -> N < MAX_SLOTS ->
  (forall l v c', st (N + 2) D T ((r, l) :: H) c' x (setr r v s) ->
     status c' r = REG_STATUS_SLOT -> (forall k, (r, k) ∈ H -> v = getr r s) -> Q l c' x) ->
  jwp (reg_slot_noload r) Q c x.
Proof.
  intros Hst Hc HN HQ. pose proof (st_n _ _ _ _ _ _ _ Hst) as Hn0. unfold reg_slot_noload. apply jwp_bind, jwp_gets.
  assert (Hsame : setr r (getr r s) s = s)
    by (apply setr_same; [by destruct Hst|by apply cached_valid]).
  destruct (stat (residency_of r c)) eqn:Es; fold (status c r) in Es.
  - apply jwp_bind, jwp_bind, jwp_alloc_slot; [lia|]. intros c1 Hm Hn1.
    apply jwp_bind, jwp_map, jwp_map. set (c' := with_map _ _).
    assert (Hres := fun q => assoc_residency c c1 r (n_slots (jc_block c)) REG_STATUS_SLOT q Hm).
    fold c' in Hres. cbv zeta in Hres. fold c' in Hres.
    apply jwp_gets. rewrite Hres, Z.eqb_refl. cbn [slot_no].
    apply (HQ _ (slot_get (n_slots (jc_block c)) (fst x))).
    + destruct x as [sl sj]. apply (st_assoc N D T H c c' (sl, sj) sl s r REG_STATUS_SLOT); try done. cbn [fst].
      symmetry. apply wrap_small. by destruct Hst.
    + unfold status. by rewrite Hres, Z.eqb_refl.
    + intros k Hk. destruct (st_held _ _ _ _ _ _ _ Hst r k Hk) as [Hin _]. by destruct Hin.
  - apply jwp_bind, jwp_map, jwp_gets. rewrite residency_insert, Z.eqb_refl. cbn [slot_no].
    assert (Hin : in_slot c r) by (unfold in_slot; by rewrite Es).
    apply (HQ _ (getr r s)); [|by rewrite status_insert, Z.eqb_refl|done].
    rewrite Hsame. eapply st_weaken;
      [eapply st_mark; [by apply st_hold|by left]|lia|by intros ? []|done].
  - apply jwp_bind, jwp_ret, jwp_gets. apply (HQ _ (getr r s)); [|done..]. rewrite Hsame.
    eapply st_weaken; [apply st_hold; [done|unfold in_slot; by rewrite Es]|lia|done|done].
Qed.

(** *** Emitted instructions *)
Lemma st_pushed N D T H c x s i :
  st N D T H c x s -> st N D T H (with_block (il_code_block_push_inst i (jc_block c)) c) x s.
Proof. by apply st_block. Qed.

(** an instruction that writes the slot of a held register *)
Lemma jwp_held r l v w N D T H c x s i Q :
  st N D T H c x s -> (r, l) ∈ H -> intp_step i x = Ok (JitNext, (slot_set l v (fst x), snd x)) ->
  v = w ->
  (forall c' x', reg_map c' = reg_map c ->
     st N (fun q => q = r \/ D q) T H c' x' (setr r w s) -> Q tt c' x') ->
  jwp (emit (il_code_block_push_inst i)) Q c x.
Proof.
  intros Hst Hh Hi <- HQ. eapply jwp_push; [exact Hi|]. apply HQ; [done|].
  by apply st_pushed, st_write.
Qed.

(** an instruction that writes a temporary *)
Lemma jwp_temp T1 T2 t v0 v w N D H c x s i Q :
  st N D (T1 ++ (t, v0) :: T2) H c x s ->
  intp_step i x = Ok (JitNext, (slot_set t v (fst x), snd x)) -> u32 v = w ->
  (forall c' x', reg_map c' = reg_map c -> st N D (T1 ++ (t, w) :: T2) H c' x' s -> Q tt c' x') ->
  jwp (emit (il_code_block_push_inst i)) Q c x.
Proof.
  intros Hst Hi <- HQ. eapply jwp_push; [exact Hi|]. apply HQ; [done|].
  by eapply st_pushed, st_write_temp.
Qed.

(** an instruction that changes nothing *)
Lemma jwp_skip N D T H c x s i Q :
  st N D T H c x s -> intp_step i x = Ok (JitNext, x) ->
  (forall c', reg_map c' = reg_map c -> st N D T H c' x s -> Q tt c' x) ->
  jwp (emit (il_code_block_push_inst i)) Q c x.
Proof. intros Hst Hi HQ. eapply jwp_push; [exact Hi|]. apply HQ; [done|]. by apply st_pushed. Qed.

Lemma jwp_discard N D T H c x s l Q :
  st N D T H c x s -> (forall c', reg_map c' = reg_map c -> st N D T H c' x s -> Q tt c' x) ->
  jwp (emit (jit_discard_slot l)) Q c x.
Proof. intros. eapply jwp_skip; [done| |done]. by destruct x. Qed.

Lemma jwp_free_slot N D T H c x s l Q :
  st N D T H c x s -> (forall c', reg_map c' = reg_map c -> st N D T H c' x s -> Q tt c' x) ->
  jwp (emit (free_slot l)) Q c x.
Proof. intros Hst HQ. apply jwp_free, HQ; [done|]. by apply (st_block _ _ _ _ c). Qed.

(** *** Status changes *)
Lemma jwp_mark N D T H c x s r l Q :
  st N D T H c x s -> (r, l) ∈ H ->
  (forall c', st N (fun q => D q /\ q <> r) T H c' x s -> Q tt c' x) ->
  jwp (set_stat r REG_STATUS_SLOT) Q c x.
Proof. intros Hst Hh HQ. apply jwp_map, HQ. by eapply st_mark. Qed.

(** a register whose status is [REG_STATUS_SLOT] is not outdated by a write to its slot *)
Lemma st_known N D T H c x s r :
  st N D T H c x s -> status c r = REG_STATUS_SLOT -> st N (fun q => D q /\ q <> r) T H c x s.
Proof.
  intros [] Hr. split; try done. intros q Hq HD. apply st_sync; [done|]. intros ?.
  apply HD. split; [done|]. intros ->. congruence.
Qed.

Lemma st_drain N D T H c c' x s r :
  st N D T H c x s -> status c r = REG_STATUS_SLOT ->
  (forall q, status c' q = if r =? q then REG_STATUS_SLOT_AND_SH4 else status c q) ->
  (forall q, slot_of c' q = slot_of c q) -> n_slots (jc_block c') = n_slots (jc_block c) ->
  st N D T H c' (fst x, setr r (slot_get (slot_of c r) (fst x)) (snd x)) s.
Proof.
  intros [] Hr Hstat Hslot Hn.
  assert (Hir : in_slot c r) by (unfold in_slot; by rewrite Hr).
  assert (Hc : r ∈ cached_regs) by by apply st_map. destruct (cached_valid r Hc) as [Hv Hnpc].
  assert (Hin : forall q, in_slot c' q <-> in_slot c q).
  { intros q. unfold in_slot. rewrite Hstat. destruct (Z.eqb_spec r q) as [->|]; [|done].
    rewrite Hr. by split. }
  assert (Hne : forall q, 0 <= q -> q <> r ->
    getr q (setr r (slot_get (slot_of c r) (fst x)) (snd x)) = getr q (snd x)).
  { intros. apply getr_setr_ne; [done|by destruct Hv|done]. }
  split; cbn [fst snd]; try done; try (intros *; rewrite ?Hin, ?Hslot, ?Hn; auto; fail).
  - by apply setr_ok.
  - intros q [] Hpc Hs. rewrite Hstat in Hs. destruct (Z.eqb_spec r q) as [->|]; [done|].
    rewrite Hne by done. by apply st_mem.
  - intros q Hs HD. rewrite Hstat in Hs. destruct (Z.eqb_spec r q) as [->|].
    + rewrite getr_setr_eq, st_slot by done. apply wrap_small. auto with int_range.
    + rewrite Hne; [by apply st_sync| |done]. apply cached_nonneg, st_map. unfold in_slot.
      by rewrite Hs.
  - intros t v Ht. destruct (st_temp t v Ht) as (? & ? & Hd). rewrite Hn. split; [done|].
    split; [done|]. intros q. rewrite Hin, Hslot. apply Hd.
Qed.

Lemma jwp_drain N D T H c x s r Q :
  st N D T H c x s ->
  (forall c' x', st N D T H c' x' s -> (forall q, slot_of c' q = slot_of c q) ->
     (forall q, status c' q =
        if bool_decide (q = r /\ status c r = REG_STATUS_SLOT)
        then REG_STATUS_SLOT_AND_SH4 else status c q) ->
     Q tt c' x') ->
  jwp (res_drain_reg r) Q c x.
Proof.
  intros Hst HQ. unfold res_drain_reg. apply jwp_bind, jwp_gets.
  change (stat (residency_of r c)) with (status c r).
  case_bool_decide as Hr; cbn [when].
  - apply jwp_bind. eapply jwp_push; [done|]. apply jwp_map. set (c1 := with_block _ _).
    apply HQ.
    + apply (st_drain N D T H c _ x s r); try done.
      * intros q. rewrite status_insert. by destruct (r =? q).
      * intros q. rewrite slot_of_insert. by destruct (Z.eqb_spec r q) as [->|].
    + intros q. rewrite slot_of_insert. by destruct (Z.eqb_spec r q) as [->|].
    + intros q. rewrite status_insert. destruct (Z.eqb_spec r q) as [->|].
      * by rewrite bool_decide_true.
      * by rewrite bool_decide_false by (intros [? _]; congruence).
  - apply jwp_ret, HQ; [done|done|]. intros q. by rewrite bool_decide_false by tauto.
Qed.

(** a register leaves its slot, which becomes a temporary *)
Lemma jwp_disassociate N D T H H' c x s r l Q :
  st N D T H c x s -> (r, l) ∈ H -> ~ D r ->
  (forall q k, (q, k) ∈ H' -> (q, k) ∈ H /\ q <> r) ->
  (forall c' x', st N D ((l, getr r s) :: T) H' c' x' s -> Q tt c' x') ->
  jwp (res_disassociate_reg r) Q c x.
Proof.
  intros Hst Hh HD HH HQ. unfold res_disassociate_reg. apply jwp_bind.
  pose proof (st_held _ _ _ _ _ _ _ Hst r l Hh) as [Hi _].
  eapply jwp_drain; [exact Hst|]. intros c1 x1 H1 Hs1 Ht1. apply jwp_map, HQ.
  assert (Hr1 : status c1 r = REG_STATUS_SLOT_AND_SH4).
  { rewrite Ht1. unfold in_slot in Hi. case_bool_decide; [done|]. destruct (status c r); tauto. }
  destruct x1 as [sl1 sj1].
  apply (st_release N D T H H' c1 _ (sl1, sj1) sj1 s r l); try done.
  - intros q. rewrite status_insert. by destruct (r =? q).
  - intros q Hq. rewrite slot_of_insert. by destruct (Z.eqb_spec r q).
  - by destruct H1.
  - by destruct H1.
  - by apply (st_sync _ _ _ _ _ _ _ H1).
Qed.

(** *** The loops over all registers *)
Lemma jwp_drain_loop n : forall k N D T H c x s Q,
  st N D T H c x s ->
  (forall c' x', st N D T H c' x' s ->
     (forall q, status c' q = REG_STATUS_SLOT ->
        status c q = REG_STATUS_SLOT /\ ~ (k <= q < k + Z.of_nat n)) -> Q tt c' x') ->
  jwp (res_drain_loop n k) Q c x.
Proof.
  induction n as [|n IH]; intros k N D T H c x s Q Hst HQ.
  { apply jwp_ret, HQ; [done|]. intros q Hq. split; [done|lia]. }
  cbn [res_drain_loop]. apply jwp_bind. eapply jwp_drain; [exact Hst|]. intros c1 x1 H1 _ Ht.
  eapply IH; [exact H1|]. intros c2 x2 H2 Hs. apply HQ; [done|]. intros q Hq.
  destruct (Hs q Hq) as [Hq1 Hr]. rewrite Ht in Hq1. case_bool_decide as Hd; [done|].
  split; [done|]. intros Hk. assert (q = k \/ k + 1 <= q < k + 1 + Z.of_nat n) as [->|] by lia; tauto.
Qed.

Lemma jwp_drain_all N D T H c x s Q :
  st N D T H c x s ->
  (forall c' x', st N D T H c' x' s -> (forall q, status c' q <> REG_STATUS_SLOT) -> Q tt c' x') ->
  jwp res_drain_all_regs Q c x.
Proof.
  intros Hst HQ. eapply jwp_drain_loop; [exact Hst|]. intros c' x' H' Hs. apply HQ; [done|].
  intros q Hq. destruct (Hs q Hq) as [_ Hr]. apply Hr.
  assert (Hc : q ∈ cached_regs) by (apply (st_map _ _ _ _ _ _ _ H'); unfold in_slot; by rewrite Hq).
  by apply cached_valid in Hc as [Hv _].
Qed.

(** a register whose value is in the array leaves its slot *)
Lemma st_forget N T c c' x s r :
  clean N T c x s -> status c r <> REG_STATUS_SLOT ->
  (forall q, status c' q = if r =? q then REG_STATUS_SH4 else status c q) ->
  (forall q, slot_of c' q = slot_of c q) -> n_slots (jc_block c') = n_slots (jc_block c) ->
  clean N T c' x s.
Proof.
  intros [] Hr Hstat Hslot Hn.
  assert (Hin : forall q, in_slot c' q -> in_slot c q).
  { intros q. unfold in_slot. rewrite Hstat. by destruct (r =? q). }
  split; try done; try (intros *; rewrite ?Hslot, ?Hn; auto; fail).
  - intros q Hv Hpc Hs. rewrite Hstat in Hs. destruct (Z.eqb_spec r q) as [->|]; [|by apply st_mem].
    destruct (status c q) eqn:E; [by apply st_mem|apply st_sync; tauto|done].
  - intros q. rewrite Hstat. destruct (r =? q); [done|]. apply st_sync.
  - intros t v Ht. destruct (st_temp t v Ht) as (? & ? & Hd). rewrite Hn. split; [done|].
    split; [done|]. intros q Hq. rewrite Hslot. by apply Hd, Hin.
  - intros q l Hq. by apply not_elem_of_nil in Hq.
Qed.

Lemma jwp_invalidate_loop n : forall k N T c x s Q,
  clean N T c x s -> (forall q, status c q <> REG_STATUS_SLOT) ->
  (forall c', clean N T c' x s -> (forall q, status c' q <> REG_STATUS_SLOT) ->
     (forall q, in_slot c' q -> in_slot c q /\ ~ (k <= q < k + Z.of_nat n)) -> Q tt c' x) ->
  jwp (res_invalidate_loop n k) Q c x.
Proof.
  induction n as [|n IH]; intros k N T c x s Q Hst Hns HQ.
  { apply jwp_ret, HQ; [done..|]. intros q Hq. split; [done|lia]. }
  cbn [res_invalidate_loop]. apply jwp_bind, jwp_gets, jwp_bind.
  change (stat (residency_of k c)) with (status c k).
  destruct (in_slot_dec c k) as [Hk|Hk].
  - rewrite bool_decide_true by done. apply jwp_ret. eapply IH; [done|done|].
    intros c1 H1 Hn1 Hi. apply HQ; [done|done|]. intros q Hq. destruct (Hi q Hq) as [Hq1 Hr].
    split; [done|]. intros ?. assert (q = k \/ k + 1 <= q < k + 1 + Z.of_nat n) as [->|] by lia; [by destruct Hq1|tauto].
  - rewrite bool_decide_false by done. cbn [negb when]. unfold res_invalidate_reg.
    apply jwp_bind, jwp_gets. change (stat (residency_of k c)) with (status c k).
    rewrite bool_decide_false by done. cbn [negb when]. apply jwp_bind, jwp_map, jwp_bind, jwp_free.
    eapply jwp_push; [done|]. set (c1 := with_block _ _).
    assert (Ht : forall q, status c1 q = if k =? q then REG_STATUS_SH4 else status c q)
      by (intros q; exact (status_insert q k _ c)).
    assert (H1 : clean N T c1 x s).
    { apply (st_forget N T c c1 x s k); try done. intros q.
      etransitivity; [exact (slot_of_insert q k _ c)|]. by destruct (Z.eqb_spec k q) as [->|]. }
    destruct x as [sl sj]. eapply (IH (k + 1) N T c1 (sl, sj) s); [done| |].
    + intros q. rewrite Ht. by destruct (k =? q).
    + intros c2 H2 Hn2 Hi. apply HQ; [done|done|]. intros q Hq. destruct (Hi q Hq) as [Hq1 Hr].
      unfold in_slot in Hq1. rewrite Ht in Hq1. destruct (Z.eqb_spec k q) as [->|]; [done|].
      split; [done|]. lia.
Qed.

(** after both loops every register is in the array only *)
Lemma jwp_invalidate_all N T c x s Q :
  clean N T c x s -> (forall q, status c q <> REG_STATUS_SLOT) ->
  (forall c' x', clean N T c' x' s -> (forall q, ~ in_slot c' q) -> Q tt c' x') ->
  jwp res_invalidate_all_regs Q c x.
Proof.
  intros Hst Hn HQ. eapply jwp_invalidate_loop; [exact Hst|exact Hn|]. intros c2 H2 Hn2 Hi.
  apply HQ; [done|]. intros q Hq. destruct (Hi q Hq) as [Hq1 Hr]. apply Hr.
  apply (st_map _ _ _ _ _ _ _ Hst) in Hq1 as [Hc _]. by apply cached_valid in Hc as [Hv _].
Qed.

Lemma jwp_flush N T c x s (m : M (jit_compile W) bool) Q :
  clean N T c x s ->
  (forall c' x', clean N T c' x' s -> (forall q, ~ in_slot c' q) -> jwp m Q c' x') ->
  jwp (res_drain_all_regs ;; res_invalidate_all_regs ;; m) Q c x.
Proof.
  intros Hst HQ. apply jwp_bind. eapply jwp_drain_all; [exact Hst|]. intros c1 x1 H1 Hn1.
  apply jwp_bind. by eapply jwp_invalidate_all; [exact H1|exact Hn1|].
Qed.
End rules.

Section memory_rules.
Context {W : Type} {CFG : BuildConfig} {MCH : Machine W} {HR : HostRam W} {JM : JitMachine W}.
Implicit Types (s : Sh4 W) (c : jit_compile W) (x : slots * Sh4 W).

(** an instruction that loads the result of a blind operation into the slot of a held register *)
Lemma jwp_load r l v m N D T H c x s s' i Q :
  st N D T H c x s -> (r, l) ∈ H -> blind_to (SH4_REG_PC :: cached_regs) m -> m s = Ok (v, s') ->
  intp_step i x = cpu_to_slot l (fun _ => m) x ->
  (forall c' x', reg_map c' = reg_map c ->
     st N (fun q => q = r \/ D q) T H c' x' (setr r v s') -> Q tt c' x') ->
  jwp (emit (il_code_block_push_inst i)) Q c x.
Proof.
  intros Hst Hh Hb Hm Hi HQ.
  destruct (st_blind _ _ _ _ _ _ _ _ _ _ _ Hst (cached_jit_regs _ _ _ _ _ _ _ Hst) Hb Hm)
    as (sj & Hj & Hst').
  eapply jwp_push; [rewrite Hi; unfold cpu_to_slot; by rewrite Hj|]. apply HQ; [done|].
  apply st_pushed. exact (st_write _ _ _ _ _ _ _ _ _ v Hst' Hh).
Qed.

Lemma jwp_read_32 r l a addr v N D T H c x s s' Q :
  st N D T H c x s -> (r, l) ∈ H -> slot_get a (fst x) = addr ->
  memory_map_read_32 addr s = Ok (v, s') ->
  (forall c' x', reg_map c' = reg_map c ->
     st N (fun q => q = r \/ D q) T H c' x' (setr r v s') -> Q tt c' x') ->
  jwp (emit (jit_read_32_slot a l)) Q c x.
Proof.
  intros Hst Hh <- Hm HQ. eapply jwp_load; [done|done|apply blind_read_32|exact Hm|done|done].
Qed.

Lemma jwp_write_32 l a v addr N D T H c x s s' Q :
  st N D T H c x s -> slot_get l (fst x) = v -> slot_get a (fst x) = addr ->
  memory_map_write_32 addr v s = Ok (tt, s') ->
  (forall c' x', reg_map c' = reg_map c -> st N D T H c' x' s' -> Q tt c' x') ->
  jwp (emit (jit_write_32_slot l a)) Q c x.
Proof.
  intros Hst <- <- Hm HQ.
  destruct (st_blind _ _ _ _ _ _ _ _ _ _ _ Hst (cached_jit_regs _ _ _ _ _ _ _ Hst)
    (blind_map_write _ _ _) Hm) as (sj & Hj & Hst').
  eapply jwp_push; [|apply HQ; [done|by apply st_pushed]]. cbn [intp_step]. unfold on_cpu.
  unfold memory_map_write_32. by rewrite Hj.
Qed.

(** the host's RAM array is the same in the block and in the interpreter *)
Lemma st_world N D T H c x s : st N D T H c x s -> world (snd x) = world s.
Proof. intros []. by injection st_rest. Qed.

Lemma jwp_const_32 r l addr v N D T H c x s s' Q :
  st N D T H c x s -> (r, l) ∈ H -> in_range 32 addr -> addr mod 4 = 0 ->
  memory_map_read_32 addr s = Ok (v, s') ->
  (forall c' x', reg_map c' = reg_map c ->
     st N (fun q => q = r \/ D q) T H c' x' (setr r v s') -> Q tt c' x') ->
  jwp (jit_mem_read_constaddr_32 addr l) Q c x.
Proof.
  intros Hst Hh Ha Hal Hm HQ. unfold jit_mem_read_constaddr_32.
  assert (Hslow : jwp (emit (jit_read_32_constaddr addr l)) Q c x)
    by (eapply jwp_load; [done|done|apply (blind_read_32 addr)|exact Hm|done|done]).
  destruct (find_ram mem_map) as [ram|] eqn:Ef; [|done].
  destruct (ram_window addr ram) eqn:Ew; [|done].
  destruct (jm_ram_32 ram addr v s s' Ef Ew Ha Hal Hm) as [-> ->].
  eapply jwp_held; [done|done|done| |done]. by rewrite (st_world _ _ _ _ _ _ _ Hst).
Qed.

Lemma jwp_const_16 r l addr v N D T H c x s s' Q :
  st N D T H c x s -> (r, l) ∈ H -> in_range 32 addr -> addr mod 2 = 0 ->
  memory_map_read_16 addr s = Ok (v, s') ->
  (forall c' x', reg_map c' = reg_map c ->
     st N (fun q => q = r \/ D q) T H c' x' (setr r v s') -> Q tt c' x') ->
  jwp (jit_mem_read_constaddr_16 addr l) Q c x.
Proof.
  intros Hst Hh Ha Hal Hm HQ. unfold jit_mem_read_constaddr_16.
  assert (Hslow : jwp (emit (jit_read_16_constaddr addr l)) Q c x)
    by (eapply jwp_load; [done|done|apply (blind_read_16 addr)|exact Hm|done|done]).
  destruct (find_ram mem_map) as [ram|] eqn:Ef; [|done].
  destruct (ram_window addr ram) eqn:Ew; [|done].
  destruct (jm_ram_16 ram addr v s s' Ef Ew Ha Hal Hm) as [-> ->].
  eapply jwp_held; [done|done|done| |done]. by rewrite (st_world _ _ _ _ _ _ _ Hst).
Qed.
End memory_rules.
