(* ===== verification/Sh4JitCorrect.v ===== *)
(** The translators of the SH-4 front end against the interpreter's handlers: the code that a
    translator emits does to the slots and the registers what the handler does to the CPU. *)
From stdpp Require Import gmap.
From S2P Require Import Prelude IntMath MemoryMap Memory Sh4State Board Sh4Core Sh4Excp Sh4Inst.
From S2P Require Import Sh4InstMem Sh4Decode Sched Sh4Exec JitIL Sh4Jit Sh4JitSim Sh4JitRules.
Import memory_map memory intmath.

(** slots that one instruction uses at most *)
Definition INST_SLOTS : Z := 10.

Section simulation.
Context {W : Type} {CFG : BuildConfig} {MCH : Machine W} {HR : HostRam W} {JM : JitMachine W}.
Implicit Types (s : Sh4 W) (c : jit_compile W) (x : slots * Sh4 W).

(** the translation [d] of the instruction at [pc] succeeds, goes on with the block, and its
    code does what the handler [h] does *)
Definition simulates (d : M (jit_compile W) bool) (h : M (Sh4 W) unit) (pc : Z) : Prop :=
  forall N T c x s s',
    clean N T c x s -> N + INST_SLOTS <= MAX_SLOTS -> getr SH4_REG_PC s = pc ->
    pc mod 2 = 0 -> h s = Ok (tt, s') ->
    jwp d (fun go_on c' x' => go_on = true /\ clean (N + INST_SLOTS) T c' x' s') c x.

(** *** Operand fields *)
Lemma jit_rn inst : Z.shiftr (Z.land inst 0xf00) 8 = sh4_gen_reg_idx (rn inst).
Proof.
  unfold sh4_gen_reg_idx, rn, SH4_REG_R0. rewrite Z.add_0_l. rewrite Z.shiftr_land. done.
Qed.
Lemma jit_rm inst : Z.shiftr (Z.land inst 0xf0) 4 = sh4_gen_reg_idx (rm inst).
Proof.
  unfold sh4_gen_reg_idx, rm, SH4_REG_R0. rewrite Z.add_0_l. rewrite Z.shiftr_land. done.
Qed.
Lemma jit_rn' inst : Z.land (Z.shiftr inst 8) 0xf = sh4_gen_reg_idx (rn inst).
Proof. done. Qed.
Lemma jit_r0 r : r + SH4_REG_R0 = r.
Proof. unfold SH4_REG_R0. lia. Qed.
Lemma jit_r0' r : SH4_REG_R0 + r = r.
Proof. done. Qed.

Lemma gen_idx_range inst : 0 <= sh4_gen_reg_idx (rn inst) < 16 /\ 0 <= sh4_gen_reg_idx (rm inst) < 16.
Proof.
  unfold sh4_gen_reg_idx, rn, rm, SH4_REG_R0. change 0xf with (Z.ones 4). rewrite !Z.land_ones by lia.
  pose proof (Z.mod_pos_bound (Z.shiftr inst 8) (2 ^ 4)).
  pose proof (Z.mod_pos_bound (Z.shiftr inst 4) (2 ^ 4)). lia.
Qed.

Lemma gen_cached r : 0 <= r < 16 -> r ∈ cached_regs.
Proof.
  intros Hr. apply list_elem_of_In.
  assert (In r [0;1;2;3;4;5;6;7;8;9;10;11;12;13;14;15]) as Hin by (cbn; lia).
  cbn in Hin |- *. tauto.
Qed.

(** *** Handlers *)
Lemma check_inst_inv inst mask val (k : M (Sh4 W) unit) s r :
  bind (CHECK_INST inst mask val) (fun _ => k) s = Ok r -> k s = Ok r.
Proof.
  unfold bind, CHECK_INST. destruct (INVARIANTS && _); [done|]. done.
Qed.

Lemma st_done N' N D T' T H c x s s1 :
  st N' D (T' ++ T) H c x s1 -> N' <= N -> (forall q, ~ D q) -> s1 = s -> clean N T c x s.
Proof.
  intros Hst HN HD ->. apply st_drop_temp in Hst. eapply st_weaken; [exact Hst|done|done|].
  intros p Hp. by apply not_elem_of_nil in Hp.
Qed.

(** *** Instructions that set the T flag on a comparison *)
Lemma jwp_flag r l b b' N D T H c x s i Q :
  st N D T H c x s -> (r, l) ∈ H ->
  intp_step i x = Ok (JitNext, (if b : bool then slot_set l (Z.lor (slot_get l (fst x)) 1) (fst x)
                                else fst x, snd x)) ->
  b = b' ->
  (forall c' x', reg_map c' = reg_map c ->
     st N (fun q => q = r \/ D q) T H c' x' (setr r (Z.lor (getr r s) (b2z b')) s) -> Q tt c' x') ->
  jwp (emit (il_code_block_push_inst i)) Q c x.
Proof.
  intros Hst Hh Hi <- HQ. destruct b.
  - eapply jwp_held; [done|done|done| |done]. by rewrite (st_held_val _ _ _ _ _ _ _ _ _ Hst Hh).
  - destruct x as [sl sj]. eapply jwp_skip; [done|done|]. intros c' Hm Hst'. apply HQ; [done|].
    cbn [b2z]. rewrite Z.lor_0_r.
    destruct (st_held _ _ _ _ _ _ _ Hst r l Hh) as [Hin _].
    apply (st_map _ _ _ _ _ _ _ Hst) in Hin as [Hc _]. apply cached_valid in Hc as [Hv _].
    rewrite setr_same; [|by destruct Hst|done].
    eapply st_weaken; [done|lia|tauto|done].
Qed.
End simulation.

(** side conditions on register numbers *)
Ltac reg_side :=
  first [ assumption | (auto using setr_ok; fail) | lia
        | (unfold valid_reg, SH4_REGISTER_COUNT; lia)
        | (vm_compute; congruence)
        | (unfold SH4_REG_SR, SH4_REG_PR, SH4_REG_MACL, SH4_REG_GBR, SH4_REG_PC, SH4_REG_R0 in *; lia)
        | (unfold valid_reg; vm_compute; intuition congruence) ].

(** membership in an explicit list of pairs *)
Ltac in_list := solve [repeat first [apply list_elem_of_here | apply list_elem_of_further]].

(** the values of slots, in terms of the registers and the temporaries *)
Ltac slot_vals :=
  repeat match goal with
  | Hst : st _ _ ?T ?H _ ?x _ |- context [slot_get ?l (fst ?x)] =>
      first [ erewrite (st_held_val _ _ _ _ _ _ _ _ l Hst) by in_list
            | erewrite (st_temp_val _ _ _ _ _ _ _ l _ Hst) by in_list ]
  end.

Ltac solve_cached :=
  first [ by apply gen_cached | (apply list_elem_of_In; vm_compute; tauto) ].

Ltac jit_emit Hst :=
  first
  [ eapply (jwp_discard _ _ _ _ _ _ _ _ _ Hst); clear Hst; intros ? _ Hst
  | eapply (jwp_free_slot _ _ _ _ _ _ _ _ _ Hst); clear Hst; intros ? _ Hst
  | eapply (jwp_temp [] _ _ _ _ _ _ _ _ _ _ _ _ _ Hst);
      [reflexivity | slot_vals; reflexivity | clear Hst; intros ? ? _ Hst; cbn [app] in Hst]
  | eapply (jwp_temp [_] _ _ _ _ _ _ _ _ _ _ _ _ _ Hst);
      [reflexivity | slot_vals; reflexivity | clear Hst; intros ? ? _ Hst; cbn [app] in Hst]
  | eapply (jwp_held _ _ _ _ _ _ _ _ _ _ _ _ _ Hst);
      [ | reflexivity | slot_vals; reflexivity | clear Hst; intros ? ? _ Hst]; [in_list|]
  | eapply (jwp_flag _ _ _ _ _ _ _ _ _ _ _ _ _ Hst);
      [ | reflexivity | slot_vals; reflexivity | clear Hst; intros ? ? _ Hst]; [in_list|] ].

(** one call of the front end *)
Ltac jit_step :=
  cbv beta;
  match goal with
  | |- jwp (bind _ _) _ _ _ => apply jwp_bind
  | Hst : st _ _ _ _ ?c ?x _ |- jwp (reg_slot _) _ ?c ?x =>
      eapply (jwp_reg_slot _ _ _ _ _ _ _ _ _ Hst);
        [solve_cached | lia | clear Hst; intros ? ? ? Hst]
  | Hst : st _ _ _ _ ?c ?x _ |- jwp (reg_slot_noload _) _ ?c ?x =>
      let Hs := fresh "Hslot" in
      eapply (jwp_reg_slot_noload _ _ _ _ _ _ _ _ _ Hst);
        [solve_cached | lia | clear Hst; intros ? ? ? Hst Hs ?]
  | Hst : st _ _ _ _ ?c ?x _ |- jwp jit_alloc_slot _ ?c ?x =>
      eapply (jwp_alloc _ _ _ _ _ _ _ _ Hst); [lia | clear Hst; intros ? ? ? Hst]
  | Hst : st _ _ _ _ ?c ?x _ |- jwp (set_stat ?r REG_STATUS_SLOT) _ ?c ?x =>
      eapply (jwp_mark _ _ _ _ _ _ _ r _ _ Hst); [in_list | clear Hst; intros ? Hst]
  | Hst : st _ _ _ _ ?c ?x _ |- jwp (emit _) _ ?c ?x => jit_emit Hst
  end.

(** [res_disassociate_reg]; [H'] are the registers that stay in slots *)
Ltac jit_release H' :=
  cbv beta;
  match goal with
  | |- jwp (bind _ _) _ _ _ => apply jwp_bind; jit_release H'
  | Hst : st _ _ _ _ ?c ?x _ |- jwp (res_disassociate_reg ?r) _ ?c ?x =>
      eapply (jwp_disassociate _ _ _ _ H' _ _ _ r _ _ Hst);
        [ in_list | tauto
        | let Hq := fresh in intros ? ? Hq; rewrite list_elem_of_In in Hq; cbn in Hq;
          rewrite list_elem_of_In; cbn;
          repeat (destruct Hq as [Hq|Hq]; [injection Hq as <- <-; split; [tauto|reg_side]|]); done
        | clear Hst; intros ? ? Hst ]
  end.

(** the end of a translator: the registers are those of the handler *)
Ltac jit_end :=
  cbv beta; apply jwp_ret; (split; [reflexivity|]);
  match goal with
  | Hst : st _ _ _ _ ?c ?x _ |- clean _ _ ?c ?x _ =>
      first [ eapply (st_done _ _ _ [] _ _ _ _ _ _ Hst)
            | eapply (st_done _ _ _ [_] _ _ _ _ _ _ Hst)
            | eapply (st_done _ _ _ [_; _] _ _ _ _ _ _ Hst) ];
      [unfold INST_SLOTS; lia | intros ?; tauto | ]
  end.

(** unfold the handler's primitives in a hypothesis that says it succeeded *)
Ltac run_handler H :=
  apply check_inst_inv in H;
  cbv [bind ret gets modify gen_reg set_gen_reg reg_get reg_set sr_and sr_or sr_set_t] in H;
  injection H as <-.

Ltac jit_start :=
  let Hst := fresh "Hst" in let HN := fresh "HN" in let Hpc := fresh "Hpc" in
  let Heven := fresh "Heven" in let Hf := fresh "Hf" in
  intros N T c x s s' Hst HN Hpc Heven Hf; unfold clean in Hst; unfold INST_SLOTS in HN.

(** the operands' registers, as variables *)
Ltac gen_operands inst :=
  rewrite ?jit_rn, ?jit_rm, ?jit_rn', ?jit_r0 in *;
  let Hn := fresh "Hn" in let Hm := fresh "Hm" in
  pose proof (gen_idx_range inst) as [Hn Hm];
  generalize dependent (sh4_gen_reg_idx (rn inst)); intros n;
  generalize dependent (sh4_gen_reg_idx (rm inst)); intros m; intros.

Ltac reg_norm :=
  repeat first
  [ rewrite setr_setr | rewrite setr_wrap
  | rewrite getr_setr_eq by reg_side | rewrite getr_setr_ne by reg_side ].

Section values.
Context {W : Type}.
Implicit Types s : Sh4 W.

Lemma setr_congr r v w s : u32 v = u32 w -> setr r v s = setr r w s.
Proof. intros H. rewrite <- (setr_wrap r v), <- (setr_wrap r w). by rewrite H. Qed.
End values.

Lemma land_s32_1 v : Z.land (s32 v) 1 = Z.land v 1.
Proof.
  change 1 with (Z.ones 1). rewrite !Z.land_ones by lia. unfold swrap. change (2 ^ 1) with 2.
  rewrite Zminus_mod, Z.mod_mod_divide by by exists (2 ^ 31).
  rewrite <- Zminus_mod. f_equal. lia.
Qed.

(** the negated truth value of a slot, as the translators compute it *)
Lemma not_truth v : Z.land (not32 (b2z (truth v))) 1 = b2z (v =? 0).
Proof. unfold truth. by destruct (v =? 0). Qed.

Lemma dec_u32 v : u32 (v + not32 0) = u32 (v - 1).
Proof. unfold wrap. change (not32 0) with (-1 + 1 * 2 ^ 32). by rewrite Z.add_assoc, Z_mod_plus_full. Qed.

Lemma land_16 v : Z.land v 0xffff = u16 v.
Proof. change 0xffff with (Z.ones 16). by apply land_ones_wrap. Qed.

Ltac small_wraps :=
  repeat match goal with |- context [wrap 32 ?v] =>
    first [ rewrite (wrap_small 32 v) by solve_range | rewrite (wrap_wrap 32 v) by lia ] end.
Ltac flag_norm :=
  unfold SH4_SR_FLAG_T_SHIFT; rewrite ?Z.shiftl_0_r, ?Z.shiftr_0_r, ?land_s32_1;
  small_wraps; rewrite ?not_truth; try reflexivity.

(** the two sides store values that agree modulo 2^32 *)
Ltac same_value := apply setr_congr; norm_wrap; try (f_equal; lia).

Tactic Notation "simulate" reference(d) reference(h) constr(inst) :=
  jit_start; unfold h in *; unfold d;
  match goal with Hf : _ = Ok (tt, _) |- _ => run_handler Hf end;
  gen_operands inst;
  match goal with Hst : st _ _ _ _ _ _ ?s |- _ =>
    pose proof (st_ok _ _ _ _ _ _ _ Hst) end;
  repeat jit_step; jit_end; reg_norm; flag_norm.

(** the read that the handler does: [Hr] says it succeeded, [tac] proves the address *)
Ltac jit_read Hr tac :=
  cbv beta;
  match goal with
  | |- jwp (bind _ _) _ _ _ => apply jwp_bind; jit_read Hr tac
  | Hst : st _ _ _ _ ?c ?x _ |- jwp (emit (jit_read_32_slot _ _)) _ ?c ?x =>
      eapply (jwp_read_32 _ _ _ _ _ _ _ _ _ _ _ _ _ _ Hst);
        [in_list | | exact Hr | clear Hst; intros ? ? _ Hst]; [slot_vals; tac|]
  end.

Section instructions.
Context {W : Type} {CFG : BuildConfig} {MCH : Machine W} {HR : HostRam W} {JM : JitMachine W}.
Implicit Types (s : Sh4 W) (c : jit_compile W) (x : slots * Sh4 W) (op : InstOpcode W).

Lemma jit_add_rm_rn_ok pc op inst :
  simulates (sh4_jit_add_rm_rn pc op inst) (sh4_inst_binary_add_gen_gen inst) pc.
Proof. simulate sh4_jit_add_rm_rn sh4_inst_binary_add_gen_gen inst. Qed.

Lemma jit_sub_rm_rn_ok pc op inst :
  simulates (sh4_jit_sub_rm_rn pc op inst) (sh4_inst_binary_sub_gen_gen inst) pc.
Proof. simulate sh4_jit_sub_rm_rn sh4_inst_binary_sub_gen_gen inst. Qed.

Lemma jit_xor_rm_rn_ok pc op inst :
  simulates (sh4_jit_xor_rm_rn pc op inst) (sh4_inst_binary_xor_gen_gen inst) pc.
Proof. simulate sh4_jit_xor_rm_rn sh4_inst_binary_xor_gen_gen inst. Qed.

Lemma jit_and_rm_rn_ok pc op inst :
  simulates (sh4_jit_and_rm_rn pc op inst) (sh4_inst_binary_and_gen_gen inst) pc.
Proof. simulate sh4_jit_and_rm_rn sh4_inst_binary_and_gen_gen inst. Qed.

Lemma jit_or_rm_rn_ok pc op inst :
  simulates (sh4_jit_or_rm_rn pc op inst) (sh4_inst_binary_or_gen_gen inst) pc.
Proof. simulate sh4_jit_or_rm_rn sh4_inst_binary_or_gen_gen inst. Qed.

Lemma jit_mov_rm_rn_ok pc op inst :
  simulates (sh4_jit_mov_rm_rn pc op inst) (sh4_inst_binary_mov_gen_gen inst) pc.
Proof. simulate sh4_jit_mov_rm_rn sh4_inst_binary_mov_gen_gen inst. Qed.

Lemma jit_not_rm_rn_ok pc op inst :
  simulates (sh4_jit_not_rm_rn pc op inst) (sh4_inst_binary_not_gen_gen inst) pc.
Proof. simulate sh4_jit_not_rm_rn sh4_inst_binary_not_gen_gen inst. Qed.

Lemma jit_add_imm_rn_ok pc op inst :
  simulates (sh4_jit_add_imm_rn pc op inst) (sh4_inst_binary_add_imm_gen inst) pc.
Proof.
  simulate sh4_jit_add_imm_rn sh4_inst_binary_add_imm_gen inst. same_value.
Qed.

Lemma jit_or_imm8_r0_ok pc op inst :
  simulates (sh4_jit_or_imm8_r0 pc op inst) (sh4_inst_binary_or_imm_r0 inst) pc.
Proof. simulate sh4_jit_or_imm8_r0 sh4_inst_binary_or_imm_r0 inst. Qed.

Lemma jit_xor_imm8_r0_ok pc op inst :
  simulates (sh4_jit_xor_imm8_r0 pc op inst) (sh4_inst_binary_xor_imm_r0 inst) pc.
Proof. simulate sh4_jit_xor_imm8_r0 sh4_inst_binary_xor_imm_r0 inst. Qed.

Lemma jit_clrt_ok pc op inst :
  simulates (sh4_jit_clrt pc op inst) (sh4_inst_clrt inst) pc.
Proof. simulate sh4_jit_clrt sh4_inst_clrt inst. Qed.

Lemma jit_sett_ok pc op inst :
  simulates (sh4_jit_sett pc op inst) (sh4_inst_sett inst) pc.
Proof. simulate sh4_jit_sett sh4_inst_sett inst. Qed.

Lemma jit_movt_ok pc op inst :
  simulates (sh4_jit_movt pc op inst) (sh4_inst_unary_movt_gen inst) pc.
Proof. simulate sh4_jit_movt sh4_inst_unary_movt_gen inst. Qed.

Lemma jit_shll2_rn_ok pc op inst :
  simulates (sh4_jit_shll2_rn pc op inst) (sh4_inst_unary_shll2_gen inst) pc.
Proof. simulate sh4_jit_shll2_rn sh4_inst_unary_shll2_gen inst. Qed.

Lemma jit_shll8_rn_ok pc op inst :
  simulates (sh4_jit_shll8_rn pc op inst) (sh4_inst_unary_shll8_gen inst) pc.
Proof. simulate sh4_jit_shll8_rn sh4_inst_unary_shll8_gen inst. Qed.

Lemma jit_shll16_rn_ok pc op inst :
  simulates (sh4_jit_shll16_rn pc op inst) (sh4_inst_unary_shll16_gen inst) pc.
Proof. simulate sh4_jit_shll16_rn sh4_inst_unary_shll16_gen inst. Qed.

Lemma jit_shlr2_rn_ok pc op inst :
  simulates (sh4_jit_shlr2_rn pc op inst) (sh4_inst_unary_shlr2_gen inst) pc.
Proof. simulate sh4_jit_shlr2_rn sh4_inst_unary_shlr2_gen inst. Qed.

Lemma jit_shlr8_rn_ok pc op inst :
  simulates (sh4_jit_shlr8_rn pc op inst) (sh4_inst_unary_shlr8_gen inst) pc.
Proof. simulate sh4_jit_shlr8_rn sh4_inst_unary_shlr8_gen inst. Qed.

Lemma jit_shlr16_rn_ok pc op inst :
  simulates (sh4_jit_shlr16_rn pc op inst) (sh4_inst_unary_shlr16_gen inst) pc.
Proof. simulate sh4_jit_shlr16_rn sh4_inst_unary_shlr16_gen inst. Qed.

Lemma jit_shar_rn_ok pc op inst :
  simulates (sh4_jit_shar_rn pc op inst) (sh4_inst_unary_shar_gen inst) pc.
Proof. simulate sh4_jit_shar_rn sh4_inst_unary_shar_gen inst. Qed.

Lemma jit_shlr_rn_ok pc op inst :
  simulates (sh4_jit_shlr_rn pc op inst) (sh4_inst_unary_shlr_gen inst) pc.
Proof. simulate sh4_jit_shlr_rn sh4_inst_unary_shlr_gen inst. Qed.

Lemma jit_shll_rn_ok pc op inst :
  simulates (sh4_jit_shll_rn pc op inst) (sh4_inst_unary_shll_gen inst) pc.
Proof. simulate sh4_jit_shll_rn sh4_inst_unary_shll_gen inst. Qed.

Lemma jit_cmphi_rm_rn_ok pc op inst :
  simulates (sh4_jit_cmphi_rm_rn pc op inst) (sh4_inst_binary_cmphi_gen_gen inst) pc.
Proof. simulate sh4_jit_cmphi_rm_rn sh4_inst_binary_cmphi_gen_gen inst. Qed.

Lemma jit_cmpgt_rm_rn_ok pc op inst :
  simulates (sh4_jit_cmpgt_rm_rn pc op inst) (sh4_inst_binary_cmpgt_gen_gen inst) pc.
Proof. simulate sh4_jit_cmpgt_rm_rn sh4_inst_binary_cmpgt_gen_gen inst. Qed.

Lemma jit_cmpeq_rm_rn_ok pc op inst :
  simulates (sh4_jit_cmpeq_rm_rn pc op inst) (sh4_inst_binary_cmpeq_gen_gen inst) pc.
Proof.
  simulate sh4_jit_cmpeq_rm_rn sh4_inst_binary_cmpeq_gen_gen inst. by rewrite Z.eqb_sym.
Qed.

Lemma jit_cmphs_rm_rn_ok pc op inst :
  simulates (sh4_jit_cmphs_rm_rn pc op inst) (sh4_inst_binary_cmphs_gen_gen inst) pc.
Proof. simulate sh4_jit_cmphs_rm_rn sh4_inst_binary_cmphs_gen_gen inst. Qed.

Lemma jit_cmpge_rm_rn_ok pc op inst :
  simulates (sh4_jit_cmpge_rm_rn pc op inst) (sh4_inst_binary_cmpge_gen_gen inst) pc.
Proof. simulate sh4_jit_cmpge_rm_rn sh4_inst_binary_cmpge_gen_gen inst. Qed.

Lemma jit_cmppl_rn_ok pc op inst :
  simulates (sh4_jit_cmppl_rn pc op inst) (sh4_inst_unary_cmppl_gen inst) pc.
Proof. simulate sh4_jit_cmppl_rn sh4_inst_unary_cmppl_gen inst. Qed.

Lemma jit_cmppz_rn_ok pc op inst :
  simulates (sh4_jit_cmppz_rn pc op inst) (sh4_inst_unary_cmppz_gen inst) pc.
Proof. simulate sh4_jit_cmppz_rn sh4_inst_unary_cmppz_gen inst. Qed.

Lemma jit_dt_rn_ok pc op inst :
  simulates (sh4_jit_dt_rn pc op inst) (sh4_inst_unary_dt_gen inst) pc.
Proof.
  simulate sh4_jit_dt_rn sh4_inst_unary_dt_gen inst.
  rewrite (setr_comm n SH4_REG_SR), setr_setr by reg_side. rewrite dec_u32.
  by rewrite (setr_congr n _ _ s (dec_u32 _)).
Qed.

Lemma jit_muluw_rm_rn_ok pc op inst :
  simulates (sh4_jit_muluw_rm_rn pc op inst) (sh4_inst_binary_muluw_gen_gen inst) pc.
Proof.
  simulate sh4_jit_muluw_rm_rn sh4_inst_binary_muluw_gen_gen inst. rewrite !land_16. by rewrite Z.mul_comm.
Qed.

Lemma jit_sts_macl_rn_ok pc op inst :
  simulates (sh4_jit_sts_macl_rn pc op inst) (sh4_inst_binary_sts_macl_gen inst) pc.
Proof. simulate sh4_jit_sts_macl_rn sh4_inst_binary_sts_macl_gen inst. Qed.

Lemma jit_and_imm8_r0_ok pc op inst :
  simulates (sh4_inst_binary_andb_imm_r0 pc op inst) (sh4_inst_binary_and_imm_r0 inst) pc.
Proof. simulate sh4_inst_binary_andb_imm_r0 sh4_inst_binary_and_imm_r0 inst. Qed.

Lemma jit_shal_rn_ok pc op inst :
  simulates (sh4_jit_shal_rn pc op inst) (sh4_inst_unary_shal_gen inst) pc.
Proof. unfold sh4_jit_shal_rn. simulate sh4_jit_shll_rn sh4_inst_unary_shal_gen inst. Qed.

(** instructions for which nothing is emitted *)
Lemma jit_nothing_ok pc inst mask val :
  simulates (ret true) (CHECK_INST inst mask val) pc.
Proof.
  jit_start. unfold CHECK_INST in Hf. destruct (INVARIANTS && _); [done|]. injection Hf as <-.
  jit_end. done.
Qed.

Lemma jit_mov_imm8_rn_ok pc op inst :
  simulates (sh4_jit_mov_imm8_rn pc op inst) (sh4_inst_binary_mov_imm_gen inst) pc.
Proof. simulate sh4_jit_mov_imm8_rn sh4_inst_binary_mov_imm_gen inst. Qed.

Lemma jit_swapw_rm_rn_ok pc op inst :
  simulates (sh4_jit_swapw_rm_rn pc op inst) (sh4_inst_binary_swapw_gen_gen inst) pc.
Proof.
  simulate sh4_jit_swapw_rm_rn sh4_inst_binary_swapw_gen_gen inst.
  assert (Hv : getr m (setr n v s) = getr m s).
  { destruct (Z.eq_dec m n) as [->|]; [|by rewrite getr_setr_ne by lia].
    rewrite getr_setr_eq by reg_side. match goal with E : forall k, _ -> v = _ |- _ =>
      rewrite (E l) by in_list end. apply wrap_small. solve_range. }
  by rewrite Hv, Z.lor_comm.
Qed.

Lemma jit_tst_imm8_r0_ok pc op inst :
  simulates (sh4_jit_tst_imm8_r0 pc op inst) (sh4_inst_binary_tst_imm_r0 inst) pc.
Proof.
  jit_start. unfold sh4_inst_binary_tst_imm_r0 in Hf. run_handler Hf. unfold sh4_jit_tst_imm8_r0.
  pose proof (st_ok _ _ _ _ _ _ _ Hst). do 4 jit_step. jit_release [(SH4_REG_SR, l0)].
  repeat jit_step. jit_end. reg_norm. flag_norm. by rewrite (Z.land_comm (getr SH4_REG_R0 s)).
Qed.

Lemma jit_tst_rm_rn_ok pc op inst :
  simulates (sh4_jit_tst_rm_rn pc op inst) (sh4_inst_binary_tst_gen_gen inst) pc.
Proof.
  jit_start. unfold sh4_inst_binary_tst_gen_gen in Hf. run_handler Hf. unfold sh4_jit_tst_rm_rn.
  gen_operands inst. pose proof (st_ok _ _ _ _ _ _ _ Hst). do 6 jit_step.
  destruct (Z.eq_dec m n) as [->|Hne].
  - assert (l = l0) as <-.
    { rewrite <- (st_hold_slot _ _ _ _ _ _ _ n l Hst) by in_list.
      by rewrite <- (st_hold_slot _ _ _ _ _ _ _ n l0 Hst) by in_list. }
    jit_release [(SH4_REG_SR, l1)]. repeat jit_step. jit_end. reg_norm. flag_norm.
  - jit_release [(SH4_REG_SR, l1); (m, l)]. repeat jit_step. jit_end. reg_norm. flag_norm.
    by rewrite (Z.land_comm (getr n s)).
Qed.

(** *** Memory *)

(** a read or a write in the block is the one of the handler *)
Lemma blind_setr_ok {A} (m : M (Sh4 W) A) r v s a s1 :
  blind_to (SH4_REG_PC :: cached_regs) m -> r ∈ cached_regs -> regs_ok s -> m s = Ok (a, s1) ->
  m (setr r v s) = Ok (a, setr r v s1) /\ regs_ok s1.
Proof.
  intros Hb Hr Hok Hm. split; [|by eapply (blind_ok _ _ Hb)].
  rewrite (blind_set _ _ Hb r v s); [|by right|done]. by rewrite Hm.
Qed.

Lemma read_32_setr a r v s val s1 :
  r ∈ cached_regs -> regs_ok s -> memory_map_read_32 a (setr r v s) = Ok (val, s1) ->
  exists s2, memory_map_read_32 a s = Ok (val, s2) /\ s1 = setr r v s2.
Proof.
  intros Hr Hok Hm.
  rewrite (blind_set _ _ (blind_read_32 a) r v s) in Hm; [|by right|done].
  destruct (memory_map_read_32 a s) as [[v' s2]|]; [|done]. injection Hm as -> <-. eauto.
Qed.

Lemma write_32_setr a w r v s s1 :
  r ∈ cached_regs -> regs_ok s -> memory_map_write_32 a w s = Ok (tt, s1) ->
  memory_map_write_32 a w (setr r v s) = Ok (tt, setr r v s1).
Proof.
  intros Hr Hok Hm. unfold memory_map_write_32 in *.
  by destruct (blind_setr_ok _ r v s tt s1 (blind_map_write _ _ _) Hr Hok Hm) as [-> _].
Qed.

Lemma read_32_keeps a s val s1 r :
  r ∈ cached_regs -> regs_ok s -> memory_map_read_32 a s = Ok (val, s1) ->
  getr r s1 = getr r s /\ regs_ok s1.
Proof.
  intros Hr Hok Hm. split; [|by eapply (blind_ok _ _ (blind_read_32 a))].
  eapply blind_keeps; [apply (blind_read_32 a)|by right|by apply cached_valid|done|exact Hm].
Qed.

Lemma s16_u32 v : s16 (u32 v) = s16 v.
Proof.
  unfold swrap, wrap. f_equal. rewrite <- (Zplus_mod_idemp_l (v mod 2 ^ 32)).
  rewrite Z.mod_mod_divide by by exists (2 ^ 16). by rewrite Zplus_mod_idemp_l.
Qed.

Lemma setr_s32 r v s : setr r (s32 v) s = setr r v s.
Proof. apply setr_congr. apply wrap_swrap. lia. Qed.

Lemma jit_movl_arm_rn_ok pc op inst :
  simulates (sh4_jit_movl_arm_rn pc op inst) (sh4_inst_binary_movl_indgen_gen inst) pc.
Proof.
  jit_start. unfold sh4_inst_binary_movl_indgen_gen in Hf. apply check_inst_inv in Hf.
  apply bind_inv in Hf as (? & ? & [= <- <-] & Hf).
  apply bind_inv in Hf as (val & s1 & Hr & [= <-]).
  unfold sh4_jit_movl_arm_rn. gen_operands inst. do 4 jit_step. jit_read Hr ltac:(reflexivity). repeat jit_step. jit_end. by rewrite setr_s32.
Qed.

Lemma jit_movl_rm_arn_ok pc op inst :
  simulates (sh4_jit_movl_rm_arn pc op inst) (sh4_inst_binary_movl_gen_indgen inst) pc.
Proof.
  jit_start. unfold sh4_inst_binary_movl_gen_indgen in Hf. apply check_inst_inv in Hf.
  cbv [bind gets gen_reg reg_get] in Hf. unfold sh4_jit_movl_rm_arn. gen_operands inst. do 5 jit_step.
  eapply (jwp_write_32 _ _ _ _ _ _ _ _ _ _ _ _ _ Hst); [slot_vals; reflexivity..|exact Hf|].
  clear Hst. intros ? ? _ Hst. repeat jit_step. jit_end. done.
Qed.

Lemma jit_movl_a_disp4_rm_rn_ok pc op inst :
  simulates (sh4_jit_movl_a_disp4_rm_rn pc op inst)
    (sh4_inst_binary_movl_binind_disp_gen_gen inst) pc.
Proof.
  jit_start. unfold sh4_inst_binary_movl_binind_disp_gen_gen in Hf. apply check_inst_inv in Hf.
  apply bind_inv in Hf as (? & ? & [= <- <-] & Hf).
  apply bind_inv in Hf as (val & s1 & Hr & [= <-]).
  unfold sh4_jit_movl_a_disp4_rm_rn. gen_operands inst. do 2 jit_step. jit_release (@nil (Z * Z)).
  do 4 jit_step. jit_read Hr ltac:(norm_wrap; f_equal; lia). repeat jit_step. jit_end.
  by rewrite setr_s32.
Qed.

Lemma jit_movl_a_disp8_gbr_r0_ok pc op inst :
  simulates (sh4_jit_movl_a_disp8_gbr_r0 pc op inst)
    (sh4_inst_binary_movl_binind_disp_gbr_r0 inst) pc.
Proof.
  jit_start. unfold sh4_inst_binary_movl_binind_disp_gbr_r0 in Hf. apply check_inst_inv in Hf.
  apply bind_inv in Hf as (? & ? & [= <- <-] & Hf).
  apply bind_inv in Hf as (val & s1 & Hr & [= <-]).
  unfold sh4_jit_movl_a_disp8_gbr_r0. do 2 jit_step. jit_release (@nil (Z * Z)).
  do 4 jit_step. jit_read Hr ltac:(norm_wrap; unfold inst_imm8; f_equal; lia).
  repeat jit_step. jit_end. by rewrite setr_s32.
Qed.

Lemma jit_movl_armp_rn_ok pc op inst :
  simulates (sh4_jit_movl_armp_rn pc op inst) (sh4_inst_binary_movl_indgeninc_gen inst) pc.
Proof.
  jit_start. unfold sh4_inst_binary_movl_indgeninc_gen in Hf. apply check_inst_inv in Hf.
  apply bind_inv in Hf as (? & ? & [= <- <-] & Hf).
  apply bind_inv in Hf as ([] & ? & [= <-] & Hf).
  apply bind_inv in Hf as (val & s1 & Hr & [= <-]).
  unfold sh4_jit_movl_armp_rn. gen_operands inst. pose proof (st_ok _ _ _ _ _ _ _ Hst) as Hok.
  destruct (read_32_setr _ _ _ _ _ _ (gen_cached m Hm) Hok Hr) as (s2 & Hr2 & ->).
  destruct (read_32_keeps _ _ _ _ m (gen_cached m Hm) Hok Hr2) as [Hkeep Hok2].
  do 4 jit_step. jit_read Hr2 ltac:(reflexivity). rewrite setr_s32.
  destruct (Z.eqb_spec m n) as [->|Hne]; cbn [negb when]; jit_step.
  - apply jwp_ret. repeat jit_step. jit_end. by reg_norm.
  - repeat jit_step. jit_end. reg_norm. rewrite Hkeep, (setr_comm m n) by lia. done.
Qed.

(** with one register as source and destination the block stores another value than the
    interpreter, see [jit_predecrement_same] below *)
Lemma jit_movl_rm_amrn_ok pc op inst :
  rm inst <> rn inst ->
  simulates (sh4_jit_movl_rm_amrn pc op inst) (sh4_inst_binary_movl_gen_inddecgen inst) pc.
Proof.
  intros Hmn. jit_start. unfold sh4_inst_binary_movl_gen_inddecgen in Hf. apply check_inst_inv in Hf.
  do 2 apply bind_inv in Hf as (? & ? & [= <- <-] & Hf).
  apply bind_inv in Hf as ([] & s1 & Hw & [= <-]).
  assert (Hne : sh4_gen_reg_idx (rm inst) <> sh4_gen_reg_idx (rn inst))
    by (unfold sh4_gen_reg_idx; lia). clear Hmn.
  unfold sh4_jit_movl_rm_amrn. gen_operands inst. pose proof (st_ok _ _ _ _ _ _ _ Hst) as Hok.
  do 7 jit_step.
  pose proof (write_32_setr _ _ _ (getr n s + u32 (-4)) _ _ (gen_cached n Hn) Hok Hw) as Hw'.
  eapply (jwp_write_32 _ _ _ _ _ _ _ _ _ _ _ _ _ Hst); [reflexivity..| |].
  { slot_vals. reg_norm. norm_wrap. etransitivity; [|exact Hw']. unfold memory_map_write_32.
    rewrite wrap_swrap by lia. norm_wrap. do 2 f_equal. }
  clear Hst. intros ? ? _ Hst. repeat jit_step. jit_end. reg_norm. same_value.
Qed.

(** what a block does for [MOV.L Rn,@-Rn]: it stores the decremented register *)
Definition store_decremented (inst : Z) : M (Sh4 W) unit :=
  dst <- gen_reg (rn inst) ;;
  memory_map_write_32 (u32 (dst - 4)) (s32 (u32 (dst - 4))) ;;
  set_gen_reg (rn inst) (u32 (dst - 4)).

(** [MOV.L Rn,@-Rn], one register as source and address: the interpreter stores the register's old value,
    as the manual asks; a block decrements the register's only slot first and stores the
    decremented value. *)
Theorem jit_predecrement_same pc op inst :
  rm inst = rn inst ->
  simulates (sh4_jit_movl_rm_amrn pc op inst) (store_decremented inst) pc.
Proof.
  intros Hmn. jit_start. unfold store_decremented in Hf.
  apply bind_inv in Hf as (? & ? & [= <- <-] & Hf).
  apply bind_inv in Hf as ([] & s1 & Hw & [= <-]).
  assert (Hmn' : sh4_gen_reg_idx (rm inst) = sh4_gen_reg_idx (rn inst)) by (by rewrite Hmn). clear Hmn.
  unfold sh4_jit_movl_rm_amrn. gen_operands inst. pose proof (st_ok _ _ _ _ _ _ _ Hst) as Hok.
  subst m. do 4 jit_step.
  assert (l = l0) as <-.
  { rewrite <- (st_hold_slot _ _ _ _ _ _ _ n l Hst) by in_list.
    by rewrite <- (st_hold_slot _ _ _ _ _ _ _ n l0 Hst) by in_list. }
  do 3 jit_step.
  pose proof (write_32_setr _ _ _ (getr n s + u32 (-4)) _ _ (gen_cached n Hn) Hok Hw) as Hw'.
  eapply (jwp_write_32 _ _ _ _ _ _ _ _ _ _ _ _ _ Hst); [reflexivity..| |].
  { slot_vals. reg_norm. norm_wrap. etransitivity; [|exact Hw']. unfold memory_map_write_32.
    rewrite wrap_swrap by lia. norm_wrap. do 2 f_equal. }
  clear Hst. intros ? ? _ Hst. repeat jit_step. jit_end. reg_norm. same_value.
Qed.

Lemma jit_ldsl_armp_pr_ok pc op inst :
  simulates (sh4_jit_ldsl_armp_pr pc op inst) (sh4_inst_binary_ldsl_indgeninc_pr inst) pc.
Proof.
  jit_start. unfold sh4_inst_binary_ldsl_indgeninc_pr in Hf. apply check_inst_inv in Hf.
  apply bind_inv in Hf as (? & ? & [= <- <-] & Hf).
  apply bind_inv in Hf as (val & s1 & Hr & [= <-]).
  unfold sh4_jit_ldsl_armp_pr. gen_operands inst. pose proof (st_ok _ _ _ _ _ _ _ Hst) as Hok.
  destruct (read_32_keeps _ _ _ _ n (gen_cached n Hn) Hok Hr) as [Hkeep Hok2].
  do 4 jit_step. jit_read Hr ltac:(reflexivity). repeat jit_step. jit_end. reg_norm. done.
Qed.

(** *** Dynamic shifts *)
Lemma u32_shiftl_s32 v k : 0 <= k -> u32 (s32 (Z.shiftl (s32 v) k)) = u32 (Z.shiftl v k).
Proof.
  intros Hk. rewrite wrap_swrap by lia. rewrite !Z.shiftl_mul_pow2 by done.
  rewrite <- (wrap_mul_l 32 (s32 v)), <- (wrap_mul_l 32 v). by rewrite wrap_swrap by lia.
Qed.

Lemma jit_shad_rm_rn_ok pc op inst :
  simulates (sh4_jit_shad_rm_rn pc op inst) (sh4_inst_binary_shad_gen_gen inst) pc.
Proof.
  jit_start. unfold sh4_inst_binary_shad_gen_gen in Hf. apply check_inst_inv in Hf.
  do 2 apply bind_inv in Hf as (? & ? & [= <- <-] & Hf). cbv [shift_amt set_gen_reg] in Hf.
  unfold sh4_jit_shad_rm_rn. gen_operands inst. pose proof (st_ok _ _ _ _ _ _ _ Hst) as Hok.
  do 5 jit_step.
  destruct (s32 (getr m s) >=? 0) eqn:Es; destruct (_ && _) eqn:Ea in Hf; try done;
    injection Hf as <-.
  - assert (Hv : s32 (getr m s) = getr m s).
    { pose proof (getr_range m s Hok) as Hr. rewrite swrap_unsigned in * by (done || lia).
      unfold in_range in Hr. destruct (getr m s <? _); lia. }
    rewrite Hv in Ea. eapply (jwp_held n l0 _ _ _ _ _ _ _ _ _ _ _ Hst); [in_list| | |].
    + cbn [intp_step]. slot_vals. rewrite Es. unfold shift_ok. rewrite Ea. reflexivity.
    + slot_vals. reflexivity.
    + clear Hst. intros ? ? _ Hst. repeat jit_step. jit_end. rewrite Hv. apply setr_congr.
      by rewrite u32_shiftl_s32 by lia.
  - eapply (jwp_held n l0 _ _ _ _ _ _ _ _ _ _ _ Hst); [in_list| | |].
    + cbn [intp_step]. slot_vals. rewrite Es. unfold shift_ok. rewrite Ea. reflexivity.
    + slot_vals. reflexivity.
    + clear Hst. intros ? ? _ Hst. repeat jit_step. jit_end. done.
Qed.

(** *** Loads relative to PC *)
Lemma pc_align4_aligned pc d : u32 (d * 4 + pc_align4 pc + 4) mod 4 = 0.
Proof.
  unfold wrap. rewrite Z.mod_mod_divide by by exists (2 ^ 30).
  assert (Ha : pc_align4 pc mod 4 = 0).
  { change 4 with (2 ^ 2). rewrite <- Z.land_ones by lia. unfold pc_align4.
    rewrite <- Z.land_assoc. by rewrite Z.land_0_r. }
  Z.to_euclidean_division_equations. lia.
Qed.

Lemma status_map c c' r : reg_map c' = reg_map c -> status c' r = status c r.
Proof. unfold status, residency_of. by intros ->. Qed.

(** the end of a translator that wrote a slot whose status was set before *)
Lemma st_done_known N' N D T H c x s s1 r :
  st N' D T H c x s1 -> status c r = REG_STATUS_SLOT -> N' <= N ->
  (forall q, D q -> q = r) -> s1 = s -> clean N T c x s.
Proof.
  intros Hst Hr HN HD Hs. apply (st_known _ _ _ _ _ _ _ _ Hst) in Hr.
  eapply (st_done _ _ _ [] _ _ _ _ _ _ Hr); [done| |done]. intros q [Hq Hne]. auto.
Qed.

Lemma jit_mova_a_disp_pc_r0_ok pc op inst :
  simulates (sh4_jit_mova_a_disp_pc_r0 pc op inst) (sh4_inst_binary_mova_binind_disp_pc_r0 inst) pc.
Proof.
  jit_start. unfold sh4_inst_binary_mova_binind_disp_pc_r0 in Hf. run_handler Hf.
  unfold sh4_jit_mova_a_disp_pc_r0. pose proof (st_ok _ _ _ _ _ _ _ Hst) as Hok. do 3 jit_step.
  eapply (jwp_held _ _ _ _ _ _ _ _ _ _ _ _ _ Hst); [|reflexivity|reflexivity|]; [in_list|].
  clear Hst. intros ? ? Hm Hst. cbv beta. apply jwp_ret. split; [done|].
  rewrite <- (status_map _ _ _ Hm) in Hslot.
  eapply (st_done_known _ _ _ _ _ _ _ _ _ _ Hst Hslot); [unfold INST_SLOTS; lia|tauto|].
  reg_norm. rewrite Hpc. unfold inst_imm8, pc_align4. rewrite Z.shiftl_mul_pow2 by lia.
  apply setr_congr. change (not32 3) with 0xfffffffc. norm_wrap. f_equal.
  rewrite wrap_small; [done|].
  change 255 with (Z.ones 8). rewrite Z.land_ones by lia.
  pose proof (Z.mod_pos_bound inst (2 ^ 8)). unfold in_range. lia.
Qed.

Lemma jit_movl_a_disp_pc_rn_ok pc op inst :
  simulates (sh4_jit_movl_a_disp_pc_rn pc op inst) (sh4_inst_binary_movl_binind_disp_pc_gen inst) pc.
Proof.
  jit_start. unfold sh4_inst_binary_movl_binind_disp_pc_gen in Hf. apply check_inst_inv in Hf.
  apply bind_inv in Hf as (? & ? & [= <- <-] & Hf).
  apply bind_inv in Hf as (val & s1 & Hr & [= <-]). rewrite Hpc in Hr.
  unfold inst_imm8 in Hr. rewrite Z.shiftl_mul_pow2 in Hr by lia.
  unfold sh4_jit_movl_a_disp_pc_rn. gen_operands inst. pose proof (st_ok _ _ _ _ _ _ _ Hst) as Hok.
  do 3 jit_step.
  destruct (blind_setr_ok _ n v s val s1 (blind_read_32 _) (gen_cached n Hn) Hok Hr) as [Hr' _].
  eapply (jwp_const_32 _ _ _ _ _ _ _ _ _ _ _ _ _ Hst); [in_list|by apply wrap_range
    |apply pc_align4_aligned|exact Hr'|]. clear Hst. intros ? ? Hm' Hst. cbv beta. apply jwp_ret.
  split; [done|]. rewrite <- (status_map _ _ _ Hm') in Hslot.
  eapply (st_done_known _ _ _ _ _ _ _ _ _ _ Hst Hslot); [unfold INST_SLOTS; lia|tauto|].
  rewrite setr_setr. by rewrite setr_s32.
Qed.

Lemma jit_movw_a_disp_pc_rn_ok pc op inst :
  simulates (sh4_jit_movw_a_disp_pc_rn pc op inst) (sh4_inst_binary_movw_binind_disp_pc_gen inst) pc.
Proof.
  jit_start. unfold sh4_inst_binary_movw_binind_disp_pc_gen in Hf. apply check_inst_inv in Hf.
  apply bind_inv in Hf as (? & ? & [= <- <-] & Hf).
  apply bind_inv in Hf as (val & s1 & Hr & [= <-]). rewrite Hpc in Hr.
  unfold inst_imm8 in Hr. rewrite Z.shiftl_mul_pow2 in Hr by lia.
  unfold sh4_jit_movw_a_disp_pc_rn. gen_operands inst. pose proof (st_ok _ _ _ _ _ _ _ Hst) as Hok.
  do 3 jit_step.
  destruct (blind_setr_ok _ n v s val s1 (blind_read_16 _) (gen_cached n Hn) Hok Hr) as [Hr' Hok1].
  eapply (jwp_const_16 _ _ _ _ _ _ _ _ _ _ _ _ _ Hst); [in_list|by apply wrap_range
    | |exact Hr'|].
  { unfold wrap. rewrite Z.mod_mod_divide by by exists (2 ^ 31).
    Z.to_euclidean_division_equations. lia. }
  clear Hst. intros ? ? Hm1 Hst. cbv beta. apply jwp_bind.
  eapply (jwp_held _ _ _ _ _ _ _ _ _ _ _ _ _ Hst); [|reflexivity|slot_vals; reflexivity|];
    [in_list|]. clear Hst. intros ? ? Hm2 Hst. cbv beta. apply jwp_ret. split; [done|].
  rewrite <- (status_map _ _ _ Hm1), <- (status_map _ _ _ Hm2) in Hslot.
  eapply (st_done_known _ _ _ _ _ _ _ _ _ _ Hst Hslot); [unfold INST_SLOTS; lia|tauto|].
  reg_norm. by rewrite s16_u32.
Qed.
End instructions.
