(* ===== verification/Sh4JitFallback.v ===== *)
(** The instructions that the front end does not translate: the block calls the interpreter's
    handler.  Inside a block PC is not up to date, so this is right only for handlers that do
    not look at PC.  [hidden] says that a handler neither sees nor changes what an update of the
    CPU does; [opcode_list_hidden] shows it of every entry of the table that is not relative to
    PC, for updates of PC and of a pending branch. *)
From stdpp Require Import gmap.
From S2P Require Import Prelude IntMath MemoryMap Memory Sh4State Board Sh4Core Sh4Excp Sh4Inst.
From S2P Require Import Sh4InstMem Sh4Decode Sched Sh4Exec JitIL Sh4Jit Sh4JitSim Sh4JitRules.
From S2P Require Import Sh4JitCorrect.
Import memory_map memory intmath.

(** ** Updates of the CPU that a handler does not notice *)
Section hidden.
Context {W : Type} {CFG : BuildConfig} {MCH : Machine W} {HR : HostRam W} {JM : JitMachine W}.
Implicit Types s : Sh4 W.

(** [m] does the same after the update [F] as before, and leaves what [F] changed alone *)
Record hidden {A} (F : Sh4 W -> Sh4 W) (m : M (Sh4 W) A) : Prop := {
  hid_run : forall s, regs_ok s -> m (F s) = res_map F (m s);
  hid_ok : forall a s s', m s = Ok (a, s') -> regs_ok s -> regs_ok s'
}.

(** an update that concerns neither the registers other than PC nor the rest of the machine *)
Record unseen (F : Sh4 W -> Sh4 W) : Prop := {
  un_getr : forall r s, 0 <= r -> r <> SH4_REG_PC -> getr r (F s) = getr r s;
  un_setr : forall r v s, 0 <= r -> r <> SH4_REG_PC -> setr r v (F s) = F (setr r v s);
  un_swap : forall a b n s, (a + n <= b)%nat -> (b + n <= Z.to_nat SH4_REG_PC)%nat -> regs_ok s ->
    swap_regs a b n (F s) = F (swap_regs a b n s);
  un_refresh : forall s, sh4_refresh_intc_deferred (F s) = res_map F (sh4_refresh_intc_deferred s);
  un_fround : forall v s, with_fround v (F s) = F (with_fround v s);
  un_sq : forall s, sq (F s) = sq s;
  un_mem : forall A (m : M (Sh4 W) A), jit_blind m -> hidden F m
}.

Context (F : Sh4 W -> Sh4 W) (HF : unseen F).

Lemma hid_ret {A} (a : A) : hidden F (ret a).
Proof. split; [done|]. by intros ? ? ? [= <- <-]. Qed.
Lemma hid_raise {A} e : hidden F (raise e : M (Sh4 W) A).
Proof. by split. Qed.

Lemma hid_bind {A B} (m : M (Sh4 W) A) (k : A -> M (Sh4 W) B) :
  hidden F m -> (forall a, hidden F (k a)) -> hidden F (bind m k).
Proof.
  intros [Hm Ho] Hk. split.
  - intros s Hs. unfold bind. rewrite Hm by done.
    destruct (m s) as [[a s']|] eqn:E; [|done]. cbn. apply (Hk a); eauto.
  - intros b s s' Hb Hs. apply bind_inv in Hb as (a & s1 & H1 & H2). eapply (Hk a); eauto.
Qed.

Lemma hid_gets {A} (f : Sh4 W -> A) : (forall s, f (F s) = f s) -> hidden F (gets f).
Proof.
  intros Hf. split.
  - intros s _. unfold gets. cbn. by rewrite Hf.
  - by intros a s s' [= _ <-].
Qed.

Lemma hid_modify (f : Sh4 W -> Sh4 W) :
  (forall s, regs_ok s -> f (F s) = F (f s)) -> (forall s, regs_ok s -> regs_ok (f s)) ->
  hidden F (modify f).
Proof.
  intros Hf Hok. split.
  - intros s Hs. unfold modify. cbn. by rewrite Hf.
  - intros a s s' [= _ <-]. auto.
Qed.

Lemma hid_reg_get r : 0 <= r -> r <> SH4_REG_PC -> hidden F (reg_get r).
Proof. intros. apply hid_gets. intros. by apply un_getr. Qed.

Lemma hid_reg_set r v : 0 <= r -> r <> SH4_REG_PC -> hidden F (reg_set r v).
Proof. intros. apply hid_modify; [|intros; by apply setr_ok]. intros s _. by apply un_setr. Qed.

Lemma hid_swap a b n :
  (a + n <= b)%nat -> (b + n <= Z.to_nat SH4_REG_PC)%nat -> hidden F (modify (swap_regs a b n)).
Proof.
  intros Hab Hb. apply hid_modify.
  - intros s Hs. by apply un_swap.
  - intros s Hs. apply swap_regs_ok; [done| |done]. destruct Hs as [-> _].
    unfold SH4_REG_PC, SH4_REGISTER_COUNT in *. lia.
Qed.

(** *** The operations of the core *)
Lemma hid_when b (m : M (Sh4 W) unit) : hidden F m -> hidden F (when b m).
Proof. destruct b; [done|]. intros. apply hid_ret. Qed.

Lemma hid_gen_reg n : 0 <= n < 16 -> hidden F (gen_reg n : M (Sh4 W) Z).
Proof.
  intros. apply hid_reg_get; unfold sh4_gen_reg_idx, SH4_REG_R0, SH4_REG_PC; lia.
Qed.
Lemma hid_set_gen_reg n v : 0 <= n < 16 -> hidden F (set_gen_reg n v : M (Sh4 W) unit).
Proof.
  intros. apply hid_reg_set; unfold sh4_gen_reg_idx, SH4_REG_R0, SH4_REG_PC; lia.
Qed.
Lemma hid_bank_reg n : 0 <= n < 16 -> hidden F (bank_reg n : M (Sh4 W) Z).
Proof.
  intros. apply hid_reg_get; unfold sh4_bank_reg_idx, SH4_REG_R0_BANK, SH4_REG_PC; lia.
Qed.
Lemma hid_set_bank_reg n v : 0 <= n < 16 -> hidden F (set_bank_reg n v : M (Sh4 W) unit).
Proof.
  intros. apply hid_reg_set; unfold sh4_bank_reg_idx, SH4_REG_R0_BANK, SH4_REG_PC; lia.
Qed.

Lemma hid_check inst mask val : hidden F (CHECK_INST inst mask val : M (Sh4 W) unit).
Proof. apply hid_when, hid_raise. Qed.

Lemma hid_privileged : hidden F (check_privileged : M (Sh4 W) unit).
Proof.
  apply hid_bind; [by apply hid_reg_get|]. intros. apply hid_when, hid_raise.
Qed.

Lemma hid_fpu_switch : hidden F (sh4_fpu_bank_switch : M (Sh4 W) unit).
Proof. apply (hid_swap 24 40 16); unfold SH4_REG_PC; lia. Qed.

Lemma hid_refresh : hidden F (sh4_refresh_intc_deferred : M (Sh4 W) unit).
Proof.
  split; [intros s _; by apply un_refresh|]. intros [] s s'. unfold sh4_refresh_intc_deferred.
  destruct (refresh_intc_event_scheduled (intc s)); [by intros [= <-]|].
  destruct (sched_refresh_intc _); [|done]. intros [= <-] []. by split.
Qed.

Lemma hid_sr_change old : hidden F (sh4_on_sr_change old : M (Sh4 W) unit).
Proof.
  apply hid_bind; [by apply hid_reg_get|]. intros new.
  apply hid_bind; [apply hid_when, (hid_swap 0 16 8); unfold SH4_REG_PC; lia|].
  intros _. apply hid_bind; [apply hid_when, hid_refresh|].
  intros _. apply hid_when, hid_raise.
Qed.

Lemma hid_set_fpscr v : hidden F (sh4_set_fpscr v : M (Sh4 W) unit).
Proof.
  apply hid_bind; [by apply hid_reg_get|]. intros old.
  apply hid_bind; [apply hid_when, hid_fpu_switch|]. intros _.
  apply hid_bind; [by apply hid_reg_set|]. intros _.
  apply hid_bind; [by apply hid_reg_get|]. intros cur.
  destruct (truth _); (apply hid_modify; [intros s _; by apply un_fround|by intros s []]).
Qed.

Lemma hid_read a addr : hidden F (memory_map_read a (mem_map : memory_map (Sh4 W)) addr).
Proof. by apply un_mem, jit_blind_read. Qed.
Lemma hid_write a addr v : hidden F (memory_map_write a (mem_map : memory_map (Sh4 W)) addr v).
Proof. by apply un_mem, jit_blind_write. Qed.

Lemma hid_sq_words n : forall k r a i,
  r ∈ regions (mem_map : memory_map (Sh4 W)) -> hidden F (sq_pref_words n k r a i).
Proof.
  induction n as [|n IH]; intros k r a i Hr; cbn [sq_pref_words]; [apply hid_ret|].
  apply hid_bind; [apply hid_gets; intros s; by rewrite un_sq|]. intros v.
  apply hid_bind; [|intros _; by apply IH].
  apply un_mem, jit_blind_call; [done|]. intros g Hg. apply fmap_Some in Hg as (f & Hf & ->).
  by eapply jm_write.
Qed.

Lemma hid_sq_pref addr : hidden F (sh4_sq_pref addr : M (Sh4 W) unit).
Proof.
  unfold sh4_sq_pref. apply hid_bind.
  - apply hid_reg_get; change SH4_SQ_SELECT_MASK with (2 ^ 5); rewrite land_bit by lia;
      by destruct (Z.testbit addr 5).
  - intros q. unfold memory_map_get_region. destruct (find_region _ _ _) as [r|] eqn:E; [|apply hid_raise].
    apply hid_sq_words. by eapply find_region_blind.
Qed.
End hidden.

Lemma swap_setr_pc {W} a b n v (s : Sh4 W) :
  (a + n <= b)%nat -> (b + n <= Z.to_nat SH4_REG_PC)%nat -> regs_ok s ->
  swap_regs a b n (setr SH4_REG_PC v s) = setr SH4_REG_PC v (swap_regs a b n s).
Proof.
  intros Hab Hb Hs.
  assert (Hlen : forall s : Sh4 W, regs_ok s -> (b + n <= length (reg s))%nat).
  { intros s0 [-> _]. unfold SH4_REG_PC, SH4_REGISTER_COUNT in *. lia. }
  pose proof (setr_ok SH4_REG_PC v s Hs) as Hs1.
  pose proof (swap_regs_ok a b n s Hab (Hlen _ Hs) Hs) as Hs2.
  apply jit_regs_ext; [by apply swap_regs_ok; auto|by apply setr_ok|done|].
  intros r Hr. rewrite swap_regs_getr by (auto; by destruct Hr).
  assert (Hsw : forall q, 0 <= q -> 0 <= swap_idx (Z.of_nat a) (Z.of_nat b) (Z.of_nat n) q /\
    (q <> SH4_REG_PC -> swap_idx (Z.of_nat a) (Z.of_nat b) (Z.of_nat n) q <> SH4_REG_PC) /\
    (q = SH4_REG_PC -> swap_idx (Z.of_nat a) (Z.of_nat b) (Z.of_nat n) q = q)).
  { intros q Hq. unfold swap_idx, SH4_REG_PC in *.
    destruct (Z.leb_spec (Z.of_nat a) q), (Z.ltb_spec q (Z.of_nat a + Z.of_nat n)),
      (Z.leb_spec (Z.of_nat b) q), (Z.ltb_spec q (Z.of_nat b + Z.of_nat n)); cbn [andb]; lia. }
  destruct Hr as [Hr0 Hr1]. destruct (Hsw r Hr0) as (H0 & Hne & Heq).
  destruct (Z.eq_dec r SH4_REG_PC) as [->|Hr].
  - rewrite Heq, !getr_setr_eq by done. done.
  - rewrite !getr_setr_ne by first [done | by auto]. rewrite swap_regs_getr; auto.
Qed.

Lemma rn_range inst : 0 <= rn inst < 16.
Proof. unfold rn. change 0xf with (Z.ones 4). rewrite Z.land_ones by lia. by apply Z.mod_pos_bound. Qed.
Lemma rm_range inst : 0 <= rm inst < 16.
Proof. unfold rm. change 0xf with (Z.ones 4). rewrite Z.land_ones by lia. by apply Z.mod_pos_bound. Qed.
Lemma land7_range v : 0 <= Z.land v 7 < 16.
Proof.
  change 7 with (Z.ones 3). rewrite Z.land_ones by lia.
  pose proof (Z.mod_pos_bound v (2 ^ 3)). lia.
Qed.

Ltac blind_side :=
  first [ done | apply rn_range | apply rm_range | apply land7_range | lia
        | match goal with |- context [rn ?i] => pose proof (rn_range i) end;
          unfold SH4_REG_FR0, SH4_REG_PC; lia ].
Ltac solve_hidden :=
  repeat lazymatch goal with
  | |- hidden _ (CHECK_INST _ _ _) => apply hid_check
  | |- hidden _ (gen_reg _) => apply hid_gen_reg; [assumption|blind_side]
  | |- hidden _ (set_gen_reg _ _) => apply hid_set_gen_reg; [assumption|blind_side]
  | |- hidden _ (bank_reg _) => apply hid_bank_reg; [assumption|blind_side]
  | |- hidden _ (set_bank_reg _ _) => apply hid_set_bank_reg; [assumption|blind_side]
  | |- hidden _ (reg_get _) => apply hid_reg_get; [assumption|blind_side..]
  | |- hidden _ (reg_set _ _) => apply hid_reg_set; [assumption|blind_side..]
  | |- hidden _ (memory_map_read _ _ _) => apply hid_read; assumption
  | |- hidden _ (memory_map_write _ _ _ _) => apply hid_write; assumption
  | |- hidden _ (memory_map_write_8 _ _) => apply hid_write; assumption
  | |- hidden _ (memory_map_write_16 _ _) => apply hid_write; assumption
  | |- hidden _ (memory_map_write_32 _ _) => apply hid_write; assumption
  | |- hidden _ (sh4_sq_pref _) => apply hid_sq_pref; assumption
  | |- hidden _ check_privileged => apply hid_privileged; assumption
  | |- hidden _ (sh4_on_sr_change _) => apply hid_sr_change; assumption
  | |- hidden _ (sh4_set_fpscr _) => apply hid_set_fpscr; assumption
  | |- hidden _ sh4_fpu_bank_switch => apply hid_fpu_switch; assumption
  | |- hidden _ (raise _) => apply hid_raise
  | |- hidden _ (ret _) => apply hid_ret
  | |- hidden _ (when _ _) => apply hid_when
  | |- hidden _ (shift_amt _ _) => unfold shift_amt
  | |- hidden _ (match ?e with _ => _ end) => destruct e
  | |- hidden _ _ => apply hid_bind; [|intros ?]
  end.

(** the translators of [Sh4JitCorrect] *)
Create HintDb jit discriminated.
#[export] Hint Extern 0 (simulates (sh4_jit_add_rm_rn _ _ _) _ _) => (apply jit_add_rm_rn_ok) : jit.
#[export] Hint Extern 0 (simulates (sh4_jit_sub_rm_rn _ _ _) _ _) => (apply jit_sub_rm_rn_ok) : jit.
#[export] Hint Extern 0 (simulates (sh4_jit_xor_rm_rn _ _ _) _ _) => (apply jit_xor_rm_rn_ok) : jit.
#[export] Hint Extern 0 (simulates (sh4_jit_and_rm_rn _ _ _) _ _) => (apply jit_and_rm_rn_ok) : jit.
#[export] Hint Extern 0 (simulates (sh4_jit_or_rm_rn _ _ _) _ _) => (apply jit_or_rm_rn_ok) : jit.
#[export] Hint Extern 0 (simulates (sh4_jit_mov_rm_rn _ _ _) _ _) => (apply jit_mov_rm_rn_ok) : jit.
#[export] Hint Extern 0 (simulates (sh4_jit_not_rm_rn _ _ _) _ _) => (apply jit_not_rm_rn_ok) : jit.
#[export] Hint Extern 0 (simulates (sh4_jit_add_imm_rn _ _ _) _ _) => (apply jit_add_imm_rn_ok) : jit.
#[export] Hint Extern 0 (simulates (sh4_jit_or_imm8_r0 _ _ _) _ _) => (apply jit_or_imm8_r0_ok) : jit.
#[export] Hint Extern 0 (simulates (sh4_jit_xor_imm8_r0 _ _ _) _ _) => (apply jit_xor_imm8_r0_ok) : jit.
#[export] Hint Extern 0 (simulates (sh4_jit_clrt _ _ _) _ _) => (apply jit_clrt_ok) : jit.
#[export] Hint Extern 0 (simulates (sh4_jit_sett _ _ _) _ _) => (apply jit_sett_ok) : jit.
#[export] Hint Extern 0 (simulates (sh4_jit_movt _ _ _) _ _) => (apply jit_movt_ok) : jit.
#[export] Hint Extern 0 (simulates (sh4_jit_shll2_rn _ _ _) _ _) => (apply jit_shll2_rn_ok) : jit.
#[export] Hint Extern 0 (simulates (sh4_jit_shll8_rn _ _ _) _ _) => (apply jit_shll8_rn_ok) : jit.
#[export] Hint Extern 0 (simulates (sh4_jit_shll16_rn _ _ _) _ _) => (apply jit_shll16_rn_ok) : jit.
#[export] Hint Extern 0 (simulates (sh4_jit_shlr2_rn _ _ _) _ _) => (apply jit_shlr2_rn_ok) : jit.
#[export] Hint Extern 0 (simulates (sh4_jit_shlr8_rn _ _ _) _ _) => (apply jit_shlr8_rn_ok) : jit.
#[export] Hint Extern 0 (simulates (sh4_jit_shlr16_rn _ _ _) _ _) => (apply jit_shlr16_rn_ok) : jit.
#[export] Hint Extern 0 (simulates (sh4_jit_shar_rn _ _ _) _ _) => (apply jit_shar_rn_ok) : jit.
#[export] Hint Extern 0 (simulates (sh4_jit_shlr_rn _ _ _) _ _) => (apply jit_shlr_rn_ok) : jit.
#[export] Hint Extern 0 (simulates (sh4_jit_shll_rn _ _ _) _ _) => (apply jit_shll_rn_ok) : jit.
#[export] Hint Extern 0 (simulates (sh4_jit_cmphi_rm_rn _ _ _) _ _) => (apply jit_cmphi_rm_rn_ok) : jit.
#[export] Hint Extern 0 (simulates (sh4_jit_cmpgt_rm_rn _ _ _) _ _) => (apply jit_cmpgt_rm_rn_ok) : jit.
#[export] Hint Extern 0 (simulates (sh4_jit_cmpeq_rm_rn _ _ _) _ _) => (apply jit_cmpeq_rm_rn_ok) : jit.
#[export] Hint Extern 0 (simulates (sh4_jit_cmphs_rm_rn _ _ _) _ _) => (apply jit_cmphs_rm_rn_ok) : jit.
#[export] Hint Extern 0 (simulates (sh4_jit_cmpge_rm_rn _ _ _) _ _) => (apply jit_cmpge_rm_rn_ok) : jit.
#[export] Hint Extern 0 (simulates (sh4_jit_cmppl_rn _ _ _) _ _) => (apply jit_cmppl_rn_ok) : jit.
#[export] Hint Extern 0 (simulates (sh4_jit_cmppz_rn _ _ _) _ _) => (apply jit_cmppz_rn_ok) : jit.
#[export] Hint Extern 0 (simulates (sh4_jit_dt_rn _ _ _) _ _) => (apply jit_dt_rn_ok) : jit.
#[export] Hint Extern 0 (simulates (sh4_jit_muluw_rm_rn _ _ _) _ _) => (apply jit_muluw_rm_rn_ok) : jit.
#[export] Hint Extern 0 (simulates (sh4_jit_sts_macl_rn _ _ _) _ _) => (apply jit_sts_macl_rn_ok) : jit.
#[export] Hint Extern 0 (simulates (sh4_inst_binary_andb_imm_r0 _ _ _) _ _) => (apply jit_and_imm8_r0_ok) : jit.
#[export] Hint Extern 0 (simulates (sh4_jit_shal_rn _ _ _) _ _) => (apply jit_shal_rn_ok) : jit.
#[export] Hint Extern 0 (simulates (sh4_jit_mov_imm8_rn _ _ _) _ _) => (apply jit_mov_imm8_rn_ok) : jit.
#[export] Hint Extern 0 (simulates (sh4_jit_swapw_rm_rn _ _ _) _ _) => (apply jit_swapw_rm_rn_ok) : jit.
#[export] Hint Extern 0 (simulates (sh4_jit_tst_imm8_r0 _ _ _) _ _) => (apply jit_tst_imm8_r0_ok) : jit.
#[export] Hint Extern 0 (simulates (sh4_jit_tst_rm_rn _ _ _) _ _) => (apply jit_tst_rm_rn_ok) : jit.
#[export] Hint Extern 0 (simulates (sh4_jit_movl_arm_rn _ _ _) _ _) => (apply jit_movl_arm_rn_ok) : jit.
#[export] Hint Extern 0 (simulates (sh4_jit_movl_rm_arn _ _ _) _ _) => (apply jit_movl_rm_arn_ok) : jit.
#[export] Hint Extern 0 (simulates (sh4_jit_movl_a_disp4_rm_rn _ _ _) _ _) => (apply jit_movl_a_disp4_rm_rn_ok) : jit.
#[export] Hint Extern 0 (simulates (sh4_jit_movl_a_disp8_gbr_r0 _ _ _) _ _) => (apply jit_movl_a_disp8_gbr_r0_ok) : jit.
#[export] Hint Extern 0 (simulates (sh4_jit_movl_armp_rn _ _ _) _ _) => (apply jit_movl_armp_rn_ok) : jit.
#[export] Hint Extern 0 (simulates (sh4_jit_ldsl_armp_pr _ _ _) _ _) => (apply jit_ldsl_armp_pr_ok) : jit.
#[export] Hint Extern 0 (simulates (sh4_jit_shad_rm_rn _ _ _) _ _) => (apply jit_shad_rm_rn_ok) : jit.
#[export] Hint Extern 0 (simulates (sh4_jit_mova_a_disp_pc_r0 _ _ _) _ _) => (apply jit_mova_a_disp_pc_r0_ok) : jit.
#[export] Hint Extern 0 (simulates (sh4_jit_movl_a_disp_pc_rn _ _ _) _ _) => (apply jit_movl_a_disp_pc_rn_ok) : jit.
#[export] Hint Extern 0 (simulates (sh4_jit_movw_a_disp_pc_rn _ _ _) _ _) => (apply jit_movw_a_disp_pc_rn_ok) : jit.

Section fallback.
Context {W : Type} {CFG : BuildConfig} {MCH : Machine W} {HR : HostRam W} {JM : JitMachine W}.
Implicit Types (s : Sh4 W) (op : InstOpcode W).

(** the entries whose handlers are the machine's floating-point operations, and the two handlers
    that use PC: SLEEP, when it raises an exception, and TRAPA, for the debugger *)
Definition fpu_entry (op : InstOpcode W) : bool :=
  (op_val op >=? 0xf000) && negb (existsb (Z.eqb (op_val op)) [0xfbfd; 0xf3fd; 0xf01d; 0xf00d]).
Definition uses_pc (op : InstOpcode W) : bool :=
  existsb (Z.eqb (op_val op)) [0x001b; 0xc300].

(** the handlers that use neither PC nor the floating-point operations notice no such update *)
Definition hidden_entry (op : InstOpcode W) : Prop :=
  pc_relative op = false -> fpu_entry op = false -> uses_pc op = false ->
  forall F inst, unseen F -> hidden F (func op inst).

Lemma opcode_list_hidden : Forall hidden_entry opcode_list.
Proof.
  unfold opcode_list.
  repeat (apply List.Forall_cons; [intros Hr Hfpu Hpc F inst HF; try discriminate; cbn [func] in *|]);
    [..|apply List.Forall_nil].
  all: match goal with |- hidden _ ?l => let h := head_of l in unfold h end.
  all: solve [solve_hidden].
Qed.

Lemma unseen_pc v : unseen (setr SH4_REG_PC v).
Proof.
  split.
  - intros r s Hr Hne. by apply getr_setr_ne.
  - intros r w s Hr Hne. by apply setr_comm.
  - intros. by apply swap_setr_pc.
  - intros s. unfold sh4_refresh_intc_deferred. cbn [intc setr with_reg].
    destruct (refresh_intc_event_scheduled (intc s)); [done|]. cbn [world with_intc with_reg setr].
    by destruct (sched_refresh_intc (world s)).
  - done.
  - done.
  - intros A m [[Hs Hok] _]. split; [|done]. intros s Hr. apply Hs; [by left|done].
Qed.

Lemma unseen_delayed b a : unseen (delayed b a).
Proof.
  split; try done.
  - intros s. unfold sh4_refresh_intc_deferred. cbn [intc delayed with_delayed_branch
      with_delayed_branch_addr].
    destruct (refresh_intc_event_scheduled (intc s)); [done|]. cbn.
    by destruct (sched_refresh_intc (world s)).
  - intros A m [[_ Hok] Hd]. by split.
Qed.

Definition pc_blind {A} (m : M (Sh4 W) A) : Prop := blind_to [SH4_REG_PC] m.

Lemma pc_blind_intro {A} (m : M (Sh4 W) A) :
  (forall v, hidden (setr SH4_REG_PC v) m) -> pc_blind m.
Proof.
  intros Hm. split; [|exact (hid_ok _ _ (Hm 0))]. intros r v s Hr Hs.
  apply elem_of_cons in Hr as [->|Hr]; [by apply (hid_run _ _ (Hm v))|].
  by apply not_elem_of_nil in Hr.
Qed.

(** the call of a handler *)
Lemma jit_fallback_ok pc op inst :
  pc_blind (func op inst) -> simulates (sh4_jit_fallback pc op inst) (func op inst) pc.
Proof.
  intros Hb N T c x s s' Hst HN Hpc Heven Hf. unfold sh4_jit_fallback.
  eapply jwp_flush; [exact Hst|]. intros c1 x1 H1 Hin. apply jwp_bind.
  assert (Hrs : jit_regs c1 [SH4_REG_PC]).
  { split; [|split]; [|by left|by intros r Hr%Hin]. by repeat constructor. }
  destruct (st_blind _ _ _ _ _ _ _ _ _ _ _ H1 Hrs Hb Hf) as (sj & Hj & Hst').
  eapply jwp_push; [cbn [intp_step]; unfold on_cpu; by rewrite Hj|]. apply jwp_ret.
  split; [done|]. apply st_pushed. eapply st_weaken; [exact Hst'|unfold INST_SLOTS; lia|done|done].
Qed.

(** the instructions that a block executes as the interpreter does: no branch, none of the
    handlers above, and not [MOV.L Rn,@-Rn] *)
Definition is_branch (fn : sh4_jit_fn) : bool :=
  match fn with
  | fn_sh4_jit_rts | fn_sh4_jit_rte | fn_sh4_jit_braf_rn | fn_sh4_jit_bsrf_rn | fn_sh4_jit_bf
  | fn_sh4_jit_bfs | fn_sh4_jit_bt | fn_sh4_jit_bts | fn_sh4_jit_bra | fn_sh4_jit_bsr
  | fn_sh4_jit_jmp_arn | fn_sh4_jit_jsr_arn => true
  | _ => false
  end.

Definition jit_exact (op : InstOpcode W) (inst : Z) : bool :=
  negb (is_branch (disas op)) && negb (fpu_entry op) && negb (uses_pc op) &&
  negb ((op_val op =? 0x2006) && (rm inst =? rn inst)).

Lemma fallback_not_relative op :
  In op opcode_list -> disas op = fn_sh4_jit_fallback -> pc_relative op = false.
Proof.
  assert (Hall : forallb (fun op : InstOpcode W =>
    negb (bool_decide (disas op = fn_sh4_jit_fallback)) || negb (pc_relative op)) opcode_list = true)
    by (vm_compute; reflexivity).
  rewrite forallb_forall in Hall. intros Hin Hd. specialize (Hall op Hin).
  rewrite bool_decide_true in Hall by done. by destruct (pc_relative op).
Qed.

Definition simulated_entry (op : InstOpcode W) : Prop :=
  forall delay_slot pc inst, jit_exact op inst = true ->
  simulates (jit_disas delay_slot (disas op) pc op inst) (func op inst) pc.

#[local] Opaque simulates.
Lemma translated_simulated :
  Forall (fun op => disas op <> fn_sh4_jit_fallback -> simulated_entry op) opcode_list.
Proof.
  unfold opcode_list.
  repeat (apply List.Forall_cons; [intros Hd ds pc inst Hex; try discriminate; try done;
    cbn [func disas jit_disas] in *|]); [..|apply List.Forall_nil].
  all: try apply jit_nothing_ok.
  all: try solve [auto with jit nocore].
  apply jit_movl_rm_amrn_ok. unfold jit_exact in Hex. cbn [op_val] in Hex.
  rewrite !andb_true_iff, negb_true_iff in Hex. destruct Hex as [_ Hex].
  intros E. by rewrite E, !Z.eqb_refl in Hex.
Qed.
#[local] Transparent simulates.

Lemma translates (op : InstOpcode W) delay_slot pc inst :
  In op opcode_list -> jit_exact op inst = true ->
  simulates (jit_disas delay_slot (disas op) pc op inst) (func op inst) pc.
Proof.
  intros Hin Hex. destruct (decide (disas op = fn_sh4_jit_fallback)) as [Ed|Hne].
  - rewrite Ed. apply jit_fallback_ok, pc_blind_intro. intros v.
    pose proof opcode_list_hidden as Hh. rewrite List.Forall_forall in Hh. unfold jit_exact in Hex.
    rewrite !andb_true_iff, !negb_true_iff in Hex. destruct Hex as [[[_ Hfpu] Hpc] _].
    apply Hh; [done| |done|done|apply unseen_pc]. by apply fallback_not_relative.
  - pose proof translated_simulated as Hs. rewrite List.Forall_forall in Hs. by apply Hs.
Qed.

(** C4: the JIT translates faithfully every instruction of the opcode table that is [jit_exact].  These are all
    but: the branches (their translation is part of [jit_block_correct]); the floating-point
    entries, 0xf000 and above, whose handlers are parameters of the machine, except FSCHG,
    FRCHG, FLDS and FSTS, which are exact; SLEEP and TRAPA, whose handlers look at PC; and [MOV.L Rn,@-Rn]
    with twice the same register, which is translated wrongly ([jit_predecrement_same]).
    [simulates]: whatever registers are in slots, if ten slots are left (a block has [MAX_SLOTS] of
    them), PC is even, and the interpreter's handler succeeds, then the translation succeeds and
    goes on with the block, and the code it emits takes the slots and the register array to a
    state that represents the CPU after the handler. *)
Theorem jit_translates (op : InstOpcode W) delay_slot pc inst :
  In op opcode_list -> jit_exact op inst = true ->
  simulates (jit_disas delay_slot (disas op) pc op inst) (func op inst) pc.
Proof. apply translates. Qed.
End fallback.
