(* ===== verification/Sh4JitRun.v ===== *)
(** The interpreter's run through the instructions of a block, as [block_run], and what the
    instructions inside a block leave alone. *)
From stdpp Require Import gmap.
From S2P Require Import Prelude IntMath MemoryMap Memory Sh4State Board Sh4Core Sh4Excp Sh4Inst.
From S2P Require Import Sh4InstMem Sh4Decode Sched Sh4Exec JitIL Sh4Jit Sh4JitSim Sh4JitRules.
From S2P Require Import Sh4JitCorrect Sh4JitFallback.
Import memory_map memory intmath.

Section interpreter.
Context {W : Type} {CFG : BuildConfig} {MCH : Machine W}.
Implicit Types s : Sh4 W.

(** one turn of the interpreter's loop without its accounting of cycles *)
Definition interp_step : M (Sh4 W) unit :=
  inst <- sh4_read_inst ;; sh4_do_exec_inst inst (sh4_decode_inst inst).

Fixpoint interp (n : nat) : M (Sh4 W) unit :=
  match n with
  | O => ret tt
  | S n' => interp_step ;; interp n'
  end.

(** the program in memory *)
Context (code : Z -> Z).
Definition fetched s : Prop :=
  sh4_do_read_inst (getr SH4_REG_PC s) s = Ok (code (getr SH4_REG_PC s), s).
Definition not_aborted s : Prop := ENABLE_DEBUGGER && aborted_operation s = false.
Definition inst_at s : Z := code (getr SH4_REG_PC s).
Definition op_at s : InstOpcode W := sh4_decode_inst (inst_at s).
Definition next s : Sh4 W := setr SH4_REG_PC (getr SH4_REG_PC s + 2) s.

(** some entry of the table accepts the opcode *)
Definition known (inst : Z) : bool := existsb (op_matches inst) (@opcode_list W CFG MCH).

(** branches without a delay slot *)
Definition no_slot (fn : sh4_jit_fn) : bool :=
  match fn with fn_sh4_jit_bf | fn_sh4_jit_bt => true | _ => false end.

(** [block_run n s s']: the interpreter executes the [n] instructions of a block from [s] to
    [s'] without an exception, an interrupt or a stop of the debugger *)
Inductive block_run : nat -> Sh4 W -> Sh4 W -> Prop :=
| run_inst n s s1 s' :
    fetched s -> known (inst_at s) = true -> jit_exact (op_at s) (inst_at s) = true ->
    func (op_at s) (inst_at s) s = Ok (tt, s1) -> not_aborted s1 ->
    block_run n (next s1) s' -> block_run (S n) s s'
| run_branch s s1 :
    fetched s -> known (inst_at s) = true -> no_slot (disas (op_at s)) = true ->
    func (op_at s) (inst_at s) s = Ok (tt, s1) -> not_aborted s1 ->
    block_run 1 s (next s1)
| run_delayed s s1 s2 :
    fetched s -> known (inst_at s) = true ->
    is_branch (disas (op_at s)) && negb (no_slot (disas (op_at s))) = true ->
    func (op_at s) (inst_at s) s = Ok (tt, s1) -> not_aborted s1 ->
    fetched (next s1) -> known (inst_at (next s1)) = true ->
    jit_exact (op_at (next s1)) (inst_at (next s1)) = true ->
    pc_relative (op_at (next s1)) = false ->
    func (op_at (next s1)) (inst_at (next s1)) (next s1) = Ok (tt, s2) -> not_aborted s2 ->
    is_irq_pending (intc s2) = false ->
    block_run 2 s
      (if delayed_branch s1
       then with_delayed_branch false (setr SH4_REG_PC (delayed_branch_addr s1) s2)
       else next s2).

Lemma decode_in inst :
  known inst = true -> In (sh4_decode_inst inst : InstOpcode W) opcode_list.
Proof.
  intros He. rewrite sh4_decode_inst_slow_eq. unfold sh4_decode_inst_slow.
  destruct (decode_search_spec opcode_list inst) as [[Hin _]|[_ Hn]]; [done|].
  apply existsb_exists in He as (op & Hin & Hm). rewrite List.Forall_forall in Hn.
  by rewrite (Hn op Hin) in Hm.
Qed.

(** only TRAPA does not advance PC *)
Lemma increments inst :
  op_val (sh4_decode_inst inst : InstOpcode W) <> 0xc300 -> sh4_inst_increments_pc inst = true.
Proof.
  intros Hv. unfold sh4_inst_increments_pc. destruct (Z.eqb_spec (Z.land inst 0xff00) 0xc300) as [E|];
    [|done]. destruct Hv. rewrite sh4_decode_inst_slow_eq. unfold sh4_decode_inst_slow.
  pose proof (trapa_in_table (W := W)) as Ht. apply existsb_exists in Ht as (op & Hin & Hop).
  apply andb_true_iff in Hop as [Hm%Z.eqb_eq Hop%Z.eqb_eq].
  rewrite (decode_search_unique opcode_list inst op); [done|apply opcode_list_disjoint|done|].
  unfold op_matches. rewrite Hm, Hop, Z.land_comm. by apply Z.eqb_eq.
Qed.
End interpreter.

Lemma next_even {W} (s : Sh4 W) : regs_ok s -> getr SH4_REG_PC s mod 2 = 0 -> getr SH4_REG_PC (next s) mod 2 = 0.
Proof.
  intros Hok He. unfold next. rewrite getr_setr_eq by done. unfold wrap.
  rewrite Z.mod_mod_divide by by exists (2 ^ 31). Z.to_euclidean_division_equations. lia.
Qed.

(** ** What an instruction inside a block leaves alone *)
Section frame.
Context {W : Type} {CFG : BuildConfig} {MCH : Machine W} {HR : HostRam W} {JM : JitMachine W}.
Implicit Types (s : Sh4 W) (op : InstOpcode W).

Record framed s s1 : Prop := {
  fr_ok : regs_ok s1;
  fr_pc : getr SH4_REG_PC s1 = getr SH4_REG_PC s;
  fr_delayed : delayed_branch s1 = delayed_branch s;
  fr_addr : delayed_branch_addr s1 = delayed_branch_addr s
}.

Lemma hidden_delayed {A} (m : M (Sh4 W) A) a s s1 :
  (forall b d, hidden (delayed b d) m) -> regs_ok s -> m s = Ok (a, s1) ->
  delayed_branch s1 = delayed_branch s /\ delayed_branch_addr s1 = delayed_branch_addr s.
Proof.
  intros Hh Hok Hm. pose proof (hid_run _ _ (Hh (delayed_branch s) (delayed_branch_addr s)) s Hok) as Hr.
  replace (delayed (delayed_branch s) (delayed_branch_addr s) s) with s in Hr by by destruct s.
  rewrite Hm in Hr. cbn [res_map] in Hr. injection Hr as ->. done.
Qed.

Lemma jit_blind_framed {A} (m : M (Sh4 W) A) a s s1 :
  jit_blind m -> regs_ok s -> m s = Ok (a, s1) -> framed s s1.
Proof.
  intros Hb Hok Hm.
  destruct (hidden_delayed m a s s1) as [Hd Ha];
    [intros; by apply un_mem, Hb; apply unseen_delayed|done|done|].
  destruct Hb as [Hr _]. split; [by eapply (blind_ok _ _ Hr)| |done|done].
  by eapply blind_keeps; [exact Hr|by left| |exact Hok|exact Hm].
Qed.

Lemma framed_setr r v s s1 : 0 <= r -> r <> SH4_REG_PC -> framed s s1 -> framed s (setr r v s1).
Proof.
  intros Hr Hne [Hok Hpc Hd Ha]. split; [by apply setr_ok| |done|done].
  by rewrite getr_setr_ne.
Qed.

(** the loads relative to PC *)
Definition pcrel_framed op : Prop :=
  pc_relative op = true -> is_branch (disas op) = false ->
  forall inst s s1, regs_ok s -> func op inst s = Ok (tt, s1) -> framed s s1.

Lemma opcode_list_pcrel : Forall pcrel_framed opcode_list.
Proof.
  unfold opcode_list.
  repeat (apply List.Forall_cons; [intros Hr Hb inst s s1 Hok Hf; try discriminate|]);
    [..|apply List.Forall_nil]; cbn [func] in Hf.
  1, 2: match type of Hf with ?l _ = _ => let h := head_of l in unfold h in Hf end;
    apply check_inst_inv in Hf; apply bind_inv in Hf as (? & ? & [= <- <-] & Hf);
    apply bind_inv in Hf as (val & s2 & Hm & [= <-]); apply framed_setr;
    [apply gen_idx_range|pose proof (gen_idx_range inst); unfold SH4_REG_PC; lia|];
    apply bind_inv in Hm as (? & ? & Hm & [= _ <-]);
    by eapply jit_blind_framed; [apply jit_blind_read| |exact Hm].
  unfold sh4_inst_binary_mova_binind_disp_pc_r0 in Hf. run_handler Hf. by apply framed_setr.
Qed.

Lemma exact_framed op inst s s1 :
  In op opcode_list -> jit_exact op inst = true -> regs_ok s -> func op inst s = Ok (tt, s1) ->
  framed s s1.
Proof.
  intros Hin Hex Hok Hf. unfold jit_exact in Hex. rewrite !andb_true_iff, !negb_true_iff in Hex.
  destruct Hex as [[[Hb Hfpu] Hpc] _]. destruct (pc_relative op) eqn:Er.
  - pose proof opcode_list_pcrel as Hp. rewrite List.Forall_forall in Hp. by eapply Hp.
  - pose proof opcode_list_hidden as Hh. rewrite List.Forall_forall in Hh.
    assert (Hall : forall F, unseen F -> hidden F (func op inst)) by (intros; by apply Hh).
    destruct (hidden_delayed (func op inst) tt s s1) as [Hd Ha];
      [intros; apply Hall, unseen_delayed|done|done|].
    pose proof (pc_blind_intro _ (fun v => Hall _ (unseen_pc v))) as Hpb.
    split; [by eapply (blind_ok _ _ Hpb)| |done|done].
    by eapply blind_keeps; [exact Hpb|by left| |exact Hok|exact Hf].
Qed.

(** an instruction in a delay slot, seen without the pending branch *)
Lemma exact_undelayed op inst b a s s1 :
  In op opcode_list -> jit_exact op inst = true -> pc_relative op = false -> regs_ok s ->
  func op inst (delayed b a s) = Ok (tt, s1) ->
  exists s2, func op inst s = Ok (tt, s2) /\ s1 = delayed b a s2.
Proof.
  intros Hin Hex Hr Hok Hf. unfold jit_exact in Hex. rewrite !andb_true_iff, !negb_true_iff in Hex.
  destruct Hex as [[[Hb Hfpu] Hpc] _].
  pose proof opcode_list_hidden as Hh. rewrite List.Forall_forall in Hh.
  rewrite (hid_run _ _ (Hh op Hin Hr Hfpu Hpc _ inst (unseen_delayed b a)) s Hok) in Hf.
  destruct (func op inst s) as [[[] s2]|]; [|done]. injection Hf as <-. eauto.
Qed.

(** *** The handlers of the branches *)
Definition branch_handler (fn : sh4_jit_fn) : option (Z -> M (Sh4 W) unit) :=
  match fn with
  | fn_sh4_jit_rts => Some sh4_inst_rts
  | fn_sh4_jit_rte => Some sh4_inst_rte
  | fn_sh4_jit_braf_rn => Some sh4_inst_unary_braf_gen
  | fn_sh4_jit_bsrf_rn => Some sh4_inst_unary_bsrf_gen
  | fn_sh4_jit_bf => Some sh4_inst_unary_bf_disp
  | fn_sh4_jit_bfs => Some sh4_inst_unary_bfs_disp
  | fn_sh4_jit_bt => Some sh4_inst_unary_bt_disp
  | fn_sh4_jit_bts => Some sh4_inst_unary_bts_disp
  | fn_sh4_jit_bra => Some sh4_inst_unary_bra_disp
  | fn_sh4_jit_bsr => Some sh4_inst_unary_bsr_disp
  | fn_sh4_jit_jmp_arn => Some sh4_inst_unary_jmp_indgen
  | fn_sh4_jit_jsr_arn => Some sh4_inst_unary_jsr_indgen
  | _ => None
  end.

Lemma branch_handlers :
  Forall (fun op => forall h, branch_handler (disas op) = Some h -> func op = h) opcode_list.
Proof.
  unfold opcode_list.
  repeat (apply List.Forall_cons; [intros h Hh; first [discriminate | by injection Hh as <-]|]).
  apply List.Forall_nil.
Qed.

Lemma branch_func op h :
  In op opcode_list -> branch_handler (disas op) = Some h -> func op = h.
Proof. pose proof branch_handlers as Hb. rewrite List.Forall_forall in Hb. auto. Qed.

Lemma branch_val :
  forallb (fun op => negb (is_branch (disas op)) || negb (op_val op =? 0xc300))
    (@opcode_list W CFG MCH) = true.
Proof. vm_compute. reflexivity. Qed.

(** *** The interpreter *)
Context (code : Z -> Z).

Lemma interp_inst s s1 :
  fetched code s -> delayed_branch s = false -> op_val (op_at code s) <> 0xc300 ->
  func (op_at code s) (inst_at code s) s = Ok (tt, s1) -> not_aborted s1 ->
  interp_step s = Ok (tt, next s1).
Proof.
  intros Hfe Hd Hv Hf Ha. unfold interp_step, sh4_read_inst. erewrite bind_ok.
  2: { erewrite bind_ok by done. exact Hfe. }
  etransitivity; [apply (exec_eq _ _ s s1); [by rewrite Hd|exact Hf|exact Ha]|].
  rewrite Hd. unfold advanced. by rewrite increments.
Qed.

Lemma exact_not_trapa op inst : jit_exact op inst = true -> op_val op <> 0xc300.
Proof.
  unfold jit_exact, uses_pc. intros Hex E. rewrite E in Hex. cbn in Hex.
  by rewrite andb_false_r in Hex.
Qed.

Lemma branch_not_trapa op : In op opcode_list -> is_branch (disas op) = true -> op_val op <> 0xc300.
Proof.
  intros Hin Hb E. pose proof branch_val as Hv. rewrite forallb_forall in Hv.
  specialize (Hv op Hin). by rewrite Hb, E in Hv.
Qed.

(** [block_run] is a run of the interpreter *)
Lemma block_run_interp n s s' :
  block_run code n s s' -> regs_ok s -> delayed_branch s = false -> interp n s = Ok (tt, s').
Proof.
  induction 1 as [n s s1 s' Hfe Hk Hex Hf Ha Hrun IH|s s1 Hfe Hk Hns Hf Ha
    |s s1 s2 Hfe Hk Hbr Hf Ha Hfe2 Hk2 Hex2 Hr2 Hf2 Ha2 Hirq]; intros Hok Hd; cbn [interp].
  - apply decode_in in Hk. destruct (exact_framed _ _ _ _ Hk Hex Hok Hf) as [Hok1 Hpc Hd1 _].
    erewrite bind_ok by (eapply interp_inst; eauto using exact_not_trapa).
    apply IH; [by apply setr_ok|]. cbn. by rewrite Hd1.
  - apply decode_in in Hk. erewrite bind_ok; [done|].
    eapply interp_inst; eauto. apply branch_not_trapa; [done|]. by destruct (disas _).
  - apply decode_in in Hk. apply andb_true_iff in Hbr as [Hbr _].
    erewrite bind_ok by (eapply interp_inst; eauto using branch_not_trapa).
    destruct (delayed_branch s1) eqn:Ed1.
    + assert (Hpr : delayed_branch (next s1) && pc_relative (op_at code (next s1)) = false)
        by (rewrite Hr2; apply andb_false_r).
      erewrite bind_ok; [done|]. unfold interp_step, sh4_read_inst. erewrite bind_ok.
      2: { erewrite bind_ok by done. exact Hfe2. }
      etransitivity; [apply (exec_eq _ _ (next s1) s2); [exact Hpr|exact Hf2|exact Ha2]|].
      cbn [next delayed_branch setr with_reg]. rewrite Ed1.
      unfold sh4_check_interrupts_no_delay_branch_check. erewrite bind_ok by done.
      cbn [intc with_delayed_branch setr with_reg]. by rewrite Hirq.
    + erewrite bind_ok by (eapply interp_inst; eauto using exact_not_trapa). done.
Qed.
End frame.
