(* ===== verification/Sh4JitBlock.v ===== *)
(** Whole blocks: branches end a block with a jump to the address where the interpreter goes
    on, and what a compiled block does when the back end runs it is what the interpreter does
    instruction by instruction. *)
From stdpp Require Import gmap.
From S2P Require Import Prelude IntMath MemoryMap Memory Sh4State Board Sh4Core Sh4Excp Sh4Inst.
From S2P Require Import Sh4InstMem Sh4Decode Sched Sh4Exec JitIL Sh4Jit Sh4JitSim Sh4JitRules.
From S2P Require Import Sh4JitCorrect Sh4JitFallback Sh4JitRun.
Import memory_map memory intmath.

Section blocks.
Context {W : Type} {CFG : BuildConfig} {MCH : Machine W} {HR : HostRam W} {JM : JitMachine W}.
Implicit Types (s : Sh4 W) (c : jit_compile W) (x : slots * Sh4 W) (op : InstOpcode W).

(** the accounting of cycles *)
Definition cycles c : sh4_inst_group * Z := (jc_last_inst_type c, jc_cycle_count c).
Definition add_cycles op (k : sh4_inst_group * Z) : sh4_inst_group * Z :=
  let '(n, last) := sh4_count_inst_cycles op (fst k) in (last, u32 (snd k + n)).

(** the CPU from which the program is read *)
Context (s0 : Sh4 W).

(** [m] ends the block: the code it appends returns a PC *)
Definition jfin (m : M (jit_compile W) bool) (g : sh4_inst_group * Z -> sh4_inst_group * Z)
    (Q : Z -> Sh4 W -> Prop) c x : Prop :=
  jc_sh4 c = s0 -> exists c' code pc x',
    m c = Ok (false, c') /\ inst_list (jc_block c') = inst_list (jc_block c) ++ code /\
    jc_sh4 c' = s0 /\ cycles c' = g (cycles c) /\
    code_block_intp_exec code x = Ok (pc, x') /\ Q pc (snd x').

Lemma jfin_seq {A} (m : M (jit_compile W) A) k g g' Q c x a c1 x1 :
  cexec m c x a c1 x1 -> (jc_sh4 c = s0 -> jc_sh4 c1 = s0 /\ g (cycles c1) = g' (cycles c)) ->
  jfin (k a) g Q c1 x1 -> jfin (bind m k) g' Q c x.
Proof.
  intros (Hm & code1 & Hi & Hr) Hc Hk H0. destruct (Hc H0) as [H1 Hg].
  destruct (Hk H1) as (c2 & code2 & pc & x2 & Hm2 & Hi2 & H2 & Hg2 & Hx & HQ).
  exists c2, (code1 ++ code2), pc, x2. split; [by erewrite bind_ok|].
  split; [by rewrite Hi2, Hi, app_assoc|]. split; [done|]. split; [congruence|].
  split; [|done]. by rewrite (intp_exec_app _ _ _ _ Hr).
Qed.

Lemma jfin_bind {A} (m : M (jit_compile W) A) k g Q c x :
  jwp m (fun a c1 x1 => jfin (k a) g Q c1 x1) c x -> jfin (bind m k) g Q c x.
Proof.
  intros (a & c1 & x1 & Hm & (E1 & E2 & E3) & Hk). eapply jfin_seq; [exact Hm| |exact Hk].
  intros H0. split; [congruence|]. unfold cycles. by rewrite E2, E3.
Qed.

(** *** The ends of blocks *)

(** everything is written back; only PC is not up to date *)
Record at_end s (sj : Sh4 W) : Prop := {
  end_ok : regs_ok sj;
  end_regs : forall v, setr SH4_REG_PC v sj = setr SH4_REG_PC v s
}.

Lemma drained_end N D T H c x s :
  st N D T H c x s -> (forall q, ~ D q) -> (forall q, status c q <> REG_STATUS_SLOT) ->
  at_end s (snd x).
Proof.
  intros [] HD Hq. split; [done|]. intros v. apply jit_regs_ext; [by apply setr_ok..|done|]. intros r Hr.
  destruct (Z.eq_dec r SH4_REG_PC) as [->|Hne]; [by rewrite !getr_setr_eq|].
  destruct Hr as [Hr0 Hr1]. rewrite !getr_setr_ne by done.
  destruct (status c r) eqn:E; [by apply st_mem|by apply st_sync; auto|by destruct (Hq r)].
Qed.

(** the rest of a block after the jump is not reached *)
Lemma jfin_end (m : M (jit_compile W) bool) code rest c c' x pc (Q : Z -> Sh4 W -> Prop) :
  m c = Ok (false, c') -> inst_list (jc_block c') = inst_list (jc_block c) ++ code ++ rest ->
  jc_sh4 c' = jc_sh4 c -> cycles c' = cycles c ->
  code_block_intp_exec (code ++ rest) x = Ok (pc, x) -> Q pc (snd x) -> jfin m (fun k => k) Q c x.
Proof. intros Hm Hi E Hc Hx HQ H0. do 4 eexists. split_and!; [done..|congruence|done|done|done]. Qed.

Lemma jfin_end_jump N D T H c x s slot target Q :
  st N D T H c x s -> (forall q, ~ D q) -> (slot, target) ∈ T ->
  (forall sj, at_end s sj -> Q target sj) ->
  jfin (jit_end_jump slot) (fun k => k) Q c x.
Proof.
  intros Hst HD Ht HQ. unfold jit_end_jump. apply jfin_bind.
  eapply jwp_drain_all; [exact Hst|]. intros c1 x1 H1 Hn.
  eapply (jfin_end _ [JIT_OP_JUMP slot] [JIT_OP_DISCARD_SLOT slot]); try reflexivity.
  - cbn. by rewrite <- app_assoc.
  - rewrite (st_temp_val _ _ _ _ _ _ _ _ _ H1 Ht). apply HQ. by eapply drained_end.
Qed.

Lemma jfin_end_cond N D T H c x s slot v jump alt t Q :
  st N D T H c x s -> (forall q, ~ D q) -> (slot, v) ∈ T -> N + 4 <= MAX_SLOTS ->
  (forall sj, at_end s sj -> Q (u32 (if Z.land v 1 =? t then jump else alt)) sj) ->
  jfin (jit_end_cond slot jump alt t) (fun k => k) Q c x.
Proof.
  intros Hst HD Ht HN HQ. unfold jit_end_cond. apply jfin_bind.
  eapply jwp_drain_all; [exact Hst|]. clear Hst. intros c1 x1 H1 Hn.
  pose proof (st_n _ _ _ _ _ _ _ H1) as Hn1.
  apply jfin_bind, jwp_alloc_slot; [lia|]. intros c2 M2 N2. pose proof (st_fresh _ _ _ _ _ _ _ _ H1 M2 N2) as H2.
  apply jfin_bind, jwp_alloc_slot; [lia|]. intros c3 M3 N3. pose proof (st_fresh _ _ _ _ _ _ _ _ H2 M3 N3) as H3.
  clear H1 H2. set (t1 := n_slots (jc_block c1)) in *. set (t2 := n_slots (jc_block c2)) in *.
  apply jfin_bind. eapply (jwp_temp [_] _ _ _ _ _ _ _ _ _ _ _ _ _ H3); [reflexivity|reflexivity|].
  clear H3. intros c4 x4 M4 H4. cbn [app] in H4.
  apply jfin_bind. eapply (jwp_temp [] _ _ _ _ _ _ _ _ _ _ _ _ _ H4); [reflexivity|reflexivity|].
  clear H4. intros c5 x5 M5 H5. cbn [app] in H5.
  assert (Hend : at_end s (snd x5)).
  { apply (drained_end _ _ _ _ _ _ _ H5 HD). intros q. by rewrite (status_map _ _ q M5),
      (status_map _ _ q M4), (status_map _ _ q M3), (status_map _ _ q M2). }
  eapply (jfin_end _ [JIT_JUMP_COND slot t1 t2 t] [JIT_OP_DISCARD_SLOT t2; JIT_OP_DISCARD_SLOT t1;
    JIT_OP_DISCARD_SLOT slot] _ _ _ (u32 (if Z.land v 1 =? t then jump else alt))); try reflexivity.
  - cbn. by rewrite <- !app_assoc.
  - cbn [app code_block_intp_exec]. unfold bind. cbn [intp_step].
    assert (Hv : slot_get slot (fst x5) = v)
      by (apply (st_temp_val _ _ _ _ _ _ _ _ _ H5); do 2 apply list_elem_of_further; done).
    rewrite Hv, (st_temp_val _ _ _ _ _ _ _ t1 _ H5), (st_temp_val _ _ _ _ _ _ _ t2 _ H5) by in_list.
    rewrite !wrap_wrap by lia. by destruct (Z.land v 1 =? t).
  - by apply HQ.
Qed.

(** *** Delay slots *)
Lemma read_inst_eq pc inst c :
  jc_sh4 c = s0 -> sh4_do_read_inst pc s0 = Ok (inst, s0) -> jit_read_inst pc c = Ok (inst, c).
Proof. intros H0 Hr. unfold jit_read_inst. rewrite H0, Hr, <- H0. by destruct c. Qed.

(** one instruction of the block, without the accounting *)
Lemma translate_cexec N T c x s s' op delay_slot inst :
  clean N T c x s -> N + INST_SLOTS <= MAX_SLOTS -> getr SH4_REG_PC s mod 2 = 0 ->
  In op opcode_list -> jit_exact op inst = true -> func op inst s = Ok (tt, s') ->
  exists c' x', cexec (jit_disas delay_slot (disas op) (getr SH4_REG_PC s) op inst) c x true c' x' /\
    same_ctx c c' /\ clean (N + INST_SLOTS) T c' x' s'.
Proof.
  intros Hst HN Hev Hin Hex Hf.
  destruct (translates op delay_slot (getr SH4_REG_PC s) inst Hin Hex N T c x s s' Hst HN eq_refl Hev Hf)
    as (b & c' & x' & Hc & Hs & -> & Hst'). eauto.
Qed.

Lemma jfin_delay k N T c x s s' inst g Q :
  clean N T c x s -> N + INST_SLOTS <= MAX_SLOTS -> getr SH4_REG_PC s mod 2 = 0 ->
  sh4_do_read_inst (getr SH4_REG_PC s) s0 = Ok (inst, s0) ->
  In (sh4_decode_inst inst : InstOpcode W) opcode_list ->
  jit_exact (sh4_decode_inst inst : InstOpcode W) inst = true ->
  pc_relative (sh4_decode_inst inst : InstOpcode W) = false ->
  func (sh4_decode_inst inst) inst s = Ok (tt, s') ->
  (forall c' x', clean (N + INST_SLOTS) T c' x' s' -> jfin k g Q c' x') ->
  jfin (sh4_jit_delay_slot slot_fuel (getr SH4_REG_PC s) ;; k)
    (fun n => g (add_cycles (sh4_decode_inst inst) n)) Q c x.
Proof.
  intros Hst HN Hev Hr Hin Hex Hp Hf HQ H0.
  destruct (translate_cexec N T c x s s' _ (sh4_jit_delay_slot 0) inst Hst HN Hev Hin Hex Hf)
    as (c1 & x1 & (Hm & code & Hi & Hx) & (E1 & E2 & E3) & H1).
  set (op := sh4_decode_inst inst) in *.
  destruct (jit_count_cycles op c1) as [[[] c2]|] eqn:E; [|by unfold jit_count_cycles, modify in E].
  assert (Hc2 : jc_sh4 c2 = s0 /\ cycles c2 = add_cycles op (cycles c) /\
                reg_map c2 = reg_map c1 /\ jc_block c2 = jc_block c1).
  { unfold jit_count_cycles, modify in E. injection E as <-. unfold cycles, add_cycles.
    cbn [fst snd]. rewrite E2, E3. destruct (sh4_count_inst_cycles op (jc_last_inst_type c)).
    split_and!; cbn; congruence. }
  destruct Hc2 as (E4 & E5 & E6 & E7).
  assert (Hgo : jfin (sh4_jit_delay_slot slot_fuel (getr SH4_REG_PC s) ;; k)
    (fun n => g (add_cycles op n)) Q c x); [|exact (Hgo H0)]. eapply (jfin_seq _ _ g _ Q c x tt c2 x1); [| |apply HQ].
  - split; [|exists code; split; [by rewrite E7|done]].
    unfold slot_fuel. cbn [sh4_jit_delay_slot].
    erewrite bind_ok by by apply read_inst_eq. fold op. rewrite Hp.
    erewrite bind_ok by exact Hm. exact E.
  - intros _. split; [done|]. by rewrite E5.
  - eapply (st_block _ _ _ _ c1); [done|by rewrite E7|done].
Qed.

(** *** Delayed branches *)
Context (code : Z -> Z).

(** the instruction in the delay slot, read at compile time and executed by the interpreter *)
Definition slot_run s1 s2 : Prop :=
  sh4_do_read_inst (getr SH4_REG_PC (next s1)) s0 = Ok (inst_at code (next s1), s0) /\
  In (op_at code (next s1)) opcode_list /\
  jit_exact (op_at code (next s1)) (inst_at code (next s1)) = true /\
  pc_relative (op_at code (next s1)) = false /\
  func (op_at code (next s1)) (inst_at code (next s1)) (next s1) = Ok (tt, s2).

(** the CPU after a branch and its slot *)
Definition finish s1 s2 : Sh4 W :=
  if delayed_branch s1
  then with_delayed_branch false (setr SH4_REG_PC (delayed_branch_addr s1) s2)
  else next s2.

(** the block ends where the interpreter is; a block does not set [delayed_branch_addr] *)
Definition ended s s' (pc : Z) (sj : Sh4 W) : Prop :=
  pc = getr SH4_REG_PC s' /\
  setr SH4_REG_PC pc sj = with_delayed_branch_addr (delayed_branch_addr s) s' /\ regs_ok sj.

Lemma ended_jump s sJ s3 target sj :
  regs_ok s3 -> in_range 32 target -> framed (next sJ) s3 -> delayed_branch sJ = false ->
  delayed_branch_addr sJ = delayed_branch_addr s -> at_end s3 sj ->
  ended s (finish (delayed true target sJ) (delayed true target s3)) target sj.
Proof.
  intros Hok Ht [_ _ Hd Ha] HdJ HaJ Hend. unfold ended, finish.
  change (delayed_branch (delayed true target sJ)) with true. cbv iota.
  change (delayed_branch_addr (delayed true target sJ)) with target.
  change (delayed_branch (next sJ)) with (delayed_branch sJ) in Hd.
  change (delayed_branch_addr (next sJ)) with (delayed_branch_addr sJ) in Ha. split; [|split; [|by destruct Hend]].
  - change (target = getr SH4_REG_PC (setr SH4_REG_PC target s3)). rewrite getr_setr_eq by done.
    by rewrite wrap_small.
  - rewrite (end_regs _ _ Hend target). rewrite <- HaJ, <- Ha. rewrite HdJ in Hd. destruct s3. cbn in *. by subst.
Qed.

Lemma jump_tail (k : M (jit_compile W) bool) N D T H c x s sJ target s1 s2 :
  st N D T H c x sJ -> (forall q, ~ D q) -> in_range 32 target ->
  (forall c' x' s3 (Q : Z -> Sh4 W -> Prop), clean (N + INST_SLOTS) T c' x' s3 ->
     (forall sj, at_end s3 sj -> Q target sj) -> jfin k (fun n => n) Q c' x') ->
  N + INST_SLOTS <= MAX_SLOTS -> getr SH4_REG_PC sJ mod 2 = 0 -> delayed_branch sJ = false ->
  delayed_branch_addr sJ = delayed_branch_addr s -> s1 = delayed true target sJ ->
  slot_run s1 s2 ->
  jfin (sh4_jit_delay_slot slot_fuel (u32 (getr SH4_REG_PC sJ + 2)) ;; k)
    (add_cycles (op_at code (next s1))) (ended s (finish s1 s2)) c x.
Proof.
  intros Hst HD Hr Hk HN Hev Hd Ha -> (Hread & Hin & Hex & Hp & Hf).
  pose proof (st_ok _ _ _ _ _ _ _ Hst) as Hok.
  assert (Hokn : regs_ok (next sJ)) by by apply setr_ok.
  destruct (exact_undelayed _ _ true target (next sJ) s2 Hin Hex Hp Hokn Hf) as (s3 & Hf3 & ->).
  pose proof (exact_framed _ _ _ _ Hin Hex Hokn Hf3) as Hfr.
  assert (Epc : u32 (getr SH4_REG_PC sJ + 2) = getr SH4_REG_PC (next sJ))
    by (unfold next; by rewrite getr_setr_eq).
  rewrite Epc. assert (Hcl : clean N T c x (next sJ)).
  { eapply (st_done _ _ _ [] _ _ _ _ _ _ (st_pc _ _ _ _ _ _ _ _ Hst)); [lia|done|done]. }
  eapply (jfin_delay _ N T c x (next sJ) s3 (inst_at code (next sJ)) (fun n => n));
    [done|done|by apply next_even|exact Hread|exact Hin|exact Hex|exact Hp|exact Hf3|].
  intros c' x' Hst'. apply (Hk _ _ s3); [done|]. intros sj Hsj. apply ended_jump; try done. by destruct Hfr.
Qed.

Lemma slot_jump N D T H c x s sJ target s1 s2 slot :
  st N D T H c x sJ -> (forall q, ~ D q) -> (slot, target) ∈ T -> in_range 32 target ->
  N + INST_SLOTS <= MAX_SLOTS -> getr SH4_REG_PC sJ mod 2 = 0 -> delayed_branch sJ = false ->
  delayed_branch_addr sJ = delayed_branch_addr s -> s1 = delayed true target sJ ->
  slot_run s1 s2 ->
  jfin (sh4_jit_delay_slot slot_fuel (u32 (getr SH4_REG_PC sJ + 2)) ;; jit_end_jump slot)
    (add_cycles (op_at code (next s1))) (ended s (finish s1 s2)) c x.
Proof.
  intros Hst HD Ht. intros. eapply jump_tail; [exact Hst|done|done| |done..].
  intros c' x' s3 Q Hst' HQ. eapply jfin_end_jump; [exact Hst'|by intros ? []|exact Ht|done].
Qed.

(** the end of BRA and BSR *)
Lemma jfin_end_const N T c x s target Q :
  clean N T c x s -> N < MAX_SLOTS -> (forall sj, at_end s sj -> Q (u32 target) sj) ->
  jfin (res_drain_all_regs ;; addr_slot <- jit_alloc_slot ;;
        emit (jit_set_slot addr_slot target) ;; emit (jit_jump addr_slot) ;;
        emit (free_slot addr_slot) ;; emit (jit_discard_slot addr_slot) ;; ret false)
    (fun n => n) Q c x.
Proof.
  intros Hst HN HQ. apply jfin_bind. eapply jwp_drain_all; [exact Hst|]. intros c1 x1 H1 Hn.
  pose proof (st_n _ _ _ _ _ _ _ H1) as Hn1.
  apply jfin_bind, jwp_alloc_slot; [lia|]. intros c2 M2 N2.
  pose proof (st_fresh _ _ _ _ _ _ _ _ H1 M2 N2) as H2. set (t1 := n_slots (jc_block c1)) in *.
  apply jfin_bind. eapply (jwp_temp [] _ _ _ _ _ _ _ _ _ _ _ _ _ H2); [reflexivity|reflexivity|].
  intros c3 x3 M3 H3. cbn [app] in H3.
  eapply (jfin_end _ [JIT_OP_JUMP t1] [JIT_OP_DISCARD_SLOT t1]); try reflexivity.
  - cbn. by rewrite <- app_assoc.
  - rewrite (st_temp_val _ _ _ _ _ _ _ t1 _ H3) by in_list. rewrite wrap_wrap by lia. apply HQ.
    apply (drained_end _ _ _ _ _ _ _ H3); [by intros ? []|]. intros q.
    by rewrite (status_map _ _ q M3), (status_map _ _ q M2).
Qed.

(** a conditional branch; [v] is SR, kept in [slot] *)
Lemma slot_cond N D T H c x s (taken : bool) v jump alt t s1 s2 slot :
  st N D T H c x s -> (forall q, ~ D q) -> (slot, v) ∈ T -> N + INST_SLOTS + 4 <= MAX_SLOTS ->
  getr SH4_REG_PC s mod 2 = 0 -> delayed_branch s = false ->
  (Z.land v 1 =? t) = taken -> u32 alt = u32 (getr SH4_REG_PC s + 4) ->
  s1 = (if taken then delayed true (u32 jump) s else s) -> slot_run s1 s2 ->
  jfin (sh4_jit_delay_slot slot_fuel (u32 (getr SH4_REG_PC s + 2)) ;; jit_end_cond slot jump alt t)
    (add_cycles (op_at code (next s1))) (ended s (finish s1 s2)) c x.
Proof.
  intros Hst HD Ht HN Hev Hd Htk Halt Hs1 Hslot. destruct taken.
  - eapply (jump_tail _ _ _ _ _ _ _ s s (u32 jump)); [exact Hst|done|by apply wrap_range| |lia|done..].
    intros c' x' s3 Q Hst' HQ.
    eapply jfin_end_cond; [exact Hst'|by intros ? []|exact Ht|lia|]. by rewrite Htk.
  - subst s1. destruct Hslot as (Hread & Hin & Hex & Hp & Hf).
    pose proof (st_ok _ _ _ _ _ _ _ Hst) as Hok.
    assert (Hokn : regs_ok (next s)) by by apply setr_ok.
    pose proof (exact_framed _ _ _ _ Hin Hex Hokn Hf) as [Hok2 Hpc _ Ha].
    assert (Epc : u32 (getr SH4_REG_PC s + 2) = getr SH4_REG_PC (next s))
      by (unfold next; by rewrite getr_setr_eq).
    rewrite Epc. assert (Hcl : clean N T c x (next s)).
    { eapply (st_done _ _ _ [] _ _ _ _ _ _ (st_pc _ _ _ _ _ _ _ _ Hst)); [lia|done|done]. }
    eapply (jfin_delay _ N T c x (next s) s2 (inst_at code (next s)) (fun n => n));
      [done|lia|by apply next_even|exact Hread|exact Hin|exact Hex|exact Hp|exact Hf|].
    intros c' x' Hst'. eapply jfin_end_cond; [exact Hst'|by intros ? []|exact Ht|lia|].
    intros sj Hsj. rewrite Htk, Halt. unfold ended, finish. rewrite Hd.
    assert (E4 : getr SH4_REG_PC (next s2) = u32 (getr SH4_REG_PC s + 4)).
    { unfold next at 1. rewrite getr_setr_eq, Hpc, <- Epc by done. norm_wrap. f_equal. lia. }
    split; [done|]. split; [|by destruct Hsj]. rewrite (end_regs _ _ Hsj), setr_wrap.
    assert (E5 : next s2 = setr SH4_REG_PC (getr SH4_REG_PC s + 4) s2).
    { unfold next. apply setr_congr. rewrite Hpc, <- Epc. norm_wrap. f_equal. lia. }
    rewrite E5. change (delayed_branch_addr (next s)) with (delayed_branch_addr s) in Ha.
    rewrite <- Ha. by destruct s2.
Qed.

(** the translator [d] of a branch with a delay slot against the handler [h] *)
Definition delayed_ok (d : Z -> M (jit_compile W) bool) (h : M (Sh4 W) unit) : Prop :=
  forall N T c x s s1 s2,
    clean N T c x s -> N + 2 * INST_SLOTS <= MAX_SLOTS -> getr SH4_REG_PC s mod 2 = 0 ->
    delayed_branch s = false -> h s = Ok (tt, s1) -> slot_run s1 s2 ->
    jfin (d (getr SH4_REG_PC s)) (add_cycles (op_at code (next s1))) (ended s (finish s1 s2)) c x.
End blocks.

Ltac br_start :=
  intros N T c x s s1 s2 Hst HN Hev Hd Hf Hslot; unfold clean in Hst; unfold INST_SLOTS in HN;
  pose proof (st_ok _ _ _ _ _ _ _ Hst) as Hok.
Ltac run_branch Hf :=
  apply check_inst_inv in Hf;
  cbv [bind ret gets modify gen_reg set_gen_reg reg_get reg_set set_delayed_branch
       set_delayed_branch_addr] in Hf;
  injection Hf as <-.

Section branches.
Context {W : Type} {CFG : BuildConfig} {MCH : Machine W} {HR : HostRam W} {JM : JitMachine W}.
Context (s0 : Sh4 W) (code : Z -> Z).
Implicit Types (s : Sh4 W) (c : jit_compile W) (x : slots * Sh4 W) (op : InstOpcode W).

(** the target, as the handler stores it *)
Lemma delayed_eq (b : bool) a a' s :
  u32 a = a' -> with_delayed_branch_addr (u32 a) (with_delayed_branch b s) = delayed b a' s.
Proof. by intros <-. Qed.

Lemma rts_ok op inst :
  delayed_ok s0 code (fun pc => sh4_jit_rts (sh4_jit_delay_slot slot_fuel) pc op inst) (sh4_inst_rts inst).
Proof.
  br_start. unfold sh4_inst_rts in Hf. run_branch Hf. unfold sh4_jit_rts.
  apply jfin_bind. jit_step. apply jfin_bind. jit_release (@nil (Z * Z)).
  eapply (slot_jump s0 code _ _ _ _ _ _ s s (getr SH4_REG_PR s) _ s2);
    [exact Hst|tauto|in_list|solve_range|unfold INST_SLOTS; lia|done|done|done| |done].
  apply delayed_eq, wrap_small. solve_range.
Qed.

Lemma jmp_ok op inst :
  delayed_ok s0 code (fun pc => sh4_jit_jmp_arn (sh4_jit_delay_slot slot_fuel) pc op inst)
    (sh4_inst_unary_jmp_indgen inst).
Proof.
  br_start. unfold sh4_inst_unary_jmp_indgen in Hf. run_branch Hf. unfold sh4_jit_jmp_arn.
  rewrite jit_r0'. gen_operands inst.
  apply jfin_bind. jit_step. apply jfin_bind. jit_release (@nil (Z * Z)).
  eapply (slot_jump s0 code _ _ _ _ _ _ s s (getr n s) _ s2);
    [exact Hst|tauto|in_list|solve_range|unfold INST_SLOTS; lia|done|done|done| |done].
  apply (delayed_eq true), wrap_small. solve_range.
Qed.

Lemma braf_ok op inst :
  delayed_ok s0 code (fun pc => sh4_jit_braf_rn (sh4_jit_delay_slot slot_fuel) pc op inst)
    (sh4_inst_unary_braf_gen inst).
Proof.
  br_start. unfold sh4_inst_unary_braf_gen in Hf. run_branch Hf. unfold sh4_jit_braf_rn.
  rewrite jit_r0'. gen_operands inst.
  apply jfin_bind. jit_step. apply jfin_bind. jit_release (@nil (Z * Z)). apply jfin_bind. jit_step.
  eapply (slot_jump s0 code _ _ _ _ _ _ s s (u32 (getr n s + u32 (u32 (getr SH4_REG_PC s + 4)))) _ s2);
    [exact Hst|tauto|in_list|solve_range|unfold INST_SLOTS; lia|done|done|done| |done].
  apply (delayed_eq true). change (getr ?r (with_delayed_branch true s)) with (getr r s).
  norm_wrap. f_equal. lia.
Qed.

(** the return address *)
Lemma jfin_set_pr N T H c x s v k g Q :
  st N (fun _ => False) T H c x s -> N < MAX_SLOTS ->
  (forall c' x', st (N + 2) (fun _ => False) T [] c' x' (setr SH4_REG_PR v s) ->
     jfin s0 k g Q c' x') ->
  jfin s0 (pr_slot <- reg_slot_noload SH4_REG_PR ;; emit (jit_set_slot pr_slot v) ;; k) g Q c x.
Proof.
  intros Hst HN HQ. apply jfin_bind. jit_step. apply jfin_bind.
  eapply (jwp_held _ _ _ _ _ _ _ _ _ _ _ _ _ Hst); [|reflexivity|reflexivity|]; [in_list|].
  clear Hst. intros c2 x2 M2 Hst. apply HQ. rewrite <- (status_map _ _ _ M2) in Hslot.
  eapply (st_done_known _ _ _ _ _ _ _ _ _ _ Hst Hslot); [lia|tauto|]. by reg_norm.
Qed.

Lemma jsr_ok op inst :
  delayed_ok s0 code (fun pc => sh4_jit_jsr_arn (sh4_jit_delay_slot slot_fuel) pc op inst)
    (sh4_inst_unary_jsr_indgen inst).
Proof.
  br_start. unfold sh4_inst_unary_jsr_indgen in Hf. run_branch Hf. unfold sh4_jit_jsr_arn.
  rewrite jit_r0'. gen_operands inst.
  apply jfin_bind. jit_step. apply jfin_bind. jit_release (@nil (Z * Z)).
  eapply jfin_set_pr; [exact Hst|lia|]. clear Hst. intros c2 x2 Hst.
  set (sJ := setr SH4_REG_PR _ s) in *.
  assert (Epc : getr SH4_REG_PC sJ = getr SH4_REG_PC s) by by apply getr_setr_ne.
  rewrite <- Epc in Hev |- *.
  eapply (slot_jump s0 code _ _ _ _ _ _ s sJ (getr n s) _ s2);
    [exact Hst|tauto|in_list|solve_range|unfold INST_SLOTS; lia|done|done|done| |done].
  apply (delayed_eq true). unfold sJ. rewrite getr_setr_ne by reg_side. apply wrap_small. solve_range.
Qed.

Lemma bsrf_ok op inst :
  delayed_ok s0 code (fun pc => sh4_jit_bsrf_rn (sh4_jit_delay_slot slot_fuel) pc op inst)
    (sh4_inst_unary_bsrf_gen inst).
Proof.
  br_start. unfold sh4_inst_unary_bsrf_gen in Hf. run_branch Hf. unfold sh4_jit_bsrf_rn.
  rewrite jit_r0'. gen_operands inst.
  apply jfin_bind. jit_step. apply jfin_bind. jit_release (@nil (Z * Z)). apply jfin_bind. jit_step.
  eapply jfin_set_pr; [exact Hst|lia|]. clear Hst. intros c2 x2 Hst.
  set (sJ := setr SH4_REG_PR (getr SH4_REG_PC s + 4) s) in *.
  assert (Epc : getr SH4_REG_PC sJ = getr SH4_REG_PC s) by by apply getr_setr_ne.
  rewrite <- Epc in Hev. rewrite <- Epc at 1.
  eapply (slot_jump s0 code _ _ _ _ _ _ s sJ (u32 (getr n s + u32 (u32 (getr SH4_REG_PC s + 4)))) _ s2);
    [exact Hst|tauto|in_list|solve_range|unfold INST_SLOTS; lia|done|done|done| |done].
  change (delayed true (u32 (getr SH4_REG_PC sJ + getr n sJ + 4)) sJ =
    delayed true (u32 (getr n s + u32 (u32 (getr SH4_REG_PC s + 4)))) sJ).
  apply (f_equal (fun a => delayed true a sJ)). rewrite Epc. unfold sJ. rewrite (getr_setr_ne n) by reg_side. norm_wrap. f_equal. lia.
Qed.

(** *** Displacements *)
Lemma disp12_eq inst : jit_disp12 inst = Z.shiftl (inst_simm12 inst) 1 + 4.
Proof.
  unfold jit_disp12, inst_simm12. rewrite Z.shiftl_mul_pow2 by lia.
  assert (Hr : 0 <= Z.land inst 0xfff < 4096).
  { change 0xfff with (Z.ones 12). rewrite Z.land_ones by lia. by apply Z.mod_pos_bound. }
  set (d := Z.land inst 0xfff) in *. clearbody d.
  rewrite (swrap_small 16 d) by lia. rewrite Z.shiftl_mul_pow2 by lia.
  change 0x800 with (2 ^ 11). rewrite truth_land_bit by lia.
  assert (Hb : Z.testbit d 11 = (2048 <=? d)).
  { rewrite Z.testbit_eqb by lia. destruct (Z.leb_spec 2048 d);
      [apply Z.eqb_eq|apply Z.eqb_neq]; Z.to_euclidean_division_equations; lia. }
  rewrite Hb, Z.shiftr_div_pow2 by lia. destruct (Z.leb_spec 2048 d).
  - assert (Hor : Z.lor d 0xfffff000 = d + 0xfffff000).
    { rewrite <- Z.lxor_lor, <- Z.add_nocarry_lxor; [done|..]; apply Z.bits_inj'; intros i Hi;
      rewrite Z.land_spec, Z.bits_0; change 0xfffff000 with (Z.shiftl (Z.ones 20) 12);
      (destruct (Z.ltb_spec i 12); [by rewrite Z.shiftl_spec_low, andb_false_r|]);
      rewrite (in_range_testbit_high 12 d) by (done || unfold in_range; lia); done. }
    rewrite Hor. unfold swrap. Z.to_euclidean_division_equations. lia.
  - unfold swrap. Z.to_euclidean_division_equations. lia.
Qed.

Lemma bra_ok op inst :
  delayed_ok s0 code (fun pc => sh4_jit_bra (sh4_jit_delay_slot slot_fuel) pc op inst)
    (sh4_inst_unary_bra_disp inst).
Proof.
  br_start. unfold sh4_inst_unary_bra_disp in Hf. run_branch Hf. unfold sh4_jit_bra.
  set (target := u32 (getr SH4_REG_PC s + jit_disp12 inst)).
  eapply (jump_tail s0 code _ _ _ _ _ _ _ s s target _ s2);
    [exact Hst|tauto|by apply wrap_range| |unfold INST_SLOTS; lia|done|done|done| |done].
  - intros c' x' s3 Q Hst' HQ. eapply jfin_end_const; [exact Hst'|unfold INST_SLOTS; lia|done].
  - apply (delayed_eq true). change (getr ?r (with_delayed_branch true s)) with (getr r s).
    unfold target. rewrite disp12_eq. f_equal. lia.
Qed.

Lemma bsr_ok op inst :
  delayed_ok s0 code (fun pc => sh4_jit_bsr (sh4_jit_delay_slot slot_fuel) pc op inst)
    (sh4_inst_unary_bsr_disp inst).
Proof.
  br_start. unfold sh4_inst_unary_bsr_disp in Hf. run_branch Hf. unfold sh4_jit_bsr.
  eapply jfin_set_pr; [exact Hst|lia|]. clear Hst. intros c2 x2 Hst.
  set (sJ := setr SH4_REG_PR _ s) in *.
  assert (Epc : getr SH4_REG_PC sJ = getr SH4_REG_PC s) by by apply getr_setr_ne.
  rewrite <- Epc in Hev |- *.
  eapply (jump_tail s0 code _ _ _ _ _ _ _ s sJ (u32 (getr SH4_REG_PC sJ + jit_disp12 inst)) _ s2);
    [exact Hst|tauto|by apply wrap_range| |unfold INST_SLOTS; lia|done|done|done| |done].
  - intros c' x' s3 Q Hst' HQ. eapply jfin_end_const; [exact Hst'|unfold INST_SLOTS; lia|done].
  - apply (delayed_eq true). rewrite disp12_eq. f_equal. lia.
Qed.

(** *** Conditional branches *)
Lemma land_1_cases v : Z.land v 1 = 0 \/ Z.land v 1 = 1.
Proof.
  pose proof (Z.land_ones v 1 ltac:(lia)) as E. change (Z.ones 1) with 1 in E. rewrite E.
  pose proof (Z.mod_pos_bound v (2 ^ 1)). lia.
Qed.

Lemma disp8_eq inst : jit_disp8 inst = Z.shiftl (inst_simm8 inst) 1 + 4.
Proof. unfold jit_disp8, inst_simm8. by rewrite Z.shiftl_mul_pow2 by lia. Qed.

Lemma bfs_ok op inst :
  delayed_ok s0 code (fun pc => sh4_jit_bfs (sh4_jit_delay_slot slot_fuel) pc op inst)
    (sh4_inst_unary_bfs_disp inst).
Proof.
  br_start. unfold sh4_inst_unary_bfs_disp in Hf. apply check_inst_inv in Hf.
  apply bind_inv in Hf as (? & ? & [= <- <-] & Hf). unfold sh4_jit_bfs.
  apply jfin_bind. jit_step. apply jfin_bind. jit_release (@nil (Z * Z)).
  eapply (slot_cond s0 code _ _ _ _ _ _ s (Z.land (getr SH4_REG_SR s) 1 =? 0)
    (getr SH4_REG_SR s) _ _ _ s1 s2);
    [exact Hst|tauto|in_list|unfold INST_SLOTS; lia|done|done|done|done| |done].
  change (Z.land (getr SH4_REG_SR s) SH4_SR_FLAG_T_MASK) with (Z.land (getr SH4_REG_SR s) 1) in Hf.
  unfold truth in Hf. destruct (Z.land (getr SH4_REG_SR s) 1 =? 0); injection Hf as <-; [|done].
  apply (delayed_eq true). rewrite disp8_eq. f_equal. lia.
Qed.

Lemma bts_ok op inst :
  delayed_ok s0 code (fun pc => sh4_jit_bts (sh4_jit_delay_slot slot_fuel) pc op inst)
    (sh4_inst_unary_bts_disp inst).
Proof.
  br_start. unfold sh4_inst_unary_bts_disp in Hf. apply check_inst_inv in Hf.
  apply bind_inv in Hf as (? & ? & [= <- <-] & Hf). unfold sh4_jit_bts.
  apply jfin_bind. jit_step. apply jfin_bind. jit_release (@nil (Z * Z)).
  eapply (slot_cond s0 code _ _ _ _ _ _ s (Z.land (getr SH4_REG_SR s) 1 =? 1)
    (getr SH4_REG_SR s) _ _ _ s1 s2);
    [exact Hst|tauto|in_list|unfold INST_SLOTS; lia|done|done|done|done| |done].
  change (Z.land (getr SH4_REG_SR s) SH4_SR_FLAG_T_MASK) with (Z.land (getr SH4_REG_SR s) 1) in Hf.
  destruct (land_1_cases (getr SH4_REG_SR s)) as [E|E]; rewrite E in Hf |- *;
    injection Hf as <-; [done|].
  apply (delayed_eq true). rewrite disp8_eq. f_equal. lia.
Qed.

(** branches without a slot *)
Definition plain_ok (d : Z -> M (jit_compile W) bool) (h : M (Sh4 W) unit) : Prop :=
  forall N T c x s s1,
    clean N T c x s -> N + INST_SLOTS <= MAX_SLOTS -> h s = Ok (tt, s1) ->
    jfin s0 (d (getr SH4_REG_PC s)) (fun n => n) (ended s (next s1)) c x.

Lemma ended_plain s sj target :
  regs_ok s -> at_end s sj -> ended s (setr SH4_REG_PC target s) (u32 target) sj.
Proof.
  intros Hok Hend. split; [by rewrite getr_setr_eq|]. split; [|by destruct Hend].
  rewrite (end_regs _ _ Hend), setr_wrap. by destruct s.
Qed.

Lemma plain_cond N T c x s s1 (taken : bool) inst t :
  clean N T c x s -> N + INST_SLOTS <= MAX_SLOTS ->
  (Z.land (getr SH4_REG_SR s) 1 =? t) = taken ->
  s1 = (if taken then setr SH4_REG_PC (getr SH4_REG_PC s + (Z.shiftl (inst_simm8 inst) 1 + (4 - 2))) s
        else s) ->
  jfin s0 (slot <- reg_slot SH4_REG_SR ;; res_disassociate_reg SH4_REG_SR ;;
           jit_end_cond slot (getr SH4_REG_PC s + jit_disp8 inst) (getr SH4_REG_PC s + 2) t)
    (fun n => n) (ended s (next s1)) c x.
Proof.
  intros Hst HN Htk Hs1. unfold clean in Hst. unfold INST_SLOTS in HN.
  pose proof (st_ok _ _ _ _ _ _ _ Hst) as Hok.
  apply jfin_bind. jit_step. apply jfin_bind. jit_release (@nil (Z * Z)).
  eapply jfin_end_cond; [exact Hst|tauto|in_list|lia|]. intros sj Hsj. rewrite Htk.
  destruct taken; subst s1; [|by apply ended_plain].
  replace (next _) with (setr SH4_REG_PC (getr SH4_REG_PC s + jit_disp8 inst) s); [by apply ended_plain|].
  unfold next. rewrite setr_setr, getr_setr_eq by done. apply setr_congr. norm_wrap.
  rewrite disp8_eq. f_equal. lia.
Qed.

Lemma bf_ok op inst :
  plain_ok (fun pc => sh4_jit_bf pc op inst) (sh4_inst_unary_bf_disp inst).
Proof.
  intros N T c x s s1 Hst HN Hf. unfold sh4_inst_unary_bf_disp in Hf. apply check_inst_inv in Hf.
  apply bind_inv in Hf as (? & ? & [= <- <-] & Hf). eapply plain_cond; [done|done|done|].
  change (Z.land (getr SH4_REG_SR s) SH4_SR_FLAG_T_MASK) with (Z.land (getr SH4_REG_SR s) 1) in Hf.
  unfold truth in Hf. by destruct (Z.land (getr SH4_REG_SR s) 1 =? 0); injection Hf as <-.
Qed.

Lemma bt_ok op inst :
  plain_ok (fun pc => sh4_jit_bt pc op inst) (sh4_inst_unary_bt_disp inst).
Proof.
  intros N T c x s s1 Hst HN Hf. unfold sh4_inst_unary_bt_disp in Hf. apply check_inst_inv in Hf.
  apply bind_inv in Hf as (? & ? & [= <- <-] & Hf). eapply plain_cond; [done|done|done|].
  change (Z.land (getr SH4_REG_SR s) SH4_SR_FLAG_T_MASK) with (Z.land (getr SH4_REG_SR s) 1) in Hf.
  by destruct (land_1_cases (getr SH4_REG_SR s)) as [E|E]; rewrite E in Hf |- *; injection Hf as <-.
Qed.

(** *** Return from an exception *)

(** a call when the register array is up to date *)
Lemma st_synced N T H c x s (m : M (Sh4 W) unit) s' :
  st N (fun _ => False) T H c x s -> (forall q, status c q <> REG_STATUS_SLOT) -> pc_blind m ->
  m s = Ok (tt, s') -> (forall r, in_slot c r -> getr r s' = getr r s) ->
  exists sj, m (snd x) = Ok (tt, sj) /\ st N (fun _ => False) T H c (fst x, sj) s'.
Proof.
  intros Hst Hq Hb Hm Hkeep. pose proof (drained_end _ _ _ _ _ _ _ Hst ltac:(by intros ? []) Hq) as Hend.
  destruct Hst. set (w := getr SH4_REG_PC (snd x)).
  assert (Hcpu : snd x = setr SH4_REG_PC w s) by (rewrite <- (end_regs _ _ Hend); unfold w; by rewrite setr_same).
  assert (Hok' : regs_ok s') by by eapply (blind_ok _ _ Hb).
  exists (setr SH4_REG_PC w s').
  split; [rewrite Hcpu, (blind_set _ _ Hb); [by rewrite Hm|by left|done]|].
  assert (Hg : forall r, 0 <= r -> r <> SH4_REG_PC -> getr r (setr SH4_REG_PC w s') = getr r s')
    by (intros; by apply getr_setr_ne).
  assert (Hc : forall r, in_slot c r -> 0 <= r /\ r <> SH4_REG_PC).
  { intros r Hr. apply st_map in Hr as [Hr _]. split; [by apply cached_nonneg|by apply cached_valid]. }
  split; cbn [fst snd]; try done.
  - by apply setr_ok.
  - intros r Hr. rewrite Hkeep by done. by apply st_slot.
  - intros r [] Hne _. by apply Hg.
  - intros r Hr _. destruct (Hc r); [unfold in_slot; by rewrite Hr|]. by apply Hg.
Qed.

Lemma jfin_flush N T c x s k g Q :
  clean N T c x s ->
  (forall c' x', clean N T c' x' s -> (forall q, ~ in_slot c' q) -> jfin s0 k g Q c' x') ->
  jfin s0 (res_drain_all_regs ;; res_invalidate_all_regs ;; k) g Q c x.
Proof.
  intros Hst HQ. apply jfin_bind. eapply jwp_drain_all; [exact Hst|]. intros c1 x1 H1 Hn1.
  apply jfin_bind. eapply jwp_invalidate_all; [exact H1|exact Hn1|done].
Qed.

Lemma hid_set_sr F v : unseen F -> hidden F (sh4_jit_set_sr v : M (Sh4 W) unit).
Proof. intros HF. unfold sh4_jit_set_sr. solve_hidden. Qed.

Lemma set_sr_ssr v s s' :
  regs_ok s -> sh4_jit_set_sr v s = Ok (tt, s') -> getr SH4_REG_SSR s' = getr SH4_REG_SSR s.
Proof.
  intros Hok Hs. unfold sh4_jit_set_sr in Hs. apply bind_inv in Hs as (? & ? & [= <- <-] & Hs).
  apply bind_inv in Hs as ([] & ? & [= <-] & Hs). apply on_sr_change_regs in Hs as (Hr & _).
  rewrite (getr_reg _ _ _ Hr). destruct (eqb _ _); [by rewrite getr_setr_ne|].
  rewrite swap_regs_getr; [|lia| |done]; [by rewrite getr_setr_ne|].
  destruct (setr_ok SH4_REG_SR v s Hok) as [-> _]. vm_compute. lia.
Qed.

Lemma rte_split inst s s1 :
  regs_ok s -> sh4_inst_rte inst s = Ok (tt, s1) ->
  exists sJ, sh4_jit_set_sr (getr SH4_REG_SSR s) s = Ok (tt, sJ) /\
    s1 = delayed true (getr SH4_REG_SPC s) sJ /\ framed s sJ.
Proof.
  intros Hok Hf. unfold sh4_inst_rte in Hf. apply check_inst_inv in Hf.
  assert (Hsr : sh4_jit_set_sr (getr SH4_REG_SSR s) (delayed true (getr SH4_REG_SPC s) s) = Ok (tt, s1)).
  { rewrite <- Hf. rewrite <- (wrap_small 32 (getr SH4_REG_SPC s)) by solve_range. done. }
  rewrite (hid_run _ _ (hid_set_sr _ _ (unseen_delayed _ _)) s Hok) in Hsr.
  destruct (sh4_jit_set_sr (getr SH4_REG_SSR s) s) as [[[] sJ]|] eqn:EJ; [|done]. injection Hsr as <-.
  exists sJ. split; [done|]. split; [done|].
  destruct (hidden_delayed _ _ _ _ (fun b d => hid_set_sr _ _ (unseen_delayed b d)) Hok EJ).
  pose proof (pc_blind_intro _ (fun v => hid_set_sr _ (getr SH4_REG_SSR s) (unseen_pc v))) as Hb.
  split; [by eapply (blind_ok _ _ Hb)| |done|done].
  by eapply blind_keeps; [exact Hb|by left| |exact Hok|exact EJ].
Qed.

Lemma rte_ok op inst :
  delayed_ok s0 code (fun pc => sh4_jit_rte (sh4_jit_delay_slot slot_fuel) pc op inst) (sh4_inst_rte inst).
Proof.
  br_start. destruct (rte_split _ _ _ Hok Hf) as (sJ & EJ & -> & Hfr).
  destruct Hfr as [HokJ Hpc HdJ HaJ]. unfold sh4_jit_rte.
  apply jfin_bind. jit_step. apply jfin_bind. jit_release (@nil (Z * Z)).
  eapply jfin_flush; [exact Hst|]. clear Hst. intros c1 x1 Hst Hno.
  apply jfin_bind. eapply jwp_reg_slot_status; [exact Hst|solve_cached|lia|]. clear Hst.
  intros l1 c2 x2 Hst Hstat.
  assert (Hin : forall q, in_slot c2 q -> q = SH4_REG_SSR).
  { intros q Hq. unfold in_slot in Hq. rewrite Hstat in Hq. case_bool_decide as Hd'; [tauto|].
    by destruct (Hno q). }
  destruct (st_synced _ _ _ _ _ _ (sh4_jit_set_sr (getr SH4_REG_SSR s)) sJ Hst) as (sj & Hcall & HstJ).
  { intros q Hq. rewrite Hstat in Hq. case_bool_decide; [done|]. destruct (Hno q).
    unfold in_slot. by rewrite Hq. }
  { apply pc_blind_intro. intros v. apply hid_set_sr, unseen_pc. }
  { done. }
  { intros r Hr. rewrite (Hin r Hr). by eapply set_sr_ssr. }
  apply jfin_bind. eapply jwp_push.
  { cbn [intp_step]. unfold on_cpu.
    rewrite (st_held_val _ _ _ _ _ _ _ SH4_REG_SSR l1 Hst) by in_list. by rewrite Hcall. }
  rewrite <- Hpc in Hev |- *. apply st_pushed with (i := JIT_OP_CALL_FUNC sh4_jit_set_sr l1) in HstJ.
  eapply (slot_jump s0 code _ _ _ _ _ _ s sJ (getr SH4_REG_SPC s) _ s2);
    [exact HstJ|tauto|in_list|solve_range|unfold INST_SLOTS; lia|done|congruence|done|done|done].
Qed.
End branches.

(** ** The compiler *)
Section compiler.
Context {W : Type} {CFG : BuildConfig} {MCH : Machine W} {HR : HostRam W} {JM : JitMachine W}.
Context (s0 : Sh4 W) (code : Z -> Z).
Implicit Types (s : Sh4 W) (c : jit_compile W) (x : slots * Sh4 W) (op : InstOpcode W).

Lemma delayed_branches op inst :
  In op opcode_list -> is_branch (disas op) && negb (no_slot (disas op)) = true ->
  delayed_ok s0 code (fun pc => jit_disas (sh4_jit_delay_slot slot_fuel) (disas op) pc op inst)
    (func op inst).
Proof.
  intros Hin Hb. pose proof (fun h => branch_func op h Hin) as Hh.
  destruct (disas op); try discriminate; cbn [branch_handler jit_disas] in *;
    rewrite (Hh _ eq_refl).
  - apply rts_ok.
  - apply rte_ok.
  - apply braf_ok.
  - apply bsrf_ok.
  - apply bfs_ok.
  - apply bts_ok.
  - apply bra_ok.
  - apply bsr_ok.
  - apply jmp_ok.
  - apply jsr_ok.
Qed.

(** no branch with a slot changes PC itself *)
Lemma branch_pc op inst s s1 :
  In op opcode_list -> is_branch (disas op) && negb (no_slot (disas op)) = true -> regs_ok s ->
  func op inst s = Ok (tt, s1) -> regs_ok s1 /\ getr SH4_REG_PC s1 = getr SH4_REG_PC s.
Proof.
  intros Hin Hb Hok Hf. pose proof (fun h => branch_func op h Hin) as Hh.
  assert (Hset : forall v s2, reg s2 = reg (setr SH4_REG_PR v s) ->
                   regs_ok s2 /\ getr SH4_REG_PC s2 = getr SH4_REG_PC s).
  { intros v s2 Hs2. rewrite (getr_reg _ _ _ Hs2). destruct (setr_ok SH4_REG_PR v s Hok).
    split; [split; by rewrite Hs2|by apply getr_setr_ne]. }
  destruct (disas op); try discriminate; cbn [branch_handler] in Hh;
    rewrite (Hh _ eq_refl) in Hf; clear Hh.
  2: { destruct (rte_split _ _ _ Hok Hf) as (sJ & _ & -> & [[] Hpc _ _]). by split. }
  4, 5: match type of Hf with ?l _ = _ => let h := head_of l in unfold h in Hf end;
    apply check_inst_inv in Hf; apply bind_inv in Hf as (? & ? & [= <- <-] & Hf);
    destruct (truth _); injection Hf as <-; by destruct Hok.
  all: match type of Hf with ?l _ = _ => let h := head_of l in unfold h in Hf end; run_branch Hf.
  all: first [ by destruct Hok | by eapply Hset ].
Qed.

Lemma plain_branches op inst delay_slot :
  In op opcode_list -> no_slot (disas op) = true ->
  plain_ok s0 (fun pc => jit_disas delay_slot (disas op) pc op inst) (func op inst).
Proof.
  intros Hin Hb. pose proof (fun h => branch_func op h Hin) as Hh.
  destruct (disas op); try discriminate; cbn [branch_handler jit_disas] in *;
    rewrite (Hh _ eq_refl); [apply (bf_ok s0 code)|apply (bt_ok s0 code)].
Qed.

(** the front end reads the instruction and counts its cycles first *)
Definition counted op c : jit_compile W :=
  {| jc_sh4 := jc_sh4 c; jc_last_inst_type := fst (add_cycles op (cycles c));
     jc_cycle_count := snd (add_cycles op (cycles c)); reg_map := reg_map c;
     jc_block := jc_block c |}.

Lemma compile_inst_eq pc inst c :
  jc_sh4 c = s0 -> sh4_do_read_inst pc s0 = Ok (inst, s0) ->
  sh4_jit_compile_inst pc c =
    jit_disas (sh4_jit_delay_slot slot_fuel) (disas (sh4_decode_inst inst)) pc
      (sh4_decode_inst inst) inst (counted (sh4_decode_inst inst) c).
Proof.
  intros H0 Hr. unfold sh4_jit_compile_inst. erewrite bind_ok by by eapply read_inst_eq.
  erewrite bind_ok; [done|]. unfold jit_count_cycles, modify, counted, add_cycles, cycles.
  cbn [fst snd]. by destruct (sh4_count_inst_cycles _ _).
Qed.

Lemma counted_cycles op c : cycles (counted op c) = add_cycles op (cycles c).
Proof. unfold cycles at 1, counted. cbn. by destruct (add_cycles op (cycles c)). Qed.

Lemma counted_clean N T op c x s : clean N T c x s -> clean N T (counted op c) x s.
Proof. by apply st_block. Qed.

(** the cycles of [n] instructions from [pc] on *)
Fixpoint block_cycles (n : nat) (pc : Z) (k : sh4_inst_group * Z) : sh4_inst_group * Z :=
  match n with
  | O => k
  | S n' => block_cycles n' (u32 (pc + 2)) (add_cycles (sh4_decode_inst (code pc) : InstOpcode W) k)
  end.

(** the [n] instructions from [pc] on are in memory when the block is compiled *)
Fixpoint in_memory (n : nat) (pc : Z) : Prop :=
  match n with
  | O => True
  | S n' => sh4_do_read_inst pc s0 = Ok (code pc, s0) /\ in_memory n' (u32 (pc + 2))
  end.

Definition loop_result fuel c x s s' n : Prop :=
  exists c' il pc x',
    compile_loop fuel (getr SH4_REG_PC s) c = Ok (tt, c') /\
    inst_list (jc_block c') = inst_list (jc_block c) ++ il /\ jc_sh4 c' = s0 /\
    cycles c' = block_cycles n (getr SH4_REG_PC s) (cycles c) /\
    code_block_intp_exec il x = Ok (pc, x') /\ ended s s' pc (snd x').

(** the last instruction of a block *)
Lemma loop_end fuel c x s s' inst n g :
  jc_sh4 c = s0 -> sh4_do_read_inst (getr SH4_REG_PC s) s0 = Ok (inst, s0) ->
  jfin s0 (jit_disas (sh4_jit_delay_slot slot_fuel) (disas (sh4_decode_inst inst))
    (getr SH4_REG_PC s) (sh4_decode_inst inst) inst) g (ended s s')
    (counted (sh4_decode_inst inst) c) x ->
  g (add_cycles (sh4_decode_inst inst : InstOpcode W) (cycles c)) =
    block_cycles n (getr SH4_REG_PC s) (cycles c) ->
  loop_result (S fuel) c x s s' n.
Proof.
  intros H0 Hr Hfin Hg. destruct (Hfin H0) as (c' & il & pc & x' & Hm & Hi & H0' & Hc & Hx & He).
  exists c', il, pc, x'. split; [|split; [exact Hi|split; [exact H0'|split; [|split; [exact Hx|exact He]]]]].
  - cbn [compile_loop]. rewrite <- (compile_inst_eq _ inst c H0 Hr) in Hm.
    erewrite bind_ok by exact Hm. reflexivity.
  - rewrite Hc, <- Hg. f_equal. apply counted_cycles.
Qed.

(** an instruction inside a block *)
Lemma loop_inst fuel N c x s s1 s' n :
  clean N [] c x s -> N + INST_SLOTS <= MAX_SLOTS -> jc_sh4 c = s0 ->
  getr SH4_REG_PC s mod 2 = 0 ->
  sh4_do_read_inst (getr SH4_REG_PC s) s0 = Ok (inst_at code s, s0) ->
  In (op_at code s) opcode_list -> jit_exact (op_at code s) (inst_at code s) = true ->
  func (op_at code s) (inst_at code s) s = Ok (tt, s1) ->
  (forall c1 x1, clean (N + INST_SLOTS) [] c1 x1 (next s1) -> jc_sh4 c1 = s0 ->
     loop_result fuel c1 x1 (next s1) s' n) ->
  loop_result (S fuel) c x s s' (S n).
Proof.
  intros Hst HN H0 Hev Hr Hin Hex Hf Hrest. pose proof (st_ok _ _ _ _ _ _ _ Hst) as Hok.
  destruct (exact_framed _ _ _ _ Hin Hex Hok Hf) as [Hok1 Hpc Hd Ha].
  destruct (translate_cexec N [] (counted (op_at code s) c) x s s1 (op_at code s)
    (sh4_jit_delay_slot slot_fuel) (inst_at code s) (counted_clean _ _ _ _ _ _ Hst) HN Hev Hin Hex Hf)
    as (c1 & x1 & (Hm & il1 & Hi1 & Hx1) & (E1 & E2 & E3) & H1).
  assert (Hpcn : getr SH4_REG_PC (next s1) = u32 (getr SH4_REG_PC s + 2)).
  { unfold next. by rewrite getr_setr_eq, Hpc. }
  destruct (Hrest c1 x1) as (c2 & il2 & pc & x2 & Hm2 & Hi2 & H02 & Hc2 & Hx2 & He).
  { by apply st_pc. }
  { by rewrite E1. }
  exists c2, (il1 ++ il2), pc, x2.
  split; [|split; [|split; [exact H02|split; [|split]]]].
  - cbn [compile_loop]. erewrite bind_ok by
      (rewrite (compile_inst_eq _ (inst_at code s) c H0 Hr); exact Hm). by rewrite <- Hpcn.
  - rewrite Hi2, Hi1. by rewrite app_assoc.
  - rewrite Hc2, Hpcn. cbn [block_cycles]. f_equal. unfold cycles at 1. rewrite E2, E3.
    exact (counted_cycles (op_at code s) c).
  - rewrite (intp_exec_app _ _ _ _ Hx1). exact Hx2.
  - unfold ended in *. change (delayed_branch_addr (next s1)) with (delayed_branch_addr s1) in He.
    by rewrite <- Ha.
Qed.

Lemma compile_loop_ok n s s' :
  block_run code n s s' -> forall fuel N c x,
  clean N [] c x s -> N + INST_SLOTS * Z.of_nat n <= MAX_SLOTS -> (n <= fuel)%nat ->
  jc_sh4 c = s0 -> getr SH4_REG_PC s mod 2 = 0 -> delayed_branch s = false ->
  in_memory n (getr SH4_REG_PC s) -> loop_result fuel c x s s' n.
Proof.
  induction 1 as [n s s1 s' Hfe Hk Hex Hf Ha Hrun IH|s s1 Hfe Hk Hns Hf Ha
    |s s1 s2 Hfe Hk Hbr Hf Ha Hfe2 Hk2 Hex2 Hr2 Hf2 Ha2 Hirq];
    intros fuel N c x Hst HN Hfuel H0 Hev Hd Hmem; (destruct fuel as [|fuel]; [lia|]);
    apply decode_in in Hk; pose proof (st_ok _ _ _ _ _ _ _ Hst) as Hok;
    destruct Hmem as [Hr Hmem].
  - destruct (exact_framed _ _ _ _ Hk Hex Hok Hf) as [Hok1 Hpc Hd1 _].
    eapply loop_inst; [exact Hst|unfold INST_SLOTS in *; lia|done|done|exact Hr|done|done|exact Hf|].
    intros c1 x1 H1 H01. apply (IH fuel (N + INST_SLOTS)); try done.
    + unfold INST_SLOTS in *. lia.
    + lia.
    + apply next_even; [done|]. by rewrite Hpc.
    + by rewrite <- Hd1 in Hd.
    + unfold next. by rewrite getr_setr_eq, Hpc.
  - eapply (loop_end _ _ _ _ _ (inst_at code s) _ (fun k => k)); [done|exact Hr| |reflexivity].
    eapply plain_branches; [done|exact Hns|by apply counted_clean|unfold INST_SLOTS in *; lia|exact Hf].
  - destruct Hmem as [Hr' _]. apply decode_in in Hk2.
    assert (Hpc1 : getr SH4_REG_PC (next s1) = u32 (getr SH4_REG_PC s + 2)).
    { destruct (branch_pc _ _ _ _ Hk Hbr Hok Hf) as [Hok1 Hpc]. unfold next.
      by rewrite getr_setr_eq, Hpc. }
    eapply (loop_end _ _ _ _ _ (inst_at code s) _ (add_cycles (op_at code (next s1))));
      [done|exact Hr| |].
    + change (if delayed_branch s1 then _ else _) with (finish s1 s2).
      apply (delayed_branches (op_at code s) (inst_at code s) Hk Hbr N []);
        [by apply counted_clean|unfold INST_SLOTS in *; lia|done|done|exact Hf|].
      split_and!; [|done..]. rewrite Hpc1. unfold inst_at. by rewrite Hpc1.
    + cbn [block_cycles]. unfold op_at, inst_at. by rewrite Hpc1.
Qed.

Lemma clean_start c (sl : slots) s v :
  regs_ok s -> (forall i, in_range 32 (slot_get i sl)) -> reg_map c = ∅ ->
  n_slots (jc_block c) = 0 -> clean 0 [] c (sl, setr SH4_REG_PC v s) s.
Proof.
  intros Hok Hsl Hm Hn.
  assert (Hs : forall r, status c r = REG_STATUS_SH4)
    by (intros; unfold status, residency_of; by rewrite Hm, lookup_empty).
  assert (Hi : forall r, ~ in_slot c r) by (intros r Hr; by apply Hr).
  split; cbn [fst snd]; try done.
  - by apply setr_ok.
  - lia.
  - intros r Hr. by destruct (Hi r).
  - intros r ? Hr. by destruct (Hi r).
  - intros r Hr. by destruct (Hi r).
  - intros r [] Hne _. by rewrite getr_setr_ne.
  - intros r Hr. by rewrite Hs in Hr.
  - intros t w Ht. by apply not_elem_of_nil in Ht.
  - constructor.
  - intros r l Hl. by apply not_elem_of_nil in Hl.
Qed.
End compiler.

Section block_theorem.
Context {W : Type} {CFG : BuildConfig} {MCH : Machine W} {HR : HostRam W} {JM : JitMachine W}.

Lemma block_correct (code : Z -> Z) (n fuel : nat) (s0 s s' : Sh4 W) (sl : slots) (v : Z) :
  regs_ok s -> getr SH4_REG_PC s mod 2 = 0 -> delayed_branch s = false ->
  block_run code n s s' -> in_memory s0 code n (getr SH4_REG_PC s) ->
  INST_SLOTS * Z.of_nat n <= MAX_SLOTS -> (n <= fuel)%nat ->
  (forall i, in_range 32 (slot_get i sl)) ->
  interp n s = Ok (tt, s') /\
  exists blk sl' sj,
    sh4_jit_compile_intp fuel (getr SH4_REG_PC s) s0 = Ok (blk, s0) /\
    code_block_intp_exec (intp_insts blk) (sl, setr SH4_REG_PC v s) =
      Ok (getr SH4_REG_PC s', (sl', sj)) /\
    setr SH4_REG_PC (getr SH4_REG_PC s') sj =
      with_delayed_branch_addr (delayed_branch_addr s) s' /\ regs_ok sj /\
    intp_cycle_count blk =
      u32 (snd (block_cycles code n (getr SH4_REG_PC s) (SH4_GROUP_NONE, 0)) * SH4_CLOCK_SCALE).
Proof.
  intros Hok Hev Hd Hrun Hmem Hn Hfuel Hsl. split; [by eapply block_run_interp|].
  set (c0 := {| jc_sh4 := s0; jc_last_inst_type := SH4_GROUP_NONE; jc_cycle_count := 0;
                reg_map := ∅; jc_block := il_code_block_init |}).
  destruct (compile_loop_ok s0 code n s s' Hrun fuel 0 c0 (sl, setr SH4_REG_PC v s))
    as (c' & il & pc & [sl' sj] & Hm & Hi & H0 & Hc & Hx & Hpc & He & Hokj); try done.
  { by apply clean_start. }
  exists {| intp_insts := inst_list (jc_block c');
            intp_cycle_count := u32 (jc_cycle_count c' * SH4_CLOCK_SCALE) |}, sl', sj.
  split; [|split; [|split; [|split]]].
  - unfold sh4_jit_compile_intp, sh4_jit_il_code_block_compile. fold c0.
    erewrite bind_ok by done. change (with_map (fun _ => ∅) c0) with c0. rewrite Hm. by rewrite H0.
  - cbn [intp_insts]. rewrite Hi. cbn [c0 jc_block il_code_block_init inst_list app].
    rewrite Hx. by rewrite Hpc.
  - rewrite <- Hpc. exact He.
  - exact Hokj.
  - cbn [intp_cycle_count]. change (SH4_GROUP_NONE, 0) with (cycles c0). by rewrite <- Hc.
Qed.

(** C2: a compiled block does what the interpreter does.  Let the interpreter execute the [n]
    instructions of a block, up to its branch and the branch's delay slot, from [s] to [s']
    ([block_run]): no exception, no stop of the debugger and no interrupt after the delay slot; every
    instruction is in the opcode table; those before the branch and in the delay slot are
    [jit_exact] (not a floating-point entry, SLEEP or TRAPA, and not [MOV.L Rn,@-Rn] with twice the
    same register, see [jit_predecrement_same]); and the one in the delay slot does not compute an
    address from PC.  Let [s] have an even PC and no pending branch, let the instructions be in
    memory when the block is compiled, and let there be at most 819 of them, so that the
    block's slots do not run out ([INST_SLOTS * n <= MAX_SLOTS]).  Then the front end compiles the
    block with [n] turns of its loop, and the back end's interpreter runs it, whatever 32-bit
    values the slots hold and whatever [sh4->reg] holds for PC, returns the PC of [s'], and leaves the
    CPU of [s'] (a block does not use [delayed_branch_addr]).  The block's cycle count is that of
    its instructions. *)
Theorem jit_block_correct (code : Z -> Z) (n fuel : nat) (s0 s s' : Sh4 W) (sl : slots) (v : Z) :
  regs_ok s -> getr SH4_REG_PC s mod 2 = 0 -> delayed_branch s = false ->
  block_run code n s s' -> in_memory s0 code n (getr SH4_REG_PC s) ->
  INST_SLOTS * Z.of_nat n <= MAX_SLOTS -> (n <= fuel)%nat ->
  (forall i, in_range 32 (slot_get i sl)) ->
  interp n s = Ok (tt, s') /\
  exists blk sl' sj,
    sh4_jit_compile_intp fuel (getr SH4_REG_PC s) s0 = Ok (blk, s0) /\
    code_block_intp_exec (intp_insts blk) (sl, setr SH4_REG_PC v s) =
      Ok (getr SH4_REG_PC s', (sl', sj)) /\
    setr SH4_REG_PC (getr SH4_REG_PC s') sj =
      with_delayed_branch_addr (delayed_branch_addr s) s' /\
    intp_cycle_count blk =
      u32 (snd (block_cycles code n (getr SH4_REG_PC s) (SH4_GROUP_NONE, 0)) * SH4_CLOCK_SCALE).
Proof.
  intros Hok Hev Hd Hrun Hmem Hn Hfuel Hsl.
  destruct (block_correct code n fuel s0 s s' sl v Hok Hev Hd Hrun Hmem Hn Hfuel Hsl)
    as [Hi (blk & sl' & sj & Hc & Hx & Hs & _ & Hcy)]. split; [done|]. by exists blk, sl', sj.
Qed.
End block_theorem.
