(* ===== verification/Sh4JitBoard.v ===== *)
(** The board as a machine for the JIT: its RAM handlers meet what the front end needs of a
    machine, so that the theorems about blocks apply to programs in its RAM. *)
From stdpp Require Import gmap.
From S2P Require Import Prelude IntMath MemoryMap Memory Sh4State Board Sh4Core Sh4Excp Sh4Inst.
From S2P Require Import Sh4InstMem Sh4Decode Sched Sh4Exec JitIL Sh4Jit Sh4JitSim Sh4JitRules.
From S2P Require Import Sh4JitCorrect Sh4JitFallback Sh4JitRun Sh4JitBlock.
Import memory_map memory intmath.

(** ** A machine with nothing but RAM on its bus meets the interface *)
Section ram_machine.
Context {W : Type} (get : W -> Memory) (put : Memory -> W -> W).
Abbreviation get_ram := (fun s : Sh4 W => get (world s)).
Abbreviation put_ram := (fun m (s : Sh4 W) => with_world (put m (world s)) s).
Abbreviation ram_handlers := (ram_intf get_ram put_ram).

Lemma ram_read_blind f addr : jit_blind (lift_read get_ram f addr).
Proof.
  split; [split|].
  - intros r v s _ _. unfold lift_read. change (world (setr r v s)) with (world s). by destruct (f _ _).
  - intros a s s'. unfold lift_read. destruct (f _ _); [|done]. by intros [= _ <-].
  - intros b a s. unfold lift_read. change (world (delayed b a s)) with (world s). by destruct (f _ _).
Qed.

Lemma ram_write_blind f addr w : jit_blind (lift_write get_ram put_ram f addr w).
Proof.
  split; [split|].
  - intros r v s _ _. unfold lift_write. change (world (setr r v s)) with (world s). by destruct (f _ _ _).
  - intros a s s'. unfold lift_write. destruct (f _ _ _); [|done]. intros [= _ <-] Hok. destruct Hok. by split.
  - intros b a s. unfold lift_write. change (world (delayed b a s)) with (world s). by destruct (f _ _ _).
Qed.

(** the regions of the RAM; the one that [jit_mem.c] looks for is the first *)
Lemma ram_regions (i : memory_interface (Sh4 W)) map :
  add_ram_regions i memory_map_init = Ok (tt, map) ->
  (forall r, r ∈ regions map -> intf r = i /\ range_mask r = 0x1fffffff /\ last_addr r <= 0x0fffffff) /\
  unmap map = None /\
  exists r, find_ram map = Some r /\ first_addr r = 0x0c000000 /\ last_addr r = 0x0cffffff /\
    range_mask r = 0x1fffffff /\ mask r = ADDR_AREA3_MASK.
Proof.
  intros Hmap. vm_compute in Hmap. injection Hmap as <-. split.
  { intros r Hr. repeat (apply elem_of_cons in Hr as [->|Hr]; [done|]).
    by apply not_elem_of_nil in Hr. }
  split; [done|]. by eexists.
Qed.

Context (map : memory_map (Sh4 W)) (Hmap : add_ram_regions ram_handlers memory_map_init = Ok (tt, map)).

Lemma ram_read_handler sz :
  sizeof sz = 2 ^ acc_shift sz /\
  read_fn ram_handlers sz = Some (lift_read get_ram (read_elem (acc_shift sz))).
Proof. by destruct sz. Qed.

(** aligned reads that [jit_mem.c] takes for reads of the RAM: those of its first window, and
    the last element below a multiple of 512 MB, where no region is *)
Lemma window_read k addr r (s s' : Sh4 W) sz v :
  find_ram map = Some r -> ram_window addr r = true -> in_range 32 addr ->
  acc_shift sz = k -> k <= 2 -> addr mod 2 ^ k = 0 ->
  memory_map_read sz map (u32 addr) s = Ok (v, s') ->
  v = load (Z.to_nat (2 ^ k)) (Z.land addr (mask r)) (get (world s)) /\ s' = s.
Proof.
  intros Hf Hw Ha Hk Hk2 Hal Hrun. destruct (ram_read_handler sz) as (Hsz & Hrd). rewrite Hk in Hsz, Hrd.
  assert (Hk' : k = 0 \/ k = 1 \/ k = 2) by (subst; destruct sz; cbn in *; lia).
  destruct (ram_regions _ _ Hmap) as (Hall & Hu & r' & Hr & Hfst & Hlst & Hrm & Hm).
  rewrite Hf in Hr. injection Hr as <-.
  unfold ram_window in Hw. rewrite Hfst, Hlst, Hrm in Hw. rewrite Hm.
  rewrite !land_window in Hw. apply andb_true_iff in Hw as [Hlo _]. rewrite Z.geb_leb, Z.leb_le in Hlo.
  assert (1 <= 2 ^ k <= 8) by (destruct Hk' as [->|[->| ->]]; lia).
  destruct (aligned_fits k addr ltac:(lia) Hal) as (Hfit & He & Hin).
  unfold memory_map_read in Hrun. rewrite (wrap_small 32 addr), Hsz in Hrun by done.
  destruct (Z.le_gt_cases (addr mod 2 ^ 29) 0x0fffffff) as [Hhi|Hhi].
  - destruct (area3_ram_region _ addr (2 ^ k) _ Hmap) as (ra & Hra & Hma & Hia); [done|lia|lia|done|].
    rewrite Hra, Hia, Hrd, Hma in Hrun. cbn [fmap option_fmap option_map call_ptr] in Hrun.
    unfold lift_read, read_elem in Hrun. rewrite area3_offset, Hin, He in Hrun. injection Hrun as <- <-.
    by rewrite area3_offset.
  - rewrite (proj2 (find_region_None _ _ _)) in Hrun; [by rewrite Hu in Hrun|].
    intros q Hq. destruct (Hall q Hq) as (_ & Hqm & Hql). unfold region_match.
    rewrite Hqm, access_last by (done || lia). apply andb_false_iff. right. apply Z.leb_gt. lia.
Qed.

Context {MCH : Machine W} (Hmem : mem_map = map).

Lemma ram_jit_machine : @JitMachine W MCH get.
Proof.
  destruct (ram_regions _ _ Hmap) as (Hall & Hu & _). split; rewrite Hmem.
  - intros r a f addr Hr Hf. destruct (Hall r Hr) as [E _]. rewrite E in Hf. injection Hf as <-.
    apply ram_read_blind.
  - intros r a f addr v Hr Hf. destruct (Hall r Hr) as [E _]. rewrite E in Hf. injection Hf as <-.
    apply ram_write_blind.
  - intros u a f addr E. by rewrite Hu in E.
  - intros u a f addr v E. by rewrite Hu in E.
  - intros r addr v s s' Hf Hw Ha Hal Hm. apply bind_inv in Hm as (v' & s1 & Hm & [= <- <-]).
    rewrite Hmem in Hm. by destruct (window_read 2 addr r s s1 A32 v') as [-> ->].
  - intros r addr v s s' Hf Hw Ha Hal Hm. apply bind_inv in Hm as (v' & s1 & Hm & [= <- <-]).
    rewrite Hmem in Hm. by destruct (window_read 1 addr r s s1 A16 v') as [-> ->].
Qed.
End ram_machine.

#[export] Instance board_host_ram : HostRam board := ram.
#[export] Instance board_jit_machine : JitMachine board.
Proof. by apply (ram_jit_machine ram with_ram board_map). Qed.

#[export] Instance timed_host_ram : HostRam timed_board := tb_ram.
#[export] Instance timed_jit_machine : JitMachine timed_board.
Proof.
  by apply (ram_jit_machine tb_ram (fun m w => {| tb_ram := m; tb_clk := tb_clk w |}) mem_map).
Qed.

(** ** A block on the board: [MOV #5,R1], [ADD R1,R2], [MOV.L R2,@R3], and [RTS] with
    [ADD #1,R2] in its slot *)
Definition block_code (pc : Z) : Z :=
  if pc =? 0x8c000000 then 0xe105
  else if pc =? 0x8c000002 then 0x321c
  else if pc =? 0x8c000004 then 0x2322
  else if pc =? 0x8c000006 then 0x000b
  else 0x7201.

Definition block_cpu : Sh4 board :=
  Eval vm_compute in
  cpu_with [(2, 7); (3, 0x8c001000); (SH4_REG_PR, 0x8c000100); (SH4_REG_SR, 0x40000000);
            (SH4_REG_PC, 0x8c000000)]
    (store 2 0 0xe105 (store 2 2 0x321c (store 2 4 0x2322 (store 2 6 0x000b (store 2 8 0x7201 ∅))))).

Definition after (s : Sh4 board) : Sh4 board :=
  match func (sh4_decode_inst_slow (inst_at block_code s)) (inst_at block_code s) s with
  | Ok (_, s') => s'
  | Err _ => s
  end.

Definition block_1 : Sh4 board := Eval vm_compute in after block_cpu.
Definition block_2 : Sh4 board := Eval vm_compute in after (next block_1).
Definition block_3 : Sh4 board := Eval vm_compute in after (next block_2).
Definition block_4 : Sh4 board := Eval vm_compute in after (next block_3).
Definition block_5 : Sh4 board := Eval vm_compute in after (next block_4).

Ltac block_check :=
  unfold op_at, fetched, not_aborted; rewrite ?sh4_decode_inst_slow_eq; vm_compute; reflexivity.

Lemma block_cpu_run :
  block_run block_code 5 block_cpu
    (with_delayed_branch false (setr SH4_REG_PC (delayed_branch_addr block_4) block_5)).
Proof.
  apply (run_inst _ _ _ block_1); [block_check..|].
  apply (run_inst _ _ _ block_2); [block_check..|].
  apply (run_inst _ _ _ block_3); [block_check..|].
  apply (run_delayed _ _ block_4 block_5); block_check.
Qed.

(** the front end's translation of [MOV.L R2,@R3] *)
Lemma jit_translates_witness :
  let op : InstOpcode board := sh4_decode_inst_slow 0x2322 in
  simulates (jit_disas (sh4_jit_delay_slot 2) (disas op) 0x8c000004 op 0x2322)
    (sh4_inst_binary_movl_gen_indgen 0x2322) 0x8c000004.
Proof.
  intros op. apply (jit_translates op).
  - subst op. rewrite <- sh4_decode_inst_slow_eq. apply decode_in. vm_compute. reflexivity.
  - vm_compute. reflexivity.
Defined.

(** [MOV.L R3,@-R3]: the word that the interpreter and a block leave at 0x8c000ffc *)
Lemma jit_predecrement_same_witness :
  simulates (sh4_jit_movl_rm_amrn (W := board) 0x8c000000 (sh4_decode_inst_slow 0x2336) 0x2336)
    (store_decremented 0x2336) 0x8c000000 /\
  let stored m := match m block_cpu with
                  | Ok (tt, s) => Some (load 4 0xffc (ram (world s)))
                  | Err _ => None
                  end in
  stored (store_decremented 0x2336) = Some 0x8c000ffc /\
  stored (sh4_inst_binary_movl_gen_inddecgen 0x2336) = Some 0x8c001000.
Proof.
  split; [by apply (jit_predecrement_same 0x8c000000 (sh4_decode_inst_slow 0x2336) 0x2336)|].
  split; vm_compute; reflexivity.
Defined.

(** the block above: compiled, run, and back at the caller with the sum plus one in R2 *)
Lemma jit_block_correct_witness :
  interp 5 block_cpu = Ok (tt, with_delayed_branch false
    (setr SH4_REG_PC (delayed_branch_addr block_4) block_5)) /\
  exists blk sl' sj,
    sh4_jit_compile_intp 5 0x8c000000 block_cpu = Ok (blk, block_cpu) /\
    code_block_intp_exec (intp_insts blk) (∅, setr SH4_REG_PC 0 block_cpu) =
      Ok (0x8c000100, (sl', sj)) /\
    setr SH4_REG_PC 0x8c000100 sj =
      with_delayed_branch_addr 0 (with_delayed_branch false (setr SH4_REG_PC 0x8c000100 block_5)) /\
    intp_cycle_count blk = 135.
Proof.
  destruct (jit_block_correct block_code 5 5 block_cpu block_cpu _ ∅ 0 (regs_okb_sound block_cpu eq_refl)
    eq_refl eq_refl block_cpu_run) as [Hi (blk & sl' & sj & Hc & Hx & Hs & Hn)].
  - repeat split; vm_compute; reflexivity.
  - vm_compute. congruence.
  - lia.
  - intros i. unfold slot_get. rewrite lookup_empty. by vm_compute.
  - split; [exact Hi|]. exists blk, sl', sj. split; [exact Hc|]. split; [exact Hx|].
    split; [exact Hs|]. rewrite Hn. unfold block_cycles. rewrite !sh4_decode_inst_slow_eq.
    vm_compute. reflexivity.
Defined.
