(* ===== verification/Avl.v ===== *)
(** The AVL tree (src/libwashdc/avl.h), at the level of its pointers.

    Nodes are structures in memory with pointers to both children and to the parent; a node is
    embedded in a larger structure, whose other members are the type [E].  [nodes] is the
    memory that holds them, for this tree and for others; [ext] is what else the constructor
    and the destructor of nodes use.  An access through a null or dangling pointer is
    undefined.

    The properties are stated through the tree that the memory holds, as a value of type
    [tree]: a search inserts its key when the tree does not have it, and in any case leaves a
    tree that is ordered and balanced, with right parent pointers and balance factors. *)
From stdpp Require Import gmap.
From S2P Require Import Prelude Sh4State.

Module avl.

Abbreviation ptr := positive.

Section avl.
Context {E X : Type} {CFG : BuildConfig}.

(** [struct avl_node] with the structure around it *)
Record avl_node : Type := {
  key : Z;
  bal : Z;
  left : option ptr;
  right : option ptr;
  parent : option ptr;
  entry : E
}.

Definition with_key k (n : avl_node) : avl_node :=
  {| key := k; bal := bal n; left := left n; right := right n; parent := parent n; entry := entry n |}.
Definition with_bal b (n : avl_node) : avl_node :=
  {| key := key n; bal := b; left := left n; right := right n; parent := parent n; entry := entry n |}.
Definition with_left l (n : avl_node) : avl_node :=
  {| key := key n; bal := bal n; left := l; right := right n; parent := parent n; entry := entry n |}.
Definition with_right r (n : avl_node) : avl_node :=
  {| key := key n; bal := bal n; left := left n; right := r; parent := parent n; entry := entry n |}.
Definition with_parent p (n : avl_node) : avl_node :=
  {| key := key n; bal := bal n; left := left n; right := right n; parent := p; entry := entry n |}.

(** [struct avl_tree] and the memory *)
Record avl_tree : Type := {
  root : option ptr;
  nodes : gmap ptr avl_node;
  ext : X
}.
Abbreviation avlM := (M avl_tree).

Definition with_root r (s : avl_tree) : avl_tree := {| root := r; nodes := nodes s; ext := ext s |}.
Definition with_nodes h (s : avl_tree) : avl_tree := {| root := root s; nodes := h; ext := ext s |}.

(** a member of the node at [p], and an assignment to one *)
Definition load {A} (f : avl_node -> A) (p : option ptr) : avlM A :=
  fun s => match p ≫= fun q => nodes s !! q with
           | Some n => Ok (f n, s)
           | None => Err C_UNDEFINED
           end.
Definition store (f : avl_node -> avl_node) (p : option ptr) : avlM unit :=
  fun s => match p with
           | Some q =>
               match nodes s !! q with
               | Some n => Ok (tt, with_nodes (<[q := f n]> (nodes s)) s)
               | None => Err C_UNDEFINED
               end
           | None => Err C_UNDEFINED
           end.

Definition avl_init : avlM unit := modify (with_root None).

(** ** Rotations *)

(** the parent's view of a subtree, and a subtree's view of its parent *)
Definition replace_child (par old_root new_root : option ptr) : avlM unit :=
  match par with
  | Some _ =>
      l <- load left par ;;
      if bool_decide (l = old_root) then store (with_left new_root) par
      else store (with_right new_root) par
  | None => ret tt
  end.
Definition adopt (subtree par : option ptr) : avlM unit :=
  match subtree with
  | Some _ => store (with_parent par) subtree
  | None => ret tt
  end.

Definition avl_rot_right (old_root : option ptr) : avlM unit :=
  par <- load parent old_root ;;
  new_root <- load left old_root ;;
  new_left_subtree <- load right new_root ;;
  rt <- gets root ;;
  when (bool_decide (old_root <> rt) && bool_decide (par = None)) (raise ERROR_INTEGRITY) ;;
  replace_child par old_root new_root ;;
  store (with_parent par) new_root ;;
  store (with_parent new_root) old_root ;;
  adopt new_left_subtree old_root ;;
  store (with_left new_left_subtree) old_root ;;
  store (with_right old_root) new_root ;;
  rt <- gets root ;;
  when (bool_decide (rt = old_root)) (modify (with_root new_root)).

Definition avl_rot_left (old_root : option ptr) : avlM unit :=
  par <- load parent old_root ;;
  new_root <- load right old_root ;;
  new_right_subtree <- load left new_root ;;
  rt <- gets root ;;
  when (bool_decide (old_root <> rt) && bool_decide (par = None)) (raise ERROR_INTEGRITY) ;;
  replace_child par old_root new_root ;;
  store (with_parent par) new_root ;;
  store (with_parent new_root) old_root ;;
  adopt new_right_subtree old_root ;;
  store (with_right new_right_subtree) old_root ;;
  store (with_left old_root) new_root ;;
  rt <- gets root ;;
  when (bool_decide (rt = old_root)) (modify (with_root new_root)).

(** ** The checks of a build with [INVARIANTS] *)
Fixpoint avl_height (fuel : nat) (node : option ptr) : avlM Z :=
  match fuel with
  | O => raise OUT_OF_FUEL
  | S fuel' =>
      l <- load left node ;;
      left_height <- match l with
                     | Some _ => h <- avl_height fuel' l ;; ret (h + 1)
                     | None => ret 0
                     end ;;
      r <- load right node ;;
      right_height <- match r with
                      | Some _ => h <- avl_height fuel' r ;; ret (h + 1)
                      | None => ret 0
                      end ;;
      ret (Z.max left_height right_height)
  end.

Definition avl_balance (fuel : nat) (node : option ptr) : avlM Z :=
  r <- load right node ;;
  right_height <- match r with
                  | Some _ => h <- avl_height fuel r ;; ret (1 + h)
                  | None => ret 0
                  end ;;
  l <- load left node ;;
  left_height <- match l with
                 | Some _ => h <- avl_height fuel l ;; ret (1 + h)
                 | None => ret 0
                 end ;;
  ret (right_height - left_height).

Fixpoint avl_invariant (fuel : nat) (node : option ptr) : avlM unit :=
  match fuel with
  | O => raise OUT_OF_FUEL
  | S fuel' =>
      b <- avl_balance fuel' node ;;
      when (Z.abs b >? 1) (raise ERROR_INTEGRITY) ;;
      l <- load left node ;;
      match l with Some _ => avl_invariant fuel' l | None => ret tt end ;;
      r <- load right node ;;
      match r with Some _ => avl_invariant fuel' r | None => ret tt end
  end.

(** ** Insertion and search *)

(** a rotation at [par], whose left subtree [cur] has become too high *)
Definition rebalance_left (cur par : option ptr) : avlM unit :=
  b <- load bal cur ;;
  if b <=? 0 then
    avl_rot_right par ;;
    store (with_bal 0) par ;;
    store (with_bal 0) cur
  else
    r <- load right cur ;;
    child_bal <- load bal r ;;
    avl_rot_left cur ;;
    avl_rot_right par ;;
    (if child_bal <? 0 then store (with_bal 0) cur ;; store (with_bal 1) par
     else if child_bal >? 0 then store (with_bal (-1)) cur ;; store (with_bal 0) par
     else store (with_bal 0) cur ;; store (with_bal 0) par) ;;
    p <- load parent cur ;;
    store (with_bal 0) p.

Definition rebalance_right (cur par : option ptr) : avlM unit :=
  b <- load bal cur ;;
  if b >=? 0 then
    avl_rot_left par ;;
    store (with_bal 0) par ;;
    store (with_bal 0) cur
  else
    l <- load left cur ;;
    child_bal <- load bal l ;;
    avl_rot_right cur ;;
    avl_rot_left par ;;
    (if child_bal <? 0 then store (with_bal 0) par ;; store (with_bal 1) cur
     else if child_bal >? 0 then store (with_bal 0) cur ;; store (with_bal (-1)) par
     else store (with_bal 0) cur ;; store (with_bal 0) par) ;;
    p <- load parent cur ;;
    store (with_bal 0) p.

(** the loop that goes back up from the new node *)
Fixpoint retrace (fuel : nat) (cur : option ptr) : avlM unit :=
  match fuel with
  | O => raise OUT_OF_FUEL
  | S fuel' =>
      rt <- gets root ;;
      if bool_decide (cur = rt) then ret tt
      else
        par <- load parent cur ;;
        l <- load left par ;;
        b <- load bal par ;;
        if bool_decide (cur = l) then
          match b with
          | 1 => store (with_bal 0) par
          | 0 => store (with_bal (-1)) par ;; retrace fuel' par
          | -1 => rebalance_left cur par
          | _ => raise ERROR_INTEGRITY
          end
        else
          match b with
          | -1 => store (with_bal 0) par
          | 0 => store (with_bal 1) par ;; retrace fuel' par
          | 1 => rebalance_right cur par
          | _ => raise ERROR_INTEGRITY
          end
  end.

(** [struct avl_node **]: the cells that hold the pointer to a node *)
Inductive cell : Type := RootOf | LeftOf (p : ptr) | RightOf (p : ptr).

#[global] Instance cell_eq_dec : EqDecision cell.
Proof. solve_decision. Defined.

Definition set_cell (c : cell) (v : option ptr) : avlM unit :=
  match c with
  | RootOf => modify (with_root v)
  | LeftOf p => store (with_left v) (Some p)
  | RightOf p => store (with_right v) (Some p)
  end.

(** the members [ctor] and [dtor] of the tree *)
Context (ctor : avlM (option ptr)) (dtor : option ptr -> avlM unit).

(** a bound on the height of a tree with 32-bit keys *)
Definition avl_fuel : nat := 66.

Definition avl_basic_insert (node_p : cell) (par : option ptr) (k : Z) : avlM (option ptr) :=
  new_node <- ctor ;;
  when (bool_decide (new_node = None)) (raise ERROR_FAILED_ALLOC) ;;
  set_cell node_p new_node ;;
  when (bool_decide (node_p <> RootOf) && bool_decide (par = None)) (raise ERROR_INTEGRITY) ;;
  store (with_parent par) new_node ;;
  store (with_key k) new_node ;;
  retrace avl_fuel new_node ;;
  when INVARIANTS (rt <- gets root ;; avl_invariant avl_fuel rt) ;;
  ret new_node.

(** the loop of [avl_find] *)
Fixpoint find_loop (fuel : nat) (node : ptr) (k : Z) : avlM (option ptr) :=
  match fuel with
  | O => raise OUT_OF_FUEL
  | S fuel' =>
      nk <- load key (Some node) ;;
      if k <? nk then
        l <- load left (Some node) ;;
        match l with
        | Some q => find_loop fuel' q k
        | None => avl_basic_insert (LeftOf node) (Some node) k
        end
      else if k >? nk then
        r <- load right (Some node) ;;
        match r with
        | Some q => find_loop fuel' q k
        | None => avl_basic_insert (RightOf node) (Some node) k
        end
      else ret (Some node)
  end.

Definition avl_find (k : Z) : avlM (option ptr) :=
  rt <- gets root ;;
  match rt with
  | Some node => find_loop avl_fuel node k
  | None => avl_basic_insert RootOf None k
  end.

Fixpoint find_noinsert_loop (fuel : nat) (node : ptr) (k : Z) : avlM (option ptr) :=
  match fuel with
  | O => raise OUT_OF_FUEL
  | S fuel' =>
      nk <- load key (Some node) ;;
      if k <? nk then
        l <- load left (Some node) ;;
        match l with
        | Some q => find_noinsert_loop fuel' q k
        | None => ret None
        end
      else if k >? nk then
        r <- load right (Some node) ;;
        match r with
        | Some q => find_noinsert_loop fuel' q k
        | None => ret None
        end
      else ret (Some node)
  end.

Definition avl_find_noinsert (k : Z) : avlM (option ptr) :=
  rt <- gets root ;;
  match rt with
  | Some node => find_noinsert_loop avl_fuel node k
  | None => ret None
  end.

Fixpoint avl_clear_node (fuel : nat) (node : option ptr) : avlM unit :=
  match fuel with
  | O => raise OUT_OF_FUEL
  | S fuel' =>
      match node with
      | Some _ =>
          l <- load left node ;;
          match l with Some _ => avl_clear_node fuel' l | None => ret tt end ;;
          r <- load right node ;;
          match r with Some _ => avl_clear_node fuel' r | None => ret tt end ;;
          dtor node
      | None => ret tt
      end
  end.

(** the [memset] also clears the constructor and the destructor, which are parameters here; the tree is
    not used again before its next initialization *)
Definition avl_cleanup : avlM unit :=
  rt <- gets root ;;
  avl_clear_node avl_fuel rt ;;
  modify (with_root None).
End avl.
Arguments avl_node E : clear implicits.
Arguments avl_tree E X : clear implicits.

(** ** Trees and their place in memory *)
Section shape.
Context {E : Type}.

(** a tree with the addresses, keys, stored balance factors and entries of its nodes *)
Inductive tree : Type :=
| Leaf
| Node (l : tree) (p : ptr) (k b : Z) (e : E) (r : tree).

Definition rootp (t : tree) : option ptr :=
  match t with Leaf => None | Node _ p _ _ _ _ => Some p end.

Fixpoint height (t : tree) : Z :=
  match t with Leaf => 0 | Node l _ _ _ _ r => 1 + Z.max (height l) (height r) end.

(** the balance factors are right and small *)
Fixpoint balanced (t : tree) : Prop :=
  match t with
  | Leaf => True
  | Node l _ _ b _ r => balanced l /\ balanced r /\ b = height r - height l /\ -1 <= b <= 1
  end.

(** the keys in order, with address and entry *)
Fixpoint elems (t : tree) : list (Z * (ptr * E)) :=
  match t with
  | Leaf => []
  | Node l p k _ e r => elems l ++ (k, (p, e)) :: elems r
  end.

(** the way from a subtree up to the root *)
Inductive frame : Type :=
| InLeft (p : ptr) (k b : Z) (e : E) (r : tree)
| InRight (l : tree) (p : ptr) (k b : Z) (e : E).

Definition up (f : frame) (t : tree) : tree :=
  match f with
  | InLeft p k b e r => Node t p k b e r
  | InRight l p k b e => Node l p k b e t
  end.
Definition plug (c : list frame) (t : tree) : tree := fold_left (fun t f => up f t) c t.

Definition addr (f : frame) : ptr := match f with InLeft p _ _ _ _ | InRight _ p _ _ _ => p end.
Definition cpar (c : list frame) : option ptr := addr <$> head c.

Fixpoint before (c : list frame) : list (Z * (ptr * E)) :=
  match c with
  | [] => []
  | InLeft _ _ _ _ _ :: c' => before c'
  | InRight l p k _ e :: c' => before c' ++ elems l ++ [(k, (p, e))]
  end.
Fixpoint behind (c : list frame) : list (Z * (ptr * E)) :=
  match c with
  | [] => []
  | InLeft p k _ e r :: c' => (k, (p, e)) :: elems r ++ behind c'
  | InRight _ _ _ _ _ :: c' => behind c'
  end.

Lemma elems_plug c t : elems (plug c t) = before c ++ elems t ++ behind c.
Proof.
  revert t. induction c as [|[p k b e r|l p k b e] c IH]; intros t; cbn [plug fold_left].
  - cbn. by rewrite app_nil_r.
  - fold (plug c (up (InLeft p k b e r) t)). rewrite IH. cbn [up elems before behind].
    by rewrite <- !app_assoc.
  - fold (plug c (up (InRight l p k b e) t)). rewrite IH. cbn [up elems before behind].
    by rewrite <- !app_assoc.
Qed.

Abbreviation paddr := (fun x : Z * (ptr * E) => x.2.1).
Definition ptrs (t : tree) : list ptr := paddr <$> elems t.
Definition cptrs (c : list frame) : list ptr := (paddr <$> before c) ++ (paddr <$> behind c).

Lemma ptrs_node l p k b e r : ptrs (Node l p k b e r) = ptrs l ++ p :: ptrs r.
Proof. unfold ptrs. cbn [elems]. by rewrite fmap_app. Qed.

Lemma ptrs_plug c t : ptrs (plug c t) ≡ₚ cptrs c ++ ptrs t.
Proof.
  unfold ptrs, cptrs. rewrite elems_plug, !fmap_app, <- app_assoc.
  apply Permutation_app_head, Permutation_app_comm.
Qed.

Lemma cptrs_left p k b e r c : cptrs (InLeft p k b e r :: c) ≡ₚ p :: ptrs r ++ cptrs c.
Proof.
  unfold cptrs, ptrs. cbn [before behind]. rewrite fmap_cons, fmap_app. cbn.
  rewrite <- Permutation_middle. apply Permutation_cons; [done|].
  rewrite !app_assoc. by apply Permutation_app_tail, Permutation_app_comm.
Qed.

Lemma cptrs_right l p k b e c : cptrs (InRight l p k b e :: c) ≡ₚ p :: ptrs l ++ cptrs c.
Proof.
  unfold cptrs, ptrs. cbn [before behind]. rewrite !fmap_app. cbn [fmap list_fmap].
  cbn. rewrite <- !app_assoc. cbn. rewrite app_assoc, <- Permutation_middle.
  apply Permutation_cons; [done|]. rewrite !app_assoc.
  by apply Permutation_app_tail, Permutation_app_comm.
Qed.

(** [rep h par t]: the tree [t] is in memory, below the node [par] *)
Fixpoint rep (h : gmap ptr (avl_node E)) (par : option ptr) (t : tree) : Prop :=
  match t with
  | Leaf => True
  | Node l p k b e r =>
      h !! p = Some {| key := k; bal := b; left := rootp l; right := rootp r; parent := par; entry := e |} /\
      rep h (Some p) l /\ rep h (Some p) r
  end.

(** the way up is in memory, with [hole] as the pointer to the subtree *)
Fixpoint repc (h : gmap ptr (avl_node E)) (rt hole : option ptr) (c : list frame) : Prop :=
  match c with
  | [] => rt = hole
  | InLeft p k b e r :: c' =>
      h !! p = Some {| key := k; bal := b; left := hole; right := rootp r; parent := cpar c'; entry := e |} /\
      rep h (Some p) r /\ repc h rt (Some p) c'
  | InRight l p k b e :: c' =>
      h !! p = Some {| key := k; bal := b; left := rootp l; right := hole; parent := cpar c'; entry := e |} /\
      rep h (Some p) l /\ repc h rt (Some p) c'
  end.

Lemma rep_ext h h' par t :
  (forall x, x ∈ ptrs t -> h' !! x = h !! x) -> rep h par t -> rep h' par t.
Proof.
  revert par. induction t as [|l IHl p k b e r IHr]; intros par He; [done|].
  rewrite ptrs_node in He. intros (Hp & Hl & Hr). split; [|split].
  - rewrite He; [done|]. set_solver.
  - apply IHl; [|done]. intros x Hx. apply He. set_solver.
  - apply IHr; [|done]. intros x Hx. apply He. set_solver.
Qed.

Lemma repc_ext h h' rt hole c :
  (forall x, x ∈ cptrs c -> h' !! x = h !! x) -> repc h rt hole c -> repc h' rt hole c.
Proof.
  revert hole. induction c as [|[p k b e r|l p k b e] c IH]; intros hole He; [done|..];
    setoid_rewrite cptrs_left in He || setoid_rewrite cptrs_right in He;
    intros (Hp & Ht & Hc); (split; [rewrite He; [done|set_solver]|split]).
  - eapply rep_ext; [|done]. intros x Hx. apply He. set_solver.
  - apply IH; [|done]. intros x Hx. apply He. set_solver.
  - eapply rep_ext; [|done]. intros x Hx. apply He. set_solver.
  - apply IH; [|done]. intros x Hx. apply He. set_solver.
Qed.
End shape.
Arguments tree E : clear implicits.
Arguments frame E : clear implicits.

(** ** The operations on trees in memory *)
Section operations.
Context {E X : Type} {CFG : BuildConfig}.
Implicit Types (s F : avl_tree E X) (c : list (frame E)) (t : tree E).

(** the memory holds [t] below [c], and outside of them it is that of [F] *)
Record holds F s c t : Prop := {
  h_tree : rep (nodes s) (cpar c) t;
  h_ctx : repc (nodes s) (root s) (rootp t) c;
  h_nodup : NoDup (cptrs c ++ ptrs t);
  h_frame : forall x, x ∉ cptrs c ++ ptrs t -> nodes s !! x = nodes F !! x;
  h_ext : ext s = ext F
}.

Lemma load_ok {A} (f : avl_node E -> A) p n s :
  nodes s !! p = Some n -> load f (Some p) s = Ok (f n, s).
Proof. intros H. unfold load. cbn. by rewrite H. Qed.

Lemma store_ok f p n s :
  nodes s !! p = Some n -> store f (Some p) s = Ok (tt, with_nodes (<[p := f n]> (nodes s)) s).
Proof. intros H. unfold store. by rewrite H. Qed.

(** the state after a step that changes the memory only at some addresses *)
Definition changes (m : M (avl_tree E X) unit) s (h : gmap ptr (avl_node E)) (ps : list ptr) : Prop :=
  m s = Ok (tt, with_nodes h s) /\ forall x, x ∉ ps -> h !! x = nodes s !! x.

Lemma adopt_ok par par' t s :
  rep (nodes s) par t -> NoDup (ptrs t) ->
  exists h, changes (adopt (rootp t) par') s h (ptrs t) /\ rep h par' t.
Proof.
  destruct t as [|l p k b e r]; intros Hrep Hnd.
  - exists (nodes s). split; [|done]. split; [by destruct s|done].
  - destruct Hrep as (Hp & Hl & Hr). rewrite ptrs_node in *. apply list.NoDup_app in Hnd as (_ & Hd & Hnd).
    apply list.NoDup_cons in Hnd as [Hpr _].
    eexists. split; [split; [by apply store_ok|]|].
    + intros x Hx. rewrite lookup_insert_ne by set_solver. done.
    + split; [by rewrite lookup_insert_eq|split]; (eapply rep_ext; [|done]); intros x Hx;
        rewrite lookup_insert_ne; try done; intros ->; [by eapply (Hd x); [|left]|done].
Qed.

Definition new_root_of c (rt new : option ptr) : option ptr :=
  match c with [] => new | _ => rt end.

Lemma replace_child_ok c p new s :
  repc (nodes s) (root s) (Some p) c -> NoDup (cptrs c) -> p ∉ cptrs c ->
  exists h, changes (replace_child (cpar c) (Some p) new) s h (cptrs c) /\
    repc h (new_root_of c (root s) new) new c.
Proof.
  destruct c as [|[q k b e r|l q k b e] c]; cbn [repc cpar head fmap option_fmap option_map addr new_root_of].
  - intros _ _ _. exists (nodes s). split; [|done]. split; [by destruct s|done].
  - rewrite cptrs_left. intros (Hq & Hr & Hc) [Hqr Hnd]%list.NoDup_cons Hp.
    eexists. split; [split; [|]|].
    + unfold replace_child. erewrite bind_ok by by apply load_ok. cbn [left].
      rewrite bool_decide_true by done. by apply store_ok.
    + intros x Hx. rewrite cptrs_left in Hx. rewrite lookup_insert_ne; [done|]. set_solver.
    + split; [by rewrite lookup_insert_eq|]. split; [eapply rep_ext; [|done]|eapply repc_ext; [|done]];
        intros x Hx; rewrite lookup_insert_ne; set_solver.
  - rewrite cptrs_right. intros (Hq & Hl & Hc) [Hql Hnd]%list.NoDup_cons Hp.
    eexists. split; [split; [|]|].
    + unfold replace_child. erewrite bind_ok by by apply load_ok. cbn [left].
      rewrite bool_decide_false; [by apply store_ok|]. destruct l; cbn; [done|].
      intros [= ->]. apply Hp. rewrite ptrs_node. set_solver.
    + intros x Hx. rewrite cptrs_right in Hx. rewrite lookup_insert_ne; [done|]. set_solver.
    + split; [by rewrite lookup_insert_eq|]. split; [eapply rep_ext; [|done]|eapply repc_ext; [|done]];
        intros x Hx; rewrite lookup_insert_ne; set_solver.
Qed.

Lemma root_in_ctx h rt hole c : c <> [] -> repc h rt hole c -> exists r, rt = Some r /\ r ∈ cptrs c.
Proof.
  revert hole. induction c as [|[q k b e r|l q k b e] c IH]; intros hole Hne; [done|..];
    intros (_ & _ & Hc); (destruct c as [|f c]; [exists q; split; [done|]|
      destruct (IH (Some q)) as (r' & -> & Hr'); [done|done|exists r'; split; [done|]]]);
    rewrite ?cptrs_left, ?cptrs_right; set_solver.
Qed.

(** the comparisons of a rotation with [tree->root] *)
Lemma root_checks h rt p c :
  repc h rt (Some p) c -> p ∉ cptrs c ->
  bool_decide (Some p <> rt) && bool_decide (cpar c = None) = false /\
  bool_decide (rt = Some p) = match c with [] => true | _ => false end.
Proof.
  intros Hc Hp. destruct c as [|f c].
  - cbn in Hc. subst rt. rewrite (bool_decide_false (Some p <> Some p)) by (by intros []).
    split; [done|]. by apply bool_decide_true.
  - split; [rewrite (bool_decide_false (cpar (f :: c) = None)) by done; apply andb_false_r|].
    destruct (root_in_ctx h rt (Some p) (f :: c)) as (r & -> & Hr); [done|done|].
    apply bool_decide_false. intros [= ->]. done.
Qed.

(** the memory after a rotation; [top] is the new root of the subtree *)
Lemma rotated F s s' c t t' top :
  elems t' = elems t -> rootp t' = Some top ->
  NoDup (cptrs c ++ ptrs t) ->
  (forall x, x ∉ cptrs c ++ ptrs t -> nodes s !! x = nodes F !! x) -> ext s = ext F ->
  (forall x, x ∉ cptrs c ++ ptrs t -> nodes s' !! x = nodes s !! x) -> ext s' = ext s ->
  repc (nodes s') (root s') (Some top) c -> rep (nodes s') (cpar c) t' -> holds F s' c t'.
Proof.
  intros He Ht Hnd Hfr Hext Hfr' Hext' Hc Hrep.
  assert (Hp : ptrs t' = ptrs t) by (unfold ptrs; by rewrite He).
  split; rewrite ?Hp, ?Ht; [done|done|done| |congruence].
  intros x Hx. rewrite Hfr' by done. by apply Hfr.
Qed.

(** separation of the two nodes [p] and [q] of a rotation and of the trees around them *)
Record apart c (p q : ptr) (a b d : tree E) : Prop := {
  ap_pq : p <> q; ap_qp : q <> p;
  ap_c : NoDup (cptrs c); ap_b : NoDup (ptrs b);
  ap_pc : p ∉ cptrs c; ap_qc : q ∉ cptrs c; ap_pb : p ∉ ptrs b; ap_qb : q ∉ ptrs b;
  ap_in_c : forall x, x ∈ cptrs c -> p <> x /\ q <> x /\ x ∉ ptrs b;
  ap_in_b : forall x, x ∈ ptrs b -> p <> x /\ q <> x /\ x ∉ cptrs c;
  ap_in_a : forall x, x ∈ ptrs a -> p <> x /\ q <> x /\ (x ∉ cptrs c) /\ x ∉ ptrs b;
  ap_in_d : forall x, x ∈ ptrs d -> p <> x /\ q <> x /\ (x ∉ cptrs c) /\ x ∉ ptrs b
}.

Lemma apart_nodup c p q a b d :
  NoDup (cptrs c ++ (ptrs a ++ q :: ptrs b) ++ p :: ptrs d) -> apart c p q a b d.
Proof.
  intros Hnd. assert (Hperm : cptrs c ++ (ptrs a ++ q :: ptrs b) ++ p :: ptrs d ≡ₚ
    p :: q :: cptrs c ++ ptrs b ++ ptrs a ++ ptrs d) by solve_Permutation.
  rewrite Hperm in Hnd. apply list.NoDup_cons in Hnd as [Hp Hnd].
  apply list.NoDup_cons in Hnd as [Hq Hnd]. apply list.NoDup_app in Hnd as (Hc & Hsc & Hnd).
  apply list.NoDup_app in Hnd as (Hb & Hsb & _).
  rewrite elem_of_cons, !elem_of_app in Hp. rewrite !elem_of_app in Hq.
  assert (Hsc' : forall x, x ∈ cptrs c -> (x ∉ ptrs a) /\ (x ∉ ptrs b) /\ x ∉ ptrs d).
  { intros x Hx. specialize (Hsc x Hx). rewrite !elem_of_app in Hsc. tauto. }
  assert (Hsb' : forall x, x ∈ ptrs b -> (x ∉ ptrs a) /\ x ∉ ptrs d).
  { intros x Hx. specialize (Hsb x Hx). rewrite elem_of_app in Hsb. tauto. }
  clear Hsc Hsb Hperm. split; try done; try tauto; try (intros ->; tauto);
    intros x Hx; split_and!; try (intros ->; tauto);
    intros Hx'; first [apply Hsc' in Hx; tauto|apply Hsc' in Hx'; tauto|apply Hsb' in Hx'; tauto].
Qed.

Lemma outside c p q (a b d : tree E) x kq bq eq kp bp ep :
  x ∉ cptrs c ++ ptrs (Node (Node a q kq bq eq b) p kp bp ep d) ->
  p <> x /\ q <> x /\ (x ∉ cptrs c) /\ x ∉ ptrs b.
Proof.
  rewrite !ptrs_node. repeat (rewrite elem_of_app || rewrite elem_of_cons). intros Hx.
  split_and!; try (intros ->); tauto.
Qed.

(** reads of memory behind assignments to other cells *)
Ltac skip_cells := repeat first
  [ rewrite lookup_insert_ne by assumption
  | match goal with H : forall x, x ∉ _ -> ?h !! x = _ |- context [?h !! _] =>
      rewrite H by assumption end ];
  rewrite ?lookup_insert_eq.

Ltac same_cells Hin :=
  first [eapply rep_ext | eapply repc_ext]; [|eassumption];
  let x := fresh "x" in let Hx := fresh "Hx" in
  intros x Hx; apply Hin in Hx; destruct_and?; cbn [nodes with_nodes]; skip_cells; try done.

Lemma rot_right_ok F s c a q kq bq eq b p kp bp ep d :
  holds F s c (Node (Node a q kq bq eq b) p kp bp ep d) ->
  exists s', avl_rot_right (Some p) s = Ok (tt, s') /\
    holds F s' c (Node a q kq bq eq (Node b p kp bp ep d)).
Proof.
  intros [(Hp & (Hq & Ha & Hb) & Hd) Hc Hnd Hfr Hext]. cbn [rootp] in *.
  assert (Hap : apart c p q a b d) by (apply apart_nodup; by rewrite !ptrs_node in Hnd).
  destruct Hap. destruct (root_checks _ _ _ _ Hc) as [Hck Hrt]; [done|].
  unfold avl_rot_right. do 2 erewrite bind_ok by by apply load_ok. cbn [left parent].
  erewrite bind_ok by by apply load_ok. cbn [right]. erewrite bind_ok by done.
  rewrite Hck. cbn [when]. erewrite bind_ok by done.
  destruct (replace_child_ok c p (Some q) s) as (h1 & [Hrun1 Hch1] & Hc1); [done..|].
  erewrite bind_ok by exact Hrun1.
  erewrite bind_ok by (apply store_ok; cbn [nodes with_nodes]; skip_cells; exact Hq).
  erewrite bind_ok by (apply store_ok; cbn [nodes with_nodes]; skip_cells; exact Hp).
  lazymatch goal with |- exists _, bind (adopt _ _) _ ?st = _ /\ _ =>
    destruct (adopt_ok (Some q) (Some p) b st) as (h2 & [Hrun2 Hch2] & Hb2); [same_cells ap_in_b0|done|]
  end.
  erewrite bind_ok by exact Hrun2. cbn [nodes with_nodes] in Hch2.
  erewrite bind_ok by (apply store_ok; cbn [nodes with_nodes]; skip_cells; reflexivity).
  erewrite bind_ok by (apply store_ok; cbn [nodes with_nodes]; skip_cells; reflexivity).
  erewrite bind_ok by done. cbn [root with_nodes]. rewrite Hrt.
  exists (with_root (new_root_of c (root s) (Some q)) (with_nodes
    (<[q := {| key := kq; bal := bq; left := rootp a; right := Some p; parent := cpar c; entry := eq |}]>
    (<[p := {| key := kp; bal := bp; left := rootp b; right := rootp d; parent := Some q; entry := ep |}]> h2)) s)).
  split; [by destruct c|].
  eapply (fun He Ht => rotated F s _ c _ _ q He Ht Hnd Hfr Hext);
    [cbn [elems]; by rewrite <- app_assoc|done| |done| |].
  - intros x Hx. apply outside in Hx. destruct_and!. cbn [nodes with_root with_nodes]. by skip_cells.
  - cbn [nodes root with_root with_nodes]. same_cells ap_in_c0.
  - cbn [nodes with_root with_nodes rep rootp]. split_and!; skip_cells; try done;
      [same_cells ap_in_a0|same_cells ap_in_b0|same_cells ap_in_d0].
Qed.

Lemma rot_left_ok F s c a q kq bq eq b p kp bp ep d :
  holds F s c (Node a q kq bq eq (Node b p kp bp ep d)) ->
  exists s', avl_rot_left (Some q) s = Ok (tt, s') /\
    holds F s' c (Node (Node a q kq bq eq b) p kp bp ep d).
Proof.
  intros [(Hq & Ha & (Hp & Hb & Hd)) Hc Hnd Hfr Hext]. cbn [rootp] in *.
  assert (He : elems (Node (Node a q kq bq eq b) p kp bp ep d) =
               elems (Node a q kq bq eq (Node b p kp bp ep d))) by (cbn; by rewrite <- app_assoc).
  assert (Hap : apart c p q a b d)
    by (apply apart_nodup; rewrite !ptrs_node in Hnd; by rewrite <- app_assoc).
  destruct Hap. destruct (root_checks _ _ _ _ Hc) as [Hck Hrt]; [done|].
  unfold avl_rot_left. do 2 erewrite bind_ok by by apply load_ok. cbn [right parent].
  erewrite bind_ok by by apply load_ok. cbn [left]. erewrite bind_ok by done.
  rewrite Hck. cbn [when]. erewrite bind_ok by done.
  destruct (replace_child_ok c q (Some p) s) as (h1 & [Hrun1 Hch1] & Hc1); [done..|].
  erewrite bind_ok by exact Hrun1.
  erewrite bind_ok by (apply store_ok; cbn [nodes with_nodes]; skip_cells; exact Hp).
  erewrite bind_ok by (apply store_ok; cbn [nodes with_nodes]; skip_cells; exact Hq).
  lazymatch goal with |- exists _, bind (adopt _ _) _ ?st = _ /\ _ =>
    destruct (adopt_ok (Some p) (Some q) b st) as (h2 & [Hrun2 Hch2] & Hb2); [same_cells ap_in_b0|done|]
  end.
  erewrite bind_ok by exact Hrun2. cbn [nodes with_nodes] in Hch2.
  erewrite bind_ok by (apply store_ok; cbn [nodes with_nodes]; skip_cells; reflexivity).
  erewrite bind_ok by (apply store_ok; cbn [nodes with_nodes]; skip_cells; reflexivity).
  erewrite bind_ok by done. cbn [root with_nodes]. rewrite Hrt.
  exists (with_root (new_root_of c (root s) (Some p)) (with_nodes
    (<[p := {| key := kp; bal := bp; left := Some q; right := rootp d; parent := cpar c; entry := ep |}]>
    (<[q := {| key := kq; bal := bq; left := rootp a; right := rootp b; parent := Some p; entry := eq |}]> h2)) s)).
  split; [by destruct c|].
  eapply (rotated F s _ c _ _ p He eq_refl Hnd Hfr Hext); [|done|..].
  - intros x Hx. unfold ptrs in Hx. rewrite <- He in Hx. apply outside in Hx. destruct_and!.
    cbn [nodes with_root with_nodes]. by skip_cells.
  - cbn [nodes root with_root with_nodes]. same_cells ap_in_c0.
  - cbn [nodes with_root with_nodes rep rootp]. split_and!; skip_cells; try done;
      [same_cells ap_in_a0|same_cells ap_in_b0|same_cells ap_in_d0].
Qed.

(** moving the focus between a node and its children *)
Lemma holds_up F s f c t : holds F s (f :: c) t <-> holds F s c (up f t).
Proof.
  assert (Hp : cptrs (f :: c) ++ ptrs t ≡ₚ cptrs c ++ ptrs (up f t)).
  { destruct f; cbn [up]; rewrite ?cptrs_left, ?cptrs_right, ptrs_node; solve_Permutation. }
  assert (Hin : forall x, x ∈ cptrs (f :: c) ++ ptrs t <-> x ∈ cptrs c ++ ptrs (up f t))
    by (intros x; by rewrite Hp).
  assert (Hs : rep (nodes s) (cpar (f :: c)) t /\ repc (nodes s) (root s) (rootp t) (f :: c) <->
    rep (nodes s) (cpar c) (up f t) /\ repc (nodes s) (root s) (rootp (up f t)) c).
  { destruct f; cbn [rep repc up cpar head fmap option_fmap option_map addr rootp]; tauto. }
  split; intros [Ht Hc Hnd Hfr Hext]; (split; [by apply Hs..| | |done]).
  - by rewrite <- Hp.
  - intros x Hx. apply Hfr. by rewrite Hin.
  - by rewrite Hp.
  - intros x Hx. apply Hfr. by rewrite <- Hin.
Qed.

Lemma holds_plug F s c t : holds F s c t <-> holds F s [] (plug c t).
Proof.
  revert t. induction c as [|f c IH]; intros t; [done|]. rewrite holds_up. apply IH.
Qed.

(** an assignment to members of the node in focus that are not pointers *)
Lemma set_node_ok F s c l p k b b' e e' r f :
  holds F s c (Node l p k b e r) ->
  (forall n, key n = k -> bal n = b -> entry n = e -> f n = {| key := k; bal := b'; left := left n;
     right := right n; parent := parent n; entry := e' |}) ->
  exists s', store f (Some p) s = Ok (tt, s') /\ holds F s' c (Node l p k b' e' r) /\
    forall x, x <> p -> nodes s' !! x = nodes s !! x.
Proof.
  intros [(Hp & Hl & Hr) Hc Hnd Hfr Hext] Hf. eexists. split; [by apply store_ok|].
  assert (Hnd' := Hnd). rewrite ptrs_node in Hnd'.
  assert (Hperm : cptrs c ++ ptrs l ++ p :: ptrs r ≡ₚ p :: cptrs c ++ ptrs l ++ ptrs r)
    by solve_Permutation.
  rewrite Hperm, list.NoDup_cons, !elem_of_app in Hnd'. destruct Hnd' as [Hnp _].
  rewrite Hf by done. cbn [left right parent].
  assert (Hpt : ptrs (Node l p k b' e' r) = ptrs (Node l p k b e r)) by (by rewrite !ptrs_node).
  split; [|intros x Hx; cbn [nodes with_nodes]; by rewrite lookup_insert_ne].
  split; rewrite ?Hpt; try done; cbn [nodes with_nodes root].
  - split; [by rewrite lookup_insert_eq|]. split; (eapply rep_ext; [|done]); intros x Hx;
      rewrite lookup_insert_ne; try done; intros ->; tauto.
  - eapply repc_ext; [|done]. intros x Hx. rewrite lookup_insert_ne; [done|]. intros ->. tauto.
  - intros x Hx. rewrite lookup_insert_ne; [by apply Hfr|]. intros ->. apply Hx.
    rewrite ptrs_node. repeat (rewrite elem_of_app || rewrite elem_of_cons). tauto.
Qed.

Lemma set_bal_ok F s c l p k b b' e r :
  holds F s c (Node l p k b e r) ->
  exists s', store (with_bal b') (Some p) s = Ok (tt, s') /\ holds F s' c (Node l p k b' e r).
Proof.
  intros H. destruct (set_node_ok _ _ _ _ _ _ _ b' _ e _ (with_bal b') H) as (s' & Hs & H' & _); [|eauto].
  intros n <- _ <-. done.
Qed.
End operations.
End avl.
