(* ===== verification/AvlFind.v ===== *)
(** Search and insertion in the AVL tree: the loop that goes back to the root restores the
    balance, and a search finds or inserts its key. *)
From stdpp Require Import gmap sorting.
From S2P Require Import Prelude Sh4State Board Avl.
Import avl.

Section retrace.
Context {E X : Type} {CFG : BuildConfig}.
Implicit Types (s F : avl_tree E X) (c : list (frame E)) (t : tree E).

Lemma height_nonneg t : 0 <= height t.
Proof. induction t; cbn [height]; lia. Qed.

(** the nodes above a subtree of height [h] are balanced *)
Fixpoint above_balanced c (h : Z) : Prop :=
  match c with
  | [] => True
  | InLeft _ _ b _ r :: c' =>
      balanced r /\ b = height r - h /\ -1 <= b <= 1 /\ above_balanced c' (1 + Z.max h (height r))
  | InRight l _ _ b _ :: c' =>
      balanced l /\ b = h - height l /\ -1 <= b <= 1 /\ above_balanced c' (1 + Z.max (height l) h)
  end.

Lemma balanced_plug c t : balanced t /\ above_balanced c (height t) <-> balanced (plug c t).
Proof.
  revert t. induction c as [|[p k b e r|l p k b e] c IH]; intros t; cbn [above_balanced].
  - cbn. tauto.
  - cbn [plug fold_left]. fold (plug c (up (InLeft p k b e r) t)). rewrite <- IH.
    cbn [up balanced height]. tauto.
  - cbn [plug fold_left]. fold (plug c (up (InRight l p k b e) t)). rewrite <- IH.
    cbn [up balanced height]. tauto.
Qed.

Lemma height_plug c t : height t + Z.of_nat (length c) <= height (plug c t).
Proof.
  revert t. induction c as [|f c IH]; intros t; [cbn; lia|].
  cbn [plug fold_left length]. fold (plug c (up f t)). specialize (IH (up f t)).
  destruct f; cbn [up height] in *; lia.
Qed.

(** reads of the node in focus *)
Lemma load_focus {A} (f : avl_node E -> A) F s c l p k b e r :
  holds F s c (Node l p k b e r) ->
  load f (Some p) s = Ok (f {| key := k; bal := b; left := rootp l; right := rootp r;
                               parent := cpar c; entry := e |}, s).
Proof. intros [[Hp _] _ _ _]. by apply load_ok. Qed.

Lemma load_up {A} (f : avl_node E -> A) F s g c t :
  holds F s (g :: c) t ->
  load f (Some (addr g)) s =
    Ok (f match g with
          | InLeft p k b e r => {| key := k; bal := b; left := rootp t; right := rootp r;
                                   parent := cpar c; entry := e |}
          | InRight l p k b e => {| key := k; bal := b; left := rootp l; right := rootp t;
                                    parent := cpar c; entry := e |}
          end, s).
Proof. rewrite holds_up. destruct g; cbn [up addr]; intros H; by erewrite load_focus by exact H. Qed.

Lemma focus_left F s c l p k b e r :
  holds F s c (Node l p k b e r) <-> holds F s (InLeft p k b e r :: c) l.
Proof. symmetry. apply (holds_up F s (InLeft p k b e r) c l). Qed.
Lemma focus_right F s c l p k b e r :
  holds F s c (Node l p k b e r) <-> holds F s (InRight l p k b e :: c) r.
Proof. symmetry. apply (holds_up F s (InRight l p k b e) c r). Qed.

Lemma set_bal_left F s c a q kq bq eq b p k bp e r b' :
  holds F s c (Node (Node a q kq bq eq b) p k bp e r) ->
  exists s', store (with_bal b') (Some q) s = Ok (tt, s') /\
    holds F s' c (Node (Node a q kq b' eq b) p k bp e r).
Proof.
  intros H%focus_left. destruct (set_bal_ok _ _ _ _ _ _ _ b' _ _ H) as (s' & Hs & H').
  exists s'. split; [done|]. by apply focus_left.
Qed.
Lemma set_bal_right F s c l p k bp e a q kq bq eq b b' :
  holds F s c (Node l p k bp e (Node a q kq bq eq b)) ->
  exists s', store (with_bal b') (Some q) s = Ok (tt, s') /\
    holds F s' c (Node l p k bp e (Node a q kq b' eq b)).
Proof.
  intros H%focus_right. destruct (set_bal_ok _ _ _ _ _ _ _ b' _ _ H) as (s' & Hs & H').
  exists s'. split; [done|]. by apply focus_right.
Qed.

(** two assignments, to the left and then to the right child or the other way around *)
Lemma set_bals F s c a q kq bq eq b p k bp e a' q' kq' bq' eq' b' vl vr :
  holds F s c (Node (Node a q kq bq eq b) p k bp e (Node a' q' kq' bq' eq' b')) ->
  (exists s', bind (store (with_bal vl) (Some q)) (fun _ => store (with_bal vr) (Some q')) s = Ok (tt, s') /\
     holds F s' c (Node (Node a q kq vl eq b) p k bp e (Node a' q' kq' vr eq' b'))) /\
  (exists s', bind (store (with_bal vr) (Some q')) (fun _ => store (with_bal vl) (Some q)) s = Ok (tt, s') /\
     holds F s' c (Node (Node a q kq vl eq b) p k bp e (Node a' q' kq' vr eq' b'))).
Proof.
  intros H. split.
  - destruct (set_bal_left _ _ _ _ _ _ _ _ _ _ _ _ _ _ vl H) as (s1 & Hs & H1).
    erewrite bind_ok by exact Hs. by apply set_bal_right with (1 := H1).
  - destruct (set_bal_right _ _ _ _ _ _ _ _ _ _ _ _ _ _ vr H) as (s1 & Hs & H1).
    erewrite bind_ok by exact Hs. by apply set_bal_left with (1 := H1).
Qed.

(** the balance factor of the parent *)
Lemma set_bal_up F s g c t b' :
  holds F s (g :: c) t ->
  exists s', store (with_bal b') (Some (addr g)) s = Ok (tt, s') /\
    holds F s' (match g with InLeft p k _ e r => InLeft p k b' e r
                | InRight l p k _ e => InRight l p k b' e end :: c) t.
Proof.
  rewrite holds_up. destruct g as [p k b e r|l p k b e]; cbn [up addr]; intros H;
    destruct (set_bal_ok _ _ _ _ _ _ _ b' _ _ H) as (s' & Hs & H'); exists s'; (split; [done|]);
    by rewrite holds_up.
Qed.

Lemma rebalance_left_single F s c a p kp bp ep b q kq bq eq d :
  holds F s c (Node (Node a p kp bp ep b) q kq bq eq d) -> bp <= 0 ->
  exists s', rebalance_left (Some p) (Some q) s = Ok (tt, s') /\ holds F s' c (Node a p kp 0 ep (Node b q kq 0 eq d)).
Proof.
  intros H Hb. pose proof (proj1 (focus_left _ _ _ _ _ _ _ _ _) H) as Hf.
  unfold rebalance_left. erewrite bind_ok by by eapply load_focus. cbn [bal].
  replace (bp <=? 0) with true by lia.
  destruct (rot_right_ok _ _ _ _ _ _ _ _ _ _ _ _ _ _ H) as (s1 & Hr & H1). erewrite bind_ok by exact Hr.
  apply focus_right in H1.
  destruct (set_bal_ok _ _ _ _ _ _ _ 0 _ _ H1) as (s2 & Hs2 & H2). erewrite bind_ok by exact Hs2.
  destruct (set_bal_up _ _ _ _ _ 0 H2) as (s3 & Hs3 & H3). exists s3. split; [exact Hs3|].
  by apply focus_right.
Qed.

Lemma rebalance_right_single F s c a p kp bp ep b q kq bq eq d :
  holds F s c (Node d q kq bq eq (Node b p kp bp ep a)) -> 0 <= bp ->
  exists s', rebalance_right (Some p) (Some q) s = Ok (tt, s') /\ holds F s' c (Node (Node d q kq 0 eq b) p kp 0 ep a).
Proof.
  intros H Hb. pose proof (proj1 (focus_right _ _ _ _ _ _ _ _ _) H) as Hf.
  unfold rebalance_right. erewrite bind_ok by by eapply load_focus. cbn [bal].
  replace (bp >=? 0) with true by lia.
  destruct (rot_left_ok _ _ _ _ _ _ _ _ _ _ _ _ _ _ H) as (s1 & Hr & H1). erewrite bind_ok by exact Hr.
  apply focus_left in H1.
  destruct (set_bal_ok _ _ _ _ _ _ _ 0 _ _ H1) as (s2 & Hs2 & H2). erewrite bind_ok by exact Hs2.
  destruct (set_bal_up _ _ _ _ _ 0 H2) as (s3 & Hs3 & H3). exists s3. split; [exact Hs3|].
  by apply focus_left.
Qed.

Lemma rebalance_left_double F s c a p kp bp ep b1 g kg bg eg b2 q kq bq eq d :
  holds F s c (Node (Node a p kp bp ep (Node b1 g kg bg eg b2)) q kq bq eq d) -> 0 < bp ->
  exists s', rebalance_left (Some p) (Some q) s = Ok (tt, s') /\
    holds F s' c (Node (Node a p kp (if bg >? 0 then -1 else 0) ep b1) g kg 0 eg
                       (Node b2 q kq (if bg <? 0 then 1 else 0) eq d)).
Proof.
  intros H Hb. pose proof (proj1 (focus_left _ _ _ _ _ _ _ _ _) H) as Hf.
  pose proof (proj1 (focus_right _ _ _ _ _ _ _ _ _) Hf) as Hg.
  unfold rebalance_left. erewrite bind_ok by by eapply load_focus. cbn [bal].
  replace (bp <=? 0) with false by lia.
  erewrite bind_ok by by eapply load_focus. cbn [right rootp].
  erewrite bind_ok by by eapply load_focus. cbn [bal].
  destruct (rot_left_ok _ _ _ _ _ _ _ _ _ _ _ _ _ _ Hf) as (s1 & Hr1 & H1). erewrite bind_ok by exact Hr1.
  apply focus_left in H1.
  destruct (rot_right_ok _ _ _ _ _ _ _ _ _ _ _ _ _ _ H1) as (s2 & Hr2 & H2). erewrite bind_ok by exact Hr2.
  assert (finish : forall s3 bl br,
    holds F s3 c (Node (Node a p kp bl ep b1) g kg bg eg (Node b2 q kq br eq d)) ->
    exists s4, (p' <- load parent (Some p) ;; store (with_bal 0) p') s3 = Ok (tt, s4) /\
      holds F s4 c (Node (Node a p kp bl ep b1) g kg 0 eg (Node b2 q kq br eq d))).
  { intros s3 bl br H3. pose proof (proj1 (focus_left _ _ _ _ _ _ _ _ _) H3) as H4.
    erewrite bind_ok by by eapply load_focus. cbn [parent cpar head fmap option_fmap option_map addr].
    by apply set_bal_ok with (1 := H3). }
  destruct (bg <? 0) eqn:E1; [|destruct (bg >? 0) eqn:E2].
  - destruct (set_bals _ _ _ _ _ _ _ _ _ _ _ _ _ _ _ _ _ _ _ (0) (1) H2) as [Hlr Hrl].
    destruct Hlr as (s3 & Hs3 & H3). erewrite bind_ok by exact Hs3.
    replace (bg >? 0) with false by lia.
    exact (finish _ _ _ H3).
  - destruct (set_bals _ _ _ _ _ _ _ _ _ _ _ _ _ _ _ _ _ _ _ (-1) (0) H2) as [Hlr Hrl].
    destruct Hlr as (s3 & Hs3 & H3). erewrite bind_ok by exact Hs3.
    replace (bg >? 0) with true by lia.
    exact (finish _ _ _ H3).
  - destruct (set_bals _ _ _ _ _ _ _ _ _ _ _ _ _ _ _ _ _ _ _ (0) (0) H2) as [Hlr Hrl].
    destruct Hlr as (s3 & Hs3 & H3). erewrite bind_ok by exact Hs3.
    replace (bg >? 0) with false by lia.
    exact (finish _ _ _ H3).
Qed.

Lemma rebalance_right_double F s c a p kp bp ep b1 g kg bg eg b2 q kq bq eq d :
  holds F s c (Node d q kq bq eq (Node (Node b2 g kg bg eg b1) p kp bp ep a)) -> bp < 0 ->
  exists s', rebalance_right (Some p) (Some q) s = Ok (tt, s') /\
    holds F s' c (Node (Node d q kq (if bg >? 0 then -1 else 0) eq b2) g kg 0 eg
                       (Node b1 p kp (if bg <? 0 then 1 else 0) ep a)).
Proof.
  intros H Hb. pose proof (proj1 (focus_right _ _ _ _ _ _ _ _ _) H) as Hf.
  pose proof (proj1 (focus_left _ _ _ _ _ _ _ _ _) Hf) as Hg.
  unfold rebalance_right. erewrite bind_ok by by eapply load_focus. cbn [bal].
  replace (bp >=? 0) with false by lia.
  erewrite bind_ok by by eapply load_focus. cbn [left rootp].
  erewrite bind_ok by by eapply load_focus. cbn [bal].
  destruct (rot_right_ok _ _ _ _ _ _ _ _ _ _ _ _ _ _ Hf) as (s1 & Hr1 & H1). erewrite bind_ok by exact Hr1.
  apply focus_right in H1.
  destruct (rot_left_ok _ _ _ _ _ _ _ _ _ _ _ _ _ _ H1) as (s2 & Hr2 & H2). erewrite bind_ok by exact Hr2.
  assert (finish : forall s3 bl br,
    holds F s3 c (Node (Node d q kq bl eq b2) g kg bg eg (Node b1 p kp br ep a)) ->
    exists s4, (p' <- load parent (Some p) ;; store (with_bal 0) p') s3 = Ok (tt, s4) /\
      holds F s4 c (Node (Node d q kq bl eq b2) g kg 0 eg (Node b1 p kp br ep a))).
  { intros s3 bl br H3. pose proof (proj1 (focus_right _ _ _ _ _ _ _ _ _) H3) as H4.
    erewrite bind_ok by by eapply load_focus. cbn [parent cpar head fmap option_fmap option_map addr].
    by apply set_bal_ok with (1 := H3). }
  destruct (bg <? 0) eqn:E1; [|destruct (bg >? 0) eqn:E2].
  - destruct (set_bals _ _ _ _ _ _ _ _ _ _ _ _ _ _ _ _ _ _ _ (0) (1) H2) as [Hlr Hrl].
    destruct Hlr as (s3 & Hs3 & H3). erewrite bind_ok by exact Hs3.
    replace (bg >? 0) with false by lia.
    exact (finish _ _ _ H3).
  - destruct (set_bals _ _ _ _ _ _ _ _ _ _ _ _ _ _ _ _ _ _ _ (-1) (0) H2) as [Hlr Hrl].
    destruct Hrl as (s3 & Hs3 & H3). erewrite bind_ok by exact Hs3.
    replace (bg >? 0) with true by lia.
    exact (finish _ _ _ H3).
  - destruct (set_bals _ _ _ _ _ _ _ _ _ _ _ _ _ _ _ _ _ _ _ (0) (0) H2) as [Hlr Hrl].
    destruct Hrl as (s3 & Hs3 & H3). erewrite bind_ok by exact Hs3.
    replace (bg >? 0) with false by lia.
    exact (finish _ _ _ H3).
Qed.

(** a left subtree that has become too high *)
Lemma rebalance_left_ok F s c l p kp bp ep r q kq bq eq d :
  holds F s c (Node (Node l p kp bp ep r) q kq bq eq d) ->
  balanced (Node l p kp bp ep r) -> bp <> 0 \/ (l = Leaf /\ r = Leaf) -> balanced d ->
  height d - (height (Node l p kp bp ep r) - 1) = -1 ->
  exists s' t', rebalance_left (Some p) (Some q) s = Ok (tt, s') /\ holds F s' c t' /\
    balanced t' /\ elems t' = elems (Node (Node l p kp bp ep r) q kq bq eq d) /\
    height t' = height (Node l p kp bp ep r).
Proof.
  intros H (Hl & Hr & Hbp & Hbr) Hg Hd Hh. cbn [height] in Hh.
  pose proof (height_nonneg d). pose proof (height_nonneg l). pose proof (height_nonneg r).
  assert (bp <> 0) by (destruct Hg as [?|[-> ->]]; [done|cbn [height] in *; lia]).
  destruct (Z.le_gt_cases bp 0) as [Hle|Hgt].
  - destruct (rebalance_left_single _ _ _ _ _ _ _ _ _ _ _ _ _ _ H Hle) as (s' & Hs & H').
    do 2 eexists. split_and!; [exact Hs|exact H'|..]; cbn [balanced height elems];
      [split_and!; try done; lia|by rewrite <- ?app_assoc|lia].
  - destruct r as [|b1 g kg bg eg b2]; [cbn [height] in *; lia|].
    destruct (rebalance_left_double _ _ _ _ _ _ _ _ _ _ _ _ _ _ _ _ _ _ _ H Hgt) as (s' & Hs & H').
    cbn [balanced height] in *. destruct_and?. pose proof (height_nonneg b1). pose proof (height_nonneg b2).
    do 2 eexists. split_and!; [exact Hs|exact H'|..]; cbn [balanced height elems];
      [|by rewrite <- ?app_assoc; cbn; rewrite <- ?app_assoc; cbn; rewrite <- ?app_assoc|lia].
    destruct (Z.gtb_spec bg 0), (Z.ltb_spec bg 0); split_and!; try done; lia.
Qed.

(** a right subtree that has become too high *)
Lemma rebalance_right_ok F s c l p kp bp ep r q kq bq eq d :
  holds F s c (Node d q kq bq eq (Node l p kp bp ep r)) ->
  balanced (Node l p kp bp ep r) -> bp <> 0 \/ (l = Leaf /\ r = Leaf) -> balanced d ->
  height (Node l p kp bp ep r) - 1 - height d = 1 ->
  exists s' t', rebalance_right (Some p) (Some q) s = Ok (tt, s') /\ holds F s' c t' /\
    balanced t' /\ elems t' = elems (Node d q kq bq eq (Node l p kp bp ep r)) /\
    height t' = height (Node l p kp bp ep r).
Proof.
  intros H (Hl & Hr & Hbp & Hbr) Hg Hd Hh. cbn [height] in Hh.
  pose proof (height_nonneg d). pose proof (height_nonneg l). pose proof (height_nonneg r).
  assert (bp <> 0) by (destruct Hg as [?|[-> ->]]; [done|cbn [height] in *; lia]).
  destruct (Z.le_gt_cases 0 bp) as [Hle|Hgt].
  - destruct (rebalance_right_single _ _ _ _ _ _ _ _ _ _ _ _ _ _ H Hle) as (s' & Hs & H').
    do 2 eexists. split_and!; [exact Hs|exact H'|..]; cbn [balanced height elems];
      [split_and!; try done; lia|by rewrite <- ?app_assoc|lia].
  - destruct l as [|b2 g kg bg eg b1]; [cbn [height] in *; lia|].
    destruct (rebalance_right_double _ _ _ _ _ _ _ _ _ _ _ _ _ _ _ _ _ _ _ H Hgt) as (s' & Hs & H').
    cbn [balanced height] in *. destruct_and?. pose proof (height_nonneg b1). pose proof (height_nonneg b2).
    do 2 eexists. split_and!; [exact Hs|exact H'|..]; cbn [balanced height elems];
      [|by rewrite <- ?app_assoc; cbn; rewrite <- ?app_assoc; cbn; rewrite <- ?app_assoc|lia].
    destruct (Z.gtb_spec bg 0), (Z.ltb_spec bg 0); split_and!; try done; lia.
Qed.

(** the subtree in focus is not the whole tree *)
Lemma not_root F s g c t :
  holds F s (g :: c) t -> bool_decide (rootp t = root s) = false.
Proof.
  intros [_ Hc Hnd _].
  destruct (root_in_ctx (nodes s) (root s) (rootp t) (g :: c)) as (r & Hr & Hin); [done|done|].
  apply bool_decide_false. rewrite Hr. intros Ht. apply list.NoDup_app in Hnd as (_ & Hd & _).
  destruct t as [|l p k b e r']; [done|]. injection Ht as ->. apply (Hd r Hin). rewrite ptrs_node. set_solver.
Qed.

(** the test for the left child *)
Lemma which_child F s g c l p k b e r :
  holds F s (g :: c) (Node l p k b e r) ->
  bool_decide (Some p = match g with InLeft _ _ _ _ _ => Some p | InRight l' _ _ _ _ => rootp l' end) =
  match g with InLeft _ _ _ _ _ => true | InRight _ _ _ _ _ => false end.
Proof.
  intros [_ _ Hnd _]. destruct g as [q kq bq eq d|d q kq bq eq]; [by apply bool_decide_true|].
  apply bool_decide_false. destruct d as [|dl x kx bx ex dr]; [done|]. intros [= <-].
  rewrite cptrs_right, !ptrs_node in Hnd. apply list.NoDup_app in Hnd as (_ & Hd & _).
  apply (Hd p); set_solver.
Qed.

Definition grown t : Prop :=
  match t with
  | Leaf => False
  | Node l _ _ b _ r => b <> 0 \/ (l = Leaf /\ r = Leaf)
  end.

Definition retraced F s c t (m : M (avl_tree E X) unit) : Prop :=
  exists s' t', m s = Ok (tt, s') /\ holds F s' [] t' /\ balanced t' /\ elems t' = elems (plug c t).

(** the end of the loop: the subtree has the height that its parent expects *)
Lemma retrace_end F s s' c t t' m :
  m s = Ok (tt, s') -> holds F s' c t' -> balanced t' -> above_balanced c (height t') ->
  elems t' = elems t -> retraced F s c t m.
Proof.
  intros Hm H Hb Ha He. exists s', (plug c t'). split; [done|]. split; [by apply (proj1 (holds_plug F s' c t'))|].
  split; [by apply balanced_plug|]. by rewrite !elems_plug, He.
Qed.

Ltac replace_height Ha :=
  lazymatch type of Ha with above_balanced _ ?h =>
    lazymatch goal with |- above_balanced _ ?h' => replace h' with h by (cbn [height] in *; lia) end
  end.

(** the parent gets the balance factor [b'] and the loop ends, or goes on from there *)
Lemma retrace_store F s c l q kq bq eq r b' :
  holds F s c (Node l q kq bq eq r) -> balanced (Node l q kq b' eq r) ->
  above_balanced c (height (Node l q kq b' eq r)) ->
  retraced F s c (Node l q kq bq eq r) (store (with_bal b') (Some q)).
Proof.
  intros H Hb Ha. destruct (set_bal_ok _ _ _ _ _ _ _ b' _ _ H) as (s1 & Hs & H').
  by eapply (retrace_end F s s1 c _ _ _ Hs H').
Qed.

Lemma retrace_up F s c l q kq bq eq r b' m :
  holds F s c (Node l q kq bq eq r) ->
  (forall s', holds F s' c (Node l q kq b' eq r) -> retraced F s' c (Node l q kq b' eq r) m) ->
  retraced F s c (Node l q kq bq eq r) (bind (store (with_bal b') (Some q)) (fun _ => m)).
Proof.
  intros H Hm. destruct (set_bal_ok _ _ _ _ _ _ _ b' _ _ H) as (s1 & Hs & H').
  destruct (Hm s1 H') as (s' & t' & Hr & Ht & Hb & He). exists s', t'.
  erewrite bind_ok by exact Hs. split_and!; [done..|]. rewrite He. by rewrite !elems_plug.
Qed.

Ltac subtree_ok := cbn [balanced height] in *; split_and!; try tauto; lia.

Lemma retrace_ok c : forall F s t fuel,
  holds F s c t -> balanced t -> grown t -> above_balanced c (height t - 1) ->
  (length c < fuel)%nat -> retraced F s c t (retrace fuel (rootp t)).
Proof.
  induction c as [|g c IH]; intros F s t fuel H Hb Hg Ha Hfuel; (destruct fuel as [|fuel]; [lia|]);
    cbn [retrace].
  - exists s, t. erewrite bind_ok by done. pose proof (h_ctx _ _ _ _ H) as Hc. cbn in Hc.
    rewrite Hc, bool_decide_true by done. by split_and!.
  - destruct t as [|l p k b e r]; [done|]. cbn [rootp]. unfold retraced.
    erewrite bind_ok by done. pose proof (not_root _ _ _ _ _ H) as Hnr. cbn [rootp] in Hnr. rewrite Hnr.
    erewrite bind_ok by by eapply load_focus. cbn [parent cpar head fmap option_fmap option_map].
    pose proof (height_nonneg l). pose proof (height_nonneg r).
    do 2 erewrite bind_ok by by eapply load_up. pose proof (which_child _ _ _ _ _ _ _ _ _ _ H) as Hw.
    destruct g as [q kq bq eq d|d q kq bq eq]; cbn [left bal rootp addr above_balanced] in *; rewrite Hw;
      destruct Ha as (Hd & Hbq & Hbr & Ha); pose proof (height_nonneg d);
      (assert (bq = -1 \/ bq = 0 \/ bq = 1) as [E1|[E1|E1]] by lia); rewrite E1 in *;
      first [rewrite <- focus_left in H | rewrite <- focus_right in H].
    + destruct (rebalance_left_ok _ _ _ _ _ _ _ _ _ _ _ _ _ _ H Hb Hg Hd) as (s' & t' & Hs & H' & Hb' & He & Hh);
        [lia|].
      eapply (retrace_end F s s' c _ t' _ Hs H' Hb'); [|exact He]. rewrite Hh. by replace_height Ha.
    + apply (retrace_up _ _ _ _ _ _ _ _ _ _ _ H). intros s' H'. apply (IH _ _ (Node _ q _ _ _ _)); [done|..].
      * subtree_ok.
      * by left.
      * by replace_height Ha.
      * cbn in Hfuel. lia.
    + apply (retrace_store _ _ _ _ _ _ _ _ _ _ H); [subtree_ok|by replace_height Ha].
    + apply (retrace_store _ _ _ _ _ _ _ _ _ _ H); [subtree_ok|by replace_height Ha].
    + apply (retrace_up _ _ _ _ _ _ _ _ _ _ _ H). intros s' H'. apply (IH _ _ (Node _ q _ _ _ _)); [done|..].
      * subtree_ok.
      * by left.
      * by replace_height Ha.
      * cbn in Hfuel. lia.
    + destruct (rebalance_right_ok _ _ _ _ _ _ _ _ _ _ _ _ _ _ H Hb Hg Hd) as (s' & t' & Hs & H' & Hb' & He & Hh);
        [lia|].
      eapply (retrace_end F s s' c _ t' _ Hs H' Hb'); [|exact He]. rewrite Hh. by replace_height Ha.
Qed.
End retrace.

(** ** Height and order *)
Section order.
Context {E : Type}.
Implicit Types (t : tree E) (c : list (frame E)).

Definition keys t : list Z := (elems t).*1.
Definition contents t : gmap Z (ptr * E) := list_to_map (elems t).
Definition ordered t : Prop := StronglySorted Z.lt (keys t).
Definition count t : Z := Z.of_nat (length (elems t)).

(** a balanced tree of height [h] has at least [2^(h/2) - 1] nodes *)
Lemma balanced_count t : balanced t -> 2 ^ (height t / 2) <= count t + 1.
Proof.
  unfold count. induction t as [|l IHl p k b e r IHr]; intros Hb; [done|].
  destruct Hb as (Hl & Hr & Hb & Hbr). specialize (IHl Hl). specialize (IHr Hr).
  cbn [elems height]. rewrite length_app. cbn [length].
  pose proof (height_nonneg l). pose proof (height_nonneg r).
  set (h := 1 + Z.max (height l) (height r)).
  destruct (Z.eq_dec h 1) as [->|]; [change (2 ^ (1 / 2)) with 1; lia|].
  assert (E1 : 2 ^ (h / 2) = 2 * 2 ^ ((h - 2) / 2)).
  { rewrite <- Z.pow_succ_r by (apply Z.div_pos; lia). f_equal.
    replace h with (h - 2 + 1 * 2) at 1 by lia. rewrite Z.div_add by lia. lia. }
  assert (Hmono : forall x, h - 2 <= x -> 2 ^ ((h - 2) / 2) <= 2 ^ (x / 2)).
  { intros x Hx. apply Z.pow_le_mono_r; [lia|]. apply Z.div_le_mono; lia. }
  pose proof (Hmono (height l) ltac:(lia)). pose proof (Hmono (height r) ltac:(lia)). lia.
Qed.

Lemma height_log t : balanced t -> height t <= 2 * Z.log2 (count t + 1) + 1.
Proof.
  intros Hb. pose proof (balanced_count t Hb) as Hc. pose proof (height_nonneg t).
  assert (Hl : height t / 2 <= Z.log2 (count t + 1)).
  { rewrite <- (Z.log2_pow2 (height t / 2)) by (apply Z.div_pos; lia). by apply Z.log2_le_mono. }
  pose proof (Z.div_mod (height t) 2). pose proof (Z.mod_pos_bound (height t) 2). lia.
Qed.

Lemma sorted_length (l : list Z) lo hi :
  StronglySorted Z.lt l -> Forall (fun x => lo <= x < hi) l -> Z.of_nat (length l) <= Z.max 0 (hi - lo).
Proof.
  intros Hs. revert lo. induction Hs as [|x l Hs IH Hx]; intros lo Hr; [cbn; lia|].
  apply list.Forall_cons in Hr as [Hxr Hr]. specialize (IH (x + 1)).
  assert (Hl : Forall (fun y => x + 1 <= y < hi) l).
  { rewrite List.Forall_forall in *. intros y Hy. specialize (Hx y Hy). specialize (Hr y Hy). lia. }
  specialize (IH Hl). cbn [length]. lia.
Qed.

(** a tree with 32-bit keys fits the bound of the loops *)
Lemma height_bound t :
  balanced t -> ordered t -> Forall (in_range 32) (keys t) -> height t <= 65.
Proof.
  intros Hb Ho Hr. assert (Hn : count t <= 2 ^ 32).
  { unfold count. replace (length (elems t)) with (length (keys t)) by apply length_fmap.
    pose proof (sorted_length (keys t) 0 (2 ^ 32) Ho Hr). lia. }
  pose proof (balanced_count t Hb) as Hc. destruct (Z.le_gt_cases (height t) 65) as [|Hgt]; [done|].
  assert (2 ^ 33 <= 2 ^ (height t / 2)); [|lia].
  apply Z.pow_le_mono_r; [lia|]. change 33 with (66 / 2). apply Z.div_le_mono; lia.
Qed.

Lemma sorted_nodup (l : list Z) : StronglySorted Z.lt l -> NoDup l.
Proof.
  induction 1 as [|x l Hs IH Hx]; [constructor|]. apply list.NoDup_cons. split; [|done].
  intros Hin. rewrite List.Forall_forall in Hx. apply list_elem_of_In in Hin. specialize (Hx x Hin). lia.
Qed.

Lemma lookup_contents t k v : ordered t -> contents t !! k = Some v <-> (k, v) ∈ elems t.
Proof. intros Ho. symmetry. apply elem_of_list_to_map. by apply sorted_nodup. Qed.
End order.

(** ** Search *)
Section find.
Context {E X : Type} {CFG : BuildConfig}.
Implicit Types (s F : avl_tree E X) (c : list (frame E)) (t : tree E).

Definition at_left k (l : list (Z * (ptr * E))) : Prop := Forall (fun x => x < k) l.*1.
Definition at_right k (l : list (Z * (ptr * E))) : Prop := Forall (fun x => k < x) l.*1.

Lemma ordered_node l p k b e r :
  ordered (Node l p k b e r : tree E) ->
  ordered l /\ ordered r /\ at_left k (elems l) /\ at_right k (elems r).
Proof.
  unfold ordered, keys, at_left, at_right. cbn [elems]. rewrite fmap_app, fmap_cons. cbn [fst].
  rewrite StronglySorted_app, StronglySorted_cons. intros (Hx & Hl & Hr & Hs). split_and!; try done.
  apply list.Forall_forall. intros x Hin. apply Hx; set_solver.
Qed.

Lemma at_left_app k l1 l2 : at_left k (l1 ++ l2) <-> at_left k l1 /\ at_left k l2.
Proof. unfold at_left. by rewrite fmap_app, Forall_app. Qed.
Lemma at_right_app k l1 l2 : at_right k (l1 ++ l2) <-> at_right k l1 /\ at_right k l2.
Proof. unfold at_right. by rewrite fmap_app, Forall_app. Qed.
Lemma at_left_weaken k k' l : k <= k' -> at_left k l -> at_left k' l.
Proof. intros Hk H. eapply list.Forall_impl; [exact H|]. cbn. lia. Qed.
Lemma at_right_weaken k k' l : k' <= k -> at_right k l -> at_right k' l.
Proof. intros Hk H. eapply list.Forall_impl; [exact H|]. cbn. lia. Qed.

(** between its neighbours a key is nowhere else *)
Lemma not_elsewhere k v l1 l2 :
  at_left k l1 -> at_right k l2 -> (k, v) ∉ l1 ++ l2.
Proof.
  unfold at_left, at_right. rewrite !list.Forall_forall. intros Hl Hr [Hin|Hin]%elem_of_app.
  - specialize (Hl k). assert (k < k); [|lia]. apply Hl. by apply (list_elem_of_fmap_2 fst _ (k, v)).
  - specialize (Hr k). assert (k < k); [|lia]. apply Hr. by apply (list_elem_of_fmap_2 fst _ (k, v)).
Qed.

(** where a search ends: at the node with the key, or at the empty subtree where it belongs *)
Inductive search k : list (frame E) -> tree E -> Prop :=
| found c l p b e r : search k c (Node l p k b e r)
| missing c : at_left k (before c) -> at_right k (behind c) -> search k c Leaf.

Definition cell_of c : cell :=
  match c with
  | [] => RootOf
  | InLeft p _ _ _ _ :: _ => LeftOf p
  | InRight _ p _ _ _ :: _ => RightOf p
  end.

(** the continuation of both searches *)
Definition search_end c t (ins : cell -> option ptr -> M (avl_tree E X) (option ptr)) :
    M (avl_tree E X) (option ptr) :=
  match t with
  | Leaf => ins (cell_of c) (cpar c)
  | Node _ p _ _ _ _ => ret (Some p)
  end.

Context (ctor : M (avl_tree E X) (option ptr)).

Definition searched k c t fuel p s c' t' : Prop :=
  search k c' t' /\ holds s s c' t' /\ plug c' t' = plug c t /\
  find_loop ctor fuel p k s = search_end c' t' (fun cl par => avl_basic_insert ctor cl par k) s /\
  find_noinsert_loop fuel p k s = search_end c' t' (fun _ _ => ret None) s.

Lemma find_loops k t : forall c fuel s p,
  rootp t = Some p -> holds s s c t -> ordered t -> at_left k (before c) -> at_right k (behind c) ->
  height t <= Z.of_nat fuel -> exists c' t', searched k c t fuel p s c' t'.
Proof.
  induction t as [|l IHl q nk b e r IHr]; intros c fuel s p [= <-] H Ho Hbe Haf Hfuel.
  pose proof (height_nonneg l). pose proof (height_nonneg r).
  destruct fuel as [|fuel]; [cbn [height] in Hfuel; lia|]. cbn [height] in Hfuel.
  apply ordered_node in Ho as (Hol & Hor & Hll & Hrr). unfold searched. cbn [find_loop find_noinsert_loop].
  do 2 erewrite (bind_ok (load key _)) by by eapply load_focus. cbn [key].
  destruct (Z.ltb_spec k nk); [|destruct (Z.gtb_spec k nk)].
  - do 2 erewrite (bind_ok (load left _)) by by eapply load_focus. cbn [left]. rewrite focus_left in H.
    assert (Haf' : at_right k (behind (InLeft q nk b e r :: c))).
    { cbn [behind]. apply (at_right_app k [_]). split; [by repeat constructor|].
      apply at_right_app. split; [|done]. by apply (at_right_weaken nk); [lia|]. }
    destruct l as [|ll lp lk lb le lr]; cbn [rootp].
    + exists (InLeft q nk b e r :: c), Leaf. split_and!; try done. by constructor.
    + by apply (IHl (InLeft q nk b e r :: c)); try done; lia.
  - do 2 erewrite (bind_ok (load right _)) by by eapply load_focus. cbn [right]. rewrite focus_right in H.
    assert (Hbe' : at_left k (before (InRight l q nk b e :: c))).
    { cbn [before]. apply at_left_app. split; [done|]. apply at_left_app. split; [|by repeat constructor; cbn; lia].
      by apply (at_left_weaken nk); [lia|]. }
    destruct r as [|rl rp rk rb re rr]; cbn [rootp].
    + exists (InRight l q nk b e :: c), Leaf. split_and!; try done. by constructor.
    + by apply (IHr (InRight l q nk b e :: c)); try done; lia.
  - assert (k = nk) as -> by lia. exists c, (Node l q nk b e r). split_and!; try done. constructor.
Qed.

(** what the tree needs of the constructor of nodes: a zeroed node at a fresh address *)
Definition fresh_node (e : E) : avl_node E :=
  {| key := 0; bal := 0; left := None; right := None; parent := None; entry := e |}.
Definition created s p e s1 : Prop :=
  ctor s = Ok (Some p, s1) /\ nodes s !! p = None /\ root s1 = root s /\
  nodes s1 = <[p := fresh_node e]> (nodes s).

Lemma rep_addr h par t x : rep h par t -> x ∈ ptrs t -> is_Some (h !! x).
Proof.
  revert par. induction t as [|l IHl q k b e r IHr]; intros par; [by intros _ ?%not_elem_of_nil|].
  intros (Hq & Hl & Hr). rewrite ptrs_node, elem_of_app, elem_of_cons. intros [Hx|[->|Hx]]; eauto.
Qed.
Lemma repc_addr h rt hole c x : repc h rt hole c -> x ∈ cptrs c -> is_Some (h !! x).
Proof.
  revert hole. induction c as [|[q k b e r|l q k b e] c IH]; intros hole; [by intros _ ?%not_elem_of_nil|..];
    intros (Hq & Ht & Hc); rewrite ?cptrs_left, ?cptrs_right, elem_of_cons, elem_of_app;
    intros [->|[Hx|Hx]]; eauto using rep_addr.
Qed.

Lemma rep_elem h par t k p e :
  rep h par t -> (k, (p, e)) ∈ elems t -> exists n, h !! p = Some n /\ key n = k /\ entry n = e.
Proof.
  revert par. induction t as [|l IHl q k' b e' r IHr]; intros par; [by intros _ ?%not_elem_of_nil|].
  intros (Hq & Hl & Hr). cbn [elems]. rewrite elem_of_app, elem_of_cons.
  intros [Hx|[[= -> -> ->]|Hx]]; eauto.
Qed.

(** every element is the root of a subtree *)
Lemma elem_plug t k p e :
  (k, (p, e)) ∈ elems t -> exists c l b r, plug c (Node l p k b e r) = t.
Proof.
  induction t as [|l IHl q k' b e' r IHr]; [by intros ?%not_elem_of_nil|].
  cbn [elems]. rewrite elem_of_app, elem_of_cons. intros [Hx|[[= -> -> ->]|Hx]].
  - destruct (IHl Hx) as (c & l1 & b1 & r1 & <-). exists (c ++ [InLeft q k' b e' r]), l1, b1, r1.
    unfold plug. by rewrite fold_left_app.
  - by exists [], l, b, r.
  - destruct (IHr Hx) as (c & l1 & b1 & r1 & <-). exists (c ++ [InRight l q k' b e']), l1, b1, r1.
    unfold plug. by rewrite fold_left_app.
Qed.

(** the pointer in the cell of an empty subtree *)
Lemma set_cell_ok c v s :
  repc (nodes s) (root s) None c -> NoDup (cptrs c) ->
  exists h, set_cell (cell_of c) v s = Ok (tt, with_root (new_root_of c (root s) v) (with_nodes h s)) /\
    repc h (new_root_of c (root s) v) v c /\ forall x, x ∉ cptrs c -> h !! x = nodes s !! x.
Proof.
  destruct c as [|[q k b e r|l q k b e] c]; cbn [repc cell_of set_cell new_root_of].
  - intros _ _. exists (nodes s). by destruct s.
  - rewrite cptrs_left. intros (Hq & Hr & Hc) [Hqr _]%list.NoDup_cons. exists (<[q := {| key := k; bal := b; left := v;
      right := rootp r; parent := cpar c; entry := e |}]> (nodes s)).
    split; [by rewrite (store_ok _ _ _ _ Hq)|].
    split; [split; [by rewrite lookup_insert_eq|split; [eapply rep_ext; [|done]|eapply repc_ext; [|done]]]|];
      intros x Hx; rewrite lookup_insert_ne; try done; intros ->; [set_solver..|].
    by rewrite cptrs_left, elem_of_cons in Hx; tauto.
  - rewrite cptrs_right. intros (Hq & Hl & Hc) [Hql _]%list.NoDup_cons. exists (<[q := {| key := k; bal := b; left := rootp l;
      right := v; parent := cpar c; entry := e |}]> (nodes s)).
    split; [by rewrite (store_ok _ _ _ _ Hq)|].
    split; [split; [by rewrite lookup_insert_eq|split; [eapply rep_ext; [|done]|eapply repc_ext; [|done]]]|];
      intros x Hx; rewrite lookup_insert_ne; try done; intros ->; [set_solver..|].
    by rewrite cptrs_right, elem_of_cons in Hx; tauto.
Qed.

Lemma link_new c s p e s1 k :
  holds s s c Leaf -> created s p e s1 ->
  exists s2, (set_cell (cell_of c) (Some p) ;; store (with_parent (cpar c)) (Some p) ;;
              store (with_key k) (Some p)) s1 = Ok (tt, s2) /\
    holds s1 s2 c (Node Leaf p k 0 e Leaf).
Proof.
  intros [_ Hc Hnd _ _] (_ & Hp & Hrt & Hn). rewrite app_nil_r in Hnd.
  assert (Hpc : p ∉ cptrs c) by (intros Hin; destruct (repc_addr _ _ _ _ _ Hc Hin); congruence).
  rewrite <- Hrt in Hc.
  destruct (set_cell_ok c (Some p) s1) as (h & Hrun & Hc1 & Hh); [|done|].
  { eapply repc_ext; [|exact Hc]. intros x Hx. rewrite Hn, lookup_insert_ne; [done|]. by intros ->. }
  erewrite bind_ok by exact Hrun.
  erewrite bind_ok by (apply store_ok; cbn [nodes with_root with_nodes];
    rewrite Hh by done; by rewrite Hn, lookup_insert_eq).
  eexists. split; [apply store_ok; cbn [nodes with_root with_nodes]; by rewrite lookup_insert_eq|].
  split; cbn [nodes root with_root with_nodes ext]; [| | | |done].
  - split; [by rewrite lookup_insert_eq|done].
  - eapply repc_ext; [|exact Hc1]. intros x Hx. rewrite !lookup_insert_ne; [done|by intros ->..].
  - rewrite ptrs_node. cbn. rewrite list.NoDup_app. split_and!; [done|set_solver|by apply NoDup_singleton].
  - intros x Hx. rewrite ptrs_node, elem_of_app in Hx. cbn in Hx. rewrite list_elem_of_singleton in Hx.
    rewrite !lookup_insert_ne by (intros ->; tauto). apply Hh. tauto.
Qed.

(** the tree of a state: in memory, balanced and ordered *)
Record avl_inv s t : Prop := {
  inv_holds : holds s s [] t;
  inv_balanced : balanced t;
  inv_ordered : ordered t;
  inv_keys : Forall (in_range 32) (keys t)
}.

Lemma avl_height_ok t : forall s par fuel,
  rep (nodes s) par t -> t <> Leaf -> height t <= Z.of_nat fuel ->
  avl_height fuel (rootp t) s = Ok (height t - 1, s).
Proof.
  induction t as [|l IHl p k b e r IHr]; intros s par fuel Hrep Hne Hfuel; [done|].
  destruct Hrep as (Hp & Hl & Hr). pose proof (height_nonneg l). pose proof (height_nonneg r).
  destruct fuel as [|fuel]; cbn [height rootp avl_height] in *; [lia|].
  assert (Hsub : forall t', (rep (nodes s) (Some p) t' -> t' <> Leaf -> height t' <= Z.of_nat fuel ->
      avl_height fuel (rootp t') s = Ok (height t' - 1, s)) ->
    rep (nodes s) (Some p) t' -> height t' <= Z.of_nat fuel ->
    match rootp t' with Some _ => h <- avl_height fuel (rootp t') ;; ret (h + 1) | None => ret 0 end s =
      Ok (height t', s)).
  { intros [|l' p' k' b' e' r'] IH Hr' Hf; [done|]. cbn [rootp]. erewrite bind_ok by by apply IH.
    unfold ret. do 2 f_equal. lia. }
  erewrite bind_ok by by apply load_ok. cbn [left].
  erewrite bind_ok by (apply Hsub; [by apply IHl|done|lia]).
  erewrite bind_ok by by apply load_ok. cbn [right].
  erewrite bind_ok by (apply Hsub; [by apply IHr|done|lia]). unfold ret. do 2 f_equal. lia.
Qed.

Lemma avl_balance_ok s par l p k b e r fuel :
  rep (nodes s) par (Node l p k b e r) -> height (Node l p k b e r) <= Z.of_nat fuel + 1 ->
  avl_balance fuel (Some p) s = Ok (height r - height l, s).
Proof.
  intros (Hp & Hl & Hr) Hf. cbn [height] in Hf.
  assert (Hsub : forall t, rep (nodes s) (Some p) t -> height t <= Z.of_nat fuel ->
    match rootp t with Some _ => h <- avl_height fuel (rootp t) ;; ret (1 + h) | None => ret 0 end s =
      Ok (height t, s)).
  { intros [|l' p' k' b' e' r'] Hr' Hf'; [done|]. cbn [rootp].
    erewrite bind_ok by by eapply (avl_height_ok (Node l' p' k' b' e' r')).
    unfold ret. do 2 f_equal. lia. }
  unfold avl_balance. erewrite bind_ok by by apply load_ok. cbn [right].
  erewrite bind_ok by (apply Hsub; [done|lia]). erewrite bind_ok by by apply load_ok. cbn [left].
  by erewrite bind_ok by (apply Hsub; [done|lia]).
Qed.

(** the checks of a build with [INVARIANTS] pass *)
Lemma avl_invariant_ok t : forall s par fuel,
  rep (nodes s) par t -> balanced t -> t <> Leaf -> height t <= Z.of_nat fuel ->
  avl_invariant fuel (rootp t) s = Ok (tt, s).
Proof.
  induction t as [|l IHl p k b e r IHr]; intros s par fuel Hrep Hb Hne Hfuel; [done|].
  pose proof (height_nonneg l). pose proof (height_nonneg r).
  destruct fuel as [|fuel]; cbn [height rootp avl_invariant] in *; [lia|].
  erewrite bind_ok by (eapply avl_balance_ok; [exact Hrep|cbn [height]; lia]).
  destruct Hrep as (Hp & Hl & Hr), Hb as (Hbl & Hbr & Hb & Hbb).
  replace (Z.abs (height r - height l) >? 1) with false by lia. cbn [when]. erewrite bind_ok by done.
  assert (Hsub : forall t, (rep (nodes s) (Some p) t -> t <> Leaf -> avl_invariant fuel (rootp t) s = Ok (tt, s)) ->
    rep (nodes s) (Some p) t ->
    match rootp t with Some _ => avl_invariant fuel (rootp t) | None => ret tt end s = Ok (tt, s)).
  { intros [|l' p' k' b' e' r'] IH Hr'; [done|]. cbn [rootp]. by apply IH. }
  erewrite bind_ok by by apply load_ok. cbn [left].
  erewrite bind_ok by (apply Hsub; [intros; eapply IHl; [done..|lia]|done]).
  erewrite bind_ok by by apply load_ok. cbn [right]. apply Hsub; [intros; eapply IHr; [done..|lia]|done].
Qed.

Lemma plug_contents c t k p e :
  plug c Leaf = t -> ordered t -> at_left k (before c) -> at_right k (behind c) ->
  let new := plug c (Node Leaf p k 0 e Leaf) in
  ordered new /\ contents new = <[k := (p, e)]> (contents t) /\ keys new ≡ₚ k :: keys t.
Proof.
  intros <- Ho Hl Hr new. unfold ordered, contents, keys, new in *. rewrite !elems_plug in *. cbn [elems app] in *.
  assert (Hs : StronglySorted Z.lt (before c ++ (k, (p, e)) :: behind c).*1).
  { rewrite fmap_app in *. cbn [fmap list_fmap fst]. change (list_fmap _ _ fst (behind c)) with (behind c).*1.
    apply StronglySorted_app in Ho as (H12 & H1 & H2). apply StronglySorted_app.
    unfold at_left, at_right in *. rewrite list.Forall_forall in Hl, Hr. split_and!; [|done|].
    - intros x1 x2 Hx1 [->|Hx2]%elem_of_cons; [by apply Hl|by apply H12].
    - apply StronglySorted_cons. split; [|done]. by apply list.Forall_forall. }
  split; [done|]. split.
  - rewrite <- (list_to_map_proper ((k, (p, e)) :: before c ++ behind c)); [done| |].
    + eapply NoDup_Permutation_proper; [|apply sorted_nodup, Hs]. by rewrite Permutation_middle.
    + by rewrite Permutation_middle.
  - rewrite !fmap_app. cbn. by rewrite Permutation_middle.
Qed.

Lemma insert_ok c t s k p e s1 :
  plug c Leaf = t -> avl_inv s t -> in_range 32 k -> holds s s c Leaf ->
  at_left k (before c) -> at_right k (behind c) -> created s p e s1 ->
  exists s' t', avl_basic_insert ctor (cell_of c) (cpar c) k s = Ok (Some p, s') /\ avl_inv s' t' /\
    contents t' = <[k := (p, e)]> (contents t) /\ ext s' = ext s1 /\
    (forall x, x ∉ ptrs t' -> nodes s' !! x = nodes s1 !! x) /\ ptrs t' ≡ₚ p :: ptrs t.
Proof.
  intros Hplug [_ Hb Ho Hk] Hkr H Hl Hr Hnew.
  destruct (link_new c s p e s1 k H Hnew) as (s2 & Hs2 & H2).
  assert (Hlen : (length c < avl_fuel)%nat).
  { pose proof (height_plug c (Leaf : tree E)) as Hh. rewrite Hplug in Hh.
    pose proof (height_bound t Hb Ho Hk). cbn [height] in Hh. unfold avl_fuel. lia. }
  subst t. apply balanced_plug in Hb as [_ Hb].
  destruct (retrace_ok c s1 s2 (Node Leaf p k 0 e Leaf) avl_fuel) as (s' & t' & Hrun & H' & Hb' & He);
    [done|done|by right|exact Hb|done|].
  destruct (plug_contents c _ k p e eq_refl Ho Hl Hr) as (Ho' & Hc' & Hk').
  assert (Hinv : avl_inv s' t').
  { split; [|done|..].
    - destruct H' as [? ? ? ? ?]. by split.
    - unfold ordered, keys. rewrite He. exact Ho'.
    - unfold keys. rewrite He. change (Forall (in_range 32) (keys (plug c (Node Leaf p k 0 e Leaf)))).
      rewrite Hk'. by apply list.Forall_cons. }
  exists s', t'. split; [|split_and!; [done| | | |]].
  - unfold avl_basic_insert. destruct Hnew as (Hctor & Hp & _). erewrite bind_ok by exact Hctor.
    rewrite bool_decide_false by done. cbn [when]. erewrite bind_ok by done.
    apply bind_inv in Hs2 as ([] & s3 & Hs3 & Hs2). apply bind_inv in Hs2 as ([] & s4 & Hs4 & Hs2).
    erewrite bind_ok by exact Hs3.
    replace (bool_decide (cell_of c <> RootOf) && bool_decide (cpar c = None)) with false
      by (destruct c as [|[] ?]; [by rewrite bool_decide_false by (by intros [])|
        by rewrite (bool_decide_false (cpar _ = None)), andb_false_r by done..]).
    cbn [when]. erewrite bind_ok by done. erewrite bind_ok by exact Hs4. erewrite bind_ok by exact Hs2.
    erewrite bind_ok by exact Hrun. destruct INVARIANTS; cbn [when]; [|done].
    assert (Hne : t' <> Leaf) by (intros ->; rewrite elems_plug in He; by destruct (before c)).
    pose proof (h_ctx _ _ _ _ H') as Hrt. cbn in Hrt.
    erewrite bind_ok; [done|]. erewrite bind_ok by done. rewrite Hrt.
    eapply avl_invariant_ok; [exact (h_tree _ _ _ _ H')|done..|].
    destruct Hinv as [_ _ ? ?]. pose proof (height_bound t' Hb' ltac:(done) ltac:(done)). unfold avl_fuel. lia.
  - unfold contents in *. by rewrite He.
  - by destruct H'.
  - intros x Hx. by apply (h_frame _ _ _ _ H').
  - unfold ptrs. rewrite He, !elems_plug. cbn [elems app]. rewrite !fmap_app. cbn. by rewrite Permutation_middle.
Qed.

(** the search from the root of a tree *)
Lemma search_root k s t p fuel :
  avl_inv s t -> rootp t = Some p -> height t <= Z.of_nat fuel ->
  exists c' t', searched k [] t fuel p s c' t'.
Proof. intros [H _ Ho _] Hp Hf. apply find_loops; try done; constructor. Qed.

Lemma search_result k s t fuel p c' t' :
  avl_inv s t -> searched k [] t fuel p s c' t' ->
  match t' with
  | Leaf => contents t !! k = None
  | Node _ q _ _ e _ => contents t !! k = Some (q, e)
  end.
Proof.
  intros [_ _ Ho _] (Hs & _ & Hp & _ & _). cbn in Hp. subst t. destruct Hs as [c l q b e r|c Hl Hr].
  - apply lookup_contents; [done|]. rewrite elems_plug. cbn [elems]. set_solver.
  - destruct (contents _ !! k) as [v|] eqn:Ev; [|done]. apply lookup_contents in Ev; [|done].
    rewrite elems_plug in Ev. cbn [elems app] in Ev. by destruct (not_elsewhere _ _ _ _ Hl Hr Ev).
Qed.

(** [avl_find] on the map of a tree *)
Definition finds s t k : Prop :=
  match contents t !! k with
  | Some (p, e) => avl_find ctor k s = Ok (Some p, s)
  | None =>
      (forall p e s1, created s p e s1 ->
         exists s' t', avl_find ctor k s = Ok (Some p, s') /\ avl_inv s' t' /\
           contents t' = <[k := (p, e)]> (contents t) /\ ext s' = ext s1 /\
           (forall x, x ∉ ptrs t' -> nodes s' !! x = nodes s1 !! x) /\ ptrs t' ≡ₚ p :: ptrs t) /\
      (forall s1, ctor s = Ok (None, s1) -> avl_find ctor k s = Err ERROR_FAILED_ALLOC)
  end.

Lemma avl_find_ok s t k : avl_inv s t -> in_range 32 k -> finds s t k.
Proof.
  intros Hinv Hk. unfold finds. assert (Hfuel : height t <= Z.of_nat avl_fuel).
  { destruct Hinv as [_ Hb Ho Hr]. pose proof (height_bound t Hb Ho Hr). unfold avl_fuel. lia. }
  assert (Hins : forall c s1, ctor s = Ok (None, s1) ->
    avl_basic_insert ctor (cell_of c) (cpar c) k s = Err ERROR_FAILED_ALLOC).
  { intros c s1 Hc. unfold avl_basic_insert. erewrite bind_ok by exact Hc. by rewrite bool_decide_true. }
  pose proof (h_ctx _ _ _ _ (inv_holds _ _ Hinv)) as Hrt. cbn in Hrt.
  unfold avl_find. erewrite bind_ok by done. rewrite Hrt.
  destruct (rootp t) as [p|] eqn:Ep.
  - destruct (search_root k s t p avl_fuel Hinv Ep Hfuel) as (c' & t' & Hs).
    pose proof (search_result _ _ _ _ _ _ _ Hinv Hs) as Hres.
    destruct Hs as (Hse & H' & Hp & -> & _). cbn in Hp.
    destruct Hse as [c l q b e r|c Hl Hr]; rewrite Hres; [done|]. cbn [search_end]. split; [|by apply Hins].
    intros p' e s1 Hnew. by apply (insert_ok c t s k p' e s1).
  - destruct t; [|done]. split; [|by apply (Hins [])]. intros p' e s1 Hnew.
    apply (insert_ok [] Leaf s k p' e s1); try done; [by destruct Hinv|constructor..].
Qed.

(** C5: [avl_find] is look-up with insertion in a map: in a tree that is in memory, ordered and
    balanced, it returns the node of a key that the map has, and leaves the memory as it is; for
    any other key it takes a fresh node from the constructor, and afterwards the memory holds,
    again, an ordered and balanced tree with right parent pointers and balance factors, whose map
    is the old one with the new node.  Nothing else in memory changes, the loops end within
    [avl_fuel] turns, and a constructor that returns NULL is an error. *)
Theorem avl_find_refines s t k :
  avl_inv s t -> in_range 32 k ->
  match contents t !! k with
  | Some (p, e) => avl_find ctor k s = Ok (Some p, s)
  | None =>
      (forall p e s1, created s p e s1 ->
         exists s' t', avl_find ctor k s = Ok (Some p, s') /\ avl_inv s' t' /\
           contents t' = <[k := (p, e)]> (contents t) /\ ext s' = ext s1 /\
           (forall x, x ∉ ptrs t' -> nodes s' !! x = nodes s1 !! x) /\ ptrs t' ≡ₚ p :: ptrs t) /\
      (forall s1, ctor s = Ok (None, s1) -> avl_find ctor k s = Err ERROR_FAILED_ALLOC)
  end.
Proof. apply avl_find_ok. Qed.

(** C37: a search takes a number of steps that is logarithmic in the number of keys: in a tree of
    [n] nodes the loop of [avl_find_noinsert] ends within [2 log2(n+1) + 1] turns, and it returns
    the node of the key, or NULL when the tree does not have it. *)
Theorem avl_search_cost s t p k :
  avl_inv s t -> root s = Some p ->
  find_noinsert_loop (Z.to_nat (2 * Z.log2 (count t + 1) + 1)) p k s = Ok (fst <$> contents t !! k, s).
Proof.
  intros Hinv Hroot. pose proof (h_ctx _ _ _ _ (inv_holds _ _ Hinv)) as Hrt. cbn in Hrt.
  destruct (search_root k s t p (Z.to_nat (2 * Z.log2 (count t + 1) + 1)) Hinv) as (c' & t' & Hs);
    [congruence| |].
  { pose proof (height_log t (inv_balanced _ _ Hinv)). pose proof (Z.log2_nonneg (count t + 1)). lia. }
  pose proof (search_result _ _ _ _ _ _ _ Hinv Hs) as Hres. destruct Hs as (Hse & _ & _ & _ & ->).
  destruct Hse; by rewrite Hres.
Qed.

Lemma avl_find_noinsert_ok s t k :
  avl_inv s t -> avl_find_noinsert k s = Ok (fst <$> contents t !! k, s).
Proof.
  intros Hinv. pose proof (h_ctx _ _ _ _ (inv_holds _ _ Hinv)) as Hrt. cbn in Hrt.
  unfold avl_find_noinsert. erewrite bind_ok by done. rewrite Hrt.
  destruct (rootp t) as [p|] eqn:Ep; [|by destruct t].
  destruct (search_root k s t p avl_fuel Hinv Ep) as (c' & t' & Hs).
  { destruct Hinv as [_ Hb Ho Hr]. pose proof (height_bound t Hb Ho Hr). unfold avl_fuel. lia. }
  pose proof (search_result _ _ _ _ _ _ _ Hinv Hs) as Hres. destruct Hs as (Hse & _ & _ & _ & ->).
  destruct Hse; by rewrite Hres.
Qed.

(** ** Clearing a tree *)
Context (dtor : option ptr -> M (avl_tree E X) unit).

(** what the tree needs of the destructor of nodes *)
Definition frees : Prop := forall s p, is_Some (nodes s !! p) ->
  dtor (Some p) s = Ok (tt, with_nodes (delete p (nodes s)) s).

Lemma avl_clear_ok t : frees -> forall s par fuel,
  rep (nodes s) par t -> NoDup (ptrs t) -> t <> Leaf -> height t <= Z.of_nat fuel ->
  exists h, avl_clear_node dtor fuel (rootp t) s = Ok (tt, with_nodes h s) /\
    (forall x, x ∈ ptrs t -> h !! x = None) /\ (forall x, x ∉ ptrs t -> h !! x = nodes s !! x).
Proof.
  intros Hfree. induction t as [|l IHl p k b e r IHr]; intros s par fuel Hrep Hnd Hne Hfuel; [done|].
  destruct Hrep as (Hp & Hl & Hr). pose proof (height_nonneg l). pose proof (height_nonneg r).
  destruct fuel as [|fuel]; cbn [height rootp avl_clear_node] in *; [lia|].
  rewrite ptrs_node in Hnd. apply list.NoDup_app in Hnd as (Hndl & Hd & Hnd).
  apply list.NoDup_cons in Hnd as [Hpr Hndr].
  assert (Hsub : forall t s, (forall s par, rep (nodes s) par t -> t <> Leaf ->
      exists h, avl_clear_node dtor fuel (rootp t) s = Ok (tt, with_nodes h s) /\
        (forall x, x ∈ ptrs t -> h !! x = None) /\ (forall x, x ∉ ptrs t -> h !! x = nodes s !! x)) ->
    rep (nodes s) (Some p) t ->
    exists h, match rootp t with Some _ => avl_clear_node dtor fuel (rootp t) | None => ret tt end s =
        Ok (tt, with_nodes h s) /\
      (forall x, x ∈ ptrs t -> h !! x = None) /\ (forall x, x ∉ ptrs t -> h !! x = nodes s !! x)).
  { intros [|l' p' k' b' e' r'] s1 IH Hr'; [|by eapply IH].
    exists (nodes s1). split; [by destruct s1|]. split; [|done]. by intros x ?%not_elem_of_nil. }
  erewrite bind_ok by by apply load_ok. cbn [left].
  destruct (Hsub l s) as (h1 & Hrun1 & Hin1 & Hout1); [intros; eapply IHl; by try lia|done|].
  erewrite bind_ok by exact Hrun1.
  assert (Hp1 : h1 !! p = nodes s !! p) by (apply Hout1; intros Hx; apply (Hd p Hx); left).
  rewrite Hp in Hp1. erewrite bind_ok by (apply load_ok; exact Hp1). cbn [right].
  destruct (Hsub r (with_nodes h1 s)) as (h2 & Hrun2 & Hin2 & Hout2); [intros; eapply IHr; by try lia| |].
  { eapply rep_ext; [|exact Hr]. intros x Hx. apply Hout1. intros Hx'. apply (Hd x Hx'). by right. }
  erewrite bind_ok by exact Hrun2. cbn [nodes with_nodes] in Hout2.
  assert (Hp2 : h2 !! p = h1 !! p) by by apply Hout2.
  exists (delete p h2). split; [|split].
  - rewrite Hfree; [done|]. cbn [nodes with_nodes]. rewrite Hp2, Hp1. done.
  - intros x. rewrite ptrs_node, elem_of_app, elem_of_cons. intros Hx.
    destruct (decide (p = x)) as [->|Hne']; [by rewrite lookup_delete_eq|]. rewrite lookup_delete_ne by done.
    destruct (decide (x ∈ ptrs r)) as [|Hxr]; [by apply Hin2|]. rewrite Hout2 by done. apply Hin1.
    destruct Hx as [|[->|]]; done.
  - intros x. rewrite ptrs_node, elem_of_app, elem_of_cons. intros Hx.
    rewrite lookup_delete_ne by (intros ->; tauto). rewrite Hout2 by tauto. apply Hout1. tauto.
Qed.

(** [avl_cleanup] of a tree frees its nodes and nothing else *)
Lemma avl_cleanup_ok s t F :
  frees -> holds F s [] t -> height t <= Z.of_nat avl_fuel ->
  exists h, avl_cleanup dtor s = Ok (tt, with_root None (with_nodes h s)) /\
    (forall x, x ∈ ptrs t -> h !! x = None) /\ (forall x, x ∉ ptrs t -> h !! x = nodes s !! x).
Proof.
  intros Hfree [Ht Hrt Hnd _ _] Hfuel. cbn in Hrt. cbn [app cptrs before behind fmap list_fmap] in Hnd.
  unfold avl_cleanup. erewrite bind_ok by done. rewrite Hrt. destruct t as [|l p k b e r].
  - exists (nodes s). split; [by destruct s|]. split; [|done]. by intros x ?%not_elem_of_nil.
  - destruct (avl_clear_ok _ Hfree s _ avl_fuel Ht Hnd) as (h & Hrun & Hin & Hout); [done|done|].
    exists h. by erewrite bind_ok by exact Hrun.
Qed.
End find.

(** ** A tree of two nodes, 20 above 10 *)
Definition two_keys : tree unit := Node (Node Leaf 1%positive 10 0 tt Leaf) 2%positive 20 (-1) tt Leaf.
Definition two_nodes : avl_tree unit unit :=
  {| root := Some 2%positive;
     nodes := {[ 1%positive := {| key := 10; bal := 0; left := None; right := None;
                                  parent := Some 2%positive; entry := tt |};
                 2%positive := {| key := 20; bal := -1; left := Some 1%positive; right := None;
                                  parent := None; entry := tt |} ]};
     ext := tt |}.
Definition alloc_node : M (avl_tree unit unit) (option ptr) := fun s =>
  let p := fresh (dom (nodes s)) in
  Ok (Some p, with_nodes (<[p := fresh_node tt]> (nodes s)) s).

Lemma two_keys_inv : avl_inv two_nodes two_keys.
Proof.
  split.
  - split; try done. apply (bool_decide_unpack _). by vm_compute.
  - cbn. lia.
  - repeat constructor.
  - repeat (constructor; [by unfold in_range|]). constructor.
Qed.

(** a third key to the left of both takes a rotation, which makes 10 the root *)
Lemma avl_find_refines_witness :
  exists s' t', avl_find alloc_node 5 two_nodes = Ok (Some 3%positive, s') /\ avl_inv s' t' /\
    contents t' = <[5 := (3%positive, tt)]> (contents two_keys) /\ root s' = Some 1%positive.
Proof.
  destruct (avl_find_refines alloc_node two_nodes two_keys 5 two_keys_inv) as [H _]; [by unfold in_range|].
  destruct (H 3%positive tt (with_nodes (<[3%positive := fresh_node tt]> (nodes two_nodes)) two_nodes))
    as (s' & t' & Hrun & Hinv & Hc & _).
  - split; [|split; [|done]]; by vm_compute.
  - exists s', t'. split; [done|]. split; [done|]. split; [done|].
    assert (Hr : (root ∘ snd <$> match avl_find alloc_node 5 two_nodes with Ok x => Some x | Err _ => None end)
      = Some (Some 1%positive)) by by vm_compute.
    rewrite Hrun in Hr. by injection Hr.
Defined.

Lemma avl_search_cost_witness :
  find_noinsert_loop 3 2%positive 10 two_nodes = Ok (Some 1%positive, two_nodes).
Proof. exact (avl_search_cost alloc_node two_nodes two_keys 2%positive 10 two_keys_inv eq_refl). Defined.
