(* ===== verification/CodeCache.v ===== *)
(** The code cache of the JIT (src/libwashdc/jit/code_cache.c): compiled blocks by address, in an
    AVL tree with a direct-mapped table in front of it.

    The cache is the state of an [avl_tree] whose nodes are embedded in [struct cache_entry];
    the file's other globals are its [ext].  The build modelled is the one with the interpreter
    as back end, so [blk] is a [struct code_block_intp]; its type is a parameter here.  The
    host's allocator is a parameter too.

    The properties: a look-up returns the entry of its address, creates it when there is none,
    and agrees with the table; an invalidation leaves the old entries in memory, since the
    running block may be one of them, and the collector later frees exactly those. *)
From stdpp Require Import gmap sorting.
From S2P Require Import Prelude Sh4State Board Avl AvlFind.
Import avl.

Definition CODE_CACHE_HASH_TBL_SHIFT : Z := 16.
Definition CODE_CACHE_HASH_TBL_LEN : Z := Z.shiftl 1 CODE_CACHE_HASH_TBL_SHIFT.
Definition CODE_CACHE_HASH_TBL_MASK : Z := CODE_CACHE_HASH_TBL_LEN - 1.
Definition MAX_ENTRIES : Z := 1024 * 1024.

Section code_cache.
Context {B : Type} {CFG : BuildConfig}.

(** [struct cache_entry] without its node *)
Record cache_entry : Type := { valid : bool; blk : B }.

(** the static variables; a null pointer in the table is a missing key *)
Record cache_globals : Type := {
  code_cache_tbl : gmap Z ptr;
  oldroot : list (option ptr);
  n_entries : Z
}.
Abbreviation cache := (avl_tree cache_entry cache_globals).
Abbreviation cacheM := (M cache).

Definition with_ext (f : cache_globals -> cache_globals) (s : cache) : cache :=
  {| root := root s; nodes := nodes s; ext := f (ext s) |}.
Definition with_tbl t (g : cache_globals) : cache_globals :=
  {| code_cache_tbl := t; oldroot := oldroot g; n_entries := n_entries g |}.
Definition with_oldroot r (g : cache_globals) : cache_globals :=
  {| code_cache_tbl := code_cache_tbl g; oldroot := r; n_entries := n_entries g |}.
Definition with_n_entries n (g : cache_globals) : cache_globals :=
  {| code_cache_tbl := code_cache_tbl g; oldroot := oldroot g; n_entries := n |}.

(** a block after [code_block_intp_init], and the host's allocator: the address of an entry, and
    whether a node of the list [oldroot] can be allocated *)
Context (code_block_init : B) (calloc : gset ptr -> option ptr) (malloc_oldroot : cache -> bool).

Definition new_entry : cache_entry := {| valid := false; blk := code_block_init |}.

(** the constructor initializes the block before anyone looks at the pointer *)
Definition cache_entry_ctor : cacheM (option ptr) :=
  fun s => match calloc (dom (nodes s)) with
           | None => Err C_UNDEFINED
           | Some p =>
               let n := u32 (n_entries (ext s) + 1) in
               if n >=? MAX_ENTRIES then Err ERROR_INTEGRITY
               else Ok (Some p, {| root := root s; nodes := <[p := fresh_node new_entry]> (nodes s);
                                   ext := with_n_entries n (ext s) |})
           end.

(** a second [free] of an entry is undefined *)
Definition cache_entry_dtor (node : option ptr) : cacheM unit :=
  _ <- load entry node ;;
  match node with
  | Some p => modify (fun s => with_nodes (delete p (nodes s)) s)
  | None => raise C_UNDEFINED
  end.

Definition reinit_tree : cacheM unit := avl_init.
Definition code_cache_init : cacheM unit := reinit_tree.

Definition code_cache_invalidate_all : cacheM unit :=
  ok <- gets malloc_oldroot ;;
  when (negb ok) (raise ERROR_FAILED_ALLOC) ;;
  rt <- gets root ;;
  modify (with_ext (fun g => with_oldroot (rt :: oldroot g) g)) ;;
  reinit_tree ;;
  modify (with_ext (with_tbl ∅)) ;;
  modify (with_ext (with_n_entries 0)).

(** an operation on the tree of another root *)
Definition on_tree (r : option ptr) (m : cacheM unit) : cacheM unit :=
  fun s => match m (with_root r s) with
           | Ok (a, s') => Ok (a, with_root (root s) s')
           | Err e => Err e
           end.

(** the loop over the list [oldroot] *)
Fixpoint gc_loop (l : list (option ptr)) : cacheM unit :=
  match l with
  | [] => ret tt
  | r :: next =>
      on_tree r (avl_cleanup cache_entry_dtor) ;;
      modify (with_ext (with_oldroot next)) ;;
      gc_loop next
  end.
Definition code_cache_gc : cacheM unit :=
  l <- gets (fun s => oldroot (ext s)) ;; gc_loop l.

Definition code_cache_cleanup : cacheM unit :=
  code_cache_invalidate_all ;; code_cache_gc.

Definition code_cache_find_slow (addr : Z) : cacheM (option ptr) :=
  avl_find cache_entry_ctor addr.

Definition code_cache_find (addr : Z) : cacheM (option ptr) :=
  let hash_idx := Z.land addr CODE_CACHE_HASH_TBL_MASK in
  maybe <- gets (fun s => code_cache_tbl (ext s) !! hash_idx) ;;
  hit <- match maybe with
         | Some p => k <- load key (Some p) ;; ret (k =? addr)
         | None => ret false
         end ;;
  if hit : bool then ret maybe
  else
    r <- code_cache_find_slow addr ;;
    modify (with_ext (fun g =>
      with_tbl (partial_alter (fun _ => r) hash_idx (code_cache_tbl g)) g)) ;;
    ret r.

(** an assignment to the entry at [p], outside of its node *)
Definition set_entry (e : cache_entry) (p : option ptr) : cacheM unit :=
  store (fun n => {| key := key n; bal := bal n; left := left n; right := right n;
                     parent := parent n; entry := e |}) p.
End code_cache.
Arguments cache_entry B : clear implicits.

(** ** The invariant of the cache *)
Section cache_inv.
Context {B : Type} {CFG : BuildConfig}.
Abbreviation cache := (avl_tree (cache_entry B) cache_globals).
Abbreviation tree := (tree (cache_entry B)).
Implicit Types (s : cache) (t o : tree) (olds : list tree).

Record old_tree (h : gmap ptr (avl_node (cache_entry B))) (r : option ptr) o : Prop := {
  old_root : r = rootp o;
  old_rep : rep h None o;
  old_height : height o <= Z.of_nat avl_fuel
}.

Definition old_ptrs olds : list ptr := concat (ptrs <$> olds).

(** [t] is the tree of the cache, [olds] are the invalidated ones: these are all the entries in
    memory, the table points into [t], and [n_entries] counts its entries *)
Record cache_inv s t olds : Prop := {
  ci_tree : avl_inv s t;
  ci_old : Forall2 (old_tree (nodes s)) (oldroot (ext s)) olds;
  ci_nodup : NoDup (ptrs t ++ old_ptrs olds);
  ci_dom : forall x, x ∈ dom (nodes s) <-> x ∈ ptrs t ++ old_ptrs olds;
  ci_tbl : forall i p, code_cache_tbl (ext s) !! i = Some p ->
    exists k e, contents t !! k = Some (p, e) /\ Z.land k CODE_CACHE_HASH_TBL_MASK = i;
  ci_count : n_entries (ext s) = count t;
  ci_max : count t < MAX_ENTRIES
}.

Lemma old_trees_ext h h' rs olds :
  (forall x, x ∈ old_ptrs olds -> h' !! x = h !! x) ->
  Forall2 (old_tree h) rs olds -> Forall2 (old_tree h') rs olds.
Proof.
  intros He H. induction H as [|r o rs olds [Hr Hrep Hh] H IH]; [constructor|].
  constructor.
  - split; [done| |done]. eapply rep_ext; [|done]. intros x Hx. apply He. unfold old_ptrs. cbn. set_solver.
  - apply IH. intros x Hx. apply He. unfold old_ptrs in *. cbn. set_solver.
Qed.

Lemma contents_node s t k p e :
  avl_inv s t -> contents t !! k = Some (p, e) ->
  exists n, nodes s !! p = Some n /\ key n = k /\ entry n = e.
Proof.
  intros [H _ Ho _] Hk. apply lookup_contents in Hk; [|done]. eapply rep_elem; [exact (h_tree _ _ _ _ H)|done].
Qed.

(** the table in front of the tree: a hit is the entry that the tree has *)
Lemma table_hit s t olds addr (m : option ptr) :
  cache_inv s t olds -> m = code_cache_tbl (ext s) !! Z.land addr CODE_CACHE_HASH_TBL_MASK ->
  exists hit, match m with Some p => k <- load key (Some p) ;; ret (k =? addr) | None => ret false end s =
      Ok (hit, s) /\ (hit = true -> exists p e, m = Some p /\ contents t !! addr = Some (p, e)).
Proof.
  intros [Ht _ _ _ Htbl _ _] Hm. destruct m as [p|]; [|by exists false].
  destruct (Htbl _ p (eq_sym Hm)) as (k & e & Hk & _).
  destruct (contents_node _ _ _ _ _ Ht Hk) as (n & Hn & Hkey & _).
  exists (k =? addr). erewrite bind_ok by (by apply load_ok). rewrite Hkey. split; [done|].
  intros ->%Z.eqb_eq. by exists p, e.
Qed.

(** a new pointer in the table *)
Lemma table_update s t olds addr p e :
  cache_inv s t olds -> contents t !! addr = Some (p, e) ->
  cache_inv (with_ext (fun g => with_tbl (partial_alter (fun _ => Some p)
    (Z.land addr CODE_CACHE_HASH_TBL_MASK) (code_cache_tbl g)) g) s) t olds.
Proof.
  intros [[H Hb Ho Hk] Hold Hnd Hdom Htbl Hn Hm] Hp. split; try done.
  - split; [|done..]. by destruct H.
  - cbn [ext with_ext with_tbl code_cache_tbl]. intros i q.
    destruct (decide (i = Z.land addr CODE_CACHE_HASH_TBL_MASK)) as [->|Hne].
    + rewrite lookup_partial_alter_eq. intros [= <-]. eauto.
    + rewrite lookup_partial_alter_ne by done. apply Htbl.
Qed.

(** ** Filling in an entry *)
Lemma list_to_map_update (l1 l2 : list (Z * (ptr * cache_entry B))) k v v' :
  NoDup (l1 ++ (k, v) :: l2).*1 ->
  (list_to_map (l1 ++ (k, v') :: l2) : gmap Z _) = <[k := v']> (list_to_map (l1 ++ (k, v) :: l2)).
Proof.
  intros Hnd. assert (Hp : forall w, NoDup (l1 ++ (k, w) :: l2).*1 ->
    (list_to_map (l1 ++ (k, w) :: l2) : gmap Z _) = <[k := w]> (list_to_map (l1 ++ l2))).
  { intros w Hw. rewrite <- (list_to_map_proper ((k, w) :: l1 ++ l2)); [done| |by rewrite Permutation_middle].
    eapply NoDup_Permutation_proper; [|exact Hw]. by rewrite Permutation_middle. }
  rewrite !Hp; [by rewrite insert_insert_eq|done|]. revert Hnd. rewrite !fmap_app. done.
Qed.

(** another entry in a node of a tree *)
Lemma entry_replaced c l p k b (e e' : cache_entry B) r :
  let t := plug c (Node l p k b e r) in let t' := plug c (Node l p k b e' r) in
  ordered t -> keys t' = keys t /\ ptrs t' = ptrs t /\ count t' = count t /\
  contents t' = <[k := (p, e')]> (contents t).
Proof.
  intros t t' Ho.
  assert (Hkeys : keys t' = keys t).
  { unfold keys, t, t'. rewrite !elems_plug, !fmap_app. cbn [elems]. by rewrite !fmap_app. }
  split; [done|]. split.
  { unfold ptrs, t, t'. rewrite !elems_plug, !fmap_app. cbn [elems]. by rewrite !fmap_app. }
  split.
  { unfold count. f_equal. apply (f_equal length) in Hkeys. unfold keys in Hkeys. by rewrite !length_fmap in Hkeys. }
  apply sorted_nodup in Ho. revert Ho. unfold contents, keys, t, t'. rewrite !elems_plug. cbn [elems].
  rewrite <- !app_assoc. cbn. rewrite !(app_assoc (before c)). apply list_to_map_update.
Qed.

Lemma set_entry_ok s t olds k p e e' :
  cache_inv s t olds -> contents t !! k = Some (p, e) ->
  exists s' t', set_entry e' (Some p) s = Ok (tt, s') /\ cache_inv s' t' olds /\
    contents t' = <[k := (p, e')]> (contents t) /\ count t' = count t.
Proof.
  intros [[H Hb Ho Hk] Hold Hnd Hdom Htbl Hn Hm] Hc. pose proof Hc as Hc'.
  apply lookup_contents in Hc; [|done]. destruct (elem_plug _ _ _ _ Hc) as (c & l & b & r & <-).
  apply (proj2 (holds_plug s s c (Node l p k b e r))) in H.
  destruct (set_node_ok _ _ _ _ _ _ _ b _ e' _ (fun n => {| key := key n; bal := bal n; left := left n;
    right := right n; parent := parent n; entry := e' |}) H) as (s' & Hs & H' & Hsame);
    [by intros n <- <- _|].
  exists s', (plug c (Node l p k b e' r)). split; [exact Hs|].
  destruct (entry_replaced c l p k b e e' r Ho) as (Hkeys & Hptrs & Hcount & Hcont). split; [|done].
  assert (Hext : ext s' = ext s) by by destruct H'.
  split; rewrite ?Hext, ?Hptrs, ?Hcount; try done.
  - split.
    + apply (proj1 (holds_plug _ _ _ _)). destruct H'. by split.
    + apply balanced_plug in Hb. by apply balanced_plug.
    + unfold ordered. by rewrite Hkeys.
    + by rewrite Hkeys.
  - eapply old_trees_ext; [|exact Hold]. intros x Hx. apply Hsame. intros ->.
    apply list.NoDup_app in Hnd as (_ & Hd & _). apply (Hd p); [|done]. unfold ptrs.
    by apply (list_elem_of_fmap_2 (fun x : Z * (ptr * cache_entry B) => x.2.1) _ _ Hc).
  - intros x. rewrite <- Hdom, !elem_of_dom. destruct (decide (x = p)) as [->|Hne]; [|by rewrite Hsame].
    pose proof (h_tree _ _ _ _ H') as [Hp1 _]. pose proof (h_tree _ _ _ _ H) as [Hp2 _].
    rewrite Hp1, Hp2. split; eauto.
  - intros i q Hq. destruct (Htbl i q Hq) as (k' & e1 & Hk' & Hi). rewrite Hcont.
    destruct (decide (k = k')) as [->|Hne].
    + rewrite Hc' in Hk'. injection Hk' as <- <-. exists k', e'. by rewrite lookup_insert_eq.
    + exists k', e1. by rewrite lookup_insert_ne.
Qed.
End cache_inv.

(** ** Look-up *)
Section lookup.
Context {B : Type} {CFG : BuildConfig}.
Context (code_block_init : B) (calloc : gset ptr -> option ptr).
Context (calloc_fresh : forall X p, calloc X = Some p -> p ∉ X).
Abbreviation cache := (avl_tree (cache_entry B) cache_globals).
Abbreviation tree := (tree (cache_entry B)).
Implicit Types (s : cache) (t o : tree) (olds : list tree).

Lemma created_entry s t olds p :
  cache_inv s t olds -> calloc (dom (nodes s)) = Some p -> count t + 1 < MAX_ENTRIES ->
  created (cache_entry_ctor code_block_init calloc) s p (new_entry code_block_init)
    {| root := root s; nodes := <[p := fresh_node (new_entry code_block_init)]> (nodes s);
       ext := with_n_entries (count t + 1) (ext s) |}.
Proof.
  intros [_ _ _ _ _ Hn Hm] Hc Hlt. pose proof (Zle_0_nat (length (elems t))).
  assert (E : u32 (n_entries (ext s) + 1) = count t + 1)
    by (rewrite Hn; apply wrap_small; unfold in_range, count, MAX_ENTRIES in *; lia).
  split; [|split; [|done]].
  - unfold cache_entry_ctor. rewrite Hc, E. by replace (count t + 1 >=? MAX_ENTRIES) with false by lia.
  - by apply not_elem_of_dom, calloc_fresh.
Qed.

(** the entry for an address, which the cache may have to create *)
Definition cached t addr p t' : Prop :=
  match contents t !! addr with
  | Some (q, _) => p = q /\ t' = t
  | None => contents t' = <[addr := (p, new_entry code_block_init)]> (contents t)
  end.

Lemma insert_entry s s' t t' olds p s1 addr :
  cache_inv s t olds -> count t + 1 < MAX_ENTRIES -> p ∉ dom (nodes s) ->
  nodes s1 = <[p := fresh_node (new_entry code_block_init)]> (nodes s) ->
  ext s1 = with_n_entries (count t + 1) (ext s) ->
  contents t !! addr = None -> avl_inv s' t' ->
  contents t' = <[addr := (p, new_entry code_block_init)]> (contents t) -> ext s' = ext s1 ->
  (forall x, x ∉ ptrs t' -> nodes s' !! x = nodes s1 !! x) -> ptrs t' ≡ₚ p :: ptrs t ->
  cache_inv s' t' olds.
Proof.
  intros [Ht Hold Hnd Hdom Htbl Hn Hm] Hlt Hp Hn1 Hx1 Hnone Ht' Hc' Hx' Hfr Hperm.
  assert (Hpo : p ∉ ptrs t ++ old_ptrs olds) by (by rewrite <- Hdom).
  assert (Hold' : forall x, x ∈ old_ptrs olds -> nodes s' !! x = nodes s !! x).
  { intros x Hx. rewrite Hfr, Hn1, lookup_insert_ne; [done|intros ->; apply Hpo; set_solver|].
    rewrite Hperm, elem_of_cons. apply list.NoDup_app in Hnd as (_ & Hd & _).
    intros [->|Hxt]; [apply Hpo; set_solver|by apply (Hd x)]. }
  rewrite Hx1 in Hx'. split; rewrite ?Hx'; cbn [code_cache_tbl oldroot n_entries with_n_entries]; try done.
  - by eapply old_trees_ext.
  - rewrite Hperm. cbn. by apply list.NoDup_cons.
  - intros x. rewrite Hperm. cbn. rewrite elem_of_cons, <- Hdom.
    destruct (decide (x ∈ ptrs t')) as [Hxt|Hxt].
    + split; [|intros _].
      * intros _. rewrite Hperm, elem_of_cons in Hxt. destruct Hxt; [by left|right]. rewrite Hdom. set_solver.
      * rewrite elem_of_dom. eapply rep_addr; [exact (h_tree _ _ _ _ (inv_holds _ _ Ht'))|done].
    + rewrite elem_of_dom, (Hfr x Hxt), Hn1, <- elem_of_dom, dom_insert. set_solver.
  - intros i q Hq. destruct (Htbl i q Hq) as (k & e & Hk & Hi). exists k, e. split; [|done].
    rewrite Hc', lookup_insert_ne; [done|]. intros ->. congruence.
  - unfold count. replace (length (elems t')) with (length (ptrs t')) by apply length_fmap.
    rewrite Hperm. cbn [length]. unfold ptrs. rewrite length_fmap. lia.
  - unfold count in *. replace (length (elems t')) with (length (ptrs t')) by apply length_fmap.
    rewrite Hperm. cbn [length]. unfold ptrs. rewrite length_fmap. lia.
Qed.

Lemma find_slow_ok s t olds addr :
  cache_inv s t olds -> in_range 32 addr -> count t + 1 < MAX_ENTRIES ->
  is_Some (calloc (dom (nodes s))) ->
  exists p s' t', code_cache_find_slow code_block_init calloc addr s = Ok (Some p, s') /\
    cache_inv s' t' olds /\ cached t addr p t' /\ exists e, contents t' !! addr = Some (p, e).
Proof.
  intros Hinv Ha Hlt [p Hp]. pose proof Hinv as Hc. destruct Hc as [Ht _ _ _ _ _ _].
  pose proof (avl_find_ok (cache_entry_ctor code_block_init calloc) s t addr Ht Ha) as Hf.
  unfold cached. unfold finds in Hf.
  destruct (contents t !! addr) as [[q e]|] eqn:Ec.
  - exists q, s, t. split; [exact Hf|]. split; [done|]. split; [done|]. by exists e.
  - destruct Hf as [Hf _]. pose proof (created_entry _ _ _ _ Hinv Hp Hlt) as Hnew.
    destruct (Hf _ _ _ Hnew) as (s' & t' & Hrun & Ht' & Hc' & Hx' & Hfr & Hperm).
    exists p, s', t'. split; [exact Hrun|]. split; [|split; [done|]].
    + by eapply (fun e1 e2 => insert_entry _ _ _ _ _ _ _ _ Hinv Hlt (calloc_fresh _ _ Hp) e1 e2 Ec Ht' Hc' Hx' Hfr Hperm).
    + rewrite Hc', lookup_insert_eq. eauto.
Qed.

Lemma code_cache_find_ok s t olds addr :
  cache_inv s t olds -> in_range 32 addr -> count t + 1 < MAX_ENTRIES ->
  is_Some (calloc (dom (nodes s))) ->
  exists p s' t', code_cache_find code_block_init calloc addr s = Ok (Some p, s') /\
    cache_inv s' t' olds /\ cached t addr p t' /\ exists e, contents t' !! addr = Some (p, e).
Proof.
  intros Hinv Ha Hlt Hcalloc. unfold code_cache_find. erewrite bind_ok by done.
  destruct (table_hit s t olds addr _ Hinv eq_refl) as (hit & Hrun & Hhit). erewrite bind_ok by exact Hrun.
  destruct hit.
  - destruct (Hhit eq_refl) as (p & e & Hp & Hc). exists p, s, t. rewrite Hp. split; [done|]. split; [done|].
    unfold cached. rewrite Hc. eauto.
  - destruct (find_slow_ok s t olds addr Hinv Ha Hlt Hcalloc) as (p & s' & t' & Hs & Hinv' & Hca & e & He).
    erewrite bind_ok by exact Hs. do 3 eexists. split; [done|]. split; [by eapply table_update|]. eauto.
Qed.

(** C27: [code_cache_find] is look-up with creation in a map from addresses to entries: the table
    in front of the tree never gives another answer than the tree, an address that has an entry
    keeps it, an address without one gets a fresh entry that is not valid, and the cache stays
    consistent.  (There is room for a new entry below [MAX_ENTRIES], and [calloc] succeeds.) *)
Theorem code_cache_find_refines s t olds addr :
  cache_inv s t olds -> in_range 32 addr -> count t + 1 < MAX_ENTRIES ->
  is_Some (calloc (dom (nodes s))) ->
  exists p s' t', code_cache_find code_block_init calloc addr s = Ok (Some p, s') /\
    cache_inv s' t' olds /\ cached t addr p t'.
Proof.
  intros Hinv Ha Hlt Hcalloc.
  destruct (code_cache_find_ok s t olds addr Hinv Ha Hlt Hcalloc) as (p & s' & t' & Hf & Hinv' & Hc & _).
  by exists p, s', t'.
Qed.
End lookup.

(** ** Invalidation and collection *)
Section collect.
Context {B : Type} {CFG : BuildConfig}.
Abbreviation cache := (avl_tree (cache_entry B) cache_globals).
Abbreviation tree := (tree (cache_entry B)).
Implicit Types (s : cache) (t o : tree) (olds : list tree).
Context (malloc_oldroot : cache -> bool).

Lemma dtor_frees : frees (cache_entry_dtor (B := B)).
Proof. intros s p [n Hn]. unfold cache_entry_dtor. by erewrite bind_ok by by apply load_ok. Qed.

Lemma invalidate_ok s t olds :
  cache_inv s t olds -> malloc_oldroot s = true ->
  exists s', code_cache_invalidate_all malloc_oldroot s = Ok (tt, s') /\ nodes s' = nodes s /\
    root s' = None /\ cache_inv s' Leaf (t :: olds).
Proof.
  intros [[H Hb Ho Hk] Hold Hnd Hdom Htbl Hn Hm] Hok. eexists.
  unfold code_cache_invalidate_all. erewrite bind_ok by done. rewrite Hok. cbn [negb when].
  split; [reflexivity|]. split; [done|]. split; [done|]. split; try done.
  - split; [|done|constructor..]. split; try done. constructor.
  - constructor; [|done]. pose proof (h_ctx _ _ _ _ H) as Hr. cbn in Hr. split; [done|by destruct H|].
    pose proof (height_bound t Hb Ho Hk). unfold avl_fuel. lia.
Qed.

Lemma old_tree_cleanup s o olds rest r :
  old_tree (nodes s) r o -> NoDup (ptrs o ++ rest) ->
  exists h, on_tree r (avl_cleanup cache_entry_dtor) s = Ok (tt, with_nodes h s) /\
    (forall x, x ∈ ptrs o -> h !! x = None) /\ (forall x, x ∉ ptrs o -> h !! x = nodes s !! x) /\
    (Forall2 (old_tree (nodes s)) (oldroot (ext s)) olds -> old_ptrs olds ⊆ rest ->
     Forall2 (old_tree h) (oldroot (ext s)) olds).
Proof.
  intros [Hr Hrep Hh] Hnd. apply list.NoDup_app in Hnd as (Hnd & Hd & _).
  destruct (avl_cleanup_ok cache_entry_dtor (with_root r s) o (with_root r s) dtor_frees) as (h & Hrun & Hin & Hout);
    [|done|].
  { split; try done. }
  exists h. split.
  - unfold on_tree. by rewrite Hrun.
  - split; [done|]. split; [done|]. intros Hold Hsub. eapply old_trees_ext; [|exact Hold].
    intros x Hx. apply Hout. intros Hx'. apply (Hd x Hx'). by apply Hsub.
Qed.

(** one turn of the collector *)
Lemma gc_turn s t o olds :
  cache_inv s t (o :: olds) ->
  exists r rest h, oldroot (ext s) = r :: rest /\
    on_tree r (avl_cleanup cache_entry_dtor) s = Ok (tt, with_nodes h s) /\
    (forall x, x ∈ ptrs t -> h !! x = nodes s !! x) /\
    cache_inv (with_ext (with_oldroot rest) (with_nodes h s)) t olds.
Proof.
  intros [[H Hb Ho Hk] Hold Hnd Hdom Htbl Hn Hm].
  inversion Hold as [|r o' rest olds' Ho1 Hrest E1 E2]; subst. exists r, rest.
  assert (Hnd' : NoDup (ptrs o ++ (ptrs t ++ old_ptrs olds))).
  { eapply NoDup_Permutation_proper; [|exact Hnd]. unfold old_ptrs. cbn. solve_Permutation. }
  destruct (old_tree_cleanup s o [] (ptrs t ++ old_ptrs olds) r Ho1 Hnd') as (h & Hrun & Hin & Hout & _).
  apply list.NoDup_app in Hnd' as (_ & Hd & Hnd').
  assert (Hsame : forall x, x ∈ ptrs t ++ old_ptrs olds -> h !! x = nodes s !! x)
    by (intros x Hx; apply Hout; intros Hx'; by apply (Hd x Hx')).
  assert (Hpt : forall x, x ∈ ptrs t -> h !! x = nodes s !! x) by (intros x Hx; apply Hsame; set_solver).
  exists h. split; [done|]. split; [done|]. split; [done|]. split; try done.
  - split; [|done..]. destruct H as [Ht Hrt Hndt _ _]. split; try done. by eapply rep_ext.
  - eapply old_trees_ext; [|exact Hrest]. intros x Hx. apply Hsame. set_solver.
  - intros x. cbn [nodes with_ext with_nodes]. rewrite elem_of_dom.
    destruct (decide (x ∈ ptrs o)) as [Hx|Hx].
    + rewrite (Hin x Hx). split; [by intros [? [=]]|]. intros Hx'. by destruct (Hd x Hx).
    + rewrite (Hout x Hx), <- elem_of_dom, Hdom. unfold old_ptrs. cbn. rewrite !elem_of_app. tauto.
Qed.

Lemma gc_ok olds : forall s t, cache_inv s t olds ->
  exists s', code_cache_gc s = Ok (tt, s') /\ cache_inv s' t [] /\
    forall x, x ∈ ptrs t -> nodes s' !! x = nodes s !! x.
Proof.
  unfold code_cache_gc. induction olds as [|o olds IH]; intros s t Hinv.
  - exists s. pose proof (ci_old _ _ _ Hinv) as Hold. inversion Hold as [E1|]. erewrite bind_ok by done.
    by rewrite <- E1.
  - destruct (gc_turn s t o olds Hinv) as (r & rest & h & Hr & Hrun & Hsame & Hinv1).
    destruct (IH _ _ Hinv1) as (s' & Hgc & Hinv' & Hsame'). exists s'. erewrite bind_ok by done.
    rewrite Hr. cbn [gc_loop]. erewrite bind_ok by exact Hrun. erewrite bind_ok by done.
    erewrite bind_ok in Hgc by done. cbn [ext with_ext with_oldroot oldroot] in Hgc.
    split; [exact Hgc|]. split; [done|]. intros x Hx. rewrite Hsame' by done. by apply Hsame.
Qed.

(** C28: [code_cache_invalidate_all] empties the cache but leaves every entry in memory, so that
    the block that is running stays intact, however often it is called; the next
    [code_cache_gc] frees the invalidated entries, each once, and no others: afterwards the
    entries of the current tree, unchanged, are all that is allocated. *)
Theorem invalidate_then_collect s t olds :
  cache_inv s t olds -> malloc_oldroot s = true ->
  exists s1, code_cache_invalidate_all malloc_oldroot s = Ok (tt, s1) /\ nodes s1 = nodes s /\
    cache_inv s1 Leaf (t :: olds) /\
    forall s2 t2 olds2, cache_inv s2 t2 olds2 ->
    exists s3, code_cache_gc s2 = Ok (tt, s3) /\ cache_inv s3 t2 [] /\
      (forall x, x ∈ ptrs t2 -> nodes s3 !! x = nodes s2 !! x) /\
      dom (nodes s3) = list_to_set (ptrs t2).
Proof.
  intros Hinv Hok. destruct (invalidate_ok s t olds Hinv Hok) as (s1 & Hrun & Hn & _ & Hinv1).
  exists s1. split; [done|]. split; [done|]. split; [done|]. intros s2 t2 olds2 Hinv2.
  destruct (gc_ok olds2 s2 t2 Hinv2) as (s3 & Hgc & Hinv3 & Hsame). exists s3. split_and!; try done.
  apply set_eq. intros x. rewrite elem_of_list_to_set, (ci_dom _ _ _ Hinv3). unfold old_ptrs. cbn.
  by rewrite app_nil_r.
Qed.
End collect.

(** ** The cache at the start *)
Definition empty_cache {B} : avl_tree (cache_entry B) cache_globals :=
  {| root := None; nodes := ∅;
     ext := {| code_cache_tbl := ∅; oldroot := []; n_entries := 0 |} |}.

Lemma empty_cache_inv {B} : cache_inv (empty_cache : avl_tree (cache_entry B) cache_globals) Leaf [].
Proof.
  split; try done.
  - split; [|done|constructor..]. split; try done. apply NoDup_nil_2.
  - constructor.
  - intros x. cbn. set_solver.
Qed.

Lemma code_cache_find_refines_witness :
  exists p s' t', code_cache_find tt (fun X => Some (fresh X)) 0x8c000000 empty_cache = Ok (Some p, s') /\
    cache_inv s' t' [] /\ cached tt Leaf 0x8c000000 p t'.
Proof.
  apply (code_cache_find_refines tt (fun X => Some (fresh X))).
  - intros X p [= <-]. apply is_fresh.
  - apply empty_cache_inv.
  - by unfold in_range.
  - by vm_compute.
  - by eexists.
Defined.

(** one entry is created, invalidated and collected *)
Lemma invalidate_then_collect_witness :
  exists s t s1 s3, code_cache_find tt (fun X => Some (fresh X)) 0x8c000000 empty_cache = Ok (Some 1%positive, s) /\
    code_cache_invalidate_all (fun _ => true) s = Ok (tt, s1) /\ nodes s1 = nodes s /\
    cache_inv s1 Leaf [t] /\ code_cache_gc s1 = Ok (tt, s3) /\ dom (nodes s3) = ∅.
Proof.
  destruct (code_cache_find_ok tt (fun X => Some (fresh X)) (fun X p => ltac:(intros [= <-]; apply is_fresh))
    empty_cache Leaf [] 0x8c000000 empty_cache_inv) as (p & s & t & Hrun & Hinv & _);
    [by unfold in_range|by vm_compute|by eexists|].
  destruct (invalidate_then_collect (fun _ => true) s t [] Hinv eq_refl) as (s1 & Hs1 & Hn & Hinv1 & Hgc).
  destruct (Hgc _ _ _ Hinv1) as (s3 & Hs3 & _ & _ & Hdom).
  exists s, t, s1, s3. split_and!; try done.
  assert (Hp : (fst <$> match code_cache_find tt (fun X => Some (fresh X)) 0x8c000000 empty_cache with
    Ok x => Some x | Err _ => None end) = Some (Some 1%positive)) by by vm_compute.
  rewrite Hrun in Hp. injection Hp as ->. exact Hrun.
Defined.
