(* ===== verification/Sh4JitLoop.v ===== *)
(** The JIT's event loop: [run_to_next_sh4_event_jit] (src/libwashdc/dreamcast.c) looks up the
    block of the current address in the code cache, compiles it if the cache does not have it,
    and runs it, until the next event is due.

    The loop is proved against a run of the interpreter that goes from block to block
    ([block_trace]).  Writes to the program while it runs are excluded, as the cache does not
    notice them: the console's software has to invalidate the cache through CCR, whose handler
    is not part of this model. *)
From stdpp Require Import gmap sorting.
From S2P Require Import Prelude IntMath MemoryMap Memory Sh4State Board Sh4Core Sh4Excp Sh4Inst.
From S2P Require Import Sh4InstMem Sh4Decode Sched Sh4Exec JitIL Sh4Jit Sh4JitSim Sh4JitRules.
From S2P Require Import Sh4JitCorrect Sh4JitFallback Sh4JitRun Sh4JitBlock Sh4JitBoard.
From S2P Require Import Avl AvlFind CodeCache.
Import memory_map memory intmath.

Section jit_loop.
Context {W : Type} {CFG : BuildConfig} {MCH : Machine W} {HR : HostRam W} {CLK : Clock W}.

(** [struct code_block_intp] with its slots, which it keeps between runs *)
Record jit_block : Type := { jb_code : code_block_intp W; jb_slots : slots }.
Abbreviation cache := (avl.avl_tree (cache_entry jit_block) cache_globals).

(** the CPU and the code cache *)
Record jit_cpu : Type := { jl_sh4 : Sh4 W; jl_cache : cache }.

Definition on_sh4 {A} (m : M (Sh4 W) A) : M jit_cpu A :=
  fun x => match m (jl_sh4 x) with
           | Ok (a, s) => Ok (a, {| jl_sh4 := s; jl_cache := jl_cache x |})
           | Err e => Err e
           end.
Definition on_cache {A} (m : M cache A) : M jit_cpu A :=
  fun x => match m (jl_cache x) with
           | Ok (a, c) => Ok (a, {| jl_sh4 := jl_sh4 x; jl_cache := c |})
           | Err e => Err e
           end.

(** [code_block_intp_init] *)
Definition jit_block_init : jit_block :=
  {| jb_code := {| intp_insts := []; intp_cycle_count := 0 |}; jb_slots := ∅ |}.

(** the allocator, what it leaves in new slots, and a bound on the length of a block *)
Context (calloc : gset avl.ptr -> option avl.ptr) (malloc_slots : slots) (compile_fuel : nat).

Definition exec_block (e : cache_entry jit_block) (ent : option avl.ptr) : M jit_cpu Z :=
  fun x =>
    match code_block_intp_exec (intp_insts (jb_code (blk e))) (jb_slots (blk e), jl_sh4 x) with
    | Ok (pc, (sl, s)) =>
        (on_cache (set_entry {| valid := valid e;
                                blk := {| jb_code := jb_code (blk e); jb_slots := sl |} |} ent) ;;
         ret pc) {| jl_sh4 := s; jl_cache := jl_cache x |}
    | Err er => Err er
    end.

Definition now_of (s : Sh4 W) : Z := clock_cycle_stamp (world s).
Definition target_of (s : Sh4 W) : Z := clock_target_stamp (world s).
Definition set_now (v : Z) (s : Sh4 W) : Sh4 W := with_world (clock_set_cycle_stamp v (world s)) s.

(** the body of the loop *)
Definition run_block (blk_addr : Z) : M jit_cpu Z :=
  ent <- on_cache (code_cache_find jit_block_init calloc blk_addr) ;;
  e <- on_cache (avl.load avl.entry ent) ;;
  when (negb (valid e))
    (b <- on_sh4 (sh4_jit_compile_intp compile_fuel blk_addr) ;;
     on_cache (set_entry {| valid := true; blk := {| jb_code := b; jb_slots := malloc_slots |} |} ent)) ;;
  e <- on_cache (avl.load avl.entry ent) ;;
  newpc <- exec_block e ent ;;
  now <- on_sh4 (gets now_of) ;;
  on_sh4 (modify (set_now (u64 (now + intp_cycle_count (jb_code (blk e)))))) ;;
  ret newpc.

Fixpoint jit_loop (fuel : nat) (newpc : Z) : M jit_cpu Z :=
  match fuel with
  | O => raise OUT_OF_FUEL
  | S fuel' =>
      tgt_stamp <- on_sh4 (gets target_of) ;;
      now <- on_sh4 (gets now_of) ;;
      if tgt_stamp >? now then newpc' <- run_block newpc ;; jit_loop fuel' newpc'
      else ret newpc
  end.

Definition run_to_next_sh4_event_jit (fuel : nat) : M jit_cpu unit :=
  pc <- on_sh4 (reg_get SH4_REG_PC) ;;
  newpc <- jit_loop fuel pc ;;
  tgt_stamp <- on_sh4 (gets target_of) ;;
  now <- on_sh4 (gets now_of) ;;
  when (now >? tgt_stamp) (on_sh4 (modify (set_now tgt_stamp))) ;;
  on_sh4 (reg_set SH4_REG_PC newpc).
End jit_loop.
Arguments jit_block W : clear implicits.
Arguments jit_cpu W : clear implicits.

(** ** The interpreter's run, block by block *)
Section trace.
Context {W : Type} {CFG : BuildConfig} {MCH : Machine W} {CLK : Clock W}.
Implicit Types s : Sh4 W.

(** the program: its words, and the addresses at which it is *)
Context (code : Z -> Z) (region : Z -> Prop) (max_len : nat).

Definition loaded s : Prop := forall a, region a -> sh4_do_read_inst a s = Ok (code a, s).

Fixpoint in_region (n : nat) (pc : Z) : Prop :=
  match n with O => True | S n' => region pc /\ in_region n' (u32 (pc + 2)) end.

(** a block of [n] instructions can start in [s] *)
Record ready (n : nat) s : Prop := {
  rd_ok : regs_ok s;
  rd_even : getr SH4_REG_PC s mod 2 = 0;
  rd_slot : delayed_branch s = false;
  rd_loaded : loaded s;
  rd_region : in_region n (getr SH4_REG_PC s);
  rd_slots : INST_SLOTS * Z.of_nat n <= MAX_SLOTS;
  rd_len : (n <= max_len)%nat
}.

Definition cycles_of (n : nat) (pc : Z) : Z :=
  u32 (snd (block_cycles (W := W) code n pc (SH4_GROUP_NONE, 0)) * SH4_CLOCK_SCALE).

(** the CPU after a block: the interpreter's, with the block's cycles on the clock; the address
    of a branch that is no longer pending is not kept *)
Definition after_block (n : nat) s s1 : Sh4 W :=
  let s1' := with_delayed_branch_addr (delayed_branch_addr s) s1 in
  set_now (u64 (now_of s1' + cycles_of n (getr SH4_REG_PC s))) s1'.

Inductive block_trace : nat -> Sh4 W -> Sh4 W -> Prop :=
| trace_due s : target_of s <= now_of s -> block_trace 0 s s
| trace_block m n s s1 s' :
    now_of s < target_of s -> ready n s -> block_run code n s s1 ->
    block_trace m (after_block n s s1) s' -> block_trace (S m) s s'.
End trace.

(** ** Slots hold 32-bit values *)
Section slots.
Context {W : Type} {MCH : Machine W} {HR : HostRam W}.

Definition slots_ok (sl : slots) : Prop := forall i, in_range 32 (slot_get i sl).

Lemma slots_ok_set i v sl : slots_ok sl -> slots_ok (slot_set i v sl).
Proof.
  intros H j. rewrite slot_get_set. destruct (i =? j); [|apply H]. apply wrap_range. lia.
Qed.

Lemma intp_step_slots (inst : jit_inst W) x nx x' :
  intp_step inst x = Ok (nx, x') -> slots_ok (fst x) -> slots_ok (fst x').
Proof.
  intros Hs Hx. destruct inst; cbn [intp_step] in Hs;
    unfold on_slots, on_cpu, cpu_to_slot, shift_ok in Hs; repeat case_match; simplify_eq;
    cbn [fst]; eauto using slots_ok_set.
Qed.

Lemma intp_exec_slots (insts : list (jit_inst W)) : forall x pc x',
  code_block_intp_exec insts x = Ok (pc, x') -> slots_ok (fst x) -> slots_ok (fst x').
Proof.
  induction insts as [|inst insts IH]; intros x pc x' He Hx; [done|]. cbn [code_block_intp_exec] in He.
  apply bind_inv in He as (nx & x1 & Hs & He). apply intp_step_slots in Hs; [|done].
  destruct nx; [by eapply IH|]. by injection He as _ <-.
Qed.
End slots.

Section refinement.
Context {W : Type} {CFG : BuildConfig} {MCH : Machine W} {HR : HostRam W} {JM : JitMachine W}.
Context {CLK : Clock W} {CL : ClockLaws W}.
Context (calloc : gset avl.ptr -> option avl.ptr) (malloc_slots : slots) (compile_fuel : nat).
Context (calloc_fresh : forall X p, calloc X = Some p -> p ∉ X) (calloc_total : forall X, is_Some (calloc X)).
Context (malloc_range : slots_ok malloc_slots).
Context (code : Z -> Z) (region : Z -> Prop).
Abbreviation tree := (avl.tree (cache_entry (jit_block W))).
Implicit Types (s : Sh4 W) (t : tree) (olds : list tree).

(** a cached block is the translation of the program *)
Definition compiled (a : Z) (b : jit_block W) : Prop :=
  exists s0, loaded code region s0 /\ sh4_jit_compile_intp compile_fuel a s0 = Ok (jb_code b, s0).
Definition entry_ok (a : Z) (e : cache_entry (jit_block W)) : Prop :=
  slots_ok (jb_slots (blk e)) /\ (valid e = true -> compiled a (blk e)).
Definition coherent t : Prop := forall a p e, contents t !! a = Some (p, e) -> entry_ok a e.

Lemma coherent_insert t t' a p e :
  coherent t -> contents t' = <[a := (p, e)]> (contents t) -> entry_ok a e -> coherent t'.
Proof.
  intros Hc Ht He a' p' e'. rewrite Ht. destruct (decide (a = a')) as [->|Hne].
  - rewrite lookup_insert_eq. by intros [= <- <-].
  - rewrite lookup_insert_ne by done. apply Hc.
Qed.

Lemma count_contents t : ordered t -> count t = Z.of_nat (size (contents t)).
Proof. intros Ho. unfold count, contents. by rewrite map_size_list_to_map by by apply sorted_nodup. Qed.

Lemma region_memory s0 n pc : loaded code region s0 -> in_region region n pc -> in_memory s0 code n pc.
Proof.
  intros Hl. revert pc. induction n as [|n IH]; intros pc; [done|]. intros [Hr Hi]. split; [by apply Hl|by apply IH].
Qed.

Lemma find_entry c t olds a :
  cache_inv c t olds -> coherent t -> in_range 32 a -> count t + 1 < MAX_ENTRIES ->
  exists p e c' t', code_cache_find jit_block_init calloc a c = Ok (Some p, c') /\ cache_inv c' t' olds /\
    coherent t' /\ contents t' !! a = Some (p, e) /\ count t' <= count t + 1.
Proof.
  intros Hinv Hco Ha Hlt.
  destruct (code_cache_find_ok jit_block_init calloc calloc_fresh c t olds a Hinv Ha Hlt)
    as (p & c' & t' & Hf & Hinv' & Hca & e & He); [apply calloc_total|].
  exists p, e, c', t'. split; [done|]. split; [done|].
  rewrite (count_contents t'), (count_contents t) by
    (first [exact (inv_ordered _ _ (ci_tree _ _ _ Hinv'))|exact (inv_ordered _ _ (ci_tree _ _ _ Hinv))]).
  unfold cached in Hca. destruct (contents t !! a) as [[q e1]|] eqn:Ec.
  - destruct Hca as [-> ->]. split_and!; [done|done|lia].
  - split; [|split; [done|]].
    + eapply coherent_insert; [exact Hco|exact Hca|]. split; [|done]. intros i. unfold slot_get.
      cbn [new_entry blk jit_block_init jb_slots]. rewrite lookup_empty. cbn. unfold in_range. lia.
    + rewrite Hca, map_size_insert_None by done. lia.
Qed.

(** the CPU inside the loop, whose PC is not up to date *)
Definition stale s sj : Prop := setr SH4_REG_PC (getr SH4_REG_PC s) sj = s /\ regs_ok sj.

Lemma stale_eq s sj : stale s sj -> sj = setr SH4_REG_PC (getr SH4_REG_PC sj) s.
Proof. intros [<- Hok]. rewrite setr_setr. by rewrite setr_same. Qed.

Lemma loaded_stale s v : regs_ok s -> loaded code region s -> loaded code region (setr SH4_REG_PC v s).
Proof.
  intros Hok Hl a Ha. unfold sh4_do_read_inst.
  rewrite (blind_set _ _ (blind_read_16 (W := W) _) SH4_REG_PC v s) by (done || by left).
  specialize (Hl a Ha). unfold sh4_do_read_inst in Hl. by rewrite Hl.
Qed.

(** a block of the cache, run in place of the interpreter *)
Lemma cached_block n s s1 s0 sj b :
  ready code region compile_fuel n s -> block_run code n s s1 -> stale s sj -> slots_ok (jb_slots b) ->
  loaded code region s0 -> sh4_jit_compile_intp compile_fuel (getr SH4_REG_PC s) s0 = Ok (jb_code b, s0) ->
  exists sl' sj', code_block_intp_exec (intp_insts (jb_code b)) (jb_slots b, sj) = Ok (getr SH4_REG_PC s1, (sl', sj')) /\
    slots_ok sl' /\ stale (with_delayed_branch_addr (delayed_branch_addr s) s1) sj' /\
    intp_cycle_count (jb_code b) = cycles_of code n (getr SH4_REG_PC s).
Proof.
  intros [Hok Hev Hd _ Hreg Hsl Hlen] Hrun Hst Hslots Hl0 Hc0.
  destruct (block_correct code n compile_fuel s0 s s1 (jb_slots b) (getr SH4_REG_PC sj) Hok Hev Hd Hrun)
    as [_ (blk' & sl' & sj' & Hc & Hx & Hs & Hokj & Hcy)]; [by apply region_memory|done..|].
  rewrite Hc0 in Hc. injection Hc as <-. rewrite <- (stale_eq _ _ Hst) in Hx.
  exists sl', sj'. split; [exact Hx|]. split; [by apply intp_exec_slots in Hx|]. split; [|exact Hcy].
  split; [exact Hs|done].
Qed.

Lemma on_cache_ok {A} (m : M _ A) sj c a c' :
  m c = Ok (a, c') ->
  on_cache (W := W) m {| jl_sh4 := sj; jl_cache := c |} = Ok (a, {| jl_sh4 := sj; jl_cache := c' |}).
Proof. intros H. unfold on_cache. cbn [jl_cache jl_sh4]. by rewrite H. Qed.
Lemma on_sh4_ok {A} (m : M _ A) sj c a sj' :
  m sj = Ok (a, sj') ->
  on_sh4 (W := W) m {| jl_sh4 := sj; jl_cache := c |} = Ok (a, {| jl_sh4 := sj'; jl_cache := c |}).
Proof. intros H. unfold on_sh4. cbn [jl_cache jl_sh4]. by rewrite H. Qed.

Lemma load_entry c t olds a p e :
  cache_inv c t olds -> contents t !! a = Some (p, e) -> avl.load avl.entry (Some p) c = Ok (e, c).
Proof.
  intros Hinv Hc. destruct (contents_node _ _ _ _ _ (ci_tree _ _ _ Hinv) Hc) as (n & Hn & _ & <-).
  by apply avl.load_ok.
Qed.

(** the entry is compiled when it is not valid *)
Lemma entry_compiled n s s1 sj c t olds p e :
  ready code region compile_fuel n s -> block_run code n s s1 -> stale s sj ->
  cache_inv c t olds -> coherent t -> contents t !! getr SH4_REG_PC s = Some (p, e) ->
  exists e' c' t',
    when (negb (valid e))
      (b <- on_sh4 (sh4_jit_compile_intp compile_fuel (getr SH4_REG_PC s)) ;;
       on_cache (set_entry {| valid := true; blk := {| jb_code := b; jb_slots := malloc_slots |} |} (Some p)))
      {| jl_sh4 := sj; jl_cache := c |} = Ok (tt, {| jl_sh4 := sj; jl_cache := c' |}) /\
    cache_inv c' t' olds /\ coherent t' /\ contents t' !! getr SH4_REG_PC s = Some (p, e') /\
    valid e' = true /\ count t' = count t.
Proof.
  intros Hrd Hrun Hst Hinv Hco Hc. destruct (valid e) eqn:Ev; [by exists e, c, t|]. cbn [negb when].
  assert (Hl : loaded code region sj).
  { rewrite (stale_eq _ _ Hst). apply loaded_stale; [by destruct Hrd|by destruct Hrd]. }
  destruct Hrd as [Hok Hev Hd Hld Hreg Hsl Hlen].
  destruct (block_correct code n compile_fuel sj s s1 ∅ 0 Hok Hev Hd Hrun)
    as [_ (b & _ & _ & Hcomp & _)]; [by apply region_memory|done|done| |].
  { intros i. unfold slot_get. rewrite lookup_empty. cbn. unfold in_range. lia. }
  erewrite bind_ok by by apply on_sh4_ok.
  destruct (set_entry_ok c t olds _ p e {| valid := true; blk := {| jb_code := b; jb_slots := malloc_slots |} |} Hinv Hc)
    as (c' & t' & Hset & Hinv' & Hcont & Hcnt).
  exists {| valid := true; blk := {| jb_code := b; jb_slots := malloc_slots |} |}, c', t'.
  split_and!; [by apply on_cache_ok|done| |by rewrite Hcont, lookup_insert_eq|done|done].
  eapply coherent_insert; [exact Hco|exact Hcont|]. split; [exact malloc_range|]. intros _. by exists sj.
Qed.

Lemma run_block_ok n s s1 sj c t olds :
  ready code region compile_fuel n s -> block_run code n s s1 -> stale s sj ->
  cache_inv c t olds -> coherent t -> count t + 1 < MAX_ENTRIES ->
  exists sj' c' t', run_block calloc malloc_slots compile_fuel (getr SH4_REG_PC s) {| jl_sh4 := sj; jl_cache := c |} =
      Ok (getr SH4_REG_PC (after_block code n s s1), {| jl_sh4 := sj'; jl_cache := c' |}) /\
    stale (after_block code n s s1) sj' /\ cache_inv c' t' olds /\ coherent t' /\ count t' <= count t + 1.
Proof.
  intros Hrd Hrun Hst Hinv Hco Hlt. unfold run_block.
  destruct (find_entry c t olds (getr SH4_REG_PC s) Hinv Hco) as (p & e1 & c1 & t1 & Hf & Hinv1 & Hco1 & Hc1 & Hcnt1);
    [apply getr_range; by destruct Hrd|done|].
  erewrite bind_ok by (by apply on_cache_ok).
  erewrite bind_ok by (apply on_cache_ok; by eapply load_entry).
  destruct (entry_compiled n s s1 sj c1 t1 olds p e1 Hrd Hrun Hst Hinv1 Hco1 Hc1)
    as (e & c2 & t2 & Hcomp & Hinv2 & Hco2 & Hc2 & Hv & Hcnt2).
  erewrite bind_ok by exact Hcomp. erewrite bind_ok by (apply on_cache_ok; by eapply load_entry).
  destruct (Hco2 _ _ _ Hc2) as [Hsl Hcd]. destruct (Hcd Hv) as (s0 & Hl0 & Hc0).
  destruct (cached_block n s s1 s0 sj (blk e) Hrd Hrun Hst Hsl Hl0 Hc0) as (sl' & sj' & Hx & Hsl' & Hst' & Hcy).
  set (e' := {| valid := valid e; blk := {| jb_code := jb_code (blk e); jb_slots := sl' |} |}).
  destruct (set_entry_ok c2 t2 olds _ p e e' Hinv2 Hc2) as (c3 & t3 & Hset & Hinv3 & Hcont3 & Hcnt3).
  erewrite bind_ok.
  2: { unfold exec_block. cbn [jl_sh4 jl_cache]. rewrite Hx.
    erewrite bind_ok by (apply on_cache_ok; exact Hset). reflexivity. }
  erewrite bind_ok by (by apply on_sh4_ok). erewrite bind_ok by (by apply on_sh4_ok).
  rewrite Hcy. exists (set_now (u64 (now_of sj' + cycles_of code n (getr SH4_REG_PC s))) sj'), c3, t3.
  destruct Hst' as [Hs' Hok'].
  assert (Hw : world sj' = world s1) by exact (f_equal world Hs').
  split; [done|]. split; [|split; [done|split; [|lia]]].
  - split; [|by destruct Hok'; split]. unfold after_block. rewrite <- Hs'.
    unfold now_of. cbn [world set_now with_world setr with_reg].
    lazymatch goal with |- context [getr SH4_REG_PC (set_now ?v ?x)] =>
      change (getr SH4_REG_PC (set_now v x)) with (getr SH4_REG_PC x) end.
    rewrite getr_setr_eq by done. by rewrite setr_wrap.
  - eapply coherent_insert; [exact Hco2|exact Hcont3|]. by split.
Qed.

(** the loop ends with the clock at or past the target *)
Lemma jit_loop_ok m s s' :
  block_trace code region compile_fuel m s s' -> forall fuel sj c t olds,
  (m < fuel)%nat -> stale s sj -> cache_inv c t olds -> coherent t ->
  count t + Z.of_nat m < MAX_ENTRIES ->
  exists sj' c' t', jit_loop calloc malloc_slots compile_fuel fuel (getr SH4_REG_PC s)
      {| jl_sh4 := sj; jl_cache := c |} =
      Ok (getr SH4_REG_PC s', {| jl_sh4 := sj'; jl_cache := c' |}) /\
    stale s' sj' /\ cache_inv c' t' olds /\ coherent t' /\ target_of s' <= now_of s'.
Proof.
  induction 1 as [s Hdue|m n s s1 s' Hlt Hrd Hrun Htr IH]; intros fuel sj c t olds Hfuel Hst Hinv Hco Hcnt;
    (destruct fuel as [|fuel]; [lia|]); cbn [jit_loop];
    do 2 erewrite bind_ok by (by apply on_sh4_ok);
    pose proof (f_equal world (proj1 Hst)) as Hw; cbn in Hw; unfold target_of, now_of; rewrite Hw;
    fold (target_of s) (now_of s).
  - replace (target_of s >? now_of s) with false by lia. exists sj, c, t. by split_and!.
  - replace (target_of s >? now_of s) with true by lia.
    destruct (run_block_ok n s s1 sj c t olds Hrd Hrun Hst Hinv Hco) as (sj1 & c1 & t1 & Hb & Hst1 & Hinv1 & Hco1 & Hcnt1);
      [lia|].
    erewrite bind_ok by exact Hb. apply (IH fuel sj1 c1 t1 olds); try done; lia.
Qed.

(** the clock stops at the event *)
Definition stopped s : Sh4 W := if now_of s >? target_of s then set_now (target_of s) s else s.

(** C3: the JIT's event loop does what the interpreter does on the programs whose blocks
    [jit_block_correct] covers.  Let the interpreter go through [m] blocks until the next event
    is due ([block_trace]).  Each of the blocks starts at an even PC that is not in a delay slot, has at
    most [compile_fuel] and at most 819 instructions, all in a region of memory that holds the
    program whenever a block starts (so the program does not change), and is a [block_run]: no exception, interrupt or stop
    of the debugger, no unknown opcode, no floating-point entry, SLEEP, TRAPA or [MOV.L Rn,@-Rn] with twice the
    same register, no PC-relative instruction in a delay slot.  Let the code cache be consistent,
    its valid blocks be translations of the program, and its entries together with [m] new ones be
    fewer than [MAX_ENTRIES], so that it is not flushed; the allocator succeeds and gives fresh memory.  Then
    [run_to_next_sh4_event_jit] ends within one turn for each block and leaves the interpreter's
    CPU, with the clock at the event; the cache stays consistent and its valid blocks
    translations of the program, however many of the blocks it had and whatever 32-bit values their slots hold. *)
Theorem jit_event_loop_refines m fuel s s' c t olds :
  block_trace code region compile_fuel m s s' -> regs_ok s -> (m < fuel)%nat ->
  cache_inv c t olds -> coherent t -> count t + Z.of_nat m < MAX_ENTRIES ->
  exists c' t',
    run_to_next_sh4_event_jit calloc malloc_slots compile_fuel fuel {| jl_sh4 := s; jl_cache := c |} =
      Ok (tt, {| jl_sh4 := stopped s'; jl_cache := c' |}) /\
    cache_inv c' t' olds /\ coherent t' /\ now_of (stopped s') = target_of (stopped s').
Proof.
  intros Htr Hok Hfuel Hinv Hco Hcnt.
  assert (Hst : stale s s) by (split; [by rewrite setr_same|done]).
  destruct (jit_loop_ok m s s' Htr fuel s c t olds Hfuel Hst Hinv Hco Hcnt)
    as (sj' & c' & t' & Hl & [Hs' Hokj] & Hinv' & Hco' & Hdue).
  exists c', t'. split; [|split; [done|split; [done|]]].
  - unfold run_to_next_sh4_event_jit. erewrite bind_ok by (by apply on_sh4_ok). erewrite bind_ok by exact Hl.
    do 2 erewrite bind_ok by (by apply on_sh4_ok). pose proof (f_equal world Hs') as Hw. cbn in Hw.
    unfold target_of, now_of. rewrite Hw. fold (target_of s') (now_of s'). unfold stopped.
    destruct (now_of s' >? target_of s'); cbn [when].
    + erewrite bind_ok by (by apply on_sh4_ok). apply on_sh4_ok. unfold reg_set, modify. do 2 f_equal.
      trans (set_now (target_of s') (setr SH4_REG_PC (getr SH4_REG_PC s') sj')); [reflexivity|by rewrite Hs'].
    + erewrite bind_ok by done. apply on_sh4_ok. unfold reg_set, modify. by rewrite Hs'.
  - unfold stopped. destruct (Z.gtb_spec (now_of s') (target_of s')).
    + unfold now_of, target_of, set_now. cbn [world with_world]. by rewrite clock_cycle_set, clock_target_set.
    + lia.
Qed.
End refinement.

(** ** The endless loop of [Sh4Exec], [BRA -4] and [NOP], up to an event after 100 ticks *)
Definition loop_code (a : Z) : Z := if a =? 0x8c000000 then 0xaffe else 0x0009.
Definition loop_region (a : Z) : Prop := a = 0x8c000000 \/ a = 0x8c000002.

Definition loop_clock (v : Z) : sched.dc_clock :=
  sched.clock_set_cycle_stamp v (sched.set_target_stamp 100 (sched.dc_clock_init ∅)).
Definition loop_cpu (v : Z) : Sh4 timed_board := loop_state false SH4_GROUP_NONE (loop_clock v).
Definition loop_branch (v : Z) : Sh4 timed_board :=
  with_delayed_branch true (loop_cpu v).

Lemma loop_ready v : ready loop_code loop_region 2 2 (loop_cpu v).
Proof.
  split; try done.
  - split; [done|]. apply (bool_decide_unpack _). vm_compute. done.
  - intros a [-> | ->]; vm_compute; reflexivity.
  - cbn [in_region]. split; [by left|split; [by right|done]].
Qed.

Lemma loop_run v : block_run loop_code 2 (loop_cpu v) (loop_cpu v).
Proof.
  change (block_run loop_code 2 (loop_cpu v) (if delayed_branch (loop_branch v)
    then with_delayed_branch false (setr SH4_REG_PC (delayed_branch_addr (loop_branch v)) (next (loop_branch v)))
    else next (next (loop_branch v)))).
  apply run_delayed; unfold op_at, fetched, not_aborted; rewrite ?sh4_decode_inst_slow_eq; vm_compute; reflexivity.
Qed.

Lemma loop_cycles : cycles_of (W := timed_board) loop_code 2 0x8c000000 = 27.
Proof. unfold cycles_of, block_cycles. rewrite !sh4_decode_inst_slow_eq. vm_compute. reflexivity. Qed.

Lemma loop_after v :
  0 <= v < 2 ^ 32 -> after_block loop_code 2 (loop_cpu v) (loop_cpu v) = loop_cpu (v + 27).
Proof.
  intros Hv. unfold after_block. change (getr SH4_REG_PC (loop_cpu v)) with 0x8c000000. rewrite loop_cycles.
  change (now_of (with_delayed_branch_addr (delayed_branch_addr (loop_cpu v)) (loop_cpu v))) with v.
  by rewrite wrap_small by (unfold in_range; lia).
Qed.

(** one turn of the loop, on the clock *)
Lemma loop_turn m v s' :
  0 <= v < 100 -> block_trace loop_code loop_region 2 m (loop_cpu (v + 27)) s' ->
  block_trace loop_code loop_region 2 (S m) (loop_cpu v) s'.
Proof.
  intros Hv Htr. eapply (trace_block _ _ _ m 2 _ (loop_cpu v)).
  - change (v < 100). lia.
  - apply loop_ready.
  - apply loop_run.
  - by rewrite loop_after by lia.
Qed.

(** four blocks, the first of which is compiled; the clock stops at the event *)
Lemma jit_event_loop_refines_witness :
  exists c' t',
    run_to_next_sh4_event_jit (fun X => Some (fresh X)) ∅ 2 5
      {| jl_sh4 := loop_cpu 0; jl_cache := empty_cache |} =
      Ok (tt, {| jl_sh4 := loop_cpu 100; jl_cache := c' |}) /\
    cache_inv c' t' [] /\
    coherent (W := timed_board) 2 loop_code loop_region t' /\ now_of (loop_cpu 100) = target_of (loop_cpu 100).
Proof.
  change (loop_cpu 100) with (stopped (loop_cpu 108)).
  apply (jit_event_loop_refines (fun X => Some (fresh X)) ∅ 2
    (fun X p => ltac:(intros [= <-]; apply is_fresh)) (fun X => ltac:(by eexists))
    (fun i => ltac:(by vm_compute)) loop_code loop_region 4 5 (loop_cpu 0) (loop_cpu 108) empty_cache avl.Leaf []).
  - do 4 (apply loop_turn; [lia|]). apply trace_due. by vm_compute.
  - apply (loop_ready 0).
  - lia.
  - apply empty_cache_inv.
  - by intros a p e.
  - by vm_compute.
Defined.
