(* ===== verification/Fifo.v ===== *)
(** The intrusive singly linked queue (src/libwashdc/include/washdc/fifo.h).

    A node holds the pointer to the next node; the head holds the first node and [plast],
    the address of the pointer that a push writes: [&fifo->first] when the queue is empty and
    [&node->next] of the last node otherwise.  The nodes live in the map [nodes], keyed by
    their address.

    The properties: the pointer structure implements a queue ([holds]); pushes and pops are
    first-in first-out; [fifo_erase] removes a node that is not the last one.  Erasing the
    last node leaves [plast] pointing into the erased node, and a node pushed afterwards is
    lost. *)
From stdpp Require Import gmap.
From S2P Require Import Prelude.
Abbreviation last := stdpp.list_basics.list.last.

Module fifo.

(** a [struct fifo_node **] *)
Inductive pptr : Type := FirstPtr | NextPtr (n : Z).

#[export] Instance pptr_eq_dec : EqDecision pptr.
Proof. solve_decision. Defined.

(** [struct fifo_head], with the [next] members of the nodes *)
Record fifo_head : Type := {
  first : option Z;
  plast : pptr;
  nodes : gmap Z (option Z)
}.

Abbreviation fifoM := (M fifo_head).

Definition load_ptr (p : pptr) : fifoM (option Z) :=
  fun f => match p with
           | FirstPtr => Ok (first f, f)
           | NextPtr n => match nodes f !! n with
                          | Some nx => Ok (nx, f)
                          | None => Err C_UNDEFINED
                          end
           end.

Definition store_ptr (p : pptr) (v : option Z) : fifoM unit :=
  fun f => match p with
           | FirstPtr => Ok (tt, {| first := v; plast := plast f; nodes := nodes f |})
           | NextPtr n => match nodes f !! n with
                          | Some _ => Ok (tt, {| first := first f; plast := plast f;
                                                 nodes := <[n := v]> (nodes f) |})
                          | None => Err C_UNDEFINED
                          end
           end.

Definition set_plast (p : pptr) : fifoM unit :=
  modify (fun f => {| first := first f; plast := p; nodes := nodes f |}).

Definition fifo_init (f : fifo_head) : fifo_head :=
  {| first := None; plast := FirstPtr; nodes := nodes f |}.

Definition fifo_push (node : Z) : fifoM unit :=
  p <- gets plast ;;
  store_ptr p (Some node) ;;
  store_ptr (NextPtr node) None ;;
  set_plast (NextPtr node).

Definition fifo_pop : fifoM (option Z) :=
  fst <- gets first ;;
  match fst with
  | None => ret None
  | Some n =>
      nx <- load_ptr (NextPtr n) ;;
      store_ptr FirstPtr nx ;;
      p <- gets plast ;;
      when (bool_decide (p = NextPtr n)) (set_plast FirstPtr) ;;
      store_ptr (NextPtr n) None ;;
      ret (Some n)
  end.

Definition fifo_peek : fifoM (option Z) := gets first.
Definition fifo_empty (f : fifo_head) : bool := bool_decide (first f = None).

(** the loop of [fifo_len]; the list is never longer than the number of nodes *)
Fixpoint len_loop (fuel : nat) (nodep : option Z) (len : Z) : fifoM Z :=
  match fuel with
  | O => raise OUT_OF_FUEL
  | S fuel' =>
      match nodep with
      | None => ret len
      | Some n => nx <- load_ptr (NextPtr n) ;; len_loop fuel' nx (len + 1)
      end
  end.

Definition fifo_len : fifoM Z :=
  fst <- gets first ;; fuel <- gets (fun f => S (size (nodes f))) ;; len_loop fuel fst 0.

(** the loop of [fifo_erase]: the pointer at which it stops *)
Fixpoint erase_loop (fuel : nat) (cursp : pptr) (node : Z) : fifoM pptr :=
  match fuel with
  | O => raise OUT_OF_FUEL
  | S fuel' =>
      curs <- load_ptr cursp ;;
      match curs with
      | None => ret cursp
      | Some c => if c =? node then ret cursp else erase_loop fuel' (NextPtr c) node
      end
  end.

Definition fifo_erase (node : Z) : fifoM unit :=
  fuel <- gets (fun f => S (size (nodes f))) ;;
  cursp <- erase_loop fuel FirstPtr node ;;
  curs <- load_ptr cursp ;;
  match curs with
  | Some _ =>
      nx <- load_ptr (NextPtr node) ;;
      store_ptr cursp nx ;;
      store_ptr (NextPtr node) None
  | None => ret tt
  end.

(** ** The queue as a list *)
Fixpoint chain (ns : gmap Z (option Z)) (h : option Z) (l : list Z) : Prop :=
  match l with
  | [] => h = None
  | i :: l' => h = Some i /\ exists nx, ns !! i = Some nx /\ chain ns nx l'
  end.

Definition tail_ptr (p : pptr) (l : list Z) : pptr :=
  match last l with Some i => NextPtr i | None => p end.

Definition holds (f : fifo_head) (l : list Z) : Prop :=
  chain (nodes f) (first f) l /\ NoDup l /\ plast f = tail_ptr FirstPtr l.

Lemma tail_ptr_cons p i l : tail_ptr p (i :: l) = tail_ptr (NextPtr i) l.
Proof. unfold tail_ptr. rewrite last_cons. by destruct (last l). Qed.

Lemma tail_ptr_snoc p l i : tail_ptr p (l ++ [i]) = NextPtr i.
Proof. unfold tail_ptr. by rewrite last_snoc. Qed.

Lemma tail_ptr_elem_of l i : tail_ptr FirstPtr l = NextPtr i -> i ∈ l.
Proof.
  unfold tail_ptr. destruct (last l) eqn:E; [|done]. intros [= ->]. by apply last_Some_elem_of.
Qed.

Lemma chain_head ns h l : chain ns h l -> h = head l.
Proof. destruct l; [done|]. by intros [-> _]. Qed.

Lemma chain_frame ns ns' h l :
  (forall i, i ∈ l -> ns' !! i = ns !! i) -> chain ns h l -> chain ns' h l.
Proof.
  revert h. induction l as [|i l IH]; intros h Hf; cbn; [done|].
  intros [-> (nx & Hn & Hc)]. split; [done|]. exists nx.
  rewrite Hf by set_solver. split; [done|]. apply IH; [|done]. set_solver.
Qed.

Lemma chain_lookup ns h l i : chain ns h l -> i ∈ l -> is_Some (ns !! i).
Proof.
  revert h. induction l as [|j l IH]; intros h; cbn; [set_solver|].
  intros [-> (nx & Hn & Hc)] [->|Hi]%elem_of_cons; eauto.
Qed.

Lemma chain_length ns h l : chain ns h l -> NoDup l -> (length l <= size ns)%nat.
Proof.
  intros Hl Hn. rewrite <- (size_list_to_set (C := gset Z)) by done.
  rewrite <- (size_dom (D := gset Z)). apply subseteq_size.
  intros i Hi. apply elem_of_list_to_set in Hi. apply elem_of_dom. by eapply chain_lookup.
Qed.

(** Redirecting the pointer after [l1] from [l2] to [r]. *)
Lemma chain_splice ns ns' h l1 l2 r hr :
  chain ns h (l1 ++ l2) -> NoDup (l1 ++ l2) ->
  (forall i, i ∈ l1 -> ns' !! i = if bool_decide (last l1 = Some i) then Some hr else ns !! i) ->
  chain ns' hr r -> chain ns' (if bool_decide (l1 = []) then hr else h) (l1 ++ r).
Proof.
  revert h. induction l1 as [|i l1 IH]; intros h; cbn [chain app]; [by rewrite bool_decide_eq_true_2|].
  intros [-> (nx & Hn & Hc)] Hnd Hf Hr. rewrite list.NoDup_cons in Hnd. destruct Hnd as [Hi Hnd].
  rewrite bool_decide_eq_false_2 by done. split; [done|]. rewrite Hf by set_solver.
  destruct l1 as [|j l1].
  - rewrite bool_decide_eq_true_2 by done. eauto.
  - rewrite bool_decide_eq_false_2.
    2:{ rewrite last_cons_cons. intros Hl%last_Some_elem_of. set_solver. }
    exists nx. split; [done|].
    specialize (IH nx Hc Hnd). rewrite bool_decide_eq_false_2 in IH by done. apply IH; [|done].
    intros k Hk. by rewrite Hf by set_solver.
Qed.

(** ** The operations on lists *)
Lemma store_ptr_ok f p v :
  (forall n, p = NextPtr n -> is_Some (nodes f !! n)) ->
  exists f', store_ptr p v f = Ok (tt, f') /\ plast f' = plast f /\
    first f' = (if bool_decide (p = FirstPtr) then v else first f) /\
    forall i, nodes f' !! i = if bool_decide (p = NextPtr i) then Some v else nodes f !! i.
Proof.
  intros Hp. destruct p as [|n]; cbn [store_ptr].
  - eexists. split; [done|]. done.
  - destruct (Hp n eq_refl) as [nx Hn]. rewrite Hn. eexists. split; [done|]. split; [done|].
    split; [done|]. intros i. cbn. destruct (decide (n = i)) as [<-|].
    + by rewrite lookup_insert_eq, bool_decide_eq_true_2.
    + rewrite lookup_insert_ne by done. by rewrite bool_decide_eq_false_2 by congruence.
Qed.

Lemma is_Some_if {A} (b : bool) (x : A) (o : option A) :
  is_Some o -> is_Some (if b then Some x else o).
Proof. destruct b; [by eexists|done]. Qed.

Lemma decide_tail_ptr l i :
  bool_decide (tail_ptr FirstPtr l = NextPtr i) = bool_decide (last l = Some i).
Proof. unfold tail_ptr. apply bool_decide_ext. destruct (last l); [|done]. split; congruence. Qed.

Lemma decide_tail_ptr_first l :
  bool_decide (tail_ptr FirstPtr l = FirstPtr) = bool_decide (l = []).
Proof.
  apply bool_decide_ext. unfold tail_ptr. destruct (last l) eqn:E.
  - split; [done|]. by intros ->.
  - apply last_None in E. by split.
Qed.

Lemma chain_at ns h l1 i l2 : chain ns h (l1 ++ i :: l2) -> ns !! i = Some (head l2).
Proof.
  revert h. induction l1 as [|j l1 IH]; intros h; cbn [chain app].
  - intros (_ & nx & -> & Hc). f_equal. by eapply chain_head.
  - intros (_ & nx & _ & Hc). eauto.
Qed.

Lemma chain_suffix ns h l1 l2 : chain ns h (l1 ++ l2) -> chain ns (head l2) l2.
Proof.
  revert h. induction l1 as [|j l1 IH]; intros h; cbn [chain app].
  - intros Hc. by rewrite <- (chain_head _ _ _ Hc).
  - intros (_ & nx & _ & Hc). eauto.
Qed.

Lemma fifo_push_ok f l node :
  holds f l -> node ∉ l -> is_Some (nodes f !! node) ->
  exists f', fifo_push node f = Ok (tt, f') /\ holds f' (l ++ [node]).
Proof.
  intros (Hc & Hn & Hp) Hne Hnode.
  destruct (store_ptr_ok f (plast f) (Some node)) as (f1 & H1 & P1 & F1 & N1).
  { rewrite Hp. intros i Hi%tail_ptr_elem_of. by eapply chain_lookup. }
  destruct (store_ptr_ok f1 (NextPtr node) None) as (f2 & H2 & P2 & F2 & N2).
  { intros i [= <-]. rewrite N1. by apply is_Some_if. }
  unfold fifo_push. erewrite bind_ok by done. erewrite bind_ok by exact H1.
  erewrite bind_ok by exact H2. eexists. split; [done|].
  assert (Hl : forall i, i ∈ l -> nodes f2 !! i =
      if bool_decide (last l = Some i) then Some (Some node) else nodes f !! i).
  { intros i Hi. rewrite N2, bool_decide_eq_false_2 by (intros [= ->]; done).
    by rewrite N1, Hp, decide_tail_ptr. }
  split; [|split].
  - cbn. rewrite F2, F1, Hp, decide_tail_ptr_first. cbn.
    apply (chain_splice (nodes f) _ _ l []); rewrite ?app_nil_r; try done.
    cbn. split; [done|]. exists None. by rewrite N2, bool_decide_eq_true_2.
  - apply list.NoDup_app. split_and!; [done|set_solver|apply list.NoDup_singleton].
  - cbn. by rewrite tail_ptr_snoc.
Qed.

Lemma fifo_pop_ok f l :
  holds f l -> exists f', fifo_pop f = Ok (head l, f') /\ holds f' (tail l).
Proof.
  intros (Hc & Hn & Hp). unfold fifo_pop. erewrite bind_ok by done.
  destruct l as [|i l]; cbn [chain head tail] in *.
  { rewrite Hc. by exists f. }
  destruct Hc as [-> (nx & Hi & Hc)]. rewrite list.NoDup_cons in Hn. destruct Hn as [Hil Hn].
  erewrite bind_ok by (cbn; by rewrite Hi). erewrite bind_ok by done. erewrite bind_ok by done.
  cbn [plast]. rewrite Hp, tail_ptr_cons.
  set (f1 := {| first := nx; plast := tail_ptr FirstPtr l; nodes := nodes f |}).
  assert (Hw : when (bool_decide (tail_ptr (NextPtr i) l = NextPtr i)) (set_plast FirstPtr)
      {| first := nx; plast := tail_ptr (NextPtr i) l; nodes := nodes f |} = Ok (tt, f1)).
  { unfold f1, tail_ptr.
    destruct (last l) as [j|] eqn:E.
    - rewrite bool_decide_eq_false_2; [done|]. intros [= ->].
      apply last_Some_elem_of in E. done.
    - by rewrite bool_decide_eq_true_2. }
  erewrite bind_ok by exact Hw.
  destruct (store_ptr_ok f1 (NextPtr i) None) as (f2 & H2 & P2 & F2 & N2).
  { intros ? [= <-]. eauto. }
  erewrite bind_ok by exact H2. exists f2. split; [done|]. split; [|split].
  - rewrite F2. cbn. apply (chain_frame (nodes f)); [|done]. intros j Hj.
    rewrite N2, bool_decide_eq_false_2 by (intros [= ->]; done). done.
  - done.
  - by rewrite P2.
Qed.

Lemma len_loop_ok f h l n fuel :
  chain (nodes f) h l -> (length l < fuel)%nat ->
  len_loop fuel h n f = Ok (n + Z.of_nat (length l), f).
Proof.
  revert h n fuel. induction l as [|i l IH]; intros h n fuel Hc Hf;
    (destruct fuel; [cbn in Hf; lia|]); cbn [len_loop chain length] in *.
  - subst h. cbn. by rewrite Z.add_0_r.
  - destruct Hc as [-> (nx & Hi & Hc)]. erewrite bind_ok by (cbn; by rewrite Hi).
    rewrite IH by (done || lia). do 2 f_equal. lia.
Qed.

(** the loop stops at the pointer to [node], or at the end *)
Lemma erase_loop_ok f p h l1 node l2 fuel :
  load_ptr p f = Ok (h, f) -> chain (nodes f) h (l1 ++ l2) -> node ∉ l1 ->
  (l2 = [] \/ head l2 = Some node) -> (length l1 < fuel)%nat ->
  erase_loop fuel p node f = Ok (tail_ptr p l1, f) /\
  load_ptr (tail_ptr p l1) f = Ok (head l2, f).
Proof.
  revert p h fuel. induction l1 as [|i l1 IH]; intros p h fuel Hl Hc Hni Hn2 Hf;
    (destruct fuel; [cbn in Hf; lia|]); cbn [erase_loop app].
  - erewrite bind_ok by exact Hl. cbn [app] in Hc.
    rewrite (chain_head _ _ _ Hc) in *. destruct Hn2 as [->|Hn2]; cbn; [done|].
    rewrite Hn2, Z.eqb_refl. rewrite <- Hn2. done.
  - cbn [app chain] in Hc. destruct Hc as [-> (nx & Hi & Hc)].
    erewrite bind_ok by exact Hl. cbn beta iota.
    destruct (Z.eqb_spec i node) as [->|]; [set_solver|]. rewrite tail_ptr_cons.
    apply (IH _ nx); [cbn; by rewrite Hi|done|set_solver|done|cbn in Hf; lia].
Qed.

Lemma fifo_erase_ok f l1 node l2 :
  holds f (l1 ++ node :: l2) ->
  exists f', fifo_erase node f = Ok (tt, f') /\ plast f' = plast f /\
    chain (nodes f') (first f') (l1 ++ l2) /\
    forall i, is_Some (nodes f !! i) -> is_Some (nodes f' !! i).
Proof.
  intros (Hc & Hn & Hp). pose proof (chain_length _ _ _ Hc Hn) as Hlen.
  pose proof Hn as Hn'. apply list.NoDup_app in Hn' as (Hn1 & Hd & Hn2).
  rewrite list.NoDup_cons in Hn2. destruct Hn2 as [Hnn Hn2].
  destruct (erase_loop_ok f FirstPtr (first f) l1 node (node :: l2) (S (size (nodes f))))
    as [He Hl]; [done|done|set_solver|by right|rewrite length_app in Hlen; cbn in Hlen; lia|].
  destruct (store_ptr_ok f (tail_ptr FirstPtr l1) (head l2)) as (f1 & H1 & P1 & F1 & N1).
  { intros i Hi%tail_ptr_elem_of. eapply chain_lookup; [done|]. set_solver. }
  destruct (store_ptr_ok f1 (NextPtr node) None) as (f2 & H2 & P2 & F2 & N2).
  { intros i [= <-]. rewrite N1. apply is_Some_if.
    eapply chain_lookup; [done|]. set_solver. }
  unfold fifo_erase. erewrite bind_ok by done. erewrite bind_ok by exact He.
  erewrite bind_ok by exact Hl. cbn [head].
  erewrite bind_ok by (cbn; by rewrite (chain_at _ _ _ _ _ Hc)).
  erewrite bind_ok by exact H1. exists f2. split; [done|]. split; [congruence|]. split.
  - rewrite F2, F1, decide_tail_ptr_first. cbn.
    apply (chain_splice (nodes f) _ _ l1 (node :: l2)); [done|done| |].
    + intros i Hi. rewrite N2, bool_decide_eq_false_2 by (intros [= ->]; set_solver).
      by rewrite N1, decide_tail_ptr.
    + apply (chain_frame (nodes f)).
      * intros i Hi. rewrite N2, bool_decide_eq_false_2 by (intros [= ->]; set_solver).
        rewrite N1, bool_decide_eq_false_2; [done|]. intros ?%tail_ptr_elem_of. set_solver.
      * eapply (chain_suffix _ _ [node]), (chain_suffix _ _ l1). done.
  - intros i Hi. rewrite N2, N1. by apply is_Some_if, is_Some_if.
Qed.

(** ** Properties *)

(** first-in first-out: a push puts the node at the end of the queue, a pop takes the node
    at its front or returns the null pointer, [fifo_len] is the length and [fifo_empty] the
    emptiness of the queue, and all keep the pointers consistent. *)
Theorem fifo_queue (f : fifo_head) (l : list Z) :
  holds f l ->
  (forall node, node ∉ l -> is_Some (nodes f !! node) ->
     exists f', fifo_push node f = Ok (tt, f') /\ holds f' (l ++ [node])) /\
  (exists f', fifo_pop f = Ok (head l, f') /\ holds f' (tail l)) /\
  fifo_len f = Ok (Z.of_nat (length l), f) /\
  (fifo_empty f = true <-> l = []).
Proof.
  intros Hh. pose proof Hh as (Hc & Hn & Hp). split_and!.
  - intros. by apply fifo_push_ok.
  - by apply fifo_pop_ok.
  - unfold fifo_len. erewrite bind_ok by done. erewrite bind_ok by done.
    rewrite (len_loop_ok f _ l); [done|done|]. pose proof (chain_length _ _ _ Hc Hn). lia.
  - unfold fifo_empty. rewrite bool_decide_eq_true, (chain_head _ _ _ Hc). by destruct l.
Qed.

(** [fifo_erase] removes a node that is not the last one of the queue and keeps the
    pointers consistent. *)
Theorem fifo_erase_inner (f : fifo_head) (l1 : list Z) (node : Z) (l2 : list Z) :
  holds f (l1 ++ node :: l2) -> l2 <> [] ->
  exists f', fifo_erase node f = Ok (tt, f') /\ holds f' (l1 ++ l2).
Proof.
  intros Hh Hl2. destruct (fifo_erase_ok f l1 node l2 Hh) as (f' & He & Hp & Hc & _).
  exists f'. split; [done|]. destruct Hh as (_ & Hn & Hp0). split; [done|]. split.
  - rewrite list.NoDup_app, list.NoDup_cons in *. destruct Hn as (? & Hd & ? & ?).
    split_and!; auto. set_solver.
  - rewrite Hp, Hp0. unfold tail_ptr. rewrite !last_app, last_cons.
    destruct (last l2) eqn:E; [done|]. by apply last_None in E.
Qed.

(** erasing the last node of the queue leaves [plast] pointing into it, so that a node
    pushed afterwards is not in the queue: the list from [first] is still the old one. *)
Theorem fifo_erase_last_loses_push (f : fifo_head) (l : list Z) (node new : Z) :
  holds f (l ++ [node]) -> new ∉ l ++ [node] -> is_Some (nodes f !! new) ->
  exists f', (fifo_erase node ;; fifo_push new) f = Ok (tt, f') /\
    chain (nodes f') (first f') l /\ new ∉ l.
Proof.
  intros Hh Hnew Hex. destruct (fifo_erase_ok f l node [] Hh) as (f1 & He & Hp & Hc & Hin).
  rewrite app_nil_r in Hc. destruct Hh as (Hc0 & Hn & Hp0).
  destruct (store_ptr_ok f1 (plast f1) (Some new)) as (f2 & H2 & P2 & F2 & N2).
  { intros i. rewrite Hp, Hp0, tail_ptr_snoc. intros [= <-]. apply Hin.
    eapply chain_lookup; [done|]. set_solver. }
  destruct (store_ptr_ok f2 (NextPtr new) None) as (f3 & H3 & P3 & F3 & N3).
  { intros i [= <-]. rewrite N2. apply is_Some_if. by apply Hin. }
  unfold fifo_push. erewrite bind_ok by exact He. erewrite bind_ok by done.
  erewrite bind_ok by exact H2. erewrite bind_ok by exact H3. eexists. split; [done|].
  split; [|set_solver]. cbn. rewrite F3, F2, Hp, Hp0, tail_ptr_snoc. cbn.
  apply (chain_frame (nodes f1)); [|done]. apply list.NoDup_app in Hn as (_ & Hdis & _).
  intros i Hi. rewrite N3, bool_decide_eq_false_2 by (intros [= ->]; set_solver).
  rewrite N2, Hp, Hp0, tail_ptr_snoc.
  rewrite bool_decide_eq_false_2; [done|]. intros [= ->]. set_solver.
Qed.

(** *** A queue that holds the nodes 1, 2 and 3 *)
Definition demo_fifo : fifo_head :=
  {| first := Some 1; plast := NextPtr 3;
     nodes := list_to_map [(1, Some 2); (2, Some 3); (3, None); (4, None)] |}.

Lemma demo_fifo_holds : holds demo_fifo [1; 2; 3].
Proof.
  split; [|split; [by apply (bool_decide_unpack _); vm_compute|done]].
  cbn [chain]. repeat (split; [reflexivity|]; eexists; split; [vm_compute; reflexivity|]). done.
Qed.

Lemma fifo_queue_witness : exists f',
  fifo_pop demo_fifo = Ok (Some 1, f') /\ holds f' [2; 3].
Proof. exact (proj1 (proj2 (fifo_queue demo_fifo [1; 2; 3] demo_fifo_holds))). Defined.

Lemma fifo_erase_inner_witness : exists f',
  fifo_erase 2 demo_fifo = Ok (tt, f') /\ holds f' [1; 3].
Proof. apply (fifo_erase_inner demo_fifo [1] 2 [3] demo_fifo_holds). discriminate. Defined.

Lemma fifo_erase_last_loses_push_witness : exists f',
  (fifo_erase 3 ;; fifo_push 4) demo_fifo = Ok (tt, f') /\
  chain (nodes f') (first f') [1; 2] /\ 4 ∉ [1; 2].
Proof.
  apply (fifo_erase_last_loses_push demo_fifo [1; 2] 3 4 demo_fifo_holds).
  - set_solver.
  - vm_compute. eauto.
Defined.
End fifo.
