(* ===== verification/ConfigFile.v ===== *)
(** The configuration file (src/libwashdc/config_file.c): a parser that is fed one character at a time, the
    list of settings that it fills, and the functions that read them.

    A [char] is a value of -128 to 127; a [char] array is the list of its elements, and a [char const *]
    that is read is the string it points to, without the terminator.  The nodes of the list are on the
    heap: the pointers between them are those of Fifo, and [heap] has the two arrays of each node.  The
    file system is the contents of the file, if it can be opened, and whether it can be created. *)
From stdpp Require Import gmap strings.
From Stdlib Require String Ascii.
From S2P Require Import Prelude Fifo.

Definition CFG_NODE_KEY_LEN : Z := 256.
Definition CFG_NODE_VAL_LEN : Z := 256.

Record cfg_node : Type := { node_key : list Z; node_val : list Z }.

Inductive cfg_parse_state : Type :=
| CFG_PARSE_PRE_KEY | CFG_PARSE_KEY | CFG_PARSE_PRE_VAL | CFG_PARSE_VAL | CFG_PARSE_POST_VAL | CFG_PARSE_ERROR.

Record cfg_state : Type := {
  parse_state : cfg_parse_state;
  key_len : Z; val_len : Z;
  key : list Z; val : list Z;
  line_count : Z;
  cfg_nodes : fifo.fifo_head;
  in_comment : bool;
  heap : gmap Z cfg_node
}.

Definition upd_parse (st : cfg_parse_state) (kl vl : Z) (k v : list Z) (c : cfg_state) : cfg_state :=
  {| parse_state := st; key_len := kl; val_len := vl; key := k; val := v; line_count := line_count c; cfg_nodes := cfg_nodes c;
     in_comment := in_comment c; heap := heap c |}.
Definition upd_line_count (n : Z) (c : cfg_state) : cfg_state :=
  {| parse_state := parse_state c; key_len := key_len c; val_len := val_len c; key := key c; val := val c; line_count := n;
     cfg_nodes := cfg_nodes c; in_comment := in_comment c; heap := heap c |}.
Definition upd_in_comment (b : bool) (c : cfg_state) : cfg_state :=
  {| parse_state := parse_state c; key_len := key_len c; val_len := val_len c; key := key c; val := val c; line_count := line_count c;
     cfg_nodes := cfg_nodes c; in_comment := b; heap := heap c |}.
Definition upd_nodes (f : fifo.fifo_head) (h : gmap Z cfg_node) (c : cfg_state) : cfg_state :=
  {| parse_state := parse_state c; key_len := key_len c; val_len := val_len c; key := key c; val := val c; line_count := line_count c;
     cfg_nodes := f; in_comment := in_comment c; heap := h |}.

(** the allocator: an address, given those in use *)
Class Malloc : Type := malloc : gset Z -> option Z.
Class MallocLaws `{!Malloc} : Prop := {
  malloc_fresh : forall used a, malloc used = Some a -> a ∉ used;
  malloc_succeeds : forall used, is_Some (malloc used)
}.

(** ** Strings and characters *)
Abbreviation cfgM := (M cfg_state).

(** the string in an array *)
Fixpoint cstr (l : list Z) : option (list Z) :=
  match l with [] => None | b :: l' => if b =? 0 then Some [] else (b ::.) <$> cstr l' end.
Definition arr_set (i v : Z) (l : list Z) : cfgM (list Z) :=
  if (0 <=? i) && (i <? Z.of_nat (length l)) then ret (<[Z.to_nat i := v]> l) else raise C_UNDEFINED.
(** the classification of characters is defined for the values of [unsigned char] and [EOF] *)
Definition ctype (p : Z -> bool) (ch : Z) : cfgM bool := if ch <? -1 then raise C_UNDEFINED else ret (p ch).
Definition is_space (ch : Z) : bool := (9 <=? ch) && (ch <=? 13) || (ch =? 32).
Definition is_digit (ch : Z) : bool := (48 <=? ch) && (ch <=? 57).
Definition isspace (ch : Z) : cfgM bool := ctype is_space ch.
Definition isdigit (ch : Z) : cfgM bool := ctype is_digit ch.
Definition str (s : string) : list Z := map (fun a => Z.of_nat (Ascii.nat_of_ascii a)) (String.list_ascii_of_string s).

Definition NEWLINE : Z := 10.
Definition SEMICOLON : Z := 59.
Definition SPACE : Z := 32.

(** ** The list of settings *)
Definition on_fifo {A} (m : M fifo.fifo_head A) : cfgM A :=
  fun c => match m (cfg_nodes c) with Ok (a, f) => Ok (a, upd_nodes f (heap c) c) | Err e => Err e end.
Definition load_node (a : Z) : cfgM cfg_node := fun c => match heap c !! a with Some n => Ok (n, c) | None => Err C_UNDEFINED end.
Definition load_str (l : list Z) : cfgM (list Z) := match cstr l with Some s => ret s | None => raise C_UNDEFINED end.

(** [FIFO_FOREACH], up to the first node with the key *)
Fixpoint cfg_find_loop (fuel : nat) (curs : option Z) (k : list Z) : cfgM (option Z) :=
  match fuel with
  | O => raise OUT_OF_FUEL
  | S fuel' =>
      match curs with
      | None => ret None
      | Some a =>
          node <- load_node a ;;
          node_key <- load_str (node_key node) ;;
          if bool_decide (node_key = k) then ret (Some a)
          else next <- on_fifo (fifo.load_ptr (fifo.NextPtr a)) ;; cfg_find_loop fuel' next k
      end
  end.
Definition cfg_find_node (k : list Z) : cfgM (option Z) :=
  fuel <- gets (fun c => S (size (fifo.nodes (cfg_nodes c)))) ;;
  first <- gets (fun c => fifo.first (cfg_nodes c)) ;;
  cfg_find_loop fuel first k.

Definition cfg_get_node (k : list Z) : cfgM (option (list Z)) :=
  a <- cfg_find_node k ;;
  match a with
  | Some a => node <- load_node a ;; s <- load_str (node_val node) ;; ret (Some s)
  | None => ret None
  end.

Section parser.
Context {MALLOC : Malloc}.

Definition store_val (a : Z) (v : list Z) : cfgM unit :=
  node <- load_node a ;;
  modify (fun c => upd_nodes (cfg_nodes c) (<[a := {| node_key := node_key node; node_val := v |}]> (heap c)) c).

(** a node of the heap, with the key in it and an undefined value *)
Definition new_node : cfgM Z :=
  fun c => match malloc (dom (fifo.nodes (cfg_nodes c))) with
           | Some a => Ok (a, upd_nodes {| fifo.first := fifo.first (cfg_nodes c); fifo.plast := fifo.plast (cfg_nodes c);
                                           fifo.nodes := <[a := None]> (fifo.nodes (cfg_nodes c)) |}
                                (<[a := {| node_key := key c; node_val := [] |}]> (heap c)) c)
           | None => Err C_UNDEFINED
           end.

Definition cfg_add_entry : cfgM unit :=
  k <- gets key ;;
  k <- load_str k ;;
  dst_node <- cfg_find_node k ;;
  dst_node <- match dst_node with
              | Some a => ret a
              | None => a <- new_node ;; on_fifo (fifo.fifo_push a) ;; ret a
              end ;;
  v <- gets val ;;
  store_val dst_node v.

Definition cfg_handle_newline : cfgM unit :=
  modify (fun c => upd_line_count (u32 (line_count c + 1)) (upd_parse CFG_PARSE_PRE_KEY 0 0 (key c) (val c) c)).

(** the [switch] over the state of the parser, on a character outside of comments *)
Definition cfg_parse_char (ch : Z) : cfgM unit :=
  c <- gets (fun c => c) ;;
  match parse_state c with
  | CFG_PARSE_PRE_KEY =>
      if ch =? NEWLINE then cfg_handle_newline
      else
        space <- isspace ch ;;
        when (negb space) (k <- arr_set 0 ch (key c) ;; modify (upd_parse CFG_PARSE_KEY 1 (val_len c) k (val c)))
  | CFG_PARSE_KEY =>
      if ch =? NEWLINE then cfg_handle_newline
      else
        space <- isspace ch ;;
        if (space : bool) then k <- arr_set (key_len c) 0 (key c) ;; modify (upd_parse CFG_PARSE_PRE_VAL (key_len c) (val_len c) k (val c))
        else when (key_len c <? CFG_NODE_KEY_LEN - 1)
               (k <- arr_set (key_len c) ch (key c) ;; modify (upd_parse CFG_PARSE_KEY (key_len c + 1) (val_len c) k (val c)))
  | CFG_PARSE_PRE_VAL =>
      if ch =? NEWLINE then cfg_handle_newline
      else
        space <- isspace ch ;;
        when (negb space) (v <- arr_set 0 ch (val c) ;; modify (upd_parse CFG_PARSE_VAL (key_len c) 1 (key c) v))
  | CFG_PARSE_VAL =>
      if ch =? NEWLINE then
        v <- arr_set (val_len c) 0 (val c) ;;
        modify (upd_parse CFG_PARSE_VAL (key_len c) (val_len c) (key c) v) ;;
        cfg_add_entry ;;
        cfg_handle_newline
      else
        space <- isspace ch ;;
        if (space : bool) then v <- arr_set (val_len c) 0 (val c) ;; modify (upd_parse CFG_PARSE_POST_VAL (key_len c) (val_len c) (key c) v)
        else when (val_len c <? CFG_NODE_VAL_LEN - 1)
               (v <- arr_set (val_len c) ch (val c) ;; modify (upd_parse CFG_PARSE_VAL (key_len c) (val_len c + 1) (key c) v))
  | CFG_PARSE_POST_VAL =>
      if ch =? NEWLINE then cfg_add_entry ;; cfg_handle_newline
      else
        space <- isspace ch ;;
        when (negb space) (modify (upd_parse CFG_PARSE_ERROR (key_len c) (val_len c) (key c) (val c)))
  | CFG_PARSE_ERROR => when (ch =? NEWLINE) cfg_handle_newline
  end.

Definition cfg_put_char (ch : Z) : cfgM unit :=
  let ch := if ch =? 0 then NEWLINE else ch in
  when (ch =? SEMICOLON) (modify (upd_in_comment true)) ;;
  in_comment <- gets in_comment ;;
  ch <- (if (in_comment : bool) then
           if ch =? NEWLINE then modify (upd_in_comment false) ;; ret ch else ret SPACE
         else ret ch) ;;
  cfg_parse_char ch.

(** ** The file *)
Fixpoint put_chars (text : list Z) : cfgM unit :=
  match text with [] => ret tt | ch :: text' => cfg_put_char (s8 ch) ;; put_chars text' end.

Definition cfg_clear (c : cfg_state) : cfg_state :=
  {| parse_state := CFG_PARSE_PRE_KEY; key_len := 0; val_len := 0; key := replicate (Z.to_nat CFG_NODE_KEY_LEN) 0;
     val := replicate (Z.to_nat CFG_NODE_VAL_LEN) 0; line_count := 0; cfg_nodes := fifo.fifo_init (cfg_nodes c); in_comment := false;
     heap := heap c |}.
End parser.

(** ** Values *)
Definition cfg_parse_bool (valstr : list Z) : option bool :=
  if bool_decide (valstr = str "true") || bool_decide (valstr = str "1") then Some true
  else if bool_decide (valstr = str "false") || bool_decide (valstr = str "0") then Some false
  else None.
Definition hex_digit (ch : Z) : option Z :=
  if (48 <=? ch) && (ch <=? 57) then Some (ch - 48)
  else if (97 <=? ch) && (ch <=? 102) then Some (ch - 97 + 10)
  else if (65 <=? ch) && (ch <=? 70) then Some (ch - 65 + 10)
  else None.
Definition cfg_parse_rgb (valstr : list Z) : option (Z * Z * Z) :=
  match valstr with
  | [h; d0; d1; d2; d3; d4; d5] =>
      if h =? 35 then
        match mapM hex_digit [d0; d1; d2; d3; d4; d5] with
        | Some [x0; x1; x2; x3; x4; x5] => Some (x0 * 16 + x1, x2 * 16 + x3, x4 * 16 + x5)
        | _ => None
        end
      else None
  | _ => None
  end.

(** the result of an operation on [int], which is undefined when it overflows *)
Definition int_val (x : Z) : cfgM Z := if (- 2 ^ 31 <=? x) && (x <? 2 ^ 31) then ret x else raise C_UNDEFINED.
(** the [do] loop, from the last digit to the first *)
Fixpoint decimal_loop (rev_digits : list Z) (scale sum : Z) : cfgM (option Z) :=
  match rev_digits with
  | [] => ret (Some sum)
  | ch :: rest =>
      digit <- isdigit ch ;;
      if (digit : bool) then
        term <- int_val (scale * (ch - 48)) ;;
        sum <- int_val (sum + term) ;;
        scale <- int_val (scale * 10) ;;
        decimal_loop rest scale sum
      else ret None
  end.
Definition cfg_parse_decimal_int (valstr : list Z) : cfgM (option Z) :=
  match valstr with
  | [] => ret None
  | ch :: rest =>
      let '(sign, digits) := if ch =? 45 then (-1, rest) else if ch =? 43 then (1, rest) else (1, valstr) in
      match digits with
      | [] => ret None
      | _ =>
          sum <- decimal_loop (rev digits) 1 0 ;;
          match sum with
          | Some sum => val <- int_val (sign * sum) ;; ret (Some val)
          | None => ret None
          end
      end
  end.

(** the values that are stored, where the C functions return 0 *)
Definition cfg_get_bool (k : list Z) : cfgM (option bool) :=
  nodestr <- cfg_get_node k ;; ret (nodestr ≫= cfg_parse_bool).
Definition cfg_get_rgb (k : list Z) : cfgM (option (Z * Z * Z)) :=
  nodestr <- cfg_get_node k ;; ret (nodestr ≫= cfg_parse_rgb).
Definition cfg_get_int (k : list Z) : cfgM (option Z) :=
  nodestr <- cfg_get_node k ;;
  match nodestr with Some s => cfg_parse_decimal_int s | None => ret None end.

(** the file that is written when there is none *)
Definition cfg_default : list string := [
   ";;;;;;;;;;;;;;;;;;;;;;;;;;;;;;;;;;;;;;;;;;;;;;;;;;;;;;;;;;;;;;;;;;;;;;;;;;;;;;;;";
   ";;";
   ";; AUTOMATICALLY GENERATED BY WASHINGTONDC";
   ";;";
   ";; This is WashingtonDC's config file.  Config settings consist of a config";
   ";; name followed by its value on the same line";
   ";; the semicolon (;) character can be used to create single-line comments";
   ";;";
   ";;;;;;;;;;;;;;;;;;;;;;;;;;;;;;;;;;;;;;;;;;;;;;;;;;;;;;;;;;;;;;;;;;;;;;;;;;;;;;;;";
   "";
   "; background color (use html hex syntax)";
   "ui.bgcolor #3d77c0";
   "";
   "; vsync";
   "; options are true (to enable) or false (to disable)";
   "win.vsync false";
   "";
   "; default external resolution.  this is the size of the window when";
   "; it is initially created, but you can also change it at runtime by";
   "; resizing the window.";
   "win.external-res.x 640";
   "win.external-res.y 480";
   "";
   "; Pick what kind of window you want.";
   "; available values are:";
   "; * windowed";
   "; * fullscreen";
   "win.window-mode windowed";
   "";
   "; how to filter the final image.  choices are:";
   ";     nearest - for nearest-neighbor sampling";
   ";     linear - for bilinear interpolation";
   "gfx.output.filter linear";
   "";
   "; Order-Independent Transparency algorithm.  choices are:";
   ";     disabled - no order-independent transparency";
   ";     per-group - groups of transparent polygons are sorted by depth";
   "; Ideally there would be a per-pixel mode, as well, but that hasn't";
   "; been implemented yet.  per-group is far from perfect but it does";
   "; seem to be a good enough approximation most of the time.";
   "gfx.rend.oit-mode per-group";
   "";
   "; set this to true to mute audio.  Set it to false to allow audio ";
   "; to play";
   "audio.mute false";
   "";
   "; don't change this line.  It doesn't techincally do anything yet";
   "; but it will in future revisions of WashingtonDC.";
   "wash.dc.port.0.0 dreamcast_controller";
   "";
   "wash.ctrl.toggle-overlay kbd.f2";
   "wash.ctrl.toggle-filter kbd.f3";
   "wash.ctrl.toggle-wireframe kbd.f4";
   "wash.ctrl.resume-execution kbd.f5";
   "wash.ctrl.run-one-frame kbd.f6";
   "wash.ctrl.pause-execution kbd.f7";
   "wash.ctrl.toggle-mute kbd.f8";
   "wash.ctrl.toggle-fullscreen kbd.f11";
   "wash.ctrl.screenshot kbd.f12";
   "";
   "; this bind can be used to immediately terminate WashingtonDC";
   "; it's disabled by default to prevent users from pressing it by";
   "; mistake, but if you feel confident in your ability to never hit";
   "; the wrong key then feel free to use this bind.";
   "; wash.ctrl.exit kbd.f10";
   "";
   "dc.ctrl.p1.dpad-up     js0.hat0.up";
   "dc.ctrl.p1.dpad-left   js0.hat0.left";
   "dc.ctrl.p1.dpad-down   js0.hat0.down";
   "dc.ctrl.p1.dpad-right  js0.hat0.right";
   "dc.ctrl.p1.stick-left  js0.axis0-";
   "dc.ctrl.p1.stick-right js0.axis0+";
   "dc.ctrl.p1.stick-up    js0.axis1-";
   "dc.ctrl.p1.stick-down  js0.axis1+";
   "dc.ctrl.p1.trig-l      js0.axis2";
   "dc.ctrl.p1.trig-r      js0.axis5";
   "dc.ctrl.p1.btn-a       js0.btn0";
   "dc.ctrl.p1.btn-b       js0.btn1";
   "dc.ctrl.p1.btn-x       js0.btn2";
   "dc.ctrl.p1.btn-y       js0.btn3";
   "dc.ctrl.p1.btn-start   js0.btn7";
   "";
   "; the (1) versions of the controls are duplicates so you can have";
   "; the same control bound to more than one key on the host machine.";
   "; There is no (2), (3), etc but there might be someday in the";
   "; future.";
   "dc.ctrl.p1.stick-up(1)    kbd.w";
   "dc.ctrl.p1.stick-left(1)  kbd.a";
   "dc.ctrl.p1.stick-down(1)  kbd.s";
   "dc.ctrl.p1.stick-right(1) kbd.d";
   "dc.ctrl.p1.trig-l(1)      kbd.q";
   "dc.ctrl.p1.trig-r(1)      kbd.e";
   "dc.ctrl.p1.dpad-up(1)     kbd.up";
   "dc.ctrl.p1.dpad-left(1)   kbd.left";
   "dc.ctrl.p1.dpad-down(1)   kbd.down";
   "dc.ctrl.p1.dpad-right(1)  kbd.right";
   "dc.ctrl.p1.btn-a(1)       kbd.keypad2";
   "dc.ctrl.p1.btn-b(1)       kbd.keypad6";
   "dc.ctrl.p1.btn-x(1)       kbd.keypad4";
   "dc.ctrl.p1.btn-y(1)       kbd.keypad8";
   "dc.ctrl.p1.btn-start(1)   kbd.space"
]%string.
Definition cfg_default_text : list Z := concat (map (fun line => str line ++ [NEWLINE]) cfg_default).

Section file.
Context {MALLOC : Malloc}.

(** the configuration file is opened, or else written and opened *)
Definition cfg_init (file : option (list Z)) (can_create : bool) : cfgM unit :=
  modify cfg_clear ;;
  let file := match file with Some text => Some text | None => if can_create then Some cfg_default_text else None end in
  match file with
  | Some text => put_chars text ;; cfg_put_char NEWLINE
  | None => ret tt
  end.

(** [free] of a node *)
Definition free_node (a : Z) : cfgM unit :=
  modify (fun c => upd_nodes {| fifo.first := fifo.first (cfg_nodes c); fifo.plast := fifo.plast (cfg_nodes c);
                                fifo.nodes := delete a (fifo.nodes (cfg_nodes c)) |} (delete a (heap c)) c).
Fixpoint cleanup_loop (fuel : nat) : cfgM unit :=
  match fuel with
  | O => raise OUT_OF_FUEL
  | S fuel' =>
      curs <- on_fifo fifo.fifo_pop ;;
      match curs with Some a => free_node a ;; cleanup_loop fuel' | None => ret tt end
  end.
Definition cfg_cleanup : cfgM unit :=
  fuel <- gets (fun c => S (size (fifo.nodes (cfg_nodes c)))) ;; cleanup_loop fuel.
End file.
