(* ===== verification/ConfigParse.v ===== *)
(** What the parser of the configuration file accepts: a file is a sequence of lines, a line may end in a
    comment, and a line of two words is a setting.  The character-by-character parser computes the map of
    the settings, and the settings that a program prints are read back. *)
From stdpp Require Import gmap strings.
From S2P Require Import Prelude Fifo ConfigFile.

(** ** The specification *)

(** a line is ended by a newline or a null character *)
Definition is_newline (ch : Z) : bool := (ch =? 0) || (ch =? NEWLINE).
Fixpoint split_lines (cur text : list Z) : list (list Z) :=
  match text with
  | [] => [cur]
  | ch :: text' => if is_newline ch then cur :: split_lines [] text' else split_lines (cur ++ [ch]) text'
  end.
(** what is left of the comment *)
Fixpoint strip_comment (line : list Z) : list Z :=
  match line with [] => [] | ch :: line' => if ch =? SEMICOLON then [] else ch :: strip_comment line' end.
(** the words that are complete, and the one that is not *)
Definition scan_step (w : list (list Z) * list Z) (ch : Z) : list (list Z) * list Z :=
  let '(ws, cur) := w in
  if is_space ch then (match cur with [] => ws | _ => ws ++ [cur] end, []) else (ws, cur ++ [ch]).
Definition scan (line : list Z) : list (list Z) * list Z := fold_left scan_step line ([], []).
Definition words_of (w : list (list Z) * list Z) : list (list Z) := match snd w with [] => fst w | _ => fst w ++ [snd w] end.
Definition words (line : list Z) : list (list Z) := words_of (scan line).

Definition clip (w : list Z) : list Z := take 255 w.
Definition setting_of (ws : list (list Z)) : option (list Z * list Z) :=
  match ws with [k; v] => Some (clip k, clip v) | _ => None end.
Definition add_setting (m : gmap (list Z) (list Z)) (e : option (list Z * list Z)) : gmap (list Z) (list Z) :=
  match e with Some (k, v) => <[k := v]> m | None => m end.
Definition settings (text : list Z) : gmap (list Z) (list Z) :=
  fold_left add_setting (map (fun line => setting_of (words (strip_comment line))) (split_lines [] text)) ∅.

(** ** The list of settings *)
Fixpoint assoc (k : list Z) (es : list (list Z * list Z)) : option (list Z) :=
  match es with [] => None | e :: es' => if bool_decide (fst e = k) then Some (snd e) else assoc k es' end.

Lemma assoc_none k es : k ∉ es.*1 -> assoc k es = None.
Proof. induction es as [|e es IH]; cbn; [done|]. intros Hk. rewrite bool_decide_eq_false_2 by set_solver. apply IH. set_solver. Qed.

Lemma assoc_app k es1 es2 : assoc k (es1 ++ es2) = match assoc k es1 with Some v => Some v | None => assoc k es2 end.
Proof. induction es1 as [|e es1 IH]; cbn; [done|]. by case_bool_decide. Qed.

(** a node of the heap that has the two strings *)
Definition entry (h : gmap Z cfg_node) (a : Z) (e : list Z * list Z) : Prop :=
  exists n, h !! a = Some n /\ cstr (node_key n) = Some (fst e) /\ cstr (node_val n) = Some (snd e).
Definition stored (m : gmap (list Z) (list Z)) (c : cfg_state) : Prop :=
  exists l es, fifo.holds (cfg_nodes c) l /\ Forall2 (entry (heap c)) l es /\ forall k, m !! k = assoc k es.

Lemma upd_nodes_same c : upd_nodes (cfg_nodes c) (heap c) c = c.
Proof. by destruct c. Qed.

Lemma cfg_find_loop_ok c k fuel l es h : fifo.chain (fifo.nodes (cfg_nodes c)) h l -> Forall2 (entry (heap c)) l es -> (length l < fuel)%nat ->
  exists r, cfg_find_loop fuel h k c = Ok (r, c) /\
    match r with
    | None => k ∉ es.*1
    | Some a => exists l1 l2 es1 v es2, l = l1 ++ a :: l2 /\ es = es1 ++ (k, v) :: es2 /\ length l1 = length es1 /\ (k ∉ es1.*1)
    end.
Proof.
  intros Hc He. revert h fuel Hc. induction He as [|a e l es (n & Hn & Hk & Hv) He IH]; intros h [|fuel] Hc Hf; cbn [length fifo.chain cfg_find_loop] in *; try lia.
  { subst h. exists None. split; [done|]. set_solver. }
  destruct Hc as [-> (nx & Hnx & Hc)]. rewrite (bind_ok _ _ _ n c) by (unfold load_node; by rewrite Hn).
  rewrite (bind_ok _ _ _ (fst e) c) by (unfold load_str; by rewrite Hk). destruct e as [k0 v0]. cbn [fst snd] in *. case_bool_decide as E.
  - subst k0. exists (Some a). split; [done|]. exists [], l, [], v0, es. split_and!; [done..|]. set_solver.
  - rewrite (bind_ok _ _ _ nx c) by (unfold on_fifo; cbn [fifo.load_ptr]; by rewrite Hnx, upd_nodes_same).
    destruct (IH nx fuel Hc ltac:(lia)) as ([a'|] & E' & Hr); eexists; (split; [exact E'|]).
    + destruct Hr as (l1 & l2 & es1 & v & es2 & -> & -> & Hlen & Hni). exists (a :: l1), l2, ((k0, v0) :: es1), v, es2.
      split_and!; [done|done|cbn; lia|set_solver].
    + cbn. set_solver.
Qed.

Lemma cfg_find_node_ok c k l es : fifo.holds (cfg_nodes c) l -> Forall2 (entry (heap c)) l es ->
  exists r, cfg_find_node k c = Ok (r, c) /\
    match r with
    | None => k ∉ es.*1
    | Some a => exists l1 l2 es1 v es2, l = l1 ++ a :: l2 /\ es = es1 ++ (k, v) :: es2 /\ length l1 = length es1 /\ (k ∉ es1.*1)
    end.
Proof.
  intros (Hc & Hn & _) He. unfold cfg_find_node. do 2 erewrite (bind_ok (gets _)) by reflexivity.
  apply (cfg_find_loop_ok c k _ l es); [done|done|]. pose proof (fifo.chain_length _ _ _ Hc Hn). lia.
Qed.

Lemma entries_split {h} l1 a l2 es1 (e : list Z * list Z) es2 : Forall2 (entry h) (l1 ++ a :: l2) (es1 ++ e :: es2) -> length l1 = length es1 ->
  Forall2 (entry h) l1 es1 /\ entry h a e /\ Forall2 (entry h) l2 es2.
Proof. intros H Hl. apply Forall2_app_inv in H as [H1 H2]; [|done]. inversion H2; subst. done. Qed.

Lemma get_node_ok m c k : stored m c -> cfg_get_node k c = Ok (m !! k, c).
Proof.
  intros (l & es & Hl & He & Hm). unfold cfg_get_node. destruct (cfg_find_node_ok c k l es Hl He) as (r & E & Hr). rewrite (bind_ok _ _ _ _ _ E), Hm.
  destruct r as [a|]; [|by rewrite (assoc_none k es Hr)]. destruct Hr as (l1 & l2 & es1 & v & es2 & -> & -> & Hlen & Hni).
  destruct (entries_split _ _ _ _ _ _ He Hlen) as (_ & (n & Hn & _ & Hv) & _). cbn [fst snd] in *.
  rewrite (bind_ok _ _ _ n c) by (unfold load_node; by rewrite Hn). rewrite (bind_ok _ _ _ v c) by (unfold load_str; by rewrite Hv).
  rewrite assoc_app, (assoc_none k es1 Hni). cbn. by rewrite bool_decide_eq_true_2.
Qed.

Lemma entries_frame h h' l es : (forall a, a ∈ l -> h' !! a = h !! a) -> Forall2 (entry h) l es -> Forall2 (entry h') l es.
Proof.
  intros Hf. induction 1 as [|a e l es (n & Hn & Hrest) He IH]; constructor.
  - exists n. split; [|done]. rewrite Hf by set_solver. done.
  - apply IH. intros b Hb. apply Hf. set_solver.
Qed.

Section malloc.
Context {MALLOC : Malloc} {ML : MallocLaws}.

(** the value of a node is changed *)
Lemma change_entry_ok m c l1 a l2 es1 k v0 v es2 : fifo.holds (cfg_nodes c) (l1 ++ a :: l2) -> Forall2 (entry (heap c)) (l1 ++ a :: l2) (es1 ++ (k, v0) :: es2) ->
  length l1 = length es1 -> k ∉ es1.*1 -> (forall k', m !! k' = assoc k' (es1 ++ (k, v0) :: es2)) -> cstr (val c) = Some v ->
  exists h, store_val a (val c) c = Ok (tt, upd_nodes (cfg_nodes c) h c) /\ stored (<[k := v]> m) (upd_nodes (cfg_nodes c) h c).
Proof.
  intros Hl He Hlen Hni Hm Hv. destruct (entries_split _ _ _ _ _ _ He Hlen) as (He1 & (n & Hn & Hnk & _) & He2). unfold store_val.
  rewrite (bind_ok _ _ _ n c) by (unfold load_node; by rewrite Hn). eexists. split; [reflexivity|].
  exists (l1 ++ a :: l2), (es1 ++ (k, v) :: es2). split; [exact Hl|]. pose proof (proj1 (proj2 Hl)) as Hnd.
  apply list.NoDup_app in Hnd as (_ & Hd & Hnd2). rewrite list.NoDup_cons in Hnd2. split.
  - cbn [heap upd_nodes]. apply Forall2_app; [|constructor].
    + apply (entries_frame (heap c)); [|done]. intros b Hb. rewrite lookup_insert_ne; [done|]. intros ->. set_solver.
    + eexists. rewrite lookup_insert_eq. by split.
    + apply (entries_frame (heap c)); [|done]. intros b Hb. rewrite lookup_insert_ne; [done|]. intros ->. by destruct Hnd2.
  - intros k'. rewrite lookup_insert, Hm, !assoc_app. cbn. destruct (decide (k = k')) as [<-|Hne].
    + by rewrite (assoc_none k es1 Hni), bool_decide_eq_true_2.
    + by rewrite bool_decide_eq_false_2.
Qed.

(** a node is added at the end *)
Lemma push_entry_ok m c l es k v : fifo.holds (cfg_nodes c) l -> Forall2 (entry (heap c)) l es -> k ∉ es.*1 ->
  (forall k', m !! k' = assoc k' es) -> cstr (key c) = Some k -> cstr (val c) = Some v ->
  exists f h, (a <- (a <- new_node ;; on_fifo (fifo.fifo_push a) ;; ret a) ;; v <- gets val ;; store_val a v) c = Ok (tt, upd_nodes f h c) /\
    stored (<[k := v]> m) (upd_nodes f h c).
Proof.
  intros Hl He Hni Hm Hk Hv. destruct (malloc_succeeds (dom (fifo.nodes (cfg_nodes c)))) as [a Ha]. pose proof (malloc_fresh _ _ Ha) as Hfr.
  set (f1 := {| fifo.first := fifo.first (cfg_nodes c); fifo.plast := fifo.plast (cfg_nodes c); fifo.nodes := <[a := None]> (fifo.nodes (cfg_nodes c)) |}).
  set (h1 := <[a := {| node_key := key c; node_val := [] |}]> (heap c)).
  assert (Hal : a ∉ l).
  { intros Hin. apply Hfr, elem_of_dom. destruct Hl as (Hc & _ & _). by eapply fifo.chain_lookup. }
  assert (Hl1 : fifo.holds f1 l).
  { destruct Hl as (Hc & Hnd & Hp). split_and!; [|done|done]. apply (fifo.chain_frame (fifo.nodes (cfg_nodes c))); [|done].
    intros b Hb. cbn. rewrite lookup_insert_ne; [done|]. intros ->. done. }
  destruct (fifo.fifo_push_ok f1 l a Hl1 Hal) as (f2 & E2 & Hl2); [cbn; rewrite lookup_insert_eq; by eexists|].
  rewrite (bind_ok _ _ c a (upd_nodes f2 h1 c)).
  2:{ rewrite (bind_ok _ _ _ a (upd_nodes f1 h1 c)) by (unfold new_node; by rewrite Ha).
      rewrite (bind_ok _ _ _ tt (upd_nodes f2 h1 c)) by (unfold on_fifo; cbn [cfg_nodes upd_nodes]; by rewrite E2). done. }
  erewrite (bind_ok (gets _)) by reflexivity. unfold store_val.
  erewrite (bind_ok _ _ _ {| node_key := key c; node_val := [] |} (upd_nodes f2 h1 c)) by (unfold load_node, h1; cbn [heap upd_nodes]; by rewrite lookup_insert_eq).
  exists f2, (<[a := {| node_key := key c; node_val := val c |}]> h1). split; [done|]. exists (l ++ [a]), (es ++ [(k, v)]). split; [exact Hl2|]. split.
  - cbn [heap upd_nodes]. apply Forall2_app; [|constructor; [|constructor]].
    + apply (entries_frame (heap c)); [|done]. intros b Hb. unfold h1. rewrite !lookup_insert_ne; [done|..]; by intros ->.
    + eexists. rewrite lookup_insert_eq. by split.
  - intros k'. rewrite lookup_insert, Hm, assoc_app. cbn. destruct (decide (k = k')) as [<-|Hne].
    + by rewrite (assoc_none k es Hni), bool_decide_eq_true_2.
    + rewrite bool_decide_eq_false_2 by done. by destruct (assoc k' es).
Qed.

Lemma add_entry_ok m c k v : stored m c -> cstr (key c) = Some k -> cstr (val c) = Some v ->
  exists f h, cfg_add_entry c = Ok (tt, upd_nodes f h c) /\ stored (<[k := v]> m) (upd_nodes f h c).
Proof.
  intros (l & es & Hl & He & Hm) Hk Hv. unfold cfg_add_entry. erewrite (bind_ok (gets _)) by reflexivity.
  rewrite (bind_ok _ _ _ k c) by (unfold load_str; by rewrite Hk). destruct (cfg_find_node_ok c k l es Hl He) as (r & E & Hr). rewrite (bind_ok _ _ _ _ _ E).
  destruct r as [a|]; [|by apply (push_entry_ok m c l es)].
  destruct Hr as (l1 & l2 & es1 & v0 & es2 & -> & -> & Hlen & Hni). exists (cfg_nodes c).
  rewrite (bind_ok (ret a) _ c a c eq_refl). erewrite (bind_ok (gets _)) by reflexivity. by eapply change_entry_ok.
Qed.

(** ** The parser within a line *)

(** the first [len] characters of the array are those of the word that fit *)
Record buffered (arr : list Z) (len : Z) (w : list Z) : Prop := {
  bu_len : len = Z.of_nat (length (clip w));
  bu_chars : take (length (clip w)) arr = clip w;
  bu_nonzero : Forall (fun ch => ch <> 0) w
}.

Definition at_words (w : list (list Z) * list Z) (c : cfg_state) : Prop :=
  length (key c) = 256%nat /\ length (val c) = 256%nat /\
  match w with
  | ([], []) => parse_state c = CFG_PARSE_PRE_KEY
  | ([], cur) => parse_state c = CFG_PARSE_KEY /\ buffered (key c) (key_len c) cur
  | ([k], []) => parse_state c = CFG_PARSE_PRE_VAL /\ cstr (key c) = Some (clip k)
  | ([k], cur) => parse_state c = CFG_PARSE_VAL /\ cstr (key c) = Some (clip k) /\ buffered (val c) (val_len c) cur
  | ([k; v], []) => parse_state c = CFG_PARSE_POST_VAL /\ cstr (key c) = Some (clip k) /\ cstr (val c) = Some (clip v)
  | _ => parse_state c = CFG_PARSE_ERROR
  end.

Lemma clip_le w : (length (clip w) <= 255)%nat.
Proof. unfold clip. rewrite length_take. lia. Qed.

Lemma arr_set_ok i v arr (c : cfg_state) : length arr = 256%nat -> 0 <= i < 256 -> arr_set i v arr c = Ok (<[Z.to_nat i := v]> arr, c).
Proof. intros Hl Hi. unfold arr_set. rewrite Hl. change (Z.of_nat 256) with 256. by replace ((0 <=? i) && (i <? 256)) with true by lia. Qed.

Lemma arr_set_bind {A} i v arr (f : list Z -> cfgM A) c : length arr = 256%nat -> 0 <= i < 256 ->
  bind (arr_set i v arr) f c = f (<[Z.to_nat i := v]> arr) c.
Proof. intros Hl Hi. exact (bind_ok _ _ _ _ _ (arr_set_ok i v arr c Hl Hi)). Qed.

Lemma buffered_len arr len w : buffered arr len w -> 0 <= len < 256.
Proof. intros [-> _ _]. pose proof (clip_le w). lia. Qed.

(** the first character, one more, and the terminator *)
Lemma buffered_first arr ch : length arr = 256%nat -> ch <> 0 -> buffered (<[O := ch]> arr) 1 [ch].
Proof. intros Hl Hc. destruct arr as [|x arr]; [done|]. split; [done|done|]. by repeat constructor. Qed.

Lemma buffered_full arr len w ch : buffered arr len w -> ch <> 0 -> 255 <= len -> buffered arr len (w ++ [ch]).
Proof.
  intros [Hl Hc Hn] Hch H255. pose proof (clip_le w). assert (Hw : (255 <= length w)%nat) by (unfold clip in *; rewrite length_take in *; lia).
  assert (E : clip (w ++ [ch]) = clip w) by (unfold clip; by rewrite take_app_le). split; rewrite ?E; [done..|]. apply Forall_app. by repeat constructor.
Qed.

Lemma buffered_more arr len w ch : length arr = 256%nat -> buffered arr len w -> ch <> 0 -> len < 255 ->
  buffered (<[Z.to_nat len := ch]> arr) (len + 1) (w ++ [ch]).
Proof.
  intros Ha [Hl Hc Hn] Hch H255. assert (Hw : (length w < 255)%nat) by (unfold clip in *; rewrite length_take in *; lia).
  assert (E : clip w = w) by (unfold clip; apply take_ge; lia). rewrite E in *.
  assert (E' : clip (w ++ [ch]) = w ++ [ch]) by (unfold clip; apply take_ge; rewrite length_app; cbn; lia).
  split; rewrite ?E'; rewrite ?length_app; cbn [length]; [lia| |apply Forall_app; by repeat constructor].
  subst len. rewrite Nat2Z.id, Nat.add_1_r. rewrite (take_S_r _ _ ch) by (apply list_lookup_insert_eq; lia).
  rewrite take_insert_ge by lia. by rewrite Hc.
Qed.

Lemma cstr_app w rest : Forall (fun ch => ch <> 0) w -> cstr (w ++ 0 :: rest) = Some w.
Proof. induction 1 as [|ch w Hch Hw IH]; cbn; [done|]. rewrite (proj2 (Z.eqb_neq _ _)) by done. by rewrite IH. Qed.

Lemma buffered_end arr len w : length arr = 256%nat -> buffered arr len w -> cstr (<[Z.to_nat len := 0]> arr) = Some (clip w).
Proof.
  intros Ha [-> Hc Hn]. pose proof (clip_le w). rewrite Nat2Z.id. rewrite <- (take_drop (length (clip w)) (<[_ := 0]> arr)).
  rewrite take_insert_ge by lia. rewrite Hc.
  rewrite (drop_S _ 0) by (apply list_lookup_insert_eq; lia). apply cstr_app. by apply list.Forall_take.
Qed.

(** only the fields of the parser change *)
Definition parse_only (c c' : cfg_state) : Prop :=
  cfg_nodes c' = cfg_nodes c /\ heap c' = heap c /\ in_comment c' = in_comment c.

Lemma stored_parse_only m c c' : parse_only c c' -> stored m c -> stored m c'.
Proof. intros (E1 & E2 & _). unfold stored. by rewrite E1, E2. Qed.

Lemma isspace_ok ch (c : cfg_state) : 0 < ch -> isspace ch c = Ok (is_space ch, c).
Proof. intros H. unfold isspace, ctype. by replace (ch <? -1) with false by lia. Qed.

Lemma scan_step_char w ch : is_space ch = false -> scan_step w ch = (fst w, snd w ++ [ch]).
Proof. destruct w. unfold scan_step. by intros ->. Qed.

(** a space ends the word; another character joins it *)
Lemma parse_space ch w c : 0 < ch -> ch <> NEWLINE -> is_space ch = true -> at_words w c ->
  exists c', cfg_parse_char ch c = Ok (tt, c') /\ at_words (scan_step w ch) c' /\ parse_only c c'.
Proof.
  intros H0 Hn Hsp (Lk & Lv & Hw). unfold cfg_parse_char. erewrite (bind_ok (gets _)) by reflexivity. rewrite (proj2 (Z.eqb_neq _ _)) by done.
  pose proof (isspace_ok ch c H0) as His. rewrite Hsp in His. destruct w as [ws cur]. unfold scan_step. rewrite Hsp.
  destruct ws as [|k [|v [|? ?]]], cur as [|x cur]; cbn [app] in *;
    try (rewrite Hw; exists c; split; [first [done|by rewrite (bind_ok _ _ _ _ _ His)]|]; split; [by split|done]).
  - destruct Hw as [Hst Hb]. rewrite Hst, (bind_ok _ _ _ _ _ His). rewrite arr_set_bind by (done || by eapply buffered_len). eexists. split; [reflexivity|].
    split; [|done]. split_and!; [cbn; by rewrite length_insert|done|done|]. by apply buffered_end.
  - destruct Hw as [Hst Hk]. rewrite Hst, (bind_ok _ _ _ _ _ His). exists c. split; [done|]. split; [by split_and!|done].
  - destruct Hw as (Hst & Hk & Hb). rewrite Hst, (bind_ok _ _ _ _ _ His). rewrite arr_set_bind by (done || by eapply buffered_len). eexists. split; [reflexivity|].
    split; [|done]. split_and!; [done|cbn; by rewrite length_insert|done|done|]. by apply buffered_end.
  - destruct Hw as (Hst & Hk & Hv). rewrite Hst, (bind_ok _ _ _ _ _ His). exists c. split; [done|]. split; [by split_and!|done].
Qed.

Lemma parse_word ch w c : 0 < ch -> ch <> NEWLINE -> is_space ch = false -> at_words w c ->
  exists c', cfg_parse_char ch c = Ok (tt, c') /\ at_words (scan_step w ch) c' /\ parse_only c c'.
Proof.
  intros H0 Hn Hsp (Lk & Lv & Hw). assert (Hch : ch <> 0) by lia. unfold cfg_parse_char. erewrite (bind_ok (gets _)) by reflexivity.
  rewrite (proj2 (Z.eqb_neq _ _)) by done. pose proof (isspace_ok ch c H0) as His. rewrite Hsp in His.
  rewrite (scan_step_char w ch Hsp). destruct w as [ws cur]. cbn [fst snd]. destruct ws as [|k [|v [|? ?]]], cur as [|x cur]; cbn [app] in *;
    try (rewrite Hw; exists c; split; [first [done|by rewrite (bind_ok _ _ _ _ _ His)]|]; split; [by split|done]).
  - rewrite Hw, (bind_ok _ _ _ _ _ His). cbn [negb when]. rewrite arr_set_bind by (done || lia). eexists. split; [reflexivity|]. split; [|done]. split_and!; [cbn; by rewrite length_insert|done|done|]. by apply buffered_first.
  - destruct Hw as [Hst Hb]. rewrite Hst, (bind_ok _ _ _ _ _ His). destruct (Z.ltb_spec (key_len c) (CFG_NODE_KEY_LEN - 1)) as [Hlt|Hge]; change (CFG_NODE_KEY_LEN - 1) with 255 in *; cbn [when].
    + rewrite arr_set_bind by (done || by eapply buffered_len). eexists. split; [reflexivity|]. split; [|done].
      split_and!; [cbn; by rewrite length_insert|done|done|]. by apply (buffered_more (key c) (key_len c) (x :: cur)).
    + exists c. split; [done|]. split; [|done]. split_and!; [done..|]. by apply (buffered_full (key c) (key_len c) (x :: cur)).
  - destruct Hw as [Hst Hk]. rewrite Hst, (bind_ok _ _ _ _ _ His). cbn [negb when]. rewrite arr_set_bind by (done || lia). eexists. split; [reflexivity|]. split; [|done].
    split_and!; [done|cbn; by rewrite length_insert|done|done|]. by apply buffered_first.
  - destruct Hw as (Hst & Hk & Hb). rewrite Hst, (bind_ok _ _ _ _ _ His). destruct (Z.ltb_spec (val_len c) (CFG_NODE_VAL_LEN - 1)) as [Hlt|Hge]; change (CFG_NODE_VAL_LEN - 1) with 255 in *; cbn [when].
    + rewrite arr_set_bind by (done || by eapply buffered_len). eexists. split; [reflexivity|]. split; [|done].
      split_and!; [done|cbn; by rewrite length_insert|done|done|]. by apply (buffered_more (val c) (val_len c) (x :: cur)).
    + exists c. split; [done|]. split; [|done]. split_and!; [done..|]. by apply (buffered_full (val c) (val_len c) (x :: cur)).
  - destruct Hw as (Hst & Hk & Hv). rewrite Hst, (bind_ok _ _ _ _ _ His). eexists. split; [reflexivity|]. split; [|done]. by split_and!.
Qed.

Lemma parse_char_ok ch w c : 0 < ch -> ch <> NEWLINE -> at_words w c ->
  exists c', cfg_parse_char ch c = Ok (tt, c') /\ at_words (scan_step w ch) c' /\ parse_only c c'.
Proof. intros. destruct (is_space ch) eqn:E; [by apply parse_space|by apply parse_word]. Qed.

(** the end of a line: a setting is made of two words *)
Lemma newline_ok c : length (key c) = 256%nat -> length (val c) = 256%nat ->
  exists c', cfg_handle_newline c = Ok (tt, c') /\ at_words ([], []) c' /\ parse_only c c'.
Proof. intros Lk Lv. eexists. split; [reflexivity|]. by split_and!. Qed.

Lemma add_then_newline m c k v : stored m c -> length (key c) = 256%nat -> length (val c) = 256%nat -> cstr (key c) = Some k -> cstr (val c) = Some v ->
  exists c', (cfg_add_entry ;; cfg_handle_newline) c = Ok (tt, c') /\ at_words ([], []) c' /\ stored (<[k := v]> m) c' /\ in_comment c' = in_comment c.
Proof.
  intros Hs Lk Lv Hk Hv. destruct (add_entry_ok m c k v Hs Hk Hv) as (f & h & E & Hs'). rewrite (bind_ok _ _ _ _ _ E).
  destruct (newline_ok (upd_nodes f h c) Lk Lv) as (c' & E' & Hw & Hp). exists c'. split_and!; [done|apply Hw..|by eapply stored_parse_only|apply Hp].
Qed.

Lemma parse_newline m w c : stored m c -> at_words w c ->
  exists c', cfg_parse_char NEWLINE c = Ok (tt, c') /\ at_words ([], []) c' /\ stored (add_setting m (setting_of (words_of w))) c' /\ in_comment c' = in_comment c.
Proof.
  intros Hs (Lk & Lv & Hw). unfold cfg_parse_char. erewrite (bind_ok (gets _)) by reflexivity. change (NEWLINE =? NEWLINE) with true. cbn match.
  assert (Hnl : forall m', m' = m -> exists c', cfg_handle_newline c = Ok (tt, c') /\ at_words ([], []) c' /\ stored m' c' /\ in_comment c' = in_comment c).
  { intros m' ->. destruct (newline_ok c Lk Lv) as (c' & E & Hw' & Hp). exists c'. split_and!; [done|apply Hw'..|by eapply stored_parse_only|apply Hp]. }
  destruct w as [ws cur]. destruct ws as [|k [|v [|? ws]]], cur as [|x cur]; unfold words_of; cbn [fst snd app setting_of add_setting] in *.
  - rewrite Hw. by apply Hnl.
  - destruct Hw as [-> _]. by apply Hnl.
  - destruct Hw as [-> _]. by apply Hnl.
  - destruct Hw as (-> & Hk & Hb). rewrite arr_set_bind by (done || by eapply buffered_len).
    erewrite (bind_ok (modify _)) by reflexivity. apply (add_then_newline m (upd_parse _ _ _ _ _ c)); [done|done|cbn; by rewrite length_insert|done|by apply buffered_end].
  - destruct Hw as (-> & Hk & Hv). by apply add_then_newline.
  - rewrite Hw. by apply Hnl.
  - rewrite Hw. by apply Hnl.
  - rewrite Hw. apply Hnl. by destruct ws.
Qed.

(** ** Lines and comments *)
Definition has_comment (line : list Z) : bool := existsb (Z.eqb SEMICOLON) line.
(** the words so far; a comment is read as spaces *)
Definition line_scan (line : list Z) : list (list Z) * list Z :=
  if has_comment line then scan_step (scan (strip_comment line)) SPACE else scan line.

Lemma words_of_space w : words_of (scan_step w SPACE) = words_of w.
Proof. destruct w as [ws []]; cbn; done. Qed.
Lemma scan_space_twice w : scan_step (scan_step w SPACE) SPACE = scan_step w SPACE.
Proof. by destruct w as [ws []]. Qed.
Lemma scan_snoc line ch : scan (line ++ [ch]) = scan_step (scan line) ch.
Proof. unfold scan. by rewrite fold_left_app. Qed.
Lemma has_comment_snoc line ch : has_comment (line ++ [ch]) = has_comment line || (SEMICOLON =? ch).
Proof. unfold has_comment. rewrite existsb_app. cbn. by rewrite orb_false_r. Qed.
Lemma strip_no_comment line : has_comment line = false -> strip_comment line = line.
Proof.
  induction line as [|ch line IH]; cbn [has_comment existsb strip_comment]; [done|]. rewrite Z.eqb_sym. intros [-> Hl]%orb_false_iff.
  f_equal. by apply IH.
Qed.
Lemma strip_snoc line ch :
  strip_comment (line ++ [ch]) = if has_comment line || (SEMICOLON =? ch) then strip_comment line else line ++ [ch].
Proof.
  induction line as [|x line IH]; cbn [app strip_comment has_comment existsb orb].
  - rewrite Z.eqb_sym. by destruct (SEMICOLON =? ch).
  - rewrite (Z.eqb_sym SEMICOLON x). destruct (x =? SEMICOLON) eqn:E; cbn [orb]; [done|]. rewrite IH.
    unfold has_comment. by destruct (existsb _ line || (SEMICOLON =? ch)).
Qed.

(** the words of a line after one more character *)
Lemma line_scan_snoc line ch : line_scan (line ++ [ch]) =
  scan_step (line_scan line) (if has_comment line || (SEMICOLON =? ch) then SPACE else ch).
Proof.
  unfold line_scan. rewrite has_comment_snoc, strip_snoc. destruct (has_comment line) eqn:E; cbn [orb].
  { by rewrite scan_space_twice. }
  destruct (SEMICOLON =? ch); [|apply scan_snoc]. by rewrite strip_no_comment.
Qed.
Lemma line_words line : words_of (line_scan line) = words (strip_comment line).
Proof.
  unfold line_scan, words. destruct (has_comment line) eqn:E; [apply words_of_space|]. by rewrite strip_no_comment.
Qed.

(** the parser after a part of a line, with the settings of the lines before *)
Record reading (line : list Z) (m : gmap (list Z) (list Z)) (c : cfg_state) : Prop := {
  re_words : at_words (line_scan line) c;
  re_comment : in_comment c = has_comment line;
  re_stored : stored m c
}.

Lemma put_char_ok line m c ch : 0 < ch -> ch <> NEWLINE -> reading line m c ->
  exists c', cfg_put_char ch c = Ok (tt, c') /\ reading (line ++ [ch]) m c'.
Proof.
  intros H0 Hn [Hw Hc Hs]. unfold cfg_put_char. replace (ch =? 0) with false by lia. set (ic := has_comment line || (SEMICOLON =? ch)).
  set (c1 := if ch =? SEMICOLON then upd_in_comment true c else c).
  rewrite (bind_ok _ _ c tt c1) by (unfold c1; by destruct (ch =? SEMICOLON)). erewrite (bind_ok (gets _)) by reflexivity.
  assert (Hic : in_comment c1 = ic).
  { unfold c1, ic. rewrite (Z.eqb_sym SEMICOLON). destruct (ch =? SEMICOLON); cbn [in_comment upd_in_comment]; [by rewrite orb_true_r|by rewrite orb_false_r]. }
  rewrite Hic. rewrite (bind_ok _ _ c1 (if ic then SPACE else ch) c1).
  2:{ rewrite (proj2 (Z.eqb_neq ch NEWLINE)) by done. by destruct ic. }
  assert (H1 : at_words (line_scan line) c1 /\ stored m c1) by (unfold c1; by destruct (ch =? SEMICOLON)). destruct H1 as [Hw1 Hs1].
  destruct (parse_char_ok (if ic then SPACE else ch) (line_scan line) c1) as (c' & E & Hw' & Hp); [by destruct ic|by destruct ic|done|].
  exists c'. split; [done|]. split.
  - rewrite line_scan_snoc. exact Hw'.
  - destruct Hp as (_ & _ & ->). by rewrite Hic, has_comment_snoc.
  - by eapply stored_parse_only.
Qed.

Definition line_setting (line : list Z) : option (list Z * list Z) := setting_of (words (strip_comment line)).

Lemma put_newline_ok line m c ch : is_newline ch = true -> reading line m c ->
  exists c', cfg_put_char ch c = Ok (tt, c') /\ reading [] (add_setting m (line_setting line)) c'.
Proof.
  intros Hn [Hw Hc Hs]. unfold cfg_put_char. assert (E : (if ch =? 0 then NEWLINE else ch) = NEWLINE).
  { unfold is_newline in Hn. destruct (Z.eqb_spec ch 0); [done|]. cbn in Hn. by apply Z.eqb_eq in Hn. }
  rewrite E. change (NEWLINE =? SEMICOLON) with false. change (NEWLINE =? NEWLINE) with true. cbn [when].
  rewrite (bind_ok (ret tt) _ c tt c eq_refl). erewrite (bind_ok (gets _)) by reflexivity. set (c1 := upd_in_comment false c).
  rewrite (bind_ok _ _ c NEWLINE c1) by (unfold c1; destruct (in_comment c) eqn:Ei; [done|]; unfold ret; by destruct c; cbn in Ei |- *; subst).
  destruct (parse_newline m (line_scan line) c1 Hs Hw) as (c' & E' & Hw' & Hs' & Hc'). exists c'. split; [done|]. split; [done|by rewrite Hc'|].
  rewrite line_words in Hs'. exact Hs'.
Qed.

Lemma put_chars_ok text line m c : Forall (in_range 7) text -> reading line m c ->
  exists c', (put_chars text ;; cfg_put_char NEWLINE) c = Ok (tt, c') /\
    reading [] (fold_left add_setting (map line_setting (split_lines line text)) m) c'.
Proof.
  intros Ht. revert line m c. induction Ht as [|ch text Hch Ht IH]; intros line m c Hr; cbn [put_chars split_lines].
  { rewrite (bind_ok (ret tt) _ c tt c eq_refl). destruct (put_newline_ok line m c NEWLINE eq_refl Hr) as (c' & E & Hr'). by exists c'. }
  assert (Es : s8 ch = ch) by (apply swrap_small; [lia|unfold in_range in Hch; change (2 ^ (8 - 1)) with 128; change (2 ^ 7) with 128 in Hch; lia]).
  rewrite Es. assert (Hstep : exists c1 line1 m1, cfg_put_char ch c = Ok (tt, c1) /\ reading line1 m1 c1 /\
    fold_left add_setting (map line_setting (if is_newline ch then line :: split_lines [] text else split_lines (line ++ [ch]) text)) m =
    fold_left add_setting (map line_setting (split_lines line1 text)) m1).
  { destruct (is_newline ch) eqn:En.
    - destruct (put_newline_ok line m c ch En Hr) as (c1 & E1 & Hr1). by exists c1, [], (add_setting m (line_setting line)).
    - unfold is_newline in En. apply orb_false_iff in En as [E0 E1]. apply Z.eqb_neq in E0, E1.
      destruct (put_char_ok line m c ch) as (c1 & E2 & Hr1); [unfold in_range in Hch; lia|done|done|]. by exists c1, (line ++ [ch]), m. }
  destruct Hstep as (c1 & line1 & m1 & E1 & Hr1 & ->). destruct (IH line1 m1 c1 Hr1) as (c' & E' & Hr'). exists c'. split; [|done].
  unfold bind in *. by rewrite E1.
Qed.

Lemma clear_reading c : reading [] ∅ (cfg_clear c).
Proof.
  split; [by split_and!|done|]. exists [], []. split; [|split; [constructor|]]; [|by intros k; rewrite lookup_empty].
  split_and!; [done|by apply list.NoDup_nil|done].
Qed.

Lemma init_ok (text : list Z) (can_create : bool) (c : cfg_state) : Forall (in_range 7) text ->
  exists c', cfg_init (Some text) can_create c = Ok (tt, c') /\ stored (settings text) c'.
Proof.
  intros Ht. unfold cfg_init. erewrite (bind_ok (modify _)) by reflexivity.
  destruct (put_chars_ok text [] ∅ (cfg_clear c) Ht (clear_reading c)) as (c' & E & [_ _ Hs]). by exists c'.
Qed.

(** C19: the parser, which is fed one character at a time and keeps its settings in a linked list, computes the
    map of the file's settings: the lines of exactly two words outside of the comments, with both words cut
    to 255 characters, where a later line for a key replaces an earlier one.  This holds for every text of
    7-bit characters, whatever lines it has, when the allocator has memory; no line stops the parser. *)
Theorem cfg_file_refines (text : list Z) (can_create : bool) (c : cfg_state) : Forall (in_range 7) text ->
  exists c', cfg_init (Some text) can_create c = Ok (tt, c') /\ forall k, cfg_get_node k c' = Ok (settings text !! k, c').
Proof.
  intros Ht. destruct (init_ok text can_create c Ht) as (c' & E & Hs). exists c'. split; [exact E|]. intros k. exact (get_node_ok _ c' k Hs).
Qed.
End malloc.

(** ** Numbers *)
Fixpoint dec_rev (fuel : nat) (n : Z) : list Z :=
  match fuel with O => [] | S fuel' => (48 + n mod 10) :: (if n <? 10 then [] else dec_rev fuel' (n / 10)) end.
(** at most ten digits *)
Definition dec (n : Z) : list Z := if n <? 0 then 45 :: rev (dec_rev 10 (- n)) else rev (dec_rev 10 n).
Fixpoint value_rev (ds : list Z) : Z := match ds with [] => 0 | d :: ds' => (d - 48) + 10 * value_rev ds' end.

Lemma dec_rev_value fuel n : 0 <= n < 10 ^ Z.of_nat fuel -> value_rev (dec_rev fuel n) = n.
Proof.
  revert n. induction fuel as [|fuel IH]; intros n Hn; cbn [dec_rev value_rev]; [cbn in Hn; lia|].
  pose proof (Z.div_mod n 10 ltac:(lia)). pose proof (Z.mod_pos_bound n 10 ltac:(lia)). destruct (Z.ltb_spec n 10); cbn [value_rev].
  - rewrite Z.mod_small in * by lia. lia.
  - rewrite IH; [lia|]. rewrite Nat2Z.inj_succ, Z.pow_succ_r in Hn by lia. split; [apply Z.div_pos; lia|]. apply Z.div_lt_upper_bound; lia.
Qed.
Lemma dec_rev_digits fuel n : Forall (fun d => is_digit d = true) (dec_rev fuel n).
Proof.
  revert n. induction fuel as [|fuel IH]; intros n; cbn [dec_rev]; constructor.
  - pose proof (Z.mod_pos_bound n 10 ltac:(lia)). unfold is_digit. lia.
  - destruct (n <? 10); [constructor|apply IH].
Qed.
Lemma dec_rev_length fuel n : (length (dec_rev fuel n) <= fuel)%nat.
Proof. revert n. induction fuel as [|fuel IH]; intros n; cbn; [lia|]. specialize (IH (n / 10)). destruct (n <? 10); cbn; lia. Qed.

Lemma int_val_ok x c : - 2 ^ 31 <= x < 2 ^ 31 -> int_val x c = Ok (x, c).
Proof. intros Hx. unfold int_val. by replace (_ && _) with true by lia. Qed.

Lemma isdigit_ok d c : is_digit d = true -> isdigit d c = Ok (true, c).
Proof.
  intros Hd. assert (0 <= d) by (unfold is_digit in Hd; lia).
  unfold isdigit, ctype. replace (d <? -1) with false by lia. by rewrite Hd.
Qed.

(** up to nine digits are summed exactly *)
Lemma decimal_loop_ok ds (j : nat) sum c : Forall (fun d => is_digit d = true) ds -> (j + length ds <= 9)%nat ->
  0 <= sum < 10 ^ Z.of_nat j ->
  decimal_loop ds (10 ^ Z.of_nat j) sum c = Ok (Some (sum + 10 ^ Z.of_nat j * value_rev ds), c).
Proof.
  intros Hd. revert j sum. induction Hd as [|d ds Hd _ IH]; intros j sum Hj Hs; cbn [decimal_loop value_rev].
  { by rewrite Z.mul_0_r, Z.add_0_r. }
  rewrite (bind_ok _ _ _ _ _ (isdigit_ok d c Hd)). cbn [length] in Hj.
  assert (Hp : 10 ^ Z.of_nat (S j) <= 10 ^ 9) by (apply Z.pow_le_mono_r; lia). change (10 ^ 9) with 1000000000 in Hp.
  assert (Es : 10 ^ Z.of_nat j * 10 = 10 ^ Z.of_nat (S j)) by (rewrite Nat2Z.inj_succ, Z.pow_succ_r by lia; lia).
  assert (Hd' : 0 <= d - 48 <= 9) by (unfold is_digit in Hd; lia). set (w := 10 ^ Z.of_nat j) in *.
  assert (Hm : 0 <= w * (d - 48) <= w * 9) by nia.
  rewrite (bind_ok _ _ _ _ _ (int_val_ok (w * (d - 48)) c ltac:(lia))), (bind_ok _ _ _ _ _ (int_val_ok (sum + w * (d - 48)) c ltac:(lia))),
    (bind_ok _ _ _ _ _ (int_val_ok (w * 10) c ltac:(lia))), Es.
  rewrite IH by lia. do 3 f_equal. rewrite <- Es. ring.
Qed.

(** a tenth digit overflows [scale], also where the number would fit *)
Lemma decimal_loop_overflow ds (j : nat) sum c : Forall (fun d => is_digit d = true) ds -> (j <= 9)%nat -> (10 <= j + length ds)%nat ->
  0 <= sum < 10 ^ Z.of_nat j -> decimal_loop ds (10 ^ Z.of_nat j) sum c = Err C_UNDEFINED.
Proof.
  intros Hd. revert j sum. induction Hd as [|d ds Hd _ IH]; intros j sum Hj Hl Hs; [cbn in Hl; lia|]. cbn [decimal_loop length] in *.
  rewrite (bind_ok _ _ _ _ _ (isdigit_ok d c Hd)).
  assert (Es : 10 ^ Z.of_nat j * 10 = 10 ^ Z.of_nat (S j)) by (rewrite Nat2Z.inj_succ, Z.pow_succ_r by lia; lia).
  assert (Hd' : 0 <= d - 48 <= 9) by (unfold is_digit in Hd; lia). destruct (decide (j = 9%nat)) as [->|].
  { change (10 ^ Z.of_nat 9) with 1000000000. unfold bind at 1, int_val at 1. destruct (_ && _); [|done]. unfold ret.
    unfold bind at 1, int_val at 1. destruct (_ && _); [|done]. done. }
  assert (Hp : 10 ^ Z.of_nat (S j) <= 10 ^ 9) by (apply Z.pow_le_mono_r; lia). change (10 ^ 9) with 1000000000 in Hp.
  set (w := 10 ^ Z.of_nat j) in *. assert (Hm : 0 <= w * (d - 48) <= w * 9) by nia.
  rewrite (bind_ok _ _ _ _ _ (int_val_ok (w * (d - 48)) c ltac:(lia))), (bind_ok _ _ _ _ _ (int_val_ok (sum + w * (d - 48)) c ltac:(lia))),
    (bind_ok _ _ _ _ _ (int_val_ok (w * 10) c ltac:(lia))), Es. apply IH; lia.
Qed.

Lemma dec_rev_digits_num (k fuel : nat) n : (0 < k <= fuel)%nat -> 0 <= n < 10 ^ Z.of_nat k -> (length (dec_rev fuel n) <= k)%nat.
Proof.
  revert k n. induction fuel as [|fuel IH]; intros k n Hk Hn; cbn [dec_rev length]; [lia|]. destruct (Z.ltb_spec n 10); cbn [length]; [lia|].
  destruct k as [|k]; [lia|]. rewrite Nat2Z.inj_succ, Z.pow_succ_r in Hn by lia. destruct (decide (k = 0%nat)) as [->|]; [cbn in Hn; lia|].
  specialize (IH k (n / 10)). assert (0 <= n / 10 < 10 ^ Z.of_nat k) by (split; [apply Z.div_pos; lia|apply Z.div_lt_upper_bound; lia]). lia.
Qed.
Lemma dec_rev_long (k fuel : nat) n : (k < fuel)%nat -> 10 ^ Z.of_nat k <= n -> (k < length (dec_rev fuel n))%nat.
Proof.
  revert k n. induction fuel as [|fuel IH]; intros k n Hk Hn; [lia|]. cbn [dec_rev length]. destruct k as [|k]; [lia|].
  rewrite Nat2Z.inj_succ, Z.pow_succ_r in Hn by lia. pose proof (Z.pow_pos_nonneg 10 (Z.of_nat k) ltac:(lia) ltac:(lia)).
  destruct (Z.ltb_spec n 10); [lia|]. specialize (IH k (n / 10) ltac:(lia)).
  assert (10 ^ Z.of_nat k <= n / 10) by (apply Z.div_le_lower_bound; lia). lia.
Qed.

(** parsing a printed number is the loop over its digits *)
Lemma parse_dec_eq n c : cfg_parse_decimal_int (dec n) c =
  (sum <- decimal_loop (dec_rev 10 (Z.abs n)) 1 0 ;;
   match sum with Some sum => val <- int_val ((if n <? 0 then -1 else 1) * sum) ;; ret (Some val) | None => ret None end) c.
Proof.
  assert (Hhd : forall m, exists d rest, rev (dec_rev 10 m) = d :: rest /\ is_digit d = true).
  { intros m. pose proof (dec_rev_digits 10 m) as Hd. apply Forall_rev in Hd. destruct (rev (dec_rev 10 m)) as [|d rest] eqn:E.
    - apply (f_equal length) in E. rewrite length_rev in E. done.
    - exists d, rest. split; [done|]. by inversion Hd. }
  unfold cfg_parse_decimal_int, dec. destruct (Z.ltb_spec n 0).
  - rewrite Z.abs_neq by lia. destruct (Hhd (- n)) as (d & rest & E & _). change (45 =? 45) with true. cbn match. rewrite E. cbn match.
    by rewrite <- E, rev_involutive.
  - rewrite Z.abs_eq by lia. destruct (Hhd n) as (d & rest & E & Hd). rewrite E. unfold is_digit in Hd. replace (d =? 45) with false by lia.
    replace (d =? 43) with false by lia. cbn match. by rewrite <- E, rev_involutive.
Qed.

Lemma parse_dec n c : Z.abs n < 10 ^ 9 -> cfg_parse_decimal_int (dec n) c = Ok (Some n, c).
Proof.
  intros Hn. rewrite parse_dec_eq. change 1 with (10 ^ Z.of_nat 0) at 1.
  rewrite (bind_ok _ _ _ _ _ (decimal_loop_ok _ 0 0 c (dec_rev_digits 10 _) (dec_rev_digits_num 9 10 (Z.abs n) ltac:(lia) ltac:(split; [lia|exact Hn])) ltac:(done))).
  rewrite dec_rev_value by (change (10 ^ Z.of_nat 10) with 10000000000; change (10 ^ 9) with 1000000000 in Hn; lia).
  change (10 ^ Z.of_nat 0) with 1. change (10 ^ 9) with 1000000000 in Hn. rewrite Z.add_0_l, Z.mul_1_l. destruct (Z.ltb_spec n 0).
  - rewrite (bind_ok _ _ _ _ _ (int_val_ok (-1 * Z.abs n) c ltac:(lia))). unfold ret. do 3 f_equal. lia.
  - rewrite (bind_ok _ _ _ _ _ (int_val_ok (1 * Z.abs n) c ltac:(lia))). unfold ret. do 3 f_equal. lia.
Qed.

(** a number of ten digits overflows an [int] of the parser, also where it fits into one itself *)
Theorem cfg_ten_digits_undefined n c : 10 ^ 9 <= Z.abs n -> cfg_parse_decimal_int (dec n) c = Err C_UNDEFINED.
Proof.
  intros Hn. rewrite parse_dec_eq. change 1 with (10 ^ Z.of_nat 0) at 1. unfold bind.
  rewrite (decimal_loop_overflow _ 0 0 c (dec_rev_digits 10 _)); [done|lia| |done].
  apply (dec_rev_long 9 10 (Z.abs n)); [lia|exact Hn].
Qed.

(** ** Printing settings *)

(** a word: printable characters other than the one that starts a comment *)
Definition word_char (ch : Z) : bool := (33 <=? ch) && (ch <=? 126) && negb (ch =? SEMICOLON).
Definition word_ok (w : list Z) : Prop := w <> [] /\ (length w <= 255)%nat /\ Forall (fun ch => word_char ch = true) w.
Definition print_setting (e : list Z * list Z) : list Z := fst e ++ SPACE :: snd e ++ [NEWLINE].
Definition print_settings (es : list (list Z * list Z)) : list Z := concat (map print_setting es).

Lemma word_char_facts ch : word_char ch = true -> 33 <= ch <= 126 /\ ch <> SEMICOLON /\ is_space ch = false /\ is_newline ch = false.
Proof. unfold word_char, is_space, is_newline, SEMICOLON, NEWLINE. lia. Qed.

Lemma scan_word ws cur w : Forall (fun ch => word_char ch = true) w -> fold_left scan_step w (ws, cur) = (ws, cur ++ w).
Proof.
  intros H. revert cur. induction H as [|ch w Hch _ IH]; intros cur; cbn [fold_left]; [by rewrite app_nil_r|].
  rewrite scan_step_char by by apply word_char_facts. cbn [fst snd]. by rewrite IH, <- app_assoc.
Qed.

Lemma split_line line cur rest : Forall (fun ch => is_newline ch = false) line -> split_lines cur (line ++ NEWLINE :: rest) = (cur ++ line) :: split_lines [] rest.
Proof.
  intros H. revert cur. induction H as [|ch line Hch _ IH]; intros cur; cbn [split_lines app]; [by rewrite app_nil_r|].
  rewrite Hch, IH. by rewrite <- app_assoc.
Qed.

Lemma setting_line k v : word_ok k -> word_ok v -> line_setting (k ++ SPACE :: v) = Some (k, v).
Proof.
  intros (Hk0 & Hk & Hkc) (Hv0 & Hv & Hvc). unfold line_setting. rewrite strip_no_comment.
  2:{ unfold has_comment. rewrite existsb_app. cbn [existsb]. change (SEMICOLON =? SPACE) with false. cbn [orb].
      assert (H : forall w, Forall (fun ch => word_char ch = true) w -> existsb (Z.eqb SEMICOLON) w = false).
      { intros w. induction 1 as [|ch w Hch _ IH]; cbn [existsb]; [done|]. apply word_char_facts in Hch as (_ & Hne & _). rewrite IH.
        by rewrite (proj2 (Z.eqb_neq _ _)) by done. }
      by rewrite !H. }
  unfold words, scan. rewrite fold_left_app, (scan_word [] [] k Hkc). cbn [fold_left app].
  assert (E : scan_step ([], k) SPACE = ([k], [])) by (unfold scan_step; by destruct k). rewrite E, (scan_word [k] [] v Hvc). cbn [app].
  unfold words_of. cbn [snd fst]. destruct v as [|x v]; [done|]. cbn [app setting_of]. unfold clip. by rewrite !take_ge by (cbn in *; lia).
Qed.

Lemma settings_printed es : Forall (fun e => word_ok (fst e) /\ word_ok (snd e)) es ->
  settings (print_settings es) = fold_left add_setting (map Some es) ∅.
Proof.
  intros H. unfold settings. fold line_setting. generalize (∅ : gmap (list Z) (list Z)). induction H as [|[k v] es [Hk Hv] _ IH]; intros m; [done|].
  unfold print_settings. cbn [map concat]. fold (print_settings es). cbn [fst snd] in *.
  replace (print_setting (k, v) ++ print_settings es) with ((k ++ SPACE :: v) ++ NEWLINE :: print_settings es)
    by (unfold print_setting; cbn [fst snd]; rewrite <- !app_assoc; cbn [app]; by rewrite <- app_assoc).
  rewrite split_line.
  2:{ apply Forall_app. split; [|constructor; [done|]]; (eapply list.Forall_impl; [apply Hk || apply Hv|]; intros ch Hch; by apply word_char_facts). }
  cbn [map fold_left app]. change (setting_of (words (strip_comment (k ++ SPACE :: v)))) with (line_setting (k ++ SPACE :: v)).
  rewrite setting_line by done. apply IH.
Qed.

Lemma added_other es m k : k ∉ es.*1 -> fold_left add_setting (map Some es) m !! k = m !! k.
Proof.
  revert m. induction es as [|[k0 v0] es IH]; intros m Hk; cbn [map fold_left add_setting fmap list_fmap] in *; [done|].
  rewrite IH by set_solver. apply lookup_insert_ne. set_solver.
Qed.
Lemma added_lookup es m k v : NoDup es.*1 -> (k, v) ∈ es -> fold_left add_setting (map Some es) m !! k = Some v.
Proof.
  revert m. induction es as [|[k0 v0] es IH]; intros m Hnd Hin; [set_solver|]. cbn [map fold_left add_setting fmap list_fmap fst] in *.
  rewrite list.NoDup_cons in Hnd. destruct Hnd as [Hk0 Hnd]. apply elem_of_cons in Hin as [[= <- <-]|Hin]; [|by apply IH].
  rewrite added_other by done. apply lookup_insert_eq.
Qed.

Lemma dec_word n : word_ok (dec n).
Proof.
  assert (Hd : forall m, Forall (fun ch => word_char ch = true) (rev (dec_rev 10 m))).
  { intros m. apply Forall_rev. eapply list.Forall_impl; [apply dec_rev_digits|]. intros ch. unfold is_digit, word_char, SEMICOLON. lia. }
  assert (Hl : forall m, (1 <= length (rev (dec_rev 10 m)) <= 10)%nat).
  { intros m. rewrite length_rev. pose proof (dec_rev_length 10 m). split; [cbn; lia|done]. }
  unfold dec. destruct (n <? 0); split_and!.
  - done.
  - specialize (Hl (- n)). cbn [length]. lia.
  - by constructor.
  - intros E. specialize (Hl n). rewrite E in Hl. cbn in Hl. lia.
  - specialize (Hl n). lia.
  - done.
Qed.

Lemma print_ascii es : Forall (fun e => word_ok (fst e) /\ word_ok (snd e)) es -> Forall (in_range 7) (print_settings es).
Proof.
  assert (Hw : forall w, word_ok w -> Forall (in_range 7) w).
  { intros w (_ & _ & H). eapply list.Forall_impl; [exact H|]. intros ch Hch%word_char_facts. unfold in_range. change (2 ^ 7) with 128. lia. }
  induction 1 as [|e es [Hk Hv] _ IH]; [constructor|]. unfold print_settings, print_setting. cbn [map concat].
  rewrite !list.Forall_app, list.Forall_cons, list.Forall_app, list.Forall_cons. split_and!; first [by apply Hw | by apply list.Forall_nil | exact IH | done].
Qed.

Section roundtrip.
Context {MALLOC : Malloc} {ML : MallocLaws}.

(** C36: numbers survive the configuration file: the settings that are printed as a key, a space and the number in
    decimal, one per line, are read back by [cfg_get_int] as they were, for all keys that are words of at most
    255 characters, all different, and all numbers of up to nine digits, the negative ones included, when the
    allocator has memory.  (With ten digits the parser overflows a signed variable, which C leaves
    undefined.) *)
Theorem cfg_int_roundtrip (kvs : list (list Z * Z)) (can_create : bool) (c : cfg_state) :
  Forall (fun e => word_ok (fst e) /\ Z.abs (snd e) < 10 ^ 9) kvs -> NoDup kvs.*1 ->
  exists c', cfg_init (Some (print_settings ((fun e => (fst e, dec (snd e))) <$> kvs))) can_create c = Ok (tt, c') /\
    forall k n, (k, n) ∈ kvs -> cfg_get_int k c' = Ok (Some n, c').
Proof.
  intros Hk Hnd. set (es := (fun e => (fst e, dec (snd e))) <$> kvs).
  assert (Hes : Forall (fun e => word_ok (fst e) /\ word_ok (snd e)) es).
  { unfold es. apply Forall_fmap. eapply list.Forall_impl; [exact Hk|]. intros [k n] [Hw _]. split; [done|apply dec_word]. }
  assert (Hfst : es.*1 = kvs.*1) by (unfold es; rewrite <- list_fmap_compose; by apply list_fmap_ext).
  destruct (init_ok (print_settings es) can_create c (print_ascii es Hes)) as (c' & E & Hs). exists c'. split; [exact E|].
  intros k n Hin. unfold cfg_get_int. rewrite (bind_ok _ _ _ _ _ (get_node_ok _ c' k Hs)), settings_printed by done.
  rewrite (added_lookup es ∅ k (dec n)); [|by rewrite Hfst|].
  - apply parse_dec. rewrite list.Forall_forall in Hk. exact (proj2 (Hk _ Hin)).
  - unfold es. apply list_elem_of_fmap. by exists (k, n).
Qed.

(** the file that the code writes when it finds none has the settings that the rest of the program asks for *)
Theorem default_file_settings (c : cfg_state) : exists c', cfg_init None true c = Ok (tt, c') /\
  cfg_get_int (str "win.external-res.x") c' = Ok (Some 640, c') /\ cfg_get_int (str "win.external-res.y") c' = Ok (Some 480, c') /\
  cfg_get_rgb (str "ui.bgcolor") c' = Ok (Some (0x3d, 0x77, 0xc0), c') /\ cfg_get_bool (str "win.vsync") c' = Ok (Some false, c') /\
  cfg_get_bool (str "audio.mute") c' = Ok (Some false, c') /\ cfg_get_node (str "wash.ctrl.exit") c' = Ok (None, c').
Proof.
  destruct (init_ok cfg_default_text true c) as (c' & E & Hs).
  { apply (bool_decide_unpack (Forall (fun x => 0 <= x < 128) _)). by vm_compute. }
  exists c'. assert (E0 : cfg_init None true = cfg_init (Some cfg_default_text) true) by (unfold cfg_init; cbn match; reflexivity).
  rewrite E0. split; [exact E|]. clear E E0. unfold cfg_get_int, cfg_get_rgb, cfg_get_bool.
  assert (Hg : forall k, cfg_get_node k c' = Ok (settings cfg_default_text !! k, c')) by (intros k; by apply get_node_ok).
  assert (Hl : forall k v, (settings cfg_default_text !! k = v) -> cfg_get_node k c' = Ok (v, c')) by (intros k v <-; apply Hg).
  split_and!.
  - rewrite (bind_ok _ _ _ (Some (str "640")) c') by (apply Hl; by vm_compute). by vm_compute.
  - rewrite (bind_ok _ _ _ (Some (str "480")) c') by (apply Hl; by vm_compute). by vm_compute.
  - rewrite (bind_ok _ _ _ (Some (str "#3d77c0")) c') by (apply Hl; by vm_compute). by vm_compute.
  - rewrite (bind_ok _ _ _ (Some (str "false")) c') by (apply Hl; by vm_compute). by vm_compute.
  - rewrite (bind_ok _ _ _ (Some (str "false")) c') by (apply Hl; by vm_compute). by vm_compute.
  - apply Hl. by vm_compute.
Qed.
End roundtrip.

(** *** Witnesses, with an allocator *)
Definition bump : Malloc := fun used => Some (fresh used).
Lemma bump_laws : @MallocLaws bump.
Proof. split; [|by eexists]. intros used a [= <-]. apply is_fresh. Qed.

Definition cfg_boot : cfg_state :=
  {| parse_state := CFG_PARSE_PRE_KEY; key_len := 0; val_len := 0; key := []; val := []; line_count := 0;
     cfg_nodes := {| fifo.first := None; fifo.plast := fifo.FirstPtr; fifo.nodes := ∅ |}; in_comment := false; heap := ∅ |}.

Lemma cfg_file_refines_witness :
  exists c', @cfg_init bump (Some (str "a 1 ; one" ++ [NEWLINE] ++ str "b" ++ [NEWLINE] ++ str "a 2")) false cfg_boot = Ok (tt, c') /\
    cfg_get_node (str "a") c' = Ok (Some (str "2"), c') /\ cfg_get_node (str "b") c' = Ok (None, c').
Proof.
  destruct (@cfg_file_refines bump bump_laws (str "a 1 ; one" ++ [NEWLINE] ++ str "b" ++ [NEWLINE] ++ str "a 2") false cfg_boot) as (c' & E & H).
  - apply (bool_decide_unpack (Forall (fun x => 0 <= x < 128) _)). by vm_compute.
  - exists c'. split; [exact E|]. rewrite !H. split; [by vm_compute|by vm_compute].
Defined.

Lemma cfg_int_roundtrip_witness :
  exists c', @cfg_init bump (Some (str "x -999999999" ++ [NEWLINE] ++ str "y 7" ++ [NEWLINE])) false cfg_boot = Ok (tt, c') /\
    cfg_get_int (str "x") c' = Ok (Some (-999999999), c').
Proof.
  destruct (@cfg_int_roundtrip bump bump_laws [(str "x", -999999999); (str "y", 7)] false cfg_boot) as (c' & E & H).
  - repeat constructor; vm_compute; intuition congruence || lia.
  - apply (bool_decide_unpack _). by vm_compute.
  - exists c'. split; [exact E|]. apply H. by left.
Defined.
