(* ===== verification/Ring.v ===== *)
(** The single-producer, single-consumer ring buffer (src/libwashdc/include/washdc/ring.h,
    the code that [DEF_RING] generates) under every interleaving of its two threads.

    A thread's program counter and local variables are a constructor of [producer] or
    [consumer]; each step performs at most one access to the shared structure.  The
    accesses to the two indices are atomic with acquire and release ordering, so the
    executions are interleavings of the steps as long as the plain accesses to [buf] do
    not race, which is one of the properties.  [sent] and [received] are histories that the
    code does not keep: the arguments of the calls of [produce] whose publication has taken effect, in
    the order of the calls, and the values that the calls of [consume] give. *)
From stdpp Require Import gmap.
From S2P Require Import Prelude.
#[local] Open Scope nat_scope.

Module ring.
Section ring.
Context {A : Type} (log : nat).

Definition ring_size : nat := 2 ^ log.
(** [(i + 1) & ((1 << log) - 1)] *)
Definition next_idx (i : nat) : nat := (i + 1) mod ring_size.

(** between calls; after the first load; after the second; after the write to [buf] *)
Inductive producer : Type :=
| PIdle
| PLoadedProd (val : A) (prod_idx : nat)
| PLoadedCons (val : A) (prod_idx cons_idx : nat)
| PWritten (val : A) (next_prod_idx : nat).

Inductive consumer : Type :=
| CIdle
| CLoadedCons (cons_idx : nat)
| CLoadedProd (cons_idx prod_idx : nat)
| CRead (next_cons_idx : nat) (out : A).

Record ring : Type := {
  prod_idx : nat;
  cons_idx : nat;
  buf : list A;
  prod : producer;
  cons : consumer;
  sent : list A;
  received : list A
}.

Definition with_prod (p : producer) (r : ring) : ring :=
  {| prod_idx := prod_idx r; cons_idx := cons_idx r; buf := buf r; prod := p;
     cons := cons r; sent := sent r; received := received r |}.
Definition with_cons (c : consumer) (r : ring) : ring :=
  {| prod_idx := prod_idx r; cons_idx := cons_idx r; buf := buf r; prod := prod r;
     cons := c; sent := sent r; received := received r |}.

Definition ring_init (b : list A) : ring :=
  {| prod_idx := 0; cons_idx := 0; buf := b; prod := PIdle; cons := CIdle;
     sent := []; received := [] |}.

(** the steps of [produce] and of [consume] *)
Inductive step : ring -> ring -> Prop :=
| produce_load_prod r val :
    prod r = PIdle -> step r (with_prod (PLoadedProd val (prod_idx r)) r)
| produce_load_cons r val p :
    prod r = PLoadedProd val p -> step r (with_prod (PLoadedCons val p (cons_idx r)) r)
| produce_full r val p c :
    prod r = PLoadedCons val p c -> next_idx p = c -> step r (with_prod PIdle r)
| produce_write r val p c :
    prod r = PLoadedCons val p c -> next_idx p <> c ->
    step r {| prod_idx := prod_idx r; cons_idx := cons_idx r; buf := <[p := val]> (buf r);
              prod := PWritten val (next_idx p); cons := cons r;
              sent := sent r; received := received r |}
| produce_publish r val n :
    prod r = PWritten val n ->
    step r {| prod_idx := n; cons_idx := cons_idx r; buf := buf r; prod := PIdle;
              cons := cons r; sent := sent r ++ [val]; received := received r |}
| consume_load_cons r :
    cons r = CIdle -> step r (with_cons (CLoadedCons (cons_idx r)) r)
| consume_load_prod r c :
    cons r = CLoadedCons c -> step r (with_cons (CLoadedProd c (prod_idx r)) r)
| consume_empty r c p :
    cons r = CLoadedProd c p -> p = c -> step r (with_cons CIdle r)
| consume_read r c p val :
    cons r = CLoadedProd c p -> p <> c -> buf r !! cons_idx r = Some val ->
    step r (with_cons (CRead (next_idx c) val) r)
| consume_release r n val :
    cons r = CRead n val ->
    step r {| prod_idx := prod_idx r; cons_idx := n; buf := buf r; prod := prod r;
              cons := CIdle; sent := sent r; received := received r ++ [val] |}.

Inductive reachable (b : list A) : ring -> Prop :=
| reach_init : reachable b (ring_init b)
| reach_step r r' : reachable b r -> step r r' -> reachable b r'.

(** the same operations run without interference *)
Definition produce (val : A) (r : ring) : bool * ring :=
  if decide (next_idx (prod_idx r) = cons_idx r) then (false, r)
  else (true, {| prod_idx := next_idx (prod_idx r); cons_idx := cons_idx r;
                 buf := <[prod_idx r := val]> (buf r); prod := prod r; cons := cons r;
                 sent := sent r ++ [val]; received := received r |}).
Definition consume (r : ring) : option A * ring :=
  if decide (prod_idx r = cons_idx r) then (None, r)
  else match buf r !! cons_idx r with
       | Some val =>
           (Some val, {| prod_idx := prod_idx r; cons_idx := next_idx (cons_idx r);
                         buf := buf r; prod := prod r; cons := cons r; sent := sent r;
                         received := received r ++ [val] |})
       | None => (None, r)
       end.

(** ** The invariant

    With [p] values sent and [c] received, the indices are [p] and [c] modulo the size, at
    most [ring_size - 1] values are in flight, and they are in the buffer.  A loaded index
    of the other thread may be stale, but only on the safe side. *)
Definition prod_inv (r : ring) : Prop :=
  let p := length (sent r) in
  let c := length (received r) in
  match prod r with
  | PIdle => True
  | PLoadedProd _ i => i = prod_idx r
  | PLoadedCons _ i k =>
      i = prod_idx r /\ exists c', k = c' mod ring_size /\ c' <= c /\ p < c' + ring_size
  | PWritten v n => n = next_idx (prod_idx r) /\ p + 1 < c + ring_size /\ buf r !! prod_idx r = Some v
  end.

Definition cons_inv (r : ring) : Prop :=
  let p := length (sent r) in
  let c := length (received r) in
  match cons r with
  | CIdle => True
  | CLoadedCons k => k = cons_idx r
  | CLoadedProd k i =>
      k = cons_idx r /\ exists p', i = p' mod ring_size /\ c <= p' <= p
  | CRead n v => n = next_idx (cons_idx r) /\ c < p /\ sent r !! c = Some v
  end.

Record ring_inv (r : ring) : Prop := {
  inv_size : length (buf r) = ring_size;
  inv_prod_idx : prod_idx r = length (sent r) mod ring_size;
  inv_cons_idx : cons_idx r = length (received r) mod ring_size;
  inv_order : length (received r) <= length (sent r);
  inv_room : length (sent r) < length (received r) + ring_size;
  inv_prefix : received r = take (length (received r)) (sent r);
  inv_buf : forall i, length (received r) <= i < length (sent r) ->
    buf r !! (i mod ring_size) = sent r !! i;
  inv_prod : prod_inv r;
  inv_cons : cons_inv r
}.

Lemma ring_size_pos : 0 < ring_size.
Proof. unfold ring_size. apply Nat.neq_0_lt_0, Nat.pow_nonzero. lia. Qed.

Lemma mod_inj i j : i <= j < i + ring_size -> i mod ring_size = j mod ring_size -> i = j.
Proof.
  pose proof ring_size_pos. intros Hr Hm.
  pose proof (Nat.div_mod_eq i ring_size). pose proof (Nat.div_mod_eq j ring_size).
  assert (i / ring_size = j / ring_size) by nia. nia.
Qed.

Lemma next_idx_mod n : next_idx (n mod ring_size) = (n + 1) mod ring_size.
Proof. unfold next_idx. by rewrite Nat.Div0.add_mod_idemp_l. Qed.

Lemma ring_inv_init b : length b = ring_size -> ring_inv (ring_init b).
Proof.
  pose proof ring_size_pos. intros Hb.
  constructor; cbn; rewrite ?Nat.Div0.mod_0_l; auto; lia.
Qed.

(** The slot that the producer is about to write holds no value in flight. *)
Lemma write_slot_free r val p c :
  ring_inv r -> prod r = PLoadedCons val p c -> next_idx p <> c ->
  p = length (sent r) mod ring_size /\ length (sent r) + 1 < length (received r) + ring_size.
Proof.
  intros [Hsz Hp Hc Ho Hr Hpre Hb HP HC] Hst Hne. unfold prod_inv in HP. rewrite Hst in HP.
  destruct HP as [-> (c' & -> & Hc' & Hroom)]. split; [done|].
  destruct (decide (length (sent r) + 1 = c' + ring_size)) as [E|]; [|lia].
  destruct Hne. rewrite Hp, next_idx_mod, E.
  rewrite <- (Nat.mul_1_l ring_size) at 1. by rewrite Nat.Div0.mod_add.
Qed.

(** The slot that the consumer is about to read holds the oldest value in flight. *)
Lemma read_slot_full r c p :
  ring_inv r -> cons r = CLoadedProd c p -> p <> c ->
  c = cons_idx r /\ length (received r) < length (sent r) /\
  buf r !! cons_idx r = sent r !! length (received r).
Proof.
  intros [Hsz Hp Hc Ho Hr Hpre Hb HP HC] Hst Hne. unfold cons_inv in HC. rewrite Hst in HC.
  destruct HC as [-> (p' & -> & Hp')]. split; [done|].
  assert (length (received r) < length (sent r)).
  { destruct (decide (p' = length (received r))) as [->|]; [by rewrite Hc in Hne|lia]. }
  split; [done|]. rewrite Hc. apply Hb. lia.
Qed.

Lemma buf_write r val :
  ring_inv r -> length (sent r) + 1 < length (received r) + ring_size ->
  forall i, length (received r) <= i < length (sent r) ->
    <[length (sent r) mod ring_size := val]> (buf r) !! (i mod ring_size) = sent r !! i.
Proof.
  intros [Hsz Hp Hc Ho Hr Hpre Hb HP HC] Hroom i Hi.
  rewrite list_lookup_insert_ne; [by apply Hb|].
  intros E. symmetry in E. apply mod_inj in E; lia.
Qed.

Lemma ring_inv_local r r' :
  prod_idx r' = prod_idx r -> cons_idx r' = cons_idx r -> buf r' = buf r ->
  sent r' = sent r -> received r' = received r -> ring_inv r ->
  prod_inv r' -> cons_inv r' -> ring_inv r'.
Proof.
  intros E1 E2 E3 E4 E5 []. intros HP HC. constructor; rewrite ?E1, ?E2, ?E3, ?E4, ?E5; auto.
Qed.

Lemma produce_publish_inv r val n :
  ring_inv r -> prod r = PWritten val n ->
  ring_inv {| prod_idx := n; cons_idx := cons_idx r; buf := buf r; prod := PIdle;
              cons := cons r; sent := sent r ++ [val]; received := received r |}.
Proof.
  intros [Hsz Hp Hc Ho Hr Hpre Hb HP HC] Hst. unfold prod_inv in HP. rewrite Hst in HP.
  destruct HP as (-> & Hroom & Hv).
  constructor; cbn; rewrite ?length_app; cbn [length]; try lia; auto.
  - by rewrite Hp, next_idx_mod.
  - rewrite take_app_le by lia. done.
  - intros i Hi. destruct (decide (i = length (sent r))) as [->|].
    + rewrite <- Hp, Hv, lookup_app_r, Nat.sub_diag by lia. done.
    + rewrite lookup_app_l by lia. apply Hb. lia.
  - unfold cons_inv in *; cbn. destruct (cons r); auto.
    + destruct HC as [? (p' & ? & ?)]. split; [done|]. exists p'. rewrite length_app. cbn. lia.
    + destruct HC as (? & ? & ?). rewrite length_app, lookup_app_l by lia. cbn. auto with lia.
Qed.

Lemma consume_release_inv r n val :
  ring_inv r -> cons r = CRead n val ->
  ring_inv {| prod_idx := prod_idx r; cons_idx := n; buf := buf r; prod := prod r;
              cons := CIdle; sent := sent r; received := received r ++ [val] |}.
Proof.
  intros [Hsz Hp Hc Ho Hr Hpre Hb HP HC] Hst. unfold cons_inv in HC. rewrite Hst in HC.
  destruct HC as (-> & Hlt & Hv).
  constructor; cbn; rewrite ?length_app; cbn [length]; try lia; auto.
  - by rewrite Hc, next_idx_mod.
  - rewrite Nat.add_1_r, (take_S_r _ _ val) by done. by rewrite <- Hpre.
  - intros i Hi. apply Hb. lia.
  - unfold prod_inv in *; cbn. rewrite length_app; cbn. destruct (prod r); auto.
    + destruct HP as [? (c' & ? & ? & ?)]. split; [done|]. exists c'. lia.
    + destruct HP as (? & ? & ?). split_and!; [done|lia|done].
Qed.

Lemma ring_inv_step r r' : ring_inv r -> step r r' -> ring_inv r'.
Proof.
  intros Hi Hs. pose proof Hi as [Hsz Hp Hc Ho Hr Hpre Hb HP HC].
  destruct Hs as [r val Hst|r val p Hst|r val p c Hst Hf|r val p c Hst Hf|r val n Hst
                 |r Hst|r c Hst|r c p Hst He|r c p val Hst He Hv|r n val Hst];
    try (apply (ring_inv_local r); auto; unfold prod_inv, cons_inv; cbn; by auto).
  - apply (ring_inv_local r); auto. unfold prod_inv in *; cbn. rewrite Hst in HP.
    split; [done|]. eexists. split; [exact Hc|]. lia.
  - destruct (write_slot_free r val p c Hi Hst Hf) as [-> Hroom].
    constructor; cbn; auto.
    + by rewrite length_insert.
    + intros i Hri. by apply buf_write.
    + split_and!; [by rewrite Hp|done|]. rewrite Hp. apply list_lookup_insert_eq. rewrite Hsz.
      apply Nat.mod_upper_bound. pose proof ring_size_pos. lia.
  - by apply produce_publish_inv.
  - apply (ring_inv_local r); auto. unfold cons_inv in *; cbn. rewrite Hst in HC.
    split; [done|]. eexists. split; [exact Hp|]. lia.
  - destruct (read_slot_full r c p Hi Hst He) as (-> & Hlt & Hs).
    apply (ring_inv_local r); auto. unfold cons_inv; cbn. split; [done|]. split; [done|].
    by rewrite <- Hs.
  - by apply consume_release_inv.
Qed.

Lemma reachable_inv b r : length b = ring_size -> reachable b r -> ring_inv r.
Proof. intros Hb. induction 1; [by apply ring_inv_init|by eapply ring_inv_step]. Qed.

(** ** Calls without interference *)
Lemma produce_iff r val :
  ring_inv r -> fst (produce val r) = true <->
    length (sent r) - length (received r) < ring_size - 1.
Proof.
  intros Hi. pose proof ring_size_pos as Hpos. pose proof Hi as [Hsz Hp Hc Ho Hr _ _ _ _].
  unfold produce.
  destruct (decide (next_idx (prod_idx r) = cons_idx r)) as [E|E]; cbn.
  - split; [done|]. intros Hn. exfalso. rewrite Hp, Hc, next_idx_mod in E. symmetry in E.
    apply mod_inj in E; lia.
  - split; [|done]. intros _.
    destruct (decide (length (sent r) + 1 = length (received r) + ring_size)) as [E'|];
      [|lia].
    destruct E. rewrite Hp, Hc, next_idx_mod, E'.
    rewrite <- (Nat.mul_1_l ring_size) at 1. by rewrite Nat.Div0.mod_add.
Qed.

Lemma produce_inv r val : ring_inv r -> prod r = PIdle -> ring_inv (snd (produce val r)).
Proof.
  intros Hi HP. unfold produce.
  destruct (decide (next_idx (prod_idx r) = cons_idx r)) as [E|E]; cbn; [done|].
  eapply ring_inv_step in Hi; [|apply (produce_load_prod _ val HP)].
  eapply ring_inv_step in Hi; [|by apply (produce_load_cons _ val (prod_idx r))].
  eapply ring_inv_step in Hi; [|by apply (produce_write _ val (prod_idx r) (cons_idx r))].
  eapply ring_inv_step in Hi; [|by apply (produce_publish _ val (next_idx (prod_idx r)))].
  cbn in Hi. by rewrite HP.
Qed.

Lemma consume_val r : ring_inv r -> fst (consume r) = sent r !! length (received r).
Proof.
  intros [Hsz Hp Hc Ho Hr _ Hb _ _]. unfold consume.
  destruct (decide (prod_idx r = cons_idx r)) as [E|E]; cbn.
  - symmetry. apply lookup_ge_None. rewrite Hp, Hc in E. symmetry in E.
    apply mod_inj in E; lia.
  - rewrite Hc, Hb by (assert (length (sent r) <> length (received r)) by congruence; lia).
    by destruct (sent r !! length (received r)).
Qed.

Lemma consume_inv r : ring_inv r -> cons r = CIdle -> ring_inv (snd (consume r)).
Proof.
  intros Hi HC. unfold consume.
  destruct (decide (prod_idx r = cons_idx r)) as [E|E]; cbn; [done|].
  destruct (buf r !! cons_idx r) as [v|] eqn:Hv; cbn; [|done].
  eapply ring_inv_step in Hi; [|apply (consume_load_cons _ HC)].
  eapply ring_inv_step in Hi; [|by apply (consume_load_prod _ (cons_idx r))].
  eapply ring_inv_step in Hi; [|by apply (consume_read _ (cons_idx r) (prod_idx r) v)].
  eapply ring_inv_step in Hi; [|by apply (consume_release _ (next_idx (cons_idx r)) v)].
  cbn in Hi. by rewrite HC.
Qed.

(** ** Properties *)

(** C34: whatever the interleaving of the two threads, the values that [consume] has given are a prefix of
    the arguments of the calls of [produce] that have published theirs, in the order of the calls,
    without loss or duplication, and at most [ring_size - 1] values are in flight.  (The atomic accesses interleave in
    the model; the plain accesses to the buffer do not race, as [ring_race_free] shows.) *)
Theorem ring_fifo (b : list A) (r : ring) :
  length b = ring_size -> reachable b r ->
  received r = take (length (received r)) (sent r) /\
  length (received r) <= length (sent r) < length (received r) + ring_size.
Proof. intros Hb Hr. destruct (reachable_inv b r Hb Hr). auto. Qed.

(** the unsynchronised accesses to the buffer never race: when the producer is about to
    write a slot and the consumer is about to read one, the slots differ, and a slot that is
    about to be read exists. *)
Theorem ring_race_free (b : list A) (r : ring) (val : A) (p c c' p' : nat) :
  length b = ring_size -> reachable b r ->
  prod r = PLoadedCons val p c -> next_idx p <> c ->
  cons r = CLoadedProd c' p' -> p' <> c' ->
  p <> cons_idx r /\ p < length (buf r) /\ is_Some (buf r !! cons_idx r).
Proof.
  intros Hb Hr HP Hp HC Hc. pose proof (reachable_inv b r Hb Hr) as Hi.
  destruct (write_slot_free r val p c Hi HP Hp) as [-> Hroom].
  destruct (read_slot_full r c' p' Hi HC Hc) as (-> & Hlt & Hs).
  destruct Hi as [Hsz Hpi Hci _ _ _ _ _ _]. split_and!.
  - rewrite Hci. intros E. symmetry in E. apply mod_inj in E; lia.
  - rewrite Hsz. apply Nat.mod_upper_bound. pose proof ring_size_pos. lia.
  - rewrite Hs. apply lookup_lt_is_Some. lia.
Qed.

(** without interference [produce] fails exactly when [ring_size - 1] values are in
    flight, and [consume] returns the oldest one or fails exactly when there is none; both
    keep the invariant. *)
Theorem ring_sequential (r : ring) (val : A) :
  ring_inv r -> prod r = PIdle -> cons r = CIdle ->
  let n := length (sent r) - length (received r) in
  (fst (produce val r) = true <-> n < ring_size - 1) /\
  ring_inv (snd (produce val r)) /\
  fst (consume r) = sent r !! length (received r) /\
  ring_inv (snd (consume r)).
Proof.
  intros Hi HP HC n.
  auto using produce_iff, produce_inv, consume_val, consume_inv.
Qed.
End ring.

(** *** A ring of four slots in which each thread is in the middle of a call *)
Definition demo_init : ring := ring_init [0; 0; 0; 0].
Definition demo_one : ring := snd (produce 2 7 demo_init).
Definition demo_busy : ring :=
  with_cons (CLoadedProd 0 1) (with_prod (PLoadedCons 8 1 0) demo_one).

Lemma demo_one_reachable : reachable 2 [0; 0; 0; 0] demo_one.
Proof.
  pose proof (reach_init 2 [0; 0; 0; 0]) as Hr.
  eapply reach_step in Hr; [|by apply (produce_load_prod 2 _ 7)].
  eapply reach_step in Hr; [|by apply (produce_load_cons 2 _ 7 0)].
  eapply reach_step in Hr; [|by apply (produce_write 2 _ 7 0 0)].
  eapply reach_step in Hr; [|by apply (produce_publish 2 _ 7 1)].
  exact Hr.
Qed.

Lemma demo_busy_reachable : reachable 2 [0; 0; 0; 0] demo_busy.
Proof.
  pose proof demo_one_reachable as Hr.
  eapply reach_step in Hr; [|by apply (produce_load_prod 2 _ 8)].
  eapply reach_step in Hr; [|by apply (produce_load_cons 2 _ 8 1)].
  eapply reach_step in Hr; [|by apply (consume_load_cons 2 _)].
  eapply reach_step in Hr; [|by apply (consume_load_prod 2 _ 0)].
  exact Hr.
Qed.

Lemma ring_fifo_witness :
  received demo_busy = take 0 (sent demo_busy) /\ 0 <= 1 < 0 + ring_size 2.
Proof. exact (ring_fifo 2 [0; 0; 0; 0] demo_busy eq_refl demo_busy_reachable). Defined.

Lemma ring_race_free_witness :
  1 <> cons_idx demo_busy /\ 1 < length (buf demo_busy) /\
  is_Some (buf demo_busy !! cons_idx demo_busy).
Proof.
  apply (ring_race_free 2 [0; 0; 0; 0] demo_busy 8 1 0 0 1 eq_refl demo_busy_reachable eq_refl).
  - discriminate.
  - reflexivity.
  - discriminate.
Defined.

Lemma ring_sequential_witness :
  (fst (produce 2 9 demo_one) = true <-> 1 - 0 < ring_size 2 - 1) /\
  ring_inv 2 (snd (produce 2 9 demo_one)) /\
  fst (consume 2 demo_one) = Some 7 /\
  ring_inv 2 (snd (consume 2 demo_one)).
Proof.
  apply (ring_sequential 2 demo_one 9).
  - exact (reachable_inv 2 [0; 0; 0; 0] demo_one eq_refl demo_one_reachable).
  - reflexivity.
  - reflexivity.
Defined.
End ring.
